(* ===== verification/_CoqProject ===== *)
-Q . S2P
Prelude.v
K8s.v
Api.v
Sample.v
Utils.v
Score.v
CycleState.v
Plugins.v
ClusterAffinity.v
TopologySpread.v
Defaulter.v
FrameworkUtils.v
FrameworkUtilsProofs.v
Hub.v
Overrider.v
Eligibility.v
Rollout.v
Eviction.v
EvictionProofs.v
Validator.v
ValidatorProofs.v
Webhook.v
Framework.v
Safety.v
RolloutProofs.v
RolloutExamples.v
SchedulerProfile.v
FrameworkProofs.v
Queue.v
QueueProofs.v
Scheduler.v
SchedulerProofs.v
Watchers.v
UpdateRunApi.v
UpdateRunExec.v
UpdateRun.v
UpdateRunProofs.v
UpdateRunSafety.v
UpdateRunStages.v
UpdateRunReach.v
UpdateRunExamples.v
WorkApi.v
WorkOverride.v
WorkSummary.v
WorkGen.v
WorkGenProofs.v
WorkGenSafety.v
WorkGenErrors.v
WorkGenExamples.v
ApplierApi.v
RateLimiter.v
RateLimiterProofs.v
ApplierQueue.v
ApplierDiff.v
Apply.v
ApplierProcess.v
Availability.v
ApplierStatus.v
ApplierPre.v
Applier.v
ApplierDiffProofs.v
ApplierStatusProofs.v
ApplierSafety.v
ApplierOwns.v
ApplierOwnership.v
ApplierExamples.v
PlacementApi.v
PolicySnapshots.v
ResourceSnapshots.v
PlacementStatus.v
Placement.v
ResourceSelection.v
SnapshotStore.v
PolicySnapshotsProofs.v
ResourceGroups.v
ResourceSnapshotsProofs.v
PlacementStatusProofs.v
PlacementProofs.v
ResourceSelectionProofs.v
PlacementExamples.v
