(* ===== verification/Prelude.v ===== *)
(** * KubeFleet: a verification development

    KubeFleet places Kubernetes resources from a hub cluster on a fleet of
    member clusters.  A user writes a placement; the placement controller
    takes snapshots of its policy and of the resources it selects, and reports
    its status; the scheduler picks clusters for the policy snapshot and
    records each pick as a binding; a rollout (or a staged update
    run) moves the bindings to the latest snapshot of the selected resources
    within the limits the user set; the work generator turns a binding into
    Work objects, and the work applier of the member cluster applies their
    manifests there; evictions remove bindings within a disruption budget;
    webhooks refuse what the controllers could not handle.
    The controllers do not call each other: they meet on the objects that the
    API server of the hub stores, each of them running while the others write.

    ** How the code is modelled

    The files are translations of the Go sources under [pkg] and [apis].  Pure
    functions are functions; a Go error is a value of [outcome], and so is a
    panic; a machine integer is a [Z] with its wrap-around written out; a
    floating-point number is a [spec_float] of binary64; a map that is only
    looked up is a [gmap], and where Go iterates over a map the order is a parameter, so
    that the theorems hold for every order.  A function that talks to the hub
    is a computation [W -> W * outcome A] on an abstract world [W], and the
    calls it makes are the fields of a class ([HubClient], [PlacementReader],
    [SnapshotReader], [RolloutClient], [EvictionClient], [SchedulerClient],
    [UpdateRunClient], [WorkQueue], ...).  What the proofs need of the
    Kubernetes packages is stated as laws ([K8sLaws], [HubLaws],
    [WorkQueueLaws], [UpdateRunLaws], ...), which are weak on purpose: a call
    may fail, may take effect although it reports an error, and other
    controllers may act in between.  Every class of laws has an instance in
    memory ([ref_laws], [Mem], [Static], [MemRun], ...), on which the theorems
    are evaluated.  Logging is left out everywhere, metrics and events
    everywhere but in the placement controller.

    ** The files

    - [Prelude]: outcomes, the two monads, Go's slices, sorting and integers,
      the tactics and the hint databases of the development.
    - [K8s], [Api], [Sample]: the types and functions of the Kubernetes
      libraries, the custom resources, and constructors of small objects.
    - [Utils], [Hub]: [pkg/utils] helpers, and the client of the hub.
    - Scheduler ([pkg/scheduler]): [Score], [CycleState], [Plugins],
      [ClusterAffinity], [TopologySpread], [FrameworkUtils], [Framework],
      [SchedulerProfile] model a scheduling cycle; [Queue], [Scheduler] and
      [Watchers] the queues, the workers and what wakes them.  [Safety],
      [FrameworkUtilsProofs], [FrameworkProofs], [QueueProofs] and
      [SchedulerProofs] hold their theorems.
    - Rollout ([pkg/controllers/rollout]): [Rollout], [RolloutProofs],
      [RolloutExamples].
    - Staged update runs ([pkg/controllers/updaterun]): [UpdateRunApi],
      [UpdateRunExec], [UpdateRun]; theorems in [UpdateRunProofs],
      [UpdateRunSafety], [UpdateRunStages], [UpdateRunReach], and an example
      in [UpdateRunExamples].
    - Work generator ([pkg/controllers/workgenerator]): [WorkApi],
      [WorkOverride], [WorkSummary], [WorkGen]; theorems in [WorkGenProofs],
      [WorkGenSafety], [WorkGenErrors] and [WorkGenExamples].
    - Work applier ([pkg/controllers/workapplier]): [ApplierApi] (objects of a
      member cluster), [RateLimiter] ([backoff.go]), [ApplierQueue] ([pq.go],
      [waves.go]), [ApplierDiff] ([utils.go] and the comparisons), [Apply]
      ([apply.go], [drift_detection_takeover.go]), [ApplierProcess]
      ([process.go]), [Availability], [ApplierStatus] ([status.go]),
      [ApplierPre] ([preprocess.go]), [Applier] ([controller.go]); theorems in
      [RateLimiterProofs], [ApplierDiffProofs], [ApplierStatusProofs], and for
      whole reconciliations in [ApplierSafety] (a Hoare logic of observed
      calls), [ApplierOwns], [ApplierOwnership]; examples in [ApplierExamples].
    - Placement controller ([pkg/controllers/placement], and the snapshot and
      selector resolvers of [pkg/utils/controller]): [PlacementApi] (accessors,
      labels, annotations and the calls), [PolicySnapshots],
      [ResourceSnapshots] (with [snapshot_builder.go]), [PlacementStatus],
      [Placement], [ResourceSelection]; theorems in [SnapshotStore] (a Hoare
      logic of stores whose calls may fail after they took effect, and one in
      memory),
      [PolicySnapshotsProofs], [ResourceGroups] (the pieces and the shape of
      the groups), [ResourceSnapshotsProofs], [PlacementStatusProofs],
      [PlacementProofs], [ResourceSelectionProofs]; examples in
      [PlacementExamples].
    - Evictions ([pkg/controllers/clusterresourceplacementeviction]):
      [Eviction], [EvictionProofs].
    - [Overrider], [Eligibility], [Defaulter], [Validator] with
      [ValidatorProofs]: the packages of [pkg/utils] with these names.
    - [Webhook]: the admission handlers of [pkg/webhook].

    ** What the theorems show

    - When the placement controller leaves a placement alone, the latest
      snapshots have its policy and exactly the resources it selects, and all
      the clusters the scheduler picked have rolled them out.  On the way, at
      most one policy snapshot and one group of resource snapshots is the
      latest, the groups stay complete or can be completed, and the history
      stays within its limit, whichever calls fail; the selected resources are
      distinct, may be placed, and come in an order that does not depend on
      the caches; the pieces they are split into are as full as the limit lets
      them be; and the status says that a rollout is complete if it is.
    - No two live bindings of a placement are on one cluster, whatever the
      hub answers and whatever fails and is retried: of a scheduling cycle
      with the default profile, of a worker of the scheduler around it, and of
      a reconciliation of the rollout controller.
    - A cycle picks what the policy asks for: exactly the clusters that meet
      every requirement (PickAll), the best ones up to the number wanted
      (PickN), and a downscale removes the worst.  The arithmetic of topology
      spread is equal to the skew of the whole spread.
    - A rolling update keeps the number of available bindings above, and the
      number of bindings below, the limits of the strategy; it accounts for
      every binding, and a healthy rollout that is not finished moves.
    - A staged update run touches its stages in order, updates at most the
      configured number of clusters at a time, starts a stage only after its
      approval, and its stages partition the selected clusters; all of this of
      every state that reconciliations, approvals and changes of the
      specification can reach.
    - An eviction that is executed is within the budget that was read.
    - The work generator writes no Work but those of its binding, gives every
      resource the manifest it would have alone, reports a binding as ready
      only with works that are, and reports an error before it retries.
    - The work applier touches only objects that its [AppliedWork] owns, none
      before the attempt is in the status of the Work, and lets a Work go only
      after its [AppliedWork] is gone, whatever the two API servers answer;
      the status of the Work tells which manifests are applied and available;
      drifts are looked for exactly while a manifest has not changed; the data
      of a Secret is not reported; and the delays between the rounds grow up
      to the cap, in the arithmetic of 64-bit floats.
    - The scheduling queues lose no key, hand a key to one worker at a time,
      and every move of the batched queue ends.
    - Validation: the consistency check of requirements is characterised
      exactly, an accepted placement spares the controllers the panics and
      errors it is meant to, and overrides admitted one after another never
      share a resource.  The admission guard lets nobody but the fleet's own
      agents and administrators change the fleet's resources.
    Lemmas that show where the code does not do what its comments say have
    names such as [nil_maxSkew_panics] or [mover_outlives_close], and stand
    next to the theorems of their component.

    ** Bounds and fuel

    [go_sort] is insertion sort, a total function.  The recursions that follow
    a Go loop over a slice are structural.  Loops that end only because of
    their data are steps of a relation with a measure that decreases, such as
    the moves of the batched queue, or take as fuel the length of what they
    consume ([popKeys], [splitLoop]) or the number of variables they replace
    ([replaceLoop]).  The retries of [retry.OnError] are those of the
    backoff that the source passes.  Integers are unbounded only where the source counts the elements
    of a list.

    ** What is not modelled

    The controllers of member clusters and the small controllers that mirror
    objects; the workers that the parallelizer of the work applier runs at the
    same time, which are modelled one after the other; the property providers and the resource watcher, whose code is
    mostly calls of client libraries; the second generation of the controllers
    under [pkg/v1]; the admission policies, whose rules are evaluated by the
    API server; the commands, the metrics, the certificates of the webhooks
    and the generated deep copies. *)

From Stdlib Require Import Ascii OrderedTypeEx.
From stdpp Require Import prelude gmap strings sorting pretty.

#[global] Set Default Goal Selector "!".

Declare Scope fleet_scope.
Delimit Scope fleet_scope with fleet.
Open Scope fleet_scope.

(** ** Go errors

    The controllers classify an error by wrapping it with one of the sentinel
    errors of [pkg/utils/controller/controller.go]; callers branch on the
    sentinel with [errors.Is].  [ErrAPI] is an error of the Kubernetes API
    machinery, as the client returns it, before it is classified; [ErrPlain]
    is the result of a plain [fmt.Errorf]. *)

Inductive api_reason : Set :=
| NotFound
| AlreadyExists
| Conflict
| ServiceUnavailable
| ServerTimeout
| Invalid
| OtherStatus       (** any other [*apierrors.StatusError] *)
| ContextDone       (** [context.Canceled] or [context.DeadlineExceeded] *)
| NonStatus.        (** an error that is not a [StatusError], e.g. from the cache *)

#[global] Instance api_reason_eq_dec : EqDecision api_reason.
Proof. solve_decision. Defined.

Inductive goerr : Set :=
| ErrUnexpectedBehavior (msg : string)
| ErrExpectedBehavior (msg : string)
| ErrAPIServerError (msg : string)
| ErrUserError (msg : string)
| ErrAPI (reason : api_reason) (msg : string)
| ErrAborted (msg : string)  (** [errStagedUpdatedAborted] of the update runs *)
| ErrPlain (msg : string).

#[global] Instance goerr_eq_dec : EqDecision goerr.
Proof. solve_decision. Defined.

(** [err.Error()], up to the fixed text of the sentinel. *)
Definition error_msg (e : goerr) : string :=
  match e with
  | ErrUnexpectedBehavior m | ErrExpectedBehavior m | ErrAPIServerError m
  | ErrUserError m | ErrAPI _ m | ErrAborted m | ErrPlain m => m
  end.

(** [fmt.Errorf("prefix: %w", err)]: the wrapped error stays visible to
    [errors.Is]. *)
Definition wrap_error (prefix : string) (e : goerr) : goerr :=
  match e with
  | ErrUnexpectedBehavior m => ErrUnexpectedBehavior (prefix +:+ ": "%string +:+ m)
  | ErrExpectedBehavior m => ErrExpectedBehavior (prefix +:+ ": "%string +:+ m)
  | ErrAPIServerError m => ErrAPIServerError (prefix +:+ ": "%string +:+ m)
  | ErrUserError m => ErrUserError (prefix +:+ ": "%string +:+ m)
  | ErrAPI r m => ErrAPI r (prefix +:+ ": "%string +:+ m)
  | ErrAborted m => ErrAborted (prefix +:+ ": "%string +:+ m)
  | ErrPlain m => ErrPlain (prefix +:+ ": "%string +:+ m)
  end.

(** ** Results

    A Go function that returns [(T, error)] is a function to [outcome T]; a
    run-time panic (a nil dereference, an index out of range) is a third case,
    never an error value. *)

Inductive outcome (A : Type) : Type :=
| Ok (a : A)
| Err (e : goerr)
| Panic (why : string).
Arguments Ok {A} _.
Arguments Err {A} _.
Arguments Panic {A} _.

#[global] Instance outcome_eq_dec {A} `{EqDecision A} : EqDecision (outcome A).
Proof. solve_decision. Defined.

Definition obind {A B} (f : A -> outcome B) (m : outcome A) : outcome B :=
  match m with
  | Ok a => f a
  | Err e => Err e
  | Panic w => Panic w
  end.

Notation "'let!' x ':=' m 'in' k" := (obind (fun x => k) m)
  (at level 10, x pattern, m at level 100, k at level 200)
  : fleet_scope.

Definition is_ok {A} (m : outcome A) : bool :=
  match m with Ok _ => true | _ => false end.

Lemma obind_Ok {A B} (f : A -> outcome B) m b :
  obind f m = Ok b <-> exists a, m = Ok a /\ f a = Ok b.
Proof. destruct m; simpl; naive_solver. Qed.

(** To prove something of a result without naming it. *)
Lemma Ok_elim {A} (P : A -> Prop) (m : outcome A) a :
  match m with Ok a => P a | _ => True end -> m = Ok a -> P a.
Proof. intros H ->. exact H. Qed.

Lemma obind_assoc {A B C} (f : A -> outcome B) (g : B -> outcome C) m :
  obind g (obind f m) = obind (fun a => obind g (f a)) m.
Proof. by destruct m. Qed.

(** [if err != nil { return fmt.Errorf("prefix: %w", err) }] *)
Definition owrap {A} (prefix : string) (m : outcome A) : outcome A :=
  match m with
  | Err e => Err (wrap_error prefix e)
  | _ => m
  end.

Definition nil_dereference {A} : outcome A :=
  Panic "invalid memory address or nil pointer dereference".

(** [for _, x := range xs { acc, err = f(acc, x); if err != nil { return } }] *)
Fixpoint ofold {A S} (f : S -> A -> outcome S) (s : S) (xs : list A) : outcome S :=
  match xs with
  | [] => Ok s
  | x :: xs => let! s' := f s x in ofold f s' xs
  end.

Lemma ofold_app {A S} (f : S -> A -> outcome S) s xs ys :
  ofold f s (xs ++ ys) = let! s' := ofold f s xs in ofold f s' ys.
Proof.
  revert s; induction xs as [|x xs IH]; intros s; simpl; [done|].
  destruct (f s x); simpl; [apply IH|done|done].
Qed.

Lemma ofold_invariant {A S} (P : S -> Prop) (f : S -> A -> outcome S) s xs s' :
  P s ->
  (forall s x s', x ∈ xs -> P s -> f s x = Ok s' -> P s') ->
  ofold f s xs = Ok s' -> P s'.
Proof.
  revert s; induction xs as [|x xs IH]; intros s Hs Hstep; simpl.
  - by intros [= ->].
  - rewrite obind_Ok. intros (s1 & H1 & H2).
    eapply (IH s1); [|  |done].
    + eapply Hstep; [by left|done|done].
    + intros s2 y s3 Hy. apply Hstep. by right.
Qed.

(** ** Machine integers

    [int] is 64 bits wide; [int32] arithmetic wraps around. *)

Definition wrap (bits : Z) (z : Z) : Z :=
  ((z + 2 ^ (bits - 1)) mod 2 ^ bits - 2 ^ (bits - 1))%Z.
Definition wrap32 : Z -> Z := wrap 32.
Definition wrap64 : Z -> Z := wrap 64.

Definition in_range (bits : Z) (z : Z) : Prop :=
  (- 2 ^ (bits - 1) <= z < 2 ^ (bits - 1))%Z.

Lemma wrap_in_range bits z : (0 < bits)%Z -> in_range bits (wrap bits z).
Proof.
  intros Hb. unfold in_range, wrap.
  assert (H2 : (2 ^ bits = 2 * 2 ^ (bits - 1))%Z).
  { rewrite <- Z.pow_succ_r by lia. f_equal. lia. }
  pose proof (Z.mod_pos_bound (z + 2 ^ (bits - 1)) (2 ^ bits)
                ltac:(apply Z.pow_pos_nonneg; lia)). lia.
Qed.

Lemma wrap_id bits z : (0 < bits)%Z -> in_range bits z -> wrap bits z = z.
Proof.
  unfold in_range, wrap. intros Hb Hz.
  assert (H2 : (2 ^ bits = 2 * 2 ^ (bits - 1))%Z).
  { rewrite <- Z.pow_succ_r by lia. f_equal. lia. }
  rewrite Z.mod_small by lia. lia.
Qed.

Lemma wrap_add_idemp_l bits x y :
  (0 < bits)%Z -> wrap bits (wrap bits x + y) = wrap bits (x + y).
Proof.
  intros Hb. unfold wrap. f_equal.
  replace ((x + 2 ^ (bits - 1)) mod 2 ^ bits - 2 ^ (bits - 1) + y + 2 ^ (bits - 1))%Z
    with ((x + 2 ^ (bits - 1)) mod 2 ^ bits + y)%Z by lia.
  rewrite Zplus_mod_idemp_l. f_equal. lia.
Qed.

Lemma wrap_add_idemp_r bits x y :
  (0 < bits)%Z -> wrap bits (x + wrap bits y) = wrap bits (x + y).
Proof. intros. rewrite !(Z.add_comm x). by apply wrap_add_idemp_l. Qed.

Lemma wrap32_id z : in_range 32 z -> wrap32 z = z.
Proof. by apply wrap_id. Qed.

Lemma wrap64_id z : in_range 64 z -> wrap64 z = z.
Proof. by apply wrap_id. Qed.

(** ** Strings

    Go compares strings byte by byte, as [String.compare] does. *)

Definition str_lt (a b : string) : bool := String.ltb a b.

Lemma str_lt_spec a b : str_lt a b = true <-> String.compare a b = Lt.
Proof. unfold str_lt, String.ltb. destruct (String.compare a b); naive_solver. Qed.

Lemma str_lt_irrefl a : str_lt a a = false.
Proof.
  destruct (str_lt a a) eqn:E; [|done].
  apply str_lt_spec in E. pose proof (proj2 (String_as_OT.cmp_eq a a) eq_refl).
  unfold String_as_OT.cmp in *. congruence.
Qed.

Lemma str_lt_trans a b c : str_lt a b = true -> str_lt b c = true -> str_lt a c = true.
Proof.
  rewrite !str_lt_spec. intros H1%String_as_OT.cmp_lt H2%String_as_OT.cmp_lt.
  apply String_as_OT.cmp_lt. by eapply String_as_OT.lt_trans.
Qed.

Lemma str_lt_total a b : str_lt a b = true \/ a = b \/ str_lt b a = true.
Proof.
  rewrite !str_lt_spec, (String.compare_antisym b a).
  destruct (String.compare a b) eqn:E; simpl; [|by left|by right; right].
  right; left. by apply String.compare_eq_iff.
Qed.

Lemma str_lt_asym a b : str_lt a b = true -> str_lt b a = false.
Proof.
  intros H. destruct (str_lt b a) eqn:E; [|done].
  pose proof (str_lt_trans _ _ _ H E). pose proof (str_lt_irrefl a). congruence.
Qed.

Lemma str_lt_false_eq a b : str_lt a b = false -> str_lt b a = false -> a = b.
Proof. destruct (str_lt_total a b) as [?|[?|?]]; congruence. Qed.

Lemma str_lt_negtrans a b c :
  str_lt a b = false -> str_lt b c = false -> str_lt a c = false.
Proof.
  intros H1 H2. destruct (str_lt a c) eqn:E; [|done].
  destruct (str_lt_total b c) as [?|[->|H]]; [congruence|congruence|].
  pose proof (str_lt_trans _ _ _ E H). congruence.
Qed.

(** [%q] of a printable string: quotes and backslashes are escaped. *)
Fixpoint go_escape (s : string) : string :=
  match s with
  | EmptyString => EmptyString
  | String a r =>
      if (nat_of_ascii a =? 34) || (nat_of_ascii a =? 92)
      then String (ascii_of_nat 92) (String a (go_escape r))
      else String a (go_escape r)
  end.

Definition go_quote (s : string) : string :=
  String (ascii_of_nat 34) (go_escape s) +:+ String (ascii_of_nat 34) EmptyString.

(** [%d] *)
Definition zstr (z : Z) : string := pretty z.

Definition slash : ascii := "/"%char.
Definition dash : ascii := "-"%char.
Definition comma : ascii := ","%char.
Definition semicolon : ascii := ";"%char.

(** [strings.Contains(s, string(c))] *)
Fixpoint str_contains (c : ascii) (s : string) : bool :=
  match s with
  | EmptyString => false
  | String a s => Ascii.eqb a c || str_contains c s
  end.

(** [strings.Split(s, string(c))] *)
Fixpoint str_split (c : ascii) (s : string) : list string :=
  match s with
  | EmptyString => [EmptyString]
  | String a s =>
      if Ascii.eqb a c then EmptyString :: str_split c s
      else match str_split c s with
           | [] => [String a EmptyString]
           | w :: ws => String a w :: ws
           end
  end.

(** [strings.TrimSpace]: the white space of Unicode, encoded in one, two or
    three bytes. *)
Definition byte (a : ascii) : Z := Z.of_nat (nat_of_ascii a).

Definition is_space1 (a : ascii) : bool := ((9 <=? byte a) && (byte a <=? 13) || (byte a =? 32))%Z.

Definition is_space2 (a b : ascii) : bool := ((byte a =? 194) && ((byte b =? 133) || (byte b =? 160)))%Z.

Definition is_space3 (a b c : ascii) : bool :=
  (((byte a =? 225) && (byte b =? 154) && (byte c =? 128)) ||
   ((byte a =? 226) && (byte b =? 128) &&
    (((128 <=? byte c) && (byte c <=? 138)) || (byte c =? 168) || (byte c =? 169) || (byte c =? 175))) ||
   ((byte a =? 226) && (byte b =? 129) && (byte c =? 159)) ||
   ((byte a =? 227) && (byte b =? 128) && (byte c =? 128)))%Z.

Fixpoint trim_left (s : string) : string :=
  match s with
  | String a r =>
      if is_space1 a then trim_left r
      else
        match r with
        | String b r2 =>
            if is_space2 a b then trim_left r2
            else
              match r2 with
              | String c r3 => if is_space3 a b c then trim_left r3 else s
              | EmptyString => s
              end
        | EmptyString => s
        end
  | EmptyString => s
  end.

Fixpoint trim_right (s : string) : string :=
  match s with
  | String a r => if decide (trim_left s = EmptyString) then EmptyString else String a (trim_right r)
  | EmptyString => s
  end.

Definition TrimSpace (s : string) : string := trim_right (trim_left s).

Lemma string_app_cons a s t : String a s +:+ t = String a (s +:+ t).
Proof. done. Qed.

Lemma str_split_none c s : str_contains c s = false -> str_split c s = [s].
Proof.
  induction s as [|a s IH]; simpl; [done|].
  intros [H1 H2]%orb_false_iff. by rewrite H1, (IH H2).
Qed.

Lemma str_split_app c s t :
  str_contains c s = false ->
  str_split c (s +:+ String c t) = s :: str_split c t.
Proof.
  induction s as [|a s IH]; simpl; intros H.
  - by rewrite Ascii.eqb_refl.
  - apply orb_false_iff in H as [H1 H2]. by rewrite H1, (IH H2).
Qed.

Lemma str_split_ne_nil c s : str_split c s <> [].
Proof. destruct s; cbn; [done|]. by repeat case_match. Qed.

Lemma str_split_one c s w : str_split c s = [w] -> s = w /\ str_contains c s = false.
Proof.
  revert w. induction s as [|a s IH]; intros w; cbn; [by intros [= <-]|].
  destruct (Ascii.eqb a c) eqn:E.
  - intros [= _ H]. by apply str_split_ne_nil in H.
  - destruct (str_split c s) as [|w' ws] eqn:Es; [by apply str_split_ne_nil in Es|].
    intros [= <- ->]. by destruct (IH w' eq_refl) as [-> ->].
Qed.

Lemma str_split_two c s v w :
  str_split c s = [v; w] ->
  s = v +:+ String c w /\ str_contains c v = false /\ str_contains c w = false.
Proof.
  revert v. induction s as [|a s IH]; intros v; cbn; [done|].
  destruct (Ascii.eqb a c) eqn:E.
  - intros [= <- H]. apply Ascii.eqb_eq in E as ->. by apply str_split_one in H as [-> ?].
  - destruct (str_split c s) as [|w' ws] eqn:Es; [by apply str_split_ne_nil in Es|].
    intros [= <- ->]. destruct (IH w' eq_refl) as (-> & H1 & H2).
    rewrite string_app_cons. cbn. by rewrite E, H1.
Qed.

Lemma str_contains_app c s t :
  str_contains c (s +:+ t) = str_contains c s || str_contains c t.
Proof. induction s as [|a s IH]; simpl; [done|]. by rewrite IH, orb_assoc. Qed.

Lemma string_app_nil_r s : s +:+ "" = s.
Proof. induction s as [|a s IH]; [done|]. by rewrite string_app_cons, IH. Qed.

Lemma string_app_assoc s t u : (s +:+ t) +:+ u = s +:+ t +:+ u.
Proof. induction s as [|a s IH]; [done|]. by rewrite !string_app_cons, IH. Qed.

Lemma string_length_app s t :
  String.length (s +:+ t) = String.length s + String.length t.
Proof. induction s as [|a s IH]; [done|]. rewrite string_app_cons. simpl. by rewrite IH. Qed.

(** [s[:n]] for [n <= len(s)] *)
Fixpoint str_take (n : nat) (s : string) : string :=
  match n, s with
  | S n, String a s => String a (str_take n s)
  | _, _ => EmptyString
  end.

Lemma str_take_length n s : String.length (str_take n s) = n `min` String.length s.
Proof. revert s; induction n as [|n IH]; intros [|a s]; simpl; auto. Qed.

Lemma str_take_all n s : String.length s <= n -> str_take n s = s.
Proof.
  revert s; induction n as [|n IH]; intros [|a s]; simpl; intros; [done|lia|done|].
  f_equal. apply IH. lia.
Qed.

(** [strings.HasPrefix] and [strings.CutPrefix] *)
Fixpoint str_cut_prefix (p s : string) : option string :=
  match p, s with
  | EmptyString, _ => Some s
  | String a p, String b s => if Ascii.eqb a b then str_cut_prefix p s else None
  | String _ _, EmptyString => None
  end.

Lemma str_cut_prefix_spec p s r : str_cut_prefix p s = Some r <-> s = p +:+ r.
Proof.
  revert s; induction p as [|a p IH]; intros s; simpl; [naive_solver|].
  destruct s as [|b s]; [by rewrite string_app_cons|].
  destruct (Ascii.eqb a b) eqn:E.
  - apply Ascii.eqb_eq in E as ->. rewrite IH, string_app_cons. naive_solver.
  - rewrite string_app_cons. split; [done|]. intros [= -> _]. by rewrite Ascii.eqb_refl in E.
Qed.

(** ** Sorting

    [sort.Sort] and [sort.Slice] promise a permutation in which no element is
    less than an earlier one; nothing more (they are not stable).  [go_sort] is
    one such permutation, and [go_sort_unique] says when there is no other. *)

Class GoLess {A} (less : A -> A -> bool) : Prop := {
  less_asym x y : less x y = true -> less y x = false;
  less_negtrans x y z : less x y = false -> less y z = false -> less x z = false;
}.

Section GoSort.
Context {A : Type} (less : A -> A -> bool).

Definition ordered (x y : A) : Prop := less y x = false.

#[global] Instance ordered_dec : RelDecision ordered.
Proof. intros x y. unfold ordered. apply _. Defined.

Definition go_sort (l : list A) : list A := merge_sort ordered l.

Lemma go_sort_perm l : go_sort l ≡ₚ l.
Proof. apply merge_sort_Permutation. Qed.

Lemma go_sort_length l : length (go_sort l) = length l.
Proof. by rewrite go_sort_perm. Qed.

Lemma elem_of_go_sort x l : x ∈ go_sort l <-> x ∈ l.
Proof. by rewrite go_sort_perm. Qed.

Context `{!GoLess less}.

Lemma less_irrefl x : less x x = false.
Proof. destruct (less x x) eqn:E; [|done]. by rewrite <- (less_asym _ _ E), E. Qed.

Lemma less_trans x y z : less x y = true -> less y z = true -> less x z = true.
Proof.
  intros H1 H2. destruct (less x z) eqn:E; [done|].
  apply less_asym in H2. rewrite (less_negtrans _ _ _ E H2) in H1. done.
Qed.

#[global] Instance ordered_trans : Transitive ordered.
Proof. intros x y z H1 H2. unfold ordered in *. by eapply less_negtrans. Qed.

#[global] Instance ordered_total : Total ordered.
Proof.
  intros x y. unfold ordered. destruct (less y x) eqn:E; [right|by left].
  by apply less_asym.
Qed.

Lemma go_sort_sorted l : StronglySorted ordered (go_sort l).
Proof. apply (StronglySorted_merge_sort _). Qed.

(** Whatever sorting algorithm runs, the result is [go_sort l] as soon as
    incomparable elements of [l] are equal. *)
Lemma go_sort_unique l l' :
  (forall x y, x ∈ l -> y ∈ l -> less x y = false -> less y x = false -> x = y) ->
  l' ≡ₚ l -> StronglySorted ordered l' -> l' = go_sort l.
Proof.
  intros Hanti Hp Hs.
  eapply (StronglySorted_unique_strong ordered); [|done|apply go_sort_sorted|].
  - intros x y Hx Hy H1 H2. unfold ordered in *. apply Hanti; [| |done|done].
    + by rewrite Hp in Hx.
    + by rewrite go_sort_perm in Hy.
  - by rewrite go_sort_perm.
Qed.

Lemma go_sort_Permutation_eq l1 l2 :
  (forall x y, x ∈ l1 -> y ∈ l1 -> less x y = false -> less y x = false -> x = y) ->
  l1 ≡ₚ l2 -> go_sort l1 = go_sort l2.
Proof.
  intros Hanti Hp. symmetry. apply go_sort_unique; [done| |apply go_sort_sorted].
  by rewrite go_sort_perm.
Qed.
End GoSort.

(** [sort.Reverse] *)
Definition reverse_less {A} (less : A -> A -> bool) (x y : A) : bool := less y x.

#[global] Instance reverse_less_GoLess {A} (less : A -> A -> bool) `{!GoLess less} :
  GoLess (reverse_less less).
Proof.
  split; unfold reverse_less.
  - intros x y. apply less_asym.
  - intros x y z H1 H2. by eapply less_negtrans.
Qed.

#[global] Instance str_lt_GoLess : GoLess str_lt.
Proof. split; [apply str_lt_asym|apply str_lt_negtrans]. Qed.

(** A lexicographic comparison: [f] first, then the name. *)
Lemma GoLess_key {A B} (f : A -> B) (less : B -> B -> bool) :
  GoLess less -> GoLess (fun x y => less (f x) (f y)).
Proof.
  intros H. split.
  - intros x y. apply less_asym.
  - intros x y z. apply less_negtrans.
Qed.

(** ** Sorted lists *)

Lemma last_cons_cons {A} (x y : A) l d : List.last (x :: y :: l) d = List.last (y :: l) d.
Proof. done. Qed.

Lemma last_elem_of {A} (x : A) l d : List.last (x :: l) d ∈ x :: l.
Proof.
  revert x. induction l as [|y l IH]; intros x; [by left|].
  rewrite last_cons_cons. right. apply IH.
Qed.

(** The last element of a sorted list is the largest. *)
Lemma StronglySorted_last {A} (R : A -> A -> Prop) `{!Reflexive R} l d x :
  StronglySorted R l -> x ∈ l -> R x (List.last l d).
Proof.
  induction l as [|y [|z l] IH]; intros Hs Hx; [set_solver|set_solver|].
  rewrite last_cons_cons. apply StronglySorted_inv in Hs as [Hs Hy].
  apply elem_of_cons in Hx as [->|Hx]; [|by apply IH].
  rewrite Forall_forall in Hy. apply Hy. apply last_elem_of.
Qed.

(** ** Loops that update one key per element *)

(** A loop over elements with distinct keys, each round of which succeeds and
    changes only what is kept under its element's key, acts on every key
    independently. *)
Lemma ofold_pointwise {A S L K} (f : S -> A -> outcome S) (key : A -> K)
    (proj : K -> S -> L) (g : A -> L -> L) xs s :
  NoDup (key <$> xs) ->
  (forall s x, x ∈ xs -> exists s', f s x = Ok s' /\
    proj (key x) s' = g x (proj (key x) s) /\ forall k, k <> key x -> proj k s' = proj k s) ->
  exists s', ofold f s xs = Ok s' /\
    (forall x, x ∈ xs -> proj (key x) s' = g x (proj (key x) s)) /\
    (forall k, k ∉ key <$> xs -> proj k s' = proj k s).
Proof.
  revert s. induction xs as [|x xs IH]; intros s Hnd Hstep; cbn.
  { exists s. split_and!; [done|set_solver|done]. }
  apply NoDup_cons in Hnd as [Hx Hnd].
  destruct (Hstep s x ltac:(by left)) as (s1 & Hf & Hk & Hothers).
  destruct (IH s1 Hnd) as (s2 & Hfold & Hin & Hout).
  { intros s0 y Hy. apply Hstep. by right. }
  exists s2. rewrite Hf; cbn. split_and!; [done| |].
  - intros y [->|Hy]%elem_of_cons.
    + by rewrite Hout.
    + rewrite Hin by done. f_equal. apply Hothers. intros E. apply Hx. rewrite <- E.
      by apply list_elem_of_fmap_2.
  - intros k Hk'. rewrite not_elem_of_cons in Hk'. destruct Hk' as [Hne Hk'].
    rewrite Hout by done. by apply Hothers.
Qed.

(** ** Automation *)

(** A decidable closed fact, by evaluation. *)
Ltac by_decide := apply (bool_decide_unpack _); vm_compute; exact I.

(** An equation that holds by evaluation, checked without normal forms in the proof. *)
Ltac by_evaluation := match goal with |- @eq ?A _ ?r => vm_cast_no_check (@eq_refl A r) end.

(** What is known of the second half of a pair. *)
Lemma pair_answer {A B} (p : A * B) (b : B) : p.2 = b -> p = (p.1, b).
Proof. destruct p. by intros <-. Qed.

(** ** Concatenated lists *)

Lemma elem_of_concat_fmap {A B} (f : A -> list B) (l : list A) y :
  y ∈ concat (f <$> l) <-> exists x, x ∈ l /\ y ∈ f x.
Proof.
  induction l as [|a l IH]; cbn; [split; [by intros ?%not_elem_of_nil|by intros (? & ?%not_elem_of_nil & _)]|].
  rewrite elem_of_app, IH. setoid_rewrite elem_of_cons. naive_solver.
Qed.

Lemma concat_fmap_nil {A B} (f : A -> list B) (l : list A) :
  concat (f <$> l) = [] <-> forall x, x ∈ l -> f x = [].
Proof.
  induction l as [|a l IH]; cbn; [split; [by intros _ ? ?%not_elem_of_nil|done]|].
  rewrite app_nil, IH. setoid_rewrite elem_of_cons. naive_solver.
Qed.

(** ** Lists without duplicates *)

Lemma NoDup_fmap_eq {A B} (f : A -> B) (l : list A) x y :
  NoDup (f <$> l) -> x ∈ l -> y ∈ l -> f x = f y -> x = y.
Proof.
  induction l as [|a l IH]; cbn; intros Hnd Hx Hy Hf; [by apply not_elem_of_nil in Hx|].
  apply NoDup_cons in Hnd as [Ha Hnd].
  apply elem_of_cons in Hx as [->|Hx]; apply elem_of_cons in Hy as [->|Hy]; [done| | |by apply IH].
  - destruct Ha. rewrite Hf. by apply list_elem_of_fmap_2.
  - destruct Ha. rewrite <- Hf. by apply list_elem_of_fmap_2.
Qed.
