(* ===== verification/K8s.v ===== *)
(** * The Kubernetes libraries the controllers call

    The apimachinery, client-go and controller-runtime packages are not part
    of the repository.  Their data types that the API objects embed
    ([metav1.Condition], [metav1.ObjectMeta], ...) are records here; their
    functions are the fields of the class [K8sLib], an implicit argument of
    every definition that calls them.  [K8sLaws] states what their
    documentation promises and the proofs rely on, and [ref_lib], at the end
    of the file, is one implementation that satisfies the laws, used to
    evaluate the model on concrete inputs. *)

From Stdlib Require Import Ascii SpecFloat.
From stdpp Require Import prelude gmap strings.
From S2P Require Import Prelude.

(** ** Embedded API machinery types *)

Inductive ConditionStatus : Set := ConditionTrue | ConditionFalse | ConditionUnknown.

#[global] Instance ConditionStatus_eq_dec : EqDecision ConditionStatus.
Proof. solve_decision. Defined.

(** Times and durations are counted in nanoseconds. *)
Record Condition : Set := mkCondition {
  cond_type : string;
  cond_status : ConditionStatus;
  cond_observed_generation : Z;
  cond_last_transition : Z;
  cond_reason : string;
  cond_message : string;
}.

#[global] Instance Condition_eq_dec : EqDecision Condition.
Proof. solve_decision. Defined.

Record ObjectMeta : Set := mkObjectMeta {
  meta_name : string;
  meta_namespace : string;
  meta_labels : gmap string string;
  meta_annotations : gmap string string;
  meta_finalizers : list string;
  meta_deletion_timestamp : option Z;
  meta_generation : Z;
  meta_resource_version : Z;
}.

#[global] Instance ObjectMeta_eq_dec : EqDecision ObjectMeta.
Proof. solve_decision. Defined.

Definition set_meta_annotations (a : gmap string string) (m : ObjectMeta) : ObjectMeta :=
  mkObjectMeta (meta_name m) (meta_namespace m) (meta_labels m) a (meta_finalizers m)
    (meta_deletion_timestamp m) (meta_generation m) (meta_resource_version m).

Definition set_meta_finalizers (fs : list string) (m : ObjectMeta) : ObjectMeta :=
  mkObjectMeta (meta_name m) (meta_namespace m) (meta_labels m) (meta_annotations m) fs
    (meta_deletion_timestamp m) (meta_generation m) (meta_resource_version m).

Definition new_meta (name ns : string) (labels : gmap string string)
    (finalizers : list string) : ObjectMeta :=
  mkObjectMeta name ns labels ∅ finalizers None 0 0.

(** [!obj.GetDeletionTimestamp().IsZero()] *)
Definition being_deleted (m : ObjectMeta) : bool :=
  match meta_deletion_timestamp m with Some _ => true | None => false end.

(** [intstr.IntOrString] *)
Inductive IntOrString : Set :=
| FromInt (n : Z)
| FromString (s : string).

#[global] Instance IntOrString_eq_dec : EqDecision IntOrString.
Proof. solve_decision. Defined.

(** [metav1.LabelSelector] *)
Record LabelSelectorRequirement : Set := mkLabelSelectorRequirement {
  lsr_key : string;
  lsr_operator : string;
  lsr_values : list string;
}.

#[global] Instance LabelSelectorRequirement_eq_dec : EqDecision LabelSelectorRequirement.
Proof. solve_decision. Defined.

Record LabelSelector : Set := mkLabelSelector {
  ls_match_labels : gmap string string;
  ls_match_expressions : list LabelSelectorRequirement;
}.

#[global] Instance LabelSelector_eq_dec : EqDecision LabelSelector.
Proof. solve_decision. Defined.

(** A [resource.Quantity] is a fixed-point number; its value is counted in
    nano-units, the finest scale of the type. *)
Definition Quantity : Set := Z.

(** ** The functions *)

Class K8sLib : Type := {
  (** [meta.FindStatusCondition] *)
  FindStatusCondition : list Condition -> string -> option Condition;
  (** [meta.SetStatusCondition]; the first argument is the current time. *)
  SetStatusCondition : Z -> list Condition -> Condition -> list Condition;
  (** [meta.RemoveStatusCondition] *)
  RemoveStatusCondition : list Condition -> string -> list Condition;
  (** [metav1.LabelSelectorAsSelector] followed by [Matches]. *)
  LabelSelectorMatches : LabelSelector -> gmap string string -> outcome bool;
  (** [resource.ParseQuantity] *)
  ParseQuantity : string -> outcome Quantity;
  (** [Quantity.AsApproximateFloat64], a binary64 value. *)
  AsApproximateFloat64 : Quantity -> spec_float;
  (** [intstr.GetScaledValueFromIntOrPercent(v, total, roundUp)] *)
  GetScaledValueFromIntOrPercent : IntOrString -> Z -> bool -> outcome Z;
  (** [len(validation.IsDNS1123Label(s)) == 0] *)
  IsDNS1123Label : string -> bool;
  (** [controllerutil.ContainsFinalizer], [AddFinalizer] and
      [RemoveFinalizer], on [metadata.finalizers]. *)
  finalizers_contain : list string -> string -> bool;
  finalizers_add : list string -> string -> list string;
  finalizers_remove : list string -> string -> list string;
}.

(** [validation.DNS1123LabelMaxLength] *)
Definition DNS1123LabelMaxLength : nat := 63.

Class K8sLaws (K : K8sLib) : Prop := {
  FindStatusCondition_Some cs t c :
    FindStatusCondition cs t = Some c -> c ∈ cs /\ cond_type c = t;
  FindStatusCondition_None cs t :
    FindStatusCondition cs t = None <-> forall c, c ∈ cs -> cond_type c <> t;
  SetStatusCondition_same now cs c :
    exists c', FindStatusCondition (SetStatusCondition now cs c) (cond_type c) = Some c' /\
      cond_type c' = cond_type c /\ cond_status c' = cond_status c /\
      cond_observed_generation c' = cond_observed_generation c /\
      cond_reason c' = cond_reason c /\ cond_message c' = cond_message c;
  SetStatusCondition_other now cs c t :
    t <> cond_type c ->
    FindStatusCondition (SetStatusCondition now cs c) t = FindStatusCondition cs t;
  (** Conditions are found by their types alone. *)
  FindStatusCondition_fmap (f : Condition -> Condition) cs t :
    (forall c, cond_type (f c) = cond_type c) ->
    FindStatusCondition (f <$> cs) t = f <$> FindStatusCondition cs t;
  RemoveStatusCondition_same cs t : FindStatusCondition (RemoveStatusCondition cs t) t = None;
  RemoveStatusCondition_other cs t t' :
    t <> t' -> FindStatusCondition (RemoveStatusCondition cs t') t = FindStatusCondition cs t;
  GetScaledValue_int n total up :
    GetScaledValueFromIntOrPercent (FromInt n) total up = Ok n;
  GetScaledValue_nonneg s total up v :
    (0 <= total)%Z ->
    GetScaledValueFromIntOrPercent (FromString s) total up = Ok v -> (0 <= v)%Z;
  (** Whether the value can be read does not depend on what it is scaled to. *)
  GetScaledValue_total s total total' up :
    is_ok (GetScaledValueFromIntOrPercent (FromString s) total up) =
    is_ok (GetScaledValueFromIntOrPercent (FromString s) total' up);
  IsDNS1123Label_length s :
    IsDNS1123Label s = true -> String.length s <= DNS1123LabelMaxLength;
  finalizers_contain_spec fs f : finalizers_contain fs f = true <-> f ∈ fs;
  finalizers_add_spec fs f g : g ∈ finalizers_add fs f <-> g = f \/ g ∈ fs;
  finalizers_remove_spec fs f g : g ∈ finalizers_remove fs f <-> g <> f /\ g ∈ fs;
}.

Section finalizers.
Context {K : K8sLib}.

Definition ContainsFinalizer (m : ObjectMeta) (f : string) : bool :=
  finalizers_contain (meta_finalizers m) f.

Definition AddFinalizer (m : ObjectMeta) (f : string) : ObjectMeta :=
  set_meta_finalizers (finalizers_add (meta_finalizers m) f) m.

Definition RemoveFinalizer (m : ObjectMeta) (f : string) : ObjectMeta :=
  set_meta_finalizers (finalizers_remove (meta_finalizers m) f) m.

End finalizers.

(** ** An implementation that satisfies the laws *)

Module RefLib.

Definition find_condition (cs : list Condition) (t : string) : option Condition :=
  snd <$> list_find (fun c => cond_type c = t) cs.

(** The transition time of an existing condition moves only with its status. *)
Definition update_condition (now : Z) (old new : Condition) : Condition :=
  mkCondition (cond_type new) (cond_status new) (cond_observed_generation new)
    (if decide (cond_status old = cond_status new) then cond_last_transition old
     else if (cond_last_transition new =? 0)%Z then now else cond_last_transition new)
    (cond_reason new) (cond_message new).

Fixpoint set_condition (now : Z) (cs : list Condition) (c : Condition) : list Condition :=
  match cs with
  | [] => [mkCondition (cond_type c) (cond_status c) (cond_observed_generation c)
             (if (cond_last_transition c =? 0)%Z then now else cond_last_transition c)
             (cond_reason c) (cond_message c)]
  | c0 :: r =>
      if decide (cond_type c0 = cond_type c) then update_condition now c0 c :: r
      else c0 :: set_condition now r c
  end.

Definition match_requirement (ls : gmap string string)
    (r : LabelSelectorRequirement) : bool :=
  let v := ls !! lsr_key r in
  if decide (lsr_operator r = "In"%string) then
    match v with Some x => bool_decide (x ∈ lsr_values r) | None => false end
  else if decide (lsr_operator r = "NotIn"%string) then
    match v with Some x => negb (bool_decide (x ∈ lsr_values r)) | None => true end
  else if decide (lsr_operator r = "Exists"%string) then bool_decide (is_Some v)
  else bool_decide (v = None).

Definition selector_matches (s : LabelSelector) (ls : gmap string string) : outcome bool :=
  Ok (bool_decide (ls_match_labels s ⊆ ls) && forallb (match_requirement ls) (ls_match_expressions s)).

(** A run of decimal digits, with what follows it. *)
Fixpoint digits (s : string) (acc : Z) : Z * string :=
  match s with
  | EmptyString => (acc, s)
  | String a r =>
      let n := Z.of_nat (Ascii.nat_of_ascii a) in
      if ((48 <=? n) && (n <=? 57))%Z then digits r (acc * 10 + (n - 48))%Z else (acc, s)
  end.

Definition parse_quantity (s : string) : outcome Quantity :=
  match digits s 0 with
  | (n, EmptyString) =>
      if decide (s = EmptyString) then Err (ErrPlain "quantities must match the regular expression")
      else Ok (n * 1000000000)%Z
  | _ => Err (ErrPlain "quantities must match the regular expression")
  end.

Definition scaled_value (v : IntOrString) (total : Z) (up : bool) : outcome Z :=
  match v with
  | FromInt n => Ok n
  | FromString s =>
      match digits s 0 with
      | (n, String "%"%char EmptyString) =>
          Ok (if up then (n * total + 99) / 100 else n * total / 100)%Z
      | _ => Err (ErrPlain "invalid value for IntOrString")
      end
  end.

Definition label_char (a : Ascii.ascii) : bool :=
  let n := Ascii.nat_of_ascii a in
  ((48 <=? n) && (n <=? 57)) || ((97 <=? n) && (n <=? 122)) || (n =? 45).

Definition is_label (s : string) : bool :=
  negb (bool_decide (s = EmptyString)) && forallb label_char (String.list_ascii_of_string s) &&
  (String.length s <=? DNS1123LabelMaxLength).

#[export] Instance ref_lib : K8sLib := {
  FindStatusCondition := find_condition;
  RemoveStatusCondition := fun cs t => filter (fun c => cond_type c <> t) cs;
  SetStatusCondition := set_condition;
  LabelSelectorMatches := selector_matches;
  ParseQuantity := parse_quantity;
  AsApproximateFloat64 := fun q =>
    SFdiv 53 1024 (binary_normalize 53 1024 q 0 false) (binary_normalize 53 1024 1000000000 0 false);
  GetScaledValueFromIntOrPercent := scaled_value;
  IsDNS1123Label := is_label;
  finalizers_contain := fun fs f => bool_decide (f ∈ fs);
  finalizers_add := fun fs f => if bool_decide (f ∈ fs) then fs else fs ++ [f];
  finalizers_remove := fun fs f => filter (fun g => g <> f) fs;
}.

Lemma find_condition_cons c cs t :
  find_condition (c :: cs) t =
  if decide (cond_type c = t) then Some c else find_condition cs t.
Proof.
  unfold find_condition. cbn [list_find]. destruct (decide _); [done|].
  by destruct (list_find _ cs) as [[? ?]|].
Qed.

Lemma digits_nonneg s acc : (0 <= acc)%Z -> (0 <= (digits s acc).1)%Z.
Proof.
  revert acc. induction s as [|a r IH]; intros acc Ha; cbn [digits]; [done|].
  destruct ((48 <=? _) && _)%Z eqn:E; [|done].
  apply IH. apply andb_prop in E as [E1 _]. apply Z.leb_le in E1. lia.
Qed.

Lemma set_condition_same now cs c :
  exists c', find_condition (set_condition now cs c) (cond_type c) = Some c' /\
    cond_type c' = cond_type c /\ cond_status c' = cond_status c /\
    cond_observed_generation c' = cond_observed_generation c /\
    cond_reason c' = cond_reason c /\ cond_message c' = cond_message c.
Proof.
  induction cs as [|c0 cs IH]; cbn [set_condition].
  - rewrite find_condition_cons. cbn. rewrite decide_True by done. eauto 10.
  - destruct (decide (cond_type c0 = cond_type c)) as [E|E]; rewrite find_condition_cons.
    + cbn. rewrite decide_True by done. eauto 10.
    + by rewrite decide_False by done.
Qed.

Lemma set_condition_other now cs c t :
  t <> cond_type c ->
  find_condition (set_condition now cs c) t = find_condition cs t.
Proof.
  intros Ht. induction cs as [|c0 cs IH]; cbn [set_condition].
  - rewrite find_condition_cons. cbn. by rewrite decide_False by congruence.
  - destruct (decide (cond_type c0 = cond_type c)) as [E|E]; rewrite !find_condition_cons; cbn.
    + by rewrite !decide_False by congruence.
    + by rewrite IH.
Qed.

Lemma remove_condition_other cs t t' :
  t <> t' -> find_condition (filter (fun c => cond_type c <> t') cs) t = find_condition cs t.
Proof.
  intros Ht. induction cs as [|c cs IH]; [done|].
  destruct (decide (cond_type c = t')) as [Hc|Hc].
  - rewrite filter_cons_False by (intros Hn; by apply Hn).
    by rewrite find_condition_cons, decide_False by congruence.
  - rewrite filter_cons_True by done. by rewrite !find_condition_cons, IH.
Qed.

#[export] Instance ref_laws : K8sLaws ref_lib.
Proof.
  split; cbn.
  - unfold find_condition. intros cs t c [[i x] [Hf ->]]%fmap_Some.
    apply list_find_Some in Hf as (Hl & ? & _). split; [|done].
    by eapply list_elem_of_lookup_2.
  - intros cs t. unfold find_condition. rewrite fmap_None, list_find_None, Forall_forall. done.
  - apply set_condition_same.
  - apply set_condition_other.
  - intros f cs t Hf. induction cs as [|c cs IH]; [done|].
    rewrite fmap_cons, !find_condition_cons, Hf. by case_decide.
  - intros cs t. unfold find_condition. rewrite fmap_None, list_find_None, Forall_forall.
    intros c Hc. by apply list_elem_of_filter in Hc as [? _].
  - apply remove_condition_other.
  - done.
  - intros s total up v Ht. pose proof (digits_nonneg s 0 ltac:(lia)) as Hd.
    destruct (digits s 0) as [n rest]. cbn in Hd. repeat case_match; intros; simplify_eq/=.
    + apply Z.div_pos; nia.
    + apply Z.div_pos; nia.
  - intros s total total' up. by repeat case_match.
  - unfold is_label. intros s [_ ?%Nat.leb_le]%andb_prop. done.
  - intros. apply bool_decide_eq_true.
  - intros fs f g. case_bool_decide; set_solver.
  - intros fs f g. by rewrite list_elem_of_filter.
Qed.

End RefLib.
