(* ===== verification/Api.v ===== *)
(** * The placement and cluster API objects

    The custom resources of [apis/placement/v1beta1] and
    [apis/cluster/v1beta1], with the fields the modelled controllers read or
    write.  Go's typed strings stay strings with named constants, because
    the code also meets values outside the constants (an annotation may hold
    any text); a pointer field is an [option].  A ClusterResourceBinding and a
    ResourceBinding are one type, [BindingObj], told apart by an empty
    namespace, as the [BindingObj] interface of the source does. *)

From stdpp Require Import prelude gmap strings.
From S2P Require Import Prelude K8s.

Local Open Scope string_scope.
Local Open Scope list_scope.

(** ** Names shared by the controllers: [commons.go] *)

Definition FleetPrefix : string := "kubernetes-fleet.io/".
Definition PlacementTrackingLabel : string := FleetPrefix +:+ "parent-CRP".
Definition IsLatestSnapshotLabel : string := FleetPrefix +:+ "is-latest-snapshot".
Definition PolicyIndexLabel : string := FleetPrefix +:+ "policy-index".
Definition PreviousBindingStateAnnotation : string := FleetPrefix +:+ "previous-binding-state".
Definition CRPGenerationAnnotation : string := FleetPrefix +:+ "CRP-generation".
Definition NumberOfClustersAnnotation : string := FleetPrefix +:+ "number-of-clusters".
Definition SchedulerBindingCleanupFinalizer : string := FleetPrefix +:+ "scheduler-crb-cleanup".
Definition SchedulerCleanupFinalizer : string := FleetPrefix +:+ "scheduler-cleanup".

Record NamespacedName : Set := mkNamespacedName { nn_Name : string; nn_Namespace : string }.

#[global] Instance NamespacedName_eq_dec : EqDecision NamespacedName.
Proof. solve_decision. Defined.

(** ** Scheduling decisions *)

Record ClusterScore : Set := mkApiScore {
  cs_AffinityScore : option Z;
  cs_TopologySpreadScore : option Z;
}.

#[global] Instance ClusterScore_eq_dec : EqDecision ClusterScore.
Proof. solve_decision. Defined.

Record ClusterDecision : Set := mkDecision {
  cd_ClusterName : string;
  cd_Selected : bool;
  cd_ClusterScore : option ClusterScore;
  cd_Reason : string;
}.

#[global] Instance ClusterDecision_eq_dec : EqDecision ClusterDecision.
Proof. solve_decision. Defined.

(** ** Placement specification *)

Definition PickAllPlacementType : string := "PickAll".
Definition PickNPlacementType : string := "PickN".
Definition PickFixedPlacementType : string := "PickFixed".

(** [PropertySelectorOperator] and [PropertySortOrder] *)
Definition PropertySelectorGreaterThan : string := "Gt".
Definition PropertySelectorGreaterThanOrEqualTo : string := "Ge".
Definition PropertySelectorEqualTo : string := "Eq".
Definition PropertySelectorNotEqualTo : string := "Ne".
Definition PropertySelectorLessThan : string := "Lt".
Definition PropertySelectorLessThanOrEqualTo : string := "Le".
Definition Descending : string := "Descending".
Definition Ascending : string := "Ascending".

Record PropertySelectorRequirement : Set := mkPropertyRequirement {
  psr_Name : string;
  psr_Operator : string;
  psr_Values : list string;
}.

#[global] Instance PropertySelectorRequirement_eq_dec : EqDecision PropertySelectorRequirement.
Proof. solve_decision. Defined.

Record PropertySelector : Set := mkPropertySelector {
  ps_MatchExpressions : list PropertySelectorRequirement;
}.

#[global] Instance PropertySelector_eq_dec : EqDecision PropertySelector.
Proof. solve_decision. Defined.

Record PropertySorter : Set := mkPropertySorter {
  sorter_Name : string;
  sorter_SortOrder : string;
}.

#[global] Instance PropertySorter_eq_dec : EqDecision PropertySorter.
Proof. solve_decision. Defined.

Record ClusterSelectorTerm : Set := mkSelectorTerm {
  term_LabelSelector : option LabelSelector;
  term_PropertySelector : option PropertySelector;
  term_PropertySorter : option PropertySorter;
}.

#[global] Instance ClusterSelectorTerm_eq_dec : EqDecision ClusterSelectorTerm.
Proof. solve_decision. Defined.

Record PreferredClusterSelector : Set := mkPreferred {
  pref_Weight : Z;
  pref_Preference : ClusterSelectorTerm;
}.

#[global] Instance PreferredClusterSelector_eq_dec : EqDecision PreferredClusterSelector.
Proof. solve_decision. Defined.

Record ClusterSelector : Set := mkClusterSelector {
  sel_ClusterSelectorTerms : list ClusterSelectorTerm;
}.

#[global] Instance ClusterSelector_eq_dec : EqDecision ClusterSelector.
Proof. solve_decision. Defined.

Record ClusterAffinity : Set := mkClusterAffinity {
  aff_Required : option ClusterSelector;
  aff_Preferred : list PreferredClusterSelector;
}.

#[global] Instance ClusterAffinity_eq_dec : EqDecision ClusterAffinity.
Proof. solve_decision. Defined.

Record Affinity : Set := mkAffinity { aff_ClusterAffinity : option ClusterAffinity }.

#[global] Instance Affinity_eq_dec : EqDecision Affinity.
Proof. solve_decision. Defined.

Definition DoNotSchedule : string := "DoNotSchedule".
Definition ScheduleAnyway : string := "ScheduleAnyway".

Record TopologySpreadConstraint : Set := mkTSC {
  tsc_MaxSkew : option Z;
  tsc_TopologyKey : string;
  tsc_WhenUnsatisfiable : string;
}.

#[global] Instance TopologySpreadConstraint_eq_dec : EqDecision TopologySpreadConstraint.
Proof. solve_decision. Defined.

(** [corev1.TolerationOperator]; the empty operator means [Equal]. *)
Definition TolerationOpExists : string := "Exists".
Definition TolerationOpEqual : string := "Equal".

Record Toleration : Set := mkToleration {
  tol_Key : string;
  tol_Operator : string;
  tol_Value : string;
  tol_Effect : string;
}.

#[global] Instance Toleration_eq_dec : EqDecision Toleration.
Proof. solve_decision. Defined.

Record PlacementPolicy : Set := mkPolicy {
  pol_PlacementType : string;
  pol_ClusterNames : list string;
  pol_NumberOfClusters : option Z;
  pol_Affinity : option Affinity;
  pol_TopologySpreadConstraints : list TopologySpreadConstraint;
  pol_Tolerations : list Toleration;
}.

#[global] Instance PlacementPolicy_eq_dec : EqDecision PlacementPolicy.
Proof. solve_decision. Defined.

(** ** Apply and rollout strategies *)

Definition ComparisonOptionTypePartialComparison : string := "PartialComparison".
Definition WhenToApplyTypeAlways : string := "Always".
Definition ApplyStrategyTypeClientSideApply : string := "ClientSideApply".
Definition ApplyStrategyTypeServerSideApply : string := "ServerSideApply".
Definition ApplyStrategyTypeReportDiff : string := "ReportDiff".
Definition WhenToTakeOverTypeAlways : string := "Always".

Record ServerSideApplyConfig : Set := mkSSAConfig { ssa_ForceConflicts : bool }.

#[global] Instance ServerSideApplyConfig_eq_dec : EqDecision ServerSideApplyConfig.
Proof. solve_decision. Defined.

Record ApplyStrategy : Set := mkApplyStrategy {
  as_ComparisonOption : string;
  as_WhenToApply : string;
  as_Type : string;
  as_AllowCoOwnership : bool;
  as_ServerSideApplyConfig : option ServerSideApplyConfig;
  as_WhenToTakeOver : string;
}.

#[global] Instance ApplyStrategy_eq_dec : EqDecision ApplyStrategy.
Proof. solve_decision. Defined.

Definition RollingUpdateRolloutStrategyType : string := "RollingUpdate".
Definition ExternalRolloutStrategyType : string := "External".

Record RollingUpdateConfig : Set := mkRollingUpdate {
  ru_MaxUnavailable : option IntOrString;
  ru_MaxSurge : option IntOrString;
  ru_UnavailablePeriodSeconds : option Z;
}.

#[global] Instance RollingUpdateConfig_eq_dec : EqDecision RollingUpdateConfig.
Proof. solve_decision. Defined.

Record ReportBackStrategy : Set := mkReportBack {
  rb_Type : string;
  rb_Destination : option string;
}.

#[global] Instance ReportBackStrategy_eq_dec : EqDecision ReportBackStrategy.
Proof. solve_decision. Defined.

(** [DeleteStrategy], by its one field [PropagationPolicy]. *)
Record RolloutStrategy : Set := mkRolloutStrategy {
  rs_Type : string;
  rs_RollingUpdate : option RollingUpdateConfig;
  rs_ApplyStrategy : option ApplyStrategy;
  rs_DeleteStrategy : option string;
  rs_ReportBackStrategy : option ReportBackStrategy;
}.

#[global] Instance RolloutStrategy_eq_dec : EqDecision RolloutStrategy.
Proof. solve_decision. Defined.

Record ResourceSelectorTerm : Set := mkResourceSelector {
  rsel_Group : string;
  rsel_Version : string;
  rsel_Kind : string;
  rsel_Name : string;
  rsel_LabelSelector : option LabelSelector;
  rsel_SelectionScope : string;
}.

#[global] Instance ResourceSelectorTerm_eq_dec : EqDecision ResourceSelectorTerm.
Proof. solve_decision. Defined.

Record PlacementSpec : Set := mkPlacementSpec {
  psp_ResourceSelectors : list ResourceSelectorTerm;
  psp_Policy : option PlacementPolicy;
  psp_Strategy : RolloutStrategy;
  psp_RevisionHistoryLimit : option Z;
  psp_StatusReportingScope : string;
}.

#[global] Instance PlacementSpec_eq_dec : EqDecision PlacementSpec.
Proof. solve_decision. Defined.

(** ** Scheduling policy snapshots *)

Definition PolicySnapshotScheduled : string := "Scheduled".

Record SchedulingPolicySnapshotSpec : Set := mkSnapshotSpec {
  sps_Policy : option PlacementPolicy;
  sps_PolicyHash : string;
}.

#[global] Instance SchedulingPolicySnapshotSpec_eq_dec : EqDecision SchedulingPolicySnapshotSpec.
Proof. solve_decision. Defined.

(** [SchedulingPolicySnapshotSpec.Tolerations] *)
Definition Tolerations (s : SchedulingPolicySnapshotSpec) : list Toleration :=
  match sps_Policy s with
  | Some p => pol_Tolerations p
  | None => []
  end.

Record SchedulingPolicySnapshotStatus : Set := mkSnapshotStatus {
  spst_ObservedCRPGeneration : Z;
  spst_Conditions : list Condition;
  spst_ClusterDecisions : list ClusterDecision;
}.

#[global] Instance SchedulingPolicySnapshotStatus_eq_dec : EqDecision SchedulingPolicySnapshotStatus.
Proof. solve_decision. Defined.

Record PolicySnapshotObj : Set := mkPolicySnapshot {
  snap_meta : ObjectMeta;
  snap_spec : SchedulingPolicySnapshotSpec;
  snap_status : SchedulingPolicySnapshotStatus;
}.

#[global] Instance PolicySnapshotObj_eq_dec : EqDecision PolicySnapshotObj.
Proof. solve_decision. Defined.

(** ** Bindings *)

Definition BindingStateScheduled : string := "Scheduled".
Definition BindingStateBound : string := "Bound".
Definition BindingStateUnscheduled : string := "Unscheduled".

Record ResourceBindingSpec : Set := mkBindingSpec {
  rbs_State : string;
  rbs_ResourceSnapshotName : string;
  rbs_ResourceOverrideSnapshots : list NamespacedName;
  rbs_ClusterResourceOverrideSnapshots : list string;
  rbs_SchedulingPolicySnapshotName : string;
  rbs_TargetCluster : string;
  rbs_ClusterDecision : ClusterDecision;
  rbs_ApplyStrategy : option ApplyStrategy;
}.

#[global] Instance ResourceBindingSpec_eq_dec : EqDecision ResourceBindingSpec.
Proof. solve_decision. Defined.

Record EnvelopeIdentifier : Set := mkEnvelope {
  env_Name : string;
  env_Namespace : string;
  env_Type : string;
}.

#[global] Instance EnvelopeIdentifier_eq_dec : EqDecision EnvelopeIdentifier.
Proof. solve_decision. Defined.

Record ResourceIdentifier : Set := mkResourceIdentifier {
  rid_Group : string;
  rid_Version : string;
  rid_Kind : string;
  rid_Name : string;
  rid_Namespace : string;
  rid_Envelope : option EnvelopeIdentifier;
}.

#[global] Instance ResourceIdentifier_eq_dec : EqDecision ResourceIdentifier.
Proof. solve_decision. Defined.

Record FailedResourcePlacement : Set := mkFailedPlacement {
  fp_Resource : ResourceIdentifier;
  fp_Condition : Condition;
}.

#[global] Instance FailedResourcePlacement_eq_dec : EqDecision FailedResourcePlacement.
Proof. solve_decision. Defined.

Record PatchDetail : Set := mkPatchDetail {
  pd_Path : string;
  pd_ValueInMember : string;
  pd_ValueInHub : string;
}.

#[global] Instance PatchDetail_eq_dec : EqDecision PatchDetail.
Proof. solve_decision. Defined.

Record DriftedResourcePlacement : Set := mkDriftedPlacement {
  dp_Resource : ResourceIdentifier;
  dp_ObservationTime : Z;
  dp_TargetClusterObservedGeneration : Z;
  dp_FirstDriftedObservedTime : Z;
  dp_ObservedDrifts : list PatchDetail;
}.

#[global] Instance DriftedResourcePlacement_eq_dec : EqDecision DriftedResourcePlacement.
Proof. solve_decision. Defined.

Record DiffedResourcePlacement : Set := mkDiffedPlacement {
  dfp_Resource : ResourceIdentifier;
  dfp_ObservationTime : Z;
  dfp_TargetClusterObservedGeneration : option Z;
  dfp_FirstDiffedObservedTime : Z;
  dfp_ObservedDiffs : list PatchDetail;
}.

#[global] Instance DiffedResourcePlacement_eq_dec : EqDecision DiffedResourcePlacement.
Proof. solve_decision. Defined.

Record ResourceBindingStatus : Set := mkBindingStatus {
  rbst_FailedPlacements : list FailedResourcePlacement;
  rbst_DriftedPlacements : list DriftedResourcePlacement;
  rbst_DiffedPlacements : list DiffedResourcePlacement;
  rbst_Conditions : list Condition;
}.

#[global] Instance ResourceBindingStatus_eq_dec : EqDecision ResourceBindingStatus.
Proof. solve_decision. Defined.

(** [ResourceBindingConditionType] *)
Definition ResourceBindingRolloutStarted : string := "RolloutStarted".
Definition ResourceBindingOverridden : string := "Overridden".
Definition ResourceBindingWorkSynchronized : string := "WorkSynchronized".
Definition ResourceBindingApplied : string := "Applied".
Definition ResourceBindingAvailable : string := "Available".
Definition ResourceBindingDiffReported : string := "DiffReported".

Record BindingObj : Set := mkBinding {
  b_meta : ObjectMeta;
  b_spec : ResourceBindingSpec;
  b_status : ResourceBindingStatus;
}.

#[global] Instance BindingObj_eq_dec : EqDecision BindingObj.
Proof. solve_decision. Defined.

Definition b_name (b : BindingObj) : string := meta_name (b_meta b).
Definition b_state (b : BindingObj) : string := rbs_State (b_spec b).
Definition b_target (b : BindingObj) : string := rbs_TargetCluster (b_spec b).
Definition b_annotations (b : BindingObj) : gmap string string := meta_annotations (b_meta b).
Definition b_deleting (b : BindingObj) : bool := being_deleted (b_meta b).
Definition b_conditions (b : BindingObj) : list Condition := rbst_Conditions (b_status b).

(** Field assignments on a binding. *)
Definition set_b_meta (m : ObjectMeta) (b : BindingObj) : BindingObj :=
  mkBinding m (b_spec b) (b_status b).

Definition set_b_spec (s : ResourceBindingSpec) (b : BindingObj) : BindingObj :=
  mkBinding (b_meta b) s (b_status b).

Definition set_b_annotations (a : gmap string string) (b : BindingObj) : BindingObj :=
  set_b_meta (set_meta_annotations a (b_meta b)) b.

Definition set_b_conditions (cs : list Condition) (b : BindingObj) : BindingObj :=
  mkBinding (b_meta b) (b_spec b)
    (mkBindingStatus (rbst_FailedPlacements (b_status b)) (rbst_DriftedPlacements (b_status b))
       (rbst_DiffedPlacements (b_status b)) cs).

Definition set_rbs_State (st : string) (s : ResourceBindingSpec) : ResourceBindingSpec :=
  mkBindingSpec st (rbs_ResourceSnapshotName s) (rbs_ResourceOverrideSnapshots s)
    (rbs_ClusterResourceOverrideSnapshots s) (rbs_SchedulingPolicySnapshotName s)
    (rbs_TargetCluster s) (rbs_ClusterDecision s) (rbs_ApplyStrategy s).

(** [binding.SetConditions(conds...)] *)
Definition SetConditions `{K : K8sLib} (now : Z) (conds : list Condition) (b : BindingObj) : BindingObj :=
  set_b_conditions (fold_left (SetStatusCondition now) conds (b_conditions b)) b.

(** [binding.GetCondition(t)] *)
Definition GetCondition `{K : K8sLib} (b : BindingObj) (t : string) : option Condition :=
  FindStatusCondition (b_conditions b) t.

(** ** Placements *)

Definition ClusterResourcePlacementScheduledConditionType : string := "ClusterResourcePlacementScheduled".
Definition ResourcePlacementScheduledConditionType : string := "ResourcePlacementScheduled".

Record PerClusterPlacementStatus : Set := mkPerClusterStatus {
  pcs_ClusterName : string;
  pcs_ObservedResourceIndex : string;
  pcs_ApplicableResourceOverrides : list NamespacedName;
  pcs_ApplicableClusterResourceOverrides : list string;
  pcs_FailedPlacements : list FailedResourcePlacement;
  pcs_DriftedPlacements : list DriftedResourcePlacement;
  pcs_DiffedPlacements : list DiffedResourcePlacement;
  pcs_Conditions : list Condition;
}.

#[global] Instance PerClusterPlacementStatus_eq_dec : EqDecision PerClusterPlacementStatus.
Proof. solve_decision. Defined.

Record PlacementStatus : Set := mkPlacementStatus {
  pst_SelectedResources : list ResourceIdentifier;
  pst_ObservedResourceIndex : string;
  pst_PerClusterPlacementStatuses : list PerClusterPlacementStatus;
  pst_Conditions : list Condition;
}.

#[global] Instance PlacementStatus_eq_dec : EqDecision PlacementStatus.
Proof. solve_decision. Defined.

(** A ClusterResourcePlacement, or a ResourcePlacement when it has a
    namespace. *)
Record PlacementObj : Set := mkPlacementObj {
  pl_meta : ObjectMeta;
  pl_spec : PlacementSpec;
  pl_status : PlacementStatus;
}.

#[global] Instance PlacementObj_eq_dec : EqDecision PlacementObj.
Proof. solve_decision. Defined.

(** A placement without a status. *)
Definition mkPlacement (m : ObjectMeta) (s : PlacementSpec) : PlacementObj :=
  mkPlacementObj m s (mkPlacementStatus [] EmptyString [] []).

(** ** Member clusters *)

Definition MemberAgent : string := "MemberAgent".
Definition AgentJoined : string := "Joined".
Definition AgentHealthy : string := "Healthy".

Record Taint : Set := mkTaint {
  taint_Key : string;
  taint_Value : string;
  taint_Effect : string;
}.

#[global] Instance Taint_eq_dec : EqDecision Taint.
Proof. solve_decision. Defined.

Record PropertyValue : Set := mkPropertyValue {
  pv_Value : string;
  pv_ObservationTime : Z;
}.

#[global] Instance PropertyValue_eq_dec : EqDecision PropertyValue.
Proof. solve_decision. Defined.

Record ResourceUsage : Set := mkResourceUsage {
  usage_Capacity : gmap string Quantity;
  usage_Allocatable : gmap string Quantity;
  usage_Available : gmap string Quantity;
  usage_ObservationTime : Z;
}.

#[global] Instance ResourceUsage_eq_dec : EqDecision ResourceUsage.
Proof. solve_decision. Defined.

Record AgentStatus : Set := mkAgentStatus {
  agent_Type : string;
  agent_Conditions : list Condition;
  agent_LastReceivedHeartbeat : Z;
}.

#[global] Instance AgentStatus_eq_dec : EqDecision AgentStatus.
Proof. solve_decision. Defined.

(** The fields of [MemberClusterSpec] and [MemberClusterStatus] that the
    scheduler reads; a nil [Namespaces] map is told apart from an empty one. *)
Record MemberCluster : Set := mkMemberCluster {
  mc_meta : ObjectMeta;
  mc_Taints : list Taint;
  mc_Conditions : list Condition;
  mc_Properties : gmap string PropertyValue;
  mc_ResourceUsage : ResourceUsage;
  mc_Namespaces : option (gmap string string);
  mc_AgentStatus : list AgentStatus;
}.

#[global] Instance MemberCluster_eq_dec : EqDecision MemberCluster.
Proof. solve_decision. Defined.

Definition mc_name (c : MemberCluster) : string := meta_name (mc_meta c).
Definition mc_labels (c : MemberCluster) : gmap string string := meta_labels (mc_meta c).

(** [MemberCluster.GetAgentStatus]: the first entry of the agent type. *)
Definition GetAgentStatus (m : MemberCluster) (agentType : string) : option AgentStatus :=
  snd <$> list_find (fun s => agent_Type s = agentType) (mc_AgentStatus m).

(** [MemberCluster.GetAgentCondition] *)
Definition GetAgentCondition `{K : K8sLib} (m : MemberCluster)
    (agentType conditionType : string) : option Condition :=
  match GetAgentStatus m agentType with
  | Some s => FindStatusCondition (agent_Conditions s) conditionType
  | None => None
  end.
