(* ===== verification/Sample.v ===== *)
(** * Small objects to evaluate the model on

    Constructors of API objects with every optional field empty, for the
    concrete inputs of the witnesses. *)

From stdpp Require Import prelude gmap strings.
From S2P Require Import Prelude K8s Api.

Local Open Scope string_scope.
Local Open Scope list_scope.

Module Sample.

Definition metadata (name : string) : ObjectMeta := new_meta name EmptyString ∅ [].

Definition labelled (name : string) (labels : gmap string string) : ObjectMeta :=
  new_meta name EmptyString labels [].

Definition noUsage : ResourceUsage := mkResourceUsage ∅ ∅ ∅ 0.

Definition condition (t : string) (s : ConditionStatus) : Condition :=
  mkCondition t s 1 0 "Reason" EmptyString.

(** A joined and healthy cluster whose last heartbeat came at time [beat]. *)
Definition cluster (name : string) (labels : gmap string string) (beat : Z) : MemberCluster :=
  mkMemberCluster (labelled name labels) [] [] ∅ noUsage None
    [mkAgentStatus MemberAgent
       [condition AgentJoined ConditionTrue; condition AgentHealthy ConditionTrue] beat].

Definition decision (target : string) : ClusterDecision := mkDecision target true None EmptyString.

Definition binding (name target policy state : string) : BindingObj :=
  mkBinding (metadata name)
    (mkBindingSpec state EmptyString [] [] policy target (decision target) None)
    (mkBindingStatus [] [] [] []).

Definition policy (placementType : string) (n : option Z) (ks : list TopologySpreadConstraint)
    : PlacementPolicy :=
  mkPolicy placementType [] n None ks [].

Definition snapshot (name : string) (p : option PlacementPolicy) : PolicySnapshotObj :=
  mkPolicySnapshot (metadata name) (mkSnapshotSpec p EmptyString) (mkSnapshotStatus 0 [] []).

End Sample.
