(* ===== verification/Utils.v ===== *)
(** * Helpers shared by the controllers

    Models the error constructors of [pkg/utils/controller/controller.go], the
    placement keys of [placement_resolver.go], [pkg/utils/annotations],
    [pkg/utils/condition/condition.go], [pkg/utils/binding/binding.go] and
    [pkg/scheduler/framework/uniquename]. *)

From Stdlib Require Import Ascii.
From stdpp Require Import prelude gmap strings.
From S2P Require Import Prelude K8s Api Sample.

Local Open Scope string_scope.
Local Open Scope list_scope.

(** ** Error classification *)

Definition NewUnexpectedBehaviorError (err : goerr) : goerr :=
  ErrUnexpectedBehavior ("unexpected behavior which cannot be handled by the controller: " +:+ error_msg err).

Definition NewExpectedBehaviorError (err : goerr) : goerr :=
  ErrExpectedBehavior ("expected behavior which can be recovered by itself: " +:+ error_msg err).

Definition isUnexpectedCacheError (err : goerr) : bool :=
  match err with
  | ErrAPI ContextDone _ => false
  | ErrAPI NonStatus _ => true
  | ErrAPI _ _ => false
  | _ => true
  end.

Definition NewAPIServerError (fromCache : bool) (err : goerr) : goerr :=
  if fromCache && isUnexpectedCacheError err then NewUnexpectedBehaviorError err
  else ErrAPIServerError ("error returned by the API server: " +:+ error_msg err).

Definition NewUserError (err : goerr) : goerr :=
  ErrUserError ("failed to process the request due to a client error: " +:+ error_msg err).

(** [errors.Is(err, ErrUserError)] *)
Definition isUserError (e : goerr) : bool := match e with ErrUserError _ => true | _ => false end.

(** [apierrors.IsNotFound] and its siblings *)
Definition has_reason (r : api_reason) (err : goerr) : bool :=
  match err with ErrAPI r' _ => bool_decide (r = r') | _ => false end.

Definition NewCreateIgnoreAlreadyExistError (err : goerr) : goerr :=
  if negb (has_reason AlreadyExists err) then NewAPIServerError false err
  else NewExpectedBehaviorError err.

Definition NewUpdateIgnoreConflictError (err : goerr) : goerr :=
  if negb (has_reason Conflict err) then NewAPIServerError false err
  else NewExpectedBehaviorError err.

Definition NewDeleteIgnoreNotFoundError (err : goerr) : option goerr :=
  if negb (has_reason NotFound err) then Some (NewAPIServerError false err) else None.

(** ** Durations *)

Definition second : Z := 1000000000.

(** [Time.Sub] saturates. *)
Definition time_sub (t u : Z) : Z := Z.max (- 2 ^ 63) (Z.min (2 ^ 63 - 1) (t - u)).

(** ** [strconv.Atoi] *)

Fixpoint atoi_digits (s : string) (acc : Z) : option Z :=
  match s with
  | EmptyString => Some acc
  | String a r =>
      let n := Z.of_nat (nat_of_ascii a) in
      if ((48 <=? n) && (n <=? 57))%Z then atoi_digits r (acc * 10 + (n - 48))%Z else None
  end.

Definition atoi_signed (s : string) : option Z :=
  match s with
  | EmptyString => None
  | String "-" EmptyString | String "+" EmptyString => None
  | String "-" r => Z.opp <$> atoi_digits r 0
  | String "+" r => atoi_digits r 0
  | _ => atoi_digits s 0
  end%char.

Definition Atoi (s : string) : outcome Z :=
  match atoi_signed s with
  | None => Err (ErrPlain ("strconv.Atoi: parsing " +:+ go_quote s +:+ ": invalid syntax"))
  | Some z =>
      if decide (in_range 64 z) then Ok z
      else Err (ErrPlain ("strconv.Atoi: parsing " +:+ go_quote s +:+ ": value out of range"))
  end.

(** [strconv.ParseBool] *)
Definition ParseBool (s : string) : outcome bool :=
  if decide (s ∈ ["1"; "t"; "T"; "TRUE"; "true"; "True"]) then Ok true
  else if decide (s ∈ ["0"; "f"; "F"; "FALSE"; "false"; "False"]) then Ok false
  else Err (ErrPlain ("strconv.ParseBool: parsing " +:+ go_quote s +:+ ": invalid syntax")).

(** ** Annotations of a policy snapshot *)

(** A count kept as an annotation; the wrapped error is nil for a negative one. *)
Definition extract_count (m : gmap string string) (key what : string) : outcome Z :=
  match m !! key with
  | None => Err (ErrPlain ("cannot find annotation " +:+ key))
  | Some s =>
      match Atoi s with
      | Ok n =>
          if (n <? 0)%Z then Err (ErrPlain ("invalid annotation " +:+ key +:+ ": " +:+ s +:+ what))
          else Ok n
      | Err e => Err (wrap_error ("invalid annotation " +:+ key +:+ ": " +:+ s +:+ what) e)
      | Panic w => Panic w
      end
  end.

Definition ExtractNumOfClustersFromPolicySnapshot (policy : PolicySnapshotObj) : outcome Z :=
  extract_count (meta_annotations (snap_meta policy)) NumberOfClustersAnnotation
    " is not a valid count".

Definition ExtractObservedPlacementGenerationFromPolicySnapshot (policy : PolicySnapshotObj) : outcome Z :=
  extract_count (meta_annotations (snap_meta policy)) CRPGenerationAnnotation
    " is not a valid value".

(** ** Placement keys *)

Definition GetObjectKeyFromNamespaceName (namespace name : string) : string :=
  if decide (namespace = EmptyString) then name
  else namespace +:+ String slash name.

Definition GetObjectKeyFromObj (obj : ObjectMeta) : string :=
  GetObjectKeyFromNamespaceName (meta_namespace obj) (meta_name obj).

Definition ExtractNamespaceNameFromKeyStr (keyStr : string) : outcome (string * string) :=
  if str_contains slash keyStr then
    match str_split slash keyStr with
    | [ns; name] =>
        if bool_decide (ns = EmptyString) || bool_decide (name = EmptyString) then
          Err (NewUnexpectedBehaviorError (ErrPlain ("empty placement key <namespace/name>: " +:+ keyStr)))
        else Ok (ns, name)
    | _ => Err (NewUnexpectedBehaviorError (ErrPlain ("invalid placement key format: " +:+ keyStr)))
    end
  else if decide (keyStr = EmptyString) then
    Err (NewUnexpectedBehaviorError (ErrPlain "empty placement key"))
  else Ok (EmptyString, keyStr).

(** placement keys are a faithful encoding: the key of a namespace and
    name that Kubernetes accepts (a name that is not empty, no slash in
    either) resolves to that pair, and a string resolves to a pair only when
    it is the key of that pair and the pair is such. *)
Theorem placement_key_roundtrip key namespace name :
  ExtractNamespaceNameFromKeyStr key = Ok (namespace, name) <->
  GetObjectKeyFromNamespaceName namespace name = key /\
  name <> EmptyString /\ str_contains slash namespace = false /\ str_contains slash name = false.
Proof.
  unfold GetObjectKeyFromNamespaceName, ExtractNamespaceNameFromKeyStr. split.
  - destruct (str_contains slash key) eqn:Hc.
    + destruct (str_split slash key) as [|v [|w [|? ?]]] eqn:Hs; try done.
      apply str_split_two in Hs as (-> & ? & ?).
      repeat case_bool_decide; try done. intros [= <- <-]. by rewrite decide_False.
    + destruct (decide (key = EmptyString)); [done|]. intros [= <- <-]. done.
  - intros (<- & Hn & Hs1 & Hs2). destruct (decide (namespace = EmptyString)) as [->|Hne].
    + rewrite Hs2. by rewrite decide_False.
    + assert (str_contains slash (namespace +:+ String slash name) = true) as ->.
      { rewrite str_contains_app; cbn. apply orb_true_r. }
      rewrite str_split_app, str_split_none by done. by rewrite !bool_decide_false.
Qed.

(** ** Conditions *)

Definition EqualCondition (current desired : option Condition) : bool :=
  match current, desired with
  | None, None => true
  | Some c, Some d =>
      bool_decide (cond_type c = cond_type d) && bool_decide (cond_status c = cond_status d) &&
      bool_decide (cond_reason c = cond_reason d) &&
      (cond_observed_generation d <=? cond_observed_generation c)%Z
  | _, _ => false
  end.

Definition EqualConditionIgnoreReason (current desired : option Condition) : bool :=
  match current, desired with
  | None, None => true
  | Some c, Some d =>
      bool_decide (cond_type c = cond_type d) && bool_decide (cond_status c = cond_status d) &&
      (cond_observed_generation d <=? cond_observed_generation c)%Z
  | _, _ => false
  end.

Definition IsConditionStatusTrue (cond : option Condition) (latestGeneration : Z) : bool :=
  match cond with
  | None => false
  | Some c => bool_decide (cond_status c = ConditionTrue) &&
              (cond_observed_generation c =? latestGeneration)%Z
  end.

Definition IsConditionStatusFalse (cond : option Condition) (latestGeneration : Z) : bool :=
  match cond with
  | None => false
  | Some c => bool_decide (cond_status c = ConditionFalse) &&
              (cond_observed_generation c =? latestGeneration)%Z
  end.

(** [ResourceCondition]; [TotalCondition] is an end marker. *)
Inductive ResourceCondition : Set :=
| RolloutStartedCondition
| OverriddenCondition
| WorkSynchronizedCondition
| AppliedCondition
| AvailableCondition
| DiffReportedCondition.

Definition ResourceBindingConditionType (c : ResourceCondition) : string :=
  match c with
  | RolloutStartedCondition => ResourceBindingRolloutStarted
  | OverriddenCondition => ResourceBindingOverridden
  | WorkSynchronizedCondition => ResourceBindingWorkSynchronized
  | AppliedCondition => ResourceBindingApplied
  | AvailableCondition => ResourceBindingAvailable
  | DiffReportedCondition => ResourceBindingDiffReported
  end.

Definition RolloutNotStartedYetReason : string := "RolloutNotStartedYet".
Definition RolloutStartedReason : string := "RolloutStarted".
Definition OverriddenPendingReason : string := "OverriddenPending".
Definition WorkNotSynchronizedYetReason : string := "WorkNotSynchronizedYet".
Definition ApplyPendingReason : string := "ApplyPending".
Definition NotAvailableYetReason : string := "ResourceNotAvailableYet".
Definition WorkNotAvailabilityTrackableReason : string := "NotAllWorkAreAvailabilityTrackable".
Definition WorkNotTrackableReason : string := "WorkNotTrackable".
Definition WorkNotAllManifestsTrackableReason : string := WorkNotTrackableReason.

(** ** Binding failures *)

Definition nonTerminalBindingFailureReasons : list string :=
  [OverriddenPendingReason; WorkNotSynchronizedYetReason; ApplyPendingReason; NotAvailableYetReason].

Section Bindings.
Context {K : K8sLib}.

(** The body of the loop over [OverriddenCondition .. AvailableCondition]. *)
Definition conditionFailed (binding : BindingObj) (i : ResourceCondition) : bool :=
  let c := GetCondition binding (ResourceBindingConditionType i) in
  IsConditionStatusFalse c (meta_generation (b_meta binding)) &&
  match c with
  | Some c => negb (bool_decide (cond_reason c ∈ nonTerminalBindingFailureReasons))
  | None => false
  end.

Definition HasBindingFailed (binding : BindingObj) : bool :=
  existsb (conditionFailed binding)
    [OverriddenCondition; WorkSynchronizedCondition; AppliedCondition; AvailableCondition].

Definition IsBindingDiffReported (binding : BindingObj) : bool :=
  match GetCondition binding ResourceBindingDiffReported with
  | Some c => (cond_observed_generation c =? meta_generation (b_meta binding))%Z
  | None => false
  end.

(** ** Binding names *)

Definition uuidLength : nat := 8.

(** [newUUID] is the value of [uuid.NewUUID()]; slicing it beyond its length
    would panic. *)
Definition NewBindingName (newUUID placementName clusterName : string) : outcome string :=
  let slotsPerSeg := (DNS1123LabelMaxLength - (2 + uuidLength)) `div` 2 in
  if decide (String.length newUUID < uuidLength) then Panic "slice bounds out of range"
  else
    let uniqueName :=
      str_take slotsPerSeg placementName +:+ String dash
        (str_take (slotsPerSeg + 1) clusterName +:+ String dash (str_take uuidLength newUUID)) in
    if negb (IsDNS1123Label uniqueName) then
      Err (ErrPlain ("failed to format a unique RFC 1123 label name with placement name " +:+
        placementName +:+ ", cluster name " +:+ clusterName))
    else Ok uniqueName.

End Bindings.
