(* ===== verification/Score.v ===== *)
(** * Cluster scores and the order the scheduler ranks clusters by

    Models [pkg/scheduler/framework/score.go].  Scores are int32 and int
    values that wrap on overflow.  [ScoredClusters_Less] is the comparison the
    scheduler hands to [sort.Sort]; the theorems below show that it is a strict
    order whose ties are exactly the equal (score, name) pairs, which is what
    makes the pick independent of the order clusters are listed in. *)

From stdpp Require Import prelude strings.
From S2P Require Import Prelude K8s Api.

Module Score.

(** [framework.ClusterScore] *)
Record ClusterScore : Set := mkScore {
  TopologySpreadScore : Z;
  AffinityScore : Z;
  ObsoletePlacementAffinityScore : Z;
}.

#[global] Instance ClusterScore_eq_dec : EqDecision ClusterScore.
Proof. solve_decision. Defined.

Definition zero : ClusterScore := mkScore 0 0 0.

Definition Add (s1 s2 : ClusterScore) : ClusterScore :=
  mkScore (wrap32 (TopologySpreadScore s1 + TopologySpreadScore s2))
    (wrap32 (AffinityScore s1 + AffinityScore s2))
    (wrap64 (ObsoletePlacementAffinityScore s1 + ObsoletePlacementAffinityScore s2)).

(** The receiver and the argument are pointers. *)
Definition Equal (s1 s2 : option ClusterScore) : bool :=
  match s1, s2 with
  | None, None => true
  | None, Some _ | Some _, None => false
  | Some s1, Some s2 =>
      (TopologySpreadScore s1 =? TopologySpreadScore s2)%Z &&
      (AffinityScore s1 =? AffinityScore s2)%Z &&
      (ObsoletePlacementAffinityScore s1 =? ObsoletePlacementAffinityScore s2)%Z
  end.

Definition Less (s1 s2 : ClusterScore) : bool :=
  if negb (TopologySpreadScore s1 =? TopologySpreadScore s2)%Z then
    (TopologySpreadScore s1 <? TopologySpreadScore s2)%Z
  else if negb (AffinityScore s1 =? AffinityScore s2)%Z then
    (AffinityScore s1 <? AffinityScore s2)%Z
  else (ObsoletePlacementAffinityScore s1 <? ObsoletePlacementAffinityScore s2)%Z.

Record ScoredCluster : Set := mkScored {
  Cluster : MemberCluster;
  sc_Score : ClusterScore;
}.

#[global] Instance ScoredCluster_eq_dec : EqDecision ScoredCluster.
Proof. solve_decision. Defined.

(** [ScoredClusters.Less], on the two elements it compares. *)
Definition ScoredClusters_Less (a b : ScoredCluster) : bool :=
  if Equal (Some (sc_Score a)) (Some (sc_Score b)) then
    str_lt (mc_name (Cluster a)) (mc_name (Cluster b))
  else Less (sc_Score a) (sc_Score b).

(** ** Lemmas *)

Lemma Equal_spec s1 s2 : Equal s1 s2 = true <-> s1 = s2.
Proof.
  destruct s1 as [[a b c]|], s2 as [[a' b' c']|]; cbn; try done.
  rewrite !andb_true_iff, !Z.eqb_eq. split; [intros [[-> ->] ->]|intros [= -> -> ->]]; done.
Qed.

Lemma Equal_false s1 s2 : Equal (Some s1) (Some s2) = false <-> s1 <> s2.
Proof.
  rewrite <- not_true_iff_false, Equal_spec. split; intros H E; apply H; congruence.
Qed.

(** The comparison is lexicographic. *)
Lemma Less_spec s1 s2 :
  Less s1 s2 = true <->
  (TopologySpreadScore s1 < TopologySpreadScore s2 \/
   TopologySpreadScore s1 = TopologySpreadScore s2 /\
     (AffinityScore s1 < AffinityScore s2 \/
      AffinityScore s1 = AffinityScore s2 /\
        ObsoletePlacementAffinityScore s1 < ObsoletePlacementAffinityScore s2))%Z.
Proof.
  unfold Less. destruct (Z.eqb_spec (TopologySpreadScore s1) (TopologySpreadScore s2)); cbn;
    [destruct (Z.eqb_spec (AffinityScore s1) (AffinityScore s2)); cbn|]; rewrite Z.ltb_lt; lia.
Qed.

Lemma Less_asym s1 s2 : Less s1 s2 = true -> Less s2 s1 = false.
Proof. rewrite <- not_true_iff_false, !Less_spec. lia. Qed.

Lemma Less_trans s1 s2 s3 : Less s1 s2 = true -> Less s2 s3 = true -> Less s1 s3 = true.
Proof. rewrite !Less_spec. lia. Qed.

Lemma Less_total s1 s2 : s1 <> s2 -> Less s1 s2 = true \/ Less s2 s1 = true.
Proof.
  intros Hn. rewrite !Less_spec. destruct s1 as [a b c], s2 as [a' b' c']; cbn.
  assert (a <> a' \/ b <> b' \/ c <> c'); [|lia].
  destruct (decide (a = a')), (decide (b = b')), (decide (c = c')); subst; auto.
Qed.

#[global] Instance Less_GoLess : GoLess Less.
Proof.
  split; [apply Less_asym|].
  intros s1 s2 s3 H12 H23. destruct (Less s1 s3) eqn:H13; [|done].
  destruct (decide (s1 = s2)) as [->|Hn]; [congruence|].
  destruct (Less_total s1 s2 Hn) as [|H21]; [congruence|].
  by rewrite (Less_trans s2 s1 s3) in H23.
Qed.

#[global] Instance ScoredClusters_Less_GoLess : GoLess ScoredClusters_Less.
Proof.
  unfold ScoredClusters_Less. split.
  - intros a b. destruct (Equal (Some (sc_Score a)) _) eqn:E.
    + apply Equal_spec in E. injection E as E'. rewrite E', (proj2 (Equal_spec _ _) eq_refl). apply str_lt_asym.
    + apply Equal_false in E. rewrite (proj2 (Equal_false _ _)) by congruence. apply Less_asym.
  - intros [ca sa] [cb sb] [cc sc]; cbn [sc_Score Cluster].
    destruct (decide (sa = sb)) as [->|E1].
    { rewrite (proj2 (Equal_spec (Some sb) (Some sb)) eq_refl).
      destruct (Equal (Some sb) (Some sc)); [apply str_lt_negtrans|done]. }
    destruct (decide (sb = sc)) as [->|E2].
    { rewrite (proj2 (Equal_false sa sc) E1). done. }
    rewrite (proj2 (Equal_false sa sb) E1), (proj2 (Equal_false sb sc) E2). intros H1 H2.
    destruct (Less_total _ _ E1) as [|E1']; [congruence|].
    destruct (Less_total _ _ E2) as [|E2']; [congruence|].
    pose proof (Less_trans _ _ _ E2' E1') as E3.
    rewrite (proj2 (Equal_false _ _)); [by apply Less_asym|].
    intros ->. by rewrite (less_irrefl Less) in E3.
Qed.

(** The only ties of the ranking are clusters with one score and one name. *)
Lemma ScoredClusters_Less_antisym a b :
  ScoredClusters_Less a b = false -> ScoredClusters_Less b a = false ->
  sc_Score a = sc_Score b /\ mc_name (Cluster a) = mc_name (Cluster b).
Proof.
  unfold ScoredClusters_Less. destruct (decide (sc_Score a = sc_Score b)) as [E|E].
  - rewrite E, (proj2 (Equal_spec _ _) eq_refl). intros H1 H2.
    split; [done|]. by apply str_lt_false_eq.
  - rewrite !(proj2 (Equal_false _ _)) by congruence. intros H1 H2.
    destruct (Less_total _ _ E); congruence.
Qed.

(** Adding scores is commutative and associative even when it wraps, so a
    total does not depend on the order plugins report in. *)
Lemma Add_comm s1 s2 : Add s1 s2 = Add s2 s1.
Proof. unfold Add. f_equal; f_equal; lia. Qed.

Lemma Add_assoc s1 s2 s3 : Add (Add s1 s2) s3 = Add s1 (Add s2 s3).
Proof.
  unfold Add; cbn. unfold wrap32, wrap64.
  f_equal; rewrite wrap_add_idemp_l, wrap_add_idemp_r; f_equal; lia.
Qed.

End Score.
