(* ===== verification/CycleState.v ===== *)
(** * Plugin results and the state of one scheduling cycle

    Models [pkg/scheduler/framework/status.go], [cyclestate.go],
    [cyclestateutils.go], [interface.go] and [profile.go].  The store of a
    [CycleState] holds values of an interface type; [V] stands for it, and
    [StateCast] is the type assertion with which a plugin reads its own value
    back.  A Filter or Score plugin only reads the state, so it is a function
    of it; PreFilter, PreScore return the state they leave. *)

From stdpp Require Import prelude gmap strings.
From S2P Require Import Prelude K8s Api Score.

Local Open Scope string_scope.
Local Open Scope list_scope.

(** ** Status *)

Inductive StatusCode : Set :=
| Success
| internalError
| ClusterUnschedulable
| ClusterAlreadySelected
| Skip.

#[global] Instance StatusCode_eq_dec : EqDecision StatusCode.
Proof. solve_decision. Defined.

(** [StatusCode.Name], by the table [statusCodeNames]. *)
Definition StatusCode_Name (sc : StatusCode) : string :=
  match sc with
  | Success => "Success"
  | internalError => "InternalError"
  | ClusterUnschedulable => "ClusterUnschedulable"
  | ClusterAlreadySelected => "ClusterAlreadySelected"
  | Skip => "Skip"
  end.

Record StatusData : Set := mkStatus {
  st_statusCode : StatusCode;
  st_reasons : list string;
  st_err : option goerr;
  st_sourcePlugin : string;
}.

(** A [*Status]: nil is a success. *)
Definition Status : Set := option StatusData.

Definition code (s : Status) : StatusCode :=
  match s with None => Success | Some d => st_statusCode d end.

Definition IsSuccess (s : Status) : bool := bool_decide (code s = Success).
Definition IsInternalError (s : Status) : bool := bool_decide (code s = internalError).
Definition IsSkip (s : Status) : bool := bool_decide (code s = Skip).
Definition IsClusterUnschedulable (s : Status) : bool := bool_decide (code s = ClusterUnschedulable).
Definition IsClusterAlreadySelected (s : Status) : bool :=
  bool_decide (code s = ClusterAlreadySelected).

Definition Reasons (s : Status) : list string :=
  match s with None => [] | Some d => st_reasons d end.

(** [strings.Join] *)
Fixpoint str_join (sep : string) (l : list string) : string :=
  match l with
  | [] => EmptyString
  | [s] => s
  | s :: r => s +:+ sep +:+ str_join sep r
  end.

Definition Status_String (s : Status) : string :=
  match s with
  | None => StatusCode_Name (code s)
  | Some d =>
      str_join ", " (StatusCode_Name (st_statusCode d) ::
        (match st_err d with Some e => [error_msg e] | None => [] end) ++ st_reasons d)
  end.

Definition AsError (s : Status) : option goerr :=
  if negb (IsInternalError s) then None
  else
    Some (ErrPlain ("plugin " +:+ (match s with Some d => st_sourcePlugin d | None => EmptyString end)
      +:+ " returned an error " +:+ Status_String s)).

Definition NewNonErrorStatus (c : StatusCode) (sourcePlugin : string) (reasons : list string) : Status :=
  Some (mkStatus c reasons None sourcePlugin).

Definition FromError (err : goerr) (sourcePlugin : string) (reasons : list string) : Status :=
  Some (mkStatus internalError reasons (Some err) sourcePlugin).

Definition SourcePlugin (s : Status) : string :=
  match s with None => EmptyString | Some d => st_sourcePlugin d end.

Definition InternalError (s : Status) : option goerr :=
  match s with None => None | Some d => st_err d end.

(** ** CycleState *)

Record CycleState {V : Type} : Type := mkCycleState {
  store : gmap string V;
  clusters : list MemberCluster;
  scheduledOrBoundBindings : gmap string bool;
  obsoleteBindings : gmap string bool;
  skippedFilterPlugins : gset string;
  skippedScorePlugins : gset string;
  desiredBatchSize : Z;
  batchSizeLimit : Z;
}.
Arguments CycleState : clear implicits.

(** The type assertion to the pointer type of a plugin state, on a stored value. *)
Class StateCast (A V : Type) : Type := {
  inject : A -> V;
  cast : V -> option A;
  cast_inject a : cast (inject a) = Some a;
}.

#[global] Instance StateCast_refl A : StateCast A A | 100 := {
  inject := fun a => a;
  cast := fun a => Some a;
  cast_inject a := eq_refl;
}.

Section State.
Context {V : Type}.
Implicit Types st : CycleState V.

Definition Read st (key : string) : outcome V :=
  match store st !! key with
  | Some v => Ok v
  | None => Err (ErrPlain ("key " +:+ key +:+ " is not found"))
  end.

Definition set_store (m : gmap string V) st : CycleState V :=
  mkCycleState V m (clusters st) (scheduledOrBoundBindings st) (obsoleteBindings st)
    (skippedFilterPlugins st) (skippedScorePlugins st) (desiredBatchSize st) (batchSizeLimit st).

Definition Write (key : string) (val : V) st : CycleState V :=
  set_store (<[key := val]> (store st)) st.

Definition Delete (key : string) st : CycleState V :=
  set_store (delete key (store st)) st.

Definition set_skippedFilterPlugins (s : gset string) st : CycleState V :=
  mkCycleState V (store st) (clusters st) (scheduledOrBoundBindings st) (obsoleteBindings st)
    s (skippedScorePlugins st) (desiredBatchSize st) (batchSizeLimit st).

Definition set_skippedScorePlugins (s : gset string) st : CycleState V :=
  mkCycleState V (store st) (clusters st) (scheduledOrBoundBindings st) (obsoleteBindings st)
    (skippedFilterPlugins st) s (desiredBatchSize st) (batchSizeLimit st).

Definition set_desiredBatchSize (n : Z) st : CycleState V :=
  mkCycleState V (store st) (clusters st) (scheduledOrBoundBindings st) (obsoleteBindings st)
    (skippedFilterPlugins st) (skippedScorePlugins st) n (batchSizeLimit st).

Definition set_batchSizeLimit (n : Z) st : CycleState V :=
  mkCycleState V (store st) (clusters st) (scheduledOrBoundBindings st) (obsoleteBindings st)
    (skippedFilterPlugins st) (skippedScorePlugins st) (desiredBatchSize st) n.

Definition ListClusters st : list MemberCluster := clusters st.

(** Reading an absent key of a Go map yields the zero value. *)
Definition HasScheduledOrBoundBindingFor st (clusterName : string) : bool :=
  default false (scheduledOrBoundBindings st !! clusterName).

Definition HasObsoleteBindingFor st (clusterName : string) : bool :=
  default false (obsoleteBindings st !! clusterName).

Definition markTargets (bm : gmap string bool) (bindings : list BindingObj) : gmap string bool :=
  fold_left (fun bm b => <[b_target b := true]> bm) bindings bm.

Definition prepareScheduledOrBoundBindingsMap (sets : list (list BindingObj)) : gmap string bool :=
  fold_left markTargets sets ∅.

Definition prepareObsoleteBindingsMap (obsolete : list BindingObj) : gmap string bool :=
  markTargets ∅ obsolete.

Definition NewCycleState (cs : list MemberCluster) (obsolete : list BindingObj)
    (scheduledOrBound : list (list BindingObj)) : CycleState V :=
  mkCycleState V ∅ cs (prepareScheduledOrBoundBindingsMap scheduledOrBound)
    (prepareObsoleteBindingsMap obsolete) ∅ ∅ 0 0.

(** ** The lookup maps say exactly which clusters have a binding. *)

Lemma markTargets_lookup bm bs c :
  default false (markTargets bm bs !! c) = true <->
  default false (bm !! c) = true \/ c ∈ (b_target <$> bs).
Proof.
  revert bm. induction bs as [|b bs IH]; intros bm; cbn.
  { set_solver. }
  unfold markTargets in IH. rewrite IH, elem_of_cons.
  destruct (decide (b_target b = c)) as [<-|Hn].
  - rewrite lookup_insert_eq. cbn. naive_solver.
  - rewrite lookup_insert_ne by done. naive_solver.
Qed.

Lemma HasObsoleteBindingFor_spec cs obs sobs c :
  HasObsoleteBindingFor (NewCycleState cs obs sobs) c = true <-> c ∈ (b_target <$> obs).
Proof.
  unfold HasObsoleteBindingFor; cbn. unfold prepareObsoleteBindingsMap.
  rewrite markTargets_lookup, lookup_empty. cbn. naive_solver.
Qed.

Lemma HasScheduledOrBoundBindingFor_spec cs obs sobs c :
  HasScheduledOrBoundBindingFor (NewCycleState cs obs sobs) c = true <->
  c ∈ (b_target <$> mjoin sobs).
Proof.
  unfold HasScheduledOrBoundBindingFor; cbn. unfold prepareScheduledOrBoundBindingsMap.
  assert (forall bm, default false (fold_left markTargets sobs bm !! c) = true <->
    default false (bm !! c) = true \/ c ∈ (b_target <$> mjoin sobs)) as Hgen.
  { induction sobs as [|bs sobs IH]; intros bm; cbn; [set_solver|].
    rewrite IH, markTargets_lookup, fmap_app, elem_of_app. naive_solver. }
  rewrite Hgen, lookup_empty. cbn. naive_solver.
Qed.

(** ** Plugins and profiles *)

Record PostBatchPlugin : Type := mkPostBatchPlugin {
  postBatch_Name : string;
  PostBatch : CycleState V -> PolicySnapshotObj -> Z * Status;
}.

Record PreFilterPlugin : Type := mkPreFilterPlugin {
  preFilter_Name : string;
  PreFilter : CycleState V -> PolicySnapshotObj -> outcome (CycleState V * Status);
}.

Record FilterPlugin : Type := mkFilterPlugin {
  filter_Name : string;
  Filter : CycleState V -> PolicySnapshotObj -> MemberCluster -> outcome Status;
}.

Record PreScorePlugin : Type := mkPreScorePlugin {
  preScore_Name : string;
  PreScore : CycleState V -> PolicySnapshotObj -> outcome (CycleState V * Status);
}.

Record ScorePlugin : Type := mkScorePlugin {
  score_Name : string;
  score_Score : CycleState V -> PolicySnapshotObj -> MemberCluster ->
    outcome (option Score.ClusterScore * Status);
}.

Record Profile : Type := mkProfile {
  profile_name : string;
  postBatchPlugins : list PostBatchPlugin;
  preFilterPlugins : list PreFilterPlugin;
  filterPlugins : list FilterPlugin;
  preScorePlugins : list PreScorePlugin;
  scorePlugins : list ScorePlugin;
}.

End State.

Arguments PostBatchPlugin : clear implicits.
Arguments PreFilterPlugin : clear implicits.
Arguments FilterPlugin : clear implicits.
Arguments PreScorePlugin : clear implicits.
Arguments ScorePlugin : clear implicits.
Arguments Profile : clear implicits.
