(* ===== verification/Plugins.v ===== *)
(** * The filter plugins without a state of their own

    Cluster eligibility ([pkg/scheduler/clustereligibilitychecker] and its
    plugin), taint toleration, same placement anti-affinity and namespace
    affinity.  The time [now] stands for [time.Now()]. *)

From stdpp Require Import prelude gmap strings pretty.
From S2P Require Import Prelude K8s Api Sample Score CycleState.

Local Open Scope string_scope.
Local Open Scope list_scope.

Module Eligibility.

Definition minute : Z := 60 * 1000000000.
Definition defaultClusterHeartbeatCheckTimeout : Z := 5 * minute.
Definition defaultClusterHealthCheckTimeout : Z := 5 * minute.

Record ClusterEligibilityChecker : Set := mkChecker {
  clusterHeartbeatCheckTimeout : Z;
  clusterHealthCheckTimeout : Z;
}.

(** The [Option]s of [New] *)
Inductive checkerOption : Set :=
| WithClusterHeartbeatCheckTimeout (timeout : Z)
| WithClusterHealthCheckTimeout (timeout : Z).

Definition New (opts : list checkerOption) : ClusterEligibilityChecker :=
  fold_left (fun o opt =>
    match opt with
    | WithClusterHeartbeatCheckTimeout t => mkChecker t (clusterHealthCheckTimeout o)
    | WithClusterHealthCheckTimeout t => mkChecker (clusterHeartbeatCheckTimeout o) t
    end) opts (mkChecker defaultClusterHeartbeatCheckTimeout defaultClusterHealthCheckTimeout).

(** [%.2f] of a duration in minutes, rounded on the exact value. *)
Definition minutes2 (d : Z) : string :=
  let hundredths := ((Z.abs d * 100 + minute / 2) / minute)%Z in
  (if (d <? 0)%Z then "-" else EmptyString) +:+
  zstr (hundredths / 100) +:+ "." +:+
  (if (hundredths mod 100 <? 10)%Z then "0" else EmptyString) +:+ zstr (hundredths mod 100).

Section Checker.
Context {K : K8sLib}.

Definition IsEligible (checker : ClusterEligibilityChecker) (now : Z) (cluster : MemberCluster)
    : bool * string :=
  if being_deleted (mc_meta cluster) then (false, "cluster has left the fleet")
  else
  match GetAgentStatus cluster MemberAgent with
  | None => (false, "cluster is not connected to the fleet: member agent not online yet")
  | Some memberAgentStatus =>
      let sinceLastHeartbeat := (now - agent_LastReceivedHeartbeat memberAgentStatus)%Z in
      if (clusterHeartbeatCheckTimeout checker <? sinceLastHeartbeat)%Z then
        (false, "cluster is not connected to the fleet: no recent heartbeat signals (last received "
           +:+ minutes2 sinceLastHeartbeat +:+ " minutes ago)")
      else
      let joined := match GetAgentCondition cluster MemberAgent AgentJoined with
        | None => false
        | Some c => bool_decide (cond_status c = ConditionTrue)
        end in
      if negb joined then
        (false, "cluster is not connected to the fleet: member agent not joined yet")
      else
      match GetAgentCondition cluster MemberAgent AgentHealthy with
      | None =>
          (false, "cluster is not connected to the fleet: health condition from member agent is not available")
      | Some healthy =>
          let sinceLastTransition := (now - cond_last_transition healthy)%Z in
          if negb (bool_decide (cond_status healthy = ConditionTrue)) &&
             (clusterHealthCheckTimeout checker <? sinceLastTransition)%Z then
            (false, "cluster is not connected to the fleet: unhealthy for a prolonged period of time (last transitioned "
               +:+ minutes2 sinceLastTransition +:+ " minutes ago)")
          else (true, EmptyString)
      end
  end.

Definition defaultPluginName : string := "ClusterEligibility".

Definition Filter {V} (checker : ClusterEligibilityChecker) (now : Z) (name : string)
    (_ : CycleState V) (_ : PolicySnapshotObj) (cluster : MemberCluster) : outcome Status :=
  let '(eligible, reason) := IsEligible checker now cluster in
  if negb eligible then Ok (NewNonErrorStatus ClusterUnschedulable name [reason])
  else Ok None.

(** What a cluster needs to be eligible. *)
Definition eligible (checker : ClusterEligibilityChecker) (now : Z) (cluster : MemberCluster) : Prop :=
  meta_deletion_timestamp (mc_meta cluster) = None /\
  (exists agent, GetAgentStatus cluster MemberAgent = Some agent /\
    (now <= agent_LastReceivedHeartbeat agent + clusterHeartbeatCheckTimeout checker)%Z) /\
  (exists joined, GetAgentCondition cluster MemberAgent AgentJoined = Some joined /\
    cond_status joined = ConditionTrue) /\
  (exists healthy, GetAgentCondition cluster MemberAgent AgentHealthy = Some healthy /\
    (cond_status healthy = ConditionTrue \/
     now <= cond_last_transition healthy + clusterHealthCheckTimeout checker)%Z).

Lemma IsEligible_reason checker now cluster :
  (IsEligible checker now cluster).1 = true <-> (IsEligible checker now cluster).2 = EmptyString.
Proof. unfold IsEligible. by repeat case_match; cbn. Qed.

Lemma IsEligible_spec checker now cluster :
  (IsEligible checker now cluster).1 = true <-> eligible checker now cluster.
Proof.
  unfold IsEligible, eligible, being_deleted.
  destruct (meta_deletion_timestamp (mc_meta cluster)); cbn; [naive_solver|].
  destruct (GetAgentStatus cluster MemberAgent) as [a|]; cbn; [|naive_solver].
  destruct (Z.ltb_spec (clusterHeartbeatCheckTimeout checker) (now - agent_LastReceivedHeartbeat a)); cbn.
  { split; [done|]. intros (_ & (? & [= <-] & ?) & _). lia. }
  destruct (GetAgentCondition cluster MemberAgent AgentJoined) as [j|]; cbn; [|naive_solver].
  case_bool_decide as Hj; cbn; [|naive_solver].
  destruct (GetAgentCondition cluster MemberAgent AgentHealthy) as [h|]; cbn; [|naive_solver].
  case_bool_decide as Hh; cbn.
  { split; [intros _|done]. split_and!; [done|exists a; split; [done|lia]|eauto|eauto]. }
  destruct (Z.ltb_spec (clusterHealthCheckTimeout checker) (now - cond_last_transition h)); cbn.
  - split; [done|]. intros (_ & _ & _ & ? & [= <-] & [?|?]); [done|lia].
  - split; [intros _|done].
    split_and!; [done|exists a; split; [done|lia]|eauto|].
    exists h. split; [done|right; lia].
Qed.

End Checker.
End Eligibility.

Module TaintToleration.

Definition defaultName : string := "TaintToleration".

Definition canTolerationTolerateTaint (taint : Taint) (toleration : Toleration) : bool :=
  let effect := bool_decide (tol_Effect toleration = taint_Effect taint) ||
    bool_decide (tol_Effect toleration = EmptyString) in
  if bool_decide (tol_Operator toleration = TolerationOpExists) &&
     (bool_decide (tol_Key toleration = EmptyString) || bool_decide (tol_Key toleration = taint_Key taint))
  then effect
  else if bool_decide (tol_Operator toleration = TolerationOpEqual) &&
    (bool_decide (tol_Key toleration = taint_Key taint) &&
     bool_decide (tol_Value toleration = taint_Value taint))
  then effect
  else false.

Fixpoint tolerationsTolerateTaint (taint : Taint) (tolerations : list Toleration) : bool :=
  match tolerations with
  | [] => false
  | t :: r => if canTolerationTolerateTaint taint t then true else tolerationsTolerateTaint taint r
  end.

Fixpoint findUntoleratedTaint (taints : list Taint) (tolerations : list Toleration) : option Taint :=
  match taints with
  | [] => None
  | t :: r => if negb (tolerationsTolerateTaint t tolerations) then Some t
              else findUntoleratedTaint r tolerations
  end.

(** [%+v] of a pointer to a taint. *)
Definition taint_string (t : Taint) : string :=
  "&{Key:" +:+ taint_Key t +:+ " Value:" +:+ taint_Value t +:+ " Effect:" +:+ taint_Effect t +:+ "}".

Definition Filter {V} (name : string) (_ : CycleState V) (policy : PolicySnapshotObj)
    (cluster : MemberCluster) : outcome Status :=
  match findUntoleratedTaint (mc_Taints cluster) (Tolerations (snap_spec policy)) with
  | None => Ok None
  | Some taint => Ok (NewNonErrorStatus ClusterUnschedulable name
                        ["taint " +:+ taint_string taint +:+ " cannot be tolerated"])
  end.

(** The documented meaning of a toleration: an absent operator is [Equal], an
    empty key with [Exists] matches every key, an empty effect every effect. *)
Definition tolerates (tol : Toleration) (taint : Taint) : Prop :=
  (tol_Effect tol = EmptyString \/ tol_Effect tol = taint_Effect taint) /\
  ((tol_Operator tol = TolerationOpExists /\
      (tol_Key tol = EmptyString \/ tol_Key tol = taint_Key taint)) \/
   ((tol_Operator tol = TolerationOpEqual \/ tol_Operator tol = EmptyString) /\
      tol_Key tol = taint_Key taint /\ tol_Value tol = taint_Value taint)).

Lemma canTolerationTolerateTaint_spec taint tol :
  tol_Operator tol <> EmptyString ->
  canTolerationTolerateTaint taint tol = true <-> tolerates tol taint.
Proof.
  intros Hop. unfold canTolerationTolerateTaint, tolerates.
  repeat case_bool_decide; cbn; split; intros; try done; try tauto; naive_solver.
Qed.

Lemma tolerationsTolerateTaint_spec taint tols :
  Forall (fun t => tol_Operator t <> EmptyString) tols ->
  tolerationsTolerateTaint taint tols = true <-> Exists (fun t => tolerates t taint) tols.
Proof.
  induction 1 as [|t tols Ht _ IH]; cbn; [by rewrite Exists_nil|].
  rewrite Exists_cons, <- IH, <- canTolerationTolerateTaint_spec by done.
  destruct (canTolerationTolerateTaint taint t); naive_solver.
Qed.

Lemma findUntoleratedTaint_None taints tols :
  Forall (fun t => tol_Operator t <> EmptyString) tols ->
  findUntoleratedTaint taints tols = None <->
  Forall (fun taint => Exists (fun t => tolerates t taint) tols) taints.
Proof.
  intros Ht. induction taints as [|t r IH]; cbn; [by rewrite Forall_nil|].
  rewrite Forall_cons, <- tolerationsTolerateTaint_spec by done.
  destruct (tolerationsTolerateTaint t tols); cbn; [rewrite IH|]; naive_solver.
Qed.

End TaintToleration.

Module SamePlacementAffinity.

Definition defaultName : string := "SamePlacementAntiAffinity".

Definition Filter {V} (name : string) (state : CycleState V) (_ : PolicySnapshotObj)
    (cluster : MemberCluster) : outcome Status :=
  if negb (HasScheduledOrBoundBindingFor state (mc_name cluster)) then Ok None
  else Ok (NewNonErrorStatus ClusterAlreadySelected name
    ["resource placement has already been scheduled or bounded on the cluster"]).

Definition Score {V} (name : string) (state : CycleState V) (_ : PolicySnapshotObj)
    (cluster : MemberCluster) : outcome (option Score.ClusterScore * Status) :=
  if HasObsoleteBindingFor state (mc_name cluster) then Ok (Some (Score.mkScore 0 0 1), None)
  else Ok (Some (Score.mkScore 0 0 0), None).

End SamePlacementAffinity.

Module NamespaceAffinity.

Definition defaultName : string := "NamespaceAffinity".
Definition NamespaceCollectionSucceededCondType : string := "NamespaceCollectionSucceeded".

Definition PreFilter {V} (name : string) (state : CycleState V) (ps : PolicySnapshotObj)
    : outcome (CycleState V * Status) :=
  if bool_decide (meta_namespace (snap_meta ps) = EmptyString) then
    Ok (state, NewNonErrorStatus Skip name
      ["cluster-scoped placement does not require namespace affinity filtering"])
  else Ok (state, None).

Definition Filter `{K : K8sLib} {V} (name : string) (_ : CycleState V) (ps : PolicySnapshotObj)
    (cluster : MemberCluster) : outcome Status :=
  let nsName := meta_namespace (snap_meta ps) in
  match FindStatusCondition (mc_Conditions cluster) NamespaceCollectionSucceededCondType with
  | None => Ok None
  | Some _ =>
      match mc_Namespaces cluster with
      | None => Ok (NewNonErrorStatus ClusterUnschedulable name
                      ["cluster has no namespace information available"])
      | Some namespaces =>
          match namespaces !! nsName with
          | None => Ok (NewNonErrorStatus ClusterUnschedulable name
                          ["target namespace does not exist on cluster"])
          | Some _ => Ok None
          end
      end
  end.

End NamespaceAffinity.
