(* ===== verification/ClusterAffinity.v ===== *)
(** * The cluster affinity plugin

    Models [pkg/scheduler/framework/plugins/clusteraffinity]: required terms
    select clusters by label and property, preferred terms score them, with a
    weight interpolated between the smallest and the largest observed value of
    a property.  Quantities are compared exactly; the interpolation runs on
    binary64 numbers, as in the source. *)

From Stdlib Require Import SpecFloat.
From stdpp Require Import prelude gmap strings.
From S2P Require Import Prelude K8s Api Sample Score CycleState.

Local Open Scope string_scope.
Local Open Scope list_scope.

Module ClusterAffinityPlugin.

Definition defaultName : string := "ClusterAffinity".

(** [pkg/propertyprovider/commons.go] *)
Definition ResourcePropertyNamePrefix : string := "resources.kubernetes-fleet.io/".
Definition TotalCapacityName : string := "total".
Definition AllocatableCapacityName : string := "allocatable".
Definition AvailableCapacityName : string := "available".

Record observedMinMaxValues : Set := mkMinMax {
  mm_min : option Quantity;
  mm_max : option Quantity;
}.

Record pluginState : Set := mkPluginState {
  minMaxValuesByProperty : gmap string observedMinMaxValues;
}.

(** ** Binary64 arithmetic *)

Definition fadd : spec_float -> spec_float -> spec_float := SFadd 53 1024.
Definition fsub : spec_float -> spec_float -> spec_float := SFsub 53 1024.
Definition fmul : spec_float -> spec_float -> spec_float := SFmul 53 1024.
Definition fdiv : spec_float -> spec_float -> spec_float := SFdiv 53 1024.
Definition float_of_Z (z : Z) : spec_float := binary_normalize 53 1024 z 0 false.

(** [math.IsInf(f, 0)] *)
Definition IsInf (f : spec_float) : bool :=
  match f with S754_infinity _ => true | _ => false end.

(** [int32(math.Round(f))]: half away from zero.  The conversion of an
    infinity or a NaN is not specified by the language. *)
Definition int32_round (f : spec_float) : Z :=
  match f with
  | S754_finite s m e =>
      let a := if (0 <=? e)%Z then (Z.pos m * 2 ^ e)%Z
               else ((Z.pos m + 2 ^ (- e - 1)) / 2 ^ (- e))%Z in
      wrap32 (if s then (- a)%Z else a)
  | _ => 0%Z
  end.

Section Plugin.
Context {K : K8sLib}.

Definition retrieveResourceUsageFrom (cluster : MemberCluster) (name : string)
    : outcome (option Quantity) :=
  match str_split dash name with
  | [cn; tn] =>
      if decide (cn = EmptyString) then Err (ErrPlain ("invalid resource property name: " +:+ name))
      else if decide (tn = EmptyString) then Err (ErrPlain ("invalid resource property name: " +:+ name))
      else if decide (cn = TotalCapacityName) then Ok (usage_Capacity (mc_ResourceUsage cluster) !! tn)
      else if decide (cn = AllocatableCapacityName) then Ok (usage_Allocatable (mc_ResourceUsage cluster) !! tn)
      else if decide (cn = AvailableCapacityName) then Ok (usage_Available (mc_ResourceUsage cluster) !! tn)
      else Err (ErrPlain ("invalid capacity type " +:+ cn +:+ " in resource property name " +:+ name))
  | _ => Err (ErrPlain ("invalid resource property name: " +:+ name))
  end.

Definition retrievePropertyValueFrom (cluster : MemberCluster) (name : string)
    : outcome (option Quantity) :=
  match str_cut_prefix ResourcePropertyNamePrefix name with
  | Some name =>
      owrap ("failed to retrieve resource property value for " +:+ name +:+ " from cluster " +:+ mc_name cluster)
        (retrieveResourceUsageFrom cluster name)
  | None =>
      match mc_Properties cluster !! name with
      | None => Ok None
      | Some v =>
          let! qv := owrap ("value " +:+ pv_Value v +:+ " of property " +:+ name +:+ " from cluster " +:+
              mc_name cluster +:+ " is not a valid quantity") (ParseQuantity (pv_Value v)) in
          Ok (Some qv)
      end
  end.

(** The switch of [Matches] on the operator. *)
Definition compareQuantities (operator : string) (q expected : Quantity) : outcome bool :=
  if decide (operator = PropertySelectorEqualTo) then Ok (q =? expected)%Z
  else if decide (operator = PropertySelectorNotEqualTo) then Ok (negb (q =? expected)%Z)
  else if decide (operator = PropertySelectorGreaterThan) then Ok (negb (q <=? expected)%Z)
  else if decide (operator = PropertySelectorGreaterThanOrEqualTo) then Ok (negb (q <? expected)%Z)
  else if decide (operator = PropertySelectorLessThan) then Ok (negb (expected <=? q)%Z)
  else if decide (operator = PropertySelectorLessThanOrEqualTo) then Ok (negb (expected <? q)%Z)
  else Err (ErrPlain ("invalid operator: " +:+ operator)).

(** One round of the loop of [Matches]: true goes on to the next expression. *)
Definition matchExpression (cluster : MemberCluster) (exp : PropertySelectorRequirement) : outcome bool :=
  let! q := retrievePropertyValueFrom cluster (psr_Name exp) in
  match q with
  | None => Ok false
  | Some q =>
      match psr_Values exp with
      | [v] =>
          let! expectedQ := owrap ("value specified in property selector " +:+ v +:+
            " is not a valid resource quantity") (ParseQuantity v) in
          compareQuantities (psr_Operator exp) q expectedQ
      | _ => Err (ErrPlain "more than one value in the property selector expression")
      end
  end.

Fixpoint matchExpressions (cluster : MemberCluster) (exps : list PropertySelectorRequirement) : outcome bool :=
  match exps with
  | [] => Ok true
  | exp :: r =>
      let! m := matchExpression cluster exp in
      if negb m then Ok false else matchExpressions cluster r
  end.

(** [LabelSelectorAsSelector] and [Matches]; no selector matches. *)
Definition matchLabels (s : option LabelSelector) (cluster : MemberCluster) : outcome bool :=
  match s with
  | None => Ok true
  | Some ls => owrap "failed to parse label selector" (LabelSelectorMatches ls (mc_labels cluster))
  end.

(** [clusterRequirement.Matches] *)
Definition Matches (term : ClusterSelectorTerm) (cluster : MemberCluster) : outcome bool :=
  let! matched := matchLabels (term_LabelSelector term) cluster in
  if negb matched then Ok false
  else
    match term_PropertySelector term with
    | None => Ok true
    | Some s => matchExpressions cluster (ps_MatchExpressions s)
    end.

Definition interpolateWeightFor (cluster : MemberCluster) (property sortOrder : string)
    (weight : Z) (state : pluginState) : outcome Z :=
  let! q := owrap ("failed to perform weight interpolation based on " +:+ property +:+
    " for cluster " +:+ mc_name cluster) (retrievePropertyValueFrom cluster property) in
  match q with
  | None => Ok 0%Z
  | Some q =>
      match minMaxValuesByProperty state !! property with
      | None => Err (ErrPlain ("failed to look up extremums for property " +:+ property +:+
                               ", no state is prepared"))
      | Some (mkMinMax (Some minQ) (Some maxQ)) =>
          let f := AsApproximateFloat64 q in
          let minF := AsApproximateFloat64 minQ in
          let maxF := AsApproximateFloat64 maxQ in
          if IsInf minF || IsInf maxF || SFltb maxF minF || SFltb f minF || SFltb maxF f
          then Err (ErrPlain "cannot interpolate weight")
          else if SFeqb minF maxF then Ok 0%Z
          else
            let ratio := fdiv (fsub f minF) (fsub maxF minF) in
            if decide (sortOrder = Descending) then
              Ok (int32_round (fmul ratio (float_of_Z weight)))
            else if decide (sortOrder = Ascending) then
              Ok (int32_round (fmul (fsub (float_of_Z 1) ratio) (float_of_Z weight)))
            else Err (ErrPlain ("cannot interpolate weight as sort order " +:+ sortOrder +:+ " is invalid"))
      | Some _ => Err (ErrPlain ("extremums for property " +:+ property +:+
                     " are not available, yet a reading can be found from cluster " +:+ mc_name cluster))
      end
  end.

(** [clusterPreference.Scores] *)
Definition Scores (c : PreferredClusterSelector) (state : pluginState) (cluster : MemberCluster) : outcome Z :=
  let! matched := matchLabels (term_LabelSelector (pref_Preference c)) cluster in
  if negb matched then Ok 0%Z
  else
    match term_PropertySorter (pref_Preference c) with
    | None => Ok (pref_Weight c)
    | Some s => interpolateWeightFor cluster (sorter_Name s) (sorter_SortOrder s) (pref_Weight c) state
    end.

(** ** The plugin state *)

(** One round of the inner loop of [preparePluginState]. *)
Definition observe (n : string) (mm : observedMinMaxValues) (c : MemberCluster)
    : outcome observedMinMaxValues :=
  let! q := retrievePropertyValueFrom c n in
  match q with
  | None => Ok mm
  | Some q =>
      Ok (mkMinMax
        (match mm_min mm with Some m => if (q <? m)%Z then Some q else Some m | None => Some q end)
        (match mm_max mm with Some m => if (m <? q)%Z then Some q else Some m | None => Some q end))
  end.

Definition prepareTerm (cs : list MemberCluster) (ps : pluginState) (t : PreferredClusterSelector)
    : outcome pluginState :=
  match term_PropertySorter (pref_Preference t) with
  | None => Ok ps
  | Some s =>
      let n := sorter_Name s in
      let! mm := ofold (observe n) (mkMinMax None None) cs in
      Ok (mkPluginState (<[n := mm]> (minMaxValuesByProperty ps)))
  end.

(** [policy.Affinity.ClusterAffinity], which the callers know to be there. *)
Definition clusterAffinityOf (policy : PolicySnapshotObj) : option ClusterAffinity :=
  (sps_Policy (snap_spec policy) ≫= pol_Affinity) ≫= aff_ClusterAffinity.

Definition preparePluginState {V} (state : CycleState V) (policy : PolicySnapshotObj) : outcome pluginState :=
  match clusterAffinityOf policy with
  | None => nil_dereference
  | Some aff => ofold (prepareTerm (ListClusters state)) (mkPluginState ∅) (aff_Preferred aff)
  end.

(** ** The extension points *)

Section Points.
Context {V : Type} {cast_state : StateCast pluginState V}.
Implicit Types state : CycleState V.

Definition requiredTerms (policy : PolicySnapshotObj) : option (list ClusterSelectorTerm) :=
  sel_ClusterSelectorTerms <$> (clusterAffinityOf policy ≫= aff_Required).

Definition readPluginState (name : string) state : outcome pluginState :=
  let! val := owrap "failed to read value from the cycle state" (Read state name) in
  match cast val with
  | Some ps => Ok ps
  | None => Err (ErrPlain "failed to cast value to the right type")
  end.

Definition PreFilter (name : string) state (ps : PolicySnapshotObj) : outcome (CycleState V * Status) :=
  match requiredTerms ps with
  | None | Some [] =>
      Ok (state, NewNonErrorStatus Skip name ["no required cluster affinity terms to enforce"])
  | Some _ => Ok (state, None)
  end.

Fixpoint filterTerms (name : string) (terms : list ClusterSelectorTerm) (cluster : MemberCluster)
    : outcome Status :=
  match terms with
  | [] => Ok (NewNonErrorStatus ClusterUnschedulable name
            ["cluster does not match with any of the required cluster affinity terms"])
  | t :: r =>
      match Matches t cluster with
      | Err err => Ok (FromError err name
                    ["failed to match the cluster against a required affinity term"])
      | Panic w => Panic w
      | Ok true => Ok None
      | Ok false => filterTerms name r cluster
      end
  end.

Definition Filter (name : string) (_ : CycleState V) (ps : PolicySnapshotObj) (cluster : MemberCluster)
    : outcome Status :=
  match requiredTerms ps with
  | None => nil_dereference
  | Some terms => filterTerms name terms cluster
  end.

Definition PreScore (name : string) state (policy : PolicySnapshotObj) : outcome (CycleState V * Status) :=
  match aff_Preferred <$> clusterAffinityOf policy with
  | None | Some [] =>
      Ok (state, NewNonErrorStatus Skip name ["no preferred cluster affinity terms specified"])
  | Some _ =>
      match preparePluginState state policy with
      | Err err => Ok (state, FromError err name ["failed to prepare plugin state"])
      | Panic w => Panic w
      | Ok ps => Ok (Write name (inject ps) state, None)
      end
  end.

Definition scoreTerm (ps : pluginState) (cluster : MemberCluster) (score : Z)
    (t : PreferredClusterSelector) : outcome Z :=
  if (pref_Weight t =? 0)%Z then Ok score
  else
    let! ts := owrap ("failed to calculate score for cluster " +:+ mc_name cluster)
      (Scores t ps cluster) in
    Ok (wrap32 (score + ts)).

Definition Score (name : string) state (policy : PolicySnapshotObj) (cluster : MemberCluster)
    : outcome (option Score.ClusterScore * Status) :=
  match readPluginState name state with
  | Err err => Ok (None, FromError err name ["failed to read plugin state"])
  | Panic w => Panic w
  | Ok ps =>
      match clusterAffinityOf policy with
      | None => nil_dereference
      | Some aff =>
          match ofold (scoreTerm ps cluster) 0%Z (aff_Preferred aff) with
          | Err err => Ok (None, FromError err name [])
          | Panic w => Panic w
          | Ok s => Ok (Some (Score.mkScore 0 s 0), None)
          end
      end
  end.

(** ** Required terms *)

(** Terms are alternatives, tried in order; an error stops the search. *)
Lemma filterTerms_spec name terms cluster :
  Forall (fun t => is_ok (Matches t cluster) = true) terms ->
  exists s, filterTerms name terms cluster = Ok s /\
    (IsSuccess s = true \/ IsClusterUnschedulable s = true) /\
    (IsSuccess s = true <-> Exists (fun t => Matches t cluster = Ok true) terms).
Proof.
  induction 1 as [|t terms Ht _ IH]; cbn.
  - eexists; split; [done|]. split; [by right|]. rewrite Exists_nil. done.
  - destruct (Matches t cluster) as [[|]| |] eqn:E; try done.
    + eexists; split; [done|]. split; [by left|]. split; [intros _; by left|done].
    + destruct IH as (s & -> & Hs & Hiff). exists s. split; [done|]. split; [done|].
      rewrite Hiff, Exists_cons. split; [by right|]. intros [?|?]; [congruence|done].
Qed.

(** ** Observed extremes *)

(** The values a property takes on the clusters that report it. *)
Definition readings (n : string) (cs : list MemberCluster) : list Quantity :=
  omap (fun c => match retrievePropertyValueFrom c n with Ok q => q | _ => None end) cs.

Definition is_min_of (o : option Quantity) (l : list Quantity) : Prop :=
  match o with None => l = [] | Some m => m ∈ l /\ forall x, x ∈ l -> (m <= x)%Z end.

Definition is_max_of (o : option Quantity) (l : list Quantity) : Prop :=
  match o with None => l = [] | Some m => m ∈ l /\ forall x, x ∈ l -> (x <= m)%Z end.

Lemma is_min_of_snoc o l q :
  is_min_of o l ->
  is_min_of (match o with Some m => if (q <? m)%Z then Some q else Some m | None => Some q end) (l ++ [q]).
Proof.
  destruct o as [m|]; cbn.
  - intros [Hin Hle]. destruct (Z.ltb_spec q m);
      (split; [set_solver|intros x [Hx|Hx%list_elem_of_singleton]%elem_of_app]);
      first [specialize (Hle x Hx); lia|subst; lia].
  - intros ->. cbn. split; [set_solver|]. intros x Hx%list_elem_of_singleton. by subst.
Qed.

Lemma is_max_of_snoc o l q :
  is_max_of o l ->
  is_max_of (match o with Some m => if (m <? q)%Z then Some q else Some m | None => Some q end) (l ++ [q]).
Proof.
  destruct o as [m|]; cbn.
  - intros [Hin Hle]. destruct (Z.ltb_spec m q);
      (split; [set_solver|intros x [Hx|Hx%list_elem_of_singleton]%elem_of_app]);
      first [specialize (Hle x Hx); lia|subst; lia].
  - intros ->. cbn. split; [set_solver|]. intros x Hx%list_elem_of_singleton. by subst.
Qed.

Lemma observe_loop n cs mm pre mm' :
  is_min_of (mm_min mm) pre -> is_max_of (mm_max mm) pre ->
  ofold (observe n) mm cs = Ok mm' ->
  is_min_of (mm_min mm') (pre ++ readings n cs) /\ is_max_of (mm_max mm') (pre ++ readings n cs) /\
  Forall (fun c => is_ok (retrievePropertyValueFrom c n) = true) cs.
Proof.
  revert mm pre. induction cs as [|c cs IH]; intros mm pre Hmin Hmax; cbn.
  { intros [= <-]. rewrite app_nil_r. done. }
  rewrite obind_Ok. intros (mm1 & Hobs & Hfold). unfold observe in Hobs.
  apply obind_Ok in Hobs as (q & Hq & Hobs). rewrite Hq. destruct q as [q|].
  - injection Hobs as <-.
    eapply (IH _ (pre ++ [q])) in Hfold as (H1 & H2 & H3);
      [|by apply is_min_of_snoc|by apply is_max_of_snoc].
    rewrite <- app_assoc in H1, H2. split_and!; [done|done|].
    constructor; [by rewrite Hq|done].
  - injection Hobs as <-. destruct (IH _ pre Hmin Hmax Hfold) as (H1 & H2 & H3).
    split_and!; [done|done|]. constructor; [by rewrite Hq|done].
Qed.

(** What the prepared state holds for a property. *)
Definition extremes_ok (cs : list MemberCluster) (n : string) (mm : observedMinMaxValues) : Prop :=
  is_min_of (mm_min mm) (readings n cs) /\ is_max_of (mm_max mm) (readings n cs) /\
  Forall (fun c => is_ok (retrievePropertyValueFrom c n) = true) cs.

Definition sorter_names (ts : list PreferredClusterSelector) : list string :=
  omap (fun t => sorter_Name <$> term_PropertySorter (pref_Preference t)) ts.

Lemma prepareTerms_extremes cs ts ps ps' :
  map_Forall (extremes_ok cs) (minMaxValuesByProperty ps) ->
  ofold (prepareTerm cs) ps ts = Ok ps' ->
  map_Forall (extremes_ok cs) (minMaxValuesByProperty ps') /\
  (forall n, n ∈ sorter_names ts \/ is_Some (minMaxValuesByProperty ps !! n) ->
     is_Some (minMaxValuesByProperty ps' !! n)).
Proof.
  revert ps. induction ts as [|t ts IH]; intros ps Hps; cbn.
  { intros [= <-]. split; [done|]. intros n [Hn|Hn]; [set_solver|done]. }
  rewrite obind_Ok. intros (ps1 & Ht & Hfold). unfold prepareTerm in Ht.
  destruct (term_PropertySorter (pref_Preference t)) as [srt|]; cbn.
  - apply obind_Ok in Ht as (mm & Hmm & [= <-]).
    pose proof (observe_loop _ _ (mkMinMax None None) [] _ eq_refl eq_refl Hmm) as Hok. cbn [app] in Hok.
    apply IH in Hfold as [H1 H2]; [|by apply map_Forall_insert_2].
    split; [done|]. intros n Hn. apply H2. cbn.
    destruct (decide (n = sorter_Name srt)) as [->|Hne].
    + right. rewrite lookup_insert_eq. eauto.
    + rewrite lookup_insert_ne by done. rewrite elem_of_cons in Hn. tauto.
  - injection Ht as <-. by apply IH.
Qed.

Lemma preparePluginState_extremes (state : CycleState V) policy aff ps :
  clusterAffinityOf policy = Some aff -> preparePluginState state policy = Ok ps ->
  forall n, n ∈ sorter_names (aff_Preferred aff) ->
  exists mm, minMaxValuesByProperty ps !! n = Some mm /\ extremes_ok (ListClusters state) n mm.
Proof.
  intros Ha Hp n Hn. unfold preparePluginState in Hp. rewrite Ha in Hp.
  destruct (prepareTerms_extremes _ _ _ _ (map_Forall_empty _) Hp) as [Hall Hsome].
  destruct (Hsome n ltac:(by left)) as [mm Hmm]. exists mm. split; [done|]. by apply Hall.
Qed.

Lemma elem_of_readings n cs c q :
  c ∈ cs -> retrievePropertyValueFrom c n = Ok (Some q) -> q ∈ readings n cs.
Proof. intros Hc Hq. apply list_elem_of_omap. exists c. by rewrite Hq. Qed.

(** ** Scoring cannot fail after a successful PreScore *)

Lemma readAffinityState_Write name (ps : pluginState) state :
  readPluginState name (Write name (inject ps) state) = Ok ps.
Proof. unfold readPluginState, Read; cbn. by rewrite lookup_insert_eq; cbn; rewrite cast_inject. Qed.

Section Scoring.
(** The conversion to a float keeps the order. *)
Hypothesis float_monotone : forall q1 q2 : Quantity, (q1 <= q2)%Z ->
  SFltb (AsApproximateFloat64 q2) (AsApproximateFloat64 q1) = false.

(** The quantities the clusters report are within the range of a float. *)
Definition finite_readings (cs : list MemberCluster) : Prop :=
  forall n q, q ∈ readings n cs -> IsInf (AsApproximateFloat64 q) = false.

Lemma interpolateWeightFor_ok cs c n order weight ps mm :
  finite_readings cs ->
  c ∈ cs -> minMaxValuesByProperty ps !! n = Some mm -> extremes_ok cs n mm ->
  order = Ascending \/ order = Descending ->
  exists w, interpolateWeightFor c n order weight ps = Ok w.
Proof.
  intros Hfin Hc Hmm (Hmin & Hmax & Hok) Horder. unfold interpolateWeightFor.
  rewrite Forall_forall in Hok. specialize (Hok c Hc).
  destruct (retrievePropertyValueFrom c n) as [[q|]| |] eqn:Hq; try done; cbn; [|eauto].
  rewrite Hmm. destruct mm as [omin omax]. cbn in Hmin, Hmax.
  pose proof (elem_of_readings n cs c q Hc Hq) as Hin.
  destruct omin as [lo|]; [|cbn in Hmin; rewrite Hmin in Hin; by apply not_elem_of_nil in Hin]. destruct omax as [hi|]; [|cbn in Hmax; rewrite Hmax in Hin; by apply not_elem_of_nil in Hin].
  destruct Hmin as [Hlo Hmin], Hmax as [Hhi Hmax].
  rewrite (Hfin n lo Hlo), (Hfin n hi Hhi), (float_monotone lo hi), (float_monotone lo q), (float_monotone q hi) by auto.
  cbn. destruct (SFeqb _ _); [eauto|].
  destruct Horder as [->| ->]; repeat (destruct (decide _); eauto); congruence.
Qed.

(** What the scores need of the policy: selectors that parse and known orders. *)
Definition scorable (ts : list PreferredClusterSelector) (c : MemberCluster) : Prop :=
  Forall (fun t =>
    is_ok (matchLabels (term_LabelSelector (pref_Preference t)) c) = true /\
    forall s, term_PropertySorter (pref_Preference t) = Some s ->
      sorter_SortOrder s = Ascending \/ sorter_SortOrder s = Descending) ts.

Lemma scoreTerms_ok cs c ps ts z :
  finite_readings cs -> c ∈ cs -> scorable ts c ->
  (forall n, n ∈ sorter_names ts ->
     exists mm, minMaxValuesByProperty ps !! n = Some mm /\ extremes_ok cs n mm) ->
  exists w, ofold (scoreTerm ps c) z ts = Ok w.
Proof.
  intros Hfin Hc. revert z. induction ts as [|t ts IH]; intros z Hs Hmm; cbn; [eauto|].
  apply Forall_cons in Hs as [[Hl Ho] Hs].
  assert (exists z', scoreTerm ps c z t = Ok z') as [z' ->].
  { unfold scoreTerm. destruct (pref_Weight t =? 0)%Z; [eauto|].
    unfold Scores. destruct (matchLabels _ c) as [[|]| |]; try done; cbn; [|eauto].
    destruct (term_PropertySorter (pref_Preference t)) as [srt|] eqn:Esrt; cbn; [|eauto].
    destruct (Hmm (sorter_Name srt)) as (mm & Hmm' & Hext).
    { unfold sorter_names. cbn. rewrite Esrt. by left. }
    destruct (interpolateWeightFor_ok cs c (sorter_Name srt) (sorter_SortOrder srt) (pref_Weight t) ps mm)
      as [w ->]; [done|done|done|done|by apply Ho|]. cbn. eauto. }
  apply IH; [done|]. intros n Hn. apply Hmm. unfold sorter_names in *; cbn.
  destruct (term_PropertySorter _); cbn; [by right|done].
Qed.

(** once PreScore has prepared the observed extremes, no cluster of the
    cycle fails to score: the look-up of the extremes succeeds and every
    reading lies between them, so none of the sanity errors of the weight
    interpolation can occur. *)
Theorem Score_after_PreScore name state policy aff state' c :
  clusterAffinityOf policy = Some aff -> aff_Preferred aff <> [] ->
  PreScore name state policy = Ok (state', None) ->
  finite_readings (ListClusters state) ->
  c ∈ ListClusters state -> scorable (aff_Preferred aff) c ->
  exists w, Score name state' policy c = Ok (Some (Score.mkScore 0 w 0), None).
Proof.
  intros Ha Hne Hpre Hfin Hc Hs. unfold PreScore in Hpre. rewrite Ha in Hpre. cbn in Hpre.
  destruct (aff_Preferred aff) as [|t ts] eqn:Et; [done|].
  destruct (preparePluginState state policy) as [ps| |] eqn:Eps; [|done|done].
  injection Hpre as <-. unfold Score. rewrite readAffinityState_Write, Ha, Et.
  destruct (scoreTerms_ok (ListClusters state) c ps (t :: ts) 0 Hfin Hc Hs) as [w ->]; [|eauto].
  rewrite <- Et. by apply (preparePluginState_extremes state policy).
Qed.

End Scoring.

End Points.
End Plugin.
(** ** A library whose conversion is a step function, and a policy that
    prefers clusters with many nodes. *)

Definition ex_float (q : Quantity) : spec_float := float_of_Z (if (q <=? 3)%Z then 0 else 1).

Definition ex_lib : K8sLib := {|
  FindStatusCondition := @FindStatusCondition RefLib.ref_lib;
  SetStatusCondition := @SetStatusCondition RefLib.ref_lib;
  LabelSelectorMatches := @LabelSelectorMatches RefLib.ref_lib;
  ParseQuantity := @ParseQuantity RefLib.ref_lib;
  AsApproximateFloat64 := ex_float;
  GetScaledValueFromIntOrPercent := @GetScaledValueFromIntOrPercent RefLib.ref_lib;
  IsDNS1123Label := @IsDNS1123Label RefLib.ref_lib;
  finalizers_contain := @finalizers_contain RefLib.ref_lib;
  finalizers_add := @finalizers_add RefLib.ref_lib;
  finalizers_remove := @finalizers_remove RefLib.ref_lib;
  RemoveStatusCondition := @RemoveStatusCondition RefLib.ref_lib;
|}.

Definition ex_term : PreferredClusterSelector :=
  mkPreferred 20 (mkSelectorTerm None None (Some (mkPropertySorter "node-count" Descending))).

Definition ex_affinity : ClusterAffinity := mkClusterAffinity None [ex_term].

Definition ex_snapshot : PolicySnapshotObj :=
  Sample.snapshot "p" (Some (mkPolicy PickNPlacementType [] (Some 1%Z)
    (Some (mkAffinity (Some ex_affinity))) [] [])).

Definition ex_cluster (name nodes : string) : MemberCluster :=
  mkMemberCluster (Sample.metadata name) [] [] {["node-count" := mkPropertyValue nodes 0]}
    Sample.noUsage None [].

Definition ex_state : CycleState pluginState :=
  NewCycleState [ex_cluster "small" "0"; ex_cluster "big" "9"] [] [].

Definition ex_prepared : CycleState pluginState :=
  Write defaultName (mkPluginState {["node-count" := mkMinMax (Some 0%Z) (Some 9000000000%Z)]}) ex_state.

Lemma Score_after_PreScore_witness :
  exists w, @Score ex_lib pluginState _ defaultName ex_prepared ex_snapshot (ex_cluster "big" "9") =
    Ok (Some (Score.mkScore 0 w 0), None).
Proof.
  apply (@Score_after_PreScore ex_lib pluginState _) with (state := ex_state) (aff := ex_affinity).
  - intros q1 q2 Hq. unfold AsApproximateFloat64, ex_lib, ex_float.
    destruct (Z.leb_spec q1 3), (Z.leb_spec q2 3); try lia; vm_compute; reflexivity.
  - vm_compute. reflexivity.
  - discriminate.
  - vm_compute. reflexivity.
  - intros n q _. unfold AsApproximateFloat64, ex_lib, ex_float.
    destruct (q <=? 3)%Z; vm_compute; reflexivity.
  - by_decide.
  - apply Forall_cons. split; [|apply Forall_nil; exact I]. split; [vm_compute; reflexivity|].
    intros s [= <-]. right. reflexivity.
Defined.

End ClusterAffinityPlugin.
