(* ===== verification/TopologySpread.v ===== *)
(** * The topology spread constraints plugin

    Models [pkg/scheduler/framework/plugins/topologyspreadconstraints].
    [countByDomain] and [willViolate] summarise the spread of bindings over
    domains by three counts; the theorems relate them to the skew of the
    whole spread, before and after the provisional placement.
    [evaluateAllConstraints] is the doubly nested loop with its two mutated
    maps; [verdict] is the per-cluster reference it is proved equal to. *)

From stdpp Require Import prelude gmap strings sorting.
From S2P Require Import Prelude K8s Api Sample Score CycleState.

Local Open Scope string_scope.
Local Open Scope list_scope.

Module TopologySpread.

Definition skewChangeScoreFactor : Z := -1.
Definition maxSkewViolationPenality : Z := 1000.
Definition defaultPluginName : string := "TopologySpreadConstraints".

Definition doNotScheduleConstraintViolationReason (key : string) (maxSkew : Z) : string :=
  "violated doNotSchedule topology spread constraint " +:+ go_quote key +:+
  " (max skew " +:+ zstr maxSkew +:+ ")".

Record bindingCounterByDomain : Type := mkCounter {
  counter : gmap string Z;
  smallest : Z;
  secondSmallest : Z;
  largest : Z;
}.

Definition Count (c : bindingCounterByDomain) (name : string) : option Z :=
  if decide (size (counter c) = 0) then None else counter c !! name.

(** The special counts, with zero and false on an empty counter. *)
Definition Smallest (c : bindingCounterByDomain) : Z * bool :=
  if decide (size (counter c) = 0) then (0%Z, false) else (smallest c, true).

Definition SecondSmallest (c : bindingCounterByDomain) : Z * bool :=
  if decide (size (counter c) = 0) then (0%Z, false) else (secondSmallest c, true).

Definition Largest (c : bindingCounterByDomain) : Z * bool :=
  if decide (size (counter c) = 0) then (0%Z, false) else (largest c, true).

Record pluginState : Type := mkPluginState {
  doNotScheduleConstraints : list TopologySpreadConstraint;
  scheduleAnywayConstraints : list TopologySpreadConstraint;
  violations : gmap string (list string);
  scores : gmap string Z;
}.

(** The switch of [countByDomain] on the sorted counts. *)
Definition specialCounts (sorted : list Z) : Z * Z * Z :=
  match sorted with
  | [] => (-1, -1, -1)
  | [a] => (a, a, a)
  | [a; b] => if (a <? b) then (a, b, b) else (a, a, a)
  | a :: b :: _ => (a, b, List.last sorted (-1))
  end%Z.

Section Plugin.
Context {V : Type} {cast_state : StateCast pluginState V}.
Implicit Types state : CycleState V.

(** One round of the counting loop of [countByDomain]. *)
Definition countCluster state (topologyKey : string) (m : gmap string Z)
    (cluster : MemberCluster) : gmap string Z :=
  match mc_labels cluster !! topologyKey with
  | None => m
  | Some name =>
      let count := default 0%Z (m !! name) in
      let m := match m !! name with None => <[name := 0%Z]> m | Some _ => m end in
      if HasScheduledOrBoundBindingFor state (mc_name cluster)
      then <[name := (count + 1)%Z]> m else m
  end.

Definition countByDomain (cs : list MemberCluster) state (topologyKey : string)
    : bindingCounterByDomain :=
  let m := fold_left (countCluster state topologyKey) cs ∅ in
  let sorted := go_sort Z.ltb ((map_to_list m).*2) in
  let '(s, s2, l) := specialCounts sorted in
  mkCounter m s s2 l.

Definition willViolate (c : bindingCounterByDomain) (name : string) (maxSkew : Z)
    : outcome (bool * Z) :=
  match Count c name with
  | None => Err (ErrPlain ("domain " +:+ name +:+ " is not registered in the counter"))
  | Some count =>
      let smallest := (Smallest c).1 in
      let secondSmallest := (SecondSmallest c).1 in
      let largest := (Largest c).1 in
      if ((count <? smallest) || (largest <? count))%Z then
        Err (ErrPlain ("the counter has invalid special counts: [" +:+ zstr smallest +:+ ", " +:+
          zstr largest +:+ "], received " +:+ zstr count))
      else
        let currentSkew := (largest - smallest)%Z in
        if (largest =? smallest)%Z then Ok ((maxSkew <? currentSkew + 1)%Z, 1%Z)
        else if ((count =? smallest) && negb (smallest =? secondSmallest))%Z then
          Ok ((maxSkew <? currentSkew - 1)%Z, (-1)%Z)
        else if (count =? largest)%Z then Ok ((maxSkew <? currentSkew + 1)%Z, 1%Z)
        else Ok ((maxSkew <? currentSkew)%Z, 0%Z)
  end.

(** A nil policy is dereferenced: the callers check it first. *)
Definition classifyConstraints (policy : PolicySnapshotObj)
    : outcome (list TopologySpreadConstraint * list TopologySpreadConstraint) :=
  match sps_Policy (snap_spec policy) with
  | None => nil_dereference
  | Some p =>
      Ok (fold_left (fun '(dns, sa) c =>
            if decide (tsc_WhenUnsatisfiable c = ScheduleAnyway) then (dns, sa ++ [c])
            else (dns ++ [c], sa))
          (pol_TopologySpreadConstraints p) ([], []))
  end.

Definition maxSkewOf (constraint : TopologySpreadConstraint) : Z :=
  match tsc_MaxSkew constraint with Some n => n | None => 1%Z end.

(** [scores[name] += delta] *)
Definition addScore (name : string) (delta : Z) (scores : gmap string Z) : gmap string Z :=
  <[name := wrap32 (default 0%Z (scores !! name) + delta)]> scores.

Definition maps : Type := (gmap string (list string) * gmap string Z).

(** The body of the inner loop over clusters, for a DoNotSchedule constraint.
    The violation message dereferences [constraint.MaxSkew]. *)
Definition evaluateDoNotSchedule (domainCounter : bindingCounterByDomain)
    (constraint : TopologySpreadConstraint) (acc : maps) (cluster : MemberCluster)
    : outcome maps :=
  let '(violations, scores) := acc in
  let name := mc_name cluster in
  match violations !! name with
  | Some _ => Ok acc
  | None =>
      match mc_labels cluster !! tsc_TopologyKey constraint with
      | None => Ok (violations, addScore name 0 scores)
      | Some val =>
          match owrap "failed to evaluate DoNotSchedule topology spread constraints"
              (willViolate domainCounter val (maxSkewOf constraint)) with
          | Err e => Err e
          | Panic m => Panic m
          | Ok (true, _) =>
              match tsc_MaxSkew constraint with
              | None => nil_dereference
              | Some maxSkew =>
                  Ok (<[name := [doNotScheduleConstraintViolationReason (tsc_TopologyKey constraint) maxSkew]]> violations,
                      delete name scores)
              end
          | Ok (false, skewChange) =>
              Ok (violations, addScore name (wrap32 (skewChange * skewChangeScoreFactor)) scores)
          end
      end
  end.

Definition evaluateScheduleAnyway (domainCounter : bindingCounterByDomain)
    (constraint : TopologySpreadConstraint) (acc : maps) (cluster : MemberCluster)
    : outcome maps :=
  let '(violations, scores) := acc in
  let name := mc_name cluster in
  match violations !! name with
  | Some _ => Ok acc
  | None =>
      match mc_labels cluster !! tsc_TopologyKey constraint with
      | None => Ok (violations, addScore name 0 scores)
      | Some val =>
          match owrap "failed to evaluate ScheduleAnyway topology spread constraints"
              (willViolate domainCounter val (maxSkewOf constraint)) with
          | Err e => Err e
          | Panic m => Panic m
          | Ok (true, _) => Ok (violations, addScore name (- maxSkewViolationPenality) scores)
          | Ok (false, skewChange) =>
              Ok (violations, addScore name (wrap32 (skewChange * skewChangeScoreFactor)) scores)
          end
      end
  end.

Definition evaluateAllConstraints state (doNotSchedule scheduleAnyway : list TopologySpreadConstraint)
    : outcome maps :=
  let cs := ListClusters state in
  let pass eval acc constraint :=
    ofold (eval (countByDomain cs state (tsc_TopologyKey constraint)) constraint) acc cs in
  let! acc := ofold (pass evaluateDoNotSchedule) (∅, ∅) doNotSchedule in
  ofold (pass evaluateScheduleAnyway) acc scheduleAnyway.

Definition prepareTopologySpreadConstraintsPluginState state (policy : PolicySnapshotObj)
    : outcome pluginState :=
  let! (doNotSchedule, scheduleAnyway) := classifyConstraints policy in
  let! (violations, scores) := owrap "failed to prepare topology spread constraints plugin state"
    (evaluateAllConstraints state doNotSchedule scheduleAnyway) in
  Ok (mkPluginState doNotSchedule scheduleAnyway violations scores).

(** ** The extension points

    [name] is the plugin's name, [defaultPluginName] unless the [WithName]
    option is given to [New]. *)

Definition readPluginState (name : string) state : outcome pluginState :=
  let! val := owrap "failed to read value from the cycle state" (Read state name) in
  match cast val with
  | Some ps => Ok ps
  | None => Err (ErrPlain "failed to cast value to the right type")
  end.

Definition PostBatch (name : string) (_ : CycleState V) (policy : PolicySnapshotObj) : Z * Status :=
  match sps_Policy (snap_spec policy) with
  | None => (0%Z, FromError (ErrPlain "policy does not exist") name ["failed to get policy"])
  | Some p =>
      match pol_TopologySpreadConstraints p with
      | [] => (0%Z, NewNonErrorStatus Skip name ["no topology spread constraint is present"])
      | _ => (1%Z, None)
      end
  end.

Definition PreFilter (name : string) state (policy : PolicySnapshotObj)
    : outcome (CycleState V * Status) :=
  match sps_Policy (snap_spec policy) with
  | None => Ok (state, NewNonErrorStatus Skip name ["policy does not exist"])
  | Some p =>
      match pol_TopologySpreadConstraints p with
      | [] => Ok (state, NewNonErrorStatus Skip name ["no topology spread constraint is present"])
      | _ =>
          match prepareTopologySpreadConstraintsPluginState state policy with
          | Err err => Ok (state, FromError err name ["failed to prepare plugin state"])
          | Panic m => Panic m
          | Ok ps =>
              let state := Write name (inject ps) state in
              match doNotScheduleConstraints ps with
              | [] => Ok (state, NewNonErrorStatus Skip name
                        ["no DoNotSchedule topology spread constraint is present"])
              | _ => Ok (state, None)
              end
          end
      end
  end.

Definition Filter (name : string) state (_ : PolicySnapshotObj) (cluster : MemberCluster)
    : outcome Status :=
  match readPluginState name state with
  | Err err => Ok (FromError err name ["failed to read plugin state"])
  | Panic m => Panic m
  | Ok ps =>
      match violations ps !! mc_name cluster with
      | Some reasons => Ok (NewNonErrorStatus ClusterUnschedulable name reasons)
      | None => Ok None
      end
  end.

Definition PreScore (name : string) state (policy : PolicySnapshotObj)
    : outcome (CycleState V * Status) :=
  match sps_Policy (snap_spec policy) with
  | None => Ok (state, FromError (ErrPlain "policy does not exist") name ["failed to get policy"])
  | Some p =>
      match pol_TopologySpreadConstraints p with
      | [] => Ok (state, NewNonErrorStatus Skip name ["no topology spread constraint is present"])
      | _ =>
          match readPluginState name state with
          | Err err => Ok (state, FromError err name ["failed to read plugin state"])
          | Panic m => Panic m
          | Ok ps =>
              if decide (size (scores ps) = 0)
              then Ok (state, NewNonErrorStatus Skip name ["no available scores"])
              else Ok (state, None)
          end
      end
  end.

Definition Score (name : string) state (_ : PolicySnapshotObj) (cluster : MemberCluster)
    : outcome (option Score.ClusterScore * Status) :=
  match readPluginState name state with
  | Err err => Ok (None, FromError err name ["failed to read plugin state"])
  | Panic m => Panic m
  | Ok ps =>
      match scores ps !! mc_name cluster with
      | None => Ok (None, FromError (ErrPlain ("no score found for cluster " +:+ mc_name cluster)) name [])
      | Some s => Ok (Some (Score.mkScore s 0 0), None)
      end
  end.

(** ** The counter *)

Definition in_domain (key d : string) (c : MemberCluster) : bool :=
  bool_decide (mc_labels c !! key = Some d).

(** The number of clusters of a domain that hold a scheduled or bound binding. *)
Fixpoint domain_bindings state (key d : string) (cs : list MemberCluster) : Z :=
  match cs with
  | [] => 0
  | c :: cs =>
      (if in_domain key d c && HasScheduledOrBoundBindingFor state (mc_name c) then 1 else 0) +
      domain_bindings state key d cs
  end%Z.

Lemma countCluster_lookup state key m c d :
  countCluster state key m c !! d =
  if in_domain key d c then
    Some (default 0 (m !! d) +
      if HasScheduledOrBoundBindingFor state (mc_name c) then 1 else 0)%Z
  else m !! d.
Proof.
  unfold countCluster, in_domain.
  destruct (mc_labels c !! key) as [d'|]; [|done].
  destruct (decide (d' = d)) as [->|Hn].
  - rewrite bool_decide_true by done.
    destruct (HasScheduledOrBoundBindingFor _ _), (m !! d) eqn:E;
      rewrite ?lookup_insert_eq, ?E; cbn; f_equal; lia.
  - rewrite bool_decide_false by congruence.
    destruct (HasScheduledOrBoundBindingFor _ _), (m !! d') eqn:E;
      rewrite ?lookup_insert_ne by done; done.
Qed.

Lemma counting_loop state key cs m d :
  fold_left (countCluster state key) cs m !! d =
  if existsb (in_domain key d) cs then
    Some (default 0 (m !! d) + domain_bindings state key d cs)%Z
  else m !! d.
Proof.
  revert m. induction cs as [|c cs IH]; intros m; cbn [fold_left existsb domain_bindings]; [done|].
  rewrite IH, countCluster_lookup. destruct (in_domain key d c) eqn:Ed; cbn.
  - destruct (existsb _ cs) eqn:Ex; cbn; f_equal; [lia|].
    cut (domain_bindings state key d cs = 0%Z); [lia|].
    clear IH. induction cs as [|c' cs IH]; [done|]. cbn in *.
    apply orb_false_elim in Ex as [-> ?]. cbn. by rewrite IH.
  - done.
Qed.

Lemma countByDomain_counter cs state key d :
  counter (countByDomain cs state key) !! d =
  if existsb (in_domain key d) cs then Some (domain_bindings state key d cs) else None.
Proof.
  unfold countByDomain. destruct (specialCounts _) as [[? ?] ?]; cbn.
  rewrite counting_loop, lookup_empty. by destruct (existsb _ _).
Qed.

(** ** Skew *)

Definition lo_of (m : gmap string Z) (x : Z) : Prop :=
  (exists d, m !! d = Some x) /\ forall d y, m !! d = Some y -> (x <= y)%Z.

Definition hi_of (m : gmap string Z) (x : Z) : Prop :=
  (exists d, m !! d = Some x) /\ forall d y, m !! d = Some y -> (y <= x)%Z.

(** The skew of a spread: its largest count minus its smallest. *)
Definition skew (m : gmap string Z) : Z :=
  let vs := (map_to_list m).*2 in
  (foldr Z.max (hd 0 vs) vs - foldr Z.min (hd 0 vs) vs)%Z.

Lemma elem_of_map_values (m : gmap string Z) v :
  v ∈ (map_to_list m).*2 <-> exists d, m !! d = Some v.
Proof.
  rewrite list_elem_of_fmap. split.
  - intros ([d v'] & -> & H%elem_of_map_to_list). eauto.
  - intros [d H]. exists (d, v). split; [done|]. by apply elem_of_map_to_list.
Qed.

Lemma foldr_min_spec (a : Z) vs :
  (foldr Z.min a vs ∈ a :: vs) /\ forall x, x ∈ a :: vs -> (foldr Z.min a vs <= x)%Z.
Proof.
  induction vs as [|v vs [IH1 IH2]]; cbn; [set_solver by lia|]. split.
  - destruct (Z.min_spec v (foldr Z.min a vs)) as [[_ ->]|[_ ->]]; set_solver.
  - intros x Hx. assert (x = v \/ x ∈ a :: vs) as [->|H] by set_solver; [lia|].
    specialize (IH2 x H). lia.
Qed.

Lemma foldr_max_spec (a : Z) vs :
  (foldr Z.max a vs ∈ a :: vs) /\ forall x, x ∈ a :: vs -> (x <= foldr Z.max a vs)%Z.
Proof.
  induction vs as [|v vs [IH1 IH2]]; cbn; [set_solver by lia|]. split.
  - destruct (Z.max_spec v (foldr Z.max a vs)) as [[_ ->]|[_ ->]]; set_solver.
  - intros x Hx. assert (x = v \/ x ∈ a :: vs) as [->|H] by set_solver; [lia|].
    specialize (IH2 x H). lia.
Qed.

Lemma skew_spec m lo hi : lo_of m lo -> hi_of m hi -> skew m = (hi - lo)%Z.
Proof.
  intros [Hlo Hlo'] [Hhi Hhi']. unfold skew.
  apply elem_of_map_values in Hlo, Hhi.
  assert (forall v, v ∈ (map_to_list m).*2 -> (lo <= v <= hi)%Z) as Hb.
  { intros v [d Hd]%elem_of_map_values. split; eauto. }
  destruct ((map_to_list m).*2) as [|v vs] eqn:E; [set_solver|]. cbn [hd].
  destruct (foldr_min_spec v (v :: vs)) as [Hm1 Hm2], (foldr_max_spec v (v :: vs)) as [HM1 HM2].
  assert (foldr Z.min v (v :: vs) = lo) as ->.
  { apply Z.le_antisymm; [apply Hm2; set_solver|]. apply Hb. set_solver. }
  assert (foldr Z.max v (v :: vs) = hi) as ->; [|done].
  apply Z.le_antisymm; [apply Hb; set_solver|]. apply HM2. set_solver.
Qed.

(** ** The special counts *)

#[local] Instance ltb_GoLess : GoLess Z.ltb.
Proof. split; intros *; rewrite ?Z.ltb_lt, ?Z.ltb_ge; lia. Qed.

Lemma ordered_ltb x y : ordered Z.ltb x y <-> (x <= y)%Z.
Proof. unfold ordered. apply Z.ltb_ge. Qed.

#[local] Instance ordered_ltb_refl : Reflexive (ordered Z.ltb).
Proof. intros x. by apply ordered_ltb. Qed.

Lemma specialCounts_sorted l :
  StronglySorted (ordered Z.ltb) l ->
  match l with
  | [] => True
  | [a] => specialCounts l = (a, a, a)
  | a :: b :: r => specialCounts l = (a, b, List.last l (-1)%Z)
  end.
Proof.
  destruct l as [|a [|b [|c r]]]; intros Hs; [done..| |done].
  apply StronglySorted_inv in Hs as [_ Ha]. apply Forall_inv in Ha. apply ordered_ltb in Ha.
  cbn. destruct (Z.ltb_spec a b); [done|]. by replace b with a by lia.
Qed.

(** The head of a sorted list of all the counts is the smallest one. *)
Lemma sorted_head_lo (m : gmap string Z) a l :
  (map_to_list m).*2 ≡ₚ a :: l -> StronglySorted (ordered Z.ltb) (a :: l) -> lo_of m a.
Proof.
  intros HP [_ Ha]%StronglySorted_inv. rewrite Forall_forall in Ha. split.
  - apply elem_of_map_values. rewrite HP. by left.
  - intros d y Hd. apply ordered_ltb.
    assert (y ∈ a :: l) as [->|Hy]%elem_of_cons by (rewrite <- HP; apply elem_of_map_values; eauto);
      [done|auto].
Qed.

Lemma sorted_last_hi (m : gmap string Z) a l d :
  (map_to_list m).*2 ≡ₚ a :: l -> StronglySorted (ordered Z.ltb) (a :: l) ->
  hi_of m (List.last (a :: l) d).
Proof.
  intros HP Hs. split.
  - apply elem_of_map_values. rewrite HP. apply last_elem_of.
  - intros k y Hk. apply ordered_ltb. apply StronglySorted_last; [apply _|done|].
    rewrite <- HP. apply elem_of_map_values. eauto.
Qed.

Lemma map_values_delete (m : gmap string Z) d x :
  m !! d = Some x -> (map_to_list m).*2 ≡ₚ x :: (map_to_list (delete d m)).*2.
Proof. intros Hd. by rewrite <- (map_to_list_delete m d x Hd). Qed.

(** What the three special counts say about the counts. *)
Record special_counts_ok (c : bindingCounterByDomain) : Prop := {
  smallest_lo : lo_of (counter c) (smallest c);
  largest_hi : hi_of (counter c) (largest c);
  (** With the smallest domain put aside, the second smallest count is the
      smallest of the others. *)
  secondSmallest_lo d :
    counter c !! d = Some (smallest c) -> 2 <= size (counter c) ->
    lo_of (delete d (counter c)) (secondSmallest c);
}.

Lemma countByDomain_special cs state key :
  counter (countByDomain cs state key) <> ∅ ->
  special_counts_ok (countByDomain cs state key).
Proof.
  unfold countByDomain. set (m := fold_left _ _ _).
  pose proof (go_sort_perm Z.ltb ((map_to_list m).*2)) as HP.
  pose proof (go_sort_sorted Z.ltb ((map_to_list m).*2)) as Hs.
  pose proof (specialCounts_sorted _ Hs) as Hspec.
  destruct (go_sort Z.ltb _) as [|a [|b r]].
  - intros Hm. destruct Hm. destruct (specialCounts _) as [[? ?] ?]; cbn.
    apply map_to_list_empty_iff. by apply Permutation_nil, fmap_nil_inv in HP.
  - rewrite Hspec. intros _. split; cbn [counter smallest secondSmallest largest].
    + by eapply sorted_head_lo.
    + by apply (sorted_last_hi m a [] (-1)%Z).
    + intros d _ H2. exfalso. apply Permutation_length in HP.
      rewrite length_fmap, length_map_to_list in HP. cbn in HP. lia.
  - rewrite Hspec. intros _. split; cbn [counter smallest secondSmallest largest].
    + by eapply sorted_head_lo.
    + by apply sorted_last_hi.
    + intros d Hd _. eapply (sorted_head_lo _ b r).
      * rewrite (map_values_delete _ _ _ Hd) in HP. by apply Permutation_cons_inv in HP.
      * by apply StronglySorted_inv in Hs as [? _].
Qed.

(** Raising the count of one of several domains. *)
Lemma lo_of_insert (m : gmap string Z) d x o :
  lo_of (delete d m) o -> lo_of (<[d := x]> m) (Z.min x o).
Proof.
  intros [[d' Hd'] Ho]. split.
  - destruct (Z.min_spec x o) as [[_ ->]|[_ ->]]; [exists d; apply lookup_insert_eq|].
    apply lookup_delete_Some in Hd' as [? ?]. exists d'. by rewrite lookup_insert_ne.
  - intros k y [[<- <-]|[Hn Hk]]%lookup_insert_Some; [lia|].
    specialize (Ho k y). rewrite lookup_delete_ne in Ho by done. specialize (Ho Hk). lia.
Qed.

Lemma hi_of_insert (m : gmap string Z) d x o :
  hi_of (delete d m) o -> hi_of (<[d := x]> m) (Z.max x o).
Proof.
  intros [[d' Hd'] Ho]. split.
  - destruct (Z.max_spec x o) as [[_ ->]|[_ ->]]; [|exists d; apply lookup_insert_eq].
    apply lookup_delete_Some in Hd' as [? ?]. exists d'. by rewrite lookup_insert_ne.
  - intros k y [[<- <-]|[Hn Hk]]%lookup_insert_Some; [lia|].
    specialize (Ho k y). rewrite lookup_delete_ne in Ho by done. specialize (Ho Hk). lia.
Qed.

(** An extreme count that another domain reaches stays when one is put aside. *)
Lemma lo_of_delete (m : gmap string Z) d n lo :
  lo_of m lo -> m !! d = Some n -> n <> lo -> lo_of (delete d m) lo.
Proof.
  intros [[d' Hd'] Hlo] Hd Hn. split.
  - exists d'. rewrite lookup_delete_ne; [done|]. congruence.
  - intros k y [_ Hk]%lookup_delete_Some. eauto.
Qed.

Lemma hi_of_delete (m : gmap string Z) d n hi :
  hi_of m hi -> m !! d = Some n -> n <> hi -> hi_of (delete d m) hi.
Proof.
  intros [[d' Hd'] Hhi] Hd Hn. split.
  - exists d'. rewrite lookup_delete_ne; [done|]. congruence.
  - intros k y [_ Hk]%lookup_delete_Some. eauto.
Qed.

Lemma exists_other (m : gmap string Z) d : 2 <= size m -> exists k y, k <> d /\ m !! k = Some y.
Proof.
  intros H2. destruct (decide (delete d m = ∅)) as [E|E].
  - pose proof (map_size_delete d m) as Hs. rewrite E, map_size_empty in Hs.
    assert (size m <= 1); [|lia]. revert Hs. destruct (m !! d); cbn; lia.
  - apply map_choose in E as (k & y & [? ?]%lookup_delete_Some). eauto.
Qed.

(** Putting one of several domains aside keeps both extremes, except where
    that domain alone reaches them. *)
Lemma others_lo c name n :
  special_counts_ok c -> 2 <= size (counter c) -> counter c !! name = Some n ->
  lo_of (delete name (counter c)) (if (n =? smallest c)%Z then secondSmallest c else smallest c).
Proof.
  intros [Hlo Hhi Hsec] H2 Hn. destruct (Z.eqb_spec n (smallest c)) as [->|Hne].
  - by apply Hsec.
  - by eapply lo_of_delete.
Qed.

Lemma others_hi c name n :
  special_counts_ok c -> 2 <= size (counter c) -> counter c !! name = Some n ->
  exists hi, hi_of (delete name (counter c)) hi /\ (hi <= largest c)%Z /\
    (n <> largest c -> hi = largest c) /\ (largest c = smallest c -> hi = largest c).
Proof.
  intros [Hlo Hhi Hsec] H2 Hn.
  destruct (exists_other _ name H2) as (k & y & Hk & Hy).
  destruct (decide (n = largest c)) as [->|Hne].
  - destruct (foldr_max_spec y ((map_to_list (delete name (counter c))).*2)) as [Hin Hmax].
    set (hi := foldr Z.max y _) in *.
    assert (y ∈ (map_to_list (delete name (counter c))).*2) as Hy'.
    { apply elem_of_map_values. exists k. by rewrite lookup_delete_ne. }
    assert (hi_of (delete name (counter c)) hi) as Hho.
    { split; [apply elem_of_map_values; set_solver|].
      intros d z Hd. apply Hmax. right. apply elem_of_map_values. eauto. }
    destruct Hho as [[d Hd] Hub]. exists hi.
    apply lookup_delete_Some in Hd as Hd'. destruct Hd' as [_ Hd'].
    pose proof (proj2 Hhi _ _ Hd'). pose proof (proj2 Hlo _ _ Hd').
    split_and!; [by split; [exists d|]|done|done|lia].
  - exists (largest c). split_and!; [by eapply hi_of_delete|lia|done|done].
Qed.

Lemma skew_after c name n :
  special_counts_ok c -> 2 <= size (counter c) -> counter c !! name = Some n ->
  skew (<[name := (n + 1)%Z]> (counter c)) =
  (largest c - smallest c +
    if (largest c =? smallest c) then 1
    else if (n =? smallest c) && negb (smallest c =? secondSmallest c) then -1
    else if (n =? largest c) then 1 else 0)%Z.
Proof.
  intros Hok H2 Hn.
  pose proof (others_lo c name n Hok H2 Hn) as Hlo'.
  destruct (others_hi c name n Hok H2 Hn) as (hi & Hhi' & Hle & Hhi1 & Hhi2).
  rewrite (skew_spec _ _ _ (lo_of_insert _ _ (n + 1) _ Hlo') (hi_of_insert _ _ (n + 1) _ Hhi')).
  destruct Hok as [Hlo Hhi _].
  pose proof (proj2 Hlo _ _ Hn). pose proof (proj2 Hhi _ _ Hn).
  destruct Hlo' as [[d Hd] _]. apply lookup_delete_Some in Hd as [_ Hd].
  pose proof (proj2 Hlo _ _ Hd). pose proof (proj2 Hhi _ _ Hd).
  destruct (Z.eqb_spec n (smallest c)), (Z.eqb_spec (largest c) (smallest c)),
    (Z.eqb_spec (smallest c) (secondSmallest c)), (Z.eqb_spec n (largest c)); cbn; lia.
Qed.

Lemma willViolate_skew c name n maxSkew :
  special_counts_ok c -> 2 <= size (counter c) -> counter c !! name = Some n ->
  willViolate c name maxSkew =
    Ok ((maxSkew <? skew (<[name := (n + 1)%Z]> (counter c)))%Z,
        (skew (<[name := (n + 1)%Z]> (counter c)) - skew (counter c))%Z).
Proof.
  intros Hok H2 Hn. rewrite (skew_after c name n Hok H2 Hn).
  destruct Hok as [Hlo Hhi _]. rewrite (skew_spec _ _ _ Hlo Hhi).
  pose proof (proj2 Hlo _ _ Hn). pose proof (proj2 Hhi _ _ Hn).
  unfold willViolate, Count, Smallest, SecondSmallest, Largest.
  rewrite !decide_False by lia. rewrite Hn. cbn [fst].
  destruct (Z.ltb_spec n (smallest c)); [lia|]. destruct (Z.ltb_spec (largest c) n); [lia|]. cbn.
  destruct (Z.eqb_spec (largest c) (smallest c)), (Z.eqb_spec n (smallest c)),
    (Z.eqb_spec (smallest c) (secondSmallest c)), (Z.eqb_spec n (largest c)); cbn;
    try lia; f_equal; f_equal; lia.
Qed.

Lemma single_entry (m : gmap string Z) d n : size m = 1 -> m !! d = Some n -> m = {[d := n]}.
Proof.
  intros Hs Hd. rewrite <- (insert_delete_id m d n Hd).
  assert (delete d m = ∅) as ->; [|apply insert_empty].
  apply map_size_empty_inv. rewrite map_size_delete, Hd. lia.
Qed.

(** With a single domain the skew is 0 before and after a placement, but the
    code reports that it grows by one. *)
Lemma willViolate_single c name n maxSkew :
  special_counts_ok c -> size (counter c) = 1 -> counter c !! name = Some n ->
  skew (counter c) = 0%Z /\ skew (<[name := (n + 1)%Z]> (counter c)) = 0%Z /\
  willViolate c name maxSkew = Ok ((maxSkew <? 1)%Z, 1%Z).
Proof.
  intros [Hlo Hhi _] Hs Hn. pose proof (single_entry _ _ _ Hs Hn) as Hm.
  unfold willViolate, Count, Smallest, SecondSmallest, Largest.
  rewrite Hm in *. destruct Hlo as [[? Hl] _], Hhi as [[? Hh] _].
  apply lookup_singleton_Some in Hl as [_ <-], Hh as [_ <-].
  rewrite insert_singleton_eq. unfold skew. rewrite !map_to_list_singleton; cbn.
  rewrite map_size_singleton, lookup_singleton_eq. cbn.
  rewrite !decide_False by done. cbn. split_and!; [lia|lia|].
  by rewrite Z.ltb_irrefl, Z.eqb_refl, Z.sub_diag.
Qed.

(** ** The loops, cluster by cluster *)

(** What a placement on a cluster does to one constraint: nothing when the
    cluster is not part of the spread, else whether the constraint is violated
    and by how much the skew changes. *)
Definition effect state (cs : list MemberCluster) (k : TopologySpreadConstraint)
    (c : MemberCluster) : option (bool * Z) :=
  match mc_labels c !! tsc_TopologyKey k with
  | None => None
  | Some d =>
      match willViolate (countByDomain cs state (tsc_TopologyKey k)) d (maxSkewOf k) with
      | Ok r => Some r
      | _ => None
      end
  end.

Definition violates state cs (k : TopologySpreadConstraint) (c : MemberCluster) : bool :=
  match effect state cs k c with Some (true, _) => true | _ => false end.

(** The score one constraint contributes: the skew change, negated, or the
    penalty when a constraint that only expresses a preference is violated. *)
Definition contribution state cs (k : TopologySpreadConstraint) (c : MemberCluster) : Z :=
  match effect state cs k c with
  | None => 0
  | Some (true, _) => - maxSkewViolationPenality
  | Some (false, skewChange) => - skewChange
  end%Z.

Definition sum_list (l : list Z) : Z := foldr Z.add 0%Z l.

(** The reference: each cluster on its own.  A cluster either carries the
    message of the first DoNotSchedule constraint it violates and no score, or
    no message and, as soon as there is a constraint at all, a score. *)
Definition verdict state cs (dns sa : list TopologySpreadConstraint) (c : MemberCluster)
    : option (list string) * option Z :=
  match list_find (fun k => violates state cs k c = true) dns with
  | Some (_, k) => (Some [doNotScheduleConstraintViolationReason (tsc_TopologyKey k) (maxSkewOf k)], None)
  | None =>
      (None,
       match dns ++ sa with
       | [] => None
       | ks => Some (wrap32 (sum_list ((fun k => contribution state cs k c) <$> ks)))
       end)
  end.

Definition at_key (n : string) (acc : maps) : option (list string) * option Z :=
  (acc.1 !! n, acc.2 !! n).

(** One constraint's effect on what is kept for one cluster. *)
Definition local_step state cs (dns : bool) (k : TopologySpreadConstraint) (c : MemberCluster)
    (l : option (list string) * option Z) : option (list string) * option Z :=
  match l.1 with
  | Some _ => l
  | None =>
      if dns && violates state cs k c then
        (Some [doNotScheduleConstraintViolationReason (tsc_TopologyKey k) (maxSkewOf k)], None)
      else (None, Some (wrap32 (default 0 l.2 + contribution state cs k c)%Z))
  end.

Lemma registered_ok cs state key c d maxSkew :
  c ∈ cs -> mc_labels c !! key = Some d ->
  exists r, willViolate (countByDomain cs state key) d maxSkew = Ok r.
Proof.
  intros Hc Hd.
  assert (counter (countByDomain cs state key) !! d = Some (domain_bindings state key d cs)) as Hreg.
  { rewrite countByDomain_counter. rewrite (proj2 (existsb_exists _ _)); [done|].
    exists c. split; [by apply list_elem_of_In|]. by apply bool_decide_eq_true. }
  assert (counter (countByDomain cs state key) <> ∅) as Hne by (intros E; by rewrite E in Hreg).
  pose proof (countByDomain_special cs state key Hne) as [Hlo Hhi _].
  pose proof (proj2 Hlo _ _ Hreg). pose proof (proj2 Hhi _ _ Hreg).
  unfold willViolate, Count, Smallest, SecondSmallest, Largest.
  assert (size (counter (countByDomain cs state key)) <> 0).
  { by intros ?%map_size_empty_inv. }
  rewrite !decide_False by done. rewrite Hreg. cbn [fst].
  destruct (Z.ltb_spec (domain_bindings state key d cs) (smallest (countByDomain cs state key))); [lia|].
  destruct (Z.ltb_spec (largest (countByDomain cs state key)) (domain_bindings state key d cs)); [lia|].
  cbn. repeat case_match; eauto.
Qed.

Lemma addScore_at_key name delta v sc n :
  at_key n (v, addScore name delta sc) =
  if decide (n = name) then (v !! n, Some (wrap32 (default 0 (sc !! n) + delta)%Z))
  else at_key n (v, sc).
Proof.
  unfold at_key, addScore; cbn. destruct (decide (n = name)) as [->|].
  - by rewrite lookup_insert_eq.
  - by rewrite lookup_insert_ne.
Qed.

Lemma wrap32_neg_delta x d : wrap32 (x + wrap32 (d * skewChangeScoreFactor)) = wrap32 (x + - d).
Proof. unfold wrap32, skewChangeScoreFactor. rewrite wrap_add_idemp_r by lia. f_equal. lia. Qed.

Lemma evaluateDoNotSchedule_local cs state k acc c :
  c ∈ cs -> is_Some (tsc_MaxSkew k) ->
  exists acc', evaluateDoNotSchedule (countByDomain cs state (tsc_TopologyKey k)) k acc c = Ok acc' /\
    at_key (mc_name c) acc' = local_step state cs true k c (at_key (mc_name c) acc) /\
    forall n, n <> mc_name c -> at_key n acc' = at_key n acc.
Proof.
  intros Hc [ms Hms]. destruct acc as [v sc].
  unfold evaluateDoNotSchedule, local_step, violates, contribution, effect, at_key at 2; cbn.
  destruct (v !! mc_name c) eqn:Ev; [eauto|].
  destruct (mc_labels c !! tsc_TopologyKey k) as [d|] eqn:Ed; cbn.
  - destruct (registered_ok cs state _ c d (maxSkewOf k) Hc Ed) as [[[|] dl] Hw]; rewrite Hw; cbn.
    + rewrite Hms. eexists. split; [done|]. unfold at_key, maxSkewOf; cbn. rewrite Hms.
      split; [by rewrite lookup_insert_eq, lookup_delete_eq|].
      intros n Hn. by rewrite lookup_insert_ne, lookup_delete_ne.
    + eexists. split; [done|]. rewrite addScore_at_key, decide_True, Ev, wrap32_neg_delta by done.
      split; [done|]. intros n Hn. by rewrite addScore_at_key, decide_False.
  - eexists. split; [done|]. rewrite addScore_at_key, decide_True, Ev by done.
    split; [done|]. intros n Hn. by rewrite addScore_at_key, decide_False.
Qed.

Lemma evaluateScheduleAnyway_local cs state k acc c :
  c ∈ cs ->
  exists acc', evaluateScheduleAnyway (countByDomain cs state (tsc_TopologyKey k)) k acc c = Ok acc' /\
    at_key (mc_name c) acc' = local_step state cs false k c (at_key (mc_name c) acc) /\
    forall n, n <> mc_name c -> at_key n acc' = at_key n acc.
Proof.
  intros Hc. destruct acc as [v sc].
  unfold evaluateScheduleAnyway, local_step, violates, contribution, effect, at_key at 2; cbn.
  destruct (v !! mc_name c) eqn:Ev; [eauto|].
  destruct (mc_labels c !! tsc_TopologyKey k) as [d|] eqn:Ed; cbn.
  - destruct (registered_ok cs state _ c d (maxSkewOf k) Hc Ed) as [[[|] dl] Hw]; rewrite Hw; cbn;
      (eexists; split; [done|]; rewrite addScore_at_key, decide_True, Ev, ?wrap32_neg_delta by done;
       split; [done|]; intros n Hn; by rewrite addScore_at_key, decide_False).
  - eexists. split; [done|]. rewrite addScore_at_key, decide_True, Ev by done.
    split; [done|]. intros n Hn. by rewrite addScore_at_key, decide_False.
Qed.

(** What the passes keep for a cluster is the fold of the local steps. *)
Lemma passes_local cs state (isDns : bool) ks acc eval :
  NoDup (mc_name <$> cs) ->
  (forall k acc c, k ∈ ks -> c ∈ cs ->
    exists acc', eval (countByDomain cs state (tsc_TopologyKey k)) k acc c = Ok acc' /\
    at_key (mc_name c) acc' = local_step state cs isDns k c (at_key (mc_name c) acc) /\
    forall n, n <> mc_name c -> at_key n acc' = at_key n acc) ->
  exists acc', ofold (fun acc k =>
      ofold (eval (countByDomain cs state (tsc_TopologyKey k)) k) acc cs) acc ks = Ok acc' /\
    (forall c, c ∈ cs -> at_key (mc_name c) acc' =
      fold_left (fun l k => local_step state cs isDns k c l) ks (at_key (mc_name c) acc)) /\
    (forall n, n ∉ mc_name <$> cs -> at_key n acc' = at_key n acc).
Proof.
  intros Hnd Hstep. revert acc. induction ks as [|k ks IH]; intros acc; cbn; [by eauto|].
  destruct (ofold_pointwise (eval (countByDomain cs state (tsc_TopologyKey k)) k) mc_name
    at_key (local_step state cs isDns k) cs acc Hnd) as (acc1 & Hf & Hin & Hout).
  { intros acc0 c Hc. apply Hstep; [by left|done]. }
  rewrite Hf; cbn. destruct (IH ltac:(intros; apply Hstep; [by right|done]) acc1)
    as (acc2 & Hf2 & Hin2 & Hout2).
  exists acc2. split_and!; [done| |].
  - intros c Hc. by rewrite Hin2, Hin.
  - intros n Hn. by rewrite Hout2, Hout.
Qed.

(** The accumulated score after further contributions. *)
Definition add_contributions state cs (ks : list TopologySpreadConstraint) (c : MemberCluster)
    (o : option Z) : option Z :=
  match ks with
  | [] => o
  | _ => Some (wrap32 (default 0 o + sum_list ((fun k => contribution state cs k c) <$> ks))%Z)
  end.

Lemma add_contributions_cons state cs k ks c o :
  add_contributions state cs ks c (Some (wrap32 (default 0 o + contribution state cs k c))%Z) =
  add_contributions state cs (k :: ks) c o.
Proof.
  destruct ks as [|k' ks]; cbn; f_equal.
  - f_equal. lia.
  - unfold wrap32. rewrite wrap_add_idemp_l by lia. f_equal. lia.
Qed.

Lemma local_anyway state cs ks c o :
  fold_left (fun l k => local_step state cs false k c l) ks (None, o) =
  (None, add_contributions state cs ks c o).
Proof.
  revert o. induction ks as [|k ks IH]; intros o; cbn [fold_left]; [done|].
  unfold local_step at 2; cbn [fst snd andb]. by rewrite IH, add_contributions_cons.
Qed.

Lemma local_decided state cs isDns ks c r o :
  fold_left (fun l k => local_step state cs isDns k c l) ks (Some r, o) = (Some r, o).
Proof. induction ks as [|k ks IH]; cbn; done. Qed.

Lemma local_donotschedule state cs ks c o :
  fold_left (fun l k => local_step state cs true k c l) ks (None, o) =
  match list_find (fun k => violates state cs k c = true) ks with
  | Some (_, k) => (Some [doNotScheduleConstraintViolationReason (tsc_TopologyKey k) (maxSkewOf k)], None)
  | None => (None, add_contributions state cs ks c o)
  end.
Proof.
  revert o. induction ks as [|k ks IH]; intros o; cbn [fold_left list_find]; [done|].
  unfold local_step at 2; cbn [fst snd andb].
  destruct (violates state cs k c) eqn:E.
  - rewrite decide_True by done. apply local_decided.
  - rewrite decide_False by done. rewrite IH.
    destruct (list_find _ ks) as [[i k']|]; cbn; [done|]. by rewrite add_contributions_cons.
Qed.

Lemma local_verdict state cs dns sa c :
  fold_left (fun l k => local_step state cs false k c l) sa
    (fold_left (fun l k => local_step state cs true k c l) dns (None, None)) =
  verdict state cs dns sa c.
Proof.
  rewrite local_donotschedule. unfold verdict.
  destruct (list_find _ dns) as [[i k]|]; [apply local_decided|].
  rewrite local_anyway. f_equal.
  destruct dns as [|k dns]; [by destruct sa|]. cbn [app add_contributions].
  destruct sa as [|k' sa]; cbn [add_contributions].
  - by rewrite app_nil_r.
  - f_equal. cbn [from_option]; unfold id. unfold wrap32. rewrite wrap_add_idemp_l by lia. f_equal.
    rewrite app_comm_cons, fmap_app. generalize ((fun k => contribution state cs k c) <$> k :: dns) as l.
    intros l. unfold sum_list. cbn [default]. induction l; cbn in *; lia.
Qed.

Lemma evaluateAllConstraints_verdict state dns sa :
  NoDup (mc_name <$> ListClusters state) -> Forall (fun k => is_Some (tsc_MaxSkew k)) dns ->
  exists acc, evaluateAllConstraints state dns sa = Ok acc /\
    (forall c, c ∈ ListClusters state ->
      at_key (mc_name c) acc = verdict state (ListClusters state) dns sa c) /\
    (forall n, n ∉ mc_name <$> ListClusters state -> at_key n acc = (None, None)).
Proof.
  intros Hnd Hms. rewrite Forall_forall in Hms. unfold evaluateAllConstraints.
  destruct (passes_local (ListClusters state) state true dns (∅, ∅) evaluateDoNotSchedule Hnd)
    as (acc1 & -> & Hin & Hout); [intros; by apply evaluateDoNotSchedule_local; auto|].
  cbn [obind].
  destruct (passes_local (ListClusters state) state false sa acc1 evaluateScheduleAnyway Hnd)
    as (acc2 & -> & Hin2 & Hout2); [intros; by apply evaluateScheduleAnyway_local|].
  exists acc2. split_and!; [done| |].
  - intros c Hc. rewrite Hin2, Hin by done. apply local_verdict.
  - intros n Hn. rewrite Hout2, Hout by done. unfold at_key; cbn. by rewrite !lookup_empty.
Qed.

Lemma countByDomain_registered cs state key c d :
  c ∈ cs -> mc_labels c !! key = Some d ->
  counter (countByDomain cs state key) !! d = Some (domain_bindings state key d cs).
Proof.
  intros Hc Hd. rewrite countByDomain_counter, (proj2 (existsb_exists _ _)); [done|].
  exists c. split; [by apply list_elem_of_In|]. by apply bool_decide_eq_true.
Qed.

Lemma countByDomain_ok cs state key c d :
  c ∈ cs -> mc_labels c !! key = Some d -> special_counts_ok (countByDomain cs state key).
Proof.
  intros Hc Hd. apply countByDomain_special. intros E.
  pose proof (countByDomain_registered cs state key c d Hc Hd) as H. by rewrite E in H.
Qed.

(** Classification keeps every constraint, in order, on exactly one side. *)
Lemma classifyConstraints_filter policy p :
  sps_Policy (snap_spec policy) = Some p ->
  classifyConstraints policy =
  Ok (filter (fun c => tsc_WhenUnsatisfiable c <> ScheduleAnyway) (pol_TopologySpreadConstraints p),
      filter (fun c => tsc_WhenUnsatisfiable c = ScheduleAnyway) (pol_TopologySpreadConstraints p)).
Proof.
  intros Hp. unfold classifyConstraints. rewrite Hp. f_equal.
  generalize (pol_TopologySpreadConstraints p) as ks. intros ks.
  assert (forall a b, fold_left (fun '(dns, sa) c =>
      if decide (tsc_WhenUnsatisfiable c = ScheduleAnyway) then (dns, sa ++ [c])
      else (dns ++ [c], sa)) ks (a, b) =
    (a ++ filter (fun c => tsc_WhenUnsatisfiable c <> ScheduleAnyway) ks,
     b ++ filter (fun c => tsc_WhenUnsatisfiable c = ScheduleAnyway) ks)) as Hgen; [|by rewrite Hgen].
  induction ks as [|k ks IH]; intros a b; cbn [fold_left].
  - by rewrite !app_nil_r.
  - rewrite !filter_cons. destruct (decide (tsc_WhenUnsatisfiable k = ScheduleAnyway)) as [E|E].
    + rewrite IH, decide_False by tauto. by rewrite <- app_assoc.
    + rewrite IH, decide_True by done. by rewrite <- app_assoc.
Qed.

(** C26: for a cluster in a spread of two or more domains, [willViolate] on
    the counter that [countByDomain] builds never fails, and it answers
    exactly with the skew the spread would have after one more binding in the
    cluster's domain: whether it exceeds [maxSkew], and its change.  The skew
    is that of the counter's map, which records for every domain the number
    of its clusters that hold a scheduled or bound binding. *)
Theorem willViolate_exact cs state key c d maxSkew :
  c ∈ cs -> mc_labels c !! key = Some d ->
  2 <= size (counter (countByDomain cs state key)) ->
  let m := counter (countByDomain cs state key) in
  let after := skew (<[d := (domain_bindings state key d cs + 1)%Z]> m) in
  willViolate (countByDomain cs state key) d maxSkew =
    Ok ((maxSkew <? after)%Z, (after - skew m)%Z) /\
  forall d', m !! d' =
    if existsb (in_domain key d') cs then Some (domain_bindings state key d' cs) else None.
Proof.
  intros Hc Hd H2. split; [|apply countByDomain_counter].
  apply willViolate_skew; [by eapply countByDomain_ok|done|by eapply countByDomain_registered].
Qed.

(** when all the clusters of the spread are in one domain, the skew is 0
    before and after any placement, yet [willViolate] reports a skew of 1. *)
Theorem willViolate_one_domain cs state key c d maxSkew :
  c ∈ cs -> mc_labels c !! key = Some d ->
  size (counter (countByDomain cs state key)) = 1 ->
  let m := counter (countByDomain cs state key) in
  skew m = 0%Z /\ skew (<[d := (domain_bindings state key d cs + 1)%Z]> m) = 0%Z /\
  willViolate (countByDomain cs state key) d maxSkew = Ok ((maxSkew <? 1)%Z, 1%Z).
Proof.
  intros Hc Hd H1. apply willViolate_single; [by eapply countByDomain_ok|done|].
  by eapply countByDomain_registered.
Qed.

(** the nested loops of [evaluateAllConstraints], with their two shared
    maps, compute for every cluster exactly the per-cluster verdict: the
    message of the first DoNotSchedule constraint the cluster violates and no
    score, or no message and the wrapped sum of the contributions of all the
    constraints.  They never fail, and they keep nothing for other names. *)
Theorem evaluateAllConstraints_per_cluster state dns sa :
  NoDup (mc_name <$> ListClusters state) -> Forall (fun k => is_Some (tsc_MaxSkew k)) dns ->
  exists violations scores, evaluateAllConstraints state dns sa = Ok (violations, scores) /\
    (forall c, c ∈ ListClusters state ->
      (violations !! mc_name c, scores !! mc_name c) = verdict state (ListClusters state) dns sa c) /\
    (forall n, n ∉ mc_name <$> ListClusters state -> violations !! n = None /\ scores !! n = None).
Proof.
  intros Hnd Hms.
  destruct (evaluateAllConstraints_verdict state dns sa Hnd Hms) as ([v sc] & Heq & Hin & Hout).
  exists v, sc. split_and!; [done|done|]. intros n Hn. specialize (Hout n Hn).
  unfold at_key in Hout; cbn in Hout. by injection Hout.
Qed.

Lemma evaluateDoNotSchedule_nil cs state k sc c :
  c ∈ cs -> tsc_MaxSkew k = None ->
  exists r, evaluateDoNotSchedule (countByDomain cs state (tsc_TopologyKey k)) k (∅, sc) c = r /\
    if violates state cs k c then exists w, r = Panic w else exists sc', r = Ok (∅, sc').
Proof.
  intros Hc Hms. eexists; split; [done|].
  unfold evaluateDoNotSchedule, violates, effect. rewrite lookup_empty, Hms.
  destruct (mc_labels c !! tsc_TopologyKey k) as [d|] eqn:Ed; [|by eauto].
  destruct (registered_ok cs state _ c d (maxSkewOf k) Hc Ed) as [[[|] dl] Hw];
    rewrite Hw; cbn; eexists; done.
Qed.

Lemma first_pass_panics cs state k l sc :
  (forall c, c ∈ l -> c ∈ cs) -> tsc_MaxSkew k = None ->
  Exists (fun c => violates state cs k c = true) l ->
  exists w, ofold (evaluateDoNotSchedule (countByDomain cs state (tsc_TopologyKey k)) k) (∅, sc) l = Panic w.
Proof.
  intros Hsub Hms. revert sc. induction l as [|c l IH]; intros sc Hex; [by apply Exists_nil in Hex|].
  destruct (evaluateDoNotSchedule_nil cs state k sc c) as (r & Hr & Hv); [apply Hsub; by left|done|].
  cbn [ofold]. rewrite Hr. apply Exists_cons in Hex.
  destruct (violates state cs k c); [destruct Hv as [w ->]; by exists w|].
  destruct Hv as [sc' ->]. cbn. apply IH; [intros; apply Hsub; by right|].
  by destruct Hex.
Qed.

(** the message of a violated DoNotSchedule constraint dereferences its
    [MaxSkew], although the field is optional and nil stands for 1 a few lines
    above: a constraint without it panics as soon as a cluster violates it. *)
Theorem nil_maxSkew_panics state k dns sa c :
  tsc_MaxSkew k = None -> c ∈ ListClusters state ->
  violates state (ListClusters state) k c = true ->
  exists w, evaluateAllConstraints state (k :: dns) sa = Panic w.
Proof.
  intros Hms Hc Hv. unfold evaluateAllConstraints; cbn [ofold].
  destruct (first_pass_panics (ListClusters state) state k (ListClusters state) ∅)
    as [w ->]; [done|done| |by exists w].
  apply Exists_exists. eauto.
Qed.

(** Reading back the state that PreFilter wrote. *)
Lemma readSpreadState_Write name (ps : pluginState) state :
  readPluginState name (Write name (inject ps) state) = Ok ps.
Proof. unfold readPluginState, Read; cbn. by rewrite lookup_insert_eq; cbn; rewrite cast_inject. Qed.

Lemma PreFilter_writes name state policy p :
  sps_Policy (snap_spec policy) = Some p -> pol_TopologySpreadConstraints p <> [] ->
  NoDup (mc_name <$> ListClusters state) ->
  Forall (fun k => is_Some (tsc_MaxSkew k)) (pol_TopologySpreadConstraints p) ->
  exists ps s, PreFilter name state policy = Ok (Write name (inject ps) state, s) /\
    IsInternalError s = false /\
    forall c, c ∈ ListClusters state ->
      (violations ps !! mc_name c, scores ps !! mc_name c) =
      verdict state (ListClusters state)
        (filter (fun k => tsc_WhenUnsatisfiable k <> ScheduleAnyway) (pol_TopologySpreadConstraints p))
        (filter (fun k => tsc_WhenUnsatisfiable k = ScheduleAnyway) (pol_TopologySpreadConstraints p)) c.
Proof.
  intros Hp Hne Hnd Hms. pose proof (classifyConstraints_filter _ _ Hp) as Hcl.
  remember (filter (fun k => tsc_WhenUnsatisfiable k <> ScheduleAnyway) _) as dns eqn:Edns.
  remember (filter (fun k => tsc_WhenUnsatisfiable k = ScheduleAnyway) _) as sa eqn:Esa.
  destruct (evaluateAllConstraints_verdict state dns sa Hnd) as ([v sc] & Heq & Hin & _).
  { rewrite Forall_forall in Hms |- *. subst dns. intros k [_ Hk]%list_elem_of_filter. auto. }
  exists (mkPluginState dns sa v sc), (match dns with
    | [] => NewNonErrorStatus Skip name ["no DoNotSchedule topology spread constraint is present"]
    | _ => None end).
  unfold PreFilter, prepareTopologySpreadConstraintsPluginState. rewrite Hp, Hcl. cbn. rewrite Heq. cbn.
  split_and!; [|by destruct dns|exact Hin].
  destruct (pol_TopologySpreadConstraints p); [done|]. by destruct dns.
Qed.

(** after a PreFilter run on a policy with constraints, the Filter
    extension point rejects a cluster exactly when some DoNotSchedule
    constraint of the policy is violated by a placement on it, and accepts it
    otherwise; PreFilter reports no error. *)
Theorem Filter_rejects_violations name state policy p :
  sps_Policy (snap_spec policy) = Some p -> pol_TopologySpreadConstraints p <> [] ->
  NoDup (mc_name <$> ListClusters state) ->
  Forall (fun k => is_Some (tsc_MaxSkew k)) (pol_TopologySpreadConstraints p) ->
  exists state' s, PreFilter name state policy = Ok (state', s) /\ IsInternalError s = false /\
    forall c, c ∈ ListClusters state ->
    exists s', Filter name state' policy c = Ok s' /\
      (IsSuccess s' = true \/ IsClusterUnschedulable s' = true) /\
      (IsClusterUnschedulable s' = true <->
       exists k, k ∈ pol_TopologySpreadConstraints p /\ tsc_WhenUnsatisfiable k <> ScheduleAnyway /\
         violates state (ListClusters state) k c = true).
Proof.
  intros Hp Hne Hnd Hms.
  destruct (PreFilter_writes name state policy p Hp Hne Hnd Hms) as (ps & s & Hpre & Hs & Hin).
  exists (Write name (inject ps) state), s. split_and!; [done|done|].
  intros c Hc. unfold Filter. rewrite readSpreadState_Write.
  specialize (Hin c Hc). apply (f_equal fst) in Hin. cbn [fst] in Hin. rewrite Hin. unfold verdict.
  destruct (list_find _ _) as [[i k]|] eqn:Ef; cbn; eexists; (split; [done|]).
  - split; [by right|]. split; [intros _|done].
    apply list_find_Some in Ef as (Hk%list_elem_of_lookup_2 & Hv & _).
    apply list_elem_of_filter in Hk as [? ?]. eauto.
  - split; [by left|]. split; [done|]. intros (k & Hk & Hw & Hv). exfalso.
    apply list_find_None in Ef. rewrite Forall_forall in Ef. apply (Ef k); [|done].
    by apply list_elem_of_filter.
Qed.

End Plugin.
(** ** A spread to evaluate: two clusters in the east, one of which holds a
    binding, and one in the west. *)

Definition ex_east1 : MemberCluster := Sample.cluster "east1" {["region" := "east"]} 0.
Definition ex_east2 : MemberCluster := Sample.cluster "east2" {["region" := "east"]} 0.
Definition ex_west : MemberCluster := Sample.cluster "west" {["region" := "west"]} 0.

Definition ex_state : CycleState pluginState :=
  NewCycleState [ex_east1; ex_east2; ex_west] []
    [[Sample.binding "b" "east1" "p" BindingStateBound]].

Definition ex_one_domain : CycleState pluginState := NewCycleState [ex_east1; ex_east2] [] [].

Definition ex_constraint (maxSkew : option Z) : TopologySpreadConstraint :=
  mkTSC maxSkew "region" DoNotSchedule.

Definition ex_policy : PlacementPolicy :=
  Sample.policy PickNPlacementType (Some 2%Z) [ex_constraint (Some 1%Z)].

Lemma willViolate_exact_witness :
  willViolate (countByDomain (clusters ex_state) ex_state "region") "east" 1 = Ok (true, 1%Z).
Proof.
  refine (eq_trans (proj1 (willViolate_exact (clusters ex_state) ex_state "region" ex_east2 "east" 1
    _ eq_refl _)) _); [by_decide|by_decide|vm_compute; reflexivity].
Defined.

Lemma willViolate_one_domain_witness :
  skew (counter (countByDomain (clusters ex_one_domain) ex_one_domain "region")) = 0%Z /\
  willViolate (countByDomain (clusters ex_one_domain) ex_one_domain "region") "east" 0 = Ok (true, 1%Z).
Proof.
  destruct (willViolate_one_domain (clusters ex_one_domain) ex_one_domain "region" ex_east2 "east" 0)
    as (H1 & _ & H2); [by_decide|reflexivity|by_decide|].
  split; [exact H1|exact H2].
Defined.

Lemma evaluateAllConstraints_per_cluster_witness :
  exists violations scores,
    evaluateAllConstraints ex_state [ex_constraint (Some 1%Z)] [] = Ok (violations, scores) /\
    scores !! "west" = Some 1%Z /\ is_Some (violations !! "east2").
Proof.
  destruct (evaluateAllConstraints_per_cluster ex_state [ex_constraint (Some 1%Z)] [])
    as (v & sc & Heq & Hin & _); [by_decide|by_decide|].
  exists v, sc. split; [exact Heq|].
  pose proof (Hin ex_west ltac:(by_decide)) as Hw. pose proof (Hin ex_east2 ltac:(by_decide)) as He.
  vm_compute in Hw, He. injection Hw as _ Hw. injection He as He _.
  split; [exact Hw|]. eexists. exact He.
Defined.

Lemma nil_maxSkew_panics_witness :
  exists w, evaluateAllConstraints ex_state [ex_constraint None] [] = Panic w.
Proof.
  apply (nil_maxSkew_panics ex_state (ex_constraint None) [] [] ex_east2);
    [reflexivity|by_decide|vm_compute; reflexivity].
Defined.

Lemma Filter_rejects_violations_witness :
  exists state' s, PreFilter defaultPluginName ex_state (Sample.snapshot "p" (Some ex_policy)) = Ok (state', s) /\
    exists s', Filter defaultPluginName state' (Sample.snapshot "p" (Some ex_policy)) ex_east2 = Ok s' /\
      IsClusterUnschedulable s' = true.
Proof.
  destruct (Filter_rejects_violations defaultPluginName ex_state (Sample.snapshot "p" (Some ex_policy))
    ex_policy) as (st & s & Hpre & _ & Hf); [reflexivity|discriminate|by_decide|by_decide|].
  exists st, s. split; [exact Hpre|].
  destruct (Hf ex_east2 ltac:(by_decide)) as (s' & Heq & _ & Hiff).
  exists s'. split; [exact Heq|]. apply Hiff. exists (ex_constraint (Some 1%Z)).
  split_and!; [by_decide|discriminate|vm_compute; reflexivity].
Defined.

End TopologySpread.
