(* ===== verification/Defaulter.v ===== *)
(** * Defaults of a placement

    Models [pkg/utils/defaulter/clusterresourceplacement.go].  The webhook and
    the controllers run it on every placement before they read it; the
    theorems show that one run is enough and that it establishes what the
    scheduler and the rollout controller dereference without a check. *)

From stdpp Require Import prelude gmap strings.
From S2P Require Import Prelude K8s Api Sample Score CycleState Plugins TopologySpread.

Local Open Scope string_scope.
Local Open Scope list_scope.

Module Defaulter.

Definition DefaultMaxUnavailableValue : string := "25%".
Definition DefaultMaxSurgeValue : string := "25%".
Definition DefaultUnavailablePeriodSeconds : Z := 60.
Definition DefaultMaxSkewValue : Z := 1.
Definition DefaultRevisionHistoryLimitValue : Z := 10.

(** [if f == "" { f = d }] and [if f == nil { f = &d }] *)
Definition default_string (d s : string) : string := if decide (s = EmptyString) then d else s.
Definition default_pointer {A} (d : A) (o : option A) : option A :=
  match o with None => Some d | Some _ => o end.

Definition SetDefaultsApplyStrategy (obj : ApplyStrategy) : ApplyStrategy :=
  let t := default_string ApplyStrategyTypeClientSideApply (as_Type obj) in
  let ssa :=
    if decide (t = ApplyStrategyTypeServerSideApply)
    then default_pointer (mkSSAConfig false) (as_ServerSideApplyConfig obj)
    else as_ServerSideApplyConfig obj in
  mkApplyStrategy
    (default_string ComparisonOptionTypePartialComparison (as_ComparisonOption obj))
    (default_string WhenToApplyTypeAlways (as_WhenToApply obj))
    t (as_AllowCoOwnership obj) ssa
    (default_string WhenToTakeOverTypeAlways (as_WhenToTakeOver obj)).

Definition defaultConstraint (c : TopologySpreadConstraint) : TopologySpreadConstraint :=
  mkTSC (default_pointer DefaultMaxSkewValue (tsc_MaxSkew c)) (tsc_TopologyKey c)
    (default_string DoNotSchedule (tsc_WhenUnsatisfiable c)).

Definition defaultToleration (t : Toleration) : Toleration :=
  mkToleration (tol_Key t) (default_string TolerationOpEqual (tol_Operator t)) (tol_Value t) (tol_Effect t).

Definition defaultRollingUpdate (r : option RollingUpdateConfig) : RollingUpdateConfig :=
  let r := default (mkRollingUpdate None None None) r in
  mkRollingUpdate
    (default_pointer (FromString DefaultMaxUnavailableValue) (ru_MaxUnavailable r))
    (default_pointer (FromString DefaultMaxSurgeValue) (ru_MaxSurge r))
    (default_pointer DefaultUnavailablePeriodSeconds (ru_UnavailablePeriodSeconds r)).

Definition emptyApplyStrategy : ApplyStrategy :=
  mkApplyStrategy EmptyString EmptyString EmptyString false None EmptyString.

Definition SetPlacementDefaults (obj : PlacementObj) : PlacementObj :=
  let spec := pl_spec obj in
  let policy := default (mkPolicy PickAllPlacementType [] None None [] []) (psp_Policy spec) in
  let policy := mkPolicy (pol_PlacementType policy) (pol_ClusterNames policy)
    (pol_NumberOfClusters policy) (pol_Affinity policy)
    (defaultConstraint <$> pol_TopologySpreadConstraints policy)
    (defaultToleration <$> pol_Tolerations policy) in
  let strategy := psp_Strategy spec in
  let strategyType := default_string RollingUpdateRolloutStrategyType (rs_Type strategy) in
  let rollingUpdate :=
    if decide (strategyType = RollingUpdateRolloutStrategyType)
    then Some (defaultRollingUpdate (rs_RollingUpdate strategy))
    else rs_RollingUpdate strategy in
  let applyStrategy := SetDefaultsApplyStrategy (default emptyApplyStrategy (rs_ApplyStrategy strategy)) in
  mkPlacementObj (pl_meta obj)
    (mkPlacementSpec (psp_ResourceSelectors spec) (Some policy)
       (mkRolloutStrategy strategyType rollingUpdate (Some applyStrategy)
          (rs_DeleteStrategy strategy) (rs_ReportBackStrategy strategy))
       (default_pointer DefaultRevisionHistoryLimitValue (psp_RevisionHistoryLimit spec))
       (psp_StatusReportingScope spec)) (pl_status obj).

(** ** Lemmas *)

Lemma default_string_idemp d s : default_string d (default_string d s) = default_string d s.
Proof. unfold default_string. repeat destruct (decide _); congruence. Qed.

Lemma default_string_ne d s : d <> EmptyString -> default_string d s <> EmptyString.
Proof. unfold default_string. destruct (decide _); congruence. Qed.

Lemma default_pointer_idemp {A} (d : A) o : default_pointer d (default_pointer d o) = default_pointer d o.
Proof. by destruct o. Qed.

Lemma default_pointer_Some {A} (d : A) o : is_Some (default_pointer d o).
Proof. destruct o; cbn; eauto. Qed.

Lemma SetDefaultsApplyStrategy_idemp a :
  SetDefaultsApplyStrategy (SetDefaultsApplyStrategy a) = SetDefaultsApplyStrategy a.
Proof.
  unfold SetDefaultsApplyStrategy; cbn. rewrite !default_string_idemp.
  by destruct (decide _); rewrite ?default_pointer_idemp.
Qed.

Lemma defaultRollingUpdate_idemp r :
  defaultRollingUpdate (Some (defaultRollingUpdate r)) = defaultRollingUpdate r.
Proof. unfold defaultRollingUpdate; cbn. by rewrite !default_pointer_idemp. Qed.

Lemma list_fmap_idemp {A} (f : A -> A) (l : list A) : (forall x, f (f x) = f x) -> f <$> (f <$> l) = f <$> l.
Proof. intros Hf. rewrite <- list_fmap_compose. apply list_fmap_ext. intros; apply Hf. Qed.

(** setting the defaults twice is setting them once: a defaulted
    placement is a fixed point. *)
Theorem SetPlacementDefaults_idempotent obj :
  SetPlacementDefaults (SetPlacementDefaults obj) = SetPlacementDefaults obj.
Proof.
  unfold SetPlacementDefaults; cbn.
  rewrite !default_string_idemp, default_pointer_idemp, SetDefaultsApplyStrategy_idemp.
  rewrite (list_fmap_idemp defaultConstraint), (list_fmap_idemp defaultToleration).
  - destruct (decide _); by rewrite ?defaultRollingUpdate_idemp.
  - intros [k op v e]; unfold defaultToleration; cbn. by rewrite default_string_idemp.
  - intros [ms k w]; unfold defaultConstraint; cbn.
    by rewrite default_pointer_idemp, default_string_idemp.
Qed.

(** a defaulted placement has a policy whose topology spread constraints
    all carry a max skew (so the scheduler's dereference of it cannot panic)
    and whose tolerations all name an operator; its rolling update, if it is
    of that type, has all three fields, and it has an apply strategy.  On
    such tolerations the taint check of the scheduler is the documented one:
    no taint is left untolerated exactly when every taint is matched. *)
Theorem SetPlacementDefaults_establishes obj :
  let spec := pl_spec (SetPlacementDefaults obj) in
  exists p, psp_Policy spec = Some p /\
    Forall (fun k => is_Some (tsc_MaxSkew k) /\ tsc_WhenUnsatisfiable k <> EmptyString)
      (pol_TopologySpreadConstraints p) /\
    (forall taints, TaintToleration.findUntoleratedTaint taints (pol_Tolerations p) = None <->
       Forall (fun taint => Exists (fun t => TaintToleration.tolerates t taint) (pol_Tolerations p)) taints) /\
    is_Some (rs_ApplyStrategy (psp_Strategy spec)) /\ is_Some (psp_RevisionHistoryLimit spec) /\
    (rs_Type (psp_Strategy spec) = RollingUpdateRolloutStrategyType ->
     exists r, rs_RollingUpdate (psp_Strategy spec) = Some r /\ is_Some (ru_MaxUnavailable r) /\
       is_Some (ru_MaxSurge r) /\ is_Some (ru_UnavailablePeriodSeconds r)).
Proof.
  unfold SetPlacementDefaults; cbn. eexists; split; [done|]. cbn. split_and!.
  - apply Forall_fmap, Forall_true. intros k; cbn.
    split; [apply default_pointer_Some|by apply default_string_ne].
  - intros taints. apply TaintToleration.findUntoleratedTaint_None.
    apply Forall_fmap, Forall_true. intros t; cbn. by apply default_string_ne.
  - eauto.
  - apply default_pointer_Some.
  - intros E. rewrite decide_True by done. eexists; split; [done|]. cbn.
    split_and!; apply default_pointer_Some.
Qed.

End Defaulter.
