(* ===== verification/FrameworkUtils.v ===== *)
(** * Planning a scheduling cycle

    Models [pkg/scheduler/framework/frameworkutils.go]: how the bindings of a
    placement are classified, how the picked clusters are cross-referenced
    with them into bindings to create, patch and unschedule, which clusters
    are picked and removed, and what is reported in the policy snapshot.

    A [client.Patch] made by [MergeFromWithOptions] is the object it was made
    from; [bindingWithPatch] keeps that base next to the modified object.
    [uuids n] is the [n]-th value [uuid.NewUUID] returns in a call. *)

From stdpp Require Import prelude gmap strings sorting.
From S2P Require Import Prelude K8s Api Sample Utils Score CycleState.

Local Open Scope string_scope.
Local Open Scope list_scope.

(** ** Messages: [framework.go] *)

Definition FullyScheduledReason : string := "SchedulingPolicyFulfilled".
Definition NotFullyScheduledReason : string := "SchedulingPolicyUnfulfilled".

Definition fullyScheduledMessage (n : Z) : string :=
  "found all cluster needed as specified by the scheduling policy, found " +:+ zstr n +:+ " cluster(s)".

Definition notFullyScheduledMessage (n : Z) : string :=
  "could not find all clusters needed as specified by the scheduling policy, found " +:+ zstr n +:+
  " cluster(s) instead".

(** [\"%s\"]: the value between quotes, unescaped. *)
Definition quoted (s : string) : string :=
  String (Ascii.ascii_of_nat 34) (s +:+ String (Ascii.ascii_of_nat 34) EmptyString).

Definition pickFixedInvalidClusterReason (cluster reason : string) : string :=
  "Cluster " +:+ quoted cluster +:+ " is not eligible for resource placement yet: " +:+ reason.

Definition pickFixedNotFoundClusterReason (cluster : string) : string :=
  "Specified cluster " +:+ quoted cluster +:+ " is not found".

Definition notPickedByScoreReason (cluster : string) (affinity topology : Z) : string :=
  "Cluster " +:+ quoted cluster +:+ " does not score high enough (affinity score: " +:+ zstr affinity +:+
  ", topology spread score: " +:+ zstr topology +:+ ")".

Definition resourceScheduleSucceededMessage (cluster : string) : string :=
  "Successfully scheduled resources for placement in " +:+ quoted cluster +:+ ": picked by scheduling policy".

Definition resourceScheduleSucceededWithScoreMessage (cluster : string) (affinity topology : Z) : string :=
  "Successfully scheduled resources for placement in " +:+ quoted cluster +:+ " (affinity score: " +:+
  zstr affinity +:+ ", topology spread score: " +:+ zstr topology +:+ "): picked by scheduling policy".

Definition clustersDecisionArrayLengthLimitInAPI : Z := 1000.

(** ** Classification of the existing bindings *)

Record classes : Type := mkClasses {
  cl_bound : list BindingObj;
  cl_scheduled : list BindingObj;
  cl_obsolete : list BindingObj;
  cl_unscheduled : list BindingObj;
  cl_dangling : list BindingObj;
  cl_deleting : list BindingObj;
}.

Definition clusterMapOf (cs : list MemberCluster) : gmap string MemberCluster :=
  fold_left (fun m c => <[mc_name c := c]> m) cs ∅.

(** One round of the loop: each list is appended to. *)
Definition classifyBinding (policy : PolicySnapshotObj) (clusterMap : gmap string MemberCluster)
    (acc : classes) (binding : BindingObj) : classes :=
  let 'mkClasses bound scheduled obsolete unscheduled dangling deleting := acc in
  let targetIsGone :=
    match clusterMap !! b_target binding with
    | None => true
    | Some targetCluster => being_deleted (mc_meta targetCluster)
    end in
  if b_deleting binding then
    mkClasses bound scheduled obsolete unscheduled dangling (deleting ++ [binding])
  else if decide (b_state binding = BindingStateUnscheduled) then
    mkClasses bound scheduled obsolete (unscheduled ++ [binding]) dangling deleting
  else if targetIsGone then
    mkClasses bound scheduled obsolete unscheduled (dangling ++ [binding]) deleting
  else if decide (rbs_SchedulingPolicySnapshotName (b_spec binding) <> meta_name (snap_meta policy)) then
    mkClasses bound scheduled (obsolete ++ [binding]) unscheduled dangling deleting
  else if decide (b_state binding = BindingStateScheduled) then
    mkClasses bound (scheduled ++ [binding]) obsolete unscheduled dangling deleting
  else if decide (b_state binding = BindingStateBound) then
    mkClasses (bound ++ [binding]) scheduled obsolete unscheduled dangling deleting
  else acc.

Definition classifyBindings (policy : PolicySnapshotObj) (bindings : list BindingObj)
    (cs : list MemberCluster) : classes :=
  fold_left (classifyBinding policy (clusterMapOf cs)) bindings (mkClasses [] [] [] [] [] []).

(** ** New bindings and patches *)

Record bindingWithPatch : Type := mkPatch {
  updated : BindingObj;
  patch_base : BindingObj;
}.

Section Generate.
Context {K : K8sLib}.

Definition generateBinding (newUUID placementKey clusterName : string) : outcome BindingObj :=
  let! (placementNamespace, placementName) := ExtractNamespaceNameFromKeyStr placementKey in
  match NewBindingName newUUID placementName clusterName with
  | Panic w => Panic w
  | Err err => Err (NewUnexpectedBehaviorError (wrap_error
      "failed to cross reference picked clusters and existing bindings" err))
  | Ok bindingName =>
      Ok (mkBinding
        (new_meta bindingName placementNamespace {[PlacementTrackingLabel := placementName]}
           [SchedulerBindingCleanupFinalizer])
        (mkBindingSpec EmptyString EmptyString [] [] EmptyString EmptyString
           (mkDecision EmptyString false None EmptyString) None)
        (mkBindingStatus [] [] [] []))
  end.

Definition scoredDecision (scored : Score.ScoredCluster) : ClusterDecision :=
  let name := mc_name (Score.Cluster scored) in
  let affinityScore := Score.AffinityScore (Score.sc_Score scored) in
  let topologySpreadScore := Score.TopologySpreadScore (Score.sc_Score scored) in
  mkDecision name true (Some (mkApiScore (Some affinityScore) (Some topologySpreadScore)))
    (resourceScheduleSucceededWithScoreMessage name affinityScore topologySpreadScore).

Definition fixedDecision (clusterName : string) : ClusterDecision :=
  mkDecision clusterName true None (resourceScheduleSucceededMessage clusterName).

(** The three assignments both kinds of patch make. *)
Definition retarget (desiredState : string) (policy : PolicySnapshotObj) (d : ClusterDecision)
    (s : ResourceBindingSpec) : ResourceBindingSpec :=
  mkBindingSpec desiredState (rbs_ResourceSnapshotName s) (rbs_ResourceOverrideSnapshots s)
    (rbs_ClusterResourceOverrideSnapshots s) (meta_name (snap_meta policy)) (rbs_TargetCluster s)
    d (rbs_ApplyStrategy s).

Definition patchBindingFromScoredCluster (binding : BindingObj) (desiredState : string)
    (scored : Score.ScoredCluster) (policy : PolicySnapshotObj) : bindingWithPatch :=
  mkPatch (set_b_spec (retarget desiredState policy (scoredDecision scored) (b_spec binding)) binding) binding.

Definition patchBindingFromFixedCluster (binding : BindingObj) (desiredState clusterName : string)
    (policy : PolicySnapshotObj) : bindingWithPatch :=
  mkPatch (set_b_spec (retarget desiredState policy (fixedDecision clusterName) (b_spec binding)) binding) binding.

Definition newBindingSpec (policy : PolicySnapshotObj) (clusterName : string) (d : ClusterDecision)
    : ResourceBindingSpec :=
  mkBindingSpec BindingStateScheduled EmptyString [] [] (meta_name (snap_meta policy)) clusterName d None.

(** The previous state of an unscheduled binding, with the binding as the
    source leaves it: without the annotation. *)
Definition recoverState (binding : BindingObj) : outcome (string * BindingObj) :=
  match b_annotations binding !! PreviousBindingStateAnnotation with
  | Some previousState =>
      Ok (previousState,
          set_b_annotations (delete PreviousBindingStateAnnotation (b_annotations binding)) binding)
  | None => Err (NewUnexpectedBehaviorError (ErrPlain
      ("failed to find the previous state of an unscheduled binding: " +:+ b_name binding)))
  end.

(** ** Cross reference for the PickAll and PickN types *)

Definition plan : Type := (list BindingObj * list BindingObj * list bindingWithPatch).

Definition pickedMapOf (picked : list Score.ScoredCluster) : gmap string Score.ScoredCluster :=
  fold_left (fun m s => <[mc_name (Score.Cluster s) := s]> m) picked ∅.

Definition crossReferenceObsolete (policy : PolicySnapshotObj)
    (pickedMap : gmap string Score.ScoredCluster)
    (acc : list BindingObj * list bindingWithPatch * gset string) (binding : BindingObj)
    : list BindingObj * list bindingWithPatch * gset string :=
  let '(toDelete, toPatch, checked) := acc in
  let checked := {[b_target binding]} ∪ checked in
  match pickedMap !! b_target binding with
  | None => (toDelete ++ [binding], toPatch, checked)
  | Some scored =>
      (toDelete,
       toPatch ++ [patchBindingFromScoredCluster binding (b_state binding) scored policy], checked)
  end.

Definition crossReferenceUnscheduled (policy : PolicySnapshotObj)
    (pickedMap : gmap string Score.ScoredCluster)
    (acc : list bindingWithPatch * gset string) (binding : BindingObj)
    : outcome (list bindingWithPatch * gset string) :=
  let '(toPatch, checked) := acc in
  let checked := {[b_target binding]} ∪ checked in
  match pickedMap !! b_target binding with
  | None => Ok (toPatch, checked)
  | Some scored =>
      let! (desiredState, binding) := recoverState binding in
      Ok (toPatch ++ [patchBindingFromScoredCluster binding desiredState scored policy], checked)
  end.

Definition createForScored (uuids : nat -> string) (placementKey : string)
    (policy : PolicySnapshotObj) (checked : gset string) (toCreate : list BindingObj)
    (scored : Score.ScoredCluster) : outcome (list BindingObj) :=
  let name := mc_name (Score.Cluster scored) in
  if decide (name ∈ checked) then Ok toCreate
  else
    let! binding := owrap ("failed to generate binding for cluster " +:+ go_quote name)
      (generateBinding (uuids (length toCreate)) placementKey name) in
    Ok (toCreate ++ [set_b_spec (newBindingSpec policy name (scoredDecision scored)) binding]).

Definition crossReferencePickedClustersAndDeDupBindings (uuids : nat -> string) (placementKey : string)
    (policy : PolicySnapshotObj) (picked : list Score.ScoredCluster)
    (unscheduled obsolete : list BindingObj) : outcome plan :=
  let pickedMap := pickedMapOf picked in
  let '(toDelete, toPatch, checked) :=
    fold_left (crossReferenceObsolete policy pickedMap) obsolete ([], [], ∅) in
  let! (toPatch, checked) := ofold (crossReferenceUnscheduled policy pickedMap) (toPatch, checked) unscheduled in
  let! toCreate := ofold (createForScored uuids placementKey policy checked) [] picked in
  Ok (toCreate, toDelete, toPatch).

(** ** Cross reference for the PickFixed type *)

(** The objects in the map are shared: recovering a state removes the
    annotation from the object that a later round would look up again. *)
Definition crossReferenceValid (uuids : nat -> string) (placementKey : string)
    (policy : PolicySnapshotObj) (scheduledOrBoundClusterMap : gset string)
    (obsoleteClusterMap : gmap string BindingObj)
    (acc : list BindingObj * list bindingWithPatch * gmap string BindingObj) (cluster : MemberCluster)
    : outcome (list BindingObj * list bindingWithPatch * gmap string BindingObj) :=
  let '(toCreate, toPatch, unscheduledClusterMap) := acc in
  let name := mc_name cluster in
  if decide (name ∈ scheduledOrBoundClusterMap) then Ok acc
  else
  match obsoleteClusterMap !! name with
  | Some obsoleteBinding =>
      Ok (toCreate,
          toPatch ++ [patchBindingFromFixedCluster obsoleteBinding (b_state obsoleteBinding) name policy],
          unscheduledClusterMap)
  | None =>
      match unscheduledClusterMap !! name with
      | Some unscheduledBinding =>
          let! (desiredState, binding) := recoverState unscheduledBinding in
          Ok (toCreate, toPatch ++ [patchBindingFromFixedCluster binding desiredState name policy],
              <[name := binding]> unscheduledClusterMap)
      | None =>
          let! binding := owrap "failed to generate binding"
            (generateBinding (uuids (length toCreate)) placementKey name) in
          Ok (toCreate ++ [set_b_spec (newBindingSpec policy name (fixedDecision name)) binding],
              toPatch, unscheduledClusterMap)
      end
  end.

Definition targetMapOf (bindings : list BindingObj) : gmap string BindingObj :=
  fold_left (fun m b => <[b_target b := b]> m) bindings ∅.

Definition crossReferenceValidTargetsWithBindings (uuids : nat -> string) (placementKey : string)
    (policy : PolicySnapshotObj) (valid : list MemberCluster)
    (bound scheduled unscheduled obsolete : list BindingObj) : outcome plan :=
  let scheduledOrBoundClusterMap := list_to_set ((b_target <$> scheduled) ++ (b_target <$> bound)) in
  let validTargetMap : gset string := list_to_set (mc_name <$> valid) in
  let! (toCreate, toPatch, _) :=
    ofold (crossReferenceValid uuids placementKey policy scheduledOrBoundClusterMap (targetMapOf obsolete))
      ([], [], targetMapOf unscheduled) valid in
  let toDelete := filter (fun b => b_target b ∉ validTargetMap) obsolete in
  Ok (toCreate, toDelete, toPatch).

End Generate.

(** ** Picking, scaling and batching *)

Definition shouldDownscale (policy : PolicySnapshotObj) (desired present obsolete : Z) : outcome (bool * Z) :=
  match sps_Policy (snap_spec policy) with
  | None => nil_dereference
  | Some p =>
      if bool_decide (pol_PlacementType p = PickNPlacementType) && (desired <=? present)%Z &&
         (0 <? present - desired + obsolete)%Z
      then Ok (true, (present - desired)%Z)
      else Ok (false, 0%Z)
  end.

(** The score of a binding, as [sortByClusterScoreAndName] compares it. *)
Definition bindingScore (s : ClusterScore) : Score.ClusterScore :=
  Score.mkScore (default 0%Z (cs_TopologySpreadScore s)) (default 0%Z (cs_AffinityScore s)) 0.

Definition bindingLess (a b : BindingObj) : bool :=
  match cd_ClusterScore (rbs_ClusterDecision (b_spec a)), cd_ClusterScore (rbs_ClusterDecision (b_spec b)) with
  | None, None => str_lt (b_target a) (b_target b)
  | None, Some _ => true
  | Some _, None => false
  | Some scoreA, Some scoreB =>
      if Score.Equal (Some (bindingScore scoreA)) (Some (bindingScore scoreB))
      then str_lt (b_target a) (b_target b)
      else Score.Less (bindingScore scoreA) (bindingScore scoreB)
  end.

(** A comparison dereferences both parts of an assigned score. *)
Definition scoreComplete (b : BindingObj) : bool :=
  match cd_ClusterScore (rbs_ClusterDecision (b_spec b)) with
  | Some (mkApiScore (Some _) (Some _)) | None => true
  | Some _ => false
  end.

Definition isScored (b : BindingObj) : bool :=
  match cd_ClusterScore (rbs_ClusterDecision (b_spec b)) with Some _ => true | None => false end.

(** A comparison sort compares each of two or more scored bindings with
    another of them, so a score with a nil part panics. *)
Definition sortByClusterScoreAndName (bindings : list BindingObj) : outcome (list BindingObj) :=
  if (2 <=? length (filter (fun b => isScored b = true) bindings))%nat && negb (forallb scoreComplete bindings)
  then nil_dereference
  else Ok (go_sort bindingLess bindings).

Definition shouldSchedule (desiredCount existingCount : Z) : bool := (existingCount <? desiredCount)%Z.

Definition calcNumOfClustersToSelect (desired limit scored : Z) : Z :=
  let num := desired in
  let num := if (limit <? num)%Z then limit else num in
  if (scored <? num)%Z then scored else num.

(** [scoredClusters[:N]] panics for a negative [N]. *)
Definition pickTopNScoredClusters (scoredClusters : list Score.ScoredCluster) (N : Z)
    : outcome (list Score.ScoredCluster * list Score.ScoredCluster) :=
  let sorted := go_sort (reverse_less Score.ScoredClusters_Less) scoredClusters in
  if (Z.of_nat (length sorted) =? 0)%Z || (N =? 0)%Z then Ok ([], sorted)
  else if (Z.of_nat (length sorted) <=? N)%Z then Ok (sorted, [])
  else if (N <? 0)%Z then Panic "slice bounds out of range"
  else Ok (take (Z.to_nat N) sorted, drop (Z.to_nat N) sorted).

Definition shouldRequeue (desiredBatchSize batchSizeLimit bindingCount : Z) : bool :=
  (batchSizeLimit <? desiredBatchSize)%Z && (bindingCount =? batchSizeLimit)%Z.

(** ** What is reported in the policy snapshot *)

Record filteredClusterWithStatus : Type := mkFiltered {
  fc_cluster : MemberCluster;
  fc_status : Status;
}.

Record invalidClusterWithReason : Type := mkInvalid {
  ic_cluster : MemberCluster;
  ic_reason : string;
}.

(** The loop over the binding sets: it stops once the API limit is reached. *)
Fixpoint decisionsFromBindings (existing : list (list BindingObj)) (slotsLeft : Z)
    (newDecisions : list ClusterDecision) (seenClusters : gset string)
    : list ClusterDecision * gset string * Z :=
  match existing with
  | [] => (newDecisions, seenClusters, slotsLeft)
  | bindingSet :: rest =>
      let taken := take (Z.to_nat slotsLeft) bindingSet in
      let newDecisions := newDecisions ++ ((fun b => rbs_ClusterDecision (b_spec b)) <$> taken) in
      let seenClusters := list_to_set (b_target <$> taken) ∪ seenClusters in
      let slotsLeft := (slotsLeft - Z.of_nat (length bindingSet))%Z in
      if (slotsLeft <=? 0)%Z then (newDecisions, seenClusters, slotsLeft)
      else decisionsFromBindings rest slotsLeft newDecisions seenClusters
  end.

Definition notPickedDecision (sc : Score.ScoredCluster) : ClusterDecision :=
  let name := mc_name (Score.Cluster sc) in
  let affinity := Score.AffinityScore (Score.sc_Score sc) in
  let topology := Score.TopologySpreadScore (Score.sc_Score sc) in
  mkDecision name false (Some (mkApiScore (Some affinity) (Some topology)))
    (notPickedByScoreReason name affinity topology).

Fixpoint decisionsFromNotPicked (notPicked : list Score.ScoredCluster) (seenClusters : gset string)
    (slotsLeft maxUnselected : Z) (newDecisions : list ClusterDecision)
    : list ClusterDecision * Z * Z :=
  match notPicked with
  | [] => (newDecisions, slotsLeft, maxUnselected)
  | sc :: rest =>
      if (slotsLeft =? 0)%Z || (maxUnselected =? 0)%Z then (newDecisions, slotsLeft, maxUnselected)
      else if decide (mc_name (Score.Cluster sc) ∈ seenClusters) then
        decisionsFromNotPicked rest seenClusters slotsLeft maxUnselected newDecisions
      else
        decisionsFromNotPicked rest seenClusters (slotsLeft - 1) (maxUnselected - 1)
          (newDecisions ++ [notPickedDecision sc])
  end.

(** The loop over indexes of the filtered clusters. *)
Definition decisionsFromFiltered (filtered : list filteredClusterWithStatus) (seenClusters : gset string)
    (slotsLeft maxUnselected : Z) : list ClusterDecision :=
  (fun f => mkDecision (mc_name (fc_cluster f)) false None (Status_String (fc_status f))) <$>
  filter (fun f => mc_name (fc_cluster f) ∉ seenClusters)
    (take (Z.to_nat (Z.min maxUnselected slotsLeft)) filtered).

Definition newSchedulingDecisionsFromBindings (maxUnselectedClusterDecisionCount : Z)
    (notPicked : list Score.ScoredCluster) (filtered : list filteredClusterWithStatus)
    (existing : list (list BindingObj)) : list ClusterDecision :=
  let '(newDecisions, seenClusters, slotsLeft) :=
    decisionsFromBindings existing clustersDecisionArrayLengthLimitInAPI [] ∅ in
  let '(newDecisions, slotsLeft, maxUnselected) :=
    decisionsFromNotPicked notPicked seenClusters slotsLeft maxUnselectedClusterDecisionCount newDecisions in
  newDecisions ++ decisionsFromFiltered filtered seenClusters slotsLeft maxUnselected.

Definition newScheduledCondition (policy : PolicySnapshotObj) (status : ConditionStatus)
    (reason message : string) : Condition :=
  mkCondition PolicySnapshotScheduled status (meta_generation (snap_meta policy)) 0 reason message.

Definition newScheduledConditionFromBindings (policy : PolicySnapshotObj) (numOfClusters : Z)
    (existing : list (list BindingObj)) : Condition :=
  let count := fold_left (fun n s => (n + Z.of_nat (length s))%Z) existing 0%Z in
  if (count <? numOfClusters)%Z then
    newScheduledCondition policy ConditionFalse NotFullyScheduledReason (notFullyScheduledMessage count)
  else
    newScheduledCondition policy ConditionTrue FullyScheduledReason (fullyScheduledMessage count).

Definition newSchedulingDecisionsForPickFixedPlacementType (valid : list MemberCluster)
    (invalid : list invalidClusterWithReason) (notFound : list string) : list ClusterDecision :=
  ((fun c => mkDecision (mc_name c) true None (resourceScheduleSucceededMessage (mc_name c))) <$> valid) ++
  ((fun i => mkDecision (mc_name (ic_cluster i)) false None
      (pickFixedInvalidClusterReason (mc_name (ic_cluster i)) (ic_reason i))) <$> invalid) ++
  ((fun n => mkDecision n false None (pickFixedNotFoundClusterReason n)) <$> notFound).

Definition decisionMapOf (ds : list ClusterDecision) : gmap string ClusterDecision :=
  fold_left (fun m d => <[cd_ClusterName d := d]> m) ds ∅.

Definition equalDecisions (current desired : list ClusterDecision) : bool :=
  if negb (length current =? length desired)%nat then false
  else forallb (fun d => bool_decide (decisionMapOf desired !! cd_ClusterName d = Some d)) current.
