(* ===== verification/FrameworkUtilsProofs.v ===== *)
(** * Theorems on planning a scheduling cycle

    Classification is a partition, the pick is a deterministic top N, the
    reported decisions stay within the API limit as long as the bindings do,
    and the two cross references are characterised exactly: which clusters
    get a new binding, which bindings are patched and which are unscheduled. *)

From stdpp Require Import prelude gmap strings sorting.
From S2P Require Import Prelude K8s Api Sample Utils Score CycleState FrameworkUtils.

Local Open Scope string_scope.
Local Open Scope list_scope.

(** ** Classification *)

Inductive bindingClass : Set :=
| ClassBound | ClassScheduled | ClassObsolete | ClassUnscheduled | ClassDangling | ClassDeleting.

#[global] Instance bindingClass_eq_dec : EqDecision bindingClass.
Proof. solve_decision. Defined.

(** The cluster is absent from the list, or leaving. *)
Definition isGone (cs : list MemberCluster) (name : string) : bool :=
  match clusterMapOf cs !! name with
  | None => true
  | Some c => being_deleted (mc_meta c)
  end.

(** The class of one binding; none for a state outside the API. *)
Definition classOf (policy : PolicySnapshotObj) (cs : list MemberCluster) (b : BindingObj)
    : option bindingClass :=
  if b_deleting b then Some ClassDeleting
  else if decide (b_state b = BindingStateUnscheduled) then Some ClassUnscheduled
  else if isGone cs (b_target b) then Some ClassDangling
  else if decide (rbs_SchedulingPolicySnapshotName (b_spec b) <> meta_name (snap_meta policy))
    then Some ClassObsolete
  else if decide (b_state b = BindingStateScheduled) then Some ClassScheduled
  else if decide (b_state b = BindingStateBound) then Some ClassBound
  else None.

Definition ofClass policy cs (k : bindingClass) (bs : list BindingObj) : list BindingObj :=
  filter (fun b => classOf policy cs b = Some k) bs.

Lemma ofClass_snoc policy cs k bs b :
  ofClass policy cs k (bs ++ [b]) =
  ofClass policy cs k bs ++ (if decide (classOf policy cs b = Some k) then [b] else []).
Proof. unfold ofClass. by rewrite filter_app, filter_cons, filter_nil. Qed.

Lemma classifyBindings_filter policy bs cs :
  classifyBindings policy bs cs =
  mkClasses (ofClass policy cs ClassBound bs) (ofClass policy cs ClassScheduled bs)
    (ofClass policy cs ClassObsolete bs) (ofClass policy cs ClassUnscheduled bs)
    (ofClass policy cs ClassDangling bs) (ofClass policy cs ClassDeleting bs).
Proof.
  unfold classifyBindings. induction bs as [|b bs IH] using rev_ind; [done|].
  rewrite fold_left_app. cbn [fold_left]. rewrite IH, !ofClass_snoc.
  unfold classifyBinding, classOf, isGone.
  destruct (b_deleting b); [by rewrite !app_nil_r|].
  destruct (decide (b_state b = BindingStateUnscheduled)); [by rewrite !app_nil_r|].
  destruct (match clusterMapOf cs !! b_target b with Some _ => _ | None => _ end); [by rewrite !app_nil_r|].
  destruct (decide (_ <> _)); [by rewrite !app_nil_r|].
  destruct (decide (b_state b = BindingStateScheduled)); [by rewrite !app_nil_r|].
  destruct (decide (b_state b = BindingStateBound)); by rewrite !app_nil_r.
Qed.

Lemma filter_class_perm policy cs bs :
  Forall (fun b => is_Some (classOf policy cs b)) bs ->
  ofClass policy cs ClassBound bs ++ ofClass policy cs ClassScheduled bs ++
  ofClass policy cs ClassObsolete bs ++ ofClass policy cs ClassUnscheduled bs ++
  ofClass policy cs ClassDangling bs ++ ofClass policy cs ClassDeleting bs ≡ₚ bs.
Proof.
  induction 1 as [|b bs [k Hk] _ IH]; [done|]. unfold ofClass in *. rewrite !filter_cons, !Hk.
  destruct k; repeat (rewrite decide_True by done || rewrite decide_False by done);
    (etransitivity; [|apply Permutation_skip; exact IH]); solve_Permutation.
Qed.

Lemma classOf_Some policy cs b :
  is_Some (classOf policy cs b) <->
  b_deleting b = true \/ isGone cs (b_target b) = true \/
  rbs_SchedulingPolicySnapshotName (b_spec b) <> meta_name (snap_meta policy) \/
  b_state b ∈ [BindingStateScheduled; BindingStateBound; BindingStateUnscheduled].
Proof.
  unfold classOf. rewrite !elem_of_cons.
  destruct (b_deleting b); [naive_solver|].
  destruct (decide (b_state b = BindingStateUnscheduled)); [naive_solver|].
  destruct (isGone cs (b_target b)); [naive_solver|].
  destruct (decide (_ <> _)); [naive_solver|].
  destruct (decide (b_state b = BindingStateScheduled)); [naive_solver|].
  destruct (decide (b_state b = BindingStateBound)); [naive_solver|].
  split; [by intros [? ?]|]. intros [?|[?|[?|[?|[?|[?|?%not_elem_of_nil]]]]]]; first [congruence|tauto].
Qed.

(** classification splits the bindings of a placement into the six
    lists by [classOf], keeping their order: no binding is lost, duplicated
    or put in two lists, whatever their states, as long as those are states
    of the API. *)
Theorem classifyBindings_partition policy bs cs :
  Forall (fun b => b_state b ∈ [BindingStateScheduled; BindingStateBound; BindingStateUnscheduled]) bs ->
  let c := classifyBindings policy bs cs in
  c = mkClasses (ofClass policy cs ClassBound bs) (ofClass policy cs ClassScheduled bs)
    (ofClass policy cs ClassObsolete bs) (ofClass policy cs ClassUnscheduled bs)
    (ofClass policy cs ClassDangling bs) (ofClass policy cs ClassDeleting bs) /\
  cl_bound c ++ cl_scheduled c ++ cl_obsolete c ++ cl_unscheduled c ++ cl_dangling c ++ cl_deleting c ≡ₚ bs.
Proof.
  intros Hs c. subst c. rewrite classifyBindings_filter. split; [done|].
  apply filter_class_perm. eapply Forall_impl; [exact Hs|].
  intros b Hb. apply classOf_Some. auto.
Qed.

Lemma classifyBindings_partition_witness :
  let bs := [Sample.binding "b1" "c1" "p" BindingStateBound; Sample.binding "b2" "c2" "old" BindingStateScheduled] in
  let c := classifyBindings (Sample.snapshot "p" None) bs [Sample.cluster "c1" ∅ 0; Sample.cluster "c2" ∅ 0] in
  cl_bound c ++ cl_scheduled c ++ cl_obsolete c ++ cl_unscheduled c ++ cl_dangling c ++ cl_deleting c ≡ₚ bs.
Proof. apply classifyBindings_partition. by_decide. Defined.

(** ** The pick *)

(** The order clusters are picked in: [a] before [b]. *)
Definition ranks (a b : Score.ScoredCluster) : Prop :=
  Score.ScoredClusters_Less a b = false.

Lemma pick_sorted l : StronglySorted ranks (go_sort (reverse_less Score.ScoredClusters_Less) l).
Proof. apply (go_sort_sorted (reverse_less Score.ScoredClusters_Less)). Qed.

Lemma StronglySorted_app_cross {A} (R : A -> A -> Prop) l1 l2 x y :
  StronglySorted R (l1 ++ l2) -> x ∈ l1 -> y ∈ l2 -> R x y.
Proof.
  induction l1 as [|a l1 IH]; cbn; intros Hs Hx Hy; [by apply not_elem_of_nil in Hx|].
  apply StronglySorted_inv in Hs as [Hs Ha]. apply elem_of_cons in Hx as [->|Hx]; [|by apply IH].
  rewrite Forall_forall in Ha. apply Ha. apply elem_of_app. by right.
Qed.

Lemma pickTopN_spec l N :
  (0 <= N)%Z ->
  exists picked notPicked, pickTopNScoredClusters l N = Ok (picked, notPicked) /\
    picked ++ notPicked = go_sort (reverse_less Score.ScoredClusters_Less) l /\
    length picked = Z.to_nat N `min` length l.
Proof.
  intros HN. unfold pickTopNScoredClusters.
  pose proof (go_sort_length (reverse_less Score.ScoredClusters_Less) l) as Hlen.
  set (sorted := go_sort _ l) in *. rewrite Hlen.
  destruct (Z.eqb_spec (Z.of_nat (length l)) 0); cbn.
  { exists [], sorted. split_and!; [done|done|cbn; lia]. }
  destruct (Z.eqb_spec N 0); cbn.
  { exists [], sorted. split_and!; [done|done|cbn; lia]. }
  destruct (Z.leb_spec (Z.of_nat (length l)) N).
  { exists sorted, []. rewrite app_nil_r. split_and!; [done|done|lia]. }
  destruct (Z.ltb_spec N 0); [lia|].
  eexists _, _. split; [done|]. rewrite take_drop. split; [done|]. rewrite length_take. lia.
Qed.

(** picking selects the N best: the result splits the clusters into
    picked and not picked, exactly N are picked (or all, when there are fewer),
    and no picked cluster ranks below one that is not. *)
Theorem pickTopN_best l N :
  (0 <= N)%Z ->
  exists picked notPicked, pickTopNScoredClusters l N = Ok (picked, notPicked) /\
    picked ++ notPicked ≡ₚ l /\ length picked = Z.to_nat N `min` length l /\
    forall a b, a ∈ picked -> b ∈ notPicked -> Score.ScoredClusters_Less a b = false.
Proof.
  intros HN. destruct (pickTopN_spec l N HN) as (p & np & Heq & Happ & Hlen).
  exists p, np. split_and!; [done| |done|].
  - rewrite Happ. apply go_sort_perm.
  - intros a b Ha Hb. pose proof (pick_sorted l) as Hs. rewrite <- Happ in Hs.
    by apply (StronglySorted_app_cross ranks p np).
Qed.

(** the pick does not depend on the order the clusters are listed in,
    as long as no two clusters share a name: ties in the score are broken by
    the name alone. *)
Theorem pickTopN_deterministic l1 l2 N :
  l1 ≡ₚ l2 -> NoDup ((fun s => mc_name (Score.Cluster s)) <$> l1) ->
  pickTopNScoredClusters l1 N = pickTopNScoredClusters l2 N.
Proof.
  intros HP Hnd. unfold pickTopNScoredClusters.
  assert (go_sort (reverse_less Score.ScoredClusters_Less) l1 =
          go_sort (reverse_less Score.ScoredClusters_Less) l2) as ->; [|done].
  apply (go_sort_Permutation_eq (reverse_less Score.ScoredClusters_Less)); [|exact HP].
  intros a b Ha Hb H1 H2. unfold reverse_less in *.
  destruct (Score.ScoredClusters_Less_antisym a b) as [_ Hname]; [done|done|].
  by eapply (NoDup_fmap_eq (fun s => mc_name (Score.Cluster s))).
Qed.

Definition ex_scored (name : string) (affinity : Z) : Score.ScoredCluster :=
  Score.mkScored (Sample.cluster name ∅ 0) (Score.mkScore 0 affinity 0).

Definition ex_ranking : list Score.ScoredCluster :=
  [ex_scored "a" 1; ex_scored "b" 5; ex_scored "c" 5].

Lemma pickTopN_best_witness :
  exists picked notPicked, pickTopNScoredClusters ex_ranking 2 = Ok (picked, notPicked) /\
    length picked = 2.
Proof.
  destruct (pickTopN_best ex_ranking 2) as (p & np & Heq & _ & Hlen & _); [lia|].
  exists p, np. split; [exact Heq|exact Hlen].
Defined.

Lemma pickTopN_deterministic_witness :
  pickTopNScoredClusters ex_ranking 2 = pickTopNScoredClusters (reverse ex_ranking) 2.
Proof.
  apply pickTopN_deterministic; [apply Permutation_rev|by_decide].
Defined.

(** ** Reported decisions *)

Lemma decisionMapOf_snoc ds d :
  decisionMapOf (ds ++ [d]) = <[cd_ClusterName d := d]> (decisionMapOf ds).
Proof. unfold decisionMapOf. by rewrite fold_left_app. Qed.

Lemma decisionMapOf_Some ds n d :
  decisionMapOf ds !! n = Some d -> d ∈ ds /\ cd_ClusterName d = n.
Proof.
  induction ds as [|d' ds IH] using rev_ind; [unfold decisionMapOf; cbn; by rewrite lookup_empty|].
  rewrite decisionMapOf_snoc, elem_of_app.
  intros [[<- <-]|[_ H]]%lookup_insert_Some; [split; [right; by left|done]|].
  destruct (IH H). auto.
Qed.

Lemma decisionMapOf_NoDup ds d :
  NoDup (cd_ClusterName <$> ds) -> d ∈ ds -> decisionMapOf ds !! cd_ClusterName d = Some d.
Proof.
  intros Hnd Hd. induction ds as [|d' ds IH] using rev_ind; [by apply not_elem_of_nil in Hd|].
  rewrite decisionMapOf_snoc. rewrite fmap_app in Hnd.
  apply NoDup_app in Hnd as (Hnd & Hdisj & _).
  apply elem_of_app in Hd as [Hd|Hd%list_elem_of_singleton].
  - rewrite lookup_insert_ne; [by apply IH|]. intros E.
    apply (Hdisj (cd_ClusterName d)); [by apply list_elem_of_fmap_2|].
    rewrite <- E. by left.
  - subst. by rewrite lookup_insert_eq.
Qed.

Lemma equalDecisions_true current desired :
  equalDecisions current desired = true <->
  length current = length desired /\
  forall d, d ∈ current -> decisionMapOf desired !! cd_ClusterName d = Some d.
Proof.
  unfold equalDecisions. destruct (Nat.eqb_spec (length current) (length desired)) as [E|E]; cbn; [|naive_solver].
  rewrite forallb_forall. split.
  - intros H. split; [done|]. intros d Hd%list_elem_of_In. specialize (H d Hd).
    by apply bool_decide_eq_true in H.
  - intros [_ H] d Hd%list_elem_of_In. apply bool_decide_eq_true. auto.
Qed.

(** when the decisions already in the status name each cluster once,
    [equalDecisions] answers exactly whether the two lists hold the same
    decisions, in any order. *)
Theorem equalDecisions_spec current desired :
  NoDup (cd_ClusterName <$> current) ->
  equalDecisions current desired = true <-> current ≡ₚ desired.
Proof.
  intros Hnd. rewrite equalDecisions_true. split.
  - intros [Hlen Hin]. apply submseteq_length_Permutation; [|lia].
    apply NoDup_submseteq; [by eapply NoDup_fmap_1|].
    intros d Hd. by apply (decisionMapOf_Some desired (cd_ClusterName d)), Hin.
  - intros HP. split; [by rewrite HP|]. intros d Hd. apply decisionMapOf_NoDup.
    + by rewrite <- HP.
    + by rewrite <- HP.
Qed.

Lemma equalDecisions_spec_witness :
  equalDecisions [Sample.decision "a"; Sample.decision "b"] [Sample.decision "b"; Sample.decision "a"] = true.
Proof. apply equalDecisions_spec; [by_decide|]. apply perm_swap. Defined.

(** with a cluster named twice in the status, [equalDecisions] calls two
    lists equal although a desired decision is missing from the status, so the
    status is not refreshed. *)
Theorem equalDecisions_duplicate a b :
  cd_ClusterName a <> cd_ClusterName b ->
  equalDecisions [a; a] [a; b] = true /\ b ∉ [a; a].
Proof.
  intros Hne. split.
  - apply equalDecisions_true. split; [done|]. intros d Hd. unfold decisionMapOf; cbn.
    assert (d = a) as -> by set_solver.
    rewrite lookup_insert_ne by done. by rewrite lookup_insert_eq.
  - set_solver.
Qed.

Lemma equalDecisions_duplicate_witness :
  equalDecisions [Sample.decision "a"; Sample.decision "a"] [Sample.decision "a"; Sample.decision "b"] = true.
Proof. apply equalDecisions_duplicate. discriminate. Defined.

Fixpoint totalLength (existing : list (list BindingObj)) : Z :=
  match existing with
  | [] => 0
  | s :: r => Z.of_nat (length s) + totalLength r
  end%Z.

Definition bindingDecisions (existing : list (list BindingObj)) : list ClusterDecision :=
  (fun b => rbs_ClusterDecision (b_spec b)) <$> mjoin existing.

Lemma totalLength_nonneg existing : (0 <= totalLength existing)%Z.
Proof. induction existing; cbn; lia. Qed.

Lemma totalLength_zero existing : totalLength existing = 0%Z -> mjoin existing = [].
Proof.
  induction existing as [|s r IH]; cbn; [done|]. intros H. pose proof (totalLength_nonneg r).
  destruct s; [|cbn in H; lia]. cbn. apply IH. cbn in H. lia.
Qed.

Lemma decisionsFromBindings_fits existing slots acc seen :
  (totalLength existing <= slots)%Z ->
  decisionsFromBindings existing slots acc seen =
  (acc ++ bindingDecisions existing, list_to_set (b_target <$> mjoin existing) ∪ seen,
   (slots - totalLength existing)%Z).
Proof.
  unfold bindingDecisions.
  revert slots acc seen. induction existing as [|s r IH]; intros slots acc seen Hle;
    cbn [totalLength decisionsFromBindings] in *.
  { cbn. rewrite app_nil_r. f_equal; [f_equal; set_solver|lia]. }
  change (mjoin (s :: r)) with (s ++ mjoin r).
  pose proof (totalLength_nonneg r).
  rewrite (firstn_all2 s) by lia. rewrite !fmap_app, list_to_set_app_L.
  destruct (Z.leb_spec (slots - Z.of_nat (length s)) 0).
  - assert (totalLength r = 0%Z) as Hr by lia. rewrite (totalLength_zero r Hr), Hr. cbn.
    rewrite app_nil_r. f_equal; [f_equal; set_solver|lia].
  - rewrite IH by lia. rewrite <- app_assoc. f_equal; [f_equal; set_solver|lia].
Qed.

Lemma decisionsFromNotPicked_fits notPicked seen slots maxU acc :
  (0 <= slots)%Z -> (0 <= maxU)%Z ->
  exists new, decisionsFromNotPicked notPicked seen slots maxU acc =
    (acc ++ new, (slots - Z.of_nat (length new))%Z, (maxU - Z.of_nat (length new))%Z) /\
    (Z.of_nat (length new) <= Z.min slots maxU)%Z /\
    Forall (fun d => cd_Selected d = false /\ cd_ClusterName d ∉ seen) new.
Proof.
  revert slots maxU acc. induction notPicked as [|sc r IH]; intros slots maxU acc Hs Hm; cbn.
  { exists []. rewrite app_nil_r. split_and!; [f_equal; [f_equal|]; cbn; lia|cbn; lia|done]. }
  destruct (Z.eqb_spec slots 0), (Z.eqb_spec maxU 0); cbn;
    try (exists []; rewrite app_nil_r; split_and!; [f_equal; [f_equal|]; cbn; lia|cbn; lia|done]).
  destruct (decide (_ ∈ seen)) as [Hin|Hin]; [by apply IH|].
  destruct (IH (slots - 1)%Z (maxU - 1)%Z (acc ++ [notPickedDecision sc])) as (new & Heq & Hlen & Hf);
    [lia|lia|].
  exists (notPickedDecision sc :: new). rewrite Heq, <- app_assoc. cbn [app length].
  split_and!; [f_equal; [f_equal|]; lia|lia|]. by constructor.
Qed.

(** as long as a placement has no more bindings than the API allows
    decisions, every binding's decision is reported, first and in order; the
    decisions for clusters that were not selected follow, no more than the
    configured number of them and never for a cluster that has a binding; and
    the whole list respects the limit of the API. *)
Theorem newSchedulingDecisions_fit maxUnselected notPicked filtered existing :
  (0 <= maxUnselected)%Z -> (totalLength existing <= clustersDecisionArrayLengthLimitInAPI)%Z ->
  exists rest,
    newSchedulingDecisionsFromBindings maxUnselected notPicked filtered existing =
      bindingDecisions existing ++ rest /\
    (Z.of_nat (length rest) <= maxUnselected)%Z /\
    Forall (fun d => cd_Selected d = false /\ cd_ClusterName d ∉ (b_target <$> mjoin existing)) rest /\
    (Z.of_nat (length (newSchedulingDecisionsFromBindings maxUnselected notPicked filtered existing)) <=
      clustersDecisionArrayLengthLimitInAPI)%Z.
Proof.
  intros Hmax Htot. unfold newSchedulingDecisionsFromBindings.
  rewrite decisionsFromBindings_fits by done.
  set (seen := list_to_set (b_target <$> mjoin existing) ∪ ∅).
  destruct (decisionsFromNotPicked_fits notPicked seen
    (clustersDecisionArrayLengthLimitInAPI - totalLength existing) maxUnselected
    ([] ++ bindingDecisions existing)) as (new & -> & Hlen & Hnew); [lia|done|].
  set (slots := (_ - _ - _)%Z). set (maxU := (maxUnselected - _)%Z).
  set (fs := decisionsFromFiltered filtered seen slots maxU).
  assert (Z.of_nat (length fs) <= Z.max 0 (Z.min maxU slots))%Z as Hfs.
  { subst fs. unfold decisionsFromFiltered. rewrite length_fmap.
    etrans; [apply inj_le, length_filter|]. rewrite length_take. lia. }
  assert (Z.of_nat (length (bindingDecisions existing)) = totalLength existing) as Hb.
  { unfold bindingDecisions. rewrite length_fmap. clear. induction existing as [|s r IH]; [done|].
    change (mjoin (s :: r)) with (s ++ mjoin r). rewrite length_app. cbn [totalLength]. lia. }
  exists (new ++ fs). rewrite <- app_assoc. cbn [app]. split; [done|].
  rewrite !length_app. split_and!; [lia| |lia].
  apply Forall_app. split.
  - eapply Forall_impl; [exact Hnew|]. intros d [? Hd]. split; [done|]. set_solver.
  - subst fs. unfold decisionsFromFiltered. apply Forall_fmap, Forall_forall.
    intros f [Hf _]%list_elem_of_filter. split; [done|]. cbn. set_solver.
Qed.

Lemma newSchedulingDecisions_fit_witness :
  exists rest,
    newSchedulingDecisionsFromBindings 1 ex_ranking [] [[Sample.binding "b" "a" "p" BindingStateBound]] =
    [Sample.decision "a"] ++ rest /\ (Z.of_nat (length rest) <= 1)%Z.
Proof.
  destruct (newSchedulingDecisions_fit 1 ex_ranking [] [[Sample.binding "b" "a" "p" BindingStateBound]])
    as (rest & Heq & Hlen & _); [lia|vm_compute; discriminate|].
  exists rest. split; [exact Heq|exact Hlen].
Defined.

Lemma decisionsFromNotPicked_negative sc seen slots maxU acc :
  (slots < 0)%Z -> (0 < maxU)%Z -> mc_name (Score.Cluster sc) ∉ seen ->
  decisionsFromNotPicked [sc] seen slots maxU acc =
  (acc ++ [notPickedDecision sc], (slots - 1)%Z, (maxU - 1)%Z).
Proof.
  intros Hs Hm Hin. cbn. rewrite (proj2 (Z.eqb_neq slots 0)), (proj2 (Z.eqb_neq maxU 0)) by lia. cbn.
  by rewrite decide_False.
Qed.

(** with more bindings than the limit, the count of free slots turns
    negative and the loop over the clusters that were not picked, which stops
    at exactly zero, goes on: the list is longer than the API accepts. *)
Theorem newSchedulingDecisions_overflow maxUnselected sc bs :
  (0 < maxUnselected)%Z ->
  (clustersDecisionArrayLengthLimitInAPI < Z.of_nat (length bs))%Z ->
  mc_name (Score.Cluster sc) ∉ (b_target <$> bs) ->
  (clustersDecisionArrayLengthLimitInAPI <
   Z.of_nat (length (newSchedulingDecisionsFromBindings maxUnselected [sc] [] [bs])))%Z.
Proof.
  unfold clustersDecisionArrayLengthLimitInAPI. intros Hm Hlen Hin.
  unfold newSchedulingDecisionsFromBindings, clustersDecisionArrayLengthLimitInAPI.
  cbn [decisionsFromBindings]. rewrite (proj2 (Z.leb_le _ 0)) by lia.
  rewrite decisionsFromNotPicked_negative; [|lia|done|].
  - rewrite !length_app, length_fmap, length_take. cbn [length]. lia.
  - intros Hc. apply Hin. apply elem_of_union in Hc as [Hc|Hc]; [|set_solver].
    apply elem_of_list_to_set, list_elem_of_fmap in Hc as (b & Hb & Hc).
    rewrite Hb. apply list_elem_of_fmap_2. apply elem_of_take in Hc as (i & Hi & _).
    by eapply list_elem_of_lookup_2.
Qed.

Lemma newSchedulingDecisions_overflow_witness :
  (1000 < Z.of_nat (length (newSchedulingDecisionsFromBindings 20 [ex_scored "z" 0] []
    [replicate 1001 (Sample.binding "b" "a" "p" BindingStateBound)])))%Z.
Proof.
  apply newSchedulingDecisions_overflow; [lia|vm_compute; reflexivity|].
  apply (bool_decide_unpack _). vm_compute. exact I.
Defined.

(** ** Cross reference of picked clusters *)

Definition scoredName (s : Score.ScoredCluster) : string := mc_name (Score.Cluster s).

Lemma pickedMapOf_snoc picked s :
  pickedMapOf (picked ++ [s]) = <[scoredName s := s]> (pickedMapOf picked).
Proof. unfold pickedMapOf. by rewrite fold_left_app. Qed.

Lemma pickedMapOf_None picked n : pickedMapOf picked !! n = None <-> n ∉ (scoredName <$> picked).
Proof.
  induction picked as [|s picked IH] using rev_ind.
  { unfold pickedMapOf; cbn. rewrite lookup_empty. set_solver. }
  rewrite pickedMapOf_snoc, lookup_insert_None, IH, fmap_app. set_solver.
Qed.

Lemma pickedMapOf_Some picked n s :
  pickedMapOf picked !! n = Some s -> s ∈ picked /\ scoredName s = n.
Proof.
  induction picked as [|s' picked IH] using rev_ind.
  { unfold pickedMapOf; cbn. by rewrite lookup_empty. }
  rewrite pickedMapOf_snoc, elem_of_app.
  intros [[<- <-]|[_ H]]%lookup_insert_Some; [split; [right; by left|done]|].
  destruct (IH H). auto.
Qed.

(** The clusters picked, by name. *)
Definition isPicked (picked : list Score.ScoredCluster) (b : BindingObj) : bool :=
  bool_decide (b_target b ∈ (scoredName <$> picked)).

Lemma crossReferenceObsolete_loop policy picked obsolete del pat chk :
  exists pat', fold_left (crossReferenceObsolete policy (pickedMapOf picked)) obsolete (del, pat, chk) =
    (del ++ filter (fun b => isPicked picked b = false) obsolete, pat ++ pat',
     list_to_set (b_target <$> obsolete) ∪ chk) /\
    patch_base <$> pat' = filter (fun b => isPicked picked b = true) obsolete /\
    Forall (fun p => exists scored, scored ∈ picked /\ scoredName scored = b_target (patch_base p) /\
      p = patchBindingFromScoredCluster (patch_base p) (b_state (patch_base p)) scored policy) pat'.
Proof.
  revert del pat chk. induction obsolete as [|b obs IH]; intros del pat chk; cbn [fold_left].
  { exists []. rewrite !app_nil_r. split_and!; [f_equal; set_solver|done|done]. }
  rewrite !filter_cons. unfold crossReferenceObsolete at 2.
  destruct (pickedMapOf picked !! b_target b) as [scored|] eqn:E.
  - destruct (pickedMapOf_Some _ _ _ E) as [Hin Hname].
    assert (isPicked picked b = true) as Hp.
    { apply bool_decide_eq_true. rewrite <- Hname. by apply list_elem_of_fmap_2. }
    rewrite decide_False by congruence. rewrite decide_True by done.
    destruct (IH del (pat ++ [patchBindingFromScoredCluster b (b_state b) scored policy])
      ({[b_target b]} ∪ chk)) as (pat' & -> & Hbase & Hall).
    exists (patchBindingFromScoredCluster b (b_state b) scored policy :: pat').
    split_and!; [|cbn; by rewrite Hbase|constructor; [by exists scored|done]].
    rewrite <- app_assoc. f_equal. set_solver.
  - apply pickedMapOf_None in E.
    assert (isPicked picked b = false) as Hp by (by apply bool_decide_eq_false).
    rewrite decide_True by done. rewrite decide_False by congruence.
    destruct (IH (del ++ [b]) pat ({[b_target b]} ∪ chk)) as (pat' & -> & Hbase & Hall).
    exists pat'. split_and!; [|done|done]. rewrite <- app_assoc. f_equal. set_solver.
Qed.

(** The binding as it is left when its recorded state has been read. *)
Definition stripAnnotation (b : BindingObj) : BindingObj :=
  set_b_annotations (delete PreviousBindingStateAnnotation (b_annotations b)) b.

Lemma recoverState_Ok b st b' :
  recoverState b = Ok (st, b') <->
  b_annotations b !! PreviousBindingStateAnnotation = Some st /\ b' = stripAnnotation b.
Proof. unfold recoverState, stripAnnotation. destruct (b_annotations b !! _); naive_solver. Qed.

(** A patch of an unscheduled binding that is picked again. *)
Definition reselects (policy : PolicySnapshotObj) (picked : list Score.ScoredCluster) (b : BindingObj)
    (p : bindingWithPatch) : Prop :=
  exists scored st, scored ∈ picked /\ scoredName scored = b_target b /\
    b_annotations b !! PreviousBindingStateAnnotation = Some st /\
    p = patchBindingFromScoredCluster (stripAnnotation b) st scored policy.

Lemma crossReferenceUnscheduled_loop policy picked unscheduled pat chk r :
  ofold (crossReferenceUnscheduled policy (pickedMapOf picked)) (pat, chk) unscheduled = Ok r ->
  exists pat', r = (pat ++ pat', list_to_set (b_target <$> unscheduled) ∪ chk) /\
    Forall2 (reselects policy picked) (filter (fun b => isPicked picked b = true) unscheduled) pat'.
Proof.
  revert pat chk. induction unscheduled as [|b us IH]; intros pat chk; cbn [ofold].
  { intros [= <-]. exists []. rewrite app_nil_r. split; [f_equal; set_solver|constructor]. }
  rewrite obind_Ok. intros ([pat1 chk1] & Hstep & Hfold). unfold crossReferenceUnscheduled in Hstep.
  rewrite filter_cons.
  destruct (pickedMapOf picked !! b_target b) as [scored|] eqn:E.
  - destruct (pickedMapOf_Some _ _ _ E) as [Hin Hname].
    assert (isPicked picked b = true) as Hp.
    { apply bool_decide_eq_true. rewrite <- Hname. by apply list_elem_of_fmap_2. }
    rewrite decide_True by done.
    apply obind_Ok in Hstep as ([st b'] & [Hst ->]%recoverState_Ok & [= <- <-]).
    destruct (IH _ _ Hfold) as (pat' & -> & Hall).
    exists (patchBindingFromScoredCluster (stripAnnotation b) st scored policy :: pat').
    split; [rewrite <- app_assoc; f_equal; set_solver|].
    constructor; [|done]. by exists scored, st.
  - injection Hstep as <- <-. apply pickedMapOf_None in E.
    assert (isPicked picked b = false) as Hp by (by apply bool_decide_eq_false).
    rewrite decide_False by congruence.
    destruct (IH _ _ Hfold) as (pat' & -> & Hall). exists pat'. split; [f_equal; set_solver|done].
Qed.

(** A binding freshly created for a cluster. *)
Record fresh_binding (key : string) (policy : PolicySnapshotObj) (cluster : string) (b : BindingObj) : Prop := {
  fresh_target : b_target b = cluster;
  fresh_state : b_state b = BindingStateScheduled;
  fresh_policy : rbs_SchedulingPolicySnapshotName (b_spec b) = meta_name (snap_meta policy);
  fresh_decision : cd_ClusterName (rbs_ClusterDecision (b_spec b)) = cluster /\
    cd_Selected (rbs_ClusterDecision (b_spec b)) = true;
  fresh_live : b_deleting b = false;
  fresh_label : exists ns name, ExtractNamespaceNameFromKeyStr key = Ok (ns, name) /\
    meta_namespace (b_meta b) = ns /\ meta_labels (b_meta b) !! PlacementTrackingLabel = Some name;
  fresh_finalizer : SchedulerBindingCleanupFinalizer ∈ meta_finalizers (b_meta b);
}.

Section Create.
Context {K : K8sLib}.

Lemma generateBinding_fresh uuid key cluster b policy d :
  generateBinding uuid key cluster = Ok b -> cd_ClusterName d = cluster -> cd_Selected d = true ->
  fresh_binding key policy cluster (set_b_spec (newBindingSpec policy cluster d) b).
Proof.
  unfold generateBinding. rewrite obind_Ok. intros ([ns name] & Hkey & Hb) Hd1 Hd2.
  destruct (NewBindingName uuid name cluster) as [bn| |]; try done. injection Hb as <-.
  split; cbn; try done.
  - exists ns, name. split_and!; [done|done|]. apply lookup_singleton_eq.
  - by left.
Qed.

Lemma createForScored_loop uuids key policy checked picked acc r :
  ofold (createForScored uuids key policy checked) acc picked = Ok r ->
  exists new, r = acc ++ new /\
    Forall2 (fun s b => fresh_binding key policy (scoredName s) b)
      (filter (fun s => scoredName s ∉ checked) picked) new.
Proof.
  revert acc. induction picked as [|s picked IH]; intros acc; cbn [ofold].
  { intros [= <-]. exists []. rewrite app_nil_r. done. }
  rewrite obind_Ok. intros (acc1 & Hstep & Hfold). rewrite filter_cons.
  unfold createForScored in Hstep. fold (scoredName s) in Hstep.
  destruct (decide (scoredName s ∈ checked)) as [Hin|Hin].
  - injection Hstep as <-. rewrite decide_False by tauto. by apply IH.
  - rewrite decide_True by done.
    apply obind_Ok in Hstep as (b & Hb & [= <-]).
    destruct (IH _ Hfold) as (new & -> & Hall).
    eexists (_ :: new). rewrite <- app_assoc. split; [done|]. constructor; [|done].
    destruct (generateBinding _ key (scoredName s)) as [b'| |] eqn:Hg; cbn in Hb; try done.
    injection Hb as ->. by eapply generateBinding_fresh.
Qed.

Lemma crossReferencePicked_planned uuids key policy picked unscheduled obsolete toCreate toDelete toPatch :
  crossReferencePickedClustersAndDeDupBindings uuids key policy picked unscheduled obsolete =
    Ok (toCreate, toDelete, toPatch) ->
  toDelete = filter (fun b => isPicked picked b = false) obsolete /\
  (exists p1 p2, toPatch = p1 ++ p2 /\
    patch_base <$> p1 = filter (fun b => isPicked picked b = true) obsolete /\
    Forall (fun p => exists scored, scored ∈ picked /\ scoredName scored = b_target (patch_base p) /\
      p = patchBindingFromScoredCluster (patch_base p) (b_state (patch_base p)) scored policy) p1 /\
    Forall2 (reselects policy picked) (filter (fun b => isPicked picked b = true) unscheduled) p2) /\
  Forall2 (fun s b => fresh_binding key policy (scoredName s) b)
    (filter (fun s => scoredName s ∉ (b_target <$> (unscheduled ++ obsolete))) picked) toCreate.
Proof.
  unfold crossReferencePickedClustersAndDeDupBindings.
  destruct (crossReferenceObsolete_loop policy picked obsolete [] [] ∅) as (p1 & -> & Hbase & Hall).
  rewrite obind_Ok. intros ([pat chk] & Hu & Hrest).
  apply crossReferenceUnscheduled_loop in Hu as (p2 & [= -> ->] & Hres).
  apply obind_Ok in Hrest as (new & Hc & [= -> <- <-]).
  apply createForScored_loop in Hc as (new' & -> & Hnew). cbn [app] in *.
  split_and!; [done|by exists p1, p2|].
  erewrite list_filter_iff; [exact Hnew|]. intros s. cbn. rewrite fmap_app. set_solver.
Qed.

(** What the plan needs to succeed: a key and names that make valid binding
    names, and the recorded state of every unscheduled binding. *)
Record plannable (uuids : nat -> string) (key : string) (names : list string)
    (unscheduled : list BindingObj) : Prop := {
  plannable_names : forall n cluster, cluster ∈ names -> is_ok (generateBinding (uuids n) key cluster) = true;
  plannable_states : forall b, b ∈ unscheduled -> is_Some (b_annotations b !! PreviousBindingStateAnnotation);
}.

Lemma ofold_total {A S} (f : S -> A -> outcome S) xs s :
  (forall s x, x ∈ xs -> exists s', f s x = Ok s') -> exists s', ofold f s xs = Ok s'.
Proof.
  revert s. induction xs as [|x xs IH]; intros s Hf; cbn; [eauto|].
  destruct (Hf s x ltac:(by left)) as [s' ->]. cbn. apply IH. intros s0 y Hy. apply Hf. by right.
Qed.

Lemma crossReferencePicked_total uuids key policy picked unscheduled obsolete :
  plannable uuids key (scoredName <$> picked) unscheduled ->
  exists toCreate toDelete toPatch,
    crossReferencePickedClustersAndDeDupBindings uuids key policy picked unscheduled obsolete =
    Ok (toCreate, toDelete, toPatch).
Proof.
  intros [Hn Hs]. unfold crossReferencePickedClustersAndDeDupBindings.
  destruct (fold_left _ obsolete _) as [[del pat] chk].
  destruct (ofold_total (crossReferenceUnscheduled policy (pickedMapOf picked)) unscheduled (pat, chk))
    as [[pat' chk'] ->].
  { intros [p c] b Hb. unfold crossReferenceUnscheduled. destruct (pickedMapOf picked !! _); [|eauto].
    unfold recoverState. destruct (Hs b Hb) as [st ->]. cbn. eauto. }
  cbn. destruct (ofold_total (createForScored uuids key policy chk') picked []) as [cre ->].
  { intros cre s Hin. unfold createForScored. fold (scoredName s). destruct (decide _); [eauto|].
    specialize (Hn (length cre) (scoredName s) ltac:(by apply list_elem_of_fmap_2)).
    destruct (generateBinding _ key _); try done. cbn. eauto. }
  cbn. eauto.
Qed.

(** what a PickAll or PickN cycle plans.  When names can be generated
    and every unscheduled binding has its state recorded, a plan is always
    found.  The bindings it unschedules are the obsolete ones whose cluster is
    not picked.  The bindings it patches are the obsolete ones whose cluster is
    picked, which keep their state, and the unscheduled ones whose cluster is
    picked, which get back the state they had before.  A new binding,
    Scheduled, live and owned by the placement, is created for each picked
    cluster that has neither, in order. *)
Theorem crossReferencePicked_plan uuids key policy picked unscheduled obsolete :
  plannable uuids key (scoredName <$> picked) unscheduled ->
  exists toCreate toDelete p1 p2,
    crossReferencePickedClustersAndDeDupBindings uuids key policy picked unscheduled obsolete =
      Ok (toCreate, toDelete, p1 ++ p2) /\
    toDelete = filter (fun b => isPicked picked b = false) obsolete /\
    patch_base <$> p1 = filter (fun b => isPicked picked b = true) obsolete /\
    Forall (fun p => exists scored, scored ∈ picked /\ scoredName scored = b_target (patch_base p) /\
      p = patchBindingFromScoredCluster (patch_base p) (b_state (patch_base p)) scored policy) p1 /\
    Forall2 (reselects policy picked) (filter (fun b => isPicked picked b = true) unscheduled) p2 /\
    Forall2 (fun s b => fresh_binding key policy (scoredName s) b)
      (filter (fun s => scoredName s ∉ (b_target <$> (unscheduled ++ obsolete))) picked) toCreate.
Proof.
  intros Hp.
  destruct (crossReferencePicked_total uuids key policy picked unscheduled obsolete Hp)
    as (cre & del & pat & Heq).
  destruct (crossReferencePicked_planned _ _ _ _ _ _ _ _ _ Heq) as (Hd & (p1 & p2 & -> & H1 & H2 & H3) & Hc).
  exists cre, del, p1, p2. done.
Qed.

(** ** Cross reference of fixed targets *)

Lemma targetMapOf_snoc bs b : targetMapOf (bs ++ [b]) = <[b_target b := b]> (targetMapOf bs).
Proof. unfold targetMapOf. by rewrite fold_left_app. Qed.

Lemma targetMapOf_None bs n : targetMapOf bs !! n = None <-> n ∉ (b_target <$> bs).
Proof.
  induction bs as [|b bs IH] using rev_ind.
  { unfold targetMapOf; cbn. rewrite lookup_empty. set_solver. }
  rewrite targetMapOf_snoc, lookup_insert_None, IH, fmap_app. set_solver.
Qed.

Lemma targetMapOf_Some bs n b : targetMapOf bs !! n = Some b -> b ∈ bs /\ b_target b = n.
Proof.
  induction bs as [|b' bs IH] using rev_ind.
  { unfold targetMapOf; cbn. by rewrite lookup_empty. }
  rewrite targetMapOf_snoc, elem_of_app.
  intros [[<- <-]|[_ H]]%lookup_insert_Some; [split; [right; by left|done]|].
  destruct (IH H). auto.
Qed.

(** A patch that keeps a target: of an obsolete binding, with its state, or of
    an unscheduled one, with the state it had before. *)
Definition refreshes (policy : PolicySnapshotObj) (obsolete unscheduled : list BindingObj)
    (p : bindingWithPatch) : Prop :=
  (exists b, b ∈ obsolete /\ p = patchBindingFromFixedCluster b (b_state b) (b_target b) policy) \/
  (exists b st, b ∈ unscheduled /\ b_annotations b !! PreviousBindingStateAnnotation = Some st /\
     p = patchBindingFromFixedCluster (stripAnnotation b) st (b_target b) policy).

(** The shared map of unscheduled bindings, while distinct clusters are
    looked up: what remains to be visited is untouched. *)
Lemma crossReferenceValid_loop uuids key policy sob obsolete unscheduled valid cre pat um r :
  NoDup (mc_name <$> valid) ->
  (forall n, n ∈ (mc_name <$> valid) -> um !! n = targetMapOf unscheduled !! n) ->
  ofold (crossReferenceValid uuids key policy sob (targetMapOf obsolete)) (cre, pat, um) valid = Ok r ->
  exists cre' pat' um', r = (cre ++ cre', pat ++ pat', um') /\
    Forall (refreshes policy obsolete unscheduled) pat' /\
    Forall2 (fun c b => fresh_binding key policy (mc_name c) b)
      (filter (fun c => mc_name c ∉ sob /\ mc_name c ∉ (b_target <$> (obsolete ++ unscheduled))) valid) cre'.
Proof.
  revert cre pat um. induction valid as [|c valid IH]; intros cre pat um Hnd Hum; cbn [ofold].
  { intros [= <-]. exists [], [], um. rewrite !app_nil_r. done. }
  rewrite obind_Ok. intros ([[cre1 pat1] um1] & Hstep & Hfold). rewrite filter_cons.
  cbn in Hnd. apply NoDup_cons in Hnd as [Hc Hnd].
  assert (forall n, n ∈ mc_name <$> valid -> um !! n = targetMapOf unscheduled !! n) as Hum'.
  { intros n Hn. apply Hum. by right. }
  unfold crossReferenceValid in Hstep. rewrite (Hum (mc_name c)) in Hstep by (by left).
  destruct (decide (mc_name c ∈ sob)) as [Hs|Hs].
  { injection Hstep as <- <- <-. rewrite decide_False by tauto. by eapply IH. }
  destruct (targetMapOf obsolete !! mc_name c) as [ob|] eqn:Eo.
  { destruct (targetMapOf_Some _ _ _ Eo) as [Hin Ht]. injection Hstep as <- <- <-.
    rewrite decide_False; [|intros [_ Hn]; apply Hn; rewrite <- Ht; apply list_elem_of_fmap_2, elem_of_app; by left].
    destruct (IH _ _ _ Hnd Hum' Hfold) as (cre' & pat' & um' & -> & Hp & Hcr).
    eexists cre', (_ :: pat'), um'. rewrite <- app_assoc. split_and!; [done| |done].
    constructor; [|done]. left. exists ob. by rewrite Ht. }
  destruct (targetMapOf unscheduled !! mc_name c) as [ub|] eqn:Eu.
  { destruct (targetMapOf_Some _ _ _ Eu) as [Hin Ht].
    apply obind_Ok in Hstep as ([st b'] & [Hst ->]%recoverState_Ok & [= <- <- <-]).
    rewrite decide_False; [|intros [_ Hn]; apply Hn; rewrite <- Ht; apply list_elem_of_fmap_2, elem_of_app; by right].
    eapply IH in Hfold as (cre' & pat' & um' & -> & Hp & Hcr); [|done|].
    - eexists cre', (_ :: pat'), um'. rewrite <- app_assoc. split_and!; [done| |done].
      constructor; [|done]. right. exists ub, st. by rewrite Ht.
    - intros n Hn. rewrite lookup_insert_ne; [by apply Hum'|]. by intros <-. }
  apply obind_Ok in Hstep as (b & Hb & [= <- <- <-]).
  apply targetMapOf_None in Eo, Eu. rewrite decide_True; [|split; [done|rewrite fmap_app, elem_of_app; tauto]].
  destruct (IH _ _ _ Hnd Hum' Hfold) as (cre' & pat' & um' & -> & Hp & Hcr).
  eexists (_ :: cre'), pat', um'. rewrite <- app_assoc. split_and!; [done|done|].
  constructor; [|done].
  destruct (generateBinding _ key (mc_name c)) as [b'| |] eqn:Hg; cbn in Hb; try done.
  injection Hb as ->. by eapply generateBinding_fresh.
Qed.

Lemma crossReferenceValid_planned uuids key policy valid bound scheduled unscheduled obsolete
    toCreate toDelete toPatch :
  NoDup (mc_name <$> valid) ->
  crossReferenceValidTargetsWithBindings uuids key policy valid bound scheduled unscheduled obsolete =
    Ok (toCreate, toDelete, toPatch) ->
  toDelete = filter (fun b => b_target b ∉ (mc_name <$> valid)) obsolete /\
  Forall (refreshes policy obsolete unscheduled) toPatch /\
  Forall2 (fun c b => fresh_binding key policy (mc_name c) b)
    (filter (fun c => mc_name c ∉ (b_target <$> (bound ++ scheduled ++ obsolete ++ unscheduled))) valid)
    toCreate.
Proof.
  intros Hnd. unfold crossReferenceValidTargetsWithBindings. rewrite obind_Ok.
  intros ([[cre pat] um] & Hloop & [= <- <- <-]).
  apply crossReferenceValid_loop with (unscheduled := unscheduled) in Hloop
    as (cre' & pat' & um' & [= -> -> ->] & Hp & Hc); [|done|done].
  split_and!; [|done|].
  - apply list_filter_iff. intros b. by rewrite elem_of_list_to_set.
  - erewrite list_filter_iff; [exact Hc|]. intros c. cbn. rewrite !fmap_app. set_solver.
Qed.

Lemma crossReferenceValid_total uuids key policy sob om um cre pat valid :
  plannable uuids key (mc_name <$> valid) [] -> NoDup (mc_name <$> valid) ->
  (forall n b, n ∈ (mc_name <$> valid) -> um !! n = Some b ->
     is_Some (b_annotations b !! PreviousBindingStateAnnotation)) ->
  exists r, ofold (crossReferenceValid uuids key policy sob om) (cre, pat, um) valid = Ok r.
Proof.
  intros [Hn _]. revert cre pat um. induction valid as [|c valid IH]; intros cre pat um Hnd Hum; cbn; [eauto|].
  cbn in Hnd. apply NoDup_cons in Hnd as [Hc Hnd].
  assert (forall n cluster, cluster ∈ mc_name <$> valid ->
    is_ok (generateBinding (uuids n) key cluster) = true) as Hn' by (intros; apply Hn; by right).
  assert (forall n b, n ∈ mc_name <$> valid -> um !! n = Some b ->
    is_Some (b_annotations b !! PreviousBindingStateAnnotation)) as Hum'.
  { intros n b Hin. apply Hum. by right. }
  destruct (decide (mc_name c ∈ sob)); [by apply IH|].
  destruct (om !! mc_name c); [by apply IH|].
  destruct (um !! mc_name c) as [b|] eqn:Eu.
  - unfold recoverState. destruct (Hum (mc_name c) b ltac:(by left) Eu) as [st ->]. cbn.
    apply IH; [done|done|]. intros m b' Hin. rewrite lookup_insert_ne by (by intros <-). by apply Hum'.
  - specialize (Hn (length cre) (mc_name c) ltac:(by left)).
    destruct (generateBinding _ key _); try done. cbn. by apply IH.
Qed.

(** what a PickFixed cycle plans, for distinct target names.  When names
    can be generated and every unscheduled binding has its state recorded, a
    plan is always found.  The obsolete bindings on other clusters are
    unscheduled; obsolete and unscheduled bindings on a target are refreshed,
    the latter with the state they had before; and a new binding is created
    for each target that has no scheduled, bound, obsolete or unscheduled
    binding. *)
Theorem crossReferenceValid_plan uuids key policy valid bound scheduled unscheduled obsolete :
  NoDup (mc_name <$> valid) -> plannable uuids key (mc_name <$> valid) unscheduled ->
  exists toCreate toDelete toPatch,
    crossReferenceValidTargetsWithBindings uuids key policy valid bound scheduled unscheduled obsolete =
      Ok (toCreate, toDelete, toPatch) /\
    toDelete = filter (fun b => b_target b ∉ (mc_name <$> valid)) obsolete /\
    Forall (refreshes policy obsolete unscheduled) toPatch /\
    Forall2 (fun c b => fresh_binding key policy (mc_name c) b)
      (filter (fun c => mc_name c ∉ (b_target <$> (bound ++ scheduled ++ obsolete ++ unscheduled))) valid)
      toCreate.
Proof.
  intros Hnd [Hn Hs].
  assert (exists cre del pat, crossReferenceValidTargetsWithBindings uuids key policy valid bound scheduled
    unscheduled obsolete = Ok (cre, del, pat)) as (cre & del & pat & Heq).
  { unfold crossReferenceValidTargetsWithBindings.
    destruct (crossReferenceValid_total uuids key policy
      (list_to_set ((b_target <$> scheduled) ++ (b_target <$> bound))) (targetMapOf obsolete)
      (targetMapOf unscheduled) [] [] valid) as [[[cre pat] um] ->]; [split; [done|by intros ? ?%not_elem_of_nil]|done| |cbn; eauto].
    intros n b _ [Hb _]%targetMapOf_Some. by apply Hs. }
  exists cre, del, pat. split; [done|]. by apply crossReferenceValid_planned in Heq.
Qed.

End Create.

(** ** A cycle to evaluate: one obsolete binding is kept, one is unscheduled,
    one unscheduled binding is picked again, and one cluster is new. *)

Definition ex_uuid (n : nat) : string := "0123456789abcdef".

Definition ex_policy : PolicySnapshotObj := Sample.snapshot "p-2" None.

Definition ex_obsolete : list BindingObj :=
  [Sample.binding "b1" "a" "p-1" BindingStateBound; Sample.binding "b2" "gone" "p-1" BindingStateBound].

Definition ex_unscheduled : list BindingObj :=
  [set_b_annotations {[PreviousBindingStateAnnotation := BindingStateBound]}
     (Sample.binding "b3" "b" "p-1" BindingStateUnscheduled)].

Lemma ex_plannable :
  @plannable RefLib.ref_lib ex_uuid "placement" (scoredName <$> ex_ranking) ex_unscheduled.
Proof.
  split.
  - intros n cluster Hc. cbn in Hc. rewrite !elem_of_cons in Hc.
    destruct Hc as [->|[->|[->|Hc%not_elem_of_nil]]]; try done; vm_compute; reflexivity.
  - intros b Hb%list_elem_of_singleton. subst b. vm_compute. eauto.
Qed.

Lemma crossReferencePicked_plan_witness :
  exists toCreate toDelete p1 p2,
    @crossReferencePickedClustersAndDeDupBindings RefLib.ref_lib ex_uuid "placement" ex_policy ex_ranking
      ex_unscheduled ex_obsolete = Ok (toCreate, toDelete, p1 ++ p2) /\
    b_name <$> toDelete = ["b2"].
Proof.
  destruct (@crossReferencePicked_plan RefLib.ref_lib ex_uuid "placement" ex_policy ex_ranking
    ex_unscheduled ex_obsolete ex_plannable) as (cre & del & p1 & p2 & Heq & Hd & _).
  exists cre, del, p1, p2. split; [exact Heq|]. rewrite Hd. vm_compute. reflexivity.
Defined.

Lemma crossReferenceValid_plan_witness :
  exists toCreate toDelete toPatch,
    @crossReferenceValidTargetsWithBindings RefLib.ref_lib ex_uuid "placement" ex_policy
      (Score.Cluster <$> ex_ranking) [] [] ex_unscheduled ex_obsolete = Ok (toCreate, toDelete, toPatch) /\
    Forall (refreshes ex_policy ex_obsolete ex_unscheduled) toPatch.
Proof.
  destruct (@crossReferenceValid_plan RefLib.ref_lib ex_uuid "placement" ex_policy
    (Score.Cluster <$> ex_ranking) [] [] ex_unscheduled ex_obsolete) as (cre & del & pat & Heq & _ & Hp & _);
    [by_decide|exact ex_plannable|].
  exists cre, del, pat. split; [exact Heq|exact Hp].
Defined.
