(* ===== verification/Hub.v ===== *)
(** * The hub cluster the controllers act on

    The Kubernetes client, [errgroup] and [retry.OnError] are not part of the
    repository.  [HubClient] lists the calls the modelled controllers make, on
    an abstract world [W]; [HubLaws] states what they may do to the bindings
    stored on the hub.  The laws are weak on purpose: a call that reports an
    error may or may not have taken effect, and any other controller may act
    before, after and during a call, as long as it neither creates bindings,
    nor moves one to another cluster, nor revives one that is being deleted.

    [Mem], at the end, is an in-memory hub with injected faults that satisfies
    the laws; the witnesses run on it. *)

From stdpp Require Import prelude gmap strings.
From S2P Require Import Prelude K8s Api Sample Utils FrameworkUtils.

Local Open Scope string_scope.
Local Open Scope list_scope.

(** ** Calls *)

(** The key of a stored object. *)
Definition ObjectKey : Set := string * string.

Definition object_key (b : BindingObj) : ObjectKey := (meta_namespace (b_meta b), b_name b).

Class HubClient (W : Type) : Type := {
  (** [client.List] of the member clusters, from the cache. *)
  hub_list_clusters : W -> W * outcome (list MemberCluster);
  (** [List] of the bindings in a namespace with the placement's label. *)
  hub_list_bindings : string -> string -> W -> W * outcome (list BindingObj);
  hub_create_binding : BindingObj -> W -> W * option goerr;
  (** [Update], [Status().Update] and [Get] refresh the object they are given. *)
  hub_update_binding : BindingObj -> W -> W * (BindingObj * option goerr);
  hub_update_binding_status : BindingObj -> W -> W * (BindingObj * option goerr);
  hub_get_binding : BindingObj -> W -> W * (BindingObj * option goerr);
  hub_patch_binding : bindingWithPatch -> W -> W * option goerr;
  hub_delete_binding : BindingObj -> W -> W * option goerr;
  hub_update_snapshot_status : PolicySnapshotObj -> W -> W * option goerr;
  (** [retry.OnError] with its default backoff. *)
  OnError : forall S : Type, (goerr -> bool) -> (S -> S * option goerr) -> S -> S * option goerr;
}.
Arguments OnError {W _} {S} _ _ _.

(** ** Effects *)

(** A computation on the hub. *)
Definition hub (W A : Type) : Type := W -> W * outcome A.

(** [Get] of a placement, by its namespace and name. *)
Class PlacementReader (W : Type) : Type := {
  hub_get_placement : string -> string -> hub W PlacementObj;
}.

Section Effects.
Context {W : Type}.

Definition hret {A} (a : A) : hub W A := fun w => (w, Ok a).
Definition hlift {A} (m : outcome A) : hub W A := fun w => (w, m).

Definition hbind {A B} (f : A -> hub W B) (m : hub W A) : hub W B := fun w =>
  match m w with
  | (w', Ok a) => f a w'
  | (w', Err e) => (w', Err e)
  | (w', Panic p) => (w', Panic p)
  end.

(** A call that returns an error or nil. *)
Definition herr (m : W -> W * option goerr) : hub W unit := fun w =>
  match m w with
  | (w', None) => (w', Ok tt)
  | (w', Some e) => (w', Err e)
  end.

(** [if err := m; err != nil { return f(err) }] *)
Definition hmap_err {A} (f : goerr -> goerr) (m : hub W A) : hub W A := fun w =>
  match m w with
  | (w', Err e) => (w', Err (f e))
  | r => r
  end.

(** An [errgroup]: all the tasks run, and [Wait] returns the first error. *)
Fixpoint run_group (tasks : list (W -> W * option goerr)) (w : W) : W * option goerr :=
  match tasks with
  | [] => (w, None)
  | t :: r =>
      let '(w1, e1) := t w in
      let '(w2, e2) := run_group r w1 in
      (w2, match e1 with Some _ => e1 | None => e2 end)
  end.

(** ** What a computation preserves *)

Definition preserves {A} (I : W -> Prop) (m : hub W A) : Prop := forall w, I w -> I (m w).1.

Definition preserves_call (I : W -> Prop) (m : W -> W * option goerr) : Prop := forall w, I w -> I (m w).1.

Lemma preserves_ret {A} I (a : A) : preserves I (hret a).
Proof. intros w Hw. exact Hw. Qed.

Lemma preserves_lift {A} I (m : outcome A) : preserves I (hlift m).
Proof. intros w Hw. exact Hw. Qed.

Lemma preserves_bind {A B} I (f : A -> hub W B) m :
  preserves I m -> (forall a, preserves I (f a)) -> preserves I (hbind f m).
Proof.
  intros Hm Hf w Hw. unfold hbind. specialize (Hm w Hw).
  destruct (m w) as [w' [a|e|p]]; cbn in *; [by apply Hf|done|done].
Qed.

Lemma preserves_herr I m : preserves_call I m -> preserves I (herr m).
Proof. intros Hm w Hw. unfold herr. specialize (Hm w Hw). by destruct (m w) as [w' [e|]]. Qed.

Lemma preserves_map_err {A} I f (m : hub W A) : preserves I m -> preserves I (hmap_err f m).
Proof. intros Hm w Hw. unfold hmap_err. specialize (Hm w Hw). by destruct (m w) as [w' [a|e|p]]. Qed.

Lemma preserves_group I tasks : Forall (preserves_call I) tasks -> preserves_call I (run_group tasks).
Proof.
  induction 1 as [|t r Ht _ IH]; intros w Hw; cbn; [done|].
  specialize (Ht w Hw). destruct (t w) as [w1 e1]. specialize (IH w1 Ht).
  by destruct (run_group r w1).
Qed.

(** ** What a computation preserves and returns *)

Definition ensures {A} (I : W -> Prop) (m : hub W A) (Q : A -> Prop) : Prop :=
  forall w, I w -> I (m w).1 /\ forall a, (m w).2 = Ok a -> Q a.

Lemma ensures_ret {A} I (a : A) (Q : A -> Prop) : Q a -> ensures I (hret a) Q.
Proof. intros Hq w Hw. split; [done|]. intros x [= <-]. exact Hq. Qed.

Lemma ensures_lift {A} I (m : outcome A) (Q : A -> Prop) : (forall a, m = Ok a -> Q a) -> ensures I (hlift m) Q.
Proof. intros Hq w Hw. by split. Qed.

Lemma ensures_bind {A B} I (f : A -> hub W B) m (P : A -> Prop) (Q : B -> Prop) :
  ensures I m P -> (forall a, P a -> ensures I (f a) Q) -> ensures I (hbind f m) Q.
Proof.
  intros Hm Hf w Hw. unfold hbind. destruct (Hm w Hw) as [Hi Hp].
  destruct (m w) as [w' [a|e|p]]; cbn in *; [exact (Hf a (Hp a eq_refl) w' Hi)|done|done].
Qed.

Lemma ensures_map_err {A} I f (m : hub W A) (Q : A -> Prop) : ensures I m Q -> ensures I (hmap_err f m) Q.
Proof.
  intros Hm w Hw. unfold hmap_err. specialize (Hm w Hw).
  destruct (m w) as [w' [a|e|p]]; cbn in *; [done|by split; [tauto|discriminate]|done].
Qed.

Lemma ensures_weaken {A} I (m : hub W A) (P Q : A -> Prop) :
  ensures I m P -> (forall a, P a -> Q a) -> ensures I m Q.
Proof. intros Hm Hpq w Hw. destruct (Hm w Hw). split; eauto. Qed.

Lemma ensures_preserves {A} I (m : hub W A) (Q : A -> Prop) : ensures I m Q -> preserves I m.
Proof. intros Hm w Hw. by destruct (Hm w Hw). Qed.

Lemma preserves_ensures {A} I (m : hub W A) : preserves I m -> ensures I m (fun _ => True).
Proof. intros Hm w Hw. by split; [apply Hm|]. Qed.

End Effects.

Notation "'let*' x ':=' m 'in' k" := (hbind (fun x => k) m)
  (at level 10, x pattern, m at level 100, k at level 200) : fleet_scope.

(** [for _, x := range xs { acc, err = f(acc, x); ... }], on the hub. *)
Fixpoint hfold {W A S} (f : S -> A -> hub W S) (s : S) (xs : list A) : hub W S :=
  match xs with
  | [] => hret s
  | x :: xs => let* s' := f s x in hfold f s' xs
  end.

(** [ListBindingsFromKey] of [pkg/utils/controller/binding_resolver.go]: the
    bindings of a placement, by name. *)
Definition bindingNameLess (a b : BindingObj) : bool := str_lt (b_name a) (b_name b).

Definition ListBindingsFromKey {W} {C : HubClient W} (placementKey : string * string) (fromCache : bool)
    : hub W (list BindingObj) :=
  let '(namespace, name) := placementKey in
  let* bindingObjs := hmap_err (NewAPIServerError fromCache) (hub_list_bindings namespace name) in
  hret (go_sort bindingNameLess bindingObjs).

(** [FetchPlacementFromKey] of [pkg/utils/controller/placement_resolver.go] *)
Definition FetchPlacementFromKey {W} {P : PlacementReader W} (placementKey : string) : hub W PlacementObj :=
  let* (namespace, name) := hlift (ExtractNamespaceNameFromKeyStr placementKey) in
  hub_get_placement namespace name.

(** [LookupLatestPolicySnapshot] of [pkg/utils/controller/policy_snapshot_resolver.go] *)
Class PolicySnapshotReader (W : Type) : Type := {
  (** [List] of the policy snapshots in a namespace with the given labels, from the cache. *)
  hub_list_policy_snapshots : string -> gmap string string -> hub W (list PolicySnapshotObj);
}.

Definition listLatestPolicySnapshots {W} {PS : PolicySnapshotReader W} (namespace name : string)
    : hub W (list PolicySnapshotObj) :=
  hmap_err (NewAPIServerError true)
    (hub_list_policy_snapshots namespace (<[PlacementTrackingLabel := name]> {[IsLatestSnapshotLabel := "true"]})).

(** There should be exactly one: the other cases are the errors
    [ErrNoLatestPolicySnapshot] and [ErrMultipleActivePolicySnapshots]. *)
Definition onlyPolicySnapshot (name : string) (policySnapshots : list PolicySnapshotObj) : outcome PolicySnapshotObj :=
  match policySnapshots with
  | [] => Err (ErrPlain ("no latest policy snapshot for placement " +:+ name))
  | [s] => Ok s
  | _ => Err (ErrUnexpectedBehavior ("multiple active policy snapshots for placement " +:+ name))
  end.

Definition LookupLatestPolicySnapshot {W} {PS : PolicySnapshotReader W} (namespace name : string)
    : hub W PolicySnapshotObj :=
  let* policySnapshots := listLatestPolicySnapshots namespace name in
  hlift (onlyPolicySnapshot name policySnapshots).

Lemma hbind_world {W A B} (J : W -> Prop) (m : hub W A) (f : A -> hub W B) w :
  J (m w).1 -> (forall a, (m w).2 = Ok a -> J (f a (m w).1).1) -> J (hbind f m w).1.
Proof. unfold hbind. destruct (m w) as [w' [a|e|p]]; cbn; auto. Qed.

Lemma hmap_err_run {W A} f (m : hub W A) w :
  (hmap_err f m w).1 = (m w).1 /\ forall a, (hmap_err f m w).2 = Ok a -> (m w).2 = Ok a.
Proof. unfold hmap_err. by destruct (m w) as [w' [a|e|p]]. Qed.

Lemma ListBindingsFromKey_run {W} {C : HubClient W} ns name fromCache (w : W) :
  (ListBindingsFromKey (ns, name) fromCache w).1 = (hub_list_bindings ns name w).1 /\
  forall bs', (ListBindingsFromKey (ns, name) fromCache w).2 = Ok bs' ->
    exists bs, (hub_list_bindings ns name w).2 = Ok bs /\ bs' = go_sort bindingNameLess bs.
Proof.
  unfold ListBindingsFromKey, hbind, hmap_err.
  destruct (hub_list_bindings ns name w) as [w' [a|e|p]]; cbn; naive_solver.
Qed.

Create HintDb hub.
#[export] Hint Resolve preserves_ret preserves_lift preserves_bind preserves_herr preserves_map_err : hub.

(** ** Laws *)

Definition tracking_label (b : BindingObj) : option string :=
  meta_labels (b_meta b) !! PlacementTrackingLabel.

(** A binding of a placement. *)
Definition owned (ns name : string) (k : ObjectKey) (b : BindingObj) : Prop :=
  k.1 = ns /\ tracking_label b = Some name.

(** A later version of a stored binding. *)
Definition follows (b b' : BindingObj) : Prop :=
  b_target b' = b_target b /\ tracking_label b' = tracking_label b /\
  (b_deleting b = true -> b_deleting b' = true).

(** The same object, up to what the controllers change in it. *)
Definition resembles (b b' : BindingObj) : Prop :=
  object_key b' = object_key b /\ b_target b' = b_target b /\ tracking_label b' = tracking_label b.

(** What any controller may do to the bindings at any time. *)
Definition evolves (m m' : gmap ObjectKey BindingObj) : Prop :=
  forall k b', m' !! k = Some b' -> exists b, m !! k = Some b /\ follows b b'.

(** What a call that submits the object [b] may do: the stored object with
    its key may also get what is in [b]. *)
Definition touches (b : BindingObj) (m m' : gmap ObjectKey BindingObj) : Prop :=
  forall k b', m' !! k = Some b' -> exists b0, m !! k = Some b0 /\
    (follows b0 b' \/
     (k = object_key b /\
      (b_target b' = b_target b0 \/ b_target b' = b_target b) /\
      (tracking_label b' = tracking_label b0 \/ tracking_label b' = tracking_label b) /\
      (b_deleting b0 = true -> b_deleting b' = true))).

(** What a call that creates [b] may do. *)
Definition adds (b : BindingObj) (m m' : gmap ObjectKey BindingObj) : Prop :=
  forall k b', m' !! k = Some b' ->
    (exists b0, m !! k = Some b0 /\ follows b0 b') \/
    (m !! k = None /\ k = object_key b /\ b_target b' = b_target b /\ tracking_label b' = tracking_label b).

(** Repeated attempts: the last one ended, with success or with the error that
    is returned; after each of the others the error could be retried. *)
Inductive retried {S : Type} (retriable : goerr -> bool) (fn : S -> S * option goerr)
    : S -> S * option goerr -> Prop :=
| retried_last s r : fn s = r -> retried retriable fn s r
| retried_again s s' e r :
    fn s = (s', Some e) -> retriable e = true -> retried retriable fn s' r -> retried retriable fn s r.

Class HubLaws (W : Type) `{C : HubClient W} : Type := {
  hub_bindings : W -> gmap ObjectKey BindingObj;
  list_clusters_evolves w : evolves (hub_bindings w) (hub_bindings (hub_list_clusters w).1);
  list_clusters_names w cs :
    (hub_list_clusters w).2 = Ok cs -> NoDup (mc_name <$> cs);
  list_bindings_evolves ns name w : evolves (hub_bindings w) (hub_bindings (hub_list_bindings ns name w).1);
  list_bindings_keys ns name w bs :
    (hub_list_bindings ns name w).2 = Ok bs -> NoDup (object_key <$> bs);
  (** What is listed was stored, is a binding of the placement, and may have
      changed since. *)
  list_bindings_sound ns name w bs b :
    (hub_list_bindings ns name w).2 = Ok bs -> b ∈ bs ->
    owned ns name (object_key b) b /\
    (exists b0, hub_bindings w !! object_key b = Some b0 /\ follows b0 b) /\
    (forall b1, hub_bindings (hub_list_bindings ns name w).1 !! object_key b = Some b1 -> follows b b1);
  (** The bindings come from the API server, not from a cache: none is missing. *)
  list_bindings_complete ns name w bs k b :
    (hub_list_bindings ns name w).2 = Ok bs ->
    hub_bindings (hub_list_bindings ns name w).1 !! k = Some b -> owned ns name k b ->
    k ∈ object_key <$> bs;
  create_adds b w : adds b (hub_bindings w) (hub_bindings (hub_create_binding b w).1);
  update_touches b w : touches b (hub_bindings w) (hub_bindings (hub_update_binding b w).1);
  (** A failed call leaves the object as submitted; a successful one may fill
      in what the server sets. *)
  update_refreshes b w b' e :
    (hub_update_binding b w).2 = (b', e) ->
    match e with Some _ => b' = b | None => resembles b b' end;
  update_status_touches b w : touches b (hub_bindings w) (hub_bindings (hub_update_binding_status b w).1);
  get_evolves b w : evolves (hub_bindings w) (hub_bindings (hub_get_binding b w).1);
  get_refreshes b w b' e :
    (hub_get_binding b w).2 = (b', e) ->
    match e with
    | Some _ => b' = b
    | None => object_key b' = object_key b /\
        exists b0, hub_bindings w !! object_key b = Some b0 /\ follows b0 b'
    end;
  patch_touches p w : touches (updated p) (hub_bindings w) (hub_bindings (hub_patch_binding p w).1);
  delete_evolves b w : evolves (hub_bindings w) (hub_bindings (hub_delete_binding b w).1);
  snapshot_status_evolves s w :
    evolves (hub_bindings w) (hub_bindings (hub_update_snapshot_status s w).1);
  OnError_retries {S : Type} retriable (fn : S -> S * option goerr) s :
    retried retriable fn s (OnError retriable fn s);
}.

Lemma OnError_invariant `{HubLaws W} {S : Type} (P : S -> Prop) retriable (fn : S -> S * option goerr) s :
  P s -> (forall s, P s -> P (fn s).1) -> P (OnError retriable fn s).1.
Proof.
  intros Hs Hfn. pose proof (OnError_retries retriable fn s) as Hr.
  induction Hr as [s r <-|s s' e r Hf _ _ IH]; [auto|].
  apply IH. specialize (Hfn s Hs). by rewrite Hf in Hfn.
Qed.

Lemma follows_refl b : follows b b.
Proof. by split_and!. Qed.

Lemma follows_trans b1 b2 b3 : follows b1 b2 -> follows b2 b3 -> follows b1 b3.
Proof. unfold follows. intros (? & ? & ?) (? & ? & ?). split_and!; [congruence|congruence|auto]. Qed.

Lemma follows_live b b' : follows b b' -> b_deleting b' = false -> b_deleting b = false.
Proof. intros (_ & _ & H) Hd. destruct (b_deleting b); [|done]. by rewrite H in Hd. Qed.

Lemma resembles_refl b : resembles b b.
Proof. by split_and!. Qed.

Lemma resembles_trans b1 b2 b3 : resembles b1 b2 -> resembles b2 b3 -> resembles b1 b3.
Proof. unfold resembles. intros (? & ? & ?) (? & ? & ?). split_and!; congruence. Qed.

Lemma evolves_refl m : evolves m m.
Proof. intros k b Hk. exists b. split; [done|apply follows_refl]. Qed.

Lemma evolves_trans m1 m2 m3 : evolves m1 m2 -> evolves m2 m3 -> evolves m1 m3.
Proof.
  intros H12 H23 k b3 H3. destruct (H23 _ _ H3) as (b2 & H2 & Hf2). destruct (H12 _ _ H2) as (b1 & H1 & Hf1).
  exists b1. split; [done|]. by eapply follows_trans.
Qed.

#[export] Hint Resolve follows_refl resembles_refl evolves_refl : hub.

(** ** Observed calls *)

Section Observed.
Context {W E : Type}.

(** A call whose answer, or argument, is recorded. *)
Definition record {A} (f : A -> list E) (m : W -> W * A) (w : W * list E) : (W * list E) * A :=
  let '(w', a) := m w.1 in ((w', w.2 ++ f a), a).

Definition on_ok {A} (f : A -> E) (m : outcome A) : list E :=
  match m with Ok a => [f a] | _ => [] end.

Lemma record_run {A} f (m : W -> W * A) w tr : record f m (w, tr) = (((m w).1, tr ++ f (m w).2), (m w).2).
Proof. unfold record. cbn. by destruct (m w). Qed.

End Observed.

(** ** A hub with more beside it

    The calls on a hub [W], in a world that holds more than the hub. *)

Module Beside.
Section Beside.
Context {W X : Type}.

Definition beside {A} (f : W -> W * A) (w : W * X) : (W * X) * A :=
  let '(m, a) := f w.1 in ((m, w.2), a).

Lemma beside_1 {A} (f : W -> W * A) w : (beside f w).1 = ((f w.1).1, w.2).
Proof. unfold beside. by destruct (f w.1). Qed.

Lemma beside_2 {A} (f : W -> W * A) w : (beside f w).2 = (f w.1).2.
Proof. unfold beside. by destruct (f w.1). Qed.

Context {C : HubClient W} {HL : HubLaws W}.

#[export] Instance hub_beside : HubClient (W * X) := {
  hub_list_clusters := beside hub_list_clusters;
  hub_list_bindings ns name := beside (hub_list_bindings ns name);
  hub_create_binding b := beside (hub_create_binding b);
  hub_update_binding b := beside (hub_update_binding b);
  hub_update_binding_status b := beside (hub_update_binding_status b);
  hub_get_binding b := beside (hub_get_binding b);
  hub_patch_binding p := beside (hub_patch_binding p);
  hub_delete_binding b := beside (hub_delete_binding b);
  hub_update_snapshot_status s := beside (hub_update_snapshot_status s);
  OnError S := OnError (W := W);
}.

#[export] Program Instance laws_beside : HubLaws (W * X) := {
  hub_bindings w := hub_bindings w.1;
}.
Next Obligation. intros w. cbn. rewrite beside_1. apply list_clusters_evolves. Qed.
Next Obligation. intros w cs. cbn. rewrite beside_2. apply list_clusters_names. Qed.
Next Obligation. intros ns name w. cbn. rewrite beside_1. apply list_bindings_evolves. Qed.
Next Obligation. intros ns name w bs. cbn. rewrite beside_2. apply list_bindings_keys. Qed.
Next Obligation. intros ns name w bs b. cbn. rewrite beside_1, beside_2. apply list_bindings_sound. Qed.
Next Obligation. intros ns name w bs k b. cbn. rewrite beside_1, beside_2. apply list_bindings_complete. Qed.
Next Obligation. intros b w. cbn. rewrite beside_1. apply create_adds. Qed.
Next Obligation. intros b w. cbn. rewrite beside_1. apply update_touches. Qed.
Next Obligation. intros b w b' e. cbn. rewrite beside_2. apply update_refreshes. Qed.
Next Obligation. intros b w. cbn. rewrite beside_1. apply update_status_touches. Qed.
Next Obligation. intros b w. cbn. rewrite beside_1. apply get_evolves. Qed.
Next Obligation. intros b w b' e. cbn. rewrite beside_2. apply get_refreshes. Qed.
Next Obligation. intros p w. cbn. rewrite beside_1. apply patch_touches. Qed.
Next Obligation. intros b w. cbn. rewrite beside_1. apply delete_evolves. Qed.
Next Obligation. intros s w. cbn. rewrite beside_1. apply snapshot_status_evolves. Qed.
Next Obligation. intros S retriable fn s. apply (OnError_retries (W := W)). Qed.

End Beside.
Arguments beside : simpl never.
End Beside.

(** ** A hub in memory *)

Module Mem.

(** What goes wrong with a write: it is refused, or it takes effect and the
    answer is an error all the same.  A write is never refused with [NotFound]
    when the object is there. *)
Inductive fault : Set :=
| NoFault
| Refused (r : api_reason)
| LostAnswer (r : api_reason).

Record mem : Type := mkMem {
  mem_bindings : gmap ObjectKey BindingObj;
  mem_clusters : list MemberCluster;
  mem_snapshot : option PolicySnapshotObj;
  mem_faults : list fault;
}.

Definition set_bindings (m : gmap ObjectKey BindingObj) (w : mem) : mem :=
  mkMem m (mem_clusters w) (mem_snapshot w) (mem_faults w).

(** The objects stored under their own key. *)
Definition stored (w : mem) : gmap ObjectKey BindingObj :=
  filter (fun kb => object_key kb.2 = kb.1) (mem_bindings w).

Definition next_fault (w : mem) : fault * mem :=
  match mem_faults w with
  | [] => (NoFault, w)
  | f :: fs => (f, mkMem (mem_bindings w) (mem_clusters w) (mem_snapshot w) fs)
  end.

Definition api_error (r : api_reason) : goerr := ErrAPI r "from the hub".

(** A write with its fault. *)
Definition with_fault (write : mem -> mem * option goerr) (w : mem) : mem * option goerr :=
  match next_fault w with
  | (NoFault, w) | (Refused NotFound, w) => write w
  | (Refused r, w) => (w, Some (api_error r))
  | (LostAnswer r, w) => ((write w).1, Some (api_error r))
  end.

Definition create (b : BindingObj) (w : mem) : mem * option goerr :=
  match stored w !! object_key b with
  | Some _ => (w, Some (api_error AlreadyExists))
  | None => (set_bindings (<[object_key b := b]> (mem_bindings w)) w, None)
  end.

Definition bump (m : ObjectMeta) : ObjectMeta :=
  mkObjectMeta (meta_name m) (meta_namespace m) (meta_labels m) (meta_annotations m) (meta_finalizers m)
    (meta_deletion_timestamp m) (meta_generation m) (meta_resource_version m + 1).

(** The server keeps what it has set itself. *)
Definition server_meta (b0 b : BindingObj) : ObjectMeta :=
  let m := b_meta b in
  mkObjectMeta (meta_name m) (meta_namespace m) (meta_labels m) (meta_annotations m)
    (meta_finalizers m) (meta_deletion_timestamp (b_meta b0)) (meta_generation m)
    (meta_resource_version (b_meta b0)).

(** Deletion is decided by the server, and completes with the last finalizer. *)
Definition replace (b0 b : BindingObj) (w : mem) : mem :=
  let m := server_meta b0 b in
  if b_deleting b0 && (length (meta_finalizers m) =? 0)%nat
  then set_bindings (delete (object_key b) (mem_bindings w)) w
  else set_bindings (<[object_key b := set_b_meta (bump m) b]> (mem_bindings w)) w.

(** An update is refused when the object has changed since it was read. *)
Definition update (b : BindingObj) (w : mem) : mem * option goerr :=
  match stored w !! object_key b with
  | None => (w, Some (api_error NotFound))
  | Some b0 =>
      if decide (meta_resource_version (b_meta b0) = meta_resource_version (b_meta b))
      then (replace b0 b w, None)
      else (w, Some (api_error Conflict))
  end.

(** A merge patch sets and removes the annotations that differ between its
    base and the modified object, and leaves the others. *)
Definition merge_annotations (base upd st : gmap string string) : gmap string string :=
  filter (fun kv => base !! kv.1 = upd !! kv.1) st ∪ filter (fun kv => base !! kv.1 <> Some kv.2) upd.

(** With the optimistic lock the base is what is stored, up to what the
    caller changed in it. *)
Definition patch (p : bindingWithPatch) (w : mem) : mem * option goerr :=
  match stored w !! object_key (updated p) with
  | None => (w, Some (api_error NotFound))
  | Some b0 =>
      if decide (meta_resource_version (b_meta b0) = meta_resource_version (b_meta (patch_base p)))
      then (replace b0 (set_b_spec (b_spec (updated p))
              (set_b_annotations (merge_annotations (b_annotations (patch_base p)) (b_annotations (updated p))
                 (b_annotations b0)) b0)) w, None)
      else (w, Some (api_error Conflict))
  end.

Definition remove (b : BindingObj) (w : mem) : mem * option goerr :=
  match stored w !! object_key b with
  | None => (w, Some (api_error NotFound))
  | Some _ => (set_bindings (delete (object_key b) (mem_bindings w)) w, None)
  end.

Definition get (b : BindingObj) (w : mem) : mem * (BindingObj * option goerr) :=
  match stored w !! object_key b with
  | None => (w, (b, Some (api_error NotFound)))
  | Some b0 => (w, (b0, None))
  end.

(** [retry.DefaultBackoff] makes four attempts. *)
Fixpoint attempts {S : Type} (n : nat) (retriable : goerr -> bool) (fn : S -> S * option goerr) (s : S)
    : S * option goerr :=
  match n with
  | 0 => fn s
  | S n =>
      match fn s with
      | (s', Some e) => if retriable e then attempts n retriable fn s' else (s', Some e)
      | r => r
      end
  end.

Definition in_placement (ns name : string) (b : BindingObj) : bool :=
  bool_decide (meta_namespace (b_meta b) = ns) && bool_decide (tracking_label b = Some name).

Definition refreshing (call : BindingObj -> mem -> mem * option goerr) (b : BindingObj) (w : mem)
    : mem * (BindingObj * option goerr) :=
  let '(w', e) := with_fault (call b) w in
  (w', (match e with
        | Some _ => b
        | None => set_b_meta (bump (server_meta (default b (stored w !! object_key b)) b)) b
        end, e)).

#[global] Instance mem_hub : HubClient mem := {
  hub_list_clusters w :=
    (w, if decide (NoDup (mc_name <$> mem_clusters w)) then Ok (mem_clusters w)
        else Err (api_error OtherStatus));
  hub_list_bindings ns name w :=
    (w, Ok (filter (fun b => in_placement ns name b = true) (map_to_list (stored w)).*2));
  hub_create_binding b := with_fault (create b);
  hub_update_binding := refreshing update;
  hub_update_binding_status := refreshing update;
  hub_get_binding := get;
  hub_patch_binding p := with_fault (patch p);
  hub_delete_binding b := with_fault (remove b);
  hub_update_snapshot_status s := with_fault (fun w =>
    (mkMem (mem_bindings w) (mem_clusters w) (Some s) (mem_faults w), None));
  OnError S := attempts 3;
}.

Lemma stored_lookup w k b : stored w !! k = Some b -> object_key b = k.
Proof. unfold stored. by intros [_ H]%map_lookup_filter_Some. Qed.

Lemma stored_insert w b : stored (set_bindings (<[object_key b := b]> (mem_bindings w)) w) = <[object_key b := b]> (stored w).
Proof. unfold stored. cbn. by rewrite map_filter_insert_True. Qed.

Lemma stored_delete w k : stored (set_bindings (delete k (mem_bindings w)) w) = delete k (stored w).
Proof. unfold stored. cbn. by rewrite map_filter_delete. Qed.

(** A relation that holds without and with the write holds with a fault. *)
Lemma with_fault_stored (R : gmap ObjectKey BindingObj -> gmap ObjectKey BindingObj -> Prop) write w :
  (forall w, R (stored w) (stored w)) -> (forall w, R (stored w) (stored (write w).1)) ->
  R (stored w) (stored (with_fault write w).1).
Proof.
  intros Hrefl Hw. unfold with_fault, next_fault. destruct (mem_faults w) as [|f fs]; [apply Hw|].
  set (w' := mkMem _ _ _ fs). change (stored w) with (stored w'). destruct f as [|[]|]; cbn; auto.
Qed.

Lemma evolves_touches b m m' : evolves m m' -> touches b m m'.
Proof. intros He k b' Hb'. destruct (He k b' Hb') as (b0 & ? & ?). eauto. Qed.

Lemma evolves_adds b m m' : evolves m m' -> adds b m m'.
Proof. intros He k b' Hb'. left. by apply He. Qed.

Lemma delete_evolves_map (k : ObjectKey) (m : gmap ObjectKey BindingObj) : evolves m (delete k m).
Proof. intros k' b' [_ H]%lookup_delete_Some. eauto with hub. Qed.

Lemma replace_touches b b0 b1 w :
  stored w !! object_key b = Some b0 -> object_key b1 = object_key b ->
  b_target b1 = b_target b0 \/ b_target b1 = b_target b ->
  tracking_label b1 = tracking_label b0 \/ tracking_label b1 = tracking_label b ->
  touches b (stored w) (stored (replace b0 b1 w)).
Proof.
  intros Hb0 Hk Ht Hl. unfold replace. cbn zeta.
  destruct (b_deleting b0 && _); [rewrite stored_delete; by apply evolves_touches, delete_evolves_map|].
  match goal with |- touches _ _ (stored (set_bindings (<[_ := ?x]> _) _)) => set (b2 := x) end.
  change (object_key b1) with (object_key b2). rewrite stored_insert. change (object_key b2) with (object_key b1).
  intros k b' [[<- <-]|[Hn Hk']]%lookup_insert_Some; [|eauto with hub].
  exists b0. rewrite Hk. split; [done|]. right. split_and!; [done|exact Ht|exact Hl|done].
Qed.

Lemma update_touches_stored b w : touches b (stored w) (stored (update b w).1).
Proof.
  unfold update. destruct (stored w !! object_key b) as [b0|] eqn:Hb0; [|by apply evolves_touches, evolves_refl].
  destruct (decide _); [|by apply evolves_touches, evolves_refl]. apply replace_touches; auto.
Qed.

Lemma patch_touches_stored p w : touches (updated p) (stored w) (stored (patch p w).1).
Proof.
  unfold patch. destruct (stored w !! object_key (updated p)) as [b0|] eqn:Hb0; [|by apply evolves_touches, evolves_refl].
  destruct (decide _); [|by apply evolves_touches, evolves_refl].
  apply replace_touches; [done| |by right|by left]. exact (stored_lookup _ _ _ Hb0).
Qed.

Lemma create_adds_stored b w : adds b (stored w) (stored (create b w).1).
Proof.
  unfold create. destruct (stored w !! object_key b) as [b0|] eqn:Hb0; [by apply evolves_adds, evolves_refl|].
  cbn [fst]. rewrite stored_insert. intros k b' [[<- <-]|[Hn Hk]]%lookup_insert_Some.
  - by right.
  - left. eauto with hub.
Qed.

Lemma attempts_retried {S : Type} n retriable (fn : S -> S * option goerr) s :
  retried retriable fn s (attempts n retriable fn s).
Proof.
  revert s. induction n as [|n IH]; intros s; cbn; [by constructor|].
  destruct (fn s) as [s' [e|]] eqn:Hf; [|by constructor].
  destruct (retriable e) eqn:He; [by eapply retried_again|by constructor].
Qed.

Lemma refreshing_touches b w : touches b (stored w) (stored (refreshing update b w).1).
Proof.
  unfold refreshing. pose proof (with_fault_stored (touches b) (update b) w
    (fun w => evolves_touches _ _ _ (evolves_refl _)) (update_touches_stored b)) as H.
  by destruct (with_fault (update b) w).
Qed.

Lemma refreshing_resembles call b w b' e :
  (refreshing call b w).2 = (b', e) -> match e with Some _ => b' = b | None => resembles b b' end.
Proof. unfold refreshing. destruct (with_fault _ w) as [w' [x|]]; by intros [= <- <-]. Qed.

Lemma listed_spec w ns name b :
  b ∈ filter (fun b => in_placement ns name b = true) (map_to_list (stored w)).*2 <->
  stored w !! object_key b = Some b /\ owned ns name (object_key b) b.
Proof.
  rewrite list_elem_of_filter, list_elem_of_fmap. unfold in_placement, owned.
  rewrite andb_true_iff, !bool_decide_eq_true. split.
  - intros [Ho ([k b1] & -> & Hk%elem_of_map_to_list)]. cbn in *.
    by rewrite (stored_lookup _ _ _ Hk).
  - intros [Hs Ho]. split; [done|]. exists (object_key b, b). by rewrite elem_of_map_to_list.
Qed.

#[global] Program Instance mem_laws : HubLaws mem := {
  hub_bindings := stored;
}.
Next Obligation. intros w. apply evolves_refl. Qed.
Next Obligation. intros w cs. cbn. by destruct (decide _); intros [= <-]. Qed.
Next Obligation. intros ns name w. apply evolves_refl. Qed.
Next Obligation.
  intros ns name w bs. cbn. intros [= <-]. apply (NoDup_fmap_2_strong object_key).
  - intros b1 b2 [H1 _]%listed_spec [H2 _]%listed_spec He. congruence.
  - apply NoDup_filter. apply (NoDup_fmap_2_strong snd); [|apply NoDup_map_to_list].
    intros [k1 b1] [k2 b2] H1%elem_of_map_to_list H2%elem_of_map_to_list. cbn. intros ->.
    f_equal. by rewrite <- (stored_lookup _ _ _ H1), <- (stored_lookup _ _ _ H2).
Qed.
Next Obligation.
  intros ns name w bs b. cbn. intros [= <-] [Hs Ho]%listed_spec. split_and!; [done|eauto with hub|].
  intros b1 Hb1. rewrite Hs in Hb1. injection Hb1 as <-. apply follows_refl.
Qed.
Next Obligation.
  intros ns name w bs k b. cbn. intros [= <-] Hs Ho. pose proof (stored_lookup _ _ _ Hs). subst k.
  apply list_elem_of_fmap_2. by apply listed_spec.
Qed.
Next Obligation.
  intros b w. apply (with_fault_stored (adds b)); [|apply create_adds_stored].
  intros. apply evolves_adds, evolves_refl.
Qed.
Next Obligation. intros b w. apply refreshing_touches. Qed.
Next Obligation. intros b w b' e. apply refreshing_resembles. Qed.
Next Obligation. intros b w. apply refreshing_touches. Qed.
Next Obligation. intros b w. cbn. unfold get. destruct (stored w !! _); apply evolves_refl. Qed.
Next Obligation.
  intros b w b' e. cbn. unfold get. destruct (stored w !! object_key b) as [b0|] eqn:Hb; intros [= <- <-]; [|done].
  split; [by apply stored_lookup in Hb|eauto with hub].
Qed.
Next Obligation.
  intros p w. apply (with_fault_stored (touches (updated p))); [|apply patch_touches_stored].
  intros. apply evolves_touches, evolves_refl.
Qed.
Next Obligation.
  intros b w. apply (with_fault_stored evolves); [intros; apply evolves_refl|].
  intros w0. unfold remove. destruct (stored w0 !! _); [|apply evolves_refl].
  cbn [fst]. rewrite stored_delete. apply delete_evolves_map.
Qed.
Next Obligation. intros s w. apply (with_fault_stored evolves); intros; apply evolves_refl. Qed.
Next Obligation. intros S retriable fn s. apply attempts_retried. Qed.

End Mem.
