(* ===== verification/Overrider.v ===== *)
(** * Overrides for the resources of a placement

    Models [pkg/utils/overrider/overrider.go], and the part of
    [pkg/utils/controller/resource_snapshot_resolver.go] that reads the
    resource snapshots of a placement.  The reads are calls of the class
    [SnapshotReader]; the JSON decoding of a manifest and the scope of a kind
    (a question to the informer manager) are the class [ManifestLib]. *)

From stdpp Require Import prelude gmap strings.
From S2P Require Import Prelude K8s Api Sample Utils FrameworkUtils Hub.

Local Open Scope string_scope.
Local Open Scope list_scope.

(** ** Overrides *)

Definition NamespaceScoped : string := "Namespaced".

Record PlacementRef : Set := mkPlacementRef { plref_Name : string; plref_Scope : string }.

Definition JSONPatchOverrideType : string := "JSONPatch".
Definition DeleteOverrideType : string := "Delete".
Definition JSONPatchOverrideOpRemove : string := "remove".

(** The value is the raw JSON. *)
Record JSONPatchOverride : Set := mkJSONPatch {
  jp_Operator : string;
  jp_Path : string;
  jp_Value : string;
}.

Record OverrideRule : Set := mkOverrideRule {
  rule_ClusterSelector : option ClusterSelector;
  rule_OverrideType : string;
  rule_JSONPatchOverrides : list JSONPatchOverride;
}.

Record OverridePolicy : Set := mkOverridePolicy { op_OverrideRules : list OverrideRule }.

Record ResourceSelector : Set := mkSelector {
  rsl_Group : string;
  rsl_Version : string;
  rsl_Kind : string;
  rsl_Name : string;
}.

#[global] Instance ResourceSelector_eq_dec : EqDecision ResourceSelector.
Proof. solve_decision. Defined.

Record ClusterResourceOverrideSnapshot : Set := mkCRO {
  cro_meta : ObjectMeta;
  cro_Placement : option PlacementRef;
  cro_ClusterResourceSelectors : list ResourceSelectorTerm;
  cro_Policy : option OverridePolicy;
}.

Record ResourceOverrideSnapshot : Set := mkRO {
  ro_meta : ObjectMeta;
  ro_Placement : option PlacementRef;
  ro_ResourceSelectors : list ResourceSelector;
  ro_Policy : option OverridePolicy;
}.

Definition cro_name (o : ClusterResourceOverrideSnapshot) : string := meta_name (cro_meta o).
Definition ro_name (o : ResourceOverrideSnapshot) : NamespacedName :=
  mkNamespacedName (meta_name (ro_meta o)) (meta_namespace (ro_meta o)).

(** ** Resource snapshots and manifests *)

Definition ResourceGroupHashAnnotation : string := FleetPrefix +:+ "resource-hash".
Definition NumberOfResourceSnapshotsAnnotation : string := FleetPrefix +:+ "number-of-resource-snapshots".
Definition ResourceIndexLabel : string := FleetPrefix +:+ "resource-index".

(** The selected resources are the raw JSON of their manifests. *)
Record ResourceSnapshotObj : Set := mkResourceSnapshot {
  rsnap_meta : ObjectMeta;
  rsnap_SelectedResources : list string;
}.

Record GroupVersionKind : Set := mkGVK { gvk_Group : string; gvk_Version : string; gvk_Kind : string }.

#[global] Instance GroupVersionKind_eq_dec : EqDecision GroupVersionKind.
Proof. solve_decision. Defined.

(** What is read of an [unstructured.Unstructured]. *)
Record Unstructured : Set := mkUnstructured {
  u_gvk : GroupVersionKind;
  u_namespace : string;
  u_name : string;
}.

(** A ClusterResourceEnvelope or a ResourceEnvelope: raw manifests by key. *)
Record Envelope : Set := mkEnvelopeObj {
  envelope_namespace : string;
  envelope_Data : gmap string string;
}.

Class ManifestLib : Type := {
  UnmarshalJSON : string -> outcome Unstructured;
  UnmarshalEnvelope : string -> outcome Envelope;
  IsClusterScopedResources : GroupVersionKind -> bool;
}.

Class SnapshotReader (W : Type) : Type := {
  hub_get_cluster : string -> hub W MemberCluster;
  (** [List] of the resource snapshots in a namespace with the given labels. *)
  hub_list_resource_snapshots : string -> gmap string string -> hub W (list ResourceSnapshotObj);
  (** [List] of the override snapshots with the label of the latest ones. *)
  hub_list_cros : gmap string string -> hub W (list ClusterResourceOverrideSnapshot);
  hub_list_ros : gmap string string -> hub W (list ResourceOverrideSnapshot);
}.

(** ** Which clusters an override is for *)

Section Overrider.
Context {K : K8sLib}.

(** [LabelSelectorAsSelector]: no selector matches nothing. *)
Definition termMatches (cluster : MemberCluster) (term : ClusterSelectorTerm) : outcome bool :=
  match term_LabelSelector term with
  | None => Ok false
  | Some ls => owrap "invalid cluster label selector" (LabelSelectorMatches ls (mc_labels cluster))
  end.

(** [for x := range xs { matched, err := f(x); ...; if matched { return true, nil } }; return false, nil] *)
Fixpoint any_match {A} (f : A -> outcome bool) (xs : list A) : outcome bool :=
  match xs with
  | [] => Ok false
  | x :: r => let! matched := f x in if (matched : bool) then Ok true else any_match f r
  end.

Definition IsClusterMatched (cluster : MemberCluster) (rule : OverrideRule) : outcome bool :=
  match rule_ClusterSelector rule with
  | None => Ok false
  | Some s =>
      match sel_ClusterSelectorTerms s with
      | [] => Ok true
      | terms => any_match (termMatches cluster) terms
      end
  end.

Definition isClusterMatched (cluster : MemberCluster) (policy : option OverridePolicy) : outcome bool :=
  match policy with
  | None => Err (ErrPlain "policy is nil")
  | Some p => any_match (IsClusterMatched cluster) (op_OverrideRules p)
  end.

Definition croLess (a b : ClusterResourceOverrideSnapshot) : bool := str_lt (cro_name a) (cro_name b).

Definition roLess (a b : ResourceOverrideSnapshot) : bool :=
  let '(mkNamespacedName na nsa) := ro_name a in
  let '(mkNamespacedName nb nsb) := ro_name b in
  if decide (nsa = nsb) then str_lt na nb else str_lt nsa nsb.

(** The overrides whose policy matches the cluster. *)
Definition filterMatched {A} (policy : A -> option OverridePolicy) (cluster : MemberCluster) (os : list A)
    : outcome (list A) :=
  ofold (fun acc o =>
    match isClusterMatched cluster (policy o) with
    | Ok matched => Ok (if matched then acc ++ [o] else acc)
    | Err e => Err (NewUnexpectedBehaviorError e)
    | Panic p => Panic p
    end) [] os.

(** What follows the read of the cluster. *)
Definition pickForCluster (cluster : MemberCluster) (croList : list ClusterResourceOverrideSnapshot)
    (roList : list ResourceOverrideSnapshot) : outcome (list string * list NamespacedName) :=
  let! croFiltered := filterMatched cro_Policy cluster croList in
  let! roFiltered := filterMatched ro_Policy cluster roList in
  Ok (cro_name <$> go_sort croLess croFiltered, ro_name <$> go_sort roLess roFiltered).

Context {W : Type} {R : SnapshotReader W}.

Definition getClusterError (err : goerr) : goerr :=
  if has_reason NotFound err then NewExpectedBehaviorError err else NewAPIServerError true err.

Definition PickFromResourceMatchedOverridesForTargetCluster (targetCluster : string)
    (croList : list ClusterResourceOverrideSnapshot) (roList : list ResourceOverrideSnapshot)
    : hub W (list string * list NamespacedName) :=
  match croList, roList with
  | [], [] => hret ([], [])
  | _, _ =>
      let* cluster := hmap_err getClusterError (hub_get_cluster targetCluster) in
      hlift (pickForCluster cluster croList roList)
  end.

(** ** The resource snapshots of a placement *)

Definition ListLatestResourceSnapshots (placementKey : string * string) : hub W (list ResourceSnapshotObj) :=
  let '(namespace, name) := placementKey in
  hmap_err (NewAPIServerError true)
    (hub_list_resource_snapshots namespace
      (<[PlacementTrackingLabel := name]> {[IsLatestSnapshotLabel := "true"]})).

Definition is_master (s : ResourceSnapshotObj) : Prop :=
  default EmptyString (meta_annotations (rsnap_meta s) !! ResourceGroupHashAnnotation) <> EmptyString.

#[global] Instance is_master_dec s : Decision (is_master s).
Proof. unfold is_master. apply _. Defined.

Definition FetchLatestMasterResourceSnapshot (placementKey : string * string)
    : hub W (option ResourceSnapshotObj) :=
  let* items := ListLatestResourceSnapshots placementKey in
  match items with
  | [] => hret None
  | _ =>
      match list_find is_master items with
      | Some (_, s) => hret (Some s)
      | None => hlift (Err (NewUnexpectedBehaviorError
          (ErrPlain ("no masterResourceSnapshot found for the placement " +:+ placementKey.2))))
      end
  end.

Definition ListAllResourceSnapshotWithAnIndex (resourceSnapshotIndex placementName placementNamespace : string)
    : hub W (list ResourceSnapshotObj) :=
  hmap_err (NewAPIServerError true)
    (hub_list_resource_snapshots placementNamespace
      (<[PlacementTrackingLabel := placementName]> {[ResourceIndexLabel := resourceSnapshotIndex]})).

(** [labels.ExtractResourceIndexFromResourceSnapshot] *)
Definition ExtractIndex (m : ObjectMeta) (labelKey : string) : outcome Z :=
  let indexStr := default EmptyString (meta_labels m !! labelKey) in
  let! v := owrap ("invalid resource index " +:+ go_quote indexStr +:+ ", error") (Atoi indexStr) in
  if (v <? 0)%Z then
    Err (ErrPlain ("invalid resource index " +:+ go_quote indexStr +:+ ": must be a non-negative integer"))
  else Ok v.

Definition invalidSnapshotCount (master : ResourceSnapshotObj) (placementKey : string) : goerr :=
  NewUnexpectedBehaviorError (ErrPlain ("master resource snapshot " +:+ meta_name (rsnap_meta master) +:+
    " for placement " +:+ placementKey +:+ " has an invalid snapshot count")).

Definition FetchAllResourceSnapshotsAlongWithMaster (placementKey : string) (master : ResourceSnapshotObj)
    : hub W (gmap string ResourceSnapshotObj) :=
  let resourceSnapshots : gmap string ResourceSnapshotObj := {[meta_name (rsnap_meta master) := master]} in
  let countAnnotation :=
    default EmptyString (meta_annotations (rsnap_meta master) !! NumberOfResourceSnapshotsAnnotation) in
  match Atoi countAnnotation with
  | Ok snapshotCount =>
      if (snapshotCount <? 1)%Z then hlift (Err (invalidSnapshotCount master placementKey))
      else
        let* resourceSnapshots :=
          if (1 <? snapshotCount)%Z then
            let* index := hmap_err NewUnexpectedBehaviorError
              (hlift (ExtractIndex (rsnap_meta master) ResourceIndexLabel)) in
            let* (namespace, name) := hlift (ExtractNamespaceNameFromKeyStr placementKey) in
            let* items := hmap_err (NewAPIServerError true)
              (ListAllResourceSnapshotWithAnIndex (zstr index) name namespace) in
            hret (fold_left (fun m s => <[meta_name (rsnap_meta s) := s]> m) items resourceSnapshots)
          else hret resourceSnapshots in
        if (Z.of_nat (size resourceSnapshots) =? snapshotCount)%Z then hret resourceSnapshots
        else hlift (Err (NewExpectedBehaviorError (ErrPlain
          ("resource snapshots are still being created for the masterResourceSnapshot " +:+
            meta_name (rsnap_meta master)))))
  | _ => hlift (Err (invalidSnapshotCount master placementKey))
  end.

(** ** Which overrides a placement's resources have *)

Context {M : ManifestLib}.

Definition PlacementGroupVersion (kind : string) : GroupVersionKind :=
  mkGVK "placement.kubernetes-fleet.io" "v1beta1" kind.
Definition ClusterResourceEnvelopeType : string := "ClusterResourceEnvelope".
Definition ResourceEnvelopeType : string := "ResourceEnvelope".
Definition NamespaceMetaGVK : GroupVersionKind := mkGVK EmptyString "v1" "Namespace".

Definition namespaceCROCandidate (namespace : string) : ResourceIdentifier :=
  mkResourceIdentifier (gvk_Group NamespaceMetaGVK) (gvk_Version NamespaceMetaGVK)
    (gvk_Kind NamespaceMetaGVK) namespace EmptyString None.

Definition clusterScopedCROCandidate (uObj : Unstructured) : ResourceIdentifier :=
  let gvk := u_gvk uObj in
  mkResourceIdentifier (gvk_Group gvk) (gvk_Version gvk) (gvk_Kind gvk) (u_name uObj) EmptyString None.

Definition namespacedROCandidate (uObj : Unstructured) (namespace : string) : ResourceIdentifier :=
  let gvk := u_gvk uObj in
  mkResourceIdentifier (gvk_Group gvk) (gvk_Version gvk) (gvk_Kind gvk) (u_name uObj) namespace None.

(** A [map[ResourceIdentifier]bool] used as a set is the list of its keys. *)
Definition candidateSet : Set := list ResourceIdentifier.

Definition addCandidatesFromResource (uResource : Unstructured) : candidateSet * candidateSet :=
  if negb (IsClusterScopedResources (u_gvk uResource)) then
    ([namespaceCROCandidate (u_namespace uResource)],
     [namespacedROCandidate uResource (u_namespace uResource)])
  else ([clusterScopedCROCandidate uResource], []).

Definition sortedEnvelopeDataKeys (data : gmap string string) : list string :=
  go_sort str_lt (map_to_list data).*1.

Definition unmarshalEnvelopeData (envelope : Envelope) (key : string) : outcome Unstructured :=
  owrap "failed to parse the wrapped manifest data to a Kubernetes runtime object"
    (UnmarshalJSON (default EmptyString (envelope_Data envelope !! key))).

(** A manifest that cannot be parsed is skipped. *)
Definition collectCandidatesFromClusterResourceEnvelope (envelope : Envelope) : outcome candidateSet :=
  ofold (fun acc key =>
    match unmarshalEnvelopeData envelope key with
    | Ok uObj =>
        if negb (IsClusterScopedResources (u_gvk uObj)) then Ok acc
        else Ok (acc ++ [clusterScopedCROCandidate uObj])
    | Err _ => Ok acc
    | Panic p => Panic p
    end) [] (sortedEnvelopeDataKeys (envelope_Data envelope)).

Definition collectCandidatesFromResourceEnvelope (envelope : Envelope) : outcome candidateSet :=
  ofold (fun acc key =>
    match unmarshalEnvelopeData envelope key with
    | Ok uObj =>
        if IsClusterScopedResources (u_gvk uObj) then Ok acc
        else if decide (envelope_namespace envelope <> u_namespace uObj) then Ok acc
        else Ok (acc ++ [namespacedROCandidate uObj (envelope_namespace envelope)])
    | Err _ => Ok acc
    | Panic p => Panic p
    end) [] (sortedEnvelopeDataKeys (envelope_Data envelope)).

(** [if err != nil { return NewUnexpectedBehaviorError(err) }] *)
Definition unexpected {A} (m : outcome A) : outcome A :=
  match m with Err e => Err (NewUnexpectedBehaviorError e) | r => r end.

Definition collectOverrideCandidatesFromSelectedResource (raw : string) : outcome (candidateSet * candidateSet) :=
  let! uResource := unexpected (UnmarshalJSON raw) in
  if decide (u_gvk uResource = PlacementGroupVersion ClusterResourceEnvelopeType) then
    let! envelope := unexpected (UnmarshalEnvelope raw) in
    let! cros := collectCandidatesFromClusterResourceEnvelope envelope in
    Ok (cros, [])
  else if decide (u_gvk uResource = PlacementGroupVersion ResourceEnvelopeType) then
    let! envelope := unexpected (UnmarshalEnvelope raw) in
    let! ros := collectCandidatesFromResourceEnvelope envelope in
    Ok ([namespaceCROCandidate (envelope_namespace envelope)], ros)
  else Ok (addCandidatesFromResource uResource).

Definition possibleOverrides (resources : list string) : outcome (candidateSet * candidateSet) :=
  ofold (fun acc raw =>
    let! (cros, ros) := collectOverrideCandidatesFromSelectedResource raw in
    Ok (acc.1 ++ cros, acc.2 ++ ros)) ([], []) resources.

Definition croSelected (placementKey : string) (possibleCROs : candidateSet)
    (o : ClusterResourceOverrideSnapshot) : bool :=
  match cro_Placement o with
  | Some p => bool_decide (plref_Name p = placementKey)
  | None => true
  end &&
  existsb (fun s => bool_decide (mkResourceIdentifier (rsel_Group s) (rsel_Version s) (rsel_Kind s)
    (rsel_Name s) EmptyString None ∈ possibleCROs)) (cro_ClusterResourceSelectors o).

Definition roSelected (placementKey : string) (possibleROs : candidateSet) (o : ResourceOverrideSnapshot) : bool :=
  match ro_Placement o with
  | Some p =>
      let placementKeyInOverride :=
        if decide (plref_Scope p = NamespaceScoped)
        then GetObjectKeyFromNamespaceName (meta_namespace (ro_meta o)) (plref_Name p)
        else plref_Name p in
      bool_decide (placementKeyInOverride = placementKey)
  | None => true
  end &&
  existsb (fun s => bool_decide (mkResourceIdentifier (rsl_Group s) (rsl_Version s) (rsl_Kind s)
    (rsl_Name s) (meta_namespace (ro_meta o)) None ∈ possibleROs)) (ro_ResourceSelectors o).

(** The order in which a range loop visits the entries of a map. *)
Variable mapOrder : forall A : Type, list (string * A) -> list (string * A).

(** What follows when there are overrides. *)
Definition matchOverrides (placementKey : string) (master : ResourceSnapshotObj)
    (croList : list ClusterResourceOverrideSnapshot) (roList : list ResourceOverrideSnapshot)
    : hub W (list ClusterResourceOverrideSnapshot * list ResourceOverrideSnapshot) :=
  let* resourceSnapshots := FetchAllResourceSnapshotsAlongWithMaster placementKey master in
  let* (possibleCROs, possibleROs) := hlift (possibleOverrides
    ((mapOrder _ (map_to_list resourceSnapshots)).*2 ≫= rsnap_SelectedResources)) in
  hret (filter (fun o => croSelected placementKey possibleCROs o = true) croList,
        filter (fun o => roSelected placementKey possibleROs o = true) roList).

Definition FetchAllMatchingOverridesForResourceSnapshot (placementKey : string) (master : ResourceSnapshotObj)
    : hub W (list ClusterResourceOverrideSnapshot * list ResourceOverrideSnapshot) :=
  let latestSnapshotLabelMatcher := {[IsLatestSnapshotLabel := "true"]} in
  let* croList := hub_list_cros latestSnapshotLabelMatcher in
  let* roList := hub_list_ros latestSnapshotLabelMatcher in
  match croList, roList with
  | [], [] => hret ([], [])
  | _, _ => matchOverrides placementKey master croList roList
  end.

End Overrider.

(** ** The overrides do not depend on any order *)

#[global] Instance croLess_GoLess : GoLess croLess.
Proof. exact (GoLess_key cro_name str_lt _). Qed.

#[global] Instance roLess_GoLess : GoLess roLess.
Proof.
  split; unfold roLess.
  - intros a b. cbn. repeat case_decide; try congruence; apply str_lt_asym.
  - intros a b c. cbn. intros H1 H2. repeat case_decide; try congruence.
    + by eapply str_lt_negtrans.
    + exfalso. assert (meta_namespace (ro_meta a) = meta_namespace (ro_meta b)) by (apply str_lt_false_eq; congruence).
      congruence.
    + by eapply str_lt_negtrans.
Qed.

Section OverriderProofs.
Context {K : K8sLib}.

Lemma filterMatched_Ok {A} (policy : A -> option OverridePolicy) cluster os fs :
  filterMatched policy cluster os = Ok fs <->
  Forall (fun o => is_ok (isClusterMatched cluster (policy o)) = true) os /\
  fs = filter (fun o => isClusterMatched cluster (policy o) = Ok true) os.
Proof.
  unfold filterMatched.
  match goal with |- context [ofold ?f [] os] => set (step := f) end.
  enough (forall acc, ofold step acc os = Ok fs <->
    Forall (fun o => is_ok (isClusterMatched cluster (policy o)) = true) os /\
    fs = acc ++ filter (fun o => isClusterMatched cluster (policy o) = Ok true) os) as H by apply H.
  induction os as [|o os IH]; intros acc; cbn [ofold].
  - rewrite filter_nil, app_nil_r. split; [intros [= ->]; done|intros [_ ->]; done].
  - rewrite Forall_cons, filter_cons. pose proof (eq_refl (step acc o)) as Hst.
    unfold step in Hst at 2. rewrite Hst. clear Hst.
    destruct (isClusterMatched cluster (policy o)) as [m|e|p]; cbn [obind is_ok].
    + rewrite IH. destruct m; [rewrite decide_True by done|rewrite decide_False by done];
        rewrite <- ?(assoc_L app); cbn; tauto.
    + split; [done|]. intros [[? _] _]. done.
    + split; [done|]. intros [[? _] _]. done.
Qed.

Lemma croLess_tie cros :
  NoDup (cro_name <$> cros) -> forall x y, x ∈ cros -> y ∈ cros ->
  croLess x y = false -> croLess y x = false -> x = y.
Proof. intros Hnd x y Hx Hy H1 H2. eapply NoDup_fmap_eq; [exact Hnd|done|done|]. by apply str_lt_false_eq. Qed.

Lemma roLess_tie ros :
  NoDup (ro_name <$> ros) -> forall x y, x ∈ ros -> y ∈ ros ->
  roLess x y = false -> roLess y x = false -> x = y.
Proof.
  intros Hnd x y Hx Hy. unfold roLess. cbn. intros H1 H2. eapply NoDup_fmap_eq; [exact Hnd|done|done|].
  unfold ro_name. repeat case_decide; try congruence.
  - f_equal; [by apply str_lt_false_eq|done].
  - exfalso. by apply H, str_lt_false_eq.
Qed.

Lemma filterMatched_sorted {A} (policy : A -> option OverridePolicy) (less : A -> A -> bool)
    `{!GoLess less} cluster os os' fs :
  (forall x y, x ∈ os -> y ∈ os -> less x y = false -> less y x = false -> x = y) -> os ≡ₚ os' ->
  filterMatched policy cluster os = Ok fs ->
  exists fs', filterMatched policy cluster os' = Ok fs' /\ go_sort less fs' = go_sort less fs.
Proof.
  intros Htie Hp. rewrite filterMatched_Ok. intros [Hok ->].
  exists (filter (fun o => isClusterMatched cluster (policy o) = Ok true) os'). rewrite filterMatched_Ok.
  split; [split; [by rewrite <- Hp|done]|]. symmetry. apply go_sort_Permutation_eq; [done| |by rewrite Hp].
  intros x y [_ Hx]%list_elem_of_filter [_ Hy]%list_elem_of_filter. by apply Htie.
Qed.

Context {W : Type} {R : SnapshotReader W}.

(** the overrides picked for a cluster do not depend on the order in which
    the override snapshots were listed.  The rollout controller compares the
    picked lists with the ones stored in a binding, so a binding is not
    rolled again because a list call answered in another order. *)
Theorem overrides_any_order target cros cros' ros ros' (w w' : W) r :
  NoDup (cro_name <$> cros) -> NoDup (ro_name <$> ros) -> cros ≡ₚ cros' -> ros ≡ₚ ros' ->
  PickFromResourceMatchedOverridesForTargetCluster target cros ros w = (w', Ok r) ->
  PickFromResourceMatchedOverridesForTargetCluster target cros' ros' w = (w', Ok r).
Proof.
  intros Hn1 Hn2 Hp1 Hp2. unfold PickFromResourceMatchedOverridesForTargetCluster.
  destruct (decide (cros = [] /\ ros = [])) as [[-> ->]|Hne].
  { by apply Permutation_nil_l in Hp1 as <-; apply Permutation_nil_l in Hp2 as <-. }
  assert (forall (m1 m2 : hub W (list string * list NamespacedName)),
    match cros, ros with [], [] => m1 | _, _ => m2 end = m2) as E1 by (destruct cros, ros; naive_solver).
  assert (forall (m1 m2 : hub W (list string * list NamespacedName)),
    match cros', ros' with [], [] => m1 | _, _ => m2 end = m2) as E2.
  { destruct cros', ros'; try done. exfalso. apply Hne.
    by rewrite Permutation_nil_r in Hp1; rewrite Permutation_nil_r in Hp2. }
  rewrite E1, E2. unfold hbind, hlift. destruct (hmap_err _ _ w) as [w1 [cluster|e|p]]; [|done|done].
  intros [= <- Hr]. f_equal. unfold pickForCluster in *. apply obind_Ok in Hr as (c1 & Hc & Hr).
  apply obind_Ok in Hr as (r1 & Hr1 & [= <-]).
  destruct (filterMatched_sorted _ croLess _ _ _ _ (croLess_tie _ Hn1) Hp1 Hc) as (c2 & -> & Hc2).
  destruct (filterMatched_sorted _ roLess _ _ _ _ (roLess_tie _ Hn2) Hp2 Hr1) as (r2 & -> & Hr2).
  cbn [obind]. by rewrite Hc2, Hr2.
Qed.

Context {M : ManifestLib}.

(** The candidates of one resource. *)
Definition collected (raw : string) : candidateSet * candidateSet :=
  match collectOverrideCandidatesFromSelectedResource raw with Ok c => c | _ => ([], []) end.

Lemma possibleOverrides_Ok rs pc :
  possibleOverrides rs = Ok pc <->
  Forall (fun raw => is_ok (collectOverrideCandidatesFromSelectedResource raw) = true) rs /\
  pc = (rs ≫= (fun raw => (collected raw).1), rs ≫= (fun raw => (collected raw).2)).
Proof.
  unfold possibleOverrides.
  enough (forall acc, ofold (fun acc raw =>
    let! (cros, ros) := collectOverrideCandidatesFromSelectedResource raw in
    Ok (acc.1 ++ cros, acc.2 ++ ros)) acc rs = Ok pc <->
    Forall (fun raw => is_ok (collectOverrideCandidatesFromSelectedResource raw) = true) rs /\
    pc = (acc.1 ++ (rs ≫= (fun raw => (collected raw).1)), acc.2 ++ (rs ≫= (fun raw => (collected raw).2)))) as H
    by apply H.
  induction rs as [|raw rs IH]; intros [a b]; cbn [ofold mbind list_bind fst snd].
  - rewrite !app_nil_r. split; [intros [= <-]; done|intros [_ ->]; done].
  - rewrite Forall_cons. unfold collected at 1 3.
    destruct (collectOverrideCandidatesFromSelectedResource raw) as [[c r]|e|p]; cbn [obind is_ok fst snd].
    + rewrite IH. cbn [fst snd]. rewrite !(assoc_L app). tauto.
    + split; [done|]. by intros [[? _] _].
    + split; [done|]. by intros [[? _] _].
Qed.

Lemma croSelected_perm key pc pc' o : pc ≡ₚ pc' -> croSelected key pc o = croSelected key pc' o.
Proof.
  intros Hp. unfold croSelected. f_equal. induction (cro_ClusterResourceSelectors o) as [|s r IH]; [done|].
  cbn. rewrite IH. f_equal. apply bool_decide_ext. by rewrite Hp.
Qed.

Lemma roSelected_perm key pr pr' o : pr ≡ₚ pr' -> roSelected key pr o = roSelected key pr' o.
Proof.
  intros Hp. unfold roSelected. f_equal. induction (ro_ResourceSelectors o) as [|s r IH]; [done|].
  cbn. rewrite IH. f_equal. apply bool_decide_ext. by rewrite Hp.
Qed.

Lemma possibleOverrides_perm rs rs' pc pr :
  rs ≡ₚ rs' -> possibleOverrides rs = Ok (pc, pr) ->
  exists pc' pr', possibleOverrides rs' = Ok (pc', pr') /\ pc ≡ₚ pc' /\ pr ≡ₚ pr'.
Proof.
  intros Hp. rewrite possibleOverrides_Ok. intros [Hok [= -> ->]].
  do 2 eexists. rewrite possibleOverrides_Ok. split; [split; [by rewrite <- Hp|done]|].
  by rewrite Hp.
Qed.

Lemma matchOverrides_perm order1 order2 key master cros ros (w w' : W) r :
  (forall A (l : list (string * A)), order1 A l ≡ₚ l) -> (forall A (l : list (string * A)), order2 A l ≡ₚ l) ->
  matchOverrides order1 key master cros ros w = (w', Ok r) ->
  matchOverrides order2 key master cros ros w = (w', Ok r).
Proof.
  intros H1 H2. unfold matchOverrides, hbind.
  destruct (FetchAllResourceSnapshotsAlongWithMaster key master w) as [w3 [m| |]]; [|done|done].
  unfold hlift. destruct (possibleOverrides ((order1 _ _).*2 ≫= _)) as [[pc pr]| |] eqn:Hp; [|done|done].
  eapply (possibleOverrides_perm _ ((order2 _ (map_to_list m)).*2 ≫= rsnap_SelectedResources)) in Hp
    as (pc' & pr' & -> & Hc & Hr); [|by rewrite H1, H2].
  intros [= <- <-]. unfold hret. do 3 f_equal.
  - apply list_filter_iff. intros o. by rewrite (croSelected_perm key pc pc').
  - apply list_filter_iff. intros o. by rewrite (roSelected_perm key pr pr').
Qed.

(** the overrides that apply to a placement do not depend on the order in
    which Go happens to iterate over the map of its resource snapshots. *)
Theorem fetch_any_map_order order1 order2 key master (w w' : W) r :
  (forall A (l : list (string * A)), order1 A l ≡ₚ l) -> (forall A (l : list (string * A)), order2 A l ≡ₚ l) ->
  FetchAllMatchingOverridesForResourceSnapshot order1 key master w = (w', Ok r) ->
  FetchAllMatchingOverridesForResourceSnapshot order2 key master w = (w', Ok r).
Proof.
  intros H1 H2. unfold FetchAllMatchingOverridesForResourceSnapshot, hbind.
  destruct (hub_list_cros _ w) as [w1 [cros| |]]; [|done|done].
  destruct (hub_list_ros _ w1) as [w2 [ros| |]]; [|done|done].
  destruct cros, ros; [done|by apply matchOverrides_perm..].
Qed.

(** A manifest that is not an envelope and lives in a namespace. *)
Definition plain_namespaced (u : Unstructured) : Prop :=
  u_gvk u <> PlacementGroupVersion ClusterResourceEnvelopeType /\
  u_gvk u <> PlacementGroupVersion ResourceEnvelopeType /\ IsClusterScopedResources (u_gvk u) = false.

(** a ClusterResourceOverride that selects a namespace applies to every
    placement it may apply to that has a resource in the namespace: it is
    among the fetched overrides as soon as the fetch succeeds, the override
    is listed, and one selected resource of the placement is in the
    namespace. *)
Theorem namespace_override_applies order key master (w w' : W) cros ros wl lo wo lr o s u raw :
  (forall A (l : list (string * A)), order A l ≡ₚ l) ->
  FetchAllMatchingOverridesForResourceSnapshot order key master w = (w', Ok (cros, ros)) ->
  hub_list_cros {[IsLatestSnapshotLabel := "true"]} w = (wl, Ok lo) -> o ∈ lo ->
  hub_list_ros {[IsLatestSnapshotLabel := "true"]} wl = (wo, Ok lr) ->
  match cro_Placement o with Some p => plref_Name p = key | None => True end ->
  s ∈ cro_ClusterResourceSelectors o ->
  mkGVK (rsel_Group s) (rsel_Version s) (rsel_Kind s) = NamespaceMetaGVK -> rsel_Name s = u_namespace u ->
  UnmarshalJSON raw = Ok u -> plain_namespaced u ->
  (exists snaps n sn, (FetchAllResourceSnapshotsAlongWithMaster key master wo).2 = Ok snaps /\
     snaps !! n = Some sn /\ raw ∈ rsnap_SelectedResources sn) ->
  o ∈ cros.
Proof.
  intros Ho Hf Hl Hin Hlr Hpl Hs Hgvk Hname Hu (Hne1 & Hne2 & Hsc) (snaps & n & sn & Hsn & Hn & Hraw).
  unfold FetchAllMatchingOverridesForResourceSnapshot, hbind in Hf. rewrite Hl, Hlr in Hf.
  destruct lo as [|o' lo]; [by apply not_elem_of_nil in Hin|]. unfold matchOverrides, hbind in Hf.
  destruct (FetchAllResourceSnapshotsAlongWithMaster key master wo) as [w3 r3]. cbn in Hsn. subst r3.
  unfold hlift in Hf. destruct (possibleOverrides _) as [[pc pr]| |] eqn:Hp in Hf; [|done|done].
  injection Hf as _ <- _. apply list_elem_of_filter. split; [|done].
  apply possibleOverrides_Ok in Hp as [_ [= -> _]]. unfold croSelected. apply andb_true_iff. split.
  { destruct (cro_Placement o); [|done]. by apply bool_decide_eq_true. }
  apply existsb_exists. exists s. split; [by apply list_elem_of_In|]. apply bool_decide_eq_true.
  apply list_elem_of_bind. exists raw. split.
  - unfold collected, collectOverrideCandidatesFromSelectedResource. rewrite Hu. cbn [unexpected obind].
    rewrite !decide_False by done. unfold addCandidatesFromResource. rewrite Hsc. cbn.
    apply list_elem_of_singleton. injection Hgvk as -> -> ->. unfold namespaceCROCandidate. by rewrite Hname.
  - apply list_elem_of_bind. exists sn. split; [done|]. rewrite Ho. apply list_elem_of_fmap.
    exists (n, sn). split; [done|]. by apply elem_of_map_to_list.
Qed.

End OverriderProofs.

(** ** Snapshots and manifests to evaluate the model on *)

Module Static.

(** The objects the overrides are computed from, beside the rest of a world. *)
Record objects : Type := mkObjects {
  st_clusters : list MemberCluster;
  st_snapshots : list ResourceSnapshotObj;
  st_cros : list ClusterResourceOverrideSnapshot;
  st_ros : list ResourceOverrideSnapshot;
  st_placements : list PlacementObj;
}.

Definition has_labels (ls : gmap string string) (m : ObjectMeta) : bool :=
  forallb (fun kv => bool_decide (meta_labels m !! kv.1 = Some kv.2)) (map_to_list ls).

#[global] Instance static_reader (X : Type) : SnapshotReader (X * objects) := {
  hub_get_cluster name w :=
    (w, match list_find (fun c => mc_name c = name) (st_clusters w.2) with
        | Some (_, c) => Ok c
        | None => Err (ErrAPI NotFound name)
        end);
  hub_list_resource_snapshots ns ls w :=
    (w, Ok (filter (fun s => meta_namespace (rsnap_meta s) = ns /\ has_labels ls (rsnap_meta s) = true)
              (st_snapshots w.2)));
  hub_list_cros ls w := (w, Ok (filter (fun o => has_labels ls (cro_meta o) = true) (st_cros w.2)));
  hub_list_ros ls w := (w, Ok (filter (fun o => has_labels ls (ro_meta o) = true) (st_ros w.2)));
}.

(** A manifest is written [group/version/kind/namespace/name]; one without a
    namespace is of a cluster-scoped kind. *)
#[global] Instance slash_manifests : ManifestLib := {
  UnmarshalJSON raw :=
    match str_split slash raw with
    | [g; v; k; ns; n] => Ok (mkUnstructured (mkGVK g v k) ns n)
    | _ => Err (ErrPlain "invalid manifest")
    end;
  UnmarshalEnvelope raw := Err (ErrPlain "not an envelope");
  IsClusterScopedResources gvk := bool_decide (gvk_Kind gvk = "Namespace");
}.

Definition in_order (A : Type) (l : list (string * A)) : list (string * A) := l.
Definition backwards (A : Type) (l : list (string * A)) : list (string * A) := reverse l.

Definition latest : gmap string string := {[IsLatestSnapshotLabel := "true"]}.

Definition ex_snapshot (name : string) (annotations : gmap string string) (rs : list string) : ResourceSnapshotObj :=
  mkResourceSnapshot (mkObjectMeta name EmptyString
    (<[PlacementTrackingLabel := "web"]> (<[ResourceIndexLabel := "0"]> latest)) annotations [] None 1 1) rs.

Definition ex_master : ResourceSnapshotObj :=
  ex_snapshot "web-0-snapshot"
    (<[ResourceGroupHashAnnotation := "5f3a"]> {[NumberOfResourceSnapshotsAnnotation := "2"]})
    ["apps/v1/Deployment/prod/front"].

Definition ex_all_clusters : option OverridePolicy :=
  Some (mkOverridePolicy [mkOverrideRule (Some (mkClusterSelector [])) DeleteOverrideType []]).

Definition ex_cro (name : string) (selected : string) : ClusterResourceOverrideSnapshot :=
  mkCRO (new_meta name EmptyString latest []) (Some (mkPlacementRef "web" "Cluster"))
    [mkResourceSelector EmptyString "v1" "Namespace" selected None EmptyString] ex_all_clusters.

Definition ex_ro (name : string) : ResourceOverrideSnapshot :=
  mkRO (new_meta name "prod" latest []) None [mkSelector "apps" "v1" "Deployment" "back"] ex_all_clusters.

Definition ex_objects : objects :=
  mkObjects [Sample.cluster "east" ∅ 0] [ex_master; ex_snapshot "web-0-1" ∅ ["apps/v1/Deployment/prod/back"]]
    [ex_cro "cro-b" "prod"; ex_cro "cro-a" "prod"; ex_cro "cro-c" "test"] [ex_ro "ro-a"] [].

Definition ex_world : unit * objects := (tt, ex_objects).

Lemma overrides_any_order_witness :
  PickFromResourceMatchedOverridesForTargetCluster (K := RefLib.ref_lib) "east"
    [ex_cro "cro-a" "prod"; ex_cro "cro-b" "prod"] [ex_ro "ro-a"] ex_world =
  (ex_world, Ok (["cro-a"; "cro-b"], [mkNamespacedName "ro-a" "prod"])).
Proof.
  apply (overrides_any_order "east" [ex_cro "cro-b" "prod"; ex_cro "cro-a" "prod"] _ [ex_ro "ro-a"] _).
  - by_decide.
  - by_decide.
  - apply perm_swap.
  - reflexivity.
  - by_evaluation.
Defined.

Lemma fetch_any_map_order_witness :
  FetchAllMatchingOverridesForResourceSnapshot backwards "web" ex_master ex_world =
  (ex_world, Ok ([ex_cro "cro-b" "prod"; ex_cro "cro-a" "prod"], [ex_ro "ro-a"])).
Proof.
  apply (fetch_any_map_order in_order backwards).
  - reflexivity.
  - intros A l. apply reverse_Permutation.
  - by_evaluation.
Defined.

Lemma namespace_override_applies_witness :
  exists cros ros,
    FetchAllMatchingOverridesForResourceSnapshot in_order "web" ex_master ex_world = (ex_world, Ok (cros, ros)) /\
    ex_cro "cro-a" "prod" ∈ cros.
Proof.
  exists [ex_cro "cro-b" "prod"; ex_cro "cro-a" "prod"], [ex_ro "ro-a"].
  split; [by_evaluation|].
  apply (namespace_override_applies in_order "web" ex_master ex_world ex_world _ [ex_ro "ro-a"] ex_world
    (st_cros ex_objects) ex_world (st_ros ex_objects) _
    (mkResourceSelector EmptyString "v1" "Namespace" "prod" None EmptyString)
    (mkUnstructured (mkGVK "apps" "v1" "Deployment") "prod" "front") "apps/v1/Deployment/prod/front").
  - reflexivity.
  - by_evaluation.
  - by_evaluation.
  - do 1 right. left.
  - by_evaluation.
  - reflexivity.
  - left.
  - reflexivity.
  - reflexivity.
  - by_evaluation.
  - split_and!; [discriminate|discriminate|by_evaluation].
  - exists (<["web-0-1" := ex_snapshot "web-0-1" ∅ ["apps/v1/Deployment/prod/back"]]>
      {["web-0-snapshot" := ex_master]}), "web-0-snapshot", ex_master.
    split_and!; [by_evaluation|by_evaluation|left].
Defined.

End Static.
