(* ===== verification/Eligibility.v ===== *)
(** * Which resources may be placed

    Models [pkg/utils/resourceeligibility]: the patterns of kinds kept in a
    trie, the layered checkers of namespaces, kinds and objects, and the
    syntax of the lists of kinds.  [Register] and [Match] refine a list of
    patterns; every checker that wraps the baseline forbids what the baseline
    forbids; printing a pattern and parsing it gives the pattern back.

    [meta.RESTMapper.KindsFor] is an argument.  [DeepCopy] is the identity: a
    model without pointers has no aliasing to break. *)

From stdpp Require Import prelude gmap strings.
From S2P Require Import Prelude K8s Api Sample Utils Hub Overrider.

Local Open Scope string_scope.
Local Open Scope list_scope.

(** ** The trie *)

Definition wildcard : string := "*".

Inductive gvkMatcherTrieNode : Set := mkNode { children : gmap string gvkMatcherTrieNode }.

Definition emptyNode : gvkMatcherTrieNode := mkNode ∅.

(** The loop of [Register] along the edges. *)
Fixpoint registerEdges (edges : list string) (node : gvkMatcherTrieNode) : gvkMatcherTrieNode :=
  match edges with
  | [] => node
  | edge :: r => mkNode (<[edge := registerEdges r (default emptyNode (children node !! edge))]> (children node))
  end.

Definition orWildcard (s : string) : string := if decide (s = EmptyString) then wildcard else s.

Definition patternEdges (gvk : GroupVersionKind) : list string :=
  [gvk_Group gvk; orWildcard (gvk_Version gvk); orWildcard (gvk_Kind gvk)].

Definition Register (gvk : GroupVersionKind) (t : gvkMatcherTrieNode) : outcome gvkMatcherTrieNode :=
  if decide (gvk_Group gvk = wildcard) then Err (ErrPlain "cannot use wildcards for API groups")
  else Ok (registerEdges (patternEdges gvk) t).

Fixpoint walk (edges : list string) (node : gvkMatcherTrieNode) : bool :=
  match edges with
  | [] => true
  | edge :: r =>
      match children node !! wildcard with Some child => walk r child | None => false end ||
      match children node !! edge with Some child => walk r child | None => false end
  end.

Definition Match (t : gvkMatcherTrieNode) (gvk : GroupVersionKind) : bool :=
  walk [gvk_Group gvk; gvk_Version gvk; gvk_Kind gvk] t.

(** ** Checkers *)

Definition NamespaceEligibilityModeAllowList : string := "AllowList".
Definition NamespaceEligibilityModeDenyList : string := "DenyList".
Definition GVKEligibilityModeAllowList : string := "AllowList".
Definition GVKEligibilityModeDenyList : string := "DenyList".

Inductive checker : Set := mkChecker {
  nsEligibilityMode : string;
  customNSList : list string;
  customNSPrefixList : list string;
  gvkEligibilityMode : string;
  customGVKList : gvkMatcherTrieNode;
  skipNSCheck : bool;
  skipGVKRCheck : bool;
  skipObjectCheck : bool;
  wrapped : option checker;
}.

(** [New], with the fields of [CheckerOptions]. *)
Definition New (skipNS skipGVKR skipObject : bool) (w : option checker) : checker :=
  mkChecker NamespaceEligibilityModeDenyList [] [] GVKEligibilityModeDenyList emptyNode
    skipNS skipGVKR skipObject w.

Definition newNonEmptyStringSet (items : list string) : list string := filter (fun i => i <> EmptyString) items.

Definition SetNamespaceCheckList (mode : string) (nsNames nsNamePrefixes : list string) (c : checker) : checker :=
  mkChecker mode (newNonEmptyStringSet nsNames) (newNonEmptyStringSet nsNamePrefixes) (gvkEligibilityMode c)
    (customGVKList c) (skipNSCheck c) (skipGVKRCheck c) (skipObjectCheck c) (wrapped c).

Definition SetGVKCheckList (mode : string) (gvks : list GroupVersionKind) (c : checker) : outcome checker :=
  let! list := ofold (fun t gvk => Register gvk t) emptyNode gvks in
  Ok (mkChecker (nsEligibilityMode c) (customNSList c) (customNSPrefixList c) mode list
        (skipNSCheck c) (skipGVKRCheck c) (skipObjectCheck c) (wrapped c)).

Definition Wraps (w c : checker) : checker :=
  mkChecker (nsEligibilityMode c) (customNSList c) (customNSPrefixList c) (gvkEligibilityMode c)
    (customGVKList c) (skipNSCheck c) (skipGVKRCheck c) (skipObjectCheck c) (Some w).

Definition HasPrefix (s prefix : string) : bool := match str_cut_prefix prefix s with Some _ => true | None => false end.

(** The verdict of one layer; an unknown mode lets everything through. *)
Definition layerAllows (mode : string) (listed : bool) : bool :=
  if decide (mode = NamespaceEligibilityModeAllowList) then listed
  else if decide (mode = NamespaceEligibilityModeDenyList) then negb listed
  else true.

Definition nsListed (c : checker) (namespace : string) : bool :=
  bool_decide (namespace ∈ customNSList c) || existsb (HasPrefix namespace) (customNSPrefixList c).

Fixpoint AllowsNamespace (c : checker) (namespace : string) : bool :=
  if decide (namespace = EmptyString) then true
  else if skipNSCheck c then
    match wrapped c with
    | Some w => AllowsNamespace w namespace
    | None => negb (bool_decide (nsEligibilityMode c = NamespaceEligibilityModeAllowList))
    end
  else if layerAllows (nsEligibilityMode c) (nsListed c namespace) then
    match wrapped c with Some w => AllowsNamespace w namespace | None => true end
  else false.

Fixpoint AllowsGVK (c : checker) (gvk : GroupVersionKind) : bool :=
  if skipGVKRCheck c then
    match wrapped c with
    | Some w => AllowsGVK w gvk
    | None => negb (bool_decide (gvkEligibilityMode c = GVKEligibilityModeAllowList))
    end
  else if layerAllows (gvkEligibilityMode c) (Match (customGVKList c) gvk) then
    match wrapped c with Some w => AllowsGVK w gvk | None => true end
  else false.

(** [KindsFor] of the REST mapper, for one resource. *)
Fixpoint AllowsGVR (kindsFor : outcome (list GroupVersionKind)) (c : checker) : outcome bool :=
  if skipGVKRCheck c then
    match wrapped c with
    | Some w => AllowsGVR kindsFor w
    | None => Ok (negb (bool_decide (gvkEligibilityMode c = GVKEligibilityModeAllowList)))
    end
  else
    let! gvks := owrap "failed to map the resource to its kinds" kindsFor in
    if decide (gvks = []) then Err (ErrPlain "no match is found given the GVR")
    else if forallb (AllowsGVK c) gvks then
      match wrapped c with Some w => AllowsGVR kindsFor w | None => Ok true end
    else Ok false.

(** ** Objects *)

(** What [AllowsObject] reads of an unstructured object: the controller flags
    of the owner references, and the string at [type], if it is a string. *)
Record sourceObject : Set := mkSource {
  so_gvk : GroupVersionKind;
  so_namespace : string;
  so_name : string;
  so_deleting : bool;
  so_owners : list (option bool);
  so_type : outcome (option string);
}.

Definition coreKind (kind : string) : GroupVersionKind := mkGVK EmptyString "v1" kind.

Definition SecretTypeServiceAccountToken : string := "kubernetes.io/service-account-token".

Definition hasControllerOwner (obj : sourceObject) : bool :=
  existsb (fun o => match o with Some b => b | None => false end) (so_owners obj).

(** The switch of [AllowsObject]: false when it returned that the object is
    not eligible. *)
Definition objectPasses (obj : sourceObject) : outcome bool :=
  if so_deleting obj then Ok false
  else if hasControllerOwner obj then Ok false
  else if decide (so_gvk obj = coreKind "ConfigMap" /\ so_name obj = "kube-root-ca.crt") then Ok false
  else if decide (so_gvk obj = coreKind "ServiceAccount" /\ so_name obj = "default") then Ok false
  else if decide (so_gvk obj = coreKind "Service" /\ so_namespace obj = "default" /\ so_name obj = "kubernetes")
  then Ok false
  else if decide (so_gvk obj = coreKind "Secret") then
    let! t := owrap "failed to retrieve the type of the secret" (so_type obj) in
    Ok (negb (bool_decide (t = Some SecretTypeServiceAccountToken)))
  else if decide (so_gvk obj = coreKind "Namespace" /\ so_name obj = "default") then Ok false
  else Ok true.

Fixpoint AllowsObject (c : checker) (obj : sourceObject) : outcome bool :=
  if skipObjectCheck c then
    match wrapped c with Some w => AllowsObject w obj | None => Ok true end
  else
    let! passes := objectPasses obj in
    if (passes : bool) then match wrapped c with Some w => AllowsObject w obj | None => Ok true end
    else Ok false.

(** ** The checkers of the agents *)

Definition KubeNSNamePrefix : string := "kube-".
Definition FleetNSNamePrefix : string := "fleet-".
Definition PlacementGroup : string := "placement.kubernetes-fleet.io".
Definition ClusterGroup : string := "cluster.kubernetes-fleet.io".
Definition NetworkingGroupName : string := "networking.fleet.azure.com".

Definition allOf (group : string) : GroupVersionKind := mkGVK group EmptyString EmptyString.
Definition anyVersion (group kind : string) : GroupVersionKind := mkGVK group EmptyString kind.

Definition GVKsDeniedByDefault : list GroupVersionKind :=
  [allOf ClusterGroup; anyVersion EmptyString "Node"; anyVersion EmptyString "Pod"; allOf "events.k8s.io";
   allOf "coordination.k8s.io"; allOf "metrics.k8s.io"; anyVersion NetworkingGroupName "ServiceImport";
   anyVersion NetworkingGroupName "TrafficManagerProfile"; anyVersion NetworkingGroupName "TrafficManagerBackend"] ++
  (anyVersion PlacementGroup <$>
    ["ClusterResourcePlacement"; "ResourcePlacement"; "ClusterResourceBinding"; "ResourceBinding";
     "ClusterResourceSnapshot"; "ResourceSnapshot"; "ClusterSchedulingPolicySnapshot"; "SchedulingPolicySnapshot";
     "Work"; "ClusterStagedUpdateRun"; "ClusterStagedUpdateStrategy"; "ClusterApprovalRequest"; "StagedUpdateRun";
     "StagedUpdateStrategy"; "ApprovalRequest"; "ClusterResourcePlacementEviction";
     "ClusterResourcePlacementDisruptionBudget"; "ClusterResourceOverride"; "ClusterResourceOverrideSnapshot";
     "ResourceOverride"; "ResourceOverrideSnapshot"; "ClusterResourcePlacementStatus"]) ++
  [allOf "placement.kubefleet.dev"; allOf "rollout.kubefleet.dev"].

Definition GVKsDeniedForV1APIs : list GroupVersionKind :=
  [anyVersion EmptyString "Endpoints"; anyVersion PlacementGroup "ClusterResourceEnvelope";
   anyVersion PlacementGroup "ResourceEnvelope"].

(** A default list that is refused makes the agent panic. *)
Definition or_panic {A} (m : outcome A) : outcome A :=
  match m with Err e => Panic ("failed to register the default GVK deny list: " +:+ error_msg e) | _ => m end.

Definition baseline (skipObject : bool) : outcome checker :=
  let c := SetNamespaceCheckList NamespaceEligibilityModeDenyList [] [KubeNSNamePrefix; FleetNSNamePrefix]
    (New false false skipObject None) in
  or_panic (SetGVKCheckList GVKEligibilityModeDenyList GVKsDeniedByDefault c).

Definition Baseline : outcome checker := baseline false.

Definition AllowAll : checker := New false false false None.

Definition DefaultForV0APIs : outcome checker :=
  let! b := baseline true in Ok (New true false true (Some b)).

Definition DefaultForV1APIs : outcome checker :=
  let! b := Baseline in
  or_panic (SetGVKCheckList GVKEligibilityModeDenyList GVKsDeniedForV1APIs (New true false true (Some b))).

(** ** The syntax of lists of kinds *)

Definition coreAPIVersion : string := "v1".

(** The loop over the kinds of an entry. *)
Definition parseKinds (group version kindSegment : string) : outcome (list GroupVersionKind) :=
  let kinds := str_split comma kindSegment in
  ofold (fun gvks kind =>
    let kind := TrimSpace kind in
    if bool_decide (kind = EmptyString) && (1 <? length kinds)%nat then Err (ErrPlain "kind cannot be empty")
    else Ok (gvks ++ [mkGVK group version kind])) [] kinds.

Definition ParseOneGVK (input : string) : outcome (list GroupVersionKind) :=
  match TrimSpace <$> str_split slash input with
  | first :: rest =>
      if decide (first = coreAPIVersion) then
        match rest with
        | [] => Ok [mkGVK EmptyString coreAPIVersion EmptyString]
        | [kinds] => parseKinds EmptyString coreAPIVersion kinds
        | _ => Err (ErrPlain "core API group entry must be in the form of v1 or v1/<kind>[,<kind>...]")
        end
      else if decide (first = EmptyString \/ first = wildcard) then
        Err (ErrPlain "the API group segment cannot be empty or a wildcard")
      else
        match rest with
        | [] => Ok [mkGVK first EmptyString EmptyString]
        | [version] => Ok [mkGVK first version EmptyString]
        | [version; kinds] => parseKinds first version kinds
        | _ => Err (ErrPlain "entry must be in the form of <group>, <group>/<version>, or <group>/<version>/<kind>[,<kind>...]")
        end
  | [] => nil_dereference
  end.

Definition ParseGVKs (input : string) : outcome (list GroupVersionKind) :=
  let input := TrimSpace input in
  if decide (input = EmptyString) then Ok []
  else
    ofold (fun gvks entry => let! entryGVKs := ParseOneGVK entry in Ok (gvks ++ entryGVKs)) []
      (str_split semicolon input).

(** ** The trie refines a list of patterns *)

#[local] Arguments Match : simpl never.
#[local] Arguments Register : simpl never.

Definition edgeMatches (pattern edge : string) : bool :=
  bool_decide (pattern = wildcard) || bool_decide (pattern = edge).

(** What a pattern means: the group is the same, and a version or a kind that
    is left open, or is the wildcard, stands for all. *)
Definition patternMatches (gvk pattern : GroupVersionKind) : bool :=
  bool_decide (gvk_Group pattern = gvk_Group gvk) &&
  edgeMatches (orWildcard (gvk_Version pattern)) (gvk_Version gvk) &&
  edgeMatches (orWildcard (gvk_Kind pattern)) (gvk_Kind gvk).

Fixpoint edgesMatch (pattern edges : list string) : bool :=
  match pattern, edges with
  | p :: ps, e :: es => edgeMatches p e && edgesMatch ps es
  | [], [] => true
  | _, _ => false
  end.

Lemma walk_empty edges : edges <> [] -> walk edges emptyNode = false.
Proof. destruct edges; [done|]. cbn. by rewrite !lookup_empty. Qed.

Lemma walk_register pattern edges node :
  length pattern = length edges ->
  walk edges (registerEdges pattern node) = walk edges node || edgesMatch pattern edges.
Proof.
  revert edges node. induction pattern as [|p ps IH]; intros [|e es] node Hlen; try done. injection Hlen as Hlen.
  set (at_ k n := match children n !! k with Some child => walk es child | None => false end).
  assert (forall k, at_ k (registerEdges (p :: ps) node) = at_ k node || (bool_decide (p = k) && edgesMatch ps es)) as Hat.
  { intros k. unfold at_. cbn [registerEdges children]. destruct (decide (p = k)) as [->|Hne].
    - rewrite lookup_insert_eq, bool_decide_eq_true_2 by done. cbv beta iota. rewrite IH by done. cbn.
      destruct (children node !! k) as [child|]; [done|]. cbn.
      destruct es as [|e' es]; [by destruct ps|]. by rewrite walk_empty.
    - rewrite lookup_insert_ne, bool_decide_eq_false_2 by done. cbn. by rewrite orb_false_r. }
  change (at_ wildcard (registerEdges (p :: ps) node) || at_ e (registerEdges (p :: ps) node) =
    at_ wildcard node || at_ e node || edgesMatch (p :: ps) (e :: es)).
  rewrite !Hat. cbn [edgesMatch]. unfold edgeMatches.
  destruct (at_ wildcard node), (at_ e node), (bool_decide (p = wildcard)), (bool_decide (p = e)), (edgesMatch ps es); done.
Qed.

Lemma Register_Match p t t' gvk :
  Register p t = Ok t' -> Match t' gvk = Match t gvk || patternMatches gvk p.
Proof.
  unfold Register. destruct (decide _) as [|Hw]; [done|]. set (t1 := registerEdges _ _). intros [= <-].
  unfold Match, t1.
  rewrite walk_register by done. f_equal. unfold patternMatches, patternEdges. cbn [edgesMatch].
  unfold edgeMatches at 1. rewrite bool_decide_eq_false_2 by done. cbn.
  by rewrite andb_true_r, andb_assoc.
Qed.

Lemma Registers_Match ps t t' gvk :
  ofold (fun t gvk => Register gvk t) t ps = Ok t' ->
  Match t' gvk = Match t gvk || existsb (patternMatches gvk) ps.
Proof.
  revert t. induction ps as [|p ps IH]; intros t; cbn [ofold existsb]; [intros [= <-]; by rewrite orb_false_r|].
  destruct (Register p t) as [t1|e|q] eqn:Hr; cbn [obind]; [|done|done]. intros H.
  by rewrite (IH _ H), (Register_Match _ _ _ _ Hr), orb_assoc.
Qed.

Lemma Registers_ok ps t :
  is_ok (ofold (fun t gvk => Register gvk t) t ps) = forallb (fun p => negb (bool_decide (gvk_Group p = wildcard))) ps.
Proof.
  revert t. induction ps as [|p ps IH]; intros t; cbn [ofold forallb]; [done|].
  destruct (Register p t) as [t1|e|q] eqn:Hr; cbn [obind]; unfold Register in Hr;
    destruct (decide (gvk_Group p = wildcard)) as [Hw|Hw]; try done.
  - rewrite bool_decide_eq_false_2 by done. apply IH.
  - by rewrite bool_decide_eq_true_2.
Qed.

(** C28: the trie of a checker is a correct implementation of its list of
    patterns: the list is accepted exactly when no pattern has the wildcard
    as its group, and then a kind is found in the trie exactly when it matches
    a pattern of the list. *)
Theorem trie_refines_list mode gvks c :
  is_ok (SetGVKCheckList mode gvks c) = forallb (fun p => negb (bool_decide (gvk_Group p = wildcard))) gvks /\
  forall c' gvk, SetGVKCheckList mode gvks c = Ok c' ->
    gvkEligibilityMode c' = mode /\ Match (customGVKList c') gvk = existsb (patternMatches gvk) gvks.
Proof.
  unfold SetGVKCheckList. rewrite <- (Registers_ok gvks emptyNode).
  destruct (ofold _ emptyNode gvks) as [t|e|q] eqn:Ht; cbn; split; try done.
  intros c' gvk [= <-]. cbn. split; [done|]. by rewrite (Registers_Match _ _ _ gvk Ht).
Qed.

(** ** Layers *)

(** [over b c]: [b] is [c] or one of the checkers it wraps. *)
Inductive over (b : checker) : checker -> Prop :=
| over_refl : over b b
| over_wraps c w : wrapped c = Some w -> over b w -> over b c.

Lemma over_AllowsNamespace b c ns : over b c -> AllowsNamespace c ns = true -> AllowsNamespace b ns = true.
Proof.
  induction 1 as [|c w Hw _ IH]; [done|]. destruct c; cbn in *. subst.
  destruct (decide (ns = EmptyString)) as [->|]; [intros _; by destruct b|]. repeat case_match; try done; auto.
Qed.

Lemma over_AllowsGVK b c gvk : over b c -> AllowsGVK c gvk = true -> AllowsGVK b gvk = true.
Proof.
  induction 1 as [|c w Hw _ IH]; [done|]. destruct c; cbn in *. subst. repeat case_match; try done; auto.
Qed.

Lemma over_AllowsObject b c obj : over b c -> AllowsObject c obj = Ok true -> AllowsObject b obj = Ok true.
Proof.
  induction 1 as [|c w Hw _ IH]; [done|]. destruct c; cbn in *. subst.
  destruct (objectPasses obj) as [[]|e|p]; cbn; repeat case_match; try done; auto.
Qed.

Definition IsReservedNamespace (namespace : string) : bool :=
  HasPrefix namespace FleetNSNamePrefix || HasPrefix namespace KubeNSNamePrefix.

(** whatever layers are put over the baseline, what they let through is
    in no reserved namespace, matches none of the kinds denied by default, and
    is neither being deleted nor owned by a controller. *)
Theorem baseline_always_applies b c ns gvk obj :
  Baseline = Ok b -> over b c ->
  (AllowsNamespace c ns = true -> IsReservedNamespace ns = false) /\
  (AllowsGVK c gvk = true -> existsb (patternMatches gvk) GVKsDeniedByDefault = false) /\
  (AllowsObject c obj = Ok true -> so_deleting obj = false /\ hasControllerOwner obj = false).
Proof.
  intros Hb Hover. unfold Baseline, baseline, or_panic in Hb.
  destruct (SetGVKCheckList _ _ _) as [b'|e|p] eqn:Hset; try done. injection Hb as ->.
  unfold SetGVKCheckList in Hset. destruct (ofold _ _ _) as [t|e|p] eqn:Ht; try done. injection Hset as <-.
  split_and!.
  - intros Hns. apply (over_AllowsNamespace _ _ _ Hover) in Hns. unfold IsReservedNamespace.
    destruct (decide (ns = EmptyString)) as [->|Hne]; [done|]. cbn in Hns. rewrite decide_False in Hns by done.
    match type of Hns with context [nsListed ?c _] =>
      change (nsListed c ns) with (HasPrefix ns KubeNSNamePrefix || (HasPrefix ns FleetNSNamePrefix || false)) in Hns
    end.
    destruct (HasPrefix ns FleetNSNamePrefix), (HasPrefix ns KubeNSNamePrefix); done.
  - intros Hg. apply (over_AllowsGVK _ _ _ Hover) in Hg. cbn in Hg.
    rewrite <- (orb_false_l (existsb _ _)).
    change false with (Match emptyNode gvk) at 1. rewrite <- (Registers_Match _ _ _ _ Ht).
    by destruct (Match t gvk).
  - intros Ho. apply (over_AllowsObject _ _ _ Hover) in Ho. cbn in Ho. unfold objectPasses in Ho.
    destruct (so_deleting obj); [done|]. by destruct (hasControllerOwner obj).
Qed.

Lemma forallb_const {A} (b : bool) (l : list A) : l <> [] -> forallb (fun _ => b) l = b.
Proof. destruct b; [intros _; by induction l|by destruct l]. Qed.

(** a resource is eligible exactly when all of its kinds are: that the
    wrapped checkers are asked again for the resource changes nothing. *)
Theorem AllowsGVR_all_kinds c kinds :
  kinds <> [] -> AllowsGVR (Ok kinds) c = Ok (forallb (AllowsGVK c) kinds).
Proof.
  intros Hne. revert c. fix IH 1. intros [m ns pre gm t sn sg so w]. cbn [AllowsGVR].
  destruct sg; cbn [skipGVKRCheck wrapped].
  - destruct w as [w|]; [exact (IH w)|]. f_equal. cbn. by rewrite forallb_const.
  - cbn [owrap obind]. rewrite decide_False by done.
    destruct (forallb _ kinds) eqn:Hall; [|done]. destruct w as [w|]; [|done].
    rewrite (IH w). f_equal. apply forallb_forall. intros k Hk. rewrite forallb_forall in Hall.
    specialize (Hall k Hk). cbn in Hall. by destruct (layerAllows _ _).
Qed.

(** ** Printing and parsing *)

(** A visible character that separates nothing. *)
Definition plain_char (a : Ascii.ascii) : bool :=
  ((33 <=? byte a) && (byte a <=? 126))%Z &&
  negb (Ascii.eqb a slash || Ascii.eqb a comma || Ascii.eqb a semicolon).

Definition visible_char (a : Ascii.ascii) : bool := ((33 <=? byte a) && (byte a <=? 126))%Z.

Fixpoint all_chars (p : Ascii.ascii -> bool) (s : string) : bool :=
  match s with String a r => p a && all_chars p r | EmptyString => true end.

Definition printGVK (gvk : GroupVersionKind) : string :=
  if decide (gvk_Group gvk = EmptyString) then
    if decide (gvk_Kind gvk = EmptyString) then coreAPIVersion
    else coreAPIVersion +:+ String slash (gvk_Kind gvk)
  else if decide (gvk_Kind gvk = EmptyString) then
    if decide (gvk_Version gvk = EmptyString) then gvk_Group gvk
    else gvk_Group gvk +:+ String slash (gvk_Version gvk)
  else gvk_Group gvk +:+ String slash (gvk_Version gvk +:+ String slash (gvk_Kind gvk)).

Definition printGVKs (gvks : list GroupVersionKind) : string :=
  match printGVK <$> gvks with
  | [] => EmptyString
  | e :: es => e +:+ foldr (fun e r => String semicolon (e +:+ r)) EmptyString es
  end.

(** The core group has one version, and a group is neither its version nor the
    wildcard. *)
Definition printable (gvk : GroupVersionKind) : Prop :=
  all_chars plain_char (gvk_Group gvk) = true /\ all_chars plain_char (gvk_Version gvk) = true /\
  all_chars plain_char (gvk_Kind gvk) = true /\
  (gvk_Group gvk = EmptyString -> gvk_Version gvk = coreAPIVersion) /\
  gvk_Group gvk <> coreAPIVersion /\ gvk_Group gvk <> wildcard.

Lemma visible_not_space a :
  visible_char a = true -> is_space1 a = false /\ (forall b, is_space2 a b = false) /\ (forall b c, is_space3 a b c = false).
Proof.
  unfold visible_char. rewrite andb_true_iff, !Z.leb_le. intros [? ?].
  unfold is_space1, is_space2, is_space3. split_and!.
  - apply orb_false_iff. split; [apply andb_false_iff; right; apply Z.leb_gt; lia|apply Z.eqb_neq; lia].
  - intros b. apply andb_false_iff. left. apply Z.eqb_neq. lia.
  - intros b c. rewrite !orb_false_iff, !andb_false_iff. split_and!; left; left; apply Z.eqb_neq; lia.
Qed.

Lemma trim_left_visible s : all_chars visible_char s = true -> trim_left s = s.
Proof.
  destruct s as [|a r]; [done|]. cbn. rewrite andb_true_iff. intros [Ha _].
  destruct (visible_not_space a Ha) as (-> & H2 & H3).
  destruct r as [|b [|c r]]; rewrite ?H2, ?H3; done.
Qed.

Lemma TrimSpace_visible s : all_chars visible_char s = true -> TrimSpace s = s.
Proof.
  intros Hs. unfold TrimSpace. rewrite trim_left_visible by done.
  induction s as [|a r IH]; [done|]. cbn [trim_right]. rewrite trim_left_visible by done.
  rewrite decide_False by done. f_equal. apply IH. cbn in Hs. by apply andb_true_iff in Hs as [_ ?].
Qed.

Lemma all_chars_app p s t : all_chars p (s +:+ t) = all_chars p s && all_chars p t.
Proof. induction s as [|a s IH]; [done|]. rewrite string_app_cons. cbn [all_chars]. by rewrite IH, andb_assoc. Qed.

Lemma all_chars_impl (p q : Ascii.ascii -> bool) s :
  (forall a, p a = true -> q a = true) -> all_chars p s = true -> all_chars q s = true.
Proof.
  intros Hpq. induction s as [|a r IH]; cbn; [done|]. rewrite !andb_true_iff. intros [? ?]. auto.
Qed.

Lemma plain_visible s : all_chars plain_char s = true -> all_chars visible_char s = true.
Proof. apply all_chars_impl. intros a. unfold plain_char. by intros [? _]%andb_true_iff. Qed.

Lemma plain_not_contains c s :
  c ∈ [slash; comma; semicolon] -> all_chars plain_char s = true -> str_contains c s = false.
Proof.
  intros Hc. induction s as [|a r IH]; cbn; [done|]. rewrite andb_true_iff. intros [Ha Hr].
  rewrite (IH Hr), orb_false_r. unfold plain_char in Ha. apply andb_true_iff in Ha as [_ Ha%negb_true_iff].
  rewrite !orb_false_iff in Ha. set_solver.
Qed.

Lemma parseKinds_plain g v k : all_chars plain_char k = true -> parseKinds g v k = Ok [mkGVK g v k].
Proof.
  intros Hk. unfold parseKinds. rewrite str_split_none by (apply plain_not_contains; [set_solver|done]).
  cbn. rewrite andb_false_r. by rewrite TrimSpace_visible by (by apply plain_visible).
Qed.

Lemma ParseOneGVK_print gvk : printable gvk -> ParseOneGVK (printGVK gvk) = Ok [gvk].
Proof.
  destruct gvk as [g v k]. unfold printable, printGVK, ParseOneGVK. cbn [gvk_Group gvk_Version gvk_Kind].
  intros (Hg & Hv & Hk & Hcore & Hg1 & Hg2).
  assert (forall s, all_chars plain_char s = true -> str_contains slash s = false) as Hslash.
  { intros s. apply plain_not_contains. set_solver. }
  assert (forall s, all_chars plain_char s = true -> TrimSpace s = s) as Htrim.
  { intros s Hs. by apply TrimSpace_visible, plain_visible. }
  destruct (decide (g = EmptyString)) as [->|Hgne].
  - rewrite (Hcore eq_refl) in *. destruct (decide (k = EmptyString)) as [->|]; [done|].
    rewrite str_split_app, str_split_none by auto. cbn [fmap list_fmap].
    rewrite (Htrim k) by done. rewrite decide_True by done. by apply parseKinds_plain.
  - destruct (decide (k = EmptyString)) as [->|]; [destruct (decide (v = EmptyString)) as [->|]|];
      rewrite ?str_split_app, ?str_split_none by auto; cbn [fmap list_fmap];
      rewrite ?Htrim by done; rewrite !decide_False by (try done; tauto); try done.
    by apply parseKinds_plain.
Qed.

Lemma printGVK_chars gvk :
  printable gvk -> all_chars visible_char (printGVK gvk) = true /\ str_contains semicolon (printGVK gvk) = false /\
    printGVK gvk <> EmptyString.
Proof.
  destruct gvk as [g v k]. unfold printable, printGVK. cbn [gvk_Group gvk_Version gvk_Kind].
  intros (Hg & Hv & Hk & _).
  assert (forall s, all_chars plain_char s = true -> str_contains semicolon s = false) as Hsemi.
  { intros s. apply plain_not_contains. set_solver. }
  repeat destruct (decide _); subst; split_and!; try done;
    rewrite ?all_chars_app, ?str_contains_app; cbn [all_chars str_contains];
    rewrite ?all_chars_app, ?str_contains_app; cbn [all_chars str_contains];
    rewrite ?plain_visible, ?Hsemi by done; try done; by destruct g.
Qed.

Definition join_entries (es : list string) : string :=
  foldr (fun e r => String semicolon (e +:+ r)) EmptyString es.

Lemma split_entries e es :
  Forall (fun e => str_contains semicolon e = false) (e :: es) -> str_split semicolon (e +:+ join_entries es) = e :: es.
Proof.
  revert e. induction es as [|e' es IH]; intros e Hall; inversion Hall; subst; cbn.
  - rewrite string_app_nil_r. by apply str_split_none.
  - rewrite str_split_app by done. by rewrite IH.
Qed.

Lemma entries_visible es :
  Forall (fun e => all_chars visible_char e = true) es -> all_chars visible_char (join_entries es) = true.
Proof.
  induction 1 as [|e es He _ IH]; [done|].
  change (join_entries (e :: es)) with (String semicolon (e +:+ join_entries es)).
  cbn [all_chars]. by rewrite all_chars_app, He, IH.
Qed.

Lemma ParseEntries_print gvks acc :
  Forall printable gvks ->
  ofold (fun gvks entry => let! entryGVKs := ParseOneGVK entry in Ok (gvks ++ entryGVKs)) acc (printGVK <$> gvks) =
    Ok (acc ++ gvks).
Proof.
  intros Hall. revert acc. induction Hall as [|gvk gvks Hp _ IH]; intros acc; [cbn; by rewrite app_nil_r|].
  rewrite fmap_cons. cbn [ofold]. rewrite ParseOneGVK_print by done. cbn [obind]. rewrite IH. by rewrite <- app_assoc.
Qed.


(** ** Evaluations *)

Definition ex_patterns : list GroupVersionKind :=
  [mkGVK "apps" EmptyString "Deployment"; mkGVK "batch" EmptyString EmptyString; mkGVK EmptyString "v1" "ConfigMap"].


Lemma AllowsGVR_all_kinds_witness :
  AllowsGVR (Ok ex_patterns) (default AllowAll (match DefaultForV1APIs with Ok c => Some c | _ => None end)) =
  Ok (forallb (AllowsGVK (default AllowAll (match DefaultForV1APIs with Ok c => Some c | _ => None end))) ex_patterns).
Proof. exact (AllowsGVR_all_kinds _ ex_patterns ltac:(discriminate)). Defined.

Definition ex_baseline : checker := match Baseline with Ok c => c | _ => AllowAll end.

Lemma baseline_always_applies_witness :
  (AllowsNamespace (New true false true (Some ex_baseline)) "web" = true -> IsReservedNamespace "web" = false).
Proof.
  exact (proj1 (baseline_always_applies ex_baseline (New true false true (Some ex_baseline)) "web"
    (mkGVK "apps" "v1" "Deployment")
    (mkSource (mkGVK "apps" "v1" "Deployment") "web" "front" false [] (Ok None))
    ltac:(by_evaluation) (over_wraps _ (New true false true (Some ex_baseline)) ex_baseline eq_refl (over_refl _)))).
Defined.

(** The list of denied kinds is said to hold every kind of the placement group
    but the envelopes; [AppliedWork] is not in it. *)
Theorem AppliedWork_not_denied :
  AllowsGVK ex_baseline (mkGVK PlacementGroup "v1beta1" "AppliedWork") = true /\
  AllowsGVK ex_baseline (mkGVK PlacementGroup "v1beta1" "Work") = false.
Proof. split; by_evaluation. Qed.
