(* ===== verification/Rollout.v ===== *)
(** * The rollout controller

    Models [pkg/controllers/rollout/controller.go]: one reconciliation of a
    placement, which pushes the apply strategy to its bindings, waits for
    clusters that are still being cleaned up, and otherwise moves the
    bindings to the latest resources within the limits of the rolling update
    strategy; and the event handlers that decide which placement to reconcile.

    [now] is the value of [time.Now()], and [mapOrder] the order in which a
    range loop visits a map.  The call beyond those of [HubClient],
    [PlacementReader] and [SnapshotReader] is the class [RolloutClient]. *)

From stdpp Require Import prelude gmap strings.
From S2P Require Import Prelude K8s Api Sample Utils Defaulter FrameworkUtils Hub Overrider.

Local Open Scope string_scope.
Local Open Scope list_scope.

Import Defaulter.Defaulter.

Class RolloutClient (W : Type) : Type := {
  (** [Patch] with [client.MergeFrom], without the optimistic lock: the base
      and the modified object. *)
  hub_merge_binding : BindingObj -> BindingObj -> W -> W * option goerr;
}.

Section Pick.
Context {K : K8sLib}.

(** ** Readiness of a binding *)

(** The time to wait, negative when it is not known, and whether the binding
    is ready. *)
Definition isBindingReady (binding : BindingObj) (readyTimeCutOff : Z) : Z * bool :=
  let generation := meta_generation (b_meta binding) in
  if IsConditionStatusTrue (GetCondition binding ResourceBindingDiffReported) generation then (0%Z, true)
  else
    match GetCondition binding ResourceBindingAvailable with
    | Some availableCondition =>
        if IsConditionStatusTrue (Some availableCondition) generation then
          if bool_decide (cond_reason availableCondition <> WorkNotAvailabilityTrackableReason) &&
             bool_decide (cond_reason availableCondition <> WorkNotAllManifestsTrackableReason)
          then (0%Z, true)
          else
            let waitTime := time_sub (cond_last_transition availableCondition) readyTimeCutOff in
            if (waitTime <? 0)%Z then (0%Z, true) else (waitTime, false)
        else ((-1)%Z, false)
    | None => ((-1)%Z, false)
    end.

(** ** Candidates *)

(** [desiredBinding] is only set for a scheduled or bound binding. *)
Record toBeUpdatedBinding : Set := mkToBeUpdated {
  currentBinding : BindingObj;
  desiredBinding : option BindingObj;
}.

Definition createUpdateInfo (binding : BindingObj) (snapshotName : string) (cro : list string)
    (ro : list NamespacedName) : toBeUpdatedBinding :=
  let s := b_spec binding in
  mkToBeUpdated binding
    (Some (set_b_spec (mkBindingSpec BindingStateBound snapshotName ro cro
       (rbs_SchedulingPolicySnapshotName s) (rbs_TargetCluster s) (rbs_ClusterDecision s)
       (rbs_ApplyStrategy s)) binding)).

(** The lists that [pickBindingsToRoll] fills. *)
Record rollClasses : Set := mkRollClasses {
  schedulerTargetedBinds : list BindingObj;
  readyBindings : list BindingObj;
  canBeReadyBindings : list BindingObj;
  canBeUnavailableBindings : list BindingObj;
  boundingCandidates : list toBeUpdatedBinding;
  removeCandidates : list toBeUpdatedBinding;
  updateCandidates : list toBeUpdatedBinding;
  applyFailedUpdateCandidates : list toBeUpdatedBinding;
  upToDateBoundBindings : list toBeUpdatedBinding;
  minWaitTime : Z;
  allReady : bool;
}.

(** [if c { l = append(l, x) }] *)
Definition append_if {A} (c : bool) (l : list A) (x : A) : list A := if c then l ++ [x] else l.

(** The wait time after a binding that is not ready. *)
Definition shorterWait (ready : bool) (waitTime minWaitTime : Z) : Z :=
  if negb ready && (0 <=? waitTime)%Z && (waitTime <? minWaitTime)%Z then waitTime else minWaitTime.

(** The binding needs an update when it does not point to the latest resource
    snapshot, or to the latest overrides. *)
Definition needsUpdate (binding : BindingObj) (snapshotName : string) (cro : list string)
    (ro : list NamespacedName) : bool :=
  bool_decide (rbs_ResourceSnapshotName (b_spec binding) <> snapshotName) ||
  bool_decide (rbs_ClusterResourceOverrideSnapshots (b_spec binding) <> cro) ||
  bool_decide (rbs_ResourceOverrideSnapshots (b_spec binding) <> ro).

Definition classifyUnscheduled (readyTimeCutOff : Z) (acc : rollClasses) (binding : BindingObj) : rollClasses :=
  let '(waitTime, bindingReady) := isBindingReady binding readyTimeCutOff in
  let deleting := b_deleting binding in
  mkRollClasses (schedulerTargetedBinds acc)
    (append_if bindingReady (readyBindings acc) binding)
    (append_if (negb (HasBindingFailed binding) && negb (IsBindingDiffReported binding))
       (canBeReadyBindings acc) binding)
    (append_if (deleting && bindingReady) (canBeUnavailableBindings acc) binding)
    (boundingCandidates acc)
    (append_if (negb deleting) (removeCandidates acc) (mkToBeUpdated binding None))
    (updateCandidates acc) (applyFailedUpdateCandidates acc) (upToDateBoundBindings acc)
    (shorterWait bindingReady waitTime (minWaitTime acc)) (allReady acc && bindingReady).

Definition classifyScheduled (snapshotName : string) (cro : list string) (ro : list NamespacedName)
    (acc : rollClasses) (binding : BindingObj) : rollClasses :=
  mkRollClasses (schedulerTargetedBinds acc ++ [binding]) (readyBindings acc) (canBeReadyBindings acc)
    (canBeUnavailableBindings acc)
    (boundingCandidates acc ++ [createUpdateInfo binding snapshotName cro ro])
    (removeCandidates acc) (updateCandidates acc) (applyFailedUpdateCandidates acc)
    (upToDateBoundBindings acc) (minWaitTime acc) (allReady acc).

(** For a binding that is being deleted the overrides are not used. *)
Definition classifyBound (readyTimeCutOff : Z) (snapshotName : string) (cro : list string)
    (ro : list NamespacedName) (acc : rollClasses) (binding : BindingObj) : rollClasses :=
  let '(waitTime, bindingReady) := isBindingReady binding readyTimeCutOff in
  let bindingFailed := HasBindingFailed binding in
  let deleting := b_deleting binding in
  let stale := needsUpdate binding snapshotName cro ro in
  let updateInfo := createUpdateInfo binding snapshotName cro ro in
  mkRollClasses (schedulerTargetedBinds acc ++ [binding])
    (append_if bindingReady (readyBindings acc) binding)
    (append_if (negb bindingFailed && negb (IsBindingDiffReported binding)) (canBeReadyBindings acc) binding)
    (append_if (deleting && bindingReady) (canBeUnavailableBindings acc) binding)
    (boundingCandidates acc) (removeCandidates acc)
    (append_if (negb deleting && stale && negb bindingFailed) (updateCandidates acc) updateInfo)
    (append_if (negb deleting && stale && bindingFailed) (applyFailedUpdateCandidates acc) updateInfo)
    (append_if (negb deleting && negb stale) (upToDateBoundBindings acc) (mkToBeUpdated binding None))
    (shorterWait bindingReady waitTime (minWaitTime acc)) (allReady acc && bindingReady).

(** ** Limits of the rollout *)

(** [v, _ := intstr.GetScaledValueFromIntOrPercent(p, total, true)]: zero
    when there is an error. *)
Definition scaledOrZero (p : option IntOrString) (total : Z) : Z :=
  match p with
  | Some v => match GetScaledValueFromIntOrPercent v total true with Ok n => n | _ => 0%Z end
  | None => 0%Z
  end.

Definition llen {A} (l : list A) : Z := Z.of_nat (length l).

Definition calculateMaxToRemove (ru : RollingUpdateConfig) (targetNumber : Z)
    (ready canBeUnavailable : list BindingObj) : Z :=
  let maxUnavailableNumber := scaledOrZero (ru_MaxUnavailable ru) targetNumber in
  let minAvailableNumber := (targetNumber - maxUnavailableNumber)%Z in
  let lowerBoundAvailableNumber := (llen ready - llen canBeUnavailable)%Z in
  (lowerBoundAvailableNumber - minAvailableNumber)%Z.

Definition calculateMaxToAdd (ru : RollingUpdateConfig) (targetNumber : Z) (canBeReady : list BindingObj) : Z :=
  let maxSurgeNumber := scaledOrZero (ru_MaxSurge ru) targetNumber in
  let maxReadyNumber := (targetNumber + maxSurgeNumber)%Z in
  (maxReadyNumber - llen canBeReady)%Z.

Definition calculateRealTarget (placement : PlacementObj) (targeted : list BindingObj) : outcome Z :=
  match psp_Policy (pl_spec placement) with
  | None => nil_dereference
  | Some policy =>
      if decide (pol_PlacementType policy = PickAllPlacementType) then Ok (llen targeted)
      else if decide (pol_PlacementType policy = PickFixedPlacementType) then Ok (llen (pol_ClusterNames policy))
      else if decide (pol_PlacementType policy = PickNPlacementType) then
        match pol_NumberOfClusters policy with Some n => Ok n | None => nil_dereference end
      else Ok 0%Z
  end.

(** The bindings to update, and the stale ones that are left. *)
Definition determineBindingsToUpdate (ru : RollingUpdateConfig) (c : rollClasses) (targetNumber : Z)
    : list toBeUpdatedBinding * list toBeUpdatedBinding :=
  let maxNumberToRemove :=
    calculateMaxToRemove ru targetNumber (readyBindings c) (canBeUnavailableBindings c) in
  let i := if (0 <? maxNumberToRemove)%Z then Z.to_nat maxNumberToRemove else 0 in
  let removed := take i (removeCandidates c) in
  let updateIndex := (i - length removed) `min` length (updateCandidates c) in
  let maxNumberToAdd := calculateMaxToAdd ru targetNumber (canBeReadyBindings c) in
  let boundingIndex := Z.to_nat maxNumberToAdd `min` length (boundingCandidates c) in
  (applyFailedUpdateCandidates c ++ removed ++ take updateIndex (updateCandidates c) ++
     take boundingIndex (boundingCandidates c),
   drop updateIndex (updateCandidates c) ++ drop boundingIndex (boundingCandidates c)).

(** ** Clusters that are being cleaned up *)

Definition sameClusterError (binding other : BindingObj) : goerr :=
  NewUnexpectedBehaviorError (ErrPlain ("the same cluster `" +:+ b_target binding +:+ "` has bindings `" +:+
    b_name other +:+ "` and `" +:+ b_name binding +:+ "` pointing to it")).

(** [deletingBinding] and [bindingMap] after one more binding. *)
Definition separateDeleting (acc : gset string * gmap string BindingObj) (binding : BindingObj)
    : outcome (gset string * gmap string BindingObj) :=
  let '(deletingBinding, bindingMap) := acc in
  if b_deleting binding then Ok ({[b_target binding]} ∪ deletingBinding, bindingMap)
  else
    match bindingMap !! b_target binding with
    | None => Ok (deletingBinding, <[b_target binding := binding]> bindingMap)
    | Some other => Err (sameClusterError binding other)
    end.

Definition deletingNextToError (binding : BindingObj) : goerr :=
  NewUnexpectedBehaviorError (ErrPlain ("find a cluster `" +:+ b_target binding +:+ "` that has a binding `" +:+
    b_name binding +:+ "` that is or was bound and a deleting binding point to it")).

(** The first entry, in the order of the range loop, whose cluster also has a
    binding that is being deleted decides. *)
Fixpoint waitForFirst (deletingBinding : gset string) (entries : list (string * BindingObj)) : outcome bool :=
  match entries with
  | [] => Ok false
  | (cluster, binding) :: rest =>
      if decide (cluster ∈ deletingBinding) then
        if decide (b_state binding = BindingStateBound) then Err (deletingNextToError binding)
        else if decide (b_state binding = BindingStateUnscheduled) then
          if decide (b_annotations binding !! PreviousBindingStateAnnotation = Some BindingStateBound)
          then Err (deletingNextToError binding) else Ok true
        else Ok true
      else waitForFirst deletingBinding rest
  end.

Variable mapOrder : forall A : Type, list (string * A) -> list (string * A).

Definition waitForResourcesToCleanUp (allBindings : list BindingObj) : outcome bool :=
  let! (deletingBinding, bindingMap) := ofold separateDeleting (∅, ∅) allBindings in
  waitForFirst deletingBinding (mapOrder _ (map_to_list bindingMap)).

End Pick.

(** ** Reconciliation *)

Section Reconcile.
Context {K : K8sLib} {W : Type} {C : HubClient W} {R : SnapshotReader W} {P : PlacementReader W}.
Context {RC : RolloutClient W} {M : ManifestLib}.
Variable now : Z.
Variable mapOrder : forall A : Type, list (string * A) -> list (string * A).

(** One round of the classification loop. *)
Definition classifyForRollout (readyTimeCutOff : Z) (snapshotName : string)
    (matchedCROs : list ClusterResourceOverrideSnapshot) (matchedROs : list ResourceOverrideSnapshot)
    (acc : rollClasses) (binding : BindingObj) : hub W rollClasses :=
  let pick := PickFromResourceMatchedOverridesForTargetCluster (b_target binding) matchedCROs matchedROs in
  if decide (b_state binding = BindingStateUnscheduled) then hret (classifyUnscheduled readyTimeCutOff acc binding)
  else if decide (b_state binding = BindingStateScheduled) then
    let* (cro, ro) := pick in hret (classifyScheduled snapshotName cro ro acc binding)
  else if decide (b_state binding = BindingStateBound) then
    let* (cro, ro) := if b_deleting binding then hret ([], []) else pick in
    hret (classifyBound readyTimeCutOff snapshotName cro ro acc binding)
  else hret acc.

(** The bindings to update, the stale ones that are left, the up-to-date
    ones, whether a binding is out of date, and the time to wait. *)
Record rollPlan : Set := mkRollPlan {
  plan_toBeUpdated : list toBeUpdatedBinding;
  plan_stale : list toBeUpdatedBinding;
  plan_upToDate : list toBeUpdatedBinding;
  plan_needRoll : bool;
  plan_waitTime : Z;
}.

(** What follows the classification. *)
Definition planRollout (placement : PlacementObj) (ru : RollingUpdateConfig) (c : rollClasses)
    : outcome rollPlan :=
  let waitTime := if allReady c then 0%Z else minWaitTime c in
  let! targetNumber := calculateRealTarget placement (schedulerTargetedBinds c) in
  if (length (removeCandidates c) + length (updateCandidates c) + length (boundingCandidates c) +
      length (applyFailedUpdateCandidates c) =? 0)%nat
  then Ok (mkRollPlan [] [] (upToDateBoundBindings c) false waitTime)
  else
    let '(toBeUpdated, stale) := determineBindingsToUpdate ru c targetNumber in
    Ok (mkRollPlan toBeUpdated stale (upToDateBoundBindings c) true waitTime).

Definition pickBindingsToRoll (allBindings : list BindingObj) (snapshotName : string) (placement : PlacementObj)
    (matchedCROs : list ClusterResourceOverrideSnapshot) (matchedROs : list ResourceOverrideSnapshot)
    : hub W rollPlan :=
  match rs_RollingUpdate (psp_Strategy (pl_spec placement)) with
  | None => hlift nil_dereference
  | Some ru =>
      match ru_UnavailablePeriodSeconds ru with
      | None => hlift nil_dereference
      | Some seconds =>
          let readyTimeCutOff := (now + wrap64 (wrap64 (- seconds) * second))%Z in
          let* c := hfold (classifyForRollout readyTimeCutOff snapshotName matchedCROs matchedROs)
            (mkRollClasses [] [] [] [] [] [] [] [] [] (wrap64 (seconds * second)) true) allBindings in
          hlift (planRollout placement ru c)
      end
  end.

(** *** Writes *)

Definition rolloutStartedCondition (rolloutStarted : bool) (generation : Z) : Condition :=
  if rolloutStarted then
    mkCondition ResourceBindingRolloutStarted ConditionTrue generation 0 RolloutStartedReason
      "Detected the new changes on the resources and started the rollout process"
  else
    mkCondition ResourceBindingRolloutStarted ConditionFalse generation 0 RolloutNotStartedYetReason
      "The resources cannot be updated to the latest because of the rollout strategy".

Definition updateBindingStatus (binding : BindingObj) (rolloutStarted : bool) (w : W) : W * option goerr :=
  let cond := rolloutStartedCondition rolloutStarted (meta_generation (b_meta binding)) in
  let '(w, (_, err)) := hub_update_binding_status (SetConditions now [cond] binding) w in
  (w, NewUpdateIgnoreConflictError <$> err).

Definition isScheduledOrBound (binding : BindingObj) : Prop :=
  b_state binding = BindingStateScheduled \/ b_state binding = BindingStateBound.

#[global] Instance isScheduledOrBound_dec b : Decision (isScheduledOrBound b).
Proof. unfold isScheduledOrBound. apply _. Defined.

(** The bindings whose spec was updated while their status was not. *)
Definition hasStaleStatus (binding : BindingObj) : Prop :=
  isScheduledOrBound binding /\
  IsConditionStatusTrue (GetCondition binding ResourceBindingRolloutStarted) (meta_generation (b_meta binding)) = false.

#[global] Instance hasStaleStatus_dec b : Decision (hasStaleStatus b).
Proof. unfold hasStaleStatus. apply _. Defined.

Definition checkAndUpdateStaleBindingsStatus (bindings : list BindingObj) : hub W unit :=
  herr (run_group ((fun b => updateBindingStatus b true) <$> filter hasStaleStatus bindings)).

Definition updateStaleBindingsStatus (staleBindings : list toBeUpdatedBinding) : hub W unit :=
  herr (run_group ((fun t => updateBindingStatus (currentBinding t) false) <$>
    filter (fun t => isScheduledOrBound (currentBinding t)) staleBindings)).

Definition refreshUpToDateBindingStatus (upToDateBindings : list toBeUpdatedBinding) : hub W unit :=
  herr (run_group ((fun t => updateBindingStatus (currentBinding t) true) <$> upToDateBindings)).

(** The binding is updated, then its status. *)
Definition rollBinding (desired : BindingObj) (w : W) : W * option goerr :=
  let '(w, (desired, err)) := hub_update_binding desired w in
  match err with
  | Some e => (w, Some (NewUpdateIgnoreConflictError e))
  | None => updateBindingStatus desired true w
  end.

Definition removeBinding (binding : BindingObj) (w : W) : W * option goerr :=
  let '(w, err) := hub_delete_binding binding w in
  (w, match err with
      | Some e => if has_reason NotFound e then None else Some (NewAPIServerError false e)
      | None => None
      end).

(** The task for a binding, by its state.  A scheduled or bound binding comes
    with the desired one. *)
Definition updateTask (t : toBeUpdatedBinding) : list (W -> W * option goerr) :=
  if decide (isScheduledOrBound (currentBinding t)) then
    match desiredBinding t with Some desired => [rollBinding desired] | None => [] end
  else if decide (b_state (currentBinding t) = BindingStateUnscheduled) then [removeBinding (currentBinding t)]
  else [].

Definition updateBindings (bindings : list toBeUpdatedBinding) : hub W unit :=
  herr (run_group (bindings ≫= updateTask)).

(** *** The apply strategy *)

Definition withApplyStrategy (strategy : ApplyStrategy) (binding : BindingObj) : BindingObj :=
  let s := b_spec binding in
  set_b_spec (mkBindingSpec (rbs_State s) (rbs_ResourceSnapshotName s) (rbs_ResourceOverrideSnapshots s)
    (rbs_ClusterResourceOverrideSnapshots s) (rbs_SchedulingPolicySnapshotName s) (rbs_TargetCluster s)
    (rbs_ClusterDecision s) (Some strategy)) binding.

Definition needsApplyStrategy (strategy : ApplyStrategy) (binding : BindingObj) : Prop :=
  b_deleting binding = false /\ rbs_ApplyStrategy (b_spec binding) <> Some strategy.

#[global] Instance needsApplyStrategy_dec strategy b : Decision (needsApplyStrategy strategy b).
Proof. unfold needsApplyStrategy. apply _. Defined.

Definition pushApplyStrategy (strategy : ApplyStrategy) (binding : BindingObj) (w : W) : W * option goerr :=
  let '(w, err) := hub_merge_binding binding (withApplyStrategy strategy binding) w in
  (w, NewAPIServerError false <$> err).

Definition processApplyStrategyUpdates (placement : PlacementObj) (allBindings : list BindingObj) : hub W bool :=
  let applyStrategy :=
    match rs_ApplyStrategy (psp_Strategy (pl_spec placement)) with
    | Some s => s
    | None => SetDefaultsApplyStrategy emptyApplyStrategy
    end in
  let toPush := filter (needsApplyStrategy applyStrategy) allBindings in
  let* _ := herr (run_group (pushApplyStrategy applyStrategy <$> toPush)) in
  hret (negb (bool_decide (toPush = []))).

(** *** One round *)

(** [reconcile.Result] *)
Record Result : Set := mkResult { res_Requeue : bool; res_RequeueAfter : Z }.

Definition noResult : Result := mkResult false 0.

(** From the apply strategy on, for a placement with its defaults and its bindings. *)
Definition reconcileBindings (placementKey : string * string) (placement : PlacementObj)
    (allBindings : list BindingObj) : hub W Result :=
  let* applyStrategyUpdated := processApplyStrategyUpdates placement allBindings in
  if (applyStrategyUpdated : bool) then hret (mkResult true 0)
  else
    let* wait := hlift (waitForResourcesToCleanUp mapOrder allBindings) in
    if (wait : bool) then hret (mkResult false (5 * second))
    else
      let* master := FetchLatestMasterResourceSnapshot placementKey in
      match master with
      | None => hret noResult
      | Some masterResourceSnapshot =>
          let* (matchedCRO, matchedRO) := FetchAllMatchingOverridesForResourceSnapshot mapOrder
            (GetObjectKeyFromNamespaceName placementKey.1 placementKey.2) masterResourceSnapshot in
          let* plan := pickBindingsToRoll allBindings (meta_name (rsnap_meta masterResourceSnapshot)) placement
            matchedCRO matchedRO in
          if negb (plan_needRoll plan) then
            let* _ := checkAndUpdateStaleBindingsStatus allBindings in hret noResult
          else
            let* _ := updateStaleBindingsStatus (plan_stale plan) in
            let* _ := refreshUpToDateBindingStatus (plan_upToDate plan) in
            let* _ := updateBindings (plan_toBeUpdated plan) in
            hret (mkResult true (plan_waitTime plan))
      end.

(** A placement that does not exist is fine. *)
Definition fetchPlacement (placementKey : string * string) : hub W (option PlacementObj) := fun w =>
  match FetchPlacementFromKey (GetObjectKeyFromNamespaceName placementKey.1 placementKey.2) w with
  | (w, Ok p) => (w, Ok (Some p))
  | (w, Err e) => (w, if has_reason NotFound e then Ok None else Err (NewAPIServerError true e))
  | (w, Panic p) => (w, Panic p)
  end.

(** [placementKey] is the namespace and the name of the request. *)
Definition Reconcile (placementKey : string * string) : hub W Result :=
  let* found := fetchPlacement placementKey in
  match found with
  | None => hret noResult
  | Some placement =>
      if being_deleted (pl_meta placement) then hret noResult
      else
        let placement := SetPlacementDefaults placement in
        if decide (rs_Type (psp_Strategy (pl_spec placement)) <> RollingUpdateRolloutStrategyType)
        then hret noResult
        else
          let* allBindings := ListBindingsFromKey placementKey false in
          reconcileBindings placementKey placement allBindings
  end.

End Reconcile.

(** ** Events

    A handler adds at most one request to the queue: a namespace and a name.
    The type assertions of the handlers are part of the types here. *)

Section Events.
Context {K : K8sLib}.

Definition Request : Set := string * string.

Definition label_value (m : ObjectMeta) (key : string) : string := default EmptyString (meta_labels m !! key).

Definition isLatestSnapshot (m : ObjectMeta) : bool :=
  match ParseBool (label_value m IsLatestSnapshotLabel) with Ok b => b | _ => false end.

(** The placement an override names, for the controller of cluster-scoped
    placements ([enqueueCRP]) or the one of namespaced placements. *)
Definition overridePlacement (m : ObjectMeta) (placement : option PlacementRef) (enqueueCRP : bool) : option Request :=
  match placement with
  | None => None
  | Some p =>
      if enqueueCRP then
        if decide (plref_Scope p = NamespaceScoped) then None else Some (EmptyString, plref_Name p)
      else
        if decide (plref_Scope p <> NamespaceScoped) then None else Some (meta_namespace m, plref_Name p)
  end.

Definition handleClusterResourceOverrideSnapshot (snapshot : ClusterResourceOverrideSnapshot) : option Request :=
  if negb (isLatestSnapshot (cro_meta snapshot)) then None
  else (fun p => (EmptyString, plref_Name p)) <$> cro_Placement snapshot.

Definition handleResourceOverrideSnapshot (snapshot : ResourceOverrideSnapshot) (enqueueCRP : bool) : option Request :=
  if negb (isLatestSnapshot (ro_meta snapshot)) then None
  else overridePlacement (ro_meta snapshot) (ro_Placement snapshot) enqueueCRP.

(** A [ResourceOverride] by its metadata and the placement of its spec. *)
Definition handleResourceOverride (ro : ObjectMeta) (placement : option PlacementRef) (enqueueCRP : bool)
    : option Request := overridePlacement ro placement enqueueCRP.

(** The placement that owns an object. *)
Definition enqueueOwner (m : ObjectMeta) : option Request :=
  let placementName := label_value m PlacementTrackingLabel in
  if decide (placementName = EmptyString) then None else Some (meta_namespace m, placementName).

Definition handleResourceSnapshot (snapshot : ObjectMeta) : option Request :=
  match meta_annotations snapshot !! ResourceGroupHashAnnotation with
  | None => None
  | Some _ => if negb (isLatestSnapshot snapshot) then None else enqueueOwner snapshot
  end.

Definition enqueueBinding (binding : BindingObj) : option Request := enqueueOwner (b_meta binding).

Definition conditionsToMonitor : list string := [ResourceBindingDiffReported; ResourceBindingAvailable].

Definition handleBindingUpdated (objectOld objectNew : option BindingObj) : option Request :=
  match objectOld, objectNew with
  | Some oldBinding, Some newBinding =>
      if negb (meta_generation (b_meta oldBinding) =? meta_generation (b_meta newBinding))%Z
      then enqueueBinding newBinding
      else if existsb (fun t => negb (EqualCondition (GetCondition oldBinding t) (GetCondition newBinding t)))
        conditionsToMonitor
      then enqueueBinding newBinding
      else None
  | _, _ => None
  end.

(** The [UpdateFunc] of [bindingHandlerFuncs], for an update event from
    [eventOld] to [eventNew]. *)
Definition bindingUpdateFunc (eventOld eventNew : option BindingObj) : option Request :=
  handleBindingUpdated eventNew eventOld.

Definition handlePlacement (newPlacementObj oldPlacementObj : option PlacementObj) : option Request :=
  match newPlacementObj, oldPlacementObj with
  | Some newPlacement, Some oldPlacement =>
      if being_deleted (pl_meta newPlacement) then None
      else
        let newStrategy := psp_Strategy (pl_spec newPlacement) in
        let oldStrategy := psp_Strategy (pl_spec oldPlacement) in
        let request := (meta_namespace (pl_meta newPlacement), meta_name (pl_meta newPlacement)) in
        if decide (rs_Type newStrategy <> rs_Type oldStrategy) then Some request
        else if decide (rs_ApplyStrategy newStrategy <> rs_ApplyStrategy oldStrategy) then Some request
        else None
  | _, _ => None
  end.

End Events.
