(* ===== verification/Eviction.v ===== *)
(** * Evictions within a disruption budget

    Models [pkg/controllers/clusterresourceplacementeviction/controller.go] and
    [pkg/utils/eviction/eviction.go]: an eviction of a placement from one
    cluster is checked, executed by deleting the binding when the disruption
    budget of the placement allows it, and never looked at again.

    The calls of the controller are the class [EvictionClient] and
    [PlacementReader].  The bindings come from the cache.  Metrics are not
    modelled. *)

From stdpp Require Import prelude gmap strings.
From S2P Require Import Prelude K8s Api Sample Utils Defaulter FrameworkUtils Hub Rollout.

Local Open Scope string_scope.
Local Open Scope list_scope.

Import Defaulter.Defaulter.

(** ** Objects *)

Definition PlacementEvictionConditionTypeValid : string := "Valid".
Definition PlacementEvictionConditionTypeExecuted : string := "Executed".

Record EvictionObj : Set := mkEviction {
  ev_meta : ObjectMeta;
  ev_PlacementName : string;
  ev_ClusterName : string;
  ev_Conditions : list Condition;
}.

Record DisruptionBudget : Set := mkBudget {
  db_MaxUnavailable : option IntOrString;
  db_MinAvailable : option IntOrString;
}.

Class EvictionClient (W : Type) : Type := {
  hub_get_eviction : string -> hub W EvictionObj;
  (** [List] of the bindings of a placement, from the cache. *)
  hub_list_cached_bindings : string -> hub W (list BindingObj);
  hub_get_budget : string -> hub W DisruptionBudget;
  (** [Delete] on the condition that the resource version has not changed. *)
  hub_delete_unchanged : BindingObj -> W -> W * option goerr;
  hub_update_eviction_status : EvictionObj -> W -> W * option goerr;
}.

(** ** Reasons and messages *)

Definition ClusterResourcePlacementEvictionValidReason : string := "ClusterResourcePlacementEvictionValid".
Definition ClusterResourcePlacementEvictionInvalidReason : string := "ClusterResourcePlacementEvictionInvalid".
Definition ClusterResourcePlacementEvictionExecutedReason : string := "ClusterResourcePlacementEvictionExecuted".
Definition ClusterResourcePlacementEvictionNotExecutedReason : string :=
  "ClusterResourcePlacementEvictionNotExecuted".
Definition EvictionInvalidMissingCRPMessage : string :=
  "Failed to find ClusterResourcePlacement targeted by eviction".
Definition EvictionInvalidDeletingCRPMessage : string :=
  "Found deleting ClusterResourcePlacement targeted by eviction".
Definition EvictionInvalidPickFixedCRPMessage : string :=
  "Found ClusterResourcePlacement with PickFixed placement type targeted by eviction".
Definition EvictionInvalidMissingCRBMessage : string :=
  "Failed to find scheduler decision for placement in cluster targeted by eviction".
Definition EvictionInvalidMultipleCRBMessage : string :=
  "Found more than one scheduler decision for placement in cluster targeted by eviction".
Definition EvictionValidMessage : string := "Eviction is valid".
Definition EvictionAllowedNoPDBMessage : string :=
  "Eviction is allowed, no ClusterResourcePlacementDisruptionBudget specified".
Definition EvictionAllowedPlacementRemovedMessage : string :=
  "Eviction is allowed, resources propagated by placement is currently being removed from cluster targeted by eviction".
Definition EvictionAllowedPlacementFailedMessage : string := "Eviction is allowed, placement has failed".
Definition EvictionBlockedMisconfiguredPDBSpecifiedMessage : string :=
  "Eviction is blocked by misconfigured ClusterResourcePlacementDisruptionBudget, either MaxUnavailable is specified or MinAvailable is specified as a percentage for PickAll ClusterResourcePlacement".
Definition EvictionBlockedMissingPlacementMessage : string :=
  "Eviction is blocked, placement has not propagated resources to target cluster yet".

(** [fmt.Sprintf] of the two messages with the counts. *)
Definition EvictionAllowedPDBSpecifiedMessage (available total : Z) : string :=
  "Eviction is allowed by specified ClusterResourcePlacementDisruptionBudget, availablePlacements: " +:+
  zstr available +:+ ", totalPlacements: " +:+ zstr total.
Definition EvictionBlockedPDBSpecifiedMessage (available total : Z) : string :=
  "Eviction is blocked by specified ClusterResourcePlacementDisruptionBudget, availablePlacements: " +:+
  zstr available +:+ ", totalPlacements: " +:+ zstr total.

Section Eviction.
Context {K : K8sLib}.
Variable now : Z.

(** ** Conditions of an eviction *)

Definition ev_GetCondition (e : EvictionObj) (t : string) : option Condition :=
  FindStatusCondition (ev_Conditions e) t.

Definition ev_SetCondition (c : Condition) (e : EvictionObj) : EvictionObj :=
  mkEviction (ev_meta e) (ev_PlacementName e) (ev_ClusterName e) (SetStatusCondition now (ev_Conditions e) c).

(** The generation is the current one. *)
Definition mark (t : string) (status : ConditionStatus) (reason message : string) (e : EvictionObj) : EvictionObj :=
  ev_SetCondition (mkCondition t status (meta_generation (ev_meta e)) 0 reason message) e.

Definition markEvictionValid : EvictionObj -> EvictionObj :=
  mark PlacementEvictionConditionTypeValid ConditionTrue ClusterResourcePlacementEvictionValidReason
    EvictionValidMessage.

Definition markEvictionInvalid (e : EvictionObj) (message : string) : EvictionObj :=
  mark PlacementEvictionConditionTypeValid ConditionFalse ClusterResourcePlacementEvictionInvalidReason message e.

Definition markEvictionExecuted (e : EvictionObj) (message : string) : EvictionObj :=
  mark PlacementEvictionConditionTypeExecuted ConditionTrue ClusterResourcePlacementEvictionExecutedReason message e.

Definition markEvictionNotExecuted (e : EvictionObj) (message : string) : EvictionObj :=
  mark PlacementEvictionConditionTypeExecuted ConditionFalse ClusterResourcePlacementEvictionNotExecutedReason
    message e.

Definition IsEvictionInTerminalState (e : EvictionObj) : bool :=
  IsConditionStatusFalse (ev_GetCondition e PlacementEvictionConditionTypeValid) (meta_generation (ev_meta e)) ||
  match ev_GetCondition e PlacementEvictionConditionTypeExecuted with Some _ => true | None => false end.

Definition IsPlacementPresent (binding : BindingObj) : bool :=
  bool_decide (b_state binding = BindingStateBound) ||
  (bool_decide (b_state binding = BindingStateUnscheduled) &&
   bool_decide (b_annotations binding !! PreviousBindingStateAnnotation = Some BindingStateBound)).

(** ** The budget *)

(** [IntOrString.IntValue]: the error of [Atoi] is dropped, and the value it
    comes with is the nearest one when the number is out of range. *)
Definition IntValue (v : IntOrString) : Z :=
  match v with
  | FromInt n => n
  | FromString s =>
      match atoi_signed s with
      | Some n => Z.max (- 2 ^ 63) (Z.min n (2 ^ 63 - 1))
      | None => 0%Z
      end
  end.

Definition isAvailable (b : BindingObj) : bool :=
  IsConditionStatusTrue (GetCondition b ResourceBindingAvailable) (meta_generation (b_meta b)).

Definition availableCount (bindings : list BindingObj) : Z :=
  llen (filter (fun b => isAvailable b = true) bindings).

(** Only a PickN placement has a desired number of bindings. *)
Definition desiredBindings (policy : PlacementPolicy) : outcome Z :=
  if decide (pol_PlacementType policy = PickNPlacementType) then
    match pol_NumberOfClusters policy with Some n => Ok n | None => nil_dereference end
  else Ok 0%Z.

Definition disruptionsAllowed (bindings : list BindingObj) (policy : PlacementPolicy) (desired : Z)
    (db : DisruptionBudget) : Z :=
  let available := availableCount bindings in
  match db_MaxUnavailable db, db_MinAvailable db with
  | Some v, _ => (scaledOrZero (Some v) desired - (llen bindings - available))%Z
  | None, Some v =>
      let minAvailable :=
        if decide (pol_PlacementType policy = PickAllPlacementType) then IntValue v
        else scaledOrZero (Some v) desired in
      (available - minAvailable)%Z
  | None, None => 0%Z
  end.

Definition isEvictionAllowed (bindings : list BindingObj) (crp : PlacementObj) (db : DisruptionBudget)
    : outcome (bool * Z) :=
  match psp_Policy (pl_spec crp) with
  | None => nil_dereference
  | Some policy =>
      let! desired := desiredBindings policy in
      Ok ((0 <? disruptionsAllowed bindings policy desired db)%Z, availableCount bindings)
  end.

(** ** Reconciliation *)

Context {W : Type} {P : PlacementReader W} {C : EvictionClient W}.

(** What [validateEviction] finds: the eviction is invalid, with its status
    updated, or it has a placement, a target and the bindings. *)
Inductive evictionValidationResult : Set :=
| invalidEviction (eviction : EvictionObj)
| validEviction (crp : PlacementObj) (crb : BindingObj) (bindings : list BindingObj).

Definition targetBindings (clusterName : string) (bindings : list BindingObj) : list BindingObj :=
  filter (fun b => b_target b = clusterName) bindings.

Definition validateTarget (eviction : EvictionObj) (crp : PlacementObj) : hub W evictionValidationResult :=
  let* bindings := hmap_err (NewAPIServerError true) (hub_list_cached_bindings (meta_name (pl_meta crp))) in
  match targetBindings (ev_ClusterName eviction) bindings with
  | [] => hret (invalidEviction (markEvictionInvalid eviction EvictionInvalidMissingCRBMessage))
  | [b] => hret (validEviction crp b bindings)
  | _ => hret (invalidEviction (markEvictionInvalid eviction EvictionInvalidMultipleCRBMessage))
  end.

Definition validateEviction (eviction : EvictionObj) : hub W evictionValidationResult := fun w =>
  match hub_get_placement EmptyString (ev_PlacementName eviction) w with
  | (w, Err e) =>
      (w, if has_reason NotFound e
          then Ok (invalidEviction (markEvictionInvalid eviction EvictionInvalidMissingCRPMessage))
          else Err (NewAPIServerError true e))
  | (w, Panic p) => (w, Panic p)
  | (w, Ok crp) =>
      let crp := SetPlacementDefaults crp in
      if being_deleted (pl_meta crp) then
        (w, Ok (invalidEviction (markEvictionInvalid eviction EvictionInvalidDeletingCRPMessage)))
      else
        match psp_Policy (pl_spec crp) with
        | None => (w, nil_dereference)
        | Some policy =>
            if decide (pol_PlacementType policy = PickFixedPlacementType) then
              (w, Ok (invalidEviction (markEvictionInvalid eviction EvictionInvalidPickFixedCRPMessage)))
            else validateTarget eviction crp w
        end
  end.

Definition updateEvictionStatus (eviction : EvictionObj) : hub W unit :=
  hmap_err NewUpdateIgnoreConflictError (herr (hub_update_eviction_status eviction)).

(** A binding that is gone is fine. *)
Definition deleteClusterResourceBinding (binding : BindingObj) : hub W unit :=
  herr (fun w =>
    let '(w, err) := hub_delete_unchanged binding w in
    (w, match err with Some e => NewDeleteIgnoreNotFoundError e | None => None end)).

Definition misconfigured (policy : PlacementPolicy) (db : DisruptionBudget) : bool :=
  bool_decide (pol_PlacementType policy = PickAllPlacementType) &&
  (bool_decide (is_Some (db_MaxUnavailable db)) ||
   match db_MinAvailable db with Some (FromString _) => true | _ => false end).

(** The binding is deleted and the eviction marked as executed. *)
Definition evict (binding : BindingObj) (eviction : EvictionObj) (message : string) : hub W EvictionObj :=
  let* _ := deleteClusterResourceBinding binding in
  hret (markEvictionExecuted eviction message).

(** What follows the read of the budget. *)
Definition executeWithBudget (crp : PlacementObj) (target : BindingObj) (bindings : list BindingObj)
    (eviction : EvictionObj) (db : DisruptionBudget) : hub W EvictionObj :=
  match psp_Policy (pl_spec crp) with
  | None => hlift nil_dereference
  | Some policy =>
      if misconfigured policy db then
        hret (markEvictionNotExecuted eviction EvictionBlockedMisconfiguredPDBSpecifiedMessage)
      else
        let* (allowed, available) := hlift (isEvictionAllowed bindings crp db) in
        if (allowed : bool) then
          evict target eviction (EvictionAllowedPDBSpecifiedMessage available (llen bindings))
        else
          hret (markEvictionNotExecuted eviction (EvictionBlockedPDBSpecifiedMessage available (llen bindings)))
  end.

Definition executeEviction (crp : PlacementObj) (target : BindingObj) (bindings : list BindingObj)
    (eviction : EvictionObj) : hub W EvictionObj :=
  if b_deleting target then hret (markEvictionExecuted eviction EvictionAllowedPlacementRemovedMessage)
  else if negb (IsPlacementPresent target) then
    hret (markEvictionNotExecuted eviction EvictionBlockedMissingPlacementMessage)
  else if HasBindingFailed target || IsBindingDiffReported target then
    evict target eviction EvictionAllowedPlacementFailedMessage
  else fun w =>
    match hub_get_budget (meta_name (pl_meta crp)) w with
    | (w, Err e) =>
        if has_reason NotFound e then evict target eviction EvictionAllowedNoPDBMessage w
        else (w, Err (NewAPIServerError true e))
    | (w, Panic p) => (w, Panic p)
    | (w, Ok db) => executeWithBudget crp target bindings eviction db w
    end.

(** What follows when the eviction is not in a terminal state: the eviction
    whose status is to be updated. *)
Definition processEviction (eviction : EvictionObj) : hub W EvictionObj :=
  let* validation := validateEviction eviction in
  match validation with
  | invalidEviction eviction => hret eviction
  | validEviction crp crb bindings => executeEviction crp crb bindings (markEvictionValid eviction)
  end.

Definition Reconcile (evictionName : string) : hub W unit := fun w =>
  match hub_get_eviction evictionName w with
  | (w, Err e) => (w, if has_reason NotFound e then Ok tt else Err e)
  | (w, Panic p) => (w, Panic p)
  | (w, Ok eviction) =>
      if IsEvictionInTerminalState eviction then (w, Ok tt)
      else (let* eviction := processEviction eviction in updateEvictionStatus eviction) w
  end.

End Eviction.
