(* ===== verification/EvictionProofs.v ===== *)
(** * Evictions stay within the budget, and are processed once

    The calls of a reconciliation are observed: [traced] adds to any client the
    list of what was read and written.  [eviction_within_budget] says of every
    deletion that it was permitted by what was read before it, and
    [eviction_processed_once] that a reconciliation that succeeds leaves a
    status with which the eviction is never looked at again. *)

From stdpp Require Import prelude gmap strings.
From S2P Require Import Prelude K8s Api Sample Utils Defaulter FrameworkUtils Hub Rollout Eviction.

Local Open Scope string_scope.
Local Open Scope list_scope.

Import Defaulter.Defaulter.

(** ** Observed calls *)

Inductive event : Set :=
| ReadPlacement (crp : PlacementObj)
| ListedBindings (bindings : list BindingObj)
| ReadBudget (db : outcome DisruptionBudget)
| Deleted (binding : BindingObj)
| UpdatedStatus (eviction : EvictionObj).

Section Traced.
Context {W : Type}.

#[global] Instance traced_placements {P : PlacementReader W} : PlacementReader (W * list event) := {
  hub_get_placement ns name := record (on_ok ReadPlacement) (hub_get_placement ns name);
}.

#[global] Instance traced_eviction {C : EvictionClient W} : EvictionClient (W * list event) := {
  hub_get_eviction name := record (fun _ => []) (hub_get_eviction name);
  hub_list_cached_bindings name := record (on_ok ListedBindings) (hub_list_cached_bindings name);
  hub_get_budget name := record (fun db => [ReadBudget db]) (hub_get_budget name);
  hub_delete_unchanged b := record (fun _ => [Deleted b]) (hub_delete_unchanged b);
  hub_update_eviction_status e := record (fun _ => [UpdatedStatus e]) (hub_update_eviction_status e);
}.

End Traced.

(** ** What a deletion needs *)

Section Permitted.
Context {K : K8sLib}.

(** The bindings on the clusters the eviction leaves alone. *)
Definition others (b : BindingObj) (bindings : list BindingObj) : list BindingObj :=
  filter (fun b' => b_target b' <> b_target b) bindings.

(** The budget after the deletion of [b]. *)
Definition within_budget (policy : PlacementPolicy) (bindings : list BindingObj) (b : BindingObj)
    (db : DisruptionBudget) : Prop :=
  exists desired, desiredBindings policy = Ok desired /\
  match db_MaxUnavailable db, db_MinAvailable db with
  | Some v, _ =>
      pol_PlacementType policy <> PickAllPlacementType /\
      (llen bindings - availableCount (others b bindings) <= scaledOrZero (Some v) desired)%Z
  | None, Some (FromInt n) => (n <= availableCount (others b bindings))%Z
  | None, Some v =>
      pol_PlacementType policy <> PickAllPlacementType /\
      (scaledOrZero (Some v) desired <= availableCount (others b bindings))%Z
  | None, None => False
  end.

(** The binding is the only one of its cluster, its resources may be there,
    and it is not on its way out. *)
Definition evictable (clusterName : string) (bindings : list BindingObj) (b : BindingObj) : Prop :=
  targetBindings clusterName bindings = [b] /\ b_deleting b = false /\ IsPlacementPresent b = true.

(** The traces with a deletion. *)
Inductive permitted (clusterName : string) (b : BindingObj) : list event -> Prop :=
| permitted_failed crp bindings :
    evictable clusterName bindings b ->
    HasBindingFailed b || IsBindingDiffReported b = true ->
    permitted clusterName b [ReadPlacement crp; ListedBindings bindings]
| permitted_unprotected crp bindings e :
    evictable clusterName bindings b ->
    has_reason NotFound e = true ->
    permitted clusterName b [ReadPlacement crp; ListedBindings bindings; ReadBudget (Err e)]
| permitted_budget crp policy bindings db :
    evictable clusterName bindings b ->
    psp_Policy (pl_spec (SetPlacementDefaults crp)) = Some policy ->
    pol_PlacementType policy <> PickFixedPlacementType ->
    within_budget policy bindings b db ->
    permitted clusterName b [ReadPlacement crp; ListedBindings bindings; ReadBudget (Ok db)].

Definition is_deletion (ev : event) : bool := match ev with Deleted _ => true | _ => false end.

(** At most one deletion, the last of the calls, and permitted. *)
Definition careful (clusterName : string) (tr : list event) : Prop :=
  Forall (fun ev => is_deletion ev = false) tr \/
  exists pre b, tr = pre ++ [Deleted b] /\ permitted clusterName b pre.

End Permitted.

Section Proofs.
Context {K : K8sLib} {L : K8sLaws K}.
Variable now : Z.
Context {W : Type} {P : PlacementReader W} {C : EvictionClient W}.

#[local] Arguments SetPlacementDefaults : simpl never.
#[local] Arguments mark : simpl never.

(** ** Marks *)

Lemma mark_found t st reason message e : exists c,
  ev_GetCondition (mark now t st reason message e) t = Some c /\ cond_status c = st /\
  cond_observed_generation c = meta_generation (ev_meta e).
Proof.
  unfold ev_GetCondition, mark, ev_SetCondition. cbn.
  destruct (SetStatusCondition_same now (ev_Conditions e)
    (mkCondition t st (meta_generation (ev_meta e)) 0 reason message)) as (c & Hc & _ & Hs & Hg & _).
  eauto.
Qed.

Lemma executed_terminal st reason message e :
  IsEvictionInTerminalState (mark now PlacementEvictionConditionTypeExecuted st reason message e) = true.
Proof.
  unfold IsEvictionInTerminalState. apply orb_true_iff. right.
  destruct (mark_found PlacementEvictionConditionTypeExecuted st reason message e) as (c & -> & _). done.
Qed.

Lemma invalid_terminal message e : IsEvictionInTerminalState (markEvictionInvalid now e message) = true.
Proof.
  unfold IsEvictionInTerminalState, markEvictionInvalid. apply orb_true_iff. left.
  destruct (mark_found PlacementEvictionConditionTypeValid ConditionFalse
    ClusterResourcePlacementEvictionInvalidReason message e) as (c & -> & Hs & Hg).
  unfold IsConditionStatusFalse. apply andb_true_iff. split; [by apply bool_decide_eq_true_2|].
  by apply Z.eqb_eq.
Qed.

(** ** The budget *)

Lemma availableCount_others clusterName bindings b :
  targetBindings clusterName bindings = [b] ->
  (availableCount bindings - 1 <= availableCount (others b bindings))%Z.
Proof.
  intros Ht.
  assert (b_target b = clusterName) as <-.
  { assert (b ∈ targetBindings clusterName bindings) as Hb by (rewrite Ht; left).
    unfold targetBindings in Hb. rewrite list_elem_of_filter in Hb. tauto. }
  unfold availableCount, llen, others, targetBindings in *.
  assert (length (filter (fun x => isAvailable x = true) bindings) <=
    length (filter (fun x => b_target x = b_target b) bindings) +
    length (filter (fun x => isAvailable x = true) (filter (fun x => b_target x <> b_target b) bindings))) as Hlen.
  { clear Ht. induction bindings as [|x l IH]; [done|].
    rewrite !filter_cons.
    destruct (decide (b_target x = b_target b)); destruct (decide (b_target x <> b_target b)); try done;
      rewrite ?filter_cons; repeat case_decide; cbn in *; lia. }
  rewrite Ht in Hlen. cbn in Hlen. lia.
Qed.

Lemma isEvictionAllowed_within crp policy bindings clusterName b db available :
  targetBindings clusterName bindings = [b] ->
  psp_Policy (pl_spec crp) = Some policy ->
  misconfigured policy db = false ->
  isEvictionAllowed bindings crp db = Ok (true, available) ->
  within_budget policy bindings b db.
Proof.
  unfold isEvictionAllowed. intros Ht -> Hm. apply availableCount_others in Ht.
  destruct (desiredBindings policy) as [desired|e|p] eqn:Hd; cbn; [|done|done].
  intros [= Hal _]. exists desired. split; [done|].
  apply Z.ltb_lt in Hal. unfold disruptionsAllowed in Hal.
  unfold misconfigured in Hm.
  assert (is_Some (db_MaxUnavailable db) \/ (exists s, db_MinAvailable db = Some (FromString s)) ->
    pol_PlacementType policy <> PickAllPlacementType) as Hall.
  { intros Hc Heq. rewrite bool_decide_eq_true_2 in Hm by done. cbn in Hm.
    apply orb_false_iff in Hm as [Hm1 Hm2]. apply bool_decide_eq_false in Hm1.
    destruct Hc as [?|[s Hs]]; [done|]. by rewrite Hs in Hm2. }
  destruct (db_MaxUnavailable db) as [v|].
  { split; [by apply Hall; left|lia]. }
  destruct (db_MinAvailable db) as [[n|s]|]; [| |lia].
  - unfold scaledOrZero in Hal. rewrite GetScaledValue_int in Hal.
    destruct (decide _) in Hal; cbn in Hal; lia.
  - rewrite decide_False in Hal by (apply Hall; eauto).
    split; [apply Hall; eauto|lia].
Qed.

(** ** Runs *)

Definition processed (e0 : EvictionObj) (r : (W * list event) * outcome EvictionObj) : Prop :=
  careful (ev_ClusterName e0) r.1.2 /\
  forall e, r.2 = Ok e -> IsEvictionInTerminalState e = true /\ ev_meta e = ev_meta e0.

Lemma processed_ret e0 e (w : W) tr :
  IsEvictionInTerminalState e = true -> ev_meta e = ev_meta e0 ->
  Forall (fun ev => is_deletion ev = false) tr -> processed e0 (hret e (w, tr)).
Proof. intros He Hm Htr. split; [by left|]. by intros ? [= <-]. Qed.

Ltac settled := apply processed_ret;
  [first [apply executed_terminal|apply invalid_terminal]|done|by repeat constructor].

Lemma evict_processed e0 b e message (w : W) tr :
  ev_meta e = ev_meta e0 -> permitted (ev_ClusterName e0) b tr -> processed e0 (evict now b e message (w, tr)).
Proof.
  intros Hmeta Hp. unfold evict, hbind, deleteClusterResourceBinding, herr.
  cbn [hub_delete_unchanged traced_eviction]. rewrite record_run.
  destruct (hub_delete_unchanged b w) as [w' [err|]]; cbn.
  - destruct (NewDeleteIgnoreNotFoundError err); split; cbn; [right; eauto| |right; eauto|]; [done|].
    intros ? [= <-]. split; [apply executed_terminal|done].
  - split; [right; eauto|]. intros ? [= <-]. split; [apply executed_terminal|done].
Qed.

Lemma executeEviction_processed crp e0 e bindings b (w : W) :
  ev_meta e = ev_meta e0 ->
  targetBindings (ev_ClusterName e0) bindings = [b] ->
  (forall policy, psp_Policy (pl_spec (SetPlacementDefaults crp)) = Some policy ->
    pol_PlacementType policy <> PickFixedPlacementType) ->
  processed e0
    (executeEviction now (SetPlacementDefaults crp) b bindings e (w, [ReadPlacement crp; ListedBindings bindings])).
Proof.
  intros Hmeta Ht Hpol. unfold executeEviction.
  destruct (b_deleting b) eqn:Hdel; [settled|].
  destruct (IsPlacementPresent b) eqn:Hpres; cbn [negb]; [|settled].
  assert (evictable (ev_ClusterName e0) bindings b) as Hev by (by split_and!).
  destruct (_ || _) eqn:Hfail; [by apply evict_processed; [|apply permitted_failed]|].
  cbn [hub_get_budget traced_eviction]. rewrite record_run.
  destruct (hub_get_budget _ w) as [w' [db|err|p]]; cbn.
  - unfold executeWithBudget. destruct (psp_Policy _) as [policy|] eqn:Hp;
      [|split; cbn; [left; by repeat constructor|done]].
    destruct (misconfigured policy db) eqn:Hm; [settled|].
    unfold hbind, hlift. destruct (isEvictionAllowed _ _ _) as [[[] available]|err|p] eqn:Hal.
    + apply evict_processed; [done|]. eapply permitted_budget; eauto using isEvictionAllowed_within.
    + settled.
    + split; cbn; [left; by repeat constructor|done].
    + split; cbn; [left; by repeat constructor|done].
  - destruct (has_reason NotFound err) eqn:Hnf; [by apply evict_processed; [|apply permitted_unprotected]|].
    split; cbn; [left; by repeat constructor|done].
  - split; cbn; [left; by repeat constructor|done].
Qed.

Lemma processEviction_processed e (w : W) :
  processed e (processEviction now e (w, [])).
Proof.
  assert (forall A (w' : W) tr (r : outcome A), Forall (fun ev => is_deletion ev = false) tr ->
    (forall a, r <> Ok a) -> processed e ((w', tr), match r with
      | Ok a => Panic EmptyString | Err x => Err x | Panic p => Panic p end)) as Hstop.
  { intros A w' tr r Htr Hr. split; [by left|]. by destruct r. }
  unfold processEviction, hbind, validateEviction.
  cbn [hub_get_placement traced_placements]. rewrite record_run.
  destruct (hub_get_placement _ _ w) as [w' [crp|err|p]]; cbn [fst snd on_ok].
  2: { destruct (has_reason _ _); [settled|by apply (Hstop unit w' [] (Err _))]. }
  2: { by apply (Hstop unit w' [] (Panic _)). }
  destruct (being_deleted _); [settled|].
  destruct (psp_Policy _) as [policy|] eqn:Hp;
    [|by apply (Hstop unit w' [_] nil_dereference); [repeat constructor|]].
  destruct (decide _) as [|Hfix]; [settled|].
  unfold validateTarget, hbind, hmap_err.
  cbn [hub_list_cached_bindings traced_eviction]. rewrite record_run.
  destruct (hub_list_cached_bindings _ w') as [w'' [bindings|err|p]]; cbn [fst snd on_ok app].
  2: { by apply (Hstop unit w'' [_] (Err _)); [repeat constructor|]. }
  2: { by apply (Hstop unit w'' [_] (Panic _)); [repeat constructor|]. }
  destruct (targetBindings _ bindings) as [|b [|]] eqn:Ht; cbn;
    [settled| |settled].
  apply executeEviction_processed; [done|done|]. intros ? Hp'. rewrite Hp in Hp'. by simplify_eq.
Qed.

Lemma only_deletion pre pre' b b' post post' :
  Forall (fun ev => is_deletion ev = false) pre' -> Forall (fun ev => is_deletion ev = false) post' ->
  pre' ++ Deleted b' :: post' = pre ++ Deleted b :: post -> pre = pre' /\ b = b' /\ post = post'.
Proof.
  intros Hpre Hpost. revert pre. induction Hpre as [|ev l Hev _ IH]; intros [|ev' pre] [= Heq Heq']; subst; try done.
  - apply Forall_app in Hpost as [_ Hpost]. by inversion Hpost.
  - by destruct (IH _ Heq') as (-> & -> & ->).
Qed.

Lemma Reconcile_trace name (w : W) e :
  (hub_get_eviction name w).2 = Ok e ->
  let r := Reconcile now name (w, []) in
  (IsEvictionInTerminalState e = true /\ r.1.2 = [] /\ r.2 = Ok tt) \/
  (IsEvictionInTerminalState e = false /\ exists tr post, r.1.2 = tr ++ post /\
     Forall (fun ev => is_deletion ev = false) post /\ careful (ev_ClusterName e) tr /\
     (r.2 = Ok tt -> exists e', post = [UpdatedStatus e'] /\ ev_meta e' = ev_meta e /\
        IsEvictionInTerminalState e' = true)).
Proof.
  intros He. unfold Reconcile. cbn [hub_get_eviction traced_eviction]. rewrite record_run, He. cbn [snd fst].
  destruct (IsEvictionInTerminalState e); [by left|right]. split; [done|].
  destruct (processEviction_processed e (hub_get_eviction name w).1) as [Hcare Hterm].
  unfold hbind. destruct (processEviction _ _ _) as [[w' tr] [e'|err|p]]; cbn in *.
  - destruct (Hterm _ eq_refl) as [Ht Hm].
    exists tr, [UpdatedStatus e'].
    unfold updateEvictionStatus, hmap_err, herr. cbn [hub_update_eviction_status traced_eviction].
    rewrite record_run. cbn [fst snd].
    destruct (hub_update_eviction_status e' w') as [w'' [|]]; cbn; (split_and!; [done|by repeat constructor|done|]);
      [done|eauto].
  - exists tr, []. by rewrite app_nil_r.
  - exists tr, []. by rewrite app_nil_r.
Qed.


(** a reconciliation that succeeds ends by storing a status that makes the
    eviction terminal, and a terminal eviction is left alone: it causes no call
    but the one that reads it. *)
Theorem eviction_processed_once name (w : W) e :
  (hub_get_eviction name w).2 = Ok e ->
  let r := Reconcile now name (w, []) in
  if IsEvictionInTerminalState e then r.1.2 = [] /\ r.2 = Ok tt
  else r.2 = Ok tt -> exists pre e', r.1.2 = pre ++ [UpdatedStatus e'] /\
    ev_meta e' = ev_meta e /\ IsEvictionInTerminalState e' = true.
Proof.
  intros He r.
  destruct (Reconcile_trace name w e He) as [(Hterm & Hr & Hok)|(Hterm & tr & post & Hr & _ & _ & Hok)];
    rewrite Hterm; [done|].
  intros Hr2. destruct (Hok Hr2) as (e' & -> & Hm & Ht). exists tr, e'. done.
Qed.

End Proofs.

(** ** Evictions to evaluate *)

Module EvictionMem.
Import RefLib.

(** A hub with what the controller reads and writes.  The list of bindings it
    gets is the cached one. *)
Record store : Type := mkStore {
  es_evictions : list EvictionObj;
  es_placements : list PlacementObj;
  es_budgets : list (string * DisruptionBudget);
  es_bindings : list BindingObj;
  es_cached : list BindingObj;
}.

Definition find_or_404 {A} (pred : A -> bool) (name : string) (l : list A) : outcome A :=
  match list_find (fun a => pred a = true) l with
  | Some (_, a) => Ok a
  | None => Err (ErrAPI NotFound name)
  end.

(** The server sets the deletion timestamp of an object with finalizers, and
    with it bumps the generation and the resource version. *)
Definition mark_deleted (b : BindingObj) : BindingObj :=
  let m := b_meta b in
  set_b_meta (mkObjectMeta (meta_name m) (meta_namespace m) (meta_labels m) (meta_annotations m)
    (meta_finalizers m) (Some 0%Z) (meta_generation m + 1) (meta_resource_version m + 1)) b.

Definition same_version (b b' : BindingObj) : bool :=
  bool_decide (object_key b = object_key b') &&
  bool_decide (meta_resource_version (b_meta b) = meta_resource_version (b_meta b')).

Definition delete_unchanged (b : BindingObj) (s : store) : store * option goerr :=
  match list_find (fun b' => same_version b b' = true) (es_bindings s) with
  | Some (i, b') =>
      (mkStore (es_evictions s) (es_placements s) (es_budgets s) (<[i := mark_deleted b']> (es_bindings s))
         (es_cached s), None)
  | None => (s, Some (ErrAPI Conflict (b_name b)))
  end.

Definition update_status (e : EvictionObj) (s : store) : store * option goerr :=
  (mkStore ((fun e' => if decide (meta_name (ev_meta e') = meta_name (ev_meta e)) then e else e') <$> es_evictions s)
     (es_placements s) (es_budgets s) (es_bindings s) (es_cached s), None).

#[global] Instance store_placements : PlacementReader store := {
  hub_get_placement ns name s :=
    (s, find_or_404 (fun p => bool_decide (meta_name (pl_meta p) = name)) name (es_placements s));
}.

#[global] Instance store_client : EvictionClient store := {
  hub_get_eviction name s :=
    (s, find_or_404 (fun e => bool_decide (meta_name (ev_meta e) = name)) name (es_evictions s));
  hub_list_cached_bindings name s :=
    (s, Ok (filter (fun b => tracking_label b = Some name) (es_cached s)));
  hub_get_budget name s :=
    (s, let! (_, db) := find_or_404 (fun nb => bool_decide (nb.1 = name)) name (es_budgets s) in Ok db);
  hub_delete_unchanged := delete_unchanged;
  hub_update_eviction_status := update_status;
}.

(** The cache has seen all that happened. *)
Definition sync (s : store) : store :=
  mkStore (es_evictions s) (es_placements s) (es_budgets s) (es_bindings s) (es_bindings s).

Definition ex_binding (bname target : string) : BindingObj :=
  let b := Sample.binding bname target "web-0" BindingStateBound in
  set_b_conditions [mkCondition ResourceBindingAvailable ConditionTrue 1 0 "AllWorkAreAvailable" EmptyString]
    (set_b_meta (mkObjectMeta bname EmptyString {[PlacementTrackingLabel := "web"]} ∅
       ["kubernetes-fleet.io/work-cleanup"] None 1 1) b).

Definition ex_eviction (ename target : string) : EvictionObj := mkEviction (Sample.metadata ename) "web" target [].

Definition ex_placement : PlacementObj :=
  mkPlacement (Sample.metadata "web")
    (mkPlacementSpec [] (Some (mkPolicy PickNPlacementType [] (Some 3%Z) None [] []))
       (mkRolloutStrategy RollingUpdateRolloutStrategyType None None None None) (Some 10%Z) EmptyString).

Definition ex_bindings : list BindingObj := [ex_binding "b1" "a"; ex_binding "b2" "b"; ex_binding "b3" "c"].

(** Three available bindings, of which two have to stay. *)
Definition ex_store : store :=
  mkStore [ex_eviction "e1" "a"; ex_eviction "e2" "b"] [ex_placement] [("web", mkBudget None (Some (FromInt 2)))]
    ex_bindings ex_bindings.

Definition ex_trace : list event := (Reconcile 0 "e1" (ex_store, [])).1.2.

(** Two evictions, one after the other. *)
Definition two_evictions (between : store -> store) : store :=
  let s := (Reconcile 0 "e1" ex_store).1 in
  (Reconcile 0 "e2" (between s)).1.

Definition live_available (s : store) : Z :=
  availableCount (filter (fun b => b_deleting b = false) (es_bindings s)).

End EvictionMem.


Lemma eviction_processed_once_witness :
  let r := @Reconcile RefLib.ref_lib 0 (EvictionMem.store * list event) _ _ "e1" (EvictionMem.ex_store, []) in
  r.2 = Ok tt /\ (r.2 = Ok tt -> exists pre e', r.1.2 = pre ++ [UpdatedStatus e'] /\
    ev_meta e' = Sample.metadata "e1" /\ IsEvictionInTerminalState (K := RefLib.ref_lib) e' = true).
Proof.
  split; [by_evaluation|].
  exact (@eviction_processed_once RefLib.ref_lib RefLib.ref_laws 0 EvictionMem.store EvictionMem.store_placements
    EvictionMem.store_client "e1" EvictionMem.ex_store (EvictionMem.ex_eviction "e1" "a") ltac:(by_evaluation)).
Defined.

(** The bindings are counted from the cache.  With a budget of two, the second
    of two evictions is refused when the cache has seen the first; when it has
    not, both are executed and one available binding is left. *)
Theorem stale_cache_overspends :
  EvictionMem.live_available EvictionMem.ex_store = 3%Z /\
  EvictionMem.live_available (EvictionMem.two_evictions EvictionMem.sync) = 2%Z /\
  EvictionMem.live_available (EvictionMem.two_evictions id) = 1%Z.
Proof. split_and!; by_evaluation. Qed.
