(* ===== verification/Validator.v ===== *)
(** * Validation of the fleet's resources

    Models [pkg/utils/validator]: what the validating webhooks check of
    placements, overrides, disruption budgets, evictions and member clusters.

    A check returns the problems it finds, in place of an aggregated error
    ([NewAggregate] drops nil errors and returns nil when there are no others):
    no problem is a nil error.  The texts of the errors are not modelled, and
    the problems of properties with different names are listed by the first
    occurrence of the name, where Go iterates over a map.  A nil list is not
    distinguished from an empty one. *)

From stdpp Require Import prelude gmap strings.
From S2P Require Import Prelude K8s Api Sample Utils Score CycleState ClusterAffinity Defaulter Hub Overrider Rollout.
From S2P Require Import Eviction.

Local Open Scope string_scope.
Local Open Scope list_scope.

(** ** Functions of the Kubernetes libraries *)

(** The checks of [k8s.io/apimachinery/pkg/util/validation] return messages;
    [LabelSelectorAsSelector] an error. *)
Class ValidationLib : Type := {
  IsDNS1123Subdomain : string -> list string;
  IsQualifiedName : string -> list string;
  IsValidLabelValue : string -> list string;
  LabelSelectorAsSelector : LabelSelector -> option goerr;
}.

(** What the process knows of the API: [RestMapper.RESTMapping], and
    [ResourceInformer.IsClusterScopedResources] when there is an informer. *)
Class SchemaLib : Type := {
  RESTMapping : GroupVersionKind -> option goerr;
  ResourceInformer : option (GroupVersionKind -> bool);
}.

Definition DNS1035LabelMaxLength : nat := 63.
Definition NamespaceWithResourceSelectors : string := "NamespaceWithResourceSelectors".

(** ** Problems *)

Inductive problem : Set :=
| nameTooLong
| labelSelectorAndName
| invalidLabelSelector (parent : string)
| noResourceMapping
| notClusterScoped (gvk : GroupVersionKind)
| clusterScoped (gvk : GroupVersionKind)
| noInformer
| invalidClusterName (name msg : string)
| clusterNameTooLong (name : string)
| duplicateClusterNames
| unexpectedNumberOfClusters
| unexpectedAffinity
| unexpectedTopologySpread
| unexpectedTolerations
| unexpectedClusterNames
| negativeNumberOfClusters (n : Z)
| missingNumberOfClusters
| ignoredPreferences
| invalidTolerationKey (t : Toleration) (msg : string)
| tolerationValueWithExists (t : Toleration)
| tolerationWithoutKey (t : Toleration)
| invalidTolerationValue (t : Toleration) (msg : string)
| duplicateToleration (t : Toleration)
| unknownUnsatisfiableType (t : string)
| sorterNotAllowed
| selectorNotAllowed
| unsupportedStrategy (t : string)
| rollingUpdateForExternal
| negativeUnavailablePeriod (n : Z)
| invalidMaxUnavailable
| negativeMaxUnavailable
| invalidMaxSurge
| negativeMaxSurge
| unexpectedServerSideApplyConfig
| invalidPropertyName (name : string)
| invalidSortOrder (order : string)
| invalidRequirement (name : string)
| inconsistentRequirements (name : string)
| placementDeleting
| pickFixedEviction
| pickAllMaxUnavailable
| pickAllMinAvailablePercentage
| invalidTaintKey (t : Taint) (msg : string)
| invalidTaintValue (t : Taint) (msg : string)
| duplicateTaint (t : Taint)
| labelSelectorInOverride
| overrideWithoutName
| duplicateResourceSelector
| selectedTwice (other : string)
| propertyInClusterSelector
| missingLabelSelector
| patchesOfDeletion
| noPatches
| invalidPatchPath (path : string)
| removeWithValue.

Definition when (b : bool) (p : problem) : list problem := if b then [p] else [].

(** [for i, x := range xs { seen[x] ... }]: each element with whether an equal
    one came before it. *)
Fixpoint with_seen {A} `{EqDecision A} (seen xs : list A) : list (A * bool) :=
  match xs with
  | [] => []
  | x :: r => (x, bool_decide (x ∈ seen)) :: with_seen (x :: seen) r
  end.

Section Validator.
Context {K : K8sLib} {V : ValidationLib}.

Definition validateLabelSelector (labelSelector : option LabelSelector) (parent : string) : list problem :=
  match labelSelector with
  | None => []
  | Some s => match LabelSelectorAsSelector s with Some _ => [invalidLabelSelector parent] | None => [] end
  end.

(** ** Property selectors *)

(** [supportedResourceCapacityTypesMap] *)
Definition supportedCapacityType (s : string) : bool :=
  bool_decide (s ∈ [ClusterAffinityPlugin.AllocatableCapacityName; ClusterAffinityPlugin.AvailableCapacityName;
                    ClusterAffinityPlugin.TotalCapacityName]).

Definition no_errors (msgs : list string) : bool := match msgs with [] => true | _ => false end.

Definition validateName (name : string) : bool :=
  match str_cut_prefix ClusterAffinityPlugin.ResourcePropertyNamePrefix name with
  | Some resourcePropertyName =>
      match str_split dash resourcePropertyName with
      | capacityType :: _ :: _ => supportedCapacityType capacityType && no_errors (IsQualifiedName name)
      | _ => false
      end
  | None =>
      match str_split slash name with
      | possiblePrefix :: ((_ :: _) as segsLeft) =>
          (no_errors (IsDNS1123Subdomain possiblePrefix) || no_errors (IsQualifiedName possiblePrefix)) &&
          forallb (fun seg => no_errors (IsQualifiedName seg)) segsLeft
      | _ => no_errors (IsQualifiedName name)
      end
  end.

Record boundary : Set := mkBoundary { bd_q : Quantity; bd_strict : bool }.

Record requirementBounds : Set := mkBounds {
  rb_lower : option boundary;
  rb_upper : option boundary;
  rb_eqVal : option Quantity;
  rb_neVals : list Quantity;
}.

Definition isMoreRestrictiveLower (a b : boundary) : bool :=
  match (bd_q a ?= bd_q b)%Z with
  | Eq => bd_strict a && negb (bd_strict b)
  | Gt => true
  | Lt => false
  end.

Definition isMoreRestrictiveUpper (a b : boundary) : bool :=
  match (bd_q a ?= bd_q b)%Z with
  | Eq => bd_strict a && negb (bd_strict b)
  | Gt => false
  | Lt => true
  end.

Definition tightenLower (b : boundary) (rb : requirementBounds) : requirementBounds :=
  let keep := match rb_lower rb with Some l => negb (isMoreRestrictiveLower b l) | None => false end in
  if keep then rb else mkBounds (Some b) (rb_upper rb) (rb_eqVal rb) (rb_neVals rb).

Definition tightenUpper (b : boundary) (rb : requirementBounds) : requirementBounds :=
  let keep := match rb_upper rb with Some u => negb (isMoreRestrictiveUpper b u) | None => false end in
  if keep then rb else mkBounds (rb_lower rb) (Some b) (rb_eqVal rb) (rb_neVals rb).

(** None: the error on conflicting values. *)
Definition applyEq (q : Quantity) (rb : requirementBounds) : option requirementBounds :=
  let conflict := match rb_eqVal rb with Some e => negb (e =? q)%Z | None => false end in
  if conflict then None else Some (mkBounds (rb_lower rb) (rb_upper rb) (Some q) (rb_neVals rb)).

(** [applyToBounds] of [supportedPropertyOperators]; None for an operator that
    is not in the table.  All of them require one value. *)
Definition supportedPropertyOperators (op : string) : option (Quantity -> requirementBounds -> option requirementBounds) :=
  if decide (op = PropertySelectorGreaterThan) then Some (fun q rb => Some (tightenLower (mkBoundary q true) rb))
  else if decide (op = PropertySelectorGreaterThanOrEqualTo) then
    Some (fun q rb => Some (tightenLower (mkBoundary q false) rb))
  else if decide (op = PropertySelectorLessThan) then Some (fun q rb => Some (tightenUpper (mkBoundary q true) rb))
  else if decide (op = PropertySelectorLessThanOrEqualTo) then
    Some (fun q rb => Some (tightenUpper (mkBoundary q false) rb))
  else if decide (op = PropertySelectorEqualTo) then Some applyEq
  else if decide (op = PropertySelectorNotEqualTo) then
    Some (fun q rb => Some (mkBounds (rb_lower rb) (rb_upper rb) (rb_eqVal rb) (rb_neVals rb ++ [q])))
  else None.

Definition requiredValueCount : nat := 1.

Definition validateOperatorAndValues (op : string) (values : list string) : bool :=
  match supportedPropertyOperators op with
  | None => false
  | Some _ => (length values =? requiredValueCount)%nat && forallb (fun v => is_ok (ParseQuantity v)) values
  end.

(** One round of the loop of [collectRequirementBounds]; malformed
    requirements are skipped. *)
Definition collectRequirement (rb : requirementBounds) (req : PropertySelectorRequirement) : option requirementBounds :=
  match supportedPropertyOperators (psr_Operator req), psr_Values req with
  | Some applyToBounds, [v] =>
      match ParseQuantity v with
      | Ok q => applyToBounds q rb
      | _ => Some rb
      end
  | _, _ => Some rb
  end.

Fixpoint collectBounds (rb : requirementBounds) (reqs : list PropertySelectorRequirement) : option requirementBounds :=
  match reqs with
  | [] => Some rb
  | req :: r => match collectRequirement rb req with Some rb => collectBounds rb r | None => None end
  end.

Definition collectRequirementBounds : list PropertySelectorRequirement -> option requirementBounds :=
  collectBounds (mkBounds None None None []).

(** The three checks: true when there is no error. *)
Definition checkEqVsNe (rb : requirementBounds) : bool :=
  match rb_eqVal rb with
  | None => true
  | Some e => forallb (fun ne => negb (e =? ne)%Z) (rb_neVals rb)
  end.

Definition checkInterval (rb : requirementBounds) : bool :=
  match rb_lower rb, rb_upper rb with
  | Some l, Some u =>
      negb ((bd_q u <? bd_q l)%Z || ((bd_q l =? bd_q u)%Z && (bd_strict l || bd_strict u)))
  | _, _ => true
  end.

Definition checkEqInsideBounds (rb : requirementBounds) : bool :=
  match rb_eqVal rb with
  | None => true
  | Some e =>
      match rb_lower rb with
      | Some l => negb ((e <? bd_q l)%Z || ((e =? bd_q l)%Z && bd_strict l))
      | None => true
      end &&
      match rb_upper rb with
      | Some u => negb ((bd_q u <? e)%Z || ((e =? bd_q u)%Z && bd_strict u))
      | None => true
      end
  end.

Definition validateRequirementsConsistency (reqs : list PropertySelectorRequirement) : bool :=
  if (length reqs <? 2)%nat then true
  else
    match collectRequirementBounds reqs with
    | None => false
    | Some bounds => checkEqVsNe bounds && checkInterval bounds && checkEqInsideBounds bounds
    end.

(** The requirements on one property. *)
Definition onProperty (name : string) (reqs : list PropertySelectorRequirement) : list PropertySelectorRequirement :=
  filter (fun req => psr_Name req = name) reqs.

Definition validatePropertySelectorRequirements (reqs : list PropertySelectorRequirement) : list problem :=
  concat ((fun req =>
    when (negb (validateName (psr_Name req))) (invalidPropertyName (psr_Name req)) ++
    when (negb (validateOperatorAndValues (psr_Operator req) (psr_Values req))) (invalidRequirement (psr_Name req)))
    <$> reqs) ++
  concat ((fun name => when (negb (validateRequirementsConsistency (onProperty name reqs))) (inconsistentRequirements name))
    <$> remove_dups (psr_Name <$> reqs)).

Definition validatePropertySelector (s : PropertySelector) : list problem :=
  validatePropertySelectorRequirements (ps_MatchExpressions s).

Definition validatePropertySorter (s : PropertySorter) : list problem :=
  when (negb (validateName (sorter_Name s))) (invalidPropertyName (sorter_Name s)) ++
  when (bool_decide (sorter_SortOrder s <> Descending /\ sorter_SortOrder s <> Ascending))
    (invalidSortOrder (sorter_SortOrder s)).

(** ** Affinity, tolerations, topology *)

Definition validateClusterSelector (clusterSelector : ClusterSelector) : list problem :=
  concat ((fun term =>
    validateLabelSelector (term_LabelSelector term) "cluster selector" ++
    when (bool_decide (is_Some (term_PropertySorter term))) sorterNotAllowed ++
    match term_PropertySelector term with Some s => validatePropertySelector s | None => [] end)
    <$> sel_ClusterSelectorTerms clusterSelector).

Definition validatePreferredClusterSelectors (prefs : list PreferredClusterSelector) : list problem :=
  concat ((fun pref =>
    let term := pref_Preference pref in
    validateLabelSelector (term_LabelSelector term) "preferred cluster selector" ++
    when (bool_decide (is_Some (term_PropertySelector term))) selectorNotAllowed ++
    match term_PropertySorter term with Some s => validatePropertySorter s | None => [] end)
    <$> prefs).

Definition validateClusterAffinity (clusterAffinity : ClusterAffinity) (placementType : string) : list problem :=
  let required := match aff_Required clusterAffinity with Some s => validateClusterSelector s | None => [] end in
  if decide (placementType = PickAllPlacementType) then
    required ++ when (bool_decide (aff_Preferred clusterAffinity <> [])) ignoredPreferences
  else if decide (placementType = PickNPlacementType) then
    required ++ validatePreferredClusterSelectors (aff_Preferred clusterAffinity)
  else [].

Definition validateToleration (t : Toleration) (duplicate : bool) : list problem :=
  (if decide (tol_Key t = EmptyString) then [] else invalidTolerationKey t <$> IsQualifiedName (tol_Key t)) ++
  (if decide (tol_Operator t = TolerationOpExists) then
     when (bool_decide (tol_Value t <> EmptyString)) (tolerationValueWithExists t)
   else if decide (tol_Operator t = TolerationOpEqual) then
     when (bool_decide (tol_Key t = EmptyString)) (tolerationWithoutKey t) ++
     (invalidTolerationValue t <$> IsValidLabelValue (tol_Value t))
   else []) ++
  when duplicate (duplicateToleration t).

Definition validateTolerations (tolerations : list Toleration) : list problem :=
  concat ((fun '(t, dup) => validateToleration t dup) <$> with_seen [] tolerations).

Definition IsTolerationsUpdatedOrDeleted (old new : list Toleration) : bool :=
  existsb (fun t => negb (bool_decide (t ∈ new))) old.

Definition validateTopologySpreadConstraints (constraints : list TopologySpreadConstraint) : list problem :=
  concat ((fun tc =>
    let w := tsc_WhenUnsatisfiable tc in
    when (bool_decide (w <> EmptyString /\ w <> DoNotSchedule /\ w <> ScheduleAnyway)) (unknownUnsatisfiableType w))
    <$> constraints).

(** ** Policies *)

(** The messages on one name are joined; the loop stops at the first name that
    is repeated. *)
Fixpoint validateClusterNames (seen names : list string) : list problem :=
  match names with
  | [] => []
  | name :: r =>
      (invalidClusterName name <$> take 1 (IsDNS1123Subdomain name)) ++
      when (DNS1035LabelMaxLength <? String.length name)%nat (clusterNameTooLong name) ++
      if decide (name ∈ seen) then [duplicateClusterNames] else validateClusterNames (name :: seen) r
  end.

Definition validatePolicyForPickFixedPlacementType (policy : PlacementPolicy) : list problem :=
  validateClusterNames [] (pol_ClusterNames policy) ++
  when (bool_decide (is_Some (pol_NumberOfClusters policy))) unexpectedNumberOfClusters ++
  when (bool_decide (is_Some (pol_Affinity policy))) unexpectedAffinity ++
  when (bool_decide (pol_TopologySpreadConstraints policy <> [])) unexpectedTopologySpread ++
  when (bool_decide (pol_Tolerations policy <> [])) unexpectedTolerations.

Definition validatePolicyAffinity (policy : PlacementPolicy) : list problem :=
  match pol_Affinity policy with
  | Some a =>
      match aff_ClusterAffinity a with
      | Some c => validateClusterAffinity c (pol_PlacementType policy)
      | None => []
      end
  | None => []
  end.

Definition validatePolicyForPickAllPlacementType (policy : PlacementPolicy) : list problem :=
  when (bool_decide (pol_ClusterNames policy <> [])) unexpectedClusterNames ++
  when (bool_decide (is_Some (pol_NumberOfClusters policy))) unexpectedNumberOfClusters ++
  validatePolicyAffinity policy ++
  when (bool_decide (pol_TopologySpreadConstraints policy <> [])) unexpectedTopologySpread ++
  validateTolerations (pol_Tolerations policy).

Definition validatePolicyForPickNPolicyType (policy : PlacementPolicy) : list problem :=
  when (bool_decide (pol_ClusterNames policy <> [])) unexpectedClusterNames ++
  match pol_NumberOfClusters policy with
  | Some n => when (n <? 0)%Z (negativeNumberOfClusters n)
  | None => [missingNumberOfClusters]
  end ++
  validatePolicyAffinity policy ++
  validateTopologySpreadConstraints (pol_TopologySpreadConstraints policy) ++
  validateTolerations (pol_Tolerations policy).

Definition validatePlacementPolicy (policy : PlacementPolicy) : list problem :=
  if decide (pol_PlacementType policy = PickFixedPlacementType) then validatePolicyForPickFixedPlacementType policy
  else if decide (pol_PlacementType policy = PickAllPlacementType) then validatePolicyForPickAllPlacementType policy
  else if decide (pol_PlacementType policy = PickNPlacementType) then validatePolicyForPickNPolicyType policy
  else [].

Definition IsPlacementPolicyTypeUpdated (old current : option PlacementPolicy) : bool :=
  match old, current with
  | None, Some c => bool_decide (pol_PlacementType c <> PickAllPlacementType)
  | Some o, None => bool_decide (pol_PlacementType o <> PickAllPlacementType)
  | Some o, Some c => bool_decide (pol_PlacementType c <> pol_PlacementType o)
  | None, None => false
  end.

(** ** Rollout strategy *)

(** A limit, scaled to ten to see whether it can be; the value of a failed
    scaling is zero. *)
Definition validateLimit (v : option IntOrString) (invalid negative : problem) : list problem :=
  match v with
  | None => []
  | Some v =>
      match GetScaledValueFromIntOrPercent v 10 true with
      | Ok n => when (n <? 0)%Z negative
      | _ => [invalid]
      end
  end.

Definition validateRollingUpdate (strategyType : string) (ru : RollingUpdateConfig) : list problem :=
  when (bool_decide (strategyType = ExternalRolloutStrategyType)) rollingUpdateForExternal ++
  match ru_UnavailablePeriodSeconds ru with
  | Some n => when (n <? 0)%Z (negativeUnavailablePeriod n)
  | None => []
  end ++
  validateLimit (ru_MaxUnavailable ru) invalidMaxUnavailable negativeMaxUnavailable ++
  validateLimit (ru_MaxSurge ru) invalidMaxSurge negativeMaxSurge.

Definition validateRolloutStrategy (s : RolloutStrategy) : list problem :=
  when (bool_decide (rs_Type s <> EmptyString /\ rs_Type s <> RollingUpdateRolloutStrategyType /\
                     rs_Type s <> ExternalRolloutStrategyType)) (unsupportedStrategy (rs_Type s)) ++
  match rs_RollingUpdate s with Some ru => validateRollingUpdate (rs_Type s) ru | None => [] end ++
  match rs_ApplyStrategy s with
  | Some a => when (bool_decide (as_Type a <> ApplyStrategyTypeServerSideApply /\ is_Some (as_ServerSideApplyConfig a)))
                unexpectedServerSideApplyConfig
  | None => []
  end.

(** ** Placements *)

Context {S : SchemaLib}.

Definition selectorGVK (s : ResourceSelectorTerm) : GroupVersionKind :=
  mkGVK (rsel_Group s) (rsel_Version s) (rsel_Kind s).

Definition hasNamespaceWithResourceSelectorsMode (selectors : list ResourceSelectorTerm) : bool :=
  existsb (fun s => bool_decide (rsel_Group s = gvk_Group NamespaceMetaGVK) &&
                    bool_decide (rsel_Version s = gvk_Version NamespaceMetaGVK) &&
                    bool_decide (rsel_Kind s = gvk_Kind NamespaceMetaGVK) &&
                    bool_decide (rsel_SelectionScope s = NamespaceWithResourceSelectors)) selectors.

Definition validateSelectorFields (s : ResourceSelectorTerm) : list problem :=
  match rsel_LabelSelector s with
  | Some _ =>
      when (bool_decide (rsel_Name s <> EmptyString)) labelSelectorAndName ++
      validateLabelSelector (rsel_LabelSelector s) "resource selector"
  | None => []
  end.

Definition validateScope (isClusterScoped hasNsMode : bool) (s : ResourceSelectorTerm) : list problem :=
  match ResourceInformer with
  | None => [noInformer]
  | Some IsClusterScopedResources =>
      let scoped := IsClusterScopedResources (selectorGVK s) in
      when (isClusterScoped && negb scoped && negb hasNsMode) (notClusterScoped (selectorGVK s)) ++
      when (negb isClusterScoped && scoped) (clusterScoped (selectorGVK s))
  end.

(** The loop over the selectors; true when it returned from the function. *)
Fixpoint validateSelectors (isClusterScoped hasNsMode : bool) (selectors : list ResourceSelectorTerm)
    : list problem * bool :=
  match selectors with
  | [] => ([], false)
  | s :: r =>
      match RESTMapping (selectorGVK s) with
      | Some _ => (validateSelectorFields s ++ [noResourceMapping], true)
      | None =>
          let '(ps, stop) := validateSelectors isClusterScoped hasNsMode r in
          (validateSelectorFields s ++ validateScope isClusterScoped hasNsMode s ++ ps, stop)
      end
  end.

Definition validatePlacement (name : string) (selectors : list ResourceSelectorTerm) (policy : option PlacementPolicy)
    (strategy : RolloutStrategy) (isClusterScoped : bool) : list problem :=
  let named := when (DNS1035LabelMaxLength <? String.length name)%nat nameTooLong in
  let '(selected, stop) :=
    validateSelectors isClusterScoped (hasNamespaceWithResourceSelectorsMode selectors) selectors in
  if stop then named ++ selected
  else
    named ++ selected ++
    match policy with Some p => validatePlacementPolicy p | None => [] end ++
    validateRolloutStrategy strategy.

Definition validatePlacementObj (isClusterScoped : bool) (p : PlacementObj) : list problem :=
  validatePlacement (meta_name (pl_meta p)) (psp_ResourceSelectors (pl_spec p)) (psp_Policy (pl_spec p))
    (psp_Strategy (pl_spec p)) isClusterScoped.

Definition ValidateClusterResourcePlacement : PlacementObj -> list problem := validatePlacementObj true.
Definition ValidateResourcePlacement : PlacementObj -> list problem := validatePlacementObj false.

(** ** Overrides *)

(** Only the selectors by name get into the map; they have no label selector,
    so that Go's comparison of the terms, which compares the pointers to the
    label selectors, is equality. *)
Fixpoint validateSelectorsByName (seen selectors : list ResourceSelectorTerm) : list problem :=
  match selectors with
  | [] => []
  | s :: r =>
      match rsel_LabelSelector s with
      | Some _ => labelSelectorInOverride :: validateSelectorsByName seen r
      | None =>
          if decide (rsel_Name s = EmptyString) then overrideWithoutName :: validateSelectorsByName seen r
          else when (bool_decide (s ∈ seen)) duplicateResourceSelector ++ validateSelectorsByName (s :: seen) r
      end
  end.

Definition validateClusterResourceSelectors : list ResourceSelectorTerm -> list problem :=
  validateSelectorsByName [].

Definition validateResourceSelectors (selectors : list ResourceSelector) : list problem :=
  concat ((fun '(s, dup) => when dup duplicateResourceSelector) <$> with_seen [] selectors).

(** [overrideMap[selector]]: the name of the last override that has the
    selector, or the empty string. *)
Definition overrideMap {A} `{EqDecision A} (overrides : list (string * list A)) (selector : A) : string :=
  fold_left (fun owner '(name, selectors) => if decide (selector ∈ selectors) then name else owner)
    overrides EmptyString.

(** The body of the two functions that check the limit of one override per
    resource. *)
Definition validateResourceLimit {A} `{EqDecision A} (name : string) (selectors : list A)
    (overrides : list (string * list A)) : list problem :=
  concat ((fun s =>
    let other := overrideMap overrides s in
    when (bool_decide (other <> EmptyString /\ other <> name)) (selectedTwice other)) <$> selectors).

Definition cro_entry (o : ClusterResourceOverrideSnapshot) : string * list ResourceSelectorTerm :=
  (cro_name o, cro_ClusterResourceSelectors o).

Definition ro_entry (o : ResourceOverrideSnapshot) : string * list ResourceSelector :=
  (meta_name (ro_meta o), ro_ResourceSelectors o).

Definition validateClusterResourceOverrideResourceLimit (cro : ClusterResourceOverrideSnapshot)
    (croList : list ClusterResourceOverrideSnapshot) : list problem :=
  validateResourceLimit (cro_name cro) (cro_ClusterResourceSelectors cro) (cro_entry <$> croList).

Definition validateResourceOverrideResourceLimit (ro : ResourceOverrideSnapshot)
    (roList : list ResourceOverrideSnapshot) : list problem :=
  validateResourceLimit (meta_name (ro_meta ro)) (ro_ResourceSelectors ro) (ro_entry <$> roList).

(** True when there is no error. *)
Definition validateJSONPatchOverridePath (path : string) : bool :=
  match str_split slash path with
  | EmptyString :: parts =>
      match parts with
      | [] => false
      | first :: rest =>
          if decide (first = "kind" \/ first = "apiVersion") then false
          else if decide (first = "metadata") then
            match rest with
            | [] => false
            | second :: _ =>
                bool_decide (second = "annotations" \/ second = "labels") &&
                forallb (fun p => negb (bool_decide (TrimSpace p = EmptyString))) parts
            end
          else if decide (first = "status") then false
          else forallb (fun p => negb (bool_decide (TrimSpace p = EmptyString))) parts
      end
  | _ => false
  end.

Definition validateJSONPatchOverride (patches : list JSONPatchOverride) : list problem :=
  match patches with
  | [] => [noPatches]
  | _ =>
      concat ((fun p =>
        when (negb (validateJSONPatchOverridePath (jp_Path p))) (invalidPatchPath (jp_Path p)) ++
        when (bool_decide (jp_Operator p = JSONPatchOverrideOpRemove /\ jp_Value p <> EmptyString)) removeWithValue)
        <$> patches)
  end.

Definition validateOverrideClusterTerm (term : ClusterSelectorTerm) : list problem :=
  if bool_decide (is_Some (term_PropertySelector term)) || bool_decide (is_Some (term_PropertySorter term))
  then [propertyInClusterSelector]
  else
    match term_LabelSelector term with
    | None => [missingLabelSelector]
    | Some s => validateLabelSelector (Some s) "cluster selector"
    end.

(** A deletion with patches is returned as the only error. *)
Fixpoint validateOverrideRules (found : list problem) (rules : list OverrideRule) : list problem :=
  match rules with
  | [] => found
  | rule :: r =>
      let found := found ++
        match rule_ClusterSelector rule with
        | Some s => concat (validateOverrideClusterTerm <$> sel_ClusterSelectorTerms s)
        | None => []
        end in
      if decide (rule_OverrideType rule = DeleteOverrideType) then
        match rule_JSONPatchOverrides rule with
        | [] => validateOverrideRules found r
        | _ => [patchesOfDeletion]
        end
      else if decide (rule_OverrideType rule = JSONPatchOverrideType) then
        validateOverrideRules (found ++ validateJSONPatchOverride (rule_JSONPatchOverrides rule)) r
      else validateOverrideRules found r
  end.

Definition validateOverridePolicy (policy : OverridePolicy) : list problem :=
  validateOverrideRules [] (op_OverrideRules policy).

Definition validatePolicyOf (policy : option OverridePolicy) : list problem :=
  match policy with Some p => validateOverridePolicy p | None => [] end.

(** An override has the specification its snapshots have. *)
Definition ValidateClusterResourceOverride (cro : ClusterResourceOverrideSnapshot)
    (croList : list ClusterResourceOverrideSnapshot) : list problem :=
  match validateClusterResourceSelectors (cro_ClusterResourceSelectors cro) with
  | [] => validateClusterResourceOverrideResourceLimit cro croList ++ validatePolicyOf (cro_Policy cro)
  | errs => errs
  end.

Definition ValidateResourceOverride (ro : ResourceOverrideSnapshot) (roList : list ResourceOverrideSnapshot)
    : list problem :=
  match validateResourceSelectors (ro_ResourceSelectors ro) with
  | [] => validateResourceOverrideResourceLimit ro roList ++ validatePolicyOf (ro_Policy ro)
  | errs => errs
  end.

(** ** Budgets, evictions, member clusters *)

Definition ValidateClusterResourcePlacementDisruptionBudget (db : DisruptionBudget) (crp : PlacementObj) : list problem :=
  let pickAll :=
    match psp_Policy (pl_spec crp) with
    | None => true
    | Some p => bool_decide (pol_PlacementType p = PickAllPlacementType)
    end in
  if pickAll then
    when (bool_decide (is_Some (db_MaxUnavailable db))) pickAllMaxUnavailable ++
    match db_MinAvailable db with Some (FromString _) => [pickAllMinAvailablePercentage] | _ => [] end
  else [].

Definition ValidateClusterResourcePlacementForEviction (crp : PlacementObj) : list problem :=
  if being_deleted (pl_meta crp) then [placementDeleting]
  else
    match psp_Policy (pl_spec crp) with
    | Some p => when (bool_decide (pol_PlacementType p = PickFixedPlacementType)) pickFixedEviction
    | None => []
    end.

Definition validateTaint (t : Taint) (duplicate : bool) : list problem :=
  (invalidTaintKey t <$> IsQualifiedName (taint_Key t)) ++
  (if decide (taint_Value t = EmptyString) then [] else invalidTaintValue t <$> IsValidLabelValue (taint_Value t)) ++
  when duplicate (duplicateTaint t).

Definition validateTaints (taints : list Taint) : list problem :=
  concat ((fun '(t, dup) => validateTaint t dup) <$> with_seen [] taints).

Definition ValidateMemberCluster (mc : MemberCluster) : list problem := validateTaints (mc_Taints mc).

End Validator.
