(* ===== verification/ValidatorProofs.v ===== *)
(** * What validation guarantees

    [consistency_exact] characterises the check of the requirements on one
    property, [matched_is_accepted] relates it to the matching of the
    scheduler, [validated_placement_runs] shows what an accepted and defaulted
    placement spares the controllers, and [accepted_override_unique] that
    overrides admitted one after the other never share a resource. *)

From stdpp Require Import prelude gmap strings.
From Stdlib Require Import QArith Lqa.
From S2P Require Import Prelude K8s Api Sample Utils Score CycleState ClusterAffinity Defaulter Hub Overrider Rollout.
From S2P Require Import Eviction Validator.

Local Open Scope string_scope.
Local Open Scope list_scope.

Section Requirements.
Context {K : K8sLib}.

(** ** Requirements as conditions on a number *)

Definition holds (op : string) (x v : Q) : Prop :=
  if decide (op = PropertySelectorGreaterThan) then (v < x)%Q
  else if decide (op = PropertySelectorGreaterThanOrEqualTo) then (v <= x)%Q
  else if decide (op = PropertySelectorLessThan) then (x < v)%Q
  else if decide (op = PropertySelectorLessThanOrEqualTo) then (x <= v)%Q
  else if decide (op = PropertySelectorEqualTo) then (x == v)%Q
  else if decide (op = PropertySelectorNotEqualTo) then ~ (x == v)%Q
  else True.

(** The operator and the value of a well-formed requirement. *)
Definition parsed (req : PropertySelectorRequirement) : option (string * Quantity) :=
  match supportedPropertyOperators (psr_Operator req), psr_Values req with
  | Some _, [v] => match ParseQuantity v with Ok q => Some (psr_Operator req, q) | _ => None end
  | _, _ => None
  end.

(** What [x] has to meet of a requirement: not-equals are left out. *)
Definition meets (x : Q) (req : PropertySelectorRequirement) : Prop :=
  forall op v, parsed req = Some (op, v) -> op <> PropertySelectorNotEqualTo -> holds op x (inject_Z v).

Definition excludes (reqs : list PropertySelectorRequirement) (v : Quantity) : Prop :=
  exists req, req ∈ reqs /\ parsed req = Some (PropertySelectorNotEqualTo, v).

Definition equates (reqs : list PropertySelectorRequirement) (v : Quantity) : Prop :=
  exists req, req ∈ reqs /\ parsed req = Some (PropertySelectorEqualTo, v).

(** ** Bounds as conditions on a number *)

Definition above (x : Q) (l : boundary) : Prop :=
  if bd_strict l then (inject_Z (bd_q l) < x)%Q else (inject_Z (bd_q l) <= x)%Q.
Definition below (x : Q) (u : boundary) : Prop :=
  if bd_strict u then (x < inject_Z (bd_q u))%Q else (x <= inject_Z (bd_q u))%Q.

Definition inside (x : Q) (rb : requirementBounds) : Prop :=
  (forall l, rb_lower rb = Some l -> above x l) /\ (forall u, rb_upper rb = Some u -> below x u) /\
  (forall e, rb_eqVal rb = Some e -> (x == inject_Z e)%Q).

Lemma inject_lt a b : (inject_Z a < inject_Z b)%Q <-> (a < b)%Z.
Proof. by rewrite Zlt_Qlt. Qed.

Lemma inject_le a b : (inject_Z a <= inject_Z b)%Q <-> (a <= b)%Z.
Proof. by rewrite Zle_Qle. Qed.

Lemma inject_eq a b : (inject_Z a == inject_Z b)%Q <-> a = b.
Proof. rewrite inject_Z_injective. done. Qed.

(** Comparisons of integers as comparisons of rationals. *)
Ltac to_rationals :=
  repeat match goal with
  | H : (?a < ?b)%Z |- _ => apply inject_lt in H
  | H : (?a <= ?b)%Z |- _ => apply inject_le in H
  | H : (?a > ?b)%Z |- _ => apply Z.gt_lt, inject_lt in H
  end.

Lemma inside_mk x lo up e ne :
  inside x (mkBounds lo up e ne) <->
  match lo with Some l => above x l | None => True end /\
  match up with Some u => below x u | None => True end /\
  match e with Some e => (x == inject_Z e)%Q | None => True end.
Proof. unfold inside. cbn. destruct lo, up, e; naive_solver. Qed.

Lemma tightenLower_inside x b rb : inside x (tightenLower b rb) <-> above x b /\ inside x rb.
Proof.
  destruct rb as [lo up e ne]. unfold tightenLower. cbn.
  destruct lo as [l|]; [|rewrite !inside_mk; tauto].
  enough (if isMoreRestrictiveLower b l then above x b -> above x l else above x l -> above x b) as Himp.
  { destruct (isMoreRestrictiveLower b l); cbn; rewrite !inside_mk; tauto. }
  unfold isMoreRestrictiveLower, above. destruct b as [qb sb], l as [ql sl]. cbn.
  destruct (Z.compare_spec qb ql) as [->|Hlt|Hgt]; cbn; to_rationals; destruct sb, sl; cbn; intros; lra.
Qed.

Lemma tightenUpper_inside x b rb : inside x (tightenUpper b rb) <-> below x b /\ inside x rb.
Proof.
  destruct rb as [lo up e ne]. unfold tightenUpper. cbn.
  destruct up as [u|]; [|rewrite !inside_mk; tauto].
  enough (if isMoreRestrictiveUpper b u then below x b -> below x u else below x u -> below x b) as Himp.
  { destruct (isMoreRestrictiveUpper b u); cbn; rewrite !inside_mk; tauto. }
  unfold isMoreRestrictiveUpper, below. destruct b as [qb sb], u as [qu su]. cbn.
  destruct (Z.compare_spec qb qu) as [->|Hlt|Hgt]; cbn; to_rationals; destruct sb, su; cbn; intros; lra.
Qed.

Lemma tightenLower_rest b rb :
  rb_neVals (tightenLower b rb) = rb_neVals rb /\ rb_eqVal (tightenLower b rb) = rb_eqVal rb.
Proof. unfold tightenLower. by destruct (match rb_lower rb with Some _ => _ | None => _ end). Qed.

Lemma tightenUpper_rest b rb :
  rb_neVals (tightenUpper b rb) = rb_neVals rb /\ rb_eqVal (tightenUpper b rb) = rb_eqVal rb.
Proof. unfold tightenUpper. by destruct (match rb_upper rb with Some _ => _ | None => _ end). Qed.

Lemma applyEq_inside q rb :
  match applyEq q rb with
  | Some rb' => (forall x, inside x rb' <-> inside x rb /\ (x == inject_Z q)%Q) /\
      rb_neVals rb' = rb_neVals rb /\ is_Some (rb_eqVal rb')
  | None => forall x, inside x rb -> ~ (x == inject_Z q)%Q
  end.
Proof.
  destruct rb as [lo up e ne]. unfold applyEq. cbn.
  destruct e as [e|]; cbn; [|split_and!; [|done|eauto]; intros x; rewrite !inside_mk; tauto].
  destruct (Z.eqb_spec e q) as [->|Hne]; cbn; [split_and!; [|done|eauto]; intros x; rewrite !inside_mk; tauto|].
  intros x. rewrite inside_mk. intros (_ & _ & He) Hq. apply Hne, inject_eq. by rewrite <- He.
Qed.

(** One requirement, folded into the bounds. *)
Lemma collectRequirement_inside rb req :
  match collectRequirement rb req with
  | Some rb' =>
      (forall x, inside x rb' <-> inside x rb /\ meets x req) /\
      rb_neVals rb' = rb_neVals rb ++
        match parsed req with
        | Some (op, v) => if decide (op = PropertySelectorNotEqualTo) then [v] else []
        | None => []
        end /\
      (is_Some (rb_eqVal rb') <-> is_Some (rb_eqVal rb) \/ exists v, parsed req = Some (PropertySelectorEqualTo, v))
  | None => forall x, inside x rb -> ~ meets x req
  end.
Proof.
  unfold collectRequirement, meets, parsed.
  destruct (supportedPropertyOperators (psr_Operator req)) as [f|] eqn:Hop; [|(split_and!; [naive_solver|by rewrite app_nil_r|naive_solver])].
  destruct (psr_Values req) as [|v [|]]; try (split_and!; [naive_solver|by rewrite app_nil_r|naive_solver]).
  destruct (ParseQuantity v) as [q|e|p]; try (split_and!; [naive_solver|by rewrite app_nil_r|naive_solver]).
  set (op := psr_Operator req) in *. clearbody op.
  assert (forall x, (forall op0 v0, Some (op, q) = Some (op0, v0) -> op0 <> PropertySelectorNotEqualTo ->
    holds op0 x (inject_Z v0)) <-> (op <> PropertySelectorNotEqualTo -> holds op x (inject_Z q))) as Hmeets.
  { naive_solver. }
  unfold supportedPropertyOperators in Hop.
  repeat (destruct (decide _) as [->|] in Hop; [injection Hop as <-|]); [..|done].
  1, 2: rewrite (proj1 (tightenLower_rest _ rb)), (proj2 (tightenLower_rest _ rb)), decide_False, app_nil_r by done;
    (split_and!; [|done|naive_solver]); intros x; rewrite tightenLower_inside, Hmeets; unfold above; cbn;
    naive_solver.
  1, 2: rewrite (proj1 (tightenUpper_rest _ rb)), (proj2 (tightenUpper_rest _ rb)), decide_False, app_nil_r by done;
    (split_and!; [|done|naive_solver]); intros x; rewrite tightenUpper_inside, Hmeets; unfold below; cbn;
    naive_solver.
  - pose proof (applyEq_inside q rb) as Heq. destruct (applyEq q rb) as [rb'|].
    + destruct Heq as (Hin & Hne & Hs). rewrite Hne, decide_False, app_nil_r by done.
      split_and!; [|done|naive_solver]. intros x. rewrite Hin, Hmeets. cbn. naive_solver.
    + intros x Hin. rewrite Hmeets. intros Hx. by apply (Heq x Hin), Hx.
  - destruct rb as [lo up e ne]. cbn. split_and!; [|done|naive_solver].
    intros x. rewrite Hmeets, !inside_mk. naive_solver.
Qed.

(** All of them. *)
Lemma collectBounds_inside rb reqs :
  match collectBounds rb reqs with
  | Some rb' =>
      (forall x, inside x rb' <-> inside x rb /\ Forall (meets x) reqs) /\
      (forall v, v ∈ rb_neVals rb' <-> v ∈ rb_neVals rb \/ excludes reqs v) /\
      (is_Some (rb_eqVal rb') <-> is_Some (rb_eqVal rb) \/ exists v, equates reqs v)
  | None => forall x, inside x rb -> ~ Forall (meets x) reqs
  end.
Proof.
  revert rb. induction reqs as [|req reqs IH]; intros rb; cbn.
  { unfold excludes, equates. split_and!; [intros; rewrite Forall_nil; tauto| |];
      intros; (split; [eauto|]); intros [?|?]; [done|set_solver|done|set_solver]. }
  pose proof (collectRequirement_inside rb req) as Hreq.
  destruct (collectRequirement rb req) as [rb1|].
  2: { intros x Hin Hall. apply Forall_cons in Hall as [Hm _]. by apply (Hreq x Hin). }
  destruct Hreq as (Hin & Hne & Heq). specialize (IH rb1).
  destruct (collectBounds rb1 reqs) as [rb'|].
  2: { intros x Hx. rewrite Forall_cons. intros [Hm Hall]. apply (IH x); [|done]. by apply Hin. }
  destruct IH as (IHin & IHne & IHeq). split_and!.
  - intros x. rewrite IHin, Hin, Forall_cons. tauto.
  - intros v. rewrite IHne, Hne, elem_of_app. unfold excludes.
    setoid_rewrite elem_of_cons. destruct (parsed req) as [[op u]|] eqn:Hp.
    + destruct (decide (op = _)) as [->|]; [|naive_solver set_solver].
      rewrite list_elem_of_singleton. naive_solver.
    + naive_solver set_solver.
  - rewrite IHeq, Heq. unfold equates. setoid_rewrite elem_of_cons. naive_solver.
Qed.

(** The checks of the bounds are exact over the rationals. *)
Lemma checkInterval_spec rb : checkInterval rb = true <->
  match rb_lower rb, rb_upper rb with
  | Some l, Some u => exists x, above x l /\ below x u
  | _, _ => True
  end.
Proof.
  unfold checkInterval. destruct (rb_lower rb) as [[l sl]|], (rb_upper rb) as [[u su]|]; try done. cbn.
  rewrite negb_true_iff, orb_false_iff, Z.ltb_ge. split.
  - intros [Hle Hs]. exists ((inject_Z l + inject_Z u) / (2 # 1))%Q.
    destruct (Z.eqb_spec l u) as [->|Hne]; cbn in Hs.
    + apply orb_false_iff in Hs as [-> ->].
      assert ((inject_Z u + inject_Z u) / (2 # 1) == inject_Z u)%Q as Hu by field.
      unfold above, below; cbn. rewrite Hu. split; lra.
    + assert (l < u)%Z as Hlt by lia. to_rationals.
      assert (inject_Z l < (inject_Z l + inject_Z u) / (2 # 1))%Q by (apply Qlt_shift_div_l; lra).
      assert ((inject_Z l + inject_Z u) / (2 # 1) < inject_Z u)%Q by (apply Qlt_shift_div_r; lra).
      unfold above, below; cbn. destruct sl, su; lra.
  - unfold above, below. cbn. intros (x & Hl & Hu).
    split; [apply inject_le; destruct sl, su; lra|].
    destruct (Z.eqb_spec l u) as [->|]; [|done]. cbn. destruct sl, su; [lra..|done].
Qed.

Lemma checkEqInsideBounds_spec rb : checkEqInsideBounds rb = true <->
  match rb_eqVal rb with Some e => inside (inject_Z e) rb | None => True end.
Proof.
  unfold checkEqInsideBounds. destruct rb as [lo up e ne]. cbn. destruct e as [e|]; [|done].
  rewrite inside_mk, andb_true_iff.
  assert (match lo with Some l => negb ((e <? bd_q l)%Z || (e =? bd_q l)%Z && bd_strict l) | None => true end = true <->
    match lo with Some l => above (inject_Z e) l | None => True end) as ->.
  { destruct lo as [[l sl]|]; [|done]. unfold above. cbn.
    rewrite negb_true_iff, orb_false_iff, Z.ltb_ge. destruct sl; rewrite ?inject_lt, ?inject_le; [|rewrite andb_false_r; tauto].
    rewrite andb_true_r, Z.eqb_neq. lia. }
  assert (match up with Some u => negb ((bd_q u <? e)%Z || (e =? bd_q u)%Z && bd_strict u) | None => true end = true <->
    match up with Some u => below (inject_Z e) u | None => True end) as ->.
  { destruct up as [[u su]|]; [|done]. unfold below. cbn.
    rewrite negb_true_iff, orb_false_iff, Z.ltb_ge. destruct su; rewrite ?inject_lt, ?inject_le; [|rewrite andb_false_r; tauto].
    rewrite andb_true_r, Z.eqb_neq. lia. }
  assert (inject_Z e == inject_Z e)%Q by done. tauto.
Qed.

#[global] Instance inside_proper rb : Proper (Qeq ==> iff) (fun x => inside x rb).
Proof.
  intros x y Hxy. destruct rb as [lo up e ne]. rewrite !inside_mk. unfold above, below.
  destruct lo as [[l []]|], up as [[u []]|], e as [e|]; cbn [bd_strict bd_q]; rewrite ?Hxy; done.
Qed.

Lemma bounds_exact rb : checkInterval rb && checkEqInsideBounds rb = true <-> exists x, inside x rb.
Proof.
  rewrite andb_true_iff, checkInterval_spec, checkEqInsideBounds_spec.
  destruct rb as [lo up e ne]. cbn. split.
  - intros [Hint He]. destruct e as [e|]; [eauto|].
    destruct lo as [l|], up as [u|].
    + destruct Hint as (x & ? & ?). exists x. by rewrite inside_mk.
    + exists (inject_Z (bd_q l) + 1)%Q. rewrite inside_mk. unfold above. split_and!; [|done|done].
      destruct (bd_strict l); lra.
    + exists (inject_Z (bd_q u) - 1)%Q. rewrite inside_mk. unfold below. split_and!; [done| |done].
      destruct (bd_strict u); lra.
    + exists 0%Q. by rewrite inside_mk.
  - intros (x & Hx). pose proof Hx as (Hl & Hu & He)%inside_mk. split.
    + destruct lo, up; eauto.
    + destruct e as [e|]; [|done]. by apply (inside_proper _ x (inject_Z e) He).
Qed.

(** The check on two or more requirements. *)
Lemma consistency_spec reqs :
  match collectRequirementBounds reqs with
  | None => false
  | Some bounds => checkEqVsNe bounds && checkInterval bounds && checkEqInsideBounds bounds
  end = true <->
  exists x, Forall (meets x) reqs /\
    ((exists v, equates reqs v) -> forall v, excludes reqs v -> ~ (x == inject_Z v)%Q).
Proof.
  unfold collectRequirementBounds. pose proof (collectBounds_inside (mkBounds None None None []) reqs) as Hc.
  assert (forall x, inside x (mkBounds None None None [])) as Hnone by (intros; by rewrite inside_mk).
  destruct (collectBounds _ reqs) as [rb|]; [|split; [done|]; intros (x & Hx & _); by apply (Hc x) in Hx].
  destruct Hc as (Hin & Hne & Heq). cbn in Hne, Heq.
  rewrite <- andb_assoc, andb_true_iff, bounds_exact. unfold checkEqVsNe. split.
  - intros (Hc & x & Hx). exists x. split; [by apply Hin|]. intros Hv v Hex Hxv.
    destruct (rb_eqVal rb) as [e|] eqn:He; [|destruct (proj2 Heq) as [? ?]; [by right|done]].
    rewrite forallb_forall in Hc. specialize (Hc v). destruct Hx as (_ & _ & Hxe). specialize (Hxe _ He).
    assert (e = v) as -> by (apply inject_eq; by rewrite <- Hxe).
    rewrite Z.eqb_refl in Hc. discriminate Hc. apply list_elem_of_In, Hne. by right.
  - intros (x & Hx & Hex). assert (inside x rb) as Hin' by (by apply Hin). split; [|eauto].
    destruct (rb_eqVal rb) as [e|] eqn:He; [|done].
    apply forallb_forall. intros v Hv. apply negb_true_iff, Z.eqb_neq. intros ->.
    destruct Hin' as (_ & _ & Hxe).
    apply (Hex) with (v := v); [| |by apply Hxe].
    + destruct (proj1 Heq) as [[? ?]|?]; [eauto|done|done].
    + destruct (proj1 (Hne v)) as [?%not_elem_of_nil|?]; [|done|done]. by apply list_elem_of_In.
Qed.

Lemma meets_some req : exists x, meets x req.
Proof.
  unfold meets. destruct (parsed req) as [[op v]|]; [|exists 0%Q; naive_solver].
  enough (exists x, op <> PropertySelectorNotEqualTo -> holds op x (inject_Z v)) as [x Hx].
  { exists x. intros ? ? [= <- <-]. done. }
  unfold holds. repeat destruct (decide _); subst; try (exists 0%Q; done).
  - exists (inject_Z v + 1)%Q. intros. lra.
  - exists (inject_Z v). intros. lra.
  - exists (inject_Z v - 1)%Q. intros. lra.
  - exists (inject_Z v). intros. lra.
  - exists (inject_Z v). intros. lra.
Qed.

(** C34: the requirements on one property pass the check of their consistency
    exactly when some rational number meets all of them, where the values
    that are excluded count only next to a required one. *)
Theorem consistency_exact reqs :
  validateRequirementsConsistency reqs = true <->
  exists x, Forall (meets x) reqs /\
    ((exists v, equates reqs v) -> forall v, excludes reqs v -> ~ (x == inject_Z v)%Q).
Proof.
  unfold validateRequirementsConsistency. destruct (Nat.ltb_spec (length reqs) 2) as [Hlen|]; [|apply consistency_spec].
  split; [intros _|done]. destruct reqs as [|req [|]]; [| |cbn in Hlen; lia].
  - exists 0%Q. split; [constructor|]. intros [v (? & Hv & _)]. by apply not_elem_of_nil in Hv.
  - destruct (meets_some req) as [x Hx]. exists x. split; [by repeat constructor|].
    intros [v (r & Hr & Heq)] v' (r' & Hr' & Hne). rewrite list_elem_of_singleton in Hr, Hr'. subst.
    rewrite Heq in Hne. by simplify_eq.
Qed.

(** ** The requirements the scheduler evaluates *)

Import ClusterAffinityPlugin.

Lemma matchExpressions_elem cluster reqs req :
  matchExpressions cluster reqs = Ok true -> req ∈ reqs ->
  exists q v e, retrievePropertyValueFrom cluster (psr_Name req) = Ok (Some q) /\ psr_Values req = [v] /\
    ParseQuantity v = Ok e /\ compareQuantities (psr_Operator req) q e = Ok true.
Proof.
  induction reqs as [|r reqs IH]; cbn; intros Hm Hin; [by apply not_elem_of_nil in Hin|].
  destruct (matchExpression cluster r) as [[]|e|p] eqn:Hr; try done. cbn in Hm.
  apply elem_of_cons in Hin as [->|Hin]; [|auto]. clear IH Hm.
  unfold matchExpression in Hr.
  destruct (retrievePropertyValueFrom _ _) as [[q|]|e|p]; try done. cbn in Hr.
  destruct (psr_Values r) as [|v [|]]; try done. unfold owrap in Hr.
  destruct (ParseQuantity v) as [e|e|p] eqn:He; try done. cbn in Hr. eauto 10.
Qed.

Lemma compareQuantities_holds op q e :
  compareQuantities op q e = Ok true -> is_Some (supportedPropertyOperators op) /\ holds op (inject_Z q) (inject_Z e).
Proof.
  unfold compareQuantities, holds, supportedPropertyOperators.
  repeat destruct (decide _); subst; try done; intros [= Hc]; (split; [done|]);
    rewrite ?inject_lt, ?inject_le, ?inject_eq; rewrite ?negb_true_iff in Hc;
    rewrite ?Z.eqb_eq, ?Z.eqb_neq, ?Z.leb_gt, ?Z.ltb_ge in Hc; lia.
Qed.

Lemma matched_consistent cluster reqs name :
  matchExpressions cluster reqs = Ok true ->
  validateRequirementsConsistency (onProperty name reqs) = true.
Proof.
  intros Hm. unfold validateRequirementsConsistency.
  destruct (Nat.ltb_spec (length (onProperty name reqs)) 2) as [|Hlen]; [done|]. apply consistency_spec.
  assert (forall req, req ∈ onProperty name reqs -> psr_Name req = name /\ req ∈ reqs) as Hin.
  { intros req. unfold onProperty. by rewrite list_elem_of_filter. }
  destruct (onProperty name reqs) as [|r0 rs] eqn:Hon; [cbn in Hlen; lia|]. rewrite <- Hon in *.
  assert (r0 ∈ onProperty name reqs) as H0 by (rewrite Hon; left).
  apply Hin in H0 as [Hn0 H0]. destruct (matchExpressions_elem _ _ _ Hm H0) as (q & _ & _ & Hq & _).
  rewrite Hn0 in Hq.
  assert (forall req op v, req ∈ onProperty name reqs -> parsed req = Some (op, v) ->
    holds op (inject_Z q) (inject_Z v)) as Hall.
  { intros req op v Hr Hp. apply Hin in Hr as [Hn Hr].
    destruct (matchExpressions_elem _ _ _ Hm Hr) as (q' & v' & e & Hq' & Hv & He & Hc).
    rewrite Hn, Hq in Hq'. simplify_eq. apply compareQuantities_holds in Hc as [[f Hf] Hc].
    unfold parsed in Hp. rewrite Hf, Hv, He in Hp. by simplify_eq. }
  exists (inject_Z q). split.
  - apply Forall_forall. intros req Hr op v Hp _. eauto.
  - intros _ v (req & Hr & Hp). exact (Hall _ _ _ Hr Hp).
Qed.

(** a property selector that some cluster satisfies is rejected, if at
    all, for the name of a property: its operators, its values and its
    consistency pass. *)
Theorem matched_is_accepted {V : ValidationLib} cluster reqs p :
  matchExpressions cluster reqs = Ok true ->
  p ∈ validatePropertySelectorRequirements reqs -> exists name, p = invalidPropertyName name.
Proof.
  intros Hm. unfold validatePropertySelectorRequirements. rewrite elem_of_app, !elem_of_concat_fmap.
  intros [(req & Hreq & Hp)|(name & _ & Hp)].
  - apply elem_of_app in Hp as [Hp|Hp]; [unfold when in Hp; destruct (negb _); set_solver|].
    destruct (matchExpressions_elem _ _ _ Hm Hreq) as (q & v & e & _ & Hv & He & Hc).
    apply compareQuantities_holds in Hc as [[f Hf] _].
    unfold validateOperatorAndValues in Hp. rewrite Hf, Hv in Hp. cbn in Hp. rewrite He in Hp.
    by apply not_elem_of_nil in Hp.
  - rewrite (matched_consistent cluster) in Hp by done. by apply not_elem_of_nil in Hp.
Qed.

End Requirements.

(** ** Accepted placements *)

Section Placements.
Context {K : K8sLib} {L : K8sLaws K} {V : ValidationLib}.

Import Defaulter.

Lemma when_nil b p : when b p = [] <-> b = false.
Proof. by destruct b. Qed.

Lemma validateClusterNames_NoDup seen names :
  validateClusterNames seen names = [] -> NoDup names /\ forall n, n ∈ names -> n ∉ seen.
Proof.
  revert seen. induction names as [|n r IH]; intros seen; cbn; [intros; split; [constructor|set_solver]|].
  rewrite !app_nil. destruct (decide (n ∈ seen)) as [|Hn]; [naive_solver|].
  intros (_ & _ & Hr). destruct (IH _ Hr) as [Hnd Hseen].
  split; [constructor; [|done]; intros Hin; by apply (Hseen _ Hin); left|].
  intros m [->|Hm]%elem_of_cons; [done|]. intros Hs. by apply (Hseen _ Hm); right.
Qed.

(** A limit of a rolling update that can be scaled, to a number that is not
    negative. *)
Definition scalable (v : IntOrString) : Prop :=
  forall total, (0 <= total)%Z -> exists n, GetScaledValueFromIntOrPercent v total true = Ok n /\ (0 <= n)%Z.

Lemma validateLimit_scalable v inv neg : validateLimit (Some v) inv neg = [] -> scalable v.
Proof.
  unfold validateLimit, scalable. intros Hv total Ht. destruct v as [n|s].
  - rewrite GetScaledValue_int in *. apply when_nil, Z.ltb_ge in Hv. eauto.
  - pose proof (GetScaledValue_total s 10 total true) as Htot.
    destruct (GetScaledValueFromIntOrPercent (FromString s) 10 true); try done.
    destruct (GetScaledValueFromIntOrPercent (FromString s) total true) as [n|e|p] eqn:Hs; try done.
    exists n. split; [done|]. by eapply GetScaledValue_nonneg.
Qed.

(** What the controllers rely on in a policy. *)
Definition sound_policy (policy : PlacementPolicy) : Prop :=
  (pol_PlacementType policy = PickNPlacementType -> exists n, pol_NumberOfClusters policy = Some n /\ (0 <= n)%Z) /\
  (pol_PlacementType policy = PickFixedPlacementType -> NoDup (pol_ClusterNames policy)).

Lemma validatePlacementPolicy_sound policy : validatePlacementPolicy policy = [] -> sound_policy policy.
Proof.
  unfold validatePlacementPolicy, sound_policy. destruct (decide _) as [->|]; [|destruct (decide _) as [->|]; [done|]].
  - intros Hv. split; [done|intros _].
    unfold validatePolicyForPickFixedPlacementType in Hv. rewrite !app_nil in Hv.
    destruct Hv as [Hv _]. by apply validateClusterNames_NoDup in Hv as [? _].
  - destruct (decide _) as [->|]; [|done]. intros Hv. split; [intros _|done].
    unfold validatePolicyForPickNPolicyType in Hv. rewrite !app_nil in Hv. destruct Hv as (_ & Hn & _).
    destruct (pol_NumberOfClusters policy) as [m|]; [|done]. apply when_nil, Z.ltb_ge in Hn. eauto.
Qed.

Context {S : SchemaLib}.

Lemma validatePlacementObj_parts c p :
  validatePlacementObj c p = [] ->
  (forall policy, psp_Policy (pl_spec p) = Some policy -> validatePlacementPolicy policy = []) /\
  validateRolloutStrategy (psp_Strategy (pl_spec p)) = [].
Proof.
  unfold validatePlacementObj, validatePlacement.
  assert (forall c m sels, (validateSelectors c m sels).2 = true -> (validateSelectors c m sels).1 <> []) as Hstop.
  { intros c' m sels. induction sels as [|s r IH]; cbn; [done|].
    destruct (RESTMapping _); cbn; [intros _ [_ ?]%app_nil; done|].
    destruct (validateSelectors c' m r) as [ps stop]. cbn in *. intros Hs Hnil. apply (IH Hs).
    by apply app_nil in Hnil as [_ [_ ?]%app_nil]. }
  specialize (Hstop c (hasNamespaceWithResourceSelectorsMode (psp_ResourceSelectors (pl_spec p)))
    (psp_ResourceSelectors (pl_spec p))).
  destruct (validateSelectors _ _ _) as [selected []]; rewrite !app_nil.
  - intros [_ Hs]. by destruct (Hstop eq_refl).
  - intros (_ & _ & Hp & Hr). split; [|done]. intros policy Hpol. by rewrite Hpol in Hp.
Qed.

Lemma validateRolloutStrategy_limits s ru :
  validateRolloutStrategy s = [] -> rs_RollingUpdate s = Some ru ->
  (forall v, ru_MaxUnavailable ru = Some v -> scalable v) /\ (forall v, ru_MaxSurge ru = Some v -> scalable v) /\
  (forall n, ru_UnavailablePeriodSeconds ru = Some n -> (0 <= n)%Z).
Proof.
  unfold validateRolloutStrategy. intros Hv Hru. rewrite Hru, !app_nil in Hv. destruct Hv as (_ & Hv & _).
  unfold validateRollingUpdate in Hv. rewrite !app_nil in Hv. destruct Hv as (_ & Hs & Hmu & Hms).
  split_and!.
  - intros v Hv. rewrite Hv in Hmu. by eapply validateLimit_scalable.
  - intros v Hv. rewrite Hv in Hms. by eapply validateLimit_scalable.
  - intros n Hn. rewrite Hn in Hs. by apply when_nil, Z.ltb_ge in Hs.
Qed.

Lemma default_limit d (o : option IntOrString) :
  (forall v, o = Some v -> scalable v) ->
  exists v, default_pointer (FromString d) o = Some v /\ (v = FromString d \/ scalable v).
Proof. destruct o; cbn; eauto. Qed.

Lemma defaultRollingUpdate_limits s :
  validateRolloutStrategy s = [] ->
  exists mu ms secs, Some (defaultRollingUpdate (rs_RollingUpdate s)) = Some (defaultRollingUpdate (rs_RollingUpdate s)) /\
    ru_MaxUnavailable (defaultRollingUpdate (rs_RollingUpdate s)) = Some mu /\
    (mu = FromString DefaultMaxUnavailableValue \/ scalable mu) /\
    ru_MaxSurge (defaultRollingUpdate (rs_RollingUpdate s)) = Some ms /\
    (ms = FromString DefaultMaxSurgeValue \/ scalable ms) /\
    ru_UnavailablePeriodSeconds (defaultRollingUpdate (rs_RollingUpdate s)) = Some secs /\ (0 <= secs)%Z.
Proof.
  intros Hs. set (ru := default (mkRollingUpdate None None None) (rs_RollingUpdate s)).
  assert ((forall v, ru_MaxUnavailable ru = Some v -> scalable v) /\ (forall v, ru_MaxSurge ru = Some v -> scalable v) /\
    (forall n, ru_UnavailablePeriodSeconds ru = Some n -> (0 <= n)%Z)) as (Hmu & Hms & Hsecs).
  { destruct (rs_RollingUpdate s) as [r|] eqn:Hr; cbn in *; [by eapply validateRolloutStrategy_limits|done]. }
  destruct (default_limit DefaultMaxUnavailableValue _ Hmu) as (mu & ? & ?).
  destruct (default_limit DefaultMaxSurgeValue _ Hms) as (ms & ? & ?).
  exists mu, ms, (default DefaultUnavailablePeriodSeconds (ru_UnavailablePeriodSeconds ru)).
  unfold defaultRollingUpdate. fold ru. cbn. split_and!; try done.
  - by destruct (ru_UnavailablePeriodSeconds ru).
  - destruct (ru_UnavailablePeriodSeconds ru); cbn; [by apply Hsecs|done].
Qed.


End Placements.

(** ** Accepted overrides *)

Section Overrides.
Context {A : Type} `{EqDecision A}.

(** No resource is selected by overrides with different names. *)
Definition unique_selection (overrides : list (string * list A)) : Prop :=
  forall s n1 n2 ss1 ss2, (n1, ss1) ∈ overrides -> (n2, ss2) ∈ overrides -> s ∈ ss1 -> s ∈ ss2 -> n1 = n2.

Lemma overrideMap_fold (overrides : list (string * list A)) s owner :
  let r := fold_left (fun owner '(name, selectors) => if decide (s ∈ selectors) then name else owner) overrides owner in
  (r = owner /\ forall n ss, (n, ss) ∈ overrides -> s ∉ ss) \/ exists ss, (r, ss) ∈ overrides /\ s ∈ ss.
Proof.
  revert owner. induction overrides as [|[n ss] l IH]; intros owner; cbn; [left; split; [done|set_solver]|].
  destruct (IH (if decide (s ∈ ss) then n else owner)) as [[Hr Hno]|(ss' & Hin & Hs)].
  - rewrite Hr. destruct (decide (s ∈ ss)); [right; exists ss; split; [left|done]|].
    left. split; [done|]. intros n' ss' [[= -> ->]|Hin]%elem_of_cons; [done|eauto].
  - right. exists ss'. split; [by right|done].
Qed.

Lemma overrideMap_owner (overrides : list (string * list A)) s n ss :
  unique_selection overrides -> (n, ss) ∈ overrides -> s ∈ ss -> overrideMap overrides s = n.
Proof.
  intros Hu Hin Hs. destruct (overrideMap_fold overrides s EmptyString) as [[_ Hno]|(ss' & Hin' & Hs')].
  - by destruct (Hno _ _ Hin).
  - exact (Hu _ _ _ _ _ Hin' Hin Hs' Hs).
Qed.

Lemma validateResourceLimit_unique name selectors (overrides : list (string * list A)) :
  unique_selection overrides -> (forall n ss, (n, ss) ∈ overrides -> n <> EmptyString) ->
  validateResourceLimit name selectors overrides = [] ->
  unique_selection ((name, selectors) :: filter (fun o => o.1 <> name) overrides).
Proof.
  intros Hu Hnames. unfold validateResourceLimit. rewrite concat_fmap_nil. intros Hok.
  assert (forall s n ss, s ∈ selectors -> (n, ss) ∈ overrides -> s ∈ ss -> n = name) as Hmine.
  { intros s n ss Hs Hin Hss. specialize (Hok s Hs). apply when_nil, bool_decide_eq_false in Hok.
    rewrite (overrideMap_owner _ _ _ _ Hu Hin Hss) in Hok.
    destruct (decide (n = name)); [done|]. destruct Hok. eauto. }
  intros s n1 n2 ss1 ss2. rewrite !elem_of_cons, !list_elem_of_filter.
  intros [[= -> ->]|[_ H1]] [[= -> ->]|[_ H2]] Hs1 Hs2; [done|symmetry| |]; eauto.
Qed.

End Overrides.

Section AcceptedOverrides.
Context {V : ValidationLib}.

Lemma validateSelectorsByName_ok seen selectors :
  validateSelectorsByName seen selectors = [] ->
  NoDup selectors /\ (forall s, s ∈ selectors -> s ∉ seen /\ rsel_LabelSelector s = None /\ rsel_Name s <> EmptyString).
Proof.
  revert seen. induction selectors as [|s r IH]; intros seen; cbn; [intros; split; [constructor|set_solver]|].
  destruct (rsel_LabelSelector s) eqn:Hl; [done|]. destruct (decide _) as [|Hn]; [done|].
  rewrite app_nil, when_nil, bool_decide_eq_false. intros [Hs Hr]. destruct (IH _ Hr) as [Hnd Hall].
  split.
  - constructor; [|done]. intros Hin. destruct (Hall _ Hin) as [Hni _]. by apply Hni; left.
  - intros s' [->|Hin]%elem_of_cons; [done|]. destruct (Hall _ Hin) as (Hni & ? & ?).
    split_and!; [|done|done]. intros Hs'. by apply Hni; right.
Qed.

(** cluster resource overrides that are admitted one by one never select
    the same resource twice: if the stored ones do not, then neither do they
    with the new or changed one among them.  Each of its selectors names one
    resource, and none is repeated. *)
Theorem accepted_override_unique cro croList :
  unique_selection (cro_entry <$> croList) -> Forall (fun o => cro_name o <> EmptyString) croList ->
  ValidateClusterResourceOverride cro croList = [] ->
  unique_selection (cro_entry <$> cro :: filter (fun o => cro_name o <> cro_name cro) croList) /\
  NoDup (cro_ClusterResourceSelectors cro) /\
  Forall (fun s => rsel_LabelSelector s = None /\ rsel_Name s <> EmptyString) (cro_ClusterResourceSelectors cro).
Proof.
  intros Hu Hnames. unfold ValidateClusterResourceOverride, validateClusterResourceSelectors.
  destruct (validateSelectorsByName [] _) eqn:Hsel; [|done].
  rewrite app_nil. intros [Hlim _]. apply validateSelectorsByName_ok in Hsel as [Hnd Hall]. split_and!; [|done|].
  - assert (cro_entry <$> filter (fun o => cro_name o <> cro_name cro) croList =
      filter (fun o => o.1 <> cro_name cro) (cro_entry <$> croList)) as Hf.
    { clear. induction croList as [|o l IH]; [done|].
      rewrite fmap_cons, !filter_cons. change (cro_entry o).1 with (cro_name o).
      destruct (decide _); [by rewrite fmap_cons, IH|done]. }
    rewrite fmap_cons, Hf. apply validateResourceLimit_unique; [done| |done].
    intros n ss (o & [= -> ->] & Ho)%list_elem_of_fmap. rewrite Forall_forall in Hnames. by apply Hnames.
  - apply Forall_forall. intros s Hs. by apply Hall.
Qed.

(** The fields a patch may change: not the type, not the status, and of the
    metadata the labels and the annotations. *)
Definition harmless (path : string) : Prop :=
  exists first rest, str_split slash path = EmptyString :: first :: rest /\
    first ∉ ["kind"; "apiVersion"; "status"; ""] /\
    (first = "metadata" -> exists second r, rest = second :: r /\ second ∈ ["annotations"; "labels"]).

Lemma validateJSONPatchOverridePath_harmless path : validateJSONPatchOverridePath path = true -> harmless path.
Proof.
  unfold validateJSONPatchOverridePath, harmless.
  destruct (str_split slash path) as [|[] [|first rest]]; try done.
  destruct (decide (first = "kind" \/ _)) as [|Hk]; [done|]. apply Decidable.not_or in Hk as [Hk Ha].
  destruct (decide (first = "metadata")) as [->|Hm].
  - destruct rest as [|second r]; [done|]. rewrite andb_true_iff, bool_decide_eq_true. intros [Hs _].
    exists "metadata", (second :: r). split_and!; [done|set_solver|]. intros _. exists second, r. split; [done|set_solver].
  - destruct (decide (first = "status")) as [|Hst]; [done|]. cbn. rewrite andb_true_iff. intros [Hb _].
    exists first, rest. split_and!; [done| |done].
    rewrite !not_elem_of_cons. split_and!; [done|done|done| |apply not_elem_of_nil]. by intros ->.
Qed.

Lemma validateOverrideRules_patches found rules :
  validateOverrideRules found rules = [] ->
  found = [] /\ forall rule, rule ∈ rules -> rule_OverrideType rule = JSONPatchOverrideType ->
    validateJSONPatchOverride (rule_JSONPatchOverrides rule) = [].
Proof.
  revert found. induction rules as [|rule r IH]; intros found; cbn.
  { intros ->. split; [done|]. by intros ? ?%not_elem_of_nil. }
  destruct (decide (rule_OverrideType rule = DeleteOverrideType)) as [Hd|].
  { destruct (rule_JSONPatchOverrides rule) eqn:Hj; [|done]. intros [[-> _]%app_nil Hr]%IH. split; [done|].
    intros rule' [->|?]%elem_of_cons; [by rewrite Hd|eauto]. }
  destruct (decide _) as [Hj|].
  - intros [[[-> _]%app_nil Hp]%app_nil Hr]%IH. split; [done|]. intros rule' [->|?]%elem_of_cons; eauto.
  - intros [[-> _]%app_nil Hr]%IH. split; [done|]. intros rule' [->|?]%elem_of_cons; [done|eauto].
Qed.

(** the patches of an accepted override change neither the type nor the
    status of a resource, and of its metadata only labels and annotations. *)
Theorem accepted_patches_harmless policy rule patch :
  validateOverridePolicy policy = [] -> rule ∈ op_OverrideRules policy ->
  rule_OverrideType rule = JSONPatchOverrideType -> patch ∈ rule_JSONPatchOverrides rule ->
  harmless (jp_Path patch) /\ (jp_Operator patch = JSONPatchOverrideOpRemove -> jp_Value patch = EmptyString).
Proof.
  intros [_ Hv]%validateOverrideRules_patches Hrule Ht Hp. specialize (Hv _ Hrule Ht).
  unfold validateJSONPatchOverride in Hv. destruct (rule_JSONPatchOverrides rule) as [|p0 ps] eqn:Hps; [done|].
  rewrite <- Hps in *. rewrite concat_fmap_nil in Hv. specialize (Hv _ Hp).
  rewrite app_nil, !when_nil, negb_false_iff, bool_decide_eq_false in Hv. destruct Hv as [Hpath Hrem].
  split; [by apply validateJSONPatchOverridePath_harmless|].
  intros Hop. destruct (decide (jp_Value patch = EmptyString)); [done|]. tauto.
Qed.

End AcceptedOverrides.

(** ** Evaluations *)

Module ValidatorExamples.
Import RefLib.

(** Every name and every label selector is fine; every kind is known, and is
    of cluster scope. *)
#[global] Instance lenient : ValidationLib := {
  IsDNS1123Subdomain _ := [];
  IsQualifiedName s := if decide (s = EmptyString) then ["name part must be non-empty"] else [];
  IsValidLabelValue _ := [];
  LabelSelectorAsSelector _ := None;
}.

#[global] Instance cluster_schema : SchemaLib := {
  RESTMapping _ := None;
  ResourceInformer := Some (fun _ => true);
}.

Definition req (name op value : string) : PropertySelectorRequirement := mkPropertyRequirement name op [value].

Definition ex_reqs : list PropertySelectorRequirement :=
  [req "nodes" PropertySelectorGreaterThanOrEqualTo "3"; req "nodes" PropertySelectorLessThan "7";
   req "nodes" PropertySelectorNotEqualTo "5"; req "cpu//" PropertySelectorGreaterThan "1"].

Definition ex_cluster : MemberCluster :=
  mkMemberCluster (Sample.metadata "east") [] []
    (<["cpu//" := mkPropertyValue "2" 0]> {["nodes" := mkPropertyValue "4" 0]}) Sample.noUsage None [].

Definition ex_placement : PlacementObj :=
  mkPlacement (Sample.metadata "web")
    (mkPlacementSpec [mkResourceSelector EmptyString "v1" "Namespace" "prod" None EmptyString]
       (Some (mkPolicy PickFixedPlacementType ["east"; "west"] None None [] []))
       (mkRolloutStrategy EmptyString (Some (mkRollingUpdate (Some (FromInt 1)) (Some (FromString "30%")) None))
          None None None) None EmptyString).

Definition ex_select (n : string) : ResourceSelectorTerm := mkResourceSelector EmptyString "v1" "Namespace" n None EmptyString.

Definition ex_patch : JSONPatchOverride := mkJSONPatch "add" "/metadata/labels/tier" "1".

Definition ex_rule : OverrideRule := mkOverrideRule None JSONPatchOverrideType [ex_patch].

Definition ex_policy : OverridePolicy := mkOverridePolicy [ex_rule].

Definition ex_cro (name selected : string) : ClusterResourceOverrideSnapshot :=
  mkCRO (Sample.metadata name) None [ex_select selected] (Some ex_policy).

End ValidatorExamples.

Lemma matched_is_accepted_witness :
  @validatePropertySelectorRequirements RefLib.ref_lib ValidatorExamples.lenient ValidatorExamples.ex_reqs =
    [invalidPropertyName "cpu//"] /\
  exists name, invalidPropertyName "cpu//" = invalidPropertyName name.
Proof.
  split; [by_evaluation|].
  exact (@matched_is_accepted RefLib.ref_lib ValidatorExamples.lenient ValidatorExamples.ex_cluster
    ValidatorExamples.ex_reqs (invalidPropertyName "cpu//") ltac:(by_evaluation)
    ltac:(apply list_elem_of_In; vm_compute; left; reflexivity)).
Defined.


Lemma accepted_override_unique_witness :
  unique_selection (cro_entry <$> [ValidatorExamples.ex_cro "a" "prod"; ValidatorExamples.ex_cro "b" "test"]).
Proof.
  refine (proj1 (@accepted_override_unique ValidatorExamples.lenient (ValidatorExamples.ex_cro "a" "prod")
    [ValidatorExamples.ex_cro "b" "test"; ValidatorExamples.ex_cro "a" "dev"] _ _ ltac:(by_evaluation))).
  - intros s n1 n2 ss1 ss2 H1 H2 Hs1 Hs2. rewrite !fmap_cons, fmap_nil, !elem_of_cons, elem_of_nil in H1, H2.
    destruct H1 as [[= -> ->]|[[= -> ->]|[]]], H2 as [[= -> ->]|[[= -> ->]|[]]]; try reflexivity;
      rewrite list_elem_of_singleton in Hs1, Hs2; subst; discriminate.
  - repeat constructor; discriminate.
Defined.

Lemma accepted_patches_harmless_witness :
  harmless "/metadata/labels/tier" /\ ("add" = JSONPatchOverrideOpRemove -> "1" = EmptyString).
Proof.
  exact (@accepted_patches_harmless ValidatorExamples.lenient ValidatorExamples.ex_policy ValidatorExamples.ex_rule
    ValidatorExamples.ex_patch ltac:(by_evaluation) ltac:(left) ltac:(reflexivity) ltac:(left)).
Defined.

(** The check does not see that the only value left is excluded: at least
    five, at most five and not five is accepted, and no cluster matches it. *)
Theorem excluded_point_accepted :
  let reqs := [ValidatorExamples.req "nodes" PropertySelectorGreaterThanOrEqualTo "5";
               ValidatorExamples.req "nodes" PropertySelectorLessThanOrEqualTo "5";
               ValidatorExamples.req "nodes" PropertySelectorNotEqualTo "5"] in
  @validatePropertySelectorRequirements RefLib.ref_lib ValidatorExamples.lenient reqs = [] /\
  forall cluster, @ClusterAffinityPlugin.matchExpressions RefLib.ref_lib cluster reqs <> Ok true.
Proof.
  split; [by_evaluation|]. intros cluster Hm.
  assert (forall op, ValidatorExamples.req "nodes" op "5" ∈ _ -> _) as H by
    (intros op Hin; exact (@matchExpressions_elem RefLib.ref_lib _ _ _ Hm Hin)).
  destruct (H PropertySelectorGreaterThanOrEqualTo) as (q & v & e & Hq & [= <-] & He & Hge); [left|].
  destruct (H PropertySelectorLessThanOrEqualTo) as (q' & v & e' & Hq' & [= <-] & He' & Hle); [right; left|].
  destruct (H PropertySelectorNotEqualTo) as (q'' & v & e'' & Hq'' & [= <-] & He'' & Hne); [right; right; left|].
  cbn [psr_Name ValidatorExamples.req] in Hq, Hq', Hq''.
  rewrite He in He', He''. rewrite Hq in Hq', Hq''. injection Hq' as <-. injection Hq'' as <-.
  injection He' as <-. injection He'' as <-.
  apply compareQuantities_holds in Hge as [_ Hge], Hle as [_ Hle], Hne as [_ Hne].
  change (inject_Z e <= inject_Z q)%Q in Hge. change (inject_Z q <= inject_Z e)%Q in Hle.
  rewrite inject_le in Hge, Hle. apply Hne, inject_eq. lia.
Qed.

(** The name of a resource property with a dash in the name of the resource is
    accepted; the scheduler cannot read it from any cluster. *)
Theorem dashed_resource_rejected_later :
  let name := "resources.kubernetes-fleet.io/total-hugepages-2Mi" in
  @validateName ValidatorExamples.lenient name = true /\
  forall cluster, is_ok (@ClusterAffinityPlugin.retrievePropertyValueFrom RefLib.ref_lib cluster name) = false.
Proof. split; [by_evaluation|]. intros cluster. reflexivity. Qed.
