(* ===== verification/Webhook.v ===== *)
(** * Admission webhooks

    Models the handlers of [pkg/webhook], the user checks of
    [pkg/webhook/validation/uservalidation.go], [HandlePlacementValidation] of
    [pkg/utils/validator/placement.go] and the review of a user's access to
    the resources a placement selects ([pkg/utils/authorization]).

    What a handler decodes and reads is an argument: the decoded objects, the
    answers of the reader.  The texts of the answers are not modelled. *)

From stdpp Require Import prelude gmap strings.
From S2P Require Import Prelude K8s Api Sample Utils Defaulter Hub Overrider Eligibility Eviction Validator.

Local Open Scope string_scope.
Local Open Scope list_scope.

(** ** Requests and answers *)

Inductive Operation : Set := Create | Update | Delete | Connect.

#[global] Instance Operation_eq_dec : EqDecision Operation.
Proof. solve_decision. Defined.

Record UserInfo : Set := mkUser { Username : string; Groups : list string }.

Record Request : Set := mkRequest {
  req_Operation : Operation;
  req_Kind : GroupVersionKind;
  req_Name : string;
  req_Namespace : string;
  req_User : UserInfo;
}.

(** An answer: whether the request is allowed, the HTTP code, the warnings. *)
Record Response : Set := mkResponse {
  resp_Allowed : bool;
  resp_Code : Z;
  resp_Warnings : list string;
}.

Definition Allowed : Response := mkResponse true 200 [].
Definition Denied : Response := mkResponse false 403 [].
Definition Errored (code : Z) : Response := mkResponse false code [].
Definition StatusBadRequest : Z := 400.
Definition StatusInternalServerError : Z := 500.

(** The zero value, the answer to an operation that is not handled. *)
Definition noResponse : Response := mkResponse false 0 [].

(** [if err := decode(); err != nil { return Errored(400) }] *)
Definition decoded {A} (m : outcome A) (k : A -> Response) : Response :=
  match m with Ok a => k a | _ => Errored StatusBadRequest end.

(** ** Member clusters *)

(** A member cluster with the fields of its specification that only the hub
    agent reads. *)
Record MemberClusterObj : Set := mkMemberClusterObj {
  mo_cluster : MemberCluster;
  mo_IdentityName : string;
  mo_HeartbeatPeriodSeconds : Z;
  mo_DeleteValidationMode : option string;
}.

Definition mo_annotations (m : MemberClusterObj) : gmap string string := meta_annotations (mc_meta (mo_cluster m)).
Definition mo_labels (m : MemberClusterObj) : gmap string string := mc_labels (mo_cluster m).

(** ** Users *)

Definition mastersGroup : string := "system:masters".
Definition kubeadmClusterAdminsGroup : string := "kubeadm:cluster-admins".
Definition serviceAccountsGroup : string := "system:serviceaccounts".
Definition nodeGroup : string := "system:nodes".
Definition kubeSchedulerUser : string := "system:kube-scheduler".
Definition kubeControllerManagerUser : string := "system:kube-controller-manager".
Definition aksSupportUser : string := "aks-support".
Definition FleetAnnotationPrefix : string := "fleet.azure.com".
Definition KubeFleetPrefix : string := "kubefleet.dev/".
Definition ClusterAliasLabel : string := KubeFleetPrefix +:+ "cluster-alias".
Definition FleetMemberNamespacePrefix : string := FleetNSNamePrefix +:+ "member-".

Definition fleetManagedCRDGroups : list string :=
  [NetworkingGroupName; ClusterGroup; PlacementGroup; "multicluster.x-k8s.io"].

Definition isUserInGroup (user : UserInfo) (group : string) : bool := bool_decide (group ∈ Groups user).

Definition isAdminGroupUserOrWhiteListedUser (whiteListedUsers : list string) (user : UserInfo) : bool :=
  bool_decide (Username user ∈ whiteListedUsers) || isUserInGroup user mastersGroup ||
  isUserInGroup user kubeadmClusterAdminsGroup.

Definition isUserAuthenticatedServiceAccount (user : UserInfo) : bool := isUserInGroup user serviceAccountsGroup.
Definition isUserKubeScheduler (user : UserInfo) : bool := bool_decide (Username user = kubeSchedulerUser).
Definition isUserKubeControllerManager (user : UserInfo) : bool :=
  bool_decide (Username user = kubeControllerManagerUser).
Definition isAKSSupportUser (user : UserInfo) : bool := bool_decide (Username user = aksSupportUser).

Definition checkCRDGroup (group : string) : bool := bool_decide (group ∈ fleetManagedCRDGroups).

Definition ValidateUserForFleetCRD (req : Request) (whiteListedUsers : list string) (group : string) : Response :=
  if checkCRDGroup group && negb (isAdminGroupUserOrWhiteListedUser whiteListedUsers (req_User req)) then Denied
  else Allowed.

Definition ValidateUserForResource (req : Request) (whiteListedUsers : list string) : Response :=
  let user := req_User req in
  if isAdminGroupUserOrWhiteListedUser whiteListedUsers user || isUserAuthenticatedServiceAccount user ||
     isUserKubeScheduler user || isUserKubeControllerManager user || isUserInGroup user nodeGroup ||
     isAKSSupportUser user
  then Allowed else Denied.

(** The keys of a map that satisfy a test. *)
Definition anyKey (p : string -> bool) (m : gmap string string) : bool := existsb p (map_to_list m).*1.

Definition IsFleetAnnotationPresent (annotations : gmap string string) : bool :=
  anyKey (fun k => HasPrefix k FleetAnnotationPrefix) annotations.

Definition areAllFleetAnnotationsRemoved (current old : gmap string string) : bool :=
  IsFleetAnnotationPresent old && negb (IsFleetAnnotationPresent current).

Definition isFleetAnnotationAdded (current old : gmap string string) : bool :=
  negb (IsFleetAnnotationPresent old) && IsFleetAnnotationPresent current.

Definition isFleetAnnotationUpdated (current old : gmap string string) : bool :=
  anyKey (fun k => HasPrefix k FleetAnnotationPrefix && negb (bool_decide (current !! k = old !! k))) old.

(** A map that is nil is not told apart from an empty one. *)
Definition isMapFieldUpdated (current old : gmap string string) : bool := negb (bool_decide (current = old)).

Definition shouldDenyLabelModification (current old : gmap string string) (denyModifyMemberClusterLabels isServiceAccount : bool)
    : bool :=
  if negb denyModifyMemberClusterLabels then false
  else
    let exempt k := HasPrefix k FleetPrefix || (isServiceAccount && HasPrefix k KubeFleetPrefix) in
    anyKey (fun k => negb (bool_decide (old !! k = current !! k)) && negb (exempt k)) current ||
    anyKey (fun k => negb (bool_decide (is_Some (current !! k))) && negb (exempt k)) old.

(** The object without its labels, its annotations and the fields of the
    metadata that the server sets; its taints are removed by the caller.  The
    code compares the SHA-256 sums of the JSON. *)
Definition comparable (m : MemberClusterObj) : MemberClusterObj :=
  let c := mo_cluster m in
  let meta := mc_meta c in
  mkMemberClusterObj
    (mkMemberCluster (mkObjectMeta (meta_name meta) (meta_namespace meta) ∅ ∅ (meta_finalizers meta) None 0 0)
       (mc_Taints c) (mc_Conditions c) (mc_Properties c) (mc_ResourceUsage c) (mc_Namespaces c) (mc_AgentStatus c))
    (mo_IdentityName m) (mo_HeartbeatPeriodSeconds m) (mo_DeleteValidationMode m).

#[global] Instance MemberClusterObj_eq_dec : EqDecision MemberClusterObj.
Proof. solve_decision. Defined.

Definition isMemberClusterUpdated (current old : MemberClusterObj) : bool :=
  negb (bool_decide (comparable current = comparable old)).

Definition withoutTaints (m : MemberClusterObj) : MemberClusterObj :=
  let c := mo_cluster m in
  mkMemberClusterObj
    (mkMemberCluster (mc_meta c) [] (mc_Conditions c) (mc_Properties c) (mc_ResourceUsage c) (mc_Namespaces c)
       (mc_AgentStatus c))
    (mo_IdentityName m) (mo_HeartbeatPeriodSeconds m) (mo_DeleteValidationMode m).

Definition ValidateFleetMemberClusterUpdate (current old : MemberClusterObj) (req : Request)
    (whiteListedUsers : list string) (denyModifyMemberClusterLabels : bool) : Response :=
  let user := req_User req in
  if areAllFleetAnnotationsRemoved (mo_annotations current) (mo_annotations old) then Denied
  else
    let isObjUpdated := isMemberClusterUpdated (withoutTaints current) (withoutTaints old) in
    let isLabelUpdated := isMapFieldUpdated (mo_labels current) (mo_labels old) in
    if isLabelUpdated && negb (isUserInGroup user mastersGroup) &&
       shouldDenyLabelModification (mo_labels current) (mo_labels old) denyModifyMemberClusterLabels
         (isUserAuthenticatedServiceAccount user)
    then Denied
    else if isObjUpdated || isFleetAnnotationUpdated (mo_annotations current) (mo_annotations old) then
      ValidateUserForResource req whiteListedUsers
    else Allowed.

(** The status is all that follows the specification in the record. *)
Definition sameStatus (a b : MemberClusterObj) : bool :=
  let a := mo_cluster a in
  let b := mo_cluster b in
  bool_decide (mc_Conditions a = mc_Conditions b /\ mc_Properties a = mc_Properties b /\
    mc_ResourceUsage a = mc_ResourceUsage b /\ mc_Namespaces a = mc_Namespaces b /\ mc_AgentStatus a = mc_AgentStatus b).

Definition ValidatedUpstreamMemberClusterUpdate (current old : MemberClusterObj) (req : Request)
    (whiteListedUsers : list string) : Response :=
  if isFleetAnnotationAdded (mo_annotations current) (mo_annotations old) then Denied
  else if negb (sameStatus current old) then ValidateUserForResource req whiteListedUsers
  else Allowed.

(** [getMC] reads a member cluster by its name; a failed read lets the request
    through. *)
Definition ValidateMCIdentity (getMC : string -> outcome MemberClusterObj) (req : Request) (mcName : string) : Response :=
  match getMC mcName with
  | Ok mc =>
      let identity := mo_IdentityName mc in
      if decide (identity = Username (req_User req) \/
                 "system:serviceaccount:fleet-system:" +:+ identity = Username (req_User req))
      then Allowed else Denied
  | _ => Allowed
  end.

(** ** The guard of the fleet's resources *)

Record fleetResourceValidator : Type := mkValidator {
  frv_getMC : string -> outcome MemberClusterObj;
  frv_whiteListedUsers : list string;
  frv_denyModifyMemberClusterLabels : bool;
}.

Definition CRDMetaGVK : GroupVersionKind := mkGVK "apiextensions.k8s.io" "v1" "CustomResourceDefinition".
Definition MCMetaGVK : GroupVersionKind := mkGVK ClusterGroup "v1beta1" "MemberCluster".
Definition EventMetaGVK : GroupVersionKind := mkGVK EmptyString "v1" "Event".

(** The kinds the member agents use in the namespaces of their clusters. *)
Definition fleetOwnedGVKs : list GroupVersionKind :=
  [mkGVK ClusterGroup "v1beta1" "InternalMemberCluster"; mkGVK PlacementGroup "v1beta1" "Work";
   mkGVK NetworkingGroupName "v1alpha1" "EndpointSliceExport"; mkGVK NetworkingGroupName "v1alpha1" "EndpointSliceImport";
   mkGVK NetworkingGroupName "v1alpha1" "InternalServiceExport"; mkGVK NetworkingGroupName "v1alpha1" "InternalServiceImport"].

Definition IsFleetMemberNamespace (namespace : string) : bool := HasPrefix namespace FleetMemberNamespacePrefix.

(** The submatch of the regular expression: what follows the first dot, or the
    empty string. *)
Fixpoint groupMatch (name : string) : string :=
  match name with
  | EmptyString => EmptyString
  | String a r => if (byte a =? 46)%Z then r else groupMatch r
  end.

Fixpoint str_drop (n : nat) (s : string) : string :=
  match n, s with
  | 0, _ => s
  | _, EmptyString => EmptyString
  | S n, String _ r => str_drop n r
  end.

Definition parseMemberClusterNameFromNamespace (namespace : string) : string :=
  str_drop (String.length FleetMemberNamespacePrefix) namespace.

Section Guard.
Variable v : fleetResourceValidator.

(** [object] and [oldObject] are the two objects of the request, decoded. *)
Variables object oldObject : outcome MemberClusterObj.

Definition handleCRD (req : Request) : Response :=
  ValidateUserForFleetCRD req (frv_whiteListedUsers v) (groupMatch (req_Name req)).

Definition decodeRequestObject (req : Request) : outcome MemberClusterObj :=
  if decide (req_Operation req = Delete) then oldObject else object.

Definition handleMemberCluster (req : Request) : Response :=
  decoded (decodeRequestObject req) (fun currentMC =>
    if decide (req_Operation req = Update) then
      decoded oldObject (fun oldMC =>
        if IsFleetAnnotationPresent (mo_annotations oldMC) then
          ValidateFleetMemberClusterUpdate currentMC oldMC req (frv_whiteListedUsers v)
            (frv_denyModifyMemberClusterLabels v)
        else ValidatedUpstreamMemberClusterUpdate currentMC oldMC req (frv_whiteListedUsers v))
    else if IsFleetAnnotationPresent (mo_annotations currentMC) then
      ValidateUserForResource req (frv_whiteListedUsers v)
    else Allowed).

Definition handleFleetReservedNamespacedResource (req : Request) : Response :=
  if IsFleetMemberNamespace (req_Namespace req) then
    let response := ValidateUserForResource req (frv_whiteListedUsers v) in
    if resp_Allowed response then response
    else ValidateMCIdentity (frv_getMC v) req (parseMemberClusterNameFromNamespace (req_Namespace req))
  else if IsReservedNamespace (req_Namespace req) then ValidateUserForResource req (frv_whiteListedUsers v)
  else Allowed.

Definition handleEvent (req : Request) : Response := Allowed.

Definition handleNamespace (req : Request) : Response :=
  if IsReservedNamespace (req_Name req) then ValidateUserForResource req (frv_whiteListedUsers v) else Allowed.

(** [Handle]; the namespace of a request on a namespace is dropped. *)
Definition HandleFleetResource (req : Request) : Response :=
  let req :=
    if decide (gvk_Kind (req_Kind req) = "Namespace") then
      mkRequest (req_Operation req) (req_Kind req) (req_Name req) EmptyString (req_User req)
    else req in
  if decide (req_Operation req = Connect) then noResponse
  else if decide (req_Kind req = CRDMetaGVK) then handleCRD req
  else if decide (req_Kind req = MCMetaGVK) then handleMemberCluster req
  else if decide (req_Kind req = NamespaceMetaGVK) then handleNamespace req
  else if decide (req_Kind req ∈ fleetOwnedGVKs) then handleFleetReservedNamespacedResource req
  else if decide (req_Kind req = EventMetaGVK) then handleEvent req
  else if decide (req_Namespace req <> EmptyString) then ValidateUserForResource req (frv_whiteListedUsers v)
  else Allowed.

End Guard.

(** ** Pods, replica sets and disruption budgets

    The three handlers differ in the kind they decode: [object] is the
    namespace of the decoded object. *)
Definition HandleReservedOnly (req : Request) (object : outcome string) : Response :=
  if decide (req_Operation req = Create) then
    decoded object (fun namespace => if negb (IsReservedNamespace namespace) then Denied else Allowed)
  else Allowed.

Definition HandlePod : Request -> outcome string -> Response := HandleReservedOnly.
Definition HandleReplicaSet : Request -> outcome string -> Response := HandleReservedOnly.
Definition HandlePodDisruptionBudget : Request -> outcome string -> Response := HandleReservedOnly.

(** ** Member clusters *)

Section MemberClusterWebhook.
Context {V : ValidationLib}.

(** The clusters that carry a label with a value, as the cache has them. *)
Variable listByAlias : string -> outcome (list MemberCluster).

(** Whether the internal service exports in a namespace are being deleted. *)
Variable listServiceExports : string -> outcome (list bool).

Definition maxNamedHolders : nat := 3.

Definition aliasHolders (mc : MemberCluster) (others : list MemberCluster) : list string :=
  mc_name <$> filter (fun o => mc_name o <> mc_name mc) others.

(** The names in the warning, when there is one. *)
Definition clusterAliasCollisionWarning (mc : MemberCluster) : list string :=
  match mc_labels mc !! ClusterAliasLabel with
  | Some alias =>
      if decide (alias = EmptyString) then []
      else
        match listByAlias alias with
        | Ok others =>
            let holders := aliasHolders mc others in
            take maxNamedHolders holders ++
            if (maxNamedHolders <? length holders)%nat
            then ["and " +:+ zstr (Z.of_nat (length holders - maxNamedHolders)) +:+ " more"] else []
        | _ => []
        end
  | None => []
  end.

Definition DeleteValidationModeSkip : string := "Skip".

Definition handleMemberClusterDelete (networkingAgentsEnabled : bool) (req : Request) (mc : MemberClusterObj) : Response :=
  if decide (mo_DeleteValidationMode mc = Some DeleteValidationModeSkip) then Allowed
  else if negb networkingAgentsEnabled then Allowed
  else
    match listServiceExports (FleetMemberNamespacePrefix +:+ req_Name req) with
    | Ok deleting => if forallb id deleting then Allowed else Denied
    | _ => Errored StatusInternalServerError
    end.

Definition HandleMemberCluster (networkingAgentsEnabled : bool) (req : Request)
    (object oldObject : outcome MemberClusterObj) : Response :=
  if decide (req_Operation req = Delete) then
    decoded oldObject (handleMemberClusterDelete networkingAgentsEnabled req)
  else
    decoded object (fun mc =>
      match ValidateMemberCluster (mo_cluster mc) with
      | [] => mkResponse true 200 (clusterAliasCollisionWarning (mo_cluster mc))
      | _ => Denied
      end).

End MemberClusterWebhook.

(** ** Authorization of the selected resources *)

Record ResourceAttributes : Set := mkAttributes {
  ra_Namespace : string;
  ra_Verb : string;
  ra_Group : string;
  ra_Version : string;
  ra_Resource : string;
  ra_Name : string;
}.

#[global] Instance ResourceAttributes_eq_dec : EqDecision ResourceAttributes.
Proof. solve_decision. Defined.

(** The status of a [SubjectAccessReview]. *)
Record ReviewStatus : Set := mkReview {
  sar_Allowed : bool;
  sar_Denied : bool;
  sar_EvaluationError : string;
  sar_Reason : string;
}.

Inductive Decision_ : Set := DecisionAllowed | DecisionDenied | DecisionIndeterminate.

#[global] Instance Decision__eq_dec : EqDecision Decision_.
Proof. solve_decision. Defined.

(** The joined errors are a list. *)
Record Result : Set := mkResult {
  res_Decision : Decision_;
  res_DenialReason : string;
  res_Err : list goerr;
}.

Definition describeAttributes (a : ResourceAttributes) : string :=
  let resource := if decide (ra_Group a = EmptyString) then ra_Resource a else ra_Resource a +:+ "." +:+ ra_Group a in
  let target := if decide (ra_Name a = EmptyString) then resource else resource +:+ " " +:+ go_quote (ra_Name a) in
  let target :=
    if decide (ra_Namespace a = EmptyString) then target
    else target +:+ " in namespace " +:+ go_quote (ra_Namespace a) in
  ra_Verb a +:+ " " +:+ target.

Section Review.

(** The creation of a review: the status the server filled in. *)
Variable createReview : UserInfo -> ResourceAttributes -> outcome ReviewStatus.

(** The number of reviews that are submitted before the request is cancelled. *)
Variable submitted : nat.

Definition indeterminate (msg : string) : Result := mkResult DecisionIndeterminate EmptyString [ErrPlain msg].

Definition review (user : UserInfo) (attributes : ResourceAttributes) : Result :=
  match createReview user attributes with
  | Ok status =>
      if sar_Allowed status && sar_Denied status then
        indeterminate ("SubjectAccessReview for " +:+ describeAttributes attributes +:+
          " returned conflicting allowed and denied decisions")
      else if sar_Allowed status then mkResult DecisionAllowed EmptyString []
      else if decide (sar_EvaluationError status <> EmptyString) then
        indeterminate ("SubjectAccessReview for " +:+ describeAttributes attributes +:+
          " reported an evaluation error: " +:+ sar_EvaluationError status)
      else
        let decision := if sar_Denied status then "denied" else "no opinion" in
        mkResult DecisionDenied
          ("SubjectAccessReview " +:+ decision +:+ " access to " +:+ describeAttributes attributes +:+
           (if decide (sar_Reason status = EmptyString) then EmptyString else ": " +:+ sar_Reason status)) []
  | Err e => mkResult DecisionIndeterminate EmptyString [wrap_error "failed to create SubjectAccessReview" e]
  | Panic p => indeterminate p
  end.

Definition reviewAll (user : UserInfo) (attributes : list ResourceAttributes) : list Result :=
  imap (fun i a => if (i <? submitted)%nat then review user a
                   else indeterminate ("authorization review for " +:+ describeAttributes a +:+ " was not submitted"))
    attributes.

(** The reasons and the errors of one result. *)
Definition resultReasons (r : Result) : list string :=
  match res_Decision r with
  | DecisionDenied => if decide (res_DenialReason r = EmptyString) then [] else [res_DenialReason r]
  | _ => []
  end.

Definition resultErrors (r : Result) : list goerr :=
  match res_Decision r with
  | DecisionAllowed => []
  | DecisionDenied =>
      (if decide (res_DenialReason r = EmptyString)
       then [ErrPlain "authorization review returned a denial without a reason"] else []) ++ res_Err r
  | DecisionIndeterminate =>
      match res_Err r with
      | [] => [ErrPlain "authorization review returned an indeterminate decision without an error"]
      | errs => errs
      end
  end.

Fixpoint joinReasons (reasons : list string) : string :=
  match reasons with
  | [] => EmptyString
  | [r] => r
  | r :: rs => r +:+ "; " +:+ joinReasons rs
  end.

(** The attributes without the repeated ones, in order. *)
Fixpoint uniqueAttributes (seen attributes : list ResourceAttributes) : list ResourceAttributes :=
  match attributes with
  | [] => []
  | a :: r => if decide (a ∈ seen) then uniqueAttributes seen r else a :: uniqueAttributes (a :: seen) r
  end.

Definition Authorize (user : UserInfo) (attributes : list ResourceAttributes) : Result :=
  let results := reviewAll user (uniqueAttributes [] attributes) in
  let reasons := concat (resultReasons <$> results) in
  let errs := concat (resultErrors <$> results) in
  match reasons, errs with
  | _ :: _, _ => mkResult DecisionDenied (joinReasons reasons) errs
  | [], _ :: _ => mkResult DecisionIndeterminate EmptyString errs
  | [], [] => mkResult DecisionAllowed EmptyString []
  end.

(** ** The resources of a ResourcePlacement *)

Record GroupVersionResource : Set := mkGVR { gvr_Group : string; gvr_Version : string; gvr_Resource : string }.

(** [RESTMapping]: the resource of a kind, and whether it is namespaced. *)
Variable restMapping : GroupVersionKind -> outcome (GroupVersionResource * bool).
Variable resourceEligibilityChecker : checker.
Context {V : ValidationLib}.

Definition resourceAttributes (gvr : GroupVersionResource) (verb namespace name : string) : ResourceAttributes :=
  mkAttributes namespace verb (gvr_Group gvr) (gvr_Version gvr) (gvr_Resource gvr) name.

Definition selectorAttributes (gvr : GroupVersionResource) (namespace : string) (selector : ResourceSelectorTerm)
    : outcome ResourceAttributes :=
  if bool_decide (namespace <> EmptyString) && negb (AllowsNamespace resourceEligibilityChecker namespace) then
    Err (ErrPlain ("namespace " +:+ go_quote namespace +:+ " is not eligible for placement"))
  else if decide (rsel_Name selector <> EmptyString) then
    match rsel_LabelSelector selector with
    | Some _ => Err (ErrPlain "name and labelSelector are mutually exclusive")
    | None => Ok (resourceAttributes gvr "get" namespace (rsel_Name selector))
    end
  else
    match rsel_LabelSelector selector with
    | Some s =>
        match LabelSelectorAsSelector s with
        | Some e => Err (wrap_error "invalid resource label selector" e)
        | None => Ok (resourceAttributes gvr "list" namespace EmptyString)
        end
    | None => Ok (resourceAttributes gvr "list" namespace EmptyString)
    end.

(** One round of the loop of [resolveResourcePlacement]. *)
Definition resolveSelector (namespace : string) (attributes : list ResourceAttributes) (selector : ResourceSelectorTerm)
    : outcome (list ResourceAttributes) :=
  let gvk := selectorGVK selector in
  let! (resource, namespaced) := owrap "failed to resolve selector" (restMapping gvk) in
  if negb namespaced then Err (ErrPlain "resource placement cannot select cluster-scoped resource")
  else if negb (AllowsGVK resourceEligibilityChecker gvk) then Ok attributes
  else
    let! check := selectorAttributes resource namespace selector in
    Ok (attributes ++ [check]).

Definition resolveResourcePlacement (rp : PlacementObj) : outcome (list ResourceAttributes) :=
  let namespace := meta_namespace (pl_meta rp) in
  if decide (namespace = EmptyString) then Err (ErrPlain "resource placement must specify a namespace")
  else ofold (resolveSelector namespace) [] (psp_ResourceSelectors (pl_spec rp)).

(** [ResourcePlacementAuthorizer.Authorize]; only namespaced placements are
    supported. *)
Definition AuthorizePlacement (user : UserInfo) (placement : PlacementObj) : Result :=
  match resolveResourcePlacement placement with
  | Ok attributes => Authorize user attributes
  | Err e => mkResult DecisionIndeterminate EmptyString [e]
  | Panic p => indeterminate p
  end.

End Review.

(** ** Placements *)

Section PlacementWebhook.

(** [validateFunc], without a problem when the placement is valid, and the
    authorizer, when there is one. *)
Variable validateFunc : PlacementObj -> list problem.
Variable authorizer : option (UserInfo -> PlacementObj -> Result).

(** [PlacementSpec.Tolerations] *)
Definition specTolerations (s : PlacementSpec) : list Toleration :=
  match psp_Policy s with Some p => pol_Tolerations p | None => [] end.

(** The answer to what the authorizer found; None when the request may go on. *)
Definition authorizationAnswer (result : Result) : option Response :=
  match res_Decision result with
  | DecisionAllowed =>
      if bool_decide (res_Err result <> []) || bool_decide (res_DenialReason result <> EmptyString)
      then Some (Errored StatusInternalServerError) else None
  | DecisionDenied =>
      Some (if decide (res_DenialReason result = EmptyString) then Errored StatusInternalServerError else Denied)
  | DecisionIndeterminate => Some (Errored StatusInternalServerError)
  end.

(** What follows the checks against the old object. *)
Definition validateAndAuthorize (user : UserInfo) (placement : PlacementObj) (specUnchanged : bool) : Response :=
  match validateFunc placement with
  | _ :: _ => Denied
  | [] =>
      match authorizer with
      | Some authorize =>
          if specUnchanged then Allowed
          else match authorizationAnswer (authorize user placement) with Some r => r | None => Allowed end
      | None => Allowed
      end
  end.

Definition HandlePlacementValidation (req : Request) (object oldObject : outcome PlacementObj) : Response :=
  if decide (req_Operation req = Create) then
    decoded object (fun placement => validateAndAuthorize (req_User req) placement false)
  else if decide (req_Operation req = Update) then
    decoded object (fun placement =>
      decoded oldObject (fun oldPlacement =>
        match validateFunc oldPlacement with
        | _ :: _ => if being_deleted (pl_meta placement) then Allowed else Denied
        | [] =>
            let old := pl_spec oldPlacement in
            let new := pl_spec placement in
            if IsPlacementPolicyTypeUpdated (psp_Policy old) (psp_Policy new) then Denied
            else if IsTolerationsUpdatedOrDeleted (specTolerations old) (specTolerations new) then Denied
            else validateAndAuthorize (req_User req) placement (bool_decide (old = new))
        end))
  else Allowed.

End PlacementWebhook.

(** ** The other validating webhooks *)

(** The webhooks of evictions and budgets read the placement; they let a
    request through when there is none. *)
Definition withPlacement (get : outcome PlacementObj) (validate : PlacementObj -> list problem) : Response :=
  match get with
  | Ok crp => match validate crp with [] => Allowed | _ => Denied end
  | Err e => if has_reason NotFound e then Allowed else Errored StatusBadRequest
  | Panic _ => Errored StatusBadRequest
  end.

Definition HandleEviction (getPlacement : string -> outcome PlacementObj) (object : outcome EvictionObj) : Response :=
  decoded object (fun crpe =>
    withPlacement (getPlacement (ev_PlacementName crpe)) ValidateClusterResourcePlacementForEviction).

Definition HandleDisruptionBudget (getPlacement : string -> outcome PlacementObj) (name : string)
    (object : outcome DisruptionBudget) : Response :=
  decoded object (fun db =>
    withPlacement (getPlacement name) (ValidateClusterResourcePlacementDisruptionBudget db)).

Definition overrideLimit : nat := 100.

Definition HandleClusterResourceOverride {V : ValidationLib} (req : Request)
    (object : outcome ClusterResourceOverrideSnapshot) (list : outcome (list ClusterResourceOverrideSnapshot)) : Response :=
  decoded object (fun cro =>
    match list with
    | Ok croList =>
        if decide (req_Operation req = Create /\ overrideLimit <= length croList) then Denied
        else match ValidateClusterResourceOverride cro croList with [] => Allowed | _ => Denied end
    | _ => Errored StatusBadRequest
    end).

Definition HandleResourceOverride {V : ValidationLib} (req : Request)
    (object : outcome ResourceOverrideSnapshot) (list : outcome (list ResourceOverrideSnapshot)) : Response :=
  decoded object (fun ro =>
    match list with
    | Ok roList =>
        if decide (req_Operation req = Create /\ overrideLimit <= length roList) then Denied
        else match ValidateResourceOverride ro roList with [] => Allowed | _ => Denied end
    | _ => Errored StatusInternalServerError
    end).

(** ** What the guard protects *)

(** The users [ValidateUserForResource] lets through. *)
Definition trusted (whiteListedUsers : list string) (user : UserInfo) : bool :=
  isAdminGroupUserOrWhiteListedUser whiteListedUsers user || isUserAuthenticatedServiceAccount user ||
  isUserKubeScheduler user || isUserKubeControllerManager user || isUserInGroup user nodeGroup ||
  isAKSSupportUser user.

Lemma ValidateUserForResource_trusted req white :
  resp_Allowed (ValidateUserForResource req white) = trusted white (req_User req).
Proof. unfold ValidateUserForResource. fold (trusted white (req_User req)). by destruct (trusted _ _). Qed.

Lemma anyKey_false p m : anyKey p m = false <-> forall k v, m !! k = Some v -> p k = false.
Proof.
  unfold anyKey. rewrite <- not_true_iff_false, existsb_exists. split.
  - intros Hno k v Hk. apply not_true_iff_false. intros Hp. apply Hno. exists k. split; [|done].
    apply list_elem_of_In, list_elem_of_fmap. exists (k, v). split; [done|]. by apply elem_of_map_to_list.
  - intros Hall (k & Hin & Hp). apply list_elem_of_In, list_elem_of_fmap in Hin as ([k' v] & -> & Hkv).
    apply elem_of_map_to_list, Hall in Hkv. cbn in *. congruence.
Qed.

(** What an untrusted user may do to a member cluster of the fleet: nothing
    but labels, taints and annotations changes, and the annotations of the
    fleet that were there stay as they were. *)
Definition harmless_update (current old : MemberClusterObj) : Prop :=
  comparable (withoutTaints current) = comparable (withoutTaints old) /\
  forall k v, mo_annotations old !! k = Some v -> HasPrefix k FleetAnnotationPrefix = true ->
    mo_annotations current !! k = Some v.

Lemma FleetMemberClusterUpdate_harmless current old req white deny :
  trusted white (req_User req) = false ->
  resp_Allowed (ValidateFleetMemberClusterUpdate current old req white deny) = true ->
  harmless_update current old.
Proof.
  intros Hu. unfold ValidateFleetMemberClusterUpdate.
  destruct (areAllFleetAnnotationsRemoved _ _); [done|]. destruct (_ && shouldDenyLabelModification _ _ _ _); [done|].
  destruct (isMemberClusterUpdated _ _ || _) eqn:Hup; [by rewrite ValidateUserForResource_trusted, Hu|].
  apply orb_false_iff in Hup as [Hobj Hann]. intros _. split.
  - unfold isMemberClusterUpdated in Hobj. apply negb_false_iff, bool_decide_eq_true in Hobj. done.
  - intros k v Hk Hp. unfold isFleetAnnotationUpdated in Hann. rewrite anyKey_false in Hann.
    specialize (Hann k v Hk). rewrite Hp in Hann. cbn in Hann.
    apply negb_false_iff, bool_decide_eq_true in Hann. by rewrite Hann.
Qed.

(** What an allowed request of an untrusted user is about. *)
Definition tolerated (v : fleetResourceValidator) (object oldObject : outcome MemberClusterObj) (req : Request) : Prop :=
  (req_Kind req = CRDMetaGVK -> checkCRDGroup (groupMatch (req_Name req)) = false) /\
  (req_Kind req = MCMetaGVK -> req_Operation req = Update -> forall current old,
     object = Ok current -> oldObject = Ok old -> IsFleetAnnotationPresent (mo_annotations old) = true ->
     harmless_update current old) /\
  (req_Kind req = MCMetaGVK -> req_Operation req <> Update -> forall current,
     decodeRequestObject object oldObject req = Ok current ->
     IsFleetAnnotationPresent (mo_annotations current) = false) /\
  (req_Kind req = NamespaceMetaGVK -> IsReservedNamespace (req_Name req) = false) /\
  (req_Kind req ∈ fleetOwnedGVKs -> IsReservedNamespace (req_Namespace req) = true ->
     IsFleetMemberNamespace (req_Namespace req) = true /\
     forall mc, frv_getMC v (parseMemberClusterNameFromNamespace (req_Namespace req)) = Ok mc ->
       Username (req_User req) = mo_IdentityName mc \/
       Username (req_User req) = "system:serviceaccount:fleet-system:" +:+ mo_IdentityName mc) /\
  (req_Kind req ∉ [CRDMetaGVK; MCMetaGVK; EventMetaGVK] ++ fleetOwnedGVKs -> gvk_Kind (req_Kind req) <> "Namespace" ->
     req_Namespace req = EmptyString).

Lemma handleMemberCluster_harmless v object oldObject req :
  trusted (frv_whiteListedUsers v) (req_User req) = false ->
  resp_Allowed (handleMemberCluster v object oldObject req) = true ->
  (req_Operation req = Update -> forall current old,
     object = Ok current -> oldObject = Ok old -> IsFleetAnnotationPresent (mo_annotations old) = true ->
     harmless_update current old) /\
  (req_Operation req <> Update -> forall current,
     decodeRequestObject object oldObject req = Ok current ->
     IsFleetAnnotationPresent (mo_annotations current) = false).
Proof.
  intros Hu Ha. unfold handleMemberCluster in Ha. split.
  - intros Hop current old -> -> Hf. revert Ha. unfold decodeRequestObject, decoded.
    rewrite decide_False, decide_True, Hf by (done || congruence).
    by apply FleetMemberClusterUpdate_harmless.
  - intros Hop current Hd. revert Ha. rewrite Hd. unfold decoded. rewrite decide_False by done.
    destruct (IsFleetAnnotationPresent _); [|done]. by rewrite ValidateUserForResource_trusted, Hu.
Qed.

Lemma handleFleetReserved_member v req :
  trusted (frv_whiteListedUsers v) (req_User req) = false ->
  resp_Allowed (handleFleetReservedNamespacedResource v req) = true ->
  IsReservedNamespace (req_Namespace req) = true ->
  IsFleetMemberNamespace (req_Namespace req) = true /\
  forall mc, frv_getMC v (parseMemberClusterNameFromNamespace (req_Namespace req)) = Ok mc ->
    Username (req_User req) = mo_IdentityName mc \/
    Username (req_User req) = "system:serviceaccount:fleet-system:" +:+ mo_IdentityName mc.
Proof.
  intros Hu. unfold handleFleetReservedNamespacedResource. rewrite ValidateUserForResource_trusted, Hu.
  destruct (IsFleetMemberNamespace _).
  - intros Ha _. split; [done|]. intros mc Hmc. unfold ValidateMCIdentity in Ha. rewrite Hmc in Ha.
    destruct (decide _) as [[|]|]; [by left|by right|done].
  - intros Ha Hr. by rewrite Hr, ValidateUserForResource_trusted, Hu in Ha.
Qed.

Lemma fleetOwned_others : CRDMetaGVK ∉ fleetOwnedGVKs /\ MCMetaGVK ∉ fleetOwnedGVKs /\ EventMetaGVK ∉ fleetOwnedGVKs.
Proof. by_decide. Qed.


(** ** Admitted placements *)

(** The type of a placement without a policy is PickAll. *)
Definition policyType (p : option PlacementPolicy) : string :=
  match p with Some p => pol_PlacementType p | None => PickAllPlacementType end.

Lemma IsPlacementPolicyTypeUpdated_false old new :
  IsPlacementPolicyTypeUpdated old new = false -> policyType new = policyType old.
Proof.
  unfold IsPlacementPolicyTypeUpdated, policyType.
  destruct old, new; try done; rewrite bool_decide_eq_false; intros H; apply dec_stable in H; congruence.
Qed.

Lemma IsTolerationsUpdatedOrDeleted_false old new :
  IsTolerationsUpdatedOrDeleted old new = false -> old ⊆ new.
Proof.
  unfold IsTolerationsUpdatedOrDeleted. rewrite <- not_true_iff_false, existsb_exists. intros Hno t Ht.
  destruct (decide (t ∈ new)) as [|Hn]; [done|]. destruct Hno. exists t.
  split; [by apply list_elem_of_In|]. by rewrite bool_decide_eq_false_2.
Qed.

Lemma validateAndAuthorize_allowed validate auth user p unchanged :
  resp_Allowed (validateAndAuthorize validate auth user p unchanged) = true ->
  validate p = [] /\
  forall authorize, auth = Some authorize -> unchanged = false -> res_Decision (authorize user p) = DecisionAllowed.
Proof.
  unfold validateAndAuthorize. destruct (validate p); [|done]. destruct auth as [authorize|]; [|done].
  destruct unchanged; [done|]. unfold authorizationAnswer. intros Ha. split; [done|]. intros ? [= <-] _.
  destruct (res_Decision (authorize user p)); [done| |done]. by destruct (decide _).
Qed.

(** an admitted update of a placement that is not being deleted leaves a
    valid placement of the same type, and no toleration of the old one is
    missing. *)
Theorem admitted_update_keeps_type validate auth req new old :
  resp_Allowed (HandlePlacementValidation validate auth req (Ok new) (Ok old)) = true ->
  req_Operation req = Update -> being_deleted (pl_meta new) = false ->
  validate new = [] /\ policyType (psp_Policy (pl_spec new)) = policyType (psp_Policy (pl_spec old)) /\
  specTolerations (pl_spec old) ⊆ specTolerations (pl_spec new).
Proof.
  intros Ha Hop Hdel. unfold HandlePlacementValidation, decoded in Ha. rewrite Hop in Ha. cbn in Ha.
  destruct (validate old); [|by rewrite Hdel in Ha].
  destruct (IsPlacementPolicyTypeUpdated _ _) eqn:Ht; [done|].
  destruct (IsTolerationsUpdatedOrDeleted _ _) eqn:Htol; [done|].
  apply validateAndAuthorize_allowed in Ha as [Hv _].
  split_and!; [done|by apply IsPlacementPolicyTypeUpdated_false|by apply IsTolerationsUpdatedOrDeleted_false].
Qed.

Section Authorized.
Context {V : ValidationLib} (createReview : UserInfo -> ResourceAttributes -> outcome ReviewStatus) (submitted : nat)
  (restMapping : GroupVersionKind -> outcome (GroupVersionResource * bool)) (checker : checker).

(** The server granted the user the access. *)
Definition granted (user : UserInfo) (a : ResourceAttributes) : Prop :=
  exists status, createReview user a = Ok status /\ sar_Allowed status = true /\ sar_Denied status = false.

Lemma review_allowed user a : res_Decision (review createReview user a) = DecisionAllowed -> granted user a.
Proof.
  unfold review, granted. destruct (createReview user a) as [st|e|p]; [|done|done].
  destruct (sar_Allowed st) eqn:Hal, (sar_Denied st) eqn:Hd; cbn; try destruct (decide _); try done. eauto.
Qed.

Lemma result_clean r : resultReasons r = [] -> resultErrors r = [] -> res_Decision r = DecisionAllowed.
Proof.
  unfold resultReasons, resultErrors. destruct (res_Decision r); [done| |by destruct (res_Err r)].
  by destruct (decide _).
Qed.

Lemma uniqueAttributes_elem seen attributes a :
  a ∈ attributes -> a ∈ seen \/ a ∈ uniqueAttributes seen attributes.
Proof.
  revert seen. induction attributes as [|b l IH]; intros seen; cbn; [by intros ?%not_elem_of_nil|].
  intros [->|Ha]%elem_of_cons.
  - destruct (decide _); [by left|right; left].
  - destruct (decide (b ∈ seen)); [by apply IH|].
    destruct (IH (b :: seen) Ha) as [[->|?]%elem_of_cons|?]; [right; left|by left|right; by right].
Qed.

Lemma Authorize_allowed user attributes a :
  res_Decision (Authorize createReview submitted user attributes) = DecisionAllowed -> a ∈ attributes -> granted user a.
Proof.
  unfold Authorize. intros Hd Ha.
  destruct (concat (resultReasons <$> _)) as [|] eqn:Hreasons; [|done].
  destruct (concat (resultErrors <$> _)) as [|] eqn:Herrs; [|done].
  destruct (uniqueAttributes_elem [] attributes a Ha) as [?%not_elem_of_nil|Hu]; [done|].
  apply list_elem_of_lookup in Hu as [i Hi].
  set (r := if (i <? submitted)%nat then review createReview user a
    else indeterminate ("authorization review for " +:+ describeAttributes a +:+ " was not submitted")).
  assert (r ∈ reviewAll createReview submitted user (uniqueAttributes [] attributes)) as Hr.
  { apply list_elem_of_lookup. exists i. unfold reviewAll. by rewrite list_lookup_imap, Hi. }
  rewrite concat_fmap_nil in Hreasons. rewrite concat_fmap_nil in Herrs.
  pose proof (result_clean _ (Hreasons _ Hr) (Herrs _ Hr)) as Hclean. subst r.
  destruct (i <? submitted)%nat; [by apply review_allowed|done].
Qed.

(** The access a selector of a placement in [namespace] needs. *)
Definition needed (gvr : GroupVersionResource) (namespace : string) (s : ResourceSelectorTerm) : ResourceAttributes :=
  if decide (rsel_Name s = EmptyString) then resourceAttributes gvr "list" namespace EmptyString
  else resourceAttributes gvr "get" namespace (rsel_Name s).

Lemma resolveSelectors_needed namespace acc selectors attributes :
  ofold (resolveSelector restMapping checker namespace) acc selectors = Ok attributes ->
  acc ⊆ attributes /\ forall s, s ∈ selectors -> AllowsGVK checker (selectorGVK s) = true ->
    exists gvr, restMapping (selectorGVK s) = Ok (gvr, true) /\ needed gvr namespace s ∈ attributes.
Proof.
  revert acc. induction selectors as [|s r IH]; intros acc; cbn [ofold].
  { intros [= <-]. split; [done|]. by intros ? ?%not_elem_of_nil. }
  destruct (resolveSelector _ _ _ _ s) as [acc1|e|p] eqn:Hs; cbn [obind]; [|done|done]. intros [Hacc Hrest]%IH.
  assert (acc ⊆ acc1 /\ (AllowsGVK checker (selectorGVK s) = true ->
    exists gvr, restMapping (selectorGVK s) = Ok (gvr, true) /\ needed gvr namespace s ∈ acc1)) as [Hsub Hhead].
  { unfold resolveSelector, owrap in Hs. destruct (restMapping (selectorGVK s)) as [[gvr []]|e|p]; cbn in Hs; try done.
    destruct (AllowsGVK checker (selectorGVK s)); cbn in Hs; [|by injection Hs as <-].
    destruct (selectorAttributes _ _ _ s) as [check|e|p] eqn:Hc; cbn in Hs; try done. injection Hs as <-.
    split; [set_solver|]. intros _. exists gvr. split; [done|].
    enough (check = needed gvr namespace s) as -> by set_solver. revert Hc. unfold selectorAttributes, needed.
    repeat case_match; intros; simplify_eq; done. }
  split; [set_solver|]. intros s' [->|Hin]%elem_of_cons Hk; [|eauto].
  destruct (Hhead Hk) as (gvr & ? & ?). exists gvr. split; [done|set_solver].
Qed.


End Authorized.

(** ** Evaluations *)

Module WebhookExamples.

Definition user (name : string) : UserInfo := mkUser name ["system:authenticated"].

Definition annotated (annotations : gmap string string) : MemberClusterObj :=
  mkMemberClusterObj
    (mkMemberCluster (mkObjectMeta "east" EmptyString ∅ annotations [] None 1 1) [] [] ∅ Sample.noUsage None [])
    "east-agent" 60 None.

Definition ex_old : MemberClusterObj := annotated {["fleet.azure.com/joined" := "true"]}.

Definition ex_validator : fleetResourceValidator := mkValidator (fun _ => Ok ex_old) ["boss"] true.

Definition ex_work : Request :=
  mkRequest Update (mkGVK PlacementGroup "v1beta1" "Work") "work" "fleet-member-east" (user "east-agent").

Definition ex_namespaces : GroupVersionKind -> outcome (GroupVersionResource * bool) :=
  fun gvk => Ok (mkGVR (gvk_Group gvk) (gvk_Version gvk) (gvk_Kind gvk +:+ "s"), true).

Definition ex_review (user : UserInfo) (a : ResourceAttributes) : outcome ReviewStatus :=
  Ok (mkReview (bool_decide (ra_Verb a = "get")) false EmptyString EmptyString).

Definition ex_selector : ResourceSelectorTerm := mkResourceSelector "apps" "v1" "Deployment" "front" None EmptyString.

Definition ex_rp : PlacementObj :=
  mkPlacement (new_meta "web" "prod" ∅ [])
    (mkPlacementSpec [ex_selector] None (mkRolloutStrategy EmptyString None None None None) None EmptyString).

Definition ex_create : Request := mkRequest Create (mkGVK PlacementGroup "v1beta1" "ResourcePlacement") "web" "prod" (user "dev").
Definition ex_update : Request := mkRequest Update (mkGVK PlacementGroup "v1beta1" "ResourcePlacement") "web" "prod" (user "dev").

#[local] Instance ex_lenient : ValidationLib := {
  IsDNS1123Subdomain _ := [];
  IsQualifiedName _ := [];
  IsValidLabelValue _ := [];
  LabelSelectorAsSelector _ := None;
}.

Definition ex_tolerating (ts : list Toleration) : PlacementObj :=
  mkPlacement (new_meta "web" "prod" ∅ [])
    (mkPlacementSpec [ex_selector] (Some (mkPolicy PickAllPlacementType [] None None [] ts))
       (mkRolloutStrategy EmptyString None None None None) None EmptyString).

End WebhookExamples.


Lemma admitted_update_keeps_type_witness :
  [mkToleration "k" TolerationOpExists "" ""] ⊆ [mkToleration "j" TolerationOpExists "" ""; mkToleration "k" TolerationOpExists "" ""].
Proof.
  exact (proj2 (proj2 (admitted_update_keeps_type (fun _ => []) None WebhookExamples.ex_update
    (WebhookExamples.ex_tolerating [mkToleration "j" TolerationOpExists "" ""; mkToleration "k" TolerationOpExists "" ""])
    (WebhookExamples.ex_tolerating [mkToleration "k" TolerationOpExists "" ""])
    ltac:(by_evaluation) ltac:(reflexivity) ltac:(reflexivity)))).
Defined.


(** The comment on the last lines of [ValidateFleetMemberClusterUpdate] excepts
    the annotations of the fleet from what any user may change; one that was
    not there can be added by any user. *)
Theorem fleet_annotation_added_by_anyone :
  let current := WebhookExamples.annotated
    (<["fleet.azure.com/extra" := "1"]> {["fleet.azure.com/joined" := "true"]}) in
  trusted ["boss"] (WebhookExamples.user "anyone") = false /\
  ValidateFleetMemberClusterUpdate current WebhookExamples.ex_old
    (mkRequest Update MCMetaGVK "east" "" (WebhookExamples.user "anyone")) ["boss"] true = Allowed.
Proof. split; by_evaluation. Qed.
