(* ===== verification/Framework.v ===== *)
(** * The scheduling framework: one cycle for one policy snapshot

    Models [pkg/scheduler/framework/framework.go].  A cycle runs on the hub
    (see [Hub.v]); what it computes without the hub is a plain function.  The
    parameters of the section are the fields of the [framework] struct, the
    current time, the values of [uuid.NewUUID], and the order in which the
    parallel workers complete their pieces.  [ctrl.Result] is its [Requeue]
    field.  Logging is left out. *)

From stdpp Require Import prelude gmap strings sorting.
From S2P Require Import Prelude K8s Api Sample Utils Score CycleState Plugins FrameworkUtils Hub.

Local Open Scope string_scope.
Local Open Scope list_scope.

Section Framework.
Context {K : K8sLib} {W : Type} {C : HubClient W} {V : Type}.
Variable profile : Profile V.
Variable clusterEligibilityChecker : Eligibility.ClusterEligibilityChecker.
Variable maxUnselectedClusterDecisionCount : Z.
Variable now : Z.
Variable uuids : nat -> string.
Variable workOrder : list MemberCluster -> list MemberCluster.
Implicit Types state : CycleState V.

(** ** Plugins *)

(** The state is threaded through the plugins, which may write to it. *)
Fixpoint runPreFilterPluginsOn (pls : list (PreFilterPlugin V)) state (policy : PolicySnapshotObj)
    : outcome (CycleState V * Status) :=
  match pls with
  | [] => Ok (state, None)
  | pl :: rest =>
      let! (state, status) := PreFilter pl state policy in
      match code status with
      | Success => runPreFilterPluginsOn rest state policy
      | internalError => Ok (state, status)
      | Skip =>
          runPreFilterPluginsOn rest
            (set_skippedFilterPlugins ({[preFilter_Name pl]} ∪ skippedFilterPlugins state) state) policy
      | _ => Ok (state, FromError (ErrPlain ("prefilter plugin returned an unknown status " +:+
               Status_String status)) (preFilter_Name pl) [])
      end
  end.

Definition runPreFilterPlugins state (policy : PolicySnapshotObj) : outcome (CycleState V * Status) :=
  runPreFilterPluginsOn (preFilterPlugins profile) state policy.

Fixpoint runFilterPluginsOn (pls : list (FilterPlugin V)) state (policy : PolicySnapshotObj)
    (cluster : MemberCluster) : outcome Status :=
  match pls with
  | [] => Ok None
  | pl :: rest =>
      if decide (filter_Name pl ∈ skippedFilterPlugins state) then runFilterPluginsOn rest state policy cluster
      else
        let! status := Filter pl state policy cluster in
        match code status with
        | Success => runFilterPluginsOn rest state policy cluster
        | internalError | ClusterUnschedulable | ClusterAlreadySelected => Ok status
        | Skip => Ok (FromError (ErrPlain ("filter plugin returned an unknown status " +:+
                    Status_String status)) (filter_Name pl) [])
        end
  end.

Definition runFilterPluginsFor state (policy : PolicySnapshotObj) (cluster : MemberCluster) : outcome Status :=
  runFilterPluginsOn (filterPlugins profile) state policy cluster.

(** The work on one piece; an error stops the run and is returned.  The
    statuses [runFilterPluginsFor] returns leave no other case. *)
Definition filterPiece state (policy : PolicySnapshotObj)
    (acc : list MemberCluster * list filteredClusterWithStatus) (cluster : MemberCluster)
    : outcome (list MemberCluster * list filteredClusterWithStatus) :=
  let '(passed, filtered) := acc in
  let! status := runFilterPluginsFor state policy cluster in
  match code status with
  | Success => Ok (passed ++ [cluster], filtered)
  | ClusterUnschedulable => Ok (passed, filtered ++ [mkFiltered cluster status])
  | ClusterAlreadySelected => Ok acc
  | internalError | Skip =>
      match AsError status with
      | Some e => Err e
      | None => Ok acc
      end
  end.

Definition runFilterPlugins state (policy : PolicySnapshotObj) (cs : list MemberCluster)
    : outcome (list MemberCluster * list filteredClusterWithStatus) :=
  ofold (filterPiece state policy) ([], []) (workOrder cs).

(** The plugins' error as the controller returns it. *)
Definition pluginError (status : Status) : goerr :=
  match AsError status with
  | Some e => NewUnexpectedBehaviorError e
  | None => ErrPlain EmptyString
  end.

Definition runAllPluginsForPickAllPlacementType state (policy : PolicySnapshotObj) (cs : list MemberCluster)
    : outcome (list Score.ScoredCluster * list filteredClusterWithStatus) :=
  let! (state, status) := runPreFilterPlugins state policy in
  if IsInternalError status then Err (pluginError status)
  else
    match runFilterPlugins state policy cs with
    | Err err => Err (NewUnexpectedBehaviorError err)
    | Panic w => Panic w
    | Ok (passed, filtered) =>
        Ok ((fun c => Score.mkScored c Score.zero) <$> passed, filtered)
    end.

Fixpoint runPostBatchPluginsOn (pls : list (PostBatchPlugin V)) state (policy : PolicySnapshotObj)
    (minBatchSizeLimit : Z) : Z * Status :=
  match pls with
  | [] => (minBatchSizeLimit, None)
  | pl :: rest =>
      let '(batchSizeLimit, status) := PostBatch pl state policy in
      match code status with
      | Success =>
          runPostBatchPluginsOn rest state policy
            (if ((batchSizeLimit <? minBatchSizeLimit) && (0 <=? batchSizeLimit))%Z
             then batchSizeLimit else minBatchSizeLimit)
      | internalError => (0%Z, status)
      | Skip => runPostBatchPluginsOn rest state policy minBatchSizeLimit
      | _ => (0%Z, FromError (ErrPlain ("postbatch plugin returned an unsupported status: " +:+
               Status_String status)) (postBatch_Name pl) [])
      end
  end.

Definition runPostBatchPlugins state (policy : PolicySnapshotObj) : Z * Status :=
  runPostBatchPluginsOn (postBatchPlugins profile) state policy (desiredBatchSize state).

Fixpoint runPreScorePluginsOn (pls : list (PreScorePlugin V)) state (policy : PolicySnapshotObj)
    : outcome (CycleState V * Status) :=
  match pls with
  | [] => Ok (state, None)
  | pl :: rest =>
      let! (state, status) := PreScore pl state policy in
      match code status with
      | Success => runPreScorePluginsOn rest state policy
      | internalError => Ok (state, status)
      | Skip =>
          runPreScorePluginsOn rest
            (set_skippedScorePlugins ({[preScore_Name pl]} ∪ skippedScorePlugins state) state) policy
      | _ => Ok (state, FromError (ErrPlain ("prescore plugin returned an unknown status " +:+
               Status_String status)) (preScore_Name pl) [])
      end
  end.

Definition runPreScorePlugins state (policy : PolicySnapshotObj) : outcome (CycleState V * Status) :=
  runPreScorePluginsOn (preScorePlugins profile) state policy.

Fixpoint runScorePluginsOn (pls : list (ScorePlugin V)) state (policy : PolicySnapshotObj)
    (cluster : MemberCluster) (scoreList : gmap string (option Score.ClusterScore))
    : outcome (gmap string (option Score.ClusterScore) * Status) :=
  match pls with
  | [] => Ok (scoreList, None)
  | pl :: rest =>
      if decide (score_Name pl ∈ skippedScorePlugins state) then
        runScorePluginsOn rest state policy cluster scoreList
      else
        let! (score, status) := score_Score pl state policy cluster in
        match code status with
        | Success => runScorePluginsOn rest state policy cluster (<[score_Name pl := score]> scoreList)
        | internalError => Ok (∅, status)
        | _ => Ok (∅, FromError (ErrPlain ("score plugin returned an unknown status " +:+
                 Status_String status)) (score_Name pl) [])
        end
  end.

Definition runScorePluginsFor state (policy : PolicySnapshotObj) (cluster : MemberCluster)
    : outcome (gmap string (option Score.ClusterScore) * Status) :=
  runScorePluginsOn (scorePlugins profile) state policy cluster ∅.

(** [totalScore.Add(score)] dereferences the plugin's score. *)
Definition addScore (total : Score.ClusterScore) (score : option Score.ClusterScore)
    : outcome Score.ClusterScore :=
  match score with
  | None => nil_dereference
  | Some s => Ok (Score.Add total s)
  end.

Definition scorePiece state (policy : PolicySnapshotObj) (scoredClusters : list Score.ScoredCluster)
    (cluster : MemberCluster) : outcome (list Score.ScoredCluster) :=
  let! (scoreList, status) := runScorePluginsFor state policy cluster in
  if IsSuccess status then
    let! totalScore := ofold addScore Score.zero ((map_to_list scoreList).*2) in
    Ok (scoredClusters ++ [Score.mkScored cluster totalScore])
  else
    match AsError status with
    | Some e => Err e
    | None => Ok scoredClusters
    end.

Definition runScorePlugins state (policy : PolicySnapshotObj) (cs : list MemberCluster)
    : outcome (list Score.ScoredCluster) :=
  if (length cs =? 0)%nat then Ok []
  else ofold (scorePiece state policy) [] (workOrder cs).

(** The state that comes back carries the batch sizes of the cycle. *)
Definition runAllPluginsForPickNPlacementType state (policy : PolicySnapshotObj)
    (numOfClusters numOfBoundOrScheduledBindings : Z) (cs : list MemberCluster)
    : outcome (CycleState V * list Score.ScoredCluster * list filteredClusterWithStatus) :=
  let state := set_desiredBatchSize (numOfClusters - numOfBoundOrScheduledBindings)%Z state in
  if (desiredBatchSize state <=? 0)%Z then
    Err (NewUnexpectedBehaviorError (ErrPlain ("desired batch size is below zero: " +:+
      zstr (desiredBatchSize state))))
  else
  let '(batchSizeLimit, status) := runPostBatchPlugins state policy in
  if IsInternalError status then Err (pluginError status)
  else if (desiredBatchSize state <? batchSizeLimit)%Z || (batchSizeLimit <? 0)%Z then
    Err (NewUnexpectedBehaviorError (ErrPlain ("batch size limit is not valid: " +:+ zstr batchSizeLimit +:+
      ", desired batch size: " +:+ zstr (desiredBatchSize state))))
  else
  let state := set_batchSizeLimit batchSizeLimit state in
  let! (state, status) := runPreFilterPlugins state policy in
  if IsInternalError status then Err (pluginError status)
  else
  match runFilterPlugins state policy cs with
  | Err err => Err (NewUnexpectedBehaviorError err)
  | Panic w => Panic w
  | Ok (passed, filtered) =>
      let! (state, status) := runPreScorePlugins state policy in
      if IsInternalError status then Err (pluginError status)
      else
      match runScorePlugins state policy passed with
      | Err err => Err (NewUnexpectedBehaviorError err)
      | Panic w => Panic w
      | Ok scored => Ok (state, scored, filtered)
      end
  end.

(** ** Bindings on the hub *)

Definition collectClusters : hub W (list MemberCluster) :=
  hmap_err (NewAPIServerError true) hub_list_clusters.

(** An update function: the object after the call, and the error. *)
Definition updateFn : Type := BindingObj -> W -> W * (BindingObj * option goerr).

(** The annotations are replaced, and the state remembered among them. *)
Definition markUnscheduled (binding : BindingObj) : BindingObj :=
  let binding := set_b_annotations {[PreviousBindingStateAnnotation := b_state binding]} binding in
  set_b_spec (set_rbs_State BindingStateUnscheduled (b_spec binding)) binding.

Definition markUnscheduledForAndUpdate : updateFn := fun binding =>
  hub_update_binding (markUnscheduled binding).

Definition removeFinalizerAndUpdate : updateFn := fun binding =>
  hub_update_binding (set_b_meta (RemoveFinalizer (b_meta binding) SchedulerBindingCleanupFinalizer) binding).

Definition retriableServerError (err : goerr) : bool :=
  has_reason ServiceUnavailable err || has_reason ServerTimeout err.

Definition retriableUpdateError (err : goerr) : bool :=
  retriableServerError err || has_reason Conflict err.

(** One attempt: after a conflict the object is read again. *)
Definition attemptUpdate (fn : updateFn) (s : W * BindingObj) : (W * BindingObj) * option goerr :=
  let '(w, binding) := s in
  let '(w, (binding, err)) := fn binding w in
  match err with
  | Some e =>
      if has_reason Conflict e then
        let '(w, (binding, getErr)) := hub_get_binding binding w in
        ((w, binding), match getErr with Some _ => getErr | None => err end)
      else ((w, binding), err)
  | None => ((w, binding), None)
  end.

Definition updateBinding (fn : updateFn) (binding : BindingObj) (w : W) : W * option goerr :=
  let '((w, _), err) := OnError retriableUpdateError (attemptUpdate fn) (w, binding) in (w, err).

Definition updateBindings (bindings : list BindingObj) (fn : updateFn) : hub W unit :=
  herr (run_group (updateBinding fn <$> bindings)).

(** A binding that already exists is fine. *)
Definition attemptCreate (newBinding : BindingObj) (w : W) : W * option goerr :=
  let '(w, err) := hub_create_binding newBinding w in
  match err with
  | Some e => (w, if has_reason AlreadyExists e then None else err)
  | None => (w, None)
  end.

Definition createBindings (toCreate : list BindingObj) : hub W unit :=
  hmap_err (NewAPIServerError false)
    (herr (run_group ((fun b => OnError retriableServerError (attemptCreate b)) <$> toCreate))).

Definition patchBindings (toPatch : list bindingWithPatch) : hub W unit :=
  hmap_err NewUpdateIgnoreConflictError
    (herr (run_group ((fun p => OnError retriableServerError (hub_patch_binding p)) <$> toPatch))).

Definition manipulateBindings (toCreate toDelete : list BindingObj) (toPatch : list bindingWithPatch)
    : hub W unit :=
  let* _ := createBindings toCreate in
  let* _ := patchBindings toPatch in
  updateBindings toDelete markUnscheduledForAndUpdate.

(** ** The status of the policy snapshot *)

(** What both kinds of status update do with the decisions and the condition. *)
Definition refreshStatus (policy : PolicySnapshotObj) (observedGeneration : Z)
    (newDecisions : list ClusterDecision) (newCondition : Condition) : hub W unit :=
  let policyStatus := snap_status policy in
  let currentDecisions := spst_ClusterDecisions policyStatus in
  let currentCondition := FindStatusCondition (spst_Conditions policyStatus) PolicySnapshotScheduled in
  if (observedGeneration =? spst_ObservedCRPGeneration policyStatus)%Z &&
     equalDecisions currentDecisions newDecisions &&
     EqualCondition currentCondition (Some newCondition)
  then hret tt
  else
    let policyStatus := mkSnapshotStatus observedGeneration
      (SetStatusCondition now (spst_Conditions policyStatus) newCondition) newDecisions in
    hmap_err (NewAPIServerError false)
      (herr (hub_update_snapshot_status
        (mkPolicySnapshot (snap_meta policy) (snap_spec policy) policyStatus))).

Definition filteredLess (a b : filteredClusterWithStatus) : bool :=
  str_lt (mc_name (fc_cluster a)) (mc_name (fc_cluster b)).

Definition updatePolicySnapshotStatusFromBindings (policy : PolicySnapshotObj) (numOfClusters : Z)
    (notPicked : list Score.ScoredCluster) (filtered : list filteredClusterWithStatus)
    (existing : list (list BindingObj)) : hub W unit :=
  let* observedPlacementGeneration := hmap_err NewUnexpectedBehaviorError
    (hlift (ExtractObservedPlacementGenerationFromPolicySnapshot policy)) in
  let filtered := go_sort filteredLess filtered in
  refreshStatus policy observedPlacementGeneration
    (newSchedulingDecisionsFromBindings maxUnselectedClusterDecisionCount notPicked filtered existing)
    (newScheduledConditionFromBindings policy numOfClusters existing).

Definition updatePolicySnapshotStatusForPickFixedPlacementType (policy : PolicySnapshotObj)
    (valid : list MemberCluster) (invalid : list invalidClusterWithReason) (notFound : list string)
    : hub W unit :=
  let* observedCRPGeneration := hmap_err NewUnexpectedBehaviorError
    (hlift (ExtractObservedPlacementGenerationFromPolicySnapshot policy)) in
  let count := Z.of_nat (length valid) in
  refreshStatus policy observedCRPGeneration
    (newSchedulingDecisionsForPickFixedPlacementType valid invalid notFound)
    (if (length invalid + length notFound =? 0)%nat
     then newScheduledCondition policy ConditionTrue FullyScheduledReason (fullyScheduledMessage count)
     else newScheduledCondition policy ConditionFalse NotFullyScheduledReason (notFullyScheduledMessage count)).

(** ** The PickAll placement type *)

Definition runSchedulingCycleForPickAllPlacementType state (placementKey : string)
    (policy : PolicySnapshotObj) (cs : list MemberCluster)
    (bound scheduled unscheduled obsolete : list BindingObj) : hub W bool :=
  let* (scored, filtered) := hlift (runAllPluginsForPickAllPlacementType state policy cs) in
  let scored := go_sort Score.ScoredClusters_Less scored in
  let* (toCreate, toDelete, toPatch) := hlift
    (crossReferencePickedClustersAndDeDupBindings uuids placementKey policy scored unscheduled obsolete) in
  let* _ := manipulateBindings toCreate toDelete toPatch in
  let patched := updated <$> toPatch in
  let numOfClusters :=
    Z.of_nat (length toCreate + length patched + length scheduled + length bound) in
  let* _ := updatePolicySnapshotStatusFromBindings policy numOfClusters [] filtered
    [toCreate; patched; scheduled; bound] in
  hret false.

(** ** The PickN placement type *)

(** Taking a prefix of a slice; a negative bound panics. *)
Definition split_at (l : list BindingObj) (n : Z) : outcome (list BindingObj * list BindingObj) :=
  if (n <? 0)%Z then Panic "slice bounds out of range"
  else Ok (take (Z.to_nat n) l, drop (Z.to_nat n) l).

Definition invalidDownscaleCount (count : Z) (scheduled bound : list BindingObj) : goerr :=
  NewUnexpectedBehaviorError (ErrPlain ("received an invalid downscale count " +:+ zstr count +:+
    " (scheduled count: " +:+ zstr (Z.of_nat (length scheduled)) +:+ ", bound count: " +:+
    zstr (Z.of_nat (length bound)) +:+ ")")).

Definition downscale (scheduled bound : list BindingObj) (count : Z)
    : hub W (list BindingObj * list BindingObj) :=
  let lenScheduled := Z.of_nat (length scheduled) in
  let lenBoth := Z.of_nat (length scheduled + length bound) in
  if (count =? 0)%Z then hret (scheduled, bound)
  else if (lenBoth <? count)%Z then hlift (Err (invalidDownscaleCount count scheduled bound))
  else if (count <? lenScheduled)%Z then
    let* sortedScheduled := hlift (sortByClusterScoreAndName scheduled) in
    let* (bindingsToDelete, rest) := hlift (split_at sortedScheduled count) in
    let* _ := updateBindings bindingsToDelete markUnscheduledForAndUpdate in
    hret (rest, bound)
  else if (count =? lenScheduled)%Z then
    let* _ := updateBindings scheduled markUnscheduledForAndUpdate in
    hret ([], bound)
  else if (count <? lenBoth)%Z then
    let left := (count - lenScheduled)%Z in
    let* sortedBound := hlift (sortByClusterScoreAndName bound) in
    let* (bindingsToDelete, rest) := hlift (split_at sortedBound left) in
    let* _ := updateBindings (scheduled ++ bindingsToDelete) markUnscheduledForAndUpdate in
    hret ([], rest)
  else if (count =? lenBoth)%Z then
    let* _ := updateBindings (scheduled ++ bound) markUnscheduledForAndUpdate in
    hret ([], [])
  else hlift (Err (invalidDownscaleCount count scheduled bound)).

(** The scheduling stages, once more clusters are needed. *)
Definition scheduleMoreForPickN state (placementKey : string) (policy : PolicySnapshotObj)
    (cs : list MemberCluster) (bound scheduled unscheduled obsolete : list BindingObj)
    (numOfClusters : Z) : hub W bool :=
  let* (state, scored, filtered) := hlift (runAllPluginsForPickNPlacementType state policy numOfClusters
    (Z.of_nat (length bound + length scheduled)) cs) in
  let lenScored := Z.of_nat (length scored) in
  let numOfClustersToPick :=
    calcNumOfClustersToSelect (desiredBatchSize state) (batchSizeLimit state) lenScored in
  if (lenScored <? numOfClustersToPick)%Z then
    hlift (Err (NewUnexpectedBehaviorError (ErrPlain
      ("number of clusters to pick is greater than number of scored clusters: " +:+
       zstr numOfClustersToPick +:+ " > " +:+ zstr lenScored))))
  else
  let* (picked, notPicked) := hlift (pickTopNScoredClusters scored numOfClustersToPick) in
  let* (toCreate, toDelete, toPatch) := hlift
    (crossReferencePickedClustersAndDeDupBindings uuids placementKey policy picked unscheduled obsolete) in
  let* _ := manipulateBindings toCreate toDelete toPatch in
  if shouldRequeue (desiredBatchSize state) (batchSizeLimit state)
       (Z.of_nat (length toCreate + length toPatch))
  then hret true
  else
  let patched := updated <$> toPatch in
  let* _ := updatePolicySnapshotStatusFromBindings policy numOfClusters notPicked filtered
    [toCreate; patched; scheduled; bound] in
  hret false.

Definition runSchedulingCycleForPickNPlacementType state (placementKey : string)
    (policy : PolicySnapshotObj) (cs : list MemberCluster)
    (bound scheduled unscheduled obsolete : list BindingObj) : hub W bool :=
  let* numOfClusters := hmap_err NewUnexpectedBehaviorError
    (hlift (ExtractNumOfClustersFromPolicySnapshot policy)) in
  let* (act, downscaleCount) := hlift (shouldDownscale policy numOfClusters
    (Z.of_nat (length scheduled + length bound)) (Z.of_nat (length obsolete))) in
  if act : bool then
    let* _ := updateBindings obsolete markUnscheduledForAndUpdate in
    let* (scheduled, bound) := downscale scheduled bound downscaleCount in
    let* _ := updatePolicySnapshotStatusFromBindings policy numOfClusters [] [] [scheduled; bound] in
    hret false
  else if negb (shouldSchedule numOfClusters (Z.of_nat (length bound + length scheduled))) then
    let* _ := updatePolicySnapshotStatusFromBindings policy numOfClusters [] [] [bound; scheduled] in
    hret false
  else
    scheduleMoreForPickN state placementKey policy cs bound scheduled unscheduled obsolete numOfClusters.

(** ** The PickFixed placement type *)

Definition crossReferenceTarget (currentMap : gmap string MemberCluster)
    (acc : list MemberCluster * list invalidClusterWithReason * list string) (targetName : string)
    : list MemberCluster * list invalidClusterWithReason * list string :=
  let '(valid, invalid, notFound) := acc in
  match currentMap !! targetName with
  | None => (valid, invalid, notFound ++ [targetName])
  | Some cluster =>
      let '(eligible, reason) := Eligibility.IsEligible clusterEligibilityChecker now cluster in
      if negb eligible then (valid, invalid ++ [mkInvalid cluster reason], notFound)
      else (valid ++ [cluster], invalid, notFound)
  end.

Definition crossReferenceClustersWithTargetNames (current : list MemberCluster) (target : list string)
    : list MemberCluster * list invalidClusterWithReason * list string :=
  fold_left (crossReferenceTarget (clusterMapOf current)) target ([], [], []).

Definition runSchedulingCycleForPickFixedPlacementType (placementKey : string)
    (policy : PolicySnapshotObj) (targetClusterNames : list string) (cs : list MemberCluster)
    (bound scheduled unscheduled obsolete : list BindingObj) : hub W bool :=
  if (length targetClusterNames =? 0)%nat then hret false
  else
  let '(valid, invalid, notFound) := crossReferenceClustersWithTargetNames cs targetClusterNames in
  let* (toCreate, toDelete, toPatch) := hlift (crossReferenceValidTargetsWithBindings uuids placementKey
    policy valid bound scheduled unscheduled obsolete) in
  let* _ := manipulateBindings toCreate toDelete toPatch in
  let* _ := updatePolicySnapshotStatusForPickFixedPlacementType policy valid invalid notFound in
  hret false.

(** ** The cycle *)

(** For an unknown placement type the source wraps an error variable that is
    nil at that point, and so reports success. *)
Definition RunSchedulingCycleFor (placementKey : string) (policy : PolicySnapshotObj) : hub W bool :=
  let* (namespace, name) := hlift (ExtractNamespaceNameFromKeyStr placementKey) in
  let* cs := collectClusters in
  let* bindings := ListBindingsFromKey (namespace, name) false in
  let 'mkClasses bound scheduled obsolete unscheduled dangling deleting :=
    classifyBindings policy bindings cs in
  let* _ := updateBindings deleting removeFinalizerAndUpdate in
  let* _ := updateBindings dangling markUnscheduledForAndUpdate in
  let state := NewCycleState cs obsolete [bound; scheduled] in
  match sps_Policy (snap_spec policy) with
  | None =>
      runSchedulingCycleForPickAllPlacementType state placementKey policy cs bound scheduled unscheduled obsolete
  | Some p =>
      if decide (pol_PlacementType p = PickFixedPlacementType) then
        runSchedulingCycleForPickFixedPlacementType placementKey policy (pol_ClusterNames p) cs
          bound scheduled unscheduled obsolete
      else if decide (pol_PlacementType p = PickAllPlacementType) then
        runSchedulingCycleForPickAllPlacementType state placementKey policy cs bound scheduled unscheduled obsolete
      else if decide (pol_PlacementType p = PickNPlacementType) then
        runSchedulingCycleForPickNPlacementType state placementKey policy cs bound scheduled unscheduled obsolete
      else hret false
  end.

End Framework.
