(* ===== verification/Safety.v ===== *)
(** * A placement never has two live bindings on one cluster

    A scheduling cycle reads the bindings of a placement once and then writes
    to the hub, while writes fail, are retried and take effect without an
    answer, and other controllers change and delete bindings.  [tracked]
    relates the bindings on the hub, at any moment of the cycle, to the ones
    that were listed and the ones the plan creates; every step of the cycle
    preserves it, and a plan that never creates a binding next to a live one
    turns it into [unique_live].

    [SafeProfile] is what the framework needs of the plugins for that: some
    plugin refuses the clusters that are already selected, and some plugin the
    clusters that are leaving.  [SchedulerProfile.v] proves it of the profile
    the scheduler runs. *)

From stdpp Require Import prelude gmap strings sorting.
From S2P Require Import Prelude K8s Api Sample Utils Score CycleState.
From S2P Require Import Plugins FrameworkUtils FrameworkUtilsProofs Hub Framework.

Local Open Scope string_scope.
Local Open Scope list_scope.

(** ** What the plugins promise *)

Definition refuses {V} (profile : Profile V) (P : CycleState V -> MemberCluster -> Prop) : Prop :=
  exists pl, pl ∈ filterPlugins profile /\
    filter_Name pl ∉ (preFilter_Name <$> preFilterPlugins profile) /\
    forall state policy cluster status,
      P state cluster -> Filter pl state policy cluster = Ok status -> code status <> Success.

Class SafeProfile {V} (profile : Profile V) : Prop := {
  prefilter_keeps pl state policy state' status :
    pl ∈ preFilterPlugins profile -> PreFilter pl state policy = Ok (state', status) ->
    scheduledOrBoundBindings state' = scheduledOrBoundBindings state /\
    skippedFilterPlugins state' = skippedFilterPlugins state;
  refuses_selected :
    refuses profile (fun state c => HasScheduledOrBoundBindingFor state (mc_name c) = true);
  refuses_leaving : refuses profile (fun _ c => being_deleted (mc_meta c) = true);
}.

(** ** Clusters that pass the filters *)

Lemma clusterMapOf_snoc cs c : clusterMapOf (cs ++ [c]) = <[mc_name c := c]> (clusterMapOf cs).
Proof. unfold clusterMapOf. by rewrite fold_left_app. Qed.

Lemma clusterMapOf_Some cs n c : clusterMapOf cs !! n = Some c -> c ∈ cs /\ mc_name c = n.
Proof.
  induction cs as [|c' cs IH] using rev_ind; [unfold clusterMapOf; cbn; by rewrite lookup_empty|].
  rewrite clusterMapOf_snoc, elem_of_app.
  intros [[<- <-]|[_ H]]%lookup_insert_Some; [split; [right; by left|done]|].
  destruct (IH H). auto.
Qed.

Lemma clusterMapOf_NoDup cs c : NoDup (mc_name <$> cs) -> c ∈ cs -> clusterMapOf cs !! mc_name c = Some c.
Proof.
  induction cs as [|c' cs IH] using rev_ind; [by intros _ ?%not_elem_of_nil|].
  rewrite clusterMapOf_snoc, fmap_app, elem_of_app. intros (Hnd & Hdis & _)%NoDup_app [Hc|Hc%list_elem_of_singleton].
  - rewrite lookup_insert_ne; [by apply IH|].
    intros He. eapply Hdis; [by apply list_elem_of_fmap_2|]. rewrite <- He. by left.
  - subst c. apply lookup_insert_eq.
Qed.

(** The clusters a cycle may still pick. *)
Definition eligibleFor {V} (state : CycleState V) (cs : list MemberCluster) (c : MemberCluster) : Prop :=
  c ∈ cs /\ HasScheduledOrBoundBindingFor state (mc_name c) = false /\ being_deleted (mc_meta c) = false.

Definition candidates {V} (state : CycleState V) (cs : list MemberCluster) (scored : list Score.ScoredCluster)
    : Prop :=
  NoDup (scoredName <$> scored) /\ Forall (fun s => eligibleFor state cs (Score.Cluster s)) scored.

Section Filters.
Context {V : Type} (profile : Profile V) {HP : SafeProfile profile}.
Variable workOrder : list MemberCluster -> list MemberCluster.
Hypothesis workOrder_perm : forall cs, workOrder cs ≡ₚ cs.
Implicit Types state : CycleState V.

Lemma runPreFilterPlugins_keeps state policy state' status :
  runPreFilterPlugins profile state policy = Ok (state', status) ->
  scheduledOrBoundBindings state' = scheduledOrBoundBindings state /\
  skippedFilterPlugins state' ⊆ skippedFilterPlugins state ∪ list_to_set (preFilter_Name <$> preFilterPlugins profile).
Proof.
  unfold runPreFilterPlugins.
  assert (forall pls, pls ⊆ preFilterPlugins profile -> forall state, runPreFilterPluginsOn pls state policy = Ok (state', status) ->
    scheduledOrBoundBindings state' = scheduledOrBoundBindings state /\
    skippedFilterPlugins state' ⊆ skippedFilterPlugins state ∪ list_to_set (preFilter_Name <$> pls)) as Hgen; [|by apply Hgen].
  clear state. induction pls as [|pl pls IH]; intros Hsub state; cbn [runPreFilterPluginsOn].
  { intros [= -> _]. set_solver. }
  rewrite obind_Ok. intros ([st1 s1] & Hpl & Hrest).
  destruct (prefilter_keeps pl state policy st1 s1) as [He1 He2]; [set_solver|done|].
  rewrite <- He1, <- He2. assert (pls ⊆ preFilterPlugins profile) as Hsub' by set_solver.
  destruct (code s1);
    first [injection Hrest as <- _; set_solver
          |apply IH in Hrest as [-> ?]; [|done]; cbn in *; set_solver].
Qed.

Lemma runFilterPluginsOn_success pls state policy c status :
  runFilterPluginsOn pls state policy c = Ok status -> code status = Success ->
  forall pl, pl ∈ pls -> filter_Name pl ∉ skippedFilterPlugins state ->
  exists s, Filter pl state policy c = Ok s /\ code s = Success.
Proof.
  intros Hrun Hs pl. induction pls as [|p pls IH]; [by intros ?%not_elem_of_nil|]. cbn in Hrun.
  rewrite elem_of_cons. intros Hin Hskip.
  destruct (decide (filter_Name p ∈ _)) as [Hd|Hd]; [destruct Hin as [->|Hin]; [done|by apply IH]|].
  apply obind_Ok in Hrun as (s & Hf & Hrest).
  destruct (code s) eqn:Hc; try (injection Hrest as <-; rewrite Hc in Hs || cbn in Hs; done).
  destruct Hin as [->|Hin]; [eauto|by apply IH].
Qed.

Lemma passed_eligible state0 state policy status0 cs c status :
  runPreFilterPlugins profile state0 policy = Ok (state, status0) -> skippedFilterPlugins state0 = ∅ ->
  runFilterPluginsFor profile state policy c = Ok status -> code status = Success -> c ∈ cs ->
  eligibleFor state0 cs c.
Proof.
  intros Hpre Hskip Hrun Hs Hc. apply runPreFilterPlugins_keeps in Hpre as [Hsel Hsk]. rewrite Hskip in Hsk.
  assert (forall P, refuses profile P -> P state c -> False) as Href.
  { intros P (pl & Hin & Hname & Hpl) HP0.
    destruct (runFilterPluginsOn_success _ _ _ _ _ Hrun Hs pl Hin) as (s & Hf & Hsucc); [set_solver|].
    by eapply Hpl. }
  split_and!; [done| |].
  - destruct (HasScheduledOrBoundBindingFor state0 _) eqn:Hh; [|done].
    destruct (Href _ refuses_selected). unfold HasScheduledOrBoundBindingFor in *. by rewrite Hsel.
  - destruct (being_deleted _) eqn:Hh; [|done]. by destruct (Href _ refuses_leaving).
Qed.

Lemma runFilterPlugins_passed state policy cs passed filtered :
  runFilterPlugins profile workOrder state policy cs = Ok (passed, filtered) ->
  passed `sublist_of` workOrder cs /\
  Forall (fun c => exists status, runFilterPluginsFor profile state policy c = Ok status /\ code status = Success) passed.
Proof.
  unfold runFilterPlugins.
  assert (forall l p f, ofold (filterPiece profile state policy) (p, f) l = Ok (passed, filtered) ->
    exists new, passed = p ++ new /\ new `sublist_of` l /\
    Forall (fun c => exists status, runFilterPluginsFor profile state policy c = Ok status /\ code status = Success) new) as Hgen.
  { induction l as [|c l IH]; intros p f; cbn [ofold].
    { intros [= <- <-]. exists []. by rewrite app_nil_r. }
    rewrite obind_Ok. intros ([p1 f1] & Hstep & Hfold). unfold filterPiece in Hstep.
    apply obind_Ok in Hstep as (status & Hrun & Hstep).
    destruct (IH _ _ Hfold) as (new & -> & Hsub & Hall).
    destruct (code status) eqn:Hc; [|destruct (AsError status) in Hstep; [done|]| | |destruct (AsError status) in Hstep; [done|]];
      injection Hstep as <- <-;
      first [exists (c :: new); rewrite <- app_assoc; split_and!; [done|by constructor|constructor; eauto]
            |exists new; split_and!; [done|by constructor|done]]. }
  intros H. destruct (Hgen _ _ _ H) as (new & -> & ? & ?). done.
Qed.

Lemma workOrder_sublist_NoDup cs l :
  NoDup (mc_name <$> cs) -> l `sublist_of` workOrder cs -> NoDup (mc_name <$> l) /\ l ⊆ cs.
Proof.
  intros Hnd Hsub. split.
  - eapply sublist_NoDup; [|by apply fmap_sublist, Hsub]. by rewrite workOrder_perm.
  - intros c Hc. rewrite <- (workOrder_perm cs). by eapply sublist_subseteq.
Qed.

Lemma PickAll_candidates state policy cs scored filtered :
  NoDup (mc_name <$> cs) -> skippedFilterPlugins state = ∅ ->
  runAllPluginsForPickAllPlacementType profile workOrder state policy cs = Ok (scored, filtered) ->
  candidates state cs scored.
Proof.
  intros Hnd Hskip. unfold runAllPluginsForPickAllPlacementType.
  rewrite obind_Ok. intros ([st1 s1] & Hpre & Hrest).
  destruct (IsInternalError s1); [done|].
  destruct (runFilterPlugins _ _ st1 policy cs) as [[passed f]|e|p] eqn:Hf; [|done|done].
  injection Hrest as <- <-. apply runFilterPlugins_passed in Hf as [Hsub Hall].
  destruct (workOrder_sublist_NoDup cs passed Hnd Hsub) as [Hnd' Hin].
  split; [by rewrite <- list_fmap_compose|]. apply Forall_fmap. rewrite Forall_forall in *. cbn.
  intros c Hc. destruct (Hall c Hc) as (s & Hrun & Hs). by eapply passed_eligible; eauto.
Qed.

Lemma runScorePlugins_scored state policy cs scored :
  runScorePlugins profile workOrder state policy cs = Ok scored ->
  Score.Cluster <$> scored `sublist_of` workOrder cs.
Proof.
  unfold runScorePlugins. destruct (length cs =? 0)%nat; [intros [= <-]; apply sublist_nil_l|].
  assert (forall l acc, ofold (scorePiece profile state policy) acc l = Ok scored ->
    exists new, scored = acc ++ new /\ Score.Cluster <$> new `sublist_of` l) as Hgen.
  { induction l as [|c l IH]; intros acc; cbn [ofold].
    { intros [= <-]. exists []. by rewrite app_nil_r. }
    rewrite obind_Ok. intros (acc1 & Hstep & Hfold). unfold scorePiece in Hstep.
    apply obind_Ok in Hstep as ([m status] & _ & Hstep).
    destruct (IH _ Hfold) as (new & -> & Hsub).
    destruct (IsSuccess status).
    - apply obind_Ok in Hstep as (total & _ & [= <-]).
      exists (Score.mkScored c total :: new). rewrite <- app_assoc. split; [done|by constructor].
    - destruct (AsError status); [done|]. injection Hstep as <-. exists new. split; [done|by constructor]. }
  intros H. destruct (Hgen _ _ H) as (new & -> & ?). done.
Qed.

(** The batch that a PickN cycle works with, and the clusters it may pick. *)
Lemma PickN_candidates state policy n present cs state' scored filtered :
  NoDup (mc_name <$> cs) -> skippedFilterPlugins state = ∅ ->
  runAllPluginsForPickNPlacementType profile workOrder state policy n present cs = Ok (state', scored, filtered) ->
  candidates state cs scored.
Proof.
  intros Hnd Hskip. unfold runAllPluginsForPickNPlacementType.
  destruct (_ <=? 0)%Z; [done|].
  destruct (runPostBatchPlugins _ _ _) as [limit s0]. destruct (IsInternalError s0); [done|].
  destruct ((_ <? _)%Z || _); [done|]. set (state1 := set_batchSizeLimit _ _).
  rewrite obind_Ok. intros ([st1 s1] & Hpre & Hrest). destruct (IsInternalError s1); [done|].
  destruct (runFilterPlugins _ _ st1 policy cs) as [[passed f]|e|p] eqn:Hf; [|done|done].
  apply obind_Ok in Hrest as ([st2 s2] & _ & Hrest). destruct (IsInternalError s2); [done|].
  destruct (runScorePlugins _ _ st2 policy passed) as [sc|e|p] eqn:Hsc; [|done|done].
  injection Hrest as _ <- _. apply runFilterPlugins_passed in Hf as [Hsub Hall].
  destruct (workOrder_sublist_NoDup cs passed Hnd Hsub) as [Hnd1 Hin1].
  apply runScorePlugins_scored in Hsc. destruct (workOrder_sublist_NoDup passed _ Hnd1 Hsc) as [Hnd2 Hin2].
  split; [by rewrite <- list_fmap_compose in Hnd2|].
  rewrite Forall_forall. rewrite Forall_forall in Hall. intros s Hs.
  specialize (Hin2 (Score.Cluster s) ltac:(by apply list_elem_of_fmap_2)).
  destruct (Hall _ Hin2) as (st & Hrun & Hst).
  destruct (passed_eligible state1 st1 policy s1 cs _ _ Hpre Hskip Hrun Hst (Hin1 _ Hin2)) as (? & ? & ?). done.
Qed.

End Filters.

(** ** What the bindings on the hub have to do with the plan *)

Definition unique_live (ns name : string) (m : gmap ObjectKey BindingObj) : Prop :=
  forall k1 k2 b1 b2,
    m !! k1 = Some b1 -> owned ns name k1 b1 -> b_deleting b1 = false ->
    m !! k2 = Some b2 -> owned ns name k2 b2 -> b_deleting b2 = false ->
    b_target b1 = b_target b2 -> k1 = k2.

Section Tracking.
Variables ns name : string.

(** The listed bindings are stored, if at all, as later versions; every other
    binding of the placement is one that was to be created. *)
Definition tracked (listed created : list BindingObj) (m : gmap ObjectKey BindingObj) : Prop :=
  forall k b, m !! k = Some b ->
    (forall x, x ∈ listed -> object_key x = k -> follows x b) /\
    (owned ns name k b -> k ∈ (object_key <$> listed) \/
       exists x, x ∈ created /\ object_key x = k /\ b_target b = b_target x).

Lemma owned_follows k b b' : follows b b' -> owned ns name k b' -> owned ns name k b.
Proof. unfold owned. intros (_ & -> & _). done. Qed.

Lemma tracked_evolves listed created m m' :
  evolves m m' -> tracked listed created m -> tracked listed created m'.
Proof.
  intros He Ht k b' Hb'. destruct (He k b' Hb') as (b & Hb & Hf). destruct (Ht k b Hb) as [Hl Ho]. split.
  - intros x Hx Hk. by eapply follows_trans; [apply Hl|].
  - intros Hown%(owned_follows _ _ _ Hf). destruct Hf as [-> _]. by apply Ho.
Qed.

Lemma tracked_touches listed created b x m m' :
  NoDup (object_key <$> listed) -> x ∈ listed -> resembles x b ->
  touches b m m' -> tracked listed created m -> tracked listed created m'.
Proof.
  intros Hnd Hx (Hrk & Hrt & Hrl) Hto Ht k b' Hb'.
  destruct (Hto k b' Hb') as (b0 & Hb0 & [Hf|(-> & Htg & Hlb & Hdel)]); destruct (Ht _ b0 Hb0) as [Hl Ho].
  - split.
    + intros y Hy Hk. by eapply follows_trans; [apply Hl|].
    + intros Hown%(owned_follows _ _ _ Hf). destruct Hf as [-> _]. by apply Ho.
  - rewrite Hrk. split; [|left; by apply list_elem_of_fmap_2].
    intros y Hy Hk. assert (y = x) as -> by (by eapply NoDup_fmap_eq).
    destruct (Hl x Hx) as (? & ? & ?); [by rewrite Hrk|].
    split_and!; [destruct Htg; congruence|destruct Hlb; congruence|auto].
Qed.

Lemma tracked_adds listed created b m m' :
  b ∈ created -> object_key b ∉ (object_key <$> listed) ->
  adds b m m' -> tracked listed created m -> tracked listed created m'.
Proof.
  intros Hb Hfresh Had Ht k b' Hb'. destruct (Had k b' Hb') as [(b0 & Hb0 & Hf)|(_ & -> & Htg & _)].
  - destruct (Ht _ b0 Hb0) as [Hl Ho]. split.
    + intros y Hy Hk. by eapply follows_trans; [apply Hl|].
    + intros Hown%(owned_follows _ _ _ Hf). destruct Hf as [-> _]. by apply Ho.
  - split; [|right; exists b; by rewrite Htg].
    intros y Hy Hk. destruct Hfresh. rewrite <- Hk. by apply list_elem_of_fmap_2.
Qed.

Lemma tracked_weaken listed created m : tracked listed [] m -> tracked listed created m.
Proof.
  intros Ht k b Hb. destruct (Ht k b Hb) as [Hl Ho]. split; [done|].
  intros [?|(x & ?%not_elem_of_nil & _)]%Ho; [by left|done].
Qed.

(** A plan that leaves the live bindings alone on their clusters. *)
Definition spares (listed created : list BindingObj) : Prop :=
  NoDup (b_target <$> created) /\
  forall x y, x ∈ listed -> b_deleting x = false -> y ∈ created -> b_target x <> b_target y.

Lemma tracked_unique listed created m :
  (forall x y, x ∈ listed -> y ∈ listed -> b_deleting x = false -> b_deleting y = false ->
     b_target x = b_target y -> object_key x = object_key y) ->
  spares listed created -> tracked listed created m -> unique_live ns name m.
Proof.
  intros Huniq [Hnd Hsp] Ht k1 k2 b1 b2 H1 Ho1 Hd1 H2 Ho2 Hd2 He.
  assert (forall k b, m !! k = Some b -> owned ns name k b -> b_deleting b = false ->
    (exists x, x ∈ listed /\ object_key x = k /\ b_deleting x = false /\ b_target x = b_target b) \/
    (exists x, x ∈ created /\ object_key x = k /\ b_target x = b_target b)) as Hcase.
  { intros k b Hb Hown Hd. destruct (Ht k b Hb) as [Hl Ho].
    destruct (Ho Hown) as [(x & -> & Hx)%list_elem_of_fmap|(x & Hx & Hk & Htg)]; [left|right; eauto].
    exists x. pose proof (Hl x Hx eq_refl) as Hf. pose proof (follows_live _ _ Hf Hd). by destruct Hf as [? _]. }
  destruct (Hcase _ _ H1 Ho1 Hd1) as [(x & Hx & <- & Hdx & Htx)|(x & Hx & <- & Htx)];
    destruct (Hcase _ _ H2 Ho2 Hd2) as [(y & Hy & <- & Hdy & Hty)|(y & Hy & <- & Hty)].
  - apply Huniq; [done..|congruence].
  - destruct (Hsp x y); [done..|congruence].
  - destruct (Hsp y x); [done..|congruence].
  - f_equal. eapply (NoDup_fmap_eq b_target); [done..|congruence].
Qed.

End Tracking.

(** ** Every step of a cycle keeps the bindings tracked *)

(** A computation that turns [I] into [J], whatever its result. *)
Definition leads {W A} (I J : W -> Prop) (m : hub W A) : Prop := forall w, I w -> J (m w).1.

Lemma leads_lift {W A B} (I J : W -> Prop) (o : outcome A) (f : A -> hub W B) :
  (forall w, I w -> J w) -> (forall a, o = Ok a -> leads I J (f a)) -> leads I J (hbind f (hlift o)).
Proof. intros HIJ Hf w Hw. unfold hbind, hlift. destruct o as [a|e|p]; cbn; [by eapply Hf|auto|auto]. Qed.

Lemma leads_bind {W A B} (I J : W -> Prop) (m : hub W A) (f : A -> hub W B) :
  (forall w, I w -> J w) -> preserves I m -> (forall a, leads I J (f a)) -> leads I J (hbind f m).
Proof.
  intros HIJ Hm Hf w Hw. unfold hbind. specialize (Hm w Hw).
  destruct (m w) as [w' [a|e|p]]; cbn in *; [by apply Hf|auto|auto].
Qed.

Lemma leads_preserves {W A} (I I1 J : W -> Prop) (m : hub W A) :
  (forall w, I w -> I1 w) -> (forall w, I1 w -> J w) -> preserves I1 m -> leads I J m.
Proof. intros H1 H2 Hm w Hw. auto. Qed.

Section Steps.
Context {K : K8sLib} {W : Type} {C : HubClient W} {HL : HubLaws W}.
Variables ns name : string.
Variables listed created : list BindingObj.
Hypothesis listed_keys : NoDup (object_key <$> listed).
Hypothesis created_keys : forall b, b ∈ created -> object_key b ∉ (object_key <$> listed).

Let I (w : W) : Prop := tracked ns name listed created (hub_bindings w).

Lemma attemptUpdate_tracked (g : BindingObj -> BindingObj) (s : W * BindingObj) :
  (forall b, resembles b (g b)) ->
  I s.1 /\ (exists x, x ∈ listed /\ resembles x s.2) ->
  let s' := (attemptUpdate (fun b => hub_update_binding (g b)) s).1 in
  I s'.1 /\ (exists x, x ∈ listed /\ resembles x s'.2).
Proof.
  intros Hg. destruct s as [w b]. cbn [fst snd]. intros [Hw (x & Hx & Hr)]. unfold attemptUpdate.
  assert (resembles x (g b)) as Hrg by (by eapply resembles_trans).
  pose proof (update_touches (g b) w) as Hto.
  destruct (hub_update_binding (g b) w) as [w1 [b1 e]] eqn:Hu. cbn [fst] in Hto.
  assert (I w1) as Hw1 by (by eapply tracked_touches).
  pose proof (update_refreshes (g b) w b1 e ltac:(by rewrite Hu)) as Href.
  assert (exists y, y ∈ listed /\ resembles y b1) as Hb1.
  { exists x. split; [done|]. destruct e; [by subst b1|by eapply resembles_trans]. }
  destruct e as [e|]; [|done]. destruct (has_reason Conflict e); [|done].
  pose proof (get_evolves b1 w1) as Hev.
  destruct (hub_get_binding b1 w1) as [w2 [b2 ge]] eqn:Hgt. cbn [fst] in Hev |- *.
  split; [by eapply tracked_evolves|].
  pose proof (get_refreshes b1 w1 b2 ge ltac:(by rewrite Hgt)) as Hgr.
  destruct ge; [by subst b2|]. destruct Hb1 as (y & Hy & Hky & _).
  destruct Hgr as (Hk & b0 & Hb0 & Htg & Hlb & _). exists y. split; [done|].
  rewrite Hky in Hb0. destruct (Hw1 _ _ Hb0) as [Hl _]. destruct (Hl y Hy eq_refl) as (? & ? & _).
  split_and!; cbn [snd]; congruence.
Qed.

Lemma updateBindings_tracked (g : BindingObj -> BindingObj) bs :
  (forall b, resembles b (g b)) -> bs ⊆ listed ->
  preserves I (updateBindings bs (fun b => hub_update_binding (g b))).
Proof.
  intros Hg Hsub. apply preserves_herr, preserves_group, Forall_fmap, Forall_forall. intros b Hb w Hw.
  cbn. unfold updateBinding.
  pose proof (OnError_invariant (fun s : W * BindingObj => I s.1 /\ exists x, x ∈ listed /\ resembles x s.2)
    retriableUpdateError (attemptUpdate (fun b => hub_update_binding (g b))) (w, b)) as Hinv.
  destruct (OnError _ _ (w, b)) as [[w' b'] e]. cbn [fst snd] in *.
  apply Hinv; [eauto with hub|]. intros s. by apply attemptUpdate_tracked.
Qed.

Lemma markUnscheduled_tracked bs : bs ⊆ listed -> preserves I (updateBindings bs markUnscheduledForAndUpdate).
Proof. apply (updateBindings_tracked markUnscheduled). by intros b. Qed.

Lemma removeFinalizer_tracked bs : bs ⊆ listed -> preserves I (updateBindings bs removeFinalizerAndUpdate).
Proof. apply updateBindings_tracked. by intros b. Qed.

Lemma createBindings_tracked bs : bs ⊆ created -> preserves I (createBindings bs).
Proof.
  intros Hsub. apply preserves_map_err, preserves_herr, preserves_group, Forall_fmap, Forall_forall.
  intros b Hb w Hw. cbn. apply OnError_invariant; [done|]. clear w Hw. intros w Hw. unfold attemptCreate.
  pose proof (create_adds b w) as Had. destruct (hub_create_binding b w) as [w1 e]. cbn [fst] in Had.
  assert (I w1) by (eapply tracked_adds; eauto). by destruct e.
Qed.

Lemma patchBindings_tracked ps :
  Forall (fun p => exists x, x ∈ listed /\ resembles x (updated p)) ps -> preserves I (patchBindings ps).
Proof.
  intros Hps. apply preserves_map_err, preserves_herr, preserves_group, Forall_fmap.
  eapply Forall_impl; [exact Hps|]. cbn. intros p (x & Hx & Hr) w Hw.
  apply OnError_invariant; [done|]. clear w Hw. intros w Hw.
  eapply tracked_touches; [done|done|exact Hr|apply patch_touches|done].
Qed.

Lemma manipulateBindings_tracked toCreate toDelete toPatch :
  toCreate ⊆ created -> toDelete ⊆ listed ->
  Forall (fun p => exists x, x ∈ listed /\ resembles x (updated p)) toPatch ->
  preserves I (manipulateBindings toCreate toDelete toPatch).
Proof.
  intros Hc Hd Hp. unfold manipulateBindings.
  apply preserves_bind; [by apply createBindings_tracked|intros _].
  apply preserves_bind; [by apply patchBindings_tracked|intros _]. by apply markUnscheduled_tracked.
Qed.

Lemma refreshStatus_tracked now policy gen ds cond : preserves I (refreshStatus now policy gen ds cond).
Proof.
  unfold refreshStatus. destruct (_ && _); [apply preserves_ret|].
  apply preserves_map_err, preserves_herr. intros w Hw.
  eapply tracked_evolves; [apply snapshot_status_evolves|done].
Qed.

Lemma statusFromBindings_tracked maxU now policy n notPicked filtered existing :
  preserves I (updatePolicySnapshotStatusFromBindings maxU now policy n notPicked filtered existing).
Proof.
  apply preserves_bind; [apply preserves_map_err, preserves_lift|]. intros gen. apply refreshStatus_tracked.
Qed.

Lemma statusForPickFixed_tracked now policy valid invalid notFound :
  preserves I (updatePolicySnapshotStatusForPickFixedPlacementType now policy valid invalid notFound).
Proof.
  apply preserves_bind; [apply preserves_map_err, preserves_lift|]. intros gen. apply refreshStatus_tracked.
Qed.

Lemma sortByClusterScoreAndName_elem bs sorted :
  sortByClusterScoreAndName bs = Ok sorted -> sorted ≡ₚ bs.
Proof. unfold sortByClusterScoreAndName. destruct (_ && _); [done|]. intros [= <-]. apply go_sort_perm. Qed.

Lemma split_at_subseteq bs n l r : split_at bs n = Ok (l, r) -> l ⊆ bs /\ l ++ r = bs.
Proof.
  unfold split_at. destruct (_ <? _)%Z; [done|]. intros [= <- <-].
  rewrite take_drop. split; [apply subseteq_take|done].
Qed.

Lemma downscale_tracked scheduled bound count :
  scheduled ⊆ listed -> bound ⊆ listed -> preserves I (downscale scheduled bound count).
Proof.
  intros Hs Hb. unfold downscale.
  destruct (count =? 0)%Z; [apply preserves_ret|]. destruct (_ <? count)%Z; [apply preserves_lift|].
  assert (forall bs A (r : A), bs ⊆ listed ->
    preserves I (let* _ := updateBindings bs markUnscheduledForAndUpdate in hret r)) as Hmark.
  { intros bs A r Hbs. apply preserves_bind; [by apply markUnscheduled_tracked|intros _; apply preserves_ret]. }
  assert (forall bs n pre A (r : list BindingObj -> A), bs ⊆ listed -> pre ⊆ listed ->
    preserves I (let* sorted := hlift (sortByClusterScoreAndName bs) in
      let* (del, rest) := hlift (split_at sorted n) in
      let* _ := updateBindings (pre ++ del) markUnscheduledForAndUpdate in hret (r rest))) as Htrim.
  { intros bs n pre A r Hbs Hpre w. apply leads_lift; [done|]. intros sorted Hsort%sortByClusterScoreAndName_elem.
    clear w. intros w. apply leads_lift; [done|]. intros [del rest] [Hdel _]%split_at_subseteq.
    apply Hmark. assert (sorted ⊆ listed) by (intros b; rewrite Hsort; apply Hbs). set_solver. }
  destruct (count <? _)%Z; [apply (Htrim scheduled count [] _ (fun rest => (rest, bound))); [done|set_solver]|].
  destruct (count =? _)%Z; [by apply Hmark|].
  destruct (count <? _)%Z; [by apply (Htrim bound _ scheduled _ (fun rest => ([], rest)))|].
  destruct (count =? _)%Z; [apply Hmark; set_solver|apply preserves_lift].
Qed.

End Steps.

(** ** The plans spare the live bindings *)

Definition apiState (b : BindingObj) : Prop :=
  b_state b ∈ [BindingStateScheduled; BindingStateBound; BindingStateUnscheduled].

#[global] Instance apiState_dec b : Decision (apiState b).
Proof. unfold apiState. apply _. Defined.

(** A live binding on a cluster that stays in the fleet is in one of the four
    classes that are cross-referenced. *)
Lemma live_class policy cs bs x c :
  NoDup (mc_name <$> cs) -> c ∈ cs -> being_deleted (mc_meta c) = false ->
  x ∈ bs -> apiState x -> b_deleting x = false -> b_target x = mc_name c ->
  x ∈ ofClass policy cs ClassBound bs ++ ofClass policy cs ClassScheduled bs ++
      ofClass policy cs ClassObsolete bs ++ ofClass policy cs ClassUnscheduled bs.
Proof.
  intros Hnd Hc Hdel Hx Hst Hlive Ht.
  assert (isGone cs (b_target x) = false) as Hgone.
  { unfold isGone. by rewrite Ht, (clusterMapOf_NoDup cs c Hnd Hc). }
  destruct (proj2 (classOf_Some policy cs x)) as [k Hk]; [auto|].
  unfold ofClass. rewrite !elem_of_app, !list_elem_of_filter.
  destruct k; auto; exfalso; unfold classOf in Hk; rewrite Hlive, Hgone in Hk; repeat case_decide; done.
Qed.

Lemma ofClass_subseteq policy cs k bs : ofClass policy cs k bs ⊆ bs.
Proof. unfold ofClass. intros x. rewrite list_elem_of_filter. tauto. Qed.

Lemma fresh_targets {A} key policy (f : A -> string) l bs :
  Forall2 (fun a b => fresh_binding key policy (f a) b) l bs -> b_target <$> bs = f <$> l.
Proof. induction 1 as [|a b l bs [Ht] _ IH]; cbn; [done|]. by rewrite Ht, IH. Qed.

Section Plans.
Context {K : K8sLib} {V : Type}.
Variable uuids : nat -> string.
Implicit Types state : CycleState V.

(** The key of a new binding is one that [generateBinding] made. *)
Definition generated (key : string) (b : BindingObj) : Prop :=
  exists n cluster b0, generateBinding (uuids n) key cluster = Ok b0 /\ object_key b = object_key b0.

Lemma crossReferencePicked_generated key policy picked unscheduled obsolete toCreate toDelete toPatch :
  crossReferencePickedClustersAndDeDupBindings uuids key policy picked unscheduled obsolete =
    Ok (toCreate, toDelete, toPatch) -> Forall (generated key) toCreate.
Proof.
  unfold crossReferencePickedClustersAndDeDupBindings. destruct (fold_left _ _ _) as [[d p] chk].
  rewrite obind_Ok. intros ([p' chk'] & _ & Hrest). apply obind_Ok in Hrest as (cre & Hc & [= -> _ _]).
  eapply (ofold_invariant (Forall (generated key))); [| |exact Hc]; [constructor|].
  intros acc s acc' _ Hacc. unfold createForScored. destruct (decide _); [by intros [= <-]|].
  rewrite obind_Ok. intros (b & Hb & [= <-]). apply Forall_app. split; [done|]. constructor; [|done].
  destruct (generateBinding _ key _) as [b'| |] eqn:Hg in Hb; cbn in Hb; try done. injection Hb as ->.
  by eexists _, _, b.
Qed.

Lemma crossReferenceValid_generated key policy valid bound scheduled unscheduled obsolete toCreate toDelete toPatch :
  crossReferenceValidTargetsWithBindings uuids key policy valid bound scheduled unscheduled obsolete =
    Ok (toCreate, toDelete, toPatch) -> Forall (generated key) toCreate.
Proof.
  unfold crossReferenceValidTargetsWithBindings. rewrite obind_Ok. intros ([[cre pat] um] & Hc & [= <- _ _]).
  change (Forall (generated key) (cre, pat, um).1.1).
  eapply (ofold_invariant (fun r => Forall (generated key) r.1.1)); [| |exact Hc]; [constructor|].
  intros [[acc pt] m] c acc' _ Hacc. unfold crossReferenceValid.
  destruct (decide _); [by intros [= <-]|]. destruct (targetMapOf obsolete !! _); [by intros [= <-]|].
  destruct (m !! _) as [ub|]; rewrite obind_Ok.
  - intros ([st b] & _ & [= <-]). done.
  - intros (b & Hb & [= <-]). cbn. apply Forall_app. split; [done|]. constructor; [|done].
    destruct (generateBinding _ key _) as [b'| |] eqn:Hg in Hb; cbn in Hb; try done. injection Hb as ->.
    by eexists _, _, b.
Qed.

(** What the rest of the cycle needs of a plan for the listed bindings. *)
Record goodPlan (key : string) (listed toCreate toDelete : list BindingObj) (toPatch : list bindingWithPatch)
    : Prop := {
  plan_spares : spares listed toCreate;
  plan_generated : Forall (generated key) toCreate;
  plan_deletes : toDelete ⊆ listed;
  plan_patches : Forall (fun p => exists x, x ∈ listed /\ resembles x (updated p)) toPatch;
}.

Lemma picked_plan_good key policy cs bs picked toCreate toDelete toPatch :
  NoDup (mc_name <$> cs) -> Forall apiState bs ->
  candidates (V := V) (NewCycleState cs (ofClass policy cs ClassObsolete bs)
    [ofClass policy cs ClassBound bs; ofClass policy cs ClassScheduled bs]) cs picked ->
  crossReferencePickedClustersAndDeDupBindings uuids key policy picked
    (ofClass policy cs ClassUnscheduled bs) (ofClass policy cs ClassObsolete bs) = Ok (toCreate, toDelete, toPatch) ->
  goodPlan key bs toCreate toDelete toPatch.
Proof.
  intros Hcs Hst [Hnd Hcand] Hplan.
  pose proof (crossReferencePicked_generated _ _ _ _ _ _ _ _ Hplan) as Hgen.
  apply crossReferencePicked_planned in Hplan as (-> & (p1 & p2 & -> & Hp1 & Hp1' & Hp2) & Hnew).
  pose proof (fresh_targets _ _ _ _ _ Hnew) as Htg. rewrite !Forall_forall in *. split; [|by apply Forall_forall| |].
  - split; [rewrite Htg; eapply sublist_NoDup; [exact Hnd|apply fmap_sublist, sublist_filter]|].
    intros x y Hx Hlive Hy Heq. apply (list_elem_of_fmap_2 b_target) in Hy. rewrite Htg in Hy.
    apply list_elem_of_fmap in Hy as (s & Hs & [Hno Hin]%list_elem_of_filter).
    destruct (Hcand s Hin) as (Hc & Hsel & Hdel). apply not_true_iff_false in Hsel.
    rewrite HasScheduledOrBoundBindingFor_spec in Hsel. cbn in Hsel. rewrite app_nil_r in Hsel.
    rewrite Hs in Heq. pose proof (live_class policy cs bs x _ Hcs Hc Hdel Hx (Hst x Hx) Hlive Heq) as Hcl.
    apply (list_elem_of_fmap_2 b_target) in Hcl. rewrite Heq in Hcl.
    unfold scoredName in *. rewrite !fmap_app in *. set_solver.
  - intros x [_ Hx]%list_elem_of_filter. by apply ofClass_subseteq in Hx.
  - apply Forall_app. split.
    + rewrite Forall_forall. intros p Hp. destruct (Hp1' p Hp) as (s & _ & _ & Heq).
      exists (patch_base p). split; [|rewrite Heq; by split_and!].
      apply (list_elem_of_fmap_2 patch_base) in Hp. rewrite Hp1, list_elem_of_filter in Hp.
      destruct Hp as [_ Hp]. by apply ofClass_subseteq in Hp.
    + apply Forall_forall. intros p Hp. apply list_elem_of_lookup in Hp as [i Hi].
      destruct (Forall2_lookup_r _ _ _ _ _ Hp2 Hi) as (b & Hb & Hres).
      apply list_elem_of_lookup_2, list_elem_of_filter in Hb as [_ Hb].
      destruct Hres as (s & st & _ & _ & _ & ->). exists b.
      split; [by apply ofClass_subseteq in Hb|by split_and!].
Qed.

Lemma valid_plan_good key policy cs bs valid toCreate toDelete toPatch :
  NoDup (mc_name <$> cs) -> Forall apiState bs -> NoDup (mc_name <$> valid) ->
  Forall (fun c => c ∈ cs /\ being_deleted (mc_meta c) = false) valid ->
  crossReferenceValidTargetsWithBindings uuids key policy valid (ofClass policy cs ClassBound bs)
    (ofClass policy cs ClassScheduled bs) (ofClass policy cs ClassUnscheduled bs)
    (ofClass policy cs ClassObsolete bs) = Ok (toCreate, toDelete, toPatch) ->
  goodPlan key bs toCreate toDelete toPatch.
Proof.
  intros Hcs Hst Hnd Hval Hplan.
  pose proof (crossReferenceValid_generated _ _ _ _ _ _ _ _ _ _ Hplan) as Hgen.
  apply crossReferenceValid_planned in Hplan as (-> & Hpat & Hnew); [|done].
  pose proof (fresh_targets _ _ _ _ _ Hnew) as Htg. rewrite !Forall_forall in *. split; [|by apply Forall_forall| |].
  - split; [rewrite Htg; eapply sublist_NoDup; [exact Hnd|apply fmap_sublist, sublist_filter]|].
    intros x y Hx Hlive Hy Heq. apply (list_elem_of_fmap_2 b_target) in Hy. rewrite Htg in Hy.
    apply list_elem_of_fmap in Hy as (c & Hc & [Hno Hin]%list_elem_of_filter).
    destruct (Hval c Hin) as (Hccs & Hdel). rewrite Hc in Heq.
    pose proof (live_class policy cs bs x _ Hcs Hccs Hdel Hx (Hst x Hx) Hlive Heq) as Hcl.
    apply (list_elem_of_fmap_2 b_target) in Hcl. rewrite Heq in Hcl. done.
  - intros x [_ Hx]%list_elem_of_filter. by apply ofClass_subseteq in Hx.
  - apply Forall_forall. intros p Hp.
    destruct (Hpat p Hp) as [(b & Hb & ->)|(b & st & Hb & _ & ->)]; exists b;
      (split; [by apply ofClass_subseteq in Hb|by split_and!]).
Qed.

End Plans.

(** ** The cycles *)

Section Cycle.
Context {K : K8sLib} {W : Type} {C : HubClient W} {HL : HubLaws W} {V : Type}.
Variable profile : Profile V.
Context {HP : SafeProfile profile}.
Variable checker : Eligibility.ClusterEligibilityChecker.
Variables maxUnselected now : Z.
Variable uuids : nat -> string.
Variable workOrder : list MemberCluster -> list MemberCluster.
Hypothesis workOrder_perm : forall cs, workOrder cs ≡ₚ cs.

Variables (ns name key : string) (policy : PolicySnapshotObj) (cs : list MemberCluster) (bs : list BindingObj).
Hypothesis clusters_names : NoDup (mc_name <$> cs).
Hypothesis bindings_keys : NoDup (object_key <$> bs).
Hypothesis bindings_states : Forall apiState bs.
Hypothesis bindings_unique : forall x y, x ∈ bs -> y ∈ bs -> b_deleting x = false -> b_deleting y = false ->
  b_target x = b_target y -> object_key x = object_key y.
Hypothesis new_keys : forall b, generated uuids key b -> object_key b ∉ (object_key <$> bs).

Let bound := ofClass policy cs ClassBound bs.
Let scheduled := ofClass policy cs ClassScheduled bs.
Let unscheduled := ofClass policy cs ClassUnscheduled bs.
Let obsolete := ofClass policy cs ClassObsolete bs.
Let state : CycleState V := NewCycleState cs obsolete [bound; scheduled].
Let I (w : W) : Prop := tracked ns name bs [] (hub_bindings w).
Let J (w : W) : Prop := unique_live ns name (hub_bindings w).

Lemma tracked_nil_unique w : I w -> J w.
Proof.
  apply tracked_unique; [done|]. split; [constructor|]. by intros x y _ _ ?%not_elem_of_nil.
Qed.

(** Carrying out a good plan, with whatever follows it. *)
Lemma goodPlan_unique {A} toCreate toDelete toPatch (k : unit -> hub W A) :
  goodPlan uuids key bs toCreate toDelete toPatch ->
  (forall u, preserves (fun w => tracked ns name bs toCreate (hub_bindings w)) (k u)) ->
  leads I J (hbind k (manipulateBindings toCreate toDelete toPatch)).
Proof.
  intros [Hsp Hgen Hdel Hpat] Hk.
  apply (leads_preserves _ (fun w => tracked ns name bs toCreate (hub_bindings w))).
  - intros w. apply tracked_weaken.
  - intros w. by apply tracked_unique.
  - apply preserves_bind; [|done]. apply manipulateBindings_tracked; [done| |done|done|done].
    intros b Hb. rewrite Forall_forall in Hgen. apply new_keys. auto.
Qed.

Lemma PickAll_unique :
  leads I J (runSchedulingCycleForPickAllPlacementType profile maxUnselected now uuids workOrder state key policy
    cs bound scheduled unscheduled obsolete).
Proof.
  apply leads_lift; [exact tracked_nil_unique|]. intros [scored filtered] Hrun.
  apply PickAll_candidates in Hrun as [Hnd Hel]; [|done..].
  apply leads_lift; [exact tracked_nil_unique|]. intros [[toCreate toDelete] toPatch] Hplan.
  apply goodPlan_unique.
  - eapply picked_plan_good; [done|done| |exact Hplan]. split; by rewrite go_sort_perm.
  - intros _. apply preserves_bind; [apply statusFromBindings_tracked|intros _; apply preserves_ret].
Qed.

Lemma pickTopN_sub scored n picked notPicked :
  pickTopNScoredClusters scored n = Ok (picked, notPicked) -> picked ++ notPicked ≡ₚ scored.
Proof.
  unfold pickTopNScoredClusters. set (sorted := go_sort _ _).
  assert (sorted ≡ₚ scored) as Hp by apply go_sort_perm.
  destruct (_ || _); [by intros [= <- <-]|].
  destruct (_ <=? n)%Z; [intros [= <- <-]; by rewrite app_nil_r|].
  destruct (n <? 0)%Z; [done|]. intros [= <- <-]. by rewrite take_drop.
Qed.

Lemma scheduleMore_unique n :
  leads I J (scheduleMoreForPickN profile maxUnselected now uuids workOrder state key policy cs bound scheduled
    unscheduled obsolete n).
Proof.
  apply leads_lift; [exact tracked_nil_unique|]. intros [[st scored] filtered] Hrun.
  apply PickN_candidates in Hrun as [Hnd Hel]; [|done..].
  cbv beta iota zeta. destruct (_ <? _)%Z; [intros w; apply tracked_nil_unique|].
  apply leads_lift; [exact tracked_nil_unique|]. intros [picked notPicked] Hpick%pickTopN_sub.
  apply leads_lift; [exact tracked_nil_unique|]. intros [[toCreate toDelete] toPatch] Hplan.
  apply goodPlan_unique.
  - eapply picked_plan_good; [done|done| |exact Hplan]. rewrite <- Hpick in Hnd, Hel.
    rewrite fmap_app in Hnd. apply NoDup_app in Hnd as [? _]. apply Forall_app in Hel as [? _]. done.
  - intros _. cbv beta iota zeta. destruct (shouldRequeue _ _ _); [apply preserves_ret|].
    apply preserves_bind; [apply statusFromBindings_tracked|intros _; apply preserves_ret].
Qed.

Lemma PickN_unique :
  leads I J (runSchedulingCycleForPickNPlacementType profile maxUnselected now uuids workOrder state key policy
    cs bound scheduled unscheduled obsolete).
Proof.
  apply leads_bind; [exact tracked_nil_unique|apply preserves_map_err, preserves_lift|]. intros n.
  apply leads_lift; [exact tracked_nil_unique|]. intros [act count] _.
  assert (forall b, b ∈ [] -> object_key b ∉ (object_key <$> bs)) as Hnil by by intros b ?%not_elem_of_nil.
  destruct act; [|destruct (negb _)].
  - apply leads_bind; [exact tracked_nil_unique| |].
    { apply markUnscheduled_tracked; [done|exact (ofClass_subseteq policy cs _ bs)]. }
    intros _. apply leads_bind; [exact tracked_nil_unique| |].
    { apply downscale_tracked; [done|exact Hnil|exact (ofClass_subseteq policy cs _ bs)..]. }
    intros [s b]. apply leads_bind; [exact tracked_nil_unique|apply statusFromBindings_tracked|].
    intros _ w. apply tracked_nil_unique.
  - apply leads_bind; [exact tracked_nil_unique|apply statusFromBindings_tracked|].
    intros _ w. apply tracked_nil_unique.
  - apply scheduleMore_unique.
Qed.

Lemma crossReferenceTargets_valid targets valid invalid notFound :
  crossReferenceClustersWithTargetNames checker now cs targets = (valid, invalid, notFound) ->
  (mc_name <$> valid) `sublist_of` targets /\
  Forall (fun c => c ∈ cs /\ being_deleted (mc_meta c) = false) valid.
Proof.
  unfold crossReferenceClustersWithTargetNames. revert valid invalid notFound.
  induction targets as [|t targets IH] using rev_ind; intros valid invalid notFound; [by intros [= <- <- <-]|].
  rewrite fold_left_app. cbn. destruct (fold_left _ targets _) as [[v i] nf] eqn:Hf.
  destruct (IH v i nf eq_refl) as [Hs Hall]. unfold crossReferenceTarget.
  destruct (clusterMapOf cs !! t) as [c|] eqn:Hc.
  - apply clusterMapOf_Some in Hc as [Hin <-].
    pose proof (Eligibility.IsEligible_spec checker now c) as Hel.
    destruct (Eligibility.IsEligible checker now c) as [[] r]; cbn in *; intros [= <- <- <-].
    + rewrite fmap_app. split; [by apply sublist_app|]. apply Forall_app. split; [done|].
      constructor; [|done]. split; [done|]. destruct Hel as [[Hd _] _]; [done|].
      unfold being_deleted. by rewrite Hd.
    + split; [by apply sublist_inserts_r|done].
  - intros [= <- <- <-]. split; [by apply sublist_inserts_r|done].
Qed.

Lemma PickFixed_unique targets :
  NoDup targets ->
  leads I J (runSchedulingCycleForPickFixedPlacementType checker now uuids key policy targets cs
    bound scheduled unscheduled obsolete).
Proof.
  intros Hnd. unfold runSchedulingCycleForPickFixedPlacementType.
  destruct (_ =? 0)%nat; [intros w; apply tracked_nil_unique|].
  destruct (crossReferenceClustersWithTargetNames _ _ _ _) as [[valid invalid] notFound] eqn:Hv.
  apply crossReferenceTargets_valid in Hv as [Hsub Hval].
  apply leads_lift; [exact tracked_nil_unique|]. intros [[toCreate toDelete] toPatch] Hplan.
  apply goodPlan_unique.
  - eapply valid_plan_good; [done|done| |done|exact Hplan]. by eapply sublist_NoDup.
  - intros _. apply preserves_bind; [apply statusForPickFixed_tracked|intros _; apply preserves_ret].
Qed.

End Cycle.

(** ** The whole cycle *)

Lemma unique_live_evolves ns name m m' : evolves m m' -> unique_live ns name m -> unique_live ns name m'.
Proof.
  intros He Hu k1 k2 b1 b2 H1 Ho1 Hd1 H2 Ho2 Hd2 Ht.
  destruct (He _ _ H1) as (a1 & Ha1 & Hf1). destruct (He _ _ H2) as (a2 & Ha2 & Hf2).
  pose proof (owned_follows _ _ _ _ _ Hf1 Ho1). pose proof (owned_follows _ _ _ _ _ Hf2 Ho2).
  pose proof (follows_live _ _ Hf1 Hd1). pose proof (follows_live _ _ Hf2 Hd2).
  destruct Hf1 as [Ht1 _]. destruct Hf2 as [Ht2 _]. apply (Hu k1 k2 a1 a2); [done..|congruence].
Qed.

(** What a listing of the bindings of a placement says of the hub. *)
Record accurate (ns name : string) (bs : list BindingObj) (m : gmap ObjectKey BindingObj) : Prop := {
  accurate_keys : NoDup (object_key <$> bs);
  accurate_unique : forall x y, x ∈ bs -> y ∈ bs -> b_deleting x = false -> b_deleting y = false ->
    b_target x = b_target y -> object_key x = object_key y;
  accurate_tracked : tracked ns name bs [] m;
}.

Lemma listing_tracked `{HL : HubLaws W} ns name fromCache (w : W) bs :
  (ListBindingsFromKey (ns, name) fromCache w).2 = Ok bs ->
  NoDup (object_key <$> bs) /\ tracked ns name bs [] (hub_bindings (ListBindingsFromKey (ns, name) fromCache w).1).
Proof.
  destruct (ListBindingsFromKey_run ns name fromCache w) as [-> Hbs]. intros (bs0 & Hl & ->)%Hbs.
  assert (go_sort bindingNameLess bs0 ≡ₚ bs0) as Hp by apply go_sort_perm. split.
  - rewrite Hp. by eapply list_bindings_keys.
  - intros k b Hb. split.
    + intros x. rewrite Hp. intros Hx <-. by apply (list_bindings_sound ns name w bs0 x Hl Hx).
    + intros Ho. left. rewrite Hp. by eapply list_bindings_complete.
Qed.

Lemma listing_accurate `{HL : HubLaws W} ns name fromCache (w : W) bs :
  unique_live ns name (hub_bindings w) -> (ListBindingsFromKey (ns, name) fromCache w).2 = Ok bs ->
  accurate ns name bs (hub_bindings (ListBindingsFromKey (ns, name) fromCache w).1) /\
  (forall x, x ∈ bs -> exists x0, hub_bindings w !! object_key x = Some x0).
Proof.
  intros Hu Hr. destruct (listing_tracked ns name fromCache w bs Hr) as [Hnd Htr].
  destruct (ListBindingsFromKey_run ns name fromCache w) as [_ Hbs]. destruct (Hbs _ Hr) as (bs0 & Hl & ->).
  assert (go_sort bindingNameLess bs0 ≡ₚ bs0) as Hp by apply go_sort_perm.
  pose proof (list_bindings_sound ns name w bs0) as Hsound. split; [split; [done| |done]|].
  - intros x y. rewrite Hp. intros Hx Hy Hdx Hdy Ht.
    destruct (Hsound x Hl Hx) as (Hox & (x0 & Hx0 & Hfx) & _).
    destruct (Hsound y Hl Hy) as (Hoy & (y0 & Hy0 & Hfy) & _).
    pose proof (owned_follows _ _ _ _ _ Hfx Hox). pose proof (owned_follows _ _ _ _ _ Hfy Hoy).
    pose proof (follows_live _ _ Hfx Hdx). pose proof (follows_live _ _ Hfy Hdy).
    destruct Hfx as [Htx _]. destruct Hfy as [Hty _]. apply (Hu _ _ x0 y0); [done..|congruence].
  - intros x. rewrite Hp. intros Hx. destruct (Hsound x Hl Hx) as (_ & (x0 & Hx0 & _) & _). eauto.
Qed.

Lemma accurate_unique_live ns name bs m : accurate ns name bs m -> unique_live ns name m.
Proof.
  intros [_ Hu Ht]. eapply tracked_unique; [exact Hu| |exact Ht].
  split; [constructor|by intros x y _ _ ?%not_elem_of_nil].
Qed.

Section WholeCycle.
Context {K : K8sLib} {W : Type} {C : HubClient W} {HL : HubLaws W} {V : Type}.

(** What a cycle relies on: the bindings have states of the API, the targets
    of a PickFixed policy are distinct, and the names made from fresh UUIDs
    are not in use. *)
Record cycle_ready (uuids : nat -> string) (ns name key : string) (policy : PolicySnapshotObj) (w : W) : Prop := {
  ready_key : ExtractNamespaceNameFromKeyStr key = Ok (ns, name);
  ready_states : forall bs,
    (hub_list_bindings ns name (hub_list_clusters w).1).2 = Ok bs -> Forall apiState bs;
  ready_targets : forall p, sps_Policy (snap_spec policy) = Some p -> NoDup (pol_ClusterNames p);
  ready_fresh : forall n cluster b,
    generateBinding (uuids n) key cluster = Ok b -> hub_bindings w !! object_key b = None;
}.

Variable profile : Profile V.
Context {HP : SafeProfile profile}.
Variable checker : Eligibility.ClusterEligibilityChecker.
Variables maxUnselected now : Z.
Variable uuids : nat -> string.
Variable workOrder : list MemberCluster -> list MemberCluster.
Hypothesis workOrder_perm : forall cs, workOrder cs ≡ₚ cs.

(** What follows the listing, from a world in which the listing is accurate. *)
Lemma cycle_after_listing ns name key policy cs bs :
  NoDup (mc_name <$> cs) -> NoDup (object_key <$> bs) -> Forall apiState bs ->
  (forall x y, x ∈ bs -> y ∈ bs -> b_deleting x = false -> b_deleting y = false ->
     b_target x = b_target y -> object_key x = object_key y) ->
  (forall b, generated uuids key b -> object_key b ∉ (object_key <$> bs)) ->
  (forall p, sps_Policy (snap_spec policy) = Some p -> NoDup (pol_ClusterNames p)) ->
  leads (fun w : W => tracked ns name bs [] (hub_bindings w)) (fun w => unique_live ns name (hub_bindings w))
    (let 'mkClasses bound scheduled obsolete unscheduled dangling deleting := classifyBindings policy bs cs in
     let* _ := updateBindings deleting removeFinalizerAndUpdate in
     let* _ := updateBindings dangling markUnscheduledForAndUpdate in
     let state := NewCycleState cs obsolete [bound; scheduled] in
     match sps_Policy (snap_spec policy) with
     | None => runSchedulingCycleForPickAllPlacementType profile maxUnselected now uuids workOrder
         state key policy cs bound scheduled unscheduled obsolete
     | Some p =>
         if decide (pol_PlacementType p = PickFixedPlacementType) then
           runSchedulingCycleForPickFixedPlacementType checker now uuids key policy (pol_ClusterNames p) cs
             bound scheduled unscheduled obsolete
         else if decide (pol_PlacementType p = PickAllPlacementType) then
           runSchedulingCycleForPickAllPlacementType profile maxUnselected now uuids workOrder
             state key policy cs bound scheduled unscheduled obsolete
         else if decide (pol_PlacementType p = PickNPlacementType) then
           runSchedulingCycleForPickNPlacementType profile maxUnselected now uuids workOrder
             state key policy cs bound scheduled unscheduled obsolete
         else hret false
     end).
Proof.
  intros Hcs Hks Hst Huq Hnew Htg. rewrite classifyBindings_filter. cbv beta iota zeta.
  pose proof (tracked_nil_unique ns name bs Huq) as HIJ.
  apply leads_bind; [exact HIJ|apply removeFinalizer_tracked; [done|exact (ofClass_subseteq policy cs _ bs)]|intros _].
  apply leads_bind; [exact HIJ|apply markUnscheduled_tracked; [done|exact (ofClass_subseteq policy cs _ bs)]|intros _].
  destruct (sps_Policy (snap_spec policy)) as [p|]; [|by apply PickAll_unique].
  destruct (decide _); [apply PickFixed_unique; auto|].
  destruct (decide _); [by apply PickAll_unique|].
  destruct (decide _); [by apply PickN_unique|]. intros w. apply HIJ.
Qed.

Lemma RunSchedulingCycle_unique ns name key policy w :
  cycle_ready uuids ns name key policy w -> unique_live ns name (hub_bindings w) ->
  unique_live ns name (hub_bindings
    (RunSchedulingCycleFor profile checker maxUnselected now uuids workOrder key policy w).1).
Proof.
  intros [Hkey Hstates Htg Hfresh] Hu. unfold RunSchedulingCycleFor. rewrite Hkey.
  apply (hbind_world (fun w => unique_live ns name (hub_bindings w))); [done|]. intros _ [= <-]. cbn [hlift fst].
  destruct (hmap_err_run (NewAPIServerError true) hub_list_clusters w) as [Hw Hcs].
  pose proof (list_clusters_evolves w) as Hev.
  assert (unique_live ns name (hub_bindings (hub_list_clusters w).1)) as Hu1 by (by eapply unique_live_evolves).
  apply (hbind_world (fun w => unique_live ns name (hub_bindings w))); unfold collectClusters; rewrite Hw; [done|].
  intros cs Hc%Hcs. apply list_clusters_names in Hc.
  set (w1 := (hub_list_clusters w).1) in *. pose proof (listing_accurate ns name false w1) as Hacc.
  apply (hbind_world (fun w => unique_live ns name (hub_bindings w))).
  { destruct (ListBindingsFromKey_run ns name false w1) as [-> _].
    eapply unique_live_evolves; [apply list_bindings_evolves|done]. }
  intros bs Hbs. destruct (Hacc bs Hu1 Hbs) as [[Hk Huq Htr] Hold].
  apply (cycle_after_listing ns name key policy cs bs); [done|done| |done| |done|done].
  - destruct (ListBindingsFromKey_run ns name false w1) as [_ Hrun]. destruct (Hrun bs Hbs) as (bs0 & Hl & ->).
    rewrite go_sort_perm. auto.
  - intros b (n & c & b0 & Hg & Hk'). rewrite Hk'. intros (x & Hx & Hin)%list_elem_of_fmap.
    destruct (Hold x Hin) as [x0 Hx0]. rewrite <- Hx in Hx0.
    destruct (Hev _ _ Hx0) as (b1 & Hb1 & _). by rewrite (Hfresh _ _ _ Hg) in Hb1.
Qed.

End WholeCycle.
