(* ===== verification/RolloutProofs.v ===== *)
(** * A rollout stays within its limits, and moves

    Theorems on [Rollout.v].  [classified] says what the classification loop
    of [pickBindingsToRoll] collects from the bindings of a placement; the
    limits of a rolling update, the account of every binding in a plan, and
    the progress of a healthy rollout follow from it.  [Reconcile] keeps the
    invariant of [Safety.v]: no cluster gets a second live binding. *)

From stdpp Require Import prelude gmap strings.
From S2P Require Import Prelude K8s Api Sample Utils Defaulter FrameworkUtils Hub Overrider.
From S2P Require Import Safety Rollout.

Local Open Scope string_scope.
Local Open Scope list_scope.

(** ** What the classification collects *)

Definition filterb {A} (p : A -> bool) (l : list A) : list A := filter (fun x => p x = true) l.

Lemma filterb_snoc {A} (p : A -> bool) l x : filterb p (l ++ [x]) = append_if (p x) (filterb p l) x.
Proof.
  unfold filterb, append_if. rewrite filter_app, filter_cons, filter_nil.
  destruct (p x); [by rewrite decide_True|by rewrite decide_False, app_nil_r].
Qed.

Lemma elem_of_filterb {A} (p : A -> bool) l x : x ∈ filterb p l <-> p x = true /\ x ∈ l.
Proof. unfold filterb. by rewrite list_elem_of_filter. Qed.

Lemma fmap_append_if {A B} (f : A -> B) c l x : f <$> append_if c l x = append_if c (f <$> l) (f x).
Proof. destruct c; cbn; [by rewrite fmap_app|done]. Qed.

Lemma Forall_append_if {A} (P : A -> Prop) c l x : Forall P l -> (c = true -> P x) -> Forall P (append_if c l x).
Proof. intros Hl Hx. destruct c; cbn; [|done]. apply Forall_app. auto. Qed.

(** The comparisons of known states. *)
Ltac known_states :=
  repeat (rewrite bool_decide_true by done); repeat (rewrite bool_decide_false by done); cbn [orb andb].

Section Classified.
Context {K : K8sLib}.
Variables (cutOff : Z) (snapshotName : string).

Definition in_state (s : string) (b : BindingObj) : bool := bool_decide (b_state b = s).

(** The resources of the placement have been sent to the cluster. *)
Definition applied (b : BindingObj) : bool := in_state BindingStateUnscheduled b || in_state BindingStateBound b.

Definition ready (b : BindingObj) : bool := applied b && (isBindingReady b cutOff).2.

(** Ready, and not about to be removed. *)
Definition available (b : BindingObj) : bool := ready b && negb (b_deleting b).

(** May become ready, or still be ready, on its cluster. *)
Definition mayBeReady (b : BindingObj) : bool :=
  applied b && (negb (HasBindingFailed b) && negb (IsBindingDiffReported b)).

(** The candidate moves its binding to the snapshot, and changes nothing else
    but the state and the overrides. *)
Definition rolls (t : toBeUpdatedBinding) : Prop :=
  exists cro ro, t = createUpdateInfo (currentBinding t) snapshotName cro ro.

Record classified (bs : list BindingObj) (c : rollClasses) : Prop := {
  cl_targeted : schedulerTargetedBinds c =
    filterb (fun b => in_state BindingStateScheduled b || in_state BindingStateBound b) bs;
  cl_ready : readyBindings c = filterb ready bs;
  cl_may : canBeReadyBindings c = filterb mayBeReady bs;
  cl_unavailable : canBeUnavailableBindings c = filterb (fun b => ready b && b_deleting b) bs;
  cl_bounding : currentBinding <$> boundingCandidates c = filterb (in_state BindingStateScheduled) bs;
  cl_remove : removeCandidates c = (fun b => mkToBeUpdated b None) <$>
    filterb (fun b => in_state BindingStateUnscheduled b && negb (b_deleting b)) bs;
  cl_bound : currentBinding <$> (updateCandidates c ++ applyFailedUpdateCandidates c ++ upToDateBoundBindings c) ≡ₚ
    filterb (fun b => in_state BindingStateBound b && negb (b_deleting b)) bs;
  cl_failed : Forall (fun t => HasBindingFailed (currentBinding t) = true) (applyFailedUpdateCandidates c);
  cl_rolls : Forall rolls (boundingCandidates c ++ updateCandidates c ++ applyFailedUpdateCandidates c);
  cl_current : Forall (fun t => rbs_ResourceSnapshotName (b_spec (currentBinding t)) = snapshotName /\
    desiredBinding t = None) (upToDateBoundBindings c);
}.

Ltac in_states Hs :=
  unfold ready, available, mayBeReady, applied, in_state; rewrite ?Hs; known_states.

Lemma classified_unscheduled bs c b :
  b_state b = BindingStateUnscheduled -> classified bs c -> classified (bs ++ [b]) (classifyUnscheduled cutOff c b).
Proof.
  intros Hs [H1 H2 H3 H4 H5 H6 H7 H8 H9 H10]. unfold classifyUnscheduled.
  destruct (isBindingReady b cutOff) as [wait r] eqn:Hr.
  split; cbn; rewrite ?filterb_snoc, ?fmap_append_if; try done; in_states Hs; try done.
  - by rewrite H2, Hr.
  - by rewrite H3.
  - rewrite H4, Hr. cbn. by rewrite andb_comm.
  - by rewrite H6.
Qed.

Lemma rolls_createUpdateInfo b cro ro : rolls (createUpdateInfo b snapshotName cro ro).
Proof. by exists cro, ro. Qed.

Lemma classified_scheduled bs c b cro ro :
  b_state b = BindingStateScheduled -> classified bs c ->
  classified (bs ++ [b]) (classifyScheduled snapshotName cro ro c b).
Proof.
  intros Hs [H1 H2 H3 H4 H5 H6 H7 H8 H9 H10]. unfold classifyScheduled.
  split; cbn; rewrite ?filterb_snoc, ?fmap_app; in_states Hs; try done.
  - by rewrite H1.
  - by rewrite H5.
  - by rewrite <- !fmap_app.
  - apply Forall_app in H9 as [Hb [Hu Hf]%Forall_app]. rewrite !Forall_app. split_and!; [done| |done..].
    constructor; [apply rolls_createUpdateInfo|done].
Qed.

(** One of the three lists of bound bindings gets the binding. *)
Lemma bound_lists {A} (live stale failed : bool) (us fs os : list A) u o :
  append_if (live && stale && negb failed) us u ++ append_if (live && stale && failed) fs u ++
    append_if (live && negb stale) os o ≡ₚ
  append_if live (us ++ fs ++ os) (if stale then u else o).
Proof. destruct live, stale, failed; cbn; solve_Permutation. Qed.

Lemma classified_bound bs c b cro ro :
  b_state b = BindingStateBound -> classified bs c ->
  classified (bs ++ [b]) (classifyBound cutOff snapshotName cro ro c b).
Proof.
  intros Hs [H1 H2 H3 H4 H5 H6 H7 H8 H9 H10]. unfold classifyBound.
  destruct (isBindingReady b cutOff) as [wait r] eqn:Hr.
  split; cbn [schedulerTargetedBinds readyBindings canBeReadyBindings canBeUnavailableBindings boundingCandidates
    removeCandidates updateCandidates applyFailedUpdateCandidates upToDateBoundBindings];
    rewrite ?filterb_snoc; in_states Hs; try done.
  - by rewrite H1.
  - by rewrite H2, Hr.
  - by rewrite H3.
  - rewrite H4, Hr. cbn. by rewrite andb_comm.
  - rewrite bound_lists, fmap_append_if. destruct (needsUpdate b snapshotName cro ro); cbn [currentBinding createUpdateInfo];
      destruct (negb (b_deleting b)); cbn; by rewrite H7.
  - apply Forall_append_if; [done|]. cbn. by intros [_ ?]%andb_true_iff.
  - apply Forall_app in H9 as [Hb [Hu Hf]%Forall_app]. rewrite !Forall_app. split_and!; [done| |];
      apply Forall_append_if; auto using rolls_createUpdateInfo.
  - apply Forall_append_if; [done|]. intros [_ Hn%negb_true_iff]%andb_true_iff. cbn. split; [|done].
    unfold needsUpdate in Hn. rewrite !orb_false_iff, !bool_decide_eq_false in Hn.
    destruct Hn as [[Hn _] _]. by apply dec_stable in Hn.
Qed.

Context {W : Type} {R : SnapshotReader W}.

Lemma classified_step bs c c' cros ros b (w w' : W) :
  classified bs c -> classifyForRollout cutOff snapshotName cros ros c b w = (w', Ok c') ->
  classified (bs ++ [b]) c'.
Proof.
  intros Hc. unfold classifyForRollout. destruct (decide _) as [Hs|Hu].
  { intros [= _ <-]. by apply classified_unscheduled. }
  unfold hbind. destruct (decide _) as [Hs|Hn].
  { destruct (PickFromResourceMatchedOverridesForTargetCluster _ _ _ w) as [w1 [[cro ro]| |]]; [|done|done].
    intros [= _ <-]. by apply classified_scheduled. }
  destruct (decide _) as [Hs|Hb].
  { destruct (b_deleting b); [|destruct (PickFromResourceMatchedOverridesForTargetCluster _ _ _ w) as [w1 [[cro ro]| |]]];
      [|intros [= _ <-]|done..]; [intros [= _ <-]|]; by apply classified_bound. }
  intros [= _ <-]. destruct Hc as [H1 H2 H3 H4 H5 H6 H7 H8 H9 H10].
  split; rewrite ?filterb_snoc; unfold ready, mayBeReady, applied, in_state;
    rewrite ?(bool_decide_false _ Hu), ?(bool_decide_false _ Hn), ?(bool_decide_false _ Hb); done.
Qed.

Definition noClasses (wait : Z) : rollClasses := mkRollClasses [] [] [] [] [] [] [] [] [] wait true.

Lemma classified_fold cros ros bs bs0 c0 c (w w' : W) :
  classified bs0 c0 -> hfold (classifyForRollout cutOff snapshotName cros ros) c0 bs w = (w', Ok c) ->
  classified (bs0 ++ bs) c.
Proof.
  revert bs0 c0 w. induction bs as [|b bs IH]; intros bs0 c0 w Hc; cbn [hfold].
  - intros [= _ <-]. by rewrite app_nil_r.
  - unfold hbind. destruct (classifyForRollout _ _ _ _ c0 b w) as [w1 [c1| |]] eqn:Hb; [|done|done].
    intros Hf. apply classified_step with (bs := bs0) in Hb; [|done].
    rewrite (cons_middle b bs0 bs), (assoc_L app). by eapply IH.
Qed.

End Classified.

(** ** Counting *)

Lemma filterb_length_split {A} (p q : A -> bool) l :
  length (filterb p l) =
  length (filterb (fun x => p x && q x) l) + length (filterb (fun x => p x && negb (q x)) l).
Proof.
  induction l as [|x l IH]; [done|]. unfold filterb in *. rewrite !filter_cons.
  destruct (p x), (q x); cbn [andb negb]; repeat case_decide; try done; cbn; lia.
Qed.

(** At most as many elements of a list are among others as there are others. *)
Lemma filterb_length_le {A} (p : A -> bool) (l l' : list A) :
  NoDup l -> (forall x, x ∈ l -> p x = true -> x ∈ l') -> length (filterb p l) <= length l'.
Proof.
  intros Hnd Hin. apply submseteq_length, NoDup_submseteq; [by apply NoDup_filter|].
  intros x [Hp Hx]%elem_of_filterb. auto.
Qed.

Lemma take_min_le {A} (n m : nat) (l l' : list A) :
  length (take n l) + length (take ((n - length (take n l)) `min` m) l') <= n.
Proof. rewrite !length_take. lia. Qed.

Lemma pos_to_nat z : (if (0 <? z)%Z then Z.to_nat z else 0) = Z.to_nat z.
Proof. destruct (0 <? z)%Z eqn:H; [done|]. apply Z.ltb_ge in H. lia. Qed.

(** ** The plan of a rollout *)

Section Plan.
Context {K : K8sLib} {W : Type} {R : SnapshotReader W}.
Variables (now seconds : Z) (snapshotName : string).

Definition readyCutOff : Z := (now + wrap64 (wrap64 (- seconds) * second))%Z.

(** The bindings the scheduler wants. *)
Definition chosen (bs : list BindingObj) : list BindingObj :=
  filterb (fun b => in_state BindingStateScheduled b || in_state BindingStateBound b) bs.

Definition selectedBy (plan : rollPlan) (b : BindingObj) : bool :=
  bool_decide (b ∈ currentBinding <$> plan_toBeUpdated plan).

(** What a successful plan comes from. *)
Record planned (placement : PlacementObj) (ru : RollingUpdateConfig) (T : Z) (bs : list BindingObj)
    (plan : rollPlan) (c : rollClasses) : Prop := {
  pl_classified : classified readyCutOff snapshotName bs c;
  pl_target : calculateRealTarget placement (chosen bs) = Ok T;
  pl_plan : planRollout placement ru c = Ok plan;
}.

Lemma pickBindingsToRoll_planned placement ru T bs cros ros plan (w w' : W) :
  rs_RollingUpdate (psp_Strategy (pl_spec placement)) = Some ru ->
  ru_UnavailablePeriodSeconds ru = Some seconds ->
  calculateRealTarget placement (chosen bs) = Ok T ->
  pickBindingsToRoll now bs snapshotName placement cros ros w = (w', Ok plan) ->
  exists c, planned placement ru T bs plan c.
Proof.
  intros Hru Hs HT. unfold pickBindingsToRoll. rewrite Hru, Hs. unfold hbind, hlift.
  destruct (hfold _ _ bs w) as [w1 [c| |]] eqn:Hf; [|done|done]. intros [= _ Hp].
  exists c. split; [|done|done].
  change bs with ([] ++ bs). eapply classified_fold; [|exact Hf]. by split.
Qed.

(** The number of bindings that may be removed or updated. *)
Definition removals (ru : RollingUpdateConfig) (T : Z) (c : rollClasses) : Z :=
  calculateMaxToRemove ru T (readyBindings c) (canBeUnavailableBindings c).

Definition additions (ru : RollingUpdateConfig) (T : Z) (c : rollClasses) : Z :=
  calculateMaxToAdd ru T (canBeReadyBindings c).

(** The two shapes of a plan. *)
Lemma planned_cases placement ru T bs plan c :
  planned placement ru T bs plan c ->
  (removeCandidates c = [] /\ updateCandidates c = [] /\ boundingCandidates c = [] /\
   applyFailedUpdateCandidates c = [] /\ plan_toBeUpdated plan = [] /\ plan_stale plan = [] /\
   plan_needRoll plan = false /\ plan_upToDate plan = upToDateBoundBindings c) \/
  (exists i u a,
     i = Z.to_nat (removals ru T c) /\ u = (i - length (take i (removeCandidates c))) `min` length (updateCandidates c) /\
     a = Z.to_nat (additions ru T c) `min` length (boundingCandidates c) /\
     0 < length (removeCandidates c) + length (updateCandidates c) + length (boundingCandidates c) +
       length (applyFailedUpdateCandidates c) /\
     plan_toBeUpdated plan = applyFailedUpdateCandidates c ++ take i (removeCandidates c) ++
       take u (updateCandidates c) ++ take a (boundingCandidates c) /\
     plan_stale plan = drop u (updateCandidates c) ++ drop a (boundingCandidates c) /\
     plan_needRoll plan = true /\ plan_upToDate plan = upToDateBoundBindings c).
Proof.
  intros [Hc HT Hp]. unfold planRollout in Hp. rewrite (cl_targeted _ _ _ _ Hc) in Hp.
  change (filterb _ bs) with (chosen bs) in Hp. rewrite HT in Hp. cbn [obind] in Hp.
  destruct (_ =? 0)%nat eqn:Hz.
  - left. apply Nat.eqb_eq in Hz. injection Hp as <-. cbn.
    destruct (removeCandidates c), (updateCandidates c), (boundingCandidates c), (applyFailedUpdateCandidates c);
      cbn in Hz; done || lia.
  - right. apply Nat.eqb_neq in Hz. unfold determineBindingsToUpdate in Hp.
    rewrite pos_to_nat in Hp. injection Hp as <-. cbn.
    do 3 eexists. split_and!; [reflexivity|reflexivity|reflexivity|lia|done..].
Qed.

Lemma available_count bs c :
  classified readyCutOff snapshotName bs c ->
  (llen (readyBindings c) - llen (canBeUnavailableBindings c) = llen (filterb (available readyCutOff) bs))%Z.
Proof.
  intros Hc. unfold llen. rewrite (cl_ready _ _ _ _ Hc), (cl_unavailable _ _ _ _ Hc).
  rewrite (filterb_length_split (ready readyCutOff) b_deleting bs). unfold available. lia.
Qed.

(** The states of the candidates. *)
Lemma bound_current bs c t :
  classified readyCutOff snapshotName bs c ->
  t ∈ updateCandidates c ++ applyFailedUpdateCandidates c ++ upToDateBoundBindings c ->
  in_state BindingStateBound (currentBinding t) = true.
Proof.
  intros Hc Ht. apply (list_elem_of_fmap_2 currentBinding) in Ht. rewrite (cl_bound _ _ _ _ Hc) in Ht.
  by apply elem_of_filterb in Ht as [[? _]%andb_true_iff _].
Qed.

Lemma bounding_current bs c t :
  classified readyCutOff snapshotName bs c -> t ∈ boundingCandidates c ->
  in_state BindingStateScheduled (currentBinding t) = true.
Proof.
  intros Hc Ht. apply (list_elem_of_fmap_2 currentBinding) in Ht. rewrite (cl_bounding _ _ _ _ Hc) in Ht.
  by apply elem_of_filterb in Ht as [? _].
Qed.

Lemma remove_current bs c t :
  classified readyCutOff snapshotName bs c -> t ∈ removeCandidates c ->
  in_state BindingStateUnscheduled (currentBinding t) = true /\ desiredBinding t = None.
Proof.
  intros Hc Ht. rewrite (cl_remove _ _ _ _ Hc) in Ht.
  apply list_elem_of_fmap in Ht as (b & -> & [[? _]%andb_true_iff _]%elem_of_filterb). done.
Qed.

Lemma in_state_inj s1 s2 b : in_state s1 b = true -> in_state s2 b = true -> s1 = s2.
Proof. unfold in_state. rewrite !bool_decide_eq_true. congruence. Qed.

Lemma elem_of_take_fmap {A B} (f : A -> B) n l y : y ∈ f <$> take n l -> y ∈ f <$> l.
Proof. rewrite fmap_take. apply subseteq_take. Qed.

Lemma take_in {A} (x : A) n l : x ∈ take n l -> x ∈ l.
Proof. apply subseteq_take. Qed.

(** The candidates that are removed or updated within the limit. *)
Definition withinLimit (ru : RollingUpdateConfig) (T : Z) (c : rollClasses) : list toBeUpdatedBinding :=
  let i := Z.to_nat (removals ru T c) in
  take i (removeCandidates c) ++
  take ((i - length (take i (removeCandidates c))) `min` length (updateCandidates c)) (updateCandidates c).

Lemma withinLimit_length ru T c : length (withinLimit ru T c) <= Z.to_nat (removals ru T c).
Proof. unfold withinLimit. rewrite length_app. apply take_min_le. Qed.

(** An available binding that is selected is one of them. *)
Lemma selected_available placement ru T bs plan c b :
  planned placement ru T bs plan c ->
  (forall b, b ∈ bs -> ready readyCutOff b = true -> HasBindingFailed b = false) ->
  b ∈ bs -> available readyCutOff b = true -> selectedBy plan b = true ->
  b ∈ currentBinding <$> withinLimit ru T c.
Proof.
  intros Hpl Hok Hb Hav Hsel. pose proof (pl_classified _ _ _ _ _ _ Hpl) as Hc.
  unfold selectedBy in Hsel. rewrite bool_decide_eq_true in Hsel.
  destruct (planned_cases _ _ _ _ _ _ Hpl) as [(_ & _ & _ & _ & Hp & _)|(i & u & a & -> & -> & -> & _ & Hp & _)];
    rewrite Hp in Hsel; [by apply not_elem_of_nil in Hsel|].
  apply andb_true_iff in Hav as [Hready _]. pose proof Hready as [Happ _]%andb_true_iff.
  rewrite !fmap_app, !elem_of_app in Hsel. unfold withinLimit. rewrite fmap_app, elem_of_app.
  destruct Hsel as [Hf|[Hr|[Hu|Hbd]]]; [exfalso|by left|by right|exfalso].
  - apply list_elem_of_fmap in Hf as (t & -> & Ht). pose proof (cl_failed _ _ _ _ Hc) as Hfail.
    rewrite Forall_forall in Hfail. specialize (Hfail t Ht). by rewrite (Hok _ Hb Hready) in Hfail.
  - apply list_elem_of_fmap in Hbd as (t & -> & Ht%take_in). pose proof (bounding_current _ _ _ Hc Ht) as Hst.
    unfold applied in Happ. apply orb_true_iff in Happ as [H|H]; by pose proof (in_state_inj _ _ _ H Hst).
Qed.

(** C8: a rolling update respects [maxUnavailable].  Of the bindings that are
    available when the plan is made (ready on their cluster and not being
    removed), at least the target number less [maxUnavailable] are left alone
    by the plan, or all of them when there are fewer.  A binding that is ready
    has no failed condition. *)
Theorem rollout_keeps_available placement ru T bs cros ros plan (w w' : W) :
  NoDup bs ->
  rs_RollingUpdate (psp_Strategy (pl_spec placement)) = Some ru ->
  ru_UnavailablePeriodSeconds ru = Some seconds ->
  calculateRealTarget placement (chosen bs) = Ok T ->
  (forall b, b ∈ bs -> ready readyCutOff b = true -> HasBindingFailed b = false) ->
  pickBindingsToRoll now bs snapshotName placement cros ros w = (w', Ok plan) ->
  (Z.min (llen (filterb (available readyCutOff) bs)) (T - scaledOrZero (ru_MaxUnavailable ru) T) <=
   llen (filterb (fun b => available readyCutOff b && negb (selectedBy plan b)) bs))%Z.
Proof.
  intros Hnd Hru Hs HT Hok Hpick.
  destruct (pickBindingsToRoll_planned _ _ _ _ _ _ _ _ _ Hru Hs HT Hpick) as [c Hpl].
  pose proof (available_count _ _ (pl_classified _ _ _ _ _ _ Hpl)) as Hcount.
  pose proof (filterb_length_split (available readyCutOff) (selectedBy plan) bs) as Hsplit.
  assert (length (filterb (fun b => available readyCutOff b && selectedBy plan b) bs) <=
    Z.to_nat (removals ru T c)) as Hle.
  { rewrite <- withinLimit_length, <- (length_fmap currentBinding). apply filterb_length_le; [done|].
    intros b Hb [Hav Hsel]%andb_true_iff. by eapply selected_available. }
  unfold removals, calculateMaxToRemove in Hle. rewrite Hcount in Hle. unfold llen in *. lia.
Qed.

(** C9: a rolling update respects [maxSurge].  The bindings that may be ready
    together with the scheduled bindings that the plan binds do not exceed
    the target number plus [maxSurge], unless they already did; then no
    further binding is bound. *)
Theorem rollout_bounds_surge placement ru T bs cros ros plan (w w' : W) :
  NoDup bs ->
  rs_RollingUpdate (psp_Strategy (pl_spec placement)) = Some ru ->
  ru_UnavailablePeriodSeconds ru = Some seconds ->
  calculateRealTarget placement (chosen bs) = Ok T ->
  pickBindingsToRoll now bs snapshotName placement cros ros w = (w', Ok plan) ->
  (llen (filterb mayBeReady bs) +
     llen (filterb (fun b => in_state BindingStateScheduled b && selectedBy plan b) bs) <=
   Z.max (llen (filterb mayBeReady bs)) (T + scaledOrZero (ru_MaxSurge ru) T))%Z.
Proof.
  intros Hnd Hru Hs HT Hpick.
  destruct (pickBindingsToRoll_planned _ _ _ _ _ _ _ _ _ Hru Hs HT Hpick) as [c Hpl].
  pose proof (pl_classified _ _ _ _ _ _ Hpl) as Hc.
  enough (length (filterb (fun b => in_state BindingStateScheduled b && selectedBy plan b) bs) <=
    Z.to_nat (additions ru T c)) as Hle.
  { unfold additions, calculateMaxToAdd in Hle. rewrite (cl_may _ _ _ _ Hc) in Hle. unfold llen in *. lia. }
  destruct (planned_cases _ _ _ _ _ _ Hpl) as [(_ & _ & _ & _ & Hp & _)|(i & u & a & -> & -> & -> & _ & Hp & _)].
  - etrans; [apply (filterb_length_le _ _ []); [done|]|apply Nat.le_0_l]. intros b _ [_ Hsel]%andb_true_iff.
    unfold selectedBy in Hsel. rewrite Hp in Hsel. by apply bool_decide_eq_true in Hsel.
  - etrans; [apply (filterb_length_le _ _ (currentBinding <$>
      take (Z.to_nat (additions ru T c) `min` length (boundingCandidates c)) (boundingCandidates c))); [done|]|rewrite length_fmap, length_take; lia].
    intros b _ [Hst Hsel]%andb_true_iff. unfold selectedBy in Hsel. rewrite Hp, bool_decide_eq_true in Hsel.
    rewrite !fmap_app, !elem_of_app in Hsel. destruct Hsel as [Hf|[Hr|[Hu|Hbd]]].
    + apply list_elem_of_fmap in Hf as (t & -> & Ht). pose proof (bound_current _ _ t Hc ltac:(set_solver)) as Hst'.
      by pose proof (in_state_inj _ _ _ Hst Hst').
    + apply list_elem_of_fmap in Hr as (t & -> & Ht%take_in). pose proof (remove_current _ _ t Hc Ht) as [Hst' _].
      by pose proof (in_state_inj _ _ _ Hst Hst').
    + apply list_elem_of_fmap in Hu as (t & -> & Ht%take_in). pose proof (bound_current _ _ t Hc ltac:(set_solver)) as Hst'.
      by pose proof (in_state_inj _ _ _ Hst Hst').
    + exact Hbd.
Qed.

(** The bindings a rollout still has to do with: the scheduled ones, and the
    others until they are being deleted. *)
Definition live (b : BindingObj) : bool :=
  in_state BindingStateScheduled b || (applied b && negb (b_deleting b)).

Lemma filterb_live bs :
  filterb live bs ≡ₚ filterb (in_state BindingStateScheduled) bs ++
    filterb (fun b => in_state BindingStateUnscheduled b && negb (b_deleting b)) bs ++
    filterb (fun b => in_state BindingStateBound b && negb (b_deleting b)) bs.
Proof.
  induction bs as [|b bs IH] using rev_ind; [done|]. rewrite !filterb_snoc. revert IH.
  generalize (filterb live bs) (filterb (in_state BindingStateScheduled) bs)
    (filterb (fun b => in_state BindingStateUnscheduled b && negb (b_deleting b)) bs)
    (filterb (fun b => in_state BindingStateBound b && negb (b_deleting b)) bs). intros l l1 l2 l3 Hl.
  unfold live, applied, in_state. destruct (decide (b_state b = BindingStateScheduled)) as [Hs|Hs];
    [rewrite !Hs; known_states; destruct (b_deleting b); cbn; rewrite Hl; solve_Permutation|].
  rewrite (bool_decide_false _ Hs). destruct (decide (b_state b = BindingStateUnscheduled)) as [Hu|Hu].
  { rewrite !Hu. known_states. destruct (b_deleting b); cbn; rewrite Hl; solve_Permutation. }
  rewrite (bool_decide_false _ Hu). destruct (bool_decide _), (b_deleting b); cbn; rewrite Hl; solve_Permutation.
Qed.

(** a plan accounts for every live binding exactly once: it is rolled or
    removed now, or stale and left for later, or up to date, or an
    unscheduled one that waits for its removal.  What is removed is
    unscheduled; what is rolled gets the latest snapshot and the overrides
    picked for its cluster and is otherwise unchanged; what is called up to
    date has the latest snapshot. *)
Theorem rollout_accounts placement ru T bs cros ros plan (w w' : W) :
  rs_RollingUpdate (psp_Strategy (pl_spec placement)) = Some ru ->
  ru_UnavailablePeriodSeconds ru = Some seconds ->
  calculateRealTarget placement (chosen bs) = Ok T ->
  pickBindingsToRoll now bs snapshotName placement cros ros w = (w', Ok plan) ->
  exists waiting,
    (currentBinding <$> plan_toBeUpdated plan ++ plan_stale plan ++ plan_upToDate plan) ++ waiting ≡ₚ filterb live bs /\
    Forall (fun b => b_state b = BindingStateUnscheduled) waiting /\
    Forall (fun t => if in_state BindingStateUnscheduled (currentBinding t) then desiredBinding t = None
                     else rolls snapshotName t) (plan_toBeUpdated plan) /\
    Forall (rolls snapshotName) (plan_stale plan) /\
    Forall (fun t => rbs_ResourceSnapshotName (b_spec (currentBinding t)) = snapshotName) (plan_upToDate plan).
Proof.
  intros Hru Hs HT Hpick.
  destruct (pickBindingsToRoll_planned _ _ _ _ _ _ _ _ _ Hru Hs HT Hpick) as [c Hpl].
  pose proof (pl_classified _ _ _ _ _ _ Hpl) as Hc. pose proof (cl_rolls _ _ _ _ Hc) as Hrolls.
  assert (Forall (fun t => rbs_ResourceSnapshotName (b_spec (currentBinding t)) = snapshotName)
    (upToDateBoundBindings c)) as Hcur by (eapply Forall_impl; [apply (cl_current _ _ _ _ Hc)|naive_solver]).
  assert (currentBinding <$> removeCandidates c =
    filterb (fun b => in_state BindingStateUnscheduled b && negb (b_deleting b)) bs) as Hrm.
  { rewrite (cl_remove _ _ _ _ Hc), <- list_fmap_compose. apply list_fmap_id. }
  pose proof (filterb_live bs) as Hlive. rewrite <- (cl_bounding _ _ _ _ Hc), <- Hrm, <- (cl_bound _ _ _ _ Hc) in Hlive.
  destruct (planned_cases _ _ _ _ _ _ Hpl)
    as [(Hr & Hu & Hb & Hf & -> & -> & _ & ->)|(i & u & a & _ & _ & _ & _ & -> & -> & _ & ->)].
  { exists []. rewrite app_nil_r. rewrite Hr, Hu, Hb, Hf in Hlive. split_and!; done. }
  exists (currentBinding <$> drop i (removeCandidates c)). rewrite !Forall_forall in *. split_and!; [|..|done].
  - rewrite Hlive, <- !fmap_app. apply Permutation_map.
    rewrite <- (take_drop i (removeCandidates c)) at 3. rewrite <- (take_drop u (updateCandidates c)) at 3.
    rewrite <- (take_drop a (boundingCandidates c)) at 3. solve_Permutation.
  - intros b (t & -> & Ht)%list_elem_of_fmap. apply subseteq_drop in Ht.
    destruct (remove_current _ _ _ Hc Ht) as [Hst _]. by apply bool_decide_eq_true in Hst.
  - intros t. rewrite !elem_of_app. intros [Hf|[Hr|[Hu|Hb]]].
    + pose proof (bound_current _ _ t Hc ltac:(set_solver)) as Hst.
      destruct (in_state BindingStateUnscheduled _) eqn:Hu; [by pose proof (in_state_inj _ _ _ Hu Hst)|].
      apply Hrolls. set_solver.
    + apply take_in in Hr. by destruct (remove_current _ _ _ Hc Hr) as [-> ->].
    + apply take_in in Hu. pose proof (bound_current _ _ t Hc ltac:(set_solver)) as Hst.
      destruct (in_state BindingStateUnscheduled _) eqn:Hx; [by pose proof (in_state_inj _ _ _ Hx Hst)|].
      apply Hrolls. set_solver.
    + apply take_in in Hb. pose proof (bounding_current _ _ t Hc Hb) as Hst.
      destruct (in_state BindingStateUnscheduled _) eqn:Hx; [by pose proof (in_state_inj _ _ _ Hx Hst)|].
      apply Hrolls. set_solver.
  - intros t. rewrite elem_of_app. intros [Ht%subseteq_drop|Ht%subseteq_drop]; apply Hrolls; set_solver.
Qed.


End Plan.

(** ** Clusters that are being cleaned up *)

Definition notDeleting (b : BindingObj) : bool := negb (b_deleting b).

Definition targets (bs : list BindingObj) : list string := b_target <$> filterb notDeleting bs.

(** A live binding on a cluster with another one that is being deleted. *)
Definition blocked (bs : list BindingObj) (b : BindingObj) : Prop :=
  b ∈ bs /\ b_deleting b = false /\ exists d, d ∈ bs /\ b_deleting d = true /\ b_target d = b_target b.

Definition wasBound (b : BindingObj) : Prop :=
  b_state b = BindingStateBound \/
  (b_state b = BindingStateUnscheduled /\
   b_annotations b !! PreviousBindingStateAnnotation = Some BindingStateBound).

Lemma separateDeleting_spec bs :
  NoDup (targets bs) ->
  exists d m, ofold separateDeleting (∅, ∅) bs = Ok (d, m) /\
    (forall t, t ∈ d <-> exists b, b ∈ bs /\ b_deleting b = true /\ b_target b = t) /\
    (forall t b, m !! t = Some b <-> b ∈ bs /\ b_deleting b = false /\ b_target b = t).
Proof.
  induction bs as [|b bs IH] using rev_ind; intros Hnd.
  { exists ∅, ∅. split_and!; [done|set_solver|]. intros t b. rewrite lookup_empty. set_solver. }
  unfold targets in Hnd. rewrite filterb_snoc in Hnd. unfold notDeleting at 1 in Hnd.
  destruct (b_deleting b) eqn:Hb; cbn [negb append_if] in Hnd.
  - destruct (IH Hnd) as (d & m & Hf & Hd & Hm). exists ({[b_target b]} ∪ d), m.
    rewrite ofold_app, Hf. cbn. rewrite Hb. split_and!; [done| |].
    + intros t. rewrite elem_of_union, elem_of_singleton, Hd. clear IH Hf Hm Hd. set_solver.
    + intros t b'. rewrite Hm, elem_of_app, list_elem_of_singleton. clear IH Hf Hm Hd Hnd.
      split; [tauto|]. intros ([?| ->] & ? & ?); [done|congruence].
  - rewrite fmap_app in Hnd. apply NoDup_app in Hnd as (Hnd & Hdisj & _).
    destruct (IH Hnd) as (d & m & Hf & Hd & Hm). exists d, (<[b_target b := b]> m).
    assert (m !! b_target b = None) as Hnone.
    { destruct (m !! b_target b) as [x|] eqn:Hx; [|done]. apply Hm in Hx as (Hx & Hdx & Ht). exfalso.
      apply (Hdisj (b_target x)); [|rewrite Ht; by left]. apply list_elem_of_fmap_2, elem_of_filterb.
      split; [|done]. unfold notDeleting. by rewrite Hdx. }
    rewrite ofold_app, Hf. cbn. rewrite Hb, Hnone. split_and!; [done| |].
    + intros t. rewrite Hd. setoid_rewrite elem_of_app. setoid_rewrite list_elem_of_singleton. clear IH Hf Hm Hd.
      split; [intros (x & ? & ?); eauto|]. intros (x & [?| ->] & Hx & ?); [eauto|congruence].
    + intros t b'. rewrite lookup_insert_Some, Hm, elem_of_app, list_elem_of_singleton. split.
      * intros [[<- <-]|[Hne (Hin & ? & ?)]]; auto.
      * intros ([Hin| ->] & Hd' & <-); [right|by left]. split; [|done]. intros He.
        assert (m !! b_target b' = Some b') as Hx by by apply Hm. rewrite <- He in Hx. congruence.
Qed.

Lemma waitForFirst_spec d entries :
  match waitForFirst d entries with
  | Ok false => Forall (fun e => e.1 ∉ d) entries
  | Ok true => exists e, e ∈ entries /\ e.1 ∈ d /\ ~ wasBound e.2
  | Err _ => exists e, e ∈ entries /\ e.1 ∈ d /\ wasBound e.2
  | Panic _ => False
  end.
Proof.
  induction entries as [|[t b] r IH]; cbn [waitForFirst]; [done|].
  destruct (decide (t ∈ d)) as [Hin|Hout].
  - destruct (decide _) as [Hb|Hb]; [exists (t, b); unfold wasBound; set_solver|].
    destruct (decide _) as [Hu|Hu]; [|exists (t, b); unfold wasBound; set_solver].
    destruct (decide _) as [Ha|Ha]; exists (t, b); unfold wasBound; set_solver.
  - destruct (waitForFirst d r) as [[|]|e|p]; [|by constructor|..|done]; set_solver.
Qed.

(** when the live bindings of a placement are on distinct clusters, as the
    scheduler leaves them, the check for clusters that are being cleaned up
    never reports duplicates.  It lets the rollout go on exactly when no
    cluster has a live binding next to one that is being deleted; it waits
    only for a live binding that was never bound, and fails only when one is
    or was bound. *)
Theorem cleanup_check bs (order : forall A, list (string * A) -> list (string * A)) :
  NoDup (targets bs) -> (forall A (l : list (string * A)), order A l ≡ₚ l) ->
  match waitForResourcesToCleanUp order bs with
  | Ok false => forall b, ~ blocked bs b
  | Ok true => exists b, blocked bs b /\ ~ wasBound b
  | Err _ => exists b, blocked bs b /\ wasBound b
  | Panic _ => False
  end.
Proof.
  intros Hnd Ho. destruct (separateDeleting_spec bs Hnd) as (d & m & Hf & Hd & Hm).
  unfold waitForResourcesToCleanUp. rewrite Hf. cbn [obind].
  assert (forall e, e ∈ order _ (map_to_list m) -> e.1 ∈ d -> blocked bs e.2) as Hblk.
  { intros [t b]. rewrite (Ho _ _), elem_of_map_to_list, Hm, Hd. cbn. unfold blocked. naive_solver. }
  pose proof (waitForFirst_spec d (order _ (map_to_list m))) as Hw.
  destruct (waitForFirst d _) as [[|]|e|p]; [naive_solver| |naive_solver|done].
  intros b (Hb & Hdb & x & Hx & Hdx & Ht). rewrite Forall_forall in Hw.
  apply (Hw (b_target b, b)); [|apply Hd; eauto].
  rewrite (Ho _ _), elem_of_map_to_list. by apply Hm.
Qed.

(** ** The apply strategy *)

Section ApplyStrategy.
Context {W : Type} {RC : RolloutClient W}.

Definition placementApplyStrategy (placement : PlacementObj) : ApplyStrategy :=
  default (Defaulter.SetDefaultsApplyStrategy Defaulter.emptyApplyStrategy)
    (rs_ApplyStrategy (psp_Strategy (pl_spec placement))).

(** a rollout goes past the apply strategy only when every live binding
    already has the one of the placement, and then no call has been made. *)
Theorem apply_strategy_first placement bs (w w' : W) :
  processApplyStrategyUpdates placement bs w = (w', Ok false) ->
  w' = w /\ forall b, b ∈ bs -> b_deleting b = false ->
    rbs_ApplyStrategy (b_spec b) = Some (placementApplyStrategy placement).
Proof.
  unfold processApplyStrategyUpdates, placementApplyStrategy.
  replace (match rs_ApplyStrategy _ with Some s => s | None => _ end) with
    (default (Defaulter.SetDefaultsApplyStrategy Defaulter.emptyApplyStrategy)
      (rs_ApplyStrategy (psp_Strategy (pl_spec placement)))) by by destruct (rs_ApplyStrategy _).
  set (strategy := default _ _).
  unfold hbind, herr, hret. destruct (run_group _ w) as [w1 [e|]] eqn:Hrun; [done|].
  intros [= <- Hnil]. apply negb_false_iff, bool_decide_eq_true in Hnil. rewrite Hnil in Hrun.
  injection Hrun as <-. split; [done|]. intros b Hb Hd.
  destruct (decide (rbs_ApplyStrategy (b_spec b) = Some strategy)) as [|Hne]; [done|]. exfalso.
  assert (b ∈ filter (needsApplyStrategy strategy) bs) as Hin by (by apply list_elem_of_filter).
  rewrite Hnil in Hin. by apply not_elem_of_nil in Hin.
Qed.

End ApplyStrategy.

(** ** A reconciliation never gives a cluster a second live binding *)

(** What the reads and the merge patch may do to the bindings on the hub. *)
Class RolloutLaws (W : Type) {C : HubClient W} {HL : HubLaws W} {R : SnapshotReader W} {P : PlacementReader W}
    {RC : RolloutClient W} : Prop := {
  get_cluster_evolves n w : evolves (hub_bindings w) (hub_bindings (hub_get_cluster n w).1);
  list_snapshots_evolves ns ls w :
    evolves (hub_bindings w) (hub_bindings (hub_list_resource_snapshots ns ls w).1);
  list_cros_evolves ls w : evolves (hub_bindings w) (hub_bindings (hub_list_cros ls w).1);
  list_ros_evolves ls w : evolves (hub_bindings w) (hub_bindings (hub_list_ros ls w).1);
  get_placement_evolves ns n w : evolves (hub_bindings w) (hub_bindings (hub_get_placement ns n w).1);
  merge_touches b b' w : touches b' (hub_bindings w) (hub_bindings (hub_merge_binding b b' w).1);
}.

(** The objects of a plan are those that were listed. *)
Definition planObject (bs : list BindingObj) (t : toBeUpdatedBinding) : Prop :=
  currentBinding t ∈ bs /\ forall d, desiredBinding t = Some d -> resembles (currentBinding t) d.

Lemma rolls_object bs snapshotName t : currentBinding t ∈ bs -> rolls snapshotName t -> planObject bs t.
Proof. intros Hin (cro & ro & Ht). split; [done|]. rewrite Ht. intros d [= <-]. by split_and!. Qed.

Lemma classified_objects {K : K8sLib} cutOff snapshotName bs c :
  classified cutOff snapshotName bs c ->
  Forall (planObject bs) (boundingCandidates c ++ removeCandidates c ++ updateCandidates c ++
    applyFailedUpdateCandidates c ++ upToDateBoundBindings c).
Proof.
  intros Hc. pose proof (cl_rolls _ _ _ _ Hc) as Hr. pose proof (cl_current _ _ _ _ Hc) as Hcur.
  assert (forall t, t ∈ updateCandidates c ++ applyFailedUpdateCandidates c ++ upToDateBoundBindings c ->
    currentBinding t ∈ bs) as Hb.
  { intros t Ht%(list_elem_of_fmap_2 currentBinding). rewrite (cl_bound _ _ _ _ Hc) in Ht.
    by apply elem_of_filterb in Ht as [_ ?]. }
  rewrite !Forall_app, !Forall_forall in *. destruct Hr as (Hr1 & Hr2 & Hr3). split_and!.
  - intros t Ht. eapply rolls_object; [|by apply Hr1]. apply (list_elem_of_fmap_2 currentBinding) in Ht.
    rewrite (cl_bounding _ _ _ _ Hc) in Ht. by apply elem_of_filterb in Ht as [_ ?].
  - intros t Ht. rewrite (cl_remove _ _ _ _ Hc) in Ht.
    apply list_elem_of_fmap in Ht as (b & -> & [_ Hin]%elem_of_filterb). by split.
  - intros t Ht. eapply rolls_object; [|by apply Hr2]. apply Hb. set_solver.
  - intros t Ht. eapply rolls_object; [|by apply Hr3]. apply Hb. set_solver.
  - intros t Ht. split; [apply Hb; set_solver|]. destruct (Hcur t Ht) as [_ ->]. done.
Qed.

Section Reconciliation.
Context {K : K8sLib} {W : Type} {C : HubClient W} {HL : HubLaws W} {R : SnapshotReader W}.
Context {P : PlacementReader W} {RC : RolloutClient W}.
Context {RL : RolloutLaws W} {M : ManifestLib}.
Variable now : Z.
Variable mapOrder : forall A : Type, list (string * A) -> list (string * A).
Variables (ns name : string) (bs : list BindingObj).
Hypothesis keys : NoDup (object_key <$> bs).

Let I (w : W) : Prop := tracked ns name bs [] (hub_bindings w).

Lemma evolves_tracked {A} (m : hub W A) :
  (forall w, evolves (hub_bindings w) (hub_bindings (m w).1)) -> preserves I m.
Proof. intros Hm w Hw. eapply tracked_evolves; [apply Hm|done]. Qed.

Lemma pick_objects snapshotName placement cros ros w w' plan :
  pickBindingsToRoll now bs snapshotName placement cros ros w = (w', Ok plan) ->
  Forall (planObject bs) (plan_toBeUpdated plan ++ plan_stale plan ++ plan_upToDate plan).
Proof.
  unfold pickBindingsToRoll. destruct (rs_RollingUpdate _) as [ru|]; [|done].
  destruct (ru_UnavailablePeriodSeconds ru) as [seconds|]; [|done]. unfold hbind, hlift.
  destruct (hfold _ _ bs w) as [w1 [c| |]] eqn:Hf; [|done|done].
  apply (classified_fold _ _ _ _ _ []) in Hf; [|by split]. cbn [app] in Hf. intros [= _ Hp].
  apply classified_objects in Hf. rewrite !Forall_app in Hf. destruct Hf as (H1 & H2 & H3 & H4 & H5).
  unfold planRollout in Hp. apply obind_Ok in Hp as (T & _ & Hp).
  destruct (_ =? 0)%nat; [by injection Hp as <-|].
  destruct (determineBindingsToUpdate ru c T) as [sel stale] eqn:Hd. injection Hp as <-.
  unfold determineBindingsToUpdate in Hd. injection Hd as <- <-. cbn. rewrite !Forall_app.
  split_and!; auto using Forall_take, Forall_drop.
Qed.

Lemma updateBindingStatus_tracked b started x :
  x ∈ bs -> resembles x b -> preserves_call I (updateBindingStatus now b started).
Proof.
  intros Hx Hr w Hw. unfold updateBindingStatus.
  pose proof (update_status_touches (SetConditions now
    [rolloutStartedCondition started (meta_generation (b_meta b))] b) w) as Hto.
  destruct (hub_update_binding_status _ w) as [w1 [b1 e]]. cbn [fst] in *.
  eapply tracked_touches; [exact keys|exact Hx| |exact Hto|exact Hw]. exact Hr.
Qed.

Lemma rollBinding_tracked d x : x ∈ bs -> resembles x d -> preserves_call I (rollBinding now d).
Proof.
  intros Hx Hr w Hw. unfold rollBinding. pose proof (update_touches d w) as Hto.
  pose proof (update_refreshes d w) as Href. destruct (hub_update_binding d w) as [w1 [d1 e]]. cbn [fst snd] in *.
  specialize (Href d1 e eq_refl).
  assert (I w1) as Hw1 by (by eapply tracked_touches).
  destruct e as [e|]; [done|]. eapply updateBindingStatus_tracked; [exact Hx| |exact Hw1].
  by eapply resembles_trans.
Qed.

Lemma removeBinding_tracked b : preserves_call I (removeBinding b).
Proof.
  intros w Hw. unfold removeBinding. pose proof (delete_evolves b w) as Hd.
  destruct (hub_delete_binding b w) as [w1 e]. cbn in *. by eapply tracked_evolves.
Qed.

Lemma pushApplyStrategy_tracked strategy b : b ∈ bs -> preserves_call I (pushApplyStrategy strategy b).
Proof.
  intros Hb w Hw. unfold pushApplyStrategy. pose proof (merge_touches b (withApplyStrategy strategy b) w) as Hto.
  destruct (hub_merge_binding _ _ w) as [w1 e]. cbn in *.
  eapply tracked_touches; [exact keys|exact Hb|by split_and!|exact Hto|exact Hw].
Qed.

(** A group of tasks, one or none for each element of a list. *)
Lemma group_tracked {A} (tasks : A -> list (W -> W * option goerr)) (l : list A) :
  (forall x, x ∈ l -> Forall (preserves_call I) (tasks x)) -> preserves I (herr (run_group (l ≫= tasks))).
Proof.
  intros Ht. apply preserves_herr, preserves_group, Forall_forall. intros t (x & Htx & Hx)%list_elem_of_bind.
  specialize (Ht x Hx). rewrite Forall_forall in Ht. auto.
Qed.

Lemma map_group_tracked {A} (task : A -> W -> W * option goerr) (l : list A) :
  (forall x, x ∈ l -> preserves_call I (task x)) -> preserves I (herr (run_group (task <$> l))).
Proof. intros Ht. apply preserves_herr, preserves_group, Forall_fmap, Forall_forall. exact Ht. Qed.

Lemma updateBindings_preserves plan :
  Forall (planObject bs) plan -> preserves I (updateBindings now plan).
Proof.
  intros Hp. apply group_tracked. rewrite Forall_forall in Hp. intros t Ht. destruct (Hp t Ht) as [Hin Hd].
  unfold updateTask. destruct (decide _).
  - destruct (desiredBinding t) as [d|]; [|done]. constructor; [|done]. eauto using rollBinding_tracked.
  - destruct (decide _); [|done]. constructor; [apply removeBinding_tracked|done].
Qed.

Lemma status_preserves (f : toBeUpdatedBinding -> bool) plan :
  Forall (planObject bs) plan ->
  preserves I (herr (run_group ((fun t => updateBindingStatus now (currentBinding t) (f t)) <$> plan))).
Proof.
  intros Hp. apply map_group_tracked. rewrite Forall_forall in Hp. intros t Ht. destruct (Hp t Ht) as [Hin _].
  eapply updateBindingStatus_tracked; [exact Hin|apply resembles_refl].
Qed.

Lemma preserves_bind_run {A B} (f : A -> hub W B) (m : hub W A) :
  preserves I m -> (forall w w' a, m w = (w', Ok a) -> preserves I (f a)) -> preserves I (hbind f m).
Proof.
  intros Hm Hf w Hw. unfold hbind. specialize (Hm w Hw). specialize (Hf w).
  destruct (m w) as [w' [a|e|p]]; cbn in *; [by eapply Hf|done|done].
Qed.

Lemma preserves_hfold {A S} (f : S -> A -> hub W S) s xs :
  (forall s x, preserves I (f s x)) -> preserves I (hfold f s xs).
Proof.
  intros Hf. revert s. induction xs as [|x xs IH]; intros s; cbn; [apply preserves_ret|].
  apply preserves_bind; [apply Hf|apply IH].
Qed.

Lemma listSnapshots_tracked n ls f : preserves I (hmap_err f (hub_list_resource_snapshots n ls)).
Proof. apply preserves_map_err, evolves_tracked. intros w. apply list_snapshots_evolves. Qed.

Lemma pickOverrides_tracked target cros ros :
  preserves I (PickFromResourceMatchedOverridesForTargetCluster target cros ros).
Proof.
  unfold PickFromResourceMatchedOverridesForTargetCluster.
  assert (preserves I (let* cluster := hmap_err getClusterError (hub_get_cluster target) in
    hlift (pickForCluster cluster cros ros))) as Hget.
  { apply preserves_bind; [|intros c; apply preserves_lift].
    apply preserves_map_err, evolves_tracked. intros w. apply get_cluster_evolves. }
  destruct cros, ros; [apply preserves_ret|done..].
Qed.

Lemma classify_tracked cutOff snapshotName cros ros c b :
  preserves I (classifyForRollout cutOff snapshotName cros ros c b).
Proof.
  unfold classifyForRollout.
  destruct (decide _); [apply preserves_ret|]. destruct (decide _).
  { apply preserves_bind; [apply pickOverrides_tracked|intros []; apply preserves_ret]. }
  destruct (decide _); [|apply preserves_ret].
  apply preserves_bind; [|intros []; apply preserves_ret].
  destruct (b_deleting b); [apply preserves_ret|apply pickOverrides_tracked].
Qed.

Lemma pickBindings_tracked snapshotName placement cros ros :
  preserves I (pickBindingsToRoll now bs snapshotName placement cros ros).
Proof.
  unfold pickBindingsToRoll. destruct (rs_RollingUpdate _) as [ru|]; [|apply preserves_lift].
  destruct (ru_UnavailablePeriodSeconds ru); [|apply preserves_lift].
  apply preserves_bind; [apply preserves_hfold, classify_tracked|intros c; apply preserves_lift].
Qed.

Lemma fetchMaster_tracked key : preserves I (FetchLatestMasterResourceSnapshot key).
Proof.
  unfold FetchLatestMasterResourceSnapshot. destruct key as [n k].
  apply preserves_bind; [apply listSnapshots_tracked|].
  intros [|s l]; [apply preserves_ret|]. destruct (list_find _ _) as [[? ?]|]; [apply preserves_ret|apply preserves_lift].
Qed.

Lemma fetchSnapshots_tracked key master : preserves I (FetchAllResourceSnapshotsAlongWithMaster key master).
Proof.
  unfold FetchAllResourceSnapshotsAlongWithMaster. destruct (Atoi _) as [count|e|p]; [|apply preserves_lift..].
  destruct (count <? 1)%Z; [apply preserves_lift|]. apply preserves_bind.
  - destruct (1 <? count)%Z; [|apply preserves_ret].
    apply preserves_bind; [apply preserves_map_err, preserves_lift|intros i].
    apply preserves_bind; [apply preserves_lift|intros [n k]].
    apply preserves_bind; [apply preserves_map_err, listSnapshots_tracked|intros l; apply preserves_ret].
  - intros m. destruct (_ =? count)%Z; [apply preserves_ret|apply preserves_lift].
Qed.

Lemma fetchOverrides_tracked key master :
  preserves I (FetchAllMatchingOverridesForResourceSnapshot mapOrder key master).
Proof.
  unfold FetchAllMatchingOverridesForResourceSnapshot. 
  apply preserves_bind; [apply evolves_tracked; intros w; apply list_cros_evolves|intros cros].
  apply preserves_bind; [apply evolves_tracked; intros w; apply list_ros_evolves|intros ros].
  assert (preserves I (matchOverrides mapOrder key master cros ros)) as Hm.
  { apply preserves_bind; [apply fetchSnapshots_tracked|intros m].
    apply preserves_bind; [apply preserves_lift|intros [pc pr]; apply preserves_ret]. }
  destruct cros, ros; [apply preserves_ret|done..].
Qed.

Lemma applyStrategy_tracked placement : preserves I (processApplyStrategyUpdates placement bs).
Proof.
  apply preserves_bind; [|intros; apply preserves_ret]. apply map_group_tracked.
  intros b [_ Hb]%list_elem_of_filter. by apply pushApplyStrategy_tracked.
Qed.

Lemma reconcileBindings_tracked key placement : preserves I (reconcileBindings now mapOrder key placement bs).
Proof.
  unfold reconcileBindings. apply preserves_bind; [apply applyStrategy_tracked|intros [|]; [apply preserves_ret|]].
  apply preserves_bind; [apply preserves_lift|intros [|]; [apply preserves_ret|]].
  apply preserves_bind; [apply fetchMaster_tracked|intros [master|]; [|apply preserves_ret]].
  apply preserves_bind; [apply fetchOverrides_tracked|intros [cros ros]].
  apply preserves_bind_run; [apply pickBindings_tracked|intros w w' plan Hplan%pick_objects].
  rewrite !Forall_app in Hplan. destruct Hplan as (Hsel & Hstale & Hcur).
  destruct (negb _); (apply preserves_bind; [|intros _]).
  - apply map_group_tracked. intros b [_ Hb]%list_elem_of_filter.
    eapply updateBindingStatus_tracked; [exact Hb|apply resembles_refl].
  - apply preserves_ret.
  - apply (status_preserves (fun _ => false)). rewrite Forall_forall in *.
    intros t [_ Ht]%list_elem_of_filter. auto.
  - apply preserves_bind; [by apply (status_preserves (fun _ => true))|intros _].
    apply preserves_bind; [by apply updateBindings_preserves|intros _; apply preserves_ret].
Qed.

End Reconciliation.

(** C2: a reconciliation of the rollout controller never leaves a placement
    with two live bindings on one cluster, when it had at most one before:
    whatever is rolled, removed or waited for, whichever calls fail or take
    effect without an answer, and whatever other controllers do meanwhile
    short of creating, moving or reviving bindings. *)
Theorem rollout_unique_live {K : K8sLib} {W : Type} {C : HubClient W} {HL : HubLaws W} {R : SnapshotReader W}
    {P : PlacementReader W} {RC : RolloutClient W} {RL : RolloutLaws W} {M : ManifestLib} now mapOrder ns name (w : W) :
  unique_live ns name (hub_bindings w) ->
  unique_live ns name (hub_bindings (Reconcile now mapOrder (ns, name) w).1).
Proof.
  intros Hu. unfold Reconcile.
  assert (evolves (hub_bindings w) (hub_bindings (fetchPlacement (ns, name) w).1)) as Hev.
  { unfold fetchPlacement, FetchPlacementFromKey, hbind, hlift. cbn [fst snd].
    destruct (ExtractNamespaceNameFromKeyStr _) as [[n k]|e|p]; [|apply evolves_refl..].
    pose proof (get_placement_evolves n k w) as H. by destruct (hub_get_placement n k w) as [w1 [p|e|p]]. }
  assert (unique_live ns name (hub_bindings (fetchPlacement (ns, name) w).1)) as Hu1
    by (by eapply unique_live_evolves).
  apply (hbind_world (fun w => unique_live ns name (hub_bindings w))); [done|]. intros found _.
  destruct found as [placement|]; [|done]. destruct (being_deleted _); [done|]. cbn zeta.
  destruct (decide _); [done|]. set (w1 := (fetchPlacement (ns, name) w).1) in *.
  apply (hbind_world (fun w => unique_live ns name (hub_bindings w))).
  { destruct (ListBindingsFromKey_run ns name false w1) as [-> _].
    eapply unique_live_evolves; [apply list_bindings_evolves|done]. }
  intros bs Hbs. destruct (listing_accurate ns name false w1 bs Hu1 Hbs) as [[Hk Huq Htr] _].
  apply (accurate_unique_live ns name bs). split; [done|done|]. by apply reconcileBindings_tracked.
Qed.

(** ** Events that are missed *)

Lemma EqualCondition_refl c : EqualCondition c c = true.
Proof. destruct c as [c|]; cbn; [|done]. rewrite !bool_decide_true by done. by apply Z.leb_le. Qed.

(** the handler of binding updates is called with the new object in the
    place of the old one.  When only the observed generation of the Available
    condition moves forward, which is how a binding becomes ready after a
    change of its spec, the placement is not enqueued; with the arguments in
    the order of the parameters it would be. *)
Theorem refreshed_condition_missed {K : K8sLib} old new c c' :
  meta_generation (b_meta new) = meta_generation (b_meta old) ->
  GetCondition new ResourceBindingDiffReported = GetCondition old ResourceBindingDiffReported ->
  GetCondition old ResourceBindingAvailable = Some c -> GetCondition new ResourceBindingAvailable = Some c' ->
  cond_type c' = cond_type c -> cond_status c' = cond_status c -> cond_reason c' = cond_reason c ->
  (cond_observed_generation c < cond_observed_generation c')%Z ->
  bindingUpdateFunc (Some old) (Some new) = None /\
  handleBindingUpdated (Some old) (Some new) = enqueueBinding new.
Proof.
  intros Hg Hdiff Hc Hc' Ht Hst Hr Hlt. unfold bindingUpdateFunc, handleBindingUpdated, conditionsToMonitor.
  cbn [existsb]. rewrite Hg, Hdiff, Hc, Hc', EqualCondition_refl, Z.eqb_refl. unfold EqualCondition.
  rewrite Ht, Hst, Hr, !bool_decide_true by done. cbn [negb andb orb].
  split; [by rewrite (proj2 (Z.leb_le _ _)) by lia|by rewrite (proj2 (Z.leb_gt _ _)) by lia].
Qed.

(** ** The order of a map decides *)

Definition ex_target (bname target state : string) (deletion : option Z) : BindingObj :=
  let b := Sample.binding bname target "web-0" state in
  set_b_meta (mkObjectMeta bname EmptyString {[PlacementTrackingLabel := "web"]} ∅ [] deletion 1 1) b.

(** when one cluster has to be waited for and another one is in an
    unexpected state, the order in which Go iterates over a map decides
    whether the rollout waits or fails. *)
Theorem cleanup_order_dependent :
  exists bs order1 order2,
    (forall A (l : list (string * A)), order1 A l ≡ₚ l) /\ (forall A (l : list (string * A)), order2 A l ≡ₚ l) /\
    NoDup (targets bs) /\
    waitForResourcesToCleanUp order1 bs = Ok true /\ is_ok (waitForResourcesToCleanUp order2 bs) = false.
Proof.
  exists [ex_target "b1" "a" BindingStateScheduled None; ex_target "b2" "a" BindingStateUnscheduled (Some 0%Z);
    ex_target "b3" "b" BindingStateBound None; ex_target "b4" "b" BindingStateUnscheduled (Some 0%Z)].
  exists Static.in_order, Static.backwards. split_and!; [done| |by_decide|by_evaluation|by_evaluation].
  intros A l. apply reverse_Permutation.
Qed.
