(* ===== verification/RolloutExamples.v ===== *)
(** * A rollout to evaluate

    The theorems of [RolloutProofs.v] on a hub in memory: [Mem] for the
    bindings, [Static] for the objects that are only read.  The placement
    wants three clusters and allows one to be missing and one above: of two
    bound bindings with an old snapshot, one scheduled and one unscheduled
    binding, a round removes the unscheduled one and binds the scheduled one,
    and leaves the other two for later. *)

From stdpp Require Import prelude gmap strings.
From S2P Require Import Prelude K8s Api Sample Utils Defaulter FrameworkUtils Hub Overrider.
From S2P Require Import Safety Rollout RolloutProofs.

Local Open Scope string_scope.
Local Open Scope list_scope.

Import RefLib.

(** ** The hub *)

Notation world := (Mem.mem * Static.objects)%type.

Import Beside.

(** A merge patch keeps what the base and the modified object agree on. *)
Definition merged {A} `{EqDecision A} (base upd st : A) : A := if decide (base = upd) then st else upd.

Definition merge_spec (base upd st : ResourceBindingSpec) : ResourceBindingSpec :=
  mkBindingSpec (merged (rbs_State base) (rbs_State upd) (rbs_State st))
    (merged (rbs_ResourceSnapshotName base) (rbs_ResourceSnapshotName upd) (rbs_ResourceSnapshotName st))
    (merged (rbs_ResourceOverrideSnapshots base) (rbs_ResourceOverrideSnapshots upd) (rbs_ResourceOverrideSnapshots st))
    (merged (rbs_ClusterResourceOverrideSnapshots base) (rbs_ClusterResourceOverrideSnapshots upd)
       (rbs_ClusterResourceOverrideSnapshots st))
    (merged (rbs_SchedulingPolicySnapshotName base) (rbs_SchedulingPolicySnapshotName upd)
       (rbs_SchedulingPolicySnapshotName st))
    (merged (rbs_TargetCluster base) (rbs_TargetCluster upd) (rbs_TargetCluster st))
    (merged (rbs_ClusterDecision base) (rbs_ClusterDecision upd) (rbs_ClusterDecision st))
    (merged (rbs_ApplyStrategy base) (rbs_ApplyStrategy upd) (rbs_ApplyStrategy st)).

Definition merge (base upd : BindingObj) (w : Mem.mem) : Mem.mem * option goerr :=
  match Mem.stored w !! object_key upd with
  | None => (w, Some (Mem.api_error NotFound))
  | Some b0 => (Mem.replace b0 (set_b_spec (merge_spec (b_spec base) (b_spec upd) (b_spec b0)) b0) w, None)
  end.

#[global] Instance world_placements : PlacementReader world := {
  hub_get_placement ns name w :=
    (w, match list_find (fun p => meta_namespace (pl_meta p) = ns /\ meta_name (pl_meta p) = name)
            (Static.st_placements w.2) with
        | Some (_, p) => Ok p
        | None => Err (ErrAPI NotFound name)
        end);
}.

#[global] Instance world_rollout : RolloutClient world := {
  hub_merge_binding base upd := beside (Mem.with_fault (merge base upd));
}.

Lemma merge_touches_stored base upd w : touches upd (Mem.stored w) (Mem.stored (merge base upd w).1).
Proof.
  unfold merge. destruct (Mem.stored w !! object_key upd) as [b0|] eqn:Hb0; [|by apply Mem.evolves_touches, evolves_refl].
  apply Mem.replace_touches; [done|exact (Mem.stored_lookup _ _ _ Hb0)| |by left].
  unfold b_target, merged. cbn. unfold merged. destruct (decide _); [by left|by right].
Qed.

#[global] Instance world_rollout_laws : RolloutLaws world.
Proof.
  split; try (intros; apply evolves_refl).
  intros b b' w. cbn. rewrite beside_1. apply (Mem.with_fault_stored (touches b')).
  - intros. apply Mem.evolves_touches, evolves_refl.
  - apply merge_touches_stored.
Qed.

(** ** The rollout *)

Definition ex_conditions : list Condition :=
  [mkCondition ResourceBindingAvailable ConditionTrue 1 0 "AllWorkAreAvailable" EmptyString].

Definition ex_bound (bname target state snapshot : string) (conds : list Condition) : BindingObj :=
  let b := ex_target bname target state None in
  set_b_conditions conds (set_b_spec (mkBindingSpec state snapshot [] [] "web-0" target
    (Sample.decision target) (Some (Defaulter.SetDefaultsApplyStrategy Defaulter.emptyApplyStrategy))) b).

Definition ex_bindings : list BindingObj :=
  [ex_bound "b1" "a" BindingStateBound "web-0-snapshot" ex_conditions;
   ex_bound "b2" "b" BindingStateBound "web-0-snapshot" ex_conditions;
   ex_bound "b3" "c" BindingStateScheduled "" [];
   ex_bound "b4" "d" BindingStateUnscheduled "web-0-snapshot" ex_conditions].

Definition ex_rollingUpdate : RollingUpdateConfig := mkRollingUpdate (Some (FromInt 1)) (Some (FromInt 1)) (Some 60%Z).

Definition ex_placement : PlacementObj :=
  mkPlacement (Sample.metadata "web")
    (mkPlacementSpec [] (Some (mkPolicy PickNPlacementType [] (Some 3%Z) None [] []))
       (mkRolloutStrategy RollingUpdateRolloutStrategyType (Some ex_rollingUpdate) None None None)
       (Some 10%Z) EmptyString).

Definition ex_rollout_world (faults : list Mem.fault) : world :=
  (Mem.mkMem (list_to_map ((fun b => (object_key b, b)) <$> ex_bindings)) [] None faults,
   Static.mkObjects [] [Static.ex_snapshot "web-1-snapshot"
     (<[ResourceGroupHashAnnotation := "81bc"]> {[NumberOfResourceSnapshotsAnnotation := "1"]}) []] [] []
     [ex_placement]).

Definition ex_pick : world * outcome rollPlan :=
  pickBindingsToRoll (K := RefLib.ref_lib) 0 ex_bindings "web-1-snapshot" ex_placement [] [] (ex_rollout_world []).

(** What the round does: names of the rolled and removed, of the stale and of
    the up-to-date bindings. *)
Definition ex_names (plan : rollPlan) : list string * list string * list string :=
  let names l := (fun t => b_name (currentBinding t)) <$> l in
  (names (plan_toBeUpdated plan), names (plan_stale plan), names (plan_upToDate plan)).

Definition ex_plan : rollPlan :=
  match ex_pick.2 with Ok p => p | _ => mkRollPlan [] [] [] false 0 end.

Lemma ex_pick_plan : ex_pick = (ex_rollout_world [], Ok ex_plan).
Proof. by_evaluation. Qed.

Lemma ex_plan_names : ex_names ex_plan = (["b4"; "b3"], ["b1"; "b2"], []).
Proof. by_evaluation. Qed.

(** ** The theorems on it *)

Definition ex_cutOff : Z := readyCutOff 0 60.

Lemma rollout_keeps_available_witness :
  (Z.min (llen (filterb (available ex_cutOff) ex_bindings)) (3 - scaledOrZero (ru_MaxUnavailable ex_rollingUpdate) 3) <=
   llen (filterb (fun b => available ex_cutOff b && negb (selectedBy ex_plan b)) ex_bindings))%Z.
Proof.
  apply (rollout_keeps_available 0 60 "web-1-snapshot" ex_placement ex_rollingUpdate 3 ex_bindings [] [] ex_plan
    (ex_rollout_world []) (ex_rollout_world [])).
  - by_decide.
  - reflexivity.
  - reflexivity.
  - by_evaluation.
  - intros b Hb _. revert b Hb. apply Forall_forall. by_decide.
  - exact ex_pick_plan.
Defined.

Lemma rollout_bounds_surge_witness :
  (llen (filterb mayBeReady ex_bindings) +
     llen (filterb (fun b => in_state BindingStateScheduled b && selectedBy ex_plan b) ex_bindings) <=
   Z.max (llen (filterb mayBeReady ex_bindings)) (3 + scaledOrZero (ru_MaxSurge ex_rollingUpdate) 3))%Z.
Proof.
  apply (rollout_bounds_surge 0 60 "web-1-snapshot" ex_placement ex_rollingUpdate 3 ex_bindings [] [] ex_plan
    (ex_rollout_world []) (ex_rollout_world [])).
  - by_decide.
  - reflexivity.
  - reflexivity.
  - by_evaluation.
  - exact ex_pick_plan.
Defined.

Lemma rollout_accounts_witness :
  exists waiting,
    (currentBinding <$> plan_toBeUpdated ex_plan ++ plan_stale ex_plan ++ plan_upToDate ex_plan) ++ waiting
      ≡ₚ filterb live ex_bindings.
Proof.
  destruct (rollout_accounts 0 60 "web-1-snapshot" ex_placement ex_rollingUpdate 3 ex_bindings [] [] ex_plan
    (ex_rollout_world []) (ex_rollout_world [])) as (waiting & H & _).
  - reflexivity.
  - reflexivity.
  - by_evaluation.
  - exact ex_pick_plan.
  - exists waiting. exact H.
Defined.


Lemma cleanup_check_witness :
  waitForResourcesToCleanUp Static.in_order ex_bindings = Ok false /\ forall b, ~ blocked ex_bindings b.
Proof.
  assert (waitForResourcesToCleanUp Static.in_order ex_bindings = Ok false) as E by by_evaluation.
  split; [exact E|].
  pose proof (cleanup_check ex_bindings Static.in_order ltac:(by_decide) (fun A l => reflexivity l)) as H.
  rewrite E in H. exact H.
Defined.

Lemma apply_strategy_first_witness :
  Forall (fun b => b_deleting b = false ->
    rbs_ApplyStrategy (b_spec b) = Some (placementApplyStrategy ex_placement)) ex_bindings.
Proof.
  apply Forall_forall.
  apply (apply_strategy_first ex_placement ex_bindings (ex_rollout_world []) (ex_rollout_world [])).
  by_evaluation.
Defined.

(** A binding whose spec has changed becomes ready. *)
Definition ex_refreshed (observed : Z) : BindingObj :=
  set_b_conditions [mkCondition ResourceBindingAvailable ConditionTrue observed 0 "AllWorkAreAvailable" EmptyString]
    (ex_bound "b1" "a" BindingStateBound "web-0-snapshot" []).

Lemma refreshed_condition_missed_witness :
  (isBindingReady (ex_refreshed 0) 0).2 = false /\ (isBindingReady (ex_refreshed 1) 0).2 = true /\
  bindingUpdateFunc (Some (ex_refreshed 0)) (Some (ex_refreshed 1)) = None /\
  handleBindingUpdated (Some (ex_refreshed 0)) (Some (ex_refreshed 1)) = enqueueBinding (ex_refreshed 1).
Proof.
  split; [by_evaluation|]. split; [by_evaluation|].
  eapply refreshed_condition_missed; reflexivity.
Defined.

(** The removal is answered with a timeout although it took effect. *)
Definition ex_lost_answer : list Mem.fault := [Mem.NoFault; Mem.NoFault; Mem.LostAnswer ServerTimeout].

Definition ex_reconcile : world * outcome Result :=
  Reconcile (K := RefLib.ref_lib) 0 Static.in_order ("", "web") (ex_rollout_world ex_lost_answer).

Lemma ex_rollout_stored faults :
  map_to_list (Mem.stored (ex_rollout_world faults).1) ≡ₚ (fun b => (object_key b, b)) <$> ex_bindings.
Proof. change (Mem.stored (ex_rollout_world faults).1) with (Mem.stored (ex_rollout_world []).1). by_decide. Qed.

Lemma ex_rollout_unique faults : unique_live "" "web" (Mem.stored (ex_rollout_world faults).1).
Proof.
  intros k1 k2 b1 b2 H1 _ _ H2 _ _ Ht. apply elem_of_map_to_list in H1, H2.
  rewrite ex_rollout_stored in H1, H2.
  apply list_elem_of_fmap in H1 as (x1 & [= -> ->] & H1). apply list_elem_of_fmap in H2 as (x2 & [= -> ->] & H2).
  f_equal. eapply (NoDup_fmap_eq b_target ex_bindings); [by_decide|done..].
Qed.

Lemma rollout_unique_live_witness :
  unique_live "" "web" (hub_bindings ex_reconcile.1) /\
  (fun b => (b_target b, b_state b)) <$> (map_to_list (Mem.stored ex_reconcile.1.1)).*2 ≡ₚ
    [("a", BindingStateBound); ("b", BindingStateBound); ("c", BindingStateBound)].
Proof.
  split; [|by_decide].
  exact (@rollout_unique_live RefLib.ref_lib world hub_beside laws_beside (Static.static_reader Mem.mem) world_placements world_rollout
    world_rollout_laws Static.slash_manifests 0 Static.in_order "" "web" (ex_rollout_world ex_lost_answer)
    (ex_rollout_unique ex_lost_answer)).
Defined.
