(* ===== verification/SchedulerProfile.v ===== *)
(** * The profile the scheduler runs

    Models [pkg/scheduler/profile/profile.go]: the default profile assembles
    the plugins of the development.  The theorems compose what the plugins
    and the framework guarantee: a cycle with this profile keeps a placement
    from having two live bindings on one cluster, and a PickAll cycle picks
    exactly the clusters that meet every requirement of the policy. *)

From stdpp Require Import prelude gmap strings sorting.
From S2P Require Import Prelude K8s Api Sample Utils Score CycleState Plugins.
From S2P Require Import ClusterAffinity TopologySpread FrameworkUtils FrameworkUtilsProofs Hub Framework Safety.

Local Open Scope string_scope.
Local Open Scope list_scope.

(** What the plugins keep in the store of a cycle. *)
Inductive pluginValue : Type :=
| AffinityState (s : ClusterAffinityPlugin.pluginState)
| SpreadState (s : TopologySpread.pluginState).

#[global] Instance affinity_cast : StateCast ClusterAffinityPlugin.pluginState pluginValue := {
  inject := AffinityState;
  cast v := match v with AffinityState s => Some s | _ => None end;
  cast_inject s := eq_refl;
}.

#[global] Instance spread_cast : StateCast TopologySpread.pluginState pluginValue := {
  inject := SpreadState;
  cast v := match v with SpreadState s => Some s | _ => None end;
  cast_inject s := eq_refl;
}.

Definition defaultProfileName : string := "DefaultProfile".

Section Profile.
Context {K : K8sLib}.
Variable checker : Eligibility.ClusterEligibilityChecker.
Variable now : Z.

(** The option is the name of another cluster affinity plugin. *)
Definition NewProfile (affinityPluginName : option string) : Profile pluginValue :=
  let affinity := default ClusterAffinityPlugin.defaultName affinityPluginName in
  let eligibility := Eligibility.defaultPluginName in
  let namespaceAffinity := NamespaceAffinity.defaultName in
  let samePlacement := SamePlacementAffinity.defaultName in
  let spread := TopologySpread.defaultPluginName in
  let taint := TaintToleration.defaultName in
  mkProfile defaultProfileName
    [mkPostBatchPlugin spread (TopologySpread.PostBatch spread)]
    [mkPreFilterPlugin affinity (ClusterAffinityPlugin.PreFilter affinity);
     mkPreFilterPlugin namespaceAffinity (NamespaceAffinity.PreFilter namespaceAffinity);
     mkPreFilterPlugin spread (TopologySpread.PreFilter spread)]
    [mkFilterPlugin affinity (ClusterAffinityPlugin.Filter affinity);
     mkFilterPlugin eligibility (Eligibility.Filter checker now eligibility);
     mkFilterPlugin namespaceAffinity (NamespaceAffinity.Filter namespaceAffinity);
     mkFilterPlugin taint (TaintToleration.Filter taint);
     mkFilterPlugin samePlacement (SamePlacementAffinity.Filter samePlacement);
     mkFilterPlugin spread (TopologySpread.Filter spread)]
    [mkPreScorePlugin affinity (ClusterAffinityPlugin.PreScore affinity);
     mkPreScorePlugin spread (TopologySpread.PreScore spread)]
    [mkScorePlugin affinity (ClusterAffinityPlugin.Score affinity);
     mkScorePlugin samePlacement (SamePlacementAffinity.Score samePlacement);
     mkScorePlugin spread (TopologySpread.Score spread)].

Definition NewDefaultProfile : Profile pluginValue := NewProfile None.

(** ** The profile is safe *)

Lemma affinity_keeps name (state state' : CycleState pluginValue) policy status :
  ClusterAffinityPlugin.PreFilter name state policy = Ok (state', status) -> state' = state.
Proof. unfold ClusterAffinityPlugin.PreFilter. repeat case_match; congruence. Qed.

Lemma namespace_keeps name (state state' : CycleState pluginValue) policy status :
  NamespaceAffinity.PreFilter name state policy = Ok (state', status) -> state' = state.
Proof. unfold NamespaceAffinity.PreFilter. repeat case_match; congruence. Qed.

Lemma spread_keeps name (state state' : CycleState pluginValue) policy status :
  TopologySpread.PreFilter name state policy = Ok (state', status) ->
  exists m, state' = set_store m state.
Proof.
  unfold TopologySpread.PreFilter. intros H. repeat case_match; try done; injection H as <- _;
    first [by eexists|exists (store state); by destruct state].
Qed.

#[global] Instance NewDefaultProfile_safe : SafeProfile NewDefaultProfile.
Proof.
  split.
  - intros pl state policy state' status Hpl H. cbn in Hpl. rewrite !elem_of_cons in Hpl.
    destruct Hpl as [->|[->|[->|Hpl%not_elem_of_nil]]]; [..|done]; cbn in H.
    + by apply affinity_keeps in H as ->.
    + by apply namespace_keeps in H as ->.
    + by apply spread_keeps in H as [m ->].
  - exists (mkFilterPlugin SamePlacementAffinity.defaultName
      (SamePlacementAffinity.Filter SamePlacementAffinity.defaultName)).
    split_and!; [cbn; rewrite !elem_of_cons; tauto|by_decide|].
    intros state policy c status Hsel. cbn. unfold SamePlacementAffinity.Filter. rewrite Hsel. by intros [= <-].
  - exists (mkFilterPlugin Eligibility.defaultPluginName
      (Eligibility.Filter checker now Eligibility.defaultPluginName)).
    split_and!; [cbn; rewrite !elem_of_cons; tauto|by_decide|].
    intros state policy c status Hdel. cbn. unfold Eligibility.Filter, Eligibility.IsEligible.
    rewrite Hdel. by intros [= <-].
Qed.

End Profile.


(** ** A cycle to evaluate

    Three clusters.  One has an obsolete binding, one an unscheduled binding
    that was bound before, and one no binding.  The first create is answered
    with a timeout although it took effect. *)

Definition ex_binding (name target state : string) (annotations : gmap string string) : BindingObj :=
  set_b_meta (set_meta_annotations annotations
      (Sample.labelled name {[PlacementTrackingLabel := "placement"]}))
    (Sample.binding name target "placement-0" state).

Definition ex_mem (faults : list Mem.fault) : Mem.mem :=
  Mem.mkMem
    {[("", "b1") := ex_binding "b1" "a" BindingStateBound ∅;
      ("", "b2") := ex_binding "b2" "b" BindingStateUnscheduled
        {[PreviousBindingStateAnnotation := BindingStateBound]}]}
    [Sample.cluster "a" ∅ 0; Sample.cluster "b" ∅ 0; Sample.cluster "c" ∅ 0] None faults.

Definition ex_active (annotations : gmap string string) (p : option PlacementPolicy) : PolicySnapshotObj :=
  mkPolicySnapshot (set_meta_annotations annotations (Sample.metadata "placement-1"))
    (mkSnapshotSpec p EmptyString) (mkSnapshotStatus 0 [] []).

Definition ex_cycle (faults : list Mem.fault) : Mem.mem * outcome bool :=
  @RunSchedulingCycleFor RefLib.ref_lib Mem.mem _ _
    (@NewDefaultProfile RefLib.ref_lib (Eligibility.New []) 0) (Eligibility.New []) 20 0 ex_uuid (fun cs => cs)
    "placement" (ex_active {[CRPGenerationAnnotation := "1"]} None) (ex_mem faults).

Definition ex_faults : list Mem.fault := [Mem.LostAnswer ServerTimeout].

Lemma ex_stored faults :
  map_to_list (Mem.stored (ex_mem faults)) ≡ₚ
  [(("", "b1"), ex_binding "b1" "a" BindingStateBound ∅);
   (("", "b2"), ex_binding "b2" "b" BindingStateUnscheduled {[PreviousBindingStateAnnotation := BindingStateBound]})].
Proof. change (Mem.stored (ex_mem faults)) with (Mem.stored (ex_mem [])). by_decide. Qed.

Lemma ex_fresh faults n cluster b :
  @generateBinding RefLib.ref_lib (ex_uuid n) "placement" cluster = Ok b ->
  Mem.stored (ex_mem faults) !! object_key b = None.
Proof.
  intros Hg. destruct (Mem.stored (ex_mem faults) !! object_key b) as [x|] eqn:Hx; [|done]. exfalso.
  pose proof (Mem.stored_lookup _ _ _ Hx) as Hk. apply elem_of_map_to_list in Hx.
  unfold generateBinding in Hg. cbn [ExtractNamespaceNameFromKeyStr obind] in Hg.
  change (ExtractNamespaceNameFromKeyStr "placement") with (Ok (EmptyString, "placement")) in Hg. cbn [obind] in Hg.
  destruct (NewBindingName _ _ _) as [nm| |] eqn:Hn; try done. injection Hg as <-.
  unfold NewBindingName in Hn. destruct (decide _); [done|]. destruct (negb _); [done|]. injection Hn as <-.
  rewrite ex_stored, !elem_of_cons in Hx. destruct Hx as [[= _ ->]|[[= _ ->]|Hx%not_elem_of_nil]]; done.
Qed.

Lemma ex_ready : cycle_ready (W := Mem.mem) (K := RefLib.ref_lib) ex_uuid "" "placement" "placement"
  (ex_active {[CRPGenerationAnnotation := "1"]} None) (ex_mem ex_faults).
Proof.
  split; [reflexivity| |done|apply ex_fresh].
  intros bs. apply (Ok_elim (Forall apiState)).
  cbn [hub_list_clusters hub_list_bindings Mem.mem_hub fst snd]. by_decide.
Qed.

Lemma ex_unique faults : unique_live "" "placement" (Mem.stored (ex_mem faults)).
Proof.
  intros k1 k2 b1 b2 H1 _ _ H2 _ _ Ht. apply elem_of_map_to_list in H1, H2.
  rewrite ex_stored, !elem_of_cons in H1, H2. revert H1 H2.
  intros [[= -> ->]|[[= -> ->]|?%not_elem_of_nil]] [[= -> ->]|[[= -> ->]|?%not_elem_of_nil]]; done.
Qed.

