(* ===== verification/FrameworkProofs.v ===== *)
(** * What a scheduling cycle decides

    Theorems on the parts of [Framework.v]: downscaling, the batch of a PickN
    cycle, the total of the scores, and unscheduling with retries. *)

From stdpp Require Import prelude gmap strings sorting.
From S2P Require Import Prelude K8s Api Sample Utils Score CycleState Plugins ClusterAffinity.
From S2P Require Import TopologySpread FrameworkUtils FrameworkUtilsProofs Hub Framework Safety SchedulerProfile.

Local Open Scope string_scope.
Local Open Scope list_scope.

(** ** Downscaling *)

(** The order in which bindings are trimmed compares them like scored
    clusters with the name of the target. *)
Definition asScored (s : ClusterScore) (target : string) : Score.ScoredCluster :=
  Score.mkScored (Sample.cluster target ∅ 0) (bindingScore s).

#[global] Instance bindingLess_GoLess : GoLess bindingLess.
Proof.
  assert (forall a b, bindingLess a b =
    match cd_ClusterScore (rbs_ClusterDecision (b_spec a)), cd_ClusterScore (rbs_ClusterDecision (b_spec b)) with
    | None, None => str_lt (b_target a) (b_target b)
    | None, Some _ => true
    | Some _, None => false
    | Some sa, Some sb => Score.ScoredClusters_Less (asScored sa (b_target a)) (asScored sb (b_target b))
    end) as Heq.
  { intros a b. unfold bindingLess. destruct (cd_ClusterScore _), (cd_ClusterScore _); reflexivity. }
  split.
  - intros a b. rewrite !Heq. repeat case_match; try done; [apply less_asym|apply str_lt_asym].
  - intros a b c. rewrite !Heq. repeat case_match; try done; [apply less_negtrans|apply str_lt_negtrans].
Qed.

Section Downscale.
Context {W : Type} {C : HubClient W}.

Definition scoresComplete (bs : list BindingObj) : Prop := Forall (fun b => scoreComplete b = true) bs.

Lemma sortByClusterScoreAndName_sorted bs :
  scoresComplete bs ->
  exists sorted, sortByClusterScoreAndName bs = Ok sorted /\ sorted ≡ₚ bs /\
    StronglySorted (ordered bindingLess) sorted.
Proof.
  intros Hs. exists (go_sort bindingLess bs). unfold sortByClusterScoreAndName.
  assert (forallb scoreComplete bs = true) as ->.
  { apply forallb_forall. intros b Hb. unfold scoresComplete in Hs. rewrite Forall_forall in Hs.
    apply Hs. by apply list_elem_of_In. }
  rewrite andb_false_r. split_and!; [done|apply go_sort_perm|apply go_sort_sorted; apply _].
Qed.

Lemma split_at_sorted l n :
  (0 <= n <= Z.of_nat (length l))%Z -> StronglySorted (ordered bindingLess) l ->
  exists del rest, split_at l n = Ok (del, rest) /\ del ++ rest = l /\ Z.of_nat (length del) = n /\
    forall x y, x ∈ del -> y ∈ rest -> bindingLess y x = false.
Proof.
  intros Hn Hs. unfold split_at. rewrite (proj2 (Z.ltb_ge n 0)) by lia.
  eexists _, _. split; [done|]. rewrite take_drop. split_and!; [done|rewrite length_take; lia|].
  intros x y. apply (StronglySorted_app_cross (ordered bindingLess)). by rewrite take_drop.
Qed.

(** downscaling by a count marks exactly that many bindings as
    unscheduled and keeps the rest.  Scheduled bindings go before bound ones,
    and among bindings of one kind none that is kept compares less than one
    that is trimmed.  For a count between zero and the number of bindings it
    never fails by itself: its only effect and its only source of errors is
    the update of the trimmed bindings. *)
Theorem downscale_trims scheduled bound count :
  (0 <= count <= Z.of_nat (length scheduled + length bound))%Z ->
  scoresComplete scheduled -> scoresComplete bound ->
  exists trimmedS trimmedB scheduled' bound',
    (forall w : W, downscale scheduled bound count w =
      (let* _ := updateBindings (trimmedS ++ trimmedB) markUnscheduledForAndUpdate in
       hret (scheduled', bound')) w) /\
    trimmedS ++ scheduled' ≡ₚ scheduled /\ trimmedB ++ bound' ≡ₚ bound /\
    Z.of_nat (length (trimmedS ++ trimmedB)) = count /\
    (trimmedB = [] \/ scheduled' = []) /\
    (forall x y, x ∈ trimmedS -> y ∈ scheduled' -> bindingLess y x = false) /\
    (forall x y, x ∈ trimmedB -> y ∈ bound' -> bindingLess y x = false).
Proof.
  intros Hc Hs Hb. unfold downscale.
  assert (forall x y : BindingObj, x ∈ [] -> bindingLess y x = false) as Hno by by intros x y ?%not_elem_of_nil.
  assert (forall x y : BindingObj, y ∈ [] -> bindingLess y x = false) as Hno' by by intros x y ?%not_elem_of_nil.
  destruct (Z.eqb_spec count 0) as [->|H0].
  { exists [], [], scheduled, bound. split_and!; eauto. }
  rewrite (proj2 (Z.ltb_ge _ count)) by lia.
  destruct (Z.ltb_spec count (Z.of_nat (length scheduled))).
  { destruct (sortByClusterScoreAndName_sorted scheduled Hs) as (sorted & -> & Hp & Hsort).
    destruct (split_at_sorted sorted count) as (del & rest & Hsp & Happ & Hlen & Hord); [rewrite Hp; lia|done|].
    exists del, [], rest, bound. rewrite app_nil_r, Happ. split_and!; eauto.
    intros w. unfold hbind at 1, hlift. unfold hbind at 1. by rewrite Hsp. }
  destruct (Z.eqb_spec count (Z.of_nat (length scheduled))).
  { exists scheduled, [], [], bound. rewrite !app_nil_r. split_and!; eauto. }
  destruct (Z.ltb_spec count (Z.of_nat (length scheduled + length bound))).
  { destruct (sortByClusterScoreAndName_sorted bound Hb) as (sorted & -> & Hp & Hsort).
    destruct (split_at_sorted sorted (count - Z.of_nat (length scheduled))) as (del & rest & Hsp & Happ & Hlen & Hord);
      [rewrite Hp; lia|done|].
    exists scheduled, del, [], rest. rewrite app_nil_r, Happ. split_and!; eauto.
    - intros w. unfold hbind at 1, hlift. unfold hbind at 1. by rewrite Hsp.
    - rewrite length_app. lia. }
  rewrite (proj2 (Z.eqb_eq count _)) by lia.
  exists scheduled, bound, [], []. rewrite !app_nil_r, length_app. split_and!; eauto. lia.
Qed.

End Downscale.

(** A binding with a score. *)
Definition ex_scoredBinding (name target : string) (affinity : Z) : BindingObj :=
  set_b_spec (mkBindingSpec BindingStateBound EmptyString [] [] "p" target
    (mkDecision target true (Some (mkApiScore (Some affinity) (Some 0%Z))) EmptyString) None)
    (Sample.binding name target "p" BindingStateBound).

Lemma downscale_trims_witness :
  let scheduled := [ex_scoredBinding "b1" "a" 3] in
  let bound := [ex_scoredBinding "b2" "b" 7; ex_scoredBinding "b3" "c" 5] in
  (exists trimmedS trimmedB scheduled' bound',
    trimmedS ++ scheduled' ≡ₚ scheduled /\ trimmedB ++ bound' ≡ₚ bound /\
    Z.of_nat (length (trimmedS ++ trimmedB)) = 2%Z) /\
  (downscale scheduled bound 2 (ex_mem [])).2 = Err (Mem.api_error NotFound).
Proof.
  intros scheduled bound. split; [|vm_compute; reflexivity].
  destruct (downscale_trims (W := Mem.mem) scheduled bound 2)
    as (ts & tb & s' & b' & _ & H1 & H2 & H3 & _); [cbn; lia|by_decide|by_decide|].
  exists ts, tb, s', b'. split; [exact H1|split; [exact H2|exact H3]].
Defined.

(** ** The batch of a PickN cycle *)

Lemma runPostBatchPluginsOn_bounds {V} pls (state : CycleState V) policy m limit status :
  (0 <= m)%Z -> runPostBatchPluginsOn pls state policy m = (limit, status) ->
  IsInternalError status = false -> (0 <= limit <= m)%Z.
Proof.
  revert m. induction pls as [|pl pls IH]; intros m Hm; cbn; [intros [= <- _] _; lia|].
  destruct (PostBatch pl state policy) as [l s]. destruct (code s) eqn:Hc.
  - intros H Hs. apply IH in H; [|by destruct (_ && _) eqn:Hb; [apply andb_prop in Hb as [??%Z.leb_le]|]|done].
    destruct (Z.ltb_spec l m), (Z.leb_spec 0 l); cbn in *; lia.
  - intros [= <- <-]. unfold IsInternalError. by rewrite Hc.
  - intros [= <- <-]. done.
  - intros [= <- <-]. done.
  - by apply IH.
Qed.

Lemma runPreFilterPlugins_batch {K : K8sLib} checker now state policy state' status :
  runPreFilterPlugins (NewDefaultProfile checker now) state policy = Ok (state', status) ->
  desiredBatchSize state' = desiredBatchSize state /\ batchSizeLimit state' = batchSizeLimit state.
Proof.
  unfold runPreFilterPlugins. cbn [preFilterPlugins NewDefaultProfile NewProfile].
  cbn [runPreFilterPluginsOn preFilter_Name PreFilter].
  rewrite obind_Ok. intros ([s1 st1] & H1%affinity_keeps & H). subst s1.
  destruct (code st1); try (injection H as <- _; done).
  all: apply obind_Ok in H as ([s2 st2] & H2%namespace_keeps & H); subst s2.
  all: destruct (code st2); try (injection H as <- _; done).
  all: apply obind_Ok in H as ([s3 st3] & [m ->]%spread_keeps & H).
  all: destruct (code st3); injection H as <- _; done.
Qed.

Lemma runPreScorePlugins_batch {K : K8sLib} checker now state policy state' status :
  runPreScorePlugins (NewDefaultProfile checker now) state policy = Ok (state', status) ->
  desiredBatchSize state' = desiredBatchSize state /\ batchSizeLimit state' = batchSizeLimit state.
Proof.
  unfold runPreScorePlugins. cbn [preScorePlugins NewDefaultProfile NewProfile].
  cbn [runPreScorePluginsOn preScore_Name PreScore].
  assert (forall name state state' policy status,
    ClusterAffinityPlugin.PreScore (V := pluginValue) name state policy = Ok (state', status) ->
    exists m, state' = set_store m state) as Ha.
  { clear. intros name state state' policy status. unfold ClusterAffinityPlugin.PreScore.
    intros H. repeat case_match; try done; injection H as <- _;
      first [by eexists|exists (store state); by destruct state]. }
  assert (forall name state state' policy status,
    TopologySpread.PreScore (V := pluginValue) name state policy = Ok (state', status) -> state' = state) as Ht.
  { clear. intros name state state' policy status. unfold TopologySpread.PreScore. repeat case_match; congruence. }
  rewrite obind_Ok. intros ([s1 st1] & [m ->]%Ha & H).
  destruct (code st1); try (injection H as <- _; done).
  all: apply obind_Ok in H as ([s2 st2] & H2%Ht & H); subst s2.
  all: destruct (code st2); injection H as <- _; done.
Qed.

Lemma default_postBatch {K : K8sLib} checker now state policy limit status :
  (1 <= desiredBatchSize state)%Z ->
  runPostBatchPlugins (NewDefaultProfile checker now) state policy = (limit, status) ->
  IsInternalError status = false -> (1 <= limit)%Z.
Proof.
  intros Hd. unfold runPostBatchPlugins. cbn [postBatchPlugins NewDefaultProfile NewProfile runPostBatchPluginsOn PostBatch].
  unfold TopologySpread.PostBatch. destruct (sps_Policy (snap_spec policy)) as [p|]; [|by intros [= <- <-]].
  destruct (pol_TopologySpreadConstraints p); cbn; intros [= <- <-] _; [lia|]. destruct (_ && _); lia.
Qed.

Lemma PickN_batch {K : K8sLib} checker now workOrder state policy n present cs state' scored filtered :
  runAllPluginsForPickNPlacementType (NewDefaultProfile checker now) workOrder state policy n present cs =
    Ok (state', scored, filtered) ->
  desiredBatchSize state' = (n - present)%Z /\ (1 <= batchSizeLimit state' <= n - present)%Z.
Proof.
  unfold runAllPluginsForPickNPlacementType. cbn [desiredBatchSize set_desiredBatchSize].
  destruct (Z.leb_spec (n - present) 0); [done|].
  destruct (runPostBatchPlugins _ _ _) as [limit s0] eqn:Hpost. destruct (IsInternalError s0) eqn:Hs0; [done|].
  assert (1 <= limit)%Z as Hlow by (eapply default_postBatch; [|exact Hpost|done]; cbn; lia).
  apply runPostBatchPluginsOn_bounds in Hpost; [|cbn; lia|done].
  destruct ((_ <? _)%Z || _); [done|].
  rewrite obind_Ok. intros ([st1 s1] & Hpre%runPreFilterPlugins_batch & Hrest). destruct (IsInternalError s1); [done|].
  destruct (runFilterPlugins _ _ st1 policy cs) as [[passed f]|e|p]; [|done|done].
  apply obind_Ok in Hrest as ([st2 s2] & Hps%runPreScorePlugins_batch & Hrest). destruct (IsInternalError s2); [done|].
  destruct (runScorePlugins _ _ st2 policy passed) as [sc|e|p]; [|done|done].
  injection Hrest as <- _ _. cbn in *. destruct Hpre as [E1 E2], Hps as [E3 E4]. split; [congruence|].
  rewrite E4, E2. cbn. lia.
Qed.

(** Bindings to create and patch, one for each picked cluster. *)
Lemma plan_counts {K : K8sLib} uuids key policy picked unscheduled obsolete toCreate toDelete toPatch :
  NoDup (scoredName <$> picked) -> NoDup (b_target <$> (unscheduled ++ obsolete)) ->
  crossReferencePickedClustersAndDeDupBindings uuids key policy picked unscheduled obsolete =
    Ok (toCreate, toDelete, toPatch) ->
  length toCreate + length toPatch = length picked.
Proof.
  intros Hp Hb (-> & (p1 & p2 & -> & Hp1 & _ & Hp2) & Hnew)%crossReferencePicked_planned.
  apply Forall2_length in Hp2, Hnew. apply (f_equal length) in Hp1. rewrite length_fmap in Hp1.
  rewrite length_app, <- Hnew, <- Hp2, Hp1.
  set (existing := unscheduled ++ obsolete) in *.
  assert (length (filter (fun b => isPicked picked b = true) existing) =
    length (filter (fun s => ~ (scoredName s ∉ (b_target <$> existing))) picked)) as Hlen.
  { rewrite <- (length_fmap b_target), <- (length_fmap scoredName (filter _ picked)).
    apply Permutation_length, NoDup_Permutation.
    - eapply sublist_NoDup; [exact Hb|apply fmap_sublist, sublist_filter].
    - eapply sublist_NoDup; [exact Hp|apply fmap_sublist, sublist_filter].
    - intros n. rewrite !list_elem_of_fmap. split.
      + intros (b & -> & [Hpk Hin]%list_elem_of_filter). unfold isPicked in Hpk. apply bool_decide_eq_true in Hpk.
        apply list_elem_of_fmap in Hpk as (s & Hs & Hsin). exists s. split; [done|].
        apply list_elem_of_filter. split; [|done]. intros Hno. apply Hno. rewrite <- Hs. by apply list_elem_of_fmap_2.
      + intros (s & -> & [Hno Hin]%list_elem_of_filter).
        destruct (decide (scoredName s ∈ b_target <$> existing)) as [Hs|]; [|done].
        apply list_elem_of_fmap in Hs as (b & Hs & Hbin). exists b. split; [done|].
        apply list_elem_of_filter. split; [|done]. apply bool_decide_eq_true. rewrite <- Hs.
        by apply list_elem_of_fmap_2. }
  unfold existing in Hlen at 1. rewrite filter_app, length_app in Hlen.
  pose proof (Permutation_length (filter_app_complement (fun s => scoredName s ∉ (b_target <$> existing)) picked)) as Hc.
  rewrite length_app in Hc. lia.
Qed.

Lemma calcNumOfClustersToSelect_min desired limit scored :
  calcNumOfClustersToSelect desired limit scored = Z.min (Z.min desired limit) scored.
Proof. unfold calcNumOfClustersToSelect. destruct (Z.ltb_spec limit desired), (Z.ltb_spec scored limit), (Z.ltb_spec scored desired); lia. Qed.

(** C15: what a PickN cycle selects once the plugins have run.  It always
    finds its selection; the clusters it adds to the ones already selected
    never exceed the number asked for; a plan creates or patches exactly one
    binding per selected cluster.  A cycle that is requeued has made progress
    and is still short of the number asked for; one that is not has reached
    it or has selected every candidate there is. *)
Theorem PickN_selects {K : K8sLib} checker now uuids workOrder key state policy n present cs
    unscheduled obsolete state' scored filtered :
  (forall cs, workOrder cs ≡ₚ cs) -> NoDup (mc_name <$> cs) -> skippedFilterPlugins state = ∅ ->
  NoDup (b_target <$> (unscheduled ++ obsolete)) ->
  runAllPluginsForPickNPlacementType (NewDefaultProfile checker now) workOrder state policy n present cs =
    Ok (state', scored, filtered) ->
  let num := calcNumOfClustersToSelect (desiredBatchSize state') (batchSizeLimit state') (Z.of_nat (length scored)) in
  exists picked notPicked,
    pickTopNScoredClusters scored num = Ok (picked, notPicked) /\
    Z.of_nat (length picked) = num /\ (present + num <= n)%Z /\
    forall toCreate toDelete toPatch,
      crossReferencePickedClustersAndDeDupBindings uuids key policy picked unscheduled obsolete =
        Ok (toCreate, toDelete, toPatch) ->
      Z.of_nat (length toCreate + length toPatch) = num /\
      if shouldRequeue (desiredBatchSize state') (batchSizeLimit state') (Z.of_nat (length toCreate + length toPatch))
      then (1 <= num)%Z /\ (present + num < n)%Z
      else (present + num = n)%Z \/ notPicked = [].
Proof.
  intros Hperm Hcs Hskip Hnd Hrun num.
  destruct (PickN_candidates _ _ Hperm _ _ _ _ _ _ _ _ Hcs Hskip Hrun) as [Hsc _].
  apply PickN_batch in Hrun as [Hd Hb].
  assert (num = Z.min (Z.min (desiredBatchSize state') (batchSizeLimit state')) (Z.of_nat (length scored))) as Hnum.
  { apply calcNumOfClustersToSelect_min. }
  destruct (pickTopN_spec scored num) as (picked & notPicked & Hpick & Happ & Hlen); [lia|].
  assert (picked ++ notPicked ≡ₚ scored) as Hp by (rewrite Happ; apply go_sort_perm).
  exists picked, notPicked. split_and!; [done|lia|lia|]. intros toCreate toDelete toPatch Hplan.
  apply plan_counts in Hplan; [|rewrite <- Hp, fmap_app in Hsc; by apply NoDup_app in Hsc as [? _]|done].
  split; [lia|]. unfold shouldRequeue.
  destruct (Z.ltb_spec (batchSizeLimit state') (desiredBatchSize state')); cbn;
    [destruct (Z.eqb_spec (Z.of_nat (length toCreate + length toPatch)) (batchSizeLimit state')); [lia|]|].
  - right. apply nil_length_inv. apply Permutation_length in Hp. rewrite length_app in Hp. lia.
  - destruct (decide (present + num = n)%Z); [by left|right].
    apply nil_length_inv. apply Permutation_length in Hp. rewrite length_app in Hp. lia.
Qed.

(** Two clusters, one of them with an unscheduled binding, and a policy that
    asks for two of which none is selected yet. *)
Definition ex_pickN : PolicySnapshotObj :=
  ex_active {[CRPGenerationAnnotation := "1"; NumberOfClustersAnnotation := "2"]}
    (Some (Sample.policy PickNPlacementType (Some 2%Z) [])).

Lemma PickN_selects_witness :
  let run := @runAllPluginsForPickNPlacementType _ (@NewDefaultProfile RefLib.ref_lib (Eligibility.New []) 0)
    (fun cs => cs) (NewCycleState (Mem.mem_clusters (ex_mem [])) [] []) ex_pickN 2 0 (Mem.mem_clusters (ex_mem [])) in
  exists state' scored filtered, run = Ok (state', scored, filtered) /\
  exists picked notPicked, pickTopNScoredClusters scored 2 = Ok (picked, notPicked) /\ length picked = 2.
Proof.
  intros run.
  assert (match run with
    | Ok (st, sc, _) =>
        Z.eqb (calcNumOfClustersToSelect (desiredBatchSize st) (batchSizeLimit st) (Z.of_nat (length sc))) 2
    | _ => false
    end = true) as Hnum by (vm_compute; reflexivity).
  destruct run as [[[state' scored] filtered]| |] eqn:Hrun; [|discriminate Hnum..]. apply Z.eqb_eq in Hnum.
  exists state', scored, filtered. split; [reflexivity|].
  destruct (@PickN_selects RefLib.ref_lib (Eligibility.New []) 0 ex_uuid (fun cs => cs) "placement"
    (NewCycleState (Mem.mem_clusters (ex_mem [])) [] []) ex_pickN 2 0 (Mem.mem_clusters (ex_mem [])) ex_unscheduled [] state' scored
    filtered) as (picked & notPicked & H1 & H2 & _); [reflexivity|by_decide|reflexivity|by_decide|exact Hrun|].
  exists picked, notPicked.
  rewrite Hnum in H1, H2. split; [exact H1|]. apply Nat2Z.inj. exact H2.
Defined.

(** ** Unscheduling and selecting again *)

(** unscheduling a binding in one attempt and selecting its cluster
    again gives it back the state it had.  When the first attempt is answered
    with a server timeout or an unavailable service, which do not lead to a
    new read, the next attempt submits the binding as it was left by the
    first: the state recorded is Unscheduled, and the state it had is lost. *)
Theorem retry_loses_state {W : Type} {C : HubClient W} {HL : HubLaws W} (b b1 : BindingObj) (w w1 : W) e :
  hub_update_binding (markUnscheduled b) w = (w1, (b1, Some e)) ->
  retriableServerError e = true ->
  (exists b', recoverState (markUnscheduled b) = Ok (b_state b, b')) /\
  retriableUpdateError e = true /\
  exists again,
    attemptUpdate markUnscheduledForAndUpdate (w, b) = ((w1, markUnscheduled b), Some e) /\
    markUnscheduledForAndUpdate (markUnscheduled b) w1 = hub_update_binding again w1 /\
    exists b', recoverState again = Ok (BindingStateUnscheduled, b').
Proof.
  intros Hup He. pose proof (update_refreshes (markUnscheduled b) w b1 (Some e)) as Hb1.
  rewrite Hup in Hb1. specialize (Hb1 eq_refl). cbn in Hb1. subst b1. split_and!.
  - eexists. apply recoverState_Ok. split; [apply lookup_singleton_eq|reflexivity].
  - unfold retriableUpdateError. by rewrite He.
  - exists (markUnscheduled (markUnscheduled b)). split_and!.
    + unfold attemptUpdate, markUnscheduledForAndUpdate. rewrite Hup.
      destruct e as [| | | |[] ?| |]; cbn in He; try done.
    + done.
    + eexists. apply recoverState_Ok. split; [apply lookup_singleton_eq|reflexivity].
Qed.

Definition ex_timeout : list Mem.fault := [Mem.Refused ServerTimeout].

Lemma retry_loses_state_witness :
  let b := ex_binding "b1" "a" BindingStateBound ∅ in
  (exists again, markUnscheduledForAndUpdate (markUnscheduled b) (ex_mem []) = hub_update_binding again (ex_mem []) /\
    exists b', recoverState again = Ok (BindingStateUnscheduled, b')) /\
  updateBinding markUnscheduledForAndUpdate b (ex_mem ex_timeout) =
    updateBinding markUnscheduledForAndUpdate (markUnscheduled b) (ex_mem []).
Proof.
  intros b. split; [|vm_compute; reflexivity].
  destruct (retry_loses_state b (markUnscheduled b) (ex_mem ex_timeout) (ex_mem []) (Mem.api_error ServerTimeout))
    as (_ & _ & again & _ & H1 & H2); [vm_compute; reflexivity|reflexivity|].
  exists again. split; [exact H1|exact H2].
Defined.

(** a placement type that is none of the three is not reported: with
    nothing to clean up, the cycle returns without an error, and it is not
    requeued. *)
Theorem unknown_type_succeeds {K : K8sLib} {W : Type} {C : HubClient W} {V : Type} (profile : Profile V)
    checker maxUnselected now uuids workOrder key ns name policy p (w w1 w2 : W) cs :
  ExtractNamespaceNameFromKeyStr key = Ok (ns, name) ->
  hub_list_clusters w = (w1, Ok cs) -> hub_list_bindings ns name w1 = (w2, Ok []) ->
  sps_Policy (snap_spec policy) = Some p ->
  pol_PlacementType p ∉ [PickFixedPlacementType; PickAllPlacementType; PickNPlacementType] ->
  RunSchedulingCycleFor profile checker maxUnselected now uuids workOrder key policy w = (w2, Ok false).
Proof.
  intros Hk Hc Hb Hp Ht. unfold RunSchedulingCycleFor. rewrite Hk. unfold hbind at 1, hlift, hbind at 1.
  unfold collectClusters, hmap_err. rewrite Hc. unfold hbind at 1, ListBindingsFromKey, hbind at 1, hmap_err.
  rewrite Hb. cbn. rewrite Hp. rewrite !decide_False by set_solver. reflexivity.
Qed.

Lemma unknown_type_succeeds_witness :
  let policy := ex_active ∅ (Some (Sample.policy "PickSome" None [])) in
  let w := Mem.mkMem ∅ [] None [] in
  @RunSchedulingCycleFor RefLib.ref_lib Mem.mem _ _ (@NewDefaultProfile RefLib.ref_lib (Eligibility.New []) 0)
    (Eligibility.New []) 20 0 ex_uuid (fun cs => cs) "placement" policy w = (w, Ok false).
Proof.
  intros policy w. eapply unknown_type_succeeds; [reflexivity|vm_compute; reflexivity|vm_compute; reflexivity|reflexivity|].
  by_decide.
Defined.

(** ** Scores *)

(** the total score of a cluster does not depend on the order in which
    Go ranges over the map of the plugins' scores, even when the sums wrap
    around. *)
Theorem total_score_any_order total l1 l2 :
  l1 ≡ₚ l2 -> ofold addScore total l1 = ofold addScore total l2.
Proof.
  intros Hp. revert total. induction Hp as [|o l1 l2 _ IH|o1 o2 l|l1 l2 l3 _ IH1 _ IH2]; intros total; cbn.
  - done.
  - destruct o; cbn; [apply IH|done].
  - destruct o1 as [s1|], o2 as [s2|]; cbn; try done.
    by rewrite !Score.Add_assoc, (Score.Add_comm s1 s2).
  - by rewrite IH1.
Qed.

Lemma total_score_any_order_witness :
  let l := [Some (Score.mkScore 1 2147483647 0); Some (Score.mkScore 0 3 1)] in
  ofold addScore Score.zero l = ofold addScore Score.zero (reverse l).
Proof. apply total_score_any_order. apply Permutation_rev. Defined.

(** ** The clusters a PickAll cycle picks *)

Section PickAll.
Context {K : K8sLib}.
Variable checker : Eligibility.ClusterEligibilityChecker.
Variable now : Z.
Implicit Types state : CycleState pluginValue.

(** A policy's requirements on a cluster, plugin by plugin. *)
Definition affinityMet (policy : PolicySnapshotObj) (c : MemberCluster) : Prop :=
  match ClusterAffinityPlugin.requiredTerms policy with
  | None | Some [] => True
  | Some terms => Exists (fun t => ClusterAffinityPlugin.Matches t c = Ok true) terms
  end.

Definition namespaceMet (policy : PolicySnapshotObj) (c : MemberCluster) : Prop :=
  meta_namespace (snap_meta policy) = EmptyString \/
  FindStatusCondition (mc_Conditions c) NamespaceAffinity.NamespaceCollectionSucceededCondType = None \/
  exists namespaces, mc_Namespaces c = Some namespaces /\ is_Some (namespaces !! meta_namespace (snap_meta policy)).

Definition taintsMet (policy : PolicySnapshotObj) (c : MemberCluster) : Prop :=
  Forall (fun taint => Exists (fun t => TaintToleration.tolerates t taint) (Tolerations (snap_spec policy))) (mc_Taints c).

Definition admits (policy : PolicySnapshotObj) (c : MemberCluster) : Prop :=
  affinityMet policy c /\ Eligibility.eligible checker now c /\ namespaceMet policy c /\ taintsMet policy c.

(** The verdict of a chain of filters: [P] are the requirements, [selected]
    is whether the cluster has been selected before. *)
Definition decides (pls : list (FilterPlugin pluginValue)) state policy c (P : Prop) (selected : bool) : Prop :=
  exists s, runFilterPluginsOn pls state policy c = Ok s /\
    ((code s = Success /\ P /\ selected = false) \/ (code s = ClusterUnschedulable /\ ~ P) \/
     (code s = ClusterAlreadySelected /\ P /\ selected = true)).

Definition settles (pl : FilterPlugin pluginValue) state policy c (P : Prop) : Prop :=
  (filter_Name pl ∈ skippedFilterPlugins state /\ P) \/
  (filter_Name pl ∉ skippedFilterPlugins state /\ exists s, Filter pl state policy c = Ok s /\
    ((code s = Success /\ P) \/ (code s = ClusterUnschedulable /\ ~ P))).

Lemma decides_cons pl pls state policy c P Q selected :
  settles pl state policy c P -> decides pls state policy c Q selected ->
  decides (pl :: pls) state policy c (P /\ Q) selected.
Proof.
  intros Hpl (s & Hs & Hv). unfold decides. cbn [runFilterPluginsOn].
  destruct Hpl as [[Hin HP]|(Hout & s1 & Hf & [[Hc HP]|[Hc HP]])].
  - rewrite decide_True by done. exists s. split; [done|]. naive_solver.
  - rewrite decide_False by done. rewrite Hf. cbn. rewrite Hc. exists s. split; [done|]. naive_solver.
  - rewrite decide_False by done. rewrite Hf. cbn. rewrite Hc. exists s1. split; [done|]. naive_solver.
Qed.

(** The policy has no topology spread constraints, as the API asks of a
    PickAll policy. *)
Definition noSpread (policy : PolicySnapshotObj) : Prop :=
  match sps_Policy (snap_spec policy) with None => True | Some p => pol_TopologySpreadConstraints p = [] end.

Definition noRequiredTerms (policy : PolicySnapshotObj) : bool :=
  match ClusterAffinityPlugin.requiredTerms policy with None | Some [] => true | _ => false end.

(** Which filters are skipped. *)
Lemma default_preFilter state policy :
  noSpread policy -> skippedFilterPlugins state = ∅ ->
  exists state', runPreFilterPlugins (NewDefaultProfile checker now) state policy = Ok (state', None) /\
    scheduledOrBoundBindings state' = scheduledOrBoundBindings state /\
    forall name, name ∈ skippedFilterPlugins state' <->
      name = TopologySpread.defaultPluginName \/
      (name = ClusterAffinityPlugin.defaultName /\ noRequiredTerms policy = true) \/
      (name = NamespaceAffinity.defaultName /\ meta_namespace (snap_meta policy) = EmptyString).
Proof.
  intros Hn Hs. unfold runPreFilterPlugins.
  cbn [preFilterPlugins NewDefaultProfile NewProfile runPreFilterPluginsOn preFilter_Name PreFilter default].
  assert (forall st, exists r, TopologySpread.PreFilter TopologySpread.defaultPluginName st policy =
    Ok (st, NewNonErrorStatus Skip TopologySpread.defaultPluginName r)) as Hsp.
  { intros st. unfold TopologySpread.PreFilter, noSpread in *. destruct (sps_Policy _) as [p|]; [rewrite Hn|]; eauto. }
  assert (exists s1, (forall st : CycleState pluginValue, ClusterAffinityPlugin.PreFilter ClusterAffinityPlugin.defaultName st policy = Ok (st, s1)) /\
    code s1 = if noRequiredTerms policy then Skip else Success) as (s1 & H1 & Hc1).
  { unfold ClusterAffinityPlugin.PreFilter, noRequiredTerms. destruct (ClusterAffinityPlugin.requiredTerms policy) as [[|]|]; eexists; done. }
  assert (exists s2, (forall st : CycleState pluginValue, NamespaceAffinity.PreFilter NamespaceAffinity.defaultName st policy = Ok (st, s2)) /\
    code s2 = if decide (meta_namespace (snap_meta policy) = EmptyString) then Skip else Success) as (s2 & H2 & Hc2).
  { unfold NamespaceAffinity.PreFilter. destruct (decide _) as [E|E]; [rewrite bool_decide_true by done|rewrite bool_decide_false by done]; eexists; done. }
  rewrite H1. cbn [obind]. rewrite Hc1.
  destruct (noRequiredTerms policy); rewrite H2; cbn [obind]; rewrite Hc2; destruct (decide _);
    edestruct Hsp as [r ->]; cbn [obind NewNonErrorStatus code st_statusCode];
    eexists; (split; [reflexivity|]); (split; [reflexivity|]); intros name; cbn; rewrite Hs; set_solver.
Qed.

(** A cluster on which a policy can be evaluated: no required term fails to
    be matched. *)
Definition evaluable (policy : PolicySnapshotObj) (c : MemberCluster) : Prop :=
  Forall (fun t => is_ok (ClusterAffinityPlugin.Matches t c) = true)
    (default [] (ClusterAffinityPlugin.requiredTerms policy)).

Definition tolerationsValid (policy : PolicySnapshotObj) : Prop :=
  Forall (fun t => tol_Operator t <> EmptyString) (Tolerations (snap_spec policy)).

Section Verdict.
Variables (policy : PolicySnapshotObj) (state : CycleState pluginValue).
Hypothesis tolerations_valid : tolerationsValid policy.
Hypothesis skipped : forall name, name ∈ skippedFilterPlugins state <->
  name = TopologySpread.defaultPluginName \/
  (name = ClusterAffinityPlugin.defaultName /\ noRequiredTerms policy = true) \/
  (name = NamespaceAffinity.defaultName /\ meta_namespace (snap_meta policy) = EmptyString).

Lemma affinity_settles c :
  evaluable policy c ->
  settles (mkFilterPlugin ClusterAffinityPlugin.defaultName (ClusterAffinityPlugin.Filter ClusterAffinityPlugin.defaultName))
    state policy c (affinityMet policy c).
Proof.
  unfold evaluable, settles, affinityMet, noRequiredTerms in *. cbn. rewrite skipped. intros He.
  unfold ClusterAffinityPlugin.Filter. destruct (ClusterAffinityPlugin.requiredTerms policy) as [[|t ts]|] eqn:Ht.
  - left. auto.
  - right. split; [intros [?|[[_ ?]|[? _]]]; done|].
    destruct (ClusterAffinityPlugin.filterTerms_spec ClusterAffinityPlugin.defaultName (t :: ts) c He) as (s & -> & Hs & Hiff).
    exists s. split; [done|]. unfold IsSuccess, IsClusterUnschedulable in *.
    rewrite !bool_decide_eq_true in *. destruct Hs as [Hs|Hs]; [left; tauto|right].
    split; [done|]. rewrite <- Hiff, Hs. done.
  - left. auto.
Qed.

Lemma eligibility_settles c :
  settles (mkFilterPlugin Eligibility.defaultPluginName (Eligibility.Filter checker now Eligibility.defaultPluginName))
    state policy c (Eligibility.eligible checker now c).
Proof.
  right. cbn. rewrite skipped. split; [intros [?|[[? _]|[? _]]]; done|]. unfold Eligibility.Filter.
  pose proof (Eligibility.IsEligible_spec checker now c) as He.
  destruct (Eligibility.IsEligible checker now c) as [[] r]; cbn in *; (eexists; split; [done|]); cbn; [left|right]; naive_solver.
Qed.

Lemma namespace_settles c :
  settles (mkFilterPlugin NamespaceAffinity.defaultName (NamespaceAffinity.Filter NamespaceAffinity.defaultName))
    state policy c (namespaceMet policy c).
Proof.
  unfold settles, namespaceMet. cbn. rewrite skipped.
  destruct (decide (meta_namespace (snap_meta policy) = EmptyString)) as [E|E]; [left; auto|right].
  split; [intros [?|[[? _]|[_ ?]]]; done|]. unfold NamespaceAffinity.Filter.
  destruct (FindStatusCondition _ _); [|eexists; split; [done|]; left; auto].
  destruct (mc_Namespaces c) as [m|]; [|eexists; split; [done|]; right; naive_solver].
  destruct (m !! _) eqn:Hm; (eexists; split; [done|]); [left; naive_solver|right].
  split; [done|]. intros [?|[?|(m' & [= <-] & [x ?])]]; [done|done|congruence].
Qed.

Lemma taint_settles c :
  settles (mkFilterPlugin TaintToleration.defaultName (TaintToleration.Filter TaintToleration.defaultName))
    state policy c (taintsMet policy c).
Proof.
  right. cbn. rewrite skipped. split; [intros [?|[[? _]|[? _]]]; done|]. unfold TaintToleration.Filter, taintsMet.
  pose proof (TaintToleration.findUntoleratedTaint_None (mc_Taints c) _ tolerations_valid) as Hiff.
  destruct (TaintToleration.findUntoleratedTaint _ _); (eexists; split; [done|]); [right|left]; naive_solver.
Qed.

Lemma default_decides c :
  evaluable policy c ->
  exists s, runFilterPluginsFor (NewDefaultProfile checker now) state policy c = Ok s /\
    ((code s = Success /\ admits policy c /\ HasScheduledOrBoundBindingFor state (mc_name c) = false) \/
     (code s = ClusterUnschedulable /\ ~ admits policy c) \/
     (code s = ClusterAlreadySelected /\ admits policy c /\ HasScheduledOrBoundBindingFor state (mc_name c) = true)).
Proof.
  intros He. set (sel := HasScheduledOrBoundBindingFor state (mc_name c)).
  assert (decides [mkFilterPlugin SamePlacementAffinity.defaultName (SamePlacementAffinity.Filter SamePlacementAffinity.defaultName);
    mkFilterPlugin TopologySpread.defaultPluginName (TopologySpread.Filter TopologySpread.defaultPluginName)]
    state policy c True sel) as Hbase.
  { unfold decides. cbn. rewrite decide_False; [|rewrite skipped; intros [?|[[? _]|[? _]]]; done].
    unfold SamePlacementAffinity.Filter. fold sel. destruct sel; cbn; [eexists; split; [done|]; auto|].
    rewrite decide_True by (apply skipped; auto). eexists; split; [done|]. auto. }
  apply (decides_cons _ _ _ _ _ _ _ _ (taint_settles c)) in Hbase.
  apply (decides_cons _ _ _ _ _ _ _ _ (namespace_settles c)) in Hbase.
  apply (decides_cons _ _ _ _ _ _ _ _ (eligibility_settles c)) in Hbase.
  apply (decides_cons _ _ _ _ _ _ _ _ (affinity_settles c He)) in Hbase.
  destruct Hbase as (s & Hs & Hv). exists s. split; [exact Hs|]. unfold admits. tauto.
Qed.

End Verdict.

Lemma filterPiece_run state policy acc c s :
  runFilterPluginsFor (NewDefaultProfile checker now) state policy c = Ok s ->
  filterPiece (NewDefaultProfile checker now) state policy acc c =
  match code s with
  | Success => Ok (acc.1 ++ [c], acc.2)
  | ClusterUnschedulable => Ok (acc.1, acc.2 ++ [mkFiltered c s])
  | ClusterAlreadySelected => Ok acc
  | _ => match AsError s with Some e => Err e | None => Ok acc end
  end.
Proof. intros Hs. unfold filterPiece. destruct acc. rewrite Hs. cbn. by destruct (code s). Qed.

Lemma filter_pieces_decided state policy l acc :
  (forall c, c ∈ l -> exists s, runFilterPluginsFor (NewDefaultProfile checker now) state policy c = Ok s /\
    ((code s = Success /\ admits policy c /\ HasScheduledOrBoundBindingFor state (mc_name c) = false) \/
     (code s = ClusterUnschedulable /\ ~ admits policy c) \/
     (code s = ClusterAlreadySelected /\ admits policy c /\ HasScheduledOrBoundBindingFor state (mc_name c) = true))) ->
  exists passed filtered, ofold (filterPiece (NewDefaultProfile checker now) state policy) acc l = Ok (acc.1 ++ passed, acc.2 ++ filtered) /\
    (forall c, c ∈ passed <-> c ∈ l /\ admits policy c /\ HasScheduledOrBoundBindingFor state (mc_name c) = false) /\
    (forall c, c ∈ (fc_cluster <$> filtered) <-> c ∈ l /\ ~ admits policy c).
Proof.
  revert acc. induction l as [|c l IH]; intros [p f] Hl.
  { exists [], []. rewrite !app_nil_r. split; [done|]. set_solver. }
  cbn [ofold]. destruct (Hl c ltac:(by left)) as (s & Hs & Hv). rewrite (filterPiece_run _ _ _ _ _ Hs).
  assert (forall c', c' ∈ l -> c' ∈ c :: l) as Hin by (intros; by right).
  destruct Hv as [(Hc & Ha & Hsel)|[(Hc & Ha)|(Hc & Ha & Hsel)]]; rewrite Hc; cbn [obind];
    edestruct IH as (p' & f' & -> & H1 & H2); [by intros c' Hc'; auto| |by intros c' Hc'; auto| |by intros c' Hc'; auto|]; cbn [fst snd].
  - exists (c :: p'), f'. rewrite <- app_assoc. split; [done|]. split; intros c'.
    + rewrite !elem_of_cons, H1. naive_solver.
    + rewrite H2, elem_of_cons. naive_solver.
  - exists p', (mkFiltered c s :: f'). rewrite <- app_assoc. split; [done|]. split; intros c'.
    + rewrite H1, elem_of_cons. naive_solver.
    + cbn. rewrite !elem_of_cons, H2. naive_solver.
  - exists p', f'. split; [done|]. split; intros c'.
    + rewrite H1, elem_of_cons. split; [naive_solver|]. intros ([->|?] & ? & ?); [congruence|done].
    + rewrite H2, elem_of_cons. naive_solver.
Qed.

(** C14: a PickAll cycle picks exactly the clusters that are eligible, match a
    required affinity term, have the namespace, have only tolerated taints,
    and are not selected already.  It reports as filtered out exactly the
    clusters that fail one of the requirements.  On clusters where every
    required term can be evaluated the stages never fail. *)
Theorem PickAll_picks workOrder state policy cs :
  (forall cs, workOrder cs ≡ₚ cs) -> skippedFilterPlugins state = ∅ ->
  noSpread policy -> tolerationsValid policy -> Forall (evaluable policy) cs ->
  exists scored filtered,
    runAllPluginsForPickAllPlacementType (NewDefaultProfile checker now) workOrder state policy cs = Ok (scored, filtered) /\
    (forall c, c ∈ (Score.Cluster <$> scored) <->
       c ∈ cs /\ admits policy c /\ HasScheduledOrBoundBindingFor state (mc_name c) = false) /\
    (forall c, c ∈ (fc_cluster <$> filtered) <-> c ∈ cs /\ ~ admits policy c).
Proof.
  intros Hperm Hskip Hns Htol Hev. unfold runAllPluginsForPickAllPlacementType.
  destruct (default_preFilter state policy Hns Hskip) as (state' & -> & Hsel & Hsk). cbn [obind].
  change (IsInternalError None) with false. cbv iota. unfold runFilterPlugins.
  destruct (filter_pieces_decided state' policy (workOrder cs) ([], [])) as (passed & filtered & -> & Hp & Hf).
  { intros c Hc. apply default_decides; [done|exact Hsk|].
    rewrite Forall_forall in Hev. apply Hev. by rewrite <- (Hperm cs). }
  eexists _, _. split; [reflexivity|]. cbn [fst snd app].
  assert (HasScheduledOrBoundBindingFor state' = HasScheduledOrBoundBindingFor state) as Heq.
  { unfold HasScheduledOrBoundBindingFor. by rewrite Hsel. }
  split; intros c; [rewrite <- list_fmap_compose, list_fmap_id, Hp, Heq|rewrite Hf]; by rewrite (Hperm cs).
Qed.

End PickAll.

Lemma PickAll_picks_witness :
  let cs := Mem.mem_clusters (ex_mem []) in
  let state := NewCycleState cs [] [[ex_binding "b1" "a" BindingStateBound ∅]] in
  exists scored filtered,
    @runAllPluginsForPickAllPlacementType _ (@NewDefaultProfile RefLib.ref_lib (Eligibility.New []) 0) (fun cs => cs)
      state (ex_active ∅ None) cs = Ok (scored, filtered) /\
    (Sample.cluster "a" ∅ 0 ∈ (Score.Cluster <$> scored) -> False).
Proof.
  intros cs state.
  destruct (@PickAll_picks RefLib.ref_lib (Eligibility.New []) 0 (fun cs => cs) state (ex_active ∅ None) cs)
    as (scored & filtered & Hrun & Hp & _); [reflexivity|reflexivity|exact I|by_decide|by repeat constructor|].
  exists scored, filtered. split; [exact Hrun|]. rewrite Hp. intros (_ & _ & Hsel). vm_compute in Hsel. discriminate Hsel.
Defined.
