(* ===== verification/Queue.v ===== *)
(** * The scheduling queues

    [pkg/scheduler/queue]: the simple queue, one work queue, and the batched
    queue, an active and a batched work queue with a goroutine that moves keys
    from the second to the first.

    The work queue is [k8s.io/client-go/util/workqueue], which is not part of
    the repository: [WorkQueue] lists the calls the queues make and
    [WorkQueueLaws] what the package documents of them, in terms of a view of
    the queue (the keys that wait, in order; those handed out and not yet done;
    those added again meanwhile; those with a delay; and whether the queue is
    shut down). *)

From stdpp Require Import prelude gmap strings.
From S2P Require Import Prelude.

Local Open Scope string_scope.
Local Open Scope list_scope.

(** [PlacementKey] of [queue.go] *)
Notation PlacementKey := string (only parsing).

(** ** Work queues *)

Record wq_view : Set := mkView {
  v_waiting : list string;
  v_processing : gset string;
  v_redo : gset string;
  v_delayed : gset string;
  v_shutdown : bool;
}.

Definition empty_view : wq_view := mkView [] ∅ ∅ ∅ false.

(** Added twice before it is handed out, a key waits once; added while it is
    processed, it waits for [Done]; added after the shutdown, it is dropped. *)
Definition view_add (k : string) (v : wq_view) : wq_view :=
  let 'mkView waiting processing redo delayed shutdown := v in
  if shutdown then v
  else if decide (k ∈ processing) then mkView waiting processing ({[k]} ∪ redo) delayed shutdown
  else if decide (k ∈ waiting) then v
  else mkView (waiting ++ [k]) processing redo delayed shutdown.

Definition view_delay (k : string) (v : wq_view) : wq_view :=
  let 'mkView waiting processing redo delayed shutdown := v in
  if shutdown then v else mkView waiting processing redo ({[k]} ∪ delayed) shutdown.

(** The delay of a key is over. *)
Definition view_fire (k : string) (v : wq_view) : wq_view :=
  let 'mkView waiting processing redo delayed shutdown := v in
  if decide (k ∈ delayed)
  then view_add k (mkView waiting processing redo (delayed ∖ {[k]}) shutdown)
  else v.

Definition view_done (k : string) (v : wq_view) : wq_view :=
  let 'mkView waiting processing redo delayed shutdown := v in
  mkView (if decide (k ∈ redo) then waiting ++ [k] else waiting)
    (processing ∖ {[k]}) (redo ∖ {[k]}) delayed shutdown.

(** The next key, [None] in its place at the shutdown; [None] when the call
    blocks. *)
Definition view_get (v : wq_view) : option (wq_view * option string) :=
  let 'mkView waiting processing redo delayed shutdown := v in
  match waiting with
  | k :: r => Some (mkView r ({[k]} ∪ processing) redo delayed shutdown, Some k)
  | [] => if shutdown then Some (v, None) else None
  end.

Definition view_shutdown (v : wq_view) : wq_view :=
  mkView (v_waiting v) (v_processing v) (v_redo v) (v_delayed v) true.

Class WorkQueue (RL Q : Type) : Type := {
  DefaultTypedControllerRateLimiter : RL;
  NewTypedRateLimitingQueueWithConfig : RL -> string -> Q;
  wq_Add : string -> Q -> Q;
  wq_AddAfter : string -> Z -> Q -> Q;
  wq_AddRateLimited : string -> Q -> Q;
  wq_Forget : string -> Q -> Q;
  wq_Done : string -> Q -> Q;
  wq_Get : Q -> option (Q * option string);
  wq_Len : Q -> nat;
  wq_ShuttingDown : Q -> bool;
  wq_ShutDown : Q -> Q;
  (** [ShutDownWithDrain] starts the shutdown and returns once the queue is drained. *)
  wq_StartDrain : Q -> Q;
  wq_Drained : Q -> bool;
  (** What the queue does by itself when the delay of a key is over. *)
  wq_Fire : string -> Q -> Q;
}.
#[global] Hint Mode WorkQueue - ! : typeclass_instances.
Arguments DefaultTypedControllerRateLimiter {RL} Q {_}.

Class WorkQueueLaws (RL Q : Type) `{WQ : WorkQueue RL Q} : Type := {
  view : Q -> wq_view;
  view_New rl name : view (NewTypedRateLimitingQueueWithConfig rl name) = empty_view;
  view_Add k q : view (wq_Add k q) = view_add k (view q);
  (** Without a delay to wait for, these are [Add]. *)
  view_AddAfter k d q :
    view (wq_AddAfter k d q) = if (0 <? d)%Z then view_delay k (view q) else view_add k (view q);
  view_AddRateLimited k q :
    view (wq_AddRateLimited k q) = view_delay k (view q) \/ view (wq_AddRateLimited k q) = view_add k (view q);
  view_Forget k q : view (wq_Forget k q) = view q;
  view_Done k q : view (wq_Done k q) = view_done k (view q);
  view_Get q :
    match wq_Get q with
    | Some (q', r) => view_get (view q) = Some (view q', r)
    | None => view_get (view q) = None
    end;
  view_Len q : wq_Len q = length (v_waiting (view q));
  view_ShuttingDown q : wq_ShuttingDown q = v_shutdown (view q);
  view_ShutDown q : view (wq_ShutDown q) = view_shutdown (view q);
  view_StartDrain q : view (wq_StartDrain q) = view_shutdown (view q);
  view_Drained q : wq_Drained q = true -> v_processing (view q) = ∅;
  view_Fire k q : view (wq_Fire k q) = view_fire k (view q);
}.
#[global] Hint Mode WorkQueueLaws - ! - : typeclass_instances.

(** The interface both queues implement ([queue.go]); [None] as the result of
    [NextPlacementKey] when the call blocks, and [None] for the key when the
    queue is closed. *)
Class PlacementSchedulingQueue (T : Type) : Type := {
  Add : PlacementKey -> T -> T;
  AddRateLimited : PlacementKey -> T -> T;
  AddAfter : PlacementKey -> Z -> T -> T;
  AddBatched : PlacementKey -> T -> T;
  Close : T -> outcome T;
  NextPlacementKey : T -> option (T * option PlacementKey);
  Done : PlacementKey -> T -> T;
  Forget : PlacementKey -> T -> T;
}.
#[global] Hint Mode PlacementSchedulingQueue ! : typeclass_instances.

Section Queues.
Context {RL Q : Type} {WQ : WorkQueue RL Q}.

(** ** The simple queue: [simple.go] *)

Record simplePlacementSchedulingQueue : Type := mkSimple { sq_active : Q }.

Definition simpleName : string := "simplePlacementSchedulingQueue".

Definition NewSimplePlacementSchedulingQueue (name : string) (rateLimiter : option RL)
    : simplePlacementSchedulingQueue :=
  mkSimple (NewTypedRateLimitingQueueWithConfig
    (default (DefaultTypedControllerRateLimiter Q) rateLimiter)
    (if decide (name = "") then simpleName else name)).

Definition simpleAdd (k : PlacementKey) (sq : simplePlacementSchedulingQueue) := mkSimple (wq_Add k (sq_active sq)).
Definition simpleAddRateLimited (k : PlacementKey) (sq : simplePlacementSchedulingQueue) :=
  mkSimple (wq_AddRateLimited k (sq_active sq)).
Definition simpleAddAfter (k : PlacementKey) (duration : Z) (sq : simplePlacementSchedulingQueue) :=
  mkSimple (wq_AddAfter k duration (sq_active sq)).
Definition simpleAddBatched (k : PlacementKey) (sq : simplePlacementSchedulingQueue) :=
  mkSimple (wq_Add k (sq_active sq)).
Definition simpleClose (sq : simplePlacementSchedulingQueue) := mkSimple (wq_ShutDown (sq_active sq)).
Definition simpleNextPlacementKey (sq : simplePlacementSchedulingQueue)
    : option (simplePlacementSchedulingQueue * option PlacementKey) :=
  match wq_Get (sq_active sq) with
  | Some (q, r) => Some (mkSimple q, r)
  | None => None
  end.
Definition simpleDone (k : PlacementKey) (sq : simplePlacementSchedulingQueue) := mkSimple (wq_Done k (sq_active sq)).
Definition simpleForget (k : PlacementKey) (sq : simplePlacementSchedulingQueue) :=
  mkSimple (wq_Forget k (sq_active sq)).

#[export] Instance simple_queue : PlacementSchedulingQueue simplePlacementSchedulingQueue := {|
  Add := simpleAdd; AddRateLimited := simpleAddRateLimited; AddAfter := simpleAddAfter;
  AddBatched := simpleAddBatched; Close := fun sq => Ok (simpleClose sq);
  NextPlacementKey := simpleNextPlacementKey; Done := simpleDone; Forget := simpleForget |}.

(** ** The batched queue: [batched.go] *)

(** [moveNow] by whether it has been closed. *)
Record batchedProcessingPlacementSchedulingQueue : Type := mkBatched {
  bq_active : Q;
  bq_batched : Q;
  bq_moveNow_closed : bool;
  bq_movePeriodSeconds : Z;
}.

Definition set_active (q : Q) (bq : batchedProcessingPlacementSchedulingQueue) :=
  mkBatched q (bq_batched bq) (bq_moveNow_closed bq) (bq_movePeriodSeconds bq).
Definition set_batched (q : Q) (bq : batchedProcessingPlacementSchedulingQueue) :=
  mkBatched (bq_active bq) q (bq_moveNow_closed bq) (bq_movePeriodSeconds bq).

Definition batchedName : string := "batchedProcessingPlacementSchedulingQueue".
Definition defaultMovePeriodSeconds : Z := 300.
Definition maxNumberOfKeysToMoveFromBatchedToActiveQueuePerGo : Z := 20000.

Definition NewBatchedProcessingPlacementSchedulingQueue (name : string)
    (activeQRateLimiter batchedQRateLimiter : option RL) (movePeriodSeconds : Z)
    : batchedProcessingPlacementSchedulingQueue :=
  let name := if decide (name = "") then batchedName else name in
  mkBatched
    (NewTypedRateLimitingQueueWithConfig (default (DefaultTypedControllerRateLimiter Q) activeQRateLimiter)
       (name +:+ "_Active"))
    (NewTypedRateLimitingQueueWithConfig (default (DefaultTypedControllerRateLimiter Q) batchedQRateLimiter)
       (name +:+ "_Batched"))
    false
    (if (movePeriodSeconds <=? 0)%Z then defaultMovePeriodSeconds else movePeriodSeconds).

Definition batchedAdd (k : PlacementKey) (bq : batchedProcessingPlacementSchedulingQueue) :=
  set_active (wq_Add k (bq_active bq)) bq.
Definition batchedAddRateLimited (k : PlacementKey) (bq : batchedProcessingPlacementSchedulingQueue) :=
  set_active (wq_AddRateLimited k (bq_active bq)) bq.
Definition batchedAddAfter (k : PlacementKey) (duration : Z) (bq : batchedProcessingPlacementSchedulingQueue) :=
  set_active (wq_AddAfter k duration (bq_active bq)) bq.
Definition batchedAddBatched (k : PlacementKey) (bq : batchedProcessingPlacementSchedulingQueue) :=
  set_batched (wq_Add k (bq_batched bq)) bq.

(** [close(bq.moveNow)] *)
Definition close_moveNow (bq : batchedProcessingPlacementSchedulingQueue)
    : outcome batchedProcessingPlacementSchedulingQueue :=
  if bq_moveNow_closed bq then Panic "close of closed channel"
  else Ok (mkBatched (bq_active bq) (bq_batched bq) true (bq_movePeriodSeconds bq)).

Definition batchedClose (bq : batchedProcessingPlacementSchedulingQueue)
    : outcome batchedProcessingPlacementSchedulingQueue :=
  let! bq := close_moveNow bq in
  let bq := set_batched (wq_ShutDown (bq_batched bq)) bq in
  Ok (set_active (wq_ShutDown (bq_active bq)) bq).

Definition batchedNextPlacementKey (bq : batchedProcessingPlacementSchedulingQueue)
    : option (batchedProcessingPlacementSchedulingQueue * option PlacementKey) :=
  match wq_Get (bq_active bq) with
  | Some (q, r) => Some (set_active q bq, r)
  | None => None
  end.
Definition batchedDone (k : PlacementKey) (bq : batchedProcessingPlacementSchedulingQueue) :=
  set_active (wq_Done k (bq_active bq)) bq.
Definition batchedForget (k : PlacementKey) (bq : batchedProcessingPlacementSchedulingQueue) :=
  set_active (wq_Forget k (bq_active bq)) bq.

#[export] Instance batched_queue : PlacementSchedulingQueue batchedProcessingPlacementSchedulingQueue := {|
  Add := batchedAdd; AddRateLimited := batchedAddRateLimited; AddAfter := batchedAddAfter;
  AddBatched := batchedAddBatched; Close := batchedClose;
  NextPlacementKey := batchedNextPlacementKey; Done := batchedDone; Forget := batchedForget |}.

(** ** The mover

    The goroutine of [Run], with a state between any two of its calls on the
    two queues: other goroutines act in between.  The test of [Len] and the
    [Get] after it are one step, since the mover is the only reader of the
    batched queue.  [last] says that the goroutine returns after the move. *)

Inductive mover : Type :=
| Selecting
| Popping (last : bool) (keysToMove : list PlacementKey)
| Moving (last : bool) (keys : list PlacementKey)
| Marking (last : bool) (key : PlacementKey) (keys : list PlacementKey)
| Forgetting (last : bool) (key : PlacementKey) (keys : list PlacementKey)
| Returned.

(** What [select] received: a value sent on [moveNow], the zero value that a
    closed channel yields, or the tick of the timer. *)
Inductive received : Set :=
| Sent
| ChannelClosed
| TimerFired.

(** [case _, closed := <-bq.moveNow]: the second value of a receive is true when
    the value was sent, and false when the channel is closed and empty. *)
Definition receive_ok (r : received) : bool :=
  match r with Sent => true | _ => false end.

Definition startMove (r : received) (bq : batchedProcessingPlacementSchedulingQueue) : mover :=
  match r with
  | TimerFired => Popping false []
  | Sent | ChannelClosed =>
      let closed := receive_ok r in
      if closed && wq_ShuttingDown (bq_batched bq) then Popping true [] else Popping false []
  end.

(** One step of the loop that pops: whether it goes on, with which keys. *)
Definition popKey (keysToMove : list PlacementKey) (batched : Q) : Q * list PlacementKey * bool :=
  if (0 <? wq_Len batched)%nat then
    match wq_Get batched with
    | Some (batched, Some placementKey) =>
        let keysToMove := keysToMove ++ [placementKey] in
        (batched, keysToMove,
         negb (maxNumberOfKeysToMoveFromBatchedToActiveQueuePerGo <? Z.of_nat (length keysToMove))%Z)
    | Some (batched, None) => (batched, keysToMove, false)
    | None => (batched, keysToMove, true)
    end
  else (batched, keysToMove, false).

Definition moverStep (m : mover) (bq : batchedProcessingPlacementSchedulingQueue)
    : mover * batchedProcessingPlacementSchedulingQueue :=
  match m with
  | Selecting | Returned => (m, bq)
  | Popping last keysToMove =>
      let '(batched, keysToMove, again) := popKey keysToMove (bq_batched bq) in
      (if again then Popping last keysToMove else Moving last keysToMove, set_batched batched bq)
  | Moving last (key :: keys) => (Marking last key keys, set_active (wq_Add key (bq_active bq)) bq)
  | Moving last [] => (if last then Returned else Selecting, bq)
  | Marking last key keys => (Forgetting last key keys, set_batched (wq_Done key (bq_batched bq)) bq)
  | Forgetting last key keys => (Moving last keys, set_batched (wq_Forget key (bq_batched bq)) bq)
  end.

(** [moveAllBatchedItemsToActiveQueue], when nothing else runs. *)
Fixpoint popKeys (fuel : nat) (keysToMove : list PlacementKey) (batched : Q) : Q * list PlacementKey :=
  match fuel with
  | O => (batched, keysToMove)
  | S fuel =>
      let '(batched, keysToMove, again) := popKey keysToMove batched in
      if again then popKeys fuel keysToMove batched else (batched, keysToMove)
  end.

Definition moveKey (bq : batchedProcessingPlacementSchedulingQueue) (key : PlacementKey) :=
  let bq := set_active (wq_Add key (bq_active bq)) bq in
  let bq := set_batched (wq_Done key (bq_batched bq)) bq in
  set_batched (wq_Forget key (bq_batched bq)) bq.

Definition moveAllBatchedItemsToActiveQueue (bq : batchedProcessingPlacementSchedulingQueue)
    : batchedProcessingPlacementSchedulingQueue :=
  let '(batched, keysToMove) := popKeys (S (wq_Len (bq_batched bq))) [] (bq_batched bq) in
  fold_left moveKey keysToMove (set_batched batched bq).

(** ** The queue among its users

    The watchers add keys, the work queues end delays, the scheduler's workers
    take keys and finish them, and [CloseWithDrain] shuts the queues down one
    after the other. *)

Inductive closing : Set :=
| NotClosing
| DrainingBatched
| DrainingActive
| ClosedWithDrain.

Record system : Type := mkSystem {
  sys_queue : batchedProcessingPlacementSchedulingQueue;
  sys_mover : mover;
  sys_workers : gmap nat PlacementKey;
  sys_closing : closing;
}.

Inductive event : Type :=
| EAdd (k : PlacementKey)
| EAddRateLimited (k : PlacementKey)
| EAddAfter (k : PlacementKey) (duration : Z)
| EAddBatched (k : PlacementKey)
| EForget (k : PlacementKey)
| EFire (k : PlacementKey)
| EFireBatched (k : PlacementKey)
| ESelect (r : received)
| EMove
| ETake (worker : nat) (k : PlacementKey)
| EFinish (worker : nat) (k : PlacementKey)
| EClose.

Definition set_queue (bq : batchedProcessingPlacementSchedulingQueue) (s : system) : system :=
  mkSystem bq (sys_mover s) (sys_workers s) (sys_closing s).

(** [CloseWithDrain], a step at a time. *)
Definition closeStep (s : system) : option system :=
  let bq := sys_queue s in
  match sys_closing s with
  | NotClosing =>
      match close_moveNow bq with
      | Ok bq => Some (mkSystem (set_batched (wq_StartDrain (bq_batched bq)) bq) (sys_mover s) (sys_workers s) DrainingBatched)
      | _ => None
      end
  | DrainingBatched =>
      if wq_Drained (bq_batched bq)
      then Some (mkSystem (set_active (wq_StartDrain (bq_active bq)) bq) (sys_mover s) (sys_workers s) DrainingActive)
      else None
  | DrainingActive =>
      if wq_Drained (bq_active bq)
      then Some (mkSystem bq (sys_mover s) (sys_workers s) ClosedWithDrain)
      else None
  | ClosedWithDrain => None
  end.

(** [None] when the event cannot happen. *)
Definition execute (e : event) (s : system) : option system :=
  let bq := sys_queue s in
  match e with
  | EAdd k => Some (set_queue (batchedAdd k bq) s)
  | EAddRateLimited k => Some (set_queue (batchedAddRateLimited k bq) s)
  | EAddAfter k d => Some (set_queue (batchedAddAfter k d bq) s)
  | EAddBatched k => Some (set_queue (batchedAddBatched k bq) s)
  | EForget k => Some (set_queue (batchedForget k bq) s)
  | EFire k => Some (set_queue (set_active (wq_Fire k (bq_active bq)) bq) s)
  | EFireBatched k => Some (set_queue (set_batched (wq_Fire k (bq_batched bq)) bq) s)
  | ESelect r =>
      match sys_mover s with
      | Selecting =>
          if match r with ChannelClosed => bq_moveNow_closed bq | Sent => negb (bq_moveNow_closed bq) | TimerFired => true end
          then Some (mkSystem bq (startMove r bq) (sys_workers s) (sys_closing s))
          else None
      | _ => None
      end
  | EMove =>
      match sys_mover s with
      | Selecting | Returned => None
      | m => let '(m, bq) := moverStep m bq in Some (mkSystem bq m (sys_workers s) (sys_closing s))
      end
  | ETake i k =>
      match sys_workers s !! i, batchedNextPlacementKey bq with
      | None, Some (bq, Some k') =>
          if decide (k' = k) then Some (mkSystem bq (sys_mover s) (<[i := k]> (sys_workers s)) (sys_closing s)) else None
      | _, _ => None
      end
  | EFinish i k =>
      if decide (sys_workers s !! i = Some k)
      then Some (mkSystem (batchedDone k bq) (sys_mover s) (delete i (sys_workers s)) (sys_closing s))
      else None
  | EClose => closeStep s
  end.

Fixpoint run (tr : list event) (s : system) : option system :=
  match tr with
  | [] => Some s
  | e :: tr => match execute e s with Some s => run tr s | None => None end
  end.

Definition start (bq : batchedProcessingPlacementSchedulingQueue) : system :=
  mkSystem bq Selecting ∅ NotClosing.

End Queues.
