(* ===== verification/QueueProofs.v ===== *)
(** * The scheduling queues at work

    Every execution of the batched queue with its mover, the watchers that add
    keys, the scheduler's workers and [CloseWithDrain], in any interleaving:
    no key is lost, no key is processed twice at the same time, every move ends
    and delivers what was waiting when it began. *)

From stdpp Require Import prelude gmap strings.
From S2P Require Import Prelude Queue.

Local Open Scope string_scope.
Local Open Scope list_scope.

(** ** Views *)

Record wf_view (v : wq_view) : Prop := mkWf {
  wf_waiting : NoDup (v_waiting v);
  wf_redo : v_redo v ⊆ v_processing v;
  wf_apart : forall k, k ∈ v_waiting v -> k ∉ v_processing v;
}.

(** The key will be handed out again. *)
Definition pending (v : wq_view) (k : string) : Prop :=
  k ∈ v_waiting v \/ k ∈ v_redo v \/ k ∈ v_delayed v.

Ltac view_cases v :=
  destruct v as [waiting processing redo delayed shutdown];
  repeat match goal with
  | H : wf_view _ |- _ => destruct H as [?Hnd ?Hredo ?Happ]
  end; cbn in *.

Lemma NoDup_snoc {A} (l : list A) x : NoDup l -> x ∉ l -> NoDup (l ++ [x]).
Proof. intros Hl Hx. apply NoDup_app. split_and!; [done|set_solver|apply NoDup_singleton]. Qed.

Lemma wf_empty : wf_view empty_view.
Proof. split; cbn; [constructor|set_solver|set_solver]. Qed.

Lemma wf_add k v : wf_view v -> wf_view (view_add k v).
Proof.
  intros H. view_cases v. repeat case_match; split; cbn; try done.
  - set_solver.
  - by apply NoDup_snoc.
  - set_solver.
Qed.

Lemma wf_delay k v : wf_view v -> wf_view (view_delay k v).
Proof. intros H. view_cases v. by case_match; split. Qed.

Lemma wf_fire k v : wf_view v -> wf_view (view_fire k v).
Proof.
  intros H. destruct v as [wa p r d sh]. cbn. case_match; [|done].
  apply (wf_add k (mkView wa p r _ sh)). by destruct H.
Qed.

Lemma wf_done k v : wf_view v -> wf_view (view_done k v).
Proof.
  intros H. view_cases v. split; cbn.
  - case_match; [|done]. apply NoDup_snoc; [done|]. set_solver.
  - set_solver.
  - intros k'. case_match; set_solver.
Qed.

Lemma wf_shutdown v : wf_view v -> wf_view (view_shutdown v).
Proof. intros H. by view_cases v. Qed.

Lemma wf_get v v' r : wf_view v -> view_get v = Some (v', r) -> wf_view v'.
Proof.
  intros H. view_cases v. destruct waiting as [|k wa]; [by destruct shutdown; intros [= <- <-]|].
  intros [= <- <-]. apply NoDup_cons in Hnd as [Hk Hnd]. split; cbn; [done|set_solver|].
  intros k' Hk'. specialize (Happ k' ltac:(set_solver)). set_solver.
Qed.

Create HintDb views.
#[export] Hint Resolve wf_add wf_delay wf_fire wf_done wf_shutdown wf_empty : views.

(** What each call does to the keys that are pending or processed. *)
Lemma view_add_spec k v :
  v_processing (view_add k v) = v_processing v /\
  v_shutdown (view_add k v) = v_shutdown v /\
  (forall k', pending v k' -> pending (view_add k v) k') /\
  (v_shutdown v = false -> pending (view_add k v) k).
Proof. unfold pending. view_cases v. repeat case_match; cbn; set_solver. Qed.

Lemma view_delay_spec k v :
  v_processing (view_delay k v) = v_processing v /\
  v_shutdown (view_delay k v) = v_shutdown v /\
  (forall k', pending v k' -> pending (view_delay k v) k') /\
  (v_shutdown v = false -> pending (view_delay k v) k).
Proof. unfold pending. view_cases v. case_match; cbn; set_solver. Qed.

Lemma view_fire_spec k v :
  v_processing (view_fire k v) = v_processing v /\
  v_shutdown (view_fire k v) = v_shutdown v /\
  (v_shutdown v = false -> forall k', pending v k' -> pending (view_fire k v) k').
Proof.
  unfold pending. view_cases v. repeat case_match; cbn; try set_solver.
  all: split_and!; try done; intros _ k' Hk'; destruct (decide (k' = k)); set_solver.
Qed.

Lemma view_done_spec k v :
  v_processing (view_done k v) = v_processing v ∖ {[k]} /\
  v_shutdown (view_done k v) = v_shutdown v /\
  (forall k', pending v k' -> pending (view_done k v) k').
Proof.
  unfold pending. view_cases v. split_and!; [done..|]. intros k' Hk'.
  case_match; destruct (decide (k' = k)); set_solver.
Qed.

Lemma view_get_spec v v' k :
  view_get v = Some (v', Some k) ->
  v_waiting v = k :: v_waiting v' /\
  v_processing v' = {[k]} ∪ v_processing v /\ v_shutdown v' = v_shutdown v /\
  (forall k', pending v k' -> k' = k \/ pending v' k').
Proof.
  unfold pending. view_cases v. destruct waiting as [|k0 wa]; [by destruct shutdown|].
  intros [= <- <-]. cbn. set_solver.
Qed.

Lemma view_get_closed v v' : view_get v = Some (v', None) -> v' = v.
Proof. view_cases v. destruct waiting; [destruct shutdown|]; naive_solver. Qed.

Lemma view_get_nonempty v : v_waiting v <> [] -> exists v' k, view_get v = Some (v', Some k).
Proof. view_cases v. destruct waiting; [done|eauto]. Qed.

Section Proofs.
Context {RL Q : Type} {WQ : WorkQueue RL Q} {WQL : WorkQueueLaws RL Q}.

Notation batchedQueue := (batchedProcessingPlacementSchedulingQueue (Q := Q)).
Notation System := (system (Q := Q)).

Definition av (s : System) : wq_view := view (bq_active (sys_queue s)).
Definition bv (s : System) : wq_view := view (bq_batched (sys_queue s)).

(** The keys that the mover has taken and not marked as done. *)
Definition held (m : mover) : list string :=
  match m with
  | Popping _ keys | Moving _ keys | Forgetting _ _ keys => keys
  | Marking _ k keys => k :: keys
  | Selecting | Returned => []
  end.

(** The keys that the mover has yet to add to the active queue. *)
Definition carried (m : mover) : list string :=
  match m with
  | Popping _ keys | Moving _ keys | Marking _ _ keys | Forgetting _ _ keys => keys
  | Selecting | Returned => []
  end.

Definition cap : Z := maxNumberOfKeysToMoveFromBatchedToActiveQueuePerGo.

Record inv (s : System) : Prop := mkInv {
  inv_active : wf_view (av s);
  inv_batched : wf_view (bv s);
  inv_held_nodup : NoDup (held (sys_mover s));
  inv_held : forall k, k ∈ v_processing (bv s) <-> k ∈ held (sys_mover s);
  inv_workers : forall k, k ∈ v_processing (av s) <-> exists i, sys_workers s !! i = Some k;
  inv_exclusive : forall i j k, sys_workers s !! i = Some k -> sys_workers s !! j = Some k -> i = j;
  inv_cap : forall last keys, sys_mover s = Popping last keys -> (Z.of_nat (length keys) <= cap)%Z;
}.

(** *** What an event does, in terms of the views *)

Lemma popKey_spec keys (b b' : Q) keys' again :
  popKey keys b = (b', keys', again) ->
  (v_waiting (view b) = [] /\ view b' = view b /\ keys' = keys /\ again = false) \/
  (exists k, view_get (view b) = Some (view b', Some k) /\ keys' = keys ++ [k] /\
     again = negb (cap <? Z.of_nat (length keys'))%Z).
Proof.
  unfold popKey. rewrite view_Len. pose proof (view_Get b) as Hg.
  destruct (v_waiting (view b)) as [|k0 r] eqn:Hw; cbn.
  - intros [= <- <- <-]. left. by split_and!.
  - destruct (view_get_nonempty (view b)) as (v' & k & Hv); [by rewrite Hw|].
    destruct (wq_Get b) as [[q o]|]; [|congruence].
    rewrite Hv in Hg. destruct o as [k'|]; [|congruence].
    injection Hg as Hq Hk. subst v' k'. intros [= <- <- <-]. right. exists k. by rewrite Hv.
Qed.

(** An event that only adds keys, ends delays or shuts down. *)
Definition calm (v v' : wq_view) : Prop :=
  wf_view v -> wf_view v' /\ v_processing v' = v_processing v.

Lemma calm_refl v : calm v v.
Proof. by intros H. Qed.

Lemma calm_add k v : calm v (view_add k v).
Proof. intros H. split; [auto with views|apply view_add_spec]. Qed.

Lemma calm_delay k v : calm v (view_delay k v).
Proof. intros H. split; [auto with views|apply view_delay_spec]. Qed.

Lemma calm_fire k v : calm v (view_fire k v).
Proof. intros H. split; [auto with views|apply view_fire_spec]. Qed.

Lemma calm_shutdown v : calm v (view_shutdown v).
Proof. intros H. split; [auto with views|done]. Qed.

Lemma calm_AddRateLimited k (q : Q) : calm (view q) (view (wq_AddRateLimited k q)).
Proof. destruct (view_AddRateLimited k q) as [-> | ->]; [apply calm_delay|apply calm_add]. Qed.

Lemma calm_AddAfter k d (q : Q) : calm (view q) (view (wq_AddAfter k d q)).
Proof. rewrite view_AddAfter. case_match; [apply calm_delay|apply calm_add]. Qed.

Lemma inv_calm s (bq : batchedQueue) c :
  inv s -> calm (av s) (view (bq_active bq)) -> calm (bv s) (view (bq_batched bq)) ->
  inv (mkSystem bq (sys_mover s) (sys_workers s) c).
Proof.
  intros [Ha Hb Hn Hh Hw He Hc] Hca Hcb. destruct (Hca Ha) as [Ha' Hap], (Hcb Hb) as [Hb' Hbp].
  split; cbn; [done|done|done| | |done|done]; intros k; unfold av, bv; cbn.
  - by rewrite Hbp.
  - by rewrite Hap.
Qed.

Lemma inv_close s s' : inv s -> closeStep s = Some s' -> inv s'.
Proof.
  intros Hi. unfold closeStep, close_moveNow. repeat case_match; intros [= <-]; simplify_eq.
  - apply inv_calm; cbn; [done|apply calm_refl|]. rewrite view_StartDrain. apply calm_shutdown.
  - apply inv_calm; cbn; [done| |apply calm_refl]. rewrite view_StartDrain. apply calm_shutdown.
  - apply inv_calm; cbn; [done|apply calm_refl..].
Qed.

Lemma inv_take s i k (q : Q) :
  inv s -> sys_workers s !! i = None -> view_get (av s) = Some (view q, Some k) ->
  inv (mkSystem (set_active q (sys_queue s)) (sys_mover s) (<[i := k]> (sys_workers s)) (sys_closing s)).
Proof.
  intros [Ha Hb Hn Hh Hw He Hc] Hi Hg.
  pose proof (wf_get _ _ _ Ha Hg) as Ha'. destruct (view_get_spec _ _ _ Hg) as (Hwait & Hp & _).
  assert (Hk : k ∉ v_processing (av s)) by (apply Ha; rewrite Hwait; set_solver).
  split; unfold av, bv; cbn; [done|done|done|done| | |done].
  - intros k'. rewrite Hp, elem_of_union, elem_of_singleton, Hw. split.
    + intros [-> |[j Hj]]; [exists i; apply lookup_insert_eq|].
      exists j. rewrite lookup_insert_ne; [done|congruence].
    + intros [j [[<- <-]|[_ Hj]]%lookup_insert_Some]; eauto.
  - intros j1 j2 k' [[<- <-]|[_ H1]]%lookup_insert_Some [[<- ?]|[_ H2]]%lookup_insert_Some; [done| | |eauto].
    + exfalso. apply Hk, Hw. eauto.
    + subst. exfalso. apply Hk, Hw. eauto.
Qed.

Lemma inv_finish s i k :
  inv s -> sys_workers s !! i = Some k ->
  inv (mkSystem (batchedDone k (sys_queue s)) (sys_mover s) (delete i (sys_workers s)) (sys_closing s)).
Proof.
  intros [Ha Hb Hn Hh Hw He Hc] Hi. destruct (view_done_spec k (av s)) as (Hp & _ & _).
  split; unfold av, bv; cbn; rewrite ?view_Done; [auto with views|done|done|done| | |done].
  - intros k'. unfold av in Hp. rewrite Hp, elem_of_difference, elem_of_singleton, Hw. split.
    + intros [[j Hj] Hne]. exists j. rewrite lookup_delete_ne; [done|congruence].
    + intros [j [Hji Hj]%lookup_delete_Some]. split; [eauto|]. intros ->. eauto.
  - intros j1 j2 k' [_ H1]%lookup_delete_Some [_ H2]%lookup_delete_Some. eauto.
Qed.

Lemma inv_move s m bq :
  inv s -> moverStep (sys_mover s) (sys_queue s) = (m, bq) ->
  inv (mkSystem bq m (sys_workers s) (sys_closing s)).
Proof.
  intros [Ha Hb Hn Hh Hw He Hc]. destruct (sys_mover s) as [|last keys|last [|k keys]|last k keys|last k keys|] eqn:Hm; cbn.
  - intros [= <- <-]. by split.
  - destruct (popKey keys (bq_batched (sys_queue s))) as [[b keys'] again] eqn:Hp.
    intros [= <- <-]. apply popKey_spec in Hp as [(Hwait & Hv & -> & ->)|(k & Hg & -> & ->)].
    + split; unfold av, bv; cbn; rewrite ?Hv; try done.
    + destruct (view_get_spec _ _ _ Hg) as (Hwait & Hp & _).
      pose proof (wf_get _ _ _ Hb Hg) as Hb'. cbn in *.
      assert (Hk : k ∉ keys) by (rewrite <-Hh; apply Hb; unfold bv; rewrite Hwait; set_solver).
      assert (Hheld : forall b, held (if b : bool then Popping last (keys ++ [k]) else Moving last (keys ++ [k])) = keys ++ [k]) by by intros [].
      split; unfold av, bv; cbn; rewrite ?Hheld; [done|done|by apply NoDup_snoc| |done|done|].
      * intros k'. rewrite Hp, elem_of_union, elem_of_singleton, elem_of_app, list_elem_of_singleton.
        rewrite <-Hh. unfold bv. tauto.
      * intros l ks. case_match; [|done]. intros [= <- <-]. apply negb_true_iff, Z.ltb_ge in H. done.
  - intros [= <- <-]. split; try done; by destruct last.
  - intros [= <- <-]. destruct (calm_add k (av s) Ha) as [Ha' Hp].
    split; unfold av, bv; cbn; rewrite ?view_Add; try done. intros k'. fold (av s). by rewrite Hp.
  - intros [= <- <-]. destruct (view_done_spec k (bv s)) as (Hp & _ & _). cbn in *.
    apply NoDup_cons in Hn as [Hk Hn].
    split; unfold av, bv; cbn; rewrite ?view_Done; [done|auto with views|done| |done|done|done].
    intros k'. fold (bv s). rewrite Hp. specialize (Hh k'). set_solver.
  - intros [= <- <-]. split; unfold av, bv; cbn; rewrite ?view_Forget; done.
  - intros [= <- <-]. by split.
Qed.

Lemma execute_move (s s' : System) :
  execute EMove s = Some s' ->
  exists m bq, moverStep (sys_mover s) (sys_queue s) = (m, bq) /\
    s' = mkSystem bq m (sys_workers s) (sys_closing s).
Proof.
  unfold execute. destruct (sys_mover s) eqn:Hm; try done.
  all: destruct (moverStep _ _) as [m' bq]; intros [= <-]; eauto.
Qed.

Lemma inv_execute e (s s' : System) : inv s -> execute e s = Some s' -> inv s'.
Proof.
  intros Hi. destruct e; cbn; unfold set_queue.
  - intros [= <-]. apply inv_calm; cbn; [done| |apply calm_refl]. rewrite view_Add. apply calm_add.
  - intros [= <-]. apply inv_calm; cbn; [done| |apply calm_refl]. apply calm_AddRateLimited.
  - intros [= <-]. apply inv_calm; cbn; [done| |apply calm_refl]. apply calm_AddAfter.
  - intros [= <-]. apply inv_calm; cbn; [done|apply calm_refl|]. rewrite view_Add. apply calm_add.
  - intros [= <-]. apply inv_calm; cbn; [done| |apply calm_refl]. rewrite view_Forget. apply calm_refl.
  - intros [= <-]. apply inv_calm; cbn; [done| |apply calm_refl]. rewrite view_Fire. apply calm_fire.
  - intros [= <-]. apply inv_calm; cbn; [done|apply calm_refl|]. rewrite view_Fire. apply calm_fire.
  - destruct (sys_mover s) eqn:Hm; try done. case_match; [|done]. intros [= <-].
    destruct Hi as [Ha Hb Hn Hh Hw He Hc]. rewrite Hm in *.
    assert (Hs : exists last, startMove r (sys_queue s) = Popping last [])
      by (unfold startMove; repeat case_match; eauto).
    destruct Hs as [last Hs]. rewrite Hs. split; cbn; try done. by intros ? ? [= <- <-].
  - change (execute EMove s = Some s' -> inv s'). intros (m & bq & Hs & ->)%execute_move. by apply inv_move.
  - destruct (sys_workers s !! worker) eqn:Hwk; [done|]. unfold batchedNextPlacementKey.
    pose proof (view_Get (bq_active (sys_queue s))) as Hg.
    destruct (wq_Get _) as [[q [k'|]]|]; try done. case_match; [|done]. intros [= <-]. subst k'.
    by apply inv_take.
  - case_match; [|done]. intros [= <-]. by apply inv_finish.
  - intros H. by eapply inv_close.
Qed.

Lemma inv_run tr s s' : inv s -> run tr s = Some s' -> inv s'.
Proof.
  revert s. induction tr as [|e tr IH]; cbn; intros s Hi; [by intros [= <-]|].
  destruct (execute e s) as [s1|] eqn:He; [|done]. apply IH. by eapply inv_execute.
Qed.

Definition fresh (bq : batchedQueue) : Prop :=
  view (bq_active bq) = empty_view /\ view (bq_batched bq) = empty_view.

Lemma fresh_New name a b p : fresh (NewBatchedProcessingPlacementSchedulingQueue name a b p).
Proof. split; apply view_New. Qed.

Lemma inv_start bq : fresh bq -> inv (start bq).
Proof.
  intros [Ha Hb]. split; unfold av, bv; cbn; rewrite ?Ha, ?Hb; cbn; auto with views.
  - constructor.
  - set_solver.
  - intros k. split; [set_solver|intros [i Hi]; by rewrite lookup_empty in Hi].
  - intros i j k Hi. by rewrite lookup_empty in Hi.
  - done.
Qed.

(** *** Keys on their way *)

(** Neither queue is shut down. *)
Definition running (s : System) : Prop := v_shutdown (av s) = false /\ v_shutdown (bv s) = false.

Definition tracked (s : System) (k : string) : Prop :=
  pending (av s) k \/ pending (bv s) k \/ k ∈ carried (sys_mover s).

(** The event asks for the placement to be scheduled. *)
Definition enqueues (e : event) (k : string) : Prop :=
  e = EAdd k \/ e = EAddRateLimited k \/ (exists d, e = EAddAfter k d) \/ e = EAddBatched k.

(** A call that only adds keys or ends delays. *)
Record keeps (v v' : wq_view) : Prop := mkKeeps {
  keeps_shutdown : v_shutdown v' = v_shutdown v;
  keeps_pending : v_shutdown v = false -> forall k, pending v k -> pending v' k;
  keeps_order : v_waiting v `prefix_of` v_waiting v';
}.

Lemma view_add_order k v : v_waiting v `prefix_of` v_waiting (view_add k v).
Proof. view_cases v. repeat case_match; cbn; auto using prefix_app_r. Qed.

Lemma keeps_refl v : keeps v v.
Proof. by split. Qed.

Lemma keeps_add k v : keeps v (view_add k v).
Proof. destruct (view_add_spec k v) as (_ & Hs & Hp & _). split; auto using view_add_order. Qed.

Lemma keeps_delay k v : keeps v (view_delay k v).
Proof. destruct (view_delay_spec k v) as (_ & Hs & Hp & _). split; auto. view_cases v. by case_match. Qed.

Lemma keeps_fire k v : keeps v (view_fire k v).
Proof.
  destruct (view_fire_spec k v) as (_ & Hs & Hp). split; auto.
  destruct v as [wa p r d sh]. cbn. case_match; [|done]. apply (view_add_order k (mkView wa p r _ sh)).
Qed.

Lemma keeps_done k v : keeps v (view_done k v).
Proof.
  destruct (view_done_spec k v) as (_ & Hs & Hp). split; auto.
  view_cases v. case_match; auto using prefix_app_r.
Qed.

Lemma keeps_Add k (q : Q) : keeps (view q) (view (wq_Add k q)).
Proof. rewrite view_Add. apply keeps_add. Qed.

Lemma keeps_Forget k (q : Q) : keeps (view q) (view (wq_Forget k q)).
Proof. rewrite view_Forget. apply keeps_refl. Qed.

Lemma keeps_Fire k (q : Q) : keeps (view q) (view (wq_Fire k q)).
Proof. rewrite view_Fire. apply keeps_fire. Qed.

Lemma keeps_Done k (q : Q) : keeps (view q) (view (wq_Done k q)).
Proof. rewrite view_Done. apply keeps_done. Qed.

Lemma keeps_AddRateLimited k (q : Q) : keeps (view q) (view (wq_AddRateLimited k q)).
Proof. destruct (view_AddRateLimited k q) as [-> | ->]; [apply keeps_delay|apply keeps_add]. Qed.

Lemma keeps_AddAfter k d (q : Q) : keeps (view q) (view (wq_AddAfter k d q)).
Proof. rewrite view_AddAfter. case_match; [apply keeps_delay|apply keeps_add]. Qed.

Definition is_move (e : event) : bool := match e with EMove => true | _ => false end.

(** The kinds of event. *)
Variant kind_of_event (e : event) (s s' : System) : Prop :=
| KindAdds :
    keeps (av s) (av s') -> keeps (bv s) (bv s') ->
    sys_mover s' = sys_mover s -> is_move e = false -> kind_of_event e s s'
| KindSelects last :
    av s' = av s -> bv s' = bv s -> sys_mover s = Selecting -> sys_mover s' = Popping last [] ->
    (exists r, e = ESelect r) -> kind_of_event e s s'
| KindMoves :
    e = EMove -> moverStep (sys_mover s) (sys_queue s) = (sys_mover s', sys_queue s') ->
    sys_mover s <> Selecting -> sys_mover s <> Returned -> kind_of_event e s s'
| KindTakes w k :
    e = ETake w k -> view_get (av s) = Some (av s', Some k) -> bv s' = bv s ->
    sys_mover s' = sys_mover s -> kind_of_event e s s'
| KindCloses :
    e = EClose -> ~ running s' ->
    (sys_mover s' = sys_mover s) -> v_waiting (bv s') = v_waiting (bv s) -> kind_of_event e s s'.

Lemma execute_kind e s s' : execute e s = Some s' -> kind_of_event e s s'.
Proof.
  destruct e; cbn; unfold set_queue.
  1-7: intros [= <-]; apply KindAdds; unfold av, bv; cbn;
    auto using keeps_refl, keeps_Add, keeps_Forget, keeps_Fire, keeps_AddRateLimited, keeps_AddAfter.
  - destruct (sys_mover s) eqn:Hm; try done. case_match; [|done]. intros [= <-].
    unfold startMove. repeat case_match; eapply KindSelects; eauto.
  - change (execute EMove s = Some s' -> kind_of_event EMove s s'). intros Hx.
    destruct (execute_move _ _ Hx) as (m & bq & Hs & ->). apply KindMoves; cbn; [done|done| |].
    all: intros Hm; cbn in Hx; by rewrite Hm in Hx.
  - destruct (sys_workers s !! worker) eqn:Hwk; [done|]. unfold batchedNextPlacementKey.
    pose proof (view_Get (bq_active (sys_queue s))) as Hg.
    destruct (wq_Get _) as [[q [k'|]]|]; try done. case_match; [|done]. intros [= <-]. subst k'.
    by eapply KindTakes.
  - case_match; [|done]. intros [= <-]. apply KindAdds; unfold av, bv; cbn; auto using keeps_refl, keeps_Done.
  - unfold closeStep, close_moveNow. repeat case_match; intros [= <-]; simplify_eq.
    + apply KindCloses; unfold running, av, bv; cbn; [done| |done|].
      * rewrite view_StartDrain. by intros [_ ?].
      * by rewrite view_StartDrain.
    + apply KindCloses; unfold running, av, bv; cbn; [done| |done|done].
      rewrite view_StartDrain. by intros [? _].
    + apply KindAdds; unfold av, bv; cbn; auto using keeps_refl.
Qed.

Lemma moverStep_keeps s s' :
  moverStep (sys_mover s) (sys_queue s) = (sys_mover s', sys_queue s') ->
  keeps (av s) (av s') /\ v_shutdown (bv s') = v_shutdown (bv s).
Proof.
  unfold av, bv. destruct (sys_mover s) as [|last keys|last [|k keys]|last k keys|last k keys|]; cbn.
  - intros [= _ <-]. auto using keeps_refl.
  - destruct (popKey keys _) as [[b keys'] again] eqn:Hp. intros [= _ <-]. split; [apply keeps_refl|cbn].
    apply popKey_spec in Hp as [(_ & -> & _)|(k & Hg & _)]; [done|].
    by destruct (view_get_spec _ _ _ Hg) as (_ & _ & Hs & _).
  - intros [= _ <-]. auto using keeps_refl.
  - intros [= _ <-]. split; [apply keeps_Add|done].
  - intros [= _ <-]. split; [apply keeps_refl|]. cbn. apply keeps_Done.
  - intros [= _ <-]. split; [apply keeps_refl|]. cbn. apply keeps_Forget.
  - intros [= _ <-]. auto using keeps_refl.
Qed.

Lemma running_before e s s' : execute e s = Some s' -> running s' -> running s.
Proof.
  unfold running. intros He%execute_kind [Ha Hb]. destruct He as [[Hsa _ _] [Hsb _ _]|last Hsa Hsb _ _ _|_ Hm _ _|w k _ Hg Hbv _|_ Hn _ _].
  - by rewrite <-Hsa, <-Hsb.
  - by rewrite <-Hsa, <-Hsb.
  - destruct (moverStep_keeps _ _ Hm) as [[Hs _ _] Hs']. by rewrite <-Hs, <-Hs'.
  - destruct (view_get_spec _ _ _ Hg) as (_ & _ & Hs & _). by rewrite <-Hs, <-Hbv.
  - by destruct Hn.
Qed.

Lemma running_run tr s s' : run tr s = Some s' -> running s' -> running s.
Proof.
  revert s. induction tr as [|e tr IH]; cbn; intros s; [by intros [= <-]|].
  destruct (execute e s) as [s1|] eqn:He; [|done]. intros Hr Hrun. eauto using running_before.
Qed.

(** A move never drops a key: it goes from the batched queue to the mover and
    from there to the active queue. *)
Lemma moverStep_tracked s s' k :
  moverStep (sys_mover s) (sys_queue s) = (sys_mover s', sys_queue s') ->
  running s -> tracked s k -> tracked s' k.
Proof.
  unfold tracked. intros Hm [Ha Hb] Ht. destruct (moverStep_keeps _ _ Hm) as [[_ Hk _] _]. specialize (Hk Ha).
  destruct Ht as [Ht|Ht]; [by left; apply Hk|].
  revert Hm. unfold av, bv in *. destruct (sys_mover s) as [|last keys|last [|k0 keys]|last k0 keys|last k0 keys|]; cbn in *.
  - intros [= <- <-]. auto.
  - destruct (popKey keys _) as [[b keys'] again] eqn:Hp. intros [= Hm' <-]. cbn. right.
    assert (Hc : carried (sys_mover s') = keys') by (by rewrite <-Hm'; destruct again). rewrite Hc.
    apply popKey_spec in Hp as [(_ & -> & -> & _)|(k1 & Hg & -> & _)]; [tauto|].
    destruct (view_get_spec _ _ _ Hg) as (_ & _ & _ & Hp). set_solver.
  - intros [= Hm' <-]. destruct Ht; [auto|set_solver].
  - intros [= <- <-]. cbn. rewrite view_Add.
    destruct (view_add_spec k0 (view (bq_active (sys_queue s)))) as (_ & _ & _ & Hnew). specialize (Hnew Ha).
    set_solver.
  - intros [= <- <-]. cbn. destruct (keeps_Done k0 (bq_batched (sys_queue s))) as [_ Hd _]. specialize (Hd Hb). set_solver.
  - intros [= <- <-]. cbn. rewrite view_Forget. auto.
  - intros [= <- <-]. auto.
Qed.

Lemma tracked_execute e s s' k :
  execute e s = Some s' -> running s' -> tracked s k -> tracked s' k \/ exists i, e = ETake i k.
Proof.
  intros He Hrun Ht. pose proof (running_before _ _ _ He Hrun) as Hrs.
  apply execute_kind in He as [[_ Ka _] [_ Kb _] Hm _|last Ha Hb Hsel Hm _|_ Hm _ _|w k' -> Hg Hb Hm|_ Hn _ _].
  - destruct Hrs. left. unfold tracked in *. rewrite Hm. naive_solver.
  - left. unfold tracked in *. rewrite Ha, Hb. destruct Ht as [|[|Hc]]; [auto..|]. rewrite Hsel in Hc. set_solver.
  - left. by eapply moverStep_tracked.
  - destruct (view_get_spec _ _ _ Hg) as (_ & _ & _ & Hp). unfold tracked in *. rewrite Hb, Hm.
    destruct Ht as [[-> |Ht]%Hp|Ht]; eauto.
  - by destruct Hn.
Qed.

Lemma tracked_run tr s s' k :
  run tr s = Some s' -> running s' -> tracked s k -> tracked s' k \/ exists i, ETake i k ∈ tr.
Proof.
  revert s. induction tr as [|e tr IH]; cbn; intros s; [intros [= <-]; auto|].
  destruct (execute e s) as [s1|] eqn:He; [|done]. intros Hr Hrun Ht.
  pose proof (running_run _ _ _ Hr Hrun) as H1.
  destruct (tracked_execute _ _ _ _ He H1 Ht) as [Ht'|[i ->]]; [|right; exists i; set_solver].
  destruct (IH _ Hr Hrun Ht') as [|[i Hi]]; [auto|right; exists i; set_solver].
Qed.

Lemma enqueues_tracked e s s' k : execute e s = Some s' -> running s -> enqueues e k -> tracked s' k.
Proof.
  intros He [Ha Hb] [-> |[-> |[[d ->]| ->]]]; cbn in He; injection He as <-;
    unfold tracked, av, bv in *; cbn.
  - left. rewrite view_Add. by apply view_add_spec.
  - left. destruct (view_AddRateLimited k (bq_active (sys_queue s))) as [-> | ->]; [by apply view_delay_spec|by apply view_add_spec].
  - left. rewrite view_AddAfter. case_match; [by apply view_delay_spec|by apply view_add_spec].
  - right; left. rewrite view_Add. by apply view_add_spec.
Qed.

Lemma run_app tr1 tr2 (s : System) : run (tr1 ++ tr2) s = match run tr1 s with Some s1 => run tr2 s1 | None => None end.
Proof. revert s. induction tr1 as [|e tr IH]; cbn; intros s; [done|]. by destruct (execute e s). Qed.

(** *** Rounds of the mover *)

Definition idle (m : mover) : Prop := m = Selecting \/ m = Returned.

(** The mover's own steps that are left in its round, at most. *)
Definition rank (m : mover) : Z :=
  match m with
  | Selecting | Returned => 0
  | Popping _ keys => 4 * (cap + 1 - Z.of_nat (length keys)) + 3 * Z.of_nat (length keys) + 2
  | Moving _ keys => 3 * Z.of_nat (length keys) + 1
  | Marking _ _ keys => 3 * Z.of_nat (length keys) + 3
  | Forgetting _ _ keys => 3 * Z.of_nat (length keys) + 2
  end.

Lemma rank_idle s : inv s -> (0 <= rank (sys_mover s))%Z /\ (rank (sys_mover s) = 0%Z -> idle (sys_mover s)).
Proof.
  intros Hi. pose proof (inv_cap s Hi) as Hc. unfold idle.
  destruct (sys_mover s) as [|l keys|l keys|l k keys|l k keys|] eqn:Hm; cbn; try (split; [lia|]).
  1,6: auto.
  all: try lia.
  specialize (Hc _ _ eq_refl). lia.
Qed.

Lemma moverStep_rank s m bq :
  inv s -> moverStep (sys_mover s) (sys_queue s) = (m, bq) -> ~ idle (sys_mover s) ->
  (rank m < rank (sys_mover s))%Z.
Proof.
  intros Hi Hm Hidle. unfold idle in Hidle. pose proof (inv_cap s Hi) as Hc. revert Hm.
  destruct (sys_mover s) as [|last keys|last [|k keys]|last k keys|last k keys|] eqn:Hs; cbn.
  - by destruct Hidle; left.
  - specialize (Hc _ _ eq_refl). destruct (popKey keys _) as [[b keys'] again] eqn:Hp. intros [= <- _].
    apply popKey_spec in Hp as [(_ & _ & -> & ->)|(k & _ & -> & Hag)]; cbn; [lia|].
    destruct again; cbn; rewrite length_app; cbn; lia.
  - intros [= <- _]. destruct last; cbn; lia.
  - intros [= <- _]. cbn. lia.
  - intros [= <- _]. cbn. lia.
  - intros [= <- _]. cbn. lia.
  - by destruct Hidle; right.
Qed.

Definition moves (tr : list event) : Z := Z.of_nat (length (List.filter is_move tr)).

(** Without a new round, the others do not touch the mover. *)
Lemma rank_execute e s s' :
  inv s -> execute e s = Some s' -> (forall r, e <> ESelect r) ->
  (rank (sys_mover s') + moves [e] <= rank (sys_mover s))%Z.
Proof.
  intros Hi He Hsel. unfold moves. pose proof (execute_kind _ _ _ He) as Hk.
  destruct Hk as [_ _ Hm Hmv|last _ _ _ _ [r Hr]| -> Hm Hn1 Hn2|w k' -> _ _ Hm| -> _ Hm _].
  - rewrite Hm. cbn. rewrite Hmv. cbn. lia.
  - by destruct (Hsel r).
  - cbn. pose proof (moverStep_rank _ _ _ Hi Hm) as Hr. unfold idle in Hr. intuition lia.
  - rewrite Hm. cbn. lia.
  - rewrite Hm. cbn. lia.
Qed.

Lemma rank_run tr s s' :
  inv s -> run tr s = Some s' -> (forall r, ESelect r ∉ tr) ->
  (rank (sys_mover s') + moves tr <= rank (sys_mover s))%Z.
Proof.
  revert s. induction tr as [|e tr IH]; cbn; intros s Hi; [intros [= <-]; unfold moves; cbn [List.filter length]; lia|].
  destruct (execute e s) as [s1|] eqn:He; [|done]. intros Hr Hsel.
  pose proof (rank_execute _ _ _ Hi He ltac:(intros r ->; apply (Hsel r); set_solver)) as H1.
  pose proof (IH s1 (inv_execute _ _ _ Hi He) Hr ltac:(intros r Hin; apply (Hsel r); set_solver)) as H2.
  unfold moves in *. cbn in *. destruct (is_move e); cbn in *; lia.
Qed.

(** The mover can always take its next step. *)
Lemma execute_move_enabled (s : System) : ~ idle (sys_mover s) -> exists s', execute EMove s = Some s'.
Proof.
  unfold idle, execute. intros Hidle. destruct (sys_mover s); try (by destruct Hidle; auto).
  all: destruct (moverStep _ _); eauto.
Qed.

(** What is in the batched queue within reach of the round. *)
Definition reachable (s : System) (k : string) : Prop :=
  match sys_mover s with
  | Popping _ keys => k ∈ keys \/ k ∈ take (Z.to_nat (cap + 1) - length keys) (v_waiting (bv s))
  | m => k ∈ carried m
  end \/ pending (av s) k.


Lemma elem_of_take_prefix {A} (x : A) n l l' : x ∈ take n l -> l `prefix_of` l' -> x ∈ take n l'.
Proof. intros Hx [r ->]. rewrite take_app. set_solver. Qed.

Lemma reachable_popped s last keys b keys' again k :
  inv s -> sys_mover s = Popping last keys -> popKey keys (bq_batched (sys_queue s)) = (b, keys', again) ->
  k ∈ keys \/ k ∈ take (Z.to_nat (cap + 1) - length keys) (v_waiting (bv s)) ->
  k ∈ keys' \/ (again = true /\ k ∈ take (Z.to_nat (cap + 1) - length keys') (v_waiting (view b))).
Proof.
  intros Hi Hm Hp Hk. pose proof (inv_cap s Hi _ _ Hm) as Hc. unfold bv in Hk.
  apply popKey_spec in Hp as [(Hw & _ & -> & _)|(k1 & Hg & -> & ->)].
  - rewrite Hw, take_nil in Hk. set_solver.
  - destruct (view_get_spec _ _ _ Hg) as (Hw & _). rewrite Hw in Hk. rewrite length_app. cbn [length].
    replace (Z.to_nat (cap + 1) - length keys) with (S (Z.to_nat (cap + 1) - (length keys + 1))) in Hk by lia.
    cbn [take] in Hk. rewrite elem_of_app, list_elem_of_singleton.
    destruct Hk as [|[-> |Hk]%elem_of_cons]; [auto..|]. right. split; [|done].
    apply negb_true_iff, Z.ltb_ge.
    destruct (Z.to_nat (cap + 1) - (length keys + 1)) eqn:Hn; [by apply not_elem_of_nil in Hk|]. lia.
Qed.

Lemma reachable_move s s' k :
  inv s -> moverStep (sys_mover s) (sys_queue s) = (sys_mover s', sys_queue s') ->
  running s -> reachable s k -> reachable s' k.
Proof.
  unfold reachable. intros Hi Hm [Ha Hb] [Ht|Ht].
  2: { right. destruct (moverStep_keeps _ _ Hm) as [[_ Hk _] _]. auto. }
  revert Hm. destruct (sys_mover s) as [|last keys|last [|k0 keys]|last k0 keys|last k0 keys|] eqn:Hs; cbn in *.
  1,3,7: set_solver.
  - destruct (popKey keys _) as [[b keys'] again] eqn:Hp. intros [= Hm' Hq].
    pose proof (reachable_popped _ _ _ _ _ _ _ Hi Hs Hp Ht) as Hr. left. unfold bv. rewrite <-Hm', <-Hq. cbn.
    destruct again; [intuition|]. cbn. naive_solver.
  - intros [= <- Hq]. unfold av. rewrite <-Hq. cbn. rewrite view_Add.
    destruct (view_add_spec k0 (av s)) as (_ & _ & _ & Hnew). specialize (Hnew Ha). unfold av in *. set_solver.
  - intros [= <- Hq]. auto.
  - intros [= <- Hq]. auto.
Qed.

Lemma reachable_execute e s s' k :
  inv s -> execute e s = Some s' -> running s' -> (forall r, e <> ESelect r) ->
  reachable s k -> reachable s' k \/ exists i, e = ETake i k.
Proof.
  intros Hi He Hrun Hsel Ht. pose proof (running_before _ _ _ He Hrun) as Hrs.
  apply execute_kind in He as [[_ Ka _] [_ _ Kb] Hm _|last _ _ _ _ [r ->]|_ Hm _ _|w k' -> Hg Hb Hm|_ Hn _ _].
  - left. destruct Hrs as [Ha _]. unfold reachable in *. rewrite Hm. destruct Ht as [Ht|Ht]; [left|auto].
    destruct (sys_mover s); try done. destruct Ht; eauto using elem_of_take_prefix.
  - by destruct (Hsel r).
  - left. by eapply reachable_move.
  - unfold reachable in *. rewrite Hb, Hm. destruct (view_get_spec _ _ _ Hg) as (_ & _ & _ & Hp).
    destruct Ht as [Ht|[-> |Ht]%Hp]; eauto.
  - by destruct Hn.
Qed.

Lemma reachable_run tr s s' k :
  inv s -> run tr s = Some s' -> running s' -> (forall r, ESelect r ∉ tr) ->
  reachable s k -> reachable s' k \/ exists i, ETake i k ∈ tr.
Proof.
  revert s. induction tr as [|e tr IH]; cbn; intros s Hi; [intros [= <-]; auto|].
  destruct (execute e s) as [s1|] eqn:He; [|done]. intros Hr Hrun Hsel Ht.
  pose proof (running_run _ _ _ Hr Hrun) as H1.
  assert (Hsel1 : forall r, e <> ESelect r) by (intros r ->; apply (Hsel r); set_solver).
  destruct (reachable_execute _ _ _ _ Hi He H1 Hsel1 Ht) as [Ht'|[i ->]]; [|right; exists i; set_solver].
  destruct (IH s1 (inv_execute _ _ _ Hi He) Hr Hrun ltac:(set_solver) Ht') as [|[i Hin]]; [auto|].
  right. exists i. set_solver.
Qed.

(** *** The whole function and its steps *)

Lemma run_pops fuel keys (bq : batchedQueue) last ws c b keys' :
  length (v_waiting (view (bq_batched bq))) < fuel ->
  popKeys fuel keys (bq_batched bq) = (b, keys') ->
  exists n, run (replicate n EMove) (mkSystem bq (Popping last keys) ws c) =
    Some (mkSystem (set_batched b bq) (Moving last keys') ws c).
Proof.
  revert keys bq. induction fuel as [|fuel IH]; intros keys bq Hlen; [lia|]. cbn [popKeys].
  destruct (popKey keys (bq_batched bq)) as [[b1 keys1] again] eqn:Hp. destruct again.
  - intros Hrest.
    pose proof Hp as [(_ & _ & _ & ?)|(k & Hg & -> & _)]%popKey_spec; [done|].
    destruct (view_get_spec _ _ _ Hg) as (Hw & _). rewrite Hw in Hlen. cbn in Hlen.
    destruct (IH (keys ++ [k]) (set_batched b1 bq)) as [n Hn]; [cbn; lia|done|].
    exists (S n). cbn. by rewrite Hp.
  - intros [= <- <-]. exists 1%nat. cbn. by rewrite Hp.
Qed.

Lemma run_moves keys (bq : batchedQueue) ws c :
  exists n, run (replicate n EMove) (mkSystem bq (Moving false keys) ws c) =
    Some (mkSystem (fold_left moveKey keys bq) Selecting ws c).
Proof.
  revert bq. induction keys as [|k keys IH]; intros bq; [by exists 1%nat|].
  destruct (IH (moveKey bq k)) as [n Hn]. by exists (S (S (S n))).
Qed.

(** The function as the source writes it is a round of the mover in which no one
    else takes a step. *)
Lemma moveAll_is_a_round (bq : batchedQueue) ws c :
  exists n, run (replicate n EMove) (mkSystem bq (Popping false []) ws c) =
    Some (mkSystem (moveAllBatchedItemsToActiveQueue bq) Selecting ws c).
Proof.
  unfold moveAllBatchedItemsToActiveQueue. rewrite view_Len.
  destruct (popKeys _ [] (bq_batched bq)) as [b keys] eqn:Hp.
  destruct (run_pops _ _ bq false ws c b keys ltac:(auto) Hp) as [n1 H1].
  destruct (run_moves keys (set_batched b bq) ws c) as [n2 H2].
  exists (n1 + n2). by rewrite replicate_add, run_app, H1.
Qed.

(** ** The properties *)

(** in every interleaving of the watchers, the work queues' timers, the
    mover, the workers and the shutdown, at most one worker processes a
    placement at any time. *)
Theorem one_worker_per_placement name activeRL batchedRL period tr s i j k :
  run tr (start (NewBatchedProcessingPlacementSchedulingQueue (Q := Q) name activeRL batchedRL period)) = Some s ->
  sys_workers s !! i = Some k -> sys_workers s !! j = Some k -> i = j.
Proof.
  intros Hr. pose proof (inv_run _ _ _ (inv_start _ (fresh_New name activeRL batchedRL period)) Hr) as Hi. apply Hi.
Qed.

(** C27: a placement that is enqueued in any of the four ways, and not taken by
    a worker since, is still in one of the two queues or with the mover on its
    way from one to the other, as long as the queues are not shut down. *)
Theorem no_placement_lost name activeRL batchedRL period tr1 e tr2 s k :
  run (tr1 ++ e :: tr2) (start (NewBatchedProcessingPlacementSchedulingQueue (Q := Q) name activeRL batchedRL period)) = Some s ->
  running s -> enqueues e k ->
  tracked s k \/ exists i, ETake i k ∈ tr2.
Proof.
  rewrite run_app. set (s0 := start _). destruct (run tr1 s0) as [s1|]; [|done].
  cbn. destruct (execute e s1) as [s2|] eqn:He; [|done]. intros Hr Hrun Hen.
  pose proof (running_run _ _ _ Hr Hrun) as H2.
  pose proof (running_before _ _ _ He H2) as H1.
  eapply tracked_run; [done|done|]. by eapply enqueues_tracked.
Qed.

(** C38: a move that the mover has begun ends after at most 80006 of its own
    steps, whatever is added to the batched queue meanwhile, and until then the
    mover always has a step to take. *)
Theorem moves_end name activeRL batchedRL period tr1 s last tr2 s' :
  run tr1 (start (NewBatchedProcessingPlacementSchedulingQueue (Q := Q) name activeRL batchedRL period)) = Some s ->
  sys_mover s = Popping last [] -> run tr2 s = Some s' -> (forall r, ESelect r ∉ tr2) ->
  (moves tr2 <= 80006)%Z /\
  (idle (sys_mover s') \/ (moves tr2 < 80006)%Z /\ exists s'', execute EMove s' = Some s'').
Proof.
  intros Hr Hm Hr2 Hsel.
  pose proof (inv_run _ _ _ (inv_start _ (fresh_New name activeRL batchedRL period)) Hr) as Hi.
  pose proof (rank_run _ _ _ Hi Hr2 Hsel) as Hk. rewrite Hm in Hk.
  destruct (rank_idle s' (inv_run _ _ _ Hi Hr2)) as [Hpos Hidle].
  change (rank (Popping last [])) with 80006%Z in Hk. split; [lia|].
  destruct (decide (rank (sys_mover s') = 0%Z)) as [H0|H0]; [auto|right]. split; [lia|].
  apply execute_move_enabled. intros [Hs|Hs]; rewrite Hs in H0; by apply H0.
Qed.

(** every key that waits in the batched queue when a move begins, up to
    the limit of one move, is in the active queue when the move ends, unless a
    worker has taken it already. *)
Theorem move_delivers name activeRL batchedRL period tr1 s last tr2 s' k :
  run tr1 (start (NewBatchedProcessingPlacementSchedulingQueue (Q := Q) name activeRL batchedRL period)) = Some s ->
  sys_mover s = Popping last [] -> run tr2 s = Some s' -> (forall r, ESelect r ∉ tr2) ->
  idle (sys_mover s') -> running s' ->
  k ∈ take (Z.to_nat (maxNumberOfKeysToMoveFromBatchedToActiveQueuePerGo + 1)) (v_waiting (view (bq_batched (sys_queue s)))) ->
  pending (view (bq_active (sys_queue s'))) k \/ exists i, ETake i k ∈ tr2.
Proof.
  intros Hr Hm Hr2 Hsel Hidle Hrun Hk.
  pose proof (inv_run _ _ _ (inv_start _ (fresh_New name activeRL batchedRL period)) Hr) as Hi.
  destruct (reachable_run tr2 s s' k Hi Hr2 Hrun Hsel) as [[Ht|Ht]|Ht]; [|exfalso|auto|auto].
  - left. rewrite Hm. right. by rewrite Nat.sub_0_r.
  - destruct Hidle as [Hs|Hs]; rewrite Hs in Ht; set_solver.
Qed.

(** Closing the channel does not end the mover: it returns only on a value sent
    over [moveNow], and nothing in the package sends one. *)
Theorem mover_outlives_close bq tr s :
  run tr (start (bq : batchedQueue)) = Some s -> ESelect Sent ∉ tr -> sys_mover s <> Returned.
Proof.
  assert (H : forall tr (s s' : System), run tr s = Some s' -> ESelect Sent ∉ tr ->
    match sys_mover s with
    | Returned => False | Selecting => True
    | Popping l _ | Moving l _ | Marking l _ _ | Forgetting l _ _ => l = false end ->
    sys_mover s' <> Returned).
  2: { intros Hr Hs. by eapply H. }
  clear tr s. induction tr as [|e tr IH]; cbn; intros s s'; [intros [= <-] _ Hm; by intros Hs; rewrite Hs in Hm|].
  destruct (execute e s) as [s1|] eqn:He; [|done]. intros Hr Hs Hm. apply (IH s1); [done|set_solver|].
  pose proof (execute_kind _ _ _ He) as [_ _ -> _|last _ _ Hsel Hp [r ->]|_ Hmv _ _|w k _ _ _ ->|_ _ -> _]; [done| | |done|done].
  - rewrite Hp. cbn in He. rewrite Hsel in He. destruct r; [set_solver|..]; cbn in He.
    + destruct (bq_moveNow_closed _); [|done]. injection He as <-. by injection Hp.
    + injection He as <-. by injection Hp.
  - revert Hmv. destruct (sys_mover s) as [|l keys|l [|k keys]|l k keys|l k keys|]; cbn in *; subst; try done.
    + intros [= <- _]. done.
    + destruct (popKey keys _) as [[b keys'] again]. intros [= <- _]. by destruct again.
    + intros [= <- _]. done.
    + intros [= <- _]. done.
    + intros [= <- _]. done.
    + intros [= <- _]. done.
Qed.

End Proofs.

(** ** A work queue in memory *)

Module MemQueue.

#[export] Instance mem_queue : WorkQueue unit wq_view := {|
  DefaultTypedControllerRateLimiter := tt;
  NewTypedRateLimitingQueueWithConfig := fun _ _ => empty_view;
  wq_Add := view_add;
  wq_AddAfter := fun k d v => if (0 <? d)%Z then view_delay k v else view_add k v;
  wq_AddRateLimited := view_delay;
  wq_Forget := fun _ v => v;
  wq_Done := view_done;
  wq_Get := view_get;
  wq_Len := fun v => length (v_waiting v);
  wq_ShuttingDown := v_shutdown;
  wq_ShutDown := view_shutdown;
  wq_StartDrain := view_shutdown;
  wq_Drained := fun v => bool_decide (v_processing v = ∅);
  wq_Fire := view_fire |}.

#[export] Instance mem_queue_laws : WorkQueueLaws unit wq_view.
Proof.
  refine {| view := fun v => v |}; try done; cbn.
  - auto.
  - intros q. by destruct (view_get q) as [[? ?]|].
  - intros q. by rewrite bool_decide_eq_true.
Defined.

(** Two workers, two watchers and the mover: one key arrives in a batch, another
    directly; the second arrives again while it is processed. *)
Definition bq0 : batchedProcessingPlacementSchedulingQueue (Q := wq_view) :=
  NewBatchedProcessingPlacementSchedulingQueue "" None None 0.

Definition before : list event :=
  [EAddBatched "crp-1"; EAdd "ns/rp-2"; ETake 0 "ns/rp-2"; EAdd "ns/rp-2"; ESelect TimerFired].

Definition round : list event :=
  [EMove; EAddBatched "crp-1"; EMove; EMove; ETake 1 "crp-1"; EMove; EMove; EMove; EFinish 0 "ns/rp-2"; ETake 0 "ns/rp-2"].

Definition after_run (tr : list event) : system (Q := wq_view) := default (start bq0) (run tr (start bq0)).

Lemma one_worker_per_placement_witness : (1 = 1)%nat.
Proof.
  apply (one_worker_per_placement (Q := wq_view) "" None None 0 (before ++ round) (after_run (before ++ round)) 1 1 "crp-1");
    vm_compute; reflexivity.
Defined.

Lemma no_placement_lost_witness :
  tracked (after_run (before ++ round)) "crp-1" \/
  exists i, ETake i "crp-1" ∈ [EMove; EMove; ETake 1 "crp-1"; EMove; EMove; EMove; EFinish 0 "ns/rp-2"; ETake 0 "ns/rp-2"].
Proof.
  apply (no_placement_lost (Q := wq_view) "" None None 0 (before ++ [EMove]) (EAddBatched "crp-1")).
  - vm_compute. reflexivity.
  - by vm_compute.
  - unfold enqueues. auto.
Defined.

Lemma moves_end_witness :
  (moves round <= 80006)%Z /\
  (idle (sys_mover (after_run (before ++ round))) \/
   (moves round < 80006)%Z /\ exists s'', execute EMove (after_run (before ++ round)) = Some s'').
Proof.
  apply (moves_end (Q := wq_view) "" None None 0 before (after_run before) false round).
  - vm_compute. reflexivity.
  - vm_compute. reflexivity.
  - vm_compute. reflexivity.
  - intros r. unfold round. rewrite !not_elem_of_cons. split_and!; try done. apply not_elem_of_nil.
Defined.

Lemma move_delivers_witness :
  pending (view (bq_active (sys_queue (after_run (before ++ round))))) "crp-1" \/ exists i, ETake i "crp-1" ∈ round.
Proof.
  apply (move_delivers (Q := wq_view) "" None None 0 before (after_run before) false).
  - vm_compute. reflexivity.
  - vm_compute. reflexivity.
  - vm_compute. reflexivity.
  - intros r. unfold round. rewrite !not_elem_of_cons. split_and!; try done. apply not_elem_of_nil.
  - left. vm_compute. reflexivity.
  - by vm_compute.
  - rewrite elem_of_take. exists 0%nat. split; [vm_compute; reflexivity|].
    unfold maxNumberOfKeysToMoveFromBatchedToActiveQueuePerGo. lia.
Defined.

End MemQueue.
