(* ===== verification/Scheduler.v ===== *)
(** * The scheduler

    [pkg/scheduler/scheduler.go]: a worker takes a placement key from the
    queue, reads the placement, and runs a scheduling cycle for it or, when it
    is being deleted, removes its bindings.  The scheduling framework is a
    parameter, as in the source, where it is an interface; [Framework.v] models
    its implementation.  The queue is seen by the worker through the calls it
    makes on it, in a world that others change meanwhile; [Queue.v] models the
    queues.  Logs and metrics are left out. *)

From stdpp Require Import prelude gmap strings.
From S2P Require Import Prelude K8s Api Utils FrameworkUtils Hub Rollout Queue.

Local Open Scope string_scope.
Local Open Scope list_scope.

(** ** Calls *)

Class SchedulerClient (W : Type) : Type := {
  (** [NextPlacementKey], once it returns; [None] when the queue is closed. *)
  queue_NextPlacementKey : W -> W * option PlacementKey;
  queue_Add : PlacementKey -> W -> W;
  queue_AddRateLimited : PlacementKey -> W -> W;
  queue_AddAfter : PlacementKey -> Z -> W -> W;
  queue_Forget : PlacementKey -> W -> W;
  queue_Done : PlacementKey -> W -> W;
  hub_update_placement : PlacementObj -> W -> W * option goerr;
}.

(** [ctrl.Result] *)
Record CtrlResult : Set := mkResult { Requeue : bool; RequeueAfter : Z }.

(** [errors.Is(err, controller.ErrUnexpectedBehavior)] *)
Definition isUnexpectedBehavior (e : goerr) : bool :=
  match e with ErrUnexpectedBehavior _ => true | _ => false end.

Definition set_pl_meta (m : ObjectMeta) (p : PlacementObj) : PlacementObj := mkPlacementObj m (pl_spec p) (pl_status p).

Section Scheduler.
Context {K : K8sLib} {W : Type} {C : HubClient W} {P : PlacementReader W} {PS : PolicySnapshotReader W} {SC : SchedulerClient W}.

(** [IsLatestPolicySnapshot] *)
Definition IsLatestPolicySnapshot (snapshot : PolicySnapshotObj) : outcome bool :=
  match meta_labels (snap_meta snapshot) !! IsLatestSnapshotLabel with
  | None => Err (NewUnexpectedBehaviorError (ErrPlain (IsLatestSnapshotLabel +:+ " label is missing")))
  | Some val =>
      match ParseBool val with
      | Err e => Err (NewUnexpectedBehaviorError (wrap_error "failed to parse" e))
      | r => r
      end
  end.

Definition lookupLatestPolicySnapshot (placement : PlacementObj) : hub W PolicySnapshotObj :=
  LookupLatestPolicySnapshot (meta_namespace (pl_meta placement)) (meta_name (pl_meta placement)).

Definition addSchedulerCleanUpFinalizer (placement : PlacementObj) : hub W unit :=
  if negb (ContainsFinalizer (pl_meta placement) SchedulerCleanupFinalizer) then
    let placement := set_pl_meta (AddFinalizer (pl_meta placement) SchedulerCleanupFinalizer) placement in
    hmap_err NewUpdateIgnoreConflictError (herr (hub_update_placement placement))
  else hret tt.

(** The body of the loop of [cleanUpAllBindingsFor]. *)
Definition cleanUpBinding (binding : BindingObj) : hub W unit := fun w =>
  let binding := set_b_meta (RemoveFinalizer (b_meta binding) SchedulerBindingCleanupFinalizer) binding in
  match hub_update_binding binding w with
  | (w, (_, Some err)) => (w, Err (NewUpdateIgnoreConflictError err))
  | (w, (binding, None)) =>
      if negb (b_deleting binding) then
        match hub_delete_binding binding w with
        | (w, Some err) => if has_reason NotFound err then (w, Ok tt) else (w, Err (NewAPIServerError false err))
        | (w, None) => (w, Ok tt)
        end
      else (w, Ok tt)
  end.

Definition cleanUpAllBindingsFor (placement : PlacementObj) : hub W unit :=
  let* bindings := ListBindingsFromKey
    (meta_namespace (pl_meta placement), meta_name (pl_meta placement)) false in
  let* _ := hfold (fun _ binding => cleanUpBinding binding) tt bindings in
  let placement := set_pl_meta (RemoveFinalizer (pl_meta placement) SchedulerCleanupFinalizer) placement in
  hmap_err NewUpdateIgnoreConflictError (herr (hub_update_placement placement)).

(** A call on the queue, as a step. *)
Definition hdo (f : W -> W) : hub W unit := fun w => (f w, Ok tt).

Section Cycle.
Variable RunSchedulingCycleFor : PlacementKey -> PolicySnapshotObj -> hub W CtrlResult.

(** What follows the scheduling cycle. *)
Definition afterCycle (placementKey : PlacementKey) (res : outcome CtrlResult) : hub W unit :=
  match res with
  | Err err => if isUnexpectedBehavior err then hret tt else hdo (queue_AddRateLimited placementKey)
  | Panic p => hlift (Panic p)
  | Ok res =>
      if Requeue res then
        if (0 <? RequeueAfter res)%Z then hdo (queue_AddAfter placementKey (RequeueAfter res))
        else let* _ := hdo (queue_Forget placementKey) in hdo (queue_Add placementKey)
      else hdo (queue_Forget placementKey)
  end.

(** A placement that is being deleted. *)
Definition scheduleDeleted (placementKey : PlacementKey) (placement : PlacementObj) : hub W unit := fun w =>
  if ContainsFinalizer (pl_meta placement) SchedulerCleanupFinalizer then
    match cleanUpAllBindingsFor placement w with
    | (w, Err err) =>
        if isUnexpectedBehavior err then (w, Ok tt) else (queue_AddRateLimited placementKey w, Ok tt)
    | (w, Panic p) => (w, Panic p)
    | (w, Ok _) => (queue_Forget placementKey w, Ok tt)
    end
  else (queue_Forget placementKey w, Ok tt).

(** An active placement, up to its scheduling cycle: the policy snapshot for
    the cycle, or [None] when the key has been dealt with. *)
Definition prepareCycle (placementKey : PlacementKey) (placement : PlacementObj)
    : hub W (option PolicySnapshotObj) := fun w =>
  match lookupLatestPolicySnapshot placement w with
  | (w, Err _) => (queue_Forget placementKey w, Ok None)
  | (w, Panic p) => (w, Panic p)
  | (w, Ok latestPolicySnapshot) =>
      match addSchedulerCleanUpFinalizer placement w with
      | (w, Err _) => (queue_AddRateLimited placementKey w, Ok None)
      | (w, Panic p) => (w, Panic p)
      | (w, Ok _) => (w, Ok (Some latestPolicySnapshot))
      end
  end.

Definition scheduleActive (placementKey : PlacementKey) (placement : PlacementObj) : hub W unit :=
  let* prepared := prepareCycle placementKey placement in
  match prepared with
  | None => hret tt
  | Some latestPolicySnapshot => fun w =>
      let '(w, res) := RunSchedulingCycleFor placementKey latestPolicySnapshot w in
      afterCycle placementKey res w
  end.

(** What [scheduleOnce] does with the key it took from the queue. *)
Definition schedulePlacement (placementKey : PlacementKey) : hub W unit := fun w =>
  match FetchPlacementFromKey placementKey w with
  | (w, Err err) =>
      if has_reason NotFound err then (w, Ok tt)
      else if isUnexpectedBehavior err then (w, Ok tt)
      else (queue_AddRateLimited placementKey w, Ok tt)
  | (w, Panic p) => (w, Panic p)
  | (w, Ok placement) =>
      if being_deleted (pl_meta placement) then scheduleDeleted placementKey placement w
      else scheduleActive placementKey placement w
  end.

(** The deferred [Done] runs in every case, also when the rest panics. *)
Definition scheduleOnce : hub W unit := fun w =>
  match queue_NextPlacementKey w with
  | (w, None) => (w, Ok tt)
  | (w, Some placementKey) =>
      let '(w, res) := schedulePlacement placementKey w in
      (queue_Done placementKey w, res)
  end.

End Cycle.
End Scheduler.

(** ** Starting and stopping: [Run]

    The workers and the goroutine that waits for them.  A worker looks at the
    context, waits for a key, processes it, and looks again; the queue is closed
    after the last worker has returned. *)

Inductive worker : Set :=
| AtSelect
| AtNext
| Working (placementKey : PlacementKey)
| Exited.

Inductive waiter : Set :=
| AwaitsContext
| AwaitsWorkers
| RunReturned.

Record scheduler (T : Type) : Type := mkScheduler {
  sch_queue : T;
  sch_cancelled : bool;
  sch_workers : list worker;
  sch_main : waiter;
}.
Arguments mkScheduler {T}.
Arguments sch_queue {T}.
Arguments sch_cancelled {T}.
Arguments sch_workers {T}.
Arguments sch_main {T}.

Section Run.
Context {T : Type} {PQ : PlacementSchedulingQueue T}.
(** What a worker does to the queue while it processes a key, and
    [CloseWithDrain], once it returns. *)
Variable process : PlacementKey -> T -> T.
Variable CloseWithDrain : T -> T.

(** A step of a worker; [None] when it is blocked or has returned. *)
Definition workerStep (cancelled : bool) (w : worker) (q : T) : option (worker * T) :=
  match w with
  | AtSelect => if cancelled then Some (Exited, q) else Some (AtNext, q)
  | AtNext =>
      match NextPlacementKey q with
      | Some (q, Some key) => Some (Working key, q)
      | Some (q, None) => Some (AtSelect, q)
      | None => None
      end
  | Working key => Some (AtSelect, Done key (process key q))
  | Exited => None
  end.

Definition mainStep (s : scheduler T) : option (scheduler T) :=
  match sch_main s with
  | AwaitsContext =>
      if sch_cancelled s
      then Some (mkScheduler (sch_queue s) (sch_cancelled s) (sch_workers s) AwaitsWorkers) else None
  | AwaitsWorkers =>
      if forallb (fun w => match w with Exited => true | _ => false end) (sch_workers s)
      then Some (mkScheduler (CloseWithDrain (sch_queue s)) (sch_cancelled s) (sch_workers s) RunReturned) else None
  | RunReturned => None
  end.

(** [Run], up to the goroutines it starts. *)
Definition startScheduler (workerNumber : nat) (q : T) : scheduler T :=
  mkScheduler q false (replicate workerNumber AtSelect) AwaitsContext.

Inductive schedulerStep (s : scheduler T) : scheduler T -> Prop :=
| step_cancel : schedulerStep s (mkScheduler (sch_queue s) true (sch_workers s) (sch_main s))
| step_worker i w w' q :
    sch_workers s !! i = Some w ->
    workerStep (sch_cancelled s) w (sch_queue s) = Some (w', q) ->
    schedulerStep s (mkScheduler q (sch_cancelled s) (<[i := w']> (sch_workers s)) (sch_main s))
| step_main s' : mainStep s = Some s' -> schedulerStep s s'.

End Run.
