(* ===== verification/SchedulerProofs.v ===== *)
(** * The scheduler's workers

    What [scheduleOnce] does to the queue, to the finalizers and to the
    bindings, whatever the hub answers, and why [Run] does not return while a
    worker waits for a key. *)

From stdpp Require Import prelude gmap strings.
From S2P Require Import Prelude K8s Api Sample Utils FrameworkUtils FrameworkUtilsProofs Hub Plugins Framework Safety.
From S2P Require Import SchedulerProfile Rollout Queue QueueProofs Scheduler.

Local Open Scope string_scope.
Local Open Scope list_scope.

#[local] Arguments record : simpl never.

(** ** Observed calls *)

Inductive sevent : Type :=
| Took (k : string)
| Read (p : PlacementObj)
| Listed (bs : list BindingObj)
| UpdatedBinding (b answer : BindingObj) (err : option goerr)
| DeletedBinding (b : BindingObj) (err : option goerr)
| WrotePlacement (p : PlacementObj) (err : option goerr)
| Ran (k : string) (policy : PolicySnapshotObj)
| Queued (k : string)
| Forgot (k : string)
| Finished (k : string).

Section Traced.
Context {W : Type}.

Definition note {A} (e : A -> sevent) (f : W -> W * A) : (W * list sevent) -> (W * list sevent) * A :=
  record (fun a => [e a]) f.

Definition quietly {A} (f : W -> W * A) : (W * list sevent) -> (W * list sevent) * A := record (fun _ => []) f.

Definition noted (e : sevent) (f : W -> W) (w : W * list sevent) : W * list sevent := (f w.1, w.2 ++ [e]).

#[export] Instance traced_hub {C : HubClient W} : HubClient (W * list sevent) := {
  hub_list_clusters := quietly hub_list_clusters;
  hub_list_bindings ns name := record (on_ok Listed) (hub_list_bindings ns name);
  hub_create_binding b := quietly (hub_create_binding b);
  hub_update_binding b := note (fun r => UpdatedBinding b r.1 r.2) (hub_update_binding b);
  hub_update_binding_status b := quietly (hub_update_binding_status b);
  hub_get_binding b := quietly (hub_get_binding b);
  hub_patch_binding p := quietly (hub_patch_binding p);
  hub_delete_binding b := note (DeletedBinding b) (hub_delete_binding b);
  hub_update_snapshot_status s := quietly (hub_update_snapshot_status s);
  OnError S := OnError (W := W);
}.

#[export] Instance traced_reader {P : PlacementReader W} : PlacementReader (W * list sevent) := {
  hub_get_placement ns name := record (on_ok Read) (hub_get_placement ns name);
}.

#[export] Instance traced_snapshots {PS : PolicySnapshotReader W} : PolicySnapshotReader (W * list sevent) := {
  hub_list_policy_snapshots ns ls := quietly (hub_list_policy_snapshots ns ls);
}.

#[export] Instance traced_scheduler {SC : SchedulerClient W} : SchedulerClient (W * list sevent) := {
  queue_NextPlacementKey := record (fun k => match k with Some k => [Took k] | None => [] end) queue_NextPlacementKey;
  queue_Add k := noted (Queued k) (queue_Add k);
  queue_AddRateLimited k := noted (Queued k) (queue_AddRateLimited k);
  queue_AddAfter k d := noted (Queued k) (queue_AddAfter k d);
  queue_Forget k := noted (Forgot k) (queue_Forget k);
  queue_Done k := noted (Finished k) (queue_Done k);
  hub_update_placement p := note (WrotePlacement p) (hub_update_placement p);
}.

Definition traced_cycle (cycle : string -> PolicySnapshotObj -> hub W CtrlResult)
    : string -> PolicySnapshotObj -> hub (W * list sevent) CtrlResult :=
  fun k policy => note (fun _ => Ran k policy) (cycle k policy).

End Traced.

(** ** What the worker may do *)

Section Discipline.
Context {K : K8sLib}.

Definition without_finalizer (b : BindingObj) : BindingObj :=
  set_b_meta (RemoveFinalizer (b_meta b) SchedulerBindingCleanupFinalizer) b.

(** The binding has lost the scheduler's finalizer and is on its way out. *)
Definition cleaned (before : list sevent) (b : BindingObj) : Prop :=
  exists b', UpdatedBinding (without_finalizer b) b' None ∈ before /\
    (b_deleting b' = true \/
     exists e, DeletedBinding b' e ∈ before /\ (e = None \/ exists err, e = Some err /\ has_reason NotFound err = true)).

(** The placement holds the scheduler's finalizer. *)
Definition secured (before : list sevent) (p : PlacementObj) : Prop :=
  ContainsFinalizer (pl_meta p) SchedulerCleanupFinalizer = true \/
  WrotePlacement (set_pl_meta (AddFinalizer (pl_meta p) SchedulerCleanupFinalizer) p) None ∈ before.

(** What has to come before a call. *)
Definition allowed (k : string) (before : list sevent) (e : sevent) : Prop :=
  match e with
  | Took k' | Queued k' | Forgot k' | Finished k' => k' = k
  | Ran k' _ => k' = k /\
      exists p, Read p ∈ before /\ being_deleted (pl_meta p) = false /\ secured before p
  | WrotePlacement p' _ =>
      exists p, Read p ∈ before /\
        if being_deleted (pl_meta p) then
          p' = set_pl_meta (RemoveFinalizer (pl_meta p) SchedulerCleanupFinalizer) p /\
          exists bs, Listed bs ∈ before /\ Forall (cleaned before) bs
        else p' = set_pl_meta (AddFinalizer (pl_meta p) SchedulerCleanupFinalizer) p
  | UpdatedBinding _ _ _ | DeletedBinding _ _ =>
      exists p, Read p ∈ before /\ being_deleted (pl_meta p) = true
  | Read _ | Listed _ => True
  end.

Definition disciplined (k : string) (tr : list sevent) : Prop :=
  forall before e after, tr = before ++ e :: after -> allowed k before e.

(** The calls between the first and the last. *)
Definition inner (e : sevent) : Prop :=
  match e with Took _ | Finished _ => False | _ => True end.

Lemma cleaned_app before more b : cleaned before b -> cleaned (before ++ more) b.
Proof. unfold cleaned. setoid_rewrite elem_of_app. naive_solver. Qed.

Lemma disciplined_nil k : disciplined k [].
Proof. intros before e after H. by destruct before. Qed.

Lemma disciplined_snoc k tr e : disciplined k tr -> allowed k tr e -> disciplined k (tr ++ [e]).
Proof.
  intros Ht He before e' after Heq. destruct after as [|x after' _] using rev_ind.
  - by apply app_inj_tail in Heq as [<- <-].
  - rewrite app_comm_cons, app_assoc in Heq. apply app_inj_tail in Heq as [-> <-]. by eapply Ht.
Qed.

(** A disciplined continuation. *)
Definition extends (k : string) (tr tr' : list sevent) : Prop :=
  (disciplined k tr -> disciplined k tr') /\ exists more, tr' = tr ++ more /\ Forall inner more.

Lemma extends_refl k tr : extends k tr tr.
Proof. split; [done|]. exists []. by rewrite app_nil_r. Qed.

Lemma extends_trans k tr1 tr2 tr3 : extends k tr1 tr2 -> extends k tr2 tr3 -> extends k tr1 tr3.
Proof.
  intros [H1 (m1 & -> & F1)] [H2 (m2 & -> & F2)]. split; [auto|]. exists (m1 ++ m2).
  rewrite app_assoc. split; [done|]. by apply Forall_app.
Qed.

Lemma extends_snoc k tr e : allowed k tr e -> inner e -> extends k tr (tr ++ [e]).
Proof. intros Ha Hi. split; [intros Hd; by apply disciplined_snoc|]. exists [e]. by rewrite Forall_singleton. Qed.

Lemma extends_elem k tr tr' e : extends k tr tr' -> e ∈ tr -> e ∈ tr'.
Proof. intros [_ (more & -> & _)]. set_solver. Qed.

Lemma extends_cleaned k tr tr' b : extends k tr tr' -> cleaned tr b -> cleaned tr' b.
Proof. intros [_ (more & -> & _)]. apply cleaned_app. Qed.

End Discipline.

#[export] Hint Resolve extends_refl : hub.

Section Proofs.
Context {K : K8sLib} {W : Type} {C : HubClient W} {P : PlacementReader W} {PS : PolicySnapshotReader W} {SC : SchedulerClient W}.
Notation T := (W * list sevent)%type.

Lemma cleanUpBinding_extends k p b (w : W) tr :
  Read p ∈ tr -> being_deleted (pl_meta p) = true ->
  let r := cleanUpBinding (W := T) b (w, tr) in
  extends k tr r.1.2 /\ (r.2 = Ok tt -> cleaned r.1.2 b).
Proof.
  intros Hp Hd. unfold cleanUpBinding. cbn. unfold note. rewrite record_run. fold (without_finalizer b).
  destruct (hub_update_binding (without_finalizer b) w) as [w1 [b1 e1]]. cbn.
  assert (H1 : extends k tr (tr ++ [UpdatedBinding (without_finalizer b) b1 e1])) by (apply extends_snoc; cbn; eauto).
  destruct e1 as [e1|]; cbn; [done|]. destruct (b_deleting b1) eqn:Hb1; cbn.
  { split; [done|]. intros _. exists b1. set_solver. }
  rewrite record_run. cbn. set (e2 := (hub_delete_binding b1 w1).2).
  assert (H2 : extends k tr ((tr ++ [UpdatedBinding (without_finalizer b) b1 None]) ++ [DeletedBinding b1 e2])).
  { eapply extends_trans; [exact H1|]. apply extends_snoc; cbn; [|done]. exists p. set_solver. }
  assert (Hc : (e2 = None \/ exists err, e2 = Some err /\ has_reason NotFound err = true) ->
    cleaned ((tr ++ [UpdatedBinding (without_finalizer b) b1 None]) ++ [DeletedBinding b1 e2]) b).
  { intros He. exists b1. split; [set_solver|]. right. exists e2. set_solver. }
  destruct e2 as [err|]; cbn; [|by split; [|intros _; apply Hc; left]].
  destruct (has_reason NotFound err) eqn:Hn; cbn; [|done]. split; [done|]. intros _. apply Hc. eauto.
Qed.

Lemma cleanUpBindings_extends k p bs (w : W) tr :
  Read p ∈ tr -> being_deleted (pl_meta p) = true ->
  let r := hfold (fun _ b => cleanUpBinding (W := T) b) tt bs (w, tr) in
  extends k tr r.1.2 /\ (r.2 = Ok tt -> Forall (cleaned r.1.2) bs).
Proof.
  intros Hp Hd. revert w tr Hp. induction bs as [|b bs IH]; cbn; intros w tr Hp; [auto with hub|].
  unfold hbind. destruct (cleanUpBinding_extends k p b w tr Hp Hd) as [H1 Hc].
  destruct (cleanUpBinding b (w, tr)) as [[w1 tr1] [[]|e|x]]; cbn in *; [|done|done].
  destruct (IH w1 tr1 (extends_elem _ _ _ _ H1 Hp)) as [H2 Hcs].
  destruct (hfold _ tt bs (w1, tr1)) as [[w2 tr2] r]. cbn in *.
  split; [by eapply extends_trans|]. intros Hr. constructor; [|auto]. eapply extends_cleaned; eauto.
Qed.

Lemma cleanUpAll_extends k p (w : W) tr :
  Read p ∈ tr -> being_deleted (pl_meta p) = true ->
  extends k tr (cleanUpAllBindingsFor (W := T) p (w, tr)).1.2.
Proof.
  intros Hp Hd. unfold cleanUpAllBindingsFor, ListBindingsFromKey, hbind, hmap_err, herr. cbn.
  rewrite record_run. destruct (hub_list_bindings _ _ w) as [w1 [bs|e|x]]; cbn; [|rewrite app_nil_r; auto with hub..].
  assert (H1 : extends k tr (tr ++ [Listed bs])) by (apply extends_snoc; done).
  eapply extends_trans; [exact H1|].
  pose proof (cleanUpBindings_extends k p (go_sort bindingNameLess bs) w1 (tr ++ [Listed bs])
    (extends_elem _ _ _ _ H1 Hp) Hd) as [H2 Hc].
  destruct (hfold _ tt _ (w1, tr ++ [Listed bs])) as [[w2 tr2] [[]|e|x]]; cbn in *; [|done|done].
  eapply extends_trans; [exact H2|].
  unfold note. rewrite record_run.
  set (e := (hub_update_placement _ w2).2). set (p' := set_pl_meta _ _).
  assert (H3 : extends k tr2 (tr2 ++ [WrotePlacement p' e])).
  { apply extends_snoc; [|done]. exists p. rewrite Hd. split_and!; [eauto using extends_elem|done|].
    exists bs. split; [eapply extends_elem; [exact H2|set_solver]|].
    specialize (Hc eq_refl). by rewrite go_sort_perm in Hc. }
  by destruct e.
Qed.

Variable cycle : PlacementKey -> PolicySnapshotObj -> hub W CtrlResult.

Lemma noted_extends k e tr : allowed k tr e -> inner e -> extends k tr (tr ++ [e]).
Proof. apply extends_snoc. Qed.

Lemma scheduleDeleted_extends k p (w : W) tr :
  Read p ∈ tr -> being_deleted (pl_meta p) = true ->
  extends k tr (scheduleDeleted (W := T) k p (w, tr)).1.2.
Proof.
  intros Hp Hd. unfold scheduleDeleted. destruct (ContainsFinalizer _ _); [|by apply extends_snoc].
  pose proof (cleanUpAll_extends k p w tr Hp Hd) as H1.
  destruct (cleanUpAllBindingsFor p (w, tr)) as [[w1 tr1] [[]|e|x]]; cbn in *; [|destruct (isUnexpectedBehavior e); [done|]|done].
  all: eapply extends_trans; [exact H1|by apply extends_snoc].
Qed.

Lemma prepareCycle_extends k p (w : W) tr :
  Read p ∈ tr -> being_deleted (pl_meta p) = false ->
  let r := prepareCycle (W := T) k p (w, tr) in
  extends k tr r.1.2 /\ forall policy, r.2 = Ok (Some policy) -> secured r.1.2 p.
Proof.
  intros Hp Hd. unfold prepareCycle, lookupLatestPolicySnapshot, LookupLatestPolicySnapshot, listLatestPolicySnapshots, hbind, hmap_err. cbn.
  unfold quietly. rewrite record_run. cbn. rewrite app_nil_r.
  destruct (hub_list_policy_snapshots _ _ w) as [w1 [ss|e|x]]; cbn; [|split; [by apply extends_snoc|done]|split; [auto with hub|done]].
  destruct ss as [|s [|s' ss]]; cbn; [split; [by apply extends_snoc|done]| |split; [by apply extends_snoc|done]].
  unfold addSchedulerCleanUpFinalizer. destruct (ContainsFinalizer (pl_meta p) _) eqn:Hf; cbn.
  { split; [auto with hub|]. intros _ _. by left. }
  unfold hmap_err, herr. cbn. unfold note. rewrite record_run. set (e := (hub_update_placement _ w1).2). set (p' := set_pl_meta _ _).
  assert (H1 : extends k tr (tr ++ [WrotePlacement p' e])) by (apply extends_snoc; [exists p; by rewrite Hd|done]).
  destruct e; cbn.
  - split; [|done]. eapply extends_trans; [exact H1|by apply extends_snoc].
  - split; [done|]. intros _ _. right. set_solver.
Qed.

Lemma afterCycle_extends k res (w : W) tr : extends k tr (afterCycle (W := T) k res (w, tr)).1.2.
Proof.
  unfold afterCycle. destruct res as [r|e|x]; cbn; [|destruct (isUnexpectedBehavior e); [auto with hub|by apply extends_snoc]|auto with hub].
  destruct (Requeue r); [|by apply extends_snoc]. destruct (0 <? _)%Z; [by apply extends_snoc|].
  cbn. eapply extends_trans; by apply extends_snoc.
Qed.

Lemma scheduleActive_extends k p (w : W) tr :
  Read p ∈ tr -> being_deleted (pl_meta p) = false ->
  extends k tr (scheduleActive (W := T) (traced_cycle cycle) k p (w, tr)).1.2.
Proof.
  intros Hp Hd. unfold scheduleActive, hbind. destruct (prepareCycle_extends k p w tr Hp Hd) as [H1 Hs].
  destruct (prepareCycle k p (w, tr)) as [[w1 tr1] [[policy|]|e|x]]; cbn in *; [|done..].
  unfold traced_cycle, note. rewrite record_run. cbn.
  eapply extends_trans; [exact H1|]. eapply extends_trans; [|apply afterCycle_extends].
  apply extends_snoc; [|done]. split; [done|]. exists p. eauto using extends_elem.
Qed.

Lemma schedulePlacement_extends k (w : W) tr : extends k tr (schedulePlacement (W := T) (traced_cycle cycle) k (w, tr)).1.2.
Proof.
  unfold schedulePlacement, FetchPlacementFromKey, hbind, hlift. cbn.
  destruct (ExtractNamespaceNameFromKeyStr k) as [[ns name]|e|x]; cbn; [| |auto with hub].
  2: { destruct (has_reason _ e); [auto with hub|]. destruct (isUnexpectedBehavior e); [auto with hub|by apply extends_snoc]. }
  rewrite record_run. destruct (hub_get_placement ns name w) as [w1 [p|e|x]]; cbn; rewrite ?app_nil_r; [| |auto with hub].
  - assert (H1 : extends k tr (tr ++ [Read p])) by (by apply extends_snoc). eapply extends_trans; [exact H1|].
    destruct (being_deleted (pl_meta p)) eqn:Hd; [apply scheduleDeleted_extends|apply scheduleActive_extends]; set_solver.
  - destruct (has_reason _ e); [auto with hub|]. destruct (isUnexpectedBehavior e); [auto with hub|by apply extends_snoc].
Qed.


End Proofs.

(** ** Bindings on the hub *)

(** What the scheduler's own calls may do to the bindings, and what the answers
    to its updates and deletions say. *)
Class SchedulerLaws (W : Type) {C : HubClient W} {HL : HubLaws W} {P : PlacementReader W} {PS : PolicySnapshotReader W} {SC : SchedulerClient W}
    : Prop := {
  next_evolves w : evolves (hub_bindings w) (hub_bindings (queue_NextPlacementKey w).1);
  add_evolves k w : evolves (hub_bindings w) (hub_bindings (queue_Add k w));
  rate_evolves k w : evolves (hub_bindings w) (hub_bindings (queue_AddRateLimited k w));
  after_evolves k d w : evolves (hub_bindings w) (hub_bindings (queue_AddAfter k d w));
  forget_evolves k w : evolves (hub_bindings w) (hub_bindings (queue_Forget k w));
  done_evolves k w : evolves (hub_bindings w) (hub_bindings (queue_Done k w));
  read_evolves ns name w : evolves (hub_bindings w) (hub_bindings (hub_get_placement ns name w).1);
  (** The object that is read is the one that was asked for. *)
  read_named ns name w p :
    (hub_get_placement ns name w).2 = Ok p -> meta_namespace (pl_meta p) = ns /\ meta_name (pl_meta p) = name;
  snapshots_evolves ns ls w : evolves (hub_bindings w) (hub_bindings (hub_list_policy_snapshots ns ls w).1);
  placement_evolves p w : evolves (hub_bindings w) (hub_bindings (hub_update_placement p w).1);
  (** A successful update answers with the stored object. *)
  update_answers b w b' b1 :
    (hub_update_binding b w).2 = (b', None) -> b_deleting b' = true ->
    hub_bindings (hub_update_binding b w).1 !! object_key b = Some b1 -> b_deleting b1 = true;
  (** A deletion that succeeds, or finds nothing, leaves nothing that is not being deleted. *)
  delete_marks b w b1 :
    (hub_delete_binding b w).2 = None \/ (exists e, (hub_delete_binding b w).2 = Some e /\ has_reason NotFound e = true) ->
    hub_bindings (hub_delete_binding b w).1 !! object_key b = Some b1 -> b_deleting b1 = true;
}.

Section Bindings.
Context {K : K8sLib} {W : Type} {C : HubClient W} {HL : HubLaws W} {P : PlacementReader W} {PS : PolicySnapshotReader W} {SC : SchedulerClient W}.
Context {SL : SchedulerLaws W}.

Section Listed.
Variables (ns name : string) (listed : list BindingObj).
Hypothesis listed_keys : NoDup (object_key <$> listed).

(** What was listed is stored, if at all, as a later version, and the bindings
    that have been dealt with are on their way out. *)
Definition cleaning (finished : list BindingObj) (w : W) : Prop :=
  Safety.tracked ns name listed [] (hub_bindings w) /\
  forall x b, x ∈ finished -> hub_bindings w !! object_key x = Some b -> b_deleting b = true.

Lemma cleaning_evolves finished w w' :
  evolves (hub_bindings w) (hub_bindings w') -> cleaning finished w -> cleaning finished w'.
Proof.
  intros He [Ht Hf]. split; [by eapply tracked_evolves|]. intros x b' Hx Hb'.
  destruct (He _ _ Hb') as (b & Hb & _ & _ & Hd). eauto.
Qed.

Lemma cleaning_touches finished x b w w' :
  x ∈ listed -> resembles x b -> touches b (hub_bindings w) (hub_bindings w') ->
  cleaning finished w -> cleaning finished w'.
Proof.
  intros Hx Hr Hto [Ht Hf]. split; [by eapply tracked_touches|]. intros y b' Hy Hb'.
  destruct (Hto _ _ Hb') as (b0 & Hb0 & [(_ & _ & Hd)|(_ & _ & _ & Hd)]); eauto.
Qed.

Lemma cleanUpBinding_cleaning finished b w :
  b ∈ listed -> cleaning finished w ->
  let r := cleanUpBinding b w in
  cleaning finished r.1 /\ (r.2 = Ok tt -> cleaning (finished ++ [b]) r.1).
Proof.
  intros Hb Hc. unfold cleanUpBinding. fold (without_finalizer b).
  assert (Hres : resembles b (without_finalizer b)) by done.
  pose proof (update_touches (without_finalizer b) w) as Hto.
  pose proof (update_answers (without_finalizer b) w) as Hans.
  pose proof (update_refreshes (without_finalizer b) w) as Href.
  destruct (hub_update_binding (without_finalizer b) w) as [w1 [b1 e1]]. cbn in *.
  assert (Hc1 : cleaning finished w1) by (by eapply cleaning_touches).
  destruct e1 as [e1|]; [done|]. specialize (Href b1 None eq_refl). destruct Href as (Hk1 & _ & _).
  assert (Hadd : forall w', cleaning finished w' ->
    (forall b2, hub_bindings w' !! object_key b = Some b2 -> b_deleting b2 = true) -> cleaning (finished ++ [b]) w').
  { intros w' [Ht Hf] Hn. split; [done|]. intros x b2 [Hx| ->%list_elem_of_singleton]%elem_of_app; eauto. }
  destruct (b_deleting b1) eqn:Hd1; cbn; [split; [done|]; intros _; apply Hadd; eauto|].
  pose proof (delete_evolves b1 w1) as Hev. pose proof (delete_marks b1 w1) as Hdm.
  destruct (hub_delete_binding b1 w1) as [w2 e2]. cbn in *.
  assert (Hc2 : cleaning finished w2) by (by eapply cleaning_evolves).
  change (object_key (without_finalizer b)) with (object_key b) in Hk1. rewrite Hk1 in Hdm.
  destruct e2 as [e2|]; cbn; [destruct (has_reason NotFound e2) eqn:Hn|]; cbn; (split; [done|]); [|done|].
  all: intros _; apply Hadd; [done|]; intros b2 Hb2; eapply Hdm; eauto.
Qed.

Lemma cleanUpBindings_cleaning finished bs w :
  bs ⊆ listed -> cleaning finished w ->
  let r := hfold (fun _ b => cleanUpBinding b) tt bs w in
  cleaning finished r.1 /\ (r.2 = Ok tt -> cleaning (finished ++ bs) r.1).
Proof.
  revert finished w. induction bs as [|b bs IH]; cbn; intros finished w Hsub Hc.
  { rewrite app_nil_r. done. }
  destruct (cleanUpBinding_cleaning finished b w ltac:(set_solver) Hc) as [H1 H2]. unfold hbind.
  destruct (cleanUpBinding b w) as [w1 [[]|e|x]]; cbn in *; [|done|done]. specialize (H2 eq_refl).
  destruct (IH (finished ++ [b]) w1 ltac:(set_solver) H2) as [H3 H4]. rewrite <-app_assoc in H4.
  split; [|done]. destruct H3 as [Ht Hf]. split; [done|]. intros y b2 Hy. apply Hf. set_solver.
Qed.

End Listed.

Definition placementNamespace (p : PlacementObj) : string := meta_namespace (pl_meta p).
Definition placementName (p : PlacementObj) : string := meta_name (pl_meta p).

Lemma cleanUpAll_run p (w w' : W) r :
  cleanUpAllBindingsFor p w = (w', r) ->
  (unique_live (placementNamespace p) (placementName p) (hub_bindings w) ->
   unique_live (placementNamespace p) (placementName p) (hub_bindings w')) /\
  (r = Ok tt -> forall k b, hub_bindings w' !! k = Some b ->
     owned (placementNamespace p) (placementName p) k b -> b_deleting b = true).
Proof.
  unfold placementNamespace, placementName. set (ns := meta_namespace (pl_meta p)). set (name := meta_name (pl_meta p)).
  unfold cleanUpAllBindingsFor. fold ns name. unfold hbind at 1.
  destruct (ListBindingsFromKey_run ns name false w) as [Hw1 _].
  pose proof (listing_tracked ns name false w) as Hl. pose proof (listing_accurate ns name false w) as Ha.
  pose proof (list_bindings_evolves ns name w) as Hev. rewrite <-Hw1 in Hev.
  destruct (ListBindingsFromKey (ns, name) false w) as [w1 [bs|e|x]]; cbn in *.
  2-3: intros [= <- <-]; split; [by apply unique_live_evolves|done].
  destruct (Hl bs eq_refl) as [Hnd Htr].
  assert (Hc0 : cleaning ns name bs [] w1) by (split; [done|by intros ? ? ?%not_elem_of_nil]).
  destruct (cleanUpBindings_cleaning ns name bs Hnd [] bs w1 ltac:(done) Hc0) as [H1 H2].
  assert (Hkeep : forall w2 : W, cleaning ns name bs [] w2 ->
    unique_live ns name (hub_bindings w) -> unique_live ns name (hub_bindings w2)).
  { intros w2 [Ht _] Hu. destruct (Ha bs Hu eq_refl) as [[_ Huq _] _].
    by eapply accurate_unique_live; split. }
  unfold hbind. destruct (hfold _ tt bs w1) as [w2 [[]|e|x]]; cbn in *; [|intros [= <- <-]; split; [by apply Hkeep|done]..].
  unfold hmap_err, herr. set (p' := set_pl_meta _ _). pose proof (placement_evolves p' w2) as Hpe.
  specialize (H2 eq_refl).
  destruct (hub_update_placement p' w2) as [w3 [e|]]; cbn in *; intros [= <- <-]; (split; [intros Hu; by eapply unique_live_evolves, Hkeep|]); [done|].
  intros _ k b Hb Ho. destruct (Hpe _ _ Hb) as (b2 & Hb2 & Hf).
  destruct H2 as [Ht2 Hf2]. destruct (Ht2 _ _ Hb2) as [_ Hown].
  destruct (Hown (owned_follows _ _ _ _ _ Hf Ho)) as [Hk|(x & Hx & _)]; [|by apply not_elem_of_nil in Hx].
  apply list_elem_of_fmap in Hk as (x & -> & Hx). apply Hf. eauto.
Qed.

(** when the scheduler has cleaned up after a placement, every binding
    of the placement that is still on the hub is being deleted, whatever other
    controllers did meanwhile short of creating bindings. *)
Theorem cleanup_leaves_no_live_binding p (w w' : W) k b :
  cleanUpAllBindingsFor p w = (w', Ok tt) ->
  hub_bindings w' !! k = Some b -> owned (placementNamespace p) (placementName p) k b -> b_deleting b = true.
Proof. intros Hr. destruct (cleanUpAll_run _ _ _ _ Hr) as [_ H]. by apply H. Qed.

(** *** The whole worker *)

Variables (checker : Eligibility.ClusterEligibilityChecker) (maxUnselected now : Z) (uuids : nat -> string).
Variable workOrder : list MemberCluster -> list MemberCluster.

(** The framework of the scheduler: it never asks for a delay. *)
Definition defaultCycle (k : PlacementKey) (policy : PolicySnapshotObj) : hub W CtrlResult :=
  let* requeue := RunSchedulingCycleFor (NewDefaultProfile checker now) checker maxUnselected now uuids workOrder k policy in
  hret (mkResult requeue 0).

(** The world from which the cycle of the next key starts satisfies what a
    cycle relies on. *)
Definition worker_ready (ns name key : string) (w : W) : Prop :=
  forall w1 w2 w3 p policy,
    queue_NextPlacementKey w = (w1, Some key) -> FetchPlacementFromKey key w1 = (w2, Ok p) ->
    prepareCycle key p w2 = (w3, Ok (Some policy)) -> cycle_ready uuids ns name key policy w3.

Lemma prepareCycle_evolves key p (w : W) :
  evolves (hub_bindings w) (hub_bindings (prepareCycle key p w).1).
Proof.
  unfold prepareCycle, lookupLatestPolicySnapshot, LookupLatestPolicySnapshot, listLatestPolicySnapshots, hbind, hmap_err.
  pose proof (snapshots_evolves (meta_namespace (pl_meta p))
    (<[PlacementTrackingLabel := meta_name (pl_meta p)]> {[IsLatestSnapshotLabel := "true"]}) w) as H1.
  destruct (hub_list_policy_snapshots _ _ w) as [w1 [ss|e|x]]; cbn in *; [|eapply evolves_trans; [done|apply forget_evolves]|done].
  destruct ss as [|s [|s' ss]]; cbn; try (eapply evolves_trans; [exact H1|apply forget_evolves]).
  unfold addSchedulerCleanUpFinalizer. destruct (negb _); cbn; [|done]. unfold hmap_err, herr.
  set (p' := set_pl_meta _ _). pose proof (placement_evolves p' w1) as H2.
  destruct (hub_update_placement p' w1) as [w2 [e|]]; cbn in *; [|by eapply evolves_trans].
  eapply evolves_trans; [exact H1|]. eapply evolves_trans; [exact H2|apply rate_evolves].
Qed.

Lemma afterCycle_evolves key res (w : W) :
  evolves (hub_bindings w) (hub_bindings (afterCycle key res w).1).
Proof.
  unfold afterCycle. destruct res as [r|e|x]; cbn; [|destruct (isUnexpectedBehavior e); cbn; [apply evolves_refl|apply rate_evolves]|apply evolves_refl].
  destruct (Requeue r); [|apply forget_evolves]. destruct (0 <? _)%Z; [apply after_evolves|]. cbn.
  eapply evolves_trans; [apply forget_evolves|apply add_evolves].
Qed.

Lemma scheduleDeleted_unique key p (w : W) :
  unique_live (placementNamespace p) (placementName p) (hub_bindings w) ->
  unique_live (placementNamespace p) (placementName p) (hub_bindings (scheduleDeleted key p w).1).
Proof.
  intros Hu. unfold scheduleDeleted. destruct (ContainsFinalizer _ _); [|by eapply unique_live_evolves; [apply forget_evolves|]].
  destruct (cleanUpAllBindingsFor p w) as [w1 r] eqn:Hr. destruct (cleanUpAll_run _ _ _ _ Hr) as [Hk _].
  specialize (Hk Hu). destruct r as [[]|e|x]; cbn in *; [by eapply unique_live_evolves; [apply forget_evolves|]| |done].
  destruct (isUnexpectedBehavior e); [done|]. by eapply unique_live_evolves; [apply rate_evolves|].
Qed.

Hypothesis workOrder_perm : forall cs, workOrder cs ≡ₚ cs.

#[local] Arguments afterCycle : simpl never.

Lemma scheduleActive_unique ns name key p (w : W) :
  unique_live ns name (hub_bindings w) ->
  (forall w1 policy, prepareCycle key p w = (w1, Ok (Some policy)) -> cycle_ready uuids ns name key policy w1) ->
  unique_live ns name (hub_bindings (scheduleActive defaultCycle key p w).1).
Proof.
  intros Hu Hready. unfold scheduleActive, hbind. pose proof (prepareCycle_evolves key p w) as H1.
  pose proof (unique_live_evolves _ _ _ _ H1 Hu) as Hu1.
  destruct (prepareCycle key p w) as [w1 [[policy|]|e|x]]; cbn in *; [|done..].
  specialize (Hready w1 policy eq_refl). unfold defaultCycle, hbind.
  pose proof (RunSchedulingCycle_unique (NewDefaultProfile checker now) checker maxUnselected now uuids workOrder
    workOrder_perm ns name key policy w1 Hready Hu1) as Hu2.
  destruct (RunSchedulingCycleFor _ _ _ _ _ _ key policy w1) as [w2 [r|e|x]]; cbn in *;
    (eapply unique_live_evolves; [apply afterCycle_evolves|done]).
Qed.


(** A failure to list the policy snapshots is not retried: the key is dropped
    although the log says that it will be. *)
Theorem failed_lookup_not_requeued cycle key p (w w1 : W) e :
  hub_list_policy_snapshots (meta_namespace (pl_meta p))
    (<[PlacementTrackingLabel := meta_name (pl_meta p)]> {[IsLatestSnapshotLabel := "true"]}) w = (w1, Err e) ->
  scheduleActive cycle key p w = (queue_Forget key w1, Ok tt).
Proof.
  intros Hl. unfold scheduleActive, hbind at 1, prepareCycle, lookupLatestPolicySnapshot, LookupLatestPolicySnapshot, listLatestPolicySnapshots.
  unfold hbind, hmap_err. by rewrite Hl.
Qed.

End Bindings.

(** ** Stopping *)

Section Stopping.
Context {T : Type} {PQ : PlacementSchedulingQueue T}.
Variables (process : PlacementKey -> T -> T) (CloseWithDrain : T -> T).

(** Once the workers wait on an empty queue, cancelling the context does not end
    [Run]: it closes the queue only after the workers have returned, and they
    return only after the queue has given them a key or is closed. *)
Theorem waiting_workers_never_return (s s' : scheduler T) :
  Forall (eq AtNext) (sch_workers s) -> sch_workers s <> [] ->
  NextPlacementKey (sch_queue s) = None -> sch_main s <> RunReturned ->
  rtc (schedulerStep process CloseWithDrain) s s' -> sch_workers s' = sch_workers s /\ sch_main s' <> RunReturned.
Proof.
  intros Hw Hne Hq Hm Hs.
  assert (H : sch_workers s' = sch_workers s /\ sch_queue s' = sch_queue s /\ sch_main s' <> RunReturned); [|tauto].
  induction Hs as [|s s1 s2 Hstep _ IH]; [done|].
  assert (H1 : sch_workers s1 = sch_workers s /\ sch_queue s1 = sch_queue s /\ sch_main s1 <> RunReturned).
  - destruct Hstep as [|i w w' q Hi Hx|s1 Hx]; [done| |].
    + pose proof (Forall_lookup_1 _ _ _ _ Hw Hi) as <-. cbn in Hx. by rewrite Hq in Hx.
    + unfold mainStep in Hx. destruct (sch_main s); [| |done].
      * destruct (sch_cancelled s); by simplify_eq/=.
      * destruct (sch_workers s) as [|x ws]; [done|]. apply Forall_cons in Hw as [<- _]. done.
  - destruct H1 as (H1 & H2 & H3). rewrite H1, H2 in IH. apply IH; [done..|congruence|done].
Qed.

End Stopping.

(** ** A hub and a queue in memory *)

Module MemScheduler.
Import Beside MemQueue.

Record static : Type := mkStatic {
  st_queue : wq_view;
  st_placements : list PlacementObj;
  st_snapshots : list PolicySnapshotObj;
}.

Notation world := (Mem.mem * static)%type.

Definition on_queue (f : wq_view -> wq_view) (w : world) : world :=
  (w.1, mkStatic (f (st_queue w.2)) (st_placements w.2) (st_snapshots w.2)).

Definition same_placement (ns name : string) (p : PlacementObj) : bool :=
  bool_decide (meta_namespace (pl_meta p) = ns /\ meta_name (pl_meta p) = name).

#[export] Instance world_reader : PlacementReader world := {
  hub_get_placement ns name w :=
    (w, match List.filter (same_placement ns name) (st_placements w.2) with
        | p :: _ => Ok p
        | [] => Err (Mem.api_error NotFound)
        end);
}.

#[export] Instance world_snapshots : PolicySnapshotReader world := {
  hub_list_policy_snapshots ns ls w :=
    (w, Ok (List.filter (fun s => bool_decide (meta_namespace (snap_meta s) = ns /\ ls ⊆ meta_labels (snap_meta s)))
              (st_snapshots w.2)));
}.

#[export] Instance world_scheduler : SchedulerClient world := {
  queue_NextPlacementKey w :=
    match view_get (st_queue w.2) with
    | Some (v, k) => (on_queue (fun _ => v) w, k)
    | None => (w, None)
    end;
  queue_Add k := on_queue (view_add k);
  queue_AddRateLimited k := on_queue (view_delay k);
  queue_AddAfter k d := on_queue (view_delay k);
  queue_Forget k w := w;
  queue_Done k := on_queue (view_done k);
  hub_update_placement p w :=
    ((w.1, mkStatic (st_queue w.2)
        ((fun p0 => if same_placement (meta_namespace (pl_meta p)) (meta_name (pl_meta p)) p0 then p else p0) <$>
           st_placements w.2) (st_snapshots w.2)), None);
}.

Lemma update_marks b (w w' : Mem.mem) b1 :
  Mem.update b w = (w', None) -> being_deleted (Mem.server_meta (default b (Mem.stored w !! object_key b)) b) = true ->
  Mem.stored w' !! object_key b = Some b1 -> b_deleting b1 = true.
Proof.
  unfold Mem.update. destruct (Mem.stored w !! object_key b) as [b0|]; [|done]. destruct (decide _); [|done].
  intros [= <-] Hd. cbn [default from_option] in Hd. unfold Mem.replace.
  destruct (b_deleting b0 && _); [rewrite Mem.stored_delete; by intros [? _]%lookup_delete_Some|].
  set (b2 := set_b_meta _ b). change (object_key b) with (object_key b2). rewrite Mem.stored_insert, lookup_insert_eq.
  by intros [= <-].
Qed.

Lemma next_fault_stored w f w0 : Mem.next_fault w = (f, w0) -> Mem.stored w0 = Mem.stored w.
Proof. unfold Mem.next_fault. destruct (Mem.mem_faults w); by intros [= <- <-]. Qed.

Lemma mem_update_answers b (w : Mem.mem) b' b1 :
  (hub_update_binding b w).2 = (b', None) -> b_deleting b' = true ->
  Mem.stored (hub_update_binding b w).1 !! object_key b = Some b1 -> b_deleting b1 = true.
Proof.
  cbn. unfold Mem.refreshing, Mem.with_fault. destruct (Mem.next_fault w) as [f w0] eqn:Hf.
  pose proof (next_fault_stored _ _ _ Hf) as Hs. rewrite <-Hs. destruct f as [|[]|]; try done.
  all: destruct (Mem.update b w0) as [w1 [e|]] eqn:Hu; [done|]; intros [= <-]; by apply update_marks.
Qed.

Lemma mem_delete_marks b (w : Mem.mem) b1 :
  (hub_delete_binding b w).2 = None \/ (exists e, (hub_delete_binding b w).2 = Some e /\ has_reason NotFound e = true) ->
  Mem.stored (hub_delete_binding b w).1 !! object_key b = Some b1 -> b_deleting b1 = true.
Proof.
  assert (Hr : forall w, Mem.stored (Mem.remove b w).1 !! object_key b = None).
  { intros w0. unfold Mem.remove. destruct (Mem.stored w0 !! object_key b) eqn:Hb; [|done].
    cbn. by rewrite Mem.stored_delete, lookup_delete_eq. }
  cbn. unfold Mem.with_fault. destruct (Mem.next_fault w) as [f w0]. specialize (Hr w0).
  destruct f as [|[]|]; cbn; try (by rewrite Hr); by intros [?|(e & [= <-] & ?)].
Qed.

#[export] Instance world_scheduler_laws : SchedulerLaws world.
Proof.
  split; try (intros; apply evolves_refl).
  - intros w. cbn. destruct (view_get _) as [[v k]|]; apply evolves_refl.
  - intros ns name w p. cbn. destruct (List.filter _ _) as [|p0 ps] eqn:Hf; [done|]. intros [= <-].
    assert (In p0 (p0 :: ps)) as Hin by (by left). rewrite <-Hf in Hin. apply filter_In in Hin as [_ Hs].
    by apply bool_decide_eq_true in Hs.
  - intros b w b' b1. cbn. rewrite beside_1, beside_2. apply mem_update_answers.
  - intros b w b1. cbn. rewrite beside_1, beside_2. apply mem_delete_marks.
Qed.

(** A placement that waits in the queue, on the hub of [SchedulerProfile.v], and
    the same placement once it is being deleted. *)
Definition ex_meta (deleted : bool) : ObjectMeta :=
  let m := set_meta_finalizers [SchedulerCleanupFinalizer] (Sample.metadata "placement") in
  mkObjectMeta (meta_name m) (meta_namespace m) (meta_labels m) (meta_annotations m) (meta_finalizers m)
    (if deleted then Some 1%Z else None) (meta_generation m) (meta_resource_version m).

Definition ex_spec : PlacementSpec :=
  mkPlacementSpec [] None (mkRolloutStrategy RollingUpdateRolloutStrategyType None None None None) None EmptyString.

Definition ex_policy : PolicySnapshotObj :=
  let s := ex_active {[CRPGenerationAnnotation := "1"]} None in
  mkPolicySnapshot
    (set_meta_annotations {[CRPGenerationAnnotation := "1"]}
      (Sample.labelled "placement-1" (<[PlacementTrackingLabel := "placement"]> {[IsLatestSnapshotLabel := "true"]})))
    (snap_spec s) (snap_status s).

Definition ex_static (deleted : bool) : static :=
  mkStatic (mkView ["placement"] ∅ ∅ ∅ false) [mkPlacement (ex_meta deleted) ex_spec] [ex_policy].

Definition ex_world (deleted : bool) : world := (ex_mem ex_faults, ex_static deleted).

Definition ex_worker (deleted : bool) : world * outcome unit :=
  scheduleOnce (K := RefLib.ref_lib)
    (defaultCycle (K := RefLib.ref_lib) (Eligibility.New []) 20 0 ex_uuid (fun cs => cs)) (ex_world deleted).

Lemma ready_beside uuids ns name key policy policy' m (x : static) :
  cycle_ready (K := RefLib.ref_lib) uuids ns name key policy m -> snap_spec policy' = snap_spec policy ->
  cycle_ready (K := RefLib.ref_lib) (W := world) uuids ns name key policy' (m, x).
Proof.
  intros [Hk Hs Ht Hf] Hp. split; [done| |by rewrite Hp|done].
  intros bs. cbn. rewrite beside_2, beside_1. apply Hs.
Qed.

Lemma ex_prepared m w1 w2 w3 p policy :
  queue_NextPlacementKey (m, ex_static false) = (w1, Some "placement") ->
  FetchPlacementFromKey "placement" w1 = (w2, Ok p) ->
  prepareCycle (K := RefLib.ref_lib) "placement" p w2 = (w3, Ok (Some policy)) ->
  w3.1 = m /\ policy = ex_policy.
Proof.
  set (x1 := mkStatic (mkView [] {["placement"]} ∅ ∅ false) [mkPlacement (ex_meta false) ex_spec] [ex_policy]).
  assert (E1 : queue_NextPlacementKey (m, ex_static false) = ((m, x1), Some "placement")) by by_evaluation.
  assert (E2 : FetchPlacementFromKey "placement" (m, x1) = ((m, x1), Ok (mkPlacement (ex_meta false) ex_spec))) by by_evaluation.
  assert (E3 : prepareCycle (K := RefLib.ref_lib) "placement" (mkPlacement (ex_meta false) ex_spec) (m, x1) =
    ((m, x1), Ok (Some ex_policy))) by by_evaluation.
  clearbody x1. rewrite E1. intros [= <-]. rewrite E2. intros [= <- <-]. rewrite E3. by intros [= <- <-].
Qed.

Lemma ex_worker_ready : worker_ready (K := RefLib.ref_lib) ex_uuid "" "placement" "placement" (ex_world false).
Proof.
  intros w1 w2 [m x] p policy Hn Hf Hp. destruct (ex_prepared _ _ _ _ _ _ Hn Hf Hp) as [Hm ->]. cbn in Hm. subst m.
  eapply ready_beside; [exact ex_ready|done].
Qed.


(** The cleanup of the deleted placement: the first deletion is answered with an
    error, and the key is queued again; without faults nothing is left. *)
Definition ex_deleted : PlacementObj := mkPlacement (ex_meta true) ex_spec.

Definition ex_cleanup (faults : list Mem.fault) : world * outcome unit :=
  cleanUpAllBindingsFor (K := RefLib.ref_lib) ex_deleted (ex_mem faults, ex_static true).

Definition ex_left : world := (ex_cleanup []).1.

Lemma ex_cleaned : ex_cleanup [] = (ex_left, Ok tt).
Proof. apply (pair_answer (ex_cleanup [])). by_evaluation. Qed.

Lemma cleanup_leaves_no_live_binding_witness :
  (ex_cleanup []).2 = Ok tt /\ map_to_list (Mem.stored ex_left.1) = [] /\
  (fun p => meta_finalizers (pl_meta p)) <$> st_placements ex_left.2 = [[]] /\
  map_Forall (fun k b => owned "" "placement" k b -> b_deleting b = true) (hub_bindings ex_left).
Proof.
  split_and!; [by_evaluation..|].
  exact (fun k b => @cleanup_leaves_no_live_binding RefLib.ref_lib world _ laws_beside _ _ _ world_scheduler_laws
    ex_deleted (ex_mem [], ex_static true) ex_left k b ex_cleaned).
Defined.

(** A worker that waits on an empty queue when the context is cancelled. *)
Definition ex_waiting : scheduler (simplePlacementSchedulingQueue (Q := wq_view)) :=
  mkScheduler (NewSimplePlacementSchedulingQueue "" None) true [AtNext] AwaitsWorkers.

Lemma ex_waiting_stuck s' :
  rtc (schedulerStep (fun _ q => q) (fun q => q)) ex_waiting s' -> sch_workers s' = [AtNext] /\ sch_main s' <> RunReturned.
Proof. apply waiting_workers_never_return; [by repeat constructor|done|done|done]. Qed.

End MemScheduler.
