(* ===== verification/Watchers.v ===== *)
(** * What wakes the scheduler

    The four controllers of [pkg/scheduler/watchers]: which events they react
    to, and which placements they add to the scheduling queue.

    The comment on the member cluster watcher promises that every change of a
    cluster that needs the scheduler's attention is reported.
    [ignored_update_adds_no_candidate] proves it against the plugins of the
    default profile, but for one kind of change, which
    [removed_condition_unnoticed] shows: the condition that says whether the
    namespaces of the cluster have been collected. *)

From stdpp Require Import prelude gmap strings.
From S2P Require Import Prelude K8s Api Sample Utils Score CycleState Plugins ClusterAffinity TopologySpread Framework.
From S2P Require Import SchedulerProfile Hub Rollout Queue Scheduler.

Local Open Scope string_scope.
Local Open Scope list_scope.

(** The reads of the watchers, from the cache, and the call for changes that can
    wait. *)
Class WatcherClient (W : Type) : Type := {
  watch_get_binding : string -> string -> hub W BindingObj;
  watch_get_snapshot : string -> string -> hub W PolicySnapshotObj;
  watch_get_cluster : string -> hub W MemberCluster;
  watch_list_crps : hub W (list PlacementObj);
  watch_list_rps : hub W (list PlacementObj);
  queue_AddBatched : PlacementKey -> W -> W;
}.

(** [predicate.Funcs] *)
Record predicateFuncs (A : Type) : Type := mkPredicate {
  CreateFunc : A -> bool;
  DeleteFunc : A -> bool;
  (** The old and the new object, nil when the event is invalid. *)
  UpdateFunc : option A -> option A -> bool;
}.
Arguments mkPredicate {A}.
Arguments CreateFunc {A}.
Arguments DeleteFunc {A}.
Arguments UpdateFunc {A}.

(** [controller.NewAPIServerError(true, client.IgnoreNotFound(err))], as the
    result of a reconciliation. *)
Definition ignoreNotFound {W A} (err : goerr) (k : A) : hub W A :=
  if has_reason NotFound err then hret k else hlift (Err (NewAPIServerError true err)).

(** Both deletion watchers let through only the event in which the deletion
    timestamp appears. *)
Definition deletionPredicate : predicateFuncs ObjectMeta :=
  mkPredicate (fun _ => false) (fun _ => false)
    (fun old new =>
      match old, new with
      | Some old, Some new => negb (being_deleted old) && being_deleted new
      | _, _ => false
      end).

Section Watchers.
Context {K : K8sLib} {W : Type} {P : PlacementReader W} {SC : SchedulerClient W} {WC : WatcherClient W}.

(** ** Bindings: [binding/watcher.go] *)

Definition reconcileBinding (namespace name : string) : hub W unit := fun w =>
  match watch_get_binding namespace name w with
  | (w, Err err) => ignoreNotFound err tt w
  | (w, Panic p) => (w, Panic p)
  | (w, Ok binding) =>
      if being_deleted (b_meta binding) && ContainsFinalizer (b_meta binding) SchedulerBindingCleanupFinalizer then
        match meta_labels (b_meta binding) !! PlacementTrackingLabel with
        | None => (w, Ok tt)
        | Some placementName =>
            hdo (queue_AddRateLimited (GetObjectKeyFromNamespaceName (meta_namespace (b_meta binding)) placementName)) w
        end
      else (w, Ok tt)
  end.

(** ** Placements: [placement/watcher.go] *)

Definition reconcilePlacement (namespace name : string) : hub W unit := fun w =>
  let placementKey := GetObjectKeyFromNamespaceName namespace name in
  match FetchPlacementFromKey placementKey w with
  | (w, Err err) => ignoreNotFound err tt w
  | (w, Panic p) => (w, Panic p)
  | (w, Ok placement) =>
      if being_deleted (pl_meta placement) && ContainsFinalizer (pl_meta placement) SchedulerCleanupFinalizer
      then hdo (queue_AddRateLimited placementKey) w
      else (w, Ok tt)
  end.

(** ** Policy snapshots: [schedulingpolicysnapshot/watcher.go] *)

Definition reconcileSnapshot (namespace name : string) : hub W unit := fun w =>
  match watch_get_snapshot namespace name w with
  | (w, Err err) => ignoreNotFound err tt w
  | (w, Panic p) => (w, Panic p)
  | (w, Ok policySnapshot) =>
      if being_deleted (snap_meta policySnapshot) then (w, Ok tt)
      else
        match IsLatestPolicySnapshot policySnapshot with
        | Ok true =>
            match meta_labels (snap_meta policySnapshot) !! PlacementTrackingLabel with
            | None => (w, Ok tt)
            | Some placementName =>
                hdo (queue_Add (GetObjectKeyFromNamespaceName (meta_namespace (snap_meta policySnapshot)) placementName)) w
            end
        | _ => (w, Ok tt)
        end
  end.

(** The value that a Go map yields for a key that may be missing. *)
Definition map_value (m : gmap string string) (k : string) : string := default "" (m !! k).

(** [strconv.ParseBool], with the false that it returns beside an error. *)
Definition parsedBool (s : string) : bool := match ParseBool s with Ok b => b | _ => false end.

Definition snapshotPredicate : predicateFuncs ObjectMeta :=
  mkPredicate (fun _ => true) (fun _ => false)
    (fun old new =>
      match old, new with
      | Some old, Some new =>
          if negb (bool_decide (map_value (meta_annotations old) NumberOfClustersAnnotation =
                                map_value (meta_annotations new) NumberOfClustersAnnotation)) then true
          else if negb (bool_decide (map_value (meta_annotations old) CRPGenerationAnnotation =
                                     map_value (meta_annotations new) CRPGenerationAnnotation)) then true
          else
            let oldVal := map_value (meta_labels old) IsLatestSnapshotLabel in
            let newVal := map_value (meta_labels new) IsLatestSnapshotLabel in
            if negb (is_ok (ParseBool oldVal)) then parsedBool newVal
            else if negb (is_ok (ParseBool newVal)) then false
            else negb (parsedBool oldVal) && parsedBool newVal
      | _, _ => false
      end).

(** ** Member clusters: [membercluster] *)

Definition isPlacementFullyScheduled (placement : PlacementObj) : bool :=
  let conditions := pst_Conditions (pl_status placement) in
  let scheduledCondition :=
    if decide (meta_namespace (pl_meta placement) = "")
    then FindStatusCondition conditions ClusterResourcePlacementScheduledConditionType
    else FindStatusCondition conditions ResourcePlacementScheduledConditionType in
  IsConditionStatusTrue scheduledCondition (meta_generation (pl_meta placement)).

(** The switch of [classifyPlacements]. *)
Definition affectedByCluster (placement : PlacementObj) : bool :=
  match psp_Policy (pl_spec placement) with
  | None => true
  | Some policy =>
      if decide (pol_PlacementType policy = PickFixedPlacementType) then negb (isPlacementFullyScheduled placement)
      else if decide (pol_PlacementType policy = PickAllPlacementType) then true
      else negb (isPlacementFullyScheduled placement)
  end.

Definition classifyPlacements (placements : list PlacementObj) : list PlacementObj :=
  List.filter affectedByCluster placements.

Definition enqueuePlacements (placements : list PlacementObj) (w : W) : W :=
  fold_left (fun w placement => queue_AddBatched (GetObjectKeyFromObj (pl_meta placement)) w) placements w.

(** All the placements when the cluster is gone or going, those that it may
    affect otherwise. *)
Definition reconcileCluster (enableResourcePlacement : bool) (name : string) : hub W unit :=
  let* memberCluster := (fun w : W =>
    match watch_get_cluster name w with
    | (w, Ok c) => (w, Ok (Some c))
    | (w, Err err) => if has_reason NotFound err then (w, Ok None) else (w, Err (NewAPIServerError true err))
    | (w, Panic p) => (w, Panic p)
    end) in
  let* crpList := hmap_err (NewAPIServerError true) watch_list_crps in
  let* rpList := if enableResourcePlacement then hmap_err (NewAPIServerError true) watch_list_rps else hret [] in
  let placements := crpList ++ rpList in
  let placements :=
    match memberCluster with
    | Some c => if negb (being_deleted (mc_meta c)) then classifyPlacements placements else placements
    | None => placements
    end in
  hdo (enqueuePlacements placements).

Definition isTaintsUpdatedOrDeleted (oldTaints newTaints : list Taint) : bool :=
  negb (forallb (fun oldTaint => bool_decide (oldTaint ∈ newTaints)) oldTaints).

(** The two loops over the properties: the times of the observations do not
    matter. *)
Definition propertiesChanged (old new : gmap string PropertyValue) : bool :=
  negb (bool_decide (size old = size new)) ||
  negb (forallb (fun kv =>
    match new !! kv.1 with
    | None => false
    | Some newV => bool_decide (pv_Value kv.2 = pv_Value newV)
    end) (map_to_list old)).

(** [equality.Semantic.DeepEqual] takes a nil map for an empty one. *)
Definition namespacesChanged (old new : option (gmap string string)) : bool :=
  negb (bool_decide (default ∅ old = default ∅ new)).

Definition clusterUpdated (checker : Eligibility.ClusterEligibilityChecker) (now : Z) (oldCluster newCluster : MemberCluster)
    : bool :=
  if being_deleted (mc_meta newCluster) then false
  else if negb (bool_decide (mc_labels oldCluster = mc_labels newCluster)) then true
  else if isTaintsUpdatedOrDeleted (mc_Taints oldCluster) (mc_Taints newCluster) then true
  else if propertiesChanged (mc_Properties oldCluster) (mc_Properties newCluster) then true
  else if namespacesChanged (mc_Namespaces oldCluster) (mc_Namespaces newCluster) then true
  else
    let oldUsage := mc_ResourceUsage oldCluster in
    let newUsage := mc_ResourceUsage newCluster in
    if negb (bool_decide (usage_Capacity oldUsage = usage_Capacity newUsage)) then true
    else if negb (bool_decide (usage_Allocatable oldUsage = usage_Allocatable newUsage)) then true
    else if negb (bool_decide (usage_Available oldUsage = usage_Available newUsage)) then true
    else
      let '(oldEligible, _) := Eligibility.IsEligible checker now oldCluster in
      let '(newEligible, _) := Eligibility.IsEligible checker now newCluster in
      negb oldEligible && newEligible.

Definition clusterPredicate (checker : Eligibility.ClusterEligibilityChecker) (now : Z) : predicateFuncs MemberCluster :=
  mkPredicate (fun _ => false) (fun _ => true)
    (fun old new =>
      match old, new with
      | Some oldCluster, Some newCluster => clusterUpdated checker now oldCluster newCluster
      | _, _ => false
      end).

End Watchers.

(** * No wake-up is missed *)

Import RefLib.

Section Proofs.
Context {K : K8sLib}.

(** ** What an ignored update leaves alone *)

Record unchanged (checker : Eligibility.ClusterEligibilityChecker) (now : Z) (old new : MemberCluster) : Prop := {
  un_labels : mc_labels old = mc_labels new;
  un_taints : mc_Taints old ⊆ mc_Taints new;
  un_properties : forall k, pv_Value <$> mc_Properties old !! k = pv_Value <$> mc_Properties new !! k;
  un_namespaces : default ∅ (mc_Namespaces old) = default ∅ (mc_Namespaces new);
  un_capacity : usage_Capacity (mc_ResourceUsage old) = usage_Capacity (mc_ResourceUsage new);
  un_allocatable : usage_Allocatable (mc_ResourceUsage old) = usage_Allocatable (mc_ResourceUsage new);
  un_available : usage_Available (mc_ResourceUsage old) = usage_Available (mc_ResourceUsage new);
  un_eligible : (Eligibility.IsEligible checker now new).1 = true -> (Eligibility.IsEligible checker now old).1 = true;
}.

Lemma taints_kept old new : isTaintsUpdatedOrDeleted old new = false -> old ⊆ new.
Proof.
  unfold isTaintsUpdatedOrDeleted. rewrite negb_false_iff, forallb_forall. intros H t Ht.
  apply list_elem_of_In in Ht. by apply H, bool_decide_eq_true in Ht.
Qed.

Lemma properties_kept old new k :
  propertiesChanged old new = false -> pv_Value <$> old !! k = pv_Value <$> new !! k.
Proof.
  unfold propertiesChanged. rewrite orb_false_iff, !negb_false_iff, bool_decide_eq_true, forallb_forall.
  intros [Hs Hv].
  assert (Hsub : forall k v, old !! k = Some v -> pv_Value <$> new !! k = Some (pv_Value v)).
  { intros k' v Hk. apply elem_of_map_to_list, list_elem_of_In in Hk. specialize (Hv _ Hk). cbn in Hv.
    destruct (new !! k') as [v'|]; [|done]. apply bool_decide_eq_true in Hv. cbn. by rewrite Hv. }
  destruct (old !! k) as [v|] eqn:Hk; [by rewrite (Hsub k v)|].
  destruct (new !! k) as [v'|] eqn:Hk'; [|done]. exfalso.
  assert (Hd : dom old ⊆ dom new ∖ {[k]}).
  { intros x [v Hx]%elem_of_dom. specialize (Hsub _ _ Hx). apply elem_of_difference. split.
    - apply elem_of_dom. destruct (new !! x); [eauto|done].
    - intros ->%elem_of_singleton. congruence. }
  apply subseteq_size in Hd. rewrite size_difference in Hd by (apply singleton_subseteq_l, elem_of_dom; eauto).
  rewrite size_singleton, !size_dom in Hd.
  assert (size new <> 0) by (intros ->%map_size_empty_iff; done). lia.
Qed.

Lemma clusterUpdated_false checker now old new :
  clusterUpdated checker now old new = false -> being_deleted (mc_meta new) = false ->
  unchanged checker now old new.
Proof.
  unfold clusterUpdated. intros H Hd. rewrite Hd in H.
  destruct (bool_decide (mc_labels old = _)) eqn:H1; [|done]. apply bool_decide_eq_true in H1. cbn in H.
  destruct (isTaintsUpdatedOrDeleted _ _) eqn:H2; [done|].
  destruct (propertiesChanged _ _) eqn:H3; [done|].
  destruct (namespacesChanged _ _) eqn:H4; [done|].
  unfold namespacesChanged in H4. apply negb_false_iff, bool_decide_eq_true in H4.
  destruct (bool_decide (usage_Capacity _ = _)) eqn:H5; [|done]. apply bool_decide_eq_true in H5. cbn in H.
  destruct (bool_decide (usage_Allocatable _ = _)) eqn:H6; [|done]. apply bool_decide_eq_true in H6. cbn in H.
  destruct (bool_decide (usage_Available _ = _)) eqn:H7; [|done]. apply bool_decide_eq_true in H7. cbn in H.
  split; auto using taints_kept, properties_kept.
  destruct (Eligibility.IsEligible checker now old) as [o ?], (Eligibility.IsEligible checker now new) as [n ?].
  cbn in *. by destruct o, n.
Qed.

(** ** The plugins on the two versions *)

Lemma taint_kept taint : forall taints tols,
  TaintToleration.findUntoleratedTaint taints tols = None -> taint ∈ taints ->
  TaintToleration.tolerationsTolerateTaint taint tols = true.
Proof.
  induction taints as [|t r IH]; cbn; intros tols H Ht; [by apply not_elem_of_nil in Ht|].
  destruct (TaintToleration.tolerationsTolerateTaint t tols) eqn:E; cbn in H; [|done].
  apply elem_of_cons in Ht as [-> |Ht]; eauto.
Qed.

Lemma tolerated_all taints tols :
  (forall taint, taint ∈ taints -> TaintToleration.tolerationsTolerateTaint taint tols = true) ->
  TaintToleration.findUntoleratedTaint taints tols = None.
Proof.
  induction taints as [|t r IH]; cbn; intros H; [done|]. rewrite H by set_solver. cbn. apply IH. set_solver.
Qed.

Section Plugins.
Variables (checker : Eligibility.ClusterEligibilityChecker) (now : Z) (old new : MemberCluster).
Hypothesis same_name : mc_name old = mc_name new.
Hypothesis un : unchanged checker now old new.

Lemma property_same name :
  ClusterAffinityPlugin.retrievePropertyValueFrom old name = ClusterAffinityPlugin.retrievePropertyValueFrom new name.
Proof.
  unfold ClusterAffinityPlugin.retrievePropertyValueFrom, ClusterAffinityPlugin.retrieveResourceUsageFrom.
  rewrite same_name, (un_capacity _ _ _ _ un), (un_allocatable _ _ _ _ un), (un_available _ _ _ _ un).
  pose proof (un_properties _ _ _ _ un name) as Hp.
  destruct (str_cut_prefix _ name); [done|].
  destruct (mc_Properties old !! name), (mc_Properties new !! name); try done. by injection Hp as ->.
Qed.

Lemma matches_same term :
  ClusterAffinityPlugin.Matches term old = ClusterAffinityPlugin.Matches term new.
Proof.
  assert (Hl : forall s, ClusterAffinityPlugin.matchLabels s old = ClusterAffinityPlugin.matchLabels s new).
  { intros s. unfold ClusterAffinityPlugin.matchLabels. by rewrite (un_labels _ _ _ _ un). }
  unfold ClusterAffinityPlugin.Matches. rewrite Hl.
  destruct (ClusterAffinityPlugin.matchLabels _ new) as [[|]| |]; try done. cbn.
  destruct (term_PropertySelector term) as [s|]; [|done].
  induction (ps_MatchExpressions s) as [|e es IH]; [done|]. cbn. rewrite IH.
  unfold ClusterAffinityPlugin.matchExpression. by rewrite property_same.
Qed.

Lemma affinity_same {V} name (state : CycleState V) policy :
  ClusterAffinityPlugin.Filter name state policy old = ClusterAffinityPlugin.Filter name state policy new.
Proof.
  unfold ClusterAffinityPlugin.Filter. destruct (ClusterAffinityPlugin.requiredTerms policy) as [ts|]; [|done].
  induction ts as [|t ts IH]; [done|]. cbn. by rewrite matches_same, IH.
Qed.

Lemma taints_pass {V} name (state : CycleState V) policy :
  TaintToleration.Filter name state policy new = Ok None -> TaintToleration.Filter name state policy old = Ok None.
Proof.
  unfold TaintToleration.Filter. intros H.
  destruct (TaintToleration.findUntoleratedTaint (mc_Taints new) _) eqn:E; [by injection H|].
  rewrite tolerated_all; [done|]. intros t Ht%(un_taints _ _ _ _ un). by eapply taint_kept.
Qed.

Lemma eligible_earlier t1 t2 c :
  (t1 <= t2)%Z -> Eligibility.eligible checker t2 c -> Eligibility.eligible checker t1 c.
Proof.
  intros Ht (H1 & (a & Ha & Hb) & Hj & (h & Hh & Hk)). split_and!; [done|exists a; split; [done|lia]|done|].
  exists h. split; [done|]. destruct Hk; [by left|right; lia].
Qed.

Lemma eligibility_pass {V} t t' name (state : CycleState V) policy :
  (t <= now <= t')%Z ->
  Eligibility.Filter checker t' name state policy new = Ok None ->
  Eligibility.Filter checker t name state policy old = Ok None.
Proof.
  unfold Eligibility.Filter. intros Ht H. pose proof (un_eligible _ _ _ _ un) as Hun.
  destruct (Eligibility.IsEligible checker t' new) as [e r] eqn:E. destruct e; cbn in H; [|done].
  assert (He : Eligibility.eligible checker t' new) by (apply Eligibility.IsEligible_spec; by rewrite E).
  apply (eligible_earlier now t') in He; [|lia]. apply Eligibility.IsEligible_spec, Hun, Eligibility.IsEligible_spec in He.
  apply (eligible_earlier t now) in He; [|lia]. apply Eligibility.IsEligible_spec in He.
  destruct (Eligibility.IsEligible checker t old) as [e' r']. cbn in He. by subst e'.
Qed.

Definition namespacesReported (c : MemberCluster) : bool :=
  bool_decide (FindStatusCondition (mc_Conditions c) NamespaceAffinity.NamespaceCollectionSucceededCondType <> None).

Lemma namespaces_pass {V} name (state : CycleState V) policy :
  namespacesReported old = namespacesReported new ->
  NamespaceAffinity.Filter name state policy new = Ok None -> NamespaceAffinity.Filter name state policy old = Ok None.
Proof.
  unfold namespacesReported, NamespaceAffinity.Filter. intros Hr H. pose proof (un_namespaces _ _ _ _ un) as Hn.
  destruct (FindStatusCondition (mc_Conditions old) _) eqn:Eo, (FindStatusCondition (mc_Conditions new) _) eqn:En; try done.
  destruct (mc_Namespaces new) as [mn|]; [|done]. cbn in Hn.
  destruct (mn !! _) eqn:Em; [|done].
  destruct (mc_Namespaces old) as [mo|]; cbn in Hn; subst mn; [by rewrite Em|done].
Qed.

End Plugins.

(** ** The profile *)

(** The plugins that accept the new version accept the old one. *)
Definition accepts_too {V} (state : CycleState V) policy (new old : MemberCluster) (p q : FilterPlugin V) : Prop :=
  filter_Name q = filter_Name p /\
  forall st, Filter p state policy new = Ok st -> code st = Success ->
    exists st', Filter q state policy old = Ok st' /\ code st' = Success.

Lemma run_accepts_too {V} (state : CycleState V) policy new old ps qs st :
  Forall2 (accepts_too state policy new old) ps qs ->
  runFilterPluginsOn ps state policy new = Ok st -> code st = Success ->
  exists st', runFilterPluginsOn qs state policy old = Ok st' /\ code st' = Success.
Proof.
  intros H. revert st. induction H as [|p q ps qs [Hn Hf] _ IH]; intros st; cbn; [eauto|]. rewrite Hn.
  destruct (decide _); [eauto|]. destruct (Filter p state policy new) as [s|e|x]; cbn; [|done|done].
  destruct (code s) eqn:Hs; intros Hr Hc; [|injection Hr as <-; first [congruence|done]..].
  destruct (Hf s eq_refl Hs) as (s' & -> & Hs'). cbn. rewrite Hs'. eauto.
Qed.

(** when the watcher ignores an update of a cluster, the update does not
    make the cluster a candidate for any placement: a cluster that passes the
    default profile's filters afterwards passed them before, for the same
    policy and cycle state, whatever time has gone by.  The condition that says
    whether namespaces are collected has to be present in both versions or
    absent in both. *)
Theorem ignored_update_adds_no_candidate checker before now after (old new : MemberCluster) state policy st :
  UpdateFunc (clusterPredicate checker now) (Some old) (Some new) = false ->
  being_deleted (mc_meta new) = false -> mc_name old = mc_name new ->
  namespacesReported old = namespacesReported new -> (before <= now <= after)%Z ->
  runFilterPluginsFor (NewDefaultProfile checker after) state policy new = Ok st -> code st = Success ->
  exists st', runFilterPluginsFor (NewDefaultProfile checker before) state policy old = Ok st' /\ code st' = Success.
Proof.
  intros Hu Hd Hn Hr Ht. pose proof (clusterUpdated_false _ _ _ _ Hu Hd) as un.
  apply run_accepts_too. cbn. repeat constructor; cbn.
  - intros s. rewrite (affinity_same checker now old new Hn un). eauto.
  - intros s Hs Hc. exists None. split; [|done]. eapply eligibility_pass; [exact un|exact Ht|].
    revert Hs Hc. unfold Eligibility.Filter. destruct (Eligibility.IsEligible _ _ _) as [[|] ?]; cbn; [done|]. by intros [= <-].
  - intros s Hs Hc. exists None. split; [|done]. eapply namespaces_pass; [exact un|exact Hr|].
    revert Hs Hc. unfold NamespaceAffinity.Filter. repeat case_match; intros [= <-]; done.
  - intros s Hs Hc. exists None. split; [|done]. eapply taints_pass; [exact un|].
    revert Hs Hc. unfold TaintToleration.Filter. case_match; intros [= <-]; done.
  - intros s. unfold SamePlacementAffinity.Filter. rewrite Hn. eauto.
  - intros s. unfold TopologySpread.Filter. rewrite Hn. eauto.
Qed.

End Proofs.

(** An update of a policy snapshot that is ignored leaves alone what the
    scheduler reads of the annotations, and does not make the snapshot the
    latest one. *)
Lemma ignored_snapshot_update (old new : ObjectMeta) :
  UpdateFunc snapshotPredicate (Some old) (Some new) = false ->
  map_value (meta_annotations old) NumberOfClustersAnnotation = map_value (meta_annotations new) NumberOfClustersAnnotation /\
  map_value (meta_annotations old) CRPGenerationAnnotation = map_value (meta_annotations new) CRPGenerationAnnotation /\
  (parsedBool (map_value (meta_labels new) IsLatestSnapshotLabel) = true ->
   parsedBool (map_value (meta_labels old) IsLatestSnapshotLabel) = true).
Proof.
  cbn. destruct (bool_decide (_ = map_value (meta_annotations new) NumberOfClustersAnnotation)) eqn:H1; [|done].
  destruct (bool_decide (_ = map_value (meta_annotations new) CRPGenerationAnnotation)) eqn:H2; [|done].
  apply bool_decide_eq_true in H1, H2. cbn. intros H. split_and!; [done..|]. intros Hn. rewrite Hn in H.
  unfold parsedBool in *. destruct (ParseBool (map_value (meta_labels old) _)) as [b|e|p]; [|done|done].
  destruct (ParseBool (map_value (meta_labels new) _)) as [b'|e|p]; [|done|done]. subst b'. by destruct b.
Qed.

(** ** Updates to evaluate *)

Definition ex_agent (heartbeat : Z) : AgentStatus :=
  mkAgentStatus MemberAgent
    [mkCondition AgentJoined ConditionTrue 0 0 "joined" EmptyString;
     mkCondition AgentHealthy ConditionTrue 0 0 "healthy" EmptyString] heartbeat.

Definition ex_member (taints : list Taint) (conditions : list Condition) (namespaces : option (gmap string string))
    (heartbeat : Z) : MemberCluster :=
  mkMemberCluster (Sample.labelled "member-1" {["region" := "east"]}) taints conditions ∅
    (mkResourceUsage {["cpu" := 4%Z]} ∅ ∅ 0) namespaces [ex_agent heartbeat].

Definition ex_taint : Taint := mkTaint "key" "value" "NoSchedule".

Definition ex_state (skipped : gset string) : CycleState pluginValue :=
  mkCycleState pluginValue ∅ [] ∅ ∅ skipped ∅ 0 0.

Definition ex_tolerant : PolicySnapshotObj :=
  Sample.snapshot "policy" (Some (mkPolicy PickAllPlacementType [] None None []
    [mkToleration "key" TolerationOpExists EmptyString EmptyString])).

(** A heartbeat and a new taint. *)
Lemma ignored_update_adds_no_candidate_witness :
  exists st', runFilterPluginsFor (NewDefaultProfile (Eligibility.New []) 0)
    (ex_state {[ClusterAffinityPlugin.defaultName; TopologySpread.defaultPluginName]}) ex_tolerant
    (ex_member [] [] None 0) = Ok st' /\ code st' = Success.
Proof.
  apply (ignored_update_adds_no_candidate (Eligibility.New []) 0 6 7 _ (ex_member [ex_taint] [] None 5) _ _ None).
  all: try (vm_compute; reflexivity).
  lia.
Defined.

(** The namespaces of the cluster are known and the placement's is not among
    them; when the cluster stops collecting namespaces, the placement could be
    scheduled on it, but the update is ignored. *)
Theorem removed_condition_unnoticed :
  let checker := Eligibility.New [] in
  let cond := mkCondition NamespaceAffinity.NamespaceCollectionSucceededCondType ConditionTrue 0 0 "Succeeded" EmptyString in
  let old := ex_member [] [cond] (Some {["other" := "work"]}) 0 in
  let new := ex_member [] [] (Some {["other" := "work"]}) 0 in
  let filter := NamespaceAffinity.Filter (V := pluginValue) NamespaceAffinity.defaultName
    (ex_state ∅) (mkPolicySnapshot (new_meta "policy" "prod" ∅ []) (mkSnapshotSpec None EmptyString) (mkSnapshotStatus 0 [] [])) in
  UpdateFunc (clusterPredicate checker 0) (Some old) (Some new) = false /\
  filter new = Ok None /\ exists st, filter old = Ok st /\ IsClusterUnschedulable st = true.
Proof. vm_compute. eauto. Qed.
