(* ===== verification/UpdateRunApi.v ===== *)
(** * Staged update runs: their objects

    The objects of [apis/placement/v1beta1/stageupdate_types.go], the calls
    that the controller of the update runs makes on them, and the conditions it
    sets on them in memory, from [pkg/controllers/updaterun]. *)

From stdpp Require Import prelude gmap strings.
From S2P Require Import Prelude K8s Api Utils FrameworkUtils Hub Overrider Rollout.

Local Open Scope string_scope.
Local Open Scope list_scope.

(** ** API types, from [apis/placement/v1beta1/stageupdate_types.go] *)

Definition StageTaskTypeTimedWait : string := "TimedWait".
Definition StageTaskTypeApproval : string := "Approval".

Record StageTask : Set := mkTask { task_Type : string; task_WaitTime : option Z }.

#[global] Instance StageTask_eq_dec : EqDecision StageTask.
Proof. solve_decision. Defined.

Record StageConfig : Set := mkStageConfig {
  stage_Name : string;
  stage_LabelSelector : option LabelSelector;
  stage_SortingLabelKey : option string;
  stage_MaxConcurrency : option IntOrString;
  stage_AfterStageTasks : list StageTask;
  stage_BeforeStageTasks : list StageTask;
}.

#[global] Instance StageConfig_eq_dec : EqDecision StageConfig.
Proof. solve_decision. Defined.

(** The delete stage is given by its before-stage tasks. *)
Record UpdateStrategySpec : Set := mkStrategy {
  us_Stages : list StageConfig;
  us_DeleteStage : option (list StageTask);
}.

#[global] Instance UpdateStrategySpec_eq_dec : EqDecision UpdateStrategySpec.
Proof. solve_decision. Defined.

Record ClusterUpdatingStatus : Set := mkClusterStatus {
  cus_ClusterName : string;
  cus_ResourceOverrideSnapshots : list NamespacedName;
  cus_ClusterResourceOverrideSnapshots : list string;
  cus_Conditions : list Condition;
}.

#[global] Instance ClusterUpdatingStatus_eq_dec : EqDecision ClusterUpdatingStatus.
Proof. solve_decision. Defined.

Record StageTaskStatus : Set := mkTaskStatus {
  ts_Type : string;
  ts_ApprovalRequestName : string;
  ts_Conditions : list Condition;
}.

#[global] Instance StageTaskStatus_eq_dec : EqDecision StageTaskStatus.
Proof. solve_decision. Defined.

Record StageUpdatingStatus : Set := mkStageStatus {
  sus_StageName : string;
  sus_Clusters : list ClusterUpdatingStatus;
  sus_AfterStageTaskStatus : list StageTaskStatus;
  sus_BeforeStageTaskStatus : list StageTaskStatus;
  sus_StartTime : option Z;
  sus_EndTime : option Z;
  sus_Conditions : list Condition;
}.

#[global] Instance StageUpdatingStatus_eq_dec : EqDecision StageUpdatingStatus.
Proof. solve_decision. Defined.

Record UpdateRunStatus : Set := mkRunStatus {
  urs_PolicySnapshotIndexUsed : string;
  urs_PolicyObservedClusterCount : Z;
  urs_ResourceSnapshotIndexUsed : string;
  urs_ApplyStrategy : option ApplyStrategy;
  urs_UpdateStrategySnapshot : option UpdateStrategySpec;
  urs_StagesStatus : list StageUpdatingStatus;
  urs_DeletionStageStatus : option StageUpdatingStatus;
  urs_Conditions : list Condition;
}.

#[global] Instance UpdateRunStatus_eq_dec : EqDecision UpdateRunStatus.
Proof. solve_decision. Defined.

Definition StateInitialize : string := "Initialize".
Definition StateRun : string := "Run".
Definition StateStop : string := "Stop".

Record UpdateRunSpec : Set := mkRunSpec {
  ursp_PlacementName : string;
  ursp_ResourceSnapshotIndex : string;
  ursp_StagedUpdateStrategyName : string;
  ursp_State : string;
}.

(** A ClusterStagedUpdateRun, or a StagedUpdateRun when it has a namespace. *)
Record UpdateRunObj : Set := mkUpdateRun {
  ur_meta : ObjectMeta;
  ur_spec : UpdateRunSpec;
  ur_status : UpdateRunStatus;
}.

Record ApprovalRequestObj : Set := mkApproval {
  ar_meta : ObjectMeta;
  ar_TargetUpdateRun : string;
  ar_TargetStage : string;
  ar_Conditions : list Condition;
}.

Definition StagedUpdateRunConditionInitialized : string := "Initialized".
Definition StagedUpdateRunConditionProgressing : string := "Progressing".
Definition StagedUpdateRunConditionSucceeded : string := "Succeeded".
Definition StageUpdatingConditionProgressing : string := "Progressing".
Definition StageUpdatingConditionSucceeded : string := "Succeeded".
Definition ClusterUpdatingConditionStarted : string := "Started".
Definition ClusterUpdatingConditionSucceeded : string := "Succeeded".
Definition StageTaskConditionApprovalRequestCreated : string := "ApprovalRequestCreated".
Definition StageTaskConditionApprovalRequestApproved : string := "ApprovalRequestApproved".
Definition StageTaskConditionWaitTimeElapsed : string := "WaitTimeElapsed".
Definition ApprovalRequestConditionApproved : string := "Approved".
Definition ApprovalRequestConditionApprovalAccepted : string := "ApprovalAccepted".

Definition UpdateRunFinalizer : string := FleetPrefix +:+ "stagedupdaterun-finalizer".
Definition TargetUpdateRunLabel : string := FleetPrefix +:+ "targetUpdateRun".
Definition TaskTypeLabel : string := FleetPrefix +:+ "taskType".
Definition UpdateRunDeleteStageName : string := FleetPrefix +:+ "deleteStage".
Definition UpdateRunDeleteStageTaskName : string := "delete-stage".
Definition IsLatestUpdateRunApprovalLabel : string := FleetPrefix +:+ "isLatestUpdateRunApproval".
Definition TargetUpdatingStageNameLabel : string := FleetPrefix +:+ "targetUpdatingStage".
Definition BeforeStageTaskLabelValue : string := "beforeStage".
Definition AfterStageTaskLabelValue : string := "afterStage".

(** ** Field assignments *)

Definition set_cus_Conditions (cs : list Condition) (c : ClusterUpdatingStatus) : ClusterUpdatingStatus :=
  mkClusterStatus (cus_ClusterName c) (cus_ResourceOverrideSnapshots c) (cus_ClusterResourceOverrideSnapshots c) cs.

Definition set_cus_overrides (cro : list string) (ro : list NamespacedName) (c : ClusterUpdatingStatus)
    : ClusterUpdatingStatus :=
  mkClusterStatus (cus_ClusterName c) ro cro (cus_Conditions c).

Definition set_ts_Conditions (cs : list Condition) (t : StageTaskStatus) : StageTaskStatus :=
  mkTaskStatus (ts_Type t) (ts_ApprovalRequestName t) cs.

Definition set_sus_Clusters (cs : list ClusterUpdatingStatus) (s : StageUpdatingStatus) : StageUpdatingStatus :=
  mkStageStatus (sus_StageName s) cs (sus_AfterStageTaskStatus s) (sus_BeforeStageTaskStatus s)
    (sus_StartTime s) (sus_EndTime s) (sus_Conditions s).

Definition set_sus_AfterStageTaskStatus (ts : list StageTaskStatus) (s : StageUpdatingStatus) : StageUpdatingStatus :=
  mkStageStatus (sus_StageName s) (sus_Clusters s) ts (sus_BeforeStageTaskStatus s)
    (sus_StartTime s) (sus_EndTime s) (sus_Conditions s).

Definition set_sus_BeforeStageTaskStatus (ts : list StageTaskStatus) (s : StageUpdatingStatus) : StageUpdatingStatus :=
  mkStageStatus (sus_StageName s) (sus_Clusters s) (sus_AfterStageTaskStatus s) ts
    (sus_StartTime s) (sus_EndTime s) (sus_Conditions s).

Definition set_sus_times (start finish : option Z) (s : StageUpdatingStatus) : StageUpdatingStatus :=
  mkStageStatus (sus_StageName s) (sus_Clusters s) (sus_AfterStageTaskStatus s) (sus_BeforeStageTaskStatus s)
    start finish (sus_Conditions s).

Definition set_sus_Conditions (cs : list Condition) (s : StageUpdatingStatus) : StageUpdatingStatus :=
  mkStageStatus (sus_StageName s) (sus_Clusters s) (sus_AfterStageTaskStatus s) (sus_BeforeStageTaskStatus s)
    (sus_StartTime s) (sus_EndTime s) cs.

Definition set_urs_policy (index : string) (count : Z) (s : UpdateRunStatus) : UpdateRunStatus :=
  mkRunStatus index count (urs_ResourceSnapshotIndexUsed s) (urs_ApplyStrategy s) (urs_UpdateStrategySnapshot s)
    (urs_StagesStatus s) (urs_DeletionStageStatus s) (urs_Conditions s).

Definition set_urs_ResourceSnapshotIndexUsed (index : string) (s : UpdateRunStatus) : UpdateRunStatus :=
  mkRunStatus (urs_PolicySnapshotIndexUsed s) (urs_PolicyObservedClusterCount s) index (urs_ApplyStrategy s)
    (urs_UpdateStrategySnapshot s) (urs_StagesStatus s) (urs_DeletionStageStatus s) (urs_Conditions s).

Definition set_urs_ApplyStrategy (a : option ApplyStrategy) (s : UpdateRunStatus) : UpdateRunStatus :=
  mkRunStatus (urs_PolicySnapshotIndexUsed s) (urs_PolicyObservedClusterCount s) (urs_ResourceSnapshotIndexUsed s) a
    (urs_UpdateStrategySnapshot s) (urs_StagesStatus s) (urs_DeletionStageStatus s) (urs_Conditions s).

Definition set_urs_UpdateStrategySnapshot (u : option UpdateStrategySpec) (s : UpdateRunStatus) : UpdateRunStatus :=
  mkRunStatus (urs_PolicySnapshotIndexUsed s) (urs_PolicyObservedClusterCount s) (urs_ResourceSnapshotIndexUsed s)
    (urs_ApplyStrategy s) u (urs_StagesStatus s) (urs_DeletionStageStatus s) (urs_Conditions s).

Definition set_urs_StagesStatus (ss : list StageUpdatingStatus) (s : UpdateRunStatus) : UpdateRunStatus :=
  mkRunStatus (urs_PolicySnapshotIndexUsed s) (urs_PolicyObservedClusterCount s) (urs_ResourceSnapshotIndexUsed s)
    (urs_ApplyStrategy s) (urs_UpdateStrategySnapshot s) ss (urs_DeletionStageStatus s) (urs_Conditions s).

Definition set_urs_DeletionStageStatus (d : option StageUpdatingStatus) (s : UpdateRunStatus) : UpdateRunStatus :=
  mkRunStatus (urs_PolicySnapshotIndexUsed s) (urs_PolicyObservedClusterCount s) (urs_ResourceSnapshotIndexUsed s)
    (urs_ApplyStrategy s) (urs_UpdateStrategySnapshot s) (urs_StagesStatus s) d (urs_Conditions s).

Definition set_urs_Conditions (cs : list Condition) (s : UpdateRunStatus) : UpdateRunStatus :=
  mkRunStatus (urs_PolicySnapshotIndexUsed s) (urs_PolicyObservedClusterCount s) (urs_ResourceSnapshotIndexUsed s)
    (urs_ApplyStrategy s) (urs_UpdateStrategySnapshot s) (urs_StagesStatus s) (urs_DeletionStageStatus s) cs.

Definition set_ur_meta (m : ObjectMeta) (u : UpdateRunObj) : UpdateRunObj := mkUpdateRun m (ur_spec u) (ur_status u).
Definition set_ur_status (s : UpdateRunStatus) (u : UpdateRunObj) : UpdateRunObj := mkUpdateRun (ur_meta u) (ur_spec u) s.

Definition ur_name (u : UpdateRunObj) : string := meta_name (ur_meta u).
Definition ur_namespace (u : UpdateRunObj) : string := meta_namespace (ur_meta u).
Definition ur_generation (u : UpdateRunObj) : Z := meta_generation (ur_meta u).
Definition ur_stages (u : UpdateRunObj) : list StageUpdatingStatus := urs_StagesStatus (ur_status u).

(** [status.StagesStatus], changed through a function. *)
Definition upd_status (f : UpdateRunStatus -> UpdateRunStatus) (u : UpdateRunObj) : UpdateRunObj :=
  set_ur_status (f (ur_status u)) u.

(** An update stage by its index, or the delete stage: what the pointers to a
    [StageUpdatingStatus] in the source stand for. *)
Inductive stageRef : Set :=
| UpdateStage (i : nat)
| DeleteStage.

#[global] Instance stageRef_eq_dec : EqDecision stageRef.
Proof. solve_decision. Defined.

Definition stage_at (r : stageRef) (u : UpdateRunObj) : option StageUpdatingStatus :=
  match r with
  | UpdateStage i => ur_stages u !! i
  | DeleteStage => urs_DeletionStageStatus (ur_status u)
  end.

Definition alter_stage (f : StageUpdatingStatus -> StageUpdatingStatus) (r : stageRef) (u : UpdateRunObj) : UpdateRunObj :=
  match r with
  | UpdateStage i => upd_status (fun s => set_urs_StagesStatus (alter f i (urs_StagesStatus s)) s) u
  | DeleteStage => upd_status (fun s => set_urs_DeletionStageStatus (f <$> urs_DeletionStageStatus s) s) u
  end.

(** ** Calls *)

Class UpdateRunClient (W : Type) : Type := {
  hub_get_updaterun : string -> string -> hub W UpdateRunObj;
  (** [Update] and [Status().Update] refresh the object they are given. *)
  hub_update_updaterun : UpdateRunObj -> W -> W * (UpdateRunObj * option goerr);
  hub_update_updaterun_status : UpdateRunObj -> W -> W * (UpdateRunObj * option goerr);
  (** [Get] of a strategy, by its namespace and name. *)
  hub_get_strategy : string -> string -> hub W UpdateStrategySpec;
  (** [List] of the member clusters that match a selector; no selector matches nothing. *)
  hub_list_clusters_matching : option LabelSelector -> hub W (list MemberCluster);
  hub_create_approval : ApprovalRequestObj -> W -> W * option goerr;
  hub_get_approval : string -> string -> hub W ApprovalRequestObj;
  hub_update_approval_status : ApprovalRequestObj -> W -> W * option goerr;
  (** [DeleteAllOf] the approval requests in a namespace with the given labels. *)
  hub_delete_approvals : string -> gmap string string -> W -> W * option goerr;
}.

(** The fields [ResourceSelectorResolver] and [ResourceSnapshotResolver] of the
    reconciler: the number of envelope objects and the selected resources of a
    placement, and the master of the latest resource snapshots. *)
Class SnapshotResolver (W : Type) : Type := {
  SelectResourcesForPlacement : PlacementObj -> hub W (Z * list string);
  GetOrCreateResourceSnapshot : PlacementObj -> Z -> list string -> Z -> hub W (option ResourceSnapshotObj);
}.

Definition isAborted (e : goerr) : bool := match e with ErrAborted _ => true | _ => false end.

(** [fmt.Errorf("%w: %s", errStagedUpdatedAborted, msg)], and with [errValidationFailed]. *)
Definition aborted (msg : string) : goerr := ErrAborted ("cannot continue the updateRun: " +:+ msg).
Definition validationFailed (msg : string) : goerr := aborted ("failed to validate the updateRun: " +:+ msg).

(** The message of an unexpected behavior error, and of a user error. *)
Definition unexpectedMsg (msg : string) : string := error_msg (NewUnexpectedBehaviorError (ErrPlain msg)).
Definition userMsg (msg : string) : string := error_msg (NewUserError (ErrPlain msg)).

(** ** Conditions set in memory *)

Section Marks.
Context {K : K8sLib}.
Variable now : Z.

Definition mark (type : string) (status : ConditionStatus) (generation : Z) (reason message : string)
    (cs : list Condition) : list Condition :=
  SetStatusCondition now cs (mkCondition type status generation 0 reason message).

Definition mark_run (type : string) (status : ConditionStatus) (reason message : string) (u : UpdateRunObj)
    : UpdateRunObj :=
  upd_status (fun s => set_urs_Conditions (mark type status (ur_generation u) reason message (urs_Conditions s)) s) u.

Definition markUpdateRunProgressing : UpdateRunObj -> UpdateRunObj :=
  mark_run StagedUpdateRunConditionProgressing ConditionTrue "UpdateRunProgressing" "The update run is making progress".

Definition markUpdateRunProgressingIfNotWaitingOrStuck (u : UpdateRunObj) : UpdateRunObj :=
  let progressingCond := FindStatusCondition (urs_Conditions (ur_status u)) StagedUpdateRunConditionProgressing in
  if IsConditionStatusFalse progressingCond (ur_generation u) &&
     match progressingCond with
     | Some c => bool_decide (cond_reason c = "UpdateRunWaiting" \/ cond_reason c = "UpdateRunStuck")
     | None => false
     end
  then u
  else markUpdateRunProgressing u.

Definition generateStuckClustersString (stuckClusterNames : list string) : string :=
  if (length stuckClusterNames <=? 3)%nat then String.concat ", " stuckClusterNames
  else String.concat ", " (take 3 stuckClusterNames) +:+ "...".

Definition markUpdateRunStuck (stageName : string) (stuckClusterNames : list string) : UpdateRunObj -> UpdateRunObj :=
  mark_run StagedUpdateRunConditionProgressing ConditionFalse "UpdateRunStuck"
    ("The updateRun is stuck waiting for " +:+ generateStuckClustersString stuckClusterNames +:+
     " cluster(s) in stage " +:+ stageName +:+
     " to finish updating, please check placement status for potential errors").

Definition markUpdateRunWaiting (message : string) : UpdateRunObj -> UpdateRunObj :=
  mark_run StagedUpdateRunConditionProgressing ConditionFalse "UpdateRunWaiting" message.

(** [fmt.Sprintf(condition.UpdateRunWaitingMessageFmt, tasks, stage)] *)
Definition waitingMessage (tasks stageName : string) : string :=
  "The updateRun is waiting for " +:+ tasks +:+ " tasks in stage " +:+ stageName +:+ " to complete".

Definition markUpdateRunStopping : UpdateRunObj -> UpdateRunObj :=
  mark_run StagedUpdateRunConditionProgressing ConditionUnknown "UpdateRunStopping"
    "The update run is in the process of stopping, waiting for all the updating/deleting clusters to finish updating before completing the stop process".

Definition mark_stage (type : string) (status : ConditionStatus) (generation : Z) (reason message : string)
    (s : StageUpdatingStatus) : StageUpdatingStatus :=
  set_sus_Conditions (mark type status generation reason message (sus_Conditions s)) s.

(** [if s.StartTime == nil { s.StartTime = &metav1.Time{Time: time.Now()} }], and for [EndTime] *)
Definition set_start (s : StageUpdatingStatus) : StageUpdatingStatus :=
  set_sus_times (Some (default now (sus_StartTime s))) (sus_EndTime s) s.

Definition set_end (s : StageUpdatingStatus) : StageUpdatingStatus :=
  set_sus_times (sus_StartTime s) (Some (default now (sus_EndTime s))) s.

Definition markStageUpdatingProgressStarted (generation : Z) (s : StageUpdatingStatus) : StageUpdatingStatus :=
  mark_stage StageUpdatingConditionProgressing ConditionTrue generation "StageUpdatingStarted"
    "Clusters in the stage started updating" (set_start s).

Definition markStageUpdatingWaiting (generation : Z) (message : string) : StageUpdatingStatus -> StageUpdatingStatus :=
  mark_stage StageUpdatingConditionProgressing ConditionFalse generation "StageUpdatingWaiting" message.

Definition markStageUpdatingSucceeded (generation : Z) (s : StageUpdatingStatus) : StageUpdatingStatus :=
  mark_stage StageUpdatingConditionSucceeded ConditionTrue generation "StageUpdatingSucceeded"
    "Stage update completed successfully"
    (mark_stage StageUpdatingConditionProgressing ConditionFalse generation "StageUpdatingSucceeded"
       "All clusters in the stage are updated and after-stage tasks are completed" (set_end s)).

Definition markStageUpdatingSkippedNoClusters (generation : Z) (message : string) (s : StageUpdatingStatus)
    : StageUpdatingStatus :=
  mark_stage StageUpdatingConditionSucceeded ConditionTrue generation "StageUpdatingSkippedNoClusters" message
    (mark_stage StageUpdatingConditionProgressing ConditionFalse generation "StageUpdatingSkippedNoClusters" message
       (set_end (set_start s))).

Definition markStageUpdatingFailed (generation : Z) (message : string) (s : StageUpdatingStatus) : StageUpdatingStatus :=
  mark_stage StageUpdatingConditionSucceeded ConditionFalse generation "StageUpdatingFailed" message
    (mark_stage StageUpdatingConditionProgressing ConditionFalse generation "StageUpdatingFailed"
       "Stage update aborted due to a non-recoverable error" (set_end s)).

Definition markStageUpdatingStopping (generation : Z) : StageUpdatingStatus -> StageUpdatingStatus :=
  mark_stage StageUpdatingConditionProgressing ConditionUnknown generation "StageUpdatingStopping"
    "Waiting for all the updating clusters to finish updating before completing the stop process".

Definition markStageUpdatingStopped (generation : Z) : StageUpdatingStatus -> StageUpdatingStatus :=
  mark_stage StageUpdatingConditionProgressing ConditionFalse generation "StageUpdatingStopped"
    "All the updating clusters have finished updating, the stage is now stopped, waiting to be resumed".

Definition mark_cluster (type : string) (status : ConditionStatus) (generation : Z) (reason message : string)
    (c : ClusterUpdatingStatus) : ClusterUpdatingStatus :=
  set_cus_Conditions (mark type status generation reason message (cus_Conditions c)) c.

Definition markClusterUpdatingStarted (generation : Z) : ClusterUpdatingStatus -> ClusterUpdatingStatus :=
  mark_cluster ClusterUpdatingConditionStarted ConditionTrue generation "ClusterUpdatingStarted" "Cluster update started".

Definition markClusterUpdatingSucceeded (generation : Z) : ClusterUpdatingStatus -> ClusterUpdatingStatus :=
  mark_cluster ClusterUpdatingConditionSucceeded ConditionTrue generation "ClusterUpdatingSucceeded"
    "Cluster update completed successfully".

Definition markClusterUpdatingFailed (generation : Z) (message : string)
    : ClusterUpdatingStatus -> ClusterUpdatingStatus :=
  mark_cluster ClusterUpdatingConditionSucceeded ConditionFalse generation "ClusterUpdatingFailed" message.

Definition mark_task (type : string) (generation : Z) (reason message : string) (t : StageTaskStatus)
    : StageTaskStatus :=
  set_ts_Conditions (mark type ConditionTrue generation reason message (ts_Conditions t)) t.

Definition markStageTaskRequestCreated (generation : Z) : StageTaskStatus -> StageTaskStatus :=
  mark_task StageTaskConditionApprovalRequestCreated generation "StageTaskApprovalRequestCreated"
    "ApprovalRequest object is created".

Definition markStageTaskRequestApproved (generation : Z) : StageTaskStatus -> StageTaskStatus :=
  mark_task StageTaskConditionApprovalRequestApproved generation "StageTaskApprovalRequestApproved"
    "ApprovalRequest object is approved".

Definition markAfterStageWaitTimeElapsed (generation : Z) : StageTaskStatus -> StageTaskStatus :=
  mark_task StageTaskConditionWaitTimeElapsed generation "AfterStageTaskWaitTimeElapsed" "Wait time elapsed".

(** The conditions of a cluster, by their types. *)
Definition cluster_started (generation : Z) (c : ClusterUpdatingStatus) : bool :=
  IsConditionStatusTrue (FindStatusCondition (cus_Conditions c) ClusterUpdatingConditionStarted) generation.

Definition cluster_succeeded (generation : Z) (c : ClusterUpdatingStatus) : bool :=
  IsConditionStatusTrue (FindStatusCondition (cus_Conditions c) ClusterUpdatingConditionSucceeded) generation.

Definition cluster_failed (generation : Z) (c : ClusterUpdatingStatus) : bool :=
  IsConditionStatusFalse (FindStatusCondition (cus_Conditions c) ClusterUpdatingConditionSucceeded) generation.

(** [calculateMaxConcurrencyValue] *)
Definition calculateMaxConcurrencyValue (status : UpdateRunStatus) (stageIndex : nat) : outcome Z :=
  match urs_UpdateStrategySnapshot status, urs_StagesStatus status !! stageIndex with
  | Some strategy, Some stageStatus =>
      match us_Stages strategy !! stageIndex with
      | Some stage =>
          match stage_MaxConcurrency stage with
          | Some specifiedMaxConcurrency =>
              let! maxConcurrencyValue :=
                GetScaledValueFromIntOrPercent specifiedMaxConcurrency (llen (sus_Clusters stageStatus)) false in
              Ok (if (maxConcurrencyValue =? 0)%Z then 1 else maxConcurrencyValue)%Z
          | None => Err (ErrPlain "nil value for IntOrString")
          end
      | None => nil_dereference
      end
  | _, _ => nil_dereference
  end.

End Marks.
