(* ===== verification/UpdateRunExec.v ===== *)
(** * Staged update runs: execution

    [execution.go] and [stop.go] of [pkg/controllers/updaterun]: one
    reconciliation updates the clusters of a stage, at most a given number at a
    time, between tasks that a user approves or that wait; once the stages are
    done it deletes the bindings that are no longer wanted; or it lets the
    updating clusters finish when the run is stopped.

    A function that changes the update run it is given is a computation on a
    pair of the hub and the update run in memory ([run]), which keeps what it
    changed when it fails.  [now] is the value of [time.Now()] during one
    reconciliation.  Logs, events and metrics are left out. *)

From stdpp Require Import prelude gmap strings.
From S2P Require Import Prelude K8s Api Utils FrameworkUtils Hub Overrider Rollout UpdateRunApi.

Local Open Scope string_scope.
Local Open Scope list_scope.

(** ** A computation on the hub and the update run in memory *)

Definition run (W A : Type) : Type := hub (W * UpdateRunObj) A.

Section Run.
Context {W : Type}.
Notation run := (run W).

Definition onHub {A} (m : hub W A) : run A := fun s => let '(w, r) := m s.1 in ((w, s.2), r).
Definition theRun : run UpdateRunObj := fun s => (s, Ok s.2).
Definition change (f : UpdateRunObj -> UpdateRunObj) : run unit := fun s => ((s.1, f s.2), Ok tt).

Definition getStage (r : stageRef) : run StageUpdatingStatus :=
  let* u := theRun in
  match stage_at r u with Some s => hret s | None => hlift nil_dereference end.

(** [f(stageStatus, updateRun.GetGeneration())] *)
Definition markStage (f : Z -> StageUpdatingStatus -> StageUpdatingStatus) (r : stageRef) : run unit :=
  change (fun u => alter_stage (f (ur_generation u)) r u).

(** The strategy snapshot, and the configuration of an update stage. *)
Definition getStrategy : run UpdateStrategySpec :=
  let* u := theRun in
  match urs_UpdateStrategySnapshot (ur_status u) with Some s => hret s | None => hlift nil_dereference end.

Definition getStageConfig (i : nat) : run StageConfig :=
  let* strategy := getStrategy in
  match us_Stages strategy !! i with
  | Some c => hret c
  | None => hlift (Panic "index out of range")
  end.

End Run.

Section Execution.
Context {K : K8sLib} {W : Type} {C : HubClient W} {UC : UpdateRunClient W}.
Variable now : Z.
(** The message of [utilerrors.NewAggregate]. *)
Variable aggregateMessage : list string -> string.
Notation run := (run W).

Definition clusterUpdatingWaitTime : Z := 15 * second.
Definition stageUpdatingWaitTime : Z := 60 * second.
Definition updateRunStuckThreshold : Z := 5 * 60 * second.

(** [utilerrors.NewAggregate]: [errors.Is] looks at every error. *)
Definition aggregate (errs : list goerr) : goerr :=
  let msg := aggregateMessage (error_msg <$> errs) in
  if existsb isAborted errs then ErrAborted msg else ErrPlain msg.

(** ** Approval requests *)

(** A task status of a stage: what the pointers to a [StageTaskStatus] stand for. *)
Record taskRef : Set := mkTaskRef { tr_stage : stageRef; tr_before : bool; tr_index : nat }.

Definition stage_tasks (before : bool) (s : StageUpdatingStatus) : list StageTaskStatus :=
  if before then sus_BeforeStageTaskStatus s else sus_AfterStageTaskStatus s.

Definition set_stage_tasks (before : bool) (ts : list StageTaskStatus) (s : StageUpdatingStatus) : StageUpdatingStatus :=
  if before then set_sus_BeforeStageTaskStatus ts s else set_sus_AfterStageTaskStatus ts s.

Definition alter_task (f : StageTaskStatus -> StageTaskStatus) (t : taskRef) : UpdateRunObj -> UpdateRunObj :=
  alter_stage (fun s => set_stage_tasks (tr_before t) (alter f (tr_index t) (stage_tasks (tr_before t) s)) s) (tr_stage t).

Definition getTask (t : taskRef) : run StageTaskStatus :=
  let* s := getStage (tr_stage t) in
  match stage_tasks (tr_before t) s !! tr_index t with
  | Some task => hret task
  | None => hlift (Panic "index out of range")
  end.

Definition markTask (f : Z -> StageTaskStatus -> StageTaskStatus) (t : taskRef) : run unit :=
  change (fun u => alter_task (f (ur_generation u)) t u).

Definition buildApprovalRequestObject (name namespace stageName updateRunName stageTaskType : string)
    : ApprovalRequestObj :=
  let stageLabelValue :=
    if decide (stageName = UpdateRunDeleteStageName) then UpdateRunDeleteStageTaskName else stageName in
  mkApproval
    (new_meta name namespace
      (<[TargetUpdatingStageNameLabel := stageLabelValue]> (<[TargetUpdateRunLabel := updateRunName]>
        (<[TaskTypeLabel := stageTaskType]> {[IsLatestUpdateRunApprovalLabel := "true"]}))) [])
    updateRunName stageName [].

Definition updateApprovalRequestAccepted (appReq : ApprovalRequestObj) : hub W unit :=
  let cond := mkCondition ApprovalRequestConditionApprovalAccepted ConditionTrue (meta_generation (ar_meta appReq)) 0
    "ApprovalRequestApprovalAccepted" "The approval request has been approved and cannot be reverted" in
  hmap_err NewUpdateIgnoreConflictError (herr (hub_update_approval_status
    (mkApproval (ar_meta appReq) (ar_TargetUpdateRun appReq) (ar_TargetStage appReq)
       (SetStatusCondition now (ar_Conditions appReq) cond)))).

Definition approval_condition (type : string) (r : ApprovalRequestObj) : bool :=
  IsConditionStatusTrue (FindStatusCondition (ar_Conditions r) type) (meta_generation (ar_meta r)).

(** What follows when the approval request exists already. *)
Definition checkApprovalRequest (t : taskRef) (name stageName : string) : run bool :=
  let* u := theRun in
  let* _ := markTask (markStageTaskRequestCreated now) t in
  let* approvalRequest := hmap_err (NewAPIServerError true) (onHub (hub_get_approval (ur_namespace u) name)) in
  if decide (ar_TargetStage approvalRequest <> stageName \/ ar_TargetUpdateRun approvalRequest <> ur_name u) then
    hlift (Err (aborted (unexpectedMsg ("the approval request task `" +:+ ur_namespace u +:+ "/" +:+ name +:+
      "` is targeting update run `" +:+ ur_namespace u +:+ "/" +:+ ar_TargetUpdateRun approvalRequest +:+
      "` and stage `" +:+ ar_TargetStage approvalRequest +:+ "`, want target update run `" +:+ ur_namespace u +:+
      "/" +:+ ur_name u +:+ "` and stage `" +:+ stageName +:+ "`"))))
  else
    let approvalAccepted := approval_condition ApprovalRequestConditionApprovalAccepted approvalRequest in
    let approved := approval_condition ApprovalRequestConditionApproved approvalRequest in
    if negb approvalAccepted && negb approved then hret false
    else
      let* _ := if approved && negb approvalAccepted then onHub (updateApprovalRequestAccepted approvalRequest)
                else hret tt in
      let* _ := markTask (markStageTaskRequestApproved now) t in
      hret true.

Definition task_approved (generation : Z) (t : StageTaskStatus) : bool :=
  IsConditionStatusTrue (FindStatusCondition (ts_Conditions t) StageTaskConditionApprovalRequestApproved) generation.

Definition handleStageApprovalTask (t : taskRef) (stageName stageTaskType : string) : run bool :=
  let* u := theRun in
  let* task := getTask t in
  if task_approved (ur_generation u) task then hret true
  else
    let name := ts_ApprovalRequestName task in
    let approvalRequest := buildApprovalRequestObject name (ur_namespace u) stageName (ur_name u) stageTaskType in
    fun s =>
      match hub_create_approval approvalRequest s.1 with
      | (w, None) => (let* _ := markTask (markStageTaskRequestCreated now) t in hret false) (w, s.2)
      | (w, Some err) =>
          if has_reason AlreadyExists err then checkApprovalRequest t name stageName (w, s.2)
          else ((w, s.2), Err (NewAPIServerError false err))
      end.

(** The loop returns in its first iteration. *)
Definition checkBeforeStageTasksStatus (r : stageRef) (tasks : list StageTask) : run bool :=
  match tasks with
  | [] => hret true
  | task :: _ =>
      let* stageStatus := getStage r in
      if decide (task_Type task = StageTaskTypeApproval) then
        handleStageApprovalTask (mkTaskRef r true 0) (sus_StageName stageStatus) BeforeStageTaskLabelValue
      else hlift (Err (aborted (unexpectedMsg
        ("found unsupported task type in before stage tasks: " +:+ task_Type task))))
  end.

(** [meta.IsStatusConditionTrue], whatever the generation. *)
Definition wait_elapsed (t : StageTaskStatus) : bool :=
  match FindStatusCondition (ts_Conditions t) StageTaskConditionWaitTimeElapsed with
  | Some c => bool_decide (cond_status c = ConditionTrue)
  | None => false
  end.

(** One after-stage task: whether it lets the stage pass, and the time to wait,
    when the task is a wait that is not over. *)
Definition checkAfterStageTask (i j : nat) (task : StageTask) : run (bool * option Z) :=
  let t := mkTaskRef (UpdateStage i) false j in
  if decide (task_Type task = StageTaskTypeTimedWait) then
    let* stageStatus := getStage (UpdateStage i) in
    let* taskStatus := getTask t in
    if wait_elapsed taskStatus then hret (true, None)
    else
      match FindStatusCondition (sus_Conditions stageStatus) StageUpdatingConditionProgressing, task_WaitTime task with
      | Some c, Some duration =>
          let waitTime := time_sub (cond_last_transition c + duration) now in
          if (0 <? waitTime)%Z then hret (false, Some waitTime)
          else let* _ := markTask (markAfterStageWaitTimeElapsed now) t in hret (true, None)
      | _, _ => hlift nil_dereference
      end
  else if decide (task_Type task = StageTaskTypeApproval) then
    let* stage := getStageConfig i in
    let* approved := handleStageApprovalTask t (stage_Name stage) AfterStageTaskLabelValue in
    hret (approved, None)
  else hret (true, None).

Definition checkAfterStageTasksStatus (i : nat) : run (bool * Z) :=
  let* stage := getStageConfig i in
  let* (passed, afterStageWaitTime) :=
    hfold (fun acc jt =>
      let* (ok, wait) := checkAfterStageTask i jt.1 jt.2 in
      hret (acc.1 && ok, default acc.2 wait)) (true, -1)%Z (imap pair (stage_AfterStageTasks stage)) in
  hret (passed, if (passed : bool) then 0%Z else afterStageWaitTime).

Definition handleStageCompletion (i : nat) : run Z :=
  let r := UpdateStage i in
  let* stageStatus := getStage r in
  let* _ := change (markUpdateRunWaiting now (waitingMessage "after-stage" (sus_StageName stageStatus))) in
  let* _ := markStage (fun g => markStageUpdatingWaiting now g
    "All clusters in the stage are updated, waiting for after-stage tasks to complete") r in
  let* (approved, waitTime) := checkAfterStageTasksStatus i in
  if (approved : bool) then
    let* _ := change (markUpdateRunProgressing now) in
    let* _ := markStage (markStageUpdatingSucceeded now) r in
    hret 0%Z
  else hret (if (waitTime <? 0)%Z then stageUpdatingWaitTime else waitTime).

(** ** Clusters *)

Definition isBindingSyncedWithClusterStatus (resourceSnapshotName : string) (u : UpdateRunObj) (binding : BindingObj)
    (cluster : ClusterUpdatingStatus) : bool :=
  let spec := b_spec binding in
  bool_decide (rbs_ResourceSnapshotName spec = resourceSnapshotName) &&
  bool_decide (cus_ResourceOverrideSnapshots cluster = rbs_ResourceOverrideSnapshots spec) &&
  bool_decide (cus_ClusterResourceOverrideSnapshots cluster = rbs_ClusterResourceOverrideSnapshots spec) &&
  bool_decide (rbs_ApplyStrategy spec = urs_ApplyStrategy (ur_status u)).

(** The cluster, marked as succeeded when it is, and whether it is. *)
Definition checkClusterUpdateResult (binding : BindingObj) (cluster : ClusterUpdatingStatus) (stageName : string)
    (u : UpdateRunObj) : outcome (ClusterUpdatingStatus * bool) :=
  let generation := meta_generation (b_meta binding) in
  let availCond := GetCondition binding ResourceBindingAvailable in
  let diffReportCondition := GetCondition binding ResourceBindingDiffReported in
  if IsConditionStatusTrue availCond generation || IsConditionStatusTrue diffReportCondition generation then
    Ok (markClusterUpdatingSucceeded now (ur_generation u) cluster, true)
  else if HasBindingFailed binding || IsConditionStatusFalse diffReportCondition generation then
    Err (ErrPlain ("the cluster updating encountered an error at stage `" +:+ stageName +:+
      "`, updateRun := `" +:+ ur_name u +:+ "`"))
  else Ok (cluster, false).

Definition updateBindingRolloutStarted (u : UpdateRunObj) (binding : BindingObj) : hub W unit := fun w =>
  let binding := set_b_conditions (RemoveStatusCondition (b_conditions binding) ResourceBindingRolloutStarted) binding in
  let cond := mkCondition ResourceBindingRolloutStarted ConditionTrue (meta_generation (b_meta binding)) 0
    RolloutStartedReason
    ("Detected the new changes on the resources and started the rollout process, resourceSnapshotIndex: " +:+
     ursp_ResourceSnapshotIndex (ur_spec u) +:+ ", updateRun: " +:+ ur_name u) in
  match hub_update_binding_status (SetConditions now [cond] binding) w with
  | (w, (_, None)) => (w, Ok tt)
  | (w, (_, Some err)) => (w, Err (NewUpdateIgnoreConflictError err))
  end.

(** [Client.Update(ctx, binding)], which refreshes the binding. *)
Definition updateBinding (binding : BindingObj) : hub W BindingObj := fun w =>
  match hub_update_binding binding w with
  | (w, (b, None)) => (w, Ok b)
  | (w, (_, Some err)) => (w, Err (NewUpdateIgnoreConflictError err))
  end.

Definition boundSpec (resourceSnapshotName : string) (u : UpdateRunObj) (cluster : ClusterUpdatingStatus)
    (s : ResourceBindingSpec) : ResourceBindingSpec :=
  mkBindingSpec BindingStateBound resourceSnapshotName (cus_ResourceOverrideSnapshots cluster)
    (cus_ClusterResourceOverrideSnapshots cluster) (rbs_SchedulingPolicySnapshotName s) (rbs_TargetCluster s)
    (rbs_ClusterDecision s) (urs_ApplyStrategy (ur_status u)).

Definition rolloutStarted (binding : BindingObj) : bool :=
  IsConditionStatusTrue (FindStatusCondition (b_conditions binding) ResourceBindingRolloutStarted)
    (meta_generation (b_meta binding)).

(** A cluster that has not started updating. *)
Definition startCluster (resourceSnapshotName stageName : string) (u : UpdateRunObj) (binding : BindingObj)
    (cluster : ClusterUpdatingStatus) : hub W ClusterUpdatingStatus :=
  if negb (isBindingSyncedWithClusterStatus resourceSnapshotName u binding cluster) then
    let* binding := updateBinding (set_b_spec (boundSpec resourceSnapshotName u cluster (b_spec binding)) binding) in
    let* _ := updateBindingRolloutStarted u binding in hret cluster
  else if decide (b_state binding <> BindingStateBound) then
    let* binding := updateBinding (set_b_spec (set_rbs_State BindingStateBound (b_spec binding)) binding) in
    let* _ := updateBindingRolloutStarted u binding in hret cluster
  else if negb (rolloutStarted binding) then
    let* _ := updateBindingRolloutStarted u binding in hret cluster
  else
    let* (cluster, _) := hlift (checkClusterUpdateResult binding cluster stageName u) in hret cluster.

(** What one iteration of the loop does: the cluster, an error, whether the
    stage is marked as started, whether the cluster has finished, and whether
    it is stuck. *)
Record clusterStep : Set := mkClusterStep {
  cs_cluster : ClusterUpdatingStatus;
  cs_error : option goerr;
  cs_started : bool;
  cs_finished : bool;
  cs_stuck : bool;
}.

(** [time.Since(cond.LastTransitionTime.Time) > updateRunStuckThreshold] *)
Definition isStuck (startedCond : option Condition) : bool :=
  match startedCond with
  | Some c => (updateRunStuckThreshold <? time_sub now (cond_last_transition c))%Z
  | None => false
  end.

(** A cluster that is updating: an error, or whether it has finished. *)
Definition checkUpdatingCluster (binding : BindingObj) (stageName : string) (u : UpdateRunObj)
    (cluster : ClusterUpdatingStatus) : clusterStep :=
  let stuck := isStuck (FindStatusCondition (cus_Conditions cluster) ClusterUpdatingConditionStarted) in
  match checkClusterUpdateResult binding cluster stageName u with
  | Ok (cluster, true) => mkClusterStep cluster None false true false
  | Ok (cluster, false) => mkClusterStep cluster None false false stuck
  | Err e => mkClusterStep cluster (Some e) false false stuck
  | Panic _ => mkClusterStep cluster None false false stuck
  end.

Definition bindingRef (b : BindingObj) : string :=
  GetObjectKeyFromNamespaceName (meta_namespace (b_meta b)) (b_name b).

(** [toBeUpdatedBindingsMap]: a later binding replaces an earlier one of the same cluster. *)
Definition bindingsByCluster (bs : list BindingObj) : gmap string BindingObj :=
  fold_left (fun m b => <[b_target b := b]> m) bs ∅.

Definition preemptedError (cluster : ClusterUpdatingStatus) (stageName : string) (binding : BindingObj) : string :=
  userMsg ("the binding of the updating cluster `" +:+ cus_ClusterName cluster +:+ "` in the stage `" +:+ stageName +:+
    "` is not up-to-date with the desired status, please check the status of binding `" +:+ bindingRef binding +:+
    "` and see if there is a concurrent updateRun referencing the same placement and updating the same cluster").

(** The loop body. *)
Definition executeCluster (resourceSnapshotName stageName : string) (u : UpdateRunObj)
    (bindings : gmap string BindingObj) (cluster : ClusterUpdatingStatus) : hub W clusterStep :=
  let generation := ur_generation u in
  if cluster_succeeded generation cluster then hret (mkClusterStep cluster None false true false)
  else if cluster_failed generation cluster then
    hret (mkClusterStep cluster (Some (aborted ("the cluster `" +:+ cus_ClusterName cluster +:+ "` in the stage " +:+
      stageName +:+ " has failed"))) false false false)
  else
    match bindings !! cus_ClusterName cluster with
    | None => hret (mkClusterStep cluster (Some (aborted (unexpectedMsg ("the binding for cluster `" +:+
        cus_ClusterName cluster +:+ "` in stage `" +:+ stageName +:+
        "` is not found in the toBeUpdatedBindings map")))) false false false)
    | Some binding =>
        if negb (cluster_started generation cluster) then fun w =>
          match startCluster resourceSnapshotName stageName u binding cluster w with
          | (w, Ok cluster) =>
              (w, Ok (mkClusterStep (markClusterUpdatingStarted now generation cluster) None true false false))
          | (w, Err e) => (w, Ok (mkClusterStep cluster (Some e) false false false))
          | (w, Panic p) => (w, Panic p)
          end
        else if negb (isBindingSyncedWithClusterStatus resourceSnapshotName u binding cluster) ||
                negb (rolloutStarted binding) || negb (bool_decide (b_state binding = BindingStateBound)) then
          let msg := preemptedError cluster stageName binding in
          hret (mkClusterStep (markClusterUpdatingFailed now generation msg cluster) (Some (aborted msg)) false false false)
        else hret (checkUpdatingCluster binding stageName u cluster)
    end.

(** What the loop has gathered; [ep_started] says that the stage was marked as started. *)
Record executeProgress : Set := mkProgress {
  ep_finished : Z;
  ep_updating : Z;
  ep_stuck : list string;
  ep_errors : list goerr;
  ep_started : bool;
}.

Definition addStep (p : executeProgress) (s : clusterStep) : executeProgress :=
  mkProgress (ep_finished p + if cs_finished s then 1 else 0) (ep_updating p + if cs_finished s then 0 else 1)
    (append_if (cs_stuck s) (ep_stuck p) (cus_ClusterName (cs_cluster s)))
    (ep_errors p ++ option_list (cs_error s)) (ep_started p || cs_started s).

(** [for i := 0; i < len(clusters) && clusterUpdatingCount < maxConcurrency; i++] *)
Fixpoint executeClusters (body : ClusterUpdatingStatus -> hub W clusterStep) (maxConcurrency : Z)
    (clusters : list ClusterUpdatingStatus) (p : executeProgress) : hub W (list ClusterUpdatingStatus * executeProgress) :=
  match clusters with
  | [] => hret ([], p)
  | c :: rest =>
      if (ep_updating p <? maxConcurrency)%Z then
        let* s := body c in
        let* (rest, p) := executeClusters body maxConcurrency rest (addStep p s) in
        hret (cs_cluster s :: rest, p)
      else hret (c :: rest, p)
  end.

Definition aggregateUpdateRunStatus (stageName : string) (stuckClusterNames : list string) (u : UpdateRunObj)
    : UpdateRunObj :=
  match stuckClusterNames with
  | [] => if decide (ursp_State (ur_spec u) = StateRun) then markUpdateRunProgressing now u else u
  | _ => markUpdateRunStuck now stageName stuckClusterNames u
  end.

(** [fmt.Sprintf(ResourceSnapshotNameFmt, placementName, resourceIndex)]; the
    initialization has made sure that the index is a number. *)
Definition resourceSnapshotName (u : UpdateRunObj) : string :=
  let resourceIndex := match Atoi (urs_ResourceSnapshotIndexUsed (ur_status u)) with Ok i => i | _ => 0%Z end in
  ursp_PlacementName (ur_spec u) +:+ "-" +:+ zstr resourceIndex +:+ "-snapshot".

Definition executeUpdatingStage (i : nat) (toBeUpdatedBindings : list BindingObj) (maxConcurrency : Z) : run Z :=
  let r := UpdateStage i in
  let* u := theRun in
  let* stageStatus := getStage r in
  let stageName := sus_StageName stageStatus in
  let* (clusters, p) := onHub (executeClusters
    (executeCluster (resourceSnapshotName u) stageName u (bindingsByCluster toBeUpdatedBindings))
    maxConcurrency (sus_Clusters stageStatus) (mkProgress 0 0 [] [] false)) in
  let* _ := change (alter_stage (set_sus_Clusters clusters) r) in
  let* _ := if ep_started p then markStage (markStageUpdatingProgressStarted now) r else hret tt in
  let* _ := change (aggregateUpdateRunStatus stageName (ep_stuck p)) in
  match ep_errors p with
  | _ :: _ => hlift (Err (aggregate (ep_errors p)))
  | [] =>
      if (ep_finished p =? llen clusters)%Z then handleStageCompletion i
      else hret clusterUpdatingWaitTime
  end.

(** ** The delete stage *)

Definition getDeleteStage : run StageUpdatingStatus := getStage DeleteStage.

(** The indices of the clusters of the stage by their names. *)
Definition clusterIndices (clusters : list ClusterUpdatingStatus) : gmap string nat :=
  fold_left (fun m ic => <[cus_ClusterName ic.2 := ic.1]> m) (imap pair clusters) ∅.

(** One of the bindings that are still there: the clusters with no binding so
    far, and the clusters whose deletion has not started. *)
Definition syncBinding (generation : Z) (clusters : list ClusterUpdatingStatus) (acc : gmap string nat * gmap string nat)
    (binding : BindingObj) : outcome (gmap string nat * gmap string nat) :=
  let '(deletedClusters, toBeStartedClusters) := acc in
  let target := b_target binding in
  match deletedClusters !! target with
  | None => Err (aborted (unexpectedMsg ("the to be deleted cluster `" +:+ target +:+ "` is not in the deleting stage")))
  | Some i =>
      match clusters !! i with
      | None => nil_dereference
      | Some curCluster =>
          let deletedClusters := delete target deletedClusters in
          if cluster_succeeded generation curCluster then
            Err (aborted (unexpectedMsg ("the deleted cluster `" +:+ target +:+
              "` in the deleting stage still has a binding")))
          else if negb (cluster_started generation curCluster) then
            Ok (deletedClusters, <[target := i]> toBeStartedClusters)
          else if negb (b_deleting binding) then
            Err (aborted (unexpectedMsg ("the cluster `" +:+ cus_ClusterName curCluster +:+
              "` in the deleting stage is marked as deleting but its corresponding binding is not deleting")))
          else Ok (deletedClusters, toBeStartedClusters)
      end
  end.

(** A cluster with no binding left has been deleted. *)
Definition markDeleted (generation : Z) (deletedClusters : gmap string nat) (i : nat) (c : ClusterUpdatingStatus)
    : ClusterUpdatingStatus :=
  if decide (deletedClusters !! cus_ClusterName c = Some i) then
    markClusterUpdatingSucceeded now generation
      (if cluster_started generation c then c else markClusterUpdatingStarted now generation c)
  else c.

Definition syncDeleteStageClusterStatuses (toBeDeletedBindings : list BindingObj) : run (gmap string nat) :=
  let* u := theRun in
  let* stageStatus := getDeleteStage in
  let clusters := sus_Clusters stageStatus in
  let* (deletedClusters, toBeStartedClusters) :=
    hlift (ofold (syncBinding (ur_generation u) clusters) (clusterIndices clusters, ∅) toBeDeletedBindings) in
  let* _ := change (alter_stage (fun s =>
    set_sus_Clusters (imap (markDeleted (ur_generation u) deletedClusters) (sus_Clusters s)) s) DeleteStage) in
  hret toBeStartedClusters.

Definition checkBeforeDeleteStageTasksStatus (toBeDeletedBindings : list BindingObj) : run bool :=
  let* strategy := getStrategy in
  match us_DeleteStage strategy with
  | None | Some [] => hret true
  | Some tasks =>
      match toBeDeletedBindings with
      | [] => hret true
      | _ =>
          let* stageStatus := getDeleteStage in
          match sus_StartTime stageStatus with
          | Some _ => hret true
          | None =>
              let* approved := checkBeforeStageTasksStatus DeleteStage tasks in
              if negb approved then
                let* _ := markStage (fun g => markStageUpdatingWaiting now g
                  "Not all before-stage tasks are completed, waiting for approval") DeleteStage in
                let* _ := change (markUpdateRunWaiting now (waitingMessage "before-stage" (sus_StageName stageStatus))) in
                hret false
              else
                let* _ := change (markUpdateRunProgressing now) in
                hret true
          end
      end
  end.

(** The body of the loop that deletes the bindings. *)
Definition deleteBinding (toBeStartedClusters : gmap string nat) (_ : unit) (binding : BindingObj) : run unit :=
  match toBeStartedClusters !! b_target binding with
  | None => hret tt
  | Some i =>
      let* _ := hmap_err (NewAPIServerError false) (onHub (herr (hub_delete_binding binding))) in
      markStage (fun g s => set_sus_Clusters (alter (markClusterUpdatingStarted now g) i (sus_Clusters s)) s) DeleteStage
  end.

Definition executeDeleteStage (toBeDeletedBindings : list BindingObj) : run (bool * Z) :=
  let* approved := checkBeforeDeleteStageTasksStatus toBeDeletedBindings in
  if negb approved then hret (false, stageUpdatingWaitTime)
  else
    let* _ := getDeleteStage in
    let* _ := markStage (markStageUpdatingProgressStarted now) DeleteStage in
    let* toBeStartedClusters := syncDeleteStageClusterStatuses toBeDeletedBindings in
    let* _ := hfold (deleteBinding toBeStartedClusters) tt toBeDeletedBindings in
    match toBeDeletedBindings with
    | [] =>
        let* _ := markStage (markStageUpdatingSucceeded now) DeleteStage in
        hret (true, clusterUpdatingWaitTime)
    | _ => hret (false, clusterUpdatingWaitTime)
    end.

(** ** The stage at an index *)

(** [checkIfErrorStagedUpdateAborted], deferred. *)
Definition checkIfErrorStagedUpdateAborted {A} (r : stageRef) (m : run A) : run A := fun s =>
  match m s with
  | (s, Err e) =>
      if isAborted e then
        ((s.1, alter_stage (markStageUpdatingFailed now (ur_generation s.2) (error_msg e)) r s.2), Err e)
      else (s, Err e)
  | r => r
  end.

(** The stage that is not skipped. *)
Definition executeStage (i : nat) (toBeUpdatedBindings : list BindingObj) : run (bool * Z) :=
  let r := UpdateStage i in
  let* stageStatus := getStage r in
  let* stage := getStageConfig i in
  let* approved := checkBeforeStageTasksStatus r (stage_BeforeStageTasks stage) in
  if negb approved then
    let* _ := markStage (fun g => markStageUpdatingWaiting now g
      "Not all before-stage tasks are completed, waiting for approval") r in
    let* _ := change (markUpdateRunWaiting now (waitingMessage "before-stage" (sus_StageName stageStatus))) in
    hret (false, stageUpdatingWaitTime)
  else
    let* u := theRun in
    let* maxConcurrency := hmap_err (fun e => aborted (error_msg e))
      (hlift (calculateMaxConcurrencyValue (ur_status u) i)) in
    let* waitTime := executeUpdatingStage i toBeUpdatedBindings maxConcurrency in
    hret (false, waitTime).

(** The stage of an index: the delete stage comes after the update stages. *)
Definition stageOfIndex (updatingStageIndex : Z) (u : UpdateRunObj) : stageRef :=
  if (updatingStageIndex <? llen (ur_stages u))%Z then UpdateStage (Z.to_nat updatingStageIndex) else DeleteStage.

Definition execute (updatingStageIndex : Z) (toBeUpdatedBindings toBeDeletedBindings : list BindingObj)
    : run (bool * Z) :=
  let* u := theRun in
  let r := stageOfIndex updatingStageIndex u in
  checkIfErrorStagedUpdateAborted r
    (let* _ := change (markUpdateRunProgressingIfNotWaitingOrStuck now) in
     match r with
     | UpdateStage i =>
         let* stageStatus := getStage r in
         match sus_Clusters stageStatus with
         | [] =>
             let* _ := markStage (fun g => markStageUpdatingSkippedNoClusters now g
               "Stage skipped because it has no clusters") r in
             hret (false, 0%Z)
         | _ => executeStage i toBeUpdatedBindings
         end
     | DeleteStage => executeDeleteStage toBeDeletedBindings
     end).

(** ** Stopping, from [stop.go] *)

(** The loop body: [None] when there is nothing to do for the cluster. *)
Definition stopCluster (stageName : string) (u : UpdateRunObj) (bindings : gmap string BindingObj)
    (cluster : ClusterUpdatingStatus) : option clusterStep :=
  let generation := ur_generation u in
  if negb (cluster_started generation cluster) then None
  else if cluster_failed generation cluster || cluster_succeeded generation cluster then None
  else
    match bindings !! cus_ClusterName cluster with
    | None => Some (mkClusterStep cluster (Some (aborted (unexpectedMsg ("the binding for cluster `" +:+
        cus_ClusterName cluster +:+ "` in stage `" +:+ stageName +:+
        "` is not found in the toBeUpdatedBindings map during stopping")))) false false false)
    | Some binding => Some (checkUpdatingCluster binding stageName u cluster)
    end.

Fixpoint stopClusters (body : ClusterUpdatingStatus -> option clusterStep) (clusters : list ClusterUpdatingStatus)
    (p : executeProgress) : list ClusterUpdatingStatus * executeProgress :=
  match clusters with
  | [] => ([], p)
  | c :: rest =>
      match body c with
      | None => let '(rest, p) := stopClusters body rest p in (c :: rest, p)
      | Some s => let '(rest, p) := stopClusters body rest (addStep p s) in (cs_cluster s :: rest, p)
      end
  end.

Definition stopUpdatingStage (i : nat) (toBeUpdatedBindings : list BindingObj) : run (bool * Z) :=
  let r := UpdateStage i in
  let* u := theRun in
  let* stageStatus := getStage r in
  let stageName := sus_StageName stageStatus in
  let* _ := markStage (markStageUpdatingStopping now) r in
  let '(clusters, p) := stopClusters (stopCluster stageName u (bindingsByCluster toBeUpdatedBindings))
    (sus_Clusters stageStatus) (mkProgress 0 0 [] [] false) in
  let* _ := change (alter_stage (set_sus_Clusters clusters) r) in
  let* _ := change (aggregateUpdateRunStatus stageName (ep_stuck p)) in
  match ep_errors p with
  | _ :: _ => hlift (Err (aggregate (ep_errors p)))
  | [] =>
      if (ep_updating p =? 0)%Z then
        let* _ := markStage (markStageUpdatingStopped now) r in
        hret (true, 0%Z)
      else hret (false, clusterUpdatingWaitTime)
  end.

Definition stopDeleteStage (toBeDeletedBindings : list BindingObj) : run bool :=
  let* _ := getDeleteStage in
  let* _ := markStage (markStageUpdatingStopping now) DeleteStage in
  let* _ := syncDeleteStageClusterStatuses toBeDeletedBindings in
  let* u := theRun in
  let* stageStatus := getDeleteStage in
  let allDeletingClustersDeleted := forallb (fun c =>
    negb (cluster_started (ur_generation u) c && negb (cluster_succeeded (ur_generation u) c))) (sus_Clusters stageStatus) in
  let* _ := if allDeletingClustersDeleted then markStage (markStageUpdatingStopped now) DeleteStage else hret tt in
  hret allDeletingClustersDeleted.

Definition stop (updatingStageIndex : Z) (toBeUpdatedBindings toBeDeletedBindings : list BindingObj)
    : run (bool * Z) :=
  let* u := theRun in
  let r := stageOfIndex updatingStageIndex u in
  checkIfErrorStagedUpdateAborted r
    (let* _ := change (markUpdateRunStopping now) in
     match r with
     | UpdateStage i => stopUpdatingStage i toBeUpdatedBindings
     | DeleteStage =>
         let* finished := stopDeleteStage toBeDeletedBindings in
         hret (finished, clusterUpdatingWaitTime)
     end).

End Execution.
