(* ===== verification/UpdateRun.v ===== *)
(** * Staged update runs: the controller

    [initialization.go], [validation.go] and [controller.go] of
    [pkg/controllers/updaterun]: the first reconciliation of an update run
    computes its stages, every later one checks them again and finds the stage
    to continue from; [UpdateRunExec.v] then executes or stops it.  Deep copies
    are the values themselves. *)

From stdpp Require Import prelude gmap strings.
From S2P Require Import Prelude K8s Api Utils Defaulter FrameworkUtils Hub Overrider Rollout UpdateRunApi UpdateRunExec.

Local Open Scope string_scope.
Local Open Scope list_scope.

Import Defaulter.Defaulter.

Section Controller.
Context {K : K8sLib} {M : ManifestLib} {W : Type} {C : HubClient W} {P : PlacementReader W}.
Context {PS : PolicySnapshotReader W} {SR : SnapshotReader W} {UC : UpdateRunClient W} {SRes : SnapshotResolver W}.
Variable now : Z.
(** The order in which a range loop visits a map, and the message of [utilerrors.NewAggregate]. *)
Variable mapOrder : forall A : Type, list (string * A) -> list (string * A).
Variable aggregateMessage : list string -> string.
Notation run := (run W).

(** ** Initialization, from [initialization.go] *)

Definition clusterCountOf (policySnapshot : PolicySnapshotObj) : outcome Z :=
  match sps_Policy (snap_spec policySnapshot) with
  | Some policy =>
      if decide (pol_PlacementType policy = PickNPlacementType) then
        match ExtractNumOfClustersFromPolicySnapshot policySnapshot with
        | Err e => Err (validationFailed (unexpectedMsg (error_msg e +:+ ": the policy snapshot `" +:+
            meta_namespace (snap_meta policySnapshot) +:+ "/" +:+ meta_name (snap_meta policySnapshot) +:+
            "` doesn't have valid cluster count annotation")))
        | r => r
        end
      else if decide (pol_PlacementType policy = PickFixedPlacementType) then Ok (llen (pol_ClusterNames policy))
      else Ok (-1)%Z
  | None => Ok (-1)%Z
  end.

(** The placement, with its defaults. *)
Definition validatePlacement : run (PlacementObj * (string * string)) :=
  let* u := theRun in
  let placementKey := (ur_namespace u, ursp_PlacementName (ur_spec u)) in
  let* placement := hmap_err (fun e =>
      if has_reason NotFound e then validationFailed (userMsg "parent placement not found")
      else NewAPIServerError true e)
    (onHub (hub_get_placement placementKey.1 placementKey.2)) in
  let placement := SetPlacementDefaults placement in
  let strategy := psp_Strategy (pl_spec placement) in
  if decide (rs_Type strategy <> ExternalRolloutStrategyType) then
    hlift (Err (validationFailed (userMsg
      ("parent placement does not have an external rollout strategy, current strategy: " +:+ rs_Type strategy))))
  else
    let* _ := change (upd_status (set_urs_ApplyStrategy (rs_ApplyStrategy strategy))) in
    hret (placement, placementKey).

Definition determinePolicySnapshot (placementKey : string * string) : run (PolicySnapshotObj * Z) :=
  let* policySnapshots := onHub (listLatestPolicySnapshots placementKey.1 placementKey.2) in
  let* latestPolicySnapshot := hmap_err (fun e => validationFailed (error_msg e))
    (hlift (onlyPolicySnapshot placementKey.2 policySnapshots)) in
  let meta := snap_meta latestPolicySnapshot in
  let policyIndex := default EmptyString (meta_labels meta !! PolicyIndexLabel) in
  if decide (policyIndex = EmptyString) then
    hlift (Err (validationFailed (unexpectedMsg ("policy snapshot `" +:+ meta_namespace meta +:+ "/" +:+
      meta_name meta +:+ "` does not have a policy index label"))))
  else
    let* _ := change (upd_status (fun s => set_urs_policy policyIndex (urs_PolicyObservedClusterCount s) s)) in
    let* clusterCount := hlift (clusterCountOf latestPolicySnapshot) in
    let* _ := change (upd_status (set_urs_policy policyIndex clusterCount)) in
    if IsConditionStatusTrue (FindStatusCondition (spst_Conditions (snap_status latestPolicySnapshot)) PolicySnapshotScheduled)
         (meta_generation meta)
    then hret (latestPolicySnapshot, clusterCount)
    else hlift (Err (validationFailed ("policy snapshot `" +:+ meta_name meta +:+ "` not fully scheduled yet"))).

(** The bindings to update and the bindings to delete. *)
Definition collectBinding (policySnapshotName : string) (acc : list BindingObj * list BindingObj) (binding : BindingObj)
    : outcome (list BindingObj * list BindingObj) :=
  let '(selected, toBeDeleted) := acc in
  if decide (b_state binding = BindingStateUnscheduled) then Ok (selected, toBeDeleted ++ [binding])
  else if decide (rbs_SchedulingPolicySnapshotName (b_spec binding) = policySnapshotName) then
    Ok (selected ++ [binding], toBeDeleted)
  else Err (ErrPlain ("binding `" +:+ bindingRef binding +:+ "` with old policy snapshot `" +:+
    rbs_SchedulingPolicySnapshotName (b_spec binding) +:+ "` has state " +:+ b_state binding +:+
    ", we might observe a transient state, need retry")).

Definition collectScheduledClusters (placementKey : string * string) (latestPolicySnapshot : PolicySnapshotObj)
    : run (list BindingObj * list BindingObj) :=
  let* bindingObjs := hmap_err (NewAPIServerError true) (onHub (ListBindingsFromKey placementKey true)) in
  let* (selected, toBeDeleted) :=
    hlift (ofold (collectBinding (meta_name (snap_meta latestPolicySnapshot))) ([], []) bindingObjs) in
  match selected, toBeDeleted with
  | [], [] => hlift (Err (validationFailed
      ("no scheduled or to-be-deleted bindings found for the latest policy snapshot " +:+
       meta_namespace (snap_meta latestPolicySnapshot) +:+ "/" +:+ meta_name (snap_meta latestPolicySnapshot))))
  | _, _ =>
      let* u := theRun in
      let count := urs_PolicyObservedClusterCount (ur_status u) in
      if (count =? -1)%Z then
        let* _ := change (upd_status (fun s => set_urs_policy (urs_PolicySnapshotIndexUsed s) (llen selected) s)) in
        hret (selected, toBeDeleted)
      else if (count =? llen selected)%Z then hret (selected, toBeDeleted)
      else hlift (Err (validationFailed (unexpectedMsg ("the number of selected bindings " +:+ zstr (llen selected) +:+
        " is not equal to the observed cluster count " +:+ zstr count))))
  end.

(** *** Stages *)

Definition buildStageTaskStatuses (tasks : list StageTask) (approvalRequestName : string) : list StageTaskStatus :=
  (fun task => mkTaskStatus (task_Type task)
    (if decide (task_Type task = StageTaskTypeApproval) then approvalRequestName else EmptyString) []) <$> tasks.

Definition validateBeforeStageTask (tasks : list StageTask) : outcome unit :=
  match tasks with
  | [] => Ok tt
  | [task] =>
      if decide (task_Type task <> StageTaskTypeApproval) then
        Err (ErrPlain ("task 0 of type " +:+ task_Type task +:+
          " is not allowed in beforeStageTasks, allowed type: Approval"))
      else match task_WaitTime task with
      | Some _ => Err (ErrPlain "task 0 of type Approval cannot have wait duration set")
      | None => Ok tt
      end
  | _ => Err (ErrPlain "beforeStageTasks can have at most one task")
  end.

Definition validateAfterStageTask (tasks : list StageTask) : outcome unit :=
  let! _ :=
    match tasks with
    | [t0; t1] =>
        if decide (task_Type t0 = task_Type t1) then
          Err (ErrPlain ("afterStageTasks cannot have two tasks of the same type: " +:+ task_Type t0))
        else Ok tt
    | _ => Ok tt
    end in
  ofold (fun _ it =>
    if decide (task_Type it.2 = StageTaskTypeTimedWait) then
      match task_WaitTime it.2 with
      | None => Err (ErrPlain ("task " +:+ zstr (Z.of_nat it.1) +:+ " of type TimedWait has wait duration set to nil"))
      | Some d =>
          if (d <=? 0)%Z then
            Err (ErrPlain ("task " +:+ zstr (Z.of_nat it.1) +:+ " of type TimedWait has wait duration <= 0"))
          else Ok tt
      end
    else Ok tt) tt (imap pair tasks).

(** The integer value of the sorting label of a cluster. *)
Definition sortingLabel (key : string) (cluster : MemberCluster) : outcome Z :=
  Atoi (default EmptyString (mc_labels cluster !! key)).

Definition stageClusterLess (sortingLabelKey : option string) (a b : MemberCluster) : bool :=
  match sortingLabelKey with
  | None => str_lt (mc_name a) (mc_name b)
  | Some key =>
      let labelI := match sortingLabel key a with Ok v => v | _ => 0%Z end in
      let labelJ := match sortingLabel key b with Ok v => v | _ => 0%Z end in
      if (labelI =? labelJ)%Z then str_lt (mc_name a) (mc_name b) else (labelI <? labelJ)%Z
  end.

(** One cluster that matches the selector of a stage. *)
Definition placeCluster (stage : StageConfig) (allSelectedClusters : gset string)
    (acc : list MemberCluster * gset string) (cluster : MemberCluster) : outcome (list MemberCluster * gset string) :=
  let '(curStageClusters, allPlacedClusters) := acc in
  if decide (mc_name cluster ∉ allSelectedClusters) then Ok acc
  else if decide (mc_name cluster ∈ allPlacedClusters) then
    Err (validationFailed (userMsg ("cluster `" +:+ mc_name cluster +:+ "` appears in more than one stages")))
  else
    let! _ :=
      match stage_SortingLabelKey stage with
      | None => Ok tt
      | Some key =>
          match sortingLabel key cluster with
          | Ok _ => Ok tt
          | Err e => Err (validationFailed (userMsg ("the sorting label `" +:+ key +:+ ":" +:+
              default EmptyString (mc_labels cluster !! key) +:+ "` on cluster `" +:+ mc_name cluster +:+
              "` is not valid: " +:+ error_msg e)))
          | Panic p => Panic p
          end
      end in
    Ok (curStageClusters ++ [cluster], {[mc_name cluster]} ∪ allPlacedClusters).

(** [fmt.Sprintf(BeforeStageApprovalTaskNameFmt, name, stage)], and for the tasks after the stage *)
Definition beforeTaskName (name stage : string) : string := name +:+ "-before-" +:+ stage.
Definition afterTaskName (name stage : string) : string := name +:+ "-after-" +:+ stage.

Definition newStageStatus (u : UpdateRunObj) (stage : StageConfig) (clusters : list MemberCluster) : StageUpdatingStatus :=
  mkStageStatus (stage_Name stage) ((fun c => mkClusterStatus (mc_name c) [] [] []) <$> clusters)
    (buildStageTaskStatuses (stage_AfterStageTasks stage) (afterTaskName (ur_name u) (stage_Name stage)))
    (buildStageTaskStatuses (stage_BeforeStageTasks stage) (beforeTaskName (ur_name u) (stage_Name stage)))
    None None [].

Definition invalidStageError (u : UpdateRunObj) (what stage : string) (e : goerr) : goerr :=
  validationFailed (userMsg (what +:+ " invalid, updateStrategy: `" +:+ ur_namespace u +:+ "/" +:+
    ursp_StagedUpdateStrategyName (ur_spec u) +:+ "`, stage: " +:+ stage +:+ ", err: " +:+ error_msg e)).

(** Whether the selector can be converted does not depend on any labels. *)
Definition validSelector (selector : option LabelSelector) : outcome unit :=
  match selector with
  | None => Ok tt
  | Some ls => let! _ := LabelSelectorMatches ls ∅ in Ok tt
  end.

(** The body of the loop over the stages of the strategy. *)
Definition computeStage (u : UpdateRunObj) (allSelectedClusters : gset string)
    (acc : list StageUpdatingStatus * gset string) (stage : StageConfig)
    : hub W (list StageUpdatingStatus * gset string) :=
  let '(stagesStatus, allPlacedClusters) := acc in
  let* _ := hmap_err (invalidStageError u "the before stage tasks are" (stage_Name stage))
    (hlift (validateBeforeStageTask (stage_BeforeStageTasks stage))) in
  let* _ := hmap_err (invalidStageError u "the after stage tasks are" (stage_Name stage))
    (hlift (validateAfterStageTask (stage_AfterStageTasks stage))) in
  let* _ := hmap_err (invalidStageError u "the stage label selector is" (stage_Name stage))
    (hlift (validSelector (stage_LabelSelector stage))) in
  let* clusterList := hmap_err (NewAPIServerError true) (hub_list_clusters_matching (stage_LabelSelector stage)) in
  let* (curStageClusters, allPlacedClusters) :=
    hlift (ofold (placeCluster stage allSelectedClusters) ([], allPlacedClusters) clusterList) in
  let curStageClusters := go_sort (stageClusterLess (stage_SortingLabelKey stage)) curStageClusters in
  hret (stagesStatus ++ [newStageStatus u stage curStageClusters], allPlacedClusters).

Definition missingClustersError (allSelectedClusters allPlacedClusters : gset string) : goerr :=
  let missingClusters := go_sort str_lt (elements (allSelectedClusters ∖ allPlacedClusters)) in
  validationFailed (userMsg "some clusters are not placed in any stage" +:+ ", total " +:+
    zstr (llen missingClusters) +:+ ", showing up to 10: " +:+ String.concat ", " (take 10 missingClusters)).

Definition computeRunStageStatus (scheduledBindings : list BindingObj) : run unit :=
  let* u := theRun in
  let* strategy := getStrategy in
  let allSelectedClusters : gset string := list_to_set (b_target <$> scheduledBindings) in
  let* (stagesStatus, allPlacedClusters) :=
    onHub (hfold (computeStage u allSelectedClusters) ([], ∅) (us_Stages strategy)) in
  let* _ := change (upd_status (set_urs_StagesStatus stagesStatus)) in
  if decide (size allPlacedClusters = size allSelectedClusters) then hret tt
  else hlift (Err (missingClustersError allSelectedClusters allPlacedClusters)).

Definition removeWaitTimeFromApprovalTasks (tasks : list StageTask) : list StageTask :=
  (fun task => if decide (task_Type task = StageTaskTypeApproval) then mkTask (task_Type task) None else task) <$> tasks.

Definition removeWaitTimeFromStage (stage : StageConfig) : StageConfig :=
  mkStageConfig (stage_Name stage) (stage_LabelSelector stage) (stage_SortingLabelKey stage) (stage_MaxConcurrency stage)
    (removeWaitTimeFromApprovalTasks (stage_AfterStageTasks stage))
    (removeWaitTimeFromApprovalTasks (stage_BeforeStageTasks stage)).

Definition removeWaitTimeFromUpdateRunStatus : UpdateRunObj -> UpdateRunObj :=
  upd_status (fun s => set_urs_UpdateStrategySnapshot ((fun strategy =>
    mkStrategy (removeWaitTimeFromStage <$> us_Stages strategy)
      (removeWaitTimeFromApprovalTasks <$> us_DeleteStage strategy)) <$> urs_UpdateStrategySnapshot s) s).

Definition clusterNameLess (a b : ClusterUpdatingStatus) : bool := str_lt (cus_ClusterName a) (cus_ClusterName b).

Definition generateStagesByStrategy (scheduledBindings toBeDeletedBindings : list BindingObj) : run unit :=
  let* u := theRun in
  let strategyName := ursp_StagedUpdateStrategyName (ur_spec u) in
  let* updateStrategySpec := hmap_err (fun e =>
      if has_reason NotFound e then
        validationFailed (userMsg ("referenced updateStrategy not found: `" +:+ ur_namespace u +:+ "/" +:+ strategyName +:+ "`"))
      else NewAPIServerError true e)
    (onHub (hub_get_strategy (ur_namespace u) strategyName)) in
  let* _ := change (upd_status (set_urs_UpdateStrategySnapshot (Some updateStrategySpec))) in
  let* _ := change removeWaitTimeFromUpdateRunStatus in
  let* strategy := getStrategy in
  let deleteStageTasks := default [] (us_DeleteStage strategy) in
  let* _ := hmap_err (invalidStageError u "the before stage tasks are" UpdateRunDeleteStageName)
    (hlift (validateBeforeStageTask deleteStageTasks)) in
  let* _ := computeRunStageStatus scheduledBindings in
  let toBeDeletedClusters := go_sort clusterNameLess
    ((fun b => mkClusterStatus (b_target b) [] [] []) <$> toBeDeletedBindings) in
  change (upd_status (set_urs_DeletionStageStatus (Some
    (mkStageStatus UpdateRunDeleteStageName toBeDeletedClusters []
      (buildStageTaskStatuses deleteStageTasks (beforeTaskName (ur_name u) UpdateRunDeleteStageTaskName))
      None None [])))).

(** *** Overrides *)

Definition getResourceSnapshotObjs (placement : PlacementObj) : run (list ResourceSnapshotObj) :=
  let* u := theRun in
  let index := ursp_ResourceSnapshotIndex (ur_spec u) in
  let placementKey := (meta_namespace (pl_meta placement), meta_name (pl_meta placement)) in
  if decide (index <> EmptyString) then
    match Atoi index with
    | Ok snapshotIndex =>
        if (snapshotIndex <? 0)%Z then hlift (Err (validationFailed (userMsg
          ("invalid resource snapshot index `" +:+ index +:+ "` provided, expected an integer >= 0"))))
        else
          let* resourceSnapshotObjs := hmap_err (NewAPIServerError true)
            (onHub (ListAllResourceSnapshotWithAnIndex index placementKey.2 placementKey.1)) in
          match resourceSnapshotObjs with
          | [] => hlift (Err (validationFailed (userMsg ("no resourceSnapshots with index `" +:+ zstr snapshotIndex +:+
              "` found for placement `" +:+ placementKey.1 +:+ "/" +:+ placementKey.2 +:+ "`"))))
          | _ => hret resourceSnapshotObjs
          end
    | _ => hlift (Err (validationFailed (userMsg
        ("invalid resource snapshot index `" +:+ index +:+ "` provided, expected an integer >= 0"))))
    end
  else
    let* (envelopeObjCount, selectedResources) := hmap_err (fun e =>
        if isUserError e then validationFailed (error_msg e) else e)
      (onHub (SelectResourcesForPlacement placement)) in
    let revisionLimit :=
      match psp_RevisionHistoryLimit (pl_spec placement) with
      | Some l => if (0 <? l)%Z then l else DefaultRevisionHistoryLimitValue
      | None => DefaultRevisionHistoryLimitValue
      end in
    let* latestResourceSnapshot :=
      onHub (GetOrCreateResourceSnapshot placement envelopeObjCount selectedResources revisionLimit) in
    match latestResourceSnapshot with
    | None => hlift (Err (NewUnexpectedBehaviorError (ErrPlain ("no resource snapshot created for placement `" +:+
        placementKey.1 +:+ "/" +:+ placementKey.2 +:+ "` but there is no error returned by getOrCreate"))))
    | Some s => hret [s]
    end.

(** The overrides of one cluster of a stage. *)
Definition recordClusterOverrides (matchedCRO : list ClusterResourceOverrideSnapshot)
    (matchedRO : list ResourceOverrideSnapshot) (_ : unit) (ij : nat * nat) : run unit :=
  let* stageStatus := getStage (UpdateStage ij.1) in
  match sus_Clusters stageStatus !! ij.2 with
  | None => hlift (Panic "index out of range")
  | Some cluster =>
      let* (cro, ro) := hmap_err (fun e => validationFailed (error_msg e))
        (onHub (PickFromResourceMatchedOverridesForTargetCluster (cus_ClusterName cluster) matchedCRO matchedRO)) in
      change (alter_stage (fun s => set_sus_Clusters
        (alter (set_cus_overrides cro ro) ij.2 (sus_Clusters s)) s) (UpdateStage ij.1))
  end.

(** The positions of all the clusters, stage by stage. *)
Definition clusterPositions (stages : list StageUpdatingStatus) : list (nat * nat) :=
  concat (imap (fun i s => imap (fun j _ => (i, j)) (sus_Clusters s)) stages).

Definition recordOverrideSnapshots (placement : PlacementObj) : run unit :=
  let* u := theRun in
  let* resourceSnapshotObjs := getResourceSnapshotObjs placement in
  match list_find is_master resourceSnapshotObjs with
  | None => hlift (Err (validationFailed (unexpectedMsg ("no master resourceSnapshot found for placement " +:+
      meta_namespace (pl_meta placement) +:+ "/" +:+ meta_name (pl_meta placement)))))
  | Some (_, master) =>
      let* _ := change (upd_status (set_urs_ResourceSnapshotIndexUsed
        (default EmptyString (meta_labels (rsnap_meta master) !! ResourceIndexLabel)))) in
      let* (matchedCRO, matchedRO) := hmap_err (fun e => validationFailed (error_msg e))
        (onHub (FetchAllMatchingOverridesForResourceSnapshot mapOrder (ursp_PlacementName (ur_spec u)) master)) in
      let* u := theRun in
      hfold (recordClusterOverrides matchedCRO matchedRO) tt (clusterPositions (ur_stages u))
  end.

(** *** Recording the status *)

(** [Client.Status().Update(ctx, updateRun)], which refreshes the update run. *)
Definition recordUpdateRunStatus : run unit := fun s =>
  match hub_update_updaterun_status s.2 s.1 with
  | (w, (u, None)) => ((w, u), Ok tt)
  | (w, (u, Some err)) => ((w, u), Err (NewUpdateIgnoreConflictError err))
  end.

Definition recordInitializationSucceeded : run unit :=
  let* _ := change (mark_run now StagedUpdateRunConditionInitialized ConditionTrue "UpdateRunInitializedSuccessfully"
    "The UpdateRun initialized successfully") in
  recordUpdateRunStatus.

Definition recordInitializationFailed (message : string) : run unit :=
  let* _ := change (mark_run now StagedUpdateRunConditionInitialized ConditionFalse "UpdateRunInitializedFailed" message) in
  recordUpdateRunStatus.

Definition recordUpdateRunSucceeded : run unit :=
  let* _ := change (mark_run now StagedUpdateRunConditionProgressing ConditionFalse "UpdateRunSucceeded"
    "All stages are completed") in
  let* _ := change (mark_run now StagedUpdateRunConditionSucceeded ConditionTrue "UpdateRunSucceeded"
    "All stages are completed successfully") in
  recordUpdateRunStatus.

Definition recordUpdateRunFailed (message : string) : run unit :=
  let* _ := change (mark_run now StagedUpdateRunConditionProgressing ConditionFalse "UpdateRunFailed"
    "The stages are aborted due to a non-recoverable error") in
  let* _ := change (mark_run now StagedUpdateRunConditionSucceeded ConditionFalse "UpdateRunFailed" message) in
  recordUpdateRunStatus.

Definition recordUpdateRunStopped : run unit :=
  let* _ := change (mark_run now StagedUpdateRunConditionProgressing ConditionFalse "UpdateRunStopped"
    "The update run has been stopped") in
  recordUpdateRunStatus.

Definition initialize : run (list BindingObj * list BindingObj) :=
  let* (placement, placementKey) := validatePlacement in
  let* (latestPolicySnapshot, _) := determinePolicySnapshot placementKey in
  let* (scheduledBindings, toBeDeletedBindings) := collectScheduledClusters placementKey latestPolicySnapshot in
  let* _ := generateStagesByStrategy scheduledBindings toBeDeletedBindings in
  let* _ := recordOverrideSnapshots placement in
  let* _ := recordInitializationSucceeded in
  hret (scheduledBindings, toBeDeletedBindings).

(** ** Validation, from [validation.go] *)

Definition stage_condition (type : string) (s : StageUpdatingStatus) : option Condition :=
  FindStatusCondition (sus_Conditions s) type.

(** A cluster that has started and has not succeeded. *)
Definition cluster_updating (generation : Z) (c : ClusterUpdatingStatus) : bool :=
  cluster_started generation c && negb (cluster_succeeded generation c).

Definition unexpectedAbort (msg : string) : goerr := aborted (unexpectedMsg msg).

(** The indices of the updating stage and of the last finished stage. *)
Definition validateClusterUpdatingStatus (generation : Z) (curStage updatingStageIndex lastFinishedStageIndex : Z)
    (stageStatus : StageUpdatingStatus) (maxConcurrency : Z) : outcome (Z * Z) :=
  let stageSucceedCond := stage_condition StageUpdatingConditionSucceeded stageStatus in
  let stageStartedCond := stage_condition StageUpdatingConditionProgressing stageStatus in
  let name := sus_StageName stageStatus in
  if IsConditionStatusTrue stageSucceedCond generation then
    if negb (updatingStageIndex =? -1)%Z && (updatingStageIndex <? curStage)%Z then
      Err (unexpectedAbort ("the finished stage `" +:+ zstr curStage +:+ "` is after the updating stage `" +:+
        zstr updatingStageIndex +:+ "`"))
    else
      match list_find (fun c => cluster_succeeded generation c = false) (sus_Clusters stageStatus) with
      | Some (_, c) => Err (unexpectedAbort ("cluster `" +:+ cus_ClusterName c +:+ "` in the finished stage `" +:+
          name +:+ "` has not succeeded"))
      | None =>
          if negb (curStage =? lastFinishedStageIndex + 1)%Z then
            Err (unexpectedAbort ("the finished stage `" +:+ name +:+
              "` is not right after the last finished stage with index `" +:+ zstr lastFinishedStageIndex +:+ "`"))
          else Ok (updatingStageIndex, curStage)
      end
  else if IsConditionStatusFalse stageSucceedCond generation then
    Err (aborted ("the stage `" +:+ name +:+ "` has failed, err: " +:+
      match stageSucceedCond with Some c => cond_message c | None => EmptyString end))
  else
    match stageStartedCond with
    | None => Ok (updatingStageIndex, lastFinishedStageIndex)
    | Some _ =>
        if negb (updatingStageIndex =? -1)%Z then
          Err (unexpectedAbort ("the stage `" +:+ name +:+ "` is updating, but there is already a stage with index `" +:+
            zstr updatingStageIndex +:+ "` updating"))
        else if negb (curStage =? lastFinishedStageIndex + 1)%Z then
          Err (unexpectedAbort ("the updating stage `" +:+ name +:+
            "` is not right after the last finished stage with index `" +:+ zstr lastFinishedStageIndex +:+ "`"))
        else
          let updatingClusterCount := llen (filter (fun c => cluster_updating generation c = true) (sus_Clusters stageStatus)) in
          if (maxConcurrency <? updatingClusterCount)%Z then
            Err (unexpectedAbort ("the number of updating clusters `" +:+ zstr updatingClusterCount +:+
              "` in the updating stage `" +:+ name +:+ "` exceeds maxConcurrency `" +:+ zstr maxConcurrency +:+ "`"))
          else Ok (curStage, lastFinishedStageIndex)
    end.

Definition stage_cluster_names (s : StageUpdatingStatus) : list string := cus_ClusterName <$> sus_Clusters s.

(** The body of the loop over the stages; [updateRunCopy] holds the newly computed ones. *)
Definition validateUpdateStage (updateRunCopy : UpdateRunObj) (acc : Z * Z) (ie : nat * StageUpdatingStatus)
    : outcome (Z * Z) :=
  let '(curStage, existing) := ie in
  match ur_stages updateRunCopy !! curStage with
  | None => Panic "index out of range"
  | Some new =>
      if decide (sus_StageName existing <> sus_StageName new) then
        Err (aborted ("index `" +:+ zstr (Z.of_nat curStage) +:+ "` stage name in the updateRun has changed, new: " +:+
          sus_StageName new +:+ ", existing: " +:+ sus_StageName existing))
      else if decide (length (sus_Clusters existing) <> length (sus_Clusters new)) then
        Err (aborted ("the number of clusters in index `" +:+ zstr (Z.of_nat curStage) +:+ "` stage has changed, new: " +:+
          zstr (llen (sus_Clusters new)) +:+ ", existing: " +:+ zstr (llen (sus_Clusters existing))))
      else
        match list_find (fun p => p.1 <> p.2) (zip (stage_cluster_names existing) (stage_cluster_names new)) with
        | Some (j, (old, new)) =>
            Err (aborted ("the `" +:+ zstr (Z.of_nat j) +:+ "` cluster in the `" +:+ zstr (Z.of_nat curStage) +:+
              "` stage has changed, new: " +:+ new +:+ ", existing: " +:+ old))
        | None =>
            match calculateMaxConcurrencyValue (ur_status updateRunCopy) curStage with
            | Ok maxConcurrency =>
                validateClusterUpdatingStatus (ur_generation updateRunCopy) (Z.of_nat curStage) acc.1 acc.2 existing maxConcurrency
            | Err e => Err (aborted (error_msg e))
            | Panic p => Panic p
            end
        end
  end.

Definition validateUpdateStagesStatus (existingStageStatus : list StageUpdatingStatus) (updateRunCopy : UpdateRunObj)
    : outcome (Z * Z) :=
  let newStageStatus := ur_stages updateRunCopy in
  if decide (length existingStageStatus <> length newStageStatus) then
    Err (aborted ("the number of stages in the updateRun has changed, new: " +:+ zstr (llen newStageStatus) +:+
      ", existing: " +:+ zstr (llen existingStageStatus)))
  else ofold (validateUpdateStage updateRunCopy) (-1, -1)%Z (imap pair existingStageStatus).

Definition validateDeleteStageStatus (updatingStageIndex lastFinishedStageIndex totalStages : Z)
    (toBeDeletedBindings : list BindingObj) (u : UpdateRunObj) : outcome Z :=
  let generation := ur_generation u in
  match urs_DeletionStageStatus (ur_status u) with
  | None => Err (unexpectedAbort "the updateRun has nil deletionStageStatus")
  | Some existing =>
      match list_find (fun b => b_target b ∉ stage_cluster_names existing) toBeDeletedBindings with
      | Some (_, b) => Err (unexpectedAbort ("the cluster `" +:+ b_target b +:+ "` to be deleted is not in the delete stage"))
      | None =>
          let finishedCond := stage_condition StageUpdatingConditionSucceeded existing in
          let progressingCond := stage_condition StageUpdatingConditionProgressing existing in
          if negb (updatingStageIndex =? -1)%Z || (lastFinishedStageIndex <? totalStages - 1)%Z then
            if IsConditionStatusTrue finishedCond generation || IsConditionStatusFalse finishedCond generation ||
               IsConditionStatusTrue progressingCond generation
            then Err (unexpectedAbort ("the delete stage is active, but there are still stages updating, updatingStageIndex: " +:+
              zstr updatingStageIndex +:+ ", lastFinishedStageIndex: " +:+ zstr lastFinishedStageIndex))
            else Ok (if (updatingStageIndex =? -1)%Z then lastFinishedStageIndex + 1 else updatingStageIndex)%Z
          else if IsConditionStatusTrue finishedCond generation then Ok (-1)%Z
          else if IsConditionStatusFalse finishedCond generation then
            Err (aborted ("the delete stage has failed, err: " +:+
              match finishedCond with Some c => cond_message c | None => EmptyString end))
          else Ok totalStages
      end
  end.

(** [updateRun.DeepCopyObject()]: the computation changes the copy only. *)
Definition onCopy {A} (m : run A) : run (UpdateRunObj * A) := fun s =>
  match m s with
  | (s', Ok a) => ((s'.1, s.2), Ok (s'.2, a))
  | (s', Err e) => ((s'.1, s.2), Err e)
  | (s', Panic p) => ((s'.1, s.2), Panic p)
  end.

(** What is checked of the copy against the original, up to the stages. *)
Definition validateOnCopy (u : UpdateRunObj) : run (list BindingObj * list BindingObj) :=
  let status := ur_status u in
  let* (_, placementKey) := validatePlacement in
  let* copy := theRun in
  if decide (urs_ApplyStrategy status <> urs_ApplyStrategy (ur_status copy)) then
    hlift (Err (aborted (userMsg "the applyStrategy in the updateRun is outdated")))
  else
    let* (latestPolicySnapshot, clusterCount) := determinePolicySnapshot placementKey in
    let* copy := theRun in
    if decide (urs_PolicySnapshotIndexUsed status <> urs_PolicySnapshotIndexUsed (ur_status copy)) then
      hlift (Err (aborted ("the policy snapshot index used in the updateRun is outdated, latest: " +:+
        urs_PolicySnapshotIndexUsed (ur_status copy) +:+ ", recorded: " +:+ urs_PolicySnapshotIndexUsed status)))
    else if negb (clusterCount =? -1)%Z && negb (urs_PolicyObservedClusterCount status =? clusterCount)%Z then
      hlift (Err (aborted ("the cluster count initialized in the updateRun is outdated, latest: " +:+ zstr clusterCount +:+
        ", recorded: " +:+ zstr (urs_PolicyObservedClusterCount status))))
    else
      let* (scheduledBindings, toBeDeletedBindings) := collectScheduledClusters placementKey latestPolicySnapshot in
      match urs_UpdateStrategySnapshot status with
      | None => hlift (Err (unexpectedAbort "the updateRun has nil updateStrategySnapshot"))
      | Some _ =>
          let* _ := computeRunStageStatus scheduledBindings in
          hret (scheduledBindings, toBeDeletedBindings)
      end.

(** What follows once the stages are computed again. *)
Definition validateStagesStatus (u updateRunCopy : UpdateRunObj) (toBeDeletedBindings : list BindingObj) : outcome Z :=
  match ur_stages u with
  | [] => Err (unexpectedAbort "the updateRun has nil stagesStatus")
  | existingStageStatus =>
      let! (updatingStageIndex, lastFinishedStageIndex) := validateUpdateStagesStatus existingStageStatus updateRunCopy in
      validateDeleteStageStatus updatingStageIndex lastFinishedStageIndex (llen existingStageStatus)
        toBeDeletedBindings updateRunCopy
  end.

Definition validate : run (Z * list BindingObj * list BindingObj) :=
  let* u := theRun in
  let* (copy, (scheduledBindings, toBeDeletedBindings)) := onCopy (validateOnCopy u) in
  let* updatingStageIndex := hlift (validateStagesStatus u copy toBeDeletedBindings) in
  hret (updatingStageIndex, scheduledBindings, toBeDeletedBindings).

(** ** Reconciliation, from [controller.go] *)

Definition set_generation (generation : Z) (c : Condition) : Condition :=
  mkCondition (cond_type c) (cond_status c) generation (cond_last_transition c) (cond_reason c) (cond_message c).

Definition updateAllStageStatusConditionsGeneration (generation : Z) (s : StageUpdatingStatus) : StageUpdatingStatus :=
  let task t := set_ts_Conditions (set_generation generation <$> ts_Conditions t) t in
  mkStageStatus (sus_StageName s)
    ((fun c => set_cus_Conditions (set_generation generation <$> cus_Conditions c) c) <$> sus_Clusters s)
    (task <$> sus_AfterStageTaskStatus s) (task <$> sus_BeforeStageTaskStatus s)
    (sus_StartTime s) (sus_EndTime s) (set_generation generation <$> sus_Conditions s).

Definition updateAllStatusConditionsGeneration (generation : Z) (s : UpdateRunStatus) : UpdateRunStatus :=
  mkRunStatus (urs_PolicySnapshotIndexUsed s) (urs_PolicyObservedClusterCount s) (urs_ResourceSnapshotIndexUsed s)
    (urs_ApplyStrategy s) (urs_UpdateStrategySnapshot s)
    (updateAllStageStatusConditionsGeneration generation <$> urs_StagesStatus s)
    (updateAllStageStatusConditionsGeneration generation <$> urs_DeletionStageStatus s)
    (set_generation generation <$> urs_Conditions s).

Definition updateUpdateRun : run unit := fun s =>
  match hub_update_updaterun s.2 s.1 with
  | (w, (u, None)) => ((w, u), Ok tt)
  | (w, (u, Some err)) => ((w, u), Err err)
  end.

(** On a copy, in the source: nothing follows. *)
Definition handleDelete : run unit :=
  let* u := theRun in
  let* _ := hmap_err (NewAPIServerError false)
    (onHub (herr (hub_delete_approvals (ur_namespace u) {[TargetUpdateRunLabel := ur_name u]}))) in
  let* _ := change (fun u => set_ur_meta (RemoveFinalizer (ur_meta u) UpdateRunFinalizer) u) in
  hmap_err NewUpdateIgnoreConflictError updateUpdateRun.

Definition ensureFinalizer : run unit :=
  let* u := theRun in
  if ContainsFinalizer (ur_meta u) UpdateRunFinalizer then hret tt
  else
    let* _ := change (fun u => set_ur_meta (AddFinalizer (ur_meta u) UpdateRunFinalizer) u) in
    updateUpdateRun.

Definition run_condition (type : string) (u : UpdateRunObj) : option Condition :=
  FindStatusCondition (urs_Conditions (ur_status u)) type.

(** The status is recorded whether or not there is an error to retry. *)
Definition handleIncompleteUpdateRun (waitTime : Z) (err : option goerr) : run Result :=
  let* _ := recordUpdateRunStatus in
  match err with
  | Some e => hlift (Err e)
  | None => hret (mkResult true waitTime)
  end.

(** What follows [execute] and [stop], where [record] tells that they have finished. *)
Definition finishRound (m : run (bool * Z)) (record : run unit) : run Result := fun s =>
  match m s with
  | (s, Ok (true, _)) => (let* _ := record in hret noResult) s
  | (s, Ok (false, waitTime)) => handleIncompleteUpdateRun waitTime None s
  | (s, Err e) =>
      if isAborted e then (let* _ := recordUpdateRunFailed (error_msg e) in hret noResult) s
      else handleIncompleteUpdateRun 0 (Some e) s
  | (s, Panic p) => (s, Panic p)
  end.

(** An error that is not retried is recorded. *)
Definition recordAborted {A} (record : string -> run unit) (m : run A) : run (option A) := fun s =>
  match m s with
  | (s, Ok a) => (s, Ok (Some a))
  | (s, Err e) => if isAborted e then (let* _ := record (error_msg e) in hret None) s else (s, Err e)
  | (s, Panic p) => (s, Panic p)
  end.

(** The updating stage and the bindings, or nothing when the reconciliation is over. *)
Definition initializeOrValidate : run (option (Z * list BindingObj * list BindingObj)) :=
  let* u := theRun in
  let generation := ur_generation u in
  let initCond := run_condition StagedUpdateRunConditionInitialized u in
  if negb (IsConditionStatusTrue initCond generation) then
    if IsConditionStatusFalse initCond generation then hret None
    else recordAborted (recordInitializationFailed)
      (let* (toBeUpdatedBindings, toBeDeletedBindings) := initialize in
       hret (0%Z, toBeUpdatedBindings, toBeDeletedBindings))
  else
    let finishedCond := run_condition StagedUpdateRunConditionSucceeded u in
    if IsConditionStatusTrue finishedCond generation || IsConditionStatusFalse finishedCond generation then hret None
    else recordAborted (recordUpdateRunFailed) validate.

Definition reconcileState (state : string) (updatingStageIndex : Z)
    (toBeUpdatedBindings toBeDeletedBindings : list BindingObj) : run Result :=
  if (updatingStageIndex =? -1)%Z then let* _ := recordUpdateRunSucceeded in hret noResult
  else if decide (state = StateInitialize) then hret noResult
  else if decide (state = StateRun) then
    finishRound (execute now aggregateMessage updatingStageIndex toBeUpdatedBindings toBeDeletedBindings)
      (recordUpdateRunSucceeded)
  else if decide (state = StateStop) then
    finishRound (stop now aggregateMessage updatingStageIndex toBeUpdatedBindings toBeDeletedBindings)
      (recordUpdateRunStopped)
  else
    let* _ := recordUpdateRunFailed (unexpectedMsg ("found unsupported updateRun state: " +:+ state)) in
    hret noResult.

(** The reconciliation of an update run that has been fetched. *)
Definition reconcileRun : run Result :=
  let* _ := change (fun u => upd_status (updateAllStatusConditionsGeneration (ur_generation u)) u) in
  let* _ := change removeWaitTimeFromUpdateRunStatus in
  let* u := theRun in
  if being_deleted (ur_meta u) then let* _ := handleDelete in hret noResult
  else
    let* _ := ensureFinalizer in
    let* u := theRun in
    let* next := initializeOrValidate in
    match next with
    | None => hret noResult
    | Some (updatingStageIndex, toBeUpdatedBindings, toBeDeletedBindings) =>
        reconcileState (ursp_State (ur_spec u)) updatingStageIndex toBeUpdatedBindings toBeDeletedBindings
    end.

(** [FetchUpdateRunFromRequest] picks the kind by the namespace. *)
Definition Reconcile (namespace name : string) : hub W Result := fun w =>
  match hub_get_updaterun namespace name w with
  | (w, Ok u) => let '((w, _), r) := reconcileRun (w, u) in (w, r)
  | (w, Err e) => (w, if has_reason NotFound e then Ok noResult else Err e)
  | (w, Panic p) => (w, Panic p)
  end.

End Controller.

(** ** Events *)

Section Events.
Context {K : K8sLib}.

(** The update run to reconcile: a namespace and a name.  The type assertions
    of the handlers are part of the types here. *)
Definition approvalTarget (r : ApprovalRequestObj) : option (string * string) :=
  if decide (ar_TargetUpdateRun r = EmptyString) then None
  else Some (meta_namespace (ar_meta r), ar_TargetUpdateRun r).

Definition handleApprovalRequestUpdate (oldAppReq newAppReq : ApprovalRequestObj) : option (string * string) :=
  let approvedInOld := approval_condition ApprovalRequestConditionApproved oldAppReq in
  let approvedInNew := approval_condition ApprovalRequestConditionApproved newAppReq in
  if bool_decide (approvedInOld = approvedInNew) then None else approvalTarget newAppReq.

Definition handleApprovalRequestDelete (appReq : ApprovalRequestObj) : option (string * string) :=
  match FindStatusCondition (ar_Conditions appReq) ApprovalRequestConditionApproved with
  | Some _ =>
      if approval_condition ApprovalRequestConditionApprovalAccepted appReq then None else approvalTarget appReq
  | None => approvalTarget appReq
  end.

End Events.
