(* ===== verification/UpdateRunProofs.v ===== *)
(** * Staged update runs: what the stages promise

    The update run is described by its frontier, the stage that is being
    updated: every stage before it has succeeded on all of its clusters, no
    stage after it has been touched, and within it at most [maxConcurrency]
    clusters are updating.  Initialization establishes this, the validation
    finds the frontier again, and a round of execution or of stopping moves it
    by at most one stage. *)

From stdpp Require Import prelude gmap strings.
From S2P Require Import Prelude K8s Api Utils FrameworkUtils Hub Overrider Rollout UpdateRunApi UpdateRunExec UpdateRun.

Local Open Scope string_scope.
Local Open Scope list_scope.

(** ** Computations that succeed or fail *)

(** From [Pre], the computation ends in [Post] when it succeeds and in [E] when it does not. *)
Definition triple {S A} (Pre : S -> Prop) (m : hub S A) (Post : A -> S -> Prop) (E : S -> Prop) : Prop :=
  forall s, Pre s -> match m s with (s', Ok a) => Post a s' | (s', _) => E s' end.

Section Triple.
Context {S : Type}.
Implicit Types (Pre E : S -> Prop).

Lemma triple_bind {A B} Pre (m : hub S A) Mid (f : A -> hub S B) Post E :
  triple Pre m Mid E -> (forall a, triple (Mid a) (f a) Post E) -> triple Pre (hbind f m) Post E.
Proof.
  intros Hm Hf s Hs. specialize (Hm s Hs). unfold hbind.
  destruct (m s) as [s' [a|e|p]]; [apply (Hf a s' Hm)|done|done].
Qed.

Lemma triple_ret {A} Pre (a : A) (Post : A -> S -> Prop) E :
  (forall s, Pre s -> Post a s) -> triple Pre (hret a) Post E.
Proof. intros H s Hs. by apply H. Qed.

Lemma triple_conseq {A} Pre Pre' (m : hub S A) Post Post' E E' :
  triple Pre' m Post' E' -> (forall s, Pre s -> Pre' s) -> (forall a s, Post' a s -> Post a s) ->
  (forall s, E' s -> E s) -> triple Pre m Post E.
Proof.
  intros Hm H1 H2 H3 s Hs. specialize (Hm s (H1 s Hs)). destruct (m s) as [s' [a|e|p]]; auto.
Qed.

(** A computation that keeps a property. *)
Lemma triple_preserves {A} (I : S -> Prop) (m : hub S A) : triple I m (fun _ => I) I <-> preserves I m.
Proof.
  split; intros H s Hs; specialize (H s Hs); destruct (m s) as [s' [a|e|p]]; auto.
Qed.

(** What holds of the answer whatever the state is can be assumed afterwards. *)
Lemma triple_answer {A} Pre (m : hub S A) (Q : A -> Prop) Post E :
  (forall s a, (m s).2 = Ok a -> Q a) -> triple Pre m Post E -> triple Pre m (fun a s => Q a /\ Post a s) E.
Proof.
  intros HQ H s Hs. specialize (H s Hs). specialize (HQ s). destruct (m s) as [s' [a|e|p]]; auto.
Qed.

Lemma triple_and {A} (m : hub S A) Pre1 Pre2 Post1 Post2 E1 E2 :
  triple Pre1 m Post1 E1 -> triple Pre2 m Post2 E2 ->
  triple (fun s => Pre1 s /\ Pre2 s) m (fun a s => Post1 a s /\ Post2 a s) (fun s => E1 s /\ E2 s).
Proof.
  intros H1 H2 s [Hs1 Hs2]. specialize (H1 s Hs1). specialize (H2 s Hs2). destruct (m s) as [s' [a|e|p]]; auto.
Qed.

(** A loop, with an invariant that speaks about the number of iterations. *)
Lemma triple_hfold {A B} (I : nat -> B -> S -> Prop) (f : B -> A -> hub S B) xs b E :
  (forall k x b, xs !! k = Some x -> triple (I k b) (f b x) (I (1 + k)) E) ->
  triple (I 0 b) (hfold f b xs) (I (length xs)) E.
Proof.
  revert I b. induction xs as [|x xs IH]; intros I b Hf; cbn; [by apply triple_ret|].
  eapply triple_bind; [by apply (Hf 0 x b)|]. intros b'. apply (IH (fun k => I (1 + k))).
  intros k y c Hy. by apply (Hf (1 + k)).
Qed.

End Triple.

(** ** Conditions, whatever their generation *)

Section Flags.
Context {K : K8sLib}.

Definition is_true (o : option Condition) : bool :=
  match o with Some c => bool_decide (cond_status c = ConditionTrue) | None => false end.

Definition c_started (c : ClusterUpdatingStatus) : bool :=
  is_true (FindStatusCondition (cus_Conditions c) ClusterUpdatingConditionStarted).
Definition c_succeeded (c : ClusterUpdatingStatus) : bool :=
  is_true (FindStatusCondition (cus_Conditions c) ClusterUpdatingConditionSucceeded).
Definition s_done (s : StageUpdatingStatus) : bool :=
  is_true (FindStatusCondition (sus_Conditions s) StageUpdatingConditionSucceeded).
Definition t_approved (t : StageTaskStatus) : bool :=
  is_true (FindStatusCondition (ts_Conditions t) StageTaskConditionApprovalRequestApproved).
Definition c_updating (c : ClusterUpdatingStatus) : bool := c_started c && negb (c_succeeded c).

(** All the conditions of a stage were observed at one generation. *)
Definition at_gen (g : Z) (cs : list Condition) : Prop :=
  forall t c, FindStatusCondition cs t = Some c -> cond_observed_generation c = g.

Definition stage_at_gen (g : Z) (s : StageUpdatingStatus) : Prop :=
  at_gen g (sus_Conditions s) /\ Forall (fun c => at_gen g (cus_Conditions c)) (sus_Clusters s) /\
  Forall (fun t => at_gen g (ts_Conditions t)) (sus_AfterStageTaskStatus s) /\
  Forall (fun t => at_gen g (ts_Conditions t)) (sus_BeforeStageTaskStatus s).

Definition run_at_gen (g : Z) (u : UpdateRunObj) : Prop :=
  Forall (stage_at_gen g) (ur_stages u) /\ forall d, urs_DeletionStageStatus (ur_status u) = Some d -> stage_at_gen g d.

Context {L : K8sLaws K}.

Lemma true_at_gen g cs t :
  at_gen g cs -> IsConditionStatusTrue (FindStatusCondition cs t) g = is_true (FindStatusCondition cs t).
Proof.
  intros Hg. destruct (FindStatusCondition cs t) as [c|] eqn:Hc; [|done]. cbn.
  by rewrite (Hg _ _ Hc), Z.eqb_refl, andb_true_r.
Qed.

Lemma true_is_true o g : IsConditionStatusTrue o g = true -> is_true o = true.
Proof. destruct o as [c|]; [|done]. by intros [? _]%andb_prop. Qed.

Lemma false_not_true o g : IsConditionStatusFalse o g = true -> is_true o = false.
Proof.
  destruct o as [c|]; [|done]. cbn. intros [Hc%bool_decide_eq_true _]%andb_prop. by rewrite Hc.
Qed.

Lemma Find_nil t : FindStatusCondition [] t = None.
Proof. apply FindStatusCondition_None. intros c Hc. by apply not_elem_of_nil in Hc. Qed.

Lemma at_gen_nil g : at_gen g [].
Proof. intros t c. by rewrite Find_nil. Qed.

Lemma mark_same now type st g r m cs :
  is_true (FindStatusCondition (mark now type st g r m cs) type) = bool_decide (st = ConditionTrue).
Proof.
  unfold mark. destruct (SetStatusCondition_same now cs (mkCondition type st g 0 r m)) as (c & Hc & _ & Hs & _).
  cbn in *. rewrite Hc. cbn. by rewrite Hs.
Qed.

Lemma mark_other now type st g r m cs t :
  t <> type -> FindStatusCondition (mark now type st g r m cs) t = FindStatusCondition cs t.
Proof. intros Ht. exact (SetStatusCondition_other now cs (mkCondition type st g 0 r m) t Ht). Qed.

Lemma mark_at_gen now type st g r m cs : at_gen g cs -> at_gen g (mark now type st g r m cs).
Proof.
  intros Hg t c Hc. destruct (decide (t = type)) as [->|Ht].
  - destruct (SetStatusCondition_same now cs (mkCondition type st g 0 r m)) as (c' & Hc' & _ & _ & Hg' & _).
    unfold mark in Hc. cbn in *. congruence.
  - rewrite mark_other in Hc by done. by eapply Hg.
Qed.

Lemma generation_true cs g t :
  is_true (FindStatusCondition (set_generation g <$> cs) t) = is_true (FindStatusCondition cs t).
Proof. rewrite FindStatusCondition_fmap by done. by destruct (FindStatusCondition cs t). Qed.

Lemma generation_at_gen cs g : at_gen g (set_generation g <$> cs).
Proof.
  intros t c. rewrite FindStatusCondition_fmap by done. destruct (FindStatusCondition cs t); [|done].
  by intros [= <-].
Qed.

Lemma generation_None cs g t :
  FindStatusCondition (set_generation g <$> cs) t = None <-> FindStatusCondition cs t = None.
Proof. rewrite FindStatusCondition_fmap by done. by rewrite fmap_None. Qed.

End Flags.

(** ** The frontier of a run *)

Section Frontier.
Context {K : K8sLib}.

(** The types of the tasks around a stage, which the removal of wait times keeps. *)
Definition config_at (u : UpdateRunObj) (i : nat) : option StageConfig :=
  urs_UpdateStrategySnapshot (ur_status u) ≫= fun strategy => us_Stages strategy !! i.
Definition before_types (u : UpdateRunObj) (i : nat) : list string :=
  match config_at u i with Some c => task_Type <$> stage_BeforeStageTasks c | None => [] end.
Definition after_types (u : UpdateRunObj) (i : nat) : list string :=
  match config_at u i with Some c => task_Type <$> stage_AfterStageTasks c | None => [] end.

(** A first task that is to be approved has been approved. *)
Definition before_approved (types : list string) (s : StageUpdatingStatus) : Prop :=
  types <> [] -> exists t, sus_BeforeStageTaskStatus s !! 0 = Some t /\ t_approved t = true.

Definition task_complete (type : string) (t : StageTaskStatus) : Prop :=
  (type = StageTaskTypeTimedWait -> wait_elapsed t = true) /\ (type = StageTaskTypeApproval -> t_approved t = true).

(** The tasks after the stage that the code knows are complete. *)
Definition after_complete (types : list string) (s : StageUpdatingStatus) : Prop :=
  forall j type, types !! j = Some type -> type = StageTaskTypeTimedWait \/ type = StageTaskTypeApproval ->
    exists t, sus_AfterStageTaskStatus s !! j = Some t /\ task_complete type t.

(** A stage that nothing has happened to. *)
Definition pristine (s : StageUpdatingStatus) : Prop :=
  sus_Conditions s = [] /\ Forall (fun c => cus_Conditions c = []) (sus_Clusters s).

(** The clusters can be split so that few of the first part are left to do, and
    none of the second part is updating. *)
Definition bounded (maxConcurrency : Z) (cs : list ClusterUpdatingStatus) : Prop :=
  exists v r, cs = v ++ r /\
    (llen (filter (fun c => c_succeeded c = false) v) <= Z.max 0 maxConcurrency)%Z /\
    Forall (fun c => c_updating c = false) r.

Definition stage_bounded (maxConcurrency : outcome Z) (cs : list ClusterUpdatingStatus) : Prop :=
  match maxConcurrency with Ok mc => bounded mc cs | _ => Forall (fun c => c_updating c = false) cs end.

Definition gated (types : list string) (s : StageUpdatingStatus) : Prop :=
  Exists (fun c => c_started c = true) (sus_Clusters s) -> before_approved types s.

Definition finished_stage (u : UpdateRunObj) (i : nat) (s : StageUpdatingStatus) : Prop :=
  s_done s = true /\ Forall (fun c => c_succeeded c = true) (sus_Clusters s) /\
  gated (before_types u i) s /\ (sus_Clusters s = [] \/ after_complete (after_types u i) s).

Definition live_stage (u : UpdateRunObj) (i : nat) (s : StageUpdatingStatus) : Prop :=
  s_done s = false /\ gated (before_types u i) s /\
  stage_bounded (calculateMaxConcurrencyValue (ur_status u) i) (sus_Clusters s).

(** The run stands at stage [n]; at the number of stages, it is in the delete stage. *)
Record staged (n : nat) (u : UpdateRunObj) : Prop := mkStaged {
  staged_le : n <= length (ur_stages u);
  staged_before i s : ur_stages u !! i = Some s -> i < n -> finished_stage u i s;
  staged_at s : ur_stages u !! n = Some s -> live_stage u n s;
  staged_after i s : ur_stages u !! i = Some s -> n < i -> pristine s;
  staged_delete d : n < length (ur_stages u) -> urs_DeletionStageStatus (ur_status u) = Some d -> pristine d;
}.

(** What holds of a run that is stored: once it is initialized it stands at some stage, and
    its stages were all observed at the generation of its initialization. *)
Definition run_invariant (u : UpdateRunObj) : Prop :=
  forall c, FindStatusCondition (urs_Conditions (ur_status u)) StagedUpdateRunConditionInitialized = Some c ->
    cond_status c = ConditionTrue ->
    run_at_gen (cond_observed_generation c) u /\ exists n, staged n u.

Context {L : K8sLaws K}.

Lemma pristine_flags s :
  pristine s -> s_done s = false /\ Forall (fun c => c_started c = false /\ c_succeeded c = false) (sus_Clusters s).
Proof.
  intros [Hs Hc]. unfold s_done. rewrite Hs, Find_nil. split; [done|]. eapply Forall_impl; [exact Hc|].
  intros c Hn. unfold c_started, c_succeeded. by rewrite Hn, !Find_nil.
Qed.

Lemma bounded_idle mc cs : Forall (fun c => c_updating c = false) cs -> stage_bounded mc cs.
Proof.
  intros H. destruct mc as [mc|e|p]; cbn; [|done..]. exists [], cs. split_and!; [done|apply Z.le_max_l|done].
Qed.

Lemma not_started_idle c : c_started c = false -> c_updating c = false.
Proof. unfold c_updating. by intros ->. Qed.

Lemma pristine_live u i s : pristine s -> live_stage u i s.
Proof.
  intros [Hd Hc]%pristine_flags. split_and!; [done| |].
  - intros (c & Hin & Hs)%Exists_exists. eapply Forall_forall in Hc as [Hc _]; [|done]. congruence.
  - apply bounded_idle. eapply Forall_impl; [exact Hc|]. intros c [H _]. by apply not_started_idle.
Qed.

(** A fresh run stands at its first stage. *)
Lemma staged_fresh u :
  Forall pristine (ur_stages u) -> (forall d, urs_DeletionStageStatus (ur_status u) = Some d -> pristine d) -> staged 0 u.
Proof.
  intros Hs Hd. split; [lia|lia| | |auto].
  - intros s H0. apply pristine_live. by eapply Forall_lookup in Hs.
  - intros i s Hi _. by eapply Forall_lookup in Hs.
Qed.

(** The number of updating clusters is bounded. *)
Lemma bounded_count mc cs :
  bounded mc cs -> (llen (filter (fun c => c_updating c = true) cs) <= Z.max 0 mc)%Z.
Proof.
  intros (v & r & -> & Hv & Hr). rewrite filter_app.
  assert (filter (fun c => c_updating c = true) r = []) as ->.
  { clear -Hr. induction Hr as [|c r Hc _ IH]; [done|]. by rewrite filter_cons_False by congruence. }
  rewrite app_nil_r. etransitivity; [|exact Hv]. apply inj_le.
  clear. induction v as [|c v IH]; [done|]. rewrite !filter_cons. unfold c_updating at 1.
  repeat destruct (decide _); cbn; try lia. destruct (c_started c), (c_succeeded c); done.
Qed.

(** *** What the rest of a run may change *)

(** [u'] differs from [u] in the conditions of the run and in one stage only. *)
Definition framed (r : stageRef) (u u' : UpdateRunObj) : Prop :=
  ur_meta u' = ur_meta u /\ ur_spec u' = ur_spec u /\
  urs_UpdateStrategySnapshot (ur_status u') = urs_UpdateStrategySnapshot (ur_status u) /\
  length (ur_stages u') = length (ur_stages u) /\
  (forall i, r <> UpdateStage i -> ur_stages u' !! i = ur_stages u !! i) /\
  (r <> DeleteStage -> urs_DeletionStageStatus (ur_status u') = urs_DeletionStageStatus (ur_status u)) /\
  FindStatusCondition (urs_Conditions (ur_status u')) StagedUpdateRunConditionInitialized =
  FindStatusCondition (urs_Conditions (ur_status u)) StagedUpdateRunConditionInitialized.

Lemma framed_refl r u : framed r u u.
Proof. by split_and!. Qed.

Lemma framed_trans r u1 u2 u3 : framed r u1 u2 -> framed r u2 u3 -> framed r u1 u3.
Proof.
  intros (?&?&?&?&H5&H6&?) (?&?&?&?&H5'&H6'&?). split_and!; try congruence.
  - intros i Hi. rewrite H5', H5 by done. done.
  - intros Hr. rewrite H6', H6 by done. done.
Qed.

Lemma framed_types r u u' i :
  framed r u u' -> before_types u' i = before_types u i /\ after_types u' i = after_types u i.
Proof. intros (_&_&H&_). unfold before_types, after_types, config_at. by rewrite H. Qed.

Lemma framed_concurrency r u u' i s s' :
  framed r u u' -> ur_stages u !! i = Some s -> ur_stages u' !! i = Some s' ->
  length (sus_Clusters s') = length (sus_Clusters s) ->
  calculateMaxConcurrencyValue (ur_status u') i = calculateMaxConcurrencyValue (ur_status u) i.
Proof.
  intros (_&_&H&_) Hs Hs' Hl. unfold calculateMaxConcurrencyValue, ur_stages, llen in *. by rewrite H, Hs, Hs', Hl.
Qed.

(** A round that keeps the stage alive, or finishes it. *)
Lemma staged_round n u u' s s' :
  staged n u -> framed (UpdateStage n) u u' -> ur_stages u !! n = Some s -> ur_stages u' !! n = Some s' ->
  length (sus_Clusters s') = length (sus_Clusters s) ->
  (live_stage u' n s' -> staged n u') /\ (finished_stage u' n s' -> staged (S n) u').
Proof.
  intros [Hle Hb Ha Hc Hd] Hf Hs Hs' Hl. pose proof Hf as (_&_&_&Hlen&Hi&Hdel&_).
  assert (Hn : n < length (ur_stages u)) by (by eapply lookup_lt_Some).
  assert (Hfin : forall i t, ur_stages u' !! i = Some t -> i < n -> finished_stage u' i t).
  { intros i t Ht Hin. rewrite Hi in Ht by (intros [=]; lia). destruct (Hb i t Ht Hin) as (?&?&?&?).
    unfold finished_stage. by destruct (framed_types _ _ _ i Hf) as [-> ->]. }
  assert (Hpr : forall i t, ur_stages u' !! i = Some t -> n < i -> pristine t).
  { intros i t Ht Hin. rewrite Hi in Ht by (intros [=]; lia). eauto. }
  rewrite <-Hlen in Hn, Hle, Hd. rewrite <-Hdel in Hd by done. split; intros Hnew; split; try (done || lia).
  - by intros t [= <-]%(fun H => eq_trans (eq_sym Hs') H).
  - intros i t Ht Hin. destruct (decide (i = n)) as [->|]; [congruence|]. apply Hfin; [done|lia].
  - intros t Ht. apply pristine_live. apply (Hpr _ _ Ht). lia.
  - intros i t Ht Hin. apply (Hpr _ _ Ht). lia.
  - intros d Hlt Hd'. apply (Hd d); [lia|done].
Qed.

(** In the delete stage only the delete stage changes. *)
Lemma staged_delete_round u u' :
  staged (length (ur_stages u)) u -> framed DeleteStage u u' -> staged (length (ur_stages u')) u'.
Proof.
  intros [_ Hb _ _ _] Hf. pose proof Hf as (_&_&_&Hlen&Hi&_&_). split; [lia| | | |lia].
  - intros i t Ht Hin. rewrite Hi in Ht by done. rewrite Hlen in Hin. destruct (Hb i t Ht Hin) as (?&?&?&?).
    unfold finished_stage. by destruct (framed_types _ _ _ i Hf) as [-> ->].
  - intros t Ht. apply lookup_lt_Some in Ht. lia.
  - intros i t Ht Hin. apply lookup_lt_Some in Ht. lia.
Qed.

End Frontier.

#[export] Hint Resolve framed_refl : runs.

(** ** The loop over the clusters of a stage *)

Section Loop.
Context {K : K8sLib} {L : K8sLaws K}.

Notation pending := (filter (fun c => c_succeeded c = false)).

(** What an iteration does to a cluster of a run at generation [g]. *)
Record step_ok (g : Z) (c : ClusterUpdatingStatus) (s : clusterStep) : Prop := mkStepOk {
  step_name : cus_ClusterName (cs_cluster s) = cus_ClusterName c;
  step_gen : at_gen g (cus_Conditions (cs_cluster s));
  step_finished : cs_finished s = true -> c_succeeded (cs_cluster s) = true;
  step_pending : cs_finished s = false -> c_succeeded c = false;
  step_succeeded : c_succeeded c = true -> c_succeeded (cs_cluster s) = true;
}.

(** What the loop does: it visits a part [V] of the clusters, which becomes [V'],
    and leaves the rest as it is. *)
Record loop_ok (g mc : Z) (p : executeProgress) (cs cs' : list ClusterUpdatingStatus) (p' : executeProgress) : Prop := {
  loop_names : cus_ClusterName <$> cs' = cus_ClusterName <$> cs;
  loop_gen : Forall (fun c => at_gen g (cus_Conditions c)) cs';
  loop_split : exists V R V', cs = V ++ R /\ cs' = V' ++ R /\ length V' = length V /\
    (llen (pending V') <= ep_updating p' - ep_updating p <= llen (pending V))%Z /\
    (ep_finished p' - ep_finished p + (ep_updating p' - ep_updating p) = llen V)%Z /\
    (R = [] \/ mc <= ep_updating p')%Z /\ (ep_updating p' <= Z.max (ep_updating p) mc)%Z;
  loop_kept : Forall2 (fun c c' => c_succeeded c = true -> c_succeeded c' = true) cs cs';
}.

Lemma pending_cons c cs :
  llen (pending (c :: cs)) = ((if c_succeeded c then 0 else 1) + llen (pending cs))%Z.
Proof. rewrite filter_cons. unfold llen. destruct (c_succeeded c); [done|]. rewrite decide_True by done. cbn. lia. Qed.

Lemma llen_cons {A} (x : A) l : llen (x :: l) = (1 + llen l)%Z.
Proof. unfold llen. cbn. lia. Qed.

Context {W : Type}.

Lemma loop_nil g mc p : loop_ok g mc p [] [] p.
Proof. split; [done..| |done]. exists [], [], []. unfold llen. cbn. split_and!; auto; lia. Qed.

Lemma loop_cons g mc p c s cs cs' p' :
  (ep_updating p < mc)%Z -> step_ok g c s -> loop_ok g mc (addStep p s) cs cs' p' ->
  loop_ok g mc p (c :: cs) (cs_cluster s :: cs') p'.
Proof.
  intros Hlt [Hn Hg Hf Hp Hk] [Hns Hgs (V & R & V' & -> & -> & Hl & Hu & Hfin & HR & Hm) Hkept].
  split; [cbn; congruence|by constructor| |by constructor].
  exists (c :: V), R, (cs_cluster s :: V'). rewrite !pending_cons, llen_cons. cbn [addStep ep_updating ep_finished] in *.
  split_and!; [done|done|cbn; lia| | | |exact HR|].
  - destruct (cs_finished s) eqn:Hb; [rewrite Hf by done; lia|]. destruct (c_succeeded _); lia.
  - destruct (cs_finished s) eqn:Hb; [destruct (c_succeeded c); lia|]. rewrite Hp by done. lia.
  - destruct (cs_finished s); lia.
  - destruct (cs_finished s); lia.
Qed.

Lemma executeClusters_ok g (body : ClusterUpdatingStatus -> hub W clusterStep) mc cs p w w' cs' p' :
  (forall c w1 w2 s, c ∈ cs -> body c w1 = (w2, Ok s) -> step_ok g c s) ->
  Forall (fun c => at_gen g (cus_Conditions c)) cs ->
  executeClusters body mc cs p w = (w', Ok (cs', p')) -> loop_ok g mc p cs cs' p'.
Proof.
  intros Hb Hg. revert p w cs'. induction Hg as [|c cs Hc Hcs IH]; intros p w cs'; cbn.
  { intros [= _ <- <-]. apply loop_nil. }
  destruct (Z.ltb_spec (ep_updating p) mc) as [Hlt|Hge]; unfold hbind.
  - destruct (body c w) as [w1 [s|e|x]] eqn:Hs; [|done..].
    destruct (executeClusters body mc cs (addStep p s) w1) as [w2 [[rest p2]|e|x]] eqn:Hr; [|done..].
    intros [= <- <- <-]. apply loop_cons; [done| |].
    + eapply Hb; [left|exact Hs].
    + eapply IH; [|exact Hr]. intros. eapply Hb; [by right|done].
  - intros [= _ <- <-]. split; [done|by constructor| |].
    + exists [], (c :: cs), []. unfold llen. cbn. split_and!; auto; lia.
    + clear. induction (c :: cs); by constructor.
Qed.

(** The bound is kept. *)
Lemma loop_bounded g mc p cs cs' p' :
  ep_updating p = 0%Z -> loop_ok g mc p cs cs' p' -> bounded mc cs -> bounded mc cs'.
Proof.
  intros Hp0 [_ _ (V & R & V' & -> & -> & _ & Hu & _ & HR & Hm) _] (v & r & Heq & Hv & Hr).
  rewrite Hp0 in *. exists V', R. split; [done|]. split; [lia|].
  destruct (app_eq_inv _ _ _ _ Heq) as [(k & -> & ->)|(k & -> & ->)]; [|].
  - apply Forall_app in Hr as [_ Hr]. done.
  - (* the loop stopped within the first part: what is left of it has succeeded *)
    apply Forall_app. split; [|done]. destruct HR as [[-> _]%app_nil|HR]; [done|].
    rewrite filter_app in Hv. unfold llen in *. rewrite app_length in Hv.
    assert (pending k = []) as Hk by (apply nil_length_inv; lia).
    apply Forall_forall. intros c Hc. unfold c_updating. destruct (c_succeeded c) eqn:Hs; [by rewrite andb_false_r|].
    exfalso. assert (c ∈ pending k) as Hin by (by apply list_elem_of_filter). rewrite Hk in Hin. by apply elem_of_nil in Hin.
Qed.

(** When every cluster is counted as finished, every cluster has succeeded. *)
Lemma loop_finished g mc p cs cs' p' :
  ep_updating p = 0%Z -> ep_finished p = 0%Z -> loop_ok g mc p cs cs' p' -> ep_finished p' = llen cs' ->
  Forall (fun c => c_succeeded c = true) cs'.
Proof.
  intros Hu0 Hf0 [_ _ (V & R & V' & -> & -> & Hl & Hu & Hf & _ & _) _] Hall. rewrite Hu0, Hf0 in *.
  unfold llen in *. rewrite app_length in Hall.
  assert (R = []) as -> by (apply nil_length_inv; lia). rewrite app_nil_r.
  assert (pending V' = []) as Hk by (apply nil_length_inv; lia).
  apply Forall_forall. intros c Hc. destruct (c_succeeded c) eqn:Hs; [done|].
  exfalso. assert (c ∈ pending V') as Hin by (by apply list_elem_of_filter). rewrite Hk in Hin. by apply elem_of_nil in Hin.
Qed.

(** *** The bodies of the loops *)

Lemma succeeded_at_gen g c : at_gen g (cus_Conditions c) -> cluster_succeeded g c = c_succeeded c.
Proof. apply true_at_gen. Qed.

Lemma started_at_gen g c : at_gen g (cus_Conditions c) -> cluster_started g c = c_started c.
Proof. apply true_at_gen. Qed.

(** The cluster as it is, marked as succeeded, or marked as started after that. *)
Inductive moved (now g : Z) (c : ClusterUpdatingStatus) : ClusterUpdatingStatus -> Prop :=
| moved_not : moved now g c c
| moved_succeeded : moved now g c (markClusterUpdatingSucceeded now g c).

Lemma moved_ok now g c c' :
  at_gen g (cus_Conditions c) -> moved now g c c' ->
  cus_ClusterName c' = cus_ClusterName c /\ at_gen g (cus_Conditions c') /\ c_started c' = c_started c /\
  (c_succeeded c = true -> c_succeeded c' = true).
Proof.
  intros Hg []; [done|]. split_and!; [done|by apply mark_at_gen| |].
  - unfold c_started. cbn. by rewrite mark_other.
  - intros _. apply mark_same.
Qed.

Lemma marked_started now g c :
  at_gen g (cus_Conditions c) ->
  at_gen g (cus_Conditions (markClusterUpdatingStarted now g c)) /\
  c_succeeded (markClusterUpdatingStarted now g c) = c_succeeded c.
Proof.
  intros Hg. split; [by apply mark_at_gen|]. unfold c_succeeded. cbn. by rewrite mark_other.
Qed.

Lemma checkClusterUpdateResult_ok now b c name u c' fin :
  checkClusterUpdateResult now b c name u = Ok (c', fin) ->
  moved now (ur_generation u) c c' /\ (fin = true -> c_succeeded c' = true).
Proof.
  unfold checkClusterUpdateResult. repeat case_match; intros; simplify_eq; (split; [constructor|]); [|done].
  intros _. apply mark_same.
Qed.

Lemma checkUpdatingCluster_ok now b name u c :
  at_gen (ur_generation u) (cus_Conditions c) -> c_succeeded c = false ->
  step_ok (ur_generation u) c (checkUpdatingCluster now b name u c).
Proof.
  intros Hg Hs. unfold checkUpdatingCluster.
  destruct (checkClusterUpdateResult now b c name u) as [[c' [|]]|e|x] eqn:Hr; [..|by split|by split].
  all: apply checkClusterUpdateResult_ok in Hr as [Hm Hf]; destruct (moved_ok _ _ _ _ Hg Hm) as (? & ? & _ & ?).
  all: split; cbn; auto; done.
Qed.

Section Bodies.
Context {C : HubClient W} {UC : UpdateRunClient W}.
Variable now : Z.

Lemma startCluster_moved snap name u b c w w' c' :
  startCluster now snap name u b c w = (w', Ok c') -> moved now (ur_generation u) c c'.
Proof.
  unfold startCluster, hbind, hret, hlift. destruct (negb (isBindingSyncedWithClusterStatus _ _ _ _)); [|destruct (decide _); [|destruct (negb _)]].
  4: { destruct (checkClusterUpdateResult now b c name u) as [[c1 fin]|e|x] eqn:Hr; intros [= _ <-].
       by apply checkClusterUpdateResult_ok in Hr as [? _]. }
  all: repeat case_match; intros; simplify_eq; constructor.
Qed.

Lemma executeCluster_ok snap name u bindings c w w' s :
  at_gen (ur_generation u) (cus_Conditions c) ->
  executeCluster now snap name u bindings c w = (w', Ok s) -> step_ok (ur_generation u) c s.
Proof.
  intros Hg. unfold executeCluster. rewrite succeeded_at_gen by done.
  destruct (c_succeeded c) eqn:Hs; [intros [= _ <-]; by split|].
  destruct (cluster_failed _ c); [intros [= _ <-]; by split|].
  destruct (bindings !! cus_ClusterName c) as [b|]; [|intros [= _ <-]; by split].
  destruct (negb (cluster_started _ c)).
  - destruct (startCluster now snap name u b c w) as [w1 [c'|e|x]] eqn:Hst; intros [= _ <-]; [|by split].
    apply startCluster_moved in Hst. destruct (moved_ok _ _ _ _ Hg Hst) as (? & Hg' & _ & ?).
    destruct (marked_started now _ _ Hg'). split; cbn; congruence || done.
  - destruct (_ || _); intros [= _ <-]; [|by apply checkUpdatingCluster_ok].
    split; cbn; [done|by apply mark_at_gen|done|done|congruence].
Qed.

End Bodies.

(** Stopping only lets clusters finish. *)
Definition lets_finish (g : Z) (c c' : ClusterUpdatingStatus) : Prop :=
  at_gen g (cus_Conditions c) -> cus_ClusterName c' = cus_ClusterName c /\ at_gen g (cus_Conditions c') /\
    c_started c' = c_started c /\ (c_succeeded c = true -> c_succeeded c' = true).

Lemma stopCluster_finish now name u bindings c s :
  stopCluster now name u bindings c = Some s -> lets_finish (ur_generation u) c (cs_cluster s).
Proof.
  unfold stopCluster, checkUpdatingCluster, lets_finish.
  repeat case_match; intros [= <-] Hg; cbn; try done.
  all: match goal with H : checkClusterUpdateResult _ _ _ _ _ = _ |- _ =>
    apply checkClusterUpdateResult_ok in H as [Hm _] end; by eapply moved_ok.
Qed.

Lemma stopClusters_finish now name u bindings cs p cs' p' :
  stopClusters (stopCluster now name u bindings) cs p = (cs', p') -> Forall2 (lets_finish (ur_generation u)) cs cs'.
Proof.
  revert p cs' p'. induction cs as [|c cs IH]; intros p cs' p'; cbn; [by intros [= <- <-]|].
  destruct (stopCluster now name u bindings c) as [s|] eqn:Hs.
  all: destruct (stopClusters _ cs _) as [rest p1] eqn:Hr; intros [= <- <-]; constructor; [|by eapply IH].
  - by eapply stopCluster_finish.
  - done.
Qed.

Lemma finish_bounded g mc cs cs' :
  Forall2 (lets_finish g) cs cs' -> Forall (fun c => at_gen g (cus_Conditions c)) cs ->
  stage_bounded mc cs -> stage_bounded mc cs'.
Proof.
  intros Hf Hg.
  assert (Hidle : forall xs xs', Forall2 (lets_finish g) xs xs' -> Forall (fun c => at_gen g (cus_Conditions c)) xs ->
    Forall (fun c => c_updating c = false) xs -> Forall (fun c => c_updating c = false) xs').
  { clear. induction 1 as [|c c' xs xs' Hc _ IH]; intros Hg Hi; [done|]. apply Forall_cons in Hg as [Hgc Hg].
    apply Forall_cons in Hi as [Hic Hi]. constructor; [|auto]. destruct (Hc Hgc) as (_ & _ & Hst & Hs). unfold c_updating in *.
    rewrite Hst. destruct (c_started c), (c_succeeded c); try done. by rewrite Hs. }
  destruct mc as [mc|e|x]; cbn; [|by apply Hidle..].
  intros (v & r & -> & Hv & Hr). apply Forall2_app_inv_l in Hf as (v' & r' & Hfv & Hfr & ->).
  apply Forall_app in Hg as [Hgv Hgr]. exists v', r'. split_and!; [done| |by eapply Hidle].
  etransitivity; [|exact Hv]. clear -Hfv Hgv. induction Hfv as [|c c' v v' Hc _ IH]; [done|].
  apply Forall_cons in Hgv as [Hgc Hg]. rewrite !pending_cons. specialize (IH Hg). destruct (Hc Hgc) as (_ & _ & _ & Hs).
  destruct (c_succeeded c); [rewrite Hs by done; lia|]. destruct (c_succeeded c'); lia.
Qed.

End Loop.

(** ** A round on one stage *)

Section Stage.
Context {K : K8sLib} {L : K8sLaws K}.

(** What is kept of a stage that is not finished; the run is at generation [g]. *)
Record live (g : Z) (types : list string) (mc : outcome Z) (names : list string) (s : StageUpdatingStatus) : Prop := mkLive {
  live_gen : stage_at_gen g s;
  live_done : s_done s = false;
  live_gated : gated types s;
  live_bounded : stage_bounded mc (sus_Clusters s);
  live_names : cus_ClusterName <$> sus_Clusters s = names;
}.

Definition mark_task_at (now g : Z) (before : bool) (k : nat) (type reason message : string) (s : StageUpdatingStatus)
    : StageUpdatingStatus :=
  set_stage_tasks before (alter (mark_task now type g reason message) k (stage_tasks before s)) s.

(** Marking a task keeps the property. *)
Definition task_stable (now g : Z) (P : StageUpdatingStatus -> Prop) : Prop :=
  forall before k type reason message s, P s -> P (mark_task_at now g before k type reason message s).

(** Setting a condition of the stage other than its success keeps the property. *)
Definition mark_stable (now g : Z) (P : StageUpdatingStatus -> Prop) : Prop :=
  forall type st reason message s,
    type = StageUpdatingConditionProgressing \/ type = StageUpdatingConditionSucceeded /\ st = ConditionFalse ->
    P s -> P (mark_stage now type st g reason message s).

Definition times_stable (P : StageUpdatingStatus -> Prop) : Prop := forall a b s, P s -> P (set_sus_times a b s).

Lemma mark_task_true now g type reason message t t' :
  is_true (FindStatusCondition (ts_Conditions t) t') = true ->
  is_true (FindStatusCondition (ts_Conditions (mark_task now type g reason message t)) t') = true.
Proof.
  intros H. cbn. destruct (decide (t' = type)) as [->|]; [apply mark_same|]. by rewrite mark_other.
Qed.

Lemma mark_task_at_tasks now g before k type reason message s before' j t :
  stage_tasks before' s !! j = Some t ->
  exists t', stage_tasks before' (mark_task_at now g before k type reason message s) !! j = Some t' /\
    (t' = t \/ t' = mark_task now type g reason message t).
Proof.
  intros Ht. unfold mark_task_at. destruct (decide (before = before')) as [->|Hb].
  - assert (stage_tasks before' (set_stage_tasks before' (alter (mark_task now type g reason message) k
      (stage_tasks before' s)) s) = alter (mark_task now type g reason message) k (stage_tasks before' s)) as ->
      by (by destruct before').
    destruct (decide (k = j)) as [->|Hk].
    + rewrite list_lookup_alter, decide_True by done. rewrite Ht. cbn. eauto.
    + rewrite list_lookup_alter, decide_False by done. eauto.
  - assert (stage_tasks before' (set_stage_tasks before (alter (mark_task now type g reason message) k
      (stage_tasks before s)) s) = stage_tasks before' s) as -> by (by destruct before, before'). eauto.
Qed.

Lemma mark_task_at_gen now g before k type reason message s :
  stage_at_gen g s -> stage_at_gen g (mark_task_at now g before k type reason message s).
Proof.
  intros (H1 & H2 & H3 & H4).
  assert (Ha : forall ts, Forall (fun t => at_gen g (ts_Conditions t)) ts ->
    Forall (fun t => at_gen g (ts_Conditions t)) (alter (mark_task now type g reason message) k ts)).
  { intros ts Hts. apply Forall_lookup. intros j t. rewrite list_lookup_alter.
    destruct (decide (k = j)); [|by intros Ht; eapply (Forall_lookup_1 _ _ _ _ Hts Ht)].
    intros (t0 & Ht0 & ->)%fmap_Some. apply mark_at_gen. by eapply Forall_lookup in Hts. }
  destruct before; (split_and!; [done|done| |]); cbn; auto.
Qed.

Definition task_true (before : bool) (k : nat) (type : string) (s : StageUpdatingStatus) : Prop :=
  exists t, stage_tasks before s !! k = Some t /\ is_true (FindStatusCondition (ts_Conditions t) type) = true.

Lemma task_true_stable now g before k type : task_stable now g (task_true before k type).
Proof.
  intros before' k' type' reason message s (t & Ht & Htrue).
  destruct (mark_task_at_tasks now g before' k' type' reason message s before k t Ht) as (t' & Ht' & [-> | ->]).
  - by exists t.
  - exists (mark_task now type' g reason message t). split; [done|]. by apply mark_task_true.
Qed.

Lemma before_approved_true types s :
  before_approved types s <-> (types <> [] -> task_true true 0 StageTaskConditionApprovalRequestApproved s).
Proof. done. Qed.

Lemma live_task_stable now g types mc names : task_stable now g (live g types mc names).
Proof.
  intros before k type reason message s [H1 H2 H3 H4 H5].
  assert (sus_Clusters (mark_task_at now g before k type reason message s) = sus_Clusters s /\
    sus_Conditions (mark_task_at now g before k type reason message s) = sus_Conditions s) as [Hc Hs]
    by (unfold mark_task_at; by destruct before).
  split; [by apply mark_task_at_gen| | |by rewrite Hc|by rewrite Hc].
  - unfold s_done. by rewrite Hs.
  - unfold gated. rewrite Hc. intros He Hne.
    apply (task_true_stable now g true 0 StageTaskConditionApprovalRequestApproved). by apply H3.
Qed.

Lemma live_mark_stable now g types mc names : mark_stable now g (live g types mc names).
Proof.
  intros type st reason message s Ht [(H1 & H1') H2 H3 H4 H5]. split; [|clear H1 H1'|done..].
  - split; [by apply mark_at_gen|done].
  - unfold s_done in *. cbn. destruct Ht as [->|[-> ->]]; [by rewrite mark_other|by rewrite mark_same].
Qed.

Lemma live_times_stable g types mc names : times_stable (live g types mc names).
Proof. intros a b s [H1 H2 H3 H4 H5]. by split. Qed.

End Stage.

#[export] Hint Resolve live_task_stable live_mark_stable live_times_stable : runs.

Section Round.
Context {K : K8sLib} {L : K8sLaws K} {W : Type}.
Notation state := (W * UpdateRunObj)%type.

(** In a round that started from [u0] and acts on the stage [r], which has the property [P]. *)
Definition at_stage (r : stageRef) (u0 : UpdateRunObj) (P : StageUpdatingStatus -> Prop) (s : state) : Prop :=
  framed r u0 s.2 /\ exists st, stage_at r s.2 = Some st /\ P st.

Lemma at_stage_impl r u0 (P Q : StageUpdatingStatus -> Prop) s :
  at_stage r u0 P s -> (forall st, P st -> Q st) -> at_stage r u0 Q s.
Proof. intros [Hf (st & Hst & HP)] HQ. split; [done|]. exists st. auto. Qed.

Lemma onHub_run {A} (m : hub W A) s : onHub m s = (((m s.1).1, s.2), (m s.1).2).
Proof. unfold onHub. by destruct (m s.1). Qed.

Lemma onHub_keeps {A} (I : UpdateRunObj -> Prop) (m : hub W A) : preserves (fun s => I s.2) (onHub m).
Proof. intros s Hs. by rewrite onHub_run. Qed.

Lemma at_stage_onHub {A} r u0 P (m : hub W A) : preserves (at_stage r u0 P) (onHub m).
Proof. intros s Hs. unfold at_stage. by rewrite onHub_run. Qed.

Lemma stage_at_alter f r u : stage_at r (alter_stage f r u) = f <$> stage_at r u.
Proof. destruct r as [i|]; cbn; [|done]. unfold ur_stages. cbn. rewrite list_lookup_alter, decide_True by done. done. Qed.

Lemma alter_framed f r u : framed r u (alter_stage f r u).
Proof.
  destruct r as [i|]; split_and!; try done.
  - unfold ur_stages. cbn. apply length_alter.
  - intros j Hj. unfold ur_stages. cbn. rewrite list_lookup_alter, decide_False by congruence. done.
Qed.

Lemma mark_run_framed now r type st reason message u :
  type <> StagedUpdateRunConditionInitialized ->
  framed r u (mark_run now type st reason message u) /\ stage_at r (mark_run now type st reason message u) = stage_at r u.
Proof. intros Ht. split; [|by destruct r]. split_and!; try done. cbn. by rewrite mark_other. Qed.

(** A function on the run that leaves the stages alone. *)
Definition leaves_stage (r : stageRef) (f : UpdateRunObj -> UpdateRunObj) : Prop :=
  forall u, framed r u (f u) /\ stage_at r (f u) = stage_at r u.

Lemma at_stage_change r u0 P f : leaves_stage r f -> preserves (at_stage r u0 P) (change (W := W) f).
Proof.
  intros Hf [w u] [Hfr Hst]. destruct (Hf u) as [H1 H2]. split; cbn in *; [by eapply framed_trans|by rewrite H2].
Qed.

Lemma at_stage_alter r u0 (P Q : StageUpdatingStatus -> Prop) f (s : state) :
  (forall st, P st -> Q (f st)) -> at_stage r u0 P s -> at_stage r u0 Q (s.1, alter_stage f r s.2).
Proof.
  intros Hf [Hfr (st & Hst & HP)]. split; cbn in *; [eapply framed_trans; [done|apply alter_framed]|].
  exists (f st). rewrite stage_at_alter, Hst. auto.
Qed.

Lemma framed_generation r u u' : framed r u u' -> ur_generation u' = ur_generation u.
Proof. intros [H _]. unfold ur_generation. by rewrite H. Qed.

Lemma at_stage_markStage r u0 (P Q : StageUpdatingStatus -> Prop) f :
  (forall st, P st -> Q (f (ur_generation u0) st)) ->
  triple (at_stage r u0 P) (markStage (W := W) f r) (fun _ => at_stage r u0 Q) (fun _ => False).
Proof.
  intros Hf [w u] Hs. cbn. pose proof Hs as [Hfr _]. cbn in Hfr. rewrite (framed_generation _ _ _ Hfr).
  exact (at_stage_alter r u0 P Q (f (ur_generation u0)) (w, u) Hf Hs).
Qed.

Lemma at_stage_getStage r u0 P :
  triple (at_stage r u0 P) (getStage (W := W) r)
    (fun st s => at_stage r u0 P s /\ stage_at r s.2 = Some st /\ P st) (fun _ => False).
Proof.
  intros [w u] Hs. pose proof Hs as [_ (st & Hst & HP)]. unfold getStage, theRun, hbind. cbn in *. rewrite Hst. cbn. done.
Qed.

Lemma at_stage_theRun r u0 P :
  triple (at_stage r u0 P) (theRun (W := W)) (fun u s => at_stage r u0 P s /\ s.2 = u /\ framed r u0 u) (fun _ => False).
Proof. intros [w u] Hs. cbn. split; [done|]. split; [done|]. apply Hs. Qed.

Lemma triple_False {A} Pre (m : hub state A) Post E : triple Pre m Post (fun _ => False) -> triple Pre m Post E.
Proof. intros H s Hs. specialize (H s Hs). by destruct (m s) as [s' [a|e|p]]. Qed.

(** Along the way only the property of the stage is kept. *)
Lemma markStage_keeps r u0 (P : StageUpdatingStatus -> Prop) f :
  (forall st, P st -> P (f (ur_generation u0) st)) -> preserves (at_stage r u0 P) (markStage (W := W) f r).
Proof. intros Hf. apply triple_preserves, triple_False. by apply at_stage_markStage. Qed.

Lemma markTask_keeps now u0 (P : StageUpdatingStatus -> Prop) t type reason message :
  task_stable now (ur_generation u0) P ->
  preserves (at_stage (tr_stage t) u0 P) (markTask (W := W) (fun g => mark_task now type g reason message) t).
Proof.
  intros Hp [w u] Hs. cbn. pose proof Hs as [Hfr _]. cbn in Hfr. unfold alter_task. rewrite (framed_generation _ _ _ Hfr).
  apply (at_stage_alter _ u0 P P _ (w, u)); [|done]. intros st. apply Hp.
Qed.

(** *** Steps that can be run *)

Lemma hbind_run {S A B} (f : A -> hub S B) (m : hub S A) s s' a : m s = (s', Ok a) -> hbind f m s = f a s'.
Proof. unfold hbind. by intros ->. Qed.

Lemma getStage_run r (s : state) st : stage_at r s.2 = Some st -> getStage r s = (s, Ok st).
Proof. intros H. unfold getStage, hbind, theRun. by rewrite H. Qed.

Lemma getTask_run t (s : state) st :
  stage_at (tr_stage t) s.2 = Some st ->
  getTask t s = (s, match stage_tasks (tr_before t) st !! tr_index t with
                    | Some task => Ok task | None => Panic "index out of range" end).
Proof. intros H. unfold getTask. rewrite (hbind_run _ _ _ _ _ (getStage_run _ _ _ H)). by destruct (_ !! _). Qed.

Lemma getStageConfig_run i (s : state) :
  exists r, getStageConfig i s = (s, r) /\ forall c, r = Ok c -> config_at s.2 i = Some c.
Proof.
  unfold getStageConfig, getStrategy, hbind, theRun, config_at. destruct (urs_UpdateStrategySnapshot _) as [st|]; cbn; [|by eexists].
  destruct (us_Stages st !! i) as [c|]; eexists; (split; [done|]); [by intros ? [= <-]|done].
Qed.

End Round.

(** ** Tasks *)

Section Tasks.
Context {K : K8sLib} {L : K8sLaws K} {W : Type} {C : HubClient W} {UC : UpdateRunClient W}.
Notation state := (W * UpdateRunObj)%type.
Variables (now : Z) (u0 : UpdateRunObj).
Notation g := (ur_generation u0).

#[local] Arguments checkApprovalRequest : simpl never.
#[local] Arguments markTask : simpl never.
#[local] Arguments NewAPIServerError : simpl never.
#[local] Arguments buildApprovalRequestObject : simpl never.

Definition approved_at (t : taskRef) : StageUpdatingStatus -> Prop :=
  task_true (tr_before t) (tr_index t) StageTaskConditionApprovalRequestApproved.

Section Stable.
Variable P : StageUpdatingStatus -> Prop.
Hypothesis P_task : task_stable now g P.
Hypothesis P_gen : forall st, P st -> stage_at_gen g st.

Lemma task_at_gen st before k task :
  stage_at_gen g st -> stage_tasks before st !! k = Some task -> at_gen g (ts_Conditions task).
Proof. intros (_ & _ & Ha & Hb) Ht. destruct before; [by eapply Forall_lookup in Hb|by eapply Forall_lookup in Ha]. Qed.

(** Marking a task that is there makes the condition true. *)
Lemma markTask_true t type reason message (s : state) :
  at_stage (tr_stage t) u0 P s -> (exists st task, stage_at (tr_stage t) s.2 = Some st /\
    stage_tasks (tr_before t) st !! tr_index t = Some task) ->
  exists s', markTask (W := W) (fun g => mark_task now type g reason message) t s = (s', Ok tt) /\
    at_stage (tr_stage t) u0 (fun st => P st /\ task_true (tr_before t) (tr_index t) type st) s'.
Proof.
  destruct s as [w u]. intros [Hfr (st & Hst & HP)] (st' & task & Hst' & Ht). cbn in *. simplify_eq.
  exists (w, alter_task (mark_task now type (ur_generation u) reason message) t u). split; [done|].
  rewrite (framed_generation _ _ _ Hfr). split; cbn.
  { eapply framed_trans; [done|apply alter_framed]. }
  unfold alter_task. rewrite stage_at_alter, Hst. eexists. split; [done|].
  pose proof (P_task (tr_before t) (tr_index t) type reason message st HP) as HP'. split; [exact HP'|].
  exists (mark_task now type g reason message task). split; [|apply mark_same].
  assert (H : forall b ts, stage_tasks b (set_stage_tasks b ts st) = ts) by (by intros []).
  rewrite H, list_lookup_alter, decide_True by done. by rewrite Ht.
Qed.

Lemma markTask_there t type reason message (s s' : state) :
  markTask (W := W) (fun g => mark_task now type g reason message) t s = (s', Ok tt) ->
  (exists st task, stage_at (tr_stage t) s.2 = Some st /\ stage_tasks (tr_before t) st !! tr_index t = Some task) ->
  exists st task, stage_at (tr_stage t) s'.2 = Some st /\ stage_tasks (tr_before t) st !! tr_index t = Some task.
Proof.
  intros [= <-] (st & task & Hst & Ht). cbn. unfold alter_task. rewrite stage_at_alter, Hst. eexists.
  destruct (mark_task_at_tasks now (ur_generation s.2) (tr_before t) (tr_index t) type reason message st _ _ _ Ht) as (t' & Ht' & _).
  by exists t'.
Qed.

Lemma checkApprovalRequest_spec t name stageName (s : state) :
  at_stage (tr_stage t) u0 P s ->
  (exists st task, stage_at (tr_stage t) s.2 = Some st /\ stage_tasks (tr_before t) st !! tr_index t = Some task) ->
  match checkApprovalRequest now t name stageName s with
  | (s', Ok ok) => at_stage (tr_stage t) u0 (fun st => P st /\ (ok = true -> approved_at t st)) s'
  | (s', _) => at_stage (tr_stage t) u0 P s'
  end.
Proof.
  intros Hs Hth. unfold checkApprovalRequest, theRun. cbn [hbind].
  destruct (markTask_true t StageTaskConditionApprovalRequestCreated "StageTaskApprovalRequestCreated"
    "ApprovalRequest object is created" s Hs Hth) as (s1 & Hm & Hs1).
  pose proof (markTask_there _ _ _ _ _ _ Hm Hth) as Hth1. unfold hbind at 1. unfold markStageTaskRequestCreated. rewrite Hm.
  assert (Hs1' : at_stage (tr_stage t) u0 P s1) by (eapply at_stage_impl; [done|naive_solver]). clear Hs1.
  unfold hbind at 1, hmap_err. rewrite onHub_run.
  destruct (hub_get_approval _ _ s1.1) as [w2 [req|e|x]]; cbn; [|exact Hs1'..].
  destruct (decide _); [exact Hs1'|]. destruct (negb _ && negb _).
  { cbn. eapply at_stage_impl; [exact Hs1'|]. cbn. intros st HP. by split. }
  assert (Hfin : forall w3, match (let* _ := markTask (W := W) (markStageTaskRequestApproved now) t in hret true) (w3, s1.2) with
    | (s', Ok ok) => at_stage (tr_stage t) u0 (fun st => P st /\ (ok = true -> approved_at t st)) s'
    | (s', _) => at_stage (tr_stage t) u0 P s' end).
  { intros w3. destruct (markTask_true t StageTaskConditionApprovalRequestApproved "StageTaskApprovalRequestApproved"
      "ApprovalRequest object is approved" (w3, s1.2) Hs1' Hth1) as (s4 & Hm4 & Hs4).
    unfold hbind, markStageTaskRequestApproved. rewrite Hm4. cbn. eapply at_stage_impl; [exact Hs4|]. naive_solver. }
  unfold hbind at 1. destruct (_ && _).
  - rewrite onHub_run. cbn. destruct (updateApprovalRequestAccepted now req w2) as [w3 [[]|e|x]]; cbn; [apply Hfin|exact Hs1'..].
  - cbn. apply Hfin.
Qed.

Lemma handleStageApprovalTask_spec t stageName type :
  triple (at_stage (tr_stage t) u0 P) (handleStageApprovalTask (W := W) now t stageName type)
    (fun ok => at_stage (tr_stage t) u0 (fun st => P st /\ (ok = true -> approved_at t st)))
    (at_stage (tr_stage t) u0 P).
Proof.
  intros [w u] Hs. pose proof Hs as [Hfr (st & Hst & HP)]. cbn in Hfr, Hst.
  unfold handleStageApprovalTask, theRun, hbind. rewrite (getTask_run t (w, u) st Hst). cbn [fst snd].
  destruct (stage_tasks _ st !! _) as [task|] eqn:Ht; [|exact Hs].
  rewrite (framed_generation _ _ _ Hfr). unfold task_approved.
  rewrite true_at_gen by (eapply task_at_gen; eauto).
  destruct (is_true _) eqn:Happ.
  { cbn. split; [done|]. exists st. split; [done|]. split; [done|]. intros _. by exists task. }
  assert (Hth : exists st task, stage_at (tr_stage t) u = Some st /\ stage_tasks (tr_before t) st !! tr_index t = Some task) by eauto.
  cbn [fst snd]. destruct (hub_create_approval _ w) as [w1 [e|]].
  - destruct (has_reason AlreadyExists e); [|exact Hs]. by apply (checkApprovalRequest_spec t _ _ (w1, u)).
  - destruct (markTask_true t StageTaskConditionApprovalRequestCreated "StageTaskApprovalRequestCreated"
      "ApprovalRequest object is created" (w1, u) Hs Hth) as (s1 & Hm & Hs1).
    unfold hbind, markStageTaskRequestCreated. rewrite Hm. cbn. eapply at_stage_impl; [exact Hs1|]. naive_solver.
Qed.

Lemma checkBeforeStageTasksStatus_spec r tasks :
  triple (at_stage r u0 P) (checkBeforeStageTasksStatus (W := W) now r tasks)
    (fun ok => at_stage r u0 (fun st => P st /\ (ok = true -> before_approved (task_Type <$> tasks) st)))
    (at_stage r u0 P).
Proof.
  destruct tasks as [|task tasks]; cbn [checkBeforeStageTasksStatus].
  { apply triple_ret. intros s Hs. eapply at_stage_impl; [exact Hs|]. intros st HP. split; [done|]. by intros _ []. }
  eapply triple_bind; [apply triple_False, at_stage_getStage|]. intros st0. cbn.
  destruct (decide _).
  - eapply triple_conseq; [apply (handleStageApprovalTask_spec (mkTaskRef r true 0))| | |]; cbn; [naive_solver| |done].
    intros ok s Hs. eapply at_stage_impl; [exact Hs|]. intros st [HP Hok]. split; [done|]. intros H _. exact (Hok H).
  - by intros s [Hs _].
Qed.

End Stable.

Lemma task_stable_and (P Q : StageUpdatingStatus -> Prop) :
  task_stable now g P -> task_stable now g Q -> task_stable now g (fun st => P st /\ Q st).
Proof. intros HP HQ before k type reason message s [H1 H2]. split; [by apply HP|by apply HQ]. Qed.

Lemma task_stable_impl (A : Prop) (Q : StageUpdatingStatus -> Prop) :
  task_stable now g Q -> task_stable now g (fun st => A -> Q st).
Proof. intros HQ before k type reason message s H HA. by apply HQ, H. Qed.

(** The condition that completes a task after the stage. *)
Definition completes (j : nat) (type : string) (st : StageUpdatingStatus) : Prop :=
  (type = StageTaskTypeTimedWait -> task_true false j StageTaskConditionWaitTimeElapsed st) /\
  (type = StageTaskTypeApproval -> task_true false j StageTaskConditionApprovalRequestApproved st).

Lemma completes_stable j type : task_stable now g (completes j type).
Proof. apply task_stable_and; apply task_stable_impl, task_true_stable. Qed.

Lemma wait_elapsed_true t :
  wait_elapsed t = is_true (FindStatusCondition (ts_Conditions t) StageTaskConditionWaitTimeElapsed).
Proof. done. Qed.

Lemma checkAfterStageTask_spec (P : StageUpdatingStatus -> Prop) i j task :
  task_stable now g P -> (forall st, P st -> stage_at_gen g st) ->
  triple (at_stage (UpdateStage i) u0 P) (checkAfterStageTask (W := W) now i j task)
    (fun a => at_stage (UpdateStage i) u0 (fun st => P st /\ (a.1 = true -> completes j (task_Type task) st)))
    (at_stage (UpdateStage i) u0 P).
Proof.
  intros HPt HPg [w u] Hs. pose proof Hs as [Hfr (st & Hst & HP)]. cbn in Hfr, Hst.
  assert (Hdiff : StageTaskTypeTimedWait <> StageTaskTypeApproval) by done.
  unfold checkAfterStageTask. set (t := mkTaskRef (UpdateStage i) false j).
  destruct (decide (task_Type task = StageTaskTypeTimedWait)) as [Hw|Hw].
  - rewrite (hbind_run _ _ _ _ _ (getStage_run (UpdateStage i) (w, u) st Hst)).
    unfold hbind. rewrite (getTask_run t (w, u) st Hst).
    destruct (stage_tasks (tr_before t) st !! tr_index t) as [ts|] eqn:Ht; [|exact Hs].
    rewrite wait_elapsed_true. destruct (is_true _) eqn:He; cbn.
    { split; [done|]. exists st. split; [done|]. split; [done|]. intros _. split; [|congruence]. intros _. by exists ts. }
    destruct (FindStatusCondition (sus_Conditions st) _) as [c|]; [|exact Hs]. destruct (task_WaitTime task) as [d|]; [|exact Hs].
    destruct (0 <? _)%Z; cbn.
    { eapply at_stage_impl; [exact Hs|]. cbn. intros st' HP'. by split. }
    destruct (markTask_true P HPt t StageTaskConditionWaitTimeElapsed "AfterStageTaskWaitTimeElapsed" "Wait time elapsed" (w, u) Hs)
      as (s1 & Hm & Hs1); [by eauto|]. unfold markAfterStageWaitTimeElapsed. rewrite Hm. cbn.
    eapply at_stage_impl; [exact Hs1|]. intros st' [HP' Htt]. split; [done|]. intros _. split; [done|congruence].
  - destruct (decide (task_Type task = StageTaskTypeApproval)) as [Ha|Ha].
    + destruct (getStageConfig_run i (w, u)) as (r & Hr & _). unfold hbind. rewrite Hr. destruct r as [cfg|e|x]; [|exact Hs..].
      pose proof (handleStageApprovalTask_spec P HPt HPg t (stage_Name cfg) AfterStageTaskLabelValue (w, u) Hs) as H.
      destruct (handleStageApprovalTask now t _ _ (w, u)) as [s' [ok|e|x]]; cbn; [|exact H..].
      eapply at_stage_impl; [exact H|]. intros st' [HP' Hok]. split; [done|]. cbn. intros Htrue. split; [congruence|].
      intros _. exact (Hok Htrue).
    + cbn. eapply at_stage_impl; [exact Hs|]. cbn. intros st' HP'. split; [done|]. intros _. by split.
Qed.

(** The tasks before position [k] are complete. *)
Definition complete_upto (tasks : list StageTask) (k : nat) (st : StageUpdatingStatus) : Prop :=
  forall j task, j < k -> tasks !! j = Some task -> completes j (task_Type task) st.

Lemma complete_upto_stable tasks k : task_stable now g (complete_upto tasks k).
Proof. intros before k' type reason message s H j task Hj Ht. apply completes_stable. by eapply H. Qed.

Lemma complete_upto_all tasks st :
  complete_upto tasks (length tasks) st -> after_complete (task_Type <$> tasks) st.
Proof.
  intros H j type (task & -> & Ht)%list_lookup_fmap_Some Htype.
  destruct (H j task (lookup_lt_Some _ _ _ Ht) Ht) as [Hw Ha].
  assert (exists t, sus_AfterStageTaskStatus st !! j = Some t) as [t Hj].
  { destruct Htype as [He|He]; [destruct (Hw He) as (t & Hj & _)|destruct (Ha He) as (t & Hj & _)]; by exists t. }
  exists t. split; [done|]. split; intros He.
  - destruct (Hw He) as (t' & Hj' & Htrue). cbn in Hj'. rewrite Hj in Hj'. by simplify_eq.
  - destruct (Ha He) as (t' & Hj' & Htrue). cbn in Hj'. rewrite Hj in Hj'. by simplify_eq.
Qed.

Lemma framed_config r u u' i : framed r u u' -> config_at u' i = config_at u i.
Proof. intros (_ & _ & H & _). unfold config_at. by rewrite H. Qed.

Lemma checkAfterStageTasksStatus_spec (P : StageUpdatingStatus -> Prop) i :
  task_stable now g P -> (forall st, P st -> stage_at_gen g st) ->
  triple (at_stage (UpdateStage i) u0 P) (checkAfterStageTasksStatus (W := W) now i)
    (fun a => at_stage (UpdateStage i) u0 (fun st => P st /\ (a.1 = true -> after_complete (after_types u0 i) st)))
    (at_stage (UpdateStage i) u0 P).
Proof.
  intros HPt HPg s Hs. unfold checkAfterStageTasksStatus. destruct (getStageConfig_run i s) as (r & Hr & Hc).
  unfold hbind at 1. rewrite Hr. destruct r as [cfg|e|x]; [|exact Hs..]. specialize (Hc cfg eq_refl).
  rewrite (framed_config _ u0) in Hc by apply Hs. clear Hr.
  set (tasks := stage_AfterStageTasks cfg).
  set (I := fun (k : nat) (acc : bool * Z) =>
    at_stage (W := W) (UpdateStage i) u0 (fun st => P st /\ (acc.1 = true -> complete_upto tasks k st))).
  assert (Hloop : triple (I 0 (true, (-1)%Z)) (hfold (fun acc jt =>
      let* (ok, wait) := checkAfterStageTask (W := W) now i jt.1 jt.2 in
      hret (acc.1 && ok, default acc.2 wait)) (true, -1)%Z (imap pair tasks)) (I (length (imap pair tasks)))
      (at_stage (UpdateStage i) u0 P)).
  { apply triple_hfold. intros k jt acc Hk. rewrite list_lookup_imap in Hk.
    destruct (tasks !! k) as [task|] eqn:Htask; [|done]. cbn in Hk. injection Hk as <-. cbn.
    eapply triple_bind.
    - eapply triple_conseq; [apply (checkAfterStageTask_spec
        (fun st => P st /\ (acc.1 = true -> complete_upto tasks k st)))| | |]; [|naive_solver|done| |].
      + apply task_stable_and; [done|]. apply task_stable_impl, complete_upto_stable.
      + intros a s' H. exact H.
      + intros s' H. eapply at_stage_impl; [exact H|]. naive_solver.
    - intros [ok wait]. apply triple_ret. intros s' H. eapply at_stage_impl; [exact H|]. cbn. intros st [[HP Hup] Hok].
      split; [done|]. intros [Ha ?]%andb_prop j t Hj Ht. destruct (decide (j = k)) as [->|]; [simplify_eq; auto|].
      apply (Hup Ha j t); [lia|done]. }
  specialize (Hloop s). unfold hbind.
  destruct (hfold _ _ _ s) as [s' [[passed wt]|e|x]]; cbn in *.
  - eapply at_stage_impl; [apply Hloop|].
    + eapply at_stage_impl; [exact Hs|]. intros st HP. split; [done|]. intros _ j t Hj. lia.
    + cbn. rewrite length_imap. intros st [HP Hup]. split; [done|]. intros Hp. unfold after_types. rewrite Hc.
      by apply complete_upto_all, Hup.
  - apply Hloop. eapply at_stage_impl; [exact Hs|]. intros st HP. split; [done|]. intros _ j t Hj. lia.
  - apply Hloop. eapply at_stage_impl; [exact Hs|]. intros st HP. split; [done|]. intros _ j t Hj. lia.
Qed.

End Tasks.

(** ** Rounds of execution and of stopping *)

Section Rounds.
Context {K : K8sLib} {L : K8sLaws K} {W : Type} {C : HubClient W} {UC : UpdateRunClient W}.
Notation state := (W * UpdateRunObj)%type.
Variables (now : Z) (aggregateMessage : list string -> string).

Lemma mark_run_leaves r type st reason message :
  type <> StagedUpdateRunConditionInitialized -> leaves_stage r (mark_run now type st reason message).
Proof. intros Ht u. by apply mark_run_framed. Qed.

Lemma aggregate_leaves r name stuck : leaves_stage r (aggregateUpdateRunStatus now name stuck).
Proof.
  intros u. unfold aggregateUpdateRunStatus. destruct stuck; [destruct (decide _)|]; [|split; [apply framed_refl|done]|].
  all: by apply mark_run_leaves.
Qed.

Lemma progressing_leaves r : leaves_stage r (markUpdateRunProgressingIfNotWaitingOrStuck now).
Proof.
  intros u. unfold markUpdateRunProgressingIfNotWaitingOrStuck. destruct (_ && _); [split; [apply framed_refl|done]|].
  by apply mark_run_leaves.
Qed.

(** The deferred check marks the stage as failed. *)
Lemma aborted_spec {A} r u0 Pre (m : hub state A) Post (P : StageUpdatingStatus -> Prop) :
  mark_stable now (ur_generation u0) P -> times_stable P ->
  triple Pre m Post (at_stage r u0 P) ->
  triple Pre (checkIfErrorStagedUpdateAborted (W := W) now r m) Post (at_stage r u0 P).
Proof.
  intros HPm HPt Hm s Hs. specialize (Hm s Hs). unfold checkIfErrorStagedUpdateAborted.
  destruct (m s) as [s' [a|e|x]]; [done| |done]. destruct (isAborted e); [|done].
  pose proof Hm as [Hfr _]. rewrite (framed_generation _ _ _ Hfr). apply (at_stage_alter r u0 P); [|done].
  intros st HP. apply HPm; [by right|]. apply HPm; [by left|]. by apply HPt.
Qed.

Section UpdateRound.
Variables (n : nat) (u0 : UpdateRunObj) (names : list string).
Notation g := (ur_generation u0).
Notation r := (UpdateStage n).
Notation Live := (live g (before_types u0 n) (calculateMaxConcurrencyValue (ur_status u0) n) names).
Hypothesis names_length : forall st, ur_stages u0 !! n = Some st -> length names = length (sus_Clusters st).

Definition all_succeeded (st : StageUpdatingStatus) : Prop := Forall (fun c => c_succeeded c = true) (sus_Clusters st).

(** What the round may have finished. *)
Record finished (st : StageUpdatingStatus) : Prop := {
  fin_gen : stage_at_gen g st;
  fin_stage : finished_stage u0 n st;
  fin_names : cus_ClusterName <$> sus_Clusters st = names;
}.

Definition after_round (st : StageUpdatingStatus) : Prop := Live st \/ finished st.

Lemma clusters_task_stable (Q : list ClusterUpdatingStatus -> Prop) : task_stable now g (fun st => Q (sus_Clusters st)).
Proof. intros before k type reason message s H. unfold mark_task_at. by destruct before. Qed.

Lemma succeeded_done type reason message reason' message' st :
  s_done (mark_stage now StageUpdatingConditionSucceeded ConditionTrue g reason message
    (mark_stage now type ConditionFalse g reason' message' st)) = true.
Proof. unfold s_done. cbn. by rewrite mark_same. Qed.

(** Marking a stage as succeeded, when all that it takes is there. *)
Lemma mark_finished reason message reason' message' st :
  Live st -> all_succeeded st -> sus_Clusters st = [] \/ after_complete (after_types u0 n) st ->
  forall a b, finished (mark_stage now StageUpdatingConditionSucceeded ConditionTrue g reason message
    (mark_stage now StageUpdatingConditionProgressing ConditionFalse g reason' message' (set_sus_times a b st))).
Proof.
  intros [(H1 & H1') H2 H3 H4 H5] Hs Ha a b. split; [|split_and!|done].
  - split; [by do 2 apply mark_at_gen|done].
  - apply succeeded_done.
  - done.
  - done.
  - done.
Qed.

Lemma handleStageCompletion_spec :
  triple (at_stage r u0 (fun st => Live st /\ all_succeeded st)) (handleStageCompletion (W := W) now n)
    (fun _ => at_stage r u0 after_round) (at_stage r u0 Live).
Proof.
  set (P := fun st => Live st /\ all_succeeded st).
  assert (Hweak : forall s, at_stage (W := W) r u0 P s -> at_stage r u0 Live s)
    by (intros s H; eapply at_stage_impl; [exact H|by intros st []]).
  assert (Hkeep : forall A (m : hub state A), preserves (at_stage r u0 P) m ->
    triple (at_stage r u0 P) m (fun _ => at_stage r u0 P) (at_stage r u0 Live)).
  { intros A m Hm. eapply triple_conseq; [by apply triple_preserves|done|done|done]. }
  unfold handleStageCompletion. eapply triple_bind; [apply triple_False, at_stage_getStage|]. intros st0.
  eapply triple_bind; [|intros []].
  { eapply triple_conseq; [apply Hkeep, at_stage_change; by apply mark_run_leaves|by intros s []|done|done]. }
  eapply triple_bind; [|intros []].
  { apply Hkeep, markStage_keeps. intros st [HL Hs]. split; [|done]. apply live_mark_stable; auto. }
  eapply triple_bind; [|intros [approved wt]].
  { eapply triple_conseq; [apply (checkAfterStageTasksStatus_spec now u0 P n)|done| |exact Hweak].
    - apply task_stable_and; [apply live_task_stable|apply (clusters_task_stable (Forall _))].
    - by intros st [[]].
    - intros a s H. exact H. }
  destruct approved; cbn.
  - set (P2 := fun st => Live st /\ all_succeeded st /\ after_complete (after_types u0 n) st).
    eapply triple_bind; [|intros []].
    { eapply (triple_conseq _ (at_stage r u0 P2) _ _ (fun _ => at_stage r u0 P2) _ (at_stage r u0 P2)).
      - apply triple_preserves, at_stage_change. by apply mark_run_leaves.
      - intros s H. eapply at_stage_impl; [exact H|]. unfold P, P2. naive_solver.
      - intros a s H. exact H.
      - intros s H. eapply at_stage_impl; [exact H|]. by intros st []. }
    eapply triple_bind; [apply triple_False, (at_stage_markStage r u0 P2 after_round)|intros []; by apply triple_ret].
    intros st (HL & Hs & Ha). right. apply (mark_finished _ _ _ _ _ HL Hs). by right.
  - apply triple_ret. intros s H. eapply at_stage_impl; [exact H|]. intros st [[HL _] _]. by left.
Qed.

(** Replacing the clusters of a stage whose tasks have been approved. *)
Lemma live_clusters st cs :
  Live st -> before_approved (before_types u0 n) st -> cus_ClusterName <$> cs = names ->
  Forall (fun c => at_gen g (cus_Conditions c)) cs -> stage_bounded (calculateMaxConcurrencyValue (ur_status u0) n) cs ->
  Live (set_sus_Clusters cs st).
Proof.
  intros [(H1 & _ & H1a & H1b) H2 _ _ _] Ha Hn Hg Hb. split; [|done|intros _; exact Ha|done|done]. by split_and!.
Qed.

(** Letting clusters finish. *)
Lemma live_finish st cs :
  Live st -> Forall2 (lets_finish g) (sus_Clusters st) cs -> Live (set_sus_Clusters cs st).
Proof.
  intros [(H1 & H2 & H3 & H4) Hd Hgate Hb Hn] Hf.
  assert (Hall : Forall2 (fun c c' => cus_ClusterName c' = cus_ClusterName c /\ at_gen g (cus_Conditions c') /\ c_started c' = c_started c)
    (sus_Clusters st) cs).
  { clear -Hf H2. induction Hf as [|c c' xs xs' Hc _ IH]; [done|]. apply Forall_cons in H2 as [Hg H2].
    destruct (Hc Hg) as (? & ? & ? & _). constructor; [done|auto]. }
  split; [split_and!; try done|done| |by eapply finish_bounded|].
  - cbn. clear -Hall. induction Hall as [|c c' xs xs' (_ & ? & _) _ IH]; by constructor.
  - intros He. apply Hgate. cbn in He. clear -Hall He. induction Hall as [|c c' xs xs' (_ & _ & Hc) _ IH]; [by apply Exists_nil in He|].
    apply Exists_cons in He as [He|He]; [left; congruence|right; auto].
  - rewrite <-Hn. cbn. clear -Hall. induction Hall as [|c c' xs xs' (Hc & _) _ IH]; [done|]. cbn. congruence.
Qed.

Lemma executeUpdatingStage_spec bindings mc :
  calculateMaxConcurrencyValue (ur_status u0) n = Ok mc ->
  triple (at_stage r u0 (fun st => Live st /\ before_approved (before_types u0 n) st))
    (executeUpdatingStage (W := W) now aggregateMessage n bindings mc)
    (fun _ => at_stage r u0 after_round) (at_stage r u0 Live).
Proof.
  intros Hmc s Hs. assert (Hl : at_stage r u0 Live s) by (eapply at_stage_impl; [exact Hs|by intros st []]).
  pose proof Hs as [Hfr (st & Hst & HL & Happ)]. unfold executeUpdatingStage, theRun. rewrite (hbind_run _ _ s s s.2) by done.
  rewrite (hbind_run _ _ _ _ _ (getStage_run r s st Hst)). unfold hbind at 1. rewrite onHub_run.
  destruct (executeClusters _ mc (sus_Clusters st) _ s.1) as [w1 [[cs p]|e|x]] eqn:Hloop; cbn [fst snd]; [|exact Hl..].
  apply (executeClusters_ok g) in Hloop; [|..].
  2: { intros c w w' stp Hc Hx. rewrite <-(framed_generation _ _ _ Hfr). eapply executeCluster_ok; [|exact Hx].
       rewrite (framed_generation _ _ _ Hfr). destruct HL as [(_ & Hg & _) _ _ _ _]. by eapply Forall_forall in Hg. }
  2: { by destruct HL as [(_ & Hg & _) _ _ _ _]. }
  set (Q := fun st => Live st /\ sus_Clusters st = cs).
  assert (HQ : Q (set_sus_Clusters cs st)).
  { split; [|done]. apply live_clusters; [done|done| |apply Hloop|].
    - rewrite (loop_names _ _ _ _ _ _ Hloop). apply HL.
    - rewrite Hmc. eapply (loop_bounded g mc); [|exact Hloop|]; [done|]. destruct HL as [_ _ _ Hb _]. by rewrite Hmc in Hb. }
  assert (Hs2 : at_stage r u0 Q (w1, alter_stage (set_sus_Clusters cs) r s.2)).
  { apply (at_stage_alter r u0 (eq st) Q (set_sus_Clusters cs) (w1, s.2)); [by intros ? <-|]. split; [done|]. by exists st. }
  rewrite (hbind_run _ _ (w1, s.2) (w1, alter_stage (set_sus_Clusters cs) r s.2) tt) by done.
  generalize dependent (w1, alter_stage (set_sus_Clusters cs) r s.2).
  change (triple (at_stage r u0 Q) (let* _ := if ep_started p then markStage (markStageUpdatingProgressStarted now) r else hret tt in
    let* _ := change (aggregateUpdateRunStatus now (sus_StageName st) (ep_stuck p)) in
    match ep_errors p with
    | [] => if (ep_finished p =? llen cs)%Z then handleStageCompletion now n else hret clusterUpdatingWaitTime
    | _ :: _ => hlift (Err (aggregate aggregateMessage (ep_errors p)))
    end) (fun _ => at_stage (W := W) r u0 after_round) (at_stage r u0 Live)).
  assert (HQL : forall s, at_stage (W := W) r u0 Q s -> at_stage r u0 Live s)
    by (intros s' H; eapply at_stage_impl; [exact H|by intros ? []]).
  eapply (triple_bind _ _ (fun _ => at_stage r u0 Q)); [|intros []].
  { eapply triple_conseq; [apply (triple_preserves (at_stage r u0 Q))|done|done|exact HQL].
    destruct (ep_started p); [|apply preserves_ret]. apply markStage_keeps. intros st' [HL' Hc]. split; [|done].
    apply live_mark_stable; [by left|]. by apply live_times_stable. }
  eapply (triple_bind _ _ (fun _ => at_stage r u0 Q)); [|intros []].
  { eapply triple_conseq; [apply (triple_preserves (at_stage r u0 Q))|done|done|exact HQL].
    apply at_stage_change, aggregate_leaves. }
  destruct (ep_errors p); [|intros s' H; by apply HQL].
  destruct (Z.eqb_spec (ep_finished p) (llen cs)) as [Hall|].
  - eapply triple_conseq; [apply handleStageCompletion_spec| |done|done].
    intros s' H. eapply at_stage_impl; [exact H|]. intros st' [HL' Hc]. split; [done|]. unfold all_succeeded. rewrite Hc.
    by refine (loop_finished g mc _ _ _ _ _ _ Hloop Hall).
  - apply triple_ret. intros s' H. eapply at_stage_impl; [exact H|]. intros st' [HL' _]. by left.
Qed.

Lemma executeStage_spec bindings :
  triple (at_stage r u0 Live) (executeStage (W := W) now aggregateMessage n bindings)
    (fun _ => at_stage r u0 after_round) (at_stage r u0 Live).
Proof.
  unfold executeStage. eapply triple_bind; [apply triple_False, at_stage_getStage|]. intros st0 s [Hs _].
  destruct (getStageConfig_run n s) as (res & Hr & Hc). unfold hbind at 1. rewrite Hr.
  destruct res as [cfg|e|x]; [|exact Hs..]. specialize (Hc cfg eq_refl). rewrite (framed_config r u0) in Hc by apply Hs.
  assert (Ht : before_types u0 n = task_Type <$> stage_BeforeStageTasks cfg) by (unfold before_types; by rewrite Hc).
  clear Hr Hc. revert s Hs. eapply (triple_bind (at_stage r u0 Live)).
  { apply (checkBeforeStageTasksStatus_spec now u0 Live); [apply live_task_stable|]. by intros st []. }
  intros approved. destruct approved; cbn.
  - intros s Hs. unfold theRun. rewrite (hbind_run _ _ s s s.2) by done.
    assert (Hl : at_stage r u0 Live s) by (eapply at_stage_impl; [exact Hs|by intros st []]).
    assert (Hmc : calculateMaxConcurrencyValue (ur_status s.2) n = calculateMaxConcurrencyValue (ur_status u0) n).
    { destruct Hl as [Hfr (st & Hst & HL)]. destruct Hfr as (_&_&Hsn&Hlen&_).
      destruct (ur_stages u0 !! n) as [st1|] eqn:H1.
      2: { apply lookup_ge_None in H1. apply lookup_lt_Some in Hst. lia. }
      unfold calculateMaxConcurrencyValue, llen. unfold stage_at, ur_stages in *. rewrite Hsn, H1, Hst.
      assert (length (sus_Clusters st) = length (sus_Clusters st1)) as ->; [|done].
      rewrite <-(length_fmap cus_ClusterName), (live_names _ _ _ _ _ HL). exact (names_length st1 eq_refl). }
    unfold hbind at 1, hmap_err, hlift. rewrite Hmc.
    destruct (calculateMaxConcurrencyValue (ur_status u0) n) as [mc|e|x] eqn:Hcalc; [|exact Hl..].
    rewrite <-Hcalc in Hs |- *. clear Hl. revert s Hs Hmc. cut (triple (at_stage r u0 (fun st => Live st /\ before_approved (before_types u0 n) st))
      (let* waitTime := executeUpdatingStage (W := W) now aggregateMessage n bindings mc in hret (false, waitTime))
      (fun _ => at_stage r u0 after_round) (at_stage r u0 Live)).
    { intros H s Hs _. apply H. eapply at_stage_impl; [exact Hs|]. cbn. rewrite Ht. naive_solver. }
    eapply triple_bind; [by apply executeUpdatingStage_spec|]. intros wt. by apply triple_ret.
  - eapply (triple_bind _ _ (fun _ => at_stage r u0 Live)); [|intros []].
    { apply triple_False. eapply triple_conseq; [apply (at_stage_markStage r u0 Live Live)| |done|done].
      - intros st HL. apply live_mark_stable; auto.
      - intros s H. eapply at_stage_impl; [exact H|]. by intros st []. }
    eapply (triple_bind _ _ (fun _ => at_stage r u0 Live)); [|intros []; apply triple_ret].
    { apply triple_preserves, at_stage_change. by apply mark_run_leaves. }
    intros s H. eapply at_stage_impl; [exact H|]. by left.
Qed.

Lemma execute_update_spec idx bindings deleted :
  (forall u, framed r u0 u -> stageOfIndex idx u = r) ->
  triple (at_stage r u0 Live) (execute (W := W) now aggregateMessage idx bindings deleted)
    (fun _ => at_stage r u0 after_round) (at_stage r u0 Live).
Proof.
  intros Hidx s Hs. unfold execute, theRun. rewrite (hbind_run _ _ s s s.2) by done. rewrite Hidx by apply Hs.
  revert s Hs. apply aborted_spec; [apply live_mark_stable|apply live_times_stable|].
  eapply (triple_bind _ _ (fun _ => at_stage r u0 Live)); [apply triple_preserves, at_stage_change, progressing_leaves|].
  intros []. eapply triple_bind; [apply triple_False, at_stage_getStage|]. intros st0.
  destruct (sus_Clusters st0) as [|c cs] eqn:Hcs.
  - eapply (triple_bind _ _ (fun _ => at_stage r u0 after_round)); [|intros []; by apply triple_ret].
    intros s (Hs & Hst & HL). apply (at_stage_markStage r u0 (eq st0) after_round).
    + intros ? <-. right. apply (mark_finished _ _ _ _ st0 HL); [unfold all_succeeded; by rewrite Hcs|by left].
    + split; [apply Hs|]. by exists st0.
  - eapply triple_conseq; [apply executeStage_spec|by intros s []|done|done].
Qed.

Lemma stopUpdatingStage_spec bindings :
  triple (at_stage r u0 Live) (stopUpdatingStage (W := W) now aggregateMessage n bindings)
    (fun _ => at_stage r u0 Live) (at_stage r u0 Live).
Proof.
  intros s Hs. pose proof Hs as [Hfr (st & Hst & HL)]. unfold stopUpdatingStage, theRun.
  rewrite (hbind_run _ _ s s s.2) by done. rewrite (hbind_run _ _ _ _ _ (getStage_run r s st Hst)).
  destruct (stopClusters _ (sus_Clusters st) _) as [cs p] eqn:Hstop. apply stopClusters_finish in Hstop.
  rewrite (framed_generation _ _ _ Hfr) in Hstop.
  (* only the clusters matter of the stage as it was read *)
  set (P := fun st' => Live st' /\ sus_Clusters st' = sus_Clusters st).
  assert (HP : at_stage r u0 P s) by (split; [done|]; exists st; by split_and!).
  clear Hs Hst. revert s HP Hfr. cut (triple (at_stage r u0 P) (let* _ := markStage (W := W) (markStageUpdatingStopping now) r in
    let* _ := change (alter_stage (set_sus_Clusters cs) r) in
    let* _ := change (aggregateUpdateRunStatus now (sus_StageName st) (ep_stuck p)) in
    match ep_errors p with
    | [] => if (ep_updating p =? 0)%Z then let* _ := markStage (markStageUpdatingStopped now) r in hret (true, 0%Z)
            else hret (false, clusterUpdatingWaitTime)
    | _ :: _ => hlift (Err (aggregate aggregateMessage (ep_errors p)))
    end) (fun _ => at_stage r u0 Live) (at_stage r u0 Live)).
  { intros H s HP _. by apply H. }
  eapply (triple_bind _ _ (fun _ => at_stage r u0 P)); [apply triple_False, at_stage_markStage|intros []].
  { intros st' [HL' Hc]. split; [|done]. apply live_mark_stable; auto. }
  eapply (triple_bind _ _ (fun _ => at_stage r u0 Live)); [|intros []].
  { intros s HP. apply (at_stage_alter r u0 P Live _ s); [|done]. intros st' [HL' Hc].
    destruct HL as [(_ & Hg & _) _ Hgate Hb Hn]. rewrite <-Hc in *. apply live_finish; done. }
  eapply (triple_bind _ _ (fun _ => at_stage r u0 Live)); [apply triple_preserves, at_stage_change, aggregate_leaves|intros []].
  destruct (ep_errors p); [|by intros s Hs].
  destruct (ep_updating p =? 0)%Z; [|by apply triple_ret].
  eapply (triple_bind _ _ (fun _ => at_stage r u0 Live)); [apply triple_False, at_stage_markStage|intros []; by apply triple_ret].
  intros st' HL'. apply live_mark_stable; auto.
Qed.

Lemma stop_update_spec idx bindings deleted :
  (forall u, framed r u0 u -> stageOfIndex idx u = r) ->
  triple (at_stage r u0 Live) (stop (W := W) now aggregateMessage idx bindings deleted)
    (fun _ => at_stage r u0 Live) (at_stage r u0 Live).
Proof.
  intros Hidx s Hs. unfold stop, theRun. rewrite (hbind_run _ _ s s s.2) by done. rewrite Hidx by apply Hs.
  revert s Hs. apply aborted_spec; [apply live_mark_stable|apply live_times_stable|].
  eapply (triple_bind _ _ (fun _ => at_stage r u0 Live)); [|intros []; apply stopUpdatingStage_spec].
  apply triple_preserves, at_stage_change. by apply mark_run_leaves.
Qed.

End UpdateRound.

(** *** The delete stage *)

Section DeleteRound.
Variable u0 : UpdateRunObj.
Notation g := (ur_generation u0).
Notation Kept := (at_stage (W := W) DeleteStage u0 (stage_at_gen g)).

Lemma gen_task_stable : task_stable now g (stage_at_gen g).
Proof. intros before k type reason message s. apply mark_task_at_gen. Qed.

Lemma gen_mark type st reason message s :
  stage_at_gen g s -> stage_at_gen g (mark_stage now type st g reason message s).
Proof. intros (H1 & H1'). split; [by apply mark_at_gen|done]. Qed.

Lemma gen_mark_stable : mark_stable now g (stage_at_gen g).
Proof. intros type st reason message s _. apply gen_mark. Qed.

Lemma gen_times_stable : times_stable (stage_at_gen g).
Proof. by intros a b s. Qed.

Lemma gen_clusters s cs :
  stage_at_gen g s -> Forall (fun c => at_gen g (cus_Conditions c)) cs -> stage_at_gen g (set_sus_Clusters cs s).
Proof. intros (H1 & _ & H3 & H4) Hcs. by split_and!. Qed.

Lemma keeps_markStage f : (forall s, stage_at_gen g s -> stage_at_gen g (f g s)) -> preserves Kept (markStage f DeleteStage).
Proof. apply markStage_keeps. Qed.

Lemma keeps_markRun type st reason message :
  type <> StagedUpdateRunConditionInitialized -> preserves Kept (change (mark_run now type st reason message)).
Proof. intros Ht. apply at_stage_change. by apply mark_run_leaves. Qed.

Lemma keeps_getStage : preserves Kept (getStage DeleteStage).
Proof.
  apply triple_preserves. eapply triple_conseq; [apply triple_False, at_stage_getStage|done| |done]. by intros a s [].
Qed.

Lemma keeps_theRun : preserves Kept theRun.
Proof. by intros s Hs. Qed.

Lemma keeps_getStrategy : preserves Kept getStrategy.
Proof. apply preserves_bind; [apply keeps_theRun|]. intros u. destruct (urs_UpdateStrategySnapshot _); [apply preserves_ret|apply preserves_lift]. Qed.

Lemma markDeleted_gen dm i c : at_gen g (cus_Conditions c) -> at_gen g (cus_Conditions (markDeleted now g dm i c)).
Proof.
  intros Hc. unfold markDeleted. destruct (decide _); [|done]. apply mark_at_gen.
  destruct (cluster_started g c); [done|by apply mark_at_gen].
Qed.

Lemma keeps_sync bs : preserves Kept (syncDeleteStageClusterStatuses (W := W) now bs).
Proof.
  intros s Hs. pose proof Hs as [Hfr _]. unfold syncDeleteStageClusterStatuses, theRun. rewrite (hbind_run _ _ s s s.2) by done.
  rewrite (framed_generation _ _ _ Hfr). revert s Hs Hfr. cut (preserves Kept (let* stageStatus := getDeleteStage in
    let* (deletedClusters, toBeStartedClusters) := hlift (ofold (syncBinding g (sus_Clusters stageStatus))
      (clusterIndices (sus_Clusters stageStatus), ∅) bs) in
    let* _ := change (W := W) (alter_stage (fun s => set_sus_Clusters
      (imap (markDeleted now g deletedClusters) (sus_Clusters s)) s) DeleteStage) in hret toBeStartedClusters)).
  { intros H s Hs _. by apply H. }
  apply preserves_bind; [apply keeps_getStage|]. intros st0. apply preserves_bind; [apply preserves_lift|]. intros [dm sm].
  apply preserves_bind; [|intros _; apply preserves_ret]. intros s Hs. apply (at_stage_alter DeleteStage u0 (stage_at_gen g) _ _ s); [|done].
  intros st Hst. apply gen_clusters; [done|]. apply Forall_lookup. intros i c Hc. rewrite list_lookup_imap in Hc.
  apply fmap_Some in Hc as (c0 & Hc0 & ->). apply markDeleted_gen. destruct Hst as (_ & Hst & _). by eapply Forall_lookup in Hst.
Qed.

Lemma keeps_before tasks : preserves Kept (checkBeforeStageTasksStatus now DeleteStage tasks).
Proof.
  apply triple_preserves. eapply triple_conseq; [apply (checkBeforeStageTasksStatus_spec now u0 (stage_at_gen g))|done| |done].
  - apply gen_task_stable.
  - done.
  - intros ok s H. eapply at_stage_impl; [exact H|]. by intros st [].
Qed.

Lemma keeps_checkBefore bs : preserves Kept (checkBeforeDeleteStageTasksStatus (W := W) now bs).
Proof.
  apply preserves_bind; [apply keeps_getStrategy|]. intros strategy. destruct (us_DeleteStage strategy) as [[|t ts]|]; [apply preserves_ret| |apply preserves_ret].
  destruct bs; [apply preserves_ret|]. apply preserves_bind; [apply keeps_getStage|]. intros st0.
  destruct (sus_StartTime st0); [apply preserves_ret|]. apply preserves_bind; [apply keeps_before|]. intros [|]; cbn.
  - apply preserves_bind; [by apply keeps_markRun|]. intros _. apply preserves_ret.
  - apply preserves_bind; [apply keeps_markStage; intros; by apply gen_mark|]. intros _.
    apply preserves_bind; [by apply keeps_markRun|]. intros _. apply preserves_ret.
Qed.

Lemma run_preserves_hfold {S A B} (I : S -> Prop) (f : B -> A -> hub S B) b xs :
  (forall b x, preserves I (f b x)) -> preserves I (hfold f b xs).
Proof.
  intros Hf. revert b. induction xs as [|x xs IH]; intros b; cbn; [apply preserves_ret|].
  apply preserves_bind; [apply Hf|]. intros b'. apply IH.
Qed.

Lemma keeps_deleteBinding sm acc b : preserves Kept (deleteBinding (W := W) now sm acc b).
Proof.
  unfold deleteBinding. destruct (sm !! b_target b) as [i|]; [|apply preserves_ret].
  apply preserves_bind; [apply preserves_map_err, at_stage_onHub|]. intros _. apply keeps_markStage.
  intros st Hst. apply gen_clusters; [done|]. apply Forall_lookup. intros j c. rewrite list_lookup_alter.
  destruct Hst as (_ & Hst & _). destruct (decide (i = j)); [|by apply (Forall_lookup_1 _ _ _ _ Hst)].
  intros (c0 & Hc0 & ->)%fmap_Some. apply mark_at_gen. by eapply Forall_lookup in Hst.
Qed.

Lemma keeps_executeDelete bs : preserves Kept (executeDeleteStage (W := W) now bs).
Proof.
  apply preserves_bind; [apply keeps_checkBefore|]. intros [|]; cbn; [|apply preserves_ret].
  apply preserves_bind; [apply keeps_getStage|]. intros _.
  apply preserves_bind; [apply keeps_markStage; intros; by apply gen_mark|]. intros _.
  apply preserves_bind; [apply keeps_sync|]. intros sm.
  apply preserves_bind; [apply run_preserves_hfold; intros; apply keeps_deleteBinding|]. intros _.
  destruct bs; [|apply preserves_ret]. apply preserves_bind; [|intros _; apply preserves_ret].
  apply keeps_markStage. intros st Hst. by do 2 apply gen_mark.
Qed.

Lemma keeps_stopDelete bs : preserves Kept (stopDeleteStage (W := W) now bs).
Proof.
  apply preserves_bind; [apply keeps_getStage|]. intros _.
  apply preserves_bind; [apply keeps_markStage; intros; by apply gen_mark|]. intros _.
  apply preserves_bind; [apply keeps_sync|]. intros _. apply preserves_bind; [apply keeps_theRun|]. intros u.
  apply preserves_bind; [apply keeps_getStage|]. intros st. apply preserves_bind; [|intros _; apply preserves_ret].
  destruct (forallb _ _); [|apply preserves_ret]. apply keeps_markStage. intros; by apply gen_mark.
Qed.

Lemma keeps_aborted {A} (m : hub state A) :
  preserves Kept m -> preserves Kept (checkIfErrorStagedUpdateAborted now DeleteStage m).
Proof.
  intros Hm. apply triple_preserves, aborted_spec; [apply gen_mark_stable|apply gen_times_stable|by apply triple_preserves].
Qed.

Lemma execute_delete_keeps idx bindings deleted :
  (forall u, framed DeleteStage u0 u -> stageOfIndex idx u = DeleteStage) ->
  preserves Kept (execute (W := W) now aggregateMessage idx bindings deleted).
Proof.
  intros Hidx s Hs. unfold execute, theRun. rewrite (hbind_run _ _ s s s.2) by done. rewrite Hidx by apply Hs.
  revert s Hs. apply keeps_aborted. apply preserves_bind; [apply at_stage_change, progressing_leaves|]. intros _.
  apply keeps_executeDelete.
Qed.

Lemma stop_delete_keeps idx bindings deleted :
  (forall u, framed DeleteStage u0 u -> stageOfIndex idx u = DeleteStage) ->
  preserves Kept (stop (W := W) now aggregateMessage idx bindings deleted).
Proof.
  intros Hidx s Hs. unfold stop, theRun. rewrite (hbind_run _ _ s s s.2) by done. rewrite Hidx by apply Hs.
  revert s Hs. apply keeps_aborted. apply preserves_bind; [by apply keeps_markRun|]. intros _.
  apply preserves_bind; [apply keeps_stopDelete|]. intros fin. apply preserves_ret.
Qed.

End DeleteRound.

(** *** A round moves the frontier by at most one stage *)

Definition stands (n : nat) (u : UpdateRunObj) : Prop := run_at_gen (ur_generation u) u /\ staged n u.

(** The run is the same, up to its status. *)
Definition same_run (u u' : UpdateRunObj) : Prop :=
  ur_meta u' = ur_meta u /\ ur_spec u' = ur_spec u /\
  FindStatusCondition (urs_Conditions (ur_status u')) StagedUpdateRunConditionInitialized =
  FindStatusCondition (urs_Conditions (ur_status u)) StagedUpdateRunConditionInitialized.

Definition round_ok (n : nat) (u u' : UpdateRunObj) : Prop :=
  same_run u u' /\ exists n', n <= n' <= S n /\ stands n' u'.

Lemma framed_same r u u' : framed r u u' -> same_run u u'.
Proof. intros (?&?&_&_&_&_&?). by split_and!. Qed.

Lemma framed_gen r u u' st :
  framed r u u' -> run_at_gen (ur_generation u) u -> stage_at r u' = Some st -> stage_at_gen (ur_generation u) st ->
  run_at_gen (ur_generation u') u'.
Proof.
  intros Hf [Hs Hd] Hst Hg. rewrite (framed_generation _ _ _ Hf). destruct Hf as (_&_&_&Hlen&Hi&Hdel&_). split.
  - apply Forall_lookup. intros i s Hi'. destruct (decide (r = UpdateStage i)) as [->|Hr]; [cbn in Hst; congruence|].
    rewrite Hi in Hi' by done. by eapply Forall_lookup in Hs.
  - intros d Hd'. destruct (decide (r = DeleteStage)) as [->|Hr]; [cbn in Hst; congruence|].
    rewrite Hdel in Hd' by done. auto.
Qed.

Lemma stands_live n u st :
  stands n u -> ur_stages u !! n = Some st ->
  live (ur_generation u) (before_types u n) (calculateMaxConcurrencyValue (ur_status u) n) (stage_cluster_names st) st.
Proof.
  intros [[Hg _] [_ _ Ha _ _]] Hst. destruct (Ha st Hst) as (H1 & H2 & H3). split; [|done..]. by eapply Forall_lookup in Hg.
Qed.

Lemma update_round_ok n u st (s : state) :
  stands n u -> ur_stages u !! n = Some st ->
  at_stage (UpdateStage n) u (after_round n u (stage_cluster_names st)) s -> round_ok n u s.2.
Proof.
  intros [Hg Hst] Hn [Hf (st' & Hst' & Hround)]. split; [by eapply framed_same|].
  assert (Hnames : cus_ClusterName <$> sus_Clusters st' = stage_cluster_names st) by (destruct Hround as [[]|[]]; done).
  assert (Hlen : length (sus_Clusters st') = length (sus_Clusters st)).
  { apply (f_equal length) in Hnames. unfold stage_cluster_names in Hnames. by rewrite !length_fmap in Hnames. }
  destruct (staged_round n u s.2 st st' Hst Hf Hn Hst' Hlen) as [H1 H2].
  destruct (framed_types _ _ _ n Hf) as [Hb Ha]. destruct Hround as [[Hgen Hd Hgt Hbd _]|[Hgen (Hd & Hs & Hgt & Hafter) _]].
  - exists n. split; [lia|]. split; [by eapply framed_gen|]. apply H1. split_and!; [done|by rewrite Hb|].
    by rewrite (framed_concurrency (UpdateStage n) u s.2 n st st').
  - exists (S n). split; [lia|]. split; [by eapply framed_gen|]. apply H2. split_and!; [done|done|by rewrite Hb|by rewrite Ha].
Qed.

Lemma delete_round_ok u (s : state) :
  stands (length (ur_stages u)) u -> at_stage DeleteStage u (stage_at_gen (ur_generation u)) s ->
  round_ok (length (ur_stages u)) u s.2.
Proof.
  intros [Hg Hst] [Hf (st' & Hst' & Hgen)]. split; [by eapply framed_same|]. exists (length (ur_stages u)). split; [lia|].
  split; [by eapply framed_gen|]. replace (length (ur_stages u)) with (length (ur_stages s.2)) by (by destruct Hf as (_&_&_&->&_)).
  by apply (staged_delete_round u).
Qed.

Lemma stageOfIndex_framed r n u u' :
  framed r u u' -> stageOfIndex (Z.of_nat n) u' = if decide (n < length (ur_stages u)) then UpdateStage n else DeleteStage.
Proof.
  intros (_&_&_&Hlen&_). unfold stageOfIndex, llen. rewrite Hlen, Nat2Z.id.
  destruct (Z.ltb_spec (Z.of_nat n) (Z.of_nat (length (ur_stages u)))); destruct (decide _); done || lia.
Qed.

(** From what a computation does in an update stage and in the delete stage. *)
Lemma round_of_specs {A} n u w (m : hub state A) :
  stands n u -> urs_DeletionStageStatus (ur_status u) <> None ->
  (forall names, (forall st, ur_stages u !! n = Some st -> length names = length (sus_Clusters st)) ->
    (forall u', framed (UpdateStage n) u u' -> stageOfIndex (Z.of_nat n) u' = UpdateStage n) ->
    triple (at_stage (UpdateStage n) u (live (ur_generation u) (before_types u n)
        (calculateMaxConcurrencyValue (ur_status u) n) names)) m
      (fun _ => at_stage (UpdateStage n) u (after_round n u names))
      (at_stage (UpdateStage n) u (after_round n u names))) ->
  ((forall u', framed DeleteStage u u' -> stageOfIndex (Z.of_nat n) u' = DeleteStage) ->
    preserves (at_stage DeleteStage u (stage_at_gen (ur_generation u))) m) ->
  round_ok n u (m (w, u)).1.2.
Proof.
  intros Hu Hd Hup Hdel. destruct (ur_stages u !! n) as [st|] eqn:Hn.
  - assert (Hlt : n < length (ur_stages u)) by (by eapply lookup_lt_Some).
    assert (Hspec : at_stage (UpdateStage n) u (after_round n u (stage_cluster_names st)) (m (w, u)).1);
      [|by eapply (update_round_ok n u st)].
    specialize (Hup (stage_cluster_names st)).
    assert (Hm : match m (w, u) with (s', _) => at_stage (UpdateStage n) u (after_round n u (stage_cluster_names st)) s' end);
      [|by destruct (m (w, u))].
    cut (match m (w, u) with
      | (s', Ok _) => at_stage (UpdateStage n) u (after_round n u (stage_cluster_names st)) s'
      | (s', _) => at_stage (UpdateStage n) u (after_round n u (stage_cluster_names st)) s' end);
      [by destruct (m (w, u)) as [s' []]|]. apply Hup.
    + intros ? [= <-]. unfold stage_cluster_names. by rewrite length_fmap.
    + intros u' Hf. rewrite (stageOfIndex_framed _ n _ _ Hf). by rewrite decide_True.
    + split; [apply framed_refl|]. exists st. split; [done|]. by apply stands_live.
  - apply lookup_ge_None in Hn. destruct Hu as [Hg Hst]. assert (n = length (ur_stages u)) as -> by (destruct Hst; lia).
    apply delete_round_ok; [done|]. apply Hdel.
    + intros u' Hf. rewrite (stageOfIndex_framed _ _ _ _ Hf). by rewrite decide_False by lia.
    + split; [apply framed_refl|]. cbn. destruct (urs_DeletionStageStatus (ur_status u)) as [d|] eqn:Hdl; [|done].
      exists d. split; [done|]. by apply Hg.
Qed.

Lemma execute_round n u w bindings deleted :
  stands n u -> urs_DeletionStageStatus (ur_status u) <> None ->
  round_ok n u (execute (W := W) now aggregateMessage (Z.of_nat n) bindings deleted (w, u)).1.2.
Proof.
  intros Hu Hd. apply round_of_specs; [done|done| |].
  - intros names Hn Hidx. eapply triple_conseq; [by apply (execute_update_spec n u names)|done|done|].
    intros s H. eapply at_stage_impl; [exact H|]. by left.
  - apply execute_delete_keeps.
Qed.

Lemma stop_round n u w bindings deleted :
  stands n u -> urs_DeletionStageStatus (ur_status u) <> None ->
  round_ok n u (stop (W := W) now aggregateMessage (Z.of_nat n) bindings deleted (w, u)).1.2.
Proof.
  intros Hu Hd. apply round_of_specs; [done|done| |].
  - intros names Hn Hidx. eapply triple_conseq; [by apply (stop_update_spec n u names)|done| |].
    + intros a s H. eapply at_stage_impl; [exact H|]. by left.
    + intros s H. eapply at_stage_impl; [exact H|]. by left.
  - apply stop_delete_keeps.
Qed.

End Rounds.
