(* ===== verification/UpdateRunSafety.v ===== *)
(** * Staged update runs: the stored runs

    The validation finds the frontier of a run again, the initialization puts a
    run at its first stage, and so every run that the controller writes to the
    hub stands at some stage, whatever the hub answers and whatever the user
    changes in the specification of the run in between. *)

From stdpp Require Import prelude gmap strings.
From S2P Require Import Prelude K8s Api Utils Defaulter FrameworkUtils Hub Overrider Rollout UpdateRunApi UpdateRunExec UpdateRun UpdateRunProofs.

Local Open Scope string_scope.
Local Open Scope list_scope.

(** ** Loops *)

Lemma ofold_lookup {A B} (I : nat -> B -> Prop) (f : B -> A -> outcome B) xs b b' :
  (forall k x b b', xs !! k = Some x -> I k b -> f b x = Ok b' -> I (S k) b') ->
  I 0 b -> ofold f b xs = Ok b' -> I (length xs) b'.
Proof.
  revert I b. induction xs as [|x xs IH]; intros I b Hf Hb; cbn; [by intros [= <-]|].
  destruct (f b x) as [b1|e|p] eqn:Hx; [|done..]. cbn. apply (IH (fun k => I (S k))); [|by eapply (Hf 0)].
  intros k y c c' Hy. by apply (Hf (S k) y).
Qed.

(** ** Validation *)

Section Validation.
Context {K : K8sLib} {L : K8sLaws K}.
Variables (n : nat) (u copy : UpdateRunObj).
Hypothesis Hu : stands n u.
Hypothesis Hgen : ur_generation copy = ur_generation u.
Hypothesis Hdelete : urs_DeletionStageStatus (ur_status copy) = urs_DeletionStageStatus (ur_status u).

(** The indices that the loop over the stages computes. *)
Definition expected (k : nat) (acc : Z * Z) : Prop :=
  if decide (k <= n) then acc = (-1, Z.of_nat k - 1)%Z
  else acc = (Z.of_nat n, Z.of_nat n - 1)%Z \/ acc = (-1, Z.of_nat n - 1)%Z.

Lemma expected_step k s mc acc acc' :
  ur_stages u !! k = Some s -> expected k acc ->
  validateClusterUpdatingStatus (ur_generation u) (Z.of_nat k) acc.1 acc.2 s mc = Ok acc' -> expected (S k) acc'.
Proof.
  intros Hk Hacc. destruct Hu as [[Hg _] [Hle Hb Ha Hc _]].
  assert (Hgs : stage_at_gen (ur_generation u) s) by (by eapply Forall_lookup in Hg).
  unfold validateClusterUpdatingStatus, stage_condition. rewrite true_at_gen by apply Hgs. fold (s_done s).
  unfold expected in *. destruct (Nat.lt_trichotomy k n) as [Hkn|[->|Hkn]].
  - destruct (Hb k s Hk Hkn) as (Hdone & _). rewrite Hdone. rewrite decide_True in Hacc by lia. rewrite decide_True by lia. subst acc. cbn [fst snd].
    cbn. destruct (list_find _ _) as [[]|]; [done|]. destruct (negb _); [done|]. intros [= <-]. f_equal. lia.
  - destruct (Ha s Hk) as (Hdone & _). rewrite Hdone. rewrite decide_True in Hacc by lia. rewrite decide_False by lia. subst acc. cbn [fst snd].
    destruct (IsConditionStatusFalse _ _); [done|]. destruct (FindStatusCondition _ StageUpdatingConditionProgressing); [|intros [= <-]; by right].
    cbn. destruct (negb _); [done|]. destruct (mc <? _)%Z; [done|]. intros [= <-]. by left.
  - destruct (Hc k s Hk Hkn) as [Hn _]. unfold s_done. rewrite Hn, !Find_nil. cbn. intros [= <-].
    rewrite decide_False in Hacc by lia. rewrite decide_False by lia. by destruct acc.
Qed.

Lemma validateUpdateStagesStatus_expected acc :
  validateUpdateStagesStatus (ur_stages u) copy = Ok acc -> expected (length (ur_stages u)) acc.
Proof.
  unfold validateUpdateStagesStatus. destruct (decide _); [done|]. intros Hf.
  rewrite <-(length_imap pair (ur_stages u)).
  eapply (ofold_lookup expected _ _ _ _ _ _ Hf).
  Unshelve. 2: { unfold expected. by rewrite decide_True by lia. }
  intros k [k' s] b b' Hk Hb. rewrite list_lookup_imap in Hk. apply fmap_Some in Hk as (s' & Hs & [= -> ->]).
  unfold validateUpdateStage. destruct (ur_stages copy !! k); [|done]. destruct (decide _); [done|]. destruct (decide _); [done|].
  destruct (list_find _ _) as [[? []]|]; [done|]. destruct (calculateMaxConcurrencyValue _ _); [|done..].
  rewrite Hgen. by apply expected_step.
Qed.

(** The validation finds the frontier: [-1] stands for a run that is complete. *)
Lemma validateStagesStatus_frontier deleted idx :
  validateStagesStatus u copy deleted = Ok idx ->
  urs_DeletionStageStatus (ur_status u) <> None /\
  (idx = Z.of_nat n \/ idx = (-1)%Z /\ n = length (ur_stages u) /\
     exists d, urs_DeletionStageStatus (ur_status u) = Some d /\ s_done d = true).
Proof.
  unfold validateStagesStatus. destruct (ur_stages u) as [|s0 ss] eqn:Hss; [done|]. rewrite <-Hss. clear s0 ss Hss.
  intros ((a & b) & Hv & Hd)%obind_Ok. apply validateUpdateStagesStatus_expected in Hv.
  unfold validateDeleteStageStatus in Hd. rewrite Hgen, Hdelete in Hd.
  destruct (urs_DeletionStageStatus (ur_status u)) as [d|] eqn:Hdel; [|done]. split; [done|].
  destruct (list_find _ _) as [[]|]; [done|]. destruct Hu as [[_ Hg] [Hle _ _ _ _]]. specialize (Hg d Hdel).
  unfold expected in Hv. destruct (decide (length (ur_stages u) <= n)) as [Hn|Hn].
  - injection Hv as -> ->. assert (Hlen : n = length (ur_stages u)) by lia. cbn in Hd. unfold llen in Hd.
    destruct (Z.ltb_spec (Z.of_nat (length (ur_stages u)) - 1) (Z.of_nat (length (ur_stages u)) - 1)); [lia|].
    unfold stage_condition in Hd. rewrite true_at_gen in Hd by apply Hg. fold (s_done d) in Hd.
    destruct (s_done d) eqn:Hdone; [injection Hd as <-; right; eauto|].
    destruct (IsConditionStatusFalse _ _); [done|]. injection Hd as <-. left. by rewrite <-Hlen.
  - left. assert (Hlt : n < length (ur_stages u)) by lia. unfold llen in Hd.
    destruct Hv as [[= -> ->] | [= -> ->]].
    + destruct (Z.eqb_spec (Z.of_nat n) (-1)); [lia|]. cbn in Hd. destruct (_ || _); [done|]. by injection Hd as <-.
    + cbn in Hd. destruct (Z.ltb_spec (Z.of_nat n - 1) (Z.of_nat (length (ur_stages u)) - 1)); [|lia].
      destruct (_ || _); [done|]. injection Hd as <-. lia.
Qed.

End Validation.

(** ** Observed calls *)

(** The update run is written to the hub, or is refreshed by an answer of the hub. *)
Inductive uevent : Type :=
| WroteRun (u : UpdateRunObj)
| ReadRun (u : UpdateRunObj)
| WroteBinding (b : BindingObj)
| RemovedBinding (b : BindingObj).

#[local] Arguments record : simpl never.

(** What the answers of the hub say: an update answers with the object that was
    sent, up to what the server sets in its metadata. *)
Class UpdateRunLaws (W : Type) {C : HubClient W} {UC : UpdateRunClient W} : Prop := {
  binding_answer b w b' : (hub_update_binding b w).2 = (b', None) -> b_target b' = b_target b;
  status_answer u w u' e :
    (hub_update_updaterun_status u w).2 = (u', e) ->
    ur_status u' = ur_status u /\ ur_spec u' = ur_spec u /\ ur_generation u' = ur_generation u;
}.

Section Traced.
Context {W : Type}.
Notation T := (W * list uevent)%type.

Definition logs {A} (e : uevent) (f : W -> W * A) : T -> T * A := record (fun _ => [e]) f.
Definition silent {A} (f : W -> W * A) : T -> T * A := record (fun _ => []) f.

#[export] Instance run_traced_hub {C : HubClient W} : HubClient T := {
  hub_list_clusters := silent hub_list_clusters;
  hub_list_bindings ns name := silent (hub_list_bindings ns name);
  hub_create_binding b := silent (hub_create_binding b);
  hub_update_binding b := logs (WroteBinding b) (hub_update_binding b);
  hub_update_binding_status b := logs (WroteBinding b) (hub_update_binding_status b);
  hub_get_binding b := silent (hub_get_binding b);
  hub_patch_binding p := silent (hub_patch_binding p);
  hub_delete_binding b := logs (RemovedBinding b) (hub_delete_binding b);
  hub_update_snapshot_status s := silent (hub_update_snapshot_status s);
  OnError S := OnError (W := W);
}.

#[export] Instance run_traced_placements {P : PlacementReader W} : PlacementReader T := {
  hub_get_placement ns name := silent (hub_get_placement ns name);
}.

#[export] Instance run_traced_policies {PS : PolicySnapshotReader W} : PolicySnapshotReader T := {
  hub_list_policy_snapshots ns ls := silent (hub_list_policy_snapshots ns ls);
}.

#[export] Instance run_traced_snapshots {SR : SnapshotReader W} : SnapshotReader T := {
  hub_get_cluster name := silent (hub_get_cluster name);
  hub_list_resource_snapshots ns ls := silent (hub_list_resource_snapshots ns ls);
  hub_list_cros ls := silent (hub_list_cros ls);
  hub_list_ros ls := silent (hub_list_ros ls);
}.

#[export] Instance run_traced_client {UC : UpdateRunClient W} : UpdateRunClient T := {
  hub_get_updaterun ns name := silent (hub_get_updaterun ns name);
  hub_update_updaterun u := record (fun a => match a with (v, None) => [ReadRun v] | _ => [] end) (hub_update_updaterun u);
  hub_update_updaterun_status u := logs (WroteRun u) (hub_update_updaterun_status u);
  hub_get_strategy ns name := silent (hub_get_strategy ns name);
  hub_list_clusters_matching ls := silent (hub_list_clusters_matching ls);
  hub_create_approval r := silent (hub_create_approval r);
  hub_get_approval ns name := silent (hub_get_approval ns name);
  hub_update_approval_status r := silent (hub_update_approval_status r);
  hub_delete_approvals ns ls := silent (hub_delete_approvals ns ls);
}.

#[export] Instance run_traced_resolver {SRes : SnapshotResolver W} : SnapshotResolver T := {
  SelectResourcesForPlacement p := silent (SelectResourcesForPlacement p);
  GetOrCreateResourceSnapshot p n rs l := silent (GetOrCreateResourceSnapshot p n rs l);
}.

(** The events so far are as they should be, and one more event keeps them so. *)
Variable good : list uevent -> Prop.
Definition all_fine (w : T) : Prop := good w.2.
Definition fine (e : uevent) : Prop := forall tr, good tr -> good (tr ++ [e]).

Lemma silent_fine {A} (f : W -> W * A) w : all_fine w -> all_fine (silent f w).1.
Proof. destruct w as [w tr]. unfold silent. rewrite record_run. unfold all_fine. cbn. by rewrite app_nil_r. Qed.

Lemma logs_fine {A} e (f : W -> W * A) w : fine e -> all_fine w -> all_fine (logs e f w).1.
Proof. destruct w as [w tr]. intros He Hw. unfold logs. rewrite record_run. by apply He. Qed.

Lemma silent_keeps {A} (f : hub W A) : preserves all_fine (silent f).
Proof. intros w. apply silent_fine. Qed.

End Traced.

(** Goes through a computation whose steps keep a property. *)
Ltac keeping lemmas :=
  repeat first
    [ apply preserves_ret | apply preserves_lift | apply preserves_map_err | apply silent_keeps
    | lemmas
    | apply preserves_bind; [|intros ?]
    | match goal with
      | |- preserves _ (match ?x with _ => _ end) => destruct x
      | |- preserves _ (let (_, _) := ?x in _) => destruct x
      end ].

Section Silent.
Context {K : K8sLib} {M : ManifestLib} {W : Type} {C : HubClient W} {P : PlacementReader W}.
Context {PS : PolicySnapshotReader W} {SR : SnapshotReader W} {UC : UpdateRunClient W} {SRes : SnapshotResolver W}.
Variables (now : Z) (mapOrder : forall A : Type, list (string * A) -> list (string * A)).
Variable aggregateMessage : list string -> string.
Variable good : list uevent -> Prop.
Notation T := (W * list uevent)%type.
Notation state := (T * UpdateRunObj)%type.

(** On the hub. *)
Notation Fine := (all_fine (W := W) good).
Notation fine := (fine good).
(** With a run in memory. *)
Definition all_fine_run (s : state) : Prop := Fine s.1.

Lemma fine_onHub {A} (m : hub T A) : preserves Fine m -> preserves all_fine_run (onHub m).
Proof. intros Hm s Hs. unfold all_fine_run. rewrite onHub_run. cbn. by apply Hm. Qed.

Lemma fine_theRun : preserves all_fine_run theRun.
Proof. by intros s Hs. Qed.

Lemma fine_change f : preserves all_fine_run (change f).
Proof. by intros s Hs. Qed.

Lemma fine_herr (m : T -> T * option goerr) : (forall w, Fine w -> Fine (m w).1) -> preserves Fine (herr m).
Proof. intros Hm. by apply preserves_herr. Qed.

Lemma fine_overrides key master : preserves Fine (FetchAllMatchingOverridesForResourceSnapshot (W := T) mapOrder key master).
Proof.
  unfold FetchAllMatchingOverridesForResourceSnapshot, matchOverrides, FetchAllResourceSnapshotsAlongWithMaster,
    ListAllResourceSnapshotWithAnIndex. cbn. keeping fail.
Qed.

Lemma fine_pick name cro ro : preserves Fine (PickFromResourceMatchedOverridesForTargetCluster (W := T) name cro ro).
Proof. unfold PickFromResourceMatchedOverridesForTargetCluster. cbn. keeping fail. Qed.

Ltac fine_run := keeping ltac:(first
  [ apply fine_theRun | apply fine_change | apply fine_overrides | apply fine_pick | apply fine_onHub
  | apply run_preserves_hfold; intros ? ? | apply fine_herr; intros ?; apply silent_fine ]).

Lemma fine_getStage r : preserves all_fine_run (getStage r).
Proof. unfold getStage. fine_run. Qed.

Lemma fine_getTask t : preserves all_fine_run (getTask t).
Proof. unfold getTask, getStage. fine_run. Qed.

Lemma fine_getStrategy : preserves all_fine_run getStrategy.
Proof. unfold getStrategy. fine_run. Qed.

Lemma fine_getStageConfig i : preserves all_fine_run (getStageConfig i).
Proof. unfold getStageConfig, getStrategy. fine_run. Qed.

Lemma fine_approval t name type : preserves all_fine_run (handleStageApprovalTask now t name type).
Proof.
  unfold handleStageApprovalTask. apply preserves_bind; [apply fine_theRun|]. intros u.
  apply preserves_bind; [apply fine_getTask|]. intros task. destruct (task_approved _ task); [apply preserves_ret|].
  intros s Hs. pose proof (silent_fine good (hub_create_approval (W := W)
    (buildApprovalRequestObject (ts_ApprovalRequestName task) (ur_namespace u) name (ur_name u) type)) s.1 Hs) as Hw.
  cbn [hub_create_approval run_traced_client]. destruct (silent _ s.1) as [w [e|]]; cbn in Hw; [|exact Hw].
  destruct (has_reason AlreadyExists e); [|exact Hw].
  revert Hw. change (all_fine_run (w, s.2) -> all_fine_run (checkApprovalRequest now t (ts_ApprovalRequestName task) name (w, s.2)).1).
  generalize (w, s.2). change (preserves all_fine_run (checkApprovalRequest now t (ts_ApprovalRequestName task) name)).
  unfold checkApprovalRequest, updateApprovalRequestAccepted. cbn. fine_run.
Qed.

Lemma fine_before r tasks : preserves all_fine_run (checkBeforeStageTasksStatus now r tasks).
Proof. destruct tasks; cbn; [apply preserves_ret|]. keeping ltac:(first [apply fine_getStage | apply fine_approval]). Qed.

Lemma fine_after i : preserves all_fine_run (checkAfterStageTasksStatus now i).
Proof.
  unfold checkAfterStageTasksStatus, checkAfterStageTask, markTask.
  keeping ltac:(first [apply fine_getStageConfig | apply run_preserves_hfold; intros ? ? | apply fine_getStage | apply fine_getTask
    | apply fine_approval | apply fine_change]).
Qed.

Lemma fine_completion i : preserves all_fine_run (handleStageCompletion now i).
Proof.
  unfold handleStageCompletion, markStage. keeping ltac:(first [apply fine_getStage | apply fine_after | apply fine_change]).
Qed.

(** *** The calls that matter *)

Lemma fine_updateBinding b : fine (WroteBinding b) -> preserves Fine (updateBinding (W := T) b).
Proof.
  intros Hb w Hw. unfold updateBinding. cbn. pose proof (logs_fine good _ (hub_update_binding b) w Hb Hw) as H.
  by destruct (logs _ _ w) as [w' [b' [e|]]].
Qed.

Lemma fine_rolloutStarted u b :
  (forall b', b_target b' = b_target b -> fine (WroteBinding b')) ->
  preserves Fine (updateBindingRolloutStarted (W := T) now u b).
Proof.
  intros Hb w Hw. unfold updateBindingRolloutStarted. cbn.
  match goal with |- context [logs (WroteBinding ?x)] => pose proof (logs_fine good _ (hub_update_binding_status x) w (Hb x eq_refl) Hw) as H end.
  by destruct (logs _ _ w) as [w' [b' [e|]]].
Qed.

Context {UL : UpdateRunLaws W}.

Lemma updateBinding_target b w w' b' : updateBinding (W := T) b w = (w', Ok b') -> b_target b' = b_target b.
Proof.
  unfold updateBinding. cbn. destruct w as [w tr]. unfold logs. rewrite record_run.
  destruct ((hub_update_binding b w).2) as [b1 [e|]] eqn:Hb; [done|]. intros [= _ <-]. by eapply binding_answer.
Qed.

Lemma fine_startCluster snap name u b c :
  (forall b', b_target b' = b_target b -> fine (WroteBinding b')) ->
  preserves Fine (startCluster (W := T) now snap name u b c).
Proof.
  intros Hb. assert (Hup : forall spec, rbs_TargetCluster spec = b_target b ->
    preserves Fine (let* binding := updateBinding (W := T) (set_b_spec spec b) in
      let* _ := updateBindingRolloutStarted now u binding in hret c)).
  { intros spec Hspec w Hw. unfold hbind at 1.
    pose proof (fine_updateBinding (set_b_spec spec b) (Hb (set_b_spec spec b) Hspec) w Hw) as H1.
    destruct (updateBinding (set_b_spec spec b) w) as [w1 [b1|e|x]] eqn:Hu; [|done..].
    apply updateBinding_target in Hu. revert w1 H1 Hu. intros w1 H1 Hu. cbn in H1.
    apply (preserves_bind Fine (fun _ => hret c) (updateBindingRolloutStarted now u b1)); [|intros _; apply preserves_ret|done].
    apply fine_rolloutStarted. intros b' Hb'. apply Hb. rewrite Hb', Hu. exact Hspec. }
  unfold startCluster. destruct (negb _); [by apply Hup|]. destruct (decide _); [by apply Hup|].
  destruct (negb _); [|keeping fail]. apply preserves_bind; [|intros _; apply preserves_ret]. by apply fine_rolloutStarted.
Qed.

Lemma fine_executeCluster snap name u bindings c :
  (forall b b', bindings !! cus_ClusterName c = Some b -> b_target b' = b_target b -> fine (WroteBinding b')) ->
  preserves Fine (executeCluster (W := T) now snap name u bindings c).
Proof.
  intros Hb. unfold executeCluster. destruct (cluster_succeeded _ c); [apply preserves_ret|].
  destruct (cluster_failed _ c); [apply preserves_ret|]. destruct (bindings !! cus_ClusterName c) as [b|]; [|apply preserves_ret].
  destruct (negb (cluster_started _ c)); [|destruct (_ || _); apply preserves_ret].
  intros w Hw. pose proof (fine_startCluster snap name u b c (fun b' => Hb b b' eq_refl) w Hw) as H.
  by destruct (startCluster now snap name u b c w) as [w1 [c1|e|x]].
Qed.

Lemma fine_executeClusters (body : ClusterUpdatingStatus -> hub T clusterStep) mc cs p :
  (forall c, c ∈ cs -> preserves Fine (body c)) -> preserves Fine (executeClusters body mc cs p).
Proof.
  revert p. induction cs as [|c cs IH]; intros p Hb; cbn; [apply preserves_ret|].
  destruct (_ <? _)%Z; [|apply preserves_ret]. apply preserves_bind; [apply Hb; left|]. intros s.
  apply preserves_bind; [apply IH; intros c' Hc'; apply Hb; by right|]. intros [rest p']. apply preserves_ret.
Qed.

Lemma bindingsByCluster_target bs name b : bindingsByCluster bs !! name = Some b -> b ∈ bs /\ b_target b = name.
Proof.
  unfold bindingsByCluster. assert (H : forall m : gmap string BindingObj,
    fold_left (fun m b => <[b_target b := b]> m) bs m !! name = Some b -> b ∈ bs /\ b_target b = name \/ m !! name = Some b).
  { induction bs as [|b0 bs IH]; intros m; cbn; [by right|]. intros [[Hin Ht]|Hm]%IH; [left; split; [by right|done]|].
    apply lookup_insert_Some in Hm as [[Ht ->]|[_ Hm]]; [left; split; [left|done]|by right]. }
  intros Hx. apply H in Hx as [?|Hx]; [done|]. by rewrite lookup_empty in Hx.
Qed.

(** The bindings that a round writes are those of the clusters of the stage. *)
Lemma fine_executeUpdatingStage i bindings mc (s : state) st :
  stage_at (UpdateStage i) s.2 = Some st ->
  (forall b, b_target b ∈ stage_cluster_names st -> fine (WroteBinding b)) ->
  all_fine_run s -> all_fine_run (executeUpdatingStage now aggregateMessage i bindings mc s).1.
Proof.
  intros Hst Hb Hs. unfold executeUpdatingStage, theRun. rewrite (hbind_run _ _ s s s.2) by done.
  rewrite (hbind_run _ _ _ _ _ (getStage_run (UpdateStage i) s st Hst)).
  match goal with |- all_fine_run (hbind ?f ?m s).1 => apply (preserves_bind all_fine_run f m); [| |exact Hs] end.
  - apply fine_onHub, fine_executeClusters. intros c Hc. apply fine_executeCluster. intros b b' [_ Ht]%bindingsByCluster_target Hb'.
    apply Hb. rewrite Hb', Ht. apply list_elem_of_fmap. eauto.
  - intros [cs p]. unfold markStage. keeping ltac:(first [apply fine_change | apply fine_completion]).
Qed.

(** *** Rounds *)

Section Rounds.
Context {L : K8sLaws K}.
Variables (u0 : UpdateRunObj) (n : nat) (names : list string).
Notation g := (ur_generation u0).
Notation r := (UpdateStage n).

Definition named (st : StageUpdatingStatus) : Prop := stage_cluster_names st = names /\ stage_at_gen g st.

(** In the stage with these clusters, with all the events in order. *)
Definition in_stage (s : state) : Prop := at_stage r u0 named s /\ all_fine_run s.

Lemma in_stage_keeps {A} (m : hub state A) :
  preserves (at_stage r u0 named) m -> preserves all_fine_run m -> preserves in_stage m.
Proof. intros H1 H2 s [Hs1 Hs2]. split; [by apply H1|by apply H2]. Qed.

Lemma in_stage_last {A B} (m : hub state A) (f : A -> hub state B) s :
  preserves in_stage m -> (forall a s, in_stage s -> all_fine_run (f a s).1) -> in_stage s -> all_fine_run (hbind f m s).1.
Proof.
  intros Hm Hf Hs. unfold hbind. specialize (Hm s Hs). destruct (m s) as [s' [a|e|x]]; [by apply Hf|by destruct Hm..].
Qed.

Hypothesis names_fine : forall b, b_target b ∈ names -> fine (WroteBinding b).

Lemma named_task_stable : task_stable now g named.
Proof.
  intros before k type reason message st [Hn Hg]. split; [|by apply mark_task_at_gen].
  unfold mark_task_at. by destruct before.
Qed.

Lemma named_before tasks : preserves (at_stage r u0 named) (checkBeforeStageTasksStatus (W := T) now r tasks).
Proof.
  apply triple_preserves. eapply triple_conseq; [apply (checkBeforeStageTasksStatus_spec now u0 named)|done| |done].
  - apply named_task_stable.
  - by intros st [].
  - intros ok s H. eapply at_stage_impl; [exact H|]. by intros st [].
Qed.

Lemma fine_executeStage bindings s :
  in_stage s -> all_fine_run (executeStage now aggregateMessage n bindings s).1.
Proof.
  intros Hs. unfold executeStage.
  assert (Hsame : forall A (m : hub state A), (forall s, (m s).1 = s) -> preserves in_stage m) by (intros A m Hm s' Hs'; by rewrite Hm).
  apply in_stage_last; [| |exact Hs].
  { apply Hsame. intros s'. unfold getStage, hbind, theRun. by destruct (stage_at _ _). }
  clear s Hs. intros st s Hs. apply in_stage_last; [| |exact Hs].
  { apply Hsame. intros s'. destruct (getStageConfig_run n s') as (res & Hr & _). by rewrite Hr. }
  clear s Hs. intros cfg s Hs. apply in_stage_last; [| |exact Hs].
  { apply in_stage_keeps; [apply named_before|apply fine_before]. }
  clear s Hs. intros [|] s Hs; cbn [negb]; [|apply Hs].
  unfold theRun. rewrite (hbind_run _ _ s s s.2) by done. apply in_stage_last; [by apply preserves_map_err, preserves_lift| |exact Hs].
  clear s Hs. intros mc s [[_ (st' & Hst & Hn & _)] Hs]. unfold hbind.
  pose proof (fine_executeUpdatingStage n bindings mc s st' Hst) as H. rewrite Hn in H. specialize (H names_fine Hs).
  by destruct (executeUpdatingStage now aggregateMessage n bindings mc s) as [s' [a|e|x]].
Qed.

Lemma fine_aborted {A} r' (m : hub state A) s :
  all_fine_run (m s).1 -> all_fine_run (checkIfErrorStagedUpdateAborted now r' m s).1.
Proof.
  unfold checkIfErrorStagedUpdateAborted. destruct (m s) as [s' [a|e|x]]; [done| |done]. by destruct (isAborted e).
Qed.

Lemma fine_execute_update idx bindings deleted s :
  (forall u, framed r u0 u -> stageOfIndex idx u = r) -> in_stage s ->
  all_fine_run (execute now aggregateMessage idx bindings deleted s).1.
Proof.
  intros Hidx Hs. unfold execute, theRun. rewrite (hbind_run _ _ s s s.2) by done. rewrite Hidx by (apply Hs).
  apply fine_aborted. apply in_stage_last; [|intros [] s1 Hs1|exact Hs].
  { apply in_stage_keeps; [apply at_stage_change, progressing_leaves|apply fine_change]. }
  clear s Hs. apply in_stage_last; [| |exact Hs1].
  { intros s' Hs'. unfold getStage, hbind, theRun. by destruct (stage_at _ _). }
  intros st s Hs. destruct (sus_Clusters st); [apply Hs|by apply fine_executeStage].
Qed.

End Rounds.

(** The delete stage removes the bindings it is given. *)
Lemma fine_deleteBinding sm acc b :
  fine (RemovedBinding b) -> preserves all_fine_run (deleteBinding (W := T) now sm acc b).
Proof.
  intros Hb. unfold deleteBinding. destruct (sm !! b_target b); [|apply preserves_ret].
  apply preserves_bind; [|intros _; apply fine_change]. apply preserves_map_err, fine_onHub, fine_herr. intros w. by apply logs_fine.
Qed.

Lemma fine_hfold {A B} (f : B -> A -> hub state B) b xs :
  (forall b x, x ∈ xs -> preserves all_fine_run (f b x)) -> preserves all_fine_run (hfold f b xs).
Proof.
  revert b. induction xs as [|x xs IH]; intros b Hf; cbn; [apply preserves_ret|].
  apply preserves_bind; [apply Hf; left|]. intros b'. apply IH. intros b2 y Hy. apply Hf. by right.
Qed.

Lemma fine_sync deleted : preserves all_fine_run (syncDeleteStageClusterStatuses now deleted).
Proof. unfold syncDeleteStageClusterStatuses, getDeleteStage. keeping ltac:(first [apply fine_theRun | apply fine_getStage | apply fine_change]). Qed.

Lemma fine_executeDeleteStage deleted :
  (forall b, b ∈ deleted -> fine (RemovedBinding b)) -> preserves all_fine_run (executeDeleteStage now deleted).
Proof.
  intros Hd. unfold executeDeleteStage, checkBeforeDeleteStageTasksStatus, getDeleteStage, markStage.
  keeping ltac:(first [apply fine_getStrategy | apply fine_getStage | apply fine_before | apply fine_change | apply fine_sync
    | apply fine_hfold; intros ? ? ?; apply fine_deleteBinding; by apply Hd ]).
Qed.

Lemma fine_execute_delete idx bindings deleted s :
  stageOfIndex idx s.2 = DeleteStage -> (forall b, b ∈ deleted -> fine (RemovedBinding b)) ->
  all_fine_run s -> all_fine_run (execute now aggregateMessage idx bindings deleted s).1.
Proof.
  intros Hidx Hd Hs. unfold execute, theRun. rewrite (hbind_run _ _ s s s.2) by done. rewrite Hidx. apply fine_aborted.
  match goal with |- all_fine_run (hbind ?f ?m s).1 => apply (preserves_bind all_fine_run f m); [apply fine_change| |exact Hs] end.
  intros _. by apply fine_executeDeleteStage.
Qed.

Lemma fine_stop idx bindings deleted : preserves all_fine_run (stop now aggregateMessage idx bindings deleted).
Proof.
  intros s Hs. unfold stop, theRun. rewrite (hbind_run _ _ s s s.2) by done. apply fine_aborted. revert s Hs.
  intros s Hs. destruct (stageOfIndex idx s.2) as [i|]; revert s Hs; unfold stopUpdatingStage, stopDeleteStage, getDeleteStage, markStage.
  all: keeping ltac:(first [apply fine_theRun | apply fine_getStage | apply fine_change | apply fine_sync]).
Qed.

End Silent.

(** ** Validation and initialization of a run *)

(** What a computation answers. *)
Definition answers {S A} (Q : A -> Prop) (m : hub S A) : Prop := forall s a, (m s).2 = Ok a -> Q a.

Lemma answers_bind {S A B} (R : A -> Prop) (Q : B -> Prop) (m : hub S A) (f : A -> hub S B) :
  answers R m -> (forall a, R a -> answers Q (f a)) -> answers Q (hbind f m).
Proof.
  intros Hm Hf s b. unfold hbind. specialize (Hm s). destruct (m s) as [s' [a|e|x]]; [|done..]. apply Hf. by apply Hm.
Qed.

Lemma answers_any {S A} (m : hub S A) : answers (fun _ => True) m.
Proof. done. Qed.

Lemma answers_ret {S A} (Q : A -> Prop) (a : A) : Q a -> answers Q (hret (W := S) a).
Proof. by intros HQ s b [= <-]. Qed.

Lemma answers_lift {S A} (Q : A -> Prop) (m : outcome A) : (forall a, m = Ok a -> Q a) -> answers Q (hlift (W := S) m).
Proof. intros HQ s a Ha. by apply HQ. Qed.

Section Prepare.
Context {K : K8sLib} {L : K8sLaws K} {M : ManifestLib} {W : Type} {C : HubClient W} {P : PlacementReader W}.
Context {PS : PolicySnapshotReader W} {SR : SnapshotReader W} {UC : UpdateRunClient W} {SRes : SnapshotResolver W}.
Context {UL : UpdateRunLaws W}.
Variables (now : Z) (mapOrder : forall A : Type, list (string * A) -> list (string * A)).
Notation state := (W * UpdateRunObj)%type.

Notation unscheduled := (Forall (fun b => b_state b = BindingStateUnscheduled)).

Lemma collectScheduledClusters_deleted key policy :
  answers (fun a : list BindingObj * list BindingObj => unscheduled a.2) (collectScheduledClusters (W := W) key policy).
Proof.
  unfold collectScheduledClusters. eapply answers_bind; [apply answers_any|]. intros bs _.
  eapply (answers_bind (fun a => unscheduled a.2)).
  - apply answers_lift. intros a Ha. eapply (ofold_lookup (fun _ a => unscheduled a.2) _ _ _ _ _ _ Ha).
    Unshelve. 2: by constructor.
    intros k b [sel del] acc' _ Hdel. unfold collectBinding. destruct (decide _) as [Hb|]; [intros [= <-]|].
    + apply Forall_app. split; [done|]. by constructor.
    + destruct (decide _); [|done]. by intros [= <-].
  - intros [sel del] Hdel. destruct sel, del; [by apply answers_lift|..].
    all: eapply answers_bind; [apply answers_any|]; intros u _; cbn.
    all: destruct (_ =? -1)%Z; [eapply answers_bind; [apply answers_any|]; intros _ _; by apply answers_ret|].
    all: destruct (_ =? _)%Z; [by apply answers_ret|by apply answers_lift].
Qed.

Lemma validateOnCopy_deleted u :
  answers (fun a : list BindingObj * list BindingObj => unscheduled a.2) (validateOnCopy (W := W) u).
Proof.
  unfold validateOnCopy. eapply answers_bind; [apply answers_any|]. intros [pl key] _.
  eapply answers_bind; [apply answers_any|]. intros copy _. destruct (decide _); [by apply answers_lift|].
  eapply answers_bind; [apply answers_any|]. intros [policy count] _.
  eapply answers_bind; [apply answers_any|]. intros copy' _. destruct (decide _); [by apply answers_lift|].
  destruct (negb _ && _); [by apply answers_lift|].
  eapply answers_bind; [apply collectScheduledClusters_deleted|]. intros [sel del] Hdel.
  destruct (urs_UpdateStrategySnapshot _); [|by apply answers_lift].
  eapply answers_bind; [apply answers_any|]. intros _ _. by apply answers_ret.
Qed.

(** *** The copy *)

(** The copy keeps what the validation of the stages reads of the run. *)
Definition copied (u copy : UpdateRunObj) : Prop :=
  ur_meta copy = ur_meta u /\ urs_DeletionStageStatus (ur_status copy) = urs_DeletionStageStatus (ur_status u).

Lemma copied_change u f : (forall v, copied u v -> copied u (f v)) -> preserves (fun s : state => copied u s.2) (change f).
Proof. intros Hf s Hs. by apply Hf. Qed.

Ltac on_copy := keeping ltac:(first
  [ apply onHub_keeps | apply copied_change; intros ? [? ?]; by split | by intros ? ? ]).

Lemma validateOnCopy_copied u : preserves (fun s : state => copied u s.2) (validateOnCopy (W := W) u).
Proof.
  unfold validateOnCopy, validatePlacement, determinePolicySnapshot, collectScheduledClusters, computeRunStageStatus, getStrategy.
  on_copy.
Qed.

(** Validation leaves the run alone and finds its frontier. *)
Lemma validate_run (s : state) : (validate s).1.2 = s.2.
Proof.
  unfold validate. rewrite (hbind_run _ theRun s s s.2) by done. unfold hbind at 1, onCopy.
  destruct (validateOnCopy s.2 s) as [s' [[bs ds]|e|x]]; [|done..]. unfold hbind, hlift.
  by destruct (validateStagesStatus _ _ _).
Qed.

Lemma validate_frontier n (s : state) idx bs ds :
  stands n s.2 -> (validate s).2 = Ok (idx, bs, ds) ->
  unscheduled ds /\ urs_DeletionStageStatus (ur_status s.2) <> None /\
  (idx = Z.of_nat n \/ idx = (-1)%Z /\ n = length (ur_stages s.2)).
Proof.
  intros Hn. unfold validate. rewrite (hbind_run _ theRun s s s.2) by done. unfold hbind at 1, onCopy.
  pose proof (validateOnCopy_deleted s.2 s) as Hd. pose proof (validateOnCopy_copied s.2 s (conj eq_refl eq_refl)) as [Hm Hdel].
  destruct (validateOnCopy s.2 s) as [s' [[bs' ds']|e|x]]; [|done..]. cbn [fst snd] in *. specialize (Hd _ eq_refl).
  unfold hbind, hlift. destruct (validateStagesStatus s.2 s'.2 ds') as [i|e|x] eqn:Hv; [|done..].
  cbn. intros [= -> -> ->]. split; [done|].
  destruct (validateStagesStatus_frontier n s.2 s'.2 Hn) with (deleted := ds) (idx := idx) as [H1 H2]; try done.
  { unfold ur_generation. by rewrite Hm. }
  split; [done|]. destruct H2 as [?|(?&?&_)]; auto.
Qed.

End Prepare.
