(* ===== verification/UpdateRunStages.v ===== *)
(** * Staged update runs: the stages of a run

    The stages that the initialization computes are a partition of the
    clusters that the placement has selected, in the order that the strategy
    asks for. *)

From stdpp Require Import prelude gmap strings sorting.
From S2P Require Import Prelude K8s Api Utils Defaulter FrameworkUtils Hub Overrider Rollout UpdateRunApi UpdateRunExec UpdateRun UpdateRunProofs UpdateRunSafety.

Local Open Scope string_scope.
Local Open Scope list_scope.

(** ** The order within a stage *)

#[export] Instance stageClusterLess_GoLess {K : K8sLib} key : GoLess (stageClusterLess key).
Proof.
  destruct key as [key|]; [|exact (GoLess_key mc_name str_lt _)]. split; unfold stageClusterLess.
  - intros x y. set (lx := match sortingLabel key x with Ok v => v | _ => 0%Z end).
    set (ly := match sortingLabel key y with Ok v => v | _ => 0%Z end).
    destruct (Z.eqb_spec lx ly), (Z.eqb_spec ly lx); try lia. apply less_asym.
  - intros x y z. set (lx := match sortingLabel key x with Ok v => v | _ => 0%Z end).
    set (ly := match sortingLabel key y with Ok v => v | _ => 0%Z end).
    set (lz := match sortingLabel key z with Ok v => v | _ => 0%Z end).
    destruct (Z.eqb_spec lx ly), (Z.eqb_spec ly lz), (Z.eqb_spec lx lz); try lia. apply less_negtrans.
Qed.

Section Stages.
Context {K : K8sLib} {W : Type} {UC : UpdateRunClient W}.
Notation state := (W * UpdateRunObj)%type.

(** ** Placing the clusters of one stage *)

(** The clusters of the stage so far and those placed so far, where [before] were placed earlier. *)
Record placing (selected before : gset string) (acc : list MemberCluster * gset string) : Prop := {
  placing_nodup : NoDup (mc_name <$> acc.1);
  placing_new c : c ∈ acc.1 -> mc_name c ∉ before /\ mc_name c ∈ selected;
  placing_set : acc.2 = before ∪ list_to_set (mc_name <$> acc.1);
}.

Lemma placeCluster_placing stage selected before acc cluster acc' :
  placing selected before acc -> placeCluster stage selected acc cluster = Ok acc' -> placing selected before acc'.
Proof.
  intros [Hn Hnew Hset]. destruct acc as [cur placed]. cbn in *. unfold placeCluster.
  destruct (decide _) as [|Hsel]; [by intros [= <-]|]. destruct (decide _) as [|Hpl]; [done|].
  intros (u & _ & [= <-])%obind_Ok. subst placed. apply not_elem_of_union in Hpl as [Hb Hc]. rewrite elem_of_list_to_set in Hc.
  split; cbn.
  - rewrite fmap_app. apply NoDup_app. split_and!; [done| |by apply NoDup_singleton].
    intros x Hx Hx'. apply list_elem_of_singleton in Hx' as ->. done.
  - intros c [Hin| ->%list_elem_of_singleton]%elem_of_app; [by apply Hnew|]. split; [done|]. by destruct (decide (mc_name cluster ∈ selected)).
  - rewrite fmap_app, list_to_set_app_L. cbn. set_solver.
Qed.

Lemma placeClusters_placing stage selected before cs acc :
  ofold (placeCluster stage selected) ([], before) cs = Ok acc -> placing selected before acc.
Proof.
  intros H. apply (ofold_lookup (fun _ => placing selected before) _ _ _ _) in H; [done| |].
  - intros k x b b' _. apply placeCluster_placing.
  - split; cbn; [by constructor|by intros c Hc%not_elem_of_nil|set_solver].
Qed.

(** ** All the stages *)

Definition run_names (stages : list StageUpdatingStatus) : list string := concat (stage_cluster_names <$> stages).

(** The clusters of the stage, in the order that the strategy asks for. *)
Definition stage_follows (stage : StageConfig) (st : StageUpdatingStatus) : Prop :=
  sus_StageName st = stage_Name stage /\
  exists cs, stage_cluster_names st = mc_name <$> cs /\
    StronglySorted (ordered (stageClusterLess (stage_SortingLabelKey stage))) cs.

Record partition (selected : gset string) (stages : list StageConfig) (acc : list StageUpdatingStatus * gset string)
    : Prop := {
  partition_nodup : NoDup (run_names acc.1);
  partition_selected : acc.2 ⊆ selected;
  partition_set : acc.2 = list_to_set (run_names acc.1);
  partition_stages : Forall2 stage_follows stages acc.1;
}.

Lemma newStageStatus_names u stage cs : stage_cluster_names (newStageStatus u stage cs) = mc_name <$> cs.
Proof. unfold stage_cluster_names, newStageStatus. cbn. by rewrite <-list_fmap_compose. Qed.

Lemma newStage_partition u selected stages acc stage cs placed :
  partition selected stages acc -> placing selected acc.2 (cs, placed) ->
  partition selected (stages ++ [stage])
    (acc.1 ++ [newStageStatus u stage (go_sort (stageClusterLess (stage_SortingLabelKey stage)) cs)], placed).
Proof.
  intros [Hn Hsel Hset Hst] [Hn' Hnew Hset']. cbn [fst snd] in *.
  set (cs' := go_sort _ cs). assert (Hp : cs' ≡ₚ cs) by apply go_sort_perm.
  assert (Hnames : run_names (acc.1 ++ [newStageStatus u stage cs']) = run_names acc.1 ++ (mc_name <$> cs')).
  { unfold run_names. rewrite fmap_app, concat_app, list_fmap_singleton, newStageStatus_names. f_equal. apply app_nil_r. }
  split; cbn [fst snd].
  - rewrite Hnames. apply NoDup_app. split_and!; [done| |by rewrite Hp].
    intros x Hx (c & -> & Hc)%list_elem_of_fmap. rewrite Hp in Hc. apply Hnew in Hc as [Hc _]. apply Hc.
    rewrite Hset. by apply elem_of_list_to_set.
  - rewrite Hset'. apply union_subseteq. split; [done|]. intros x (c & -> & Hc)%elem_of_list_to_set%list_elem_of_fmap.
    by apply Hnew.
  - rewrite Hnames, list_to_set_app_L, Hset', Hset. f_equal. apply list_to_set_perm_L. by rewrite Hp.
  - apply Forall2_app; [done|]. constructor; [|constructor]. split; [done|]. exists cs'. split; [apply newStageStatus_names|].
    apply go_sort_sorted, _.
Qed.

Lemma computeStage_partition u selected stages acc stage :
  partition selected stages acc ->
  answers (partition selected (stages ++ [stage])) (computeStage (W := W) u selected acc stage).
Proof.
  destruct acc as [sts placed]. intros Hacc. unfold computeStage.
  do 4 (eapply answers_bind; [apply answers_any|]; intros ? _).
  eapply (answers_bind (placing selected placed)).
  - apply answers_lift. intros r. apply placeClusters_placing.
  - intros [cs placed'] Hcs. apply answers_ret. by apply (newStage_partition u selected stages (sts, placed)).
Qed.

Lemma answers_loop {S A B} (Q : list A -> B -> Prop) (f : B -> A -> hub S B) xs :
  (forall pre b x, Q pre b -> answers (Q (pre ++ [x])) (f b x)) ->
  forall pre b, Q pre b -> answers (Q (pre ++ xs)) (hfold f b xs).
Proof.
  intros Hf. induction xs as [|x xs IH]; intros pre b Hb; cbn; [rewrite app_nil_r; by apply answers_ret|].
  eapply answers_bind; [by apply Hf|]. intros b' Hb'. replace (pre ++ x :: xs) with ((pre ++ [x]) ++ xs) by (by rewrite <-app_assoc). auto.
Qed.


End Stages.

(** ** Overrides of a namespaced run *)

(** The run gives the overrider the name of its placement without the
    namespace, so the overrides that are attached to a placement in a namespace
    are left out, even those attached to the placement of the run; with the key
    of the placement they would be selected. *)
Lemma namespaced_run_misses_overrides (placementName : string) possible o p :
  ro_Placement o = Some p -> plref_Scope p = NamespaceScoped -> plref_Name p = placementName ->
  meta_namespace (ro_meta o) <> EmptyString ->
  existsb (fun s => bool_decide (mkResourceIdentifier (rsl_Group s) (rsl_Version s) (rsl_Kind s)
    (rsl_Name s) (meta_namespace (ro_meta o)) None ∈ possible)) (ro_ResourceSelectors o) = true ->
  roSelected placementName possible o = false /\
  roSelected (GetObjectKeyFromNamespaceName (meta_namespace (ro_meta o)) placementName) possible o = true.
Proof.
  intros Hp Hs <- Hns Hex. unfold roSelected. rewrite Hp, Hs, Hex. rewrite !decide_True by done. rewrite !andb_true_r. split.
  - apply bool_decide_eq_false. unfold GetObjectKeyFromNamespaceName.
    destruct (decide _); [done|]. intros H%(f_equal String.length). rewrite !string_length_app in H. cbn in H. lia.
  - by apply bool_decide_eq_true.
Qed.
