(* ===== verification/UpdateRunReach.v ===== *)
(** * Staged update runs: reconciliation

    Every write of a reconciliation is in order: the status that is written
    stands at some stage, a binding is written for a cluster of the stage that
    the stored run has reached, and a binding is removed when the stored run
    has finished all of its stages.  The runs that are stored are those that
    creation, reconciliations and changes of the specification lead to, and
    the theorems at the end are about all of them. *)

From stdpp Require Import prelude gmap strings.
From S2P Require Import Prelude K8s Api Utils Defaulter FrameworkUtils Hub Overrider Rollout UpdateRunApi UpdateRunExec UpdateRun UpdateRunProofs UpdateRunSafety.

Local Open Scope string_scope.
Local Open Scope list_scope.

(** ** The order of the writes *)

Section Order.
Context {K : K8sLib}.

(** The run as the hub holds it after these events. *)
Definition seen (v : UpdateRunObj) (e : uevent) : UpdateRunObj :=
  match e with WroteRun v' | ReadRun v' => v' | _ => v end.
Definition stored (u0 : UpdateRunObj) (tr : list uevent) : UpdateRunObj := fold_left seen tr u0.

(** What may be done to the hub when it holds this run. *)
Definition allowed (v : UpdateRunObj) (e : uevent) : Prop :=
  match e with
  | WroteRun v' => run_invariant v'
  | ReadRun _ => True
  | WroteBinding b =>
      exists n st, staged n v /\ ur_stages v !! n = Some st /\ b_target b ∈ stage_cluster_names st
  | RemovedBinding b => staged (length (ur_stages v)) v /\ b_state b = BindingStateUnscheduled
  end.

Definition disciplined (u0 : UpdateRunObj) (tr : list uevent) : Prop :=
  forall pre e post, tr = pre ++ e :: post -> allowed (stored u0 pre) e.

Lemma stored_snoc u0 tr e : stored u0 (tr ++ [e]) = seen (stored u0 tr) e.
Proof. unfold stored. by rewrite fold_left_app. Qed.

Lemma run_disciplined_nil u0 : disciplined u0 [].
Proof. by intros [] e post. Qed.

Lemma run_disciplined_snoc u0 tr e : allowed (stored u0 tr) e -> disciplined u0 tr -> disciplined u0 (tr ++ [e]).
Proof.
  intros He Htr pre e' post. destruct post as [|x post _] using rev_ind.
  - by intros [-> [= ->]]%app_inj_tail.
  - rewrite app_comm_cons, app_assoc. intros [-> _]%app_inj_tail. by eapply Htr.
Qed.

End Order.

(** ** Runs that may be written *)

Section Storable.
Context {K : K8sLib} {L : K8sLaws K}.

Definition initialized (u : UpdateRunObj) : Prop :=
  IsConditionStatusTrue (run_condition StagedUpdateRunConditionInitialized u) (ur_generation u) = true.

Definition storable (u : UpdateRunObj) : Prop := initialized u /\ exists n, stands n u.

Lemma IsConditionStatusTrue_iff o g :
  IsConditionStatusTrue o g = true <-> exists c, o = Some c /\ cond_status c = ConditionTrue /\ cond_observed_generation c = g.
Proof.
  destruct o as [c|]; cbn; [|split; [done|by intros (?&?&_)]].
  rewrite andb_true_iff, bool_decide_eq_true, Z.eqb_eq. split; [|by intros (?&[= <-]&?)]. eauto.
Qed.

Lemma storable_invariant u : storable u -> run_invariant u.
Proof.
  intros [(c & Hc & Ht & Hg)%IsConditionStatusTrue_iff (n & Hgen & Hst)] c' Hc' _. unfold run_condition in Hc.
  rewrite Hc in Hc'. injection Hc' as <-. rewrite Hg. eauto.
Qed.

Lemma invariant_stands u : run_invariant u -> initialized u -> exists n, stands n u.
Proof.
  intros Hu (c & Hc & Ht & Hg)%IsConditionStatusTrue_iff. destruct (Hu c Hc Ht) as [Hgen [n Hn]].
  exists n. split; [|done]. by rewrite Hg in Hgen.
Qed.

Lemma same_initialized u u' : same_run u u' -> initialized u -> initialized u'.
Proof. intros (Hm & _ & Hc) Hi. unfold initialized, run_condition, ur_generation in *. by rewrite Hm, Hc. Qed.

Lemma round_storable n u u' : initialized u -> round_ok n u u' -> storable u'.
Proof. intros Hi [Hs (n' & _ & Hn')]. split; [by eapply same_initialized|eauto]. Qed.

(** Only the conditions of the run differ. *)
Lemma conditions_storable u u' :
  ur_meta u' = ur_meta u -> ur_stages u' = ur_stages u ->
  urs_DeletionStageStatus (ur_status u') = urs_DeletionStageStatus (ur_status u) ->
  urs_UpdateStrategySnapshot (ur_status u') = urs_UpdateStrategySnapshot (ur_status u) ->
  run_condition StagedUpdateRunConditionInitialized u' = run_condition StagedUpdateRunConditionInitialized u ->
  storable u -> storable u'.
Proof.
  intros Hm Hs Hd Hst Hc [Hi (n & Hg & [H1 H2 H3 H4 H5])]. unfold storable, initialized, stands, run_at_gen, ur_generation in *.
  rewrite Hm, Hc, Hs, Hd. split; [done|]. exists n. split; [done|].
  assert (Ht : before_types u' = before_types u /\ after_types u' = after_types u).
  { unfold before_types, after_types, config_at. by rewrite Hst. }
  assert (Hcc : calculateMaxConcurrencyValue (ur_status u') = calculateMaxConcurrencyValue (ur_status u)).
  { unfold calculateMaxConcurrencyValue, ur_stages in *. by rewrite Hst, Hs. }
  destruct Ht as [Hb Ha]. split; rewrite ?Hs, ?Hd; try done.
  - intros i s Hi' Hlt. unfold finished_stage. rewrite Hb, Ha. by apply H2.
  - intros s Hi'. unfold live_stage. rewrite Hb, Hcc. by apply H3.
Qed.

Lemma mark_storable now type st reason message u :
  type <> StagedUpdateRunConditionInitialized -> storable u -> storable (mark_run now type st reason message u).
Proof.
  intros Ht. apply conditions_storable; try done. unfold run_condition, mark_run. cbn. by rewrite mark_other.
Qed.

Lemma failed_invariant now reason message u :
  run_invariant (mark_run now StagedUpdateRunConditionInitialized ConditionFalse reason message u).
Proof.
  intros c Hc Ht. unfold mark_run in Hc. cbn in Hc.
  pose proof (mark_same now StagedUpdateRunConditionInitialized ConditionFalse (ur_generation u) reason message
    (urs_Conditions (ur_status u))) as H. rewrite Hc in H. cbn in H. by rewrite Ht in H.
Qed.

(** *** The same run at another generation *)

Notation renewed := updateAllStageStatusConditionsGeneration.
Notation renewed_cluster g := (fun c => set_cus_Conditions (set_generation g <$> cus_Conditions c) c).
Notation renewed_task g := (fun t => set_ts_Conditions (set_generation g <$> ts_Conditions t) t).

Lemma renewed_started g c : c_started (renewed_cluster g c) = c_started c.
Proof. apply generation_true. Qed.

Lemma renewed_succeeded g c : c_succeeded (renewed_cluster g c) = c_succeeded c.
Proof. apply generation_true. Qed.

Lemma renewed_done g s : s_done (renewed g s) = s_done s.
Proof. apply generation_true. Qed.

Lemma renewed_pristine g s : pristine s -> pristine (renewed g s).
Proof.
  intros [Hs Hc]. split; cbn; [by rewrite Hs|]. apply Forall_fmap. eapply Forall_impl; [exact Hc|]. intros c Hn. cbn. by rewrite Hn.
Qed.

Lemma renewed_gen g s : stage_at_gen g (renewed g s).
Proof.
  split_and!; cbn; [apply generation_at_gen|..]; apply Forall_fmap, Forall_forall; intros x _; apply generation_at_gen.
Qed.

Lemma renewed_all g (P Q : ClusterUpdatingStatus -> Prop) cs :
  (forall c, P c -> Q (renewed_cluster g c)) -> Forall P cs -> Forall Q (renewed_cluster g <$> cs).
Proof. intros H Hcs. apply Forall_fmap. by eapply Forall_impl. Qed.

Lemma renewed_bounded g mc cs : bounded mc cs -> bounded mc (renewed_cluster g <$> cs).
Proof.
  intros (v & r & -> & Hv & Hr). exists (renewed_cluster g <$> v), (renewed_cluster g <$> r). split_and!; [apply fmap_app| |].
  - etransitivity; [|exact Hv]. apply inj_le. clear -L. induction v as [|c v IH]; [done|]. rewrite fmap_cons, !filter_cons.
    rewrite renewed_succeeded. destruct (decide _); cbn; lia.
  - eapply renewed_all; [|exact Hr]. intros c. unfold c_updating. by rewrite renewed_started, renewed_succeeded.
Qed.

Lemma renewed_stage_bounded g mc cs : stage_bounded mc cs -> stage_bounded mc (renewed_cluster g <$> cs).
Proof.
  destruct mc; cbn; [apply renewed_bounded|..]; apply renewed_all; intros c; unfold c_updating;
    by rewrite renewed_started, renewed_succeeded.
Qed.

Lemma renewed_gated g types s : gated types s -> gated types (renewed g s).
Proof.
  intros Hs (c & Hc & Ht)%Exists_exists Hty. apply list_elem_of_fmap in Hc as (c' & -> & Hc'). rewrite renewed_started in Ht.
  destruct (Hs (proj2 (Exists_exists _ _) (ex_intro _ c' (conj Hc' Ht))) Hty) as (t & Hl & Hta).
  exists (renewed_task g t). split; [cbn; by rewrite list_lookup_fmap, Hl|]. unfold t_approved. cbn. by rewrite generation_true.
Qed.

Lemma renewed_after_complete g types s : after_complete types s -> after_complete types (renewed g s).
Proof.
  intros Hs j type Hj Hty. destruct (Hs j type Hj Hty) as (t & Hl & Hw & Ha).
  exists (renewed_task g t). split; [cbn; by rewrite list_lookup_fmap, Hl|]. split.
  - intros H. specialize (Hw H). unfold wait_elapsed in *. cbn in *. rewrite FindStatusCondition_fmap by done.
    by destruct (FindStatusCondition _ _).
  - intros H. unfold t_approved. cbn. rewrite generation_true. by apply Ha.
Qed.

(** What a reconciliation starts from. *)
Definition refreshed (u : UpdateRunObj) : UpdateRunObj :=
  removeWaitTimeFromUpdateRunStatus (upd_status (updateAllStatusConditionsGeneration (ur_generation u)) u).

Lemma removeWait_types tasks : task_Type <$> removeWaitTimeFromApprovalTasks tasks = task_Type <$> tasks.
Proof.
  unfold removeWaitTimeFromApprovalTasks. rewrite <-list_fmap_compose. apply list_fmap_ext. intros _ t _. cbn.
  by destruct (decide _).
Qed.

Lemma refreshed_config u i : config_at (refreshed u) i = removeWaitTimeFromStage <$> config_at u i.
Proof.
  unfold config_at. cbn. destruct (urs_UpdateStrategySnapshot (ur_status u)) as [strategy|]; [|done]. cbn. apply list_lookup_fmap.
Qed.

Lemma refreshed_types u i : before_types (refreshed u) i = before_types u i /\ after_types (refreshed u) i = after_types u i.
Proof.
  unfold before_types, after_types. rewrite refreshed_config. destruct (config_at u i); cbn; [|done]. by rewrite !removeWait_types.
Qed.

Lemma refreshed_concurrency u i :
  calculateMaxConcurrencyValue (ur_status (refreshed u)) i = calculateMaxConcurrencyValue (ur_status u) i.
Proof.
  unfold calculateMaxConcurrencyValue. cbn. destruct (urs_UpdateStrategySnapshot (ur_status u)) as [strategy|]; [|done]. cbn.
  rewrite !list_lookup_fmap. destruct (urs_StagesStatus (ur_status u) !! i) as [st|]; [|done]. cbn.
  destruct (us_Stages strategy !! i) as [cfg|]; [|done]. cbn. unfold llen. by rewrite length_fmap.
Qed.

Lemma refreshed_stage u i s :
  ur_stages (refreshed u) !! i = Some s -> exists s', ur_stages u !! i = Some s' /\ s = renewed (ur_generation u) s'.
Proof. unfold ur_stages. cbn. rewrite list_lookup_fmap. intros (s' & -> & ->)%fmap_Some. eauto. Qed.

Lemma refreshed_length u : length (ur_stages (refreshed u)) = length (ur_stages u).
Proof. apply length_fmap. Qed.

Lemma refreshed_staged n u : staged n u -> staged n (refreshed u).
Proof.
  intros [H1 H2 H3 H4 H5]. split; [by rewrite refreshed_length|..].
  - intros i s (s' & Hi & ->)%refreshed_stage Hlt. destruct (H2 i s' Hi Hlt) as (Hd & Hs & Hg & Ha).
    unfold finished_stage. rewrite renewed_done. destruct (refreshed_types u i) as [-> ->]. split_and!; [done| |by apply renewed_gated|].
    + eapply renewed_all; [|exact Hs]. intros c. by rewrite renewed_succeeded.
    + destruct Ha as [Ha|Ha]; [left; cbn; by rewrite Ha|right; by apply renewed_after_complete].
  - intros s (s' & Hi & ->)%refreshed_stage. destruct (H3 s' Hi) as (Hd & Hg & Hb). unfold live_stage.
    rewrite renewed_done, refreshed_concurrency. destruct (refreshed_types u n) as [-> _].
    split_and!; [done|by apply renewed_gated|by apply renewed_stage_bounded].
  - intros i s (s' & Hi & ->)%refreshed_stage Hlt. apply renewed_pristine. eauto.
  - rewrite refreshed_length. intros d Hlt. unfold refreshed. cbn. intros (d' & Hd' & ->)%fmap_Some. apply renewed_pristine. eauto.
Qed.

Lemma refreshed_gen u : run_at_gen (ur_generation u) (refreshed u).
Proof.
  split.
  - apply Forall_fmap, Forall_forall. intros s _. apply renewed_gen.
  - unfold refreshed. cbn. intros d (d' & _ & ->)%fmap_Some. apply renewed_gen.
Qed.

Lemma refreshed_initialized u :
  initialized (refreshed u) -> exists c, run_condition StagedUpdateRunConditionInitialized u = Some c /\ cond_status c = ConditionTrue.
Proof.
  intros (c & Hc & Ht & _)%IsConditionStatusTrue_iff. unfold run_condition, refreshed in *. cbn in Hc.
  rewrite FindStatusCondition_fmap in Hc by done. apply fmap_Some in Hc as (c' & Hc' & ->). eauto.
Qed.

Lemma refreshed_names u : stage_cluster_names <$> ur_stages (refreshed u) = stage_cluster_names <$> ur_stages u.
Proof.
  unfold ur_stages. cbn. rewrite <-list_fmap_compose. apply list_fmap_ext. intros _ s _. unfold stage_cluster_names. cbn.
  by rewrite <-list_fmap_compose.
Qed.

(** The run in memory is at the stage that the stored one is at. *)
Definition abreast (n : nat) (v u : UpdateRunObj) : Prop :=
  stands n u /\ staged n v /\ stage_cluster_names <$> ur_stages u = stage_cluster_names <$> ur_stages v.

Lemma refreshed_abreast u : run_invariant u -> initialized (refreshed u) -> exists n, abreast n u (refreshed u).
Proof.
  intros Hu (c & Hc & Ht)%refreshed_initialized. destruct (Hu c Hc Ht) as (_ & n & Hn). exists n.
  split; [split; [exact (refreshed_gen u)|by apply refreshed_staged]|]. split; [done|apply refreshed_names].
Qed.

Lemma abreast_refl u : run_invariant u -> initialized u -> exists n, abreast n u u.
Proof. intros Hu Hi. destruct (invariant_stands u Hu Hi) as [n Hn]. exists n. split; [done|]. split; [apply Hn|done]. Qed.

End Storable.

(** ** Initialization *)

Section Initialize.
Context {K : K8sLib} {L : K8sLaws K} {M : ManifestLib} {W : Type} {C : HubClient W} {P : PlacementReader W}.
Context {PS : PolicySnapshotReader W} {SR : SnapshotReader W} {UC : UpdateRunClient W} {SRes : SnapshotResolver W}.
Variables (now : Z) (mapOrder : forall A : Type, list (string * A) -> list (string * A)).
Notation state := (W * UpdateRunObj)%type.

(** A stage without any conditions. *)
Definition untouched (s : StageUpdatingStatus) : Prop :=
  pristine s /\ Forall (fun t => ts_Conditions t = []) (sus_AfterStageTaskStatus s) /\
  Forall (fun t => ts_Conditions t = []) (sus_BeforeStageTaskStatus s).

Definition fresh (u : UpdateRunObj) : Prop :=
  Forall untouched (ur_stages u) /\ exists d, urs_DeletionStageStatus (ur_status u) = Some d /\ untouched d.

Lemma untouched_gen g s : untouched s -> stage_at_gen g s.
Proof.
  intros ((Hs & Hc) & Ha & Hb). split_and!; [rewrite Hs; apply at_gen_nil|..]; eapply Forall_impl; try done;
    intros x Hx; cbn in Hx; rewrite Hx; apply at_gen_nil.
Qed.

Lemma fresh_stands u : fresh u -> stands 0 u.
Proof.
  intros [Hs (d & Hd & Hu)]. split; [split|].
  - eapply Forall_impl; [exact Hs|]. apply untouched_gen.
  - intros d' Hd'. rewrite Hd in Hd'. injection Hd' as <-. by apply untouched_gen.
  - apply staged_fresh; [eapply Forall_impl; [exact Hs|]; by intros s []|].
    intros d' Hd'. rewrite Hd in Hd'. injection Hd' as <-. apply Hu.
Qed.

Lemma buildStageTaskStatuses_untouched tasks name : Forall (fun t => ts_Conditions t = []) (buildStageTaskStatuses tasks name).
Proof. by apply Forall_fmap, Forall_forall. Qed.

Lemma newStageStatus_untouched u stage clusters : untouched (newStageStatus u stage clusters).
Proof.
  split; [split; [done|]; by apply Forall_fmap, Forall_forall|]. split; apply buildStageTaskStatuses_untouched.
Qed.

Lemma computeStage_untouched u sel acc stage :
  Forall untouched acc.1 -> answers (fun a => Forall untouched a.1) (computeStage (W := W) u sel acc stage).
Proof.
  destruct acc as [stages placed]. cbn. intros Hs. unfold computeStage.
  do 4 (eapply answers_bind; [apply answers_any|]; intros ? _).
  eapply answers_bind; [apply answers_any|]. intros [cur placed'] _. apply answers_ret. cbn.
  apply Forall_app. split; [done|]. constructor; [apply newStageStatus_untouched|done].
Qed.

Lemma answers_hfold {S A B} (Q : B -> Prop) (f : B -> A -> hub S B) b xs :
  (forall b x, Q b -> answers Q (f b x)) -> Q b -> answers Q (hfold f b xs).
Proof.
  intros Hf. revert b. induction xs as [|x xs IH]; intros b Hb; cbn; [by apply answers_ret|].
  eapply answers_bind; [by apply Hf|]. exact IH.
Qed.

Lemma answers_onHub {A} (Q : A -> Prop) (m : hub W A) : answers Q m -> answers Q (onHub m).
Proof. intros Hm s a. rewrite onHub_run. apply Hm. Qed.

Lemma triple_any {S A} Pre (m : hub S A) : triple Pre m (fun _ _ => True) (fun _ => True).
Proof. intros s _. by destruct (m s) as [s' []]. Qed.

(** What a computation answers, whatever it does. *)
Lemma triple_answers {S A} Pre (m : hub S A) Q : answers Q m -> triple Pre m (fun a _ => Q a) (fun _ => True).
Proof. intros Hm s _. specialize (Hm s). destruct (m s) as [s' [a|e|x]]; [|done..]. by apply Hm. Qed.

Lemma triple_change (Pre : state -> Prop) f (Post : unit -> state -> Prop) E :
  (forall s, Pre s -> Post tt (s.1, f s.2)) -> triple Pre (change (W := W) f) Post E.
Proof. intros H s Hs. by apply H. Qed.

Lemma computeRunStageStatus_untouched bindings :
  triple (fun _ : state => True) (computeRunStageStatus bindings) (fun _ s => Forall untouched (ur_stages s.2)) (fun _ => True).
Proof.
  unfold computeRunStageStatus. eapply triple_bind; [apply triple_any|]. intros u.
  eapply triple_bind; [apply triple_any|]. intros strategy.
  eapply triple_bind; [apply (triple_answers _ _ (fun a => Forall untouched a.1))|].
  - apply answers_onHub, answers_hfold; [|by constructor]. intros b x. apply computeStage_untouched.
  - intros [stages placed]. eapply triple_bind; [by apply (triple_change _ _ (fun _ s => Forall untouched (ur_stages s.2)))|].
    intros []. cbn. destruct (decide _); [by apply triple_ret|]. by intros s Hs.
Qed.

Lemma generateStagesByStrategy_fresh bindings deleted :
  triple (fun _ : state => True) (generateStagesByStrategy bindings deleted) (fun _ s => fresh s.2) (fun _ => True).
Proof.
  unfold generateStagesByStrategy.
  do 6 (eapply triple_bind; [apply triple_any|]; intros ?).
  eapply triple_bind; [eapply triple_conseq; [apply computeRunStageStatus_untouched|done|intros ? s H; exact H|done]|].
  intros []. apply (triple_change). intros s Hs. split; [exact Hs|]. eexists. split; [done|].
  split; [split; [done|]|split; [done|apply buildStageTaskStatuses_untouched]]. cbn. apply Forall_forall. intros c.
  rewrite go_sort_perm. by intros (b & -> & _)%list_elem_of_fmap.
Qed.

Lemma overrides_untouched cro ro k s :
  untouched s -> untouched (set_sus_Clusters (alter (set_cus_overrides cro ro) k (sus_Clusters s)) s).
Proof.
  intros ((Hs & Hc) & Hab). split; [|done]. split; [done|]. cbn. by apply Forall_alter.
Qed.

Lemma alter_fresh f r u : (forall s, untouched s -> untouched (f s)) -> fresh u -> fresh (alter_stage f r u).
Proof.
  intros Hf [Hs (d & Hd & Hu)]. destruct r as [i|]; split; cbn; try done.
  - apply Forall_alter; [done|]. intros s _. apply Hf.
  - eauto.
  - rewrite Hd. cbn. eauto.
Qed.

Lemma change_fresh f : (forall u, fresh u -> fresh (f u)) -> preserves (fun s : state => fresh s.2) (change f).
Proof. intros Hf s. apply Hf. Qed.

Lemma recordOverrideSnapshots_fresh placement :
  preserves (fun s : state => fresh s.2) (recordOverrideSnapshots mapOrder placement).
Proof.
  unfold recordOverrideSnapshots, getResourceSnapshotObjs, recordClusterOverrides, getStage.
  keeping ltac:(first [ apply onHub_keeps | by intros ? ? | apply run_preserves_hfold; intros ? ?
    | apply change_fresh; intros ? ?; apply alter_fresh; [intros ? ?; by apply overrides_untouched|done] ]).
Qed.

End Initialize.

(** ** Reconciliation *)

Section Reconciliation.
Context {K : K8sLib} {L : K8sLaws K} {M : ManifestLib} {W : Type} {C : HubClient W} {P : PlacementReader W}.
Context {PS : PolicySnapshotReader W} {SR : SnapshotReader W} {UC : UpdateRunClient W} {SRes : SnapshotResolver W}.
Context {UL : UpdateRunLaws W}.
Variables (now : Z) (mapOrder : forall A : Type, list (string * A) -> list (string * A)).
Variable aggregateMessage : list string -> string.
Notation T := (W * list uevent)%type.
Notation state := (T * UpdateRunObj)%type.
Notation unscheduled := (Forall (fun b => b_state b = BindingStateUnscheduled)).

(** *** What reads only *)

Section Quiet.
Variable good : list uevent -> Prop.
Notation Fine := (all_fine_run (W := W) good).

Ltac quiet := keeping ltac:(first
  [ apply fine_theRun | apply fine_change | apply fine_getStrategy | apply fine_getStage | apply fine_overrides | apply fine_pick
  | apply fine_onHub | apply run_preserves_hfold; intros ? ? | apply fine_herr; intros ?; apply silent_fine ]).

Lemma quiet_placement : preserves Fine validatePlacement.
Proof. unfold validatePlacement. quiet. Qed.

Lemma quiet_policy key : preserves Fine (determinePolicySnapshot key).
Proof. unfold determinePolicySnapshot, listLatestPolicySnapshots. quiet. Qed.

Lemma quiet_clusters key policy : preserves Fine (collectScheduledClusters key policy).
Proof. unfold collectScheduledClusters, ListBindingsFromKey. quiet. Qed.

Lemma quiet_stages bindings : preserves Fine (computeRunStageStatus bindings).
Proof. unfold computeRunStageStatus, computeStage. quiet. Qed.

Lemma quiet_generate bindings deleted : preserves Fine (generateStagesByStrategy bindings deleted).
Proof. unfold generateStagesByStrategy. keeping ltac:(first [ apply quiet_stages | apply fine_theRun | apply fine_change
  | apply fine_getStrategy | apply fine_onHub ]). Qed.

Lemma quiet_snapshots placement : preserves Fine (recordOverrideSnapshots mapOrder placement).
Proof.
  unfold recordOverrideSnapshots, getResourceSnapshotObjs, recordClusterOverrides, ListAllResourceSnapshotWithAnIndex. quiet.
Qed.

Lemma quiet_validate : preserves Fine validate.
Proof.
  unfold validate. apply preserves_bind; [apply fine_theRun|]. intros u. apply preserves_bind; [|intros [copy [bs ds]]; quiet].
  assert (H : preserves Fine (validateOnCopy u)).
  { unfold validateOnCopy. keeping ltac:(first [apply quiet_placement | apply quiet_policy | apply quiet_clusters
      | apply quiet_stages | apply fine_theRun]). }
  intros s Hs. specialize (H s Hs). unfold onCopy. by destruct (validateOnCopy u s) as [s' []].
Qed.

End Quiet.

(** *** What writes the run *)

Variable u0 : UpdateRunObj.

Definition in_order (v : UpdateRunObj) (tr : list uevent) : Prop := disciplined u0 tr /\ stored u0 tr = v.

(** The writes so far are in order; and the hub holds this run. *)
Notation Ordered := (all_fine_run (W := W) (disciplined u0)).
Notation Holding v := (all_fine_run (W := W) (in_order v)).

Lemma holding_ordered v (s : state) : Holding v s -> Ordered s.
Proof. by intros [H _]. Qed.

Lemma ordered_holding (s : state) : Ordered s -> Holding (stored u0 s.1.2) s.
Proof. by intros H. Qed.

Lemma recordUpdateRunStatus_ok u :
  run_invariant u ->
  triple (fun s : state => Ordered s /\ s.2 = u) recordUpdateRunStatus
    (fun _ s => Holding u s /\ ur_status s.2 = ur_status u /\ ur_generation s.2 = ur_generation u) Ordered.
Proof.
  intros Hu [[w tr] u'] [Hs Heq]. cbn in Heq. subst u'. unfold recordUpdateRunStatus. cbn -[stored]. unfold logs. rewrite record_run.
  destruct (hub_update_updaterun_status u w) as [w' [u' e]] eqn:Hw. cbn -[stored].
  assert (Hd : disciplined u0 (tr ++ [WroteRun u])) by (by apply run_disciplined_snoc).
  destruct (status_answer u w u' e) as (H1 & _ & H3); [by rewrite Hw|].
  destruct e as [e|]; [exact Hd|]. split; [|done]. split; [exact Hd|]. apply stored_snoc.
Qed.

(** A record of a run that may be written. *)
Definition records {A} (m : hub state A) : Prop := forall s, Ordered s -> storable s.2 -> Ordered (m s).1.

Lemma records_status : records recordUpdateRunStatus.
Proof.
  intros s Hs Hu. pose proof (recordUpdateRunStatus_ok s.2 (storable_invariant _ Hu) s (conj Hs eq_refl)) as H.
  destruct (recordUpdateRunStatus s) as [s' [a|e|x]]; [|done..]. by eapply holding_ordered, H.
Qed.

Lemma records_mark {A} type st reason message (m : hub state A) :
  type <> StagedUpdateRunConditionInitialized -> records m ->
  records (let* _ := change (mark_run now type st reason message) in m).
Proof. intros Ht Hm s Hs Hu. unfold hbind, change. apply Hm; [exact Hs|]. by apply mark_storable. Qed.

Lemma records_then {A B} (m : hub state A) (f : A -> hub state B) :
  records m -> (forall a s, (f a s).1 = s) -> records (hbind f m).
Proof.
  intros Hm Hf s Hs Hu. specialize (Hm s Hs Hu). unfold hbind. destruct (m s) as [s' [a|e|x]]; [|done..]. by rewrite Hf.
Qed.

Lemma records_succeeded : records (recordUpdateRunSucceeded now).
Proof. do 2 (apply records_mark; [done|]). apply records_status. Qed.

Lemma records_failed message : records (recordUpdateRunFailed now message).
Proof. do 2 (apply records_mark; [done|]). apply records_status. Qed.

Lemma records_stopped : records (recordUpdateRunStopped now).
Proof. apply records_mark; [done|]. apply records_status. Qed.

Lemma recordInitializationFailed_ordered message : preserves Ordered (recordInitializationFailed now message).
Proof.
  intros s Hs. unfold recordInitializationFailed, hbind, change.
  pose proof (recordUpdateRunStatus_ok _ (failed_invariant now "UpdateRunInitializedFailed" message s.2) (s.1, _) (conj Hs eq_refl)) as H.
  destruct (recordUpdateRunStatus _) as [s' [a|e|x]]; [|done..]. by eapply holding_ordered, H.
Qed.

(** *** Initialization *)

Lemma abreast_status n v u :
  stands n v -> ur_status u = ur_status v -> ur_generation u = ur_generation v -> abreast n v u.
Proof.
  intros [Hg [H1 H2 H3 H4 H5]] Hs Hgen. unfold abreast, stands, run_at_gen, ur_stages in *. rewrite Hgen, Hs.
  split; [split; [done|]|split; [by split|done]].
  assert (Ht : before_types u = before_types v /\ after_types u = after_types v)
    by (unfold before_types, after_types, config_at; by rewrite Hs).
  destruct Ht as [Hb Ha]. split; unfold ur_stages; rewrite ?Hs; try done.
  - intros i s Hi Hlt. unfold finished_stage. rewrite Hb, Ha. by apply H2.
  - intros s Hi. unfold live_stage. rewrite Hb, Hs. by apply H3.
Qed.

(** The run in memory can be executed from a stage. *)
Definition ready (n : nat) (s : state) : Prop :=
  exists v, Holding v s /\ abreast n v s.2 /\ initialized s.2 /\ urs_DeletionStageStatus (ur_status s.2) <> None.

Lemma fresh_initialized u :
  fresh u -> let u' := mark_run now StagedUpdateRunConditionInitialized ConditionTrue "UpdateRunInitializedSuccessfully"
    "The UpdateRun initialized successfully" u in fresh u' /\ initialized u'.
Proof.
  intros Hu. split; [exact Hu|]. unfold initialized, run_condition, mark_run. cbn. unfold mark.
  destruct (SetStatusCondition_same now (urs_Conditions (ur_status u)) (mkCondition StagedUpdateRunConditionInitialized ConditionTrue
    (ur_generation u) 0 "UpdateRunInitializedSuccessfully" "The UpdateRun initialized successfully")) as (c & Hc & _ & Ht & Hg & _).
  cbn in *. rewrite Hc. cbn. rewrite Ht, Hg. by rewrite Z.eqb_refl.
Qed.

Lemma recordInitializationSucceeded_ready :
  triple (fun s : state => Ordered s /\ fresh s.2) (recordInitializationSucceeded now) (fun _ s => ready 0 s) Ordered.
Proof.
  intros s [Hs Hf]. unfold recordInitializationSucceeded, hbind, change. destruct (fresh_initialized s.2 Hf) as [Hf' Hi].
  pose proof (fresh_stands _ Hf') as Hst.
  pose proof (recordUpdateRunStatus_ok _ (storable_invariant _ (conj Hi (ex_intro _ 0 Hst))) (s.1, _) (conj Hs eq_refl)) as H.
  destruct (recordUpdateRunStatus _) as [s' [a|e|x]]; [|done..]. destruct H as (Hh & H1 & H2). eexists. split; [exact Hh|].
  split; [by apply abreast_status|]. split.
  - unfold initialized, run_condition in *. by rewrite H1, H2.
  - rewrite H1. destruct Hf' as [_ (d & Hd & _)]. by rewrite Hd.
Qed.

Lemma triple_pure {A} (Q : Prop) Pre (m : hub state A) Post E :
  (Q -> triple Pre m Post E) -> triple (fun s => Q /\ Pre s) m Post E.
Proof. intros H s [HQ Hs]. by apply H. Qed.

Lemma initialize_ready :
  triple Ordered (initialize now mapOrder) (fun a s => unscheduled a.2 /\ ready 0 s) Ordered.
Proof.
  unfold initialize. eapply triple_bind; [apply triple_preserves, quiet_placement|]. intros [placement key].
  eapply triple_bind; [apply triple_preserves, quiet_policy|]. intros [policy count].
  eapply triple_bind; [apply triple_answer; [apply collectScheduledClusters_deleted|apply triple_preserves, quiet_clusters]|].
  intros [bs ds]. apply triple_pure. intros Hds. apply (triple_bind _ _ (fun _ s => Ordered s /\ fresh s.2)).
  { eapply triple_conseq; [eapply triple_and; [apply triple_preserves, quiet_generate|apply generateStagesByStrategy_fresh]|..];
      [by split|done|]. by intros s [H _]. }
  intros _. apply (triple_bind _ _ (fun _ s => Ordered s /\ fresh s.2)).
  { eapply triple_conseq; [eapply triple_and; [apply triple_preserves, (quiet_snapshots (disciplined u0))|
      apply triple_preserves, recordOverrideSnapshots_fresh]|done|done|]. by intros s [H _]. }
  intros []. eapply triple_bind; [apply recordInitializationSucceeded_ready|]. intros []. by apply triple_ret.
Qed.

(** *** From the run that was fetched *)

(** What is known of the run in memory before it is initialized or validated. *)
Definition fetched (s : state) : Prop :=
  exists v, Holding v s /\ (initialized s.2 -> exists n, abreast n v s.2).

Lemma fetched_ordered s : fetched s -> Ordered s.
Proof. intros (v & Hv & _). by eapply holding_ordered. Qed.

(** What the reconciliation goes on with. *)
Definition continues (next : option (Z * list BindingObj * list BindingObj)) (s : state) : Prop :=
  match next with
  | None => Ordered s
  | Some (idx, _, ds) => exists n, (idx = Z.of_nat n \/ idx = (-1)%Z) /\ ready n s /\ unscheduled ds
  end.

Lemma recordAborted_spec {A} record (m : hub state A) Pre (Post : A -> state -> Prop) (E : state -> Prop) :
  triple Pre m Post E -> (forall msg s, E s -> Ordered (record msg s).1) -> (forall s, E s -> Ordered s) ->
  triple Pre (recordAborted record m) (fun o s => match o with Some a => Post a s | None => Ordered s end) Ordered.
Proof.
  intros Hm Hr HE s Hs. specialize (Hm s Hs). unfold recordAborted. destruct (m s) as [s' [a|e|x]]; [done| |by apply HE].
  destruct (isAborted e); [|by apply HE]. specialize (Hr (error_msg e) s' Hm). unfold hbind.
  by destruct (record (error_msg e) s') as [s2 []].
Qed.

Lemma validate_ready :
  triple (fun s => fetched s /\ initialized s.2) validate (fun a s => continues (Some a) s)
    (fun s => Ordered s /\ storable s.2).
Proof.
  intros s [(v & Hv & Hn) Hi]. destruct (Hn Hi) as (n & Hab). pose proof (quiet_validate _ s Hv) as Hq.
  pose proof (validate_run s) as Hrun. pose proof (fun idx bs ds => validate_frontier n s idx bs ds (proj1 Hab)) as Hf.
  assert (Hst : storable s.2) by (split; [done|]; exists n; apply Hab).
  destruct (validate s) as [[w u] [[[idx bs] ds]|e|x]]; cbn in Hrun, Hf, Hq |- *; subst u;
    [|split; [by eapply holding_ordered|done]..].
  destruct (Hf idx bs ds eq_refl) as (Hds & Hd & Hidx). exists n. split; [destruct Hidx as [?|[? _]]; auto|].
  split; [|done]. by exists v.
Qed.

Lemma initializeOrValidate_continues :
  triple fetched (initializeOrValidate now mapOrder) continues Ordered.
Proof.
  intros s Hs. unfold initializeOrValidate, theRun. rewrite (hbind_run _ _ s s s.2) by done.
  destruct (negb _) eqn:Hi; [|apply negb_false_iff in Hi]; destruct (_ || _) eqn:Hdone || destruct (IsConditionStatusFalse _ _).
  1,3: by apply fetched_ordered.
  - cut (triple Ordered (recordAborted (recordInitializationFailed now)
      (let* (toBeUpdatedBindings, toBeDeletedBindings) := initialize now mapOrder in hret (0%Z, toBeUpdatedBindings, toBeDeletedBindings)))
      continues Ordered); [intros H; by apply H, fetched_ordered|].
    eapply triple_conseq; [eapply recordAborted_spec; [eapply triple_bind; [apply initialize_ready|]|..]|done| |done].
    + intros [bs ds]. apply (triple_ret _ _ (fun a s => continues (Some a) s)). intros s' [Hds Hr]. exists 0. auto.
    + intros msg s'. apply recordInitializationFailed_ordered.
    + done.
    + by intros [a|].
  - cut (triple (fun s => fetched s /\ initialized s.2) (recordAborted (recordUpdateRunFailed now) validate) continues Ordered);
      [intros H; by apply H|].
    eapply triple_conseq; [eapply recordAborted_spec; [apply validate_ready|..]|done| |done].
    + intros msg s' [H1 H2]. by apply records_failed.
    + by intros s' [H1 _].
    + by intros [a|].
Qed.

(** *** Rounds *)

(** A round leaves the events in order and a run that may be written. *)
Definition round_ends (m : hub state (bool * Z)) (s : state) : Prop := Ordered (m s).1 /\ storable (m s).1.2.

Lemma names_at n v u st :
  abreast n v u -> ur_stages u !! n = Some st ->
  exists st', ur_stages v !! n = Some st' /\ stage_cluster_names st' = stage_cluster_names st.
Proof.
  intros (_ & _ & Hnames) Hst. apply (f_equal (.!! n)) in Hnames. rewrite !list_lookup_fmap, Hst in Hnames. cbn in Hnames.
  symmetry in Hnames. apply fmap_Some in Hnames as (st' & Hst' & ->). eauto.
Qed.

Lemma update_in_order n v u st b :
  abreast n v u -> ur_stages u !! n = Some st -> b_target b ∈ stage_cluster_names st ->
  fine (in_order v) (WroteBinding b).
Proof.
  intros Hab Hst Hb tr [Hd Hv]. split; [|rewrite stored_snoc; exact Hv]. apply run_disciplined_snoc; [|done]. rewrite Hv.
  destruct (names_at _ _ _ _ Hab Hst) as (st' & Hst' & Hn). exists n, st'. rewrite Hn. split_and!; [apply Hab|done|done].
Qed.

Lemma remove_in_order v b :
  staged (length (ur_stages v)) v -> b_state b = BindingStateUnscheduled -> fine (in_order v) (RemovedBinding b).
Proof.
  intros Hs Hb tr [Hd Hv]. split; [|rewrite stored_snoc; exact Hv]. apply run_disciplined_snoc; [|done]. by rewrite Hv.
Qed.

Lemma execute_in_order n bindings deleted (s : state) :
  ready n s -> unscheduled deleted -> round_ends (execute now aggregateMessage (Z.of_nat n) bindings deleted) s.
Proof.
  intros (v & Hv & Hab & Hi & Hd) Hds. destruct s as [w u]. cbn [snd] in *. pose proof (proj1 Hab) as Hst. split.
  - apply (holding_ordered v). destruct (ur_stages u !! n) as [st|] eqn:Hn.
    + assert (Hlt : n < length (ur_stages u)) by (by eapply lookup_lt_Some).
      apply (fine_execute_update now aggregateMessage (in_order v) u n (stage_cluster_names st)).
      * intros b Hb. by eapply update_in_order.
      * intros u' Hf. rewrite (stageOfIndex_framed _ n _ _ Hf). by rewrite decide_True.
      * split; [|done]. split; [apply framed_refl|]. exists st. split; [done|]. split; [done|].
        destruct Hst as [[Hg _] _]. by eapply Forall_lookup in Hg.
    + apply lookup_ge_None in Hn. apply fine_execute_delete; [| |done].
      * cbn [snd]. rewrite (stageOfIndex_framed DeleteStage n u u) by apply framed_refl. by rewrite decide_False by lia.
      * intros b Hb. eapply Forall_forall in Hds; [|done]. apply remove_in_order; [|done].
        destruct Hab as (_ & Hsv & Hnames). apply (f_equal length) in Hnames. rewrite !length_fmap in Hnames.
        replace (length (ur_stages v)) with n; [done|]. destruct Hsv. lia.
  - eapply round_storable; [done|]. by apply execute_round.
Qed.

Lemma stop_in_order n bindings deleted (s : state) :
  ready n s -> round_ends (stop now aggregateMessage (Z.of_nat n) bindings deleted) s.
Proof.
  intros (v & Hv & Hab & Hi & Hd). destruct s as [w u]. cbn [snd] in *. split.
  - by eapply holding_ordered, fine_stop.
  - eapply round_storable; [done|]. apply stop_round; [apply Hab|done].
Qed.

Lemma finishRound_ordered m record s :
  round_ends m s -> records record -> Ordered (finishRound now m record s).1.
Proof.
  unfold round_ends, finishRound. destruct (m s) as [s' [[[|] wt]|e|x]]; intros [Hs Hu] Hr; cbn [fst snd] in *.
  - by apply (records_then record (fun _ => hret noResult)).
  - by apply (records_then recordUpdateRunStatus _ records_status).
  - destruct (isAborted e).
    + by apply (records_then _ (fun _ => hret noResult) (records_failed (error_msg e))).
    + by apply (records_then recordUpdateRunStatus _ records_status).
  - done.
Qed.

Lemma reconcileState_ordered state idx n bs ds (s : (W * list uevent) * UpdateRunObj) :
  idx = Z.of_nat n \/ idx = (-1)%Z -> ready n s -> unscheduled ds ->
  Ordered (reconcileState now aggregateMessage state idx bs ds s).1.
Proof.
  intros Hidx Hr Hds. unfold reconcileState. assert (Hs : Ordered s) by (destruct Hr as (v & Hv & _); by eapply holding_ordered).
  assert (Hst : storable s.2) by (destruct Hr as (v & _ & (Hn & _) & Hi & _); split; [done|by exists n]).
  destruct (Z.eqb_spec idx (-1)).
  { by apply (records_then _ (fun _ => hret noResult) records_succeeded). }
  destruct Hidx as [-> | ?]; [|done]. destruct (decide _); [done|]. destruct (decide _); [|destruct (decide _)].
  - apply finishRound_ordered; [by apply execute_in_order|apply records_succeeded].
  - apply finishRound_ordered; [by apply stop_in_order|apply records_stopped].
  - by apply (records_then _ (fun _ => hret noResult) (records_failed _)).
Qed.

(** *** The whole reconciliation *)

(** What [ensureFinalizer] sends. *)
Definition with_finalizer (u : UpdateRunObj) : UpdateRunObj := set_ur_meta (AddFinalizer (ur_meta u) UpdateRunFinalizer) u.

Lemma updateUpdateRun_run u (w : W) tr :
  updateUpdateRun ((w, tr), u) =
    let '(w', (v, e)) := hub_update_updaterun u w in
    match e with
    | None => (((w', tr ++ [ReadRun v]), v), Ok tt)
    | Some err => (((w', tr ++ []), v), Err err)
    end.
Proof.
  unfold updateUpdateRun. cbn. rewrite record_run. by destruct (hub_update_updaterun u w) as [w' [v [e|]]].
Qed.

Lemma updateUpdateRun_ordered : preserves Ordered updateUpdateRun.
Proof.
  intros [[w tr] u] Hs. rewrite updateUpdateRun_run. destruct (hub_update_updaterun u w) as [w' [v [e|]]].
  - unfold all_fine_run, all_fine. cbn. by rewrite app_nil_r.
  - by apply run_disciplined_snoc.
Qed.

Lemma handleDelete_ordered : preserves Ordered handleDelete.
Proof.
  unfold handleDelete. apply preserves_bind; [apply fine_theRun|]. intros u. apply preserves_bind.
  - apply preserves_map_err, fine_onHub, fine_herr. intros w. apply silent_fine.
  - intros []. apply preserves_bind; [apply fine_change|]. intros []. apply preserves_map_err, updateUpdateRun_ordered.
Qed.

Hypothesis u0_invariant : run_invariant u0.

Lemma ensureFinalizer_fetched (w : W) :
  (forall x, (hub_update_updaterun (with_finalizer (refreshed u0)) w).2 = (x, None) -> run_invariant x) ->
  match ensureFinalizer ((w, []), refreshed u0) with (s, Ok _) => fetched s | (s, _) => Ordered s end.
Proof.
  intros Hx. unfold ensureFinalizer, theRun. rewrite (hbind_run _ _ ((w, []), refreshed u0) ((w, []), refreshed u0) (refreshed u0)) by done.
  assert (Hnil : in_order u0 []) by (split; [apply run_disciplined_nil|done]).
  destruct (ContainsFinalizer _ _); [exists u0; split; [exact Hnil|exact (refreshed_abreast u0 u0_invariant)]|].
  rewrite (hbind_run _ _ ((w, []), refreshed u0) ((w, []), with_finalizer (refreshed u0)) tt) by done.
  rewrite updateUpdateRun_run. destruct (hub_update_updaterun _ w) as [w' [v [e|]]]; [apply Hnil|].
  exists v. split; [|exact (abreast_refl v (Hx v eq_refl))]. split; [apply (run_disciplined_snoc u0 [] (ReadRun v)); [done|apply run_disciplined_nil]|done].
Qed.

Lemma reconcileRun_disciplined (w : W) :
  (forall x, (hub_update_updaterun (with_finalizer (refreshed u0)) w).2 = (x, None) -> run_invariant x) ->
  disciplined u0 (reconcileRun now mapOrder aggregateMessage ((w, []), u0)).1.1.2.
Proof.
  intros Hx. apply ensureFinalizer_fetched in Hx. change (Ordered (reconcileRun now mapOrder aggregateMessage ((w, []), u0)).1).
  unfold reconcileRun. erewrite (hbind_run _ (change _) ((w, []), u0) _ tt) by done.
  rewrite (hbind_run _ (change _) _ ((w, []), refreshed u0) tt) by done. unfold theRun at 1.
  rewrite (hbind_run _ _ ((w, []), refreshed u0) ((w, []), refreshed u0) (refreshed u0)) by done.
  destruct (being_deleted _).
  { apply (preserves_bind Ordered); [apply handleDelete_ordered|intros _; apply preserves_ret|apply run_disciplined_nil]. }
  unfold hbind at 1. destruct (ensureFinalizer _) as [s [[]|e|x]]; [|done..].
  unfold theRun. rewrite (hbind_run _ _ s s s.2) by done. apply initializeOrValidate_continues in Hx. unfold hbind.
  destruct (initializeOrValidate now mapOrder s) as [s' [[[[idx bs] ds]|]|e|x]]; [|done..].
  destruct Hx as (n & Hidx & Hr & Hds). by eapply reconcileState_ordered.
Qed.

End Reconciliation.

(** ** The runs that the hub may hold *)

Section Reachable.
Context {K : K8sLib} {L : K8sLaws K} {M : ManifestLib} {W : Type} {C : HubClient W} {P : PlacementReader W}.
Context {PS : PolicySnapshotReader W} {SR : SnapshotReader W} {UC : UpdateRunClient W} {SRes : SnapshotResolver W}.
Context {UL : UpdateRunLaws W}.
Notation T := (W * list uevent)%type.
Notation order := (forall A : Type, list (string * A) -> list (string * A)).

(** The calls of one reconciliation. *)
Definition reconciliation (now : Z) (mapOrder : order) (aggregateMessage : list string -> string) (w : W) (u : UpdateRunObj)
    : list uevent :=
  (reconcileRun (W := T) now mapOrder aggregateMessage ((w, []), u)).1.1.2.

(** A run is created without conditions; its specification and its metadata may
    change at any time; a reconciliation writes it.  The reconciliation starts
    from a run that the hub held at some time, on a hub in any state, and when
    it adds the finalizer the hub answers with a run that it held. *)
Inductive reachable : UpdateRunObj -> Prop :=
| reachable_created u : urs_Conditions (ur_status u) = [] -> reachable u
| reachable_edited u u' : reachable u -> ur_status u' = ur_status u -> reachable u'
| reachable_written now mapOrder aggregateMessage w u v :
    reachable u ->
    (forall x, (hub_update_updaterun (with_finalizer (refreshed u)) w).2 = (x, None) -> reachable x) ->
    WroteRun v ∈ reconciliation now mapOrder aggregateMessage w u -> reachable v.

Lemma invariant_status u u' : ur_status u' = ur_status u -> run_invariant u -> run_invariant u'.
Proof.
  intros Hs Hu c. rewrite Hs. intros Hc Ht. destruct (Hu c Hc Ht) as [Hg [n Hn]].
  unfold run_at_gen, ur_stages in *. rewrite Hs. split; [done|]. exists n. destruct Hn as [H1 H2 H3 H4 H5].
  split; unfold finished_stage, live_stage, before_types, after_types, config_at, ur_stages in *; by rewrite ?Hs.
Qed.

Lemma reachable_invariant u : reachable u -> run_invariant u.
Proof.
  induction 1 as [u Hu|u u' _ IH Hs|now mo am w u v _ IHu _ IHx Hv].
  - intros c. rewrite Hu. by rewrite Find_nil.
  - by eapply invariant_status.
  - apply list_elem_of_split in Hv as (pre & post & Hv).
    exact (reconcileRun_disciplined now mo am u IHu w IHx pre (WroteRun v) post Hv).
Qed.

(** The run has been initialized. *)
Definition was_initialized (u : UpdateRunObj) : bool := is_true (run_condition StagedUpdateRunConditionInitialized u).

Lemma reachable_staged u : reachable u -> was_initialized u = true -> exists n, staged n u.
Proof.
  intros Hu%reachable_invariant. unfold was_initialized, run_condition. destruct (FindStatusCondition _ _) as [c|] eqn:Hc; [|done].
  intros Ht%bool_decide_eq_true. by apply (Hu c Hc Ht).
Qed.


(** C7: Concurrency.  In every run that the hub may hold, the number of
    clusters of a stage that are being updated is at most the maximum that the
    strategy gives for the stage. *)
Theorem concurrency_bounded (u : UpdateRunObj) (i : nat) (s : StageUpdatingStatus) (maxConcurrency : Z) :
  reachable u -> was_initialized u = true -> ur_stages u !! i = Some s ->
  calculateMaxConcurrencyValue (ur_status u) i = Ok maxConcurrency ->
  (llen (filter (fun c => c_updating c = true) (sus_Clusters s)) <= Z.max 0 maxConcurrency)%Z.
Proof.
  intros Hu Hi Hs Hmc. destruct (reachable_staged u Hu Hi) as [n [_ H2 H3 H4 _]]. apply bounded_count.
  destruct (Nat.lt_trichotomy i n) as [Hlt|[->|Hgt]].
  - destruct (H2 i s Hs Hlt) as (_ & Hc & _). apply (bounded_idle (Ok maxConcurrency)). eapply Forall_impl; [exact Hc|].
    intros c Hsucc. unfold c_updating. by rewrite Hsucc, andb_false_r.
  - destruct (H3 s Hs) as (_ & _ & Hb). by rewrite Hmc in Hb.
  - apply (bounded_idle (Ok maxConcurrency)). destruct (pristine_flags s (H4 i s Hs Hgt)) as [_ Hc].
    eapply Forall_impl; [exact Hc|]. intros c [Hstart _]. by apply not_started_idle.
Qed.

(** C29: Approvals.  In every run that the hub may hold, when a cluster of a
    stage has started updating and the strategy has a task before the stage,
    the first of these tasks has been approved. *)
Theorem started_after_approval (u : UpdateRunObj) (i : nat) (s : StageUpdatingStatus) (c : ClusterUpdatingStatus) :
  reachable u -> was_initialized u = true -> ur_stages u !! i = Some s ->
  c ∈ sus_Clusters s -> c_started c = true -> before_types u i <> [] ->
  exists t, sus_BeforeStageTaskStatus s !! 0 = Some t /\ t_approved t = true.
Proof.
  intros Hu Hi Hs Hc Hstart Htypes. destruct (reachable_staged u Hu Hi) as [n [_ H2 H3 H4 _]].
  assert (Hgate : gated (before_types u i) s).
  { destruct (Nat.lt_trichotomy i n) as [Hlt|[->|Hgt]]; [by apply (H2 i s Hs Hlt)|by apply (H3 s Hs)|].
    intros _. destruct (pristine_flags s (H4 i s Hs Hgt)) as [_ Hf]. eapply Forall_forall in Hf as [Hf _]; [|done]. congruence. }
  apply Hgate; [|done]. apply Exists_exists. eauto.
Qed.

(** C11: The writes of a reconciliation are in order.  A binding is updated for a
    cluster of a stage that the run on the hub has reached: all the stages
    before it have succeeded.  A binding is removed when all the stages have
    succeeded, and only when it is unscheduled. *)
Theorem reconciliation_in_order now (mapOrder : order) aggregateMessage (w : W) (u : UpdateRunObj) pre e post :
  reachable u ->
  (forall x, (hub_update_updaterun (with_finalizer (refreshed u)) w).2 = (x, None) -> reachable x) ->
  reconciliation now mapOrder aggregateMessage w u = pre ++ e :: post ->
  let held := stored u pre in
  match e with
  | WroteBinding b => exists n st,
      ur_stages held !! n = Some st /\ b_target b ∈ stage_cluster_names st /\
      (forall i s, ur_stages held !! i = Some s -> i < n -> s_done s = true)
  | RemovedBinding b =>
      b_state b = BindingStateUnscheduled /\ Forall (fun s => s_done s = true) (ur_stages held)
  | _ => True
  end.
Proof.
  intros Hu Hx Htr held. pose proof (reconcileRun_disciplined now mapOrder aggregateMessage u (reachable_invariant u Hu) w
    (fun x Hw => reachable_invariant x (Hx x Hw)) pre e post Htr) as H. destruct e as [v|v|b|b]; [done|done| |].
  - destruct H as (n & st & [_ H2 _ _ _] & Hst & Hb). exists n, st. split_and!; [done|done|]. intros i s Hs Hlt. by apply (H2 i s Hs Hlt).
  - destruct H as ([_ H2 _ _ _] & Hb). split; [done|]. apply Forall_lookup. intros i s Hs. apply (H2 i s Hs). by eapply lookup_lt_Some.
Qed.

End Reachable.
