(* ===== verification/UpdateRunExamples.v ===== *)
(** * Staged update runs: an example

    A run over three clusters on a hub in memory: a canary stage with one
    cluster, a production stage with two clusters that are updated one at a
    time once a user approves, and a binding to delete.  The theorems about
    update runs are applied to the states that it goes through. *)

From stdpp Require Import prelude gmap strings sorting.
From S2P Require Import Prelude K8s Api Sample Utils Defaulter FrameworkUtils Hub Overrider Rollout UpdateRunApi UpdateRunExec UpdateRun UpdateRunProofs UpdateRunSafety UpdateRunStages UpdateRunReach.

Local Open Scope string_scope.
Local Open Scope list_scope.

Module MemRun.
Import RefLib Beside Static.

Record runs : Type := mkRuns {
  rn_run : UpdateRunObj;
  rn_approvals : list ApprovalRequestObj;
  rn_policies : list PolicySnapshotObj;
  rn_strategy : UpdateStrategySpec;
}.

Notation world := ((Mem.mem * runs) * objects)%type.

Definition the_runs (w : world) : runs := w.1.2.
Definition on_runs (f : runs -> runs) (w : world) : world := ((w.1.1, f w.1.2), w.2).
Definition set_run (u : UpdateRunObj) (r : runs) : runs := mkRuns u (rn_approvals r) (rn_policies r) (rn_strategy r).
Definition set_approvals (l : list ApprovalRequestObj) (r : runs) : runs :=
  mkRuns (rn_run r) l (rn_policies r) (rn_strategy r).

#[export] Instance run_placements : PlacementReader world := {
  hub_get_placement ns name w :=
    (w, match list_find (fun p => meta_namespace (pl_meta p) = ns /\ meta_name (pl_meta p) = name) (st_placements w.2) with
        | Some (_, p) => Ok p
        | None => Err (ErrAPI NotFound name)
        end);
}.

#[export] Instance run_policies : PolicySnapshotReader world := {
  hub_list_policy_snapshots ns ls w :=
    (w, Ok (filter (fun s => meta_namespace (snap_meta s) = ns /\ has_labels ls (snap_meta s) = true) (rn_policies (the_runs w))));
}.

Definition selects (ls : option LabelSelector) (c : MemberCluster) : bool :=
  match ls with
  | Some sel => match LabelSelectorMatches sel (mc_labels c) with Ok b => b | _ => false end
  | None => false
  end.

Definition find_approval (ns name : string) (w : world) : option ApprovalRequestObj :=
  snd <$> list_find (fun r => meta_namespace (ar_meta r) = ns /\ meta_name (ar_meta r) = name) (rn_approvals (the_runs w)).

(** The two halves of a run are written separately. *)
#[export] Instance run_client : UpdateRunClient world := {
  hub_get_updaterun ns name w := (w, Ok (rn_run (the_runs w)));
  hub_update_updaterun u w :=
    let u' := mkUpdateRun (ur_meta u) (ur_spec u) (ur_status (rn_run (the_runs w))) in
    (on_runs (set_run u') w, (u', None));
  hub_update_updaterun_status u w :=
    let old := rn_run (the_runs w) in
    (on_runs (set_run (mkUpdateRun (ur_meta old) (ur_spec old) (ur_status u))) w, (u, None));
  hub_get_strategy ns name w := (w, Ok (rn_strategy (the_runs w)));
  hub_list_clusters_matching ls w :=
    (w, Ok (filter (fun c => selects ls c = true) (st_clusters w.2)));
  hub_create_approval r w :=
    match find_approval (meta_namespace (ar_meta r)) (meta_name (ar_meta r)) w with
    | Some _ => (w, Some (ErrAPI AlreadyExists (meta_name (ar_meta r))))
    | None => (on_runs (fun x => set_approvals (rn_approvals x ++ [r]) x) w, None)
    end;
  hub_get_approval ns name w :=
    (w, match find_approval ns name w with Some r => Ok r | None => Err (ErrAPI NotFound name) end);
  hub_update_approval_status r w :=
    (on_runs (fun x => set_approvals ((fun r0 =>
       if decide (meta_namespace (ar_meta r0) = meta_namespace (ar_meta r) /\ meta_name (ar_meta r0) = meta_name (ar_meta r))
       then r else r0) <$> rn_approvals x) x) w, None);
  hub_delete_approvals ns ls w :=
    (on_runs (fun x => set_approvals (filter (fun r => ~ (meta_namespace (ar_meta r) = ns /\ has_labels ls (ar_meta r) = true))
       (rn_approvals x)) x) w, None);
}.

#[export] Instance run_resolver : SnapshotResolver world := {
  SelectResourcesForPlacement p w := (w, Ok (0%Z, []));
  GetOrCreateResourceSnapshot p n rs l w := (w, Ok (head (st_snapshots w.2)));
}.

#[export] Instance run_laws : UpdateRunLaws world.
Proof.
  split.
  - intros b w b'. cbn. rewrite !beside_2. cbn. unfold Mem.refreshing. destruct (Mem.with_fault _ _) as [m [e|]]; [done|].
    by intros [= <-].
  - by intros u w u' e [= <- <-].
Qed.

(** ** The objects *)

Definition ex_config (name env : string) (before : list StageTask) : StageConfig :=
  mkStageConfig name (Some (mkLabelSelector {["env" := env]} [])) None (Some (FromInt 1)) [] before.

Definition ex_strategy : UpdateStrategySpec :=
  mkStrategy [ex_config "canary" "test" []; ex_config "production" "prod" [mkTask StageTaskTypeApproval None]] None.

Definition ex_binding (name target state : string) : BindingObj :=
  let b := Sample.binding name target "web-1" state in
  mkBinding (Sample.labelled name {[PlacementTrackingLabel := "web"]}) (b_spec b) (b_status b).

Definition ex_hub : Mem.mem :=
  Mem.mkMem
    {[("", "b1") := ex_binding "b1" "a" BindingStateScheduled; ("", "b2") := ex_binding "b2" "b" BindingStateScheduled;
      ("", "b3") := ex_binding "b3" "c" BindingStateBound; ("", "b4") := ex_binding "b4" "d" BindingStateUnscheduled]}
    [] None [].

Definition ex_policy_snapshot : PolicySnapshotObj :=
  mkPolicySnapshot
    (Sample.labelled "web-1" (<[PlacementTrackingLabel := "web"]> (<[PolicyIndexLabel := "1"]> latest)))
    (mkSnapshotSpec None EmptyString)
    (mkSnapshotStatus 0 [mkCondition PolicySnapshotScheduled ConditionTrue 0 0 "Reason" EmptyString] []).

Definition ex_placement : PlacementObj :=
  mkPlacement (Sample.metadata "web")
    (mkPlacementSpec [] None (mkRolloutStrategy ExternalRolloutStrategyType None None None None) None EmptyString).

Definition ex_objects : objects :=
  mkObjects [Sample.cluster "a" {["env" := "test"]} 0; Sample.cluster "c" {["env" := "prod"]} 0;
      Sample.cluster "b" {["env" := "prod"]} 0; Sample.cluster "d" {["env" := "prod"]} 0]
    [ex_master] [] [] [ex_placement].

Definition ex_run : UpdateRunObj :=
  mkUpdateRun (new_meta "release" EmptyString ∅ [UpdateRunFinalizer]) (mkRunSpec "web" "0" "strategy" StateRun)
    (mkRunStatus EmptyString 0 EmptyString None None [] None []).

Definition ex_world : world := ((ex_hub, mkRuns ex_run [] [ex_policy_snapshot] ex_strategy), ex_objects).

(** ** Reconciliations *)

(** One reconciliation of the run that the hub holds: the hub afterwards, and the calls. *)
Definition reconcile_at (now : Z) (w : world) : world :=
  (reconcileRun (W := world) now in_order (String.concat ", ") (w, rn_run (the_runs w))).1.1.
Definition calls_at (now : Z) (w : world) : list uevent :=
  reconciliation (W := world) now in_order (String.concat ", ") w (rn_run (the_runs w)).

(** The member cluster of a binding reports that the resources are available. *)
Definition report (key : ObjectKey) (w : world) : world :=
  ((Mem.set_bindings (alter (fun b => set_b_conditions
      (b_conditions b ++ [mkCondition ResourceBindingAvailable ConditionTrue 0 0 "Reason" EmptyString]) b) key (Mem.mem_bindings w.1.1)) w.1.1, w.1.2), w.2).

(** The user approves every request. *)
Definition approve : world -> world :=
  on_runs (fun x => set_approvals ((fun r => mkApproval (ar_meta r) (ar_TargetUpdateRun r) (ar_TargetStage r)
    [mkCondition ApprovalRequestConditionApproved ConditionTrue 0 0 "Reason" EmptyString]) <$> rn_approvals x) x).

Definition ex_1 : world := reconcile_at 10 ex_world.
Definition ex_2 : world := reconcile_at 20 (report ("", "b1") ex_1).
Definition ex_3 : world := reconcile_at 30 ex_2.
Definition ex_4 : world := reconcile_at 40 (approve ex_3).
Definition ex_5 : world := reconcile_at 50 (report ("", "b2") ex_4).
Definition ex_6 : world := reconcile_at 60 (report ("", "b3") ex_5).
Definition ex_7 : world := reconcile_at 70 ex_6.

(** The run that was written last. *)
Definition last_write (tr : list uevent) : option UpdateRunObj :=
  fold_left (fun o e => match e with WroteRun v => Some v | _ => o end) tr None.

Lemma last_write_in tr v : last_write tr = Some v -> WroteRun v ∈ tr.
Proof.
  unfold last_write. induction tr as [|e tr IH] using rev_ind; [done|]. rewrite fold_left_app. cbn. intros H. apply elem_of_app.
  destruct e; [right; injection H as ->; left|left; by apply IH..].
Qed.

Notation reached := (reachable (W := world)).
Notation held w := (rn_run (the_runs w)).

(** An answer of the hub has the status that the hub holds. *)
Lemma answer_reached (w : world) u x : reached (held w) -> (hub_update_updaterun u w).2 = (x, None) -> reached x.
Proof. intros Hw [= <-]. by apply (reachable_edited (held w)). Qed.

(** Where the hub holds the run that a reconciliation wrote, the run is reachable. *)
Lemma reached_after now (w w' : world) :
  reached (held w) -> (ur_status <$> last_write (calls_at now w)) = Some (ur_status (held w')) -> reached (held w').
Proof.
  intros Hw Hl. apply fmap_Some in Hl as (v & Hv & Hs). apply (reachable_edited v); [|done].
  eapply (reachable_written now in_order (String.concat ", ") w (held w) v); [done| |by apply last_write_in].
  intros x. by apply answer_reached.
Qed.

Lemma held_report key (w : world) : held (report key w) = held w.
Proof. done. Qed.

Lemma held_approve (w : world) : held (approve w) = held w.
Proof. done. Qed.

Lemma ex_reached_1 : reached (held ex_1).
Proof. refine (reached_after 10 ex_world ex_1 _ _); [by apply reachable_created|by_decide]. Qed.

Lemma ex_reached_2 : reached (held ex_2).
Proof.
  refine (reached_after 20 (report ("", "b1") ex_1) ex_2 _ _); [rewrite held_report; apply ex_reached_1|by_decide].
Qed.

Lemma ex_reached_3 : reached (held ex_3).
Proof. refine (reached_after 30 ex_2 ex_3 _ _); [apply ex_reached_2|by_decide]. Qed.

Lemma ex_reached_4 : reached (held ex_4).
Proof. refine (reached_after 40 (approve ex_3) ex_4 _ _); [rewrite held_approve; apply ex_reached_3|by_decide]. Qed.

Lemma ex_reached_5 : reached (held ex_5).
Proof.
  refine (reached_after 50 (report ("", "b2") ex_4) ex_5 _ _); [rewrite held_report; apply ex_reached_4|by_decide].
Qed.

Lemma ex_reached_6 : reached (held ex_6).
Proof.
  refine (reached_after 60 (report ("", "b3") ex_5) ex_6 _ _); [rewrite held_report; apply ex_reached_5|by_decide].
Qed.

(** The stages and clusters of the run. *)
Definition ex_stage (w : world) (i : nat) : StageUpdatingStatus :=
  default (mkStageStatus EmptyString [] [] [] None None []) (ur_stages (held w) !! i).
Definition ex_cluster (w : world) (i k : nat) : ClusterUpdatingStatus :=
  default (mkClusterStatus EmptyString [] [] []) (sus_Clusters (ex_stage w i) !! k).

Lemma ex_stage_at w i : (i <? length (ur_stages (held w)))%nat = true -> ur_stages (held w) !! i = Some (ex_stage w i).
Proof. intros Hi%Nat.ltb_lt. apply lookup_lt_is_Some in Hi as [s Hs]. unfold ex_stage. by rewrite Hs. Qed.

Lemma ex_cluster_in w i k : (k <? length (sus_Clusters (ex_stage w i)))%nat = true -> ex_cluster w i k ∈ sus_Clusters (ex_stage w i).
Proof.
  intros Hk%Nat.ltb_lt. apply lookup_lt_is_Some in Hk as [c Hc]. apply (list_elem_of_lookup_2 _ k). unfold ex_cluster. by rewrite Hc.
Qed.


Lemma concurrency_bounded_witness :
  ur_stages (held ex_4) !! 1 = Some (ex_stage ex_4 1) /\
  (llen (filter (fun c => c_updating c = true) (sus_Clusters (ex_stage ex_4 1))) <= Z.max 0 1)%Z.
Proof.
  assert (Hs : ur_stages (held ex_4) !! 1 = Some (ex_stage ex_4 1)) by (apply ex_stage_at; by_evaluation). split; [exact Hs|].
  apply (concurrency_bounded (W := world) (held ex_4) 1 (ex_stage ex_4 1) 1 ex_reached_4); [by_evaluation|exact Hs|by_evaluation].
Defined.

Lemma started_after_approval_witness :
  exists t, sus_BeforeStageTaskStatus (ex_stage ex_4 1) !! 0 = Some t /\ t_approved t = true.
Proof.
  apply (started_after_approval (W := world) (held ex_4) 1 (ex_stage ex_4 1) (ex_cluster ex_4 1 0) ex_reached_4).
  - by_evaluation.
  - apply ex_stage_at. by_evaluation.
  - apply ex_cluster_in. by_evaluation.
  - by_evaluation.
  - assert (H : before_types (held ex_4) 1 = [StageTaskTypeApproval]) by by_decide. rewrite H. discriminate.
Defined.

(** Whether the first call removes a binding. *)
Definition removes_first (tr : list uevent) : bool := match tr with RemovedBinding _ :: _ => true | _ => false end.

Lemma removes_first_cons tr : removes_first tr = true -> exists b post, tr = RemovedBinding b :: post.
Proof. destruct tr as [|[] post]; try done. eauto. Qed.

Lemma ex_removes : removes_first (calls_at 70 ex_6) = true.
Proof. by_evaluation. Qed.

(** The binding that the last reconciliation removes. *)
Lemma reconciliation_in_order_witness :
  exists w b post, calls_at 70 w = RemovedBinding b :: post /\ b_state b = BindingStateUnscheduled /\
    Forall (fun s => s_done s = true) (ur_stages (held w)).
Proof.
  assert (Hc : exists w b post, reached (held w) /\ calls_at 70 w = RemovedBinding b :: post).
  { destruct (removes_first_cons _ ex_removes) as (b & post & H). exists ex_6, b, post. split; [exact ex_reached_6|exact H]. }
  destruct Hc as (w & b & post & Hw & Hc). exists w, b, post. split; [exact Hc|].
  exact (reconciliation_in_order (W := world) 70 in_order (String.concat ", ") w (held w) [] (RemovedBinding b) post
    Hw (fun x => answer_reached w _ x Hw) Hc).
Defined.

(** The stages that the first reconciliation computes. *)
Definition ex_bindings : list BindingObj :=
  [ex_binding "b1" "a" BindingStateScheduled; ex_binding "b2" "b" BindingStateScheduled; ex_binding "b3" "c" BindingStateBound].
Definition ex_planned : UpdateRunObj := upd_status (set_urs_UpdateStrategySnapshot (Some ex_strategy)) ex_run.


End MemRun.
