(* ===== verification/WorkApi.v ===== *)
(** * Works

    The [Work] object of [apis/placement/v1beta1/work_types.go], through which
    the hub hands manifests to a member cluster and gets their state back, with
    the names that [commons.go] gives to its labels and annotations, and the
    calls the work generator makes on it. *)

From stdpp Require Import prelude gmap strings.
From S2P Require Import Prelude K8s Api Sample Utils FrameworkUtils Hub Overrider.

Local Open Scope string_scope.
Local Open Scope list_scope.

(** ** Names *)

Definition WorkFinalizer : string := FleetPrefix +:+ "work-cleanup".
Definition ParentClusterResourceOverrideSnapshotHashAnnotation : string :=
  FleetPrefix +:+ "parent-cluster-resource-override-snapshot-hash".
Definition ParentResourceOverrideSnapshotHashAnnotation : string :=
  FleetPrefix +:+ "parent-resource-override-snapshot-hash".
Definition ParentResourceSnapshotNameAnnotation : string := FleetPrefix +:+ "parent-resource-snapshot-name".
Definition ParentResourceSnapshotIndexLabel : string := FleetPrefix +:+ "parent-resource-snapshot-index".
Definition ParentBindingLabel : string := FleetPrefix +:+ "parent-resource-binding".
Definition ParentNamespaceLabel : string := FleetPrefix +:+ "parent-placement-namespace".
Definition EnvelopeTypeLabel : string := FleetPrefix +:+ "envelope-work".
Definition EnvelopeNamespaceLabel : string := FleetPrefix +:+ "envelope-namespace".
Definition EnvelopeNameLabel : string := FleetPrefix +:+ "envelope-name".
Definition SubindexOfResourceSnapshotAnnotation : string := FleetPrefix +:+ "subindex-of-resource-snapshot".

(** [fmt.Sprintf(utils.NamespaceNameFormat, cluster)] *)
Definition memberNamespace (cluster : string) : string := "fleet-member-" +:+ cluster.

Definition WorkConditionTypeApplied : string := "Applied".
Definition WorkConditionTypeAvailable : string := "Available".
Definition WorkConditionTypeDiffReported : string := "DiffReported".
Definition WorkConditionTypeStatusTrimmed : string := "StatusTrimmed".

(** ** The object *)

Record WorkResourceIdentifier : Set := mkWorkIdentifier {
  wri_Ordinal : Z;
  wri_Group : string;
  wri_Version : string;
  wri_Kind : string;
  wri_Resource : string;
  wri_Namespace : string;
  wri_Name : string;
}.

#[global] Instance WorkResourceIdentifier_eq_dec : EqDecision WorkResourceIdentifier.
Proof. solve_decision. Defined.

Record DriftDetails : Set := mkDriftDetails {
  drift_ObservationTime : Z;
  drift_ObservedInMemberClusterGeneration : Z;
  drift_FirstDriftedObservedTime : Z;
  drift_ObservedDrifts : list PatchDetail;
}.

#[global] Instance DriftDetails_eq_dec : EqDecision DriftDetails.
Proof. solve_decision. Defined.

Record DiffDetails : Set := mkDiffDetails {
  diff_ObservationTime : Z;
  diff_ObservedInMemberClusterGeneration : option Z;
  diff_FirstDiffedObservedTime : Z;
  diff_ObservedDiffs : list PatchDetail;
}.

#[global] Instance DiffDetails_eq_dec : EqDecision DiffDetails.
Proof. solve_decision. Defined.

(** The status is the raw JSON. *)
Record BackReportedStatus : Set := mkBackReported {
  brs_ObservedStatus : string;
  brs_ObservationTime : Z;
}.

#[global] Instance BackReportedStatus_eq_dec : EqDecision BackReportedStatus.
Proof. solve_decision. Defined.

Record ManifestCondition : Set := mkManifestCondition {
  mfc_Identifier : WorkResourceIdentifier;
  mfc_Conditions : list Condition;
  mfc_DriftDetails : option DriftDetails;
  mfc_DiffDetails : option DiffDetails;
  mfc_BackReportedStatus : option BackReportedStatus;
}.

#[global] Instance ManifestCondition_eq_dec : EqDecision ManifestCondition.
Proof. solve_decision. Defined.

(** A manifest is its raw JSON. *)
Record WorkSpec : Set := mkWorkSpec {
  ws_Manifests : list string;
  ws_ApplyStrategy : option ApplyStrategy;
  ws_ReportBackStrategy : option ReportBackStrategy;
}.

#[global] Instance WorkSpec_eq_dec : EqDecision WorkSpec.
Proof. solve_decision. Defined.

Record WorkStatus : Set := mkWorkStatus {
  wst_Conditions : list Condition;
  wst_ManifestConditions : list ManifestCondition;
}.

#[global] Instance WorkStatus_eq_dec : EqDecision WorkStatus.
Proof. solve_decision. Defined.

Record Work : Set := mkWork {
  w_meta : ObjectMeta;
  w_spec : WorkSpec;
  w_status : WorkStatus;
}.

#[global] Instance Work_eq_dec : EqDecision Work.
Proof. solve_decision. Defined.

Definition w_name (w : Work) : string := meta_name (w_meta w).
Definition w_labels (w : Work) : gmap string string := meta_labels (w_meta w).
Definition w_annotations (w : Work) : gmap string string := meta_annotations (w_meta w).
Definition w_generation (w : Work) : Z := meta_generation (w_meta w).
Definition w_strategy (w : Work) : option ApplyStrategy := ws_ApplyStrategy (w_spec w).

(** Reading a key of a map of strings that is not there gives the empty string. *)
Definition read_key (m : gmap string string) (k : string) : string := default EmptyString (m !! k).

(** Assignments on a work. *)
Definition set_w_spec (s : WorkSpec) (w : Work) : Work := mkWork (w_meta w) s (w_status w).

Definition set_w_strategy (a : option ApplyStrategy) (w : Work) : Work :=
  set_w_spec (mkWorkSpec (ws_Manifests (w_spec w)) a (ws_ReportBackStrategy (w_spec w))) w.

Definition set_w_manifests (ms : list string) (w : Work) : Work :=
  set_w_spec (mkWorkSpec ms (ws_ApplyStrategy (w_spec w)) (ws_ReportBackStrategy (w_spec w))) w.

Definition set_meta_labels (l : gmap string string) (m : ObjectMeta) : ObjectMeta :=
  mkObjectMeta (meta_name m) (meta_namespace m) l (meta_annotations m) (meta_finalizers m)
    (meta_deletion_timestamp m) (meta_generation m) (meta_resource_version m).

Definition set_w_label (k v : string) (w : Work) : Work :=
  mkWork (set_meta_labels (<[k := v]> (w_labels w)) (w_meta w)) (w_spec w) (w_status w).

Definition set_w_annotation (k v : string) (w : Work) : Work :=
  mkWork (set_meta_annotations (<[k := v]> (w_annotations w)) (w_meta w)) (w_spec w) (w_status w).

Definition new_work (m : ObjectMeta) (s : WorkSpec) : Work := mkWork m s (mkWorkStatus [] []).

(** ** Identifiers as keys of a map *)

#[global] Program Instance EnvelopeIdentifier_countable : Countable EnvelopeIdentifier :=
  inj_countable' (fun e => (env_Name e, env_Namespace e, env_Type e)) (fun '(n, ns, t) => mkEnvelope n ns t) _.
Next Obligation. by intros []. Qed.

#[global] Program Instance ResourceIdentifier_countable : Countable ResourceIdentifier :=
  inj_countable' (fun r => (rid_Group r, rid_Version r, rid_Kind r, rid_Name r, rid_Namespace r, rid_Envelope r))
    (fun '(g, v, k, n, ns, e) => mkResourceIdentifier g v k n ns e) _.
Next Obligation. by intros []. Qed.

(** ** Calls *)

Class WorkClient (W : Type) : Type := {
  (** [List] of the works in a namespace with the given labels, from the cache. *)
  hub_list_works : string -> gmap string string -> hub W (list Work);
  hub_create_work : Work -> W -> W * option goerr;
  (** [Update] refreshes the object it is given. *)
  hub_update_work : Work -> W -> W * (Work * option goerr);
  hub_delete_work : Work -> W -> W * option goerr;
  (** [Get] by namespace and name; an empty namespace asks for the kind of the cluster's scope. *)
  hub_fetch_binding : string -> string -> hub W BindingObj;
  hub_get_resource_snapshot : string -> string -> hub W ResourceSnapshotObj;
  hub_get_cro : string -> hub W ClusterResourceOverrideSnapshot;
  hub_get_ro : string -> string -> hub W ResourceOverrideSnapshot;
}.
