(* ===== verification/WorkOverride.v ===== *)
(** * Overrides applied to a manifest

    Models [pkg/controllers/workgenerator/override.go].  The override snapshots
    of a binding are read once and applied to many manifests; applying a JSON
    patch writes the values with their variables replaced back into the
    snapshot.  A map from resources to snapshots is a map to positions in
    [overrideStore], which is threaded through the calls as the shared memory
    that the pointers of the source point to.

    The JSON patch library is the class [PatchLib]. *)

From Stdlib Require Import Ascii.
From stdpp Require Import prelude gmap strings.
From S2P Require Import Prelude K8s Api Sample Utils FrameworkUtils Hub Overrider WorkApi.

Local Open Scope string_scope.
Local Open Scope list_scope.

(** ** Strings *)

(** [strings.Cut]: what is before and after the first occurrence. *)
Fixpoint str_cut (p s : string) : option (string * string) :=
  match str_cut_prefix p s with
  | Some r => Some (EmptyString, r)
  | None =>
      match s with
      | EmptyString => None
      | String a s => match str_cut p s with Some (x, y) => Some (String a x, y) | None => None end
      end
  end.

(** [strings.Replace(s, old, new, 1)] *)
Definition str_replace_first (old new s : string) : string :=
  match str_cut old s with Some (x, y) => x +:+ new +:+ y | None => s end.

(** [strings.ReplaceAll]; [skip] bytes belong to the occurrence that was replaced. *)
Fixpoint replace_from (skip : nat) (old new s : string) : string :=
  match s with
  | EmptyString => EmptyString
  | String a r =>
      match skip with
      | S k => replace_from k old new r
      | 0 =>
          match str_cut_prefix old s with
          | Some _ => new +:+ replace_from (String.length old - 1) old new r
          | None => String a (replace_from 0 old new r)
          end
      end
  end.

Definition str_replace_all (old new s : string) : string := replace_from 0 old new s.

(** [strings.Count(s, string(c))] *)
Fixpoint str_count (c : ascii) (s : string) : nat :=
  match s with
  | EmptyString => 0
  | String a r => (if Ascii.eqb a c then 1 else 0) + str_count c r
  end.

(** ** Variables in the values of a patch *)

Definition OverrideClusterNameVariable : string := "${MEMBER-CLUSTER-NAME}".
Definition OverrideClusterLabelKeyVariablePrefix : string := "${MEMBER-CLUSTER-LABEL-KEY-".
Definition dollar : ascii := "$"%char.

Fixpoint replaceLoop (fuel : nat) (cluster : MemberCluster) (input result : string) : outcome string :=
  match fuel with
  | 0 => Panic "out of fuel"
  | S fuel =>
      match str_cut OverrideClusterLabelKeyVariablePrefix result with
      | None => Ok result
      | Some (_, rest) =>
          match str_cut "}" rest with
          | None => Err (ErrPlain ("input " +:+ input +:+ " is missing the closing bracket `}`"))
          | Some (keyName, _) =>
              match mc_labels cluster !! keyName with
              | None => Err (ErrPlain ("label key " +:+ keyName +:+ " not found on cluster " +:+ mc_name cluster))
              | Some labelValue =>
                  let fullVariable := OverrideClusterLabelKeyVariablePrefix +:+ keyName +:+ "}" in
                  replaceLoop fuel cluster input (str_replace_first fullVariable labelValue result)
              end
          end
      end
  end.

(** Every round removes a dollar sign, as long as the values of labels have none. *)
Definition replaceClusterLabelKeyVariables (cluster : MemberCluster) (input : string) : outcome string :=
  replaceLoop (S (str_count dollar input)) cluster input input.

(** ** Rules *)

(** [json.Marshal] of the overrides, [jsonpatch.DecodePatch] and
    [patch.Apply]; nil is a manifest that an override has deleted. *)
Class PatchLib : Type := {
  applyPatch : list JSONPatchOverride -> option string -> outcome (option string);
}.

Section Apply.
Context {K : K8sLib} {P : PatchLib}.

(** The value of one override with its variables replaced. *)
Definition resolveValue (cluster : MemberCluster) (o : JSONPatchOverride) : outcome JSONPatchOverride :=
  let jsonStr := str_replace_all OverrideClusterNameVariable (mc_name cluster) (jp_Value o) in
  let! jsonStr := replaceClusterLabelKeyVariables cluster jsonStr in
  Ok (mkJSONPatch (jp_Operator o) (jp_Path o) jsonStr).

Fixpoint resolveValues (cluster : MemberCluster) (os : list JSONPatchOverride) : outcome (list JSONPatchOverride) :=
  match os with
  | [] => Ok []
  | o :: os =>
      let! o := resolveValue cluster o in
      let! os := resolveValues cluster os in
      Ok (o :: os)
  end.

(** The manifest, and the overrides as they are left in memory. *)
Definition applyJSONPatchOverride (raw : option string) (cluster : MemberCluster) (overrides : list JSONPatchOverride)
    : outcome (option string * list JSONPatchOverride) :=
  match overrides with
  | [] => Ok (raw, overrides)
  | _ =>
      let! overrides := resolveValues cluster overrides in
      let! raw := applyPatch overrides raw in
      Ok (raw, overrides)
  end.

Definition set_rule_patches (os : list JSONPatchOverride) (r : OverrideRule) : OverrideRule :=
  mkOverrideRule (rule_ClusterSelector r) (rule_OverrideType r) os.

Fixpoint applyOverrideRules (raw : option string) (cluster : MemberCluster) (rules : list OverrideRule)
    : outcome (option string * list OverrideRule) :=
  match rules with
  | [] => Ok (raw, [])
  | rule :: rest =>
      let! matched := IsClusterMatched cluster rule in
      if negb matched then
        let! (raw, rest) := applyOverrideRules raw cluster rest in
        Ok (raw, rule :: rest)
      else if decide (rule_OverrideType rule = DeleteOverrideType) then Ok (None, rules)
      else
        let! (raw, overrides) := applyJSONPatchOverride raw cluster (rule_JSONPatchOverrides rule) in
        let! (raw, rest) := applyOverrideRules raw cluster rest in
        Ok (raw, set_rule_patches overrides rule :: rest)
  end.

(** ** The snapshots of a binding *)

Record overrideStore : Set := mkStore {
  os_cros : list ClusterResourceOverrideSnapshot;
  os_ros : list ResourceOverrideSnapshot;
}.

Definition overrideMap : Set := gmap ResourceIdentifier (list nat).

Definition set_cro_policy (p : option OverridePolicy) (s : ClusterResourceOverrideSnapshot) :=
  mkCRO (cro_meta s) (cro_Placement s) (cro_ClusterResourceSelectors s) p.

Definition set_ro_policy (p : option OverridePolicy) (s : ResourceOverrideSnapshot) :=
  mkRO (ro_meta s) (ro_Placement s) (ro_ResourceSelectors s) p.

Definition targets (m : overrideMap) (key : ResourceIdentifier) : list nat := default [] (m !! key).

Definition addTarget (position : nat) (m : overrideMap) (key : ResourceIdentifier) : overrideMap :=
  <[key := targets m key ++ [position]]> m.

Definition croTarget (selector : ResourceSelectorTerm) : ResourceIdentifier :=
  mkResourceIdentifier (rsel_Group selector) (rsel_Version selector) (rsel_Kind selector) (rsel_Name selector)
    EmptyString None.

Definition roTarget (namespace : string) (selector : ResourceSelector) : ResourceIdentifier :=
  mkResourceIdentifier (rsl_Group selector) (rsl_Version selector) (rsl_Kind selector) (rsl_Name selector)
    namespace None.

(** [fmt.Sprintf("%s", namespacedName)] of the API's [NamespacedName]. *)
Definition namespacedNameString (n : NamespacedName) : string :=
  "{" +:+ nn_Name n +:+ " " +:+ nn_Namespace n +:+ "}".

Section Fetch.
Context {W : Type} {C : WorkClient W}.

(** The error of a [Get]: a snapshot that is gone is the user's concern. *)
Definition fetchError (what : string) (err : goerr) : goerr :=
  if has_reason NotFound err then NewUserError (ErrPlain (what +:+ " is not found")) else NewAPIServerError true err.

Fixpoint fetchCROs (names : list string) (acc : list ClusterResourceOverrideSnapshot) (croMap : overrideMap)
    : hub W (list ClusterResourceOverrideSnapshot * overrideMap) :=
  match names with
  | [] => hret (acc, croMap)
  | name :: names =>
      let* snapshot := hmap_err (fetchError ("clusterResourceOverrideSnapshot " +:+ name)) (hub_get_cro name) in
      fetchCROs names (acc ++ [snapshot])
        (fold_left (addTarget (length acc)) (croTarget <$> cro_ClusterResourceSelectors snapshot) croMap)
  end.

Definition fetchClusterResourceOverrideSnapshots (resourceBinding : BindingObj)
    : hub W (list ClusterResourceOverrideSnapshot * overrideMap) :=
  fetchCROs (rbs_ClusterResourceOverrideSnapshots (b_spec resourceBinding)) [] ∅.

Fixpoint fetchROs (names : list NamespacedName) (acc : list ResourceOverrideSnapshot) (roMap : overrideMap)
    : hub W (list ResourceOverrideSnapshot * overrideMap) :=
  match names with
  | [] => hret (acc, roMap)
  | name :: names =>
      let* snapshot := hmap_err (fetchError ("resourceOverrideSnapshot " +:+ namespacedNameString name))
        (hub_get_ro (nn_Namespace name) (nn_Name name)) in
      fetchROs names (acc ++ [snapshot])
        (fold_left (addTarget (length acc))
           (roTarget (meta_namespace (ro_meta snapshot)) <$> ro_ResourceSelectors snapshot) roMap)
  end.

Definition fetchResourceOverrideSnapshots (resourceBinding : BindingObj)
    : hub W (list ResourceOverrideSnapshot * overrideMap) :=
  fetchROs (rbs_ResourceOverrideSnapshots (b_spec resourceBinding)) [] ∅.

End Fetch.

(** ** Applying them *)

Record overrideContext : Type := mkOverrideContext {
  oc_cluster : MemberCluster;
  oc_croMap : overrideMap;
  oc_roMap : overrideMap;
}.

Definition formatOverrideTarget (target : Unstructured) : string :=
  let kind := if decide (gvk_Kind (u_gvk target) = EmptyString) then "Unknown" else gvk_Kind (u_gvk target) in
  if decide (u_namespace target <> EmptyString)
  then kind +:+ " " +:+ go_quote (u_name target) +:+ " in namespace " +:+ go_quote (u_namespace target)
  else kind +:+ " " +:+ go_quote (u_name target).

Section Snapshots.
Context {A : Type} (kind : string) (name : A -> string) (policy : A -> option OverridePolicy)
  (set_policy : option OverridePolicy -> A -> A).

(** The loop over the snapshots of a resource; a snapshot without a policy is skipped. *)
Fixpoint applySnapshots (cluster : MemberCluster) (target : Unstructured) (positions : list nat) (raw : option string)
    (snapshots : list A) : outcome (option string * list A) :=
  match positions with
  | [] => Ok (raw, snapshots)
  | i :: positions =>
      match snapshots !! i with
      | None => applySnapshots cluster target positions raw snapshots
      | Some s =>
          match policy s with
          | None => applySnapshots cluster target positions raw snapshots
          | Some p =>
              match applyOverrideRules raw cluster (op_OverrideRules p) with
              | Ok (raw, rules) =>
                  applySnapshots cluster target positions raw
                    (<[i := set_policy (Some (mkOverridePolicy rules)) s]> snapshots)
              | Err e => Err (NewUserError (ErrPlain (kind +:+ " " +:+ go_quote (name s) +:+ " failed to apply on " +:+
                  formatOverrideTarget target +:+ ": " +:+ error_msg e)))
              | Panic w => Panic w
              end
          end
      end
  end.
End Snapshots.

Context {M : ManifestLib}.

Definition applyCROs : MemberCluster -> Unstructured -> list nat -> option string ->
    list ClusterResourceOverrideSnapshot -> outcome (option string * list ClusterResourceOverrideSnapshot) :=
  applySnapshots "ClusterResourceOverrideSnapshot" cro_name cro_Policy set_cro_policy.

Definition applyROs : MemberCluster -> Unstructured -> list nat -> option string ->
    list ResourceOverrideSnapshot -> outcome (option string * list ResourceOverrideSnapshot) :=
  applySnapshots "ResourceOverrideSnapshot" (fun s => meta_name (ro_meta s)) ro_Policy set_ro_policy.

(** The key under which a ClusterResourceOverride selects a resource: a
    namespaced resource is selected by its namespace. *)
Definition croKey (uResource : Unstructured) : ResourceIdentifier :=
  if IsClusterScopedResources (u_gvk uResource) then clusterScopedCROCandidate uResource
  else namespaceCROCandidate (u_namespace uResource).

Definition roPositions (roMap : overrideMap) (uResource : Unstructured) : list nat :=
  if IsClusterScopedResources (u_gvk uResource) then []
  else targets roMap (namespacedROCandidate uResource (u_namespace uResource)).

(** The manifest after its overrides, [None] when they have deleted it, and
    the memory. *)
Definition applyOverrides (resource : string) (ctx : overrideContext) (store : overrideStore)
    : outcome (option string * overrideStore) :=
  if decide (oc_croMap ctx = ∅ /\ oc_roMap ctx = ∅) then Ok (Some resource, store)
  else
    let! uResource := unexpected (UnmarshalJSON resource) in
    let! (raw, cros) := applyCROs (oc_cluster ctx) uResource (targets (oc_croMap ctx) (croKey uResource))
      (Some resource) (os_cros store) in
    let! (raw, ros) := applyROs (oc_cluster ctx) uResource (roPositions (oc_roMap ctx) uResource) raw (os_ros store) in
    Ok (raw, mkStore cros ros).

End Apply.

(** ** Replacing variables ends *)

Lemma str_cut_Some p s x y : str_cut p s = Some (x, y) -> s = x +:+ p +:+ y.
Proof.
  revert x y. induction s as [|a s IH]; intros x y; cbn [str_cut].
  - destruct (str_cut_prefix p "") eqn:E; [|done]. intros [= <- <-]. apply str_cut_prefix_spec in E. exact E.
  - destruct (str_cut_prefix p (String a s)) eqn:E; [intros [= <- <-]; apply str_cut_prefix_spec in E; exact E|].
    destruct (str_cut p s) as [[x' y']|] eqn:Ec; [|done]. intros [= <- <-].
    rewrite string_app_cons. f_equal. by apply IH.
Qed.

Lemma str_count_app c s t : str_count c (s +:+ t) = str_count c s + str_count c t.
Proof. induction s as [|a s IH]; [done|]. rewrite string_app_cons. cbn. rewrite IH. lia. Qed.

Lemma str_count_none c s : str_contains c s = false -> str_count c s = 0.
Proof. induction s as [|a s IH]; cbn; [done|]. intros [-> H]%orb_false_iff. by rewrite IH. Qed.

(** Replacing a variable by a value without dollar signs leaves fewer of them. *)
Lemma str_replace_first_count old new s :
  str_contains dollar new = false -> 0 < str_count dollar old -> is_Some (str_cut old s) ->
  str_count dollar (str_replace_first old new s) < str_count dollar s.
Proof.
  intros Hn Ho [[x y] Hc]. unfold str_replace_first. rewrite Hc.
  apply str_cut_Some in Hc as ->. rewrite !str_count_app, (str_count_none _ new) by done. lia.
Qed.

Lemma str_cut_prefix_app p s : str_cut_prefix p (p +:+ s) = Some s.
Proof. by apply str_cut_prefix_spec. Qed.

(** Where [p] occurs first and is followed by [q], the concatenation occurs. *)
Lemma str_cut_extend p q s x z : str_cut p s = Some (x, q +:+ z) -> is_Some (str_cut (p +:+ q) s).
Proof.
  assert (forall s, str_cut_prefix p s = Some (q +:+ z) -> is_Some (str_cut (p +:+ q) s)) as Hhead.
  { intros s' ->%str_cut_prefix_spec. rewrite <- string_app_assoc.
    destruct ((p +:+ q) +:+ z) as [|a r] eqn:E; cbn [str_cut]; rewrite <- E, str_cut_prefix_app; done. }
  revert x. induction s as [|a s IH]; intros x Hc; cbn [str_cut] in Hc.
  - apply Hhead. by destruct (str_cut_prefix p ""); [injection Hc as _ ->|].
  - destruct (str_cut_prefix p (String a s)) as [r|] eqn:E; [apply Hhead; by injection Hc as _ ->|].
    destruct (str_cut p s) as [[x' y']|] eqn:Ec; [|done]. injection Hc as _ ->.
    cbn [str_cut]. destruct (str_cut_prefix (p +:+ q) (String a s)); [done|].
    destruct (IH x' eq_refl) as [[u v] ->]. done.
Qed.

(** A value without label variables, or an error. *)
Definition replaced (r : outcome string) : Prop :=
  match r with
  | Ok r => str_cut OverrideClusterLabelKeyVariablePrefix r = None
  | Err _ => True
  | Panic _ => False
  end.

Lemma replaceLoop_ends cluster input fuel result :
  (forall k v, mc_labels cluster !! k = Some v -> str_contains dollar v = false) ->
  str_count dollar result < fuel ->
  replaced (replaceLoop fuel cluster input result) /\
  forall fuel', fuel <= fuel' -> replaceLoop fuel' cluster input result = replaceLoop fuel cluster input result.
Proof.
  intros Hv. revert result. induction fuel as [|fuel IH]; intros result Hf; [lia|].
  cbn [replaceLoop]. destruct (str_cut OverrideClusterLabelKeyVariablePrefix result) as [[x rest]|] eqn:Hc.
  2:{ split; [done|]. intros [|f'] ?; [lia|]. cbn [replaceLoop]. by rewrite Hc. }
  destruct (str_cut "}" rest) as [[key after]|] eqn:Hr.
  2:{ split; [done|]. intros [|f'] ?; [lia|]. cbn [replaceLoop]. by rewrite Hc, Hr. }
  destruct (mc_labels cluster !! key) as [v|] eqn:Hl.
  2:{ split; [done|]. intros [|f'] ?; [lia|]. cbn [replaceLoop]. by rewrite Hc, Hr, Hl. }
  destruct (IH (str_replace_first (OverrideClusterLabelKeyVariablePrefix +:+ key +:+ "}") v result)) as [H1 H2].
  - eapply Nat.lt_le_trans; [apply str_replace_first_count|lia].
    + by eapply Hv.
    + rewrite str_count_app. cbn. lia.
    + apply str_cut_Some in Hr. subst rest. eapply str_cut_extend.
      rewrite string_app_assoc. exact Hc.
  - split; [exact H1|]. intros [|f'] ?; [lia|]. cbn [replaceLoop]. rewrite Hc, Hr, Hl. apply H2. lia.
Qed.

(** The loop that replaces the label variables of an override value
    ends, on every input, for every cluster whose label values contain no
    dollar sign (the API server accepts no others): the result is a value
    without any such variable, or an error that names a label the cluster does
    not have or a variable that is not closed, and more rounds would not change
    it. *)
Theorem label_variables_replaced cluster input :
  (forall k v, mc_labels cluster !! k = Some v -> str_contains dollar v = false) ->
  replaced (replaceClusterLabelKeyVariables cluster input) /\
  forall fuel, S (str_count dollar input) <= fuel ->
    replaceLoop fuel cluster input input = replaceClusterLabelKeyVariables cluster input.
Proof. intros Hv. apply replaceLoop_ends; [done|lia]. Qed.

Lemma label_variables_replaced_witness :
  exists cluster, mc_labels cluster = {["env" := "prod"]} /\
    replaceClusterLabelKeyVariables cluster "${MEMBER-CLUSTER-LABEL-KEY-env}-db" = Ok "prod-db" /\
    replaced (replaceClusterLabelKeyVariables cluster "${MEMBER-CLUSTER-LABEL-KEY-env}-db").
Proof.
  exists (mkMemberCluster (new_meta "c" "" {["env" := "prod"]} []) [] [] ∅ (mkResourceUsage ∅ ∅ ∅ 0) None []).
  split_and!; [done|by_decide|].
  refine (proj1 (label_variables_replaced _ _ _)).
  intros k v. cbn. intros [_ <-]%lookup_singleton_Some. done.
Defined.

(** ** A manifest gets what it would get alone *)

Section Alone.
Context {K : K8sLib} {P : PatchLib} {M : ManifestLib}.
Variable cluster : MemberCluster.

(** The rules of one snapshot, on a manifest; nothing is written back. *)
Fixpoint overridden (rules : list OverrideRule) (raw : option string) : outcome (option string) :=
  match rules with
  | [] => Ok raw
  | rule :: rest =>
      let! matched := IsClusterMatched cluster rule in
      if negb matched then overridden rest raw
      else if decide (rule_OverrideType rule = DeleteOverrideType) then Ok None
      else
        let! os := resolveValues cluster (rule_JSONPatchOverrides rule) in
        let! raw := if decide (os = []) then Ok raw else applyPatch os raw in
        overridden rest raw
  end.

(** Replacing the variables of a value again changes nothing. *)
Definition settled (o : JSONPatchOverride) : Prop :=
  forall o', resolveValue cluster o = Ok o' -> resolveValue cluster o' = Ok o'.

Definition settledRule (r : OverrideRule) : Prop := Forall settled (rule_JSONPatchOverrides r).

Definition rulesOf (policy : option OverridePolicy) : list OverrideRule :=
  match policy with Some p => op_OverrideRules p | None => [] end.

(** What earlier manifests may have left of a rule. *)
Definition worn (o o' : JSONPatchOverride) : Prop := o' = o \/ resolveValue cluster o = Ok o'.

Definition wornRule (r r' : OverrideRule) : Prop :=
  rule_ClusterSelector r' = rule_ClusterSelector r /\ rule_OverrideType r' = rule_OverrideType r /\
  Forall2 worn (rule_JSONPatchOverrides r) (rule_JSONPatchOverrides r').

Lemma wornRule_refl r : wornRule r r.
Proof. split_and!; [done|done|]. apply Forall_Forall2_diag, Forall_forall. intros o _. by left. Qed.

Lemma wornRules_refl rules : Forall2 wornRule rules rules.
Proof. apply Forall_Forall2_diag, Forall_forall. intros r _. apply wornRule_refl. Qed.

Lemma resolveValues_worn os os' :
  Forall settled os -> Forall2 worn os os' -> resolveValues cluster os' = resolveValues cluster os.
Proof.
  intros Hs Hw. induction Hw as [|o o' os os' Ho _ IH]; [done|].
  apply Forall_cons in Hs as [Hs Hss]. cbn. rewrite (IH Hss). f_equal.
  destruct Ho as [->|Ho]; [done|]. rewrite Ho. by apply Hs.
Qed.

Lemma resolveValues_wears os os' : resolveValues cluster os = Ok os' -> Forall2 worn os os'.
Proof.
  revert os'. induction os as [|o os IH]; intros os'; cbn; [by intros [= <-]|].
  rewrite obind_Ok. intros (o' & Ho & H). rewrite obind_Ok in H. destruct H as (r & Hr & [= <-]).
  constructor; [by right|by apply IH].
Qed.

Lemma IsClusterMatched_worn r r' : wornRule r r' -> IsClusterMatched cluster r' = IsClusterMatched cluster r.
Proof. intros (H & _ & _). unfold IsClusterMatched. by rewrite H. Qed.

(** Applying worn rules has the effect of the rules, and wears them. *)
Lemma applyOverrideRules_worn rules rules' raw :
  Forall settledRule rules -> Forall2 wornRule rules rules' ->
  match applyOverrideRules raw cluster rules' with
  | Ok (out, rules2) => overridden rules raw = Ok out /\ Forall2 wornRule rules rules2
  | Err e => overridden rules raw = Err e
  | Panic p => overridden rules raw = Panic p
  end.
Proof.
  intros Hs Hw. revert raw. induction Hw as [|r r' rules rules' Hr Hrs IH]; intros raw; cbn; [done|].
  apply Forall_cons in Hs as [Hs1 Hs]. specialize (IH Hs).
  rewrite (IsClusterMatched_worn r r') by done.
  destruct (IsClusterMatched cluster r) as [[]|e|p]; cbn; [|..|done|done].
  2:{ specialize (IH raw). destruct (applyOverrideRules raw cluster rules') as [[out r2]|e|p]; cbn; [|done|done].
      destruct IH. split; [done|]. by constructor. }
  destruct Hr as (E1 & E2 & Ho). rewrite E2.
  destruct (decide (rule_OverrideType r = DeleteOverrideType)); [split; [done|by constructor]|].
  unfold applyJSONPatchOverride.
  pose proof (resolveValues_worn _ _ Hs1 Ho) as Hv.
  destruct (rule_JSONPatchOverrides r') as [|o' os'] eqn:Eo.
  - apply Forall2_nil_inv_r in Ho as E0. rewrite E0 in *. cbn.
    specialize (IH raw). destruct (applyOverrideRules raw cluster rules') as [[out r2]|e|p]; cbn; [|done|done].
    destruct IH. split; [done|]. constructor; [|done]. split_and!; [done|done|]. by rewrite E0.
  - rewrite Hv. destruct (resolveValues cluster (rule_JSONPatchOverrides r)) as [os|e|p] eqn:Ev; cbn; [|done|done].
    apply resolveValues_wears in Ev as Hos.
    destruct (decide (os = [])) as [->|_].
    { apply Forall2_nil_inv_r in Hos. rewrite Hos in Ho. by apply Forall2_nil_inv_l in Ho. }
    destruct (applyPatch os raw) as [raw2|e|p]; cbn; [|done|done].
    specialize (IH raw2). destruct (applyOverrideRules raw2 cluster rules') as [[out r2]|e|p]; cbn; [|done|done].
    destruct IH. split; [done|]. constructor; [|done]. by split_and!.
Qed.

Section Snapshots.
Context {A : Type} (kind : string) (name : A -> string) (policy : A -> option OverridePolicy)
  (set_policy : option OverridePolicy -> A -> A).
Hypothesis policy_set : forall p s, policy (set_policy p s) = p.
Hypothesis name_set : forall p s, name (set_policy p s) = name s.

Definition wornSnapshot (s s' : A) : Prop :=
  name s' = name s /\ option_Forall2 (fun p p' => Forall2 wornRule (op_OverrideRules p) (op_OverrideRules p'))
    (policy s) (policy s').

Definition settledSnapshot (s : A) : Prop := Forall settledRule (rulesOf (policy s)).

Lemma wornSnapshots_refl ss : Forall2 wornSnapshot ss ss.
Proof.
  apply Forall_Forall2_diag, Forall_forall. intros s _. split; [done|].
  destruct (policy s) as [q|]; constructor. apply wornRules_refl.
Qed.

(** The snapshots of a resource, on a manifest; nothing is written back. *)
Fixpoint overriddenBy (target : Unstructured) (positions : list nat) (raw : option string) (snapshots : list A)
    : outcome (option string) :=
  match positions with
  | [] => Ok raw
  | i :: positions =>
      match snapshots !! i ≫= (fun s => (s,.) <$> policy s) with
      | None => overriddenBy target positions raw snapshots
      | Some (s, p) =>
          match overridden (op_OverrideRules p) raw with
          | Ok raw => overriddenBy target positions raw snapshots
          | Err e => Err (NewUserError (ErrPlain (kind +:+ " " +:+ go_quote (name s) +:+ " failed to apply on " +:+
              formatOverrideTarget target +:+ ": " +:+ error_msg e)))
          | Panic w => Panic w
          end
      end
  end.

Lemma applySnapshots_worn target positions raw ss ss' :
  Forall settledSnapshot ss -> Forall2 wornSnapshot ss ss' ->
  match applySnapshots kind name policy set_policy cluster target positions raw ss' with
  | Ok (out, ss2) => overriddenBy target positions raw ss = Ok out /\ Forall2 wornSnapshot ss ss2
  | Err e => overriddenBy target positions raw ss = Err e
  | Panic p => overriddenBy target positions raw ss = Panic p
  end.
Proof.
  intros Hs. revert raw ss'. induction positions as [|i positions IH]; intros raw ss' Hw; cbn; [done|].
  destruct (ss' !! i) as [s'|] eqn:Hi'; cbn.
  2:{ assert (ss !! i = None) as ->; [|by apply IH].
      apply lookup_ge_None. rewrite (Forall2_length _ _ _ Hw). by apply lookup_ge_None. }
  destruct (Forall2_lookup_r _ _ _ _ _ Hw Hi') as (s & Hi & Hn & Hp). rewrite Hi; cbn.
  pose proof (Forall_lookup_1 _ _ _ _ Hs Hi) as Hset. unfold settledSnapshot in Hset.
  destruct (policy s) as [p|] eqn:Ep; inversion Hp as [? p' Hp' Ex Ey|Ey]; cbn in *; [|by apply IH].
  clear Hp. rename Hp' into Hp. subst.
  pose proof (applyOverrideRules_worn _ _ raw Hset Hp) as Ha.
  destruct (applyOverrideRules raw cluster (op_OverrideRules p')) as [[out rules]|e|w]; cbn in Ha.
  - destruct Ha as [-> Ha]. apply IH. rewrite <- (list_insert_id ss i s) by done.
    apply Forall2_insert; [done|]. split; [by rewrite name_set|]. rewrite policy_set, Ep. by constructor.
  - rewrite Ha, Hn. done.
  - by rewrite Ha.
Qed.
End Snapshots.

Definition wornStore (store store' : overrideStore) : Prop :=
  Forall2 (wornSnapshot cro_name cro_Policy) (os_cros store) (os_cros store') /\
  Forall2 (wornSnapshot (fun s => meta_name (ro_meta s)) ro_Policy) (os_ros store) (os_ros store').

Definition settledStore (store : overrideStore) : Prop :=
  Forall (settledSnapshot cro_Policy) (os_cros store) /\ Forall (settledSnapshot ro_Policy) (os_ros store).

Lemma wornStore_refl store : wornStore store store.
Proof. split; apply wornSnapshots_refl. Qed.

(** What a manifest becomes with the snapshots as they were read. *)
Definition alone (croMap roMap : overrideMap) (store : overrideStore) (resource : string) : outcome (option string) :=
  if decide (croMap = ∅ /\ roMap = ∅) then Ok (Some resource)
  else
    let! uResource := unexpected (UnmarshalJSON resource) in
    let! raw := overriddenBy "ClusterResourceOverrideSnapshot" cro_name cro_Policy uResource
      (targets croMap (croKey uResource)) (Some resource) (os_cros store) in
    overriddenBy "ResourceOverrideSnapshot" (fun s => meta_name (ro_meta s)) ro_Policy uResource
      (roPositions roMap uResource) raw (os_ros store).

(** With snapshots that earlier manifests have worn, a manifest becomes what it
    would become alone. *)
Lemma applyOverrides_worn croMap roMap store store' resource :
  settledStore store -> wornStore store store' ->
  match applyOverrides resource (mkOverrideContext cluster croMap roMap) store' with
  | Ok (out, store2) => alone croMap roMap store resource = Ok out /\ wornStore store store2
  | Err e => alone croMap roMap store resource = Err e
  | Panic p => alone croMap roMap store resource = Panic p
  end.
Proof.
  intros [Hs1 Hs2] [Hw1 Hw2]. unfold applyOverrides, alone. cbn. destruct (decide _); [done|].
  destruct (unexpected (UnmarshalJSON resource)) as [u|e|p]; cbn; [|done|done].
  pose proof (applySnapshots_worn "ClusterResourceOverrideSnapshot" cro_name cro_Policy set_cro_policy
    (fun _ _ => eq_refl) (fun _ _ => eq_refl) u (targets croMap (croKey u)) (Some resource) _ _ Hs1 Hw1) as H1.
  unfold applyCROs. destruct (applySnapshots _ _ _ _ _ _ _ _ (os_cros store')) as [[raw cros]|e|p]; cbn.
  2,3: by rewrite H1.
  destruct H1 as [-> H1]; cbn.
  pose proof (applySnapshots_worn "ResourceOverrideSnapshot" (fun s => meta_name (ro_meta s)) ro_Policy set_ro_policy
    (fun _ _ => eq_refl) (fun _ _ => eq_refl) u (roPositions roMap u) raw _ _ Hs2 Hw2) as H2.
  unfold applyROs. destruct (applySnapshots _ _ _ _ _ _ _ _ (os_ros store')) as [[raw' ros]|e|p]; cbn; [|done|done].
  destruct H2 as [-> H2]. by split.
Qed.

End Alone.

(** ** When it does not *)

(** The values that the replaced variables leave behind stay in the snapshot.
    With a label value that completes another variable, the first manifest gets
    the variable and the second manifest of the same snapshot its value. *)
Lemma second_manifest_differs :
  exists cluster o o1 o2,
    resolveValue cluster o = Ok o1 /\ resolveValue cluster o1 = Ok o2 /\ jp_Value o1 <> jp_Value o2.
Proof.
  exists (mkMemberCluster (new_meta "c" "" {["k" := "NAME"]} []) [] [] ∅ (mkResourceUsage ∅ ∅ ∅ 0) None []),
    (mkJSONPatch "add" "/metadata/labels/x" "${MEMBER-CLUSTER-${MEMBER-CLUSTER-LABEL-KEY-k}}"),
    (mkJSONPatch "add" "/metadata/labels/x" "${MEMBER-CLUSTER-NAME}"),
    (mkJSONPatch "add" "/metadata/labels/x" "c").
  split_and!; [vm_compute; reflexivity|vm_compute; reflexivity|done].
Qed.
