(* ===== verification/WorkSummary.v ===== *)
(** * The status of a binding from its works

    The second half of [pkg/controllers/workgenerator/controller.go]: the
    conditions of a binding summarise those of its works, and the placements
    that failed, drifted or differ are collected from their manifests; and the
    comparisons of [pkg/utils/common.go] these lists are sorted by.  The works
    are given in the order in which the range loop over their map visits them. *)

From stdpp Require Import prelude gmap strings.
From S2P Require Import Prelude K8s Api Sample Utils FrameworkUtils Hub Overrider WorkApi.

Local Open Scope string_scope.
Local Open Scope list_scope.

(** ** Reasons *)

Definition WorkNotAppliedReason : string := "NotAllWorkHaveBeenApplied".
Definition AllWorkAppliedReason : string := "AllWorkHaveBeenApplied".
Definition WorkNotAvailableReason : string := "NotAllWorkAreAvailable".
Definition AllWorkAvailableReason : string := "AllWorkAreAvailable".
Definition AllWorkDiffReportedReason : string := "AllWorkHaveDiffReported".
Definition WorkNotDiffReportedReason : string := "NotAllWorkHaveDiffReported".
Definition WorkNotAllManifestsTrackableReasonNew : string := "SomeManifestsAreNotAvailabilityTrackable".

Definition maxFailedResourcePlacementLimit : nat := 100.
Definition maxDriftedResourcePlacementLimit : nat := 100.
Definition maxDiffedResourcePlacementLimit : nat := 100.

(** ** Sorting *)

(** [fmt.Sprintf("%s/%s/%s/%s/%s", ...)], with three more parts for an envelope. *)
Definition identifierString (r : ResourceIdentifier) : string :=
  let base := rid_Group r +:+ "/" +:+ rid_Version r +:+ "/" +:+ rid_Kind r +:+ "/" +:+ rid_Namespace r +:+ "/" +:+
    rid_Name r in
  match rid_Envelope r with
  | None => base
  | Some e => base +:+ "/" +:+ env_Type e +:+ "/" +:+ env_Namespace e +:+ "/" +:+ env_Name e
  end.

Definition LessFuncDriftedResourcePlacements (a b : DriftedResourcePlacement) : bool :=
  str_lt (identifierString (dp_Resource a)) (identifierString (dp_Resource b)).

Definition LessFuncDiffedResourcePlacements (a b : DiffedResourcePlacement) : bool :=
  str_lt (identifierString (dfp_Resource a)) (identifierString (dfp_Resource b)).

Section Summary.
Context {K : K8sLib}.
Variable now : Z.

(** ** Conditions *)

Inductive workConditionSummarizedStatus : Set :=
| SummarizedIncomplete
| SummarizedTrue
| SummarizedFalse.

#[global] Instance workConditionSummarizedStatus_eq_dec : EqDecision workConditionSummarizedStatus.
Proof. solve_decision. Defined.

(** The variables of the loop over the works. *)
Record summary : Set := mkSummary {
  sum_completed : bool;
  sum_successful : bool;
  sum_firstIncomplete : option Work;
  sum_firstFailed : option Work;
  sum_firstUntrackable : option Work;
}.

Definition summary0 : summary := mkSummary true true None None None.

Definition first (o : option Work) (w : Work) : option Work := match o with None => Some w | Some _ => o end.

Definition markFailed (s : summary) (w : Work) : summary :=
  mkSummary (sum_completed s) false (sum_firstIncomplete s) (first (sum_firstFailed s) w) (sum_firstUntrackable s).

Definition markIncomplete (s : summary) (w : Work) : summary :=
  mkSummary false (sum_successful s) (first (sum_firstIncomplete s) w) (sum_firstFailed s) (sum_firstUntrackable s).

Definition markUntrackable (s : summary) (w : Work) : summary :=
  mkSummary (sum_completed s) (sum_successful s) (sum_firstIncomplete s) (sum_firstFailed s)
    (first (sum_firstUntrackable s) w).

(** One round of the loops of [setAllWorkAppliedCondition] and [setAllWorkDiffReportedCondition]. *)
Definition summarizeWork (condType : string) (s : summary) (w : Work) : summary :=
  let cond := FindStatusCondition (wst_Conditions (w_status w)) condType in
  if IsConditionStatusTrue cond (w_generation w) then s
  else if IsConditionStatusFalse cond (w_generation w) then markFailed s w
  else markIncomplete s w.

Definition untrackable (cond : option Condition) : bool :=
  match cond with
  | Some c => bool_decide (cond_reason c = WorkNotAllManifestsTrackableReasonNew) ||
              bool_decide (cond_reason c = WorkNotAllManifestsTrackableReason)
  | None => false
  end.

(** One round of the loop of [setAllWorkAvailableCondition]. *)
Definition summarizeAvailable (s : summary) (w : Work) : summary :=
  let cond := FindStatusCondition (wst_Conditions (w_status w)) WorkConditionTypeAvailable in
  if IsConditionStatusTrue cond (w_generation w) && untrackable cond then markUntrackable s w
  else if IsConditionStatusTrue cond (w_generation w) then s
  else if IsConditionStatusFalse cond (w_generation w) then markFailed s w
  else markIncomplete s w.

Definition nameOf (o : option Work) : string := match o with Some w => w_name w | None => EmptyString end.

(** [binding.SetConditions] of one condition at the binding's generation. *)
Definition setCondition (status : ConditionStatus) (type reason message : string) (binding : BindingObj) : BindingObj :=
  SetConditions now [mkCondition type status (meta_generation (b_meta binding)) 0 reason message] binding.

Definition setAllWorkAppliedCondition (works : list Work) (binding : BindingObj)
    : workConditionSummarizedStatus * BindingObj :=
  let s := fold_left (summarizeWork WorkConditionTypeApplied) works summary0 in
  if negb (sum_completed s) then
    (SummarizedIncomplete, setCondition ConditionFalse ResourceBindingApplied WorkNotAppliedReason
      ("Work object " +:+ nameOf (sum_firstIncomplete s) +:+ " has not yet completed the apply op") binding)
  else if negb (sum_successful s) then
    (SummarizedFalse, setCondition ConditionFalse ResourceBindingApplied WorkNotAppliedReason
      ("Work object " +:+ nameOf (sum_firstFailed s) +:+ " has failed to apply") binding)
  else
    (SummarizedTrue, setCondition ConditionTrue ResourceBindingApplied AllWorkAppliedReason
      "All corresponding work objects are applied" binding).

Definition setAllWorkDiffReportedCondition (works : list Work) (binding : BindingObj)
    : workConditionSummarizedStatus * BindingObj :=
  let s := fold_left (summarizeWork WorkConditionTypeDiffReported) works summary0 in
  if negb (sum_completed s) then
    (SummarizedIncomplete, setCondition ConditionFalse ResourceBindingDiffReported WorkNotDiffReportedReason
      ("Work object " +:+ nameOf (sum_firstIncomplete s) +:+ " has not yet completed diff reporting") binding)
  else if negb (sum_successful s) then
    (SummarizedFalse, setCondition ConditionFalse ResourceBindingDiffReported WorkNotDiffReportedReason
      ("Work object " +:+ nameOf (sum_firstFailed s) +:+ " has failed to report diff") binding)
  else
    (SummarizedTrue, setCondition ConditionTrue ResourceBindingDiffReported AllWorkDiffReportedReason
      "All corresponding work objects have reported diff" binding).

Definition setAllWorkAvailableCondition (works : list Work) (binding : BindingObj)
    : workConditionSummarizedStatus * BindingObj :=
  let appliedCond := GetCondition binding ResourceBindingApplied in
  if negb (IsConditionStatusTrue appliedCond (meta_generation (b_meta binding))) then (SummarizedFalse, binding)
  else
    let s := fold_left summarizeAvailable works summary0 in
    if negb (sum_completed s) then
      (SummarizedIncomplete, setCondition ConditionFalse ResourceBindingAvailable WorkNotAvailableReason
        ("Work object " +:+ nameOf (sum_firstIncomplete s) +:+ " has not yet completed availability check") binding)
    else if negb (sum_successful s) then
      (SummarizedFalse, setCondition ConditionFalse ResourceBindingAvailable WorkNotAvailableReason
        ("Work object " +:+ nameOf (sum_firstFailed s) +:+ " is not yet available") binding)
    else
      match sum_firstUntrackable s with
      | Some w =>
          (SummarizedTrue, setCondition ConditionTrue ResourceBindingAvailable WorkNotAvailabilityTrackableReason
            ("The availability of work object " +:+ w_name w +:+ " is not trackable") binding)
      | None =>
          (SummarizedTrue, setCondition ConditionTrue ResourceBindingAvailable AllWorkAvailableReason
            "All corresponding work objects are available" binding)
      end.

(** ** Manifests *)

(** The envelope that a work was generated from. *)
Definition envelopeOf (work : Work) : option EnvelopeIdentifier :=
  match w_labels work !! EnvelopeTypeLabel with
  | Some envelopeType =>
      Some (mkEnvelope (read_key (w_labels work) EnvelopeNameLabel) (read_key (w_labels work) EnvelopeNamespaceLabel)
        envelopeType)
  | None => None
  end.

Definition resourceOf (work : Work) (m : ManifestCondition) : ResourceIdentifier :=
  let id := mfc_Identifier m in
  mkResourceIdentifier (wri_Group id) (wri_Version id) (wri_Kind id) (wri_Name id) (wri_Namespace id)
    (envelopeOf work).

(** The condition that makes a manifest a failed one. *)
Definition failedCondition (m : ManifestCondition) : option Condition :=
  let isFalse (c : option Condition) :=
    match c with Some c => if decide (cond_status c = ConditionFalse) then Some c else None | None => None end in
  match isFalse (FindStatusCondition (mfc_Conditions m) WorkConditionTypeApplied) with
  | Some c => Some c
  | None => isFalse (FindStatusCondition (mfc_Conditions m) WorkConditionTypeAvailable)
  end.

Definition extractFailedResourcePlacementsFromWork (work : Work) : list FailedResourcePlacement :=
  let appliedCond := FindStatusCondition (wst_Conditions (w_status work)) WorkConditionTypeApplied in
  let availableCond := FindStatusCondition (wst_Conditions (w_status work)) WorkConditionTypeAvailable in
  if negb (IsConditionStatusFalse appliedCond (w_generation work)) &&
     negb (IsConditionStatusFalse availableCond (w_generation work)) then []
  else
    omap (fun m => mkFailedPlacement (resourceOf work m) <$> failedCondition m)
      (wst_ManifestConditions (w_status work)).

Definition extractDriftedResourcePlacementsFromWork (work : Work) : list DriftedResourcePlacement :=
  omap (fun m =>
    match mfc_DriftDetails m with
    | None => None
    | Some d => Some (mkDriftedPlacement (resourceOf work m) (drift_ObservationTime d)
        (drift_ObservedInMemberClusterGeneration d) (drift_FirstDriftedObservedTime d) (drift_ObservedDrifts d))
    end) (wst_ManifestConditions (w_status work)).

Definition extractDiffedResourcePlacementsFromWork (work : Work) : list DiffedResourcePlacement :=
  omap (fun m =>
    match mfc_DiffDetails m with
    | None => None
    | Some d => Some (mkDiffedPlacement (resourceOf work m) (diff_ObservationTime d)
        (diff_ObservedInMemberClusterGeneration d) (diff_FirstDiffedObservedTime d) (diff_ObservedDiffs d))
    end) (wst_ManifestConditions (w_status work)).

(** ** The binding *)

Definition isReportDiff (binding : BindingObj) : bool :=
  match rbs_ApplyStrategy (b_spec binding) with
  | Some s => bool_decide (as_Type s = ApplyStrategyTypeReportDiff)
  | None => false
  end.

Definition set_b_placements (f : list FailedResourcePlacement) (dr : list DriftedResourcePlacement)
    (df : list DiffedResourcePlacement) (b : BindingObj) : BindingObj :=
  mkBinding (b_meta b) (b_spec b) (mkBindingStatus f dr df (b_conditions b)).

(** What the switch of the loop collects from the works. *)
Record collected : Set := mkCollected {
  col_failed : list FailedResourcePlacement;
  col_diffed : list DiffedResourcePlacement;
  col_drifted : list DriftedResourcePlacement;
}.

Definition collectFrom (reportDiff : bool) (applied available diffReported : workConditionSummarizedStatus)
    (acc : collected) (w : Work) : collected :=
  let failed := col_failed acc ++ extractFailedResourcePlacementsFromWork w in
  let diffed := col_diffed acc ++ extractDiffedResourcePlacementsFromWork w in
  let drifted := col_drifted acc ++ extractDriftedResourcePlacementsFromWork w in
  if being_deleted (w_meta w) then acc
  else if reportDiff then
    match diffReported with
    | SummarizedTrue => mkCollected (col_failed acc) diffed (col_drifted acc)
    | _ => acc
    end
  else
    match applied, available with
    | SummarizedIncomplete, _ => acc
    | SummarizedFalse, _ => mkCollected failed diffed drifted
    | SummarizedTrue, SummarizedIncomplete => mkCollected (col_failed acc) (col_diffed acc) drifted
    | SummarizedTrue, SummarizedFalse => mkCollected failed (col_diffed acc) drifted
    | SummarizedTrue, SummarizedTrue => mkCollected (col_failed acc) (col_diffed acc) drifted
    end.

(** [if len(l) > limit { sort; l = l[0:limit] }] *)
Definition cutSorted {A} (less : A -> A -> bool) (limit : nat) (l : list A) : list A :=
  if decide (limit < length l) then take limit (go_sort less l) else l.

Definition setBindingStatus (works : list Work) (resourceBinding : BindingObj) : BindingObj :=
  let reportDiff := isReportDiff resourceBinding in
  let '(applied, available, diffReported, binding) :=
    if reportDiff then
      let '(d, b) := setAllWorkDiffReportedCondition works resourceBinding in
      (SummarizedIncomplete, SummarizedIncomplete, d, b)
    else
      let '(ap, b) := setAllWorkAppliedCondition works resourceBinding in
      let '(av, b) := setAllWorkAvailableCondition works b in
      (ap, av, SummarizedIncomplete, b) in
  let c := fold_left (collectFrom reportDiff applied available diffReported) works (mkCollected [] [] []) in
  set_b_placements (take maxFailedResourcePlacementLimit (col_failed c))
    (cutSorted LessFuncDriftedResourcePlacements maxDriftedResourcePlacementLimit (col_drifted c))
    (cutSorted LessFuncDiffedResourcePlacements maxDiffedResourcePlacementLimit (col_diffed c)) binding.

End Summary.
