(* ===== verification/WorkGen.v ===== *)
(** * The work generator

    Models [pkg/controllers/workgenerator/controller.go] and [envelope.go]: the
    manifests of the resource snapshots that a binding points to, with their
    overrides, become works in the namespace of the target cluster; works that
    no snapshot asks for are deleted; and the binding gets the status of its
    works.

    [now] is the value of [time.Now()] and [mapOrder] the order in which range
    loops visit maps.  Requests that the source issues in parallel are the tasks
    of a group; those launched before an early return run before it.  The
    digests of SHA-256 are the class [DigestLib].  Deep copies are the values
    themselves.  Logs and events are left out. *)

From stdpp Require Import prelude gmap strings.
From S2P Require Import Prelude K8s Api Sample Utils FrameworkUtils Hub Overrider WorkApi WorkOverride WorkSummary.

Local Open Scope string_scope.
Local Open Scope list_scope.

(** ** Results and digests *)

Record Result : Set := mkResult { res_Requeue : bool; res_RequeueAfter : Z }.

#[global] Instance Result_eq_dec : EqDecision Result.
Proof. solve_decision. Defined.

Definition finished : Result := mkResult false 0.
Definition seconds (n : Z) : Z := (n * 1000000000)%Z.

(** [resource.HashOf] of the two lists of override snapshots, and the first
    eight bytes of the SHA-256 of a string, in hexadecimal. *)
Class DigestLib : Type := {
  hashOfROs : list NamespacedName -> outcome string;
  hashOfCROs : list string -> outcome string;
  shortDigest : string -> string;
}.

Definition errResourceSnapshotNotFound : goerr := ErrPlain "the master resource snapshot is not found".

Definition OverrideNotSpecifiedReason : string := "NoOverrideSpecified".
Definition OverriddenFailedReason : string := "OverriddenFailed".
Definition OverriddenSucceededReason : string := "OverriddenSucceeded".
Definition AllWorkSyncedReason : string := "AllWorkSynced".
Definition SyncWorkFailedReason : string := "SyncWorkFailed".
Definition WorkApplyInProcess : string := "ApplyInProgress".
Definition WorkDiffReportInProcess : string := "DiffReportInProgress".

(** ** Names of works *)

Definition invalidTrackingLabel (s : ResourceSnapshotObj) : goerr :=
  NewUnexpectedBehaviorError (ErrPlain ("resource snapshot " +:+ GetObjectKeyFromObj (rsnap_meta s) +:+
    " has an invalid CRP tracking label")).

Definition invalidSubIndex (s : ResourceSnapshotObj) : goerr :=
  NewUnexpectedBehaviorError (ErrPlain ("resource snapshot " +:+ GetObjectKeyFromObj (rsnap_meta s) +:+
    " has an invalid sub-index annotation")).

Definition getWorkNamePrefixFromSnapshotName (resourceSnapshot : ResourceSnapshotObj) : outcome string :=
  let m := rsnap_meta resourceSnapshot in
  match meta_labels m !! PlacementTrackingLabel with
  | None => Err (invalidTrackingLabel resourceSnapshot)
  | Some placementName =>
      let baseWorkName :=
        if decide (meta_namespace m <> EmptyString) then meta_namespace m +:+ "." +:+ placementName
        else placementName in
      match meta_annotations m !! SubindexOfResourceSnapshotAnnotation with
      | None => Ok (baseWorkName +:+ "-work")
      | Some subIndex =>
          match Atoi subIndex with
          | Ok subIndexVal =>
              if (subIndexVal <? 0)%Z then Err (invalidSubIndex resourceSnapshot)
              else Ok (baseWorkName +:+ "-" +:+ zstr subIndexVal)
          | _ => Err (invalidSubIndex resourceSnapshot)
          end
      end
  end.

(** ** Envelopes *)

Record EnvelopeReader : Set := mkEnvelopeReader {
  er_Type : string;
  er_Namespace : string;
  er_Name : string;
  er_Data : gmap string string;
}.

Section WorkGen.
Context {K : K8sLib} {M : ManifestLib} {P : PatchLib} {D : DigestLib}.
Variable now : Z.
Variable mapOrder : forall A : Type, list (string * A) -> list (string * A).

(** One round of the loop over the data of an envelope. *)
Definition checkEnveloped (envelope : EnvelopeReader) (manifests : list string) (kv : string * string)
    : outcome (list string) :=
  let '(k, raw) := kv in
  match UnmarshalJSON raw with
  | Err e => Err (NewUnexpectedBehaviorError (wrap_error
      ("failed to parse the wrapped manifest data to a Kubernetes runtime object (manifestKey=" +:+ k +:+ ")") e))
  | Panic w => Panic w
  | Ok uObj =>
      if decide (er_Type envelope = ClusterResourceEnvelopeType /\ u_namespace uObj <> EmptyString) then
        Err (NewUserError (ErrPlain ("a namespaced object " +:+ k +:+ " has been wrapped in a cluster resource envelope")))
      else if decide (er_Type envelope = ResourceEnvelopeType /\ u_namespace uObj = EmptyString) then
        Err (NewUserError (ErrPlain ("a cluster scope object " +:+ k +:+ " has been wrapped in a resource envelope")))
      else if decide (er_Namespace envelope <> u_namespace uObj) then
        Err (NewUserError (ErrPlain ("a namespaced object " +:+ k +:+
          " in has been wrapped in a resource envelope from another namespace")))
      else Ok (manifests ++ [raw])
  end.

(** [strings.Compare(a, b) > 0] *)
Definition manifestLess (a b : string) : bool := str_lt b a.

Definition extractManifestsFromEnvelopeCR (envelope : EnvelopeReader) : outcome (list string) :=
  let! manifests := ofold (checkEnveloped envelope) [] (mapOrder _ (map_to_list (er_Data envelope))) in
  Ok (go_sort manifestLess manifests).

(** Errors carry whether they fail the Overridden condition. *)
Definition flagged (flag : bool) {A} (m : outcome A) : outcome (A + bool * goerr) :=
  match m with
  | Ok a => Ok (inl a)
  | Err e => Ok (inr (flag, e))
  | Panic w => Panic w
  end.

Fixpoint applyOverridesToEnvelopeManifests (manifests : list string) (ctx : overrideContext) (store : overrideStore)
    (acc : list string) : outcome (list string * overrideStore + bool * goerr) :=
  match manifests with
  | [] => Ok (inl (acc, store))
  | manifest :: rest =>
      match UnmarshalJSON manifest with
      | Err e => Ok (inr (false, NewUnexpectedBehaviorError (wrap_error "failed to parse manifest from envelope" e)))
      | Panic w => Panic w
      | Ok target =>
          match applyOverrides manifest ctx store with
          | Err e => Ok (inr (true, wrap_error ("failed to apply overrides to " +:+ formatOverrideTarget target +:+
              " from envelope") e))
          | Panic w => Panic w
          | Ok (None, store) => applyOverridesToEnvelopeManifests rest ctx store acc
          | Ok (Some raw, store) => applyOverridesToEnvelopeManifests rest ctx store (acc ++ [raw])
          end
      end
  end.

(** ** Building works *)

Definition stampAnnotations (binding : BindingObj) (roHash croHash : string) : gmap string string :=
  <[ParentResourceSnapshotNameAnnotation := rbs_ResourceSnapshotName (b_spec binding)]>
  (<[ParentResourceOverrideSnapshotHashAnnotation := roHash]>
  {[ParentClusterResourceOverrideSnapshotHashAnnotation := croHash]}).

(** The labels that name the binding; a binding in a namespace adds it. *)
Definition bindingLabels (binding : BindingObj) : gmap string string :=
  let ls : gmap string string := {[ParentBindingLabel := b_name binding]} in
  if decide (meta_namespace (b_meta binding) <> EmptyString)
  then <[ParentNamespaceLabel := meta_namespace (b_meta binding)]> ls else ls.

Definition placementOf (binding : BindingObj) : string := read_key (meta_labels (b_meta binding)) PlacementTrackingLabel.

Definition stampLabels (binding : BindingObj) (snapshot : ResourceSnapshotObj) : gmap string string :=
  <[PlacementTrackingLabel := placementOf binding]>
  (<[ParentResourceSnapshotIndexLabel := read_key (meta_labels (rsnap_meta snapshot)) ResourceIndexLabel]>
  (bindingLabels binding)).

Definition workMeta (name : string) (binding : BindingObj) (labels annotations : gmap string string) : ObjectMeta :=
  set_meta_annotations annotations (new_meta name (memberNamespace (b_target binding)) labels []).

Definition generateSnapshotWorkObj (workName : string) (binding : BindingObj) (snapshot : ResourceSnapshotObj)
    (manifests : list string) (roHash croHash : string) : Work :=
  new_work (workMeta workName binding (stampLabels binding snapshot) (stampAnnotations binding roHash croHash))
    (mkWorkSpec manifests (rbs_ApplyStrategy (b_spec binding)) None).

(** The labels that name the envelope. *)
Definition envelopeLabels (envelope : EnvelopeReader) (ls : gmap string string) : gmap string string :=
  let ls := <[EnvelopeTypeLabel := er_Type envelope]> (<[EnvelopeNameLabel := er_Name envelope]> ls) in
  if decide (er_Type envelope = ResourceEnvelopeType)
  then <[EnvelopeNamespaceLabel := er_Namespace envelope]> ls else ls.

Definition envelopeWorkNameSuffix (envelope : EnvelopeReader) : string :=
  shortDigest (er_Type envelope +:+ "/" +:+ er_Namespace envelope +:+ "/" +:+ er_Name envelope).

Definition buildNewWorkForEnvelopeCR (workNamePrefix : string) (binding : BindingObj) (snapshot : ResourceSnapshotObj)
    (envelope : EnvelopeReader) (manifests : list string) (roHash croHash : string) : Work :=
  new_work (workMeta (workNamePrefix +:+ "-envelope-" +:+ envelopeWorkNameSuffix envelope) binding
      (envelopeLabels envelope (stampLabels binding snapshot)) (stampAnnotations binding roHash croHash))
    (mkWorkSpec manifests (rbs_ApplyStrategy (b_spec binding)) None).

(** Writing to the labels of a listed work is safe: they are not nil, since it was found by its labels. *)
Definition refreshWorkForEnvelopeCR (work : Work) (binding : BindingObj) (snapshot : ResourceSnapshotObj)
    (manifests : list string) (roHash croHash : string) : Work :=
  let work := set_w_label ParentResourceSnapshotIndexLabel
    (read_key (meta_labels (rsnap_meta snapshot)) ResourceIndexLabel) work in
  let work := set_w_annotation ParentResourceSnapshotNameAnnotation (rbs_ResourceSnapshotName (b_spec binding)) work in
  let work := set_w_annotation ParentResourceOverrideSnapshotHashAnnotation roHash work in
  let work := set_w_annotation ParentClusterResourceOverrideSnapshotHashAnnotation croHash work in
  set_w_strategy (rbs_ApplyStrategy (b_spec binding)) (set_w_manifests manifests work).

Context {W : Type} {H : HubClient W} {R : SnapshotReader W} {C : WorkClient W}.

(** The work of an envelope, or the error and whether it is one of the overrides. *)
Definition createOrUpdateEnvelopeCRWorkObj (envelope : EnvelopeReader) (workNamePrefix : string) (binding : BindingObj)
    (snapshot : ResourceSnapshotObj) (ctx : overrideContext) (store : overrideStore) (roHash croHash : string)
    : hub W (Work * overrideStore + bool * goerr) :=
  let* manifests := hlift (flagged false (extractManifestsFromEnvelopeCR envelope)) in
  match manifests with
  | inr e => hret (inr e)
  | inl manifests =>
      let* overridden := hlift (applyOverridesToEnvelopeManifests manifests ctx store []) in
      match overridden with
      | inr e => hret (inr e)
      | inl (manifests, store) => fun w =>
          let labelMatcher := envelopeLabels envelope
            (<[PlacementTrackingLabel := placementOf binding]> (bindingLabels binding)) in
          match hub_list_works (memberNamespace (b_target binding)) labelMatcher w with
          | (w, Err e) => (w, Ok (inr (false, NewAPIServerError true
              (wrap_error "failed to list work objects when finding the work object for an envelope" e))))
          | (w, Panic p) => (w, Panic p)
          | (w, Ok []) =>
              (w, Ok (inl (buildNewWorkForEnvelopeCR workNamePrefix binding snapshot envelope manifests roHash croHash, store)))
          | (w, Ok [work]) =>
              (w, Ok (inl (refreshWorkForEnvelopeCR work binding snapshot manifests roHash croHash, store)))
          | (w, Ok items) =>
              (w, Ok (inr (false, NewUnexpectedBehaviorError (ErrPlain (zstr (Z.of_nat (length items)) +:+
                " work objects found for the same envelope, only one expected")))))
          end
      end
  end.

(** ** One selected resource *)

(** What the loops of [syncAllWork] accumulate. *)
Record progress : Type := mkProgress {
  pr_store : overrideStore;
  pr_active : gset string;
  pr_newWork : list Work;
  pr_manifests : list string;
}.

Definition isEnvelope (kind : string) (u : Unstructured) : Prop :=
  gvk_Group (u_gvk u) = "placement.kubernetes-fleet.io" /\ gvk_Kind (u_gvk u) = kind.

#[global] Instance isEnvelope_dec kind u : Decision (isEnvelope kind u).
Proof. unfold isEnvelope. apply _. Defined.

(** A new work for an envelope. *)
Definition processEnvelope (envelopeType raw : string) (u : Unstructured) (ctx : overrideContext) (binding : BindingObj)
    (snapshot : ResourceSnapshotObj) (workNamePrefix roHash croHash : string) (acc : progress)
    : hub W (progress + bool * goerr) :=
  let* envelope := hlift (flagged false (unexpected (UnmarshalEnvelope raw))) in
  match envelope with
  | inr e => hret (inr e)
  | inl envelope =>
      let reader := mkEnvelopeReader envelopeType (envelope_namespace envelope) (u_name u) (envelope_Data envelope) in
      let* r := createOrUpdateEnvelopeCRWorkObj reader workNamePrefix binding snapshot ctx (pr_store acc) roHash croHash in
      match r with
      | inr e => hret (inr e)
      | inl (work, store) =>
          hret (inl (mkProgress store ({[w_name work]} ∪ pr_active acc) (pr_newWork acc ++ [work]) (pr_manifests acc)))
      end
  end.

Definition processOneSelectedResource (selectedResource : string) (ctx : overrideContext) (binding : BindingObj)
    (snapshot : ResourceSnapshotObj) (workNamePrefix roHash croHash : string) (acc : progress)
    : hub W (progress + bool * goerr) :=
  let* uResource := hlift (flagged false (unexpected (UnmarshalJSON selectedResource))) in
  match uResource with
  | inr e => hret (inr e)
  | inl u =>
      if decide (isEnvelope ClusterResourceEnvelopeType u) then
        processEnvelope ClusterResourceEnvelopeType selectedResource u ctx binding snapshot workNamePrefix roHash croHash acc
      else if decide (isEnvelope ResourceEnvelopeType u) then
        processEnvelope ResourceEnvelopeType selectedResource u ctx binding snapshot workNamePrefix roHash croHash acc
      else
        let* r := hlift (flagged true (applyOverrides selectedResource ctx (pr_store acc))) in
        match r with
        | inr e => hret (inr e)
        | inl (None, store) => hret (inl (mkProgress store (pr_active acc) (pr_newWork acc) (pr_manifests acc)))
        | inl (Some raw, store) =>
            hret (inl (mkProgress store (pr_active acc) (pr_newWork acc) (pr_manifests acc ++ [raw])))
        end
  end.

Fixpoint processSelected (resources : list string) (ctx : overrideContext) (binding : BindingObj)
    (snapshot : ResourceSnapshotObj) (workNamePrefix roHash croHash : string) (acc : progress)
    : hub W (progress + bool * goerr) :=
  match resources with
  | [] => hret (inl acc)
  | resource :: rest =>
      let* r := processOneSelectedResource resource ctx binding snapshot workNamePrefix roHash croHash acc in
      match r with
      | inr e => hret (inr e)
      | inl acc => processSelected rest ctx binding snapshot workNamePrefix roHash croHash acc
      end
  end.

(** ** Requests *)

(** A task of a group says whether it changed a work. *)
Definition task : Type := W -> W * (bool * option goerr).

(** All the tasks run; the flag is raised by those that end without an error
    and have changed something, and the first error is returned. *)
Fixpoint runTasks (tasks : list task) (updated : bool) (w : W) : W * (bool * option goerr) :=
  match tasks with
  | [] => (w, (updated, None))
  | t :: r =>
      let '(w, (u, e)) := t w in
      let updated := match e with None => updated || u | Some _ => updated end in
      let '(w, (updated, e')) := runTasks r updated w in
      (w, (updated, match e with Some _ => e | None => e' end))
  end.

Definition strategyDiffers (binding : BindingObj) (work : Work) : bool :=
  negb (bool_decide (w_strategy work = rbs_ApplyStrategy (b_spec binding))).

(** [syncApplyStrategy]; the work as it is left in memory. *)
Definition syncApplyStrategy (binding : BindingObj) (existingWork : Work) (w : W)
    : W * (Work * (bool * option goerr)) :=
  if negb (strategyDiffers binding existingWork) then (w, (existingWork, (false, None)))
  else
    let existingWork := set_w_strategy (rbs_ApplyStrategy (b_spec binding)) existingWork in
    match hub_update_work existingWork w with
    | (w, (work, Some e)) => (w, (work, (true, Some (NewUpdateIgnoreConflictError e))))
    | (w, (work, None)) => (w, (work, (true, None)))
    end.

(** The first group of [syncAllWork]. *)
Fixpoint syncStrategies (binding : BindingObj) (works : list (string * Work)) (existing : gmap string Work)
    (updated : bool) (w : W) : W * (gmap string Work * (bool * option goerr)) :=
  match works with
  | [] => (w, (existing, (updated, None)))
  | (name, work) :: r =>
      let '(w, (work, (u, e))) := syncApplyStrategy binding work w in
      let updated := match e with None => updated || u | Some _ => updated end in
      let '(w, (existing, (updated, e'))) := syncStrategies binding r (<[name := work]> existing) updated w in
      (w, (existing, (updated, match e with Some _ => e | None => e' end)))
  end.

Definition sameHash (key : string) (a b : Work) : bool :=
  bool_decide (read_key (w_annotations a) key = read_key (w_annotations b) key).

(** The work is generated from the same resource and override snapshots. *)
Definition upToDate (newWork existingWork : Work) (snapshot : ResourceSnapshotObj) : bool :=
  match ExtractIndex (w_meta existingWork) ParentResourceSnapshotIndexLabel with
  | Ok workResourceIndex =>
      let resourceIndex := match ExtractIndex (rsnap_meta snapshot) ResourceIndexLabel with Ok i => i | _ => (-1)%Z end in
      (workResourceIndex =? resourceIndex)%Z &&
      sameHash ParentResourceOverrideSnapshotHashAnnotation existingWork newWork &&
      sameHash ParentClusterResourceOverrideSnapshotHashAnnotation existingWork newWork
  | _ => false
  end.

(** The five changes to an existing work. *)
Definition copyToExisting (newWork existingWork : Work) : Work :=
  let copy key w := set_w_annotation key (read_key (w_annotations newWork) key) w in
  let work := set_w_label ParentResourceSnapshotIndexLabel
    (read_key (w_labels newWork) ParentResourceSnapshotIndexLabel) existingWork in
  let work := copy ParentClusterResourceOverrideSnapshotHashAnnotation
    (copy ParentResourceOverrideSnapshotHashAnnotation (copy ParentResourceSnapshotNameAnnotation work)) in
  set_w_strategy (w_strategy newWork) (set_w_manifests (ws_Manifests (w_spec newWork)) work).

Definition upsertWork (newWork : Work) (existingWork : option Work) (snapshot : ResourceSnapshotObj) : task := fun w =>
  match existingWork with
  | None =>
      match hub_create_work newWork w with
      | (w, Some e) => (w, (false, Some (NewCreateIgnoreAlreadyExistError e)))
      | (w, None) => (w, (true, None))
      end
  | Some existingWork =>
      if upToDate newWork existingWork snapshot then (w, (false, None))
      else
        match hub_update_work (copyToExisting newWork existingWork) w with
        | (w, (_, Some e)) => (w, (true, Some (NewUpdateIgnoreConflictError e)))
        | (w, (_, None)) => (w, (true, None))
        end
  end.

Definition deleteWork (work : Work) : task := fun w =>
  match hub_delete_work work w with
  | (w, Some e) => if has_reason NotFound e then (w, (true, None)) else (w, (false, Some (NewAPIServerError false e)))
  | (w, None) => (w, (true, None))
  end.

(** ** Reading *)

(** The labels of the works of a binding. *)
Definition listAllWorksAssociated (binding : BindingObj) : hub W (gmap string Work) :=
  let* items := hmap_err (NewAPIServerError true)
    (hub_list_works (memberNamespace (b_target binding)) (bindingLabels binding)) in
  hret (fold_left (fun m work => if being_deleted (w_meta work) then m else <[w_name work := work]> m) items ∅).

Definition snapshotError (err : goerr) : goerr :=
  if has_reason NotFound err then errResourceSnapshotNotFound else NewAPIServerError true err.

Definition fetchAllResourceSnapshots (binding : BindingObj) : hub W (gmap string ResourceSnapshotObj) :=
  let* master := hmap_err snapshotError
    (hub_get_resource_snapshot (meta_namespace (b_meta binding)) (rbs_ResourceSnapshotName (b_spec binding))) in
  FetchAllResourceSnapshotsAlongWithMaster
    (GetObjectKeyFromNamespaceName (meta_namespace (b_meta binding)) (placementOf binding)) master.

(** The name recorded on a work; works without the annotation have it constructed from their labels. *)
Definition recordedSnapshot (binding : BindingObj) (work : Work) : string :=
  match w_annotations work !! ParentResourceSnapshotNameAnnotation with
  | Some name => name
  | None =>
      let index := match ExtractIndex (w_meta work) ParentResourceSnapshotIndexLabel with Ok i => i | _ => (-1)%Z end in
      placementOf binding +:+ "-" +:+ zstr index +:+ "-snapshot"
  end.

Definition areAllWorkSynced (existingWorks : gmap string Work) (binding : BindingObj) : bool :=
  if decide (existingWorks = ∅) then false
  else forallb (fun work => bool_decide (recordedSnapshot binding work = rbs_ResourceSnapshotName (b_spec binding)))
         (map_to_list existingWorks).*2.

(** ** Synchronizing the works of a binding *)

Record syncResult : Set := mkSyncResult { sr_overrideFailed : bool; sr_workUpdated : bool }.

#[global] Instance syncResult_eq_dec : EqDecision syncResult.
Proof. solve_decision. Defined.

(** The result, the error, and the works as they are left in memory. *)
Definition synced : Type := syncResult * option goerr * gmap string Work.

Definition failedSync (overrideFailed : bool) (e : goerr) (existing : gmap string Work) : hub W synced :=
  hret (mkSyncResult overrideFailed false, Some e, existing).

(** Continue with the result of a read; its error fails the Overridden condition. *)
Definition orFail {A} (existing : gmap string Work) (m : hub W A) (k : A -> hub W synced) : hub W synced := fun w =>
  match m w with
  | (w, Ok a) => k a w
  | (w, Err e) => failedSync true e existing w
  | (w, Panic p) => (w, Panic p)
  end.

(** The works of the snapshots, as the requests to upsert them. An error comes
    with the requests that were launched before it. *)
Fixpoint processSnapshots (snapshots : list ResourceSnapshotObj) (ctx : overrideContext) (binding : BindingObj)
    (roHash croHash : string) (existing : gmap string Work) (store : overrideStore) (active : gset string)
    (tasks : list task) : hub W (gset string * list task + bool * goerr * list task) :=
  match snapshots with
  | [] => hret (inl (active, tasks))
  | snapshot :: rest =>
      match getWorkNamePrefixFromSnapshotName snapshot with
      | Err e => hret (inr (true, e, tasks))
      | Panic p => hlift (Panic p)
      | Ok workNamePrefix =>
          let* r := processSelected (rsnap_SelectedResources snapshot) ctx binding snapshot workNamePrefix roHash croHash
            (mkProgress store active [] []) in
          match r with
          | inr (flag, e) => hret (inr (flag, e, tasks))
          | inl acc =>
              let work := generateSnapshotWorkObj workNamePrefix binding snapshot (pr_manifests acc) roHash croHash in
              processSnapshots rest ctx binding roHash croHash existing (pr_store acc) ({[w_name work]} ∪ pr_active acc)
                (tasks ++ ((fun w => upsertWork w (existing !! w_name w) snapshot) <$> pr_newWork acc ++ [work]))
          end
      end
  end.

Definition syncSnapshots (binding : BindingObj) (existing : gmap string Work) (updated : bool) (cluster : MemberCluster)
    (roHash croHash : string) (snapshots : gmap string ResourceSnapshotObj) : hub W synced :=
  orFail existing (fetchClusterResourceOverrideSnapshots binding) (fun '(cros, croMap) =>
  orFail existing (fetchResourceOverrideSnapshots binding) (fun '(ros, roMap) =>
  let* r := processSnapshots (mapOrder _ (map_to_list snapshots)).*2 (mkOverrideContext cluster croMap roMap) binding
    roHash croHash existing (mkStore cros ros) ∅ [] in
  match r with
  | inr (flag, e, tasks) => fun w => failedSync flag e existing (runTasks tasks updated w).1
  | inl (active, tasks) => fun w =>
      let stale := filter (fun work => w_name work ∉ active) (mapOrder _ (map_to_list existing)).*2 in
      let '(w, (updated, e)) := runTasks (tasks ++ (deleteWork <$> stale)) updated w in
      match e with
      | Some e => failedSync false e existing w
      | None => (w, Ok (mkSyncResult false updated, None, existing))
      end
  end)).

Definition syncAllWork (binding : BindingObj) (existingWorks : gmap string Work) (cluster : MemberCluster)
    : hub W synced := fun w =>
  let '(w, (existing, (updated, e))) :=
    syncStrategies binding (mapOrder _ (map_to_list existingWorks)) existingWorks false w in
  match e with
  | Some e => failedSync true e existing w
  | None =>
      orFail existing (hmap_err NewUnexpectedBehaviorError (hlift (hashOfROs (rbs_ResourceOverrideSnapshots (b_spec binding))))) (fun roHash =>
      orFail existing (hmap_err NewUnexpectedBehaviorError (hlift (hashOfCROs (rbs_ClusterResourceOverrideSnapshots (b_spec binding))))) (fun croHash =>
      fun w =>
        match fetchAllResourceSnapshots binding w with
        | (w, Ok snapshots) => syncSnapshots binding existing updated cluster roHash croHash snapshots w
        | (w, Panic p) => (w, Panic p)
        | (w, Err e) =>
            if decide (e = errResourceSnapshotNotFound) then
              if areAllWorkSynced existing binding then (w, Ok (mkSyncResult false updated, None, existing))
              else failedSync true (NewUserError e) existing w
            else failedSync true e existing w
        end)) w
  end.

(** ** The error in a condition *)

(** The text of the sentinel error that classifies an error. *)
Definition sentinel (e : goerr) : option string :=
  match e with
  | ErrUnexpectedBehavior _ => Some "unexpected behavior which cannot be handled by the controller"
  | ErrExpectedBehavior _ => Some "expected behavior which can be recovered by itself"
  | ErrAPIServerError _ => Some "error returned by the API server"
  | ErrUserError _ => Some "failed to process the request due to a client error"
  | _ => None
  end.

(** [errors.Unwrap(e).Error()]: the sentinel, or the error that [fmt.Errorf("...: %w", err)] was given. *)
Definition unwrapped (e : goerr) : option string :=
  match sentinel e with
  | None => None
  | Some t =>
      match str_cut t (error_msg e) with
      | Some (EmptyString, _) => Some t
      | Some (_, rest) => Some (t +:+ rest)
      | None => None
      end
  end.

Fixpoint str_drop (n : nat) (s : string) : string :=
  match n, s with
  | S n, String _ s => str_drop n s
  | _, _ => s
  end.

Definition errorMessage (e : goerr) : string :=
  match unwrapped e with
  | Some t => if decide (2 < String.length t) then str_drop (String.length t + 2) (error_msg e) else error_msg e
  | None => error_msg e
  end.

(** ** Conditions of the binding *)

(** The conditions that are reset, and the placements. *)
Definition resetConditions : list string :=
  [ResourceBindingOverridden; ResourceBindingWorkSynchronized; ResourceBindingApplied; ResourceBindingAvailable;
   ResourceBindingDiffReported].

Definition resetStatus (binding : BindingObj) : BindingObj :=
  set_b_placements [] [] [] (set_b_conditions (fold_left RemoveStatusCondition resetConditions (b_conditions binding)) binding).

Definition reportOverridden (binding : BindingObj) : BindingObj :=
  match rbs_ClusterResourceOverrideSnapshots (b_spec binding), rbs_ResourceOverrideSnapshots (b_spec binding) with
  | [], [] => setCondition now ConditionTrue ResourceBindingOverridden OverrideNotSpecifiedReason
      "No override rules are configured for the selected resources" binding
  | _, _ => setCondition now ConditionTrue ResourceBindingOverridden OverriddenSucceededReason
      "Successfully applied the override rules on the resources" binding
  end.

Definition reportFailure (overrideFailed : bool) (syncErr : goerr) (binding : BindingObj) : BindingObj :=
  if overrideFailed then
    setCondition now ConditionFalse ResourceBindingOverridden OverriddenFailedReason
      ("Failed to apply the override rules on the resources: " +:+ errorMessage syncErr) binding
  else
    setCondition now ConditionFalse ResourceBindingWorkSynchronized SyncWorkFailedReason
      ("Failed to synchronize the work to the latest: " +:+ errorMessage syncErr) binding.

Definition reportSynced (workUpdated : bool) (works : list Work) (binding : BindingObj) : BindingObj :=
  let binding := setCondition now ConditionTrue ResourceBindingWorkSynchronized AllWorkSyncedReason
    "All of the works are synchronized to the latest" binding in
  if negb workUpdated then setBindingStatus now works binding
  else if negb (isReportDiff binding) then
    setCondition now ConditionFalse ResourceBindingApplied WorkApplyInProcess "Resources are being applied" binding
  else
    setCondition now ConditionFalse ResourceBindingDiffReported WorkDiffReportInProcess
      "Diff reporting on resources is in progress" binding.

Definition reportSync (result : syncResult) (syncErr : option goerr) (works : list Work) (binding : BindingObj)
    : BindingObj :=
  let binding := resetStatus binding in
  let binding := if negb (sr_overrideFailed result) then reportOverridden binding else binding in
  match syncErr with
  | Some e => reportFailure (sr_overrideFailed result) e binding
  | None => reportSynced (sr_workUpdated result) works binding
  end.

(** ** Writing the binding *)

(** The RolloutStarted condition of the latest binding replaces the one in memory. *)
Fixpoint replaceFirst (c : Condition) (cs : list Condition) : list Condition :=
  match cs with
  | [] => []
  | x :: r => if decide (cond_type x = cond_type c) then c :: r else x :: replaceFirst c r
  end.

Definition mergeRollout (latest binding : BindingObj) : BindingObj :=
  match GetCondition latest ResourceBindingRolloutStarted with
  | Some rolloutCond => set_b_conditions (replaceFirst rolloutCond (b_conditions binding)) binding
  | None => binding
  end.

Definition set_b_status (st : ResourceBindingStatus) (b : BindingObj) : BindingObj := mkBinding (b_meta b) (b_spec b) st.

(** One attempt of the retries; the state is the hub and the binding in memory. *)
Definition retryStatus (s : W * BindingObj) : (W * BindingObj) * option goerr :=
  let '(w, binding) := s in
  match hub_fetch_binding (meta_namespace (b_meta binding)) (b_name binding) w with
  | (w, Err e) => ((w, binding), Some e)
  | (w, Panic p) => ((w, binding), Some (ErrPlain p))
  | (w, Ok latest) =>
      let binding := mergeRollout latest binding in
      let '(w, (_, e)) := hub_update_binding_status (set_b_status (b_status binding) latest) w in
      ((w, binding), e)
  end.

Definition updateBindingStatusWithRetry (binding : BindingObj) : hub W unit := fun w =>
  match hub_update_binding_status binding w with
  | (w, (_, None)) => (w, Ok tt)
  | (w, (_, Some _)) =>
      match OnError (has_reason Conflict) retryStatus (w, binding) with
      | ((w, _), Some e) => (w, Err e)
      | ((w, _), None) => (w, Ok tt)
      end
  end.

Definition addWorkFinalizer (s : W * BindingObj) : (W * BindingObj) * option goerr :=
  let '(w, binding) := s in
  match hub_get_binding binding w with
  | (w, (binding, Some e)) => ((w, binding), Some e)
  | (w, (binding, None)) =>
      let binding := set_b_meta (AddFinalizer (b_meta binding) WorkFinalizer) binding in
      let '(w, (binding, e)) := hub_update_binding binding w in ((w, binding), e)
  end.

Definition ensureFinalizer (binding : BindingObj) : hub W BindingObj := fun w =>
  if ContainsFinalizer (b_meta binding) WorkFinalizer then (w, Ok binding)
  else
    match OnError (has_reason Conflict) addWorkFinalizer (w, binding) with
    | ((w, _), Some e) => (w, Err (NewUpdateIgnoreConflictError e))
    | ((w, binding), None) => (w, Ok binding)
    end.

(** ** Deletion *)

Fixpoint deleteWorks (works : list Work) : hub W unit :=
  match works with
  | [] => hret tt
  | work :: rest => fun w =>
      match hub_delete_work work w with
      | (w, Some e) => if has_reason NotFound e then deleteWorks rest w else (w, Err (NewAPIServerError false e))
      | (w, None) => deleteWorks rest w
      end
  end.

Definition removeWorkFinalizer (binding : BindingObj) : hub W unit := fun w =>
  match hub_update_binding (set_b_meta (RemoveFinalizer (b_meta binding) WorkFinalizer) binding) w with
  | (w, (_, Some e)) => (w, Err (NewUpdateIgnoreConflictError e))
  | (w, (_, None)) => (w, Ok tt)
  end.

Definition handleDelete (binding : BindingObj) : hub W Result :=
  let* works := listAllWorksAssociated binding in
  let* _ := deleteWorks (mapOrder _ (map_to_list works)).*2 in
  if decide (works = ∅) then
    let* _ := removeWorkFinalizer binding in hret finished
  else hret (mkResult false (seconds 30)).

(** ** Reconciliation *)

(** The condition RolloutStarted is up to date, or the binding does not need it. *)
Definition rolloutDecided (binding : BindingObj) : bool :=
  let c := GetCondition binding ResourceBindingRolloutStarted in
  let g := meta_generation (b_meta binding) in
  if decide (b_state binding = BindingStateBound) then IsConditionStatusFalse c g || IsConditionStatusTrue c g
  else true.

(** What is left to do once the works are synchronized, or not. *)
Definition finishSync (binding : BindingObj) (s : synced) : hub W Result :=
  let '(result, syncErr, works) := s in
  let* _ := updateBindingStatusWithRetry (reportSync result syncErr (mapOrder _ (map_to_list works)).*2 binding) in
  match syncErr with
  | None => hret finished
  | Some (ErrUserError _) => hret finished
  | Some e => if decide (e = errResourceSnapshotNotFound) then hret (mkResult true 0) else hlift (Err e)
  end.

Definition syncBinding (binding : BindingObj) (cluster : MemberCluster) : hub W Result := fun w =>
  match listAllWorksAssociated binding w with
  | (w, Panic p) => (w, Panic p)
  | (w, Err e) => finishSync binding (mkSyncResult true false, Some e, ∅) w
  | (w, Ok works) => (let* s := syncAllWork binding works cluster in finishSync binding s) w
  end.

Definition reconcileBound (binding : BindingObj) : hub W Result := fun w =>
  match hub_get_cluster (b_target binding) w with
  | (w, Err e) => if has_reason NotFound e then (w, Ok finished) else (w, Err (NewAPIServerError true e))
  | (w, Panic p) => (w, Panic p)
  | (w, Ok cluster) =>
      (let* binding := ensureFinalizer binding in
       if negb (rolloutDecided binding) then hret (mkResult true 0) else syncBinding binding cluster) w
  end.

Definition Reconcile (namespace name : string) : hub W Result := fun w =>
  match hub_fetch_binding namespace name w with
  | (w, Err e) => if has_reason NotFound e then (w, Ok finished) else (w, Err (NewAPIServerError true e))
  | (w, Panic p) => (w, Panic p)
  | (w, Ok binding) =>
      if b_deleting binding then handleDelete binding w
      else if decide (b_state binding <> BindingStateBound /\ b_state binding <> BindingStateUnscheduled)
      then (w, Ok finished)
      else reconcileBound binding w
  end.

End WorkGen.

(** ** Events *)

Definition shouldIgnoreWork (enqueueCRB : bool) (parentNamespaceName : string) : bool :=
  (enqueueCRB && negb (bool_decide (parentNamespaceName = EmptyString))) ||
  (negb enqueueCRB && bool_decide (parentNamespaceName = EmptyString)).

(** The request that an event enqueues: the namespace and name of a binding. *)
Definition parentOf (enqueueCRB : bool) (work : Work) : option (string * string) :=
  let parentNamespaceName := read_key (w_labels work) ParentNamespaceLabel in
  if shouldIgnoreWork enqueueCRB parentNamespaceName then None
  else (parentNamespaceName,.) <$> w_labels work !! ParentBindingLabel.

Definition workDeleted (enqueueCRB : bool) (work : Work) : option (string * string) := parentOf enqueueCRB work.

(** The status, or what the work is generated from, has changed; a work without the marks is invalid. *)
Definition workChanged (oldWork newWork : Work) : bool :=
  if decide (w_status oldWork <> w_status newWork) then true
  else
    let index w := read_key (w_labels w) ParentResourceSnapshotIndexLabel in
    let cro w := read_key (w_annotations w) ParentClusterResourceOverrideSnapshotHashAnnotation in
    let ro w := read_key (w_annotations w) ParentResourceOverrideSnapshotHashAnnotation in
    if bool_decide (index oldWork = EmptyString) || bool_decide (index newWork = EmptyString) then false
    else if bool_decide (cro oldWork = EmptyString) || bool_decide (cro newWork = EmptyString) ||
            bool_decide (ro oldWork = EmptyString) || bool_decide (ro newWork = EmptyString) then false
    else negb (bool_decide (index oldWork = index newWork) && bool_decide (cro oldWork = cro newWork) &&
               bool_decide (ro oldWork = ro newWork)).

Definition workUpdatedEvent (enqueueCRB : bool) (oldWork newWork : Work) : option (string * string) :=
  match parentOf enqueueCRB newWork with
  | None => None
  | Some key => if workChanged oldWork newWork then Some key else None
  end.
