(* ===== verification/WorkGenProofs.v ===== *)
(** * What the work generator promises

    The conditions of a binding say exactly what its works have reached; the
    controller writes no work but those of its binding; a manifest gets the
    overrides it would get alone; and which errors are retried. *)

From stdpp Require Import prelude gmap strings.
From S2P Require Import Prelude K8s Api Sample Utils FrameworkUtils Hub Overrider Rollout WorkApi WorkOverride WorkSummary WorkGen.
Import RefLib.

Local Open Scope string_scope.
Local Open Scope list_scope.

(** ** Conditions that are set *)

Section Conditions.
Context {K : K8sLib} {L : K8sLaws K}.
Variable now : Z.

(** A condition of a binding is true for its current generation. *)
Definition holds (t : string) (b : BindingObj) : bool :=
  IsConditionStatusTrue (GetCondition b t) (meta_generation (b_meta b)).

(** A condition of a work is true for its current generation. *)
Definition workHolds (t : string) (w : Work) : bool :=
  IsConditionStatusTrue (FindStatusCondition (wst_Conditions (w_status w)) t) (w_generation w).

Lemma setCondition_same st t r m b :
  holds t (setCondition now st t r m b) = bool_decide (st = ConditionTrue).
Proof.
  unfold holds, setCondition, SetConditions, GetCondition. cbn.
  destruct (SetStatusCondition_same now (b_conditions b)
    (mkCondition t st (meta_generation (b_meta b)) 0 r m)) as (c & Hc & _ & Hs & Hg & _).
  cbn in *. rewrite Hc. cbn. rewrite Hs, Hg, Z.eqb_refl. apply andb_true_r.
Qed.

Lemma setCondition_get_other st t r m t' b :
  t' <> t -> GetCondition (setCondition now st t r m b) t' = GetCondition b t'.
Proof. intros Ht. unfold GetCondition, setCondition, SetConditions. cbn. by apply SetStatusCondition_other. Qed.

Lemma setCondition_other st t r m t' b :
  t' <> t -> holds t' (setCondition now st t r m b) = holds t' b.
Proof. intros Ht. unfold holds. by rewrite setCondition_get_other. Qed.

Lemma setCondition_spec st t r m b : b_spec (setCondition now st t r m b) = b_spec b.
Proof. done. Qed.

Lemma set_placements_holds t f d g b : holds t (set_b_placements f d g b) = holds t b.
Proof. done. Qed.

Lemma isReportDiff_setCondition st t r m b : isReportDiff (setCondition now st t r m b) = isReportDiff b.
Proof. done. Qed.

Lemma resetStatus_get t b : t ∈ resetConditions -> GetCondition (resetStatus b) t = None.
Proof.
  intros Ht. unfold resetStatus, GetCondition. cbn.
  repeat (apply elem_of_cons in Ht as [->|Ht];
    [repeat (rewrite RemoveStatusCondition_other by done); by rewrite RemoveStatusCondition_same|]).
  by apply not_elem_of_nil in Ht.
Qed.

Lemma resetStatus_holds t b : t ∈ resetConditions -> holds t (resetStatus b) = false.
Proof. intros Ht. unfold holds. by rewrite resetStatus_get. Qed.

(** ** The loops over the works *)

Lemma summarizeWork_holds t works s :
  sum_completed (fold_left (summarizeWork t) works s) && sum_successful (fold_left (summarizeWork t) works s) =
  sum_completed s && sum_successful s && forallb (workHolds t) works.
Proof.
  revert s. induction works as [|w works IH]; intros s; cbn; [by rewrite andb_true_r|].
  rewrite IH. unfold summarizeWork, workHolds. cbn zeta.
  destruct (IsConditionStatusTrue _ _); cbn; [done|].
  destruct (IsConditionStatusFalse _ _); cbn; by rewrite ?andb_false_r.
Qed.

Lemma summarizeAvailable_holds works s :
  sum_completed (fold_left summarizeAvailable works s) && sum_successful (fold_left summarizeAvailable works s) =
  sum_completed s && sum_successful s && forallb (workHolds WorkConditionTypeAvailable) works.
Proof.
  revert s. induction works as [|w works IH]; intros s; cbn; [by rewrite andb_true_r|].
  rewrite IH. unfold summarizeAvailable, workHolds. cbn zeta.
  destruct (IsConditionStatusTrue _ _); cbn; [by destruct (untrackable _)|].
  destruct (IsConditionStatusFalse _ _); cbn; by rewrite ?andb_false_r.
Qed.

Lemma setApplied_spec works b :
  let r := setAllWorkAppliedCondition now works b in
  b_meta r.2 = b_meta b /\ b_spec r.2 = b_spec b /\
  holds ResourceBindingApplied r.2 = forallb (workHolds WorkConditionTypeApplied) works /\
  forall t, t <> ResourceBindingApplied -> GetCondition r.2 t = GetCondition b t.
Proof.
  unfold setAllWorkAppliedCondition. cbn zeta.
  pose proof (summarizeWork_holds WorkConditionTypeApplied works summary0) as Hs. cbn [summary0 sum_completed sum_successful andb] in Hs.
  destruct (sum_completed _); cbn in Hs |- *; [destruct (sum_successful _); cbn in Hs |- *|];
    rewrite <- Hs; (split_and!; [done|done|apply setCondition_same|intros; by apply setCondition_get_other]).
Qed.

Lemma setDiffReported_spec works b :
  let r := setAllWorkDiffReportedCondition now works b in
  b_meta r.2 = b_meta b /\ b_spec r.2 = b_spec b /\
  holds ResourceBindingDiffReported r.2 = forallb (workHolds WorkConditionTypeDiffReported) works /\
  forall t, t <> ResourceBindingDiffReported -> GetCondition r.2 t = GetCondition b t.
Proof.
  unfold setAllWorkDiffReportedCondition. cbn zeta.
  pose proof (summarizeWork_holds WorkConditionTypeDiffReported works summary0) as Hs. cbn [summary0 sum_completed sum_successful andb] in Hs.
  destruct (sum_completed _); cbn in Hs |- *; [destruct (sum_successful _); cbn in Hs |- *|];
    rewrite <- Hs; (split_and!; [done|done|apply setCondition_same|intros; by apply setCondition_get_other]).
Qed.

Lemma setAvailable_spec works b :
  GetCondition b ResourceBindingAvailable = None ->
  let r := setAllWorkAvailableCondition now works b in
  b_meta r.2 = b_meta b /\ b_spec r.2 = b_spec b /\
  holds ResourceBindingAvailable r.2 =
    holds ResourceBindingApplied b && forallb (workHolds WorkConditionTypeAvailable) works /\
  forall t, t <> ResourceBindingAvailable -> GetCondition r.2 t = GetCondition b t.
Proof.
  intros Hn. unfold setAllWorkAvailableCondition. cbn zeta. fold (holds ResourceBindingApplied b).
  destruct (holds ResourceBindingApplied b); cbn [negb].
  2:{ split_and!; [done|done| |done]. unfold holds. cbn. by rewrite Hn. }
  pose proof (summarizeAvailable_holds works summary0) as Hs. cbn [summary0 sum_completed sum_successful andb] in Hs |- *.
  destruct (sum_completed _); cbn in Hs |- *;
    [destruct (sum_successful _); cbn in Hs |- *; [destruct (sum_firstUntrackable _); cbn|]|];
    rewrite <- Hs; (split_and!; [done|done|apply setCondition_same|intros; by apply setCondition_get_other]).
Qed.

(** ** What is reported *)

Definition is_none {A} (o : option A) : bool := match o with None => true | Some _ => false end.

Lemma setBindingStatus_lengths works b :
  let b' := setBindingStatus now works b in
  length (rbst_FailedPlacements (b_status b')) <= 100 /\ length (rbst_DriftedPlacements (b_status b')) <= 100 /\
  length (rbst_DiffedPlacements (b_status b')) <= 100.
Proof.
  unfold setBindingStatus. destruct (if isReportDiff b then _ else _) as [[[? ?] ?] ?]. cbn zeta.
  unfold set_b_placements, cutSorted. cbn [b_status rbst_FailedPlacements rbst_DriftedPlacements rbst_DiffedPlacements].
  rewrite length_take. split_and!; [unfold maxFailedResourcePlacementLimit; lia| |].
  - destruct (decide _); [rewrite length_take|]; unfold maxDriftedResourcePlacementLimit in *; lia.
  - destruct (decide _); [rewrite length_take|]; unfold maxDiffedResourcePlacementLimit in *; lia.
Qed.

Lemma setBindingStatus_spec works b :
  GetCondition b ResourceBindingApplied = None -> GetCondition b ResourceBindingAvailable = None ->
  GetCondition b ResourceBindingDiffReported = None ->
  let b' := setBindingStatus now works b in
  let applied := forallb (workHolds WorkConditionTypeApplied) works in
  holds ResourceBindingApplied b' = negb (isReportDiff b) && applied /\
  holds ResourceBindingAvailable b' =
    negb (isReportDiff b) && applied && forallb (workHolds WorkConditionTypeAvailable) works /\
  holds ResourceBindingDiffReported b' = isReportDiff b && forallb (workHolds WorkConditionTypeDiffReported) works /\
  b_meta b' = b_meta b /\
  forall t, t ∉ [ResourceBindingApplied; ResourceBindingAvailable; ResourceBindingDiffReported] ->
    GetCondition b' t = GetCondition b t.
Proof.
  intros Ha Hv Hd. unfold setBindingStatus. destruct (isReportDiff b).
  - pose proof (setDiffReported_spec works b) as (Hm & _ & Hh & Ho).
    destruct (setAllWorkDiffReportedCondition now works b) as [d b1]. cbn [fst snd] in *. cbn zeta.
    rewrite !set_placements_holds. cbn [negb andb]. unfold holds in *.
    rewrite !Ho, Ha, Hv by done. split_and!; [done|done|done|done|]. intros t Ht. apply Ho. set_solver.
  - pose proof (setApplied_spec works b) as (Hm & Hs & Hh & Ho).
    destruct (setAllWorkAppliedCondition now works b) as [ap b1]. cbn [fst snd] in *. cbn zeta.
    assert (GetCondition b1 ResourceBindingAvailable = None) as Hv1 by by rewrite Ho.
    pose proof (setAvailable_spec works b1 Hv1) as (Hm2 & _ & Hh2 & Ho2).
    destruct (setAllWorkAvailableCondition now works b1) as [av b2]. cbn [fst snd] in *.
    rewrite !set_placements_holds, Hh2, Hh. cbn [negb andb]. split_and!.
    + unfold holds in *. by rewrite Ho2, Hm2.
    + done.
    + unfold holds. rewrite Ho2, Ho, Hd by done. done.
    + cbn. congruence.
    + intros t Ht. etransitivity; [apply Ho2; set_solver|]. apply Ho. set_solver.
Qed.

(** What the conditions say after a synchronization. *)
Record reported (result : syncResult) (syncErr : option goerr) (works : list Work) (diff : bool) (b : BindingObj) : Prop := {
  reported_overridden : holds ResourceBindingOverridden b = negb (sr_overrideFailed result);
  reported_synced : holds ResourceBindingWorkSynchronized b = is_none syncErr;
  reported_applied : holds ResourceBindingApplied b =
    is_none syncErr && negb (sr_workUpdated result) && negb diff && forallb (workHolds WorkConditionTypeApplied) works;
  reported_available : holds ResourceBindingAvailable b =
    is_none syncErr && negb (sr_workUpdated result) && negb diff &&
    forallb (workHolds WorkConditionTypeApplied) works && forallb (workHolds WorkConditionTypeAvailable) works;
  reported_diff : holds ResourceBindingDiffReported b =
    is_none syncErr && negb (sr_workUpdated result) && diff && forallb (workHolds WorkConditionTypeDiffReported) works;
  reported_lengths : length (rbst_FailedPlacements (b_status b)) <= 100 /\
    length (rbst_DriftedPlacements (b_status b)) <= 100 /\ length (rbst_DiffedPlacements (b_status b)) <= 100;
}.

(** The binding before anything but Overridden is set. *)
Lemma reset_overridden (failed : bool) b :
  let b' := if negb failed then reportOverridden now (resetStatus b) else resetStatus b in
  holds ResourceBindingOverridden b' = negb failed /\ isReportDiff b' = isReportDiff b /\
  rbst_FailedPlacements (b_status b') = [] /\ rbst_DriftedPlacements (b_status b') = [] /\
  rbst_DiffedPlacements (b_status b') = [] /\
  forall t, t ∈ [ResourceBindingWorkSynchronized; ResourceBindingApplied; ResourceBindingAvailable;
                 ResourceBindingDiffReported] -> GetCondition b' t = None.
Proof.
  destruct failed; cbn [negb].
  - split_and!; [by apply resetStatus_holds; left|done..|]. intros t Ht. apply resetStatus_get. by right.
  - unfold reportOverridden. cbn zeta.
    assert (forall r m, let b' := setCondition now ConditionTrue ResourceBindingOverridden r m (resetStatus b) in
      forall t, t ∈ [ResourceBindingWorkSynchronized; ResourceBindingApplied; ResourceBindingAvailable;
                 ResourceBindingDiffReported] -> GetCondition b' t = None) as Hg.
    { intros r m b' t Ht. unfold b'. rewrite setCondition_get_other; [apply resetStatus_get; by right|].
      intros ->. revert Ht. by_decide. }
    destruct (rbs_ClusterResourceOverrideSnapshots (b_spec (resetStatus b))),
      (rbs_ResourceOverrideSnapshots (b_spec (resetStatus b)));
      (split_and!; [apply setCondition_same|done..|apply Hg]).
Qed.

Lemma reportSync_reported result syncErr works b :
  reported result syncErr works (isReportDiff b) (reportSync now result syncErr works b).
Proof.
  unfold reportSync. pose proof (reset_overridden (sr_overrideFailed result) b) as (Hov & Hdiff & Hf & Hdr & Hdf & Hn).
  cbn zeta in *. set (b1 := if negb (sr_overrideFailed result) then _ else _) in *. clearbody b1.
  assert (forall t, t ∈ [ResourceBindingWorkSynchronized; ResourceBindingApplied; ResourceBindingAvailable;
                 ResourceBindingDiffReported] -> holds t b1 = false) as Hh.
  { intros t Ht. unfold holds. by rewrite Hn. }
  destruct syncErr as [e|]; cbn [is_none].
  - unfold reportFailure. destruct (sr_overrideFailed result) eqn:Eo; split; cbn [andb];
      rewrite ?Eo, ?setCondition_same, ?setCondition_other by done; try exact Hov; try (apply Hh; by_decide);
      try (cbn; rewrite Hf, Hdr, Hdf; cbn; lia); done.
  - unfold reportSynced. cbn zeta. rewrite isReportDiff_setCondition, Hdiff.
    destruct (sr_workUpdated result) eqn:Eu; cbn [negb andb].
    + destruct (isReportDiff b); cbn [negb]; split; rewrite ?Eu; cbn [andb negb is_none];
        rewrite ?setCondition_other, ?setCondition_same, ?setCondition_other, ?setCondition_same by done; try done; try exact Hov;
        try (apply Hh; by_decide); cbn; rewrite Hf, Hdr, Hdf; cbn; lia.
    + set (b2 := setCondition _ _ _ _ _ _) in *.
      destruct (setBindingStatus_spec works b2) as (Ha & Hv & Hd & Hm & Ho).
      1-3: unfold b2; rewrite setCondition_get_other by done; apply Hn; by_decide.
      assert (isReportDiff b2 = isReportDiff b) as E by done. rewrite E in *.
      split; rewrite ?Eu; cbn [negb andb is_none]; [| |done|by rewrite <- andb_assoc in Hv |- *|done|apply setBindingStatus_lengths].
      * unfold holds in *. rewrite Hm, Ho by by_decide. unfold b2. by rewrite setCondition_get_other.
      * unfold holds in *. rewrite Hm, Ho by by_decide. apply setCondition_same.
Qed.

Lemma ready_holds b cutoff :
  (isBindingReady b cutoff).2 = true -> holds ResourceBindingDiffReported b || holds ResourceBindingAvailable b = true.
Proof.
  unfold isBindingReady, holds. destruct (IsConditionStatusTrue _ _); [done|].
  destruct (GetCondition b ResourceBindingAvailable) as [c|]; [|done].
  by destruct (IsConditionStatusTrue (Some c) _).
Qed.

(** C17: After every synchronization, failed or not, the conditions of
    a binding say exactly what was reached: Overridden and WorkSynchronized
    that the overrides and the works were written, Applied and Available that
    every work has been applied, and is available, in its current generation
    (DiffReported, when the strategy only reports differences), and no list of
    placements is longer than its limit.  So a binding that the rollout
    controller then counts as ready has nothing but ready works. *)
Theorem ready_binding_has_ready_works result syncErr works b cutoff :
  let b' := reportSync now result syncErr works b in
  reported result syncErr works (isReportDiff b) b' /\
  ((isBindingReady b' cutoff).2 = true ->
   syncErr = None /\ sr_workUpdated result = false /\
   forall w, w ∈ works ->
     if isReportDiff b then workHolds WorkConditionTypeDiffReported w = true
     else workHolds WorkConditionTypeApplied w = true /\ workHolds WorkConditionTypeAvailable w = true).
Proof.
  cbn zeta. pose proof (reportSync_reported result syncErr works b) as Hr. split; [done|].
  intros Hready%ready_holds. rewrite (reported_diff _ _ _ _ _ Hr), (reported_available _ _ _ _ _ Hr) in Hready.
  destruct syncErr, (sr_workUpdated result), (isReportDiff b); try discriminate; cbn in Hready.
  - rewrite orb_false_r, forallb_forall in Hready. split_and!; [done|done|]. intros w Hw. apply Hready. by apply list_elem_of_In.
  - apply andb_prop in Hready as [Ha Hv]. rewrite forallb_forall in Ha, Hv. split_and!; [done|done|].
    intros w Hw%list_elem_of_In. auto.
Qed.

End Conditions.

(** A binding with one available work, and one whose work is stale. *)
Definition ex_condition (t : string) (gen : Z) : Condition := mkCondition t ConditionTrue gen 0 "" "".

Definition ex_work (gen observed : Z) : Work :=
  mkWork (mkObjectMeta "p-work" "fleet-member-c" ∅ ∅ [] None gen 0) (mkWorkSpec [] None None)
    (mkWorkStatus [ex_condition WorkConditionTypeApplied observed; ex_condition WorkConditionTypeAvailable observed] []).

Definition ex_binding : BindingObj :=
  mkBinding (mkObjectMeta "b" "" {[PlacementTrackingLabel := "p"]} ∅ [WorkFinalizer] None 2 0)
    (mkBindingSpec BindingStateBound "p-0-snapshot" [] [] "p-0" "c" (mkDecision "c" true None "") None)
    (mkBindingStatus [] [] [] [mkCondition ResourceBindingRolloutStarted ConditionTrue 2 0 "" ""]).

Definition ex_report (w : Work) : BindingObj := reportSync 7 (mkSyncResult false false) None [w] ex_binding.

Lemma ready_binding_has_ready_works_witness :
  (isBindingReady (ex_report (ex_work 3 3)) 0).2 = true /\ (isBindingReady (ex_report (ex_work 3 2)) 0).2 = false /\
  workHolds WorkConditionTypeAvailable (ex_work 3 3) = true.
Proof.
  assert ((isBindingReady (ex_report (ex_work 3 3)) 0).2 = true) as Hr by by_evaluation.
  split_and!; [done|by_evaluation|].
  refine (proj2 (proj2 (proj2 (proj2 (ready_binding_has_ready_works 7 (mkSyncResult false false) None
    [ex_work 3 3] ex_binding 0) Hr)) _ _)).
  by left.
Defined.

(** ** The manifests of a snapshot *)

Section Manifests.
Context {K : K8sLib} {M : ManifestLib} {P : PatchLib} {D : DigestLib} {W : Type} {C : WorkClient W}.
Variable mapOrder : forall A : Type, list (string * A) -> list (string * A).
Hypothesis mapOrder_perm : forall A l, mapOrder A l ≡ₚ l.
Context (cluster : MemberCluster) (croMap roMap : overrideMap) (store : overrideStore).
Hypothesis Hsettled : settledStore cluster store.

Let ctx := mkOverrideContext cluster croMap roMap.

(** What is left of a manifest with the snapshots as they were read: nothing,
    when an override deletes it. *)
Definition kept (manifest : string) : list string :=
  match alone cluster croMap roMap store manifest with Ok (Some raw) => [raw] | _ => [] end.

Definition isPlain (u : Unstructured) : Prop :=
  ~ isEnvelope ClusterResourceEnvelopeType u /\ ~ isEnvelope ResourceEnvelopeType u.

#[local] Instance isPlain_dec u : Decision (isPlain u).
Proof. unfold isPlain. apply _. Defined.

(** The manifests that a selected resource adds to the work of its snapshot. *)
Definition plain (resource : string) : list string :=
  match UnmarshalJSON resource with
  | Ok u => if decide (isPlain u) then kept resource else []
  | _ => []
  end.

(** The manifests of the work of an envelope, if the resource is one: its
    contents in descending order. *)
Definition enveloped (resource : string) : list (list string) :=
  match UnmarshalJSON resource, UnmarshalEnvelope resource with
  | Ok u, Ok e =>
      if decide (isPlain u) then []
      else [go_sort manifestLess (map_to_list (envelope_Data e)).*2 ≫= kept]
  | _, _ => []
  end.

Lemma applyOverridesToEnvelopeManifests_alone ms store' acc out store2 :
  wornStore cluster store store' ->
  applyOverridesToEnvelopeManifests ms ctx store' acc = Ok (inl (out, store2)) ->
  out = acc ++ (ms ≫= kept) /\ wornStore cluster store store2.
Proof.
  revert store' acc. induction ms as [|m ms IH]; intros store' acc Hw; cbn.
  { intros [= -> ->]. by rewrite app_nil_r. }
  destruct (UnmarshalJSON m); [|done|done].
  pose proof (applyOverrides_worn cluster croMap roMap store store' m Hsettled Hw) as Ha. fold ctx in Ha.
  unfold kept at 1. destruct (applyOverrides m ctx store') as [[[raw|] s2]|e|p]; [| |done|done]; destruct Ha as [-> Hw2]; cbn.
  - intros Hr. apply IH in Hr as [-> ?]; [|done]. by rewrite <- app_assoc.
  - intros Hr. by apply IH in Hr as [-> ?].
Qed.

Lemma checkEnveloped_fold envelope l acc out :
  ofold (checkEnveloped envelope) acc l = Ok out -> out = acc ++ l.*2.
Proof.
  revert acc. induction l as [|[k raw] l IH]; intros acc; cbn; [intros [= ->]; by rewrite app_nil_r|].
  unfold checkEnveloped at 1. destruct (UnmarshalJSON raw); cbn; [|done|done].
  repeat (destruct (decide _); cbn; [done|]). intros Hr. apply IH in Hr as ->. by rewrite <- app_assoc.
Qed.

#[local] Instance manifestLess_GoLess : GoLess manifestLess.
Proof. apply (reverse_less_GoLess str_lt). Qed.

(** The order in which the map of an envelope is visited is of no account. *)
Lemma extractManifests_sorted envelope ms :
  extractManifestsFromEnvelopeCR mapOrder envelope = Ok ms ->
  ms = go_sort manifestLess (map_to_list (er_Data envelope)).*2.
Proof.
  unfold extractManifestsFromEnvelopeCR. rewrite obind_Ok. intros (out & Ho & [= <-]).
  apply checkEnveloped_fold in Ho as ->. cbn. apply go_sort_Permutation_eq; [apply _| |].
  - intros x y _ _ H1 H2. by apply str_lt_false_eq.
  - by rewrite mapOrder_perm.
Qed.

Lemma refreshed_manifests work binding snapshot ms ro cro :
  ws_Manifests (w_spec (refreshWorkForEnvelopeCR work binding snapshot ms ro cro)) = ms.
Proof. done. Qed.

Lemma createOrUpdate_manifests envelope prefix binding snapshot store' ro cro (w w' : W) work store2 :
  wornStore cluster store store' ->
  createOrUpdateEnvelopeCRWorkObj mapOrder envelope prefix binding snapshot ctx store' ro cro w = (w', Ok (inl (work, store2))) ->
  ws_Manifests (w_spec work) = go_sort manifestLess (map_to_list (er_Data envelope)).*2 ≫= kept /\
  wornStore cluster store store2.
Proof.
  intros Hw. unfold createOrUpdateEnvelopeCRWorkObj, hbind, hlift, hret.
  destruct (extractManifestsFromEnvelopeCR mapOrder envelope) as [ms|e|p] eqn:Ee; cbn; [|done|done].
  apply extractManifests_sorted in Ee as ->.
  destruct (applyOverridesToEnvelopeManifests _ ctx store' []) as [[[out s2]|e]|e|p] eqn:Ea; cbn; [|done|done|done].
  apply applyOverridesToEnvelopeManifests_alone in Ea as [-> Hw2]; [|done].
  destruct (hub_list_works _ _ w) as [w1 [[|x [|y l]]|e|p]]; try done; intros [= <- <- <-]; done.
Qed.

Lemma processEnvelope_manifests type r u binding snapshot prefix ro cro acc (w w' : W) acc' e :
  UnmarshalEnvelope r = Ok e -> wornStore cluster store (pr_store acc) ->
  processEnvelope mapOrder type r u ctx binding snapshot prefix ro cro acc w = (w', Ok (inl acc')) ->
  pr_manifests acc' = pr_manifests acc /\
  (fun x => ws_Manifests (w_spec x)) <$> pr_newWork acc' =
    ((fun x => ws_Manifests (w_spec x)) <$> pr_newWork acc) ++
    [go_sort manifestLess (map_to_list (envelope_Data e)).*2 ≫= kept] /\
  wornStore cluster store (pr_store acc').
Proof.
  intros He Hw. unfold processEnvelope, hbind, hlift, hret. rewrite He. cbn -[createOrUpdateEnvelopeCRWorkObj].
  destruct (createOrUpdateEnvelopeCRWorkObj _ _ _ _ _ _ _ _ _ w) as [w1 [[[work s2]|x]|x|x]] eqn:Ec; try done.
  apply createOrUpdate_manifests in Ec as [Hm Hw2]; [|done]. intros [= <- <-]. cbn.
  split_and!; [done| |done]. rewrite fmap_app. cbn. by rewrite Hm.
Qed.

Lemma processOne_manifests r binding snapshot prefix ro cro acc (w w' : W) acc' :
  wornStore cluster store (pr_store acc) ->
  processOneSelectedResource mapOrder r ctx binding snapshot prefix ro cro acc w = (w', Ok (inl acc')) ->
  pr_manifests acc' = pr_manifests acc ++ plain r /\
  (fun x => ws_Manifests (w_spec x)) <$> pr_newWork acc' =
    ((fun x => ws_Manifests (w_spec x)) <$> pr_newWork acc) ++ enveloped r /\
  wornStore cluster store (pr_store acc').
Proof.
  intros Hw. unfold processOneSelectedResource, hbind, hlift, plain, enveloped.
  destruct (UnmarshalJSON r) as [u|e|p] eqn:Eu; cbn; [|done|done].
  assert (forall type, processEnvelope mapOrder type r u ctx binding snapshot prefix ro cro acc w = (w', Ok (inl acc')) ->
    exists e, UnmarshalEnvelope r = Ok e) as Hex.
  { intros type. unfold processEnvelope, hbind, hlift, hret. destruct (UnmarshalEnvelope r) as [e|e|p]; [eauto|done|done]. }
  destruct (decide (isEnvelope ClusterResourceEnvelopeType u)) as [H1|H1];
    [|destruct (decide (isEnvelope ResourceEnvelopeType u)) as [H2|H2]].
  1,2: intros Hp; destruct (Hex _ Hp) as [e He]; rewrite He, !decide_False, app_nil_r by (unfold isPlain; tauto);
    by eapply processEnvelope_manifests.
  assert (isPlain u) as Hplain by done. rewrite (decide_True _ _ Hplain).
  pose proof (applyOverrides_worn cluster croMap roMap store (pr_store acc) r Hsettled Hw) as Ha. fold ctx in Ha.
  unfold kept. destruct (applyOverrides r ctx (pr_store acc)) as [[[raw|] s2]|e|p]; cbn; [| |done|done];
    destruct Ha as [-> Hw2]; intros [= <- <-]; cbn; rewrite ?app_nil_r; destruct (UnmarshalEnvelope r);
    by rewrite ?(decide_True _ _ Hplain), ?app_nil_r.
Qed.

Lemma processSelected_manifests rs binding snapshot prefix ro cro acc (w w' : W) acc' :
  wornStore cluster store (pr_store acc) ->
  processSelected mapOrder rs ctx binding snapshot prefix ro cro acc w = (w', Ok (inl acc')) ->
  pr_manifests acc' = pr_manifests acc ++ (rs ≫= plain) /\
  (fun x => ws_Manifests (w_spec x)) <$> pr_newWork acc' =
    ((fun x => ws_Manifests (w_spec x)) <$> pr_newWork acc) ++ (rs ≫= enveloped) /\
  wornStore cluster store (pr_store acc').
Proof.
  revert acc w. induction rs as [|r rs IH]; intros acc w Hw; cbn.
  { unfold hret. intros [= <- <-]. by rewrite !app_nil_r. }
  unfold hbind at 1.
  destruct (processOneSelectedResource _ r _ _ _ _ _ _ acc w) as [w1 [[acc1|x]|x|x]] eqn:E1; try done.
  apply processOne_manifests in E1 as (Hm & Hn & Hw1); [|done].
  intros Hr. apply IH in Hr as (-> & -> & ?); [|done]. rewrite Hm, Hn, <- !app_assoc. done.
Qed.

(** C18: What the resources of a snapshot become does not depend on the
    manifests that the same overrides were applied to before, although applying
    them writes to the shared snapshots, nor on the order in which maps are
    visited: every plain resource is in the work of its snapshot as its
    overrides leave it alone, or not at all when they delete it, in the order
    of the snapshot, and every envelope gives one work with its contents, each
    as its overrides leave it alone.  The values of the overrides are such that
    replacing their variables twice changes nothing. *)
Theorem manifests_as_alone rs binding snapshot prefix ro cro active (w w' : W) acc :
  processSelected mapOrder rs (mkOverrideContext cluster croMap roMap) binding snapshot prefix ro cro
    (mkProgress store active [] []) w = (w', Ok (inl acc)) ->
  pr_manifests acc = rs ≫= plain /\ (fun x => ws_Manifests (w_spec x)) <$> pr_newWork acc = rs ≫= enveloped.
Proof.
  intros Hr. by apply processSelected_manifests in Hr as (-> & -> & _); [|apply wornStore_refl].
Qed.

End Manifests.
