(* ===== verification/WorkGenSafety.v ===== *)
(** * The work generator writes the works of its binding

    The calls of a reconciliation are observed: the bindings it read, the works
    it wrote and the works it removed.  Every write comes after a read of the
    binding that is being reconciled and is about a work in the namespace of
    the cluster that was read, with the labels of the binding. *)

From stdpp Require Import prelude gmap strings.
From S2P Require Import Prelude K8s Api Sample Utils FrameworkUtils Hub Overrider WorkApi WorkOverride WorkSummary WorkGen.

Local Open Scope string_scope.
Local Open Scope list_scope.

(** ** Observed calls *)

Inductive wevent : Set :=
| ReadBinding (namespace name target : string)
| WroteWork (w : Work)
| RemovedWork (w : Work).

Definition readOf (b : BindingObj) : wevent := ReadBinding (meta_namespace (b_meta b)) (b_name b) (b_target b).

(** What the API server promises: a list answers with works of the namespace
    that have the labels, an update with the object that was sent up to what
    the server sets, and a read with the object of the key. *)
Class WorkLaws (W : Type) {C : WorkClient W} : Prop := {
  list_works_sound ns labels w l x :
    (hub_list_works ns labels w).2 = Ok l -> x ∈ l -> meta_namespace (w_meta x) = ns /\ labels ⊆ w_labels x;
  update_work_answer x w x' e :
    (hub_update_work x w).2 = (x', e) ->
    meta_namespace (w_meta x') = meta_namespace (w_meta x) /\ w_labels x' = w_labels x;
  fetch_binding_answer ns name w b : (hub_fetch_binding ns name w).2 = Ok b -> object_key b = (ns, name);
}.

Section Traced.
Context {W : Type}.
Notation T := (W * list wevent)%type.

Definition unheard {A} (f : W -> W * A) : T -> T * A := record (fun _ => []) f.
Definition heard {A} (e : wevent) (f : W -> W * A) : T -> T * A := record (fun _ => [e]) f.

#[export] Instance work_traced_hub {C : HubClient W} : HubClient T := {
  hub_list_clusters := unheard hub_list_clusters;
  hub_list_bindings ns name := unheard (hub_list_bindings ns name);
  hub_create_binding b := unheard (hub_create_binding b);
  hub_update_binding b := unheard (hub_update_binding b);
  hub_update_binding_status b := unheard (hub_update_binding_status b);
  hub_get_binding b := record (fun a => match a with (v, None) => [readOf v] | _ => [] end) (hub_get_binding b);
  hub_patch_binding p := unheard (hub_patch_binding p);
  hub_delete_binding b := unheard (hub_delete_binding b);
  hub_update_snapshot_status s := unheard (hub_update_snapshot_status s);
  OnError S := OnError (W := W);
}.

#[export] Instance work_traced_snapshots {SR : SnapshotReader W} : SnapshotReader T := {
  hub_get_cluster name := unheard (hub_get_cluster name);
  hub_list_resource_snapshots ns ls := unheard (hub_list_resource_snapshots ns ls);
  hub_list_cros ls := unheard (hub_list_cros ls);
  hub_list_ros ls := unheard (hub_list_ros ls);
}.

#[export] Instance work_traced_client {WC : WorkClient W} : WorkClient T := {
  hub_list_works ns ls := unheard (hub_list_works ns ls);
  hub_create_work x := heard (WroteWork x) (hub_create_work x);
  hub_update_work x := heard (WroteWork x) (hub_update_work x);
  hub_delete_work x := heard (RemovedWork x) (hub_delete_work x);
  hub_fetch_binding ns name := record (on_ok readOf) (hub_fetch_binding ns name);
  hub_get_resource_snapshot ns name := unheard (hub_get_resource_snapshot ns name);
  hub_get_cro name := unheard (hub_get_cro name);
  hub_get_ro ns name := unheard (hub_get_ro ns name);
}.

End Traced.

#[local] Arguments record : simpl never.

(** A work of a binding: in the namespace of the cluster, with the labels of the binding. *)
Definition workOf (ns name target : string) (x : Work) : Prop :=
  meta_namespace (w_meta x) = memberNamespace target /\
  w_labels x !! ParentBindingLabel = Some name /\
  (ns <> EmptyString -> w_labels x !! ParentNamespaceLabel = Some ns).

(** An event is allowed after those before it. *)
Definition ownWrite (ns name : string) (before : list wevent) (e : wevent) : Prop :=
  match e with
  | ReadBinding _ _ _ => True
  | WroteWork x | RemovedWork x => exists target, ReadBinding ns name target ∈ before /\ workOf ns name target x
  end.

Definition ownWrites (ns name : string) (tr : list wevent) : Prop :=
  forall before e after, tr = before ++ e :: after -> ownWrite ns name before e.

Lemma ownWrites_nil ns name : ownWrites ns name [].
Proof. intros [] e after; discriminate. Qed.

Lemma ownWrites_snoc ns name tr e : ownWrites ns name tr -> ownWrite ns name tr e -> ownWrites ns name (tr ++ [e]).
Proof.
  intros Ht He before e' after Heq. destruct after as [|a after _] using rev_ind.
  - apply app_inj_tail in Heq as [<- <-]. done.
  - rewrite app_comm_cons, app_assoc in Heq. apply app_inj_tail in Heq as [-> _]. by eapply Ht.
Qed.

Section Safety.
Context {K : K8sLib} {M : ManifestLib} {P : PatchLib} {D : DigestLib}.
Context {W : Type} {H : HubClient W} {HL : HubLaws W} {R : SnapshotReader W} {C : WorkClient W} {L : WorkLaws W}.
Notation T := (W * list wevent)%type.
Variable now : Z.
Variable mapOrder : forall A : Type, list (string * A) -> list (string * A).
Hypothesis mapOrder_perm : forall A l, mapOrder A l ≡ₚ l.
Context (ns name : string).

(** The writes so far are allowed, and the binding has been read with this target. *)
Definition known (target : string) (w : T) : Prop := ownWrites ns name w.2 /\ ReadBinding ns name target ∈ w.2.

Lemma unheard_known {A} t (f : W -> W * A) w : known t w -> known t (unheard f w).1 /\ (unheard f w).2 = (f w.1).2.
Proof. destruct w as [w tr]. unfold unheard. rewrite record_run. unfold known. cbn. by rewrite app_nil_r. Qed.

Lemma unheard_ensures {A} t (f : hub W A) (Q : A -> Prop) :
  (forall w a, (f w).2 = Ok a -> Q a) -> ensures (known t) (unheard f : hub T A) Q.
Proof. intros Hq w Hw. destruct (unheard_known t f w Hw) as [? ->]. split; [done|]. apply Hq. Qed.

Lemma heard_known {A} t x e (f : W -> W * A) w :
  e = WroteWork x \/ e = RemovedWork x -> workOf ns name t x -> known t w ->
  known t (heard e f w).1 /\ (heard e f w).2 = (f w.1).2.
Proof.
  intros He Hx [Ht Hr]. destruct w as [w tr]. unfold heard. rewrite record_run. cbn in *. split; [|done]. split; cbn.
  - apply ownWrites_snoc; [done|]. destruct He as [-> | ->]; cbn; eauto.
  - set_solver.
Qed.

(** ** Works of the binding *)

Definition bindingAt (b : BindingObj) (t : string) : Prop :=
  meta_namespace (b_meta b) = ns /\ b_name b = name /\ b_target b = t.

Lemma bindingLabels_name b t : bindingAt b t -> bindingLabels b !! ParentBindingLabel = Some name.
Proof. intros (_ & <- & _). unfold bindingLabels. by destruct (decide _). Qed.

Lemma bindingLabels_namespace b t :
  bindingAt b t -> ns <> EmptyString -> bindingLabels b !! ParentNamespaceLabel = Some ns.
Proof. intros (<- & _ & _) Hn. unfold bindingLabels. by rewrite decide_True. Qed.

(** A work with at least the labels of the binding, in the right namespace. *)
Lemma workOf_labels b t x (labels : gmap string string) :
  bindingAt b t -> meta_namespace (w_meta x) = memberNamespace t -> labels ⊆ w_labels x ->
  labels !! ParentBindingLabel = bindingLabels b !! ParentBindingLabel ->
  labels !! ParentNamespaceLabel = bindingLabels b !! ParentNamespaceLabel -> workOf ns name t x.
Proof.
  intros Hb Hn Hl H1 H2. split_and!; [done| |intros Hne]; eapply lookup_weaken; try done.
  - rewrite H1. by eapply bindingLabels_name.
  - rewrite H2. by eapply bindingLabels_namespace.
Qed.

Lemma stampLabels_same b snapshot k :
  k = ParentBindingLabel \/ k = ParentNamespaceLabel -> stampLabels b snapshot !! k = bindingLabels b !! k.
Proof. intros [-> | ->]; unfold stampLabels; by rewrite !lookup_insert_ne. Qed.

Lemma envelopeLabels_same envelope (ls : gmap string string) k :
  k = ParentBindingLabel \/ k = ParentNamespaceLabel -> envelopeLabels envelope ls !! k = ls !! k.
Proof. intros [-> | ->]; unfold envelopeLabels; destruct (decide _); by rewrite !lookup_insert_ne. Qed.

Lemma generated_workOf b t prefix snapshot ms ro cro :
  bindingAt b t -> workOf ns name t (generateSnapshotWorkObj prefix b snapshot ms ro cro).
Proof.
  intros Hb. eapply (workOf_labels b t _ (stampLabels b snapshot)); [done| |done| |]; [|by apply stampLabels_same; auto..].
  cbn. by destruct Hb as (_ & _ & ->).
Qed.

Lemma built_workOf b t prefix snapshot envelope ms ro cro :
  bindingAt b t -> workOf ns name t (buildNewWorkForEnvelopeCR prefix b snapshot envelope ms ro cro).
Proof.
  intros Hb. eapply (workOf_labels b t _ (envelopeLabels envelope (stampLabels b snapshot))); [done| |done| |].
  - cbn. by destruct Hb as (_ & _ & ->).
  - rewrite envelopeLabels_same by auto. apply stampLabels_same. auto.
  - rewrite envelopeLabels_same by auto. apply stampLabels_same. auto.
Qed.

Lemma set_label_workOf t k v x :
  k <> ParentBindingLabel -> k <> ParentNamespaceLabel -> workOf ns name t x -> workOf ns name t (set_w_label k v x).
Proof.
  intros H1 H2 (Hn & Hb & Hs). split_and!; [done| |intros Hne]; cbn; rewrite lookup_insert_ne by done; auto.
Qed.

Lemma refreshed_workOf t x b snapshot ms ro cro :
  workOf ns name t x -> workOf ns name t (refreshWorkForEnvelopeCR x b snapshot ms ro cro).
Proof.
  intros Hx. apply (set_label_workOf t ParentResourceSnapshotIndexLabel
    (read_key (meta_labels (rsnap_meta snapshot)) ResourceIndexLabel) x) in Hx; done.
Qed.

Lemma copied_workOf t new x : workOf ns name t x -> workOf ns name t (copyToExisting new x).
Proof.
  intros Hx. apply (set_label_workOf t ParentResourceSnapshotIndexLabel
    (read_key (w_labels new) ParentResourceSnapshotIndexLabel) x) in Hx; done.
Qed.

Lemma updated_workOf t x w x' e :
  workOf ns name t x -> (hub_update_work x w).2 = (x', e) -> workOf ns name t x'.
Proof.
  intros (H1 & H2 & H3) Hu. apply update_work_answer in Hu as [E1 E2]. unfold workOf. by rewrite E1, E2.
Qed.

(** ** Requests *)

Definition keeps (t : string) (k : task (W := T)) : Prop := forall w, known t w -> known t (k w).1.

Lemma upsert_keeps t new existing snapshot :
  workOf ns name t new -> (forall x, existing = Some x -> workOf ns name t x) -> keeps t (upsertWork new existing snapshot).
Proof.
  intros Hn He w Hw. unfold upsertWork. destruct existing as [x|].
  - destruct (upToDate new x snapshot); [done|].
    cbn [hub_update_work work_traced_client].
    pose proof (heard_known t (copyToExisting new x) _ (hub_update_work (copyToExisting new x)) w
      (or_introl eq_refl) (copied_workOf t new x (He x eq_refl)) Hw) as [Hk _].
    destruct (heard _ _ w) as [w1 [x1 [e|]]]; exact Hk.
  - cbn [hub_create_work work_traced_client].
    pose proof (heard_known t new _ (hub_create_work new) w (or_introl eq_refl) Hn Hw) as [Hk _].
    destruct (heard _ _ w) as [w1 [e|]]; exact Hk.
Qed.

Lemma delete_keeps t x : workOf ns name t x -> keeps t (deleteWork x).
Proof.
  intros Hx w Hw. unfold deleteWork. cbn [hub_delete_work work_traced_client].
  pose proof (heard_known t x _ (hub_delete_work x) w (or_intror eq_refl) Hx Hw) as [Hk _].
  destruct (heard _ _ w) as [w1 [e|]]; [|exact Hk]. by destruct (has_reason NotFound e).
Qed.

Lemma runTasks_known t tasks updated w : Forall (keeps t) tasks -> known t w -> known t (runTasks tasks updated w).1.
Proof.
  intros Ht. revert updated w. induction Ht as [|k tasks Hk _ IH]; intros updated w Hw; cbn; [done|].
  specialize (Hk w Hw). destruct (k w) as [w1 [u e]]. cbn in Hk.
  specialize (IH (match e with None => updated || u | Some _ => updated end) w1 Hk).
  by destruct (runTasks _ _ w1) as [w2 [u2 e2]].
Qed.

Definition allOf (t : string) (works : gmap string Work) : Prop := forall k x, works !! k = Some x -> workOf ns name t x.

Lemma in_order_workOf t works x :
  allOf t works -> x ∈ (mapOrder _ (map_to_list works)).*2 -> workOf ns name t x.
Proof.
  intros Ha. rewrite mapOrder_perm. intros ([k y] & -> & Hk%elem_of_map_to_list)%list_elem_of_fmap. by apply Ha in Hk.
Qed.

Lemma syncApplyStrategy_known t b x w :
  workOf ns name t x -> known t w ->
  known t (syncApplyStrategy b x w).1 /\ workOf ns name t (syncApplyStrategy b x w).2.1.
Proof.
  intros Hx Hw. unfold syncApplyStrategy. destruct (negb _); [done|].
  set (y := set_w_strategy _ x). assert (workOf ns name t y) as Hy by exact Hx.
  cbn [hub_update_work work_traced_client].
  pose proof (heard_known t y _ (hub_update_work y) w (or_introl eq_refl) Hy Hw) as [Hk Hr].
  destruct (heard _ _ w) as [w1 [y1 e]]. cbn in *. symmetry in Hr.
  apply (updated_workOf t y _ _ _ Hy) in Hr. by destruct e.
Qed.

Lemma syncStrategies_known t b works existing updated w :
  Forall (fun kx => workOf ns name t kx.2) works -> allOf t existing -> known t w ->
  known t (syncStrategies b works existing updated w).1 /\ allOf t (syncStrategies b works existing updated w).2.1.
Proof.
  intros Hf. revert existing updated w. induction Hf as [|[k x] works Hx _ IH]; intros existing updated w Ha Hw; cbn; [done|].
  pose proof (syncApplyStrategy_known t b x w Hx Hw) as [Hk Hy].
  destruct (syncApplyStrategy b x w) as [w1 [y [u e]]]. cbn in Hk, Hy.
  destruct (IH (<[k := y]> existing) (match e with None => updated || u | Some _ => updated end) w1) as [Hk2 Ha2].
  - intros k' x' [[<- <-]|[_ ?]]%lookup_insert_Some; [done|eauto].
  - done.
  - by destruct (syncStrategies _ _ _ _ w1) as [w2 [ex [u2 e2]]].
Qed.

(** ** Reads *)

Lemma quiet {A} t (f : hub W A) : ensures (known t) (unheard f : hub T A) (fun _ => True).
Proof. by apply unheard_ensures. Qed.

Lemma fetchCROs_known t names acc m : ensures (known t) (fetchCROs (W := T) names acc m) (fun _ => True).
Proof.
  revert acc m. induction names as [|n names IH]; intros acc m; cbn [fetchCROs]; [by apply ensures_ret|].
  eapply ensures_bind; [apply ensures_map_err, quiet|]. intros s _. apply IH.
Qed.

Lemma fetchROs_known t names acc m : ensures (known t) (fetchROs (W := T) names acc m) (fun _ => True).
Proof.
  revert acc m. induction names as [|n names IH]; intros acc m; cbn [fetchROs]; [by apply ensures_ret|].
  eapply ensures_bind; [apply ensures_map_err, quiet|]. intros s _. apply IH.
Qed.

Lemma FetchAll_known t key master :
  ensures (known t) (FetchAllResourceSnapshotsAlongWithMaster (W := T) key master) (fun _ => True).
Proof.
  unfold FetchAllResourceSnapshotsAlongWithMaster. cbn zeta.
  destruct (Atoi _) as [n|e|p]; [|by apply ensures_lift..]. destruct (n <? 1)%Z; [by apply ensures_lift|].
  eapply ensures_bind.
  - instantiate (1 := fun _ => True). destruct (1 <? n)%Z; [|by apply ensures_ret].
    eapply ensures_bind; [by apply ensures_map_err, (ensures_lift _ _ (fun _ => True))|]. intros i _.
    eapply ensures_bind; [by apply (ensures_lift _ _ (fun _ => True))|]. intros [ns' n'] _.
    eapply ensures_bind; [do 2 apply ensures_map_err; apply quiet|]. intros items _. by apply ensures_ret.
  - intros m _. destruct (_ =? n)%Z; [by apply ensures_ret|by apply ensures_lift].
Qed.

Lemma fetchAllResourceSnapshots_known t b : ensures (known t) (fetchAllResourceSnapshots (W := T) b) (fun _ => True).
Proof.
  unfold fetchAllResourceSnapshots. eapply ensures_bind; [apply ensures_map_err, quiet|]. intros m _. apply FetchAll_known.
Qed.

Lemma listAllWorks_known t b :
  bindingAt b t -> ensures (known t) (listAllWorksAssociated (W := T) b) (allOf t).
Proof.
  intros Hb. unfold listAllWorksAssociated.
  eapply (ensures_bind _ _ _ (fun l => forall x, x ∈ l -> workOf ns name t x)).
  - apply ensures_map_err, unheard_ensures. intros w l Hl x Hx.
    destruct (list_works_sound _ _ _ _ _ Hl Hx) as [Hn Hs].
    eapply (workOf_labels b t x (bindingLabels b)); try done. rewrite Hn. by destruct Hb as (_ & _ & ->).
  - intros l Hl. apply ensures_ret. assert (allOf t ∅) as H0 by by intros k x ?%lookup_empty_Some.
    revert H0. generalize (∅ : gmap string Work) as m. induction l as [|x l IH]; intros m Hm; cbn; [done|].
    apply IH; [set_solver|]. destruct (being_deleted _); [done|].
    intros k y [[<- <-]|[_ ?]]%lookup_insert_Some; [apply Hl; by left|eauto].
Qed.

(** ** Processing *)

Definition worksOf (t : string) (r : progress + bool * goerr) : Prop :=
  match r with inl acc => Forall (workOf ns name t) (pr_newWork acc) | inr _ => True end.

Lemma createOrUpdate_known t b envelope prefix snapshot ctx store ro cro :
  bindingAt b t ->
  ensures (known t) (createOrUpdateEnvelopeCRWorkObj (W := T) mapOrder envelope prefix b snapshot ctx store ro cro)
    (fun r => match r with inl (x, _) => workOf ns name t x | inr _ => True end).
Proof.
  intros Hb. unfold createOrUpdateEnvelopeCRWorkObj.
  eapply ensures_bind; [by apply (ensures_lift _ _ (fun _ => True))|]. intros [ms|e] _; [|by apply ensures_ret].
  eapply ensures_bind; [by apply (ensures_lift _ _ (fun _ => True))|]. intros [[ms' store']|e] _; [|by apply ensures_ret].
  intros w Hw. cbn [hub_list_works work_traced_client].
  set (labels := envelopeLabels envelope _).
  pose proof (unheard_known t (hub_list_works (memberNamespace (b_target b)) labels) w Hw) as [Hk Hr].
  destruct (unheard _ w) as [w1 r]. cbn in Hk, Hr. subst r.
  destruct (hub_list_works _ labels w.1) as [w2 [[|x [|y l]]|e|p]] eqn:El; cbn; (split; [done|]); intros a [= <-]; try done.
  - by apply built_workOf.
  - apply refreshed_workOf.
    destruct (list_works_sound (memberNamespace (b_target b)) labels w.1 [x] x) as [Hn Hs]; [by rewrite El|by left|].
    eapply (workOf_labels b t x labels); [done| |done| |].
    + rewrite Hn. by destruct Hb as (_ & _ & ->).
    + unfold labels. rewrite envelopeLabels_same by auto. by rewrite lookup_insert_ne.
    + unfold labels. rewrite envelopeLabels_same by auto. by rewrite lookup_insert_ne.
Qed.

Lemma processEnvelope_known t b type r u ctx snapshot prefix ro cro acc :
  bindingAt b t -> Forall (workOf ns name t) (pr_newWork acc) ->
  ensures (known t) (processEnvelope (W := T) mapOrder type r u ctx b snapshot prefix ro cro acc) (worksOf t).
Proof.
  intros Hb Hacc. unfold processEnvelope.
  eapply ensures_bind; [by apply (ensures_lift _ _ (fun _ => True))|]. intros [e|e] _; [|by apply ensures_ret].
  cbn zeta. eapply ensures_bind; [by apply createOrUpdate_known|].
  intros [[x store]|e'] Hx; apply ensures_ret; [|done]. cbn. apply Forall_app. split; [done|]. by constructor.
Qed.

Lemma processOne_known t b r ctx snapshot prefix ro cro acc :
  bindingAt b t -> Forall (workOf ns name t) (pr_newWork acc) ->
  ensures (known t) (processOneSelectedResource (W := T) mapOrder r ctx b snapshot prefix ro cro acc) (worksOf t).
Proof.
  intros Hb Hacc. unfold processOneSelectedResource.
  eapply ensures_bind; [by apply (ensures_lift _ _ (fun _ => True))|]. intros [u|e] _; [|by apply ensures_ret].
  destruct (decide (isEnvelope ClusterResourceEnvelopeType u)); [by apply processEnvelope_known|].
  destruct (decide (isEnvelope ResourceEnvelopeType u)); [by apply processEnvelope_known|].
  eapply ensures_bind; [by apply (ensures_lift _ _ (fun _ => True))|].
  intros [[[raw|] store]|e] _; by apply ensures_ret.
Qed.

Lemma processSelected_known t b rs ctx snapshot prefix ro cro acc :
  bindingAt b t -> Forall (workOf ns name t) (pr_newWork acc) ->
  ensures (known t) (processSelected (W := T) mapOrder rs ctx b snapshot prefix ro cro acc) (worksOf t).
Proof.
  intros Hb. revert acc. induction rs as [|r rs IH]; intros acc Hacc; cbn [processSelected]; [by apply ensures_ret|].
  eapply ensures_bind; [by apply processOne_known|]. intros [acc'|e] Ha; [by apply IH|by apply ensures_ret].
Qed.

Definition keepAll (t : string) (r : gset string * list (task (W := T)) + bool * goerr * list (task (W := T))) : Prop :=
  match r with inl (_, tasks) => Forall (keeps t) tasks | inr (_, _, tasks) => Forall (keeps t) tasks end.

Lemma processSnapshots_known t b snapshots ctx ro cro existing store active tasks :
  bindingAt b t -> allOf t existing -> Forall (keeps t) tasks ->
  ensures (known t) (processSnapshots (W := T) mapOrder snapshots ctx b ro cro existing store active tasks) (keepAll t).
Proof.
  intros Hb He. revert store active tasks.
  induction snapshots as [|s snapshots IH]; intros store active tasks Ht; cbn [processSnapshots]; [by apply ensures_ret|].
  destruct (getWorkNamePrefixFromSnapshotName s) as [prefix|e|p]; [|by apply ensures_ret|by apply ensures_lift].
  eapply ensures_bind; [by apply processSelected_known; [|constructor]|].
  intros [acc|[flag e]] Ha; [|by apply ensures_ret]. apply IH. apply Forall_app. split; [done|].
  rewrite Forall_fmap. eapply Forall_impl; [apply Forall_app; split; [exact Ha|]|].
  - constructor; [by apply generated_workOf|constructor].
  - intros x Hx. apply upsert_keeps; [done|]. intros y Hy. by eapply He.
Qed.

(** ** Synchronizing *)

Lemma orFail_known {A} t existing (m : hub T A) (k : A -> hub T synced) :
  preserves (known t) m -> (forall a, preserves (known t) (k a)) -> preserves (known t) (orFail existing m k).
Proof.
  intros Hm Hk w Hw. unfold orFail, failedSync, hret. specialize (Hm w Hw).
  destruct (m w) as [w1 [a|e|p]]; cbn in *; [by apply Hk|done|done].
Qed.

Lemma syncSnapshots_known t b existing updated cluster ro cro snapshots :
  bindingAt b t -> allOf t existing ->
  preserves (known t) (syncSnapshots (W := T) mapOrder b existing updated cluster ro cro snapshots).
Proof.
  intros Hb He. unfold syncSnapshots.
  apply orFail_known; [eapply ensures_preserves, fetchCROs_known|]. intros [cros croMap].
  apply orFail_known; [eapply ensures_preserves, fetchROs_known|]. intros [ros roMap].
  intros w Hw. unfold hbind.
  destruct (processSnapshots_known t b (mapOrder _ (map_to_list snapshots)).*2 (mkOverrideContext cluster croMap roMap)
    ro cro existing (mkStore cros ros) ∅ [] Hb He (Forall_nil_2 _) w Hw) as [Hk Ht].
  destruct (processSnapshots _ _ _ _ _ _ _ _ _ _ w) as [w1 [[[active tasks]|[[flag e] tasks]]|e|p]]; cbn [fst snd] in *; [| |done|done].
  - specialize (Ht _ eq_refl). cbn in Ht. cbn zeta.
    match goal with |- context [runTasks ?ts updated w1] => assert (known t (runTasks ts updated w1).1) as Hr end.
    { apply runTasks_known; [|done]. apply Forall_app. split; [done|]. rewrite Forall_fmap, Forall_forall.
      intros x [_ Hx]%list_elem_of_filter. apply delete_keeps. by eapply in_order_workOf. }
    destruct (runTasks _ updated w1) as [w2 [u [e|]]]; exact Hr.
  - specialize (Ht _ eq_refl). cbn in Ht. unfold failedSync, hret. cbn [fst]. by apply runTasks_known.
Qed.

Lemma syncAllWork_known t b existing cluster :
  bindingAt b t -> allOf t existing -> preserves (known t) (syncAllWork (W := T) mapOrder b existing cluster).
Proof.
  intros Hb He w Hw. unfold syncAllWork.
  destruct (syncStrategies_known t b (mapOrder _ (map_to_list existing)) existing false w) as [Hk Ha]; [|done|done|].
  { rewrite Forall_forall. intros [k x] Hx. eapply (in_order_workOf t existing); [done|].
    apply list_elem_of_fmap. by exists (k, x). }
  destruct (syncStrategies _ _ _ _ w) as [w1 [ex [u [e|]]]]; cbn [fst snd] in *; [done|].
  apply orFail_known; [apply preserves_map_err, preserves_lift|intros roHash|done].
  apply orFail_known; [apply preserves_map_err, preserves_lift|intros croHash].
  intros w2 Hw2. pose proof (proj1 (fetchAllResourceSnapshots_known t b w2 Hw2)) as Hf.
  destruct (fetchAllResourceSnapshots b w2) as [w3 [m|e|p]]; cbn [fst] in Hf; [by apply syncSnapshots_known| |done].
  unfold failedSync, hret. destruct (decide _); [|done]. by destruct (areAllWorkSynced _ _).
Qed.

(** ** The binding *)

Lemma read_known t w tr e :
  (forall x, e <> WroteWork x) -> (forall x, e <> RemovedWork x) -> known t (w, tr) -> known t (w, tr ++ [e]).
Proof.
  intros H1 H2 [Ht Hr]. split; cbn in *; [|set_solver]. apply ownWrites_snoc; [done|].
  destruct e; [done|by destruct (H1 w0)|by destruct (H2 w0)].
Qed.

Lemma fetch_known t n1 n2 w : known t w -> known t (hub_fetch_binding (W := T) n1 n2 w).1.
Proof.
  destruct w as [w tr]. intros Hw. cbn [hub_fetch_binding work_traced_client]. rewrite record_run. cbn [fst].
  destruct (hub_fetch_binding n1 n2 w).2; cbn [on_ok]; [by apply read_known|by rewrite app_nil_r..].
Qed.

Lemma retryStatus_known t s : known t s.1 -> known t (retryStatus (W := T) s).1.1.
Proof.
  destruct s as [w b]. intros Hw. unfold retryStatus. cbn [fst] in Hw. apply (fetch_known t (meta_namespace (b_meta b)) (b_name b)) in Hw.
  destruct (hub_fetch_binding _ _ w) as [w1 [latest|e|p]]; cbn [fst] in *; [|done|done]. cbn zeta.
  cbn [hub_update_binding_status work_traced_hub].
  match goal with |- context [unheard ?f w1] => pose proof (unheard_known t f w1 Hw) as [Hk _]; destruct (unheard f w1) as [w2 [? ?]] end.
  exact Hk.
Qed.

Lemma updateStatus_known t b : preserves (known t) (updateBindingStatusWithRetry (W := T) b).
Proof.
  intros w Hw. unfold updateBindingStatusWithRetry. cbn [hub_update_binding_status work_traced_hub].
  match goal with |- context [unheard ?f w] => pose proof (unheard_known t f w Hw) as [Hk _]; destruct (unheard f w) as [w2 [? [e|]]] end; [|exact Hk].
  pose proof (OnError_invariant (W := W) (fun s : T * BindingObj => known t s.1) (has_reason Conflict) retryStatus (w2, b)
    Hk (fun s => retryStatus_known t s)) as Ho.
  cbn [OnError work_traced_hub]. destruct (OnError _ _ _) as [[w3 b3] [e3|]]; exact Ho.
Qed.

Definition atBinding (s : T * BindingObj) : Prop := exists t, known t s.1 /\ bindingAt s.2 t.

Lemma addFinalizer_at s : atBinding s -> atBinding (addWorkFinalizer s).1.
Proof.
  destruct s as [[w tr] b]. intros (t & Hk & Hb). cbn [fst snd] in *. unfold addWorkFinalizer.
  cbn [hub_get_binding work_traced_hub]. rewrite record_run.
  destruct (hub_get_binding b w) as [w1 [b1 e1]] eqn:Eg. cbn [fst snd].
  pose proof (get_refreshes b w b1 e1 ltac:(by rewrite Eg)) as Hg.
  destruct e1 as [e1|]; [subst b1; exists t; by rewrite app_nil_r|]. destruct Hg as [Hkey _].
  assert (bindingAt b1 (b_target b1)) as Hb1.
  { destruct Hb as (H1 & H2 & _). unfold object_key in Hkey. injection Hkey as E1 E2. split_and!; congruence. }
  assert (known (b_target b1) (w1, tr ++ [readOf b1])) as Hk1.
  { destruct Hk as [Ht _]. split; cbn in *; [by apply ownWrites_snoc|].
    destruct Hb1 as (H1 & H2 & _). unfold readOf. rewrite H1, H2. set_solver. }
  set (b2 := set_b_meta _ b1). cbn [hub_update_binding work_traced_hub].
  pose proof (unheard_known (b_target b1) (hub_update_binding b2) (w1, tr ++ [readOf b1]) Hk1) as [Hk2 Hr].
  destruct (unheard _ _) as [w2 [b3 e3]]. cbn [fst snd] in Hk2, Hr |- *. symmetry in Hr. apply update_refreshes in Hr.
  exists (b_target b1). split; [done|].
  destruct e3 as [e3|]; [by subst b3|]. destruct Hr as (Hkey2 & Ht2 & _).
  destruct Hb1 as (H1 & H2 & _). unfold object_key in Hkey2. injection Hkey2 as E1 E2.
  split_and!; [exact (eq_trans E1 H1)|exact (eq_trans E2 H2)|exact Ht2].
Qed.

Lemma ensureFinalizer_at t b w :
  known t w -> bindingAt b t ->
  ownWrites ns name (ensureFinalizer (W := T) b w).1.2 /\
  forall b', (ensureFinalizer (W := T) b w).2 = Ok b' ->
    exists t', known t' (ensureFinalizer (W := T) b w).1 /\ bindingAt b' t'.
Proof.
  intros Hk Hb. unfold ensureFinalizer.
  destruct (ContainsFinalizer _ _); [split; [by destruct Hk|intros b' [= <-]; by exists t]|].
  pose proof (OnError_invariant (W := W) atBinding (has_reason Conflict) addWorkFinalizer (w, b)
    (ex_intro _ t (conj Hk Hb)) addFinalizer_at) as (t' & Hk' & Hb').
  cbn [OnError work_traced_hub]. destruct (OnError _ _ _) as [[w3 b3] [e3|]]; cbn [fst snd] in *.
  - split; [by destruct Hk'|done].
  - split; [by destruct Hk'|]. intros b' [= <-]. by exists t'.
Qed.

Lemma deleteWorks_known t works : Forall (workOf ns name t) works -> preserves (known t) (deleteWorks (W := T) works).
Proof.
  induction 1 as [|x works Hx _ IH]; intros w Hw; cbn [deleteWorks]; [done|]. cbn [hub_delete_work work_traced_client].
  pose proof (heard_known t x _ (hub_delete_work x) w (or_intror eq_refl) Hx Hw) as [Hk _].
  destruct (heard _ _ w) as [w1 [e|]]; [|by apply IH]. by destruct (has_reason NotFound e); [apply IH|].
Qed.

Lemma handleDelete_known t b : bindingAt b t -> preserves (known t) (handleDelete (W := T) mapOrder b).
Proof.
  intros Hb. unfold handleDelete. eapply ensures_preserves.
  eapply ensures_bind; [by apply listAllWorks_known|]. intros works Ha.
  eapply ensures_bind; [apply preserves_ensures, deleteWorks_known, Forall_forall; intros x; by apply in_order_workOf|].
  intros _ _. destruct (decide (works = ∅)) as [_|_]; [|by apply (ensures_ret _ _ (fun _ => True))].
  eapply ensures_bind; [|intros; by apply ensures_ret]. apply preserves_ensures. intros w Hw.
  unfold removeWorkFinalizer. cbn [hub_update_binding work_traced_hub].
  match goal with |- context [unheard ?f w] => pose proof (unheard_known t f w Hw) as [Hk _]; destruct (unheard f w) as [w2 [? [e|]]] end;
    exact Hk.
Qed.

Lemma finishSync_known t b s : preserves (known t) (finishSync (W := T) now mapOrder b s).
Proof.
  destruct s as [[result syncErr] works]. unfold finishSync.
  apply preserves_bind; [apply updateStatus_known|]. intros _.
  destruct syncErr as [[]|]; try apply preserves_ret; try apply preserves_lift.
  destruct (decide _); [apply preserves_ret|apply preserves_lift].
Qed.

Lemma syncBinding_known t b cluster : bindingAt b t -> preserves (known t) (syncBinding (W := T) now mapOrder b cluster).
Proof.
  intros Hb w Hw. unfold syncBinding. destruct (listAllWorks_known t b Hb w Hw) as [Hk Ha].
  destruct (listAllWorksAssociated b w) as [w1 [works|e|p]]; cbn [fst snd] in *; [|by apply finishSync_known|done].
  apply preserves_bind; [apply syncAllWork_known; [done|by apply Ha]|intros s; apply finishSync_known|done].
Qed.

Lemma reconcileBound_own t b w :
  known t w -> bindingAt b t -> ownWrites ns name (reconcileBound (W := T) now mapOrder b w).1.2.
Proof.
  intros Hk Hb. unfold reconcileBound. cbn [hub_get_cluster work_traced_snapshots].
  pose proof (unheard_known t (hub_get_cluster (b_target b)) w Hk) as [Hk1 _].
  destruct (unheard _ w) as [w1 [cluster|e|p]]; cbn [fst] in Hk1; [| |by destruct Hk1].
  2:{ destruct (has_reason NotFound e); by destruct Hk1. }
  unfold hbind. destruct (ensureFinalizer_at t b w1 Hk1 Hb) as [Hw Hf].
  destruct (ensureFinalizer b w1) as [w2 [b'|e|p]]; cbn [fst snd] in *; [|done|done].
  destruct (Hf b' eq_refl) as (t' & Hk2 & Hb'). destruct (negb (rolloutDecided b')); [done|].
  by destruct (syncBinding_known t' b' cluster Hb' w2 Hk2).
Qed.

(** C16: A reconciliation of the work generator touches the works of its
    binding only: whatever the API server answers, every work it creates,
    updates or deletes is in the namespace of the cluster that the binding
    named when it was read, before the write, and carries the name of the
    binding, and its namespace if it has one, in its labels. *)
Theorem generator_writes_own_works (w : W) :
  ownWrites ns name (Reconcile (W := T) now mapOrder ns name (w, [])).1.2.
Proof.
  unfold Reconcile. cbn [hub_fetch_binding work_traced_client]. rewrite record_run.
  destruct (hub_fetch_binding ns name w) as [w1 [b|e|p]] eqn:Ef; cbn [fst snd on_ok app].
  - pose proof (fetch_binding_answer ns name w b ltac:(by rewrite Ef)) as Hkey.
    unfold object_key in Hkey. injection Hkey as E1 E2.
    assert (bindingAt b (b_target b)) as Hb by done.
    assert (known (b_target b) (w1, [readOf b])) as Hk.
    { split; cbn; [apply (ownWrites_snoc _ _ []); [apply ownWrites_nil|done]|].
      unfold readOf. rewrite E1, E2. by left. }
    destruct (b_deleting b); [by destruct (handleDelete_known _ b Hb _ Hk)|].
    destruct (decide _); [by destruct Hk|by eapply reconcileBound_own].
  - destruct (has_reason NotFound e); apply ownWrites_nil.
  - apply ownWrites_nil.
Qed.

End Safety.
