(* ===== verification/WorkGenErrors.v ===== *)
(** * The errors of the work generator

    Every error of a synchronization is classified as the user's, the API
    server's, expected or unexpected; the status of the binding is written in
    every case, and the class decides whether the round is retried.  The lemmas
    at the end show where the code does not do what its comments say. *)

From stdpp Require Import prelude gmap strings.
From S2P Require Import Prelude K8s Api Sample Utils FrameworkUtils Hub Overrider WorkApi WorkOverride WorkSummary WorkGen.
Import RefLib.

Local Open Scope string_scope.
Local Open Scope list_scope.

(** ** Classified errors *)

Definition classified (e : goerr) : Prop :=
  match e with ErrAPI _ _ | ErrAborted _ | ErrPlain _ => False | _ => True end.

Lemma NewAPIServerError_classified c e : classified (NewAPIServerError c e).
Proof. unfold NewAPIServerError. by destruct (_ && _). Qed.

Lemma NewUpdate_classified e : classified (NewUpdateIgnoreConflictError e).
Proof. unfold NewUpdateIgnoreConflictError. destruct (negb _); [apply NewAPIServerError_classified|done]. Qed.

Lemma NewCreate_classified e : classified (NewCreateIgnoreAlreadyExistError e).
Proof. unfold NewCreateIgnoreAlreadyExistError. destruct (negb _); [apply NewAPIServerError_classified|done]. Qed.

Lemma wrap_classified p e : classified e -> classified (wrap_error p e).
Proof. by destruct e. Qed.

Create HintDb classes.
#[local] Hint Resolve NewAPIServerError_classified NewUpdate_classified NewCreate_classified wrap_classified : classes.

(** The error of an outcome is classified. *)
Definition oclass {A} (m : outcome A) : Prop := match m with Err e => classified e | _ => True end.

(** So is the error of a flagged result. *)
Definition fclass {A} (m : outcome (A + bool * goerr)) : Prop :=
  match m with Ok (inr (_, e)) => classified e | Err _ => False | _ => True end.

Lemma flagged_fclass {A} flag (m : outcome A) : oclass m -> fclass (flagged flag m).
Proof. by destruct m. Qed.

Section Classes.
Context {K : K8sLib} {M : ManifestLib} {P : PatchLib} {D : DigestLib}.
Context {W : Type} {H : HubClient W} {R : SnapshotReader W} {C : WorkClient W}.
Variable now : Z.
Variable mapOrder : forall A : Type, list (string * A) -> list (string * A).

Definition classifies {A} (m : hub W A) : Prop := forall w, oclass (m w).2.
Definition fclassifies {A} (m : hub W (A + bool * goerr)) : Prop := forall w, fclass (m w).2.

Lemma classifies_bind {A B} (m : hub W A) (f : A -> hub W B) :
  classifies m -> (forall a, classifies (f a)) -> classifies (hbind f m).
Proof. intros Hm Hf w. unfold hbind. specialize (Hm w). destruct (m w) as [w' [a|e|p]]; [apply Hf|done|done]. Qed.

Lemma classifies_map_err {A} f (m : hub W A) : (forall e, classified (f e)) -> classifies (hmap_err f m).
Proof. intros Hf w. unfold hmap_err. destruct (m w) as [w' [a|e|p]]; [done|apply Hf|done]. Qed.

Lemma fclassifies_bind {A B} (m : hub W (A + bool * goerr)) (f : A + bool * goerr -> hub W (B + bool * goerr)) :
  fclassifies m -> (forall a, fclassifies (f (inl a))) ->
  (forall p w, classified p.2 -> fclass (f (inr p) w).2) -> fclassifies (hbind f m).
Proof.
  intros Hm Hf He w. unfold hbind. specialize (Hm w).
  destruct (m w) as [w' [[a|[flag e]]|e|p]]; cbn in *; [apply Hf|by apply He|done|done].
Qed.

(** ** Overrides *)

Lemma unexpected_oclass {A} (m : outcome A) : oclass (unexpected m).
Proof. by destruct m. Qed.

Lemma applySnapshots_oclass {A} kind (nm : A -> string) policy set cluster target positions raw (ss : list A) :
  oclass (applySnapshots kind nm policy set cluster target positions raw ss).
Proof.
  revert raw ss. induction positions as [|i ps IH]; intros raw ss; cbn; [done|].
  destruct (ss !! i) as [s|]; [|apply IH]. destruct (policy s) as [p|]; [|apply IH].
  destruct (applyOverrideRules raw cluster (op_OverrideRules p)) as [[? ?]|e|w]; [apply IH|done|done].
Qed.

Lemma applyOverrides_oclass r ctx store : oclass (applyOverrides r ctx store).
Proof.
  unfold applyOverrides. destruct (decide _); [done|].
  pose proof (unexpected_oclass (UnmarshalJSON r)). destruct (unexpected (UnmarshalJSON r)) as [u|e|p]; cbn; [|done|done].
  unfold applyCROs. match goal with |- context [applySnapshots ?a ?b ?c ?d ?e ?f ?g ?h ?i] =>
    pose proof (applySnapshots_oclass a b c d e f g h i) as H1; destruct (applySnapshots a b c d e f g h i) as [[raw cros]|?|?] end;
    cbn; [|done|done].
  unfold applyROs. match goal with |- context [applySnapshots ?a ?b ?c ?d ?e ?f ?g ?h ?i] =>
    pose proof (applySnapshots_oclass a b c d e f g h i) as H2; destruct (applySnapshots a b c d e f g h i) as [[raw' ros]|?|?] end;
    done.
Qed.

Lemma envelope_fclass ms ctx store acc : fclass (applyOverridesToEnvelopeManifests ms ctx store acc).
Proof.
  revert store acc. induction ms as [|m ms IH]; intros store acc; cbn; [done|].
  destruct (UnmarshalJSON m); [|done|done]. pose proof (applyOverrides_oclass m ctx store) as Ho.
  destruct (applyOverrides m ctx store) as [[[raw|] s2]|e|p]; [apply IH|apply IH| |done]. by apply wrap_classified.
Qed.

Lemma extract_oclass envelope : oclass (extractManifestsFromEnvelopeCR mapOrder envelope).
Proof.
  unfold extractManifestsFromEnvelopeCR. generalize (@nil string) as acc.
  induction (mapOrder string (map_to_list (er_Data envelope))) as [|[k raw] l IH]; intros acc; cbn; [done|].
  unfold checkEnveloped at 1. destruct (UnmarshalJSON raw); cbn; [|done|done].
  repeat (destruct (decide _); cbn; [done|]). apply IH.
Qed.

(** ** Processing *)

Lemma fclassifies_lift {A} (m : outcome (A + bool * goerr)) : fclass m -> fclassifies (hlift m).
Proof. intros Hm w. exact Hm. Qed.

Lemma createOrUpdate_fclass envelope prefix b snapshot ctx store ro cro :
  fclassifies (createOrUpdateEnvelopeCRWorkObj mapOrder envelope prefix b snapshot ctx store ro cro).
Proof.
  unfold createOrUpdateEnvelopeCRWorkObj.
  apply fclassifies_bind; [apply fclassifies_lift, flagged_fclass, extract_oclass|intros ms|by intros [? ?] w].
  apply fclassifies_bind; [apply fclassifies_lift, envelope_fclass|intros [ms' s'] w|by intros [? ?] w].
  destruct (hub_list_works _ _ w) as [w1 [[|x [|y l]]|e|p]]; cbn; auto with classes.
Qed.

Lemma processEnvelope_fclass type r u ctx b snapshot prefix ro cro acc :
  fclassifies (processEnvelope mapOrder type r u ctx b snapshot prefix ro cro acc).
Proof.
  unfold processEnvelope.
  apply fclassifies_bind; [apply fclassifies_lift, flagged_fclass, unexpected_oclass|intros e|by intros [? ?] w].
  apply fclassifies_bind; [apply createOrUpdate_fclass|by intros [x s] w|by intros [? ?] w].
Qed.

Lemma processOne_fclass r ctx b snapshot prefix ro cro acc :
  fclassifies (processOneSelectedResource mapOrder r ctx b snapshot prefix ro cro acc).
Proof.
  unfold processOneSelectedResource.
  apply fclassifies_bind; [apply fclassifies_lift, flagged_fclass, unexpected_oclass|intros u|by intros [? ?] w].
  do 2 (destruct (decide _); [apply processEnvelope_fclass|]).
  apply fclassifies_bind; [apply fclassifies_lift, flagged_fclass, applyOverrides_oclass|by intros [[?|] ?] w|by intros [? ?] w].
Qed.

Lemma processSelected_fclass rs ctx b snapshot prefix ro cro acc :
  fclassifies (processSelected mapOrder rs ctx b snapshot prefix ro cro acc).
Proof.
  revert acc. induction rs as [|r rs IH]; intros acc; cbn [processSelected]; [by intros w|].
  apply fclassifies_bind; [apply processOne_fclass|intros acc'; apply IH|by intros [? ?] w].
Qed.

Lemma prefix_oclass s : oclass (getWorkNamePrefixFromSnapshotName s).
Proof. unfold getWorkNamePrefixFromSnapshotName. by repeat case_match. Qed.

Definition tclass (r : outcome (gset string * list (task (W := W)) + bool * goerr * list (task (W := W)))) : Prop :=
  match r with Ok (inr (_, e, tasks)) => classified e | Err _ => False | _ => True end.

Lemma processSnapshots_class snapshots ctx b ro cro existing store active tasks w :
  tclass (processSnapshots mapOrder snapshots ctx b ro cro existing store active tasks w).2.
Proof.
  revert store active tasks w. induction snapshots as [|s snapshots IH]; intros store active tasks w; cbn [processSnapshots]; [done|].
  pose proof (prefix_oclass s). destruct (getWorkNamePrefixFromSnapshotName s) as [prefix|e|p]; [|done|done].
  unfold hbind. pose proof (processSelected_fclass (rsnap_SelectedResources s) ctx b s prefix ro cro
    (mkProgress store active [] []) w) as Hp.
  destruct (processSelected _ _ _ _ _ _ _ _ _ w) as [w1 [[acc|[flag e]]|e|p]]; [apply IH|done|done|done].
Qed.

(** ** Synchronizing *)

(** The error of a synchronization is classified. *)
Definition sclass (r : outcome synced) : Prop :=
  match r with Ok (_, Some e, _) => classified e | Err _ => False | _ => True end.

Lemma orFail_sclass {A} existing (m : hub W A) k :
  classifies m -> (forall a w, sclass (k a w).2) -> forall w, sclass (orFail existing m k w).2.
Proof.
  intros Hm Hk w. unfold orFail, failedSync, hret. specialize (Hm w).
  destruct (m w) as [w1 [a|e|p]]; cbn in *; [apply Hk|done|done].
Qed.

Lemma fetchError_classified what e : classified (fetchError what e).
Proof. unfold fetchError. destruct (has_reason NotFound e); [done|apply NewAPIServerError_classified]. Qed.

Lemma fetchCROs_class names acc m : classifies (fetchCROs names acc m).
Proof.
  revert acc m. induction names as [|n names IH]; intros acc m; cbn [fetchCROs]; [by intros w|].
  apply classifies_bind; [apply classifies_map_err, fetchError_classified|intros s; apply IH].
Qed.

Lemma fetchROs_class names acc m : classifies (fetchROs names acc m).
Proof.
  revert acc m. induction names as [|n names IH]; intros acc m; cbn [fetchROs]; [by intros w|].
  apply classifies_bind; [apply classifies_map_err, fetchError_classified|intros s; apply IH].
Qed.

Lemma FetchAll_class key master : classifies (FetchAllResourceSnapshotsAlongWithMaster key master).
Proof.
  unfold FetchAllResourceSnapshotsAlongWithMaster. cbn zeta.
  destruct (Atoi _) as [n|e|p]; [|by intros w..]. destruct (n <? 1)%Z; [by intros w|].
  apply classifies_bind; [destruct (1 <? n)%Z; [|by intros w]|intros m; by destruct (_ =? n)%Z; intros w].
  apply classifies_bind; [by apply classifies_map_err|intros i].
  apply classifies_bind; [|intros [ns n']].
  - intros w. unfold hlift, ExtractNamespaceNameFromKeyStr. cbn. by repeat case_match.
  - apply classifies_bind; [apply classifies_map_err, NewAPIServerError_classified|by intros l w].
Qed.

(** The error is that the master is gone, or it is classified. *)
Lemma fetchAll_missing b w e :
  (fetchAllResourceSnapshots b w).2 = Err e -> e = errResourceSnapshotNotFound \/ classified e.
Proof.
  unfold fetchAllResourceSnapshots, hbind, hmap_err. destruct (hub_get_resource_snapshot _ _ w) as [w1 [m|x|p]].
  - pose proof (FetchAll_class (GetObjectKeyFromNamespaceName (meta_namespace (b_meta b)) (placementOf b)) m w1) as Hc.
    intros He. rewrite He in Hc. by right.
  - intros [= <-]. unfold snapshotError. destruct (has_reason NotFound x); [by left|right]. apply NewAPIServerError_classified.
  - done.
Qed.

Definition taskClass (t : task (W := W)) : Prop := forall w e, (t w).2.2 = Some e -> classified e.

Lemma upsert_class new existing snapshot : taskClass (upsertWork new existing snapshot).
Proof.
  intros w e. unfold upsertWork. destruct existing as [x|].
  - destruct (upToDate new x snapshot); [done|]. destruct (hub_update_work _ w) as [w1 [x1 [e1|]]]; [|done].
    intros [= <-]. apply NewUpdate_classified.
  - destruct (hub_create_work new w) as [w1 [e1|]]; [|done]. intros [= <-]. apply NewCreate_classified.
Qed.

Lemma delete_class x : taskClass (deleteWork x).
Proof.
  intros w e. unfold deleteWork. destruct (hub_delete_work x w) as [w1 [e1|]]; [|done].
  destruct (has_reason NotFound e1); [done|]. intros [= <-]. apply NewAPIServerError_classified.
Qed.

Lemma runTasks_class tasks updated : Forall taskClass tasks -> forall w e, (runTasks tasks updated w).2.2 = Some e -> classified e.
Proof.
  intros Ht. revert updated. induction Ht as [|t tasks Ht _ IH]; intros updated w e; cbn; [done|].
  specialize (Ht w). destruct (t w) as [w1 [u e1]]. cbn in Ht.
  specialize (IH (match e1 with None => updated || u | Some _ => updated end) w1).
  destruct (runTasks _ _ w1) as [w2 [u2 e2]]. cbn in *. destruct e1; auto.
Qed.

Lemma processSnapshots_tasks snapshots ctx b ro cro existing store active tasks w a :
  Forall taskClass tasks ->
  (processSnapshots mapOrder snapshots ctx b ro cro existing store active tasks w).2 = Ok (inl a) -> Forall taskClass a.2.
Proof.
  revert store active tasks w. induction snapshots as [|s snapshots IH]; intros store active tasks w Ht; cbn [processSnapshots].
  { by intros [= <-]. }
  destruct (getWorkNamePrefixFromSnapshotName s) as [prefix|e|p]; [|done|done]. unfold hbind.
  destruct (processSelected _ _ _ _ _ _ _ _ _ w) as [w1 [[acc|[flag e]]|e|p]]; [|done|done|done].
  apply IH. apply Forall_app. split; [done|]. rewrite Forall_fmap, Forall_forall. intros x _. apply upsert_class.
Qed.

Lemma syncSnapshots_sclass b existing updated cluster ro cro snapshots w :
  sclass (syncSnapshots mapOrder b existing updated cluster ro cro snapshots w).2.
Proof.
  unfold syncSnapshots. revert w. apply orFail_sclass; [apply fetchCROs_class|intros [cros croMap]].
  apply orFail_sclass; [apply fetchROs_class|intros [ros roMap] w]. unfold hbind.
  match goal with |- context [processSnapshots ?a ?b ?c ?d ?e ?f ?g ?h ?i ?j w] =>
    pose proof (processSnapshots_class b c d e f g h i j w) as Hc;
    pose proof (processSnapshots_tasks b c d e f g h i j w) as Ht;
    destruct (processSnapshots a b c d e f g h i j w) as [w1 [[[active tasks]|[[flag e'] tasks]]|e'|p]] end;
    cbn [fst snd] in *; [|exact Hc|done|done].
  specialize (Ht _ (Forall_nil_2 _) eq_refl). cbn zeta.
  match goal with |- context [runTasks ?ts updated w1] =>
    assert (forall e, (runTasks ts updated w1).2.2 = Some e -> classified e) as Hr;
      [apply runTasks_class, Forall_app; split; [exact Ht|]|destruct (runTasks ts updated w1) as [w2 [u [e2|]]]] end.
  - rewrite Forall_fmap, Forall_forall. intros x _. apply delete_class.
  - by apply Hr.
  - done.
Qed.

Lemma syncApplyStrategy_class b x w e : (syncApplyStrategy b x w).2.2.2 = Some e -> classified e.
Proof.
  unfold syncApplyStrategy. destruct (negb _); [done|]. destruct (hub_update_work _ w) as [w1 [y [e1|]]]; [|done].
  intros [= <-]. apply NewUpdate_classified.
Qed.

Lemma syncStrategies_class b works existing updated w e :
  (syncStrategies b works existing updated w).2.2.2 = Some e -> classified e.
Proof.
  revert existing updated w. induction works as [|[k x] works IH]; intros existing updated w; cbn; [done|].
  pose proof (syncApplyStrategy_class b x w) as Hs. destruct (syncApplyStrategy b x w) as [w1 [y [u e1]]]. cbn in Hs.
  specialize (IH (<[k := y]> existing) (match e1 with None => updated || u | Some _ => updated end) w1).
  destruct (syncStrategies _ _ _ _ w1) as [w2 [ex [u2 e2]]]. cbn in *. destruct e1; [|auto]. intros [= <-]. by apply Hs.
Qed.

Lemma syncAllWork_sclass b existing cluster w : sclass (syncAllWork mapOrder b existing cluster w).2.
Proof.
  unfold syncAllWork. pose proof (syncStrategies_class b (mapOrder _ (map_to_list existing)) existing false w) as Hs.
  destruct (syncStrategies _ _ _ _ w) as [w1 [ex [u [e|]]]]; cbn [fst snd] in *; [by apply Hs|].
  apply orFail_sclass; [by apply classifies_map_err|intros roHash].
  apply orFail_sclass; [by apply classifies_map_err|intros croHash w2].
  pose proof (fetchAll_missing b w2) as Hf.
  destruct (fetchAllResourceSnapshots b w2) as [w3 [m|e|p]]; [apply syncSnapshots_sclass| |done].
  destruct (decide (e = _)); [by destruct (areAllWorkSynced _ _)|]. cbn. by destruct (Hf e eq_refl).
Qed.

Lemma listAll_class b : classifies (listAllWorksAssociated b).
Proof.
  unfold listAllWorksAssociated. apply classifies_bind; [apply classifies_map_err, NewAPIServerError_classified|by intros l w].
Qed.

(** ** Retries *)

(** What a round answers when the status was written. *)
Definition answerFor (syncErr : option goerr) : outcome Result :=
  match syncErr with
  | None | Some (ErrUserError _) => Ok finished
  | Some e => Err e
  end.

Lemma finishSync_answer b result syncErr works w :
  match syncErr with Some e => classified e | None => True end ->
  exists st, updateBindingStatusWithRetry (reportSync now result syncErr (mapOrder _ (map_to_list works)).*2 b) w = st /\
    finishSync now mapOrder b (result, syncErr, works) w =
      (st.1, match st.2 with Ok _ => answerFor syncErr | Err e => Err e | Panic p => Panic p end).
Proof.
  intros Hc. eexists. split; [reflexivity|]. unfold finishSync, hbind.
  destruct (updateBindingStatusWithRetry _ w) as [w1 [[]|e|p]]; [|done|done].
  destruct syncErr as [[]|]; try done; rewrite decide_False by done; done.
Qed.


End Classes.

(** ** What the comments say otherwise *)

(** The error of an envelope is wrapped in the other order than the comment on
    the message assumes: the part that is cut off is the front of the whole
    text, not the classification. *)
Lemma envelope_message_garbled :
  errorMessage (wrap_error "failed to apply overrides to ConfigMap c from envelope"
    (NewUserError (ErrPlain "ResourceOverrideSnapshot o failed to apply on ConfigMap c: no such label"))) =
  "apshot o failed to apply on ConfigMap c: no such label".
Proof. vm_compute. reflexivity. Qed.

(** The names of works are said to be formed so that they do not conflict; the
    placement a.b of the cluster's scope and the placement b in the namespace a
    have works of the same name on every cluster they share. *)
Lemma work_names_conflict :
  exists s1 s2, meta_namespace (rsnap_meta s1) <> meta_namespace (rsnap_meta s2) /\ getWorkNamePrefixFromSnapshotName s1 = Ok "a.b-work" /\ getWorkNamePrefixFromSnapshotName s2 = Ok "a.b-work".
Proof.
  exists (mkResourceSnapshot (new_meta "a.b-0-snapshot" "" {[PlacementTrackingLabel := "a.b"]} []) []),
    (mkResourceSnapshot (new_meta "b-0-snapshot" "a" {[PlacementTrackingLabel := "b"]} []) []).
  done.
Qed.
