(* ===== verification/WorkGenExamples.v ===== *)
(** * Work generation in memory

    A hub in memory with works, snapshots and overrides, on which the theorems
    about the work generator are evaluated: a placement with two resources, one
    of which an override deletes on this cluster. *)

From stdpp Require Import prelude gmap strings.
From S2P Require Import Prelude K8s Api Sample Utils FrameworkUtils Hub Overrider WorkApi WorkOverride WorkSummary WorkGen WorkGenProofs WorkGenSafety.
Import RefLib.

Local Open Scope string_scope.
Local Open Scope list_scope.

Module MemWork.

Record store : Type := mkStore {
  st_works : list Work;
  st_snapshots : list ResourceSnapshotObj;
  st_cros : list ClusterResourceOverrideSnapshot;
}.

Definition world : Type := Mem.mem * store.

Definition set_works (l : list Work) (w : world) : world := (w.1, mkStore l (st_snapshots w.2) (st_cros w.2)).

Definition sameWork (x y : Work) : bool :=
  bool_decide (w_name x = w_name y) && bool_decide (meta_namespace (w_meta x) = meta_namespace (w_meta y)).

Definition found {A} (o : option A) : outcome A :=
  match o with Some a => Ok a | None => Err (ErrAPI NotFound "not found") end.

Definition find {A} (f : A -> bool) (l : list A) : option A := snd <$> list_find (fun a => f a = true) l.

Definition named (ns name : string) (m : ObjectMeta) : bool :=
  bool_decide (meta_namespace m = ns) && bool_decide (meta_name m = name).

Definition listed (ns : string) (labels : gmap string string) (l : list Work) : list Work :=
  filter (fun x => meta_namespace (w_meta x) = ns /\ labels ⊆ w_labels x) l.

#[export] Instance mem_beside : HubClient world := Beside.hub_beside.
#[export] Instance mem_beside_laws : HubLaws world := Beside.laws_beside.

#[export] Instance mem_snapshots : SnapshotReader world := {
  hub_get_cluster name w := (w, found (find (fun c => bool_decide (mc_name c = name)) (Mem.mem_clusters w.1)));
  hub_list_resource_snapshots ns ls w :=
    (w, Ok (filter (fun s => meta_namespace (rsnap_meta s) = ns /\ ls ⊆ meta_labels (rsnap_meta s)) (st_snapshots w.2)));
  hub_list_cros ls w := (w, Ok []);
  hub_list_ros ls w := (w, Ok []);
}.

#[export] Instance mem_works : WorkClient world := {
  hub_list_works ns ls w := (w, Ok (listed ns ls (st_works w.2)));
  hub_create_work x w := (set_works (st_works w.2 ++ [x]) w, None);
  hub_update_work x w := (set_works ((fun y => if sameWork x y then x else y) <$> st_works w.2) w, (x, None));
  hub_delete_work x w := (set_works (filter (fun y => sameWork x y = false) (st_works w.2)) w, None);
  hub_fetch_binding ns name w := (w, found (Mem.stored w.1 !! (ns, name)));
  hub_get_resource_snapshot ns name w := (w, found (find (fun s => named ns name (rsnap_meta s)) (st_snapshots w.2)));
  hub_get_cro name w := (w, found (find (fun s => bool_decide (cro_name s = name)) (st_cros w.2)));
  hub_get_ro ns name w := (w, found None);
}.

#[export] Instance mem_work_laws : WorkLaws world.
Proof.
  split.
  - intros ns ls w l x. cbn. intros [= <-]. by intros [? _]%list_elem_of_filter.
  - intros x w x' e. cbn. by intros [= <- <-].
  - intros ns name w b. cbn. destruct (Mem.stored w.1 !! (ns, name)) as [b'|] eqn:E; cbn; [|done].
    intros [= <-]. by apply Mem.stored_lookup in E.
Qed.

(** Manifests are written kind/name, all of the cluster's scope; a patch leaves
    the manifest alone. *)
Definition parse (raw : string) : outcome Unstructured :=
  match str_split slash raw with
  | [kind; name] => Ok (mkUnstructured (mkGVK "" "v1" kind) "" name)
  | _ => Err (ErrPlain "not a manifest")
  end.

#[export] Instance ex_manifests : ManifestLib := {
  UnmarshalJSON := parse;
  UnmarshalEnvelope _ := Err (ErrPlain "not an envelope");
  IsClusterScopedResources _ := true;
}.

#[export] Instance ex_patch : PatchLib := { applyPatch _ raw := Ok raw }.

#[export] Instance ex_digest : DigestLib := {
  hashOfROs l := Ok ("ro" +:+ zstr (Z.of_nat (length l)));
  hashOfCROs l := Ok ("cro" +:+ zstr (Z.of_nat (length l)));
  shortDigest s := s;
}.

Definition in_order (A : Type) (l : list (string * A)) : list (string * A) := l.

Lemma in_order_perm A (l : list (string * A)) : in_order A l ≡ₚ l.
Proof. done. Qed.

Definition ex_cluster : MemberCluster :=
  mkMemberCluster (new_meta "c" "" ∅ []) [] [] ∅ (mkResourceUsage ∅ ∅ ∅ 0) None [].

(** The override deletes one of the roles on every cluster. *)
Definition ex_cro : ClusterResourceOverrideSnapshot :=
  mkCRO (new_meta "o-0" "" ∅ []) None [mkResourceSelector "" "v1" "Role" "secret" None ""]
    (Some (mkOverridePolicy [mkOverrideRule (Some (mkClusterSelector [])) DeleteOverrideType []])).

Definition ex_snapshot : ResourceSnapshotObj :=
  mkResourceSnapshot
    (set_meta_annotations {[NumberOfResourceSnapshotsAnnotation := "1"]}
      (new_meta "p-0-snapshot" "" (<[PlacementTrackingLabel := "p"]> {[ResourceIndexLabel := "0"]}) []))
    ["Role/reader"; "Role/secret"; "Role/writer"].

Definition ex_bound : BindingObj :=
  mkBinding (mkObjectMeta "b" "" {[PlacementTrackingLabel := "p"]} ∅ [] None 2 0)
    (mkBindingSpec BindingStateBound "p-0-snapshot" [] ["o-0"] "p-0" "c" (mkDecision "c" true None "") None)
    (mkBindingStatus [] [] [] [mkCondition ResourceBindingRolloutStarted ConditionTrue 2 0 "" ""]).

Definition ex_world (works : list Work) (snapshots : list ResourceSnapshotObj) (b : BindingObj) : world :=
  (Mem.mkMem {[("", "b") := b]} [ex_cluster] None [], mkStore works snapshots [ex_cro]).

Definition ex_stale : Work :=
  new_work (new_meta "old-work" "fleet-member-c" {[ParentBindingLabel := "b"]} []) (mkWorkSpec [] None None).

(** The first round: a stale work is removed and a new one is created without the secret. *)
Definition ex_run : world * outcome Result :=
  Reconcile 7 in_order "" "b" (ex_world [ex_stale] [ex_snapshot] ex_bound).

Example ex_run_creates :
  ((fun x => (w_name x, ws_Manifests (w_spec x))) <$> st_works ex_run.1.2) = [("p-work", ["Role/reader"; "Role/writer"])].
Proof. vm_compute. reflexivity. Qed.

Definition isWrite (e : wevent) : bool := match e with ReadBinding _ _ _ => false | _ => true end.

Lemma generator_writes_own_works_witness :
  exists tr, ownWrites "" "b" tr /\ length (filter (fun e => isWrite e = true) tr) = 2.
Proof.
  exists (Reconcile (W := world * list wevent) 7 in_order "" "b" (ex_world [ex_stale] [ex_snapshot] ex_bound, [])).1.2.
  split; [|by_evaluation].
  apply (generator_writes_own_works 7 in_order in_order_perm).
Defined.

Definition ex_croMap : overrideMap := {[mkResourceIdentifier "" "v1" "Role" "secret" "" None := [0]]}.

Lemma manifests_as_alone_witness :
  exists acc, pr_manifests acc = ["Role/reader"; "Role/writer"] /\
    pr_manifests acc = ["Role/reader"; "Role/secret"; "Role/writer"] ≫=
      plain ex_cluster ex_croMap ∅ (WorkOverride.mkStore [ex_cro] []).
Proof.
  set (w := ex_world [] [ex_snapshot] ex_bound).
  set (r := processSelected in_order ["Role/reader"; "Role/secret"; "Role/writer"]
    (mkOverrideContext ex_cluster ex_croMap ∅) ex_bound ex_snapshot "p-work" "ro" "cro"
    (mkProgress (WorkOverride.mkStore [ex_cro] []) ∅ [] []) w).
  assert (match r.2 with Ok (inl acc) => bool_decide (pr_manifests acc = ["Role/reader"; "Role/writer"]) | _ => false end = true)
    as Hr by by_evaluation.
  destruct r as [w' [[acc|?]|?|?]] eqn:Er; cbn in Hr; [|discriminate..]. apply bool_decide_eq_true in Hr.
  exists acc. split; [done|]. unfold r in Er.
  refine (proj1 (manifests_as_alone in_order in_order_perm _ _ _ _ _ _ _ _ _ _ _ _ _ _ _ Er)).
  split; repeat constructor.
Defined.

(** ** What the comments say otherwise *)

(** The snapshot of the binding is not there yet: the comments ask for a retry,
    and the round ends without one. *)
Lemma missing_snapshot_not_retried :
  (Reconcile 7 in_order "" "b" (ex_world [] [] ex_bound)).2 = Ok finished.
Proof. vm_compute. reflexivity. Qed.

(** The work is being deleted but still there, held by its finalizer, and the
    binding is let go. *)
Definition ex_deleting : BindingObj :=
  mkBinding (mkObjectMeta "b" "" {[PlacementTrackingLabel := "p"]} ∅ [WorkFinalizer] (Some 5%Z) 2 0)
    (b_spec ex_bound) (b_status ex_bound).

Definition ex_leaving : Work :=
  mkWork (mkObjectMeta "p-work" "fleet-member-c" {[ParentBindingLabel := "b"]} ∅ [WorkFinalizer] (Some 6%Z) 1 0)
    (mkWorkSpec ["Role/reader"] None None) (mkWorkStatus [] []).

Lemma binding_released_before_works :
  let w := (Reconcile 7 in_order "" "b" (ex_world [ex_leaving] [ex_snapshot] ex_deleting)).1 in
  Mem.stored w.1 !! ("", "b") = None /\ st_works w.2 = [ex_leaving].
Proof. vm_compute. done. Qed.

End MemWork.
