(* ===== verification/ApplierApi.v ===== *)
(** * Objects of a member cluster

    What the work applier, [pkg/controllers/workapplier], reads and writes on a
    member cluster.  [unstructured.Unstructured] and the libraries that decode,
    hash, diff and merge objects are not part of the repository: an object is a
    value of a type of its own, read and written through its fields, and
    [ObjectLaws] states that the fields are independent of each other.  The
    dynamic client is the class [MemberClient], the clients of the [Work] and
    the [AppliedWork] objects the class [ApplierClient]. *)

From stdpp Require Import prelude gmap strings.
From S2P Require Import Prelude K8s Api Sample Utils FrameworkUtils Hub Overrider WorkApi.

Local Open Scope string_scope.
Local Open Scope list_scope.

(** ** Names *)

Definition ManifestHashAnnotation : string := FleetPrefix +:+ "spec-hash".
Definition LastAppliedConfigAnnotation : string := FleetPrefix +:+ "last-applied-configuration".

Definition ComparisonOptionTypeFullComparison : string := "FullComparison".
Definition WhenToApplyTypeIfNotDrifted : string := "IfNotDrifted".
Definition WhenToTakeOverTypeIfNoDiff : string := "IfNoDiff".
Definition WhenToTakeOverTypeNever : string := "Never".
Definition ReportBackStrategyTypeMirror : string := "Mirror".

(** [placementv1beta1.GroupVersion] and the group of the newer API. *)
Definition GroupVersionString : string := "placement.kubernetes-fleet.io/v1beta1".
Definition AppliedWorkKind : string := "AppliedWork".
Definition newerGroup : string := "placement.kubefleet.dev".

Record GroupVersionResource : Set := mkGVR { gvr_Group : string; gvr_Version : string; gvr_Resource : string }.

#[global] Instance GroupVersionResource_eq_dec : EqDecision GroupVersionResource.
Proof. solve_decision. Defined.

Record OwnerReference : Set := mkOwnerReference {
  or_APIVersion : string;
  or_Kind : string;
  or_Name : string;
  or_UID : string;
  or_BlockOwnerDeletion : option bool;
}.

#[global] Instance OwnerReference_eq_dec : EqDecision OwnerReference.
Proof. solve_decision. Defined.

(** ** Objects *)

(** The fields the applier sets; a field that can be absent as well as empty
    is an option.  The last three are the creation times of an object and of
    the templates in it, which are only ever removed. *)
Inductive field : Set :=
| FName | FNamespace | FGenerateName
| FAnnotations | FLabels | FFinalizers | FOwnerReferences | FManagedFields
| FDeletionTimestamp | FDeletionGracePeriodSeconds | FGeneration
| FResourceVersion | FSelfLink | FUID
| FStatus
| FCreationTimestamp | FTemplateCreationTimestamp | FJobTemplateCreationTimestamp.

#[global] Instance field_eq_dec : EqDecision field.
Proof. solve_decision. Defined.

(** Managed fields are listed by their managers; the status is its JSON. *)
Definition fieldValue (f : field) : Type :=
  match f with
  | FName | FNamespace | FGenerateName | FResourceVersion | FSelfLink | FUID => string
  | FAnnotations | FLabels => option (gmap string string)
  | FFinalizers | FManagedFields => option (list string)
  | FOwnerReferences => option (list OwnerReference)
  | FGeneration => Z
  | FDeletionTimestamp | FDeletionGracePeriodSeconds => option Z
  | FStatus => option string
  | FCreationTimestamp | FTemplateCreationTimestamp | FJobTemplateCreationTimestamp => option Z
  end.

(** An operation of a JSON patch, by its type. *)
Record Operation : Set := mkOperation {
  op_Type : string;
  op_Path : string;
  op_From : string;
  op_Value : string;    (** [fmt.Sprint(op.Value)] *)
}.

Inductive PatchType : Set := MergePatchType | StrategicMergePatchType.

#[global] Instance PatchType_eq_dec : EqDecision PatchType.
Proof. solve_decision. Defined.

Record Patch : Set := mkPatch { patch_Type : PatchType; patch_Data : string }.

#[global] Instance Patch_eq_dec : EqDecision Patch.
Proof. solve_decision. Defined.

Class ObjectLib : Type := {
  Obj : Type;
  getField : forall f : field, Obj -> fieldValue f;
  setField : forall f : field, fieldValue f -> Obj -> Obj;
  (** [GetAPIVersion] and [GetKind] *)
  GetAPIVersion : Obj -> string;
  ObjectKind : Obj -> GroupVersionKind;
  (** [UnmarshalJSON] and [MarshalJSON] *)
  DecodeObject : string -> outcome Obj;
  EncodeObject : Obj -> outcome string;
  (** [meta.RESTMapper.RESTMapping] *)
  RESTMapping : GroupVersionKind -> outcome GroupVersionResource;
  (** [resource.HashOf] of an object and of a list of strings *)
  HashOfObject : Obj -> outcome string;
  HashOfStrings : list string -> outcome string;
  (** [jsondiff.CompareJSON] *)
  CompareJSON : string -> string -> outcome (list Operation);
  (** [jsonpointer.Parse], and the printed value that the pointer has in an object *)
  ParsePointer : string -> outcome (list string);
  EvalPointer : list string -> Obj -> outcome string;
  (** [schema.ParseGroupVersion], for the group *)
  ParseGroup : string -> outcome string;
  (** [builtInScheme.New]: whether the kind is built in *)
  BuiltIn : GroupVersionKind -> outcome bool;
  (** The three-way merges: last applied, manifest and live object; and the
      patch metadata of a built-in kind. *)
  CreateThreeWayJSONMergePatch : option string -> string -> string -> outcome string;
  NewPatchMetaFromStruct : GroupVersionKind -> outcome unit;
  CreateThreeWayStrategicMergePatch : GroupVersionKind -> option string -> string -> string -> outcome string;
  (** [validation.ValidateAnnotationsSize] *)
  AnnotationsFit : gmap string string -> bool;
  (** [json.Marshal] of the back-reported status and the length of that of a Work *)
  MarshalStatus : string -> string -> string -> outcome string;
  MarshalledSize : Work -> outcome Z;
}.

Class ObjectLaws (O : ObjectLib) : Prop := {
  get_set f v o : getField f (setField f v o) = v;
  get_set_other f g v o : f <> g -> getField f (setField g v o) = getField f o;
  set_set f v v' o : setField f v (setField f v' o) = setField f v o;
  set_comm f g v v' o : f <> g -> setField f v (setField g v' o) = setField g v' (setField f v o);
  (** Setting a field of the metadata does not change what kind of object it is. *)
  set_apiVersion f v o : GetAPIVersion (setField f v o) = GetAPIVersion o;
  set_kind f v o : ObjectKind (setField f v o) = ObjectKind o;
}.

Section Fields.
Context {O : ObjectLib}.

Definition GetName (o : Obj) : string := getField FName o.
Definition GetNamespace (o : Obj) : string := getField FNamespace o.
Definition GetGenerateName (o : Obj) : string := getField FGenerateName o.
Definition GetUID (o : Obj) : string := getField FUID o.
Definition GetGeneration (o : Obj) : Z := getField FGeneration o.
Definition GetResourceVersion (o : Obj) : string := getField FResourceVersion o.
Definition GetAnnotations (o : Obj) : option (gmap string string) := getField FAnnotations o.
Definition GetLabels (o : Obj) : option (gmap string string) := getField FLabels o.
Definition GetOwnerReferences (o : Obj) : list OwnerReference := default [] (getField FOwnerReferences o).
Definition GetManagedFields (o : Obj) : list string := default [] (getField FManagedFields o).
Definition GetDeletionTimestamp (o : Obj) : option Z := getField FDeletionTimestamp o.
Definition GetKind (o : Obj) : string := gvk_Kind (ObjectKind o).

Definition SetOwnerReferences (refs : list OwnerReference) (o : Obj) : Obj := setField FOwnerReferences (Some refs) o.
Definition SetAnnotations (a : option (gmap string string)) (o : Obj) : Obj := setField FAnnotations a o.
Definition SetResourceVersion (v : string) (o : Obj) : Obj := setField FResourceVersion v o.

End Fields.

(** ** Bundles *)

(** [ManifestProcessingApplyOrReportDiffResultType]; the zero value is the
    empty string. *)
Inductive ApplyOrReportDiffResTyp : Set :=
| ResTypUnset
| DecodingErred
| FoundGenerateName
| Duplicated
| FailedToFindObjInMemberCluster
| OwnedByOtherKubeFleetAPIObjects
| FailedToTakeOver
| NotTakenOver
| FailedToRunDriftDetection
| FoundDrifts
| FoundDriftsInDegradedMode
| FailedToApply
| AppliedWithFailedDriftDetection
| Applied
| FailedToReportDiff
| FoundDiff
| FoundDiffInDegradedMode
| NoDiffFound.

#[global] Instance ApplyOrReportDiffResTyp_eq_dec : EqDecision ApplyOrReportDiffResTyp.
Proof. solve_decision. Defined.

Definition resTypString (t : ApplyOrReportDiffResTyp) : string :=
  match t with
  | ResTypUnset => EmptyString
  | DecodingErred => "DecodingErred"
  | FoundGenerateName => "FoundGenerateName"
  | Duplicated => "Duplicated"
  | FailedToFindObjInMemberCluster => "FailedToFindObjInMemberCluster"
  | OwnedByOtherKubeFleetAPIObjects => "OwnedByOtherKubeFleetAPIObjects"
  | FailedToTakeOver => "FailedToTakeOver"
  | NotTakenOver => "NotTakenOver"
  | FailedToRunDriftDetection => "FailedToRunDriftDetection"
  | FoundDrifts => "FoundDrifts"
  | FoundDriftsInDegradedMode => "FoundDriftsInDegradedMode"
  | FailedToApply => "ManifestApplyFailed"
  | AppliedWithFailedDriftDetection => "AppliedWithFailedDriftDetection"
  | Applied => "Applied"
  | FailedToReportDiff => "FailedToReportDiff"
  | FoundDiff => "FoundDiff"
  | FoundDiffInDegradedMode => "FoundDiffInDegradedMode"
  | NoDiffFound => "NoDiffFound"
  end.

(** [ManifestProcessingAvailabilityResultType] *)
Inductive AvailabilityResTyp : Set :=
| AvailabilityUnset
| AvailabilitySkipped
| AvailabilityFailed
| AvailabilityAvailable
| AvailabilityNotYetAvailable
| AvailabilityNotTrackable.

#[global] Instance AvailabilityResTyp_eq_dec : EqDecision AvailabilityResTyp.
Proof. solve_decision. Defined.

Definition availabilityString (t : AvailabilityResTyp) : string :=
  match t with
  | AvailabilityUnset => EmptyString
  | AvailabilitySkipped => "Skipped"
  | AvailabilityFailed => "Failed"
  | AvailabilityAvailable => "Available"
  | AvailabilityNotYetAvailable => "ManifestNotAvailableYet"
  | AvailabilityNotTrackable => "NotTrackable"
  end.

(** [manifestProcessingApplyResTypSet] *)
Definition isApplyResTyp (t : ApplyOrReportDiffResTyp) : bool :=
  match t with
  | DecodingErred | FoundGenerateName | Duplicated | FailedToFindObjInMemberCluster
  | OwnedByOtherKubeFleetAPIObjects | FailedToTakeOver | NotTakenOver | FailedToRunDriftDetection
  | FoundDrifts | FoundDriftsInDegradedMode | FailedToApply | AppliedWithFailedDriftDetection | Applied => true
  | _ => false
  end.

Definition isManifestObjectApplied (t : ApplyOrReportDiffResTyp) : bool :=
  bool_decide (t = Applied) || bool_decide (t = AppliedWithFailedDriftDetection).

Definition isAppliedObjectAvailable (t : AvailabilityResTyp) : bool :=
  bool_decide (t = AvailabilityAvailable) || bool_decide (t = AvailabilityNotTrackable).

Definition isManifestObjectDiffReported (t : ApplyOrReportDiffResTyp) : bool :=
  bool_decide (t = FoundDiff) || bool_decide (t = NoDiffFound).

Section Bundle.
Context {O : ObjectLib}.

Record manifestProcessingBundle : Type := mkBundle {
  bd_manifest : string;
  bd_id : option WorkResourceIdentifier;
  bd_workResourceIdentifierStr : string;
  bd_manifestObj : option Obj;
  bd_inMemberClusterObj : option Obj;
  bd_gvr : option GroupVersionResource;
  bd_resTyp : ApplyOrReportDiffResTyp;
  bd_availability : AvailabilityResTyp;
  bd_err : option goerr;
  bd_availabilityErr : option goerr;
  bd_drifts : list PatchDetail;
  bd_diffs : list PatchDetail;
}.

(** Assignments on a bundle. *)
Definition set_bd_decoded (id : WorkResourceIdentifier) (b : manifestProcessingBundle) : manifestProcessingBundle :=
  mkBundle (bd_manifest b) (Some id) (bd_workResourceIdentifierStr b) (bd_manifestObj b) (bd_inMemberClusterObj b)
    (bd_gvr b) (bd_resTyp b) (bd_availability b) (bd_err b) (bd_availabilityErr b) (bd_drifts b) (bd_diffs b).

Definition set_bd_object (gvr : GroupVersionResource) (o : Obj) (b : manifestProcessingBundle) : manifestProcessingBundle :=
  mkBundle (bd_manifest b) (bd_id b) (bd_workResourceIdentifierStr b) (Some o) (bd_inMemberClusterObj b)
    (Some gvr) (bd_resTyp b) (bd_availability b) (bd_err b) (bd_availabilityErr b) (bd_drifts b) (bd_diffs b).

Definition set_bd_wriStr (s : string) (b : manifestProcessingBundle) : manifestProcessingBundle :=
  mkBundle (bd_manifest b) (bd_id b) s (bd_manifestObj b) (bd_inMemberClusterObj b)
    (bd_gvr b) (bd_resTyp b) (bd_availability b) (bd_err b) (bd_availabilityErr b) (bd_drifts b) (bd_diffs b).

Definition set_bd_member (o : option Obj) (b : manifestProcessingBundle) : manifestProcessingBundle :=
  mkBundle (bd_manifest b) (bd_id b) (bd_workResourceIdentifierStr b) (bd_manifestObj b) o
    (bd_gvr b) (bd_resTyp b) (bd_availability b) (bd_err b) (bd_availabilityErr b) (bd_drifts b) (bd_diffs b).

Definition set_bd_result (t : ApplyOrReportDiffResTyp) (b : manifestProcessingBundle) : manifestProcessingBundle :=
  mkBundle (bd_manifest b) (bd_id b) (bd_workResourceIdentifierStr b) (bd_manifestObj b) (bd_inMemberClusterObj b)
    (bd_gvr b) t (bd_availability b) (bd_err b) (bd_availabilityErr b) (bd_drifts b) (bd_diffs b).

Definition set_bd_err (e : goerr) (b : manifestProcessingBundle) : manifestProcessingBundle :=
  mkBundle (bd_manifest b) (bd_id b) (bd_workResourceIdentifierStr b) (bd_manifestObj b) (bd_inMemberClusterObj b)
    (bd_gvr b) (bd_resTyp b) (bd_availability b) (Some e) (bd_availabilityErr b) (bd_drifts b) (bd_diffs b).

Definition set_bd_drifts (ds : list PatchDetail) (b : manifestProcessingBundle) : manifestProcessingBundle :=
  mkBundle (bd_manifest b) (bd_id b) (bd_workResourceIdentifierStr b) (bd_manifestObj b) (bd_inMemberClusterObj b)
    (bd_gvr b) (bd_resTyp b) (bd_availability b) (bd_err b) (bd_availabilityErr b) ds (bd_diffs b).

Definition set_bd_diffs (ds : list PatchDetail) (b : manifestProcessingBundle) : manifestProcessingBundle :=
  mkBundle (bd_manifest b) (bd_id b) (bd_workResourceIdentifierStr b) (bd_manifestObj b) (bd_inMemberClusterObj b)
    (bd_gvr b) (bd_resTyp b) (bd_availability b) (bd_err b) (bd_availabilityErr b) (bd_drifts b) ds.

Definition set_bd_availability (t : AvailabilityResTyp) (e : option goerr) (b : manifestProcessingBundle)
    : manifestProcessingBundle :=
  mkBundle (bd_manifest b) (bd_id b) (bd_workResourceIdentifierStr b) (bd_manifestObj b) (bd_inMemberClusterObj b)
    (bd_gvr b) (bd_resTyp b) t (bd_err b) e (bd_drifts b) (bd_diffs b).

(** [bundle.applyOrReportDiffErr = e; bundle.applyOrReportDiffResTyp = t] *)
Definition fail_bundle (t : ApplyOrReportDiffResTyp) (e : goerr) (b : manifestProcessingBundle) : manifestProcessingBundle :=
  set_bd_result t (set_bd_err e b).

(** [prepareManifestProcessingBundles] *)
Definition newBundle (manifest : string) : manifestProcessingBundle :=
  mkBundle manifest None EmptyString None None None ResTypUnset AvailabilityUnset None None [] [].

Definition prepareManifestProcessingBundles (work : Work) : list manifestProcessingBundle :=
  newBundle <$> ws_Manifests (w_spec work).

End Bundle.

(** ** Identifiers *)

(** [formatWRIString] *)
Definition formatWRIString (wri : WorkResourceIdentifier) : outcome string :=
  if decide (wri_Group wri = EmptyString /\ wri_Version wri = EmptyString)
  then Err (ErrPlain "the manifest object can only be identified by its ordinal")
  else Ok ("GV=" +:+ wri_Group wri +:+ "/" +:+ wri_Version wri +:+ ", Kind=" +:+ wri_Kind wri +:+
           ", Namespace=" +:+ wri_Namespace wri +:+ ", Name=" +:+ wri_Name wri).

(** ** Applied works *)

Record AppliedResourceMeta : Set := mkAppliedResource {
  arm_id : WorkResourceIdentifier;
  arm_UID : string;
}.

#[global] Instance AppliedResourceMeta_eq_dec : EqDecision AppliedResourceMeta.
Proof. solve_decision. Defined.

Record AppliedWork : Set := mkAppliedWork {
  aw_Name : string;
  aw_UID : string;
  aw_DeletionTimestamp : option Z;
  aw_WorkName : string;
  aw_WorkNamespace : string;
  aw_AppliedResources : list AppliedResourceMeta;
}.

#[global] Instance AppliedWork_eq_dec : EqDecision AppliedWork.
Proof. solve_decision. Defined.

Definition set_aw_resources (rs : list AppliedResourceMeta) (a : AppliedWork) : AppliedWork :=
  mkAppliedWork (aw_Name a) (aw_UID a) (aw_DeletionTimestamp a) (aw_WorkName a) (aw_WorkNamespace a) rs.

Definition set_w_status (s : WorkStatus) (w : Work) : Work := mkWork (w_meta w) (w_spec w) s.

Definition set_w_meta (m : ObjectMeta) (w : Work) : Work := mkWork m (w_spec w) (w_status w).

(** [areOwnerRefsEqual] *)
Definition areOwnerRefsEqual (a b : OwnerReference) : bool :=
  bool_decide (or_UID a = or_UID b) && bool_decide (or_Name a = or_Name b) &&
  bool_decide (or_Kind a = or_Kind b) && bool_decide (or_APIVersion a = or_APIVersion b).

(** The reference to the [AppliedWork] that the objects of a Work should have. *)
Definition expectedOwnerRef (a : AppliedWork) : OwnerReference :=
  mkOwnerReference GroupVersionString AppliedWorkKind (aw_Name a) (aw_UID a) (Some true).

(** ** Calls *)

(** The dynamic client of the member cluster: objects are addressed by
    resource, namespace and name. *)
Class MemberClient (O : ObjectLib) (W : Type) : Type := {
  member_get : GroupVersionResource -> string -> string -> hub W Obj;
  member_create : GroupVersionResource -> string -> Obj -> hub W Obj;
  member_update : GroupVersionResource -> string -> Obj -> hub W Obj;
  (** [Patch]; the flag is that of a dry run *)
  member_patch : GroupVersionResource -> string -> string -> Patch -> bool -> hub W Obj;
  (** [Apply], with the flags of the force and the dry run *)
  member_apply : GroupVersionResource -> string -> string -> Obj -> bool -> bool -> hub W Obj;
  (** [Delete] with the UID as a precondition *)
  member_delete : GroupVersionResource -> string -> string -> string -> hub W unit;
}.

Class ApplierClient (W : Type) : Type := {
  hub_get_work : string -> string -> hub W Work;
  (** [Update] and [Status().Update] refresh the object they are given. *)
  hub_put_work : Work -> hub W Work;
  hub_put_work_status : Work -> hub W Work;
  hub_list_member_works : string -> hub W (list Work);
  spoke_get_applied_work : string -> hub W AppliedWork;
  spoke_create_applied_work : AppliedWork -> hub W AppliedWork;
  (** [Delete] with foreground propagation *)
  spoke_delete_applied_work : AppliedWork -> hub W unit;
  spoke_put_applied_work_status : AppliedWork -> hub W unit;
  (** [ctx.Err()] of the request *)
  ctx_err : W -> option goerr;
}.

(** [ParallelizeUntil]: a piece is left out once the context is cancelled. *)
Definition unlessCancelled {W A} {C : ApplierClient W} (work : A -> hub W A) (p : A) : hub W A := fun w =>
  match ctx_err w with Some _ => (w, Ok p) | None => work p w end.

Fixpoint parallelize {W A} {C : ApplierClient W} (work : A -> hub W A) (pieces : list A) : hub W (list A) :=
  match pieces with
  | [] => hret []
  | p :: r =>
      let* p' := unlessCancelled work p in
      let* r' := parallelize work r in
      hret (p' :: r')
  end.
