(* ===== verification/RateLimiter.v ===== *)
(** * The requeue rate limiter of the work applier

    Models [pkg/controllers/workapplier/backoff.go]: how long the applier waits
    before it processes a [Work] again.  Durations are nanoseconds; the bases
    and the configured seconds are binary64 numbers, multiplied and rounded as
    the source does.  [int64_outside] is the conversion to [int64] of a number
    that is out of its range, which the language leaves to the implementation. *)

From Stdlib Require Import SpecFloat.
From stdpp Require Import prelude gmap strings.
From S2P Require Import Prelude K8s Api Sample Utils FrameworkUtils Hub Overrider WorkApi ApplierApi.

Local Open Scope string_scope.
Local Open Scope list_scope.
Local Open Scope Z_scope.

(** ** Binary64 numbers *)

Definition f64_mul : spec_float -> spec_float -> spec_float := SFmul 53 1024.
Definition f64_div : spec_float -> spec_float -> spec_float := SFdiv 53 1024.
Definition f64_of_Z (z : Z) : spec_float := binary_normalize 53 1024 z 0 false.

(** The decimal [n / 10^k]: the division rounds it as a literal is. *)
Definition f64_decimal (n k : Z) : spec_float := f64_div (f64_of_Z n) (f64_of_Z (10 ^ k)).

(** The magnitude of a finite number, without its fraction. *)
Definition magnitude (m : positive) (e : Z) : Z :=
  if 0 <=? e then Z.pos m * 2 ^ e else Z.pos m / 2 ^ (- e).

(** [int64(f)] *)
Definition f64_to_int64 (int64_outside : spec_float -> Z) (f : spec_float) : Z :=
  match f with
  | S754_zero _ => 0
  | S754_finite s m e =>
      let z := if s then - magnitude m e else magnitude m e in
      if (- 2 ^ 63 <=? z) && (z <? 2 ^ 63) then z else int64_outside f
  | _ => int64_outside f
  end.

(** ** Settings *)

Definition maxAttemptsWithFixedDelay : Z := 40.
Definition minAttemptsWithFixedDelay : Z := 1.
Definition minFixedDelaySeconds : spec_float := f64_of_Z 2.
Definition minInitialSlowBackoffDelaySeconds : spec_float := f64_of_Z 2.
Definition maxMaxFastBackoffDelaySeconds : spec_float := f64_of_Z 3600.
Definition minExponentialBaseForSlowBackoff : spec_float := f64_decimal 105 2.
Definition maxExponentialBaseForFastBackoff : spec_float := f64_of_Z 100.
Definition maxNumOfRequeuesToTrack : Z := 200.
Definition defaultInitialSlowBackoffDelaySeconds : spec_float := f64_of_Z 2.
Definition defaultBaseForExponentialBackoff : spec_float := f64_decimal 12 1.
Definition defaultMaxSlowBackoffDelaySeconds : spec_float := f64_of_Z 30.
Definition defaultMaxFastBackoffDelaySeconds : spec_float := f64_of_Z 900.

(** [RequeueMultiStageWithExponentialBackoffRateLimiter] *)
Record rateLimiter : Type := mkRateLimiter {
  rl_requeueCounter : gmap ObjectKey Z;
  rl_lastRequeueDelay : gmap ObjectKey Z;
  rl_lastTrackedGeneration : gmap ObjectKey Z;
  rl_lastTrackedProcessingResultHash : gmap ObjectKey string;
  rl_attemptsWithFixedDelay : Z;
  rl_fixedDelay : Z;
  rl_exponentialBaseForSlowBackoff : spec_float;
  rl_initialSlowBackoffDelay : Z;
  rl_maxSlowBackoffDelay : Z;
  rl_exponentialBaseForFastBackoff : spec_float;
  rl_maxFastBackoffDelay : Z;
  rl_skipToFastBackoff : bool;
}.

Section Limiter.
Variable int64_outside : spec_float -> Z.

(** [time.Duration(seconds * float64(time.Second))] *)
Definition durationOfSeconds (s : spec_float) : Z := f64_to_int64 int64_outside (f64_mul s (f64_of_Z 1000000000)).

Definition NewRequeueMultiStageWithExponentialBackoffRateLimiter
    (attemptsWithFixedDelay : Z) (fixedDelaySeconds exponentialBaseForSlowBackoff initialSlowBackoffDelaySeconds
     maxSlowBackoffDelaySeconds exponentialBaseForFastBackoff maxFastBackoffDelaySeconds : spec_float)
    (skipToFastBackoff : bool) : rateLimiter :=
  let attempts :=
    if (minAttemptsWithFixedDelay <=? attemptsWithFixedDelay) && (attemptsWithFixedDelay <=? maxAttemptsWithFixedDelay)
    then attemptsWithFixedDelay else minAttemptsWithFixedDelay in
  let fixedDelay := if SFltb fixedDelaySeconds minFixedDelaySeconds then minFixedDelaySeconds else fixedDelaySeconds in
  let '(slow, fast) :=
    if SFleb minExponentialBaseForSlowBackoff exponentialBaseForSlowBackoff &&
       SFleb exponentialBaseForSlowBackoff exponentialBaseForFastBackoff &&
       SFleb exponentialBaseForFastBackoff maxExponentialBaseForFastBackoff
    then (exponentialBaseForSlowBackoff, exponentialBaseForFastBackoff)
    else (defaultBaseForExponentialBackoff, defaultBaseForExponentialBackoff) in
  let '(initial, maxSlow, maxFast) :=
    if SFleb minInitialSlowBackoffDelaySeconds initialSlowBackoffDelaySeconds &&
       SFleb initialSlowBackoffDelaySeconds maxSlowBackoffDelaySeconds &&
       SFleb maxSlowBackoffDelaySeconds maxFastBackoffDelaySeconds &&
       SFleb maxFastBackoffDelaySeconds maxMaxFastBackoffDelaySeconds
    then (initialSlowBackoffDelaySeconds, maxSlowBackoffDelaySeconds, maxFastBackoffDelaySeconds)
    else (defaultInitialSlowBackoffDelaySeconds, defaultMaxSlowBackoffDelaySeconds, defaultMaxFastBackoffDelaySeconds) in
  mkRateLimiter ∅ ∅ ∅ ∅ attempts (durationOfSeconds fixedDelay)
    slow (durationOfSeconds initial) (durationOfSeconds maxSlow)
    fast (durationOfSeconds maxFast) skipToFastBackoff.

(** [defaultRequeueRateLimiter] of [controller.go] *)
Definition defaultRequeueRateLimiter : rateLimiter :=
  NewRequeueMultiStageWithExponentialBackoffRateLimiter 1 (f64_of_Z 5) (f64_decimal 12 1) (f64_of_Z 2) (f64_of_Z 15)
    (f64_decimal 15 1) (f64_of_Z 900) true.

(** [time.Duration(float64(delay) * base)] *)
Definition scaleDelay (delay : Z) (base : spec_float) : Z :=
  f64_to_int64 int64_outside (f64_mul (f64_of_Z delay) base).

Definition workKey (work : Work) : ObjectKey := (meta_namespace (w_meta work), w_name work).

Section When.
Context {K : K8sLib} {O : ObjectLib}.

(** [fmt.Sprintf("%s,%s", ...)] *)
Definition processingResult (b : manifestProcessingBundle) : string :=
  resTypString (bd_resTyp b) +:+ "," +:+ availabilityString (bd_availability b).

Definition computeProcessingResultHash (bundles : list manifestProcessingBundle) : outcome string :=
  owrap "failed to marshal processing results as JSON" (HashOfStrings (processingResult <$> bundles)).

Definition isAvailableOrDiffReported (work : Work) : bool :=
  let conds := wst_Conditions (w_status work) in
  IsConditionStatusTrue (FindStatusCondition conds WorkConditionTypeAvailable) (w_generation work) ||
  IsConditionStatusTrue (FindStatusCondition conds WorkConditionTypeDiffReported) (w_generation work).

(** The [switch], before the cap. *)
Definition nextDelay (r : rateLimiter) (settled : bool) (numRequeues last : Z) : Z :=
  if numRequeues <? rl_attemptsWithFixedDelay r then rl_fixedDelay r
  else if numRequeues =? rl_attemptsWithFixedDelay r then rl_initialSlowBackoffDelay r
  else if rl_maxFastBackoffDelay r <=? last then rl_maxFastBackoffDelay r
  else if rl_skipToFastBackoff r && settled then scaleDelay last (rl_exponentialBaseForFastBackoff r)
  else if rl_maxSlowBackoffDelay r <=? last then scaleDelay last (rl_exponentialBaseForFastBackoff r)
  else
    let delay := scaleDelay last (rl_exponentialBaseForSlowBackoff r) in
    if rl_maxSlowBackoffDelay r <? delay then scaleDelay last (rl_exponentialBaseForFastBackoff r) else delay.

Definition When (r : rateLimiter) (work : Work) (bundles : list manifestProcessingBundle) : rateLimiter * Z :=
  let k := workKey work in
  let lastTrackedGen := default 0 (rl_lastTrackedGeneration r !! k) in
  let lastTrackedHash := default EmptyString (rl_lastTrackedProcessingResultHash r !! k) in
  let hash := computeProcessingResultHash bundles in
  let cur := match hash with Ok h => h | _ => EmptyString end in
  let reset := negb (lastTrackedGen =? w_generation work) || negb (is_ok hash) || negb (bool_decide (lastTrackedHash = cur)) in
  let counter := if reset then <[k := 0]> (rl_requeueCounter r) else rl_requeueCounter r in
  let delays := if reset then <[k := 0]> (rl_lastRequeueDelay r) else rl_lastRequeueDelay r in
  let numRequeues := default 0 (counter !! k) in
  let last := default 0 (delays !! k) in
  let delay := nextDelay r (isAvailableOrDiffReported work) numRequeues last in
  let delay := if rl_maxFastBackoffDelay r <? delay then rl_maxFastBackoffDelay r else delay in
  let counter := if numRequeues + 1 <? maxNumOfRequeuesToTrack then <[k := numRequeues + 1]> counter else counter in
  (mkRateLimiter counter (<[k := delay]> delays)
     (<[k := w_generation work]> (rl_lastTrackedGeneration r))
     (<[k := cur]> (rl_lastTrackedProcessingResultHash r))
     (rl_attemptsWithFixedDelay r) (rl_fixedDelay r)
     (rl_exponentialBaseForSlowBackoff r) (rl_initialSlowBackoffDelay r) (rl_maxSlowBackoffDelay r)
     (rl_exponentialBaseForFastBackoff r) (rl_maxFastBackoffDelay r) (rl_skipToFastBackoff r),
   delay).

End When.
End Limiter.

Definition Forget (r : rateLimiter) (work : Work) : rateLimiter :=
  let k := workKey work in
  mkRateLimiter (delete k (rl_requeueCounter r)) (delete k (rl_lastRequeueDelay r))
    (delete k (rl_lastTrackedGeneration r)) (delete k (rl_lastTrackedProcessingResultHash r))
    (rl_attemptsWithFixedDelay r) (rl_fixedDelay r)
    (rl_exponentialBaseForSlowBackoff r) (rl_initialSlowBackoffDelay r) (rl_maxSlowBackoffDelay r)
    (rl_exponentialBaseForFastBackoff r) (rl_maxFastBackoffDelay r) (rl_skipToFastBackoff r).
