(* ===== verification/RateLimiterProofs.v ===== *)
(** * The delays of the rate limiter

    Rounding to binary64 is bounded on the integers, without real numbers: a
    product of a delay and a base is off by less than one nanosecond.  From
    this, the delays grow by the smallest base at least, up to the cap. *)

From Stdlib Require Import SpecFloat.
From stdpp Require Import prelude gmap strings.
From S2P Require Import Prelude K8s Api Sample Utils FrameworkUtils Hub Overrider WorkApi ApplierApi RateLimiter.

Local Open Scope string_scope.
Local Open Scope list_scope.
Local Open Scope Z_scope.

(** ** Shifts *)

Lemma digits2_pos_bounds p : 2 ^ (Z.pos (digits2_pos p) - 1) <= Z.pos p < 2 ^ Z.pos (digits2_pos p).
Proof.
  induction p as [p IH|p IH|]; cbn [digits2_pos]; [| |by split].
  all: rewrite Pos2Z.inj_succ; replace (Z.succ _ - 1) with (Z.succ (Z.pos (digits2_pos p) - 1)) by lia;
    rewrite !Z.pow_succ_r by lia; lia.
Qed.

Lemma Zdigits2_bounds m : 0 < m -> 2 ^ (Zdigits2 m - 1) <= m < 2 ^ Zdigits2 m.
Proof. destruct m as [|p|p]; [lia| |lia]. intros _. apply digits2_pos_bounds. Qed.

Lemma Zdigits2_unique m d : 0 < d -> 2 ^ (d - 1) <= m < 2 ^ d -> Zdigits2 m = d.
Proof.
  intros Hd Hm. assert (0 < 2 ^ (d - 1)) by (apply Z.pow_pos_nonneg; lia).
  pose proof (Zdigits2_bounds m ltac:(lia)) as Hb.
  assert (0 < Zdigits2 m) by (by destruct m; cbn in *; lia).
  assert (2 ^ (d - 1) < 2 ^ Zdigits2 m) as H1 by lia. apply Z.pow_lt_mono_r_iff in H1; [|lia|lia].
  assert (2 ^ (Zdigits2 m - 1) < 2 ^ d) as H2 by lia. apply Z.pow_lt_mono_r_iff in H2; lia.
Qed.

Lemma iter_pos_nat {A} (f : A -> A) p x : SpecFloat.iter_pos f p x = Nat.iter (Pos.to_nat p) f x.
Proof.
  revert x. induction p as [p IH|p IH|]; intros x; cbn [SpecFloat.iter_pos]; [| |done].
  - rewrite !IH, Pos2Nat.inj_xI, <- Nat.iter_add, <- Nat.iter_succ_r. f_equal. lia.
  - rewrite !IH, Pos2Nat.inj_xO, <- Nat.iter_add. f_equal. lia.
Qed.

Lemma shr_1_m r : 0 <= shr_m r -> shr_m (shr_1 r) = shr_m r / 2.
Proof.
  destruct r as [[|[p|p|]|p] x y]; cbn [shr_m shr_1]; intros Hm; try done.
  - apply (Z.div_unique _ _ _ 1); lia.
  - apply (Z.div_unique _ _ _ 0); lia.
Qed.

Lemma shr_iter_m n r : 0 <= shr_m r -> shr_m (Nat.iter n shr_1 r) = shr_m r / 2 ^ Z.of_nat n.
Proof.
  intros Hr. induction n as [|n IH]; [cbn; by rewrite Z.div_1_r|].
  rewrite Nat2Z.inj_succ, Z.pow_succ_r, Z.mul_comm, <- Z.div_div, <- IH by lia. cbn [Nat.iter].
  apply shr_1_m. rewrite IH. apply Z.div_pos; lia.
Qed.

Lemma shr_m_shift m l e n : 0 <= m -> 0 <= n ->
  shr_m (shr (shr_record_of_loc m l) e n).1 = m / 2 ^ n /\ (shr (shr_record_of_loc m l) e n).2 = e + n.
Proof.
  intros Hm Hn. assert (shr_m (shr_record_of_loc m l) = m) as Hr by by destruct l as [|[]].
  destruct n as [|p|p]; cbn [shr fst snd]; [rewrite Hr, Z.div_1_r; lia| |lia].
  split; [|done]. rewrite iter_pos_nat, shr_iter_m, Hr by lia. by rewrite positive_nat_Z.
Qed.

(** ** Rounding *)

Lemma fexp_normal d e : - 1021 <= d + e -> fexp 53 1024 (d + e) - e = d - 53.
Proof. unfold fexp, emin. lia. Qed.

Lemma round_nearest_even_bounds m l : m <= round_nearest_even m l <= m + 1.
Proof. destruct l as [|[]]; cbn; [lia|destruct (Z.even m); lia|lia|lia]. Qed.

(** A number of at least 53 digits is rounded to a multiple of the unit of its
    last place, to the one below it or the one above. *)
Lemma binary_round_aux_spec m e d :
  Zdigits2 m = d -> 53 <= d -> 0 < m -> - 1000 <= d + e <= 1000 ->
  exists m' n', binary_round_aux 53 1024 false m e loc_Exact = S754_finite false m' (e + n') /\ 0 <= n' /\
    m / 2 ^ (d - 53) * 2 ^ (d - 53) <= Z.pos m' * 2 ^ n' <= (m / 2 ^ (d - 53) + 1) * 2 ^ (d - 53).
Proof.
  intros Hd H53 Hm He. unfold binary_round_aux, shr_fexp. rewrite Hd, fexp_normal by lia.
  pose proof (shr_m_shift m loc_Exact e (d - 53) ltac:(lia) ltac:(lia)) as [E1 E2].
  destruct (shr (shr_record_of_loc m loc_Exact) e (d - 53)) as [r1 e1]; cbn [fst snd] in E1, E2. subst e1.
  rewrite E1. set (h := m / 2 ^ (d - 53)) in *.
  assert (2 ^ 52 <= h < 2 ^ 53) as Hh.
  { pose proof (Zdigits2_bounds m Hm) as Hb. rewrite Hd in Hb. unfold h. split.
    - apply Z.div_le_lower_bound; [apply Z.pow_pos_nonneg; lia|]. rewrite <- Z.pow_add_r by lia.
      replace (d - 53 + 52) with (d - 1) by lia. lia.
    - apply Z.div_lt_upper_bound; [apply Z.pow_pos_nonneg; lia|]. rewrite <- Z.pow_add_r by lia.
      replace (d - 53 + 53) with d by lia. lia. }
  set (q := round_nearest_even h _). pose proof (round_nearest_even_bounds h (loc_of_shr_record r1)) as Hq.
  fold q in Hq. destruct (decide (q = 2 ^ 53)) as [Hc|Hc].
  - rewrite Hc, (Zdigits2_unique (2 ^ 53) 54) by lia. rewrite fexp_normal by lia.
    change (54 - 53) with 1. change (2 ^ 53) with 9007199254740992 in *.
    cbn [shr shr_record_of_loc SpecFloat.iter_pos shr_1 shr_m].
    exists 4503599627370496%positive, (d - 53 + 1).
    replace (e + (d - 53) + 1 <=? 1024 - 53) with true by lia. split; [f_equal; lia|]. split; [lia|].
    rewrite Z.pow_add_r by lia. change (2 ^ 1) with 2. nia.
  - rewrite (Zdigits2_unique q 53) by lia. rewrite fexp_normal by lia. change (53 - 53) with 0.
    cbn [shr shr_record_of_loc shr_m].
    destruct q as [|p|p]; [lia| |lia]. exists p, (d - 53).
    replace (e + (d - 53) <=? 1024 - 53) with true by lia. split; [done|]. split; [lia|]. nia.
Qed.

Lemma binary_round_aux_exact m e :
  2 ^ 52 <= Z.pos m < 2 ^ 53 -> - 1000 <= e <= 900 ->
  binary_round_aux 53 1024 false (Z.pos m) e loc_Exact = S754_finite false m e.
Proof.
  intros Hm He. unfold binary_round_aux, shr_fexp.
  rewrite (Zdigits2_unique (Z.pos m) 53) by lia. rewrite fexp_normal by lia. change (53 - 53) with 0.
  cbn [shr shr_record_of_loc shr_m loc_of_shr_record round_nearest_even].
  rewrite (Zdigits2_unique (Z.pos m) 53) by lia. rewrite fexp_normal by lia. change (53 - 53) with 0.
  cbn [shr shr_record_of_loc shr_m]. by replace (e <=? 1024 - 53) with true by lia.
Qed.

Lemma iter_xO m d : Z.pos (Pos.iter xO m d) = Z.pos m * 2 ^ Z.pos d.
Proof.
  induction d as [|d IH] using Pos.peano_ind; [cbn; lia|].
  rewrite Pos.iter_succ, Pos2Z.inj_succ, Z.pow_succ_r by lia. lia.
Qed.

(** An integer of at most 53 digits is represented exactly. *)
Lemma f64_of_Z_exact z : 0 < z < 2 ^ 53 ->
  exists m k, f64_of_Z z = S754_finite false m (- k) /\ 2 ^ 52 <= Z.pos m < 2 ^ 53 /\ 0 <= k <= 52 /\
    Z.pos m = z * 2 ^ k /\ z < 2 ^ (53 - k).
Proof.
  intros Hz. destruct z as [|p|p]; [lia| |lia]. unfold f64_of_Z, binary_normalize, binary_round.
  pose proof (digits2_pos_bounds p) as Hp. set (d := Z.pos (digits2_pos p)) in *.
  assert (1 <= d <= 53) as Hd.
  { split; [lia|]. assert (2 ^ (d - 1) < 2 ^ 53) as H1 by lia. apply Z.pow_lt_mono_r_iff in H1; lia. }
  rewrite Z.add_0_r. assert (fexp 53 1024 d = d - 53) as -> by (unfold fexp, emin; lia).
  unfold shl_align. destruct (d - 53 - 0) as [|q|q] eqn:Eq; [| lia |].
  - assert (d = 53) as Ed by lia. exists p, 0. rewrite Ed in Hp. cbn in Hp.
    rewrite binary_round_aux_exact by lia. split_and!; [done|lia|lia|lia|lia|lia|lia].
  - exists (Pos.iter xO p q), (53 - d).
    assert (Z.pos (Pos.iter xO p q) = Z.pos p * 2 ^ (53 - d)) as Em.
    { rewrite iter_xO. do 2 f_equal. lia. }
    assert (2 ^ 52 <= Z.pos (Pos.iter xO p q) < 2 ^ 53) as Hm.
    { rewrite Em. replace (2 ^ 52) with (2 ^ (d - 1) * 2 ^ (53 - d))
        by (rewrite <- Z.pow_add_r by lia; f_equal; lia).
      replace (2 ^ 53) with (2 ^ d * 2 ^ (53 - d)) by (rewrite <- Z.pow_add_r by lia; f_equal; lia).
      assert (0 < 2 ^ (53 - d)) by (apply Z.pow_pos_nonneg; lia). nia. }
    rewrite binary_round_aux_exact by lia. split_and!; [f_equal; lia|lia|lia|lia|lia|done|].
    replace (53 - (53 - d)) with d by lia. lia.
Qed.

Lemma magnitude_shift m e n : e <= 0 -> 0 <= n -> magnitude m (e + n) = Z.pos m * 2 ^ n / 2 ^ (- e).
Proof.
  intros He Hn. unfold magnitude. destruct (0 <=? e + n) eqn:E.
  - assert (2 ^ n = 2 ^ (e + n) * 2 ^ (- e)) as -> by (rewrite <- Z.pow_add_r by lia; f_equal; lia).
    rewrite Z.mul_assoc. symmetry. apply Z.div_mul. apply Z.pow_nonzero; lia.
  - replace (- e) with (- (e + n) + n) by lia. rewrite Z.pow_add_r by lia.
    symmetry. apply Z.div_mul_cancel_r; apply Z.pow_nonzero; lia.
Qed.

(** The conversion of a product to an integer is off by less than two units. *)
Lemma f64_mul_int64 out m1 e1 m2 e2 :
  2 ^ 52 <= Z.pos m1 < 2 ^ 53 -> 2 ^ 52 <= Z.pos m2 < 2 ^ 53 -> - 900 <= e1 + e2 <= - 53 ->
  exists r, f64_to_int64 out (f64_mul (S754_finite false m1 e1) (S754_finite false m2 e2)) = r /\ 0 <= r < 2 ^ 62 /\
    Z.pos m1 * Z.pos m2 - 2 * 2 ^ (- (e1 + e2)) < r * 2 ^ (- (e1 + e2)) <= Z.pos m1 * Z.pos m2 + 2 ^ (- (e1 + e2)).
Proof.
  intros H1 H2 He. set (p := (m1 * m2)%positive). assert (Z.pos p = Z.pos m1 * Z.pos m2) as Ep by lia.
  assert (2 ^ 104 <= Z.pos p < 2 ^ 106) as Hp by (rewrite Ep; nia).
  assert (105 <= Zdigits2 (Z.pos p) <= 106) as Hd.
  { pose proof (Zdigits2_bounds (Z.pos p) ltac:(lia)) as Hb. split.
    - assert (2 ^ 104 < 2 ^ Zdigits2 (Z.pos p)) as Hl by lia. apply Z.pow_lt_mono_r_iff in Hl; [lia|lia|cbn; lia].
    - assert (2 ^ (Zdigits2 (Z.pos p) - 1) < 2 ^ 106) as Hl by lia. apply Z.pow_lt_mono_r_iff in Hl; lia. }
  cbn [f64_mul SFmul xorb]. fold p.
  destruct (binary_round_aux_spec (Z.pos p) (e1 + e2) _ eq_refl) as (m' & n' & E & Hn & Hv); [lia|lia|lia|].
  rewrite E. cbn [f64_to_int64]. rewrite magnitude_shift by lia.
  set (T := 2 ^ (- (e1 + e2))). set (V := Z.pos m' * 2 ^ n') in *. set (u := 2 ^ (Zdigits2 (Z.pos p) - 53)) in *.
  assert (2 ^ 53 <= T) as HT by (apply Z.pow_le_mono_r; lia).
  assert (0 < u <= 2 ^ 53) as Hu by (split; [apply Z.pow_pos_nonneg; lia|apply Z.pow_le_mono_r; lia]).
  assert (Z.pos p - u < Z.pos p / u * u <= Z.pos p) as Hf.
  { pose proof (Z.div_mod (Z.pos p) u ltac:(lia)) as Hm. pose proof (Z.mod_pos_bound (Z.pos p) u ltac:(lia)). lia. }
  assert (V / T * T <= V < V / T * T + T) as Hr.
  { pose proof (Z.div_mod V T ltac:(lia)) as Hm. pose proof (Z.mod_pos_bound V T ltac:(lia)). lia. }
  assert (0 <= V / T < 2 ^ 62) as Hr2.
  { split; [apply Z.div_pos; lia|]. apply Z.div_lt_upper_bound; [lia|]. nia. }
  exists (V / T). replace (_ && _) with true by lia. split; [done|]. split; [done|]. rewrite <- Ep. lia.
Qed.

(** ** Settings *)

Definition isFloat64 (f : spec_float) : Prop := valid_binary 53 1024 f = true.

(** Positive numbers are compared by exponent, then by mantissa. *)
Lemma SFleb_finite m1 e1 m2 e2 :
  SFleb (S754_finite false m1 e1) (S754_finite false m2 e2) = true <-> e1 < e2 \/ e1 = e2 /\ Z.pos m1 <= Z.pos m2.
Proof.
  unfold SFleb, SFcompare. change (Pos.compare_cont Eq m1 m2) with (m1 ?= m2)%positive.
  destruct (Z.compare_spec e1 e2); [destruct (Pos.compare_spec m1 m2)|..]; split; intros; try done; lia.
Qed.

Lemma SFleb_above m e f :
  SFleb (S754_finite false m e) f = true ->
  f = S754_infinity false \/ exists m' e', f = S754_finite false m' e' /\ (e < e' \/ e = e' /\ Z.pos m <= Z.pos m').
Proof.
  destruct f as [s|s| |s m' e']; [done|destruct s; [done|by left]|done|destruct s; [done|]].
  intros H. right. exists m', e'. split; [done|]. by apply SFleb_finite.
Qed.

(** A float64 at least as large as a positive one, and at most as large as one
    that is not too large, has 53 digits. *)
Lemma float64_between m1 e1 f m2 e2 :
  isFloat64 f -> - 1000 <= e1 -> SFleb (S754_finite false m1 e1) f = true -> SFleb f (S754_finite false m2 e2) = true ->
  exists m e, f = S754_finite false m e /\ 2 ^ 52 <= Z.pos m < 2 ^ 53 /\
    (e1 < e \/ e1 = e /\ Z.pos m1 <= Z.pos m) /\ (e < e2 \/ e = e2 /\ Z.pos m <= Z.pos m2).
Proof.
  intros Hf He H1 H2. destruct (SFleb_above _ _ _ H1) as [->|(m & e & -> & Hm)]; [done|].
  exists m, e. split; [done|]. apply SFleb_finite in H2. split; [|done].
  unfold isFloat64, valid_binary, bounded, canonical_mantissa, fexp, emin in Hf.
  pose proof (digits2_pos_bounds m) as Hd. assert (Z.pos (digits2_pos m) = 53) as E by lia. by rewrite E in Hd.
Qed.

Lemma SFleb_trans m e f g h :
  SFleb (S754_finite false m e) f = true -> SFleb f g = true -> SFleb g h = true -> SFleb f h = true.
Proof.
  intros H1 H2 H3. destruct (SFleb_above _ _ _ H1) as [->|(m1 & e1 & -> & _)].
  - by destruct g as [| [] | |[]]; destruct h as [| [] | |[]].
  - destruct (SFleb_above _ _ _ H2) as [->|(m2 & e2 & -> & E2)]; [by destruct h as [| [] | |[]]|].
    destruct (SFleb_above _ _ _ H3) as [->|(m3 & e3 & -> & E3)]; [done|]. apply SFleb_finite. lia.
Qed.

Lemma SFleb_refl m e : SFleb (S754_finite false m e) (S754_finite false m e) = true.
Proof. apply SFleb_finite. lia. Qed.

Lemma minBase_value : minExponentialBaseForSlowBackoff = S754_finite false 4728779608739021 (-52).
Proof. by vm_compute. Qed.

Lemma minDelay_value : minInitialSlowBackoffDelaySeconds = S754_finite false 4503599627370496 (-51).
Proof. by vm_compute. Qed.

(** The bases are at least 1.05 and at most 100. *)
Definition baseOk (f : spec_float) : Prop :=
  exists m e, f = S754_finite false m e /\ 2 ^ 52 <= Z.pos m < 2 ^ 53 /\ - 52 <= e <= - 46 /\
    105 * 2 ^ (- e) <= 100 * Z.pos m /\ Z.pos m <= 100 * 2 ^ (- e).

Lemma base_in_range f :
  isFloat64 f -> SFleb minExponentialBaseForSlowBackoff f = true -> SFleb f maxExponentialBaseForFastBackoff = true ->
  baseOk f.
Proof.
  rewrite minBase_value. change maxExponentialBaseForFastBackoff with (S754_finite false 7036874417766400 (-46)).
  intros Hf H1 H2. destruct (float64_between _ (-52) _ _ _ Hf ltac:(lia) H1 H2) as (m & e & -> & Hm & Hl & Hu).
  exists m, e. split; [done|]. split; [done|]. split; [lia|].
  assert (e = -52 \/ e = -51 \/ e = -50 \/ e = -49 \/ e = -48 \/ e = -47 \/ e = -46) as He by lia.
  destruct_or! He; subst e; cbn; lia.
Qed.

Lemma defaultBase_ok : baseOk defaultBaseForExponentialBackoff.
Proof. exists 5404319552844595%positive, (-52). by split_and!. Qed.

(** A delay in nanoseconds that the configuration allows, up to rounding. *)
Definition delayOk (d : Z) : Prop := 1999999999 <= d <= 3600000000001.

Lemma duration_in_range out s :
  isFloat64 s -> SFleb minInitialSlowBackoffDelaySeconds s = true -> SFleb s maxMaxFastBackoffDelaySeconds = true ->
  delayOk (durationOfSeconds out s).
Proof.
  rewrite minDelay_value. change maxMaxFastBackoffDelaySeconds with (S754_finite false 7916483719987200 (-41)).
  intros Hs H1 H2. destruct (float64_between _ (-51) _ _ _ Hs ltac:(lia) H1 H2) as (m & e & -> & Hm & Hl & Hu).
  unfold durationOfSeconds. change (f64_of_Z 1000000000) with (S754_finite false 8388608000000000 (-23)).
  destruct (f64_mul_int64 out m e 8388608000000000 (-23)) as (r & -> & _ & Hr); [lia|lia|lia|].
  replace (- (e + -23)) with (- e + 23) in Hr by lia. rewrite Z.pow_add_r in Hr by lia.
  change (2 ^ 23) with 8388608 in Hr. unfold delayOk.
  assert (e = -51 \/ e = -50 \/ e = -49 \/ e = -48 \/ e = -47 \/ e = -46 \/ e = -45 \/ e = -44 \/ e = -43 \/
          e = -42 \/ e = -41) as He by lia.
  destruct_or! He; subst e; cbn in Hr; lia.
Qed.

(** ** Growth *)

(** A delay grows by one twentieth at least, up to rounding. *)
Lemma scaleDelay_grows out d f :
  delayOk d -> baseOk f -> 105 * d - 199 <= 100 * scaleDelay out d f.
Proof.
  intros Hd (b & e & -> & Hb & He & Hlow & Hhigh). unfold delayOk in Hd. unfold scaleDelay.
  destruct (f64_of_Z_exact d) as (m & k & -> & Hm & Hk & Em & Hz); [lia|].
  assert (11 <= k) as Hk'.
  { destruct (decide (11 <= k)); [done|]. assert (2 ^ 43 <= 2 ^ (53 - k)) by (apply Z.pow_le_mono_r; lia).
    assert (2 ^ 52 <= d * 2 ^ k) by lia. assert (2 ^ k <= 2 ^ 10) by (apply Z.pow_le_mono_r; lia).
    assert (0 < 2 ^ k) by (apply Z.pow_pos_nonneg; lia). nia. }
  destruct (f64_mul_int64 out m (- k) b e) as (r & -> & _ & Hr & _); [lia|lia|lia|].
  replace (- (- k + e)) with (k + - e) in Hr by lia. rewrite Z.pow_add_r, Em in Hr by lia.
  set (S := 2 ^ (- e)) in *. set (X := 2 ^ k) in *.
  assert (0 < X) by (apply Z.pow_pos_nonneg; lia). assert (0 < S) by (apply Z.pow_pos_nonneg; lia).
  assert (d * Z.pos b - 2 * S < r * S) as Hr'.
  { apply (Z.mul_lt_mono_pos_r X); [done|]. lia. }
  assert (105 * S * d <= 100 * Z.pos b * d) by (apply Z.mul_le_mono_nonneg_r; lia).
  assert (0 < (100 * r - 105 * d + 200) * S) as Hpos by lia. apply Z.mul_pos_cancel_r in Hpos; lia.
Qed.

(** What the constructor makes of any settings. *)
Record limiterOk (r : rateLimiter) : Prop := {
  attempts_ok : 1 <= rl_attemptsWithFixedDelay r <= 40;
  slow_ok : baseOk (rl_exponentialBaseForSlowBackoff r);
  fast_ok : baseOk (rl_exponentialBaseForFastBackoff r);
  initial_ok : delayOk (rl_initialSlowBackoffDelay r);
  cap_ok : delayOk (rl_maxFastBackoffDelay r);
}.

Section Limiter.
Context (out : spec_float -> Z).

Lemma default_delays :
  delayOk (durationOfSeconds out defaultInitialSlowBackoffDelaySeconds) /\
  delayOk (durationOfSeconds out defaultMaxFastBackoffDelaySeconds).
Proof. by split; apply duration_in_range. Qed.

Lemma bases_ok slow fast :
  isFloat64 slow -> isFloat64 fast ->
  SFleb minExponentialBaseForSlowBackoff slow && SFleb slow fast && SFleb fast maxExponentialBaseForFastBackoff = true ->
  baseOk slow /\ baseOk fast.
Proof.
  intros Hs Hf [[H1 H2]%andb_true_iff H3]%andb_true_iff. rewrite minBase_value in H1.
  split; apply base_in_range; [exact Hs| |exact (SFleb_trans _ _ _ _ _ H1 H2 H3)|exact Hf| |exact H3];
    rewrite minBase_value; [exact H1|]. exact (SFleb_trans _ _ _ _ _ (SFleb_refl _ _) H1 H2).
Qed.

Lemma delays_ok initial maxSlow maxFast :
  isFloat64 initial -> isFloat64 maxFast ->
  SFleb minInitialSlowBackoffDelaySeconds initial && SFleb initial maxSlow && SFleb maxSlow maxFast &&
    SFleb maxFast maxMaxFastBackoffDelaySeconds = true ->
  delayOk (durationOfSeconds out initial) /\ delayOk (durationOfSeconds out maxFast).
Proof.
  intros Hi Hm [[[H1 H2]%andb_true_iff H3]%andb_true_iff H4]%andb_true_iff. rewrite minDelay_value in H1.
  pose proof (SFleb_trans _ _ _ _ _ H1 H2 H3) as H5.
  split; apply duration_in_range; [exact Hi| |exact (SFleb_trans _ _ _ _ _ H1 H5 H4)|exact Hm| |exact H4];
    rewrite minDelay_value; [exact H1|]. exact (SFleb_trans _ _ _ _ _ (SFleb_refl _ _) H1 H5).
Qed.

Lemma new_limiter_ok n fixed slow initial maxSlow fast maxFast skip :
  isFloat64 slow -> isFloat64 fast -> isFloat64 initial -> isFloat64 maxFast ->
  limiterOk (NewRequeueMultiStageWithExponentialBackoffRateLimiter out n fixed slow initial maxSlow fast maxFast skip).
Proof.
  intros Hs Hf Hi Hm. unfold NewRequeueMultiStageWithExponentialBackoffRateLimiter.
  set (attempts := if (_ <=? n) && _ then n else _).
  assert (1 <= attempts <= 40).
  { subst attempts. unfold minAttemptsWithFixedDelay, maxAttemptsWithFixedDelay. destruct (_ && _) eqn:E; lia. }
  destruct (if SFleb minExponentialBaseForSlowBackoff slow && _ && _ then _ else _) as [b1 b2] eqn:Eb.
  destruct (if SFleb minInitialSlowBackoffDelaySeconds initial && _ && _ && _ then _ else _) as [[d1 d2] d3] eqn:Ed.
  assert (baseOk b1 /\ baseOk b2) as [? ?].
  { destruct (_ && _) eqn:E in Eb; [injection Eb as <- <-; exact (bases_ok _ _ Hs Hf E)|].
    injection Eb as <- <-. exact (conj defaultBase_ok defaultBase_ok). }
  assert (delayOk (durationOfSeconds out d1) /\ delayOk (durationOfSeconds out d3)) as [? ?].
  { destruct (_ && _) eqn:E in Ed; injection Ed as <- <- <-; [exact (delays_ok _ _ _ Hi Hm E)|exact default_delays]. }
  by split.
Qed.

(** ** A sequence of calls *)

Context {K : K8sLib} {O : ObjectLib}.
Notation call := (Work * list manifestProcessingBundle)%type.

(** The delays that the works of a key get in a sequence of calls for any works. *)
Fixpoint delaysFor (k : ObjectKey) (r : rateLimiter) (calls : list call) : list Z :=
  match calls with
  | [] => []
  | (work, bundles) :: rest =>
      let '(r', d) := When out r work bundles in
      if decide (workKey work = k) then d :: delaysFor k r' rest else delaysFor k r' rest
  end.

(** The calls for the key are for the same generation, with the same results. *)
Definition steady (k : ObjectKey) (g : Z) (h : string) (c : call) : Prop :=
  workKey c.1 = k -> w_generation c.1 = g /\ computeProcessingResultHash c.2 = Ok h.

(** A bound from below of the delays of the backoff. *)
Fixpoint grown (n : nat) : Z :=
  match n with
  | 0%nat => 1999999999
  | S n => (105 * grown n - 199) / 100
  end.

Lemma grown_reaches n : (156 <= n)%nat -> 3600000000001 <= grown n.
Proof.
  induction 1 as [|n _ IH]; [by vm_compute|]. cbn [grown]. apply Z.div_le_lower_bound; lia.
Qed.

Lemma grown_low n : 1999999999 <= grown n.
Proof. induction n as [|n IH]; cbn [grown]; [done|]. apply Z.div_le_lower_bound; lia. Qed.

Definition capped (r : rateLimiter) (d : Z) : Z := if rl_maxFastBackoffDelay r <? d then rl_maxFastBackoffDelay r else d.

Lemma capped_le r d : capped r d <= rl_maxFastBackoffDelay r.
Proof. unfold capped. destruct (_ <? _) eqn:E; lia. Qed.

(** In the backoff, the next delay is at least the last one and grows with it. *)
Lemma nextDelay_grows r settled c l n :
  limiterOk r -> rl_attemptsWithFixedDelay r < c -> delayOk l -> l <= rl_maxFastBackoffDelay r ->
  Z.min (rl_maxFastBackoffDelay r) (grown n) <= l ->
  l <= capped r (nextDelay out r settled c l) /\
  Z.min (rl_maxFastBackoffDelay r) (grown (S n)) <= capped r (nextDelay out r settled c l).
Proof.
  intros [_ Hslow Hfast _ Hcap] Hc Hl Hle Hn. cbn [grown]. unfold nextDelay.
  replace (c <? rl_attemptsWithFixedDelay r) with false by lia.
  replace (c =? rl_attemptsWithFixedDelay r) with false by lia.
  assert (forall b, baseOk b -> 105 * l - 199 <= 100 * scaleDelay out l b) as Hg by (intros; by apply scaleDelay_grows).
  pose proof (Hg _ Hslow) as G1. pose proof (Hg _ Hfast) as G2. clear Hg.
  set (s1 := scaleDelay out l _) in *. set (s2 := scaleDelay out l (rl_exponentialBaseForSlowBackoff r)) in *.
  assert ((105 * grown n - 199) / 100 * 100 <= 105 * grown n - 199).
  { pose proof (Z.mul_div_le (105 * grown n - 199) 100). lia. }
  unfold capped, delayOk in *. repeat case_match; lia.
Qed.

(** The settings of a limiter. *)
Definition settings (r : rateLimiter) :=
  (rl_attemptsWithFixedDelay r, rl_fixedDelay r, rl_exponentialBaseForSlowBackoff r, rl_initialSlowBackoffDelay r,
   rl_maxSlowBackoffDelay r, rl_exponentialBaseForFastBackoff r, rl_maxFastBackoffDelay r, rl_skipToFastBackoff r).

Lemma settings_nextDelay r r' settled c l :
  settings r = settings r' -> capped r (nextDelay out r settled c l) = capped r' (nextDelay out r' settled c l).
Proof. unfold settings, capped, nextDelay. intros [= -> -> -> -> -> -> -> ->]. done. Qed.

Section Steady.
Context (r0 : rateLimiter) (k : ObjectKey) (g : Z) (h : string).
Hypothesis r0_ok : limiterOk r0.

Definition lastDelay (r : rateLimiter) : Z := default 0 (rl_lastRequeueDelay r !! k).

(** The state of the key after [i] of its calls. *)
Record afterCalls (i : Z) (r : rateLimiter) : Prop := {
  after_nonneg : 0 <= i;
  after_settings : settings r = settings r0;
  after_counter : default 0 (rl_requeueCounter r !! k) = Z.min i 199;
  after_tracked : 0 < i ->
    rl_lastTrackedGeneration r !! k = Some g /\ rl_lastTrackedProcessingResultHash r !! k = Some h;
  after_delay : rl_attemptsWithFixedDelay r0 < i ->
    delayOk (lastDelay r) /\ lastDelay r <= rl_maxFastBackoffDelay r0 /\
    Z.min (rl_maxFastBackoffDelay r0) (grown (Z.to_nat (i - 1 - rl_attemptsWithFixedDelay r0))) <= lastDelay r;
}.

Lemma When_other i r work bundles :
  workKey work <> k -> afterCalls i r -> afterCalls i (When out r work bundles).1.
Proof.
  intros Hk [Hi Hs Hc Ht Hd]. unfold When. cbn [fst].
  split; unfold lastDelay; cbn; repeat case_match; rewrite ?lookup_insert_ne by done; auto.
Qed.

(** The delay of the [i]-th call. *)
Definition delayAt (i : Z) (d : Z) : Prop :=
  d <= rl_maxFastBackoffDelay r0 /\
  (i < rl_attemptsWithFixedDelay r0 -> d = capped r0 (rl_fixedDelay r0)) /\
  (rl_attemptsWithFixedDelay r0 <= i ->
     Z.min (rl_maxFastBackoffDelay r0) (grown (Z.to_nat (i - rl_attemptsWithFixedDelay r0))) <= d).

Lemma When_run i r work bundles :
  afterCalls i r -> workKey work = k -> steady k g h (work, bundles) ->
  exists settled last, (0 < i -> last = lastDelay r) /\
  let d := capped r0 (nextDelay out r0 settled (Z.min i 199) last) in
  (When out r work bundles).2 = d /\ lastDelay (When out r work bundles).1 = d /\
  settings (When out r work bundles).1 = settings r0 /\
  default 0 (rl_requeueCounter (When out r work bundles).1 !! k) = Z.min (i + 1) 199 /\
  rl_lastTrackedGeneration (When out r work bundles).1 !! k = Some g /\
  rl_lastTrackedProcessingResultHash (When out r work bundles).1 !! k = Some h.
Proof.
  intros [Hi Hs Hc Ht _] Hk Hst. destruct (Hst Hk) as [Hg Hh]. cbn [fst snd] in Hg, Hh.
  unfold When. rewrite Hk, Hh, Hg. cbn [is_ok negb]. rewrite orb_false_r.
  set (reset := negb _ || negb _).
  exists (isAvailableOrDiffReported work), (default 0 ((if reset then <[k:=0]> (rl_lastRequeueDelay r) else rl_lastRequeueDelay r) !! k)).
  assert (default 0 ((if reset then <[k:=0]> (rl_requeueCounter r) else rl_requeueCounter r) !! k) = Z.min i 199) as Ec.
  { destruct (decide (i = 0)) as [-> |Hp]; [destruct reset; [by rewrite lookup_insert_eq|done]|].
    destruct (Ht ltac:(lia)) as [T1 T2]. unfold reset. rewrite T1, T2. cbn [default from_option id].
    by rewrite Z.eqb_refl, bool_decide_eq_true_2. }
  rewrite Ec. split; [|split_and!].
  - intros Hp. destruct (Ht Hp) as [T1 T2]. unfold reset, lastDelay. rewrite T1, T2. cbn [default from_option id].
    by rewrite Z.eqb_refl, bool_decide_eq_true_2.
  - cbn [snd]. by apply settings_nextDelay.
  - unfold lastDelay. cbn. rewrite lookup_insert_eq. cbn. by apply settings_nextDelay.
  - exact Hs.
  - cbn [rl_requeueCounter fst]. unfold maxNumOfRequeuesToTrack.
    destruct (Z.min i 199 + 1 <? 200) eqn:E; [rewrite lookup_insert_eq; cbn; lia|rewrite Ec; lia].
  - cbn. by rewrite lookup_insert_eq.
  - cbn. by rewrite lookup_insert_eq.
Qed.

Lemma When_own i r work bundles :
  afterCalls i r -> workKey work = k -> steady k g h (work, bundles) ->
  afterCalls (i + 1) (When out r work bundles).1 /\ delayAt i (When out r work bundles).2 /\
  lastDelay (When out r work bundles).1 = (When out r work bundles).2 /\
  (rl_attemptsWithFixedDelay r0 < i -> lastDelay r <= (When out r work bundles).2).
Proof.
  intros Ha Hk Hst. destruct (When_run i r work bundles Ha Hk Hst) as (settled & last & Hl & Hd & Hd' & Hs & Hc & Hg & Hh).
  destruct (When out r work bundles) as [r' d']; cbn [fst snd] in *. destruct Ha as [Hi _ _ _ Hlast].
  pose proof (attempts_ok _ r0_ok) as Hat. pose proof (cap_ok _ r0_ok) as Hcap. pose proof (initial_ok _ r0_ok) as Hin.
  set (a := rl_attemptsWithFixedDelay r0) in *. set (cap := rl_maxFastBackoffDelay r0) in *.
  assert (d' <= cap) as Hle by (rewrite Hd; apply capped_le).
  assert (a < i -> lastDelay r <= d' /\ Z.min cap (grown (Z.to_nat (i - a))) <= d') as Hgrow.
  { intros Hlt. destruct (Hlast Hlt) as (L1 & L2 & L3). rewrite Hd, (Hl ltac:(lia)).
    replace (Z.to_nat (i - a)) with (S (Z.to_nat (i - 1 - a))) by lia. apply nextDelay_grows; [done|lia|done|done|done]. }
  assert (delayAt i d') as Hat'.
  { split; [done|]. split.
    - intros Hlt. rewrite Hd. unfold nextDelay. fold a. by replace (Z.min i 199 <? a) with true by lia.
    - fold a cap. intros Hge. destruct (decide (i = a)) as [-> |]; [|by apply Hgrow; lia].
      rewrite Hd, Z.sub_diag. unfold nextDelay. fold a. replace (Z.min a 199 <? a) with false by lia.
      replace (Z.min a 199 =? a) with true by lia. change (grown (Z.to_nat 0)) with 1999999999. unfold capped. fold cap.
      unfold delayOk in *. destruct (_ <? _) eqn:E; lia. }
  split; [|split; [done|split; [congruence|by intros; apply Hgrow]]].
  split; [lia|done|done|done|]. fold a cap. rewrite Hd', <- Hd. intros Hlt.
  replace (i + 1 - 1 - a) with (i - a) by lia. destruct Hat' as (_ & _ & Hlow). specialize (Hlow ltac:(unfold a in *; lia)).
  fold a cap in Hlow. pose proof (grown_low (Z.to_nat (i - a))). unfold delayOk in *. split_and!; lia.
Qed.

Lemma delaysFor_spec calls r i :
  afterCalls i r -> Forall (steady k g h) calls ->
  (forall j d, delaysFor k r calls !! j = Some d -> delayAt (i + Z.of_nat j) d) /\
  (forall d, rl_attemptsWithFixedDelay r0 < i -> delaysFor k r calls !! 0%nat = Some d -> lastDelay r <= d) /\
  (forall j d d', rl_attemptsWithFixedDelay r0 <= i + Z.of_nat j ->
     delaysFor k r calls !! j = Some d -> delaysFor k r calls !! S j = Some d' -> d <= d').
Proof.
  intros Ha Hc. revert r i Ha. induction Hc as [|[work bundles] calls Hst _ IH]; intros r i Ha; cbn [delaysFor].
  { split_and!; intros *; rewrite ?lookup_nil; done. }
  pose proof (When_other i r work bundles) as Ho. pose proof (When_own i r work bundles Ha) as Hw.
  assert (workKey work <> k -> lastDelay (When out r work bundles).1 = lastDelay r) as Hsame.
  { intros Hk. unfold When, lastDelay. cbn. rewrite lookup_insert_ne by done. by case_match; rewrite ?lookup_insert_ne. }
  destruct (When out r work bundles) as [r' d0]; cbn [fst snd] in *. destruct (decide (workKey work = k)) as [Hk|Hk].
  - destruct (Hw Hk Hst) as (Ha' & Hd0 & Hl & Hm). destruct (IH r' (i + 1) Ha') as (IH1 & IH2 & IH3). split_and!.
    + intros [|j] d; cbn [lookup list_lookup]; [intros [= <-]; by rewrite Z.add_0_r|].
      intros Hj. specialize (IH1 j d Hj). by replace (i + Z.of_nat (S j)) with (i + 1 + Z.of_nat j) by lia.
    + intros d Hlt [= <-]. auto.
    + intros [|j] d d' Hge; cbn [lookup list_lookup].
      * intros [= <-] Hd'. rewrite <- Hl. apply IH2; [lia|done].
      * apply IH3. lia.
  - destruct (IH r' i (Ho Hk Ha)) as (IH1 & IH2 & IH3). split_and!; [done| |done].
    intros d Hlt Hd. rewrite <- (Hsame Hk). auto.
Qed.

End Steady.
(** A limiter that has just been made has seen no call. *)
Lemma new_afterCalls k g h n fixed slow initial maxSlow fast maxFast skip :
  let r := NewRequeueMultiStageWithExponentialBackoffRateLimiter out n fixed slow initial maxSlow fast maxFast skip in
  1 <= rl_attemptsWithFixedDelay r -> afterCalls r k g h 0 r.
Proof.
  intros r Ha. split; [lia|done| |lia|lia]. unfold r, NewRequeueMultiStageWithExponentialBackoffRateLimiter.
  by repeat case_match.
Qed.

(** C24: The rate limiter backs off as configured and its delays reach the cap:
    for any settings, after the constructor has corrected them, and any
    sequence of calls in which a work keeps its generation and its processing
    results, whatever other works are requeued in between, the first attempts
    wait for the fixed delay, the delays never decrease afterwards, none is
    above the cap, and from the two hundredth requeue on, the last one that is
    counted, all are at the cap. *)
Theorem backoff_reaches_cap n fixed slow initial maxSlow fast maxFast skip k g h calls :
  isFloat64 slow -> isFloat64 fast -> isFloat64 initial -> isFloat64 maxFast ->
  Forall (steady k g h) calls ->
  let r := NewRequeueMultiStageWithExponentialBackoffRateLimiter out n fixed slow initial maxSlow fast maxFast skip in
  let ds := delaysFor k r calls in
  (forall i d, ds !! i = Some d -> d <= rl_maxFastBackoffDelay r) /\
  (forall i d, ds !! i = Some d -> Z.of_nat i < rl_attemptsWithFixedDelay r -> d = capped r (rl_fixedDelay r)) /\
  (forall i d d', rl_attemptsWithFixedDelay r <= Z.of_nat i -> ds !! i = Some d -> ds !! S i = Some d' -> d <= d') /\
  (forall i d, maxNumOfRequeuesToTrack <= Z.of_nat i -> ds !! i = Some d -> d = rl_maxFastBackoffDelay r).
Proof.
  intros Hs Hf Hi Hm Hc r ds. pose proof (new_limiter_ok n fixed slow initial maxSlow fast maxFast skip Hs Hf Hi Hm) as Hok.
  fold r in Hok. pose proof (attempts_ok _ Hok) as Ha. pose proof (cap_ok _ Hok) as Hcap.
  assert (afterCalls r k g h 0 r) as H0 by (apply new_afterCalls; fold r; lia).
  destruct (delaysFor_spec r k g h Hok calls r 0 H0 Hc) as (Hd & _ & Hmono). fold ds in Hd, Hmono.
  split_and!; intros i d.
  - intros Hi'. apply (Hd i d Hi').
  - intros Hi' Hlt. by apply (Hd i d Hi').
  - intros d' Hge. by apply Hmono.
  - unfold maxNumOfRequeuesToTrack. intros Hge Hi'. destruct (Hd i d Hi') as (Hle & _ & Hlow).
    specialize (Hlow ltac:(lia)).
    pose proof (grown_reaches (Z.to_nat (0 + Z.of_nat i - rl_attemptsWithFixedDelay r)) ltac:(lia)).
    unfold delayOk in Hcap. lia.
Qed.

End Limiter.
