(* ===== verification/ApplierQueue.v ===== *)
(** * The priority queue and the waves of the work applier

    Models [pkg/controllers/workapplier/pq.go], which gives the events of Work
    objects their priorities, and [waves.go], which orders the manifests of a
    Work: manifests of a wave are processed in parallel, waves one after the
    other.  [waveOrder] is the order in which the range loop visits the map of
    the waves. *)

From Stdlib Require Import SpecFloat.
From stdpp Require Import prelude gmap strings sorting.
From S2P Require Import Prelude K8s Api Sample Utils FrameworkUtils Hub Overrider WorkApi ApplierApi RateLimiter.

Local Open Scope string_scope.
Local Open Scope list_scope.

(** ** Priorities *)

Definition highestPriorityLevel : Z := 100.
Definition defaultPriorityLevel : Z := 0.
Definition lowPriorityLevel : Z := -1.

(** [priorityqueue.AddOpts]; a delay of zero is no delay. *)
Record AddOpts : Set := mkAddOpts {
  ao_After : Z;
  ao_RateLimited : bool;
  ao_Priority : option Z;
}.

#[global] Instance AddOpts_eq_dec : EqDecision AddOpts.
Proof. solve_decision. Defined.

Definition enqueued : Set := AddOpts * ObjectKey.

Record priorityBasedWorkObjEventHandler : Set := mkEventHandler {
  eh_priLinearEqCoeffA : Z;
  eh_priLinearEqCoeffB : Z;
}.

(** [NewReconciler]: both coefficients are set, or the defaults are used. *)
Definition newEventHandler (coeffA coeffB : option Z) : priorityBasedWorkObjEventHandler :=
  match coeffA, coeffB with
  | Some a, Some b => mkEventHandler a b
  | _, _ => mkEventHandler (-3) highestPriorityLevel
  end.

Definition calcArgBasedPriWithLinearEquation (h : priorityBasedWorkObjEventHandler) (workObjAgeMinutes : Z) : Z :=
  let priority := wrap64 (wrap64 (eh_priLinearEqCoeffA h * workObjAgeMinutes) + eh_priLinearEqCoeffB h) in
  if (priority <? defaultPriorityLevel)%Z then defaultPriorityLevel
  else if (highestPriorityLevel <? priority)%Z then highestPriorityLevel
  else priority.

(** [int(d.Minutes())] of a duration in nanoseconds. *)
Definition minute : Z := 60000000000.
Definition intMinutes (int64_outside : spec_float -> Z) (d : Z) : Z :=
  f64_to_int64 int64_outside
    (SFadd 53 1024 (f64_of_Z (Z.quot d minute)) (f64_div (f64_of_Z (Z.rem d minute)) (f64_of_Z minute))).

Section Events.
Context {K : K8sLib}.
Variable int64_outside : spec_float -> Z.
Context (h : priorityBasedWorkObjEventHandler).

Definition isReportDiff (work : Work) : bool :=
  match w_strategy work with Some s => bool_decide (as_Type s = ApplyStrategyTypeReportDiff) | None => false end.

(** [age] is the time since the creation of the object. *)
Definition determineUpdateEventPriority (oldWorkObj : Work) (age : Z) : Z :=
  let workObjAgeMinutes := intMinutes int64_outside age in
  let holds t := IsConditionStatusTrue (FindStatusCondition (wst_Conditions (w_status oldWorkObj)) t) (w_generation oldWorkObj) in
  if isReportDiff oldWorkObj && holds WorkConditionTypeDiffReported then calcArgBasedPriWithLinearEquation h workObjAgeMinutes
  else if isReportDiff oldWorkObj then highestPriorityLevel
  else if holds WorkConditionTypeApplied && holds WorkConditionTypeAvailable then calcArgBasedPriWithLinearEquation h workObjAgeMinutes
  else highestPriorityLevel.

(** The handlers add a request to the queue, if there is one already. *)
Definition enqueueWith (queueReady : bool) (opts : AddOpts) (k : ObjectKey) : list enqueued :=
  if queueReady then [(opts, k)] else [].

Definition atPriority (p : Z) : AddOpts := mkAddOpts 0 false (Some p).

Definition onCreate (queueReady : bool) (obj : ObjectKey) : list enqueued :=
  enqueueWith queueReady (atPriority highestPriorityLevel) obj.

Definition onDelete (queueReady : bool) (obj : ObjectKey) : list enqueued :=
  enqueueWith queueReady (atPriority highestPriorityLevel) obj.

(** The objects of the event are Work objects, or the event is dropped. *)
Definition onUpdate (queueReady : bool) (oldObj : option Work) (oldGeneration newGeneration age : Z) : list enqueued :=
  if negb queueReady then []
  else if (oldGeneration =? newGeneration)%Z then []
  else match oldObj with
       | None => []
       | Some oldWorkObj => enqueueWith queueReady (atPriority (determineUpdateEventPriority oldWorkObj age)) (workKey oldWorkObj)
       end.

Definition onGeneric (queueReady : bool) (obj : ObjectKey) : list enqueued :=
  enqueueWith queueReady (atPriority lowPriorityLevel) obj.

Definition Requeue (queueReady : bool) (work : Work) (delay : Z) : list enqueued :=
  enqueueWith queueReady
    (if (delay =? 0)%Z then mkAddOpts 0 true (Some lowPriorityLevel) else mkAddOpts delay false (Some lowPriorityLevel))
    (workKey work).

End Events.

(** ** Waves *)

Definition lastWave : Z := 999.

Definition defaultWaveNumberByResourceType : gmap string Z := list_to_map [
  ("namespaces", 0%Z); ("priorityclasses", 0%Z);
  ("networkpolicies", 1%Z); ("resourcequotas", 1%Z); ("limitranges", 1%Z); ("podsecuritypolicies", 1%Z);
  ("poddisruptionbudgets", 1%Z); ("serviceaccounts", 1%Z); ("secrets", 1%Z); ("configmaps", 1%Z);
  ("storageclasses", 1%Z); ("persistentvolumes", 1%Z); ("persistentvolumeclaims", 1%Z);
  ("customresourcedefinitions", 1%Z); ("ingressclasses", 1%Z);
  ("clusterroles", 2%Z); ("roles", 2%Z);
  ("clusterrolebindings", 3%Z); ("rolebindings", 3%Z);
  ("services", 4%Z); ("daemonsets", 4%Z); ("pods", 4%Z); ("replicationcontrollers", 4%Z); ("replicasets", 4%Z);
  ("deployments", 4%Z); ("horizontalpodautoscalers", 4%Z); ("statefulsets", 4%Z); ("jobs", 4%Z); ("cronjobs", 4%Z);
  ("ingresses", 4%Z);
  ("apiservices", 5%Z); ("validatingwebhookconfigurations", 5%Z); ("mutatingwebhookconfigurations", 5%Z)].

Definition knownAPIGroups : list string :=
  [EmptyString; "networking.k8s.io"; "scheduling.k8s.io"; "policy"; "storage.k8s.io"; "apiextensions.k8s.io";
   "rbac.authorization.k8s.io"; "apps"; "autoscaling"; "apiregistration.k8s.io"; "admissionregistration.k8s.io"; "batch"].

Definition waveNumberOf (gvr : GroupVersionResource) : Z :=
  match defaultWaveNumberByResourceType !! gvr_Resource gvr with
  | Some n => if decide (gvr_Group gvr ∈ knownAPIGroups) then n else lastWave
  | None => lastWave
  end.

Section Waves.
Context {O : ObjectLib}.

Definition bundleWave (b : manifestProcessingBundle) : option Z :=
  match bd_gvr b, bd_err b with
  | Some gvr, None => Some (waveNumberOf gvr)
  | _, _ => None
  end.

(** A wave refers to its bundles, by their positions. *)
Record bundleProcessingWave : Set := mkWave { wave_num : Z; wave_bundles : list nat }.

Definition waveLess (a b : bundleProcessingWave) : bool := (wave_num a <? wave_num b)%Z.

Fixpoint assignWaves (idx : nat) (bundles : list manifestProcessingBundle)
    (waveByNum : gmap Z (list nat)) : gmap Z (list nat) :=
  match bundles with
  | [] => waveByNum
  | b :: r =>
      assignWaves (S idx) r
        (match bundleWave b with
         | Some n => <[n := default [] (waveByNum !! n) ++ [idx]]> waveByNum
         | None => waveByNum
         end)
  end.

Definition organizeBundlesIntoProcessingWaves (waveOrder : list bundleProcessingWave -> list bundleProcessingWave)
    (bundles : list manifestProcessingBundle) : list bundleProcessingWave :=
  go_sort waveLess (waveOrder ((fun '(n, bs) => mkWave n bs) <$> map_to_list (assignWaves 0 bundles ∅))).

(** *** The waves are ordered and complete *)

(** The positions, from [idx] on, of the bundles of a wave. *)
Fixpoint positionsOf (n : Z) (idx : nat) (bundles : list manifestProcessingBundle) : list nat :=
  match bundles with
  | [] => []
  | b :: r => if decide (bundleWave b = Some n) then idx :: positionsOf n (S idx) r else positionsOf n (S idx) r
  end.

Lemma positionsOf_spec n idx bundles i :
  i ∈ positionsOf n idx bundles <-> exists j b, i = idx + j /\ bundles !! j = Some b /\ bundleWave b = Some n.
Proof.
  revert idx. induction bundles as [|b r IH]; intros idx; cbn [positionsOf].
  - split; [by intros ?%elem_of_nil|]. intros (j & b & _ & Hj & _). by rewrite lookup_nil in Hj.
  - assert (i ∈ positionsOf n (S idx) r <-> exists j b0, i = idx + S j /\ r !! j = Some b0 /\ bundleWave b0 = Some n) as IH'.
    { rewrite IH. split; intros (j & b0 & ? & ?); exists j, b0; (split; [lia|done]). }
    case_decide as Hb; rewrite ?elem_of_cons, IH'; split.
    + intros [-> |(j & b0 & ? & ?)]; [exists 0, b; split; [lia|done]|by exists (S j), b0].
    + intros ([|j] & b0 & Hi & Hj & Hw); [left; lia|right; by exists j, b0].
    + intros (j & b0 & ? & ?). by exists (S j), b0.
    + intros ([|j] & b0 & Hi & Hj & Hw); [by simplify_eq/=|by exists j, b0].
Qed.

Lemma positionsOf_sorted n idx bundles : StronglySorted lt (positionsOf n idx bundles).
Proof.
  revert idx. induction bundles as [|b r IH]; intros idx; cbn [positionsOf]; [constructor|].
  case_decide; [|apply IH]. constructor; [apply IH|]. apply Forall_forall. intros i Hi.
  apply positionsOf_spec in Hi as (j & _ & -> & _). lia.
Qed.

Lemma assignWaves_lookup idx bundles m n :
  assignWaves idx bundles m !! n =
  match positionsOf n idx bundles with [] => m !! n | ps => Some (default [] (m !! n) ++ ps) end.
Proof.
  revert idx m. induction bundles as [|b r IH]; intros idx m; cbn [assignWaves positionsOf]; [done|].
  rewrite IH. destruct (bundleWave b) as [n'|] eqn:Eb.
  - destruct (decide (n' = n)) as [-> |Hn].
    + rewrite decide_True by done. rewrite lookup_insert_eq. cbn [default from_option id].
      destruct (positionsOf n (S idx) r); [done|]. by rewrite <- app_assoc.
    + rewrite decide_False by congruence. by rewrite lookup_insert_ne.
  - by rewrite decide_False.
Qed.

#[global] Instance waveLess_GoLess : GoLess waveLess.
Proof. split; unfold waveLess; intros *; lia. Qed.

Section Order.
Context (waveOrder : list bundleProcessingWave -> list bundleProcessingWave).
Hypothesis waveOrder_perm : forall l, waveOrder l ≡ₚ l.

Lemma elem_of_waves bundles w :
  w ∈ organizeBundlesIntoProcessingWaves waveOrder bundles <->
  wave_bundles w = positionsOf (wave_num w) 0 bundles /\ wave_bundles w <> [].
Proof.
  unfold organizeBundlesIntoProcessingWaves. rewrite elem_of_go_sort, waveOrder_perm, list_elem_of_fmap.
  destruct w as [n ps]. cbn. split.
  - intros ([n' ps'] & [= <- <-] & Hin). apply elem_of_map_to_list in Hin.
    rewrite assignWaves_lookup, lookup_empty in Hin. by destruct (positionsOf n 0 bundles); simplify_eq/=.
  - intros [-> Hne]. exists (n, positionsOf n 0 bundles). split; [done|]. apply elem_of_map_to_list.
    rewrite assignWaves_lookup, lookup_empty. by destruct (positionsOf n 0 bundles).
Qed.

Lemma waves_increasing bundles :
  StronglySorted (fun a b => wave_num a < wave_num b)%Z (organizeBundlesIntoProcessingWaves waveOrder bundles).
Proof.
  pose proof (go_sort_sorted waveLess (waveOrder ((fun '(n, bs) => mkWave n bs) <$> map_to_list (assignWaves 0 bundles ∅)))) as Hs.
  assert (NoDup (wave_num <$> organizeBundlesIntoProcessingWaves waveOrder bundles)) as Hnd.
  { unfold organizeBundlesIntoProcessingWaves. rewrite go_sort_perm, waveOrder_perm, <- list_fmap_compose.
    erewrite list_fmap_ext; [apply NoDup_fst_map_to_list|]. by intros ? [] _. }
  unfold organizeBundlesIntoProcessingWaves in *.
  induction Hs as [|w l _ IH Hf]; [constructor|]. cbn in Hnd. apply NoDup_cons in Hnd as [Hn Hnd].
  constructor; [by apply IH|]. apply Forall_forall. intros w' Hw'. rewrite Forall_forall in Hf.
  specialize (Hf w' Hw'). unfold ordered, waveLess in Hf.
  assert (wave_num w <> wave_num w') by (intros E; apply Hn; rewrite E; by apply list_elem_of_fmap_2). lia.
Qed.

End Order.
End Waves.
