(* ===== verification/ApplierDiff.v ===== *)
(** * Comparing manifests with the objects of a member cluster

    Models [pkg/controllers/workapplier/utils.go], the sanitization and the
    manifest hash of [apply.go], and how [drift_detection_takeover.go] turns
    the differences between two objects into patch details. *)

From stdpp Require Import prelude gmap strings.
From S2P Require Import Prelude K8s Api Sample Utils FrameworkUtils Hub Overrider WorkApi ApplierApi.

Local Open Scope string_scope.
Local Open Scope list_scope.

(** [strings.Contains] and [strings.HasPrefix] *)
Definition hasPrefix (prefix s : string) : bool := match str_cut_prefix prefix s with Some _ => true | None => false end.

Fixpoint contains (sub s : string) : bool :=
  hasPrefix sub s || match s with EmptyString => false | String _ r => contains sub r end.

(** ** What a comparison ignores *)

Definition k8sReservedLabelAnnotationFullDomain : string := "kubernetes.io/".
Definition k8sReservedLabelAnnotationAbbrDomain : string := "k8s.io/".
Definition fleetReservedLabelAnnotationDomain : string := "kubernetes-fleet.io/".

Definition isReservedKey (k : string) : bool :=
  contains k8sReservedLabelAnnotationFullDomain k || contains k8sReservedLabelAnnotationAbbrDomain k ||
  contains fleetReservedLabelAnnotationDomain k.

Definition cleaned (m : option (gmap string string)) : gmap string string :=
  filter (fun kv : string * string => isReservedKey kv.1 = false) (default ∅ m).

(** [corev1.LastAppliedConfigAnnotation] and [deployment.RevisionAnnotation] *)
Definition kubectlLastAppliedAnnotation : string := "kubectl.kubernetes.io/last-applied-configuration".
Definition RevisionAnnotation : string := "deployment.kubernetes.io/revision".

Section Diff.
Context {O : ObjectLib}.

Definition discardFieldsIrrelevantInComparisonFrom (obj : Obj) : Obj :=
  let o := setField FName EmptyString obj in
  let o := setField FNamespace EmptyString o in
  let o := setField FGenerateName EmptyString o in
  let o := setField FAnnotations (Some (cleaned (GetAnnotations o))) o in
  let o := setField FLabels (Some (cleaned (GetLabels o))) o in
  let o := setField FFinalizers (Some []) o in
  let o := setField FManagedFields (Some []) o in
  let o := setField FOwnerReferences (Some []) o in
  let o := setField FDeletionTimestamp None o in
  let o := setField FDeletionGracePeriodSeconds None o in
  let o := setField FGeneration 0%Z o in
  let o := setField FResourceVersion EmptyString o in
  let o := setField FSelfLink EmptyString o in
  let o := setField FUID EmptyString o in
  let o := setField FStatus None o in
  let o := setField FCreationTimestamp None o in
  let o := setField FTemplateCreationTimestamp None o in
  setField FJobTemplateCreationTimestamp None o.

(** ** Sanitizing a manifest *)

Definition sanitizeAnnotations (o : Obj) : Obj :=
  match GetAnnotations o with
  | None => o
  | Some a =>
      let a := delete RevisionAnnotation (delete kubectlLastAppliedAnnotation
                 (delete LastAppliedConfigAnnotation (delete ManifestHashAnnotation a))) in
      SetAnnotations (if decide (a = ∅) then None else Some a) o
  end.

Definition sanitizeManifestObject (manifestObj : Obj) : Obj :=
  let o := sanitizeAnnotations manifestObj in
  let o := setField FOwnerReferences None o in
  let o := setField FManagedFields None o in
  let o := setField FCreationTimestamp None o in
  let o := setField FDeletionTimestamp None o in
  let o := setField FDeletionGracePeriodSeconds None o in
  let o := setField FGeneration 0%Z o in
  let o := setField FResourceVersion EmptyString o in
  let o := setField FSelfLink EmptyString o in
  let o := setField FUID EmptyString o in
  setField FStatus None o.

(** ** The manifest hash *)

Definition manifestHash (manifestObj : Obj) : outcome string :=
  HashOfObject (discardFieldsIrrelevantInComparisonFrom manifestObj).

Definition setManifestHashAnnotation (manifestObj : Obj) : outcome Obj :=
  let! manifestObjHash := owrap "failed to compute the hash of the manifest object" (manifestHash manifestObj) in
  Ok (SetAnnotations (Some (<[ManifestHashAnnotation := manifestObjHash]> (default ∅ (GetAnnotations manifestObj))))
        manifestObj).

Definition shouldPerformPreApplyDriftDetection (manifestObj : Obj) (inMemberClusterObj : option Obj)
    (applyStrategy : ApplyStrategy) : outcome bool :=
  match inMemberClusterObj with
  | None => Ok false
  | Some obj =>
      if decide (as_WhenToApply applyStrategy = WhenToApplyTypeIfNotDrifted) then
        let! manifestObjHash := manifestHash manifestObj in
        Ok (bool_decide (manifestObjHash = read_key (default ∅ (GetAnnotations obj)) ManifestHashAnnotation))
      else Ok false
  end.

Definition shouldPerformPostApplyDriftDetection (applyStrategy : ApplyStrategy) : bool :=
  bool_decide (as_ComparisonOption applyStrategy = ComparisonOptionTypeFullComparison).

(** ** Patch details *)

Definition patchDetailPerObjLimit : nat := 100.

Definition OperationAdd : string := "add".
Definition OperationRemove : string := "remove".
Definition OperationReplace : string := "replace".
Definition OperationMove : string := "move".
Definition OperationCopy : string := "copy".
Definition OperationTest : string := "test".

(** What one operation adds to the details. *)
Definition detailsOf (manifestObj : Obj) (op : Operation) : outcome (list PatchDetail) :=
  let! pathPtr := owrap ("failed to parse the JSON path " +:+ op_Path op) (ParsePointer (op_Path op)) in
  let! fromPtr := owrap ("failed to parse the JSON path " +:+ op_From op) (ParsePointer (op_From op)) in
  let inHub ptr := owrap ("failed to evaluate the JSON path " +:+ op_Path op +:+ " in the manifest object") (EvalPointer ptr manifestObj) in
  if decide (op_Type op = OperationAdd) then Ok [mkPatchDetail (op_Path op) (op_Value op) EmptyString]
  else if decide (op_Type op = OperationRemove) then
    let! hubValue := inHub pathPtr in Ok [mkPatchDetail (op_Path op) EmptyString hubValue]
  else if decide (op_Type op = OperationReplace) then
    let! hubValue := inHub pathPtr in Ok [mkPatchDetail (op_Path op) (op_Value op) hubValue]
  else if decide (op_Type op = OperationMove) then
    let! hubValue := inHub fromPtr in
    Ok [mkPatchDetail (op_From op) EmptyString hubValue; mkPatchDetail (op_Path op) hubValue EmptyString]
  else if decide (op_Type op = OperationCopy) then
    let! hubValue := inHub fromPtr in Ok [mkPatchDetail (op_Path op) hubValue EmptyString]
  else if decide (op_Type op = OperationTest) then Ok []
  else Err (ErrPlain ("an unexpected JSON patch operation is returned (" +:+ op_Type op +:+ ")")).

Definition organizeJSONPatchIntoFleetPatchDetails (patch : list Operation) (manifestObj : Obj) : outcome (list PatchDetail) :=
  ofold (fun details op => let! ds := detailsOf manifestObj op in Ok (details ++ ds)) [] (take patchDetailPerObjLimit patch).

Definition redacted : string := "(redacted for security reasons)".

Definition isSensitivePath (path : string) : bool := hasPrefix "/data" path || hasPrefix "/stringData" path.

Definition redact (v : string) : string := if decide (v = EmptyString) then v else redacted.

Definition obscureDetail (pd : PatchDetail) : PatchDetail :=
  if isSensitivePath (pd_Path pd)
  then mkPatchDetail (pd_Path pd) (redact (pd_ValueInMember pd)) (redact (pd_ValueInHub pd))
  else pd.

Definition isSecret (srcObj : Obj) : bool :=
  bool_decide (GetAPIVersion srcObj = "v1") && bool_decide (GetKind srcObj = "Secret").

Definition obscureSensitiveFieldsInPatchDetails (srcObj : Obj) (details : list PatchDetail) : list PatchDetail :=
  if isSecret srcObj then obscureDetail <$> details else details.

Definition preparePatchDetails (srcObj destObj : Obj) : outcome (list PatchDetail) :=
  let srcObjCopy := discardFieldsIrrelevantInComparisonFrom srcObj in
  let destObjCopy := discardFieldsIrrelevantInComparisonFrom destObj in
  let! srcObjJSONBytes := owrap "failed to marshal the source object into JSON" (EncodeObject srcObjCopy) in
  let! destObjJSONBytes := owrap "failed to marshal the destination object into JSON" (EncodeObject destObjCopy) in
  let! patch := owrap "failed to compare the JSON representations of the source and destination objects"
                  (CompareJSON srcObjJSONBytes destObjJSONBytes) in
  let! details := owrap "failed to organize JSON patch operations into Fleet patch details"
                    (organizeJSONPatchIntoFleetPatchDetails patch srcObjCopy) in
  Ok (obscureSensitiveFieldsInPatchDetails srcObj details).

(** ** Owners *)

Definition isPlacedByFleetInDuplicate (ownerRefs : list OwnerReference) (expected : OwnerReference) : bool :=
  existsb (fun r => bool_decide (or_APIVersion r = GroupVersionString) && bool_decide (or_Kind r = AppliedWorkKind) &&
                    negb (bool_decide (or_UID r = or_UID expected))) ownerRefs.

Definition isOwnedBy (expected : OwnerReference) (o : Obj) : bool :=
  existsb (fun r => areOwnerRefsEqual r expected) (GetOwnerReferences o).

Definition isOwnedByNewerKubeFleetAPIObjects (inMemberClusterObj : option Obj) : bool :=
  match inMemberClusterObj with
  | None => false
  | Some o =>
      existsb (fun owner => match ParseGroup (or_APIVersion owner) with
                            | Ok g => bool_decide (g = newerGroup) && bool_decide (or_Kind owner = AppliedWorkKind)
                            | _ => false
                            end) (GetOwnerReferences o)
  end.

End Diff.
