(* ===== verification/Apply.v ===== *)
(** * Applying manifests and taking objects over

    Models [pkg/controllers/workapplier/apply.go] and the parts of
    [drift_detection_takeover.go] that call an API server.  The operations that
    clear the resource version of the object they are given return that object
    beside their result. *)

From stdpp Require Import prelude gmap strings.
From S2P Require Import Prelude K8s Api Sample Utils FrameworkUtils Hub Overrider WorkApi ApplierApi ApplierDiff.

Local Open Scope string_scope.
Local Open Scope list_scope.

Definition workFieldManagerName : string := "work-api-agent".
Definition beforeFirstApply : string := "before-first-apply".

Section Apply.
Context {O : ObjectLib} {W : Type} {MC : MemberClient O W} {AC : ApplierClient W}.
Variable workNameSpace : string.

(** ** Owner references *)

Definition setOwnerRef (obj : Obj) (expected : OwnerReference) : Obj :=
  SetOwnerReferences (GetOwnerReferences obj ++ [expected]) obj.

Definition isAppliedWorkRef (r : OwnerReference) : bool :=
  bool_decide (or_APIVersion r = GroupVersionString) && bool_decide (or_Kind r = AppliedWorkKind).

Definition validateOwnerReferences (manifestObj : Obj) (inMemberClusterObj : option Obj) (applyStrategy : ApplyStrategy)
    (expected : OwnerReference) : outcome unit :=
  let manifestObjOwnerRefs := GetOwnerReferences manifestObj in
  if negb (bool_decide (manifestObjOwnerRefs = [])) && negb (as_AllowCoOwnership applyStrategy)
  then Err (ErrPlain "manifest is set to have owner references but co-ownership is disallowed")
  else if existsb isAppliedWorkRef manifestObjOwnerRefs
  then Err (ErrPlain "an AppliedWork object is unexpectedly added as an owner in the manifest object")
  else match inMemberClusterObj with
  | None => Ok tt
  | Some live =>
      let refs := GetOwnerReferences live in
      if (1 <? Z.of_nat (length refs))%Z && negb (as_AllowCoOwnership applyStrategy)
      then Err (ErrPlain "object is co-owned by multiple objects but co-ownership has been disallowed")
      else if negb (isOwnedBy expected live) then Err (ErrPlain "object is not owned by the expected AppliedWork object")
      else if isPlacedByFleetInDuplicate refs expected
      then Err (ErrPlain "object is already owned by another AppliedWork object")
      else Ok tt
  end.

(** ** The last applied configuration *)

Definition setFleetLastAppliedAnnotation (manifestObj : Obj) : outcome (Obj * bool) :=
  let annotations := delete LastAppliedConfigAnnotation (default ∅ (GetAnnotations manifestObj)) in
  let manifestObj := SetAnnotations (Some annotations) manifestObj in
  let! json := owrap "failed to marshal the manifest object into JSON" (EncodeObject manifestObj) in
  let annotations := <[LastAppliedConfigAnnotation := json]> annotations in
  if AnnotationsFit annotations then Ok (SetAnnotations (Some annotations) manifestObj, true)
  else Ok (SetAnnotations (Some (<[LastAppliedConfigAnnotation := EmptyString]> annotations)) manifestObj, false).

Definition getFleetLastAppliedAnnotation (inMemberClusterObj : Obj) : option string :=
  GetAnnotations inMemberClusterObj ≫= lookup LastAppliedConfigAnnotation.

(** ** Applying *)

Definition shouldEnableOptimisticLock (applyStrategy : ApplyStrategy) : bool :=
  bool_decide (as_WhenToApply applyStrategy = WhenToApplyTypeIfNotDrifted).

(** Whether all field managers are Fleet's. *)
Definition shouldUseForcedServerSideApply (inMemberClusterObj : Obj) : bool :=
  forallb (fun m => bool_decide (m = workFieldManagerName) || bool_decide (m = beforeFirstApply))
    (GetManagedFields inMemberClusterObj).

(** The resource version moves from the live object to the manifest. *)
Definition lockVersion (manifestObj inMemberClusterObj : Obj) : outcome (Obj * Obj) :=
  let curResourceVer := GetResourceVersion inMemberClusterObj in
  if decide (curResourceVer = EmptyString)
  then Err (ErrPlain "failed to enable optimistic lock: resource version is empty on the object from the member cluster")
  else Ok (SetResourceVersion curResourceVer manifestObj, SetResourceVersion EmptyString inMemberClusterObj).

Definition buildThreeWayMergePatch (manifestObj liveObj : Obj) : outcome Patch :=
  let! manifestObjJSONBytes := EncodeObject manifestObj in
  let! liveObjJSONBytes := EncodeObject liveObj in
  let lastApplied := getFleetLastAppliedAnnotation liveObj in
  let! builtIn := BuiltIn (ObjectKind liveObj) in
  if (builtIn : bool) then
    let! _ := owrap "failed to create patch meta from struct (strategic merge patch)" (NewPatchMetaFromStruct (ObjectKind liveObj)) in
    let! data := owrap "failed to create three-way strategic merge patch"
                   (CreateThreeWayStrategicMergePatch (ObjectKind liveObj) lastApplied manifestObjJSONBytes liveObjJSONBytes) in
    Ok (mkPatch StrategicMergePatchType data)
  else
    let! data := owrap "failed to create three-way JSON merge patch"
                   (CreateThreeWayJSONMergePatch lastApplied manifestObjJSONBytes liveObjJSONBytes) in
    Ok (mkPatch MergePatchType data).

(** The object from the member cluster, as the operation leaves it, and the result. *)
Definition onMember (A : Type) : Type := W -> W * (Obj * outcome A).

Definition keeping {A} (o : Obj) (m : hub W A) : onMember A := fun w => let '(w', r) := m w in (w', (o, r)).

(** [lock]s if asked to, and goes on with both objects. *)
Definition withLock {A} (lock : bool) (manifestObj inMemberClusterObj : Obj) (k : Obj -> Obj -> hub W A) : onMember A :=
  if lock then
    match lockVersion manifestObj inMemberClusterObj with
    | Ok (m, o) => keeping o (k m o)
    | Err e => keeping inMemberClusterObj (hlift (Err e))
    | Panic p => keeping inMemberClusterObj (hlift (Panic p))
    end
  else keeping inMemberClusterObj (k manifestObj inMemberClusterObj).

Definition threeWayMergePatch (gvr : GroupVersionResource) (manifestObj inMemberClusterObj : Obj)
    (optimisticLock dryRun : bool) : onMember Obj :=
  withLock (optimisticLock || dryRun) manifestObj inMemberClusterObj (fun m o =>
    let* patch := hlift (owrap "failed to create three-way merge patch" (buildThreeWayMergePatch m o)) in
    hmap_err (fun e => wrap_error "failed to patch the manifest object" (NewAPIServerError false e))
      (member_patch gvr (GetNamespace m) (GetName m) patch dryRun)).

Definition serverSideApply (gvr : GroupVersionResource) (manifestObj inMemberClusterObj : Obj)
    (force optimisticLock dryRun : bool) : onMember Obj :=
  withLock (optimisticLock && negb dryRun) manifestObj inMemberClusterObj (fun m o =>
    hmap_err (wrap_error "failed to apply the manifest object: an error is returned by the API server")
      (member_apply gvr (GetNamespace m) (GetName m) m (force || shouldUseForcedServerSideApply o) dryRun)).

Definition createManifestObject (gvr : GroupVersionResource) (manifestObject : Obj) : hub W Obj :=
  hmap_err (fun e => wrap_error "failed to create manifest object" (NewAPIServerError false e))
    (member_create gvr (GetNamespace manifestObject) manifestObject).

(** The object to submit, and whether its last applied annotation is set. *)
Definition prepareManifest (manifestObj : Obj) (inMemberClusterObj : option Obj) (applyStrategy : ApplyStrategy)
    (expected : OwnerReference) : outcome (Obj * bool) :=
  let copy := sanitizeManifestObject manifestObj in
  let! copy := owrap "failed to set manifest hash annotation" (setManifestHashAnnotation copy) in
  let! _ := owrap "failed to validate owner references"
              (validateOwnerReferences manifestObj inMemberClusterObj applyStrategy expected) in
  let copy := setOwnerRef copy expected in
  if decide (as_Type applyStrategy = ApplyStrategyTypeClientSideApply)
  then owrap "failed to set last applied annotation" (setFleetLastAppliedAnnotation copy)
  else Ok (copy, false).

Definition applyPrepared (gvr : GroupVersionResource) (copy live : Obj) (isLastAppliedAnnotationSet : bool)
    (applyStrategy : ApplyStrategy) : onMember Obj :=
  let lock := shouldEnableOptimisticLock applyStrategy in
  if decide (as_Type applyStrategy = ApplyStrategyTypeClientSideApply) then
    if isLastAppliedAnnotationSet then threeWayMergePatch gvr copy live lock false
    else serverSideApply gvr copy live false lock false
  else if decide (as_Type applyStrategy = ApplyStrategyTypeServerSideApply) then
    match as_ServerSideApplyConfig applyStrategy with
    | None => keeping live (hlift nil_dereference)
    | Some c => serverSideApply gvr copy live (ssa_ForceConflicts c) lock false
    end
  else keeping live (hlift (Err (ErrPlain ("unexpected apply strategy " +:+ as_Type applyStrategy +:+ " is found")))).

Definition apply (gvr : GroupVersionResource) (manifestObj : Obj) (inMemberClusterObj : option Obj)
    (applyStrategy : ApplyStrategy) (expected : OwnerReference) : W -> W * (option Obj * outcome Obj) := fun w =>
  match prepareManifest manifestObj inMemberClusterObj applyStrategy expected with
  | Err e => (w, (inMemberClusterObj, Err e))
  | Panic p => (w, (inMemberClusterObj, Panic p))
  | Ok (copy, isSet) =>
      match inMemberClusterObj with
      | None => let '(w', r) := createManifestObject gvr copy w in (w', (None, r))
      | Some live =>
          let '(w', (live', r)) := applyPrepared gvr copy live isSet applyStrategy w in (w', (Some live', r))
      end
  end.

(** ** Differences *)

(** The dry run does not touch the object it is given. *)
Definition applyInDryRunMode (gvr : GroupVersionResource) (manifestObj inMemberClusterObj : Obj) : hub W Obj := fun w =>
  let '(w', (_, r)) := serverSideApply gvr manifestObj inMemberClusterObj true false true w in (w', r).

Definition partialDiffBetweenManifestAndInMemberClusterObjects (gvr : GroupVersionResource)
    (manifestObj inMemberClusterObj : Obj) : hub W (list PatchDetail * bool) := fun w =>
  match applyInDryRunMode gvr manifestObj inMemberClusterObj w with
  | (w', Ok appliedObj) => (w', let! ds := preparePatchDetails appliedObj inMemberClusterObj in Ok (ds, false))
  | (w', Err e) =>
      (w', if has_reason Invalid e then let! ds := preparePatchDetails manifestObj inMemberClusterObj in Ok (ds, true)
           else Err (wrap_error "failed to apply the manifest in dry-run mode" e))
  | (w', Panic p) => (w', Panic p)
  end.

Definition diffBetweenManifestAndInMemberClusterObjects (gvr : GroupVersionResource)
    (manifestObj inMemberClusterObj : Obj) (cmpOption : string) : hub W (list PatchDetail * bool) :=
  if decide (cmpOption = ComparisonOptionTypePartialComparison)
  then partialDiffBetweenManifestAndInMemberClusterObjects gvr manifestObj inMemberClusterObj
  else if decide (cmpOption = ComparisonOptionTypeFullComparison)
  then hlift (let! ds := preparePatchDetails manifestObj inMemberClusterObj in Ok (ds, false))
  else hlift (Err (ErrPlain "an invalid comparison option is specified")).

(** ** Taking over *)

(** Whether an owner reference stays: it is not one to an [AppliedWork], or its Work exists. *)
Definition keepsOwnerRef (ownerRef : OwnerReference) : hub W bool := fun w =>
  if negb (bool_decide (or_APIVersion ownerRef = GroupVersionString)) && negb (bool_decide (or_Kind ownerRef = AppliedWorkKind))
  then (w, Ok true)
  else match hub_get_work workNameSpace (or_Name ownerRef) w with
       | (w', Ok _) => (w', Ok true)
       | (w', Err e) =>
           (w', if has_reason NotFound e then Ok false
                else Err (wrap_error "failed to get the Work object" (NewAPIServerError true e)))
       | (w', Panic p) => (w', Panic p)
       end.

Fixpoint removeLeftBehindAppliedWorkOwnerRefs (ownerRefs : list OwnerReference) : hub W (list OwnerReference) :=
  match ownerRefs with
  | [] => hret []
  | r :: rest =>
      let* keep := keepsOwnerRef r in
      let* rest' := removeLeftBehindAppliedWorkOwnerRefs rest in
      hret (if (keep : bool) then r :: rest' else rest')
  end.

(** The object that was taken over, or the differences that prevent it. *)
Definition takeOverPreExistingObject (gvr : GroupVersionResource) (manifestObj inMemberClusterObj : Obj)
    (applyStrategy : ApplyStrategy) (expected : OwnerReference) : hub W (option Obj * list PatchDetail * bool) :=
  let* existingOwnerRefs :=
    hmap_err (wrap_error "failed to remove left-behind AppliedWork owner references")
      (removeLeftBehindAppliedWorkOwnerRefs (GetOwnerReferences inMemberClusterObj)) in
  if negb (bool_decide (existingOwnerRefs = [])) && negb (as_AllowCoOwnership applyStrategy)
  then hlift (Err (ErrPlain "the object is already owned by some other sources(s) and co-ownership is disallowed"))
  else if isPlacedByFleetInDuplicate existingOwnerRefs expected
  then hlift (Err (ErrPlain "the object is already owned by another Fleet AppliedWork object"))
  else
    let* (configDiffs, degraded) :=
      if decide (as_WhenToTakeOver applyStrategy = WhenToTakeOverTypeIfNoDiff)
      then hmap_err (wrap_error "failed to calculate configuration diffs between the manifest object and the object from the member cluster")
             (diffBetweenManifestAndInMemberClusterObjects gvr manifestObj inMemberClusterObj (as_ComparisonOption applyStrategy))
      else hret ([], false) in
    if negb (bool_decide (configDiffs = [])) then hret (None, configDiffs, degraded)
    else
      let copy := SetOwnerReferences (existingOwnerRefs ++ [expected]) inMemberClusterObj in
      let* obj := hmap_err (fun e => wrap_error "failed to take over the object" (NewAPIServerError false e))
                    (member_update gvr (GetNamespace copy) copy) in
      hret (Some obj, [], false).

End Apply.
