(* ===== verification/ApplierProcess.v ===== *)
(** * Processing manifests

    Models [pkg/controllers/workapplier/process.go]: each manifest of a Work is
    looked up in the member cluster, taken over if necessary, compared with the
    live object and applied.  The steps update the bundle of the manifest and
    say whether processing stops there. *)

From stdpp Require Import prelude gmap strings.
From S2P Require Import Prelude K8s Api Sample Utils FrameworkUtils Hub Overrider WorkApi ApplierApi RateLimiter ApplierQueue ApplierDiff Apply.

Local Open Scope string_scope.
Local Open Scope list_scope.

Section Process.
Context {O : ObjectLib} {W : Type} {MC : MemberClient O W} {AC : ApplierClient W}.
Variable workNameSpace : string.
Variable waveOrder : list bundleProcessingWave -> list bundleProcessingWave.
Notation bundle := manifestProcessingBundle.

(** A step: the bundle, and [shouldSkipProcessing]. *)
Definition step : Type := hub W (bundle * bool).

(** A pointer that the source dereferences. *)
Definition deref {A B} (o : option A) (k : A -> hub W B) : hub W B :=
  match o with Some a => k a | None => hlift nil_dereference end.

Definition findInMemberClusterObjectFor (b : bundle) : step :=
  deref (bd_gvr b) (fun gvr => deref (bd_manifestObj b) (fun manifestObj => fun w =>
    match member_get gvr (GetNamespace manifestObj) (GetName manifestObj) w with
    | (w', Ok obj) => (w', Ok (set_bd_member (Some obj) b, false))
    | (w', Err e) =>
        (w', Ok (if has_reason NotFound e then (b, false)
                 else (fail_bundle FailedToFindObjInMemberCluster
                         (wrap_error "failed to find the corresponding object for the manifest object in the member cluster"
                            (NewAPIServerError false e)) b, true)))
    | (w', Panic p) => (w', Panic p)
    end)).

Definition shouldInitiateTakeOverAttempt (inMemberClusterObj : option Obj) (applyStrategy : ApplyStrategy)
    (expected : OwnerReference) : bool :=
  match inMemberClusterObj with
  | None => false
  | Some o =>
      if decide (as_WhenToTakeOver applyStrategy = WhenToTakeOverTypeNever) then false else negb (isOwnedBy expected o)
  end.

(** An operation whose error is recorded in the bundle. *)
Definition recording {A} (m : hub W A) (onErr : goerr -> bundle) (onOk : A -> bundle * bool) : step := fun w =>
  match m w with
  | (w', Ok a) => (w', Ok (onOk a))
  | (w', Err e) => (w', Ok (onErr e, true))
  | (w', Panic p) => (w', Panic p)
  end.

Definition takeOverInMemberClusterObjectIfApplicable (b : bundle) (applyStrategy : ApplyStrategy) (expected : OwnerReference)
    : step :=
  if isOwnedByNewerKubeFleetAPIObjects (bd_inMemberClusterObj b)
  then hret (fail_bundle OwnedByOtherKubeFleetAPIObjects
               (ErrPlain ("the object to process is already owned by another KubeFleet placement API object from the " +:+ newerGroup +:+
                  " API group; the two placement experiences cannot be used to place the same manifest at the same time")) b, true)
  else if negb (shouldInitiateTakeOverAttempt (bd_inMemberClusterObj b) applyStrategy expected) then hret (b, false)
  else deref (bd_gvr b) (fun gvr => deref (bd_manifestObj b) (fun manifestObj =>
    deref (bd_inMemberClusterObj b) (fun inMemberClusterObj =>
      recording (takeOverPreExistingObject workNameSpace gvr manifestObj inMemberClusterObj applyStrategy expected)
        (fun e => fail_bundle FailedToTakeOver (wrap_error "failed to take over a pre-existing object" e) b)
        (fun '(obj, configDiffs, degraded) =>
           if decide (configDiffs = []) then (set_bd_member obj b, false)
           else (fail_bundle FailedToTakeOver
                   (ErrPlain (if degraded : bool
                              then "cannot take over object: configuration differences are found between the manifest object and the corresponding object in the member cluster in degraded mode (full comparison is performed instead of partial comparison, as the manifest object is considered to be invalid by the member cluster API server)"
                              else "cannot take over object: configuration differences are found between the manifest object and the corresponding object in the member cluster"))
                   (set_bd_diffs configDiffs b), true))))).

Definition wholeObjectDiff : list PatchDetail := [mkPatchDetail "/" EmptyString "(the whole object)"].

Definition reportDiffOnlyIfApplicable (b : bundle) (applyStrategy : ApplyStrategy) : step :=
  if negb (bool_decide (as_Type applyStrategy = ApplyStrategyTypeReportDiff)) then hret (b, false)
  else match bd_inMemberClusterObj b with
  | None => hret (set_bd_diffs wholeObjectDiff (set_bd_result FoundDiff b), true)
  | Some inMemberClusterObj =>
      deref (bd_gvr b) (fun gvr => deref (bd_manifestObj b) (fun manifestObj =>
        recording (diffBetweenManifestAndInMemberClusterObjects gvr manifestObj inMemberClusterObj
                     (as_ComparisonOption applyStrategy))
          (fun e => fail_bundle FailedToReportDiff
             (wrap_error "failed to calculate configuration diffs between the manifest object and the object from the member cluster" e) b)
          (fun '(configDiffs, degraded) =>
             (if decide (configDiffs = []) then set_bd_result NoDiffFound b
              else set_bd_result (if degraded : bool then FoundDiffInDegradedMode else FoundDiff) (set_bd_diffs configDiffs b),
              true))))
  end.

Definition canApplyWithOwnership (inMemberClusterObj : option Obj) (expected : OwnerReference) : bool :=
  match inMemberClusterObj with None => true | Some o => isOwnedBy expected o end.

Definition performPreApplyDriftDetectionIfApplicable (b : bundle) (applyStrategy : ApplyStrategy) : step :=
  deref (bd_manifestObj b) (fun manifestObj =>
    match shouldPerformPreApplyDriftDetection manifestObj (bd_inMemberClusterObj b) applyStrategy with
    | Err e => hret (fail_bundle FailedToRunDriftDetection (wrap_error "failed to determine if pre-apply drift detection is needed" e) b, true)
    | Panic p => hlift (Panic p)
    | Ok false => hret (b, false)
    | Ok true =>
        deref (bd_gvr b) (fun gvr => deref (bd_inMemberClusterObj b) (fun inMemberClusterObj =>
          recording (diffBetweenManifestAndInMemberClusterObjects gvr manifestObj inMemberClusterObj
                       (as_ComparisonOption applyStrategy))
            (fun e => fail_bundle FailedToRunDriftDetection
               (wrap_error "failed to calculate pre-apply drifts between the manifest and the object from the member cluster" e) b)
            (fun '(drifts, degraded) =>
               if decide (drifts = []) then (b, false)
               else if (degraded : bool)
               then (fail_bundle FoundDriftsInDegradedMode
                       (ErrPlain "cannot apply manifest: drifts are found between the manifest and the object from the member cluster in degraded mode (full comparison is performed instead of partial comparison, as the manifest object is considered to be invalid by the member cluster API server)")
                       (set_bd_drifts drifts b), true)
               else (fail_bundle FoundDrifts
                       (ErrPlain "cannot apply manifest: drifts are found between the manifest and the object from the member cluster")
                       (set_bd_drifts drifts b), true))))
    end).

Definition performPostApplyDriftDetectionIfApplicable (b : bundle) (applyStrategy : ApplyStrategy) : step :=
  if negb (shouldPerformPostApplyDriftDetection applyStrategy) then hret (b, false)
  else deref (bd_gvr b) (fun gvr => deref (bd_manifestObj b) (fun manifestObj =>
    deref (bd_inMemberClusterObj b) (fun inMemberClusterObj =>
      recording (diffBetweenManifestAndInMemberClusterObjects gvr manifestObj inMemberClusterObj
                   (as_ComparisonOption applyStrategy))
        (fun e => fail_bundle AppliedWithFailedDriftDetection
           (wrap_error "failed to calculate post-apply drifts between the manifest object and the object from the member cluster" e) b)
        (fun '(drifts, _) => (if decide (drifts = []) then b else set_bd_drifts drifts b, false))))).

(** The apply operation, and what it does to the bundle. *)
Definition applyBundle (b : bundle) (applyStrategy : ApplyStrategy) (expected : OwnerReference) : step :=
  deref (bd_gvr b) (fun gvr => deref (bd_manifestObj b) (fun manifestObj => fun w =>
    match apply gvr manifestObj (bd_inMemberClusterObj b) applyStrategy expected w with
    | (w', (member, Ok appliedObj)) => (w', Ok (set_bd_member (Some appliedObj) b, false))
    | (w', (member, Err e)) =>
        (w', Ok (fail_bundle FailedToApply (wrap_error "failed to apply the manifest" e) (set_bd_member member b), true))
    | (w', (member, Panic p)) => (w', Panic p)
    end)).

(** [if shouldSkipProcessing := step; shouldSkipProcessing { return }] *)
Definition unlessSkipped (s : step) (k : bundle -> hub W bundle) : hub W bundle :=
  let* (b, skip) := s in if (skip : bool) then hret b else k b.

Definition applyOwned (b : bundle) (applyStrategy : ApplyStrategy) (expected : OwnerReference) : hub W bundle :=
  if negb (canApplyWithOwnership (bd_inMemberClusterObj b) expected)
  then hret (fail_bundle NotTakenOver (ErrPlain "no ownership of the object in the member cluster; takeover is needed") b)
  else
    unlessSkipped (performPreApplyDriftDetectionIfApplicable b applyStrategy) (fun b =>
    unlessSkipped (applyBundle b applyStrategy expected) (fun b =>
    unlessSkipped (performPostApplyDriftDetectionIfApplicable b applyStrategy) (fun b =>
    hret (set_bd_result Applied b)))).

(** [SetDefaultsWork] has set the strategy. *)
Definition processOneManifest (b : bundle) (applyStrategy : option ApplyStrategy) (expected : OwnerReference) : hub W bundle :=
  unlessSkipped (findInMemberClusterObjectFor b) (fun b =>
  deref applyStrategy (fun strategy =>
  unlessSkipped (takeOverInMemberClusterObjectIfApplicable b strategy expected) (fun b =>
  unlessSkipped (reportDiffOnlyIfApplicable b strategy) (fun b =>
  applyOwned b strategy expected)))).

(** A bundle that has failed already is left alone. *)
Definition processBundle (applyStrategy : option ApplyStrategy) (expected : OwnerReference) (b : bundle) : hub W bundle :=
  match bd_err b with Some _ => hret b | None => processOneManifest b applyStrategy expected end.

(** [ctx.Err()] at the end of a step. *)
Definition checkContext (what : string) : hub W unit := fun w =>
  (w, match ctx_err w with Some e => Err (wrap_error (what +:+ " has been interrupted") e) | None => Ok tt end).

(** The pieces of a wave, which are the bundles at its positions. *)
Fixpoint processPositions (applyStrategy : option ApplyStrategy) (expected : OwnerReference) (ps : list nat)
    (bundles : list bundle) : hub W (list bundle) :=
  match ps with
  | [] => hret bundles
  | i :: r =>
      let* bundles' :=
        match bundles !! i with
        | None => hlift (Panic "index out of range")
        | Some b => let* b' := unlessCancelled (processBundle applyStrategy expected) b in hret (<[i := b']> bundles)
        end in
      processPositions applyStrategy expected r bundles'
  end.

Fixpoint processWaves (applyStrategy : option ApplyStrategy) (expected : OwnerReference)
    (waves : list bundleProcessingWave) (bundles : list bundle) : hub W (list bundle) :=
  match waves with
  | [] => hret bundles
  | wave :: r =>
      let* bundles' := processPositions applyStrategy expected (wave_bundles wave) bundles in
      let* _ := checkContext "manifest processing" in
      processWaves applyStrategy expected r bundles'
  end.

Definition processManifests (bundles : list bundle) (work : Work) (expected : OwnerReference) : hub W (list bundle) :=
  if isReportDiff work then
    let* bundles' := parallelize (processBundle (w_strategy work) expected) bundles in
    let* _ := checkContext "manifest processing" in
    hret bundles'
  else
    processWaves (w_strategy work) expected (organizeBundlesIntoProcessingWaves waveOrder bundles) bundles.

End Process.
