(* ===== verification/Availability.v ===== *)
(** * The availability of applied objects

    Models [pkg/controllers/workapplier/availability_tracker.go].  The typed
    views of the workload kinds and the two helpers of Kubernetes that inspect
    custom resource definitions and disruption budgets are [TypedViews]. *)

From stdpp Require Import prelude gmap strings.
From S2P Require Import Prelude K8s Api Sample Utils FrameworkUtils Hub Overrider WorkApi ApplierApi.

Local Open Scope string_scope.
Local Open Scope list_scope.

Record Deployment : Set := mkDeployment {
  dep_Generation : Z;
  dep_Replicas : option Z;
  dep_ObservedGeneration : Z;
  dep_AvailableReplicas : Z;
  dep_UpdatedReplicas : Z;
  dep_UnavailableReplicas : Z;
}.

Record StatefulSet : Set := mkStatefulSet {
  sts_Generation : Z;
  sts_Replicas : option Z;
  sts_ObservedGeneration : Z;
  sts_AvailableReplicas : Z;
  sts_CurrentReplicas : Z;
  sts_UpdatedReplicas : Z;
  sts_CurrentRevision : string;
  sts_UpdateRevision : string;
}.

Record DaemonSet : Set := mkDaemonSet {
  ds_Generation : Z;
  ds_ObservedGeneration : Z;
  ds_NumberAvailable : Z;
  ds_DesiredNumberScheduled : Z;
  ds_CurrentNumberScheduled : Z;
  ds_UpdatedNumberScheduled : Z;
}.

(** The ingresses of a load balancer are their addresses and host names. *)
Record Service : Set := mkService {
  svc_Type : string;
  svc_ClusterIPs : list string;
  svc_Ingress : list (string * string);
}.

Class TypedViews (O : ObjectLib) : Type := {
  (** [runtime.DefaultUnstructuredConverter.FromUnstructured] *)
  AsDeployment : Obj -> outcome Deployment;
  AsStatefulSet : Obj -> outcome StatefulSet;
  AsDaemonSet : Obj -> outcome DaemonSet;
  AsService : Obj -> outcome Service;
  CRD : Type;
  AsCRD : Obj -> outcome CRD;
  PDB : Type;
  AsPDB : Obj -> outcome PDB;
  (** [apiextensionshelpers.IsCRDConditionTrue] and [poddisruptionbudget.ConditionsAreUpToDate] *)
  IsCRDConditionTrue : CRD -> string -> bool;
  ConditionsAreUpToDate : PDB -> bool;
}.

(** ** Resources, of [pkg/utils/common.go] *)

Definition DeploymentGVR := mkGVR "apps" "v1" "deployments".
Definition StatefulSetGVR := mkGVR "apps" "v1" "statefulsets".
Definition DaemonSetGVR := mkGVR "apps" "v1" "daemonsets".
Definition ServiceGVR := mkGVR EmptyString "v1" "services".
Definition CustomResourceDefinitionGVR := mkGVR "apiextensions.k8s.io" "v1" "customresourcedefinitions".
Definition PodDisruptionBudgetGVR := mkGVR "policy" "v1" "poddisruptionbudgets".

Definition dataGVRs : list GroupVersionResource :=
  [mkGVR EmptyString "v1" "namespaces"; mkGVR EmptyString "v1" "secrets"; mkGVR EmptyString "v1" "configmaps";
   mkGVR "rbac.authorization.k8s.io" "v1" "roles"; mkGVR "rbac.authorization.k8s.io" "v1" "clusterroles";
   mkGVR "rbac.authorization.k8s.io" "v1" "rolebindings"; mkGVR "rbac.authorization.k8s.io" "v1" "clusterrolebindings";
   mkGVR EmptyString "v1" "serviceaccounts"; mkGVR "networking.k8s.io" "v1" "networkpolicies";
   mkGVR "storage.k8s.io" "v1" "csidrivers"; mkGVR "storage.k8s.io" "v1" "csinodes";
   mkGVR "storage.k8s.io" "v1" "storageclasses"; mkGVR "storage.k8s.io" "v1" "csistoragecapacities";
   mkGVR "apps" "v1" "controllerrevisions"; mkGVR "networking.k8s.io" "v1" "ingressclasses";
   mkGVR EmptyString "v1" "limitranges"; mkGVR EmptyString "v1" "resourcequotas";
   mkGVR "scheduling.k8s.io" "v1" "priorityclasses"].

Definition isDataResource (gvr : GroupVersionResource) : bool := bool_decide (gvr ∈ dataGVRs).

(** ** Tracking *)

Definition ServiceTypeClusterIP : string := "ClusterIP".
Definition ServiceTypeNodePort : string := "NodePort".
Definition ServiceTypeLoadBalancer : string := "LoadBalancer".

Definition availableIf (b : bool) : AvailabilityResTyp := if b then AvailabilityAvailable else AvailabilityNotYetAvailable.

Section Track.
Context {O : ObjectLib} {T : TypedViews O}.

Definition trackDeploymentAvailability (obj : Obj) : outcome AvailabilityResTyp :=
  let! deploy := owrap "failed to convert the unstructured object to a deployment" (AsDeployment obj) in
  let requiredReplicas := default 1%Z (dep_Replicas deploy) in
  Ok (availableIf ((dep_ObservedGeneration deploy =? dep_Generation deploy)%Z &&
                   (requiredReplicas =? dep_AvailableReplicas deploy)%Z &&
                   (requiredReplicas =? dep_UpdatedReplicas deploy)%Z &&
                   (dep_UnavailableReplicas deploy =? 0)%Z)).

Definition trackStatefulSetAvailability (obj : Obj) : outcome AvailabilityResTyp :=
  let! statefulSet := owrap "failed to convert the unstructured object to a stateful set" (AsStatefulSet obj) in
  let requiredReplicas := default 1%Z (sts_Replicas statefulSet) in
  Ok (availableIf ((sts_ObservedGeneration statefulSet =? sts_Generation statefulSet)%Z &&
                   (sts_AvailableReplicas statefulSet =? requiredReplicas)%Z &&
                   (sts_CurrentReplicas statefulSet =? sts_UpdatedReplicas statefulSet)%Z &&
                   bool_decide (sts_CurrentRevision statefulSet = sts_UpdateRevision statefulSet))).

Definition trackDaemonSetAvailability (obj : Obj) : outcome AvailabilityResTyp :=
  let! daemonSet := owrap "failed to convert the unstructured object to a daemon set" (AsDaemonSet obj) in
  Ok (availableIf ((ds_ObservedGeneration daemonSet =? ds_Generation daemonSet)%Z &&
                   (ds_NumberAvailable daemonSet =? ds_DesiredNumberScheduled daemonSet)%Z &&
                   (ds_CurrentNumberScheduled daemonSet =? ds_UpdatedNumberScheduled daemonSet)%Z)).

Definition trackServiceAvailability (obj : Obj) : outcome AvailabilityResTyp :=
  let! svc := owrap "failed to convert the unstructured object to a service" (AsService obj) in
  if decide (svc_Type svc = EmptyString \/ svc_Type svc = ServiceTypeClusterIP \/ svc_Type svc = ServiceTypeNodePort)
  then Ok (availableIf match svc_ClusterIPs svc with ip :: _ => negb (bool_decide (ip = EmptyString)) | [] => false end)
  else if decide (svc_Type svc = ServiceTypeLoadBalancer)
  then Ok (availableIf match svc_Ingress svc with
                       | (ip, hostname) :: _ => negb (bool_decide (ip = EmptyString)) || negb (bool_decide (hostname = EmptyString))
                       | [] => false
                       end)
  else Ok AvailabilityNotTrackable.

Definition trackCRDAvailability (obj : Obj) : outcome AvailabilityResTyp :=
  let! crd := owrap "failed to convert the unstructured object to a custom resource definition" (AsCRD obj) in
  Ok (availableIf (IsCRDConditionTrue crd "Established" && IsCRDConditionTrue crd "NamesAccepted")).

Definition trackPDBAvailability (obj : Obj) : outcome AvailabilityResTyp :=
  match AsPDB obj with
  | Ok pdb => Ok (availableIf (ConditionsAreUpToDate pdb))
  | Err e => Err (NewUnexpectedBehaviorError e)
  | Panic p => Panic p
  end.

Definition trackInMemberClusterObjAvailabilityByGVR (gvr : GroupVersionResource) (obj : Obj) : outcome AvailabilityResTyp :=
  if decide (gvr = DeploymentGVR) then trackDeploymentAvailability obj
  else if decide (gvr = StatefulSetGVR) then trackStatefulSetAvailability obj
  else if decide (gvr = DaemonSetGVR) then trackDaemonSetAvailability obj
  else if decide (gvr = ServiceGVR) then trackServiceAvailability obj
  else if decide (gvr = CustomResourceDefinitionGVR) then trackCRDAvailability obj
  else if decide (gvr = PodDisruptionBudgetGVR) then trackPDBAvailability obj
  else if isDataResource gvr then Ok AvailabilityAvailable
  else Ok AvailabilityNotTrackable.

(** One piece of [trackInMemberClusterObjAvailability]. *)
Definition trackBundle (b : manifestProcessingBundle) : outcome manifestProcessingBundle :=
  if negb (isManifestObjectApplied (bd_resTyp b)) then Ok (set_bd_availability AvailabilitySkipped (bd_availabilityErr b) b)
  else match bd_gvr b, bd_inMemberClusterObj b with
  | Some gvr, Some obj =>
      match trackInMemberClusterObjAvailabilityByGVR gvr obj with
      | Ok t => Ok (set_bd_availability t (bd_availabilityErr b) b)
      | Err e => Ok (set_bd_availability AvailabilityFailed (Some e) b)
      | Panic p => Panic p
      end
  | _, _ => nil_dereference
  end.

Definition trackInMemberClusterObjAvailability {W} {AC : ApplierClient W} (bundles : list manifestProcessingBundle)
    : hub W (list manifestProcessingBundle) :=
  let* bundles' := parallelize (fun b => hlift (trackBundle b)) bundles in
  fun w => (w, match ctx_err w with
               | Some e => Err (wrap_error "availability checking has been interrupted" e)
               | None => Ok bundles'
               end).

End Track.
