(* ===== verification/ApplierStatus.v ===== *)
(** * The status of a Work

    Models [pkg/controllers/workapplier/status.go]: the processing results of
    the manifests are written to the status of the Work on the hub and to that
    of the [AppliedWork] on the member cluster.  [now] is [metav1.Now()]. *)

From stdpp Require Import prelude gmap strings.
From S2P Require Import Prelude K8s Api Sample Utils FrameworkUtils Hub Overrider WorkApi ApplierApi RateLimiter ApplierQueue.

Local Open Scope string_scope.
Local Open Scope list_scope.

Definition WorkAllManifestsAppliedReason : string := "AllManifestsApplied".
Definition WorkAllManifestsAvailableReason : string := "AllManifestsAvailable".
Definition WorkAllManifestsDiffReportedReason : string := "AllManifestsDiffReported".
Definition WorkNotAllManifestsAppliedReason : string := "SomeManifestsAreNotApplied".
Definition WorkNotAllManifestsAvailableReason : string := "SomeManifestsAreNotAvailable".
Definition WorkNotAllManifestsDiffReportedReason : string := "SomeManifestsHaveNotReportedDiff".
Definition WorkStatusTrimmedDueToOversizedStatusReason : string := "Oversized".
Definition DefaultObjSizeLimitWithPaddingBytes : Z := 1415578.

Definition countMessage (prefix suffix : string) (n total : Z) : string :=
  prefix +:+ " (" +:+ zstr n +:+ " of " +:+ zstr total +:+ " manifests " +:+ suffix +:+ ")".

(** The text of an error in a message; a nil error prints as follows. *)
Definition errText (e : option goerr) : string := match e with Some e => error_msg e | None => "%!s(<nil>)" end.

(** ** Conditions of a manifest *)

(** [meta.SetStatusCondition] of the condition if there is one, or its removal. *)
Definition putCondition {K : K8sLib} (now : Z) (cs : list Condition) (t : string) (c : option (ConditionStatus * string * string))
    (generation : Z) : list Condition :=
  match c with
  | Some (status, reason, message) => SetStatusCondition now cs (mkCondition t status generation 0 reason message)
  | None => RemoveStatusCondition cs t
  end.

Definition manifestAppliedCondition (isReportDiffModeOn : bool) (resTyp : ApplyOrReportDiffResTyp) (err : option goerr)
    : option (ConditionStatus * string * string) :=
  if isReportDiffModeOn then None
  else if decide (resTyp = Applied) then Some (ConditionTrue, resTypString Applied, "Manifest has been applied successfully")
  else if decide (resTyp = AppliedWithFailedDriftDetection)
  then Some (ConditionTrue, resTypString AppliedWithFailedDriftDetection, resTypString AppliedWithFailedDriftDetection)
  else if negb (isApplyResTyp resTyp)
  then Some (ConditionFalse, resTypString FailedToApply,
             "An unexpected apply result is yielded (" +:+ resTypString resTyp +:+ ", error: " +:+ errText err +:+ ")")
  else Some (ConditionFalse, resTypString resTyp, "Failed to apply the manifest (error: " +:+ errText err +:+ ")").

Definition manifestAvailableCondition (t : AvailabilityResTyp) (err : option goerr) : option (ConditionStatus * string * string) :=
  match t with
  | AvailabilitySkipped => None
  | AvailabilityFailed =>
      Some (ConditionFalse, availabilityString AvailabilityFailed,
            "Failed to track the availability of the applied manifest (error = " +:+ errText err +:+ ")")
  | AvailabilityNotYetAvailable =>
      Some (ConditionFalse, availabilityString AvailabilityNotYetAvailable,
            "Manifest is not yet available; Fleet will check again later")
  | AvailabilityNotTrackable =>
      Some (ConditionTrue, availabilityString AvailabilityNotTrackable,
            "Manifest's availability is not trackable; Fleet assumes that the applied manifest is available")
  | _ => Some (ConditionTrue, availabilityString AvailabilityAvailable, "Manifest is available")
  end.

Definition manifestDiffReportedCondition (isReportDiffModeOn : bool) (resTyp : ApplyOrReportDiffResTyp) (err : option goerr)
    : option (ConditionStatus * string * string) :=
  if negb isReportDiffModeOn then None
  else match resTyp with
  | FailedToReportDiff =>
      Some (ConditionFalse, resTypString FailedToReportDiff,
            "Failed to report the diff between the hub cluster and the member cluster (error = " +:+ errText err +:+ ")")
  | NoDiffFound => Some (ConditionTrue, resTypString NoDiffFound, "No diff has been found between the hub cluster and the member cluster")
  | FoundDiff => Some (ConditionTrue, resTypString FoundDiff, "Diff has been found between the hub cluster and the member cluster")
  | FoundDiffInDegradedMode =>
      Some (ConditionTrue, resTypString FoundDiffInDegradedMode,
            "Diff has been found in degraded mode: cannot perform partial comparison as the member cluster API server rejected the manifest object (object is invalid)")
  | _ =>
      Some (ConditionFalse, resTypString FailedToReportDiff,
            "An error blocks the diff reporting process (" +:+ resTypString resTyp +:+ ", error: " +:+ errText err +:+ ")")
  end.

Definition set_mfc_conditions (cs : list Condition) (m : ManifestCondition) : ManifestCondition :=
  mkManifestCondition (mfc_Identifier m) cs (mfc_DriftDetails m) (mfc_DiffDetails m) (mfc_BackReportedStatus m).

(** The zero value. *)
Definition emptyManifestCondition : ManifestCondition :=
  mkManifestCondition (mkWorkIdentifier 0 EmptyString EmptyString EmptyString EmptyString EmptyString EmptyString) [] None None None.

Section Status.
Context {K : K8sLib} {O : ObjectLib}.
Variable now : Z.
Notation bundle := manifestProcessingBundle.

Definition setManifestAppliedCondition (m : ManifestCondition) (isReportDiffModeOn : bool) (resTyp : ApplyOrReportDiffResTyp)
    (err : option goerr) (generation : Z) : ManifestCondition :=
  set_mfc_conditions (putCondition now (mfc_Conditions m) WorkConditionTypeApplied
                        (manifestAppliedCondition isReportDiffModeOn resTyp err) generation) m.

Definition setManifestAvailableCondition (m : ManifestCondition) (t : AvailabilityResTyp) (err : option goerr)
    (generation : Z) : ManifestCondition :=
  set_mfc_conditions (putCondition now (mfc_Conditions m) WorkConditionTypeAvailable
                        (manifestAvailableCondition t err) generation) m.

Definition setManifestDiffReportedCondition (m : ManifestCondition) (isReportDiffModeOn : bool) (resTyp : ApplyOrReportDiffResTyp)
    (err : option goerr) (generation : Z) : ManifestCondition :=
  set_mfc_conditions (putCondition now (mfc_Conditions m) WorkConditionTypeDiffReported
                        (manifestDiffReportedCondition isReportDiffModeOn resTyp err) generation) m.

(** ** Drifts, diffs and the back-reported status *)

(** The time of the first observation is carried over. *)
Definition refreshDrifts (b : bundle) (m : ManifestCondition) : ManifestCondition :=
  let first := match mfc_DriftDetails m with
               | Some d => if (drift_FirstDriftedObservedTime d =? 0)%Z then now else drift_FirstDriftedObservedTime d
               | None => now
               end in
  mkManifestCondition (mfc_Identifier m) (mfc_Conditions m)
    (match bd_drifts b with
     | [] => None
     | ds => Some (mkDriftDetails now (from_option GetGeneration 0%Z (bd_inMemberClusterObj b)) first ds)
     end) (mfc_DiffDetails m) (mfc_BackReportedStatus m).

Definition refreshDiffs (b : bundle) (m : ManifestCondition) : ManifestCondition :=
  let first := match mfc_DiffDetails m with
               | Some d => if (diff_FirstDiffedObservedTime d =? 0)%Z then now else diff_FirstDiffedObservedTime d
               | None => now
               end in
  mkManifestCondition (mfc_Identifier m) (mfc_Conditions m) (mfc_DriftDetails m)
    (match bd_diffs b with
     | [] => None
     | ds => Some (mkDiffDetails now (GetGeneration <$> bd_inMemberClusterObj b) first ds)
     end) (mfc_BackReportedStatus m).

Definition backReportStatus (inMemberClusterObj : option Obj) (m : ManifestCondition) : ManifestCondition :=
  match inMemberClusterObj with
  | None => m
  | Some o =>
      match getField FStatus o with
      | None => m
      | Some status =>
          match MarshalStatus (GetAPIVersion o) (GetKind o) status with
          | Ok data =>
              mkManifestCondition (mfc_Identifier m) (mfc_Conditions m) (mfc_DriftDetails m) (mfc_DiffDetails m)
                (Some (mkBackReported data now))
          | _ => m
          end
      end
  end.

(** The manifest condition of a bundle, from the one that was there before. *)
Definition refreshManifestCondition (isReportDiffModeOn isStatusBackReportingOn : bool) (b : bundle)
    (id : WorkResourceIdentifier) (m : ManifestCondition) : ManifestCondition :=
  let m := mkManifestCondition id (mfc_Conditions m) (mfc_DriftDetails m) (mfc_DiffDetails m) (mfc_BackReportedStatus m) in
  let generation := from_option GetGeneration 0%Z (bd_inMemberClusterObj b) in
  let m := setManifestAppliedCondition m isReportDiffModeOn (bd_resTyp b) (bd_err b) generation in
  let m := setManifestAvailableCondition m (bd_availability b) (bd_availabilityErr b) generation in
  let m := setManifestDiffReportedCondition m isReportDiffModeOn (bd_resTyp b) (bd_err b) generation in
  let m := refreshDrifts b m in
  let m := refreshDiffs b m in
  if isManifestObjectApplied (bd_resTyp b) && isStatusBackReportingOn then backReportStatus (bd_inMemberClusterObj b) m else m.

(** ** The index of the bundles *)

Fixpoint rebuiltIndexFrom (idx : nat) (bundles : list bundle) (m : gmap string nat) : gmap string nat :=
  match bundles with
  | [] => m
  | b :: r =>
      rebuiltIndexFrom (S idx) r
        (if decide (bd_workResourceIdentifierStr b = EmptyString) then m else <[bd_workResourceIdentifierStr b := idx]> m)
  end.

Definition prepareRebuiltManifestCondQIdx (bundles : list bundle) : gmap string nat := rebuiltIndexFrom 0 bundles ∅.

(** The existing manifest conditions move to the positions of their bundles. *)
Definition portBack (index : gmap string nat) (rebuilt : list ManifestCondition) (existing : ManifestCondition) : list ManifestCondition :=
  match formatWRIString (mfc_Identifier existing) with
  | Ok s => match index !! s with Some i => <[i := existing]> rebuilt | None => rebuilt end
  | _ => rebuilt
  end.

Definition portedConditions (bundles : list bundle) (existing : list ManifestCondition) : list ManifestCondition :=
  fold_left (portBack (prepareRebuiltManifestCondQIdx bundles)) existing (replicate (length bundles) emptyManifestCondition).

(** ** Conditions of the Work *)

Definition set_wst_conditions (cs : list Condition) (w : Work) : Work :=
  set_w_status (mkWorkStatus cs (wst_ManifestConditions (w_status w))) w.

Definition putWorkCondition (t : string) (c : option (ConditionStatus * string * string)) (work : Work) : Work :=
  set_wst_conditions (putCondition now (wst_Conditions (w_status work)) t c (w_generation work)) work.

Definition setWorkAppliedCondition (work : Work) (manifestCount appliedManifestCount : Z) : Work :=
  putWorkCondition WorkConditionTypeApplied
    (if isReportDiff work then None
     else if (appliedManifestCount =? manifestCount)%Z
     then Some (ConditionTrue, WorkAllManifestsAppliedReason, "All the specified manifests have been applied")
     else Some (ConditionFalse, WorkNotAllManifestsAppliedReason,
                countMessage "Failed to apply all manifests" "are applied" appliedManifestCount manifestCount)) work.

Definition setWorkAvailableCondition (work : Work) (manifestCount availableManifestCount untrackableAppliedObjectsCount : Z) : Work :=
  putWorkCondition WorkConditionTypeAvailable
    (if isReportDiff work then None
     else if negb (IsConditionStatusTrue (FindStatusCondition (wst_Conditions (w_status work)) WorkConditionTypeApplied) (w_generation work))
     then None
     else if (availableManifestCount =? manifestCount)%Z && (untrackableAppliedObjectsCount =? 0)%Z
     then Some (ConditionTrue, WorkAllManifestsAvailableReason, "All of the applied manifests are available")
     else if (availableManifestCount =? manifestCount)%Z
     then Some (ConditionTrue, WorkNotAllManifestsTrackableReason, "Some of the applied manifests cannot be tracked for availability")
     else Some (ConditionFalse, WorkNotAllManifestsAvailableReason,
                countMessage "Some manifests are not available" "are available" availableManifestCount manifestCount)) work.

Definition setWorkDiffReportedCondition (work : Work) (manifestCount diffReportedObjectsCount : Z) : Work :=
  putWorkCondition WorkConditionTypeDiffReported
    (if negb (isReportDiff work) then None
     else if (manifestCount =? diffReportedObjectsCount)%Z
     then Some (ConditionTrue, WorkAllManifestsDiffReportedReason, "All the specified manifests have reported diff")
     else Some (ConditionFalse, WorkNotAllManifestsDiffReportedReason,
                countMessage "Failed to report diff on all manifests" "have reported diff" diffReportedObjectsCount manifestCount)) work.

(** ** Trimming *)

Definition summarizePatches (ds : list PatchDetail) : list PatchDetail :=
  match ds with
  | [] => []
  | d :: r =>
      [mkPatchDetail
         (match r with
          | [] => pd_Path d
          | _ => pd_Path d +:+ " and " +:+ zstr (Z.of_nat (length ds) - 1) +:+ " more path(s)"
          end) "(omitted)" "(omitted)"]
  end.

Definition trimManifestCondition (m : ManifestCondition) : ManifestCondition :=
  mkManifestCondition (mfc_Identifier m) (mfc_Conditions m)
    ((fun d => mkDriftDetails (drift_ObservationTime d) (drift_ObservedInMemberClusterGeneration d)
                 (drift_FirstDriftedObservedTime d) (summarizePatches (drift_ObservedDrifts d))) <$> mfc_DriftDetails m)
    ((fun d => mkDiffDetails (diff_ObservationTime d) (diff_ObservedInMemberClusterGeneration d)
                 (diff_FirstDiffedObservedTime d) (summarizePatches (diff_ObservedDiffs d))) <$> mfc_DiffDetails m)
    None.

Definition trimWorkStatusDataWhenOversized (work : Work) : Work :=
  set_w_status (mkWorkStatus (wst_Conditions (w_status work)) (trimManifestCondition <$> wst_ManifestConditions (w_status work))) work.

Definition setWorkStatusTrimmedCondition (work : Work) (sizeDeltaBytes sizeLimitBytes : Z) : Work :=
  putWorkCondition WorkConditionTypeStatusTrimmed
    (if (sizeDeltaBytes <=? 0)%Z then None
     else Some (ConditionTrue, WorkStatusTrimmedDueToOversizedStatusReason,
                "The status data (drift/diff details and back-reported status) has been trimmed due to size constraints (" +:+
                zstr sizeDeltaBytes +:+ " bytes over limit " +:+ zstr sizeLimitBytes +:+ ")")) work.

Definition CalculateSizeDeltaOverLimitFor (work : Work) (sizeLimitBytes : Z) : outcome Z :=
  let! size := owrap "cannot determine object size" (MarshalledSize work) in
  if (sizeLimitBytes <? 0)%Z then Err (ErrPlain "size limit must be non-negative") else Ok (size - sizeLimitBytes)%Z.

Definition shouldSkipStatusUpdate (isDriftedOrDiffed isStatusBackReportingOn : bool) (originalStatus currentStatus : WorkStatus) : bool :=
  if isDriftedOrDiffed || isStatusBackReportingOn then false else bool_decide (originalStatus = currentStatus).

(** ** Refreshing *)

Definition count (f : bundle -> bool) (bundles : list bundle) : Z := Z.of_nat (length (List.filter f bundles)).

Definition isBackReporting (work : Work) : bool :=
  match ws_ReportBackStrategy (w_spec work) with
  | Some r => bool_decide (rb_Type r = ReportBackStrategyTypeMirror)
  | None => false
  end.

(** The loop over the bundles: their conditions, in place of those ported back. *)
Fixpoint rebuildConditions (reportDiff backReporting : bool) (bundles : list bundle) (ported : list ManifestCondition)
    : outcome (list ManifestCondition) :=
  match bundles, ported with
  | b :: r, m :: ms =>
      match bd_id b with
      | None => nil_dereference
      | Some id =>
          let! rest := rebuildConditions reportDiff backReporting r ms in
          Ok (refreshManifestCondition reportDiff backReporting b id m :: rest)
      end
  | _, _ => Ok []
  end.

(** The Work with its new status, before it is trimmed. *)
Definition summarizedWork (work : Work) (bundles : list bundle) : outcome Work :=
  let! rebuilt := rebuildConditions (isReportDiff work) (isBackReporting work) bundles
                    (portedConditions bundles (wst_ManifestConditions (w_status work))) in
  let total := Z.of_nat (length bundles) in
  let applied := count (fun b => isManifestObjectApplied (bd_resTyp b)) bundles in
  let available := count (fun b => isAppliedObjectAvailable (bd_availability b)) bundles in
  let untrackable := count (fun b => bool_decide (bd_availability b = AvailabilityNotTrackable)) bundles in
  let reported := count (fun b => isManifestObjectDiffReported (bd_resTyp b)) bundles in
  if (total <? applied)%Z || (total <? available)%Z || (total <? untrackable)%Z || (total <? reported)%Z
  then Err (NewUnexpectedBehaviorError (ErrPlain "the number of applied manifests, available applied objects, untrackable applied objects, or diff reported objects exceeds the total number of manifests"))
  else
    let work := setWorkAppliedCondition work total applied in
    let work := setWorkAvailableCondition work total available untrackable in
    let work := setWorkDiffReportedCondition work total reported in
    Ok (set_w_status (mkWorkStatus (wst_Conditions (w_status work)) rebuilt) work).

Definition refreshedWork (work : Work) (bundles : list bundle) : outcome Work :=
  let! work := summarizedWork work bundles in
  match CalculateSizeDeltaOverLimitFor work DefaultObjSizeLimitWithPaddingBytes with
  | Err e => Err (NewUnexpectedBehaviorError (wrap_error "failed to check work object size before status update" e))
  | Panic p => Panic p
  | Ok delta =>
      let work := if (0 <? delta)%Z then trimWorkStatusDataWhenOversized work else work in
      Ok (setWorkStatusTrimmedCondition work delta DefaultObjSizeLimitWithPaddingBytes)
  end.

Context {W : Type} {AC : ApplierClient W}.

Definition refreshWorkStatus (work : Work) (bundles : list bundle) : hub W Work :=
  let* refreshed := hlift (refreshedWork work bundles) in
  let isDriftedOrDiffed := existsb (fun b => negb (bool_decide (bd_drifts b = [])) || negb (bool_decide (bd_diffs b = []))) bundles in
  if shouldSkipStatusUpdate isDriftedOrDiffed (isBackReporting work) (w_status work) (w_status refreshed) then hret refreshed
  else hmap_err (NewAPIServerError false) (hub_put_work_status refreshed).

Fixpoint appliedResources (bundles : list bundle) : outcome (list AppliedResourceMeta) :=
  match bundles with
  | [] => Ok []
  | b :: r =>
      if isManifestObjectApplied (bd_resTyp b) then
        match bd_id b, bd_inMemberClusterObj b with
        | Some id, Some o => let! rest := appliedResources r in Ok (mkAppliedResource id (GetUID o) :: rest)
        | _, _ => nil_dereference
        end
      else appliedResources r
  end.

Definition refreshAppliedWorkStatus (appliedWork : AppliedWork) (bundles : list bundle) : hub W unit :=
  let* resources := hlift (appliedResources bundles) in
  if decide (resources = aw_AppliedResources appliedWork) then hret tt
  else hmap_err (NewAPIServerError false) (spoke_put_applied_work_status (set_aw_resources resources appliedWork)).

End Status.
