(* ===== verification/ApplierPre.v ===== *)
(** * Preparing the manifests of a Work

    Models [pkg/controllers/workapplier/preprocess.go]: the manifests are
    decoded and checked for duplicates; then the attempt to process them is
    written to the status of the Work, before any of them is applied, and the
    objects that were applied for manifests that are gone are removed.
    [mapOrder] is the order in which the range loop visits the index of the
    existing manifest conditions, [aggregateMessage] the message of
    [utilerrors.NewAggregate]. *)

From stdpp Require Import prelude gmap strings.
From S2P Require Import Prelude K8s Api Sample Utils Defaulter FrameworkUtils Hub Overrider WorkApi ApplierApi RateLimiter ApplierQueue ApplierDiff Apply ApplierStatus.

Local Open Scope string_scope.
Local Open Scope list_scope.

Definition ManifestAppliedCondPreparingToProcessReason : string := "PreparingToProcess".
Definition ManifestAppliedCondPreparingToProcessMessage : string := "The manifest is being prepared for processing.".

(** [defaulter.SetDefaultsWork] *)
Definition SetDefaultsWork (w : Work) : Work :=
  set_w_strategy (Some (Defaulter.SetDefaultsApplyStrategy (default Defaulter.emptyApplyStrategy (w_strategy w)))) w.

Section Pre.
Context {K : K8sLib} {O : ObjectLib} {W : Type} {MC : MemberClient O W} {AC : ApplierClient W}.
Variable now : Z.
Variable mapOrder : forall A : Type, list (string * A) -> list (string * A).
Variable aggregateMessage : list string -> string.
Notation bundle := manifestProcessingBundle.

(** ** Decoding *)

(** What could be decoded comes with the error. *)
Definition decodeManifest (manifest : string) : GroupVersionResource * option Obj * option goerr :=
  match DecodeObject manifest with
  | Ok obj =>
      match RESTMapping (ObjectKind obj) with
      | Ok gvr => (gvr, Some obj, None)
      | Err e => (mkGVR EmptyString EmptyString EmptyString, Some obj,
                  Some (wrap_error "failed to find GVR from member cluster client REST mapping" e))
      | Panic p => (mkGVR EmptyString EmptyString EmptyString, Some obj, Some (ErrPlain p))
      end
  | Err e => (mkGVR EmptyString EmptyString EmptyString, None, Some (wrap_error "failed to unmarshal JSON" e))
  | Panic p => (mkGVR EmptyString EmptyString EmptyString, None, Some (ErrPlain p))
  end.

Definition buildWorkResourceIdentifier (manifestIdx : nat) (gvr : GroupVersionResource) (manifestObj : option Obj)
    : WorkResourceIdentifier :=
  match manifestObj with
  | None => mkWorkIdentifier (Z.of_nat manifestIdx) EmptyString EmptyString EmptyString (gvr_Resource gvr) EmptyString EmptyString
  | Some o =>
      mkWorkIdentifier (Z.of_nat manifestIdx) (gvk_Group (ObjectKind o)) (gvk_Version (ObjectKind o)) (GetKind o)
        (gvr_Resource gvr) (GetNamespace o) (GetName o)
  end.

Definition decodeBundle (idx : nat) (b : bundle) : bundle :=
  let '(gvr, manifestObj, err) := decodeManifest (bd_manifest b) in
  let id := buildWorkResourceIdentifier idx gvr manifestObj in
  let b := set_bd_decoded id b in
  match err, manifestObj with
  | None, Some o =>
      if negb (bool_decide (GetGenerateName o = EmptyString)) && bool_decide (GetName o = EmptyString)
      then fail_bundle FoundGenerateName (ErrPlain "objects with only generate name are not supported") b
      else
        let b := set_bd_object gvr o b in
        match formatWRIString id with Ok s => set_bd_wriStr s b | _ => b end
  | Some e, _ => fail_bundle DecodingErred (wrap_error "failed to decode manifest" e) b
  | None, None => b
  end.

(** The pieces are the bundles with their positions. *)
Definition decodeBundles (bundles : list bundle) : hub W (list bundle) :=
  let* decoded := parallelize (fun '(i, b) => hret (i, decodeBundle i b)) (imap pair bundles) in
  hret (snd <$> decoded).

(** ** Duplicates *)

Fixpoint checkForDuplicatedManifests (checked : list string) (bundles : list bundle) : list bundle :=
  match bundles with
  | [] => []
  | b :: r =>
      match bd_err b with
      | Some _ => b :: checkForDuplicatedManifests checked r
      | None =>
          if decide (bd_workResourceIdentifierStr b ∈ checked)
          then fail_bundle Duplicated (ErrPlain "a duplicate manifest has been found") b :: checkForDuplicatedManifests checked r
          else b :: checkForDuplicatedManifests (bd_workResourceIdentifierStr b :: checked) r
      end
  end.

(** ** Writing ahead *)

Fixpoint existingIndexFrom (idx : nat) (conds : list ManifestCondition) (m : gmap string nat) : gmap string nat :=
  match conds with
  | [] => m
  | c :: r =>
      existingIndexFrom (S idx) r
        match formatWRIString (mfc_Identifier c) with Ok s => <[s := idx]> m | _ => m end
  end.

Definition prepareExistingManifestCondQIdx (conds : list ManifestCondition) : gmap string nat := existingIndexFrom 0 conds ∅.

Definition preparingCondition (workGeneration : Z) : Condition :=
  mkCondition WorkConditionTypeApplied ConditionFalse workGeneration now
    ManifestAppliedCondPreparingToProcessReason ManifestAppliedCondPreparingToProcessMessage.

Definition prepareManifestCondForWriteAhead (wriStr : string) (wri : WorkResourceIdentifier) (workGeneration : Z)
    (existingIndex : gmap string nat) (existing : list ManifestCondition) : outcome ManifestCondition :=
  match existingIndex !! wriStr with
  | Some i => match existing !! i with Some c => Ok c | None => Panic "index out of range" end
  | None => Ok (mkManifestCondition wri [preparingCondition workGeneration] None None None)
  end.

Fixpoint conditionsForWriteAhead (work : Work) (bundles : list bundle) : outcome (list ManifestCondition) :=
  match bundles with
  | [] => Ok []
  | b :: r =>
      match bd_err b with
      | Some _ => conditionsForWriteAhead work r
      | None =>
          match bd_id b with
          | None => nil_dereference
          | Some id =>
              let existing := wst_ManifestConditions (w_status work) in
              let! c := prepareManifestCondForWriteAhead (bd_workResourceIdentifierStr b) id (w_generation work)
                          (prepareExistingManifestCondQIdx existing) existing in
              let! cs := conditionsForWriteAhead work r in
              Ok (c :: cs)
          end
      end
  end.

(** A manifest that may have been applied is left over. *)
Definition leftOver (manifestCondsForWAQIdx : gmap string nat) (existing : list ManifestCondition)
    (acc : list AppliedResourceMeta) (entry : string * nat) : outcome (list AppliedResourceMeta) :=
  match manifestCondsForWAQIdx !! entry.1 with
  | Some _ => Ok acc
  | None =>
      match existing !! entry.2 with
      | None => Panic "index out of range"
      | Some c =>
          match FindStatusCondition (mfc_Conditions c) WorkConditionTypeApplied with
          | None => nil_dereference
          | Some applied =>
              if bool_decide (cond_status applied = ConditionTrue) ||
                 bool_decide (cond_reason applied = ManifestAppliedCondPreparingToProcessReason)
              then Ok (acc ++ [mkAppliedResource (mfc_Identifier c) EmptyString]) else Ok acc
          end
      end
  end.

Definition findLeftOverManifests (manifestCondsForWA : list ManifestCondition) (existing : list ManifestCondition)
    : outcome (list AppliedResourceMeta) :=
  ofold (leftOver (prepareExistingManifestCondQIdx manifestCondsForWA) existing) []
    (mapOrder nat (map_to_list (prepareExistingManifestCondQIdx existing))).

(** ** Removing what is left over *)

Definition removeOwnerRef (obj : Obj) (expected : OwnerReference) : Obj :=
  SetOwnerReferences (List.filter (fun r => negb (areOwnerRefsEqual r expected)) (GetOwnerReferences obj)) obj.

Definition ignoreNotFound {A} (wrap : goerr -> goerr) (m : hub W A) : hub W unit := fun w =>
  match m w with
  | (w', Ok _) => (w', Ok tt)
  | (w', Err e) => (w', if has_reason NotFound e then Ok tt else Err (wrap e))
  | (w', Panic p) => (w', Panic p)
  end.

Definition identifierGVR (id : WorkResourceIdentifier) : GroupVersionResource :=
  mkGVR (wri_Group id) (wri_Version id) (wri_Resource id).

Definition removeOneLeftOverManifest (expected : OwnerReference) (leftOverManifest : AppliedResourceMeta) : hub W unit := fun w =>
  let id := arm_id leftOverManifest in
  let gvr := identifierGVR id in
  match member_get gvr (wri_Namespace id) (wri_Name id) w with
  | (w', Err e) =>
      (w', if has_reason NotFound e then Ok tt
           else Err (wrap_error "failed to retrieve the object from the member cluster" (NewAPIServerError false e)))
  | (w', Panic p) => (w', Panic p)
  | (w', Ok obj) =>
      match GetDeletionTimestamp obj with
      | Some _ => (w', Ok tt)
      | None =>
          if negb (isOwnedBy expected obj) then (w', Ok tt)
          else if (1 <? Z.of_nat (length (GetOwnerReferences obj)))%Z then
            ignoreNotFound (fun e => wrap_error "failed to drop the ownership of the object" (NewAPIServerError false e))
              (member_update gvr (wri_Namespace id) (removeOwnerRef obj expected)) w'
          else
            ignoreNotFound (fun e => wrap_error "failed to delete the object" (NewAPIServerError false e))
              (member_delete gvr (wri_Namespace id) (wri_Name id) (GetUID obj)) w'
      end
  end.

(** Each worker has its own slot for an error. *)
Definition removePiece (expected : OwnerReference) (piece : AppliedResourceMeta * option goerr)
    : hub W (AppliedResourceMeta * option goerr) := fun w =>
  match removeOneLeftOverManifest expected piece.1 w with
  | (w', Ok _) => (w', Ok piece)
  | (w', Err e) => (w', Ok (piece.1, Some (wrap_error "failed to remove the left-over manifest (regular object)" e)))
  | (w', Panic p) => (w', Panic p)
  end.

Definition removeLeftOverManifests (leftOverManifests : list AppliedResourceMeta) (expected : OwnerReference) : hub W unit :=
  let* done := parallelize (removePiece expected) ((fun m => (m, None)) <$> leftOverManifests) in
  match omap snd done with
  | [] => hret tt
  | errs => hlift (Err (ErrPlain (aggregateMessage (error_msg <$> errs))))
  end.

(** An attempt for this generation has been recorded. *)
Definition attemptRecorded (work : Work) : bool :=
  match FindStatusCondition (wst_Conditions (w_status work)) WorkConditionTypeApplied with
  | Some c => (cond_observed_generation c =? w_generation work)%Z
  | None => false
  end.

Definition writeAheadManifestProcessingAttempts (bundles : list bundle) (work : Work) (expected : OwnerReference) : hub W Work :=
  if attemptRecorded work then hret work
  else if isReportDiff work then hret work
  else
    let* manifestCondsForWA := hlift (conditionsForWriteAhead work bundles) in
    let* leftOverManifests := hlift (findLeftOverManifests manifestCondsForWA (wst_ManifestConditions (w_status work))) in
    let* _ := hmap_err (wrap_error "failed to remove left-over manifests") (removeLeftOverManifests leftOverManifests expected) in
    let work := set_w_status (mkWorkStatus (wst_Conditions (w_status work)) manifestCondsForWA) work in
    let* work := hmap_err (fun e => NewAPIServerError false (wrap_error "failed to write ahead manifest processing attempts" e))
                   (hub_put_work_status work) in
    hret (SetDefaultsWork work).

Definition preProcessManifests (bundles : list bundle) (work : Work) (expected : OwnerReference) : hub W (list bundle * Work) :=
  let* bundles := decodeBundles bundles in
  let bundles := checkForDuplicatedManifests [] bundles in
  let* work := writeAheadManifestProcessingAttempts bundles work expected in
  hret (bundles, work).

End Pre.
