(* ===== verification/Applier.v ===== *)
(** * The work applier

    Models [pkg/controllers/workapplier/controller.go]: the reconciliation of a
    Work object, its garbage collection, and the agent joining and leaving the
    fleet.  The reconciler's own memory, the rate limiter, the flag that it has
    joined and the priority queue, is part of the world; [now] is the time.
    The metrics are not modelled. *)

From Stdlib Require Import SpecFloat.
From stdpp Require Import prelude gmap strings.
From S2P Require Import Prelude K8s Api Sample Utils Defaulter FrameworkUtils Hub Overrider WorkApi WorkGen ApplierApi RateLimiter ApplierQueue ApplierDiff Apply ApplierProcess Availability ApplierStatus ApplierPre.

Local Open Scope string_scope.
Local Open Scope list_scope.

Class ApplierMemory (W : Type) : Type := {
  is_joined : W -> bool;
  set_joined : bool -> W -> W;
  limiter_of : W -> rateLimiter;
  set_limiter : rateLimiter -> W -> W;
  (** [PriorityQueue().AddWithOpts] *)
  queue_add : list enqueued -> W -> W;
}.

(** How the reconciler is configured. *)
Record applierConfig : Set := mkApplierConfig {
  ac_workNameSpace : string;
  ac_deletionWaitTime : Z;
  ac_usePriorityQueue : bool;
}.

Section Applier.
Context {K : K8sLib} {O : ObjectLib} {T : TypedViews O} {W : Type}.
Context {MC : MemberClient O W} {AC : ApplierClient W} {AM : ApplierMemory W}.
Variable int64_outside : spec_float -> Z.
Variable now : Z.
Variable mapOrder : forall A : Type, list (string * A) -> list (string * A).
Variable waveOrder : list bundleProcessingWave -> list bundleProcessingWave.
Variable aggregateMessage : list string -> string.
Context (config : applierConfig).

(** ** Applied works *)

Definition set_finalizers (f : ObjectMeta -> ObjectMeta) (work : Work) : Work := set_w_meta (f (w_meta work)) work.

Definition addWorkFinalizer (work : Work) : hub W Work :=
  if ContainsFinalizer (w_meta work) WorkFinalizer then hret work
  else hmap_err (NewAPIServerError false)
         (hub_put_work (set_finalizers (fun m => set_meta_finalizers (meta_finalizers m ++ [WorkFinalizer]) m) work)).

Definition ensureAppliedWork (work : Work) : hub W (Work * AppliedWork) :=
  let* work := addWorkFinalizer work in
  fun w =>
    match spoke_get_applied_work (w_name work) w with
    | (w', Ok appliedWork) => (w', Ok (work, appliedWork))
    | (w', Err e) =>
        if has_reason NotFound e then
          hmap_err (NewAPIServerError false)
            (let* appliedWork := spoke_create_applied_work
                (mkAppliedWork (w_name work) EmptyString None (w_name work) (meta_namespace (w_meta work)) []) in
             hret (work, appliedWork)) w'
        else (w', Err (NewAPIServerError true e))
    | (w', Panic p) => (w', Panic p)
    end.

(** ** Garbage collection *)

Definition forgetWorkAndRemoveFinalizer (work : Work) : hub W Result := fun w =>
  let w := set_limiter (Forget (limiter_of w) work) w in
  (let* _ := hmap_err (NewAPIServerError false)
               (hub_put_work (set_finalizers (fun m => RemoveFinalizer m WorkFinalizer) work)) in
   hret finished) w.

Definition unblock (appliedWorkOwnerRef r : OwnerReference) : OwnerReference :=
  if areOwnerRefsEqual r appliedWorkOwnerRef
  then mkOwnerReference (or_APIVersion r) (or_Kind r) (or_Name r) (or_UID r) (Some false) else r.

Definition updateOneOwnerReference (appliedWorkOwnerRef : OwnerReference) (cond : ManifestCondition) : hub W unit := fun w =>
  let res := mfc_Identifier cond in
  let gvr := identifierGVR res in
  match member_get gvr (wri_Namespace res) (wri_Name res) w with
  | (w', Ok obj) =>
      let ownerRefs := GetOwnerReferences obj in
      if (1 <? Z.of_nat (length ownerRefs))%Z && isOwnedBy appliedWorkOwnerRef obj then
        (let* _ := member_update gvr (GetNamespace obj) (SetOwnerReferences (unblock appliedWorkOwnerRef <$> ownerRefs) obj) in
         hret tt) w'
      else (w', Ok tt)
  | (w', Err e) => (w', if has_reason NotFound e then Ok tt else Err e)
  | (w', Panic p) => (w', Panic p)
  end.

Fixpoint updateOwnerReferencesOf (appliedWorkOwnerRef : OwnerReference) (conds : list ManifestCondition) : hub W unit :=
  match conds with
  | [] => hret tt
  | c :: r => let* _ := updateOneOwnerReference appliedWorkOwnerRef c in updateOwnerReferencesOf appliedWorkOwnerRef r
  end.

Definition updateOwnerReference (work : Work) (appliedWork : AppliedWork) : hub W unit := fun w =>
  match hub_get_work (meta_namespace (w_meta work)) (w_name work) w with
  | (w', Ok work) =>
      updateOwnerReferencesOf (mkOwnerReference GroupVersionString AppliedWorkKind (aw_Name appliedWork) (aw_UID appliedWork) None)
        (wst_ManifestConditions (w_status work)) w'
  | (w', Err e) => (w', if has_reason NotFound e then Ok tt else Err (NewAPIServerError false e))
  | (w', Panic p) => (w', Panic p)
  end.

Definition beingDeletedError (work : Work) : goerr :=
  ErrPlain ("AppliedWork " +:+ w_name work +:+ " is being deleted, waiting for the deletion to complete").

Definition isStuck (appliedWork : AppliedWork) : bool :=
  match aw_DeletionTimestamp appliedWork with
  | Some t => (ac_deletionWaitTime config <=? now - t)%Z
  | None => false
  end.

Definition deleteAppliedWork (work : Work) (appliedWork : AppliedWork) : hub W Result := fun w =>
  match spoke_delete_applied_work appliedWork w with
  | (w', Ok _) => (w', Err (beingDeletedError work))
  | (w', Err e) =>
      if has_reason NotFound e then forgetWorkAndRemoveFinalizer work w' else (w', Err (NewAPIServerError false e))
  | (w', Panic p) => (w', Panic p)
  end.

Definition garbageCollectAppliedWork (work : Work) : hub W Result :=
  if negb (ContainsFinalizer (w_meta work) WorkFinalizer) then hret finished
  else fun w =>
    match spoke_get_applied_work (w_name work) w with
    | (w', Err e) =>
        if has_reason NotFound e then forgetWorkAndRemoveFinalizer work w' else (w', Err (NewAPIServerError false e))
    | (w', Panic p) => (w', Panic p)
    | (w', Ok appliedWork) =>
        if isStuck appliedWork then
          (let* _ := hmap_err (NewAPIServerError false) (updateOwnerReference work appliedWork) in
           hlift (Err (beingDeletedError work))) w'
        else deleteAppliedWork work appliedWork w'
    end.

(** ** Reconciling *)

(** The delay, and who waits for it. *)
Definition requeueWork (work : Work) (bundles : list manifestProcessingBundle) : hub W Result := fun w =>
  let '(limiter, delay) := When int64_outside (limiter_of w) work bundles in
  let w := set_limiter limiter w in
  if ac_usePriorityQueue config then (queue_add (Requeue true work delay) w, Ok finished)
  else (w, Ok (mkResult false delay)).

Definition processWork (work : Work) (appliedWork : AppliedWork) : hub W Result :=
  let expected := expectedOwnerRef appliedWork in
  let work := SetDefaultsWork work in
  let bundles := prepareManifestProcessingBundles work in
  let* (bundles, work) := preProcessManifests now mapOrder aggregateMessage bundles work expected in
  let* bundles := processManifests (ac_workNameSpace config) waveOrder bundles work expected in
  let* bundles := trackInMemberClusterObjAvailability bundles in
  let* work := refreshWorkStatus now work bundles in
  let* _ := refreshAppliedWorkStatus appliedWork bundles in
  requeueWork work bundles.

Definition Reconcile (namespace name : string) : hub W Result := fun w =>
  if negb (is_joined w) then (w, Ok (mkResult false (seconds 5)))
  else match hub_get_work namespace name w with
  | (w', Err e) => (w', if has_reason NotFound e then Ok finished else Err (NewAPIServerError true e))
  | (w', Panic p) => (w', Panic p)
  | (w', Ok work) =>
      if being_deleted (w_meta work) then garbageCollectAppliedWork work w'
      else (let* (work, appliedWork) := ensureAppliedWork work in processWork work appliedWork) w'
  end.

(** ** Joining and leaving *)

Definition Join : W -> W := set_joined true.

Fixpoint stripFinalizers (works : list Work) : hub W unit :=
  match works with
  | [] => hret tt
  | work :: r =>
      let* _ :=
        if ContainsFinalizer (w_meta work) WorkFinalizer
        then (let* _ := hub_put_work (set_finalizers (fun m => RemoveFinalizer m WorkFinalizer) work) in hret tt)
        else hret tt in
      stripFinalizers r
  end.

Definition Leave : hub W unit := fun w =>
  match hub_list_member_works (ac_workNameSpace config) (set_joined false w) with
  | (w', Ok works) => stripFinalizers works w'
  | (w', Err e) => (w', if has_reason NotFound e then Ok tt else Err e)
  | (w', Panic p) => (w', Panic p)
  end.

End Applier.
