(* ===== verification/ApplierDiffProofs.v ===== *)
(** * Hashes and differences of manifests

    A manifest has the same hash before and after it is sanitized, so the hash
    that an apply operation records is the one that the next reconciliation
    computes; and the differences that are reported for a Secret do not contain
    its data. *)

From stdpp Require Import prelude gmap strings.
From S2P Require Import Prelude K8s Api Sample Utils FrameworkUtils Hub Overrider WorkApi ApplierApi ApplierDiff Apply.

Local Open Scope string_scope.
Local Open Scope list_scope.

Section Proofs.
Context {O : ObjectLib} {OL : ObjectLaws O}.

(** ** What is discarded *)

(** All the fields at once: the annotations and labels are given, the rest is reset. *)
Definition resetFields (a l : gmap string string) (o : Obj) : Obj :=
  setField FJobTemplateCreationTimestamp None (setField FTemplateCreationTimestamp None (setField FCreationTimestamp None
  (setField FStatus None (setField FUID EmptyString (setField FSelfLink EmptyString (setField FResourceVersion EmptyString
  (setField FGeneration 0%Z (setField FDeletionGracePeriodSeconds None (setField FDeletionTimestamp None
  (setField FOwnerReferences (Some []) (setField FManagedFields (Some []) (setField FFinalizers (Some [])
  (setField FLabels (Some l) (setField FAnnotations (Some a) (setField FGenerateName EmptyString
  (setField FNamespace EmptyString (setField FName EmptyString o))))))))))))))))).

Lemma discard_reset o :
  discardFieldsIrrelevantInComparisonFrom o = resetFields (cleaned (GetAnnotations o)) (cleaned (GetLabels o)) o.
Proof.
  unfold discardFieldsIrrelevantInComparisonFrom, resetFields, GetAnnotations, GetLabels.
  by rewrite !get_set_other by done.
Qed.

(** No field is left. *)
Lemma resetFields_set a l f v o : resetFields a l (setField f v o) = resetFields a l o.
Proof. unfold resetFields. destruct f; (repeat rewrite (set_comm _ _ _ v) by done); by rewrite set_set. Qed.

Lemma discard_set f v o :
  f <> FAnnotations -> f <> FLabels ->
  discardFieldsIrrelevantInComparisonFrom (setField f v o) = discardFieldsIrrelevantInComparisonFrom o.
Proof.
  intros Ha Hl. rewrite !discard_reset, resetFields_set. unfold GetAnnotations, GetLabels.
  by rewrite !get_set_other by done.
Qed.

Lemma discard_annotations a o :
  cleaned a = cleaned (GetAnnotations o) ->
  discardFieldsIrrelevantInComparisonFrom (SetAnnotations a o) = discardFieldsIrrelevantInComparisonFrom o.
Proof.
  intros Ha. unfold SetAnnotations. rewrite !discard_reset, resetFields_set. unfold GetAnnotations, GetLabels in *.
  by rewrite get_set, get_set_other, Ha by done.
Qed.

Lemma cleaned_delete k m : isReservedKey k = true -> cleaned (Some (delete k m)) = cleaned (Some m).
Proof. intros Hk. unfold cleaned. cbn. apply map_filter_delete_not. cbn. intros v _. by rewrite Hk. Qed.

Lemma cleaned_insert k v m : isReservedKey k = true -> cleaned (Some (<[k := v]> m)) = cleaned (Some m).
Proof.
  intros Hk. rewrite <- (cleaned_delete k (<[k := v]> m) Hk), delete_insert_eq. by apply cleaned_delete.
Qed.

Lemma sanitizeAnnotations_discard o :
  discardFieldsIrrelevantInComparisonFrom (sanitizeAnnotations o) = discardFieldsIrrelevantInComparisonFrom o.
Proof.
  unfold sanitizeAnnotations. destruct (GetAnnotations o) as [a|] eqn:E; [|done].
  set (a' := delete RevisionAnnotation _).
  assert (cleaned (Some a') = cleaned (Some a)) as Hc.
  { unfold a'. by rewrite !cleaned_delete by (by vm_compute). }
  apply discard_annotations. rewrite E, <- Hc. by case_decide as Hd; [rewrite Hd|].
Qed.

Lemma sanitize_discard o :
  discardFieldsIrrelevantInComparisonFrom (sanitizeManifestObject o) = discardFieldsIrrelevantInComparisonFrom o.
Proof. unfold sanitizeManifestObject. rewrite !discard_set by done. apply sanitizeAnnotations_discard. Qed.

(** ** The recorded hash *)

Definition recordedHash (o : Obj) : string := read_key (default ∅ (GetAnnotations o)) ManifestHashAnnotation.

Lemma setManifestHashAnnotation_spec o o' :
  setManifestHashAnnotation o = Ok o' -> manifestHash o = Ok (recordedHash o').
Proof.
  unfold setManifestHashAnnotation. intros (h & Hh & [= <-])%obind_Ok. unfold owrap in Hh.
  destruct (manifestHash o) as [h'| |]; [|done|done]. injection Hh as ->. f_equal.
  unfold recordedHash, SetAnnotations, GetAnnotations. rewrite get_set. cbn. unfold read_key. by rewrite lookup_insert_eq.
Qed.

(** The other annotations that are set do not change the recorded hash. *)
Lemma lastApplied_recordedHash o o' b : setFleetLastAppliedAnnotation o = Ok (o', b) -> recordedHash o' = recordedHash o.
Proof.
  unfold setFleetLastAppliedAnnotation. intros (j & _ & H)%obind_Ok. unfold recordedHash, SetAnnotations, GetAnnotations in *.
  destruct (AnnotationsFit _); injection H as <- _; rewrite get_set; cbn; unfold read_key;
    by rewrite ?lookup_insert_ne, lookup_delete_ne by (by vm_compute).
Qed.

Lemma prepareManifest_hash m live strategy expected o b :
  prepareManifest m live strategy expected = Ok (o, b) -> manifestHash m = Ok (recordedHash o).
Proof.
  unfold prepareManifest. intros (c & Hc & H)%obind_Ok. apply obind_Ok in H as (_ & _ & H).
  destruct (setManifestHashAnnotation _) as [c'| |] eqn:E; [|done|done]. injection Hc as ->.
  apply setManifestHashAnnotation_spec in E. unfold manifestHash in *. rewrite sanitize_discard in E. rewrite E. f_equal.
  assert (recordedHash (setOwnerRef c expected) = recordedHash c) as Hr.
  { unfold recordedHash, setOwnerRef, SetOwnerReferences, GetAnnotations. by rewrite get_set_other. }
  rewrite <- Hr. destruct (decide _).
  - destruct (setFleetLastAppliedAnnotation _) as [[o' b']| |] eqn:Ea; [|done|done]. injection H as <- _.
    symmetry. by apply lastApplied_recordedHash in Ea.
  - by injection H as <- _.
Qed.

(** C23: Drifts are looked for exactly when the manifest has not changed since it
    was applied: if the object that an apply operation submitted for a manifest
    is still live with the hash that was recorded on it, then under the
    IfNotDrifted option the next reconciliation of the same manifest runs the
    drift detection, although it hashes the manifest before it is sanitized and
    the apply operation after it, and for a manifest with another hash it does
    not. *)
Theorem drift_check_follows_manifest m live0 strategy expected submitted isSet live strategy' :
  prepareManifest m live0 strategy expected = Ok (submitted, isSet) ->
  recordedHash live = recordedHash submitted ->
  as_WhenToApply strategy' = WhenToApplyTypeIfNotDrifted ->
  shouldPerformPreApplyDriftDetection m (Some live) strategy' = Ok true /\
  forall m' h', manifestHash m' = Ok h' -> manifestHash m <> Ok h' ->
    shouldPerformPreApplyDriftDetection m' (Some live) strategy' = Ok false.
Proof.
  intros Hp Hlive Hs. apply prepareManifest_hash in Hp. unfold shouldPerformPreApplyDriftDetection.
  rewrite decide_True by done. fold (recordedHash live). rewrite Hlive. split.
  - rewrite Hp. cbn. by rewrite bool_decide_eq_true_2.
  - intros m' h' Hm' Hne. rewrite decide_True, Hm' by done. cbn. case_bool_decide as Hd; [|done]. by rewrite Hp, Hd in Hne.
Qed.

(** ** Secrets *)

(** What may be told about a value. *)
Definition withheld (v : string) : Prop := v = EmptyString \/ v = redacted.

Definition concealed (pd : PatchDetail) : Prop :=
  isSensitivePath (pd_Path pd) = true -> withheld (pd_ValueInMember pd) /\ withheld (pd_ValueInHub pd).

Lemma redact_withheld v : withheld (redact v).
Proof. unfold redact, withheld. case_decide; [by left|by right]. Qed.

Lemma obscureDetail_concealed pd : concealed (obscureDetail pd).
Proof.
  unfold concealed, obscureDetail. destruct (isSensitivePath (pd_Path pd)) eqn:E; cbn; [|by rewrite E].
  split; apply redact_withheld.
Qed.

Lemma preparePatchDetails_concealed src dest ds :
  isSecret src = true -> preparePatchDetails src dest = Ok ds -> Forall concealed ds.
Proof.
  intros Hs. unfold preparePatchDetails. intros (? & _ & (? & _ & (? & _ & (ds0 & _ & [= <-])%obind_Ok)%obind_Ok)%obind_Ok)%obind_Ok.
  unfold obscureSensitiveFieldsInPatchDetails. rewrite Hs. apply Forall_fmap, Forall_true. apply obscureDetail_concealed.
Qed.

Context {W : Type} {MC : MemberClient O W} {AC : ApplierClient W}.

(** C25: The data of a Secret does not leak: whichever way the differences
    between a manifest and the object in the member cluster are calculated, by
    a dry run, in full or in degraded mode, none of the values that are
    reported under the data of a Secret is anything but redacted or empty. *)
Theorem secret_data_concealed gvr manifestObj inMemberClusterObj cmpOption w w' ds degraded :
  (forall ns name o force w1 w2 o', member_apply gvr ns name o force true w1 = (w2, Ok o') -> isSecret o' = isSecret o) ->
  isSecret manifestObj = true ->
  diffBetweenManifestAndInMemberClusterObjects gvr manifestObj inMemberClusterObj cmpOption w = (w', Ok (ds, degraded)) ->
  Forall concealed ds.
Proof.
  intros Happly Hs. unfold diffBetweenManifestAndInMemberClusterObjects.
  destruct (decide _); [|destruct (decide _); [|done]].
  - unfold partialDiffBetweenManifestAndInMemberClusterObjects, applyInDryRunMode, serverSideApply. cbn [andb negb withLock].
    unfold withLock, keeping, hmap_err. cbn [andb].
    destruct (member_apply gvr _ _ _ _ true w) as [w1 [o|err|p]] eqn:E; [| |done].
    + intros [= _ H]. apply obind_Ok in H as (ds0 & Hds & [= <- _]).
      eapply preparePatchDetails_concealed; [|done]. by rewrite (Happly _ _ _ _ _ _ _ E).
    + destruct (has_reason Invalid _); [|done]. intros [= _ H]. apply obind_Ok in H as (ds0 & Hds & [= <- _]).
      by eapply preparePatchDetails_concealed.
  - intros [= _ H]. apply obind_Ok in H as (ds0 & Hds & [= <- _]). by eapply preparePatchDetails_concealed.
Qed.

End Proofs.
