(* ===== verification/ApplierStatusProofs.v ===== *)
(** * What the status of a Work says

    The conditions of a Work and of its manifests follow from the processing
    results, whatever was there before. *)

From stdpp Require Import prelude gmap strings.
From S2P Require Import Prelude K8s Api Sample Utils FrameworkUtils Hub Overrider WorkApi ApplierApi RateLimiter ApplierQueue ApplierStatus.

Local Open Scope string_scope.
Local Open Scope list_scope.

Section Proofs.
Context {K : K8sLib} {KL : K8sLaws K} {O : ObjectLib}.
Context (now : Z).
Notation bundle := manifestProcessingBundle.

(** ** Conditions *)

Definition holdsTrue (cs : list Condition) (t : string) (g : Z) : bool := IsConditionStatusTrue (FindStatusCondition cs t) g.

Definition saysTrue (c : option (ConditionStatus * string * string)) : bool :=
  match c with Some (ConditionTrue, _, _) => true | _ => false end.

Lemma holdsTrue_put cs t c g : holdsTrue (putCondition now cs t c g) t g = saysTrue c.
Proof.
  unfold holdsTrue, putCondition. destruct c as [[[s r] m]|]; cbn [saysTrue].
  - destruct (SetStatusCondition_same now cs (mkCondition t s g 0 r m)) as (c' & E & _ & Hs & Hg & _).
    cbn in E, Hs, Hg. rewrite E. cbn. rewrite Hs, Hg, Z.eqb_refl, andb_true_r. by destruct s.
  - by rewrite RemoveStatusCondition_same.
Qed.

Lemma holdsTrue_other cs t t' c g : t <> t' -> holdsTrue (putCondition now cs t' c g) t g = holdsTrue cs t g.
Proof.
  intros Ht. unfold holdsTrue, putCondition. destruct c as [[[s r] m]|].
  - by rewrite SetStatusCondition_other.
  - by rewrite RemoveStatusCondition_other.
Qed.

Definition workTrue (work : Work) (t : string) : bool := holdsTrue (wst_Conditions (w_status work)) t (w_generation work).

Lemma workTrue_put t c work : workTrue (putWorkCondition now t c work) t = saysTrue c.
Proof. unfold workTrue, putWorkCondition. apply holdsTrue_put. Qed.

Lemma workTrue_other t t' c work : t <> t' -> workTrue (putWorkCondition now t' c work) t = workTrue work t.
Proof. intros Ht. unfold workTrue, putWorkCondition. by apply holdsTrue_other. Qed.

(** ** Counting *)

Lemma count_le f (bs : list bundle) : (count f bs <= Z.of_nat (length bs))%Z.
Proof. unfold count. induction bs as [|b r IH]; cbn; [lia|]. destruct (f b); cbn in *; lia. Qed.

Lemma count_all f (bs : list bundle) : (count f bs =? Z.of_nat (length bs))%Z = forallb f bs.
Proof.
  induction bs as [|b r IH]; [done|]. pose proof (count_le f r) as Hle. unfold count in *. cbn [List.filter forallb length].
  destruct (f b); cbn [length andb].
  - rewrite <- IH. apply eq_true_iff_eq. rewrite !Z.eqb_eq. lia.
  - apply Z.eqb_neq. lia.
Qed.

(** ** The manifests *)

Lemma rebuiltConditions_spec rd br bs ported cs :
  length ported = length bs -> rebuildConditions now rd br bs ported = Ok cs ->
  length cs = length bs /\
  forall i b, bs !! i = Some b -> exists id m0, bd_id b = Some id /\ cs !! i = Some (refreshManifestCondition now rd br b id m0).
Proof.
  revert ported cs. induction bs as [|b r IH]; intros [|m ms] cs Hlen; try done; cbn [rebuildConditions].
  - intros [= <-]. split; [done|]. intros i b Hi. by rewrite lookup_nil in Hi.
  - destruct (bd_id b) as [id|] eqn:Eid; [|done]. intros (rest & Hr & [= <-])%obind_Ok.
    destruct (IH ms rest ltac:(by injection Hlen) Hr) as [Hl Hi]. split; [cbn; lia|].
    intros [|i] b' Hb'; cbn in Hb'; [|by apply Hi]. injection Hb' as <-. by exists id, m.
Qed.

Lemma rebuiltConditions_ok rd br bs ported :
  Forall (fun b => is_Some (bd_id b)) bs -> exists cs, rebuildConditions now rd br bs ported = Ok cs.
Proof.
  intros H. revert ported. induction H as [|b r [id Hid] _ IH]; intros [|m ms]; cbn; eauto.
  rewrite Hid. destruct (IH ms) as [cs ->]. cbn. eauto.
Qed.

Lemma portedConditions_length bs existing : length (portedConditions bs existing) = length bs.
Proof.
  unfold portedConditions. set (index := prepareRebuiltManifestCondQIdx bs).
  rewrite <- (length_replicate (length bs) emptyManifestCondition) at 2.
  generalize (replicate (length bs) emptyManifestCondition) as l.
  induction existing as [|c r IH]; intros l; cbn [fold_left]; [done|]. rewrite IH. unfold portBack.
  destruct (formatWRIString _) as [s| |]; [|done|done]. destruct (index !! s); [apply length_insert|done].
Qed.

Definition manifestTrue (m : ManifestCondition) (t : string) (g : Z) : bool := holdsTrue (mfc_Conditions m) t g.

Definition memberGeneration (b : bundle) : Z := from_option GetGeneration 0%Z (bd_inMemberClusterObj b).

Lemma backReportStatus_conditions o m : mfc_Conditions (backReportStatus now o m) = mfc_Conditions m.
Proof. unfold backReportStatus. by repeat case_match. Qed.

Lemma backReportStatus_identifier o m : mfc_Identifier (backReportStatus now o m) = mfc_Identifier m.
Proof. unfold backReportStatus. by repeat case_match. Qed.

(** The conditions of a manifest are those of its result. *)
Definition reflects (rd : bool) (b : bundle) (m : ManifestCondition) : Prop :=
  bd_id b = Some (mfc_Identifier m) /\
  manifestTrue m WorkConditionTypeApplied (memberGeneration b) = negb rd && isManifestObjectApplied (bd_resTyp b) /\
  manifestTrue m WorkConditionTypeAvailable (memberGeneration b) = saysTrue (manifestAvailableCondition (bd_availability b) (bd_availabilityErr b)) /\
  manifestTrue m WorkConditionTypeDiffReported (memberGeneration b) =
    rd && (isManifestObjectDiffReported (bd_resTyp b) || bool_decide (bd_resTyp b = FoundDiffInDegradedMode)).

Lemma applied_saysTrue rd t e : saysTrue (manifestAppliedCondition rd t e) = negb rd && isManifestObjectApplied t.
Proof. by destruct rd, t. Qed.

Lemma diffReported_saysTrue rd t e :
  saysTrue (manifestDiffReportedCondition rd t e) = rd && (isManifestObjectDiffReported t || bool_decide (t = FoundDiffInDegradedMode)).
Proof. by destruct rd, t. Qed.

Lemma refreshManifestCondition_reflects rd br b id m0 :
  bd_id b = Some id -> reflects rd b (refreshManifestCondition now rd br b id m0).
Proof.
  intros Hid. unfold reflects, manifestTrue, refreshManifestCondition. fold (memberGeneration b).
  set (m := refreshDiffs _ _ _).
  assert (forall x : bool, mfc_Conditions (if x then backReportStatus now (bd_inMemberClusterObj b) m else m) = mfc_Conditions m) as Ec.
  { intros []; [apply backReportStatus_conditions|done]. }
  assert (forall x : bool, mfc_Identifier (if x then backReportStatus now (bd_inMemberClusterObj b) m else m) = mfc_Identifier m) as Ei.
  { intros []; [apply backReportStatus_identifier|done]. }
  rewrite Ec, Ei. subst m. cbn [refreshDiffs refreshDrifts setManifestDiffReportedCondition setManifestAvailableCondition
    setManifestAppliedCondition set_mfc_conditions mfc_Conditions mfc_Identifier].
  split; [done|]. split; [|split].
  - rewrite !holdsTrue_other by done. rewrite holdsTrue_put. apply applied_saysTrue.
  - rewrite holdsTrue_other by done. apply holdsTrue_put.
  - rewrite holdsTrue_put. apply diffReported_saysTrue.
Qed.

(** ** The Work *)

Lemma setWorkApplied_true work total n :
  workTrue (setWorkAppliedCondition now work total n) WorkConditionTypeApplied = negb (isReportDiff work) && (n =? total)%Z.
Proof. unfold setWorkAppliedCondition. rewrite workTrue_put. by destruct (isReportDiff work), (n =? total)%Z. Qed.

Lemma setWorkAvailable_true work total n u :
  workTrue (setWorkAvailableCondition now work total n u) WorkConditionTypeAvailable =
  negb (isReportDiff work) && workTrue work WorkConditionTypeApplied && (n =? total)%Z.
Proof.
  unfold setWorkAvailableCondition. rewrite workTrue_put. unfold workTrue, holdsTrue.
  by destruct (isReportDiff work), (IsConditionStatusTrue _ _), (n =? total)%Z, (u =? 0)%Z.
Qed.

Lemma setWorkDiffReported_true work total n :
  workTrue (setWorkDiffReportedCondition now work total n) WorkConditionTypeDiffReported = isReportDiff work && (total =? n)%Z.
Proof. unfold setWorkDiffReportedCondition. rewrite workTrue_put. by destruct (isReportDiff work), (total =? n)%Z. Qed.

Definition allApplied (bs : list bundle) : bool := forallb (fun b => isManifestObjectApplied (bd_resTyp b)) bs.
Definition allAvailable (bs : list bundle) : bool := forallb (fun b => isAppliedObjectAvailable (bd_availability b)) bs.
Definition allDiffReported (bs : list bundle) : bool := forallb (fun b => isManifestObjectDiffReported (bd_resTyp b)) bs.

(** What the status of a Work says of its bundles. *)
Definition reports (rd : bool) (bs : list bundle) (work : Work) : Prop :=
  workTrue work WorkConditionTypeApplied = negb rd && allApplied bs /\
  workTrue work WorkConditionTypeAvailable = negb rd && allApplied bs && allAvailable bs /\
  workTrue work WorkConditionTypeDiffReported = rd && allDiffReported bs /\
  length (wst_ManifestConditions (w_status work)) = length bs /\
  forall i b m, bs !! i = Some b -> wst_ManifestConditions (w_status work) !! i = Some m -> reflects rd b m.

Lemma summarizedWork_reports work bs work' :
  summarizedWork now work bs = Ok work' -> reports (isReportDiff work) bs work'.
Proof.
  unfold summarizedWork. intros (cs & Hcs & H)%obind_Ok.
  destruct (_ || _) in H; [done|]. injection H as <-.
  destruct (rebuiltConditions_spec _ _ _ _ _ (portedConditions_length _ _) Hcs) as [Hl Hi].
  set (w1 := setWorkAppliedCondition now work _ _). set (w2 := setWorkAvailableCondition now w1 _ _ _).
  set (w3 := setWorkDiffReportedCondition now w2 _ _).
  assert (workTrue w1 WorkConditionTypeApplied = negb (isReportDiff work) && allApplied bs) as E1.
  { unfold w1. by rewrite setWorkApplied_true, count_all. }
  assert (isReportDiff w1 = isReportDiff work /\ isReportDiff w2 = isReportDiff work) as [R1 R2] by done.
  split; [|split; [|split; [|split]]].
  - change (workTrue w3 WorkConditionTypeApplied = negb (isReportDiff work) && allApplied bs).
    unfold w3, setWorkDiffReportedCondition. rewrite workTrue_other by done.
    unfold w2, setWorkAvailableCondition. by rewrite workTrue_other by done.
  - change (workTrue w3 WorkConditionTypeAvailable = negb (isReportDiff work) && allApplied bs && allAvailable bs).
    unfold w3, setWorkDiffReportedCondition. rewrite workTrue_other by done.
    unfold w2. rewrite setWorkAvailable_true, E1, R1, count_all. fold (allAvailable bs).
    by destruct (isReportDiff work), (allApplied bs).
  - change (workTrue w3 WorkConditionTypeDiffReported = isReportDiff work && allDiffReported bs).
    unfold w3. rewrite setWorkDiffReported_true, R2, Z.eqb_sym. by rewrite count_all.
  - done.
  - cbn. intros i b m Hb Hm. destruct (Hi i b Hb) as (id & m0 & Hid & Hc). rewrite Hc in Hm. injection Hm as <-.
    by apply refreshManifestCondition_reflects.
Qed.

Lemma summarizedWork_ok work bs : Forall (fun b => is_Some (bd_id b)) bs -> exists work', summarizedWork now work bs = Ok work'.
Proof.
  intros H. unfold summarizedWork.
  destruct (rebuiltConditions_ok (isReportDiff work) (isBackReporting work) bs (portedConditions bs (wst_ManifestConditions (w_status work))) H)
    as [cs ->].
  cbn. set (x := (_ || _)). assert (x = false) as ->; [|eauto].
  unfold x. rewrite !orb_false_iff, !Z.ltb_ge. split_and!; apply count_le.
Qed.

Lemma reports_trim rd bs work : reports rd bs work -> reports rd bs (trimWorkStatusDataWhenOversized work).
Proof.
  intros (H1 & H2 & H3 & H4 & H5). split; [done|]. split; [done|]. split; [done|]. cbn. rewrite length_fmap. split; [done|].
  intros i b m Hb Hm. apply list_lookup_fmap_Some in Hm as (m0 & -> & Hm0). exact (H5 i b m0 Hb Hm0).
Qed.

Lemma reports_trimmed rd bs work d l : reports rd bs work -> reports rd bs (setWorkStatusTrimmedCondition now work d l).
Proof.
  intros (H1 & H2 & H3 & H4 & H5). unfold reports, setWorkStatusTrimmedCondition. rewrite !workTrue_other by done. done.
Qed.


End Proofs.
