(* ===== verification/ApplierSafety.v ===== *)
(** * The work applier touches the objects it owns

    The calls of a reconciliation are observed, with the answers of the two API
    servers.  Every write to the member cluster is justified by what was read
    before it: an object is created where none was found, patched or applied
    where the [AppliedWork] of the Work owns it, in either case after the
    attempt has been announced in the status of the Work, updated only in its
    owner references, and deleted only as the sole owner; the finalizer of the
    Work goes once the [AppliedWork] is gone.  [triple] is a Hoare logic
    for computations that are observed; the facts it carries about the
    observations are kept as these grow. *)

From Stdlib Require Import SpecFloat.
From stdpp Require Import prelude gmap strings.
From S2P Require Import Prelude K8s Api Sample Utils Defaulter FrameworkUtils Hub Overrider WorkApi WorkGen ApplierApi RateLimiter ApplierQueue ApplierDiff Apply ApplierProcess Availability ApplierStatus ApplierPre Applier.

Local Open Scope string_scope.
Local Open Scope list_scope.

(** ** Observed calls *)

Inductive aevent {O : ObjectLib} : Type :=
| SawWork (w : Work)
| SawAppliedWork (a : AppliedWork)
| AppliedWorkGone (name : string)
| SawObject (gvr : GroupVersionResource) (ns name : string) (o : Obj)
| NoObject (gvr : GroupVersionResource) (ns name : string)
| WroteWork (w : Work)
| WroteStatus (w : Work)
| CreatedObject (gvr : GroupVersionResource) (ns : string) (o : Obj)
| UpdatedObject (gvr : GroupVersionResource) (ns : string) (o : Obj)
| PatchedObject (gvr : GroupVersionResource) (ns name : string)
| AppliedObject (gvr : GroupVersionResource) (ns name : string) (o : Obj)
| DeletedObject (gvr : GroupVersionResource) (ns name uid : string).

Section Traced.
Context {O : ObjectLib} {W : Type}.
Notation T := (W * list aevent)%type.

(** What an answer tells. *)
Definition told {A} (f : A -> list aevent) (gone : list aevent) (r : outcome A) : list aevent :=
  match r with Ok a => f a | Err e => if has_reason NotFound e then gone else [] | Panic _ => [] end.

Definition answered (gvr : GroupVersionResource) (o : Obj) : list aevent := [SawObject gvr (GetNamespace o) (GetName o) o].

#[export] Instance traced_member {MC : MemberClient O W} : MemberClient O T := {
  member_get gvr ns name := record (told (fun o => [SawObject gvr ns name o]) [NoObject gvr ns name]) (member_get gvr ns name);
  member_create gvr ns o := record (fun r => CreatedObject gvr ns o :: told (answered gvr) [] r) (member_create gvr ns o);
  member_update gvr ns o := record (fun r => UpdatedObject gvr ns o :: told (answered gvr) [] r) (member_update gvr ns o);
  member_patch gvr ns name p dry := record (fun r => if dry : bool then [] else PatchedObject gvr ns name :: told (answered gvr) [] r) (member_patch gvr ns name p dry);
  member_apply gvr ns name o force dry :=
    record (fun r => if dry : bool then [] else AppliedObject gvr ns name o :: told (answered gvr) [] r) (member_apply gvr ns name o force dry);
  member_delete gvr ns name uid := record (fun _ => [DeletedObject gvr ns name uid]) (member_delete gvr ns name uid);
}.

#[export] Instance traced_applier {AC : ApplierClient W} : ApplierClient T := {
  hub_get_work ns name := record (told (fun w => [SawWork w]) []) (hub_get_work ns name);
  hub_put_work x := record (fun r => WroteWork x :: told (fun w => [SawWork w]) [] r) (hub_put_work x);
  hub_put_work_status x := record (fun r => told (fun w => [WroteStatus x; SawWork w]) [] r) (hub_put_work_status x);
  hub_list_member_works ns := record (told (fun ws => SawWork <$> ws) []) (hub_list_member_works ns);
  spoke_get_applied_work name := record (told (fun a => [SawAppliedWork a]) [AppliedWorkGone name]) (spoke_get_applied_work name);
  spoke_create_applied_work a := record (told (fun a => [SawAppliedWork a]) []) (spoke_create_applied_work a);
  spoke_delete_applied_work a := record (told (fun _ => []) [AppliedWorkGone (aw_Name a)]) (spoke_delete_applied_work a);
  spoke_put_applied_work_status a := record (fun _ => []) (spoke_put_applied_work_status a);
  ctx_err w := ctx_err w.1;
}.

#[export] Instance traced_memory {AM : ApplierMemory W} : ApplierMemory T := {
  is_joined w := is_joined w.1;
  set_joined b w := (set_joined b w.1, w.2);
  limiter_of w := limiter_of w.1;
  set_limiter r w := (set_limiter r w.1, w.2);
  queue_add es w := (queue_add es w.1, w.2);
}.

End Traced.

#[global] Arguments record : simpl never.

(** The API servers answer for the object that was asked for. *)
Class ApplierLaws {O : ObjectLib} (W : Type) {MC : MemberClient O W} {AC : ApplierClient W} : Prop := {
  member_get_answer gvr ns name w o :
    (member_get gvr ns name w).2 = Ok o -> GetNamespace o = ns /\ GetName o = name;
  member_update_answer gvr ns o w o' :
    (member_update gvr ns o w).2 = Ok o' -> GetNamespace o' = GetNamespace o /\ GetName o' = GetName o;
  member_create_answer gvr ns o w o' :
    (member_create gvr ns o w).2 = Ok o' -> GetNamespace o' = GetNamespace o /\ GetName o' = GetName o;
  member_patch_answer gvr ns name p w o :
    (member_patch gvr ns name p false w).2 = Ok o -> GetNamespace o = ns /\ GetName o = name;
  member_apply_answer gvr ns name o force w o' :
    (member_apply gvr ns name o force false w).2 = Ok o' -> GetNamespace o' = ns /\ GetName o' = name;
  get_work_answer ns name w x : (hub_get_work ns name w).2 = Ok x -> workKey x = (ns, name);
  put_work_answer x w x' : (hub_put_work x w).2 = Ok x' -> workKey x' = workKey x;
  put_work_status_answer x w x' : (hub_put_work_status x w).2 = Ok x' -> workKey x' = workKey x;
  get_applied_work_answer name w a : (spoke_get_applied_work name w).2 = Ok a -> aw_Name a = name;
  create_applied_work_answer a w a' : (spoke_create_applied_work a w).2 = Ok a' -> aw_Name a' = aw_Name a;
}.

(** ** What justifies a write *)

Section Justified.
Context {K : K8sLib} {O : ObjectLib}.

(** A Work, and whether it allows its objects to have other owners. *)
Definition allowsCoOwnership (w : Work) : bool := from_option as_AllowCoOwnership false (w_strategy w).

Definition solelyOwned (o : Obj) : Prop := (length (GetOwnerReferences o) <= 1)%nat.

(** The update changes the owner references of an object that was read, to take
    it over, to give it up, or to stop blocking the deletion of its owner. *)
Definition ownersUpdate (expected : OwnerReference) (co : bool) (o o' : Obj) : Prop :=
  (isOwnedBy expected o = false /\ isOwnedByNewerKubeFleetAPIObjects (Some o) = false /\
   exists kept, kept ⊆ GetOwnerReferences o /\ o' = SetOwnerReferences (kept ++ [expected]) o /\
     (kept = [] \/ co = true) /\ isPlacedByFleetInDuplicate kept expected = false) \/
  (isOwnedBy expected o = true /\ (1 < length (GetOwnerReferences o))%nat /\
   (o' = removeOwnerRef o expected \/ exists ref, areOwnerRefsEqual ref expected = true /\
      o' = SetOwnerReferences (unblock ref <$> GetOwnerReferences o) o)).

(** Two identifiers of one manifest: the ordinals may differ. *)
Definition sameManifest (id id' : WorkResourceIdentifier) : Prop :=
  id = id' \/ exists s, formatWRIString id = Ok s /\ formatWRIString id' = Ok s.

(** The attempt to process a manifest is in the status of the Work: the status
    that was written lists the manifest, or the Work that was read says that
    its generation has been attempted. *)
Definition announced (ns name : string) (gvr : GroupVersionResource) (ns' name' : string) (before : list aevent) : Prop :=
  (exists x, SawWork x ∈ before /\ workKey x = (ns, name) /\ attemptRecorded x = true) \/
  (exists x c id, WroteStatus x ∈ before /\ workKey x = (ns, name) /\ c ∈ wst_ManifestConditions (w_status x) /\
     sameManifest (mfc_Identifier c) id /\ wri_Resource id = gvr_Resource gvr /\ wri_Namespace id = ns' /\ wri_Name id = name').

Definition justified (ns name : string) (before : list aevent) (e : aevent) : Prop :=
  let context P := exists a x, SawAppliedWork a ∈ before /\ aw_Name a = name /\ SawWork x ∈ before /\ workKey x = (ns, name) /\
    P (expectedOwnerRef a) x in
  let applying gvr ns' name' x := isReportDiff x = false /\ announced ns name gvr ns' name' before in
  match e with
  | CreatedObject gvr ns' o =>
      context (fun expected x => applying gvr ns' (GetName o) x /\
        NoObject gvr ns' (GetName o) ∈ before /\ GetOwnerReferences o = [expected])
  | UpdatedObject gvr ns' o' =>
      context (fun expected x => exists o, SawObject gvr ns' (GetName o') o ∈ before /\
        ownersUpdate expected (allowsCoOwnership x) o o')
  | PatchedObject gvr ns' name' | AppliedObject gvr ns' name' _ =>
      context (fun expected x => applying gvr ns' name' x /\
        exists o, SawObject gvr ns' name' o ∈ before /\ isOwnedBy expected o = true /\
          (allowsCoOwnership x = true \/ solelyOwned o) /\ isPlacedByFleetInDuplicate (GetOwnerReferences o) expected = false)
  | DeletedObject gvr ns' name' uid =>
      context (fun expected x => exists o, SawObject gvr ns' name' o ∈ before /\ GetUID o = uid /\
        isOwnedBy expected o = true /\ solelyOwned o)
  | WroteWork x => WorkFinalizer ∈ meta_finalizers (w_meta x) \/ AppliedWorkGone name ∈ before
  | _ => True
  end.

Definition justifiedTrace (ns name : string) (tr : list aevent) : Prop :=
  forall before e after, tr = before ++ e :: after -> justified ns name before e.

End Justified.

(** ** Reasoning about observed computations *)

Section Logic.
Context {K : K8sLib} {O : ObjectLib} {W : Type}.
Notation T := (W * list aevent)%type.
Context (ns name : string).
Notation jt := (justifiedTrace ns name).

Definition growing (P : list aevent -> Prop) : Prop := forall tr more, P tr -> P (tr ++ more).

Lemma growing_and P Q : growing P -> growing Q -> growing (fun tr => P tr /\ Q tr).
Proof. intros HP HQ tr more []. split; [by apply HP|by apply HQ]. Qed.

Lemma growing_elem e : growing (fun tr => e ∈ tr).
Proof. intros tr more H. by apply elem_of_app; left. Qed.

Lemma growing_const (P : Prop) : growing (fun _ => P).
Proof. by intros tr more H. Qed.

Lemma growing_announced gvr n m : growing (announced ns name gvr n m).
Proof.
  intros tr more [(x & Hx & H)|(x & c & id & Hx & H)]; [left; exists x|right; exists x, c, id]; (split; [by apply growing_elem|done]).
Qed.

Lemma jt_nil : jt [].
Proof. intros [] e after; discriminate. Qed.

Lemma jt_snoc tr e : jt tr -> justified ns name tr e -> jt (tr ++ [e]).
Proof.
  intros Ht He before e' after Heq. destruct after as [|a after _] using rev_ind.
  - apply app_inj_tail in Heq as [<- <-]. done.
  - rewrite app_comm_cons, app_assoc in Heq. apply app_inj_tail in Heq as [-> _]. by eapply Ht.
Qed.

(** Observations that need no justification. *)
Definition harmless (e : aevent) : Prop := forall before, justified ns name before e.

Lemma jt_harmless tr more : jt tr -> Forall harmless more -> jt (tr ++ more).
Proof.
  intros Ht Hm. revert tr Ht. induction Hm as [|e more He _ IH]; intros tr Ht; [by rewrite app_nil_r|].
  replace (tr ++ e :: more) with ((tr ++ [e]) ++ more) by (by rewrite <- app_assoc). apply IH. apply jt_snoc; [done|apply He].
Qed.

Definition answers {A} (P : list aevent -> Prop) (m : hub T A) (R : outcome A -> list aevent -> Prop) : Prop :=
  forall w, jt w.2 -> P w.2 -> jt (m w).1.2 /\ (exists more, (m w).1.2 = w.2 ++ more) /\ R (m w).2 (m w).1.2.

Definition triple {A} (P : list aevent -> Prop) (m : hub T A) (Q : A -> list aevent -> Prop) : Prop :=
  answers P m (fun r tr => forall a, r = Ok a -> Q a tr).

Lemma observed_ret {A} (P : list aevent -> Prop) (a : A) (Q : A -> list aevent -> Prop) : (forall tr, P tr -> Q a tr) -> triple P (hret a) Q.
Proof. intros H w Hj Hp. split; [done|]. split; [exists []; by rewrite app_nil_r|]. intros a' [= <-]. by apply H. Qed.

Lemma observed_lift {A} (P : list aevent -> Prop) (m : outcome A) (Q : A -> list aevent -> Prop) :
  (forall tr a, m = Ok a -> P tr -> Q a tr) -> triple P (hlift m) Q.
Proof. intros H w Hj Hp. split; [done|]. split; [exists []; by rewrite app_nil_r|]. intros a' Ha. by apply H. Qed.

Lemma observed_weaken {A} (P P' : list aevent -> Prop) (m : hub T A) (Q Q' : A -> list aevent -> Prop) :
  triple P' m Q' -> (forall tr, P tr -> P' tr) -> (forall a tr, Q' a tr -> Q a tr) -> triple P m Q.
Proof. intros H HP HQ w Hj Hp. destruct (H w Hj (HP _ Hp)) as (? & ? & Hq). split; [done|]. split; [done|]. eauto. Qed.

(** What does not depend on the observations. *)
Lemma observed_pure {A} (P : list aevent -> Prop) (F : Prop) (m : hub T A) (Q : A -> list aevent -> Prop) :
  (forall tr, P tr -> F) -> (F -> triple P m Q) -> triple P m Q.
Proof. intros HF H w Hj Hp. by apply H; [eapply HF|..]. Qed.

(** What was known stays known. *)
Lemma observed_frame {A} (P : list aevent -> Prop) (m : hub T A) (Q : A -> list aevent -> Prop) :
  growing P -> triple P m Q -> triple P m (fun a tr => P tr /\ Q a tr).
Proof.
  intros Hg H w Hj Hp. destruct (H w Hj Hp) as (? & [more E] & Hq). split; [done|]. split; [by exists more|].
  intros a Ha. split; [rewrite E; by apply Hg|by apply Hq].
Qed.

Lemma observed_bind {A B} (P : list aevent -> Prop) (m : hub T A) (R : A -> list aevent -> Prop) (f : A -> hub T B)
    (Q : B -> list aevent -> Prop) :
  growing P -> triple P m R -> (forall a, triple (fun tr => P tr /\ R a tr) (f a) Q) -> triple P (hbind f m) Q.
Proof.
  intros Hg Hm Hf w Hj Hp. unfold hbind. destruct (Hm w Hj Hp) as (Hj' & [more E] & Hr).
  destruct (m w) as [w' [a|e|p]]; cbn [fst snd] in *; [|by split; [done|]; split; [by exists more|]..].
  destruct (Hf a w' Hj') as (Hj'' & [more' E'] & Hq); [split; [rewrite E; by apply Hg|by apply Hr]|].
  split; [done|]. split; [|done]. exists (more ++ more'). by rewrite E', E, app_assoc.
Qed.

Lemma observed_seq {A B} (P : list aevent -> Prop) (m : hub T A) (f : A -> hub T B) (Q : B -> list aevent -> Prop) :
  growing P -> triple P m (fun _ _ => True) -> (forall a, triple P (f a) Q) -> triple P (hbind f m) Q.
Proof.
  intros Hg Hm Hf. eapply observed_bind; [done|exact Hm|]. intros a. eapply observed_weaken; [apply (Hf a)|by intros tr []|done].
Qed.

Lemma observed_map_err {A} P f (m : hub T A) Q : triple P m Q -> triple P (hmap_err f m) Q.
Proof.
  intros H w Hj Hp. unfold hmap_err. specialize (H w Hj Hp). destruct (m w) as [w' [a|e|p]]; cbn in *; [done| |done].
  destruct H as (? & ? & _). by split_and!.
Qed.

(** A [switch] on the error of a call. *)
Definition hcase {A B} (m : hub T A) (f : A -> hub T B) (g : goerr -> hub T B) : hub T B := fun w =>
  match m w with (w', Ok a) => f a w' | (w', Err e) => g e w' | (w', Panic p) => (w', Panic p) end.

Lemma observed_case {A B} (P : list aevent -> Prop) (m : hub T A) (R : outcome A -> list aevent -> Prop) (f : A -> hub T B)
    (g : goerr -> hub T B) (Q : B -> list aevent -> Prop) :
  growing P -> answers P m R -> (forall a, triple (fun tr => P tr /\ R (Ok a) tr) (f a) Q) ->
  (forall e, triple (fun tr => P tr /\ R (Err e) tr) (g e) Q) -> triple P (hcase m f g) Q.
Proof.
  intros Hg Hm Hf He w Hj Hp. unfold hcase. destruct (Hm w Hj Hp) as (Hj' & [more E] & Hr).
  destruct (m w) as [w' [a|e|p]]; cbn [fst snd] in *.
  - destruct (Hf a w' Hj') as (Hj'' & [more' E'] & Hq); [split; [rewrite E; by apply Hg|done]|].
    split; [done|]. split; [|done]. exists (more ++ more'). by rewrite E', E, app_assoc.
  - destruct (He e w' Hj') as (Hj'' & [more' E'] & Hq); [split; [rewrite E; by apply Hg|done]|].
    split; [done|]. split; [|done]. exists (more ++ more'). by rewrite E', E, app_assoc.
  - split; [done|]. split; [by exists more|done].
Qed.

(** A definition that is written as a [switch]. *)
Lemma observed_ext {A} P (m m' : hub T A) Q : (forall w, m w = m' w) -> triple P m' Q -> triple P m Q.
Proof. intros E H w Hj Hp. rewrite E. by apply H. Qed.

(** A call, by what it adds to the observations. *)
Lemma answers_record {A} (P : list aevent -> Prop) (f : outcome A -> list aevent) (m : hub W A) (R : outcome A -> list aevent -> Prop) :
  (forall w tr, jt tr -> P tr -> jt (tr ++ f (m w).2) /\ R (m w).2 (tr ++ f (m w).2)) ->
  answers P (record f m : hub T A) R.
Proof.
  intros H [w tr] Hj Hp. rewrite record_run. cbn in *. destruct (H w tr Hj Hp). split; [done|]. split; [by eexists|done].
Qed.

Lemma answers_triple {A} P (m : hub T A) R (Q : A -> list aevent -> Prop) :
  answers P m R -> (forall a tr, R (Ok a) tr -> Q a tr) -> triple P m Q.
Proof. intros H HQ w Hj Hp. destruct (H w Hj Hp) as (? & ? & Hr). split; [done|]. split; [done|]. intros a Ha. rewrite Ha in Hr. auto. Qed.

End Logic.
