(* ===== verification/ApplierOwns.v ===== *)
(** * Every write of the work applier is justified

    The steps of a reconciliation, one by one, against the justifications of
    [ApplierSafety]. *)

From Stdlib Require Import SpecFloat.
From stdpp Require Import prelude gmap strings.
From S2P Require Import Prelude K8s Api Sample Utils Defaulter FrameworkUtils Hub Overrider WorkApi WorkGen ApplierApi RateLimiter ApplierQueue ApplierDiff Apply ApplierProcess Availability ApplierStatus ApplierPre Applier ApplierDiffProofs ApplierSafety.

Local Open Scope string_scope.
Local Open Scope list_scope.

(** ** The object that is submitted *)

Section Submitted.
Context {O : ObjectLib} {OL : ObjectLaws O}.

(** The fields that identify an object. *)
Definition sameKey (o o' : Obj) : Prop := GetNamespace o = GetNamespace o' /\ GetName o = GetName o'.

Lemma set_sameKey f v o : f <> FNamespace -> f <> FName -> sameKey (setField f v o) o.
Proof. intros. unfold sameKey, GetNamespace, GetName. by rewrite !get_set_other. Qed.

Lemma sameKey_trans o1 o2 o3 : sameKey o1 o2 -> sameKey o2 o3 -> sameKey o1 o3.
Proof. unfold sameKey. intuition congruence. Qed.

Lemma sanitize_sameKey o : sameKey (sanitizeManifestObject o) o.
Proof.
  unfold sanitizeManifestObject. repeat (eapply sameKey_trans; [by apply set_sameKey|]).
  unfold sanitizeAnnotations. destruct (GetAnnotations o); [by apply set_sameKey|done].
Qed.

Lemma sanitize_owners o : GetOwnerReferences (sanitizeManifestObject o) = [].
Proof.
  unfold sanitizeManifestObject, GetOwnerReferences. rewrite !(get_set_other FOwnerReferences) by done. by rewrite get_set.
Qed.

Lemma setAnnotations_sameKey a o : sameKey (SetAnnotations a o) o.
Proof. by apply set_sameKey. Qed.

Lemma setAnnotations_owners a o : GetOwnerReferences (SetAnnotations a o) = GetOwnerReferences o.
Proof. unfold GetOwnerReferences, SetAnnotations. by rewrite get_set_other. Qed.

Lemma lastApplied_submitted o o' b :
  setFleetLastAppliedAnnotation o = Ok (o', b) -> sameKey o' o /\ GetOwnerReferences o' = GetOwnerReferences o.
Proof.
  unfold setFleetLastAppliedAnnotation. intros (j & _ & H)%obind_Ok.
  destruct (AnnotationsFit _); injection H as <- _; (split; [|by rewrite !setAnnotations_owners]);
    eapply sameKey_trans; apply setAnnotations_sameKey.
Qed.

Lemma prepareManifest_submitted m live strategy expected o b :
  prepareManifest m live strategy expected = Ok (o, b) ->
  sameKey o m /\ GetOwnerReferences o = [expected] /\ validateOwnerReferences m live strategy expected = Ok tt.
Proof.
  unfold prepareManifest. intros (c & Hc & H)%obind_Ok. apply obind_Ok in H as ([] & Hv & H).
  destruct (setManifestHashAnnotation _) as [c'| |] eqn:E; [|done|done]. injection Hc as ->.
  apply obind_Ok in E as (h & _ & [= <-]).
  set (c := SetAnnotations _ (sanitizeManifestObject m)) in *.
  assert (sameKey c m) as Hk by (eapply sameKey_trans; [apply setAnnotations_sameKey|apply sanitize_sameKey]).
  assert (sameKey (setOwnerRef c expected) m) as Hk' by (eapply sameKey_trans; [by apply set_sameKey|done]).
  assert (GetOwnerReferences (setOwnerRef c expected) = [expected]) as Ho.
  { unfold setOwnerRef. assert (GetOwnerReferences c = []) as ->.
    { unfold c. by rewrite setAnnotations_owners, sanitize_owners. }
    unfold GetOwnerReferences, SetOwnerReferences. by rewrite get_set. }
  assert (validateOwnerReferences m live strategy expected = Ok tt) as Hv'.
  { destruct (validateOwnerReferences _ _ _ _) as [[]| |]; done. }
  destruct (decide _).
  - destruct (setFleetLastAppliedAnnotation _) as [[o' b']| |] eqn:Ea; [|done|done]. injection H as <- _.
    apply lastApplied_submitted in Ea as [Hk2 Ho2]. split; [by eapply sameKey_trans|]. split; [congruence|done].
  - injection H as <- _. done.
Qed.

(** What a validated live object is. *)
Lemma validate_live m live strategy expected :
  validateOwnerReferences m (Some live) strategy expected = Ok tt ->
  isOwnedBy expected live = true /\ (as_AllowCoOwnership strategy = true \/ solelyOwned live) /\
  isPlacedByFleetInDuplicate (GetOwnerReferences live) expected = false.
Proof.
  unfold validateOwnerReferences, solelyOwned. destruct (_ && _); [done|]. destruct (existsb _ _); [done|].
  destruct (_ && _) eqn:Ec; [done|]. destruct (isOwnedBy expected live); [|done]. cbn [negb].
  destruct (isPlacedByFleetInDuplicate _ _); [done|]. intros _. split; [done|]. split; [|done].
  destruct (as_AllowCoOwnership strategy); [by left|right]. rewrite andb_true_r in Ec. apply Z.ltb_ge in Ec. lia.
Qed.

End Submitted.

(** Facts about observations, by their shape. *)
Ltac head t := lazymatch t with ?f _ => head f | _ => t end.

Ltac grow :=
  repeat match goal with
  | |- growing (fun _ => _ /\ _) => apply growing_and
  | |- growing (fun _ => _ ∈ _) => apply growing_elem
  | |- growing (fun tr => ?P) => apply growing_const
  | |- growing (fun tr => ?Q tr) => progress change (growing Q)
  | |- growing (elem_of _) => apply growing_elem
  | |- growing (announced _ _ _ _ _) => apply growing_announced
  | |- growing ?P => first [assumption | let h := head P in unfold h; cbv beta]
  end.

Section Calls.
Context {K : K8sLib} {O : ObjectLib} {OL : ObjectLaws O} {W : Type} {MC : MemberClient O W} {AC : ApplierClient W} {L : ApplierLaws W}.
Notation T := (W * list aevent)%type.
Context (ns name : string).
Notation bundle := manifestProcessingBundle.
Notation triple := (triple ns name).
Notation answers := (answers ns name).
Notation jt := (justifiedTrace ns name).

(** ** Calls *)

Lemma harmless_told {A} f gone (r : outcome A) :
  (forall v, Forall (harmless ns name) (f v)) -> Forall (harmless ns name) gone -> Forall (harmless ns name) (told f gone r).
Proof. intros Hf Hg. destruct r; cbn; [done|by destruct (has_reason NotFound e)|done]. Qed.

Lemma get_answers P gvr n m :
  answers P (member_get gvr n m : hub T Obj)
    (fun r tr => match r with
                 | Ok o => SawObject gvr n m o ∈ tr /\ GetNamespace o = n /\ GetName o = m
                 | Err e => has_reason NotFound e = true -> NoObject gvr n m ∈ tr
                 | Panic _ => True
                 end).
Proof.
  apply answers_record. intros w tr Hj _. split.
  - apply jt_harmless; [done|]. apply harmless_told; repeat constructor; intros ? ?; done.
  - destruct (member_get gvr n m w).2 as [o|e|p] eqn:E; cbn; [| |done].
    + split; [set_solver|]. by apply member_get_answer in E.
    + intros ->. set_solver.
Qed.

Lemma dryApply_triple P gvr n m o force : triple P (member_apply gvr n m o force true : hub T Obj) (fun _ _ => True).
Proof.
  eapply answers_triple; [apply (answers_record _ _ _ _ _ (fun _ _ => True))|done].
  intros w tr Hj _. by rewrite app_nil_r.
Qed.

(** A write that is justified. *)
Lemma write_triple {A} (P : list aevent -> Prop) e (f : outcome A -> list aevent) (m : hub W A) :
  (forall tr, P tr -> justified ns name tr e) -> (forall r, Forall (harmless ns name) (f r)) ->
  answers P (record (fun r => e :: f r) m : hub T A) (fun r tr => exists w, r = (m w).2 /\ forall e', e' ∈ f r -> e' ∈ tr).
Proof.
  intros He Hf. apply answers_record. intros w tr Hj Hp. split.
  - replace (tr ++ e :: f (m w).2) with ((tr ++ [e]) ++ f (m w).2) by (by rewrite <- app_assoc).
    apply jt_harmless; [|apply Hf]. apply jt_snoc; [done|by apply He].
  - exists w. split; [done|]. set_solver.
Qed.

Lemma serverSideApply_dry P gvr m o : triple P (applyInDryRunMode (W := T) gvr m o) (fun _ _ => True).
Proof.
  intros w Hj Hp. unfold applyInDryRunMode, serverSideApply, withLock, keeping. cbn [andb negb].
  pose proof (observed_map_err ns name P (wrap_error "failed to apply the manifest object: an error is returned by the API server") _ _
    (dryApply_triple P gvr (GetNamespace m) (GetName m) m (true || shouldUseForcedServerSideApply o)) w Hj Hp) as H.
  by destruct (hmap_err _ _ w) as [w' r].
Qed.

Lemma diff_triple P gvr m o cmp :
  growing P -> triple P (diffBetweenManifestAndInMemberClusterObjects (W := T) gvr m o cmp) (fun _ _ => True).
Proof.
  intros Hg. unfold diffBetweenManifestAndInMemberClusterObjects.
  destruct (decide _); [|destruct (decide _); by apply observed_lift].
  unfold partialDiffBetweenManifestAndInMemberClusterObjects.
  eapply (observed_case ns name P _ (fun _ _ => True) (fun appliedObj => hlift _) (fun e => hlift _)); [done| | |].
  - intros w Hj Hp. destruct (serverSideApply_dry P gvr m o w Hj Hp) as (? & ? & _). done.
  - intros. by apply observed_lift.
  - intros. by apply observed_lift.
Qed.

Lemma answered_harmless gvr (r : outcome Obj) : Forall (harmless ns name) (told (answered gvr) [] r).
Proof. apply harmless_told; [|constructor]. intros v. repeat constructor. Qed.

(** The answer to a write was seen, at the key that was written. *)
Definition seenAt (gvr : GroupVersionResource) (n m : string) (o : Obj) (tr : list aevent) : Prop :=
  SawObject gvr n m o ∈ tr /\ GetNamespace o = n /\ GetName o = m.

Lemma answered_triple (P : list aevent -> Prop) e gvr n m (c : hub W Obj) :
  (forall tr, P tr -> justified ns name tr e) ->
  (forall w o, (c w).2 = Ok o -> GetNamespace o = n /\ GetName o = m) ->
  triple P (record (fun r => e :: told (answered gvr) [] r) c : hub T Obj) (seenAt gvr n m).
Proof.
  intros He Hc. eapply answers_triple; [apply write_triple; [done|intros; apply answered_harmless]|].
  intros o tr (w & Hw & Hin). destruct (Hc w o (eq_sym Hw)) as [E1 E2]. split; [|done].
  apply Hin. cbn. unfold answered. rewrite E1, E2. set_solver.
Qed.

Lemma withLock_triple {A} lock m o (k : Obj -> Obj -> hub T A) P Q w :
  (forall m' o', sameKey m' m -> triple P (k m' o') Q) -> jt w.2 -> P w.2 ->
  let '(w', (_, r)) := withLock lock m o k w in
  jt w'.2 /\ (exists more, w'.2 = w.2 ++ more) /\ forall v, r = Ok v -> Q v w'.2.
Proof.
  intros Hk Hj Hp. unfold withLock, lockVersion, keeping.
  destruct lock; [destruct (decide _)|].
  - cbn. split; [done|]. split; [exists []; by rewrite app_nil_r|done].
  - assert (sameKey (SetResourceVersion (GetResourceVersion o) m) m) as Hs by (by apply set_sameKey).
    pose proof (Hk _ (SetResourceVersion EmptyString o) Hs w Hj Hp). by destruct (k _ _ w).
  - pose proof (Hk m o (conj eq_refl eq_refl) w Hj Hp). by destruct (k _ _ w).
Qed.

Lemma getWork_harmless P n m : triple P (hub_get_work n m : hub T Work) (fun _ _ => True).
Proof.
  eapply answers_triple; [apply (answers_record _ _ _ _ _ (fun _ _ => True))|done].
  intros w tr Hj _. split; [|done]. apply jt_harmless; [done|]. apply harmless_told; repeat constructor.
Qed.

Lemma observed_answers {A} P (m : hub T A) Q : triple P m Q -> answers P m (fun _ _ => True).
Proof. intros H w Hj Hp. by destruct (H w Hj Hp) as (? & ? & _). Qed.

Lemma keepsOwnerRef_triple P n r : growing P -> triple P (keepsOwnerRef (W := T) n r) (fun _ _ => True).
Proof.
  intros Hg. unfold keepsOwnerRef. destruct (_ && _); [by apply (observed_ret _ _ P true)|].
  eapply (observed_case ns name P _ (fun _ _ => True) (fun _ => hret true) (fun e => hlift _)); [done| | |].
  - eapply observed_answers, getWork_harmless.
  - intros. by apply observed_ret.
  - intros. by apply observed_lift.
Qed.

Lemma leftBehind_triple P n refs :
  growing P -> triple P (removeLeftBehindAppliedWorkOwnerRefs (W := T) n refs) (fun kept _ => kept ⊆ refs).
Proof.
  intros Hg. induction refs as [|r refs IH]; [by apply observed_ret|].
  eapply (observed_bind _ _ _ _ (fun _ _ => True)); [done|by apply keepsOwnerRef_triple|]. intros keep.
  eapply observed_bind; [grow| |].
  - eapply observed_weaken; [exact IH|by intros tr []|intros kept tr H; exact H].
  - intros kept. apply observed_ret. intros tr [_ Hk]. destruct keep; set_solver.
Qed.

Lemma deref_triple {A B} P (o : option A) (k : A -> hub T B) Q :
  (forall v, o = Some v -> triple P (k v) Q) -> triple P (deref o k) Q.
Proof. intros H. destruct o as [v|]; [by apply H|by apply observed_lift]. Qed.

Lemma recording_triple {A} P (m : hub T A) R onErr onOk (Q : bundle * bool -> list aevent -> Prop) :
  growing P -> triple P m R -> (forall v tr, P tr -> R v tr -> Q (onOk v) tr) ->
  (forall e tr, Q (onErr e, true) tr) -> triple P (recording m onErr onOk) Q.
Proof.
  intros Hg Hm Hok Herr.
  eapply (observed_case ns name P m (fun r tr => forall v, r = Ok v -> R v tr) (fun v => hret (onOk v)) (fun e => hret (onErr e, true)));
    [done|exact Hm| |].
  - intros v. apply observed_ret. intros tr [Hp Hr]. by apply Hok; [|apply Hr].
  - intros e. apply observed_ret. auto.
Qed.

Lemma unlessCancelled_triple {A} P (f : A -> hub T A) v Q :
  triple P (f v) Q -> (forall tr, P tr -> Q v tr) -> triple P (unlessCancelled f v) Q.
Proof.
  intros H HQ w Hj Hp. unfold unlessCancelled. destruct (ctx_err w); [|by apply H].
  by apply (observed_ret ns name P v Q HQ).
Qed.

Lemma parallelize_triple {A} (P : list aevent -> Prop) (Qi Q : A -> list aevent -> Prop) (f : A -> hub T A) vs :
  growing P -> (forall v, growing (Qi v)) -> (forall v, growing (Q v)) -> (forall v tr, Qi v tr -> Q v tr) ->
  (forall v, triple (fun tr => P tr /\ Qi v tr) (f v) Q) ->
  triple (fun tr => P tr /\ Forall (fun v => Qi v tr) vs) (parallelize f vs) (fun vs' tr => Forall (fun v => Q v tr) vs').
Proof.
  intros Hg HgI HgQ HQ Hf. assert (forall l, growing (fun tr => Forall (fun v => Qi v tr) l)) as HgF.
  { intros l tr more H. eapply Forall_impl; [exact H|]. intros v Hv. by apply HgI. }
  induction vs as [|v vs IH]; [by apply observed_ret; intros|]. cbn [parallelize].
  eapply (observed_bind _ _ _ _ Q); [apply growing_and; auto| |].
  - apply unlessCancelled_triple; [|intros tr [_ [H _]%Forall_cons]; auto].
    eapply observed_weaken; [apply (Hf v)| |done]. by intros tr [? [? ?]%Forall_cons].
  - intros v'. eapply (observed_bind _ _ _ _ (fun vs' tr => Forall (fun u => Q u tr) vs')); [repeat apply growing_and; auto| |].
    + eapply observed_weaken; [exact IH| |done]. by intros tr [[? [? ?]%Forall_cons] _].
    + intros vs'. apply observed_ret. intros tr [[_ H1] H2]. by constructor.
Qed.

Lemma checkContext_triple P what : triple P (checkContext (W := T) what) (fun _ _ => True).
Proof. intros w Hj Hp. split; [done|]. split; [exists []; by rewrite app_nil_r|done]. Qed.

End Calls.

Section Owns.
Context {K : K8sLib} {O : ObjectLib} {OL : ObjectLaws O} {W : Type} {MC : MemberClient O W} {AC : ApplierClient W} {L : ApplierLaws W}.
Notation T := (W * list aevent)%type.
Context (ns name : string) (a : AppliedWork) (x : Work).
Hypothesis a_name : aw_Name a = name.
Hypothesis x_key : workKey x = (ns, name).
Notation expected := (expectedOwnerRef a).
Notation bundle := manifestProcessingBundle.
Notation triple := (triple ns name).
Notation answers := (answers ns name).
Notation jt := (justifiedTrace ns name).

(** The Work and its [AppliedWork] have been seen. *)
Definition Known (tr : list aevent) : Prop := SawAppliedWork a ∈ tr /\ SawWork x ∈ tr.

(** ** Justified writes *)

(** A live object that Fleet may write to. *)
Definition writable (co : bool) (live : Obj) : Prop :=
  isOwnedBy expected live = true /\ (co = true \/ solelyOwned live) /\
  isPlacedByFleetInDuplicate (GetOwnerReferences live) expected = false.

(** The Work applies objects, and the attempt has been announced. *)
Definition Applies (gvr : GroupVersionResource) (n m : string) (tr : list aevent) : Prop :=
  Known tr /\ isReportDiff x = false /\ announced ns name gvr n m tr.

Definition Writes (gvr : GroupVersionResource) (n m : string) (live : Obj) (tr : list aevent) : Prop :=
  Applies gvr n m tr /\ SawObject gvr n m live ∈ tr /\ writable (allowsCoOwnership x) live.

Lemma writes_justified e gvr n m live tr :
  Writes gvr n m live tr -> e = PatchedObject gvr n m \/ (exists o, e = AppliedObject gvr n m o) -> justified ns name tr e.
Proof.
  intros (([Ha Hx] & Happ) & Hs & Hw) [->|[o ->]]; exists a, x; (do 5 (split; [done|])); by exists live.
Qed.

Lemma create_triple gvr o :
  GetOwnerReferences o = [expected] ->
  triple (fun tr => Applies gvr (GetNamespace o) (GetName o) tr /\ NoObject gvr (GetNamespace o) (GetName o) ∈ tr) (createManifestObject (W := T) gvr o)
    (seenAt gvr (GetNamespace o) (GetName o)).
Proof.
  intros Ho. apply observed_map_err. apply answered_triple.
  - intros tr [[[Ha Hx] Happ] Hn]. exists a, x. by repeat (split; [done|]).
  - intros w o' H. by apply member_create_answer in H.
Qed.

Lemma patch_triple gvr m o live lock w :
  jt w.2 -> Writes gvr (GetNamespace m) (GetName m) live w.2 ->
  let '(w', (_, r)) := threeWayMergePatch gvr m o lock false w in
  jt w'.2 /\ (exists more, w'.2 = w.2 ++ more) /\ forall v, r = Ok v -> seenAt gvr (GetNamespace m) (GetName m) v w'.2.
Proof.
  intros Hj Hp. unfold threeWayMergePatch. eapply withLock_triple; [|done|exact Hp].
  intros m' o' [E1 E2]. eapply (observed_bind _ _ _ _ (fun _ _ => True)); [grow|by apply observed_lift|].
  intros p. apply observed_map_err. rewrite E1, E2. apply answered_triple.
  - intros tr [Hw _]. eapply writes_justified; [done|by left].
  - intros w' v H. by apply member_patch_answer in H.
Qed.

Lemma apply_triple gvr m o live force lock w :
  jt w.2 -> Writes gvr (GetNamespace m) (GetName m) live w.2 ->
  let '(w', (_, r)) := serverSideApply gvr m o force lock false w in
  jt w'.2 /\ (exists more, w'.2 = w.2 ++ more) /\ forall v, r = Ok v -> seenAt gvr (GetNamespace m) (GetName m) v w'.2.
Proof.
  intros Hj Hp. unfold serverSideApply. eapply withLock_triple; [|done|exact Hp].
  intros m' o' [E1 E2]. apply observed_map_err. rewrite E1, E2. apply answered_triple.
  - intros tr Hw. eapply writes_justified; [done|right; eauto].
  - intros w' v H. by apply member_apply_answer in H.
Qed.

(** ** Taking over *)

Context (strategy : ApplyStrategy).
Hypothesis co : as_AllowCoOwnership strategy = allowsCoOwnership x.
Hypothesis reports : isReportDiff x = bool_decide (as_Type strategy = ApplyStrategyTypeReportDiff).

Definition TakesOver (gvr : GroupVersionResource) (n m : string) (live : Obj) (tr : list aevent) : Prop :=
  Known tr /\ seenAt gvr n m live tr /\ isOwnedBy expected live = false /\ isOwnedByNewerKubeFleetAPIObjects (Some live) = false.

Lemma takeOverUpdate_triple gvr n m live kept :
  kept ⊆ GetOwnerReferences live -> kept = [] \/ as_AllowCoOwnership strategy = true ->
  isPlacedByFleetInDuplicate kept expected = false ->
  let copy := SetOwnerReferences (kept ++ [expected]) live in
  triple (TakesOver gvr n m live) (member_update gvr (GetNamespace copy) copy : hub T Obj) (seenAt gvr n m).
Proof.
  intros Hk Hco Hd copy. assert (sameKey copy live) as [E1 E2] by (by apply set_sameKey). rewrite E1.
  eapply observed_weaken with (P' := fun tr => TakesOver gvr n m live tr /\ (GetNamespace live = n /\ GetName live = m));
    [|intros tr H; split; [done|apply H]|intros o tr H; exact H].
  intros w Hj [Hp [<- <-]]. revert w Hj Hp. apply answered_triple.
  - intros tr ([Ha Hx] & [Hs _] & Hno & Hnew). exists a, x. do 4 (split; [done|]). exists live. rewrite E2. split; [done|].
    left. do 2 (split; [done|]). exists kept. rewrite <- co. done.
  - intros w o H. apply member_update_answer in H. by rewrite <- E1, <- E2.
Qed.

Lemma takeOver_triple wns gvr manifest n m live :
  triple (TakesOver gvr n m live) (takeOverPreExistingObject (W := T) wns gvr manifest live strategy expected)
    (fun '(obj, diffs, _) tr => diffs = [] -> exists o, obj = Some o /\ seenAt gvr n m o tr).
Proof.
  unfold takeOverPreExistingObject.
  eapply observed_bind; [grow|apply observed_map_err, leftBehind_triple; grow|]. intros kept.
  destruct (_ && _) eqn:Ec; [by apply observed_lift|].
  destruct (isPlacedByFleetInDuplicate kept expected) eqn:Ed; [by apply observed_lift|].
  eapply (observed_bind _ _ _ _ (fun _ _ => True)); [grow| |].
  { destruct (decide _); [apply observed_map_err, diff_triple; grow|].
    by apply observed_ret. }
  intros [diffs degraded]. destruct (bool_decide (diffs = [])) eqn:Eb; cbn [negb].
  - eapply observed_bind; [grow| |].
    + apply observed_map_err. intros w Hj [[Ht Hk] _]. revert w Hj Ht. apply takeOverUpdate_triple; [done| |done].
      apply andb_false_iff in Ec as [Ec%negb_false_iff|Ec%negb_false_iff]; [left; by apply bool_decide_eq_true in Ec|by right].
    + intros o. apply observed_ret. intros tr [_ Hs] _. eauto.
  - apply observed_ret. intros tr _ ->. by apply bool_decide_eq_false in Eb.
Qed.

(** ** Bundles *)

(** The attempt to process the bundle has been announced, if it is applied. *)
Definition tracked (b : bundle) (tr : list aevent) : Prop :=
  forall gvr m, bd_gvr b = Some gvr -> bd_manifestObj b = Some m ->
    isReportDiff x = true \/ announced ns name gvr (GetNamespace m) (GetName m) tr.

(** The object of the bundle is the one seen where the manifest says. *)
Definition located (b : bundle) (tr : list aevent) : Prop :=
  tracked b tr /\
  forall gvr m, bd_gvr b = Some gvr -> bd_manifestObj b = Some m ->
    match bd_inMemberClusterObj b with
    | Some o => seenAt gvr (GetNamespace m) (GetName m) o tr
    | None => NoObject gvr (GetNamespace m) (GetName m) ∈ tr
    end.

Lemma located_at b gvr m tr :
  bd_gvr b = Some gvr -> bd_manifestObj b = Some m -> tracked b tr ->
  match bd_inMemberClusterObj b with
  | Some o => seenAt gvr (GetNamespace m) (GetName m) o tr
  | None => NoObject gvr (GetNamespace m) (GetName m) ∈ tr
  end -> located b tr.
Proof. intros Hg Hm Ht H. split; [done|]. intros gvr' m' Hg' Hm'. by simplify_eq. Qed.

(** A bundle between two attempts to process it. *)
Definition settled (b : bundle) (tr : list aevent) : Prop :=
  bd_err b <> None \/ (tracked b tr /\ bd_inMemberClusterObj b = None) \/ located b tr.

Lemma growing_tracked b : growing (tracked b).
Proof. intros tr more H gvr m Hg Hm. destruct (H gvr m Hg Hm); [by left|right; by apply growing_announced]. Qed.

Lemma growing_located b : growing (located b).
Proof.
  intros tr more [Ht H]. split; [by apply growing_tracked|]. intros gvr m Hg Hm. specialize (H gvr m Hg Hm).
  unfold seenAt in *. destruct (bd_inMemberClusterObj b); set_solver.
Qed.

Lemma growing_settled b : growing (settled b).
Proof.
  intros tr more [H|[[Ht H]|H]]; [by left|right; left|right; right]; [|by apply growing_located].
  split; [by apply growing_tracked|done].
Qed.

Lemma settled_tracked b tr : settled b tr -> bd_err b = None -> tracked b tr.
Proof. intros [H|[[H _]|[H _]]] He; [congruence|done|done]. Qed.

Definition stepped (r : bundle * bool) (tr : list aevent) : Prop := if r.2 then settled r.1 tr else located r.1 tr.

Lemma located_settled b tr : located b tr -> settled b tr.
Proof. by right; right. Qed.

Lemma failed_settled t e b tr : settled (fail_bundle t e b) tr.
Proof. by left. Qed.

Notation Ready b := (fun tr => Known tr /\ located b tr).

Lemma growing_Ready b : growing (Ready b).
Proof. apply growing_and; [grow|apply growing_located]. Qed.

Lemma find_triple b :
  triple (fun tr => Known tr /\ bd_err b = None /\ settled b tr) (findInMemberClusterObjectFor (W := T) b) stepped.
Proof.
  unfold findInMemberClusterObjectFor. apply deref_triple. intros gvr Hg. apply deref_triple. intros m Hm.
  eapply (observed_case ns name _ _ _ (fun obj => hret (set_bd_member (Some obj) b, false)) (fun e => hret _));
    [apply growing_and; [grow|apply growing_and; [grow|apply growing_settled]]|apply get_answers| |].
  - intros obj. apply observed_ret. intros tr [(_ & He & Hp) Hs]. eapply located_at; [done..| |exact Hs]. exact (settled_tracked b tr Hp He).
  - intros e. apply observed_ret. intros tr [(_ & He & Hs) Hn]. destruct (has_reason NotFound e); [|apply failed_settled].
    destruct Hs as [Hs|[[Ht Hs]|Hs]]; [done| |exact Hs]. eapply located_at; [done..|]. cbn. rewrite Hs. by apply Hn.
Qed.

Lemma takeOverStep_triple wns b :
  triple (Ready b) (takeOverInMemberClusterObjectIfApplicable (W := T) wns b strategy expected) stepped.
Proof.
  unfold takeOverInMemberClusterObjectIfApplicable.
  destruct (isOwnedByNewerKubeFleetAPIObjects _) eqn:En; [apply observed_ret; intros; apply failed_settled|].
  destruct (shouldInitiateTakeOverAttempt _ _ _) eqn:Et; cbn [negb]; [|apply observed_ret; by intros tr []].
  apply deref_triple. intros gvr Hg. apply deref_triple. intros m Hm. apply deref_triple. intros live Hl.
  rewrite Hl in En, Et. unfold shouldInitiateTakeOverAttempt in Et. destruct (decide _); [done|]. apply negb_true_iff in Et.
  eapply recording_triple with (P := Ready b); [apply growing_Ready| | |intros; apply failed_settled].
  - eapply observed_weaken; [apply (takeOver_triple wns gvr m (GetNamespace m) (GetName m) live)| |intros r tr H; exact H].
    intros tr [Hk [_ Hb]]. specialize (Hb gvr m Hg Hm). rewrite Hl in Hb. done.
  - intros [[obj diffs] degraded] tr [_ [Ht _]] Hr. destruct (decide _) as [Hd|_]; [|apply failed_settled].
    destruct (Hr Hd) as (o & -> & Hs). by eapply located_at.
Qed.

Lemma reportDiff_triple b : triple (Ready b) (reportDiffOnlyIfApplicable (W := T) b strategy) stepped.
Proof.
  unfold reportDiffOnlyIfApplicable. destruct (negb _); [apply observed_ret; by intros tr []|].
  destruct (bd_inMemberClusterObj b) as [live|] eqn:El; [|apply observed_ret; intros tr [_ H]; by apply located_settled].
  apply deref_triple. intros gvr _. apply deref_triple. intros m _.
  eapply recording_triple with (P := Ready b); [apply growing_Ready|apply diff_triple, growing_Ready| |intros; apply failed_settled].
  intros [diffs degraded] tr [_ H] _. apply located_settled. by destruct (decide _).
Qed.

Lemma preApply_triple b : triple (Ready b) (performPreApplyDriftDetectionIfApplicable (W := T) b strategy) stepped.
Proof.
  unfold performPreApplyDriftDetectionIfApplicable. apply deref_triple. intros m _.
  destruct (shouldPerformPreApplyDriftDetection _ _ _) as [[]|e|p];
    [|by apply observed_ret; intros tr []|apply observed_ret; intros; apply failed_settled|by apply observed_lift].
  apply deref_triple. intros gvr _. apply deref_triple. intros live _.
  eapply recording_triple with (P := Ready b); [apply growing_Ready|apply diff_triple, growing_Ready| |intros; apply failed_settled].
  intros [diffs degraded] tr [_ H] _. destruct (decide _); [done|]. destruct degraded; apply failed_settled.
Qed.

Lemma postApply_triple b : triple (Ready b) (performPostApplyDriftDetectionIfApplicable (W := T) b strategy) stepped.
Proof.
  unfold performPostApplyDriftDetectionIfApplicable. destruct (negb _); [apply observed_ret; by intros tr []|].
  apply deref_triple. intros gvr _. apply deref_triple. intros m _. apply deref_triple. intros live _.
  eapply recording_triple with (P := Ready b); [apply growing_Ready|apply diff_triple, growing_Ready| |intros; apply failed_settled].
  intros [diffs degraded] tr [_ H] _. by destruct (decide _).
Qed.

(** Applying to an object that the source has validated. *)
Lemma applyPrepared_run gvr m live isSet w :
  jt w.2 -> Writes gvr (GetNamespace m) (GetName m) live w.2 ->
  let '(w', (_, r)) := applyPrepared gvr m live isSet strategy w in
  jt w'.2 /\ (exists more, w'.2 = w.2 ++ more) /\ forall v, r = Ok v -> seenAt gvr (GetNamespace m) (GetName m) v w'.2.
Proof.
  intros Hj Hp. assert (exists more, w.2 = w.2 ++ more) as Hn by (exists []; by rewrite app_nil_r).
  unfold applyPrepared. destruct (decide _); [destruct isSet; [by eapply patch_triple|by eapply apply_triple]|].
  destruct (decide _); [|by split; [|split]].
  destruct (as_ServerSideApplyConfig strategy); [by eapply apply_triple|by split; [|split]].
Qed.

Lemma applyBundle_triple b :
  isReportDiff x = false -> triple (Ready b) (applyBundle (W := T) b strategy expected) stepped.
Proof.
  intros Hrd. unfold applyBundle. apply deref_triple. intros gvr Hg. apply deref_triple. intros m Hm. intros w Hj [Hk [Ht Hb]].
  assert (exists more, w.2 = w.2 ++ more) as Hn by (exists []; by rewrite app_nil_r).
  unfold apply. destruct (prepareManifest _ _ _ _) as [[copy isSet]|e|p] eqn:Ep.
  2-3: split; [done|]; split; [done|]; intros r [= <-]; apply failed_settled.
  apply prepareManifest_submitted in Ep as ([E1 E2] & Ho & Hv). pose proof (Hb gvr m Hg Hm) as Hl. rewrite <- E1, <- E2 in Hl.
  assert (Applies gvr (GetNamespace copy) (GetName copy) w.2) as Happ.
  { split; [done|]. split; [done|]. rewrite E1, E2. destruct (Ht gvr m Hg Hm); [congruence|done]. }
  assert (forall tr v, (exists more, tr = w.2 ++ more) -> seenAt gvr (GetNamespace copy) (GetName copy) v tr ->
    located (set_bd_member (Some v) b) tr) as Hfin.
  { intros tr v [more ->] Hs. eapply located_at; [done..| |]; [by apply (growing_tracked b)|]. by rewrite <- E1, <- E2. }
  destruct (bd_inMemberClusterObj b) as [live|] eqn:El.
  - apply validate_live in Hv as (Hv1 & Hv2 & Hv3). rewrite co in Hv2.
    pose proof (applyPrepared_run gvr copy live isSet w Hj (conj Happ (conj (proj1 Hl) (conj Hv1 (conj Hv2 Hv3))))) as Hr.
    destruct (applyPrepared _ _ _ _ _ w) as [w' [live' [v|e|p]]]; cbn [fst snd] in *; destruct Hr as (Hj' & Hm' & Hr);
      (split; [done|]; split; [done|]); intros r [= <-]; [|apply failed_settled]. apply Hfin; auto.
  - pose proof (create_triple gvr copy Ho w Hj (conj Happ Hl)) as Hr.
    destruct (createManifestObject gvr copy w) as [w' [v|e|p]]; cbn [fst snd] in *; destruct Hr as (Hj' & Hm' & Hr);
      (split; [done|]; split; [done|]); intros r [= <-]; [|apply failed_settled]. apply Hfin; auto.
Qed.

Lemma unlessSkipped_triple P (s : step (W := T)) (k : bundle -> hub T bundle) :
  growing P -> triple P s stepped -> (forall b, triple (fun tr => P tr /\ located b tr) (k b) settled) ->
  triple P (unlessSkipped s k) settled.
Proof.
  intros Hg Hs Hk. eapply observed_bind; [done|exact Hs|]. intros [b []]; [|apply Hk].
  apply observed_ret. by intros tr [_ H].
Qed.

Lemma ready_triple {A} b (P : list aevent -> Prop) (m : hub T A) Q : triple (Ready b) m Q ->
  (forall tr, P tr -> Known tr) -> triple (fun tr => P tr /\ located b tr) m Q.
Proof. intros H HP. eapply observed_weaken; [exact H| |done]. intros tr []. auto. Qed.

Lemma applyOwned_triple b : isReportDiff x = false -> triple (Ready b) (applyOwned (W := T) b strategy expected) settled.
Proof.
  intros Hrd. unfold applyOwned. destruct (negb _); [apply observed_ret; intros; apply failed_settled|].
  apply unlessSkipped_triple; [apply growing_Ready|apply preApply_triple|]. intros b1.
  apply (ready_triple b1 (Ready b)); [|by intros tr []].
  apply unlessSkipped_triple; [apply growing_Ready|by apply applyBundle_triple|]. intros b2.
  apply (ready_triple b2 (Ready b1)); [|by intros tr []].
  apply unlessSkipped_triple; [apply growing_Ready|apply postApply_triple|]. intros b3.
  apply observed_ret. intros tr [_ H]. by apply located_settled.
Qed.

(** A Work that only reports differences does not get further than that. *)
Lemma reportOnly_triple b k : isReportDiff x = true -> triple (Ready b) (unlessSkipped (W := T) (reportDiffOnlyIfApplicable b strategy) k) settled.
Proof.
  intros Hr. rewrite reports in Hr. eapply (observed_bind _ _ _ _ (fun r tr => stepped r tr /\ r.2 = true)); [apply growing_Ready| |].
  - intros w Hj Hp. destruct (reportDiff_triple b w Hj Hp) as (Hj' & Hm & Hs). split; [done|]. split; [done|].
    intros r E. split; [by apply Hs|]. revert E. unfold reportDiffOnlyIfApplicable. rewrite Hr. cbn [negb].
    destruct (bd_inMemberClusterObj b); [|by intros [= <-]]. unfold deref.
    destruct (bd_gvr b); [|done]. destruct (bd_manifestObj b); [|done]. unfold recording.
    destruct (diffBetweenManifestAndInMemberClusterObjects _ _ _ _ w) as [w' [[ds d]|e|p]]; by intros [= <-].
  - intros [b' skip]. apply (observed_pure _ _ _ (skip = true)); [by intros tr [_ [_ ?]]|]. intros ->.
    apply observed_ret. by intros tr [_ [? _]].
Qed.

Lemma processOne_triple wns b :
  triple (fun tr => Known tr /\ bd_err b = None /\ settled b tr) (processOneManifest (W := T) wns b (Some strategy) expected) settled.
Proof.
  unfold processOneManifest.
  apply unlessSkipped_triple; [apply growing_and; [grow|apply growing_and; [grow|apply growing_settled]]|apply find_triple|].
  intros b1. apply (ready_triple b1 (fun tr => Known tr /\ bd_err b = None /\ settled b tr)); [|by intros tr []]. cbn [deref].
  apply unlessSkipped_triple; [apply growing_Ready|apply takeOverStep_triple|]. intros b2.
  apply (ready_triple b2 (Ready b1)); [|by intros tr []].
  destruct (Bool.bool_dec (isReportDiff x) true) as [Er|Er%not_true_is_false]; [by apply reportOnly_triple|].
  apply unlessSkipped_triple; [apply growing_Ready|apply reportDiff_triple|]. intros b3.
  apply (ready_triple b3 (Ready b2)); [by apply applyOwned_triple|by intros tr []].
Qed.

Lemma processBundle_triple wns b :
  triple (fun tr => Known tr /\ settled b tr) (processBundle (W := T) wns (Some strategy) expected b) settled.
Proof.
  unfold processBundle. destruct (bd_err b) eqn:E; [apply observed_ret; by intros tr []|].
  eapply observed_weaken; [apply processOne_triple| |done]. by intros tr [].
Qed.

(** ** Waves *)

Definition allSettled (bs : list bundle) (tr : list aevent) : Prop := Forall (fun b => settled b tr) bs.

Lemma growing_allSettled bs : growing (allSettled bs).
Proof. intros tr more H. eapply Forall_impl; [exact H|]. intros b Hb. by apply growing_settled. Qed.

Notation Batch bs := (fun tr => Known tr /\ allSettled bs tr).

Lemma growing_Batch bs : growing (Batch bs).
Proof. apply growing_and; [grow|apply growing_allSettled]. Qed.

Lemma processPositions_triple wns ps bs :
  triple (Batch bs) (processPositions (W := T) wns (Some strategy) expected ps bs) allSettled.
Proof.
  revert bs. induction ps as [|i ps IH]; intros bs; [by apply observed_ret; intros tr []|]. cbn [processPositions].
  eapply (observed_bind _ _ _ _ allSettled); [apply growing_Batch| |].
  - destruct (bs !! i) as [b|] eqn:Eb; [|by apply observed_lift].
    eapply (observed_bind _ _ _ _ settled); [apply growing_Batch| |].
    + apply unlessCancelled_triple.
      * eapply observed_weaken; [apply processBundle_triple| |done].
        intros tr [Hk Hs]. split; [done|]. by eapply (proj1 (Forall_lookup _ _) Hs).
      * intros tr [_ Hs]. by eapply (proj1 (Forall_lookup _ _) Hs).
    + intros b'. apply observed_ret. intros tr [[_ Hs] Hb]. by apply Forall_insert.
  - intros bs'. eapply observed_weaken; [apply (IH bs')| |done]. by intros tr [[? _] ?].
Qed.

Lemma processWaves_triple wns waves bs :
  triple (Batch bs) (processWaves (W := T) wns (Some strategy) expected waves bs) allSettled.
Proof.
  revert bs. induction waves as [|v waves IH]; intros bs; [by apply observed_ret; intros tr []|]. cbn [processWaves].
  eapply observed_bind; [apply growing_Batch|apply processPositions_triple|]. intros bs'.
  eapply observed_bind; [apply growing_and; [apply growing_Batch|apply growing_allSettled]|apply checkContext_triple|]. intros [].
  eapply observed_weaken; [apply (IH bs')| |done]. by intros tr [[[? _] ?] _].
Qed.

Lemma processManifests_triple wns order work bs :
  w_strategy work = Some strategy ->
  triple (Batch bs) (processManifests (W := T) wns order bs work expected) allSettled.
Proof.
  intros Hs. unfold processManifests. rewrite Hs. destruct (isReportDiff work); [|apply processWaves_triple].
  eapply (observed_bind _ _ _ _ allSettled); [apply growing_Batch| |].
  - apply (parallelize_triple ns name Known settled settled); [grow|apply growing_settled..|done|apply processBundle_triple].
  - intros bs'. eapply observed_bind; [apply growing_and; [apply growing_Batch|apply growing_allSettled]|apply checkContext_triple|].
    intros []. apply observed_ret. by intros tr [[_ H] _].
Qed.

End Owns.
