(* ===== verification/ApplierOwnership.v ===== *)
(** * The work applier touches the objects it owns

    The theorem about whole reconciliations. *)

From Stdlib Require Import SpecFloat.
From stdpp Require Import prelude gmap strings.
From S2P Require Import Prelude K8s Api Sample Utils Defaulter FrameworkUtils Hub Overrider WorkApi WorkGen ApplierApi RateLimiter ApplierQueue ApplierDiff Apply ApplierProcess Availability ApplierStatus ApplierPre Applier ApplierDiffProofs ApplierSafety ApplierOwns.

Local Open Scope string_scope.
Local Open Scope list_scope.

(** ** Removing what is left over *)

Section Removing.
Context {K : K8sLib} {O : ObjectLib} {OL : ObjectLaws O} {W : Type} {MC : MemberClient O W} {AC : ApplierClient W} {L : ApplierLaws W}.
Notation T := (W * list aevent)%type.
Context (ns name : string) (a : AppliedWork) (x : Work).
Hypothesis a_name : aw_Name a = name.
Hypothesis x_key : workKey x = (ns, name).
Notation expected := (expectedOwnerRef a).
Notation triple := (triple ns name).
Notation answers := (answers ns name).
Notation Known := (Known a x).

(** A write whose answer is looked at only for its error. *)
Lemma write_harmless {A} (P : list aevent -> Prop) e (f : outcome A -> list aevent) (m : hub W A) :
  (forall tr, P tr -> justified ns name tr e) -> (forall r, Forall (harmless ns name) (f r)) ->
  triple P (record (fun r => e :: f r) m : hub T A) (fun _ _ => True).
Proof. intros He Hf. eapply answers_triple; [by apply write_triple|done]. Qed.

Lemma ignoreNotFound_triple {A} P wrap (m : hub T A) Q :
  growing P -> triple P m Q -> triple P (ignoreNotFound wrap m) (fun _ _ => True).
Proof.
  intros Hg Hm. eapply (observed_case ns name P m (fun _ _ => True) (fun _ => hret tt) (fun e => hlift _)); [done| | |].
  - by eapply observed_answers.
  - intros. by apply observed_ret.
  - intros. by apply observed_lift.
Qed.

Lemma giveUp_triple gvr n m o o' :
  isOwnedBy expected o = true -> (1 < length (GetOwnerReferences o))%nat ->
  (o' = removeOwnerRef o expected \/ exists ref, areOwnerRefsEqual ref expected = true /\
     o' = SetOwnerReferences (unblock ref <$> GetOwnerReferences o) o) ->
  triple (fun tr => Known tr /\ seenAt gvr n m o tr) (member_update gvr n o' : hub T Obj) (fun _ _ => True).
Proof.
  intros Ho Hl Hu. apply write_harmless; [|intros; apply answered_harmless].
  intros tr [[Ha Hx] (Hs & _ & Hm)]. exists a, x. do 4 (split; [done|]). exists o. split; [|right; done].
  replace (GetName o') with m; [done|]. rewrite <- Hm. symmetry.
  destruct Hu as [->|(ref & _ & ->)]; by apply set_sameKey.
Qed.

Lemma delete_triple gvr n m o :
  isOwnedBy expected o = true -> solelyOwned o ->
  triple (fun tr => Known tr /\ seenAt gvr n m o tr) (member_delete gvr n m (GetUID o) : hub T unit) (fun _ _ => True).
Proof.
  intros Ho Hl. apply write_harmless; [|intros; constructor].
  intros tr [[Ha Hx] (Hs & _)]. exists a, x. do 4 (split; [done|]). by exists o.
Qed.

Lemma removeOne_triple m : triple Known (removeOneLeftOverManifest (W := T) expected m) (fun _ _ => True).
Proof.
  set (gvr := identifierGVR (arm_id m)). set (n := wri_Namespace (arm_id m)). set (nm := wri_Name (arm_id m)).
  set (dropped e := wrap_error "failed to drop the ownership of the object" (NewAPIServerError false e)).
  set (kept e := wrap_error "failed to delete the object" (NewAPIServerError false e)).
  apply observed_ext with (m' := hcase (member_get gvr n nm)
    (fun obj => if GetDeletionTimestamp obj then hret tt
                else if negb (isOwnedBy expected obj) then hret tt
                else if (1 <? Z.of_nat (length (GetOwnerReferences obj)))%Z
                then ignoreNotFound dropped (member_update gvr n (removeOwnerRef obj expected))
                else ignoreNotFound kept (member_delete gvr n nm (GetUID obj)))
    (fun e => hlift (if has_reason NotFound e then Ok tt
       else Err (wrap_error "failed to retrieve the object from the member cluster" (NewAPIServerError false e))))).
  { intros w. unfold removeOneLeftOverManifest, hcase. fold gvr n nm. destruct (member_get gvr n nm w) as [w' [obj|e|p]]; [|done..].
    destruct (GetDeletionTimestamp obj); [done|]. destruct (negb _); [done|]. by destruct (_ <? _)%Z. }
  eapply observed_case; [grow|apply get_answers| |intros; by apply observed_lift].
  intros obj. destruct (GetDeletionTimestamp obj); [by apply observed_ret|].
  destruct (isOwnedBy expected obj) eqn:Eo; [|by apply observed_ret]. cbn [negb].
  destruct (Z.ltb_spec 1 (Z.of_nat (length (GetOwnerReferences obj)))).
  - eapply ignoreNotFound_triple; [grow|]. apply giveUp_triple; [done|lia|by left].
  - eapply ignoreNotFound_triple; [grow|]. apply delete_triple; [done|]. unfold solelyOwned. lia.
Qed.

Lemma removePiece_triple piece : triple Known (removePiece (W := T) expected piece) (fun _ _ => True).
Proof.
  eapply (observed_case ns name Known (removeOneLeftOverManifest expected piece.1) (fun _ _ => True) (fun _ => hret piece) (fun e => hret _));
    [grow|eapply observed_answers, removeOne_triple|intros; by apply observed_ret..].
Qed.

Lemma removeLeftOver_triple agg ms : triple Known (removeLeftOverManifests (W := T) agg ms expected) (fun _ _ => True).
Proof.
  eapply (observed_bind _ _ _ _ (fun _ _ => True)); [grow| |].
  - eapply observed_weaken; [apply (parallelize_triple ns name Known (fun _ _ => True) (fun _ _ => True) (removePiece expected))| |done].
    + grow.
    + intros. grow.
    + intros. grow.
    + done.
    + intros piece. eapply observed_weaken; [apply removePiece_triple|by intros tr []|done].
    + intros tr H. split; [done|]. by apply Forall_forall.
  - intros done. destruct (omap snd done); [by apply observed_ret|by apply observed_lift].
Qed.

(** ** Writing ahead *)

(** A Work that carries the strategy of one that was seen. *)
Definition carries (work x' : Work) (s : ApplyStrategy) : Prop :=
  workKey x' = (ns, name) /\ w_strategy work = Some s /\ as_AllowCoOwnership s = allowsCoOwnership x' /\
  isReportDiff x' = bool_decide (as_Type s = ApplyStrategyTypeReportDiff).

Definition carriedStrategy (work : Work) : ApplyStrategy :=
  Defaulter.SetDefaultsApplyStrategy (default Defaulter.emptyApplyStrategy (w_strategy work)).

Lemma carries_defaults work : workKey work = (ns, name) -> carries (SetDefaultsWork work) work (carriedStrategy work).
Proof.
  intros Hk. unfold carries, allowsCoOwnership, isReportDiff, carriedStrategy. do 2 (split; [done|]).
  destruct (w_strategy work) as [s|]; [|done]. cbn. split; [done|]. unfold Defaulter.default_string.
  destruct (decide (as_Type s = EmptyString)) as [->|]; [by_evaluation|done].
Qed.

Lemma putStatus_triple P work :
  workKey work = (ns, name) ->
  triple P (hub_put_work_status work : hub T Work)
    (fun work' tr => SawWork work' ∈ tr /\ workKey work' = (ns, name) /\ WroteStatus work ∈ tr).
Proof.
  intros Hk. eapply answers_triple; [apply (answers_record ns name P _ _
    (fun r tr => forall work', r = Ok work' -> SawWork work' ∈ tr /\ workKey work' = (ns, name) /\ WroteStatus work ∈ tr))
    |by intros work' tr H; apply H].
  intros w tr Hj _. split.
  - apply jt_harmless; [done|]. apply harmless_told; [|constructor]. intros. by repeat constructor.
  - intros work' E. rewrite E. split; [cbn; set_solver|]. split; [|cbn; set_solver]. apply put_work_status_answer in E. congruence.
Qed.

Lemma format_nonempty id : formatWRIString id <> Ok EmptyString.
Proof. unfold formatWRIString. by destruct (decide _). Qed.

Lemma existingIndex_spec conds s i :
  prepareExistingManifestCondQIdx conds !! s = Some i ->
  exists c, conds !! i = Some c /\ formatWRIString (mfc_Identifier c) = Ok s.
Proof.
  unfold prepareExistingManifestCondQIdx.
  assert (forall cs k m, (forall i', m !! s = Some i' -> exists c, conds !! i' = Some c /\ formatWRIString (mfc_Identifier c) = Ok s) ->
    (forall j c, cs !! j = Some c -> conds !! (k + j)%nat = Some c) ->
    existingIndexFrom k cs m !! s = Some i -> exists c, conds !! i = Some c /\ formatWRIString (mfc_Identifier c) = Ok s) as H.
  { induction cs as [|c cs IH]; intros k m Hm Hcs; cbn; [apply Hm|]. apply IH.
    - intros i' Hi. destruct (formatWRIString (mfc_Identifier c)) as [s'| |] eqn:E; [|by apply Hm..].
      destruct (decide (s' = s)) as [->|]; [|rewrite lookup_insert_ne in Hi by done; by apply Hm].
      rewrite lookup_insert_eq in Hi. injection Hi as <-. exists c. split; [|done]. rewrite <- (Nat.add_0_r k). by apply Hcs.
    - intros j c' Hj. rewrite Nat.add_succ_comm. by apply (Hcs (S j)). }
  apply (H conds 0%nat ∅); [|done]. intros i'. by rewrite lookup_empty.
Qed.

(** The status lists the manifest of the bundle. *)
Definition listed (cs : list ManifestCondition) (b : manifestProcessingBundle) : Prop :=
  bd_err b = None -> exists id c, bd_id b = Some id /\ c ∈ cs /\
    (mfc_Identifier c = id \/ formatWRIString (mfc_Identifier c) = Ok (bd_workResourceIdentifierStr b)).

Variable now : Z.
Variable mapOrder : forall A : Type, list (string * A) -> list (string * A).
Variable aggregateMessage : list string -> string.

Lemma writeAhead_lists work bs cs : conditionsForWriteAhead now work bs = Ok cs -> Forall (listed cs) bs.
Proof.
  revert cs. induction bs as [|b bs IH]; intros cs; [by intros; constructor|]. cbn.
  destruct (bd_err b) eqn:Ee; [intros H; constructor; [by intros He; congruence|by apply IH]|].
  destruct (bd_id b) as [id|] eqn:Ei; [|done].
  intros (c & Hc & H)%obind_Ok. apply obind_Ok in H as (cs' & Hcs & [= <-]).
  constructor.
  - intros _. exists id, c. split; [done|]. split; [set_solver|]. revert Hc. unfold prepareManifestCondForWriteAhead.
    destruct (_ !! _) as [i|] eqn:El; [|intros [= <-]; by left].
    apply existingIndex_spec in El as (c' & -> & Hf). intros [= <-]. by right.
  - eapply Forall_impl; [by apply IH|]. intros b' Hb He. destruct (Hb He) as (id' & c' & ? & ? & ?).
    exists id', c'. split; [done|]. split; [set_solver|done].
Qed.

(** The attempt to process the bundles is covered by the status of the Work. *)
Definition covered (bs : list manifestProcessingBundle) (x' : Work) (tr : list aevent) : Prop :=
  isReportDiff x' = true \/ attemptRecorded x' = true \/
  exists x'', WroteStatus x'' ∈ tr /\ workKey x'' = (ns, name) /\ Forall (listed (wst_ManifestConditions (w_status x''))) bs.

Definition prepared (bs : list manifestProcessingBundle) (work : Work) (tr : list aevent) : Prop :=
  exists x' s, SawWork x' ∈ tr /\ carries work x' s /\ covered bs x' tr.

Lemma writeAhead_triple bs :
  triple Known
    (writeAheadManifestProcessingAttempts (W := T) now mapOrder aggregateMessage bs (SetDefaultsWork x) expected) (prepared bs).
Proof.
  unfold writeAheadManifestProcessingAttempts.
  destruct (attemptRecorded (SetDefaultsWork x)) eqn:Ea.
  { apply observed_ret. intros tr [_ Hx]. exists x, (carriedStrategy x). split; [done|]. split; [by apply carries_defaults|]. by right; left. }
  destruct (isReportDiff (SetDefaultsWork x)) eqn:Er.
  { apply observed_ret. intros tr [_ Hx]. exists x, (carriedStrategy x). split; [done|].
    pose proof (carries_defaults x x_key) as Hc. split; [done|]. left. destruct Hc as (_ & _ & _ & ->). exact Er. }
  apply (observed_bind ns name Known _ (fun cs _ => Forall (listed cs) bs)); [grow| |].
  { apply observed_lift. intros tr cs Hcs _. by eapply writeAhead_lists. }
  intros cs. apply (observed_pure _ _ _ (Forall (listed cs) bs)); [by intros tr []|]. intros Hl.
  apply observed_weaken with (P' := Known) (Q' := prepared bs); [|by intros tr []|done].
  apply observed_seq; [grow|by apply observed_lift|]. intros left.
  apply observed_seq; [grow|by apply observed_map_err, removeLeftOver_triple|]. intros _.
  eapply observed_bind; [grow|by apply observed_map_err, putStatus_triple|]. intros work'.
  apply observed_ret. intros tr (_ & Hs & Hk & Hw). exists work', (carriedStrategy work'). split; [done|].
  split; [by apply carries_defaults|]. right; right. by eexists.
Qed.

(** ** Preparing *)

Definition blank (b : manifestProcessingBundle) : Prop :=
  bd_inMemberClusterObj b = None /\ bd_gvr b = None /\ bd_workResourceIdentifierStr b = EmptyString.

(** A bundle whose identifier is the one of its manifest. *)
Definition identified (b : manifestProcessingBundle) : Prop :=
  bd_inMemberClusterObj b = None /\
  forall gvr m, bd_gvr b = Some gvr -> bd_manifestObj b = Some m ->
    exists id, bd_id b = Some id /\ wri_Resource id = gvr_Resource gvr /\ wri_Namespace id = GetNamespace m /\ wri_Name id = GetName m /\
      (bd_workResourceIdentifierStr b = EmptyString \/ formatWRIString id = Ok (bd_workResourceIdentifierStr b)).

Lemma blank_identified b : blank b -> identified b.
Proof. intros (? & Hg & _). split; [done|]. congruence. Qed.

Lemma decodeBundle_identified i b : blank b -> identified (decodeBundle i b).
Proof.
  intros (Hm & Hg & Hs). unfold decodeBundle, identified. destruct (decodeManifest _) as [[gvr [o|]] [e|]]; cbn; try (split; [done|]; congruence).
  destruct (_ && _); [cbn; split; [done|]; congruence|].
  destruct (formatWRIString _) as [s| |] eqn:E; cbn; (split; [done|]); intros gvr' m' [= <-] [= <-]; eexists; (split; [done|]);
    (do 3 (split; [done|])); first [by left|by right].
Qed.

Lemma duplicates_identified seen bs : Forall identified bs -> Forall identified (checkForDuplicatedManifests seen bs).
Proof.
  intros H. revert seen. induction H as [|b bs Hb _ IH]; intros seen; cbn; [constructor|].
  destruct (bd_err b); [by constructor|]. destruct (decide _); by constructor.
Qed.

Lemma prepared_blank work : Forall blank (prepareManifestProcessingBundles work).
Proof. unfold prepareManifestProcessingBundles. apply Forall_fmap, Forall_forall. by intros. Qed.

Lemma decodeBundles_triple P bs :
  growing P -> Forall blank bs -> triple P (decodeBundles (W := T) bs) (fun bs' _ => Forall identified bs').
Proof.
  intros Hg Hf. eapply observed_bind; [done| |].
  - eapply observed_weaken; [apply (parallelize_triple ns name P (fun p _ => blank p.2) (fun p _ => identified p.2))|
      |intros ps tr H; exact H].
    + done.
    + intros. apply growing_const.
    + intros. apply growing_const.
    + intros v tr H. by apply blank_identified.
    + intros [i b]. apply observed_ret. intros tr [_ H]. by apply decodeBundle_identified.
    + intros tr H. split; [done|]. apply Forall_lookup. intros i p (b & Hb & ->)%list_lookup_imap_Some. cbn.
      by eapply (proj1 (Forall_lookup _ _) Hf).
  - intros ps. apply observed_ret. intros tr [_ H]. by apply Forall_fmap.
Qed.

Lemma preProcess_triple bs :
  Forall blank bs ->
  triple Known (preProcessManifests (W := T) now mapOrder aggregateMessage bs (SetDefaultsWork x) expected)
    (fun '(bs', work') tr => Forall identified bs' /\ prepared bs' work' tr).
Proof.
  intros Hf. eapply observed_bind; [grow|apply decodeBundles_triple; [grow|done]|]. intros bs'.
  apply (observed_pure _ _ _ (Forall identified bs')); [by intros tr []|]. intros Hi.
  eapply observed_weaken with (P' := Known); [|by intros tr []|intros r tr H; exact H].
  eapply observed_bind; [grow|apply writeAhead_triple|].
  intros work'. apply observed_ret. intros tr [_ Hc]. split; [by apply duplicates_identified|done].
Qed.

(** A bundle that the status covers is ready to be processed. *)
Lemma covered_settled bs x' tr :
  SawWork x' ∈ tr -> workKey x' = (ns, name) -> covered bs x' tr -> Forall identified bs -> allSettled ns name x' bs tr.
Proof.
  intros Hx Hk Hc Hi. apply Forall_forall. intros b Hb. rewrite Forall_forall in Hi. destruct (Hi b Hb) as [Hm Hid].
  destruct (bd_err b) eqn:Ee; [left; by rewrite Ee|]. right; left. split; [|done]. intros gvr m Hg Hmo.
  destruct Hc as [Hc|[Hc|(x'' & Hw & Hk'' & Hl)]]; [by left|right; left; by exists x'|right; right].
  destruct (Hid gvr m Hg Hmo) as (id & Hbid & Hr & Hn & Hnm & Hs). rewrite Forall_forall in Hl.
  destruct (Hl b Hb Ee) as (id' & c & Hbid' & Hin & Hor). assert (id' = id) as -> by congruence.
  exists x'', c, id. do 3 (split; [done|]). split; [|done].
  destruct Hor as [Hor|Hor]; [by left|]. right. eexists. split; [exact Hor|].
  destruct Hs as [Hs|Hs]; [|done]. rewrite Hs in Hor. by apply format_nonempty in Hor.
Qed.

End Removing.

(** ** Reconciliations *)

Section Reconciliation.
Context {K : K8sLib} {O : ObjectLib} {OL : ObjectLaws O} {TV : TypedViews O} {W : Type}.
Context {MC : MemberClient O W} {AC : ApplierClient W} {AM : ApplierMemory W} {L : ApplierLaws W}.
Notation T := (W * list aevent)%type.
Variable int64_outside : spec_float -> Z.
Variable now : Z.
Variable mapOrder : forall A : Type, list (string * A) -> list (string * A).
Variable waveOrder : list bundleProcessingWave -> list bundleProcessingWave.
Variable aggregateMessage : list string -> string.
Context (config : applierConfig) (ns name : string).
Notation triple := (triple ns name).
Notation answers := (answers ns name).

Lemma quiet_triple {A} P (m : hub T A) : (forall w, (m w).1.2 = w.2) -> triple P m (fun _ _ => True).
Proof. intros H w Hj Hp. rewrite H. split; [done|]. split; [exists []; by rewrite app_nil_r|done]. Qed.

Lemma harmless_triple {A} P f (m : hub W A) :
  (forall r, Forall (harmless ns name) (f r)) -> triple P (record f m : hub T A) (fun _ _ => True).
Proof.
  intros H. eapply answers_triple; [apply (answers_record _ _ _ _ _ (fun _ _ => True))|done].
  intros w tr Hj _. split; [|done]. by apply jt_harmless.
Qed.

(** What follows the processing writes nothing to the member cluster but the
    status of the [AppliedWork]. *)
Lemma track_triple P bs : growing P -> triple P (trackInMemberClusterObjAvailability (W := T) bs) (fun _ _ => True).
Proof.
  intros Hg. apply observed_seq; [done| |intros bs'; by apply quiet_triple].
  eapply observed_weaken; [apply (parallelize_triple ns name P (fun _ _ => True) (fun _ _ => True))
    |intros tr H; split; [exact H|by apply Forall_forall]|done].
  - done.
  - intros. grow.
  - intros. grow.
  - done.
  - intros b. by apply observed_lift.
Qed.

Lemma refreshWork_triple P work bs : growing P -> triple P (refreshWorkStatus (W := T) now work bs) (fun _ _ => True).
Proof.
  intros Hg. apply observed_seq; [done|by apply observed_lift|]. intros refreshed. cbv zeta. lazymatch goal with |- context [if ?c then _ else _] => destruct c end; [by apply observed_ret|].
  apply observed_map_err, harmless_triple. intros r. apply harmless_told; [|constructor]. intros. by repeat constructor.
Qed.

Lemma refreshApplied_triple P a bs : growing P -> triple P (refreshAppliedWorkStatus (W := T) a bs) (fun _ _ => True).
Proof.
  intros Hg. apply observed_seq; [done|by apply observed_lift|]. intros rs. destruct (decide _); [by apply observed_ret|].
  apply observed_map_err, harmless_triple. intros r. constructor.
Qed.

Lemma requeue_triple P work bs : triple P (requeueWork (W := T) int64_outside config work bs) (fun _ _ => True).
Proof.
  apply quiet_triple. intros [w tr]. unfold requeueWork. destruct (When int64_outside (limiter_of (w, tr)) work bs) as [r d].
  by destruct (ac_usePriorityQueue config).
Qed.

Lemma processManifests_prepared a bs work :
  aw_Name a = name -> Forall identified bs ->
  triple (fun tr => SawAppliedWork a ∈ tr /\ prepared ns name bs work tr)
    (processManifests (W := T) (ac_workNameSpace config) waveOrder bs work (expectedOwnerRef a)) (fun _ _ => True).
Proof.
  intros Ha Hi w Hj [Hs (x & s & Hx & (Hk & Hw & Hco & Hr) & Hc)].
  apply (observed_weaken ns name (fun tr => Known a x tr /\ allSettled ns name x bs tr) _ _ (fun _ _ => True) _
    (processManifests_triple ns name a x Ha Hk s Hco Hr (ac_workNameSpace config) waveOrder work bs Hw)); [done..|].
  split; [done|]. by apply covered_settled.
Qed.

Lemma growing_prepared bs work : growing (prepared ns name bs work).
Proof.
  intros tr more (x & s & Hx & Hc & H). exists x, s. split; [by apply growing_elem|]. split; [done|].
  destruct H as [H|[H|(x'' & Hw & H)]]; [by left|by right; left|right; right]. exists x''. split; [by apply growing_elem|done].
Qed.

Lemma processWork_triple work a :
  workKey work = (ns, name) -> aw_Name a = name ->
  triple (Known a work) (processWork (W := T) int64_outside now mapOrder waveOrder aggregateMessage config work a) (fun _ _ => True).
Proof.
  intros Hk Ha. unfold processWork.
  eapply observed_bind; [grow|apply (preProcess_triple ns name a work Ha Hk), prepared_blank|]. intros [bs work'].
  apply (observed_pure _ _ _ (Forall identified bs)); [by intros tr [_ []]|]. intros Hi.
  apply observed_weaken with (P' := fun tr => SawAppliedWork a ∈ tr /\ prepared ns name bs work' tr) (Q' := fun _ _ => True);
    [|by intros tr [[] []]|done].
  assert (growing (fun tr => SawAppliedWork a ∈ tr /\ prepared ns name bs work' tr)) as Hg
    by (apply growing_and; [grow|apply growing_prepared]).
  apply observed_seq; [done|by apply processManifests_prepared|]. intros bs'.
  apply observed_seq; [done|by apply track_triple|]. intros bs''.
  apply observed_seq; [done|by apply refreshWork_triple|]. intros work''.
  apply observed_seq; [done|by apply refreshApplied_triple|]. intros _. apply requeue_triple.
Qed.

(** ** Applied works *)

Lemma getApplied_answers P n :
  answers P (spoke_get_applied_work n : hub T AppliedWork)
    (fun r tr => match r with
                 | Ok a => SawAppliedWork a ∈ tr /\ aw_Name a = n
                 | Err e => has_reason NotFound e = true -> AppliedWorkGone n ∈ tr
                 | Panic _ => True
                 end).
Proof.
  apply answers_record. intros w tr Hj _. split.
  - apply jt_harmless; [done|]. apply harmless_told; repeat constructor.
  - destruct (spoke_get_applied_work n w).2 as [a|e|p] eqn:E; cbn; [| |done].
    + split; [set_solver|]. by apply get_applied_work_answer in E.
    + intros ->. set_solver.
Qed.

Lemma getWork_answers P :
  answers P (hub_get_work ns name : hub T Work)
    (fun r tr => forall work, r = Ok work -> SawWork work ∈ tr /\ workKey work = (ns, name)).
Proof.
  apply answers_record. intros w tr Hj _. split.
  - apply jt_harmless; [done|]. apply harmless_told; repeat constructor.
  - intros work E. rewrite E. split; [cbn; set_solver|]. by apply get_work_answer in E.
Qed.

Lemma createApplied_triple P a0 :
  triple P (spoke_create_applied_work a0 : hub T AppliedWork) (fun a tr => SawAppliedWork a ∈ tr /\ aw_Name a = aw_Name a0).
Proof.
  eapply answers_triple; [apply (answers_record ns name P _ _
    (fun r tr => forall a, r = Ok a -> SawAppliedWork a ∈ tr /\ aw_Name a = aw_Name a0))|by intros a tr H; apply H].
  intros w tr Hj _. split.
  - apply jt_harmless; [done|]. apply harmless_told; repeat constructor.
  - intros a E. rewrite E. split; [cbn; set_solver|]. by apply create_applied_work_answer in E.
Qed.

Lemma putWork_triple P work :
  workKey work = (ns, name) -> (forall tr, P tr -> justified ns name tr (WroteWork work)) ->
  triple P (hub_put_work work : hub T Work) (fun work' tr => SawWork work' ∈ tr /\ workKey work' = (ns, name)).
Proof.
  intros Hk HP. eapply answers_triple; [apply write_triple; [done|]|].
  - intros r. apply harmless_told; repeat constructor.
  - intros work' tr (w & Hw & Hin). split; [apply Hin; cbn; set_solver|].
    symmetry in Hw. apply put_work_answer in Hw. congruence.
Qed.

Lemma ensure_triple work :
  workKey work = (ns, name) ->
  triple (fun tr => SawWork work ∈ tr) (ensureAppliedWork (W := T) work)
    (fun '(work', a) tr => Known a work' tr /\ workKey work' = (ns, name) /\ aw_Name a = name).
Proof.
  intros Hwk. eapply (observed_bind _ _ _ _ (fun work' tr => SawWork work' ∈ tr /\ workKey work' = (ns, name))); [grow| |].
  - unfold addWorkFinalizer. destruct (ContainsFinalizer _ _); [by apply observed_ret|].
    apply observed_map_err, putWork_triple; [done|]. intros tr _. left. cbn. set_solver.
  - intros work'. apply observed_ext with (m' := hcase (spoke_get_applied_work (w_name work')) (fun a => hret (work', a))
      (fun e => if has_reason NotFound e then
          hmap_err (NewAPIServerError false)
            (let* a := spoke_create_applied_work (mkAppliedWork (w_name work') EmptyString None (w_name work') (meta_namespace (w_meta work')) []) in
             hret (work', a))
        else hlift (Err (NewAPIServerError true e)))).
    { intros w. unfold hcase. destruct (spoke_get_applied_work _ w) as [w' [a|e|p]]; [done| |done]. by destruct (has_reason NotFound e). }
    eapply observed_case; [grow|apply getApplied_answers| |].
    + intros a. apply observed_ret. intros tr [[_ [Hs Hk]] [Ha Hn]]. injection Hk as ? ?. unfold Known, workKey. by subst.
    + intros e. destruct (has_reason NotFound e); [|by apply observed_lift]. apply observed_map_err.
      apply (observed_weaken ns name _ (fun tr => SawWork work' ∈ tr /\ workKey work' = (ns, name)) _ _
        (fun '(w', a) tr => Known a w' tr /\ workKey w' = (ns, name) /\ aw_Name a = name)); [|by intros tr [[_ H] _]|done].
      eapply observed_bind; [grow|apply createApplied_triple|]. intros a. apply observed_ret.
      intros tr [[Hs Hk] [Ha Hn]]. injection Hk as ? ?. unfold Known, workKey. by subst.
Qed.

(** ** Garbage collection *)

(** The memory of the reconciler is not observed. *)
Lemma observed_local {A} P (f : T -> T) (m : hub T A) Q : (forall w, (f w).2 = w.2) -> triple P m Q -> triple P (fun w => m (f w)) Q.
Proof. intros E H w Hj Hp. rewrite <- (E w) in *. by apply H. Qed.

Notation Gone := (fun tr => AppliedWorkGone name ∈ tr).

Lemma forget_triple work :
  workKey work = (ns, name) -> triple Gone (forgetWorkAndRemoveFinalizer (W := T) work) (fun _ _ => True).
Proof.
  intros Hk. apply (observed_local Gone (fun w => set_limiter (Forget (limiter_of w) work) w)); [done|].
  apply observed_seq; [grow| |intros; by apply observed_ret]. apply observed_map_err.
  eapply observed_weaken; [apply (putWork_triple Gone)|done|done]; [done|]. intros tr H. by right.
Qed.

Lemma deleteApplied_triple P work a :
  growing P -> workKey work = (ns, name) -> aw_Name a = name -> triple P (deleteAppliedWork (W := T) work a) (fun _ _ => True).
Proof.
  intros Hg Hk Ha. apply observed_ext with (m' := hcase (spoke_delete_applied_work a) (fun _ => hlift (Err (beingDeletedError work)))
    (fun e => if has_reason NotFound e then forgetWorkAndRemoveFinalizer work else hlift (Err (NewAPIServerError false e)))).
  { intros w. unfold deleteAppliedWork, hcase. destruct (spoke_delete_applied_work a w) as [w' [?|e|p]]; [done| |done].
    by destruct (has_reason NotFound e). }
  eapply (observed_case _ _ _ _ (fun r tr => forall e, r = Err e -> has_reason NotFound e = true -> AppliedWorkGone name ∈ tr));
    [done| |by intros; apply observed_lift|].
  - apply answers_record. intros w tr Hj _. split.
    + apply jt_harmless; [done|]. apply harmless_told; repeat constructor.
    + intros e -> H. cbn. rewrite H, Ha. set_solver.
  - intros e. destruct (has_reason NotFound e) eqn:E; [|by apply observed_lift].
    eapply observed_weaken; [by apply forget_triple|intros tr [_ H]; by apply (H e)|done].
Qed.

Lemma areOwnerRefsEqual_trans r r' e :
  areOwnerRefsEqual r' e = true -> areOwnerRefsEqual r r' = areOwnerRefsEqual r e.
Proof.
  unfold areOwnerRefsEqual. rewrite !andb_true_iff, !bool_decide_eq_true. by intros [[[-> ->] ->] ->].
Qed.

Lemma updateOne_triple a x ref cond :
  aw_Name a = name -> workKey x = (ns, name) -> areOwnerRefsEqual ref (expectedOwnerRef a) = true ->
  triple (Known a x) (updateOneOwnerReference (W := T) ref cond) (fun _ _ => True).
Proof.
  intros Ha Hx Hr. set (gvr := identifierGVR (mfc_Identifier cond)). set (n := wri_Namespace (mfc_Identifier cond)).
  set (nm := wri_Name (mfc_Identifier cond)).
  apply observed_ext with (m' := hcase (member_get gvr n nm)
    (fun obj => if (1 <? Z.of_nat (length (GetOwnerReferences obj)))%Z && isOwnedBy ref obj
                then (let* _ := member_update gvr (GetNamespace obj) (SetOwnerReferences (unblock ref <$> GetOwnerReferences obj) obj) in hret tt)
                else hret tt)
    (fun e => hlift (if has_reason NotFound e then Ok tt else Err e))).
  { intros w. unfold updateOneOwnerReference, hcase. fold gvr n nm. destruct (member_get gvr n nm w) as [w' [obj|e|p]]; [|done..].
    by destruct (_ && _). }
  eapply observed_case; [grow|apply get_answers| |intros; by apply observed_lift].
  intros obj. destruct (_ && _) eqn:E; [|by apply observed_ret]. apply andb_true_iff in E as [El%Z.ltb_lt Eo].
  apply observed_seq; [grow| |intros; by apply observed_ret].
  intros w Hj [Hk (Hs & <- & Hn)].
  apply (giveUp_triple ns name a x Ha Hx gvr (GetNamespace obj) nm obj); [|lia|right; by exists ref|done|by split].
  unfold isOwnedBy in *. apply existsb_exists in Eo as (r & Hin & E). apply existsb_exists. exists r.
  by rewrite <- (areOwnerRefsEqual_trans r ref).
Qed.

Lemma updateAll_triple a x ref conds :
  aw_Name a = name -> workKey x = (ns, name) -> areOwnerRefsEqual ref (expectedOwnerRef a) = true ->
  triple (Known a x) (updateOwnerReferencesOf (W := T) ref conds) (fun _ _ => True).
Proof.
  intros Ha Hx Hr. induction conds as [|c conds IH]; [by apply observed_ret|].
  apply observed_seq; [grow|by apply updateOne_triple|by intros _].
Qed.

Lemma updateOwners_triple a x work :
  aw_Name a = name -> workKey x = (ns, name) -> triple (Known a x) (updateOwnerReference (W := T) work a) (fun _ _ => True).
Proof.
  intros Ha Hx.
  eapply (observed_case ns name (Known a x) (hub_get_work (meta_namespace (w_meta work)) (w_name work)) (fun _ _ => True)
    (fun work => updateOwnerReferencesOf _ (wst_ManifestConditions (w_status work))) (fun e => hlift _)).
  - grow.
  - eapply observed_answers, getWork_harmless.
  - intros work'. eapply observed_weaken; [apply updateAll_triple; [done..|]|by intros tr []|done].
    unfold areOwnerRefsEqual. cbn. by rewrite !bool_decide_eq_true_2.
  - intros e. by apply observed_lift.
Qed.

Lemma garbage_triple work :
  workKey work = (ns, name) ->
  triple (fun tr => SawWork work ∈ tr) (garbageCollectAppliedWork (W := T) now config work) (fun _ _ => True).
Proof.
  intros Hk. unfold garbageCollectAppliedWork. destruct (negb _); [by apply observed_ret|].
  apply observed_ext with (m' := hcase (spoke_get_applied_work (w_name work))
    (fun a => if isStuck now config a
              then (let* _ := hmap_err (NewAPIServerError false) (updateOwnerReference work a) in hlift (Err (beingDeletedError work)))
              else deleteAppliedWork work a)
    (fun e => if has_reason NotFound e then forgetWorkAndRemoveFinalizer work else hlift (Err (NewAPIServerError false e)))).
  { intros w. unfold hcase. destruct (spoke_get_applied_work _ w) as [w' [a|e|p]]; [by destruct (isStuck _ _ a)| |done].
    by destruct (has_reason NotFound e). }
  assert (w_name work = name) as Hn by (by injection Hk).
  eapply observed_case; [grow|apply getApplied_answers| |].
  - intros a. apply observed_weaken with (P' := fun tr => Known a work tr /\ aw_Name a = name) (Q' := fun _ _ => True);
      [|intros tr [Hs [Ha Hna]]; unfold Known; by subst|done].
    apply (observed_pure _ _ _ (aw_Name a = name)); [by intros tr []|]. intros Ha.
    eapply observed_weaken with (P' := Known a work); [|by intros tr []|done].
    destruct (isStuck now config a).
    + apply observed_seq; [grow|by apply observed_map_err, updateOwners_triple|by intros; apply observed_lift].
    + by apply deleteApplied_triple; [grow|..].
  - intros e. destruct (has_reason NotFound e) eqn:E; [|by apply observed_lift].
    eapply observed_weaken; [by apply forget_triple|intros tr [_ H]; rewrite <- Hn; by apply H|done].
Qed.

(** C3: in a reconciliation of a Work, whatever the API servers answer, every
    write to the member cluster is justified by what the two servers said
    before it.  Objects are created, owned by the [AppliedWork] of the Work
    alone, only where none was found; patched or applied only where the object
    seen there is owned by that [AppliedWork], by no other one, and by nothing
    else unless the Work allows co-ownership; neither happens for a Work that
    only reports differences, nor before the status of the Work announces the
    attempt, so that no object is left untracked.  Objects are updated only in
    their owner references, to take over one that is not owned yet or to give
    up or stop blocking one that is shared; and deleted only, by their UID, when
    that [AppliedWork] is the sole owner.  The Work loses its finalizer only
    after the member cluster said that the [AppliedWork] is gone. *)
Theorem applier_writes_owned_objects w :
  justifiedTrace ns name
    (Reconcile (W := T) int64_outside now mapOrder waveOrder aggregateMessage config ns name (w, [])).1.2.
Proof.
  assert (triple (fun _ => True) (Reconcile (W := T) int64_outside now mapOrder waveOrder aggregateMessage config ns name) (fun _ _ => True)) as H.
  2: by apply (H (w, []) (jt_nil ns name)).
  set (go := hcase (hub_get_work ns name) (fun work => if being_deleted (w_meta work) then garbageCollectAppliedWork now config work
    else (let* (work, a) := ensureAppliedWork work in
          processWork int64_outside now mapOrder waveOrder aggregateMessage config work a))
    (fun e => hlift (if has_reason NotFound e then Ok finished else Err (NewAPIServerError true e)))).
  apply observed_ext with (m' := fun w => if is_joined w then go w else hret (mkResult false (seconds 5)) w).
  { intros w0. unfold Reconcile, go, hcase. destruct (is_joined w0); [|done].
    destruct (hub_get_work ns name w0) as [w' [work|e|p]]; [by destruct (being_deleted _)|done..]. }
  intros w0. destruct (is_joined w0); revert w0;
    [change (triple (fun _ => True) go (fun _ _ => True))
    |exact (observed_ret ns name (fun _ => True) (mkResult false (seconds 5)) (fun _ _ => True) (fun _ _ => I))].
  eapply observed_case; [grow|apply getWork_answers| |by intros; apply observed_lift].
  intros work. apply (observed_pure _ _ _ (workKey work = (ns, name))); [by intros tr [_ H]; apply (H work)|]. intros Hk.
  eapply observed_weaken with (P' := fun tr => SawWork work ∈ tr); [|by intros tr [_ H]; apply (H work)|done].
  destruct (being_deleted _); [by apply garbage_triple|].
  eapply observed_bind; [grow|by apply ensure_triple|]. intros [work' a].
  apply (observed_pure _ _ _ (workKey work' = (ns, name) /\ aw_Name a = name)); [by intros tr (_ & _ & ?)|]. intros [Hk' Ha].
  eapply observed_weaken; [by apply processWork_triple|by intros tr (_ & ? & _)|done].
Qed.

End Reconciliation.
