(* ===== verification/ApplierExamples.v ===== *)
(** * The work applier in memory

    Objects in memory, a member cluster that holds them and a hub with Works,
    on which the theorems about the work applier are evaluated; and evaluations
    of what the code does where its comments say otherwise. *)

From Stdlib Require Import SpecFloat FunctionalExtensionality.
From stdpp Require Import prelude gmap strings.
From S2P Require Import Prelude K8s Api Sample Utils Defaulter FrameworkUtils Hub Overrider WorkApi WorkGen ApplierApi RateLimiter RateLimiterProofs ApplierQueue ApplierDiff Apply ApplierProcess Availability ApplierStatus ApplierPre Applier ApplierDiffProofs ApplierStatusProofs ApplierSafety ApplierOwns ApplierOwnership.
Import RefLib.

Local Open Scope string_scope.
Local Open Scope list_scope.

Module MemApplier.

(** ** Objects *)

(** An object: its kind, what it says, and the value of each field. *)
Record object : Type := mkObject {
  obj_kind : GroupVersionKind;
  obj_data : string;
  obj_fields : forall f : field, fieldValue f;
}.

Definition set (f : field) (v : fieldValue f) (o : object) : object :=
  mkObject (obj_kind o) (obj_data o)
    (fun g => match decide (f = g) with left e => eq_rect f fieldValue v g e | right _ => obj_fields o g end).

Definition noFields (f : field) : fieldValue f :=
  match f with
  | FName | FNamespace | FGenerateName | FResourceVersion | FSelfLink | FUID => EmptyString
  | FGeneration => 0%Z
  | FAnnotations | FLabels | FFinalizers | FOwnerReferences | FManagedFields | FDeletionTimestamp
  | FDeletionGracePeriodSeconds | FStatus | FCreationTimestamp | FTemplateCreationTimestamp
  | FJobTemplateCreationTimestamp => None
  end.

(** Manifests are written kind/namespace/name/data. *)
Definition decode (raw : string) : outcome object :=
  match str_split slash raw with
  | [kind; ns; name; data] =>
      Ok (set FNamespace ns (set FName name (mkObject (mkGVK EmptyString "v1" kind) data noFields)))
  | _ => Err (ErrPlain "not a manifest")
  end.

Definition encode (o : object) : string :=
  gvk_Kind (obj_kind o) +:+ "/" +:+ obj_fields o FNamespace +:+ "/" +:+ obj_fields o FName +:+ "/" +:+ obj_data o.

Definition apiVersion (o : object) : string := gvk_Version (obj_kind o).

Definition resourceOf (k : GroupVersionKind) : outcome GroupVersionResource :=
  if decide (gvk_Kind k = "Namespace") then Ok (mkGVR EmptyString "v1" "namespaces")
  else if decide (gvk_Kind k = "ConfigMap") then Ok (mkGVR EmptyString "v1" "configmaps")
  else if decide (gvk_Kind k = "Secret") then Ok (mkGVR EmptyString "v1" "secrets")
  else Err (ErrPlain "no match for the kind").

#[export] Instance ex_objects : ObjectLib := {
  Obj := object;
  getField f o := obj_fields o f;
  setField := set;
  GetAPIVersion := apiVersion;
  ObjectKind := obj_kind;
  DecodeObject := decode;
  EncodeObject o := Ok (encode o);
  RESTMapping := resourceOf;
  HashOfObject o := Ok (encode o);
  HashOfStrings l := Ok (String.concat ";" l);
  CompareJSON a b := Ok (if decide (a = b) then [] else [mkOperation "replace" "/data" EmptyString a]);
  ParsePointer p := Ok [p];
  EvalPointer _ o := Ok (obj_data o);
  ParseGroup s := Ok match str_split slash s with [g; _] => g | _ => EmptyString end;
  BuiltIn _ := Ok true;
  CreateThreeWayJSONMergePatch _ manifest _ := Ok manifest;
  NewPatchMetaFromStruct _ := Ok tt;
  CreateThreeWayStrategicMergePatch _ _ manifest _ := Ok manifest;
  AnnotationsFit _ := true;
  MarshalStatus a b c := Ok (a +:+ b +:+ c);
  MarshalledSize _ := Ok 100%Z;
}.

#[export] Instance ex_object_laws : ObjectLaws ex_objects.
Proof.
  split.
  - intros f v o. cbn. destruct (decide (f = f)) as [e|]; [|done]. by rewrite (proof_irrel e eq_refl).
  - intros f g v o Hne. cbn. destruct (decide (g = f)); [congruence|done].
  - intros f v v' o. change (set f v (set f v' o) = set f v o). unfold set; cbn. f_equal. apply functional_extensionality_dep. intros g.
    by destruct (decide (f = g)).
  - intros f g v v' o Hne. change (set f v (set g v' o) = set g v' (set f v o)). unfold set; cbn. f_equal. apply functional_extensionality_dep. intros h.
    destruct (decide (f = h)), (decide (g = h)); congruence.
  - done.
  - done.
Qed.

#[export] Instance ex_views : TypedViews ex_objects := {
  AsDeployment _ := Err (ErrPlain "not a deployment");
  AsStatefulSet _ := Err (ErrPlain "not a stateful set");
  AsDaemonSet _ := Err (ErrPlain "not a daemon set");
  AsService _ := Err (ErrPlain "not a service");
  CRD := unit;
  AsCRD _ := Ok tt;
  PDB := unit;
  AsPDB _ := Ok tt;
  IsCRDConditionTrue _ _ := true;
  ConditionsAreUpToDate _ := true;
}.

(** ** The two clusters *)

Record world : Type := mkWorld {
  st_works : list Work;
  st_applied : list AppliedWork;
  st_objects : list (GroupVersionResource * object);
  st_limiter : rateLimiter;
  st_queue : list enqueued;
  st_cancelled : option goerr;
}.

Definition set_works l w := mkWorld l (st_applied w) (st_objects w) (st_limiter w) (st_queue w) (st_cancelled w).
Definition set_applied l w := mkWorld (st_works w) l (st_objects w) (st_limiter w) (st_queue w) (st_cancelled w).
Definition set_objects l w := mkWorld (st_works w) (st_applied w) l (st_limiter w) (st_queue w) (st_cancelled w).

Definition found {A} (o : option A) : outcome A :=
  match o with Some a => Ok a | None => Err (ErrAPI NotFound "not found") end.

Definition find {A} (f : A -> bool) (l : list A) : option A := snd <$> list_find (fun a => f a = true) l.

Lemma find_holds {A} (f : A -> bool) l a : find f l = Some a -> f a = true.
Proof. unfold find. intros ([i b] & H & ->)%fmap_Some. by apply list_find_Some in H as (_ & ? & _). Qed.

Definition at_key (gvr : GroupVersionResource) (ns name : string) (e : GroupVersionResource * object) : bool :=
  bool_decide (e.1 = gvr) && bool_decide (GetNamespace e.2 = ns) && bool_decide (GetName e.2 = name).

Definition stored (gvr : GroupVersionResource) (ns name : string) (w : world) : outcome object :=
  found (snd <$> find (at_key gvr ns name) (st_objects w)).

Definition put (gvr : GroupVersionResource) (o : object) (w : world) : world :=
  set_objects ((gvr, o) :: filter (fun e => at_key gvr (GetNamespace o) (GetName o) e = false) (st_objects w)) w.

(** What a patch or an apply operation leaves at a key: what was submitted, there. *)
Definition applied_at (ns name : string) (o : object) : object := set FNamespace ns (set FName name o).

#[export] Instance ex_member : MemberClient ex_objects world := {
  member_get gvr ns name w := (w, stored gvr ns name w);
  member_create gvr ns o w := (put gvr o w, Ok o);
  member_update gvr ns o w := (put gvr o w, Ok o);
  member_patch gvr ns name p dry w :=
    match stored gvr ns name w, decode (patch_Data p) with
    | Ok live, Ok m =>
        let o := applied_at ns name (mkObject (obj_kind live) (obj_data m) (obj_fields live)) in
        (if dry then w else put gvr o w, Ok o)
    | Err e, _ | _, Err e => (w, Err e)
    | _, _ => (w, Panic "unreachable")
    end;
  member_apply gvr ns name o force dry w :=
    let o := applied_at ns name o in (if dry then w else put gvr o w, Ok o);
  member_delete gvr ns name uid w := (set_objects (filter (fun e => at_key gvr ns name e = false) (st_objects w)) w, Ok tt);
}.

Definition is_work (k : ObjectKey) (x : Work) : bool := bool_decide (workKey x = k).

Definition put_work (x : Work) (w : world) : world * outcome Work :=
  match find (is_work (workKey x)) (st_works w) with
  | Some _ => (set_works ((fun y => if is_work (workKey x) y then x else y) <$> st_works w) w, Ok x)
  | None => (w, Err (ErrAPI NotFound "not found"))
  end.

#[export] Instance ex_clients : ApplierClient world := {
  hub_get_work ns name w := (w, found (find (is_work (ns, name)) (st_works w)));
  hub_put_work := put_work;
  hub_put_work_status := put_work;
  hub_list_member_works ns w := (w, Ok (filter (fun x => meta_namespace (w_meta x) = ns) (st_works w)));
  spoke_get_applied_work name w := (w, found (find (fun a => bool_decide (aw_Name a = name)) (st_applied w)));
  spoke_create_applied_work a w := (set_applied (a :: st_applied w) w, Ok a);
  spoke_delete_applied_work a w := (set_applied (filter (fun b => aw_Name b <> aw_Name a) (st_applied w)) w, Ok tt);
  spoke_put_applied_work_status a w :=
    (set_applied ((fun b => if decide (aw_Name b = aw_Name a) then a else b) <$> st_applied w) w, Ok tt);
  ctx_err := st_cancelled;
}.

#[export] Instance ex_memory : ApplierMemory world := {
  is_joined _ := true;
  set_joined _ w := w;
  limiter_of := st_limiter;
  set_limiter r w := mkWorld (st_works w) (st_applied w) (st_objects w) r (st_queue w) (st_cancelled w);
  queue_add es w := mkWorld (st_works w) (st_applied w) (st_objects w) (st_limiter w) (st_queue w ++ es) (st_cancelled w);
}.

Lemma stored_key gvr ns name w o : stored gvr ns name w = Ok o -> GetNamespace o = ns /\ GetName o = name.
Proof.
  unfold stored. destruct (find _ _) as [[g o']|] eqn:E; [|done]. cbn. intros [= <-]. apply find_holds in E.
  unfold at_key in E. cbn in E. rewrite !andb_true_iff, !bool_decide_eq_true in E. tauto.
Qed.

Lemma put_work_key x w x' : (put_work x w).2 = Ok x' -> workKey x' = workKey x.
Proof. unfold put_work. destruct (find _ _); [|done]. by intros [= <-]. Qed.

#[export] Instance ex_laws : ApplierLaws world.
Proof.
  split.
  - intros gvr ns name w o. apply stored_key.
  - intros gvr ns o w o'. by intros [= <-].
  - intros gvr ns o w o'. by intros [= <-].
  - intros gvr ns name p w o. cbn. destruct (stored gvr ns name w), (decode (patch_Data p)); cbn; intros H; by inversion H.
  - intros gvr ns name o force w o'. by intros [= <-].
  - intros ns name w x. cbn. destruct (find _ _) as [y|] eqn:E; [|done]. intros [= <-]. apply find_holds in E.
    by apply bool_decide_eq_true in E.
  - apply put_work_key.
  - apply put_work_key.
  - intros name w a. cbn. destruct (find _ _) as [b|] eqn:E; [|done]. intros [= <-]. apply find_holds in E.
    by apply bool_decide_eq_true in E.
  - intros a w a'. by intros [= <-].
Qed.

(** ** A reconciliation *)

Definition outside (f : spec_float) : Z := 0.
Definition in_order (A : Type) (l : list (string * A)) : list (string * A) := l.
Definition waves_in_order (l : list bundleProcessingWave) : list bundleProcessingWave := l.
Definition joined_messages (l : list string) : string := String.concat "; " l.
Definition ex_config : applierConfig := mkApplierConfig "fleet-member-c" 60 false.

Definition ex_work (manifests : list string) (strategy : option ApplyStrategy) : Work :=
  new_work (mkObjectMeta "w" "fleet-member-c" ∅ ∅ [] None 1 0) (mkWorkSpec manifests strategy None).

(** A config map that nobody owns is in the way; the namespace is missing. *)
Definition ex_live : list (GroupVersionResource * object) :=
  match decode "ConfigMap/app/settings/old" with Ok o => [(mkGVR EmptyString "v1" "configmaps", o)] | _ => [] end.

Definition ex_world (x : Work) : world := mkWorld [x] [] ex_live (defaultRequeueRateLimiter outside) [] None.

Definition ex_manifests : list string := ["ConfigMap/app/settings/new"; "Namespace//app/"; "ConfigMap/app/settings/again"].

Definition reconcile (w : world * list aevent) : (world * list aevent) * outcome Result :=
  Reconcile (W := world * list aevent) outside 7 in_order waves_in_order joined_messages ex_config "fleet-member-c" "w" w.

Definition eventName (e : aevent) : string :=
  match e with
  | WroteStatus _ => "status"
  | CreatedObject gvr _ o => "create " +:+ GetName o
  | UpdatedObject gvr _ o => "update " +:+ GetName o
  | PatchedObject _ _ name => "patch " +:+ name
  | AppliedObject _ _ name _ => "apply " +:+ name
  | DeletedObject _ _ name _ => "delete " +:+ name
  | _ => EmptyString
  end.

Definition writes (tr : list aevent) : list string := filter (fun s => s <> EmptyString) (eventName <$> tr).

(** The attempt is announced, the namespace comes first, the config map is
    taken over and patched, its duplicate left out, and the results reported. *)
Lemma applier_writes_owned_objects_witness :
  exists tr, justifiedTrace "fleet-member-c" "w" tr /\
    bool_decide (writes tr = ["status"; "create app"; "update settings"; "patch settings"; "status"]) = true.
Proof.
  exists (reconcile (ex_world (ex_work ex_manifests None), [])).1.2. split; [|by_evaluation].
  apply applier_writes_owned_objects.
Defined.

(** ** The other theorems *)

Definition steadyWork : Work := ex_work [] None.

Lemma backoff_reaches_cap_witness :
  let r := defaultRequeueRateLimiter outside in
  let ds := delaysFor outside ("fleet-member-c", "w") r (repeat (steadyWork, []) 3) in
  (forall i d, ds !! i = Some d -> (d <= rl_maxFastBackoffDelay r)%Z) /\ bool_decide (length ds = 3%nat) = true.
Proof.
  intros r ds. split; [|by_evaluation].
  refine (proj1 (backoff_reaches_cap outside 1 (f64_of_Z 5) (f64_decimal 12 1) (f64_of_Z 2) (f64_of_Z 15)
    (f64_decimal 15 1) (f64_of_Z 900) true ("fleet-member-c", "w") 1 EmptyString (repeat (steadyWork, []) 3) _ _ _ _ _));
    [unfold isFloat64; by_evaluation..|].
  assert (forall A (P : A -> Prop) a n, P a -> Forall P (repeat a n)) as Hr by (intros A P a n Ha; induction n; cbn; by constructor).
  apply Hr. intros _. split; [done|]. by_evaluation.
Defined.

Definition ex_applied : AppliedWork := mkAppliedWork "w" "uid-w" None "w" "fleet-member-c" [].

Definition ex_object (raw : string) : Obj (ObjectLib := ex_objects) :=
  match decode raw with Ok o => o | _ => mkObject (mkGVK EmptyString EmptyString EmptyString) EmptyString noFields end.

Definition clientSide : ApplyStrategy :=
  mkApplyStrategy ComparisonOptionTypePartialComparison WhenToApplyTypeIfNotDrifted ApplyStrategyTypeClientSideApply false None
    WhenToTakeOverTypeAlways.

Lemma drift_check_follows_manifest_witness :
  exists live, shouldPerformPreApplyDriftDetection (ex_object "ConfigMap/app/settings/new") (Some live) clientSide = Ok true /\
    shouldPerformPreApplyDriftDetection (ex_object "ConfigMap/app/settings/newer") (Some live) clientSide = Ok false.
Proof.
  set (r := prepareManifest (ex_object "ConfigMap/app/settings/new") None clientSide (expectedOwnerRef ex_applied)).
  assert (is_ok r = true) as Hr by by_evaluation. destruct r as [[submitted isSet]| |] eqn:Er; [|discriminate..].
  exists submitted. unfold r in Er.
  destruct (drift_check_follows_manifest _ _ _ _ _ _ submitted clientSide Er eq_refl eq_refl) as [H1 H2].
  split; [exact H1|].
  apply (H2 _ (match manifestHash (ex_object "ConfigMap/app/settings/newer") with Ok h => h | _ => EmptyString end)); [by_evaluation|].
  by_decide.
Defined.

Lemma secret_data_concealed_witness :
  exists ds, Forall concealed ds /\ ds = [mkPatchDetail "/data" redacted redacted].
Proof.
  set (w := ex_world (ex_work [] None)).
  set (r := diffBetweenManifestAndInMemberClusterObjects (mkGVR EmptyString "v1" "secrets") (ex_object "Secret/app/s/a")
    (ex_object "Secret/app/s/b") ComparisonOptionTypePartialComparison w).
  assert (match r.2 with Ok (ds, _) => bool_decide (ds = [mkPatchDetail "/data" redacted redacted]) | _ => false end = true) as Hr
    by by_evaluation.
  destruct r as [w' [[ds degraded]|e|p]] eqn:Er; cbn in Hr; [|discriminate..]. apply bool_decide_eq_true in Hr.
  exists ds. split; [|done]. unfold r in Er.
  refine (secret_data_concealed _ _ _ _ _ _ _ _ _ _ Er); [|by_evaluation].
  intros ns name o force w1 w2 o' [= _ <-]. done.
Defined.

Definition ex_bundles : list manifestProcessingBundle :=
  decodeBundle 0 (newBundle "ConfigMap/app/settings/new") :: [set_bd_result Applied (decodeBundle 1 (newBundle "Namespace//app/"))].


(** ** What the comments say otherwise *)

Definition is_panic {A} (r : outcome A) : bool := match r with Panic _ => true | _ => false end.

Definition ex_id (ordinal : Z) : WorkResourceIdentifier :=
  mkWorkIdentifier ordinal EmptyString "v1" "ConfigMap" "configmaps" "app" "settings".

Definition ex_condition (t : string) (status : ConditionStatus) (reason : string) : Condition := mkCondition t status 1 3 reason EmptyString.

(** A manifest whose differences were reported has no Applied condition; if it
    is removed together with the switch to another strategy, the condition
    that is not there is dereferenced. *)
Lemma left_over_after_report_diff_panics :
  is_panic (findLeftOverManifests in_order []
    [mkManifestCondition (ex_id 0) [ex_condition WorkConditionTypeDiffReported ConditionTrue "DiffReported"] None None None]) = true.
Proof. by_evaluation. Qed.

(** With the same manifest twice, the condition of the duplicate hides the one
    of the manifest that was applied: once both are gone, nothing is left over,
    and the object stays. *)
Lemma applied_duplicate_never_left_over :
  bool_decide (findLeftOverManifests in_order []
    [mkManifestCondition (ex_id 0) [ex_condition WorkConditionTypeApplied ConditionTrue "Applied"] None None None;
     mkManifestCondition (ex_id 1) [ex_condition WorkConditionTypeApplied ConditionFalse "Duplicated"] None None None] = Ok []) = true.
Proof. by_evaluation. Qed.

(** The context is cancelled before the manifests are decoded: the caller of
    the parallelizer does not inspect it, and the missing identifier is
    dereferenced. *)
Lemma cancelled_decoding_panics :
  is_panic (Reconcile outside 7 in_order waves_in_order joined_messages ex_config "fleet-member-c" "w"
    (mkWorld [ex_work ex_manifests None] [] ex_live (defaultRequeueRateLimiter outside) [] (Some (ErrPlain "context canceled")))).2 = true.
Proof. by_evaluation. Qed.

(** A reference that is not one to an [AppliedWork] is dropped if there is no
    Work of its name: either half of the test is enough to look for one. *)
Lemma other_kind_taken_for_applied_work :
  bool_decide ((keepsOwnerRef "fleet-member-c" (mkOwnerReference GroupVersionString "ClusterResourcePlacement" "crp" "u" None)
    (ex_world (ex_work [] None))).2 = Ok false) = true.
Proof. by_evaluation. Qed.

End MemApplier.
