(* ===== verification/PlacementApi.v ===== *)
(** * What the placement controller reads and writes

    The names, the status helpers and the calls that
    [pkg/controllers/placement] and [pkg/utils/controller] use for placements,
    policy snapshots and resource snapshots: the conditions of
    [pkg/utils/condition/condition.go], the labels and annotations of
    [pkg/utils/labels] and [pkg/utils/annotations], and the client calls, which
    stay parameters. *)

From stdpp Require Import prelude gmap strings.
From S2P Require Import Prelude K8s Api Sample Utils FrameworkUtils Hub Overrider WorkApi.

Local Open Scope string_scope.
Local Open Scope list_scope.

(** ** Names *)

Definition PlacementCleanupFinalizer : string := FleetPrefix +:+ "crp-cleanup".
Definition NumberOfEnvelopedObjectsAnnotation : string := FleetPrefix +:+ "number-of-enveloped-object".
Definition NextResourceSnapshotCandidateDetectionTimeAnnotation : string :=
  FleetPrefix +:+ "next-resource-snapshot-candidate-detection-time".
Definition NamespaceAccessible : string := "NamespaceAccessible".

(** [strconv.FormatBool] *)
Definition FormatBool (b : bool) : string := if b then "true" else "false".

(** [fmt.Sprintf] with [PolicySnapshotNameFmt], [ResourceSnapshotNameFmt] and
    [ResourceSnapshotNameWithSubindexFmt]. *)
Definition policySnapshotName (placement : string) (index : Z) : string :=
  placement +:+ String dash (zstr index).
Definition resourceSnapshotName (placement : string) (index : Z) : string :=
  placement +:+ String dash (zstr index +:+ "-snapshot").
Definition subindexSnapshotName (placement : string) (index subindex : Z) : string :=
  placement +:+ String dash (zstr index +:+ String dash (zstr subindex)).

Definition set_meta_labels (ls : gmap string string) (m : ObjectMeta) : ObjectMeta :=
  mkObjectMeta (meta_name m) (meta_namespace m) ls (meta_annotations m) (meta_finalizers m)
    (meta_deletion_timestamp m) (meta_generation m) (meta_resource_version m).

(** The label of a snapshot that says whether it is the latest one. *)
Definition marked_latest (m : ObjectMeta) : bool :=
  bool_decide (meta_labels m !! IsLatestSnapshotLabel = Some (FormatBool true)).

Definition mark_latest (b : bool) (m : ObjectMeta) : ObjectMeta :=
  set_meta_labels (<[IsLatestSnapshotLabel := FormatBool b]> (meta_labels m)) m.

Definition set_annotation (key value : string) (m : ObjectMeta) : ObjectMeta :=
  set_meta_annotations (<[key := value]> (meta_annotations m)) m.

Definition set_snap_meta (m : ObjectMeta) (s : PolicySnapshotObj) : PolicySnapshotObj :=
  mkPolicySnapshot m (snap_spec s) (snap_status s).

Definition set_rsnap_meta (m : ObjectMeta) (s : ResourceSnapshotObj) : ResourceSnapshotObj :=
  mkResourceSnapshot m (rsnap_SelectedResources s).

(** ** Placements *)

Definition pl_name (p : PlacementObj) : string := meta_name (pl_meta p).
Definition pl_namespace (p : PlacementObj) : string := meta_namespace (pl_meta p).
Definition pl_generation (p : PlacementObj) : Z := meta_generation (pl_meta p).
Definition pl_policy (p : PlacementObj) : option PlacementPolicy := psp_Policy (pl_spec p).
Definition pl_conditions (p : PlacementObj) : list Condition := pst_Conditions (pl_status p).
Definition pl_external (p : PlacementObj) : bool :=
  bool_decide (rs_Type (psp_Strategy (pl_spec p)) = ExternalRolloutStrategyType).

Definition set_pl_meta (m : ObjectMeta) (p : PlacementObj) : PlacementObj :=
  mkPlacementObj m (pl_spec p) (pl_status p).
Definition set_pl_status (s : PlacementStatus) (p : PlacementObj) : PlacementObj :=
  mkPlacementObj (pl_meta p) (pl_spec p) s.

Definition set_pst_SelectedResources (r : list ResourceIdentifier) (s : PlacementStatus) : PlacementStatus :=
  mkPlacementStatus r (pst_ObservedResourceIndex s) (pst_PerClusterPlacementStatuses s) (pst_Conditions s).
Definition set_pst_ObservedResourceIndex (i : string) (s : PlacementStatus) : PlacementStatus :=
  mkPlacementStatus (pst_SelectedResources s) i (pst_PerClusterPlacementStatuses s) (pst_Conditions s).
Definition set_pst_PerCluster (c : list PerClusterPlacementStatus) (s : PlacementStatus) : PlacementStatus :=
  mkPlacementStatus (pst_SelectedResources s) (pst_ObservedResourceIndex s) c (pst_Conditions s).
Definition set_pst_Conditions (cs : list Condition) (s : PlacementStatus) : PlacementStatus :=
  mkPlacementStatus (pst_SelectedResources s) (pst_ObservedResourceIndex s) (pst_PerClusterPlacementStatuses s) cs.

Definition upd_pl_status (f : PlacementStatus -> PlacementStatus) (p : PlacementObj) : PlacementObj :=
  set_pl_status (f (pl_status p)) p.
Definition upd_pl_conditions (f : list Condition -> list Condition) (p : PlacementObj) : PlacementObj :=
  upd_pl_status (fun s => set_pst_Conditions (f (pst_Conditions s)) s) p.

(** [placementObj.SetConditions] and [placementObj.GetCondition] *)
Definition setPlacementCondition {K : K8sLib} (now : Z) (c : Condition) : PlacementObj -> PlacementObj :=
  upd_pl_conditions (fun cs => SetStatusCondition now cs c).
Definition getPlacementCondition {K : K8sLib} (p : PlacementObj) (t : string) : option Condition :=
  FindStatusCondition (pl_conditions p) t.

(** [ClusterResourcePlacementStatus]: the copy of the status of a placement kept
    in a namespace. *)
Record PlacementStatusCopy : Set := mkStatusCopy {
  psc_meta : ObjectMeta;
  psc_PlacementStatus : PlacementStatus;
  psc_LastUpdatedTime : Z;
}.

#[global] Instance PlacementStatusCopy_eq_dec : EqDecision PlacementStatusCopy.
Proof. solve_decision. Defined.

(** ** Labels and annotations of snapshots *)

(** A nil label map is an empty one. *)
Definition ParsePolicyIndexFromLabel (policySnapshot : ObjectMeta) : outcome Z :=
  if decide (meta_labels policySnapshot = ∅) then Err (ErrPlain "no labels found on policy snapshot")
  else
    let indexLabel := default EmptyString (meta_labels policySnapshot !! PolicyIndexLabel) in
    let! v := owrap ("invalid policy index " +:+ go_quote indexLabel +:+ ", error") (Atoi indexLabel) in
    if (v <? 0)%Z then
      Err (ErrPlain ("invalid policy index " +:+ go_quote indexLabel +:+ ": must be a non-negative integer"))
    else Ok v.

Definition ExtractResourceIndexFromResourceSnapshot (s : ResourceSnapshotObj) : outcome Z :=
  ExtractIndex (rsnap_meta s) ResourceIndexLabel.

(** The subindex of a snapshot, if it has one. *)
Definition ExtractSubindexFromResourceSnapshot (s : ResourceSnapshotObj) : outcome (option Z) :=
  match meta_annotations (rsnap_meta s) !! SubindexOfResourceSnapshotAnnotation with
  | None | Some EmptyString => Ok None
  | Some subindexStr =>
      let! subindex := owrap ("invalid subindex annotation value " +:+ go_quote subindexStr) (Atoi subindexStr) in
      if (subindex <? 0)%Z then Err (ErrPlain ("subindex cannot be negative: " +:+ zstr subindex))
      else Ok (Some subindex)
  end.

Definition ParseResourceGroupHashFromAnnotation (s : ResourceSnapshotObj) : outcome string :=
  match meta_annotations (rsnap_meta s) !! ResourceGroupHashAnnotation with
  | None => Err (ErrPlain "ResourceGroupHashAnnotation is not set")
  | Some v => Ok v
  end.

Definition ExtractNumberOfResourceSnapshotsFromResourceSnapshot (s : ResourceSnapshotObj) : outcome Z :=
  let invalid := ErrPlain ("resource snapshot " +:+ meta_name (rsnap_meta s) +:+ " has an invalid snapshot count") in
  match Atoi (default EmptyString (meta_annotations (rsnap_meta s) !! NumberOfResourceSnapshotsAnnotation)) with
  | Ok snapshotCount => if (snapshotCount <? 1)%Z then Err invalid else Ok snapshotCount
  | _ => Err invalid
  end.

(** ** Time *)

(** [time.Time{}], in nanoseconds since the epoch: the first day of year 1. *)
Definition zeroTime : Z := -62135596800000000000.

Class TimeLib : Type := {
  (** [Format] and [Parse] with [time.RFC3339]. *)
  FormatRFC3339 : Z -> string;
  ParseRFC3339 : string -> outcome Z;
  (** [GetCreationTimestamp], set by the API server. *)
  creationTimestamp : ObjectMeta -> Z;
}.

Definition ExtractNextResourceSnapshotCandidateDetectionTimeFromResourceSnapshot {T : TimeLib}
    (s : ResourceSnapshotObj) : outcome Z :=
  match meta_annotations (rsnap_meta s) !! NextResourceSnapshotCandidateDetectionTimeAnnotation with
  | None => Ok zeroTime
  | Some str =>
      owrap ("invalid annotation " +:+ NextResourceSnapshotCandidateDetectionTimeAnnotation +:+ ": " +:+ str +:+
        " is not a valid RFC3339 time") (ParseRFC3339 str)
  end.

(** [MaxTime] of [pkg/utils/time] *)
Definition MaxTime (a b : Z) : Z := if (b <? a)%Z then a else b.

(** ** Calls *)

(** [resource.HashOf]: the SHA-256 of the JSON, for the two types it is used on
    here. *)
Class Hasher : Type := {
  HashOfPolicy : option PlacementPolicy -> outcome string;
  HashOfResources : list string -> outcome string;
}.

(** The writes of the snapshots, and the [Get] of a resource snapshot by its
    namespace and name.  [Create] and [Update] give the refreshed object. *)
Class SnapshotClient (W : Type) : Type := {
  hub_create_policy_snapshot : PolicySnapshotObj -> hub W PolicySnapshotObj;
  hub_update_policy_snapshot : PolicySnapshotObj -> hub W PolicySnapshotObj;
  hub_delete_policy_snapshot : PolicySnapshotObj -> hub W unit;
  (** [DeleteAllOf], in a namespace, with the given labels. *)
  hub_delete_policy_snapshots : string -> gmap string string -> hub W unit;
  hub_create_resource_snapshot : ResourceSnapshotObj -> hub W ResourceSnapshotObj;
  hub_update_resource_snapshot : ResourceSnapshotObj -> hub W ResourceSnapshotObj;
  hub_delete_resource_snapshot : ResourceSnapshotObj -> hub W unit;
  hub_delete_resource_snapshots : string -> gmap string string -> hub W unit;
  hub_get_resource_snapshot : string -> string -> hub W ResourceSnapshotObj;
  (** [controllerutil.SetControllerReference(placement, object, scheme)]; the
      owner references of an object are not modelled. *)
  SetControllerReference : PlacementObj -> ObjectMeta -> outcome unit;
}.

Class PlacementClient (W : Type) : Type := {
  hub_update_placement : PlacementObj -> hub W PlacementObj;
  hub_update_placement_status : PlacementObj -> hub W PlacementObj;
  (** [controllerutil.CreateOrUpdate] with the object and the function that
      changes it. *)
  hub_create_or_update_status_copy :
    PlacementStatusCopy -> (PlacementStatusCopy -> outcome PlacementStatusCopy) -> hub W unit;
  (** [Recorder.Eventf] of a normal event, with its reason and note. *)
  hub_record_event : PlacementObj -> string -> string -> W -> W;
}.

(** An error other than NotFound stops the deletions. *)
Definition deleteIgnoringNotFound {W} (call : hub W unit) : hub W unit := fun w =>
  match call w with
  | (w', Err e) => if has_reason NotFound e then (w', Ok tt) else (w', Err (NewAPIServerError false e))
  | r => r
  end.
