(* ===== verification/PolicySnapshots.v ===== *)
(** * Scheduling policy snapshots

    How the placement controller keeps the snapshots of a placement's
    scheduling policy: [getOrCreateSchedulingPolicySnapshot] and its helpers in
    [pkg/controllers/placement/controller.go], with [DeletePolicySnapshots],
    [BuildPolicySnapshot] and [ListPolicySnapshots] of
    [pkg/utils/controller/policy_snapshot_resolver.go].  The snapshot with the
    label [is-latest-snapshot] is the one the scheduler acts on. *)

From stdpp Require Import prelude gmap strings.
From S2P Require Import Prelude K8s Api Sample Utils FrameworkUtils Hub Overrider WorkApi PlacementApi.

Local Open Scope string_scope.
Local Open Scope list_scope.

Section PolicySnapshots.
Context {W : Type} {PS : PolicySnapshotReader W} {SC : SnapshotClient W} {H : Hasher}.

(** [DeletePolicySnapshots] *)
Definition DeletePolicySnapshots (placement : PlacementObj) : hub W unit :=
  hmap_err (NewAPIServerError false)
    (hub_delete_policy_snapshots (pl_namespace placement) {[PlacementTrackingLabel := pl_name placement]}).

(** The number of clusters to pick, for a placement that has one. *)
Definition pickedNumber (placement : PlacementObj) : option Z :=
  match pl_policy placement with
  | Some p => if decide (pol_PlacementType p = PickNPlacementType) then pol_NumberOfClusters p else None
  | None => None
  end.

Definition BuildPolicySnapshot (placement : PlacementObj) (policySnapshotIndex : Z) (policyHash : string)
    : PolicySnapshotObj :=
  let labels : gmap string string :=
    <[PlacementTrackingLabel := pl_name placement]> (<[IsLatestSnapshotLabel := FormatBool true]>
      {[PolicyIndexLabel := zstr policySnapshotIndex]}) in
  let annotations : gmap string string := {[CRPGenerationAnnotation := zstr (pl_generation placement)]} in
  let annotations :=
    match pickedNumber placement with
    | Some n => <[NumberOfClustersAnnotation := zstr n]> annotations
    | None => annotations
    end in
  mkPolicySnapshot
    (set_meta_annotations annotations
      (new_meta (policySnapshotName (pl_name placement) policySnapshotIndex) (pl_namespace placement) labels []))
    (mkSnapshotSpec (pl_policy placement) policyHash)
    (mkSnapshotStatus 0 [] []).

Definition ListPolicySnapshots (placement : PlacementObj) : hub W (list PolicySnapshotObj) :=
  hub_list_policy_snapshots (pl_namespace placement) {[PlacementTrackingLabel := pl_name placement]}.

(** The order the snapshots are sorted in; an invalid index counts as -1. *)
Definition policyIndex (s : PolicySnapshotObj) : Z :=
  match ParsePolicyIndexFromLabel (snap_meta s) with Ok i => i | _ => -1 end.

Definition policyIndexLess (a b : PolicySnapshotObj) : bool := (policyIndex a <? policyIndex b)%Z.

(** The comparisons of [sort.Slice] collect the errors.  One element is never
    compared, and each of several is; the error lists what the comparisons met,
    of which the model keeps the first. *)
Definition sortByPolicyIndex (items : list PolicySnapshotObj) : outcome (list PolicySnapshotObj) :=
  match items with
  | [] | [_] => Ok items
  | _ =>
      match list_find (fun s => ~ is_ok (ParsePolicyIndexFromLabel (snap_meta s))) items with
      | Some (_, s) =>
          match ParsePolicyIndexFromLabel (snap_meta s) with
          | Err e => Err (NewUnexpectedBehaviorError e)
          | _ => Ok items
          end
      | None => Ok (go_sort policyIndexLess items)
      end
  end.

Definition listSortedSchedulingPolicySnapshots (placement : PlacementObj) : hub W (list PolicySnapshotObj) :=
  let* items := hmap_err (NewAPIServerError true) (ListPolicySnapshots placement) in
  hlift (sortByPolicyIndex items).

(** [for i := 0; i <= len(items)-revisionHistoryLimit; i++ { ... items[i] ... }] *)
Fixpoint deleteFirstPolicySnapshots (count : nat) (items : list PolicySnapshotObj) : hub W unit :=
  match count, items with
  | O, _ => hret tt
  | S _, [] => hlift (Panic "index out of range")
  | S n, s :: r =>
      let* _ := deleteIgnoringNotFound (hub_delete_policy_snapshot s) in
      deleteFirstPolicySnapshots n r
  end.

Definition deleteRedundantSchedulingPolicySnapshots (placement : PlacementObj) (revisionHistoryLimit : Z)
    : hub W unit :=
  let* items := listSortedSchedulingPolicySnapshots placement in
  if (Z.of_nat (length items) <? revisionHistoryLimit)%Z then hret tt
  else deleteFirstPolicySnapshots (Z.to_nat (Z.of_nat (length items) - revisionHistoryLimit + 1)) items.

(** The last step of [ensureLatestPolicySnapshot]'s changes in memory: the
    number of clusters to pick. *)
Definition ensureNumberOfClusters (placement : PlacementObj) (latest : PolicySnapshotObj)
    : outcome (PolicySnapshotObj * bool) :=
  match pickedNumber placement with
  | None => Ok (latest, false)
  | Some newCount =>
      match ExtractNumOfClustersFromPolicySnapshot latest with
      | Ok oldCount =>
          if (oldCount =? newCount)%Z then Ok (latest, false)
          else Ok (set_snap_meta (set_annotation NumberOfClustersAnnotation (zstr newCount) (snap_meta latest)) latest,
                   true)
      | Err e => Err (NewUnexpectedBehaviorError e)
      | Panic p => Panic p
      end
  end.

(** The changes in memory, and whether there are any. *)
Definition refreshLatestPolicySnapshot (placement : PlacementObj) (latest : PolicySnapshotObj)
    : outcome (PolicySnapshotObj * bool) :=
  let relabel := negb (marked_latest (snap_meta latest)) in
  let latest := if relabel then set_snap_meta (mark_latest true (snap_meta latest)) latest else latest in
  match ExtractObservedPlacementGenerationFromPolicySnapshot latest with
  | Ok placementGeneration =>
      let stale := negb (placementGeneration =? pl_generation placement)%Z in
      let latest :=
        if stale then
          set_snap_meta (set_annotation CRPGenerationAnnotation (zstr (pl_generation placement)) (snap_meta latest))
            latest
        else latest in
      let! (latest, recounted) := ensureNumberOfClusters placement latest in
      Ok (latest, relabel || stale || recounted)
  | Err e => Err (NewUnexpectedBehaviorError e)
  | Panic p => Panic p
  end.

Definition ensureLatestPolicySnapshot (placement : PlacementObj) (latest : PolicySnapshotObj)
    : hub W PolicySnapshotObj :=
  let* (latest, needUpdate) := hlift (refreshLatestPolicySnapshot placement latest) in
  if (needUpdate : bool) then hmap_err NewUpdateIgnoreConflictError (hub_update_policy_snapshot latest)
  else hret latest.

(** The snapshot with the largest index, when none is marked as the latest. *)
Definition recoverLatestPolicySnapshot (placement : PlacementObj) : hub W (option (PolicySnapshotObj * Z)) :=
  let* items := listSortedSchedulingPolicySnapshots placement in
  match last items with
  | None => hret None
  | Some latestSnapshot =>
      let* policyIndex := hmap_err NewUnexpectedBehaviorError
        (hlift (ParsePolicyIndexFromLabel (snap_meta latestSnapshot))) in
      hret (Some (latestSnapshot, policyIndex))
  end.

(** [errors.Is(err, ErrNoLatestPolicySnapshot)] holds exactly when the list of
    the latest snapshots is empty.  No snapshot at all has the index -1. *)
Definition lookupLatestSchedulingPolicySnapshot (placement : PlacementObj)
    : hub W (option (PolicySnapshotObj * Z)) :=
  let* actives := listLatestPolicySnapshots (pl_namespace placement) (pl_name placement) in
  match actives with
  | [] => recoverLatestPolicySnapshot placement
  | _ =>
      let* activeSnapshot := hlift (onlyPolicySnapshot (pl_name placement) actives) in
      let* policyIndex := hmap_err NewUnexpectedBehaviorError
        (hlift (ParsePolicyIndexFromLabel (snap_meta activeSnapshot))) in
      hret (Some (activeSnapshot, policyIndex))
  end.

(** The policy that is hashed: without the number of clusters. *)
Definition withoutNumber (policy : option PlacementPolicy) : option PlacementPolicy :=
  (fun p => mkPolicy (pol_PlacementType p) (pol_ClusterNames p) None (pol_Affinity p)
              (pol_TopologySpreadConstraints p) (pol_Tolerations p)) <$> policy.

(** Marks the snapshot of another policy as inactive. *)
Definition deactivatePolicySnapshot (latest : PolicySnapshotObj) : hub W unit :=
  if marked_latest (snap_meta latest) then
    let* _ := hmap_err NewUpdateIgnoreConflictError
      (hub_update_policy_snapshot (set_snap_meta (mark_latest false (snap_meta latest)) latest)) in
    hret tt
  else hret tt.

Definition createPolicySnapshot (placement : PlacementObj) (index : Z) (policyHash : string)
    (revisionHistoryLimit : Z) : hub W PolicySnapshotObj :=
  let* _ := deleteRedundantSchedulingPolicySnapshots placement revisionHistoryLimit in
  let newPolicySnapshot := BuildPolicySnapshot placement (wrap64 (index + 1)) policyHash in
  let* _ := hmap_err NewUnexpectedBehaviorError
    (hlift (SetControllerReference placement (snap_meta newPolicySnapshot))) in
  hmap_err (NewAPIServerError false) (hub_create_policy_snapshot newPolicySnapshot).

Definition getOrCreateSchedulingPolicySnapshot (placement : PlacementObj) (revisionHistoryLimit : Z)
    : hub W PolicySnapshotObj :=
  let* policyHash := hmap_err NewUnexpectedBehaviorError
    (hlift (HashOfPolicy (withoutNumber (pl_policy placement)))) in
  let* latest := lookupLatestSchedulingPolicySnapshot placement in
  match latest with
  | Some (latestPolicySnapshot, index) =>
      if decide (sps_PolicyHash (snap_spec latestPolicySnapshot) = policyHash) then
        ensureLatestPolicySnapshot placement latestPolicySnapshot
      else
        let* _ := deactivatePolicySnapshot latestPolicySnapshot in
        createPolicySnapshot placement index policyHash revisionHistoryLimit
  | None => createPolicySnapshot placement (-1) policyHash revisionHistoryLimit
  end.

End PolicySnapshots.
