(* ===== verification/ResourceSnapshots.v ===== *)
(** * Resource snapshots

    [ResourceSnapshotResolver] of
    [pkg/utils/controller/resource_snapshot_resolver.go], which keeps the
    snapshots of the resources a placement selects, and [SplitSelectedResources]
    of [snapshot_builder.go].  The resources of one round are a group of
    snapshots with the same index: a master, which has their hash and the number
    of snapshots, and the rest by subindex.  The placement controller and the
    update runs share this code. *)

From stdpp Require Import prelude gmap strings.
From S2P Require Import Prelude K8s Api Sample Utils FrameworkUtils Hub Overrider WorkApi PlacementApi PolicySnapshots.

Local Open Scope string_scope.
Local Open Scope list_scope.

(** ** Splitting the resources *)

(** The inner loop: the resources that fit after [currentSize] bytes, and the
    rest. *)
Fixpoint takeFitting (snapshotSizeLimit currentSize : Z) (resources : list string) : list string * list string :=
  match resources with
  | [] => ([], [])
  | r :: rest =>
      let currentSize := (currentSize + Z.of_nat (String.length r))%Z in
      if (snapshotSizeLimit <? currentSize)%Z then ([], resources)
      else
        let '(fitting, others) := takeFitting snapshotSizeLimit currentSize rest in
        (r :: fitting, others)
  end.

(** A resource that exceeds the limit on its own gets a list of its own. *)
Definition nextPiece (snapshotSizeLimit : Z) (resources : list string) : list string * list string :=
  match takeFitting snapshotSizeLimit 0 resources with
  | ([], r :: rest) =>
      if (snapshotSizeLimit <? Z.of_nat (String.length r))%Z then ([r], rest) else ([], resources)
  | piece => piece
  end.

(** The outer loop; each turn takes one resource at least, so that their number
    bounds the turns. *)
Fixpoint splitLoop (turns : nat) (snapshotSizeLimit : Z) (resources : list string) : list (list string) :=
  match turns, resources with
  | O, _ | _, [] => []
  | S n, _ =>
      let '(piece, rest) := nextPiece snapshotSizeLimit resources in
      piece :: splitLoop n snapshotSizeLimit rest
  end.

Definition SplitSelectedResources (selectedResources : list string) (snapshotSizeLimit : Z) : list (list string) :=
  splitLoop (length selectedResources) snapshotSizeLimit selectedResources.

(** The default of [resourceSnapshotResourceSizeLimit], a variable. *)
Definition resourceSnapshotResourceSizeLimit : Z := 800 * Z.shiftl 1 10.

Record ResourceSnapshotConfig : Set := mkSnapshotConfig {
  ResourceSnapshotCreationMinimumInterval : Z;
  ResourceChangesCollectionDuration : Z;
}.

(** ** Building snapshots *)

Definition BuildMasterResourceSnapshot (latestResourceSnapshotIndex resourceSnapshotCount envelopeObjCount : Z)
    (placementName placementNamespace resourceHash : string) (selectedResources : list string)
    : ResourceSnapshotObj :=
  let labels : gmap string string :=
    <[PlacementTrackingLabel := placementName]> (<[IsLatestSnapshotLabel := FormatBool true]>
      {[ResourceIndexLabel := zstr latestResourceSnapshotIndex]}) in
  let annotations : gmap string string :=
    <[ResourceGroupHashAnnotation := resourceHash]>
      (<[NumberOfResourceSnapshotsAnnotation := zstr resourceSnapshotCount]>
        {[NumberOfEnvelopedObjectsAnnotation := zstr envelopeObjCount]}) in
  mkResourceSnapshot
    (set_meta_annotations annotations
      (new_meta (resourceSnapshotName placementName latestResourceSnapshotIndex) placementNamespace labels []))
    selectedResources.

Definition BuildSubIndexResourceSnapshot (latestResourceSnapshotIndex resourceSnapshotSubIndex : Z)
    (placementName placementNamespace : string) (selectedResources : list string) : ResourceSnapshotObj :=
  let labels : gmap string string :=
    <[PlacementTrackingLabel := placementName]> {[ResourceIndexLabel := zstr latestResourceSnapshotIndex]} in
  let annotations : gmap string string :=
    {[SubindexOfResourceSnapshotAnnotation := zstr resourceSnapshotSubIndex]} in
  mkResourceSnapshot
    (set_meta_annotations annotations
      (new_meta (subindexSnapshotName placementName latestResourceSnapshotIndex resourceSnapshotSubIndex)
         placementNamespace labels []))
    selectedResources.

(** ** Sorting snapshots *)

Definition resourceIndex (s : ResourceSnapshotObj) : Z :=
  match ExtractResourceIndexFromResourceSnapshot s with Ok i => i | _ => -1 end.

Definition subindexOf (s : ResourceSnapshotObj) : option Z :=
  match ExtractSubindexFromResourceSnapshot s with Ok i => i | _ => None end.

(** By index, then by subindex; the one without a subindex is the last. *)
Definition resourceSnapshotLess (a b : ResourceSnapshotObj) : bool :=
  if (resourceIndex a =? resourceIndex b)%Z then
    match subindexOf a, subindexOf b with
    | None, _ => false
    | Some _, None => true
    | Some i, Some j => (i <? j)%Z
    end
  else (resourceIndex a <? resourceIndex b)%Z.

Definition groupOf (items : list ResourceSnapshotObj) (s : ResourceSnapshotObj) : list ResourceSnapshotObj :=
  filter (fun t => resourceIndex t = resourceIndex s) items.

(** The error the comparisons meet at a snapshot: the subindex is read when it
    is compared within its group. *)
Definition comparisonError (items : list ResourceSnapshotObj) (s : ResourceSnapshotObj) : option goerr :=
  match ExtractResourceIndexFromResourceSnapshot s with
  | Err e => Some e
  | _ =>
      if (1 <? length (groupOf items s))%nat then
        match ExtractSubindexFromResourceSnapshot s with Err e => Some e | _ => None end
      else None
  end.

(** Two snapshots of a group without a subindex. *)
Definition mastersClash (items : list ResourceSnapshotObj) : bool :=
  existsb (fun s => (1 <? length (filter (fun t => subindexOf t = None) (groupOf items s)))%nat) items.

(** As for policy snapshots, one element is never compared, and neighbours are.
    When two snapshots of a group have no subindex, the error appended is the nil
    of the last extraction: the result is then a nil list without an error. *)
Definition sortResourceSnapshots (items : list ResourceSnapshotObj) : outcome (option (list ResourceSnapshotObj)) :=
  match items with
  | [] | [_] => Ok (Some items)
  | _ =>
      match omap (comparisonError items) items with
      | e :: _ => Err (NewUnexpectedBehaviorError e)
      | [] => if mastersClash items then Ok None else Ok (Some (go_sort resourceSnapshotLess items))
      end
  end.

Section Resolver.
Context {W : Type} {SR : SnapshotReader W} {SC : SnapshotClient W} {H : Hasher} {T : TimeLib}.

(** [r.Config], the size limit of a snapshot, and [time.Now()]. *)
Variable config : option ResourceSnapshotConfig.
Variable sizeLimit : Z.
Variable now : Z.

Definition ListAllResourceSnapshots (placement : PlacementObj) : hub W (list ResourceSnapshotObj) :=
  hmap_err (NewAPIServerError true)
    (hub_list_resource_snapshots (pl_namespace placement) {[PlacementTrackingLabel := pl_name placement]}).

Definition DeleteResourceSnapshots (placement : PlacementObj) : hub W unit :=
  hmap_err (NewAPIServerError false)
    (hub_delete_resource_snapshots (pl_namespace placement) {[PlacementTrackingLabel := pl_name placement]}).

(** Both callers go on to read the items of the list. *)
Definition listSortedResourceSnapshots (placement : PlacementObj) : hub W (list ResourceSnapshotObj) :=
  let* items := hmap_err (NewAPIServerError true) (ListAllResourceSnapshots placement) in
  let* sorted := hlift (sortResourceSnapshots items) in
  match sorted with
  | Some sorted => hret sorted
  | None => hlift nil_dereference
  end.

(** The snapshot and its index, if there is one; -1 is the index of none. *)
Definition lookupLatestResourceSnapshot (placement : PlacementObj) : hub W (option (ResourceSnapshotObj * Z)) :=
  let* masterSnapshot := FetchLatestMasterResourceSnapshot (pl_namespace placement, pl_name placement) in
  let* latestSnapshot :=
    match masterSnapshot with
    | Some s => hret (Some s)
    | None => let* sorted := listSortedResourceSnapshots placement in hret (last sorted)
    end in
  match latestSnapshot with
  | None => hret None
  | Some s =>
      let* index := hmap_err NewUnexpectedBehaviorError (hlift (ExtractResourceIndexFromResourceSnapshot s)) in
      hret (Some (s, index))
  end.

Definition ensureLatestResourceSnapshot (latest : ResourceSnapshotObj) : hub W ResourceSnapshotObj :=
  if marked_latest (rsnap_meta latest) then hret latest
  else hmap_err NewUpdateIgnoreConflictError
         (hub_update_resource_snapshot (set_rsnap_meta (mark_latest true (rsnap_meta latest)) latest)).

(** The time a change was first seen, kept as an annotation of the snapshot. *)
Definition detectionTime (latest : ResourceSnapshotObj) : hub W (Z * ResourceSnapshotObj) :=
  match ExtractNextResourceSnapshotCandidateDetectionTimeFromResourceSnapshot latest with
  | Panic p => hlift (Panic p)
  | Ok t =>
      if (t =? zeroTime)%Z then
        let* latest := hmap_err NewUpdateIgnoreConflictError (hub_update_resource_snapshot
          (set_rsnap_meta (set_annotation NextResourceSnapshotCandidateDetectionTimeAnnotation (FormatRFC3339 now)
             (rsnap_meta latest)) latest)) in
        hret (now, latest)
      else hret (t, latest)
  | Err _ =>
      let* latest := hmap_err NewUpdateIgnoreConflictError (hub_update_resource_snapshot
        (set_rsnap_meta (set_annotation NextResourceSnapshotCandidateDetectionTimeAnnotation (FormatRFC3339 now)
           (rsnap_meta latest)) latest)) in
      hret (now, latest)
  end.

(** How long to wait before the next group, 0 for not at all. *)
Definition shouldCreateNewResourceSnapshotNow (latest : ResourceSnapshotObj) : hub W (Z * ResourceSnapshotObj) :=
  match config with
  | None => hret (0%Z, latest)
  | Some c =>
      if (ResourceSnapshotCreationMinimumInterval c <=? 0)%Z && (ResourceChangesCollectionDuration c <=? 0)%Z then
        hret (0%Z, latest)
      else
        let* (detected, latest) := detectionTime latest in
        let nextCreationTime :=
          MaxTime (detected + ResourceChangesCollectionDuration c)%Z
            (creationTimestamp (rsnap_meta latest) + ResourceSnapshotCreationMinimumInterval c)%Z in
        if (now <? nextCreationTime)%Z then hret (time_sub nextCreationTime now, latest) else hret (0%Z, latest)
  end.

(** The loop over the snapshots from the last one. *)
Fixpoint deleteOldGroups (revisionHistoryLimit lastGroupIndex groupCounter : Z) (items : list ResourceSnapshotObj)
    : hub W unit :=
  match items with
  | [] => hret tt
  | s :: rest =>
      let* ii := hmap_err NewUnexpectedBehaviorError (hlift (ExtractResourceIndexFromResourceSnapshot s)) in
      let groupCounter := if (ii =? lastGroupIndex)%Z then groupCounter else (groupCounter + 1)%Z in
      if (groupCounter <? revisionHistoryLimit)%Z then deleteOldGroups revisionHistoryLimit ii groupCounter rest
      else
        let* _ := deleteIgnoringNotFound (hub_delete_resource_snapshot s) in
        deleteOldGroups revisionHistoryLimit ii groupCounter rest
  end.

Definition deleteRedundantResourceSnapshots (placement : PlacementObj) (revisionHistoryLimit : Z) : hub W unit :=
  let* items := listSortedResourceSnapshots placement in
  if (Z.of_nat (length items) <? revisionHistoryLimit)%Z then hret tt
  else deleteOldGroups revisionHistoryLimit (-1) 0 (reverse items).

Definition createResourceSnapshot (placement : PlacementObj) (resourceSnapshot : ResourceSnapshotObj)
    : hub W ResourceSnapshotObj :=
  let* _ := hmap_err NewUnexpectedBehaviorError
    (hlift (SetControllerReference placement (rsnap_meta resourceSnapshot))) in
  hmap_err (NewAPIServerError false) (hub_create_resource_snapshot resourceSnapshot).

(** ** The group of one round *)

Section Group.
Variable placement : PlacementObj.
Variable envelopeObjCount : Z.
Variable resourceHash : string.

Definition masterFor (index count : Z) (resources : list string) : ResourceSnapshotObj :=
  BuildMasterResourceSnapshot index count envelopeObjCount (pl_name placement) (pl_namespace placement)
    resourceHash resources.

(** The loop that creates the snapshots of a group from position [i] on; the
    first of them is the master. *)
Fixpoint createSnapshots (index count : Z) (i : nat) (pieces : list (list string))
    (latest : option ResourceSnapshotObj) : hub W (option ResourceSnapshotObj) :=
  match pieces with
  | [] => hret latest
  | piece :: rest =>
      match i with
      | O =>
          let* master := createResourceSnapshot placement (masterFor index count piece) in
          createSnapshots index count 1 rest (Some master)
      | S j =>
          let* _ := createResourceSnapshot placement
            (BuildSubIndexResourceSnapshot index (Z.of_nat j) (pl_name placement) (pl_namespace placement) piece) in
          createSnapshots index count (S i) rest latest
      end
  end.

(** A new group, with the index after [latestIndex]. *)
Definition createGroup (latestIndex : Z) (selectedResources : list string) (revisionHistoryLimit : Z)
    (latest : option ResourceSnapshotObj) : hub W (option ResourceSnapshotObj) :=
  let* _ := deleteRedundantResourceSnapshots placement revisionHistoryLimit in
  let index := wrap64 (latestIndex + 1) in
  let selectedResourcesList := SplitSelectedResources selectedResources sizeLimit in
  match selectedResourcesList with
  | [] =>
      let* master := createResourceSnapshot placement (masterFor index 1 []) in
      hret (Some master)
  | _ => createSnapshots index (Z.of_nat (length selectedResourcesList)) 0 selectedResourcesList latest
  end.

(** The rest of a group that was left incomplete. *)
Definition resumeGroup (latest : ResourceSnapshotObj) (index numberOfSnapshots : Z) (selectedResources : list string)
    : hub W (option ResourceSnapshotObj) :=
  let* latest := ensureLatestResourceSnapshot latest in
  let* group := hmap_err (NewAPIServerError true) (ListAllResourceSnapshotWithAnIndex
    (default EmptyString (meta_labels (rsnap_meta latest) !! ResourceIndexLabel))
    (pl_name placement) (pl_namespace placement)) in
  if (Z.of_nat (length group) =? numberOfSnapshots)%Z then hret (Some latest)
  else
    let selectedResourcesList := SplitSelectedResources selectedResources sizeLimit in
    createSnapshots index (Z.of_nat (length selectedResourcesList)) (length group)
      (drop (length group) selectedResourcesList) (Some latest).

End Group.

(** Replaces the group of other resources, now or later. *)
Definition replaceGroup (placement : PlacementObj) (envelopeObjCount : Z) (resourceHash : string)
    (latest : ResourceSnapshotObj) (index : Z) (selectedResources : list string) (revisionHistoryLimit : Z)
    : hub W (Z * option ResourceSnapshotObj) :=
  if marked_latest (rsnap_meta latest) then
    let* (after, latest) := shouldCreateNewResourceSnapshotNow latest in
    if (0 <? after)%Z then hret (after, Some latest)
    else
      let* latest := hmap_err NewUpdateIgnoreConflictError
        (hub_update_resource_snapshot (set_rsnap_meta (mark_latest false (rsnap_meta latest)) latest)) in
      let* s := createGroup placement envelopeObjCount resourceHash index selectedResources revisionHistoryLimit
        (Some latest) in
      hret (0%Z, s)
  else
    let* s := createGroup placement envelopeObjCount resourceHash index selectedResources revisionHistoryLimit
      (Some latest) in
    hret (0%Z, s).

(** The time after which to try again, and the latest master snapshot. *)
Definition GetOrCreateResourceSnapshot (placement : PlacementObj) (envelopeObjCount : Z)
    (selectedResources : list string) (revisionHistoryLimit : Z) : hub W (Z * option ResourceSnapshotObj) :=
  let* resourceHash := hmap_err NewUnexpectedBehaviorError (hlift (HashOfResources selectedResources)) in
  let* latest := lookupLatestResourceSnapshot placement in
  match latest with
  | None =>
      let* s := createGroup placement envelopeObjCount resourceHash (-1) selectedResources revisionHistoryLimit None in
      hret (0%Z, s)
  | Some (latest, index) =>
      let* latestHash := hmap_err NewUnexpectedBehaviorError (hlift (ParseResourceGroupHashFromAnnotation latest)) in
      let* numberOfSnapshots := hmap_err NewUnexpectedBehaviorError
        (hlift (ExtractNumberOfResourceSnapshotsFromResourceSnapshot latest)) in
      if decide (latestHash = resourceHash) then
        let* s := resumeGroup placement envelopeObjCount resourceHash latest index numberOfSnapshots selectedResources in
        hret (0%Z, s)
      else replaceGroup placement envelopeObjCount resourceHash latest index selectedResources revisionHistoryLimit
  end.

End Resolver.
