(* ===== verification/PlacementStatus.v ===== *)
(** * The status of a placement

    [pkg/controllers/placement/placement_status.go], the functions of
    [controller.go] that fill in the status, and the placement conditions of
    [pkg/utils/condition/condition.go].  The status of a placement is put
    together from the decisions of the scheduler, kept in the policy snapshot,
    and from the conditions the other controllers set on the bindings. *)

From stdpp Require Import prelude gmap strings.
From S2P Require Import Prelude K8s Api Sample Utils FrameworkUtils Hub Overrider WorkApi PlacementApi PolicySnapshots ResourceSnapshots.

Local Open Scope string_scope.
Local Open Scope list_scope.

#[global] Instance ResourceCondition_eq_dec : EqDecision ResourceCondition.
Proof. solve_decision. Defined.

(** ** Conditions: [pkg/utils/condition/condition.go] *)

Definition CondTypesForApplyStrategies : list ResourceCondition :=
  [RolloutStartedCondition; OverriddenCondition; WorkSynchronizedCondition; AppliedCondition; AvailableCondition].

Definition CondTypesForReportDiffApplyStrategy : list ResourceCondition :=
  [RolloutStartedCondition; OverriddenCondition; WorkSynchronizedCondition; DiffReportedCondition].

(** [for i := condition.RolloutStartedCondition; i < condition.TotalCondition; i++] *)
Definition allConditions : list ResourceCondition :=
  [RolloutStartedCondition; OverriddenCondition; WorkSynchronizedCondition; AppliedCondition; AvailableCondition;
   DiffReportedCondition].

Definition EventReasonForTrue (c : ResourceCondition) : string :=
  match c with
  | RolloutStartedCondition => "PlacementRolloutStarted"
  | OverriddenCondition => "PlacementOverriddenSucceeded"
  | WorkSynchronizedCondition => "PlacementWorkSynchronized"
  | AppliedCondition => "PlacementApplied"
  | AvailableCondition => "PlacementAvailable"
  | DiffReportedCondition => "PlacementDiffReported"
  end.

Definition EventMessageForTrue (c : ResourceCondition) : string :=
  match c with
  | RolloutStartedCondition => "Started rolling out the latest resources"
  | OverriddenCondition => "Placement has been successfully overridden"
  | WorkSynchronizedCondition => "Work(s) have been created or updated successfully for the selected cluster(s)"
  | AppliedCondition => "Resources have been applied to the selected cluster(s)"
  | AvailableCondition => "Resources are available on the selected cluster(s)"
  | DiffReportedCondition => "Configuration differences have been reported on the selected cluster(s)"
  end.

Definition PerClusterScheduledConditionType : string := "Scheduled".

Definition PerClusterPlacementConditionType (c : ResourceCondition) : string :=
  match c with
  | RolloutStartedCondition => "RolloutStarted"
  | OverriddenCondition => "Overridden"
  | WorkSynchronizedCondition => "WorkSynchronized"
  | AppliedCondition => "Applied"
  | AvailableCondition => "Available"
  | DiffReportedCondition => "DiffReported"
  end.

Definition ClusterResourcePlacementConditionType (c : ResourceCondition) : string :=
  match c with
  | RolloutStartedCondition => "ClusterResourcePlacementRolloutStarted"
  | OverriddenCondition => "ClusterResourcePlacementOverridden"
  | WorkSynchronizedCondition => "ClusterResourcePlacementWorkSynchronized"
  | AppliedCondition => "ClusterResourcePlacementApplied"
  | AvailableCondition => "ClusterResourcePlacementAvailable"
  | DiffReportedCondition => "ClusterResourcePlacementDiffReported"
  end.

Definition ResourcePlacementConditionType (c : ResourceCondition) : string :=
  match c with
  | RolloutStartedCondition => "ResourcePlacementRolloutStarted"
  | OverriddenCondition => "ResourcePlacementOverridden"
  | WorkSynchronizedCondition => "ResourcePlacementWorkSynchronized"
  | AppliedCondition => "ResourcePlacementApplied"
  | AvailableCondition => "ResourcePlacementAvailable"
  | DiffReportedCondition => "ResourcePlacementDiffReported"
  end.

Definition UnknownPerClusterCondition (c : ResourceCondition) (generation : Z) : Condition :=
  let '(reason, message) :=
    match c with
    | RolloutStartedCondition => ("RolloutStartedUnknown",
        "In the process of deciding whether to roll out some version of the resources or not")
    | OverriddenCondition => (OverriddenPendingReason,
        "In the process of overriding the selected resources if there is any override defined")
    | WorkSynchronizedCondition => ("WorkSynchronizedUnknown",
        "In the process of creating or updating the work object(s) in the hub cluster")
    | AppliedCondition => (ApplyPendingReason, "In the process of applying the resources on the member cluster")
    | AvailableCondition => ("ResourceAvailableUnknown",
        "The availability of the selected resources is unknown yet ")
    | DiffReportedCondition => ("DiffReportingPending",
        "Diff reporting has just started; its status is not yet to be known")
    end in
  mkCondition (PerClusterPlacementConditionType c) ConditionUnknown generation 0 reason message.

(** The reason and the message of the condition of a placement; the texts for
    a ClusterResourcePlacement and for a ResourcePlacement are the same. *)
Definition unknownText (c : ResourceCondition) (clusterCount : Z) : string * string :=
  let still what := "There are still " +:+ zstr clusterCount +:+ " cluster(s) in the process of " +:+ what in
  match c with
  | RolloutStartedCondition => ("RolloutStartedUnknown",
      still "deciding whether to roll out the latest resources or not")
  | OverriddenCondition => (OverriddenPendingReason,
      still "overriding the selected resources if there is any override defined")
  | WorkSynchronizedCondition => ("WorkSynchronizedUnknown",
      still "creating or updating the work object(s) in the hub cluster")
  | AppliedCondition => (ApplyPendingReason, still "applying the resources on the member cluster")
  | AvailableCondition => ("ResourceAvailableUnknown", still "checking the availability of the selected resources")
  | DiffReportedCondition => ("DiffReportingPending", still "checking for configuration differences")
  end.

Definition falseText (c : ResourceCondition) (clusterCount : Z) : string * string :=
  let n := zstr clusterCount in
  match c with
  | RolloutStartedCondition => (RolloutNotStartedYetReason,
      "The rollout is being blocked by the rollout strategy in " +:+ n +:+ " cluster(s)")
  | OverriddenCondition => ("OverriddenFailed", "Failed to override resources in " +:+ n +:+ " cluster(s)")
  | WorkSynchronizedCondition => (WorkNotSynchronizedYetReason,
      "There are " +:+ n +:+ " cluster(s) which have not finished creating or updating work(s) yet")
  | AppliedCondition => ("ApplyFailed",
      "Failed to apply resources to " +:+ n +:+ " cluster(s), please check the `failedPlacements` status")
  | AvailableCondition => (NotAvailableYetReason,
      "The selected resources in " +:+ n +:+ " cluster(s) are still not available yet")
  | DiffReportedCondition => ("DiffReportingIncompleteOrFailed",
      "Diff reporting in " +:+ n +:+ " clusters is still in progress or has failed")
  end.

Definition trueText (c : ResourceCondition) (clusterCount : Z) : string * string :=
  let n := zstr clusterCount in
  match c with
  | RolloutStartedCondition => (RolloutStartedReason,
      "All " +:+ n +:+ " cluster(s) start rolling out the latest resource")
  | OverriddenCondition => ("OverriddenSucceeded",
      "The selected resources are successfully overridden in " +:+ n +:+ " cluster(s)")
  | WorkSynchronizedCondition => ("WorkSynchronized",
      "Work(s) are successfully created or updated in " +:+ n +:+ " target cluster(s)' namespaces")
  | AppliedCondition => ("ApplySucceeded",
      "The selected resources are successfully applied to " +:+ n +:+ " cluster(s)")
  | AvailableCondition => ("ResourceAvailable",
      "The selected resources in " +:+ n +:+ " cluster(s) are available now")
  | DiffReportedCondition => ("DiffReportingCompleted",
      "Diff reporting in " +:+ n +:+ " cluster(s) has been completed")
  end.

Definition UnknownClusterResourcePlacementCondition (c : ResourceCondition) (generation clusterCount : Z) : Condition :=
  let '(reason, message) := unknownText c clusterCount in
  mkCondition (ClusterResourcePlacementConditionType c) ConditionUnknown generation 0 reason message.

Definition FalseClusterResourcePlacementCondition (c : ResourceCondition) (generation clusterCount : Z) : Condition :=
  let '(reason, message) := falseText c clusterCount in
  mkCondition (ClusterResourcePlacementConditionType c) ConditionFalse generation 0 reason message.

Definition TrueClusterResourcePlacementCondition (c : ResourceCondition) (generation clusterCount : Z) : Condition :=
  let '(reason, message) := trueText c clusterCount in
  mkCondition (ClusterResourcePlacementConditionType c) ConditionTrue generation 0 reason message.

Definition UnknownResourcePlacementCondition (c : ResourceCondition) (generation clusterCount : Z) : Condition :=
  let '(reason, message) := unknownText c clusterCount in
  mkCondition (ResourcePlacementConditionType c) ConditionUnknown generation 0 reason message.

Definition FalseResourcePlacementCondition (c : ResourceCondition) (generation clusterCount : Z) : Condition :=
  let '(reason, message) := falseText c clusterCount in
  mkCondition (ResourcePlacementConditionType c) ConditionFalse generation 0 reason message.

Definition TrueResourcePlacementCondition (c : ResourceCondition) (generation clusterCount : Z) : Condition :=
  let '(reason, message) := trueText c clusterCount in
  mkCondition (ResourcePlacementConditionType c) ConditionTrue generation 0 reason message.

(** ** The two kinds of placement *)

Definition isClusterScopedPlacement (p : PlacementObj) : bool := bool_decide (pl_namespace p = EmptyString).

Definition getPlacementScheduledConditionType (p : PlacementObj) : string :=
  if isClusterScopedPlacement p then ClusterResourcePlacementScheduledConditionType
  else ResourcePlacementScheduledConditionType.

Definition getPlacementRolloutStartedConditionType (p : PlacementObj) : string :=
  if isClusterScopedPlacement p then ClusterResourcePlacementConditionType RolloutStartedCondition
  else ResourcePlacementConditionType RolloutStartedCondition.

Definition getStagedUpdateRunResourceName (p : PlacementObj) : string :=
  if isClusterScopedPlacement p then "ClusterStagedUpdateRun" else "StagedUpdateRun".

Definition getPlacementConditionType (p : PlacementObj) (c : ResourceCondition) : string :=
  if isClusterScopedPlacement p then ClusterResourcePlacementConditionType c else ResourcePlacementConditionType c.

Definition generatePlacementConditionByStatus (p : PlacementObj) (c : ResourceCondition) (status : ConditionStatus)
    (generation clusterCount : Z) : Condition :=
  if isClusterScopedPlacement p then
    match status with
    | ConditionUnknown => UnknownClusterResourcePlacementCondition c generation clusterCount
    | ConditionFalse => FalseClusterResourcePlacementCondition c generation clusterCount
    | ConditionTrue => TrueClusterResourcePlacementCondition c generation clusterCount
    end
  else
    match status with
    | ConditionUnknown => UnknownResourcePlacementCondition c generation clusterCount
    | ConditionFalse => FalseResourcePlacementCondition c generation clusterCount
    | ConditionTrue => TrueResourcePlacementCondition c generation clusterCount
    end.

Definition determineExpectedPlacementAndResourcePlacementStatusCondType (p : PlacementObj) : list ResourceCondition :=
  match rs_ApplyStrategy (psp_Strategy (pl_spec p)) with
  | None => CondTypesForApplyStrategies
  | Some s =>
      if decide (as_Type s = ApplyStrategyTypeReportDiff) then CondTypesForReportDiffApplyStrategy
      else CondTypesForApplyStrategies
  end.

(** ** Clusters *)

(** The number of clusters that could not be picked. *)
Definition calculateFailedToScheduleClusterCount (p : PlacementObj) (selected unselected : list ClusterDecision)
    : outcome Z :=
  let count :=
    match pl_policy p with
    | None => 0%Z
    | Some policy =>
        if decide (pol_PlacementType policy = PickNPlacementType) then
          match pol_NumberOfClusters policy with
          | Some n => (n - Z.of_nat (length selected))%Z
          | None => 0%Z
          end
        else if decide (pol_PlacementType policy = PickFixedPlacementType) then
          (Z.of_nat (length (pol_ClusterNames policy)) - Z.of_nat (length selected))%Z
        else 0%Z
    end in
  if (count <? 0)%Z then
    Err (NewUnexpectedBehaviorError (ErrPlain ("calculated negative failed to schedule cluster count: " +:+ zstr count)))
  else if (Z.of_nat (length unselected) <? count)%Z then Ok (Z.of_nat (length unselected))
  else Ok count.

Definition classifyClusterDecisions (decisions : list ClusterDecision)
    : list ClusterDecision * list ClusterDecision :=
  (filter (fun d => cd_Selected d = true) decisions, filter (fun d => cd_Selected d = false) decisions).

Definition isPolicySelectingNoClusters (policy : option PlacementPolicy) : outcome bool :=
  match policy with
  | None => Ok false
  | Some p =>
      let! none :=
        if decide (pol_PlacementType p = PickNPlacementType) then
          match pol_NumberOfClusters p with
          | Some n => Ok (n =? 0)%Z
          | None => nil_dereference
          end
        else Ok false in
      Ok (none || bool_decide (pol_PlacementType p = PickFixedPlacementType /\ pol_ClusterNames p = []))
  end.

Definition buildPerClusterPlacementStatusMap (p : PlacementObj) : gmap string (list Condition) :=
  fold_left (fun m s =>
    if decide (pcs_ClusterName s = EmptyString \/ pcs_Conditions s = []) then m
    else <[pcs_ClusterName s := pcs_Conditions s]> m) (pst_PerClusterPlacementStatuses (pl_status p)) ∅.

Section Status.
Context {K : K8sLib}.
Variable now : Z.

Definition buildFailedToSchedulePerClusterPlacementStatuses (unselected : list ClusterDecision)
    (failedToScheduleClusterCount : Z) (p : PlacementObj) : list PerClusterPlacementStatus :=
  (fun d => mkPerClusterStatus EmptyString EmptyString [] [] [] [] []
     (SetStatusCondition now [] (mkCondition PerClusterScheduledConditionType ConditionFalse (pl_generation p) 0
        "ScheduleFailed" (cd_Reason d))))
  <$> take (Z.to_nat failedToScheduleClusterCount) unselected.

Definition buildScheduledCondition (p : PlacementObj) (snapshot : PolicySnapshotObj) : Condition :=
  let unknown :=
    mkCondition (getPlacementScheduledConditionType p) ConditionUnknown (pl_generation p) 0 "SchedulePending"
      "Scheduling has not completed" in
  match FindStatusCondition (spst_Conditions (snap_status snapshot)) PolicySnapshotScheduled with
  | None => unknown
  | Some c =>
      if (cond_observed_generation c <? meta_generation (snap_meta snapshot))%Z ||
         (spst_ObservedCRPGeneration (snap_status snapshot) <? pl_generation p)%Z ||
         bool_decide (cond_status c = ConditionUnknown)
      then unknown
      else mkCondition (getPlacementScheduledConditionType p) (cond_status c) (pl_generation p) 0 (cond_reason c)
             (cond_message c)
  end.

(** *** One cluster *)

(** Field assignments on the status of a cluster. *)
Definition set_pcs_Conditions (cs : list Condition) (s : PerClusterPlacementStatus) : PerClusterPlacementStatus :=
  mkPerClusterStatus (pcs_ClusterName s) (pcs_ObservedResourceIndex s) (pcs_ApplicableResourceOverrides s)
    (pcs_ApplicableClusterResourceOverrides s) (pcs_FailedPlacements s) (pcs_DriftedPlacements s)
    (pcs_DiffedPlacements s) cs.
Definition set_pcs_ObservedResourceIndex (i : string) (s : PerClusterPlacementStatus) : PerClusterPlacementStatus :=
  mkPerClusterStatus (pcs_ClusterName s) i (pcs_ApplicableResourceOverrides s)
    (pcs_ApplicableClusterResourceOverrides s) (pcs_FailedPlacements s) (pcs_DriftedPlacements s)
    (pcs_DiffedPlacements s) (pcs_Conditions s).
Definition set_pcs_overrides (ro : list NamespacedName) (cro : list string) (s : PerClusterPlacementStatus)
    : PerClusterPlacementStatus :=
  mkPerClusterStatus (pcs_ClusterName s) (pcs_ObservedResourceIndex s) ro cro (pcs_FailedPlacements s)
    (pcs_DriftedPlacements s) (pcs_DiffedPlacements s) (pcs_Conditions s).
Definition set_pcs_placements (failed : list FailedResourcePlacement) (drifted : list DriftedResourcePlacement)
    (diffed : list DiffedResourcePlacement) (s : PerClusterPlacementStatus) : PerClusterPlacementStatus :=
  mkPerClusterStatus (pcs_ClusterName s) (pcs_ObservedResourceIndex s) (pcs_ApplicableResourceOverrides s)
    (pcs_ApplicableClusterResourceOverrides s) failed drifted diffed (pcs_Conditions s).

Definition setPerClusterCondition (c : Condition) (s : PerClusterPlacementStatus) : PerClusterPlacementStatus :=
  set_pcs_Conditions (SetStatusCondition now (pcs_Conditions s) c) s.

(** What a condition type of the binding adds to the status besides the
    condition. *)
Definition copyBindingDetails (binding : BindingObj) (i : ResourceCondition) (bindingStatus : ConditionStatus)
    (s : PerClusterPlacementStatus) : PerClusterPlacementStatus :=
  match i with
  | RolloutStartedCondition =>
      if decide (bindingStatus = ConditionTrue) then
        set_pcs_overrides (rbs_ResourceOverrideSnapshots (b_spec binding))
          (rbs_ClusterResourceOverrideSnapshots (b_spec binding)) s
      else s
  | AppliedCondition | AvailableCondition =>
      if decide (bindingStatus = ConditionFalse) then
        set_pcs_placements (rbst_FailedPlacements (b_status binding)) (rbst_DriftedPlacements (b_status binding))
          (rbst_DiffedPlacements (b_status binding)) s
      else
        set_pcs_placements (pcs_FailedPlacements s) (rbst_DriftedPlacements (b_status binding))
          (pcs_DiffedPlacements s) s
  | DiffReportedCondition =>
      if decide (bindingStatus = ConditionTrue) then
        set_pcs_placements (pcs_FailedPlacements s) (pcs_DriftedPlacements s)
          (rbst_DiffedPlacements (b_status binding)) s
      else s
  | OverriddenCondition | WorkSynchronizedCondition => s
  end.

(** The condition types that were set, with their status: the map the source
    calls [setStatusByCondType].  Each type is set once. *)
Definition setStatuses : Type := list (ResourceCondition * ConditionStatus).

(** The loop over the expected condition types; a condition that is not True
    ends it. *)
Fixpoint setResourcePlacementStatusBasedOnBinding (p : PlacementObj) (binding : BindingObj)
    (expectedCondTypes : list ResourceCondition) (s : PerClusterPlacementStatus) (set : setStatuses)
    : PerClusterPlacementStatus * setStatuses :=
  match expectedCondTypes with
  | [] => (s, set)
  | i :: rest =>
      let bindingCond := GetCondition binding (ResourceBindingConditionType i) in
      let generation := meta_generation (b_meta binding) in
      match bindingCond with
      | Some c =>
          if IsConditionStatusTrue bindingCond generation || IsConditionStatusFalse bindingCond generation then
            let s := copyBindingDetails binding i (cond_status c) s in
            let s := setPerClusterCondition
              (mkCondition (PerClusterPlacementConditionType i) (cond_status c) (pl_generation p) 0 (cond_reason c)
                 (cond_message c)) s in
            let set := set ++ [(i, cond_status c)] in
            if decide (cond_status c = ConditionFalse) then (s, set)
            else setResourcePlacementStatusBasedOnBinding p binding rest s set
          else
            (setPerClusterCondition (UnknownPerClusterCondition i (pl_generation p)) s,
             set ++ [(i, ConditionUnknown)])
      | None =>
          (setPerClusterCondition (UnknownPerClusterCondition i (pl_generation p)) s, set ++ [(i, ConditionUnknown)])
      end
  end.

(** The resource snapshot is nil only under the External strategy. *)
Definition setPerClusterPlacementStatus (p : PlacementObj) (latestResourceSnapshot : option ResourceSnapshotObj)
    (resourceSnapshotIndexOnBinding : string) (binding : option BindingObj)
    (expectedCondTypes : list ResourceCondition) (s : PerClusterPlacementStatus)
    : outcome (PerClusterPlacementStatus * setStatuses) :=
  let unknown s :=
    (setPerClusterCondition (UnknownPerClusterCondition RolloutStartedCondition (pl_generation p)) s,
     [(RolloutStartedCondition, ConditionUnknown)]) in
  match binding with
  | None => Ok (unknown s)
  | Some binding =>
      if pl_external p then
        Ok (setResourcePlacementStatusBasedOnBinding p binding expectedCondTypes
              (set_pcs_ObservedResourceIndex resourceSnapshotIndexOnBinding s) [])
      else
        match latestResourceSnapshot with
        | None => nil_dereference
        | Some latest =>
            let s := set_pcs_ObservedResourceIndex
              (default EmptyString (meta_labels (rsnap_meta latest) !! ResourceIndexLabel)) s in
            let rolloutStartedCond := GetCondition binding (ResourceBindingConditionType RolloutStartedCondition) in
            if decide (rbs_ResourceSnapshotName (b_spec binding) = meta_name (rsnap_meta latest)) then
              Ok (setResourcePlacementStatusBasedOnBinding p binding expectedCondTypes s [])
            else if IsConditionStatusFalse rolloutStartedCond (meta_generation (b_meta binding)) then
              Ok (setPerClusterCondition
                    (mkCondition (PerClusterPlacementConditionType RolloutStartedCondition) ConditionFalse
                       (pl_generation p) 0 RolloutNotStartedYetReason
                       "The rollout is being blocked by the rollout strategy") s,
                  [(RolloutStartedCondition, ConditionFalse)])
            else Ok (unknown s)
        end
  end.

(** The condition types that were not set are removed. *)
Definition resetUnused (set : setStatuses) (type : ResourceCondition -> string) (cs : list Condition)
    : list Condition :=
  fold_left (fun cs i => if decide (i ∈ set.*1) then cs else RemoveStatusCondition cs (type i)) allConditions cs.

(** The body of the loop over the selected clusters. *)
Definition buildSelectedStatus (p : PlacementObj) (latestResourceSnapshot : option ResourceSnapshotObj)
    (expectedCondTypes : list ResourceCondition) (oldConditions : gmap string (list Condition))
    (bindings : gmap string BindingObj) (indices : gmap string string) (d : ClusterDecision)
    : outcome (PerClusterPlacementStatus * setStatuses) :=
  let s := mkPerClusterStatus (cd_ClusterName d) EmptyString [] [] [] [] []
    (default [] (oldConditions !! cd_ClusterName d)) in
  let s := setPerClusterCondition
    (mkCondition PerClusterScheduledConditionType ConditionTrue (pl_generation p) 0 "Scheduled" (cd_Reason d)) s in
  let! (s, set) := setPerClusterPlacementStatus p latestResourceSnapshot
    (default EmptyString (indices !! cd_ClusterName d)) (bindings !! cd_ClusterName d) expectedCondTypes s in
  Ok (set_pcs_Conditions (resetUnused set PerClusterPlacementConditionType (pcs_Conditions s)) s, set).

(** *** The whole placement *)

(** How often a condition type was set to a status: the counter
    [perClusterCondTypeCounter], as the list of its increments. *)
Definition counted (counter : setStatuses) (i : ResourceCondition) (status : ConditionStatus) : Z :=
  Z.of_nat (length (filter (fun c => c = (i, status)) counter)).

(** The condition of one type, and whether the rest is skipped. *)
Definition placementCondition (p : PlacementObj) (perClusterStatus : list PerClusterPlacementStatus)
    (counter : setStatuses) (i : ResourceCondition) : Condition * bool :=
  let generate status :=
    generatePlacementConditionByStatus p i status (pl_generation p) (counted counter i status) in
  if (0 <? counted counter i ConditionUnknown)%Z then (generate ConditionUnknown, true)
  else if (0 <? counted counter i ConditionFalse)%Z then (generate ConditionFalse, true)
  else
    let cond := generate ConditionTrue in
    let hasOverride := existsb (fun s => bool_decide (pcs_ApplicableResourceOverrides s <> [] \/
      pcs_ApplicableClusterResourceOverrides s <> [])) perClusterStatus in
    if decide (i = OverriddenCondition) then
      if hasOverride then (cond, false)
      else (mkCondition (cond_type cond) (cond_status cond) (cond_observed_generation cond) (cond_last_transition cond)
              "NoOverrideSpecified" "No override rules are configured for the selected resources", false)
    else (cond, false).

(** The loop over the expected condition types; it also gives those it set. *)
Fixpoint setExpectedConditions (perClusterStatus : list PerClusterPlacementStatus) (counter : setStatuses)
    (expectedCondTypes : list ResourceCondition) (p : PlacementObj) : PlacementObj * list ResourceCondition :=
  match expectedCondTypes with
  | [] => (p, [])
  | i :: rest =>
      let '(cond, skip) := placementCondition p perClusterStatus counter i in
      let p := setPlacementCondition now cond p in
      if (skip : bool) then (p, [i])
      else
        let '(p, set) := setExpectedConditions perClusterStatus counter rest p in
        (p, i :: set)
  end.

Definition setPlacementConditions (p : PlacementObj) (perClusterStatus : list PerClusterPlacementStatus)
    (counter : setStatuses) (expectedCondTypes : list ResourceCondition) : PlacementObj :=
  let '(p, set) := setExpectedConditions perClusterStatus counter expectedCondTypes p in
  upd_pl_conditions
    (resetUnused ((fun i => (i, ConditionTrue)) <$> set) (getPlacementConditionType p)) p.

Definition isRolloutCompleted (p : PlacementObj) : bool :=
  IsConditionStatusTrue (getPlacementCondition p (getPlacementScheduledConditionType p)) (pl_generation p) &&
  forallb (fun i => IsConditionStatusTrue (getPlacementCondition p (getPlacementConditionType p i)) (pl_generation p))
    (determineExpectedPlacementAndResourcePlacementStatusCondType p).

End Status.
