(* ===== verification/Placement.v ===== *)
(** * The placement controller

    [Reconcile] of [pkg/controllers/placement/controller.go] with its handlers,
    [namespace_status_sync.go], and the functions of [pkg/utils/controller/controller.go]
    that collect the identifiers of the resources in a group of snapshots.  For
    a placement the controller selects the resources, keeps the policy and
    resource snapshots up to date, and reports the progress in the status. *)

From stdpp Require Import prelude gmap strings.
From S2P Require Import Prelude K8s Api Sample Utils Defaulter FrameworkUtils Hub Overrider WorkApi PlacementApi PolicySnapshots ResourceSnapshots PlacementStatus.

Local Open Scope string_scope.
Local Open Scope list_scope.

Import Defaulter.Defaulter.

(** The field [ResourceSelectorResolver] of the reconciler: the number of
    envelope objects, the content of the selected resources and their
    identifiers. *)
Class ResourceSelectorResolver (W : Type) : Type := {
  selectResources : PlacementObj -> hub W (Z * list string * list ResourceIdentifier);
}.

Definition controllerResyncPeriod : Z := 30 * 60 * second.

(** ** The identifiers of the resources in a group *)

Definition identifierOf (u : Unstructured) : ResourceIdentifier :=
  mkResourceIdentifier (gvk_Group (u_gvk u)) (gvk_Version (u_gvk u)) (gvk_Kind (u_gvk u)) (u_name u) (u_namespace u)
    None.

Section Placement.
Context {K : K8sLib} {W : Type} {C : HubClient W} {P : PlacementReader W} {PS : PolicySnapshotReader W}.
Context {SR : SnapshotReader W} {SC : SnapshotClient W} {PC : PlacementClient W} {RS : ResourceSelectorResolver W}.
Context {H : Hasher} {T : TimeLib} {M : ManifestLib}.

Variable config : option ResourceSnapshotConfig.
Variable sizeLimit : Z.
Variable now : Z.
(** The order in which a range loop visits the entries of a map. *)
Variable mapOrder : forall A : Type, list (string * A) -> list (string * A).

Definition generateResourceIdentifierFromSnapshots (allResourceSnapshots : gmap string ResourceSnapshotObj)
    : outcome (list ResourceIdentifier) :=
  ofold (fun acc raw =>
    match UnmarshalJSON raw with
    | Ok u => Ok (acc ++ [identifierOf u])
    | Err e => Err (NewUnexpectedBehaviorError e)
    | Panic p => Panic p
    end) [] ((mapOrder _ (map_to_list allResourceSnapshots)).*2 ≫= rsnap_SelectedResources).

Definition CollectResourceIdentifiersFromResourceSnapshot (placementKey resourceSnapshotIndex : string)
    : hub W (list ResourceIdentifier) :=
  let* (namespace, name) := hlift (ExtractNamespaceNameFromKeyStr placementKey) in
  let* items := ListAllResourceSnapshotWithAnIndex resourceSnapshotIndex name namespace in
  match items with
  | [] => hret []
  | _ =>
      match list_find is_master items with
      | None => hlift (Err (NewUnexpectedBehaviorError
          (ErrPlain ("no master resourceSnapshot found for placement `" +:+ placementKey +:+ "`"))))
      | Some _ =>
          hlift (generateResourceIdentifierFromSnapshots
            (fold_left (fun m s => <[meta_name (rsnap_meta s) := s]> m) items ∅))
      end
  end.

Definition CollectResourceIdentifiersUsingMasterResourceSnapshot (placementKey : string)
    (masterResourceSnapshot : ResourceSnapshotObj) : hub W (list ResourceIdentifier) :=
  let* allResourceSnapshots := FetchAllResourceSnapshotsAlongWithMaster placementKey masterResourceSnapshot in
  hlift (generateResourceIdentifierFromSnapshots allResourceSnapshots).

(** ** The bindings of a placement *)

Definition buildClusterToBindingMap (p : PlacementObj) (snapshot : PolicySnapshotObj)
    : hub W (gmap string BindingObj) :=
  let* bindings := hmap_err (NewAPIServerError true)
    (ListBindingsFromKey (pl_namespace p, pl_name p) true) in
  hret (fold_left (fun res b =>
    if b_deleting b then res
    else if decide (b_target b = EmptyString) then res
    else if decide (rbs_SchedulingPolicySnapshotName (b_spec b) = meta_name (snap_meta snapshot)) then
      <[b_target b := b]> res
    else res) bindings ∅).

(** The index of the resource snapshot of one binding. *)
Definition findResourceSnapshotIndex (p : PlacementObj) (res : gmap string string) (entry : string * BindingObj)
    : hub W (gmap string string) :=
  let '(targetCluster, binding) := entry in
  let resourceSnapshotName := rbs_ResourceSnapshotName (b_spec binding) in
  if decide (resourceSnapshotName = EmptyString) then hret (<[targetCluster := EmptyString]> res)
  else fun w =>
    match hub_get_resource_snapshot (pl_namespace p) resourceSnapshotName w with
    | (w, Ok s) =>
        (w, Ok (<[targetCluster := default EmptyString (meta_labels (rsnap_meta s) !! ResourceIndexLabel)]> res))
    | (w, Err e) =>
        if has_reason NotFound e then (w, Ok (<[targetCluster := EmptyString]> res))
        else (w, Err (NewAPIServerError true e))
    | (w, Panic e) => (w, Panic e)
    end.

Definition findResourceSnapshotIndexForBindings (p : PlacementObj) (bindingMap : gmap string BindingObj)
    : hub W (gmap string string) :=
  hfold (findResourceSnapshotIndex p) ∅ (mapOrder _ (map_to_list bindingMap)).

(** The statuses of the selected clusters, and the counter of the conditions. *)
Definition buildSelectedPerClusterPlacementStatuses (selected : list ClusterDecision)
    (expectedCondTypes : list ResourceCondition) (p : PlacementObj) (snapshot : PolicySnapshotObj)
    (latestResourceSnapshot : option ResourceSnapshotObj)
    : hub W (list PerClusterPlacementStatus * setStatuses) :=
  let oldConditions := buildPerClusterPlacementStatusMap p in
  let* bindings := buildClusterToBindingMap p snapshot in
  let* indices := findResourceSnapshotIndexForBindings p bindings in
  hlift (ofold (fun '(statuses, counter) d =>
    let! (s, set) := buildSelectedStatus now p latestResourceSnapshot expectedCondTypes oldConditions bindings indices d in
    Ok (statuses ++ [s], counter ++ set)) ([], []) selected).

(** ** The External rollout strategy *)

Definition markRolloutUnknown (message : string) (p : PlacementObj) : PlacementObj :=
  let p := setPlacementCondition now
    (mkCondition (getPlacementRolloutStartedConditionType p) ConditionUnknown (pl_generation p) 0
       "RolloutControlledByExternalController" message) p in
  upd_pl_conditions (fun cs =>
    fold_left (fun cs i => RemoveStatusCondition cs (getPlacementConditionType p i)) (tail allConditions) cs) p.

Definition resetObservedResources (p : PlacementObj) : PlacementObj :=
  upd_pl_status (fun s => set_pst_SelectedResources [] (set_pst_ObservedResourceIndex EmptyString s)) p.

(** Two neighbours observe different snapshots. *)
Fixpoint indicesDiffer (statuses : list PerClusterPlacementStatus) : bool :=
  match statuses with
  | s :: ((t :: _) as rest) =>
      negb (bool_decide (pcs_ObservedResourceIndex s = pcs_ObservedResourceIndex t)) || indicesDiffer rest
  | _ => false
  end.

(** Whether the RolloutStarted condition is left Unknown. *)
Definition determineRolloutStateForPlacementWithExternalRolloutStrategy (p : PlacementObj)
    (selected : list ClusterDecision) (allRPS : list PerClusterPlacementStatus)
    (selectedResourceIDs : list ResourceIdentifier) : hub W (PlacementObj * bool) :=
  match selected, allRPS with
  | [], _ => hlift (Err (NewUnexpectedBehaviorError (ErrPlain ("selected cluster list is empty for placement " +:+
      pl_namespace p +:+ "/" +:+ pl_name p +:+ " when checking per-cluster rollout state"))))
  | _, [] => hlift (Panic "index out of range")
  | _, first :: _ =>
      let observedResourceIndex := pcs_ObservedResourceIndex first in
      let ofSelected := take (length selected) allRPS in
      if indicesDiffer ofSelected then
        hret (markRolloutUnknown ("Rollout is controlled by an external controller and different resource " +:+
          "snapshot versions are observed across clusters") (resetObservedResources p), true)
      else if decide (observedResourceIndex = EmptyString) then
        hret (markRolloutUnknown ("Rollout is controlled by an external controller and no resource snapshot name " +:+
          "is observed across clusters. To determine rollout status, check the " +:+
          getStagedUpdateRunResourceName p +:+ " resources with spec.placementName matching this placement")
          (resetObservedResources p), true)
      else
        let* p :=
          if decide (observedResourceIndex = pst_ObservedResourceIndex (pl_status p)) then
            hret (upd_pl_status (set_pst_SelectedResources selectedResourceIDs) p)
          else
            let* selectedResources := CollectResourceIdentifiersFromResourceSnapshot
              (GetObjectKeyFromNamespaceName (pl_namespace p) (pl_name p)) observedResourceIndex in
            hret (upd_pl_status (fun s => set_pst_SelectedResources selectedResources
              (set_pst_ObservedResourceIndex observedResourceIndex s)) p) in
        let undecided s :=
          let cond := FindStatusCondition (pcs_Conditions s) (PerClusterPlacementConditionType RolloutStartedCondition) in
          negb (IsConditionStatusTrue cond (pl_generation p)) && negb (IsConditionStatusFalse cond (pl_generation p)) in
        match list_find (fun s => undecided s = true) ofSelected with
        | Some (_, s) =>
            hret (markRolloutUnknown ("Rollout is controlled by an external controller and cluster " +:+
              pcs_ClusterName s +:+ " is in RolloutStarted Unknown state") p, true)
        | None => hret (p, false)
        end
  end.

(** ** The status *)

(** What follows once scheduling is done: the clusters, and the conditions of
    the placement. *)
Definition setScheduledStatus (p : PlacementObj) (selectedResourceIDs : list ResourceIdentifier)
    (scheduledCondition : Condition) (snapshot : PolicySnapshotObj)
    (latestResourceSnapshot : option ResourceSnapshotObj) : hub W (PlacementObj * bool) :=
  let '(selected, unselected) := classifyClusterDecisions (spst_ClusterDecisions (snap_status snapshot)) in
  let* failedToScheduleClusterCount := hlift (calculateFailedToScheduleClusterCount p selected unselected) in
  let expectedCondTypes := determineExpectedPlacementAndResourcePlacementStatusCondType p in
  let* (perClusterStatus, counter) :=
    buildSelectedPerClusterPlacementStatuses selected expectedCondTypes p snapshot latestResourceSnapshot in
  let perClusterStatus := perClusterStatus ++
    buildFailedToSchedulePerClusterPlacementStatuses now unselected failedToScheduleClusterCount p in
  let p := upd_pl_status (set_pst_PerCluster perClusterStatus) p in
  match selected with
  | [] =>
      let p := setPlacementCondition now scheduledCondition (upd_pl_conditions (fun _ => []) p) in
      let* none := hlift (isPolicySelectingNoClusters (pl_policy p)) in
      hret (p, none)
  | _ =>
      let* (p, rolloutStartedUnknown) :=
        if pl_external p then
          determineRolloutStateForPlacementWithExternalRolloutStrategy p selected perClusterStatus selectedResourceIDs
        else hret (p, false) in
      if (rolloutStartedUnknown : bool) then hret (p, true)
      else hret (setPlacementConditions now p perClusterStatus counter expectedCondTypes, true)
  end.

(** The placement, and whether a cluster has been scheduled. *)
Definition setPlacementStatus (p : PlacementObj) (selectedResourceIDs : list ResourceIdentifier)
    (snapshot : PolicySnapshotObj) (latestResourceSnapshot : option ResourceSnapshotObj)
    : hub W (PlacementObj * bool) :=
  let p := upd_pl_status (set_pst_SelectedResources selectedResourceIDs) p in
  let scheduledCondition := buildScheduledCondition p snapshot in
  let p := setPlacementCondition now scheduledCondition p in
  let observedIndex :=
    match latestResourceSnapshot with
    | Some s => default EmptyString (meta_labels (rsnap_meta s) !! ResourceIndexLabel)
    | None => EmptyString
    end in
  let p := upd_pl_status (set_pst_ObservedResourceIndex observedIndex) p in
  if decide (cond_status scheduledCondition = ConditionUnknown) then
    hret (upd_pl_status (set_pst_PerCluster []) p, false)
  else setScheduledStatus p selectedResourceIDs scheduledCondition snapshot latestResourceSnapshot.

(** ** Copies of the status in a namespace: [namespace_status_sync.go] *)

Definition noNamespaceResourceSelectorMsg : string :=
  "NamespaceAccessible ClusterResourcePlacement doesn't specify a resource selector which selects a namespace".
Definition ClusterResourcePlacementStatusSyncedConditionType : string := "ClusterResourcePlacementStatusSynced".

Definition extractNamespaceFromResourceSelectors (p : PlacementObj) : string :=
  match list_find (fun s => mkGVK (rsel_Group s) (rsel_Version s) (rsel_Kind s) = NamespaceMetaGVK)
          (psp_ResourceSelectors (pl_spec p)) with
  | Some (_, s) => rsel_Name s
  | None => EmptyString
  end.

Definition isNamespaceAccessibleCRP (p : PlacementObj) : bool :=
  isClusterScopedPlacement p && bool_decide (psp_StatusReportingScope (pl_spec p) = NamespaceAccessible).

Definition filterStatusSyncedCondition (s : PlacementStatus) : PlacementStatus :=
  set_pst_Conditions
    (filter (fun c => cond_type c <> ClusterResourcePlacementStatusSyncedConditionType) (pst_Conditions s)) s.

Definition buildNamepsaceAccessibleStatusSyncedCondition (syncErr : option goerr) (targetNamespace : string)
    (generation : Z) : Condition :=
  match syncErr with
  | Some e =>
      mkCondition ClusterResourcePlacementStatusSyncedConditionType ConditionFalse generation 0 "StatusSyncFailed"
        ("Failed to create or update ClusterResourcePlacementStatus: " +:+ error_msg e)
  | None =>
      mkCondition ClusterResourcePlacementStatusSyncedConditionType ConditionTrue generation 0 "StatusSyncSucceeded"
        ("Successfully created or updated ClusterResourcePlacementStatus in namespace '" +:+ targetNamespace +:+ "'")
  end.

Definition buildNamespaceAccessibleScheduledCondition (generation : Z) (msg : string) : Condition :=
  mkCondition ClusterResourcePlacementScheduledConditionType ConditionFalse generation 0 "InvalidResourceSelectors" msg.

Definition setConditionAndUpdateStatus (p : PlacementObj) (c : Condition) : hub W PlacementObj :=
  hmap_err NewUpdateIgnoreConflictError (hub_update_placement_status (setPlacementCondition now c p)).

Definition syncClusterResourcePlacementStatus (p : PlacementObj) (targetNamespace : string) : hub W unit :=
  if decide (targetNamespace = EmptyString) then hret tt
  else
    let crpStatus := mkStatusCopy (new_meta (pl_name p) targetNamespace ∅ [])
      (mkPlacementStatus [] EmptyString [] []) zeroTime in
    hmap_err (fun e => NewAPIServerError false
        (wrap_error "failed to create or update ClusterResourcePlacementStatus" e))
      (hub_create_or_update_status_copy crpStatus (fun s =>
        let! _ := SetControllerReference p (psc_meta s) in
        Ok (mkStatusCopy (psc_meta s) (filterStatusSyncedCondition (pl_status p)) now))).

Definition handleNamespaceAccessibleCRP (p : PlacementObj) : hub W PlacementObj := fun w =>
  let targetNamespace := extractNamespaceFromResourceSelectors p in
  let record syncErr w :=
    let cond :=
      match syncErr with
      | Some _ => buildNamepsaceAccessibleStatusSyncedCondition syncErr targetNamespace (pl_generation p)
      | None =>
          if decide (targetNamespace = EmptyString) then
            buildNamespaceAccessibleScheduledCondition (pl_generation p) noNamespaceResourceSelectorMsg
          else buildNamepsaceAccessibleStatusSyncedCondition syncErr targetNamespace (pl_generation p)
      end in
    (let* p := setConditionAndUpdateStatus p cond in
     match syncErr with
     | Some e => hlift (Err e)
     | None => hret p
     end) w in
  match syncClusterResourcePlacementStatus p targetNamespace w with
  | (w, Ok _) => record None w
  | (w, Err e) => record (Some e) w
  | (w, Panic m) => (w, Panic m)
  end.

(** The namespace the status says was selected. *)
Definition currentTargetNamespace (p : PlacementObj) : string :=
  match list_find (fun r => mkGVK (rid_Group r) (rid_Version r) (rid_Kind r) = NamespaceMetaGVK)
          (pst_SelectedResources (pl_status p)) with
  | Some (_, r) => rid_Name r
  | None => EmptyString
  end.

Definition validateNamespaceSelectorConsistency (p : PlacementObj) : hub W (PlacementObj * bool) :=
  let current := currentTargetNamespace p in
  let target := extractNamespaceFromResourceSelectors p in
  if decide (current = EmptyString) then hret (p, true)
  else if decide (target = EmptyString) then
    let* p := setConditionAndUpdateStatus p
      (buildNamespaceAccessibleScheduledCondition (pl_generation p) noNamespaceResourceSelectorMsg) in
    hret (p, false)
  else if decide (current = target) then hret (p, true)
  else
    let* p := setConditionAndUpdateStatus p
      (buildNamespaceAccessibleScheduledCondition (pl_generation p)
         ("namespace resource selector is choosing a different namespace '" +:+ target +:+
          "' from what was originally picked '" +:+ current +:+
          "'. This is not allowed for NamespaceAccessible ClusterResourcePlacement")) in
    hret (p, false).

(** The last step of both ways to report the status. *)
Definition syncStatusCopy (p : PlacementObj) : hub W PlacementObj :=
  if isNamespaceAccessibleCRP p then handleNamespaceAccessibleCRP p else hret p.

(** ** Handlers *)

Definition emit (p : PlacementObj) (reason message : string) : hub W unit := fun w =>
  (hub_record_event p reason message w, Ok tt).

Definition handleDelete (p : PlacementObj) : hub W Z :=
  if negb (ContainsFinalizer (pl_meta p) PlacementCleanupFinalizer) then hret 0%Z
  else
    let* _ := DeletePolicySnapshots p in
    let* _ := DeleteResourceSnapshots p in
    let* p := hub_update_placement (set_pl_meta (RemoveFinalizer (pl_meta p) PlacementCleanupFinalizer) p) in
    let* _ := emit p "PlacementCleanupFinalizerRemoved"
      "Deleted the snapshots and removed the placement cleanup finalizer" in
    hret 0%Z.

Definition handleResourceSnapshotByStrategy (p : PlacementObj) (envelopeObjCount : Z)
    (selectedResources : list string) (selectedResourceIDs : list ResourceIdentifier) (revisionHistoryLimit : Z)
    : hub W (Z * option ResourceSnapshotObj * list ResourceIdentifier) :=
  if pl_external p then hret (0%Z, None, selectedResourceIDs)
  else
    let* (requeueAfter, latestResourceSnapshot) := GetOrCreateResourceSnapshot config sizeLimit now p
      envelopeObjCount selectedResources revisionHistoryLimit in
    if (0 <? requeueAfter)%Z then
      match latestResourceSnapshot with
      | None => hlift nil_dereference
      | Some latest =>
          let* _ := hmap_err NewUnexpectedBehaviorError
            (hlift (ExtractResourceIndexFromResourceSnapshot latest)) in
          let* selectedResourceIDs := CollectResourceIdentifiersUsingMasterResourceSnapshot
            (GetObjectKeyFromNamespaceName (pl_namespace p) (pl_name p)) latest in
          hret (requeueAfter, latestResourceSnapshot, selectedResourceIDs)
      end
    else hret (requeueAfter, latestResourceSnapshot, selectedResourceIDs).

(** The limit is checked before it is read from the placement. *)
Definition revisionLimitOf (p : PlacementObj) : Z :=
  let revisionLimit := DefaultRevisionHistoryLimitValue in
  match psp_RevisionHistoryLimit (pl_spec p) with
  | Some limit => if (revisionLimit <=? 0)%Z then revisionLimit else limit
  | None => revisionLimit
  end.

Definition handleInvalidSelectors (p : PlacementObj) (err : goerr) : hub W Z :=
  if negb (isUserError err) then hlift (Err err)
  else
    let* p := setConditionAndUpdateStatus p
      (mkCondition (getPlacementScheduledConditionType p) ConditionFalse (pl_generation p) 0
         "InvalidResourceSelectors" ("The resource selectors are invalid: " +:+ error_msg err)) in
    let* _ := syncStatusCopy p in
    hret controllerResyncPeriod.

(** The events for the conditions that became True; the loop stops before the
    last condition type. *)
Definition emitConditionEvents (oldPlacement p : PlacementObj) : hub W unit :=
  hfold (fun _ i =>
    let conditionType := getPlacementConditionType p i in
    if negb (IsConditionStatusTrue (getPlacementCondition oldPlacement conditionType) (pl_generation oldPlacement)) &&
       IsConditionStatusTrue (getPlacementCondition p conditionType) (pl_generation p)
    then emit p (EventReasonForTrue i) (EventMessageForTrue i)
    else hret tt) tt CondTypesForApplyStrategies.

(** When the placement is to be looked at again. *)
Definition nextRound (oldPlacement p : PlacementObj) (requeueAfter : Z) : hub W Z :=
  let* _ := emitConditionEvents oldPlacement p in
  if isRolloutCompleted p then
    let* _ :=
      if isRolloutCompleted oldPlacement then hret tt
      else emit p "PlacementRolloutCompleted"
             "Placement has finished the rollout process and reached the desired status" in
    if (0 <? requeueAfter)%Z then hret requeueAfter else hret 0%Z
  else if (0 <? requeueAfter)%Z then hret requeueAfter
  else hret controllerResyncPeriod.

(** What follows the selection of the resources. *)
Definition updatePlacement (oldPlacement p : PlacementObj) (envelopeObjCount : Z) (selectedResources : list string)
    (selectedResourceIDs : list ResourceIdentifier) : hub W Z :=
  let revisionLimit := revisionLimitOf p in
  let* latestSchedulingPolicySnapshot := getOrCreateSchedulingPolicySnapshot p revisionLimit in
  let* (requeueAfter, latestResourceSnapshot, selectedResourceIDs) :=
    handleResourceSnapshotByStrategy p envelopeObjCount selectedResources selectedResourceIDs revisionLimit in
  let* (p, _) := setPlacementStatus p selectedResourceIDs latestSchedulingPolicySnapshot latestResourceSnapshot in
  let* p := hub_update_placement_status p in
  let* p := syncStatusCopy p in
  nextRound oldPlacement p requeueAfter.

Definition handleUpdate (p : PlacementObj) : hub W Z :=
  let oldPlacement := p in
  let* (p, isValid) :=
    if isNamespaceAccessibleCRP p then validateNamespaceSelectorConsistency p else hret (p, true) in
  if negb isValid then hret 0%Z
  else fun w =>
    match selectResources p w with
    | (w, Ok (envelopeObjCount, selectedResources, selectedResourceIDs)) =>
        updatePlacement oldPlacement p envelopeObjCount selectedResources selectedResourceIDs w
    | (w, Err e) => handleInvalidSelectors p e w
    | (w, Panic m) => (w, Panic m)
    end.

(** The time after which to reconcile again, 0 for none. *)
Definition Reconcile (placementKey : string) : hub W Z := fun w =>
  match FetchPlacementFromKey placementKey w with
  | (w, Err e) => if has_reason NotFound e then (w, Ok 0%Z) else (w, Err (NewAPIServerError true e))
  | (w, Panic m) => (w, Panic m)
  | (w, Ok p) =>
      if being_deleted (pl_meta p) then handleDelete p w
      else if ContainsFinalizer (pl_meta p) PlacementCleanupFinalizer then handleUpdate p w
      else
        (let* p := hmap_err NewUpdateIgnoreConflictError
           (hub_update_placement (set_pl_meta (AddFinalizer (pl_meta p) PlacementCleanupFinalizer) p)) in
         handleUpdate p) w
  end.

(** ** The metric of a placement *)

(** The condition type, status, reason and time of the point that
    [emitPlacementStatusMetric] sets. *)
Definition metricPoint : Type := string * string * string * Z.

Definition conditionPoint (p : PlacementObj) (conditionType : string) (cond : option Condition) : metricPoint :=
  match cond with
  | Some c =>
      if (cond_observed_generation c =? pl_generation p)%Z then
        (conditionType, match cond_status c with
                        | ConditionTrue => "True" | ConditionFalse => "False" | ConditionUnknown => "Unknown" end,
         cond_reason c, cond_last_transition c)
      else (conditionType, "nil", "nil", creationTimestamp (pl_meta p))
  | None => (conditionType, "nil", "nil", creationTimestamp (pl_meta p))
  end.

(** The loop over the expected conditions. *)
Fixpoint expectedPoint (p : PlacementObj) (completionTimestamp : Z) (condTypes : list ResourceCondition) : metricPoint :=
  match condTypes with
  | [] => ("Completed", "True", "Completed", completionTimestamp)
  | i :: rest =>
      let conditionType := getPlacementConditionType p i in
      let cond := getPlacementCondition p conditionType in
      if IsConditionStatusTrue cond (pl_generation p) then
        expectedPoint p (from_option cond_last_transition 0%Z cond) rest
      else conditionPoint p conditionType cond
  end.

Definition emitPlacementStatusMetric (p : PlacementObj) : metricPoint :=
  let scheduledConditionType := getPlacementScheduledConditionType p in
  let cond := getPlacementCondition p scheduledConditionType in
  if IsConditionStatusTrue cond (pl_generation p) then
    expectedPoint p (from_option cond_last_transition 0%Z cond)
      (determineExpectedPlacementAndResourcePlacementStatusCondType p)
  else conditionPoint p scheduledConditionType cond.

End Placement.
