(* ===== verification/ResourceSelection.v ===== *)
(** * Selecting the resources of a placement

    [ResourceSelectorResolver] of
    [pkg/utils/controller/resource_selector_resolver.go]: which objects of the
    hub a placement's selectors pick, in which order, and what of an object goes
    into a snapshot.  The informers and their caches are third-party code behind
    [InformerManager]; objects are read through [ObjectLib], as in the work
    applier. *)

From stdpp Require Import prelude gmap strings.
From S2P Require Import Prelude K8s Api Sample Utils FrameworkUtils Hub Overrider Eligibility WorkApi ApplierApi ApplierDiff PlacementApi PolicySnapshots ResourceSnapshots PlacementStatus Placement.

Local Open Scope string_scope.
Local Open Scope list_scope.

Definition NamespaceGVR : GroupVersionResource := mkGVR EmptyString "v1" "namespaces".
Definition ServiceGVR : GroupVersionResource := mkGVR EmptyString "v1" "services".
Definition defaultNSName : string := "default".
Definition NamespaceOnlyScope : string := "NamespaceOnly".
Definition NamespaceWithResourceSelectorsScope : string := "NamespaceWithResourceSelectors".
Definition LabelManagedBy : string := "endpointslice.kubernetes.io/managed-by".

(** [resourceSortOrder] *)
Definition resourceSortOrder : list string :=
  ["PriorityClass"; "Namespace"; "NetworkPolicy"; "ResourceQuota"; "LimitRange"; "PodDisruptionBudget";
   "ServiceAccount"; "Secret"; "ConfigMap"; "StorageClass"; "PersistentVolume"; "PersistentVolumeClaim";
   "CustomResourceDefinition"; "ClusterRole"; "ClusterRoleBinding"; "Role"; "RoleBinding"; "Service"; "DaemonSet";
   "Pod"; "ReplicationController"; "ReplicaSet"; "Deployment"; "HorizontalPodAutoscaler"; "StatefulSet"; "Job";
   "CronJob"; "IngressClass"; "Ingress"; "APIService"; "MutatingWebhookConfiguration";
   "ValidatingWebhookConfiguration"].

Definition sortIndex (kind : string) : option nat := fst <$> list_find (fun k => k = kind) resourceSortOrder.

(** What is read and removed below the top of an object. *)
Class ContentLib (O : ObjectLib) : Type := {
  (** [unstructured.NestedString] and [NestedBool], when the field exists and
      has the type. *)
  NestedString : list string -> Obj -> option string;
  NestedBool : list string -> Obj -> option bool;
  RemoveNestedField : list string -> Obj -> Obj;
  (** [NestedFieldNoCopy(obj, "spec", "ports")]: the length of the slice, 0 when
      there is none; and [delete] of a key of one element. *)
  SpecPorts : Obj -> outcome nat;
  DeletePortKey : nat -> string -> Obj -> Obj;
  (** The type of a Secret, by [FromUnstructured]. *)
  SecretType : Obj -> outcome string;
}.

(** The informer manager and the REST mapper.  A lister reads one resource, in
    a namespace if it is given; no label selector is everything. *)
Class InformerManager (O : ObjectLib) (W : Type) : Type := {
  IsClusterScoped : GroupVersionKind -> bool;
  IsInformerSynced : GroupVersionResource -> bool;
  GetNameSpaceScopedResources : list GroupVersionResource;
  lister_get : GroupVersionResource -> option string -> string -> hub W Obj;
  lister_list : GroupVersionResource -> option string -> option LabelSelector -> hub W (list Obj);
  (** [KindsFor], [meta.IsNoMatchError], and whether
      [metav1.LabelSelectorAsSelector] accepts a selector. *)
  KindsFor : GroupVersionResource -> outcome (list GroupVersionKind);
  IsNoMatchError : goerr -> bool;
  ConvertSelector : LabelSelector -> outcome unit;
}.

Section Selection.
Context {O : ObjectLib} {CL : ContentLib O} {W : Type} {IM : InformerManager O W}.

(** The fields [ResourceEligibilityChecker] and [EnableWorkload]. *)
Variable eligibility : checker.
Variable enableWorkload : bool.

(** ** The content of an object *)

(** A Service without what the hub assigned to it. *)
Definition stripService (o : Obj) : outcome Obj :=
  let o :=
    match NestedString ["spec"; "clusterIP"] o with
    | Some ip =>
        if decide (ip = "None") then o
        else RemoveNestedField ["spec"; "clusterIPs"] (RemoveNestedField ["spec"; "clusterIP"] o)
    | None => o
    end in
  let o := RemoveNestedField ["spec"; "healthCheckNodePort"] o in
  let! ports := owrap ("failed to get the ports field in Service object, name =" +:+ GetName o) (SpecPorts o) in
  Ok (fold_left (fun o i => DeletePortKey i "nodePort" o) (seq 0 ports) o).

(** A Job without the labels of its controller. *)
Definition stripJob (o : Obj) : Obj :=
  if decide (NestedBool ["spec"; "manualSelector"] o = Some true) then o
  else
    fold_left (fun o path => RemoveNestedField path o)
      [["spec"; "selector"; "matchLabels"; "controller-uid"];
       ["spec"; "selector"; "matchLabels"; "batch.kubernetes.io/controller-uid"];
       ["spec"; "template"; "metadata"; "creationTimestamp"];
       ["spec"; "template"; "metadata"; "labels"; "controller-uid"];
       ["spec"; "template"; "metadata"; "labels"; "batch.kubernetes.io/controller-uid"]] o.

Definition stripAnnotations (o : Obj) : Obj :=
  match GetAnnotations o with
  | None => o
  | Some annots =>
      let annots := delete RevisionAnnotation (delete kubectlLastAppliedAnnotation annots) in
      SetAnnotations (if decide (annots = ∅) then None else Some annots) o
  end.

(** The fields that are reset for every kind. *)
Definition stripMetadata (o : Obj) : Obj :=
  let o := SetResourceVersion EmptyString o in
  let o := setField FGeneration 0%Z o in
  let o := setField FUID EmptyString o in
  let o := setField FSelfLink EmptyString o in
  let o := setField FDeletionTimestamp None o in
  let o := setField FManagedFields None o in
  let o := stripAnnotations o in
  let o := setField FOwnerReferences None o in
  let o := setField FCreationTimestamp None o in
  setField FStatus None o.

Definition generateRawContent (object : Obj) : outcome string :=
  let o := stripMetadata object in
  let! o :=
    if decide (GetKind o = "Service" /\ GetAPIVersion o = "v1") then stripService o
    else if decide (GetKind o = "Job" /\ GetAPIVersion o = "batch/v1") then Ok (stripJob o)
    else Ok o in
  owrap ("failed to marshal the unstructured object, name =" +:+ GetName o) (EncodeObject o).

Definition generateResourceContent (object : Obj) : outcome string :=
  match generateRawContent object with
  | Err e => Err (NewUnexpectedBehaviorError e)
  | r => r
  end.

(** ** The order of the objects *)

(** [GroupVersionKind.String] and [GroupVersion.String] *)
Definition gvkString (g : GroupVersionKind) : string :=
  gvk_Group g +:+ String slash (gvk_Version g +:+ ", Kind=" +:+ gvk_Kind g).

Definition gvString (g : GroupVersionKind) : string :=
  if decide (gvk_Group g = EmptyString) then gvk_Version g else gvk_Group g +:+ String slash (gvk_Version g).

Definition namespacedName (o : Obj) : string := GetNamespace o +:+ String slash (GetName o).

Definition lessByGVK (obj1 obj2 : Obj) (ignoreKind : bool) : bool :=
  let print := if ignoreKind then gvString else gvkString in
  let gvk1 := print (ObjectKind obj1) in
  let gvk2 := print (ObjectKind obj2) in
  if decide (gvk1 = gvk2) then str_lt (namespacedName obj1) (namespacedName obj2) else str_lt gvk1 gvk2.

Definition resourceLess (obj1 obj2 : Obj) : bool :=
  match sortIndex (GetKind obj1), sortIndex (GetKind obj2) with
  | None, None => lessByGVK obj1 obj2 false
  | None, Some _ => false
  | Some _, None => true
  | Some first, Some second => if decide (first = second) then lessByGVK obj1 obj2 true else (first <? second)%nat
  end.

Definition sortResources (resources : list Obj) : list Obj := go_sort resourceLess resources.

(** ** Which objects may be placed *)

(** The function [ShouldPropagateObj]: the special treatment of some kinds. *)
Definition kindPropagates (o : Obj) : hub W bool :=
  let gvk := ObjectKind o in
  if decide (gvk = mkGVK "apps" "v1" "ReplicaSet" \/ gvk = mkGVK "apps" "v1" "ControllerRevision") then
    hret (bool_decide (GetOwnerReferences o = []))
  else if decide (gvk = coreKind "ConfigMap") then hret (negb (bool_decide (GetName o = "kube-root-ca.crt")))
  else if decide (gvk = coreKind "ServiceAccount") then hret (negb (bool_decide (GetName o = "default")))
  else if decide (gvk = coreKind "Secret") then
    let* t := hmap_err (fun e => NewUnexpectedBehaviorError (wrap_error ("failed to convert a secret object " +:+
      GetName o +:+ " in namespace " +:+ GetNamespace o) e)) (hlift (SecretType o)) in
    hret (negb (bool_decide (t = SecretTypeServiceAccountToken)))
  else if decide (gvk = coreKind "PersistentVolumeClaim") then hret (negb enableWorkload)
  else if decide (gvk = coreKind "Endpoints") then fun w =>
    match lister_get ServiceGVR (Some (GetNamespace o)) (GetName o) w with
    | (w, Ok _) => (w, Ok false)
    | (w, Err e) =>
        if has_reason NotFound e then (w, Ok true)
        else (w, Err (NewAPIServerError true (wrap_error ("failed to get the service " +:+ GetName o +:+
          " in namespace " +:+ GetNamespace o) e)))
    | (w, Panic m) => (w, Panic m)
    end
  else if decide (gvk = mkGVK "discovery.k8s.io" "v1" "EndpointSlice") then
    hret (bool_decide (default ∅ (GetLabels o) !! LabelManagedBy = None))
  else hret true.

(** The method [ShouldPropagateObj]. *)
Definition ShouldPropagateObj (o : Obj) : hub W bool :=
  match GetDeletionTimestamp o with
  | Some _ => hret false
  | None =>
      if decide (ObjectKind o = NamespaceMetaGVK) then
        if negb (AllowsNamespace eligibility (GetName o)) then
          hlift (Err (NewUserError (ErrPlain ("namespace " +:+ GetName o +:+
            " and any resource within it are not allowed for placement"))))
        else if decide (GetName o = defaultNSName) then
          hlift (Err (NewUserError (ErrPlain ("the default namespace cannot be selected for placement; to place " +:+
            "resources within the default namespace, consider using the ResourcePlacement API"))))
        else kindPropagates o
      else kindPropagates o
  end.

(** The objects of a list that may be placed. *)
Definition propagated (objects : list Obj) : hub W (list Obj) :=
  hfold (fun acc o =>
    let* shouldInclude := ShouldPropagateObj o in
    hret (if (shouldInclude : bool) then acc ++ [o] else acc)) [] objects.

(** ** Fetching objects *)

(** [return nil, NewAPIServerError(true, client.IgnoreNotFound(err))]: an object
    that is not found is left out. *)
Definition getIgnoringNotFound (get : hub W Obj) : hub W (option Obj) := fun w =>
  match get w with
  | (w, Ok o) => (w, Ok (Some o))
  | (w, Err e) => if has_reason NotFound e then (w, Ok None) else (w, Err (NewAPIServerError true e))
  | (w, Panic m) => (w, Panic m)
  end.

Definition convertSelector (s : option LabelSelector) : outcome unit :=
  match s with
  | None => Ok tt
  | Some s =>
      match ConvertSelector (W := W) s with
      | Err e => Err (NewUnexpectedBehaviorError (wrap_error "cannot convert the label selector to a selector" e))
      | r => r
      end
  end.

Definition selectorGVK (selector : ResourceSelectorTerm) : GroupVersionKind :=
  mkGVK (rsel_Group selector) (rsel_Version selector) (rsel_Kind selector).

(** [placementKey] is the name, and the namespace the resources are to be in. *)
Definition fetchResources (selector : ResourceSelectorTerm) (namespace name : string) : hub W (list Obj) :=
  let invalid msg := Err (NewUserError (ErrPlain ("invalid placement " +:+ namespace +:+ "/" +:+ name +:+ msg))) in
  let gvk := selectorGVK selector in
  match RESTMapping gvk with
  | Panic m => hlift (Panic m)
  | Err e => hlift (invalid (", failed to get GVR of the selector: " +:+ error_msg e))
  | Ok gvr =>
      let isNamespacedResource := negb (IsClusterScoped (W := W) gvk) in
      if isNamespacedResource && bool_decide (namespace = EmptyString) then
        hlift (invalid ": cannot select namespace-scoped resource in a clusterResourcePlacement")
      else if negb isNamespacedResource && negb (bool_decide (namespace = EmptyString)) then
        hlift (invalid ": cannot select cluster-scoped resource in a resourcePlacement")
      else if negb (IsInformerSynced (W := W) gvr) then
        hlift (Err (NewExpectedBehaviorError (ErrPlain "informer cache is not synced yet")))
      else
        let within := if isNamespacedResource then Some namespace else None in
        if decide (rsel_Name selector <> EmptyString) then
          let* obj := getIgnoringNotFound (lister_get gvr within (rsel_Name selector)) in
          match obj with
          | None => hret []
          | Some obj =>
              let* shouldInclude := ShouldPropagateObj obj in
              hret (if (shouldInclude : bool) then [obj] else [])
          end
        else
          let* _ := hlift (convertSelector (rsel_LabelSelector selector)) in
          let* objects := hmap_err (NewAPIServerError true) (lister_list gvr within (rsel_LabelSelector selector)) in
          propagated objects
  end.

Definition fetchSelectedNamespace (selector : ResourceSelectorTerm) (placementName : string)
    : hub W (option string) :=
  let* objs := fetchResources selector EmptyString placementName in
  hret (GetName <$> head objs).

(** The objects of one tracked resource in a namespace. *)
Definition fetchTracked (namespaceName : string) (resources : list Obj) (gvr : GroupVersionResource)
    : hub W (list Obj) :=
  match AllowsGVR (KindsFor (W := W) gvr) eligibility with
  | Panic m => hlift (Panic m)
  | Err e =>
      if IsNoMatchError (W := W) e then hret resources else hlift (Err (NewUnexpectedBehaviorError e))
  | Ok eligible =>
      if negb eligible then hret resources
      else if negb (IsInformerSynced (W := W) gvr) then
        hlift (Err (NewExpectedBehaviorError (ErrPlain "informer cache is not synced yet")))
      else
        let* objs := hmap_err (NewAPIServerError true) (lister_list gvr (Some namespaceName) None) in
        let* included := propagated objs in
        hret (resources ++ included)
  end.

Definition fetchAllResourcesInOneNamespace (namespaceName placeName : string) : hub W (list Obj) :=
  if negb (AllowsNamespace eligibility namespaceName) then
    hlift (Err (NewUserError (ErrPlain ("invalid clusterResourcePlacement " +:+ placeName +:+ ": namespace " +:+
      namespaceName +:+ " and any resource within it are not allowed for placement"))))
  else if decide (namespaceName = defaultNSName) then
    hlift (Err (NewUserError (ErrPlain ("invalid clusterResourcePlacement " +:+ placeName +:+
      ": the default namespace cannot be selected for placement; to place resources within the default namespace, " +:+
      "consider using the ResourcePlacement API"))))
  else
    let* obj := getIgnoringNotFound (lister_get NamespaceGVR None namespaceName) in
    match obj with
    | None => hret []
    | Some obj =>
        match GetDeletionTimestamp obj with
        | Some _ => hret []
        | None => hfold (fetchTracked namespaceName) [obj] (GetNameSpaceScopedResources (W := W))
        end
    end.

Definition fetchNamespaceResources (selector : ResourceSelectorTerm) (placementName : string) : hub W (list Obj) :=
  if decide (rsel_Name selector <> EmptyString) then
    fetchAllResourcesInOneNamespace (rsel_Name selector) placementName
  else
    let* _ := hlift (convertSelector (rsel_LabelSelector selector)) in
    let* namespaces := hmap_err (NewAPIServerError true)
      (lister_list NamespaceGVR None (rsel_LabelSelector selector)) in
    hfold (fun resources ns =>
      let* objs := fetchAllResourcesInOneNamespace (GetName ns) placementName in
      hret (resources ++ objs)) [] namespaces.

(** ** Gathering *)

Definition isNamespaceSelector (selector : ResourceSelectorTerm) : bool :=
  bool_decide (selectorGVK selector = NamespaceMetaGVK).

(** The first pass: the namespace the other selectors of a cluster-scoped
    placement pick from. *)
Definition findSelectedNamespace (namespace name : string) (selectors : list ResourceSelectorTerm) : hub W string :=
  match list_find (fun s => isNamespaceSelector s && bool_decide (namespace = EmptyString) &&
          bool_decide (rsel_SelectionScope s = NamespaceWithResourceSelectorsScope) = true) selectors with
  | None => hret EmptyString
  | Some (_, selector) =>
      let* found := fetchSelectedNamespace selector name in
      match found with
      | Some ns => hret ns
      | None => hlift (Err (NewUserError (ErrPlain ("invalid clusterResourcePlacement " +:+ name +:+
          ": NamespaceWithResourceSelectors mode requires exactly one namespace, but no namespaces were selected"))))
      end
  end.

(** The objects of one selector. *)
Definition fetchSelected (namespace name selectedNamespace : string) (selector : ResourceSelectorTerm)
    : hub W (list Obj) :=
  if isNamespaceSelector selector then
    if decide (namespace <> EmptyString) then
      hlift (Err (NewUserError (ErrPlain ("invalid placement " +:+ namespace +:+ "/" +:+ name +:+
        ": cannot select cluster-scoped resource Namespace in a resourcePlacement"))))
    else if decide (rsel_SelectionScope selector = NamespaceOnlyScope \/
                    rsel_SelectionScope selector = NamespaceWithResourceSelectorsScope) then
      fetchResources selector namespace name
    else fetchNamespaceResources selector name
  else if bool_decide (namespace = EmptyString) && negb (IsClusterScoped (W := W) (selectorGVK selector)) then
    fetchResources selector selectedNamespace name
  else fetchResources selector namespace name.

Definition identifierOfObject (o : Obj) : ResourceIdentifier :=
  let gvk := ObjectKind o in
  mkResourceIdentifier (gvk_Group gvk) (gvk_Version gvk) (gvk_Kind gvk) (GetName o) (GetNamespace o) None.

(** An object that is selected twice is an error. *)
Definition addSelected (resources : list Obj) (o : Obj) : outcome (list Obj) :=
  let ri := identifierOfObject o in
  if decide (ri ∈ identifierOfObject <$> resources) then
    Err (NewUserError (ErrPlain ("found duplicate resource " +:+ rid_Kind ri +:+ " " +:+ rid_Namespace ri +:+ "/" +:+
      rid_Name ri)))
  else Ok (resources ++ [o]).

(** The body of the second pass. *)
Definition gatherOne (namespace name selectedNamespace : string) (resources : list Obj)
    (selector : ResourceSelectorTerm) : hub W (list Obj) :=
  if negb (AllowsGVK eligibility (selectorGVK selector)) then hret resources
  else
    let* objs := fetchSelected namespace name selectedNamespace selector in
    hlift (ofold addSelected resources objs).

Definition gatherSelectedResource (namespace name : string) (selectors : list ResourceSelectorTerm)
    : hub W (list Obj) :=
  let* selectedNamespace := findSelectedNamespace namespace name selectors in
  let* resources := hfold (gatherOne namespace name selectedNamespace) [] selectors in
  hret (sortResources resources).

Definition isEnvelope (o : Obj) : bool :=
  bool_decide (gvk_Group (ObjectKind o) = PlacementGroup /\
    (gvk_Kind (ObjectKind o) = ClusterResourceEnvelopeType \/ gvk_Kind (ObjectKind o) = ResourceEnvelopeType)).

(** The number of envelopes, the contents and the identifiers of the objects. *)
Definition describeObjects (objects : list Obj) : outcome (Z * list string * list ResourceIdentifier) :=
  ofold (fun '(envelopes, contents, ids) o =>
    let! content := generateResourceContent o in
    Ok ((if isEnvelope o then envelopes + 1 else envelopes)%Z, contents ++ [content], ids ++ [identifierOfObject o]))
    (0%Z, [], []) objects.

Definition SelectResourcesForPlacement (placement : PlacementObj)
    : hub W (Z * list string * list ResourceIdentifier) :=
  let* selectedObjects := gatherSelectedResource (pl_namespace placement) (pl_name placement)
    (psp_ResourceSelectors (pl_spec placement)) in
  hlift (describeObjects selectedObjects).

(** The resolver of the placement controller. *)
Definition theResolver : ResourceSelectorResolver W := {| selectResources := SelectResourcesForPlacement |}.

End Selection.
