(* ===== verification/SnapshotStore.v ===== *)
(** * What is stored of the snapshots

    The contract of the API server for one kind of snapshot, and a logic for
    the computations that use it.  Only the snapshots of one placement count,
    by what the placement controller writes of them: their labels, annotations
    and content.  So other controllers may act at any time on the snapshots of
    other placements, and on the status of these.  A call that fails may have
    taken effect.  Lists are current. *)

From Stdlib Require Import Ascii.
From stdpp Require Import prelude gmap strings pretty.
From S2P Require Import Prelude K8s Api Sample Utils FrameworkUtils Hub Overrider WorkApi PlacementApi.

Local Open Scope string_scope.
Local Open Scope list_scope.

(** ** Numbers in labels *)

Lemma pretty_N_char_digit x :
  (x < 10)%N -> Z.of_nat (nat_of_ascii (pretty_N_char x)) = (48 + Z.of_N x)%Z.
Proof.
  intros Hx.
  assert (x = 0 \/ x = 1 \/ x = 2 \/ x = 3 \/ x = 4 \/ x = 5 \/ x = 6 \/ x = 7 \/ x = 8 \/ x = 9)%N as Hc by lia.
  destruct_or! Hc; subst; reflexivity.
Qed.

Lemma atoi_pretty_N_go x s : atoi_digits (pretty_N_go x s) 0 = atoi_digits s (Z.of_N x).
Proof.
  revert s. induction (N.lt_wf_0 x) as [x _ IH]. intros s.
  destruct (decide (x = 0)%N) as [->|Hx]; [done|].
  rewrite pretty_N_go_step by lia. rewrite IH by (apply N.div_lt; lia). cbn [atoi_digits].
  pose proof (N.mod_lt x 10 ltac:(done)) as Hm. pose proof (N.div_mod x 10 ltac:(done)) as Hd.
  rewrite pretty_N_char_digit by done.
  revert Hm Hd. generalize (x `div` 10)%N, (x `mod` 10)%N. intros q r Hm ->.
  assert (((48 <=? 48 + Z.of_N r) && (48 + Z.of_N r <=? 57))%Z = true) as ->.
  { apply andb_true_iff. split; apply Z.leb_le; lia. }
  f_equal. lia.
Qed.

(** A string of digits has no sign. *)
Lemma atoi_signed_digits s n : atoi_digits s 0 = Some n -> n <> 0%Z -> atoi_signed s = Some n.
Proof.
  intros Hs Hn. destruct s as [|a r]; cbn in Hs; [congruence|].
  destruct ((48 <=? Z.of_nat (nat_of_ascii a)) && (Z.of_nat (nat_of_ascii a) <=? 57))%Z eqn:Hd; [|done].
  assert (a <> "-"%char /\ a <> "+"%char) as [H1 H2] by (split; intros ->; done).
  unfold atoi_signed. destruct a as [[] [] [] [] [] [] [] []]; try (cbn; rewrite ?Hd; exact Hs); try done.
Qed.

Lemma atoi_signed_zstr z : atoi_signed (zstr z) = Some z.
Proof.
  assert (forall p, atoi_digits (pretty (N.pos p)) 0 = Some (Z.pos p)) as Hp.
  { intros p. unfold pretty, pretty_N. rewrite decide_False by done. by rewrite atoi_pretty_N_go. }
  unfold zstr. destruct z as [|p|p]; [done|by apply atoi_signed_digits; [apply Hp|]|].
  change (pretty (Z.neg p)) with (String "-" (pretty (N.pos p))). cbn.
  specialize (Hp p). destruct (pretty (N.pos p)) as [|a r]; [done|]. by rewrite Hp.
Qed.

(** A number that is written into a label is read back. *)
Lemma Atoi_zstr z : in_range 64 z -> Atoi (zstr z) = Ok z.
Proof. intros Hz. unfold Atoi. rewrite atoi_signed_zstr. by rewrite decide_True. Qed.

(** ** Contents *)

(** What is kept of a snapshot with content of type [C]. *)
Record stored (C : Type) : Type := mkStored {
  st_labels : gmap string string;
  st_annotations : gmap string string;
  st_content : C;
}.
Arguments mkStored {C}.
Arguments st_labels {C}.
Arguments st_annotations {C}.
Arguments st_content {C}.

Notation contents C := (gmap ObjectKey (stored C)).

Definition is_latest {C} (v : stored C) : Prop := st_labels v !! IsLatestSnapshotLabel = Some (FormatBool true).

#[global] Instance is_latest_dec {C} (v : stored C) : Decision (is_latest v).
Proof. unfold is_latest. apply _. Defined.

(** At most one snapshot is marked as the latest. *)
Definition single_latest {C} (m : contents C) : Prop :=
  forall k1 k2 v1 v2, m !! k1 = Some v1 -> is_latest v1 -> m !! k2 = Some v2 -> is_latest v2 -> k1 = k2.

(** The snapshot marked as the latest. *)
Definition the_latest {C} (m : contents C) (k : ObjectKey) (v : stored C) : Prop :=
  m !! k = Some v /\ is_latest v /\ forall k' v', m !! k' = Some v' -> is_latest v' -> k' = k.

Definition no_latest {C} (m : contents C) : Prop := forall k v, m !! k = Some v -> ~ is_latest v.

Section Latest.
Context {C : Type}.
Implicit Types (m : contents C) (v : stored C).

Lemma no_latest_single m : no_latest m -> single_latest m.
Proof. intros Hn k1 k2 v1 v2 H1 H1l. by destruct (Hn _ _ H1). Qed.

Lemma the_latest_single m k v : the_latest m k v -> single_latest m.
Proof. intros (_ & _ & Hu) k1 k2 v1 v2 H1 Hl1 H2 Hl2. rewrite (Hu _ _ H1 Hl1). by rewrite (Hu _ _ H2 Hl2). Qed.

Lemma single_the_latest m k v : single_latest m -> m !! k = Some v -> is_latest v -> the_latest m k v.
Proof. intros Hs Hk Hl. split; [done|split; [done|]]. intros k' v' Hk' Hl'. by eapply Hs. Qed.

(** Nothing else is marked. *)
Definition latest_only_at m k : Prop := forall k' v', m !! k' = Some v' -> is_latest v' -> k' = k.

Lemma no_latest_only_at m k : no_latest m -> latest_only_at m k.
Proof. intros Hn k' v' H1 H2. by destruct (Hn _ _ H1). Qed.

Lemma the_latest_insert m k v : latest_only_at m k -> is_latest v -> the_latest (<[k := v]> m) k v.
Proof.
  intros Ho Hl. split; [by rewrite lookup_insert_eq|split; [done|]]. intros k' v' Hk Hl'.
  destruct (decide (k' = k)) as [->|Hn]; [done|]. rewrite lookup_insert_ne in Hk by done. by eapply Ho.
Qed.

Lemma no_latest_insert m k v : latest_only_at m k -> ~ is_latest v -> no_latest (<[k := v]> m).
Proof.
  intros Ho Hl k' v' Hk Hl'.
  destruct (decide (k' = k)) as [->|Hn]; [rewrite lookup_insert_eq in Hk; naive_solver|].
  rewrite lookup_insert_ne in Hk by done. naive_solver.
Qed.

Lemma no_latest_delete m k : no_latest m -> no_latest (delete k m).
Proof. intros Hn k' v Hk. apply lookup_delete_Some in Hk as [_ Hk]. by eapply Hn. Qed.

End Latest.

(** ** Calls *)

Section Store.
Context {W Obj C : Type}.
Variables (meta : Obj -> ObjectMeta) (content : Obj -> C).

Definition image_of (o : Obj) : stored C :=
  mkStored (meta_labels (meta o)) (meta_annotations (meta o)) (content o).

Definition key_of (o : Obj) : ObjectKey := (meta_namespace (meta o), meta_name (meta o)).

(** The snapshots of the placement [ns]/[name]. *)
Variables (ns name : string).

Definition tracked (o : Obj) : Prop :=
  meta_namespace (meta o) = ns /\ meta_labels (meta o) !! PlacementTrackingLabel = Some name.

Record StoreLaws (store : W -> contents C) (list : string -> gmap string string -> hub W (list Obj))
    (create update : Obj -> hub W Obj) (remove : Obj -> hub W unit) : Prop := {
  store_tracked w k v : store w !! k = Some v -> k.1 = ns /\ st_labels v !! PlacementTrackingLabel = Some name;
  (** A list of snapshots of the placement with some labels is what is stored. *)
  list_reads sel w : store (list ns sel w).1 = store w;
  list_NoDup sel w items :
    sel !! PlacementTrackingLabel = Some name -> (list ns sel w).2 = Ok items -> NoDup (key_of <$> items);
  list_stored sel w items o :
    sel !! PlacementTrackingLabel = Some name -> (list ns sel w).2 = Ok items ->
    o ∈ items -> store w !! key_of o = Some (image_of o) /\ sel ⊆ meta_labels (meta o);
  list_complete sel w items k v :
    sel !! PlacementTrackingLabel = Some name -> (list ns sel w).2 = Ok items ->
    store w !! k = Some v -> sel ⊆ st_labels v -> exists o, o ∈ items /\ key_of o = k;
  (** [Create] fails on a name that is taken, [Update] on one that is not. *)
  create_effect o w : tracked o ->
    store (create o w).1 = store w \/
    (store w !! key_of o = None /\ store (create o w).1 = <[key_of o := image_of o]> (store w));
  create_Ok o w o' : tracked o -> (create o w).2 = Ok o' ->
    store w !! key_of o = None /\ store (create o w).1 = <[key_of o := image_of o]> (store w) /\
    key_of o' = key_of o /\ image_of o' = image_of o;
  update_effect o w : tracked o ->
    store (update o w).1 = store w \/
    (is_Some (store w !! key_of o) /\ store (update o w).1 = <[key_of o := image_of o]> (store w));
  update_Ok o w o' : tracked o -> (update o w).2 = Ok o' ->
    is_Some (store w !! key_of o) /\ store (update o w).1 = <[key_of o := image_of o]> (store w) /\
    key_of o' = key_of o /\ image_of o' = image_of o;
  remove_effect o w : tracked o ->
    store (remove o w).1 = store w \/ store (remove o w).1 = delete (key_of o) (store w);
  remove_Ok o w : tracked o -> (remove o w).2 = Ok tt -> store (remove o w).1 = delete (key_of o) (store w);
  remove_NotFound o w e : tracked o -> (remove o w).2 = Err e -> has_reason NotFound e = true ->
    store (remove o w).1 = delete (key_of o) (store w);
}.

End Store.
Arguments StoreLaws {W Obj C} meta content ns name store list create update remove.

(** ** The logic *)

Section Logic.
Context {W S : Type}.
Variable view : W -> S.

(** From [P], the computation gives a value with [Q], or stops with [E]. *)
Definition spec {A} (P : S -> Prop) (m : hub W A) (Q : A -> S -> Prop) (E : S -> Prop) : Prop :=
  forall w, P (view w) ->
    match (m w).2 with
    | Ok a => Q a (view (m w).1)
    | _ => E (view (m w).1)
    end.

Lemma spec_ret {A} (P : S -> Prop) (a : A) (Q : A -> S -> Prop) E : (forall s, P s -> Q a s) -> spec P (hret a) Q E.
Proof. intros H w Hw. cbn. auto. Qed.

Lemma spec_lift {A} (P : S -> Prop) (m : outcome A) (Q : A -> S -> Prop) (E : S -> Prop) :
  (forall a s, m = Ok a -> P s -> Q a s) -> (forall s, P s -> E s) -> spec P (hlift m) Q E.
Proof. intros Hq He w Hw. cbn. destruct m; eauto. Qed.

Lemma spec_bind {A B} (P : S -> Prop) (f : A -> hub W B) m (R : A -> S -> Prop) (Q : B -> S -> Prop) E :
  spec P m R E -> (forall a, spec (R a) (f a) Q E) -> spec P (hbind f m) Q E.
Proof.
  intros Hm Hf w Hw. unfold hbind. specialize (Hm w Hw).
  destruct (m w) as [w' [a|e|p]]; cbn in *; [exact (Hf a w' Hm)|done|done].
Qed.

Lemma spec_map_err {A} P f (m : hub W A) Q E : spec P m Q E -> spec P (hmap_err f m) Q E.
Proof.
  intros Hm w Hw. specialize (Hm w Hw). unfold hmap_err. by destruct (m w) as [w' [a|e|p]].
Qed.

Lemma spec_weaken {A} (P P' : S -> Prop) (m : hub W A) (Q Q' : A -> S -> Prop) (E E' : S -> Prop) :
  spec P m Q E -> (forall s, P' s -> P s) -> (forall a s, Q a s -> Q' a s) -> (forall s, E s -> E' s) ->
  spec P' m Q' E'.
Proof.
  intros Hm Hp Hq He w Hw. specialize (Hm w (Hp _ Hw)). destruct ((m w).2); auto.
Qed.

(** Facts about the state that was there before. *)
Lemma spec_exists {A X} (P : X -> S -> Prop) (m : hub W A) Q E :
  (forall x, spec (P x) m Q E) -> spec (fun s => exists x, P x s) m Q E.
Proof. intros H w [x Hx]. exact (H x w Hx). Qed.

Lemma spec_pure {A} (F : Prop) (P : S -> Prop) (m : hub W A) Q E :
  (F -> spec P m Q E) -> spec (fun s => F /\ P s) m Q E.
Proof. intros H w [Hf Hp]. exact (H Hf w Hp). Qed.

(** A fact that the precondition gives. *)
Lemma spec_given {A} (F : Prop) (P : S -> Prop) (m : hub W A) Q E :
  (forall s, P s -> F) -> (F -> spec P m Q E) -> spec P m Q E.
Proof. intros Hf Hm w Hw. exact (Hm (Hf _ Hw) w Hw). Qed.

(** A fact that holds of every state. *)
Lemma spec_fact {A} (F P : S -> Prop) (m : hub W A) Q E :
  (forall w, F (view w)) -> spec (fun s => F s /\ P s) m Q E -> spec P m Q E.
Proof. intros Hf Hm w Hw. exact (Hm w (conj (Hf w) Hw)). Qed.

End Logic.

(** ** Specifications of the calls *)

Section Calls.
Context {W Obj C : Type} {meta : Obj -> ObjectMeta} {content : Obj -> C} {ns name : string}.
Context {store : W -> contents C} {list_of : string -> gmap string string -> hub W (list Obj)}.
Context {create update : Obj -> hub W Obj} {remove : Obj -> hub W unit}.
Hypothesis laws : StoreLaws meta content ns name store list_of create update remove.

Notation key := (key_of meta).
Notation image := (image_of meta content).

(** The answer to a list. *)
Definition listed (sel : gmap string string) (m : contents C) (items : list Obj) : Prop :=
  NoDup (key <$> items) /\
  (forall o, o ∈ items -> m !! key o = Some (image o) /\ sel ⊆ meta_labels (meta o)) /\
  (forall k v, m !! k = Some v -> sel ⊆ st_labels v -> exists o, o ∈ items /\ key o = k).

Lemma spec_list (sel : gmap string string) (P : contents C -> Prop) :
  sel !! PlacementTrackingLabel = Some name ->
  spec store P (list_of ns sel) (fun items m => P m /\ listed sel m items) P.
Proof.
  intros Hsel w Hw. rewrite (list_reads _ _ _ _ _ _ _ _ _ laws).
  destruct ((list_of ns sel w).2) as [items| |] eqn:Hr; [|done|done]. split; [done|].
  split; [by eapply (list_NoDup _ _ _ _ _ _ _ _ _ laws)|].
  split; [intros o Ho; by eapply (list_stored _ _ _ _ _ _ _ _ _ laws)|].
  intros k v Hk Hv. by eapply (list_complete _ _ _ _ _ _ _ _ _ laws).
Qed.

Lemma spec_create (o : Obj) (P : contents C -> Prop) (Q : Obj -> contents C -> Prop) (E : contents C -> Prop) :
  tracked meta ns name o ->
  (forall m, P m -> E m) ->
  (forall m, P m -> m !! key o = None ->
    E (<[key o := image o]> m) /\
    forall o', key o' = key o -> image o' = image o -> Q o' (<[key o := image o]> m)) ->
  spec store P (create o) Q E.
Proof.
  intros Ht He Hi w Hw.
  destruct ((create o w).2) as [o'| |] eqn:Hr.
  { destruct (create_Ok _ _ _ _ _ _ _ _ _ laws o w o' Ht Hr) as (Hn & -> & Hk & Hm). by apply Hi. }
  all: destruct (create_effect _ _ _ _ _ _ _ _ _ laws o w Ht) as [->|[Hn ->]]; [by apply He|by apply Hi].
Qed.

Lemma spec_update (o : Obj) (P : contents C -> Prop) (Q : Obj -> contents C -> Prop) (E : contents C -> Prop) :
  tracked meta ns name o ->
  (forall m, P m -> E m) ->
  (forall m, P m -> is_Some (m !! key o) ->
    E (<[key o := image o]> m) /\
    forall o', key o' = key o -> image o' = image o -> Q o' (<[key o := image o]> m)) ->
  spec store P (update o) Q E.
Proof.
  intros Ht He Hi w Hw.
  destruct ((update o w).2) as [o'| |] eqn:Hr.
  { destruct (update_Ok _ _ _ _ _ _ _ _ _ laws o w o' Ht Hr) as (Hn & -> & Hk & Hm). by apply Hi. }
  all: destruct (update_effect _ _ _ _ _ _ _ _ _ laws o w Ht) as [->|[Hn ->]]; [by apply He|by apply Hi].
Qed.

Lemma spec_remove (o : Obj) (P : contents C -> Prop) (Q : unit -> contents C -> Prop) (E : contents C -> Prop) :
  tracked meta ns name o ->
  (forall m, P m -> E m) ->
  (forall m, P m -> E (delete (key o) m) /\ Q tt (delete (key o) m)) ->
  spec store P (deleteIgnoringNotFound (remove o)) Q E.
Proof.
  intros Ht He Hi w Hw. unfold deleteIgnoringNotFound.
  pose proof (remove_effect _ _ _ _ _ _ _ _ _ laws o w Ht) as Heff.
  pose proof (remove_Ok _ _ _ _ _ _ _ _ _ laws o w Ht) as Hok.
  pose proof (fun e => remove_NotFound _ _ _ _ _ _ _ _ _ laws o w e Ht) as Hnf.
  destruct (remove o w) as [w' [[]|e|p]]; cbn in *.
  - rewrite Hok by done. by apply Hi.
  - destruct (has_reason NotFound e) eqn:Hr; cbn.
    + rewrite (Hnf e) by done. by apply Hi.
    + destruct Heff as [->| ->]; [by apply He|by apply Hi].
  - destruct Heff as [->| ->]; [by apply He|by apply Hi].
Qed.

(** All the snapshots of the placement are listed under its label. *)
Lemma listed_length (m : contents C) (items : list Obj) :
  (forall k v, m !! k = Some v -> k.1 = ns /\ st_labels v !! PlacementTrackingLabel = Some name) ->
  listed {[PlacementTrackingLabel := name]} m items -> length items = size m.
Proof.
  intros Ht (Hnd & Hin & Hc).
  assert (dom m = list_to_set (key <$> items)) as Hd.
  { apply set_eq. intros k. rewrite elem_of_dom, elem_of_list_to_set, list_elem_of_fmap. split.
    - intros [v Hv]. destruct (Hc k v Hv) as (o & Ho & Hk); [|by exists o].
      destruct (Ht k v Hv) as [_ Hl]. by apply map_singleton_subseteq_l.
    - intros (o & -> & Ho). destruct (Hin o Ho) as [Hm _]. eauto. }
  rewrite <- (size_dom (D := gset ObjectKey)), Hd, size_list_to_set by done. by rewrite length_fmap.
Qed.

End Calls.

(** ** Snapshots in memory

    A map of objects that serves the calls on one kind of snapshot, with a number
    of writes after which they fail, satisfies [StoreLaws]; and so does a part of
    a larger state that serves them. *)

Section Memory.
Context {Obj C : Type}.
Variables (meta : Obj -> ObjectMeta) (content : Obj -> C) (ns name : string).

Notation key := (key_of meta).
Notation image := (image_of meta content).
Notation tracked := (tracked meta ns name).

(** The objects, and how many more writes succeed. *)
Record memory : Type := mkMemory { mem_objects : gmap ObjectKey Obj; mem_writes : nat }.

(** The objects of the placement, under their keys. *)
Definition proper (e : ObjectKey * Obj) : Prop := key e.2 = e.1 /\ tracked e.2.

#[global] Instance proper_dec e : Decision (proper e).
Proof. unfold proper, SnapshotStore.tracked. apply _. Defined.

Definition mem_proper (m : memory) : gmap ObjectKey Obj := filter proper (mem_objects m).

Definition mem_store (m : memory) : contents C := image <$> mem_proper m.

Definition mem_list (namespace : string) (sel : gmap string string) : hub memory (list Obj) := fun m =>
  (m, Ok (filter (fun o => meta_namespace (meta o) = namespace /\ sel ⊆ meta_labels (meta o))
            (map_to_list (mem_proper m)).*2)).

Definition mem_write {A : Type} (m : memory) (objects : gmap ObjectKey Obj) (a : A) : memory * outcome A :=
  match mem_writes m with
  | O => (m, Err (ErrAPI ServiceUnavailable "the server is down"))
  | S n => (mkMemory objects n, Ok a)
  end.

Definition mem_create (o : Obj) : hub memory Obj := fun m =>
  match mem_objects m !! key o with
  | Some _ => (m, Err (ErrAPI AlreadyExists (meta_name (meta o))))
  | None => mem_write m (<[key o := o]> (mem_objects m)) o
  end.

Definition mem_update (o : Obj) : hub memory Obj := fun m =>
  match mem_proper m !! key o with
  | None => (m, Err (ErrAPI NotFound (meta_name (meta o))))
  | Some _ => mem_write m (<[key o := o]> (mem_objects m)) o
  end.

Definition mem_remove (o : Obj) : hub memory unit := fun m =>
  match mem_objects m !! key o with
  | None => (m, Err (ErrAPI NotFound (meta_name (meta o))))
  | Some _ => mem_write m (delete (key o) (mem_objects m)) tt
  end.

Lemma mem_store_insert (objects : gmap ObjectKey Obj) (n : nat) (o : Obj) :
  tracked o -> mem_store (mkMemory (<[key o := o]> objects) n) = <[key o := image o]> (mem_store (mkMemory objects 0)).
Proof. intros Ht. unfold mem_store, mem_proper. cbn. rewrite map_filter_insert_True by done. by rewrite fmap_insert. Qed.

Lemma mem_store_delete (objects : gmap ObjectKey Obj) (n : nat) (k : ObjectKey) :
  mem_store (mkMemory (delete k objects) n) = delete k (mem_store (mkMemory objects 0)).
Proof. unfold mem_store, mem_proper. cbn. by rewrite map_filter_delete, fmap_delete. Qed.

Lemma mem_store_None (m : memory) (k : ObjectKey) : mem_objects m !! k = None -> mem_store m !! k = None.
Proof.
  intros Hk. unfold mem_store, mem_proper. rewrite lookup_fmap, fmap_None. apply map_lookup_filter_None. by left.
Qed.

Lemma mem_write_run {A : Type} (m : memory) (objects : gmap ObjectKey Obj) (a : A) :
  ((mem_write m objects a).1 = m /\ forall x, (mem_write m objects a).2 <> Ok x) \/
  exists n, mem_write m objects a = (mkMemory objects n, Ok a).
Proof. unfold mem_write. destruct (mem_writes m) as [|n]; [left|right]; eauto. Qed.

Lemma mem_listed (m : memory) namespace (sel : gmap string string) items (o : Obj) :
  (mem_list namespace sel m).2 = Ok items ->
  o ∈ items <-> mem_proper m !! key o = Some o /\ meta_namespace (meta o) = namespace /\ sel ⊆ meta_labels (meta o).
Proof.
  intros [= <-]. rewrite list_elem_of_filter, list_elem_of_fmap. split.
  - intros (Hsel & [k o'] & -> & Hk%elem_of_map_to_list). cbn in *.
    pose proof Hk as [_ [Hkey _]]%map_lookup_filter_Some. cbn in Hkey. by rewrite Hkey.
  - intros (Hk & Hsel). split; [done|]. exists (key o, o). split; [done|]. by apply elem_of_map_to_list.
Qed.

Lemma memory_laws : StoreLaws meta content ns name mem_store mem_list mem_create mem_update mem_remove.
Proof.
  split.
  - intros m k v. unfold mem_store. rewrite lookup_fmap, fmap_Some. intros (o & Ho & ->).
    apply map_lookup_filter_Some in Ho as [_ [Hk [Hn Hl]]]. cbn in *. split; [|done]. by rewrite <- Hk.
  - done.
  - intros sel m items _ [= <-]. eapply sublist_NoDup; [|apply fmap_sublist, sublist_filter].
    replace (key <$> (map_to_list (mem_proper m)).*2) with (map_to_list (mem_proper m)).*1; [apply NoDup_fst_map_to_list|].
    rewrite <- list_fmap_compose. apply list_fmap_ext. intros i [k o] Hi%list_elem_of_lookup_2%elem_of_map_to_list.
    apply map_lookup_filter_Some in Hi as [_ [Hk _]]. done.
  - intros sel m items o _ Hl Ho. apply (mem_listed _ _ _ _ _ Hl) in Ho as (Hk & _ & Hsel). split; [|done].
    unfold mem_store. by rewrite lookup_fmap, Hk.
  - intros sel m items k v _ Hl. unfold mem_store. rewrite lookup_fmap, fmap_Some. intros (o & Ho & ->) Hsel.
    pose proof Ho as [_ [Hk [Hn _]]]%map_lookup_filter_Some. cbn in *. exists o. split; [|done].
    apply (mem_listed _ _ _ _ _ Hl). by rewrite Hk.
  - intros o m Ht. unfold mem_create. destruct (mem_objects m !! key o) eqn:Hk; [by left|].
    destruct (mem_write_run m (<[key o:=o]> (mem_objects m)) o) as [[-> _]|[n ->]]; [by left|right].
    split; [by apply mem_store_None|by apply mem_store_insert].
  - intros o m o' Ht. unfold mem_create. destruct (mem_objects m !! key o) eqn:Hk; [done|].
    destruct (mem_write_run m (<[key o:=o]> (mem_objects m)) o) as [[_ Hn]|[n ->]]; [by intros ?%Hn|].
    intros [= <-]. split; [by apply mem_store_None|]. split; [by apply mem_store_insert|done].
  - intros o m Ht. unfold mem_update. destruct (mem_proper m !! key o) eqn:Hk; [|by left].
    destruct (mem_write_run m (<[key o:=o]> (mem_objects m)) o) as [[-> _]|[n ->]]; [by left|right].
    split; [|by apply mem_store_insert]. unfold mem_store. rewrite lookup_fmap, Hk. eauto.
  - intros o m o' Ht. unfold mem_update. destruct (mem_proper m !! key o) eqn:Hk; [|done].
    destruct (mem_write_run m (<[key o:=o]> (mem_objects m)) o) as [[_ Hn]|[n ->]]; [by intros ?%Hn|].
    intros [= <-]. split; [|split; [by apply mem_store_insert|done]]. unfold mem_store. rewrite lookup_fmap, Hk. eauto.
  - intros o m Ht. unfold mem_remove. destruct (mem_objects m !! key o) eqn:Hk; [|by left].
    destruct (mem_write_run m (delete (key o) (mem_objects m)) tt) as [[-> _]|[n ->]]; [by left|right].
    by apply mem_store_delete.
  - intros o m Ht. unfold mem_remove. destruct (mem_objects m !! key o) eqn:Hk; [|done].
    destruct (mem_write_run m (delete (key o) (mem_objects m)) tt) as [[_ Hn]|[n ->]]; [by intros ?%Hn|].
    intros _. by apply mem_store_delete.
  - intros o m e Ht. unfold mem_remove. destruct (mem_objects m !! key o) eqn:Hk.
    + unfold mem_write. destruct (mem_writes m); [|done]. by intros [= <-].
    + intros _ _. cbn. symmetry. by apply delete_id, mem_store_None.
Qed.
End Memory.
Arguments memory Obj : clear implicits.
Arguments mkMemory {Obj}.
Arguments mem_objects {Obj}.
Arguments mem_writes {Obj}.

(** ** Part of a state *)

Section Part.
Context {W V : Type}.
Variables (get : W -> V) (set : V -> W -> W).
Hypothesis get_set : forall v w, get (set v w) = v.

Definition on_part {A} (m : hub V A) : hub W A := fun w =>
  let '(v, r) := m (get w) in (set v w, r).

Lemma on_part_run {A} (m : hub V A) w : get (on_part m w).1 = (m (get w)).1 /\ (on_part m w).2 = (m (get w)).2.
Proof. unfold on_part. destruct (m (get w)) as [v r]. cbn. by rewrite get_set. Qed.

Lemma on_part_laws {Obj C : Type} (meta : Obj -> ObjectMeta) (content : Obj -> C) ns name store list create update remove :
  StoreLaws meta content ns name store list create update remove ->
  StoreLaws meta content ns name (fun w => store (get w)) (fun n sel => on_part (list n sel))
    (fun o => on_part (create o)) (fun o => on_part (update o)) (fun o => on_part (remove o)).
Proof.
  intros [H1 H2 H3 H4 H5 H6 H7 H8 H9 H10 H11 H12].
  split; intros *; try (destruct (on_part_run (list ns sel) w) as [E1 E2]);
    try (destruct (on_part_run (create o) w) as [E3 E4]); try (destruct (on_part_run (update o) w) as [E5 E6]);
    try (destruct (on_part_run (remove o) w) as [E7 E8]); repeat match goal with E : _ = _ |- _ => rewrite E; clear E end; eauto.
Qed.
End Part.
