(* ===== verification/PolicySnapshotsProofs.v ===== *)
(** * One current policy snapshot

    Whatever calls fail, and whatever of a failed call has taken effect, a
    placement never has two policy snapshots marked as the latest.  When
    [getOrCreateSchedulingPolicySnapshot] returns, the one marked is the one it
    returns, it carries the scheduling policy of the placement, its generation
    and its number of clusters, and the history is within the revision limit. *)

From stdpp Require Import prelude gmap strings.
From S2P Require Import Prelude K8s Api Sample Utils FrameworkUtils Hub Overrider WorkApi PlacementApi PolicySnapshots SnapshotStore.

Local Open Scope string_scope.
Local Open Scope list_scope.

(** ** Counts in annotations *)

Lemma extract_count_zstr (m : gmap string string) key what z :
  (0 <= z < 2 ^ 63)%Z -> m !! key = Some (zstr z) -> extract_count m key what = Ok z.
Proof.
  intros Hz Hm. unfold extract_count. rewrite Hm, Atoi_zstr by (unfold in_range; lia).
  by rewrite (proj2 (Z.ltb_ge _ _)) by lia.
Qed.

(** The number of clusters and the generation fit their types. *)
Definition sound_numbers (placement : PlacementObj) : Prop :=
  (0 <= pl_generation placement < 2 ^ 63)%Z /\
  forall n, pickedNumber placement = Some n -> (0 <= n < 2 ^ 31)%Z.

(** What the snapshot of a placement says. *)
Definition describes (placement : PlacementObj) (s : PolicySnapshotObj) : Prop :=
  ExtractObservedPlacementGenerationFromPolicySnapshot s = Ok (pl_generation placement) /\
  forall n, pickedNumber placement = Some n -> ExtractNumOfClustersFromPolicySnapshot s = Ok n.

Lemma BuildPolicySnapshot_describes placement index hash :
  sound_numbers placement -> describes placement (BuildPolicySnapshot placement index hash).
Proof.
  intros [Hg Hn]. split.
  - apply extract_count_zstr; [done|]. cbn. destruct (pickedNumber placement); by simplify_map_eq.
  - intros n Hp. apply extract_count_zstr; [specialize (Hn n Hp); lia|]. cbn. rewrite Hp. by simplify_map_eq.
Qed.

Lemma marked_latest_insert (m : ObjectMeta) :
  marked_latest m = true -> <[IsLatestSnapshotLabel := FormatBool true]> (meta_labels m) = meta_labels m.
Proof. unfold marked_latest. rewrite bool_decide_eq_true. apply insert_id. Qed.

(** ** Refreshing the latest snapshot *)

Lemma ensureNumberOfClusters_Ok placement s s' changed :
  sound_numbers placement -> ensureNumberOfClusters placement s = Ok (s', changed) ->
  snap_spec s' = snap_spec s /\ meta_labels (snap_meta s') = meta_labels (snap_meta s) /\
  key_of snap_meta s' = key_of snap_meta s /\ (changed = false -> s' = s) /\
  (forall n, pickedNumber placement = Some n -> ExtractNumOfClustersFromPolicySnapshot s' = Ok n) /\
  ExtractObservedPlacementGenerationFromPolicySnapshot s' = ExtractObservedPlacementGenerationFromPolicySnapshot s.
Proof.
  intros [_ Hn]. unfold ensureNumberOfClusters.
  destruct (pickedNumber placement) as [n|]; [|by intros [= <- <-]].
  destruct (ExtractNumOfClustersFromPolicySnapshot s) as [old|e|p] eqn:He; [|done..].
  destruct (old =? n)%Z eqn:Hon.
  - intros [= <- <-]. apply Z.eqb_eq in Hon as ->. naive_solver.
  - intros [= <- <-]. do 4 (split; [done|]). split.
    + intros n' [= <-]. apply extract_count_zstr; [specialize (Hn n eq_refl); lia|]. cbn. by simplify_map_eq.
    + unfold ExtractObservedPlacementGenerationFromPolicySnapshot, extract_count. cbn.
      by rewrite lookup_insert_ne by done.
Qed.

Lemma refreshLatestPolicySnapshot_Ok placement s s' changed :
  sound_numbers placement -> refreshLatestPolicySnapshot placement s = Ok (s', changed) ->
  snap_spec s' = snap_spec s /\ key_of snap_meta s' = key_of snap_meta s /\
  meta_labels (snap_meta s') = <[IsLatestSnapshotLabel := FormatBool true]> (meta_labels (snap_meta s)) /\
  describes placement s' /\ (changed = false -> s' = s).
Proof.
  intros Hs. unfold refreshLatestPolicySnapshot.
  set (s1 := if negb (marked_latest (snap_meta s)) then _ else s).
  assert (meta_labels (snap_meta s1) = <[IsLatestSnapshotLabel := FormatBool true]> (meta_labels (snap_meta s)) /\
    snap_spec s1 = snap_spec s /\ key_of snap_meta s1 = key_of snap_meta s) as (Hl1 & Hs1 & Hk1).
  { unfold s1. destruct (marked_latest (snap_meta s)) eqn:Hm; [|done]. by rewrite marked_latest_insert. }
  destruct (ExtractObservedPlacementGenerationFromPolicySnapshot s1) as [g|e|p] eqn:Hg; [|done..].
  set (s2 := if negb (g =? pl_generation placement)%Z then _ else s1).
  assert (ExtractObservedPlacementGenerationFromPolicySnapshot s2 = Ok (pl_generation placement) /\
    meta_labels (snap_meta s2) = meta_labels (snap_meta s1) /\ snap_spec s2 = snap_spec s1 /\
    key_of snap_meta s2 = key_of snap_meta s1) as (Hg2 & Hl2 & Hs2 & Hk2).
  { unfold s2. destruct (g =? pl_generation placement)%Z eqn:Hgg; cbn.
    - apply Z.eqb_eq in Hgg as <-. done.
    - split; [|done]. apply extract_count_zstr; [apply Hs|]. cbn. by simplify_map_eq. }
  intros [[s3 c3] [He Hr]]%obind_Ok. injection Hr as <- <-.
  destruct (ensureNumberOfClusters_Ok _ _ _ _ Hs He) as (Hs3 & Hl3 & Hk3 & Hc3 & Hn3 & Hg3).
  split; [congruence|]. split; [congruence|]. split; [congruence|].
  split; [split; [congruence|done]|].
  intros Hc. apply orb_false_iff in Hc as [Hc ->]. apply orb_false_iff in Hc as [Hm Hg'].
  rewrite Hc3 by done. unfold s2. rewrite Hg'. unfold s1. by rewrite Hm.
Qed.

(** ** The store of policy snapshots *)

Section Proofs.
Context {W : Type} {PS : PolicySnapshotReader W} {SC : SnapshotClient W} {H : Hasher}.
Variable placement : PlacementObj.
Variable store : W -> contents SchedulingPolicySnapshotSpec.

Notation ns := (pl_namespace placement).
Notation name := (pl_name placement).
Notation key := (key_of snap_meta).
Notation image := (image_of snap_meta snap_spec).
Notation spec := (spec store).

Hypothesis laws : StoreLaws snap_meta snap_spec ns name store hub_list_policy_snapshots
  hub_create_policy_snapshot hub_update_policy_snapshot hub_delete_policy_snapshot.

(** The hash of a snapshot is that of its policy. *)
Definition hashed (m : contents SchedulingPolicySnapshotSpec) : Prop :=
  forall k v, m !! k = Some v ->
    HashOfPolicy (withoutNumber (sps_Policy (st_content v))) = Ok (sps_PolicyHash (st_content v)).

Lemma hashed_insert m k v :
  hashed m -> HashOfPolicy (withoutNumber (sps_Policy (st_content v))) = Ok (sps_PolicyHash (st_content v)) ->
  hashed (<[k := v]> m).
Proof.
  intros Hm Hv k' v' Hk. destruct (decide (k' = k)) as [->|Hn].
  - rewrite lookup_insert_eq in Hk. by injection Hk as <-.
  - rewrite lookup_insert_ne in Hk by done. by eapply Hm.
Qed.

Lemma hashed_delete m k : hashed m -> hashed (delete k m).
Proof. intros Hm k' v Hk. apply lookup_delete_Some in Hk as [_ Hk]. by eapply Hm. Qed.

(** What is never lost, whatever fails. *)
Definition intact (bound : nat) (m : contents SchedulingPolicySnapshotSpec) : Prop :=
  single_latest m /\ hashed m /\ size m <= bound.

(** The snapshot [s] is stored, and no other one is marked. *)
Definition holds (m : contents SchedulingPolicySnapshotSpec) (s : PolicySnapshotObj) : Prop :=
  m !! key s = Some (image s) /\ latest_only_at m (key s).

Lemma holds_tracked w s : holds (store w) s -> tracked snap_meta ns name s.
Proof. intros [Hk _]. exact (store_tracked _ _ _ _ _ _ _ _ _ laws _ _ _ Hk). Qed.

Lemma sortByPolicyIndex_elem items sorted s : sortByPolicyIndex items = Ok sorted -> s ∈ sorted -> s ∈ items.
Proof.
  unfold sortByPolicyIndex. destruct items as [|a [|b r]]; [by intros [= <-]..|].
  destruct (list_find _ _) as [[i x]|].
  - destruct (ParsePolicyIndexFromLabel _); [by intros [= <-]|done|by intros [= <-]].
  - intros [= <-]. by rewrite elem_of_go_sort.
Qed.

Lemma listSorted_spec (P : contents SchedulingPolicySnapshotSpec -> Prop) :
  spec P (listSortedSchedulingPolicySnapshots placement)
    (fun sorted m => P m /\ exists items, listed (meta := snap_meta) (content := snap_spec)
       {[PlacementTrackingLabel := name]} m items /\ sortByPolicyIndex items = Ok sorted) P.
Proof.
  eapply spec_bind; [apply spec_map_err, (spec_list laws); by simplify_map_eq|].
  intros items. apply spec_lift; naive_solver.
Qed.

(** Every stored snapshot has the label of the placement. *)
Definition well_tracked (m : contents SchedulingPolicySnapshotSpec) : Prop :=
  forall k v, m !! k = Some v -> k.1 = ns /\ st_labels v !! PlacementTrackingLabel = Some name.

Lemma store_well_tracked w : well_tracked (store w).
Proof. intros k v Hk. exact (store_tracked _ _ _ _ _ _ _ _ _ laws w k v Hk). Qed.

Definition latestSelector : gmap string string :=
  <[PlacementTrackingLabel := name]> {[IsLatestSnapshotLabel := "true"]}.

(** The list of the latest snapshots has all of them. *)
Lemma latest_listed m items k v :
  well_tracked m -> listed (meta := snap_meta) (content := snap_spec) latestSelector m items ->
  m !! k = Some v -> is_latest v -> exists s, s ∈ items /\ key s = k.
Proof.
  intros Ht (_ & _ & Hc) Hk Hl. apply (Hc k v Hk). destruct (Ht k v Hk) as [_ Htl].
  unfold latestSelector. apply insert_subseteq_l; [done|]. by apply map_singleton_subseteq_l.
Qed.

Lemma holds_last m items sorted s :
  no_latest m -> listed (meta := snap_meta) (content := snap_spec) {[PlacementTrackingLabel := name]} m items ->
  sortByPolicyIndex items = Ok sorted -> last sorted = Some s -> holds m s.
Proof.
  intros Hn (_ & Hin & _) Hsort Hlast. split; [|by apply no_latest_only_at].
  apply Hin. eapply sortByPolicyIndex_elem; [done|]. by apply last_Some_elem_of.
Qed.

Lemma recover_spec bound :
  spec (fun m => intact bound m /\ no_latest m) (recoverLatestPolicySnapshot placement)
    (fun r m => intact bound m /\ match r with Some (s, _) => holds m s | None => no_latest m end) (intact bound).
Proof.
  eapply spec_bind.
  { eapply spec_weaken; [apply (listSorted_spec (fun m => intact bound m /\ no_latest m))|done|intros a m Ha; exact Ha|naive_solver]. }
  intros sorted. cbn. destruct (last sorted) as [s|] eqn:Hlast.
  - eapply (spec_bind _ _ _ _ (fun _ m => intact bound m /\ holds m s)).
    + apply spec_map_err, spec_lift; [|naive_solver].
      intros i m _ ([Hi Hn] & items & Hl & Hs). split; [done|]. by eapply holds_last.
    + intros i. by apply spec_ret.
  - apply spec_ret. naive_solver.
Qed.

Lemma lookup_spec bound :
  spec (intact bound) (lookupLatestSchedulingPolicySnapshot placement)
    (fun r m => intact bound m /\
       match r with Some (s, _) => holds m s | None => no_latest m end) (intact bound).
Proof.
  eapply spec_bind.
  { apply spec_map_err, (spec_list laws latestSelector (intact bound)). apply lookup_insert_eq. }
  intros actives. apply (spec_fact _ well_tracked); [apply store_well_tracked|].
  destruct actives as [|s [|s' r]]; cbn.
  - eapply spec_weaken; [apply recover_spec| |intros r m Ha; exact Ha|done].
    intros m (Ht & Hi & Hl). split; [done|]. intros k v Hk Hlv.
    destruct (latest_listed m [] k v Ht Hl Hk Hlv) as (o & Ho & _). by apply elem_of_nil in Ho.
  - eapply (spec_bind _ _ _ _ (fun x m => intact bound m /\ holds m x)).
    + apply spec_lift; [|naive_solver]. intros x m [= <-] (Ht & Hi & Hl). split; [done|]. split.
      * destruct Hl as (_ & Hin & _). apply Hin. by constructor.
      * intros k v Hk Hlv. destruct (latest_listed m _ k v Ht Hl Hk Hlv) as (o & Ho & <-).
        by apply list_elem_of_singleton in Ho as ->.
    + intros x. eapply (spec_bind _ _ _ _ (fun _ m => intact bound m /\ holds m x)).
      * apply spec_map_err, spec_lift; naive_solver.
      * intros i. by apply spec_ret.
  - eapply (spec_bind _ _ _ _ (fun _ _ => False)); [by apply spec_lift; naive_solver|]. intros x w [].
Qed.

(** ** Keeping the latest snapshot *)

Lemma single_latest_insert (m : contents SchedulingPolicySnapshotSpec) k v :
  latest_only_at m k -> single_latest (<[k := v]> m).
Proof.
  intros Ho. destruct (decide (is_latest v)) as [Hl|Hl].
  - by eapply the_latest_single, the_latest_insert.
  - by apply no_latest_single, no_latest_insert.
Qed.

(** What the function gives. *)
Definition current (s : PolicySnapshotObj) (m : contents SchedulingPolicySnapshotSpec) : Prop :=
  the_latest m (key s) (image s) /\ hashed m /\ describes placement s.

Lemma describes_same s s' : image s = image s' -> describes placement s -> describes placement s'.
Proof.
  intros Heq. unfold describes, ExtractObservedPlacementGenerationFromPolicySnapshot,
    ExtractNumOfClustersFromPolicySnapshot.
  injection Heq as _ -> _. done.
Qed.

Lemma size_insert_is_Some (m : contents SchedulingPolicySnapshotSpec) k v :
  is_Some (m !! k) -> size (<[k := v]> m) = size m.
Proof. intros [x Hx]. by rewrite map_size_insert, Hx. Qed.

Lemma ensureLatest_spec bound s hash :
  sound_numbers placement -> sps_PolicyHash (snap_spec s) = hash ->
  spec (fun m => intact bound m /\ holds m s) (ensureLatestPolicySnapshot placement s)
    (fun s' m => current s' m /\ size m <= bound /\ sps_PolicyHash (snap_spec s') = hash) (intact bound).
Proof.
  intros Hn Hh. apply (spec_fact _ well_tracked); [apply store_well_tracked|].
  eapply (spec_bind _ _ _ _ (fun r m => (refreshLatestPolicySnapshot placement s = Ok r) /\
    well_tracked m /\ intact bound m /\ holds m s)).
  { apply spec_lift; naive_solver. }
  intros [s' changed]. apply spec_pure. intros Hr.
  destruct (refreshLatestPolicySnapshot_Ok _ _ _ _ Hn Hr) as (Hs & Hk & Hl & Hd & Hc).
  assert (is_latest (image s')) as Hlat by (unfold is_latest; cbn; rewrite Hl; by simplify_map_eq).
  destruct changed.
  - apply (spec_given _ (tracked snap_meta ns name s')).
    { intros m (Hwt & _ & Hh' & _). destruct (Hwt _ _ Hh') as [H1 H2]. split.
      - change ((key s').1 = ns). by rewrite Hk.
      - rewrite Hl, lookup_insert_ne by done. exact H2. }
    intros Ht. apply spec_map_err, (spec_update laws); [done|naive_solver|].
    intros m (_ & (Hsl & Hha & Hsz) & Hin & Ho) Hsome. rewrite Hk in *.
    assert (hashed (<[key s := image s']> m)) as Hha'.
    { apply hashed_insert; [done|]. cbn. rewrite Hs. exact (Hha _ _ Hin). }
    split; [split; [by apply single_latest_insert|split; [done|by rewrite size_insert_is_Some]]|].
    intros s'' Hk'' Hi''. split; [split; [|split; [done|]]|split].
    + rewrite Hk'', Hi''. by apply the_latest_insert.
    + by eapply describes_same.
    + by rewrite size_insert_is_Some.
    + injection Hi'' as _ _ ->. by rewrite Hs.
  - specialize (Hc eq_refl) as ->. apply spec_ret. intros m (_ & (Hsl & Hha & Hsz) & Hin & Ho).
    split; [split; [by apply single_the_latest|by split]|by split].
Qed.

(** ** Creating a snapshot *)

(** The state in which the redundant snapshots are deleted. *)
Definition inactive (bound : nat) (m : contents SchedulingPolicySnapshotSpec) : Prop :=
  no_latest m /\ hashed m /\ size m <= bound.

Lemma inactive_intact bound m : inactive bound m -> intact bound m.
Proof. intros (Hn & Hh & Hs). split; [by apply no_latest_single|by split]. Qed.

Lemma inactive_delete bound m k : inactive bound m -> inactive bound (delete k m).
Proof.
  intros (Hn & Hh & Hs). split; [by apply no_latest_delete|split; [by apply hashed_delete|]].
  rewrite map_size_delete. destruct (m !! k); cbn; lia.
Qed.

Lemma deactivate_spec bound s :
  spec (fun m => intact bound m /\ holds m s) (deactivatePolicySnapshot s) (fun _ => inactive bound) (intact bound).
Proof.
  apply (spec_fact _ well_tracked); [apply store_well_tracked|].
  unfold deactivatePolicySnapshot. destruct (marked_latest (snap_meta s)) eqn:Hm.
  - set (s' := set_snap_meta _ s).
    assert (~ is_latest (image s')) as Hnl by (unfold is_latest; cbn; by simplify_map_eq).
    eapply (spec_bind _ _ _ _ (fun _ => inactive bound)); [|intros ?; by apply spec_ret].
    apply (spec_given _ (tracked snap_meta ns name s')).
    { intros m (Hwt & _ & Hin & _). destruct (Hwt _ _ Hin) as [H1 H2].
      split; [exact H1|]. cbn. rewrite lookup_insert_ne by done. exact H2. }
    intros Ht. apply spec_map_err, (spec_update laws); [done|naive_solver|].
    intros m (_ & (Hsl & Hha & Hsz) & Hin & Ho) Hsome. change (key s') with (key s) in *.
    assert (inactive bound (<[key s := image s']> m)) as Hi; [|split; [by apply inactive_intact|done]].
    split; [by apply no_latest_insert|]. split; [|by rewrite size_insert_is_Some].
    apply hashed_insert; [done|]. exact (Hha _ _ Hin).
  - apply spec_ret. intros m (_ & (Hsl & Hha & Hsz) & Hin & Ho). split; [|by split].
    intros k v Hk Hl. specialize (Ho k v Hk Hl) as ->. rewrite Hin in Hk. injection Hk as <-.
    unfold marked_latest in Hm. apply bool_decide_eq_false in Hm. done.
Qed.

Lemma deleteFirst_spec bound count items total :
  NoDup (key <$> items) -> (forall s, s ∈ items -> tracked snap_meta ns name s) ->
  spec (fun m => inactive bound m /\ (forall s, s ∈ items -> is_Some (m !! key s)) /\ size m = total)
    (deleteFirstPolicySnapshots count items)
    (fun _ m => inactive bound m /\ size m + count = total) (intact bound).
Proof.
  revert items total. induction count as [|n IH]; intros items total Hnd Ht; cbn.
  { apply spec_ret. intros m (Hi & _ & Hs). split; [done|lia]. }
  destruct items as [|s r]; [by apply spec_lift; [|naive_solver eauto using inactive_intact]|].
  apply NoDup_cons in Hnd as [Hnin Hnd].
  eapply (spec_bind _ _ _ _ (fun _ m => inactive bound m /\ (forall s, s ∈ r -> is_Some (m !! key s)) /\
    0 < total /\ size m = pred total)).
  - apply (spec_remove laws); [apply Ht; by constructor|naive_solver eauto using inactive_intact|].
    intros m (Hi & Hin & Hs). split; [by apply inactive_intact, inactive_delete|].
    split; [by apply inactive_delete|]. destruct (Hin s) as [v Hv]; [by constructor|]. split.
    + intros s' Hs'. rewrite lookup_delete_ne; [apply Hin; by constructor|].
      intros Heq. apply Hnin. rewrite Heq. by apply list_elem_of_fmap_2.
    + assert (size m <> 0) by (intros He%map_size_empty_inv; subst; by rewrite lookup_empty in Hv).
      rewrite map_size_delete, Hv. lia.
  - intros _. apply (spec_given _ (0 < total)); [naive_solver|]. intros Hpos.
    eapply spec_weaken; [apply (IH r (pred total) Hnd)| |intros _ m [Hi Hs]|done].
    + intros s' Hs'. apply Ht. by constructor.
    + naive_solver.
    + split; [done|lia].
Qed.

Lemma sortByPolicyIndex_perm items sorted : sortByPolicyIndex items = Ok sorted -> sorted ≡ₚ items.
Proof.
  unfold sortByPolicyIndex. destruct items as [|a [|b r]]; [by intros [= <-]..|].
  destruct (list_find _ _) as [[i x]|].
  - destruct (ParsePolicyIndexFromLabel _); [by intros [= <-]|done|by intros [= <-]].
  - intros [= <-]. apply go_sort_perm.
Qed.

Lemma deleteRedundant_spec bound limit :
  spec (inactive bound) (deleteRedundantSchedulingPolicySnapshots placement limit)
    (fun _ m => inactive bound m /\ (Z.of_nat (size m) < limit)%Z) (intact bound).
Proof.
  apply (spec_fact _ well_tracked); [apply store_well_tracked|].
  eapply spec_bind.
  { eapply spec_weaken; [apply (listSorted_spec (fun m => well_tracked m /\ inactive bound m))|done|
      intros a m Ha; exact Ha|naive_solver eauto using inactive_intact]. }
  intros sorted. cbn.
  apply (spec_given _ (NoDup (key <$> sorted) /\ forall s, s ∈ sorted -> tracked snap_meta ns name s)).
  { intros m ([Ht _] & items & (Hnd & Hin & _) & Hs%sortByPolicyIndex_perm). split; [by rewrite Hs|].
    intros s Hsi. rewrite Hs in Hsi. destruct (Hin s Hsi) as [Hk _]. exact (Ht _ _ Hk). }
  intros [Hnd Htr].
  eapply (spec_weaken _ (fun m => inactive bound m /\ (forall s, s ∈ sorted -> is_Some (m !! key s)) /\
    size m = length sorted)); [| |intros a m Ha; exact Ha|intros m Ha; exact Ha].
  - destruct (Z.of_nat (length sorted) <? limit)%Z eqn:Hl.
    + apply Z.ltb_lt in Hl. apply spec_ret. intros m (Hi & _ & ->). done.
    + apply Z.ltb_ge in Hl. eapply spec_weaken; [by apply deleteFirst_spec|intros m Ha; exact Ha| |done].
      intros _ m [Hi Hsz]. split; [done|lia].
  - intros m ([Ht Hi] & items & Hli & Hs%sortByPolicyIndex_perm). split; [done|]. split.
    + intros s Hsi. rewrite Hs in Hsi. destruct Hli as (_ & Hin & _). destruct (Hin s Hsi) as [Hk _]. eauto.
    + rewrite Hs. symmetry. by apply (listed_length (ns := ns) (name := name) (meta := snap_meta) (content := snap_spec)).
Qed.

Lemma BuildPolicySnapshot_tracked index hash : tracked snap_meta ns name (BuildPolicySnapshot placement index hash).
Proof. split; [done|]. cbn. apply lookup_insert_eq. Qed.

(** What holds whatever fails, when a snapshot may have been added. *)
Definition kept (limit : Z) (bound : nat) (m : contents SchedulingPolicySnapshotSpec) : Prop :=
  single_latest m /\ hashed m /\ (Z.of_nat (size m) <= Z.max limit (Z.of_nat bound))%Z.

Lemma intact_kept limit bound m : intact bound m -> kept limit bound m.
Proof. intros (Hsl & Hha & Hsz). split; [done|split; [done|lia]]. Qed.

Lemma create_spec bound index hash limit :
  sound_numbers placement -> HashOfPolicy (withoutNumber (pl_policy placement)) = Ok hash ->
  spec (inactive bound) (createPolicySnapshot placement index hash limit)
    (fun s m => current s m /\ (Z.of_nat (size m) <= limit)%Z /\ sps_PolicyHash (snap_spec s) = hash)
    (kept limit bound).
Proof.
  intros Hn Hh. eapply spec_bind.
  { eapply spec_weaken; [apply deleteRedundant_spec|done|intros a m Ha; exact Ha|apply intact_kept]. }
  intros []. cbn. eapply (spec_bind _ _ _ _ (fun _ m => inactive bound m /\ (Z.of_nat (size m) < limit)%Z)).
  { apply spec_map_err, spec_lift; naive_solver eauto using inactive_intact, intact_kept. }
  intros []. set (s := BuildPolicySnapshot placement _ hash).
  apply spec_map_err, (spec_create laws); [apply BuildPolicySnapshot_tracked|
    naive_solver eauto using inactive_intact, intact_kept|].
  intros m ((Hnl & Hha & Hsz) & Hsl) Hnone.
  assert (the_latest (<[key s := image s]> m) (key s) (image s)) as Hlat.
  { apply the_latest_insert; [by apply no_latest_only_at|]. unfold is_latest. cbn. by simplify_map_eq. }
  assert (hashed (<[key s := image s]> m)) as Hha' by by apply hashed_insert.
  assert (Z.of_nat (size (<[key s := image s]> m)) <= limit)%Z as Hsz' by (rewrite map_size_insert, Hnone; lia).
  split; [split; [by eapply the_latest_single|split; [done|lia]]|].
  intros s' Hk Hi. split; [split; [|split; [done|]]|split; [done|]].
  - by rewrite Hk, Hi.
  - eapply describes_same; [symmetry; exact Hi|]. by apply BuildPolicySnapshot_describes.
  - by injection Hi as _ _ ->.
Qed.

(** What the function gives, in full. *)
Definition obtained (limit : Z) (bound : nat) (s : PolicySnapshotObj) (m : contents SchedulingPolicySnapshotSpec) : Prop :=
  current s m /\ (Z.of_nat (size m) <= Z.max limit (Z.of_nat bound))%Z /\
  HashOfPolicy (withoutNumber (pl_policy placement)) = Ok (sps_PolicyHash (snap_spec s)).

Lemma getOrCreatePolicy_spec limit bound :
  sound_numbers placement ->
  spec (intact bound) (getOrCreateSchedulingPolicySnapshot placement limit) (obtained limit bound) (kept limit bound).
Proof.
  intros Hn.
  eapply (spec_bind _ _ _ _ (fun h m => HashOfPolicy (withoutNumber (pl_policy placement)) = Ok h /\ intact bound m)).
  { apply spec_map_err, spec_lift; naive_solver eauto using intact_kept. }
  intros hash. apply spec_pure. intros Hh.
  eapply spec_bind.
  { eapply spec_weaken; [apply lookup_spec|done|intros a m Ha; exact Ha|apply intact_kept]. }
  assert (forall index, spec (inactive bound) (createPolicySnapshot placement index hash limit)
    (obtained limit bound) (kept limit bound)) as Hcreate.
  { intros index. eapply spec_weaken; [by apply create_spec|done| |done].
    intros s m (Hc & Hs & Hph). split; [done|split; [lia|congruence]]. }
  intros [[s index]|]; cbn.
  - case_decide as Hd.
    + eapply spec_weaken; [by apply (ensureLatest_spec bound s hash)|intros m Ha; exact Ha| |apply intact_kept].
      intros s' m (Hc & Hs & Hph). split; [done|split; [lia|congruence]].
    + eapply spec_bind.
      { eapply spec_weaken; [apply (deactivate_spec bound s)|intros m Ha; exact Ha|intros a m Ha; exact Ha|
          apply intact_kept]. }
      intros []. apply Hcreate.
  - eapply spec_weaken; [apply Hcreate| |done|done]. intros m [(Ha & Hb & Hc) Hnl]. by split.
Qed.

End Proofs.

