(* ===== verification/ResourceGroups.v ===== *)
(** * Groups of resource snapshots

    [SplitSelectedResources] loses nothing, keeps the order, fills each snapshot
    as far as it can and stays within the size limit; the names given to the
    snapshots of a placement are distinct.  Then what the snapshots of a
    placement look like on the hub, at any time: each master has the hash and
    the number of snapshots of the resources of one round, the others of its
    group are the first ones of the rest, and the snapshot marked as the latest
    is the master of the last group. *)

From Stdlib Require Import Ascii.
From stdpp Require Import prelude gmap strings.
From S2P Require Import Prelude K8s Api Sample Utils FrameworkUtils Hub Overrider WorkApi PlacementApi PolicySnapshots ResourceSnapshots SnapshotStore.

Local Open Scope string_scope.
Local Open Scope list_scope.

(** ** Splitting *)

(** The size of the content of a snapshot, in bytes. *)
Definition total_size (resources : list string) : Z :=
  foldr (fun r n => (Z.of_nat (String.length r) + n)%Z) 0%Z resources.

Lemma total_size_cons r rs : total_size (r :: rs) = (Z.of_nat (String.length r) + total_size rs)%Z.
Proof. done. Qed.

Lemma total_size_nonneg rs : (0 <= total_size rs)%Z.
Proof. induction rs as [|r rs IH]; [done|]. rewrite total_size_cons. lia. Qed.

(** The next resource would exceed the limit. *)
Definition full (limit size : Z) (rest : list string) : Prop :=
  match rest with
  | [] => True
  | r :: _ => (limit < size + Z.of_nat (String.length r))%Z
  end.

Lemma takeFitting_spec limit size rs fitting rest :
  takeFitting limit size rs = (fitting, rest) ->
  rs = fitting ++ rest /\ (fitting <> [] -> (size + total_size fitting <= limit)%Z) /\
  full limit (size + total_size fitting) rest.
Proof.
  revert size fitting rest. induction rs as [|r rs IH]; intros size fitting rest; cbn.
  { intros [= <- <-]. done. }
  destruct (limit <? size + Z.of_nat (String.length r))%Z eqn:Hl.
  { intros [= <- <-]. apply Z.ltb_lt in Hl. split; [done|]. split; [done|]. cbn. lia. }
  apply Z.ltb_ge in Hl. destruct (takeFitting limit _ rs) as [f o] eqn:Ht. intros [= <- <-].
  destruct (IH _ _ _ Ht) as (-> & Hs & Hf). split; [done|]. split.
  - intros _. rewrite total_size_cons. destruct f as [|x f]; [cbn [total_size foldr]; lia|].
    specialize (Hs ltac:(done)). lia.
  - rewrite total_size_cons. by rewrite Z.add_assoc.
Qed.

(** A piece has at least one resource, stays within the limit unless it is a
    single resource, and has no room for the next one. *)
Definition good_piece (limit : Z) (piece rest : list string) : Prop :=
  piece <> [] /\ ((total_size piece <= limit)%Z \/ exists r, piece = [r]) /\ full limit (total_size piece) rest.

Lemma nextPiece_spec limit rs piece rest :
  rs <> [] -> nextPiece limit rs = (piece, rest) -> rs = piece ++ rest /\ good_piece limit piece rest.
Proof.
  intros Hne. unfold nextPiece. destruct (takeFitting limit 0 rs) as [fitting others] eqn:Ht.
  destruct (takeFitting_spec _ _ _ _ _ Ht) as (-> & Hs & Hf). destruct fitting as [|f fs].
  - destruct others as [|r others]; [done|]. cbn in Hf.
    rewrite (proj2 (Z.ltb_lt _ _)) by lia. intros [= <- <-].
    split; [done|]. split; [done|]. split; [by right; exists r|].
    destruct others as [|r' others]; cbn; [done|]. lia.
  - intros [= <- <-]. split; [done|]. split; [done|]. specialize (Hs ltac:(done)). split; [by left|exact Hf].
Qed.

(** Every piece is good with respect to what follows it. *)
Inductive good_pieces (limit : Z) : list (list string) -> Prop :=
| good_nil : good_pieces limit []
| good_cons piece pieces :
    good_piece limit piece (concat pieces) -> good_pieces limit pieces -> good_pieces limit (piece :: pieces).

Lemma splitLoop_spec limit turns rs :
  length rs <= turns -> concat (splitLoop turns limit rs) = rs /\ good_pieces limit (splitLoop turns limit rs).
Proof.
  revert rs. induction turns as [|n IH]; intros rs Hlen.
  { destruct rs; [by split; [|constructor]|cbn in Hlen; lia]. }
  destruct rs as [|r rs]; [by split; [|constructor]|].
  assert (splitLoop (S n) limit (r :: rs) =
    let '(piece, rest) := nextPiece limit (r :: rs) in piece :: splitLoop n limit rest) as -> by done.
  destruct (nextPiece limit (r :: rs)) as [piece rest] eqn:Hp.
  destruct (nextPiece_spec limit (r :: rs) piece rest ltac:(done) Hp) as (Heq & Hg).
  destruct (IH rest) as [Hc Hgs].
  { destruct Hg as [Hne _]. destruct piece as [|x piece]; [done|].
    apply (f_equal length) in Heq. cbn in Heq, Hlen. rewrite length_app in Heq. lia. }
  split; [cbn; by rewrite Hc|]. constructor; [by rewrite Hc|done].
Qed.

Lemma SplitSelectedResources_concat rs limit : concat (SplitSelectedResources rs limit) = rs.
Proof. by apply splitLoop_spec. Qed.

Lemma SplitSelectedResources_length rs limit : length (SplitSelectedResources rs limit) <= length rs.
Proof.
  destruct (splitLoop_spec limit (length rs) rs ltac:(done)) as [Hc Hg].
  fold (SplitSelectedResources rs limit) in Hc, Hg. rewrite <- Hc at 2. clear Hc.
  induction Hg as [|piece pieces [Hne _] _ IH]; [done|]. cbn. rewrite length_app.
  destruct piece; [done|]. cbn. lia.
Qed.

(** C33: The pieces hold the resources in their order.  None is empty, none exceeds
    the limit unless it is one resource that does on its own, and the first
    resource of a piece would not have fitted into the piece before it. *)
Theorem split_fills_snapshots rs limit :
  concat (SplitSelectedResources rs limit) = rs /\ good_pieces limit (SplitSelectedResources rs limit).
Proof. by apply splitLoop_spec. Qed.

(** ** Names *)

Lemma atoi_digits_no_dash s acc n : atoi_digits s acc = Some n -> str_contains dash s = false.
Proof.
  revert acc. induction s as [|a s IH]; intros acc; cbn; [done|].
  destruct ((48 <=? _) && _)%Z eqn:Hd; [|done]. intros Hs. apply IH in Hs. rewrite Hs, orb_false_r.
  by destruct (Ascii.eqb_spec a dash) as [->|Hne].
Qed.

Lemma zstr_digits z : (0 <= z)%Z -> atoi_digits (zstr z) 0 = Some z.
Proof.
  intros Hz. pose proof (atoi_signed_zstr z) as Ha. unfold zstr in *.
  destruct z as [|p|p]; [done| |lia].
  change (pretty.pretty (Z.pos p)) with (pretty.pretty (N.pos p)) in *.
  unfold pretty.pretty, pretty.pretty_N in *. rewrite decide_False by done. by rewrite atoi_pretty_N_go.
Qed.

Lemma zstr_no_dash z : (0 <= z)%Z -> str_contains dash (zstr z) = false.
Proof. intros Hz. by eapply atoi_digits_no_dash, zstr_digits. Qed.

Lemma zstr_inj a b : zstr a = zstr b -> a = b.
Proof. intros Heq. pose proof (atoi_signed_zstr a). pose proof (atoi_signed_zstr b). congruence. Qed.

Lemma zstr_nonempty z : zstr z <> EmptyString.
Proof. intros Heq. pose proof (atoi_signed_zstr z) as H. by rewrite Heq in H. Qed.

Lemma string_app_inj_l s t u : s +:+ t = s +:+ u -> t = u.
Proof. induction s as [|a s IH]; [done|]. rewrite !string_app_cons. intros [= Heq]. auto. Qed.

Lemma dashed_inj s s' t t' :
  str_contains dash s = false -> str_contains dash s' = false ->
  s +:+ String dash t = s' +:+ String dash t' -> s = s' /\ t = t'.
Proof.
  revert s'. induction s as [|a s IH]; intros [|b s'] Hs Hs'; cbn in Hs, Hs'.
  - intros Heq. by injection Heq as ->.
  - rewrite string_app_cons. intros [= Hb _]. apply orb_false_iff in Hs' as [Hb' _].
    rewrite <- Hb in Hb'. by rewrite Ascii.eqb_refl in Hb'.
  - rewrite string_app_cons. intros [= Hb _]. apply orb_false_iff in Hs as [Hb' _].
    rewrite Hb in Hb'. by rewrite Ascii.eqb_refl in Hb'.
  - rewrite !string_app_cons. intros [= -> Heq].
    apply orb_false_iff in Hs as [_ Hs]. apply orb_false_iff in Hs' as [_ Hs'].
    by destruct (IH s' Hs Hs' Heq) as [-> ->].
Qed.

Lemma resourceSnapshotName_inj name i j :
  (0 <= i)%Z -> (0 <= j)%Z -> resourceSnapshotName name i = resourceSnapshotName name j -> i = j.
Proof.
  intros Hi Hj Heq%string_app_inj_l. injection Heq as Heq.
  change "-snapshot" with (String dash "snapshot") in Heq.
  apply dashed_inj in Heq as [Hz _]; [by apply zstr_inj|by apply zstr_no_dash..].
Qed.

Lemma subindexSnapshotName_inj name i i' j j' :
  (0 <= i)%Z -> (0 <= i')%Z -> subindexSnapshotName name i j = subindexSnapshotName name i' j' -> i = i' /\ j = j'.
Proof.
  intros Hi Hi' Heq%string_app_inj_l. injection Heq as Heq.
  apply dashed_inj in Heq as [Hz Hj]; [split; by apply zstr_inj|by apply zstr_no_dash..].
Qed.

Lemma master_sub_names name i i' j :
  (0 <= i)%Z -> (0 <= i')%Z -> resourceSnapshotName name i <> subindexSnapshotName name i' j.
Proof.
  intros Hi Hi' Heq%string_app_inj_l. injection Heq as Heq.
  change "-snapshot" with (String dash "snapshot") in Heq.
  apply dashed_inj in Heq as [_ Hj]; [|by apply zstr_no_dash..].
  pose proof (atoi_signed_zstr j) as Ha. rewrite <- Hj in Ha. done.
Qed.

(** ** Groups *)

Section Groups.
Context {H : Hasher}.
Variables (ns name : string).
Variable sizeLimit : Z.

Hypothesis hash_faithful : forall a b h, HashOfResources a = Ok h -> HashOfResources b = Ok h -> a = b.

Implicit Types (m : contents (list string)) (v : stored (list string)).

Definition master_key (i : Z) : ObjectKey := (ns, resourceSnapshotName name i).
Definition sub_key (i : Z) (j : nat) : ObjectKey := (ns, subindexSnapshotName name i (Z.of_nat j)).

Definition pieces (rs : list string) : list (list string) := SplitSelectedResources rs sizeLimit.

(** The number of snapshots of a group. *)
Definition group_size (rs : list string) : nat := Nat.max 1 (length (pieces rs)).

(** A master snapshot of the resources [rs]. *)
Record master (i : Z) (rs : list string) (v : stored (list string)) : Prop := {
  master_index : st_labels v !! ResourceIndexLabel = Some (zstr i);
  master_hash : exists h, st_annotations v !! ResourceGroupHashAnnotation = Some h /\ HashOfResources rs = Ok h;
  master_count : st_annotations v !! NumberOfResourceSnapshotsAnnotation = Some (zstr (Z.of_nat (group_size rs)));
  master_subindex : st_annotations v !! SubindexOfResourceSnapshotAnnotation = None;
  master_content : st_content v = default [] (pieces rs !! 0);
  master_fits : (Z.of_nat (length rs) < 2 ^ 63)%Z;
}.

(** The snapshot at subindex [j], as it is built. *)
Definition sub (i : Z) (j : nat) (piece : list string) : stored (list string) :=
  image_of rsnap_meta rsnap_SelectedResources (BuildSubIndexResourceSnapshot i (Z.of_nat j) name ns piece).

(** The other snapshots of the group are the first [t] of the rest. *)
Definition prefix (m : contents (list string)) (i : Z) (rs : list string) (t : nat) : Prop :=
  S t <= group_size rs /\
  forall j, m !! sub_key i j = if decide (j < t) then sub i j <$> pieces rs !! S j else None.

(** The index of an entry. *)
Definition indexed (v : stored (list string)) (i : Z) : Prop := st_labels v !! ResourceIndexLabel = Some (zstr i).

(** What is stored, with indices below [n]. *)
Record grouped (n : Z) (m : contents (list string)) : Prop := {
  grouped_entry k v : m !! k = Some v ->
    exists i, (0 <= i < n)%Z /\ ((exists rs, k = master_key i /\ master i rs v) \/
      (exists j piece, k = sub_key i j /\ (Z.of_nat j < 2 ^ 63)%Z /\ v = sub i j piece));
  grouped_prefix i rs v : (0 <= i)%Z -> m !! master_key i = Some v -> master i rs v -> exists t, prefix m i rs t;
}.

(** All the entries are at most at the index [i]. *)
Definition top (m : contents (list string)) (i : Z) : Prop := forall k v i', m !! k = Some v -> indexed v i' -> (i' <= i)%Z.

(** The snapshot marked as the latest has the last index. *)
Definition latest_top (m : contents (list string)) : Prop :=
  forall k v i, m !! k = Some v -> is_latest v -> indexed v i -> top m i.

Record sane (n : Z) (m : contents (list string)) : Prop := {
  sane_grouped : grouped n m;
  sane_single : single_latest m;
  sane_top : latest_top m;
}.

(** ** Keys *)

Lemma master_key_inj i i' : (0 <= i)%Z -> (0 <= i')%Z -> master_key i = master_key i' -> i = i'.
Proof. intros Hi Hi' Heq%(f_equal snd). by apply (resourceSnapshotName_inj name). Qed.

Lemma sub_key_inj i i' j j' : (0 <= i)%Z -> (0 <= i')%Z -> sub_key i j = sub_key i' j' -> i = i' /\ j = j'.
Proof.
  intros Hi Hi' Heq%(f_equal snd). cbn in Heq.
  apply subindexSnapshotName_inj in Heq as [-> Hj]; [|done..]. split; [done|lia].
Qed.

Lemma master_sub_key i i' j : (0 <= i)%Z -> (0 <= i')%Z -> master_key i <> sub_key i' j.
Proof. intros Hi Hi' Heq%(f_equal snd). by apply (master_sub_names name i i' (Z.of_nat j)). Qed.

(** ** Entries *)

Lemma indexed_inj v i i' : indexed v i -> indexed v i' -> i = i'.
Proof. unfold indexed. intros H1 H2. apply zstr_inj. congruence. Qed.

Lemma sub_indexed i j piece : indexed (sub i j piece) i.
Proof. unfold indexed. cbn. by simplify_map_eq. Qed.

Lemma sub_not_latest i j piece : ~ is_latest (sub i j piece).
Proof. unfold is_latest. cbn. by simplify_map_eq. Qed.

Lemma sub_no_hash i j piece : st_annotations (sub i j piece) !! ResourceGroupHashAnnotation = None.
Proof. cbn. by simplify_map_eq. Qed.

Lemma sub_subindex i j piece :
  st_annotations (sub i j piece) !! SubindexOfResourceSnapshotAnnotation = Some (zstr (Z.of_nat j)).
Proof. cbn. by simplify_map_eq. Qed.

Lemma sub_content_inj i j piece piece' : sub i j piece = sub i j piece' -> piece = piece'.
Proof. by intros [= ->]. Qed.

Lemma group_size_le rs : (Z.of_nat (length rs) < 2 ^ 63)%Z -> (Z.of_nat (group_size rs) < 2 ^ 63)%Z.
Proof.
  intros Hl. unfold group_size, pieces. pose proof (SplitSelectedResources_length rs sizeLimit). lia.
Qed.

Lemma grouped_index n m k v : grouped n m -> m !! k = Some v -> exists i, (0 <= i < n)%Z /\ indexed v i.
Proof.
  intros Hg Hk. destruct (grouped_entry _ _ Hg _ _ Hk) as (i & Hi & [(rs & _ & Hm)|(j & piece & _ & _ & ->)]);
    exists i; (split; [done|]); [apply Hm|apply sub_indexed].
Qed.

(** Only masters are marked. *)
Lemma latest_master n m k v :
  grouped n m -> m !! k = Some v -> is_latest v ->
  exists i rs, (0 <= i < n)%Z /\ k = master_key i /\ master i rs v.
Proof.
  intros Hg Hk Hl. destruct (grouped_entry _ _ Hg _ _ Hk) as (i & Hi & [(rs & Hkk & Hm)|(j & piece & _ & _ & ->)]).
  - eauto 10.
  - by destruct (sub_not_latest i j piece).
Qed.

Lemma grouped_more n n' m : (n <= n')%Z -> grouped n m -> grouped n' m.
Proof.
  intros Hn Hg. split; [|apply Hg]. intros k v Hk.
  destruct (grouped_entry _ _ Hg _ _ Hk) as (i & Hi & He). exists i. split; [lia|done].
Qed.

Lemma sane_more n n' m : (n <= n')%Z -> sane n m -> sane n' m.
Proof. intros Hn Hs. split; [|apply Hs..]. eapply grouped_more; [done|apply Hs]. Qed.

(** A group with the same hash has the same resources. *)
Lemma master_same i rs rs' v : master i rs v -> master i rs' v -> rs = rs'.
Proof.
  intros H1 H2. destruct (master_hash _ _ _ H1) as (h & Ha & Hh), (master_hash _ _ _ H2) as (h' & Ha' & Hh').
  eapply hash_faithful; [done|]. congruence.
Qed.

(** ** Changes *)

(** A change of a master that keeps what it says. *)
Lemma grouped_update_master n m i rs v v' :
  (0 <= i < n)%Z -> grouped n m -> m !! master_key i = Some v -> master i rs v ->
  master i rs v' -> grouped n (<[master_key i := v']> m).
Proof.
  intros Hi Hg Hk Hm Hm'. split.
  - intros k x Hx. destruct (decide (k = master_key i)) as [->|Hne].
    + rewrite lookup_insert_eq in Hx. injection Hx as <-. exists i. eauto 10.
    + rewrite lookup_insert_ne in Hx by done. by apply (grouped_entry _ _ Hg).
  - intros i' rs' x Hi' Hx Hmx.
    assert (exists y, m !! master_key i' = Some y /\ master i' rs' y) as (y & Hy & Hmy).
    { destruct (decide (i' = i)) as [->|Hne].
      - rewrite lookup_insert_eq in Hx. injection Hx as <-. exists v. split; [done|]. by rewrite (master_same _ _ _ _ Hmx Hm').
      - rewrite lookup_insert_ne in Hx; [eauto|]. intros Heq. apply Hne. symmetry. apply master_key_inj; [lia..|done]. }
    destruct (grouped_prefix _ _ Hg i' rs' y) as (t & Ht & Hpre); [done..|].
    exists t. split; [done|]. intros j. rewrite lookup_insert_ne; [apply Hpre|]. apply master_sub_key; lia.
Qed.

(** A new master, after all the others. *)
Lemma prefix_new n m rs v : (0 <= n)%Z -> grouped n m -> prefix (<[master_key n := v]> m) n rs 0.
Proof.
  intros Hn Hg. split; [unfold group_size; lia|].
  intros j. rewrite lookup_insert_ne by (apply master_sub_key; lia).
  destruct (m !! sub_key n j) as [y|] eqn:Hy; [|done]. exfalso.
  destruct (grouped_entry _ _ Hg _ _ Hy) as (i & Hi' & [(rs2 & Hk & _)|(j' & piece & Hk & _)]).
  - symmetry in Hk. apply master_sub_key in Hk; lia.
  - apply sub_key_inj in Hk as [-> _]; lia.
Qed.

Lemma grouped_insert_master n m rs v :
  (0 <= n)%Z -> grouped n m -> master n rs v -> grouped (n + 1) (<[master_key n := v]> m).
Proof.
  intros Hn Hg Hm. split.
  - intros k x Hx. destruct (decide (k = master_key n)) as [->|Hne].
    + rewrite lookup_insert_eq in Hx. injection Hx as <-. exists n. split; [lia|]. left. eauto.
    + rewrite lookup_insert_ne in Hx by done. eapply (grouped_entry (n + 1)); [|done].
      eapply grouped_more; [|done]. lia.
  - intros i rs' x Hi Hx Hmx. destruct (decide (i = n)) as [->|Hne].
    + exists 0. by apply prefix_new.
    + rewrite lookup_insert_ne in Hx by (intros Heq%master_key_inj; lia).
      destruct (grouped_prefix _ _ Hg i rs' x) as (t & Ht & Hpre); [done..|].
      exists t. split; [done|]. intros j. rewrite lookup_insert_ne; [apply Hpre|]. apply master_sub_key; lia.
Qed.

(** The next snapshot of a group. *)
Lemma grouped_insert_sub n m i rs v t piece :
  (0 <= i < n)%Z -> grouped n m -> m !! master_key i = Some v -> master i rs v ->
  prefix m i rs t -> pieces rs !! S t = Some piece ->
  grouped n (<[sub_key i t := sub i t piece]> m) /\ prefix (<[sub_key i t := sub i t piece]> m) i rs (S t).
Proof.
  intros Hi Hg Hk Hm [Ht Hpre] Hp.
  assert (S t < length (pieces rs)) as Hlt by by eapply lookup_lt_Some.
  assert (prefix (<[sub_key i t := sub i t piece]> m) i rs (S t)) as Hnew.
  { split; [unfold group_size; lia|]. intros j. destruct (decide (j = t)) as [->|Hne].
    - rewrite lookup_insert_eq, decide_True by lia. by rewrite Hp.
    - rewrite lookup_insert_ne by (intros Heq%sub_key_inj; lia). rewrite Hpre.
      destruct (decide (j < t)), (decide (j < S t)); try done; lia. }
  split; [|done]. split.
  - intros k x Hx. destruct (decide (k = sub_key i t)) as [->|Hne].
    + rewrite lookup_insert_eq in Hx. injection Hx as <-. exists i. split; [done|]. right. exists t, piece.
      split; [done|]. split; [|done]. pose proof (master_fits _ _ _ Hm).
      pose proof (SplitSelectedResources_length rs sizeLimit). unfold pieces in Hlt. lia.
    + rewrite lookup_insert_ne in Hx by done. by apply (grouped_entry _ _ Hg).
  - intros i' rs' x Hi' Hx Hmx. rewrite lookup_insert_ne in Hx by (symmetry; apply master_sub_key; lia).
    destruct (decide (i' = i)) as [->|Hne].
    + assert (v = x) as -> by congruence. rewrite (master_same _ _ _ _ Hmx Hm). by exists (S t).
    + destruct (grouped_prefix _ _ Hg i' rs' x) as (t' & Ht' & Hpre'); [done..|].
      exists t'. split; [done|]. intros j. rewrite lookup_insert_ne; [apply Hpre'|]. intros Heq%sub_key_inj; lia.
Qed.

Lemma grouped_delete_master n m i : (0 <= i)%Z -> grouped n m -> grouped n (delete (master_key i) m).
Proof.
  intros Hi Hg. split.
  - intros k v Hk. apply lookup_delete_Some in Hk as [_ Hk]. by apply (grouped_entry _ _ Hg).
  - intros i' rs v Hi' Hk Hm. apply lookup_delete_Some in Hk as [_ Hk].
    destruct (grouped_prefix _ _ Hg i' rs v) as (t & Ht & Hpre); [done..|].
    exists t. split; [done|]. intros j. rewrite lookup_delete_ne; [apply Hpre|]. by apply master_sub_key.
Qed.

(** A snapshot whose master is gone. *)
Lemma grouped_delete_sub n m i j :
  (0 <= i)%Z -> m !! master_key i = None -> grouped n m -> grouped n (delete (sub_key i j) m).
Proof.
  intros Hi Hnone Hg. split.
  - intros k v Hk. apply lookup_delete_Some in Hk as [_ Hk]. by apply (grouped_entry _ _ Hg).
  - intros i' rs v Hi' Hk Hm. apply lookup_delete_Some in Hk as [_ Hk].
    destruct (grouped_prefix _ _ Hg i' rs v) as (t & Ht & Hpre); [done..|].
    exists t. split; [done|]. intros j'. rewrite lookup_delete_ne; [apply Hpre|].
    intros [-> ->]%sub_key_inj; [congruence|done|done].
Qed.

(** *** The last index *)

Lemma grouped_top n m i : grouped n m -> top m i -> grouped (i + 1) m.
Proof.
  intros Hg Ht. split; [|apply Hg]. intros k v Hk.
  destruct (grouped_entry _ _ Hg _ _ Hk) as (i' & Hi' & Hc). exists i'. split; [|done].
  assert (i' <= i)%Z; [|lia]. apply (Ht k v i' Hk).
  destruct Hc as [(rs & _ & Hm)|(j & piece & _ & _ & ->)]; [apply Hm|apply sub_indexed].
Qed.

(** An entry at an index that is there already, or is the new last one. *)
Lemma top_insert m k v i j : top m i -> indexed v j -> (j <= i)%Z -> top (<[k := v]> m) i.
Proof.
  intros Ht Hv Hj k' v' i' Hk Hi'. destruct (decide (k' = k)) as [->|Hne].
  - rewrite lookup_insert_eq in Hk. injection Hk as <-. by rewrite (indexed_inj _ _ _ Hi' Hv).
  - rewrite lookup_insert_ne in Hk by done. by eapply Ht.
Qed.

Lemma top_delete m k i : top m i -> top (delete k m) i.
Proof. intros Ht k' v' i' Hk. apply lookup_delete_Some in Hk as [_ Hk]. by eapply Ht. Qed.

Lemma top_more m i i' : (i <= i')%Z -> top m i -> top m i'.
Proof. intros Hi Ht k v j Hk Hj. specialize (Ht k v j Hk Hj). lia. Qed.

Lemma latest_top_insert m k v i :
  latest_only_at m k -> indexed v i -> top m i -> latest_top (<[k := v]> m).
Proof.
  intros Ho Hv Ht k' v' i' Hk Hl Hi'. destruct (decide (k' = k)) as [->|Hne].
  - rewrite lookup_insert_eq in Hk. injection Hk as <-. rewrite (indexed_inj _ _ _ Hi' Hv). apply (top_insert _ _ _ _ i); [done|done|lia].
  - rewrite lookup_insert_ne in Hk by done. by destruct Hne; eapply Ho.
Qed.

Lemma no_latest_top m : no_latest m -> latest_top m.
Proof. intros Hn k v i Hk Hl. by destruct (Hn k v Hk). Qed.

(** *** The number of groups *)

Definition bounded (b : Z) (m : contents (list string)) : Prop :=
  exists K : gset Z, (forall k v i, m !! k = Some v -> indexed v i -> i ∈ K) /\ (Z.of_nat (size K) <= b)%Z.

Lemma bounded_more b b' m : (b <= b')%Z -> bounded b m -> bounded b' m.
Proof. intros Hb (K & HK & Hs). exists K. split; [done|lia]. Qed.

Lemma bounded_insert b m k v i x k' :
  bounded b m -> indexed v i -> m !! k' = Some x -> indexed x i -> bounded b (<[k := v]> m).
Proof.
  intros (K & HK & Hs) Hv Hx Hxi. exists K. split; [|done]. intros k2 v2 i2 Hk2 Hi2.
  destruct (decide (k2 = k)) as [->|Hne].
  - rewrite lookup_insert_eq in Hk2. injection Hk2 as <-. rewrite (indexed_inj _ _ _ Hi2 Hv). by eapply HK.
  - rewrite lookup_insert_ne in Hk2 by done. by eapply HK.
Qed.

Lemma bounded_insert_new b m k v i : bounded b m -> indexed v i -> bounded (b + 1) (<[k := v]> m).
Proof.
  intros (K & HK & Hs) Hv. exists ({[i]} ∪ K). split.
  - intros k2 v2 i2 Hk2 Hi2. destruct (decide (k2 = k)) as [->|Hne].
    + rewrite lookup_insert_eq in Hk2. injection Hk2 as <-. rewrite (indexed_inj _ _ _ Hi2 Hv). set_solver.
    + rewrite lookup_insert_ne in Hk2 by done. specialize (HK _ _ _ Hk2 Hi2). set_solver.
  - pose proof (size_union_alt {[i]} K) as Hu. rewrite size_singleton in Hu.
    assert (size (K ∖ {[i]}) <= size K) by (apply subseteq_size; set_solver). lia.
Qed.

Lemma bounded_delete b m k : bounded b m -> bounded b (delete k m).
Proof.
  intros (K & HK & Hs). exists K. split; [|done]. intros k2 v2 i2 Hk2. apply lookup_delete_Some in Hk2 as [_ Hk2].
  by eapply HK.
Qed.

(** There are no more groups than indices. *)
Lemma grouped_bounded n m : (0 <= n)%Z -> grouped n m -> bounded n m.
Proof.
  intros Hn Hg. exists (list_to_set (seqZ 0 n)). split.
  - intros k v i Hk Hx. destruct (grouped_index _ _ _ _ Hg Hk) as (i' & Hi & Hx').
    rewrite (indexed_inj _ _ _ Hx Hx'). apply elem_of_list_to_set, elem_of_seqZ. lia.
  - rewrite size_list_to_set by apply NoDup_seqZ. rewrite length_seqZ. lia.
Qed.

(** ** The list of a group *)

Lemma sub_keys_NoDup i t : (0 <= i)%Z -> NoDup (master_key i :: (sub_key i <$> seq 0 t)).
Proof.
  intros Hi. apply NoDup_cons. split.
  - intros (j & Hj & _)%list_elem_of_fmap. by apply master_sub_key in Hj.
  - apply NoDup_fmap_2_strong; [|apply NoDup_seq]. intros j j' _ _ Heq. by apply sub_key_inj in Heq as [_ ->].
Qed.

(** The entries at an index are the master and the snapshots after it. *)
Lemma group_keys n m i rs v t (keys : list ObjectKey) :
  (0 <= i < n)%Z -> grouped n m -> m !! master_key i = Some v -> master i rs v -> prefix m i rs t ->
  NoDup keys -> (forall k, k ∈ keys <-> exists x, m !! k = Some x /\ indexed x i) -> length keys = S t.
Proof.
  intros Hi Hg Hk Hm [Ht Hpre] Hnd Hkeys.
  assert (keys ≡ₚ master_key i :: (sub_key i <$> seq 0 t)) as ->.
  2: { cbn. by rewrite length_fmap, length_seq. }
  apply NoDup_Permutation; [done|by apply sub_keys_NoDup; lia|]. intros k. rewrite Hkeys, elem_of_cons. split.
  - intros (x & Hx & Hix). destruct (grouped_entry _ _ Hg _ _ Hx) as (i' & Hi' & Hc).
    destruct Hc as [(rs' & -> & Hm')|(j & piece & -> & _ & ->)].
    + left. f_equal. eapply indexed_inj; [exact (master_index _ _ _ Hm')|done].
    + assert (i' = i) as -> by (eapply indexed_inj; [apply sub_indexed|done]).
      right. apply list_elem_of_fmap. exists j. split; [done|]. apply elem_of_seq.
      rewrite Hpre in Hx. case_decide; [lia|done].
  - intros [->|(j & -> & Hj%elem_of_seq)%list_elem_of_fmap].
    + exists v. split; [done|apply Hm].
    + rewrite Hpre, decide_True by lia. unfold group_size in Ht.
      destruct (lookup_lt_is_Some_2 (pieces rs) (S j)) as [piece Hp]; [lia|].
      rewrite Hp. exists (sub i j piece). split; [done|apply sub_indexed].
Qed.

(** ** A group that is complete *)

(** The snapshots of the group at [i] hold the resources [rs]. *)
Definition complete (m : contents (list string)) (i : Z) (rs : list string) : Prop :=
  exists v, m !! master_key i = Some v /\ master i rs v /\ prefix m i rs (pred (group_size rs)).

(** The resources of a complete group, in the order of the snapshots. *)
Lemma complete_resources m i rs :
  complete m i rs ->
  exists v subs, m !! master_key i = Some v /\
    (forall j, m !! sub_key i j = subs !! j) /\ st_content v ++ concat (st_content <$> subs) = rs.
Proof.
  intros (v & Hk & Hm & _ & Hpre). exists v, (imap (fun j p => sub i j p) (tail (pieces rs))).
  split; [done|]. split.
  - intros j. rewrite Hpre, list_lookup_imap, <- lookup_tail. unfold group_size.
    destruct (decide (j < _)) as [Hlt|Hge]; [done|]. rewrite lookup_tail, lookup_ge_None_2; [done|]. lia.
  - rewrite (master_content _ _ _ Hm). pose proof (SplitSelectedResources_concat rs sizeLimit) as Hc.
    fold (pieces rs) in Hc. rewrite <- Hc at 3. destruct (pieces rs) as [|p ps]; [done|]. cbn. f_equal. f_equal.
    apply list_eq. intros j. rewrite list_lookup_fmap, list_lookup_imap. by destruct (ps !! j).
Qed.

End Groups.
