(* ===== verification/ResourceSnapshotsProofs.v ===== *)
(** * The latest resource snapshots hold the selected resources

    Whatever calls fail, the resource snapshots of a placement stay in the
    shape [ResourceGroups] describes, with at most one master marked as the
    latest.  When [GetOrCreateResourceSnapshot] returns without asking to wait,
    that master is the one it returns, and its group is complete: its snapshots
    hold the selected resources, in their order, even if an earlier attempt was
    cut short. *)

From stdpp Require Import prelude gmap strings sorting.
From S2P Require Import Prelude K8s Api Sample Utils FrameworkUtils Hub Overrider WorkApi PlacementApi PolicySnapshots ResourceSnapshots SnapshotStore ResourceGroups.

Local Open Scope string_scope.
Local Open Scope list_scope.

(** ** Sorting *)

#[global] Instance resourceSnapshotLess_GoLess : GoLess resourceSnapshotLess.
Proof.
  split; unfold resourceSnapshotLess.
  - intros a b. rewrite (Z.eqb_sym (resourceIndex b)).
    destruct (resourceIndex a =? resourceIndex b)%Z eqn:E.
    + destruct (subindexOf a), (subindexOf b); try done. rewrite Z.ltb_lt, Z.ltb_ge. lia.
    + rewrite Z.ltb_lt, Z.ltb_ge. lia.
  - intros a b c.
    destruct (resourceIndex a =? resourceIndex b)%Z eqn:E1, (resourceIndex b =? resourceIndex c)%Z eqn:E2,
      (resourceIndex a =? resourceIndex c)%Z eqn:E3;
      rewrite ?Z.eqb_eq, ?Z.eqb_neq in *; try lia; rewrite ?Z.ltb_ge; try lia.
    destruct (subindexOf a), (subindexOf b), (subindexOf c); try done; rewrite ?Z.ltb_ge; lia.
Qed.

Lemma sortResourceSnapshots_Ok items sorted :
  sortResourceSnapshots items = Ok (Some sorted) ->
  sorted ≡ₚ items /\ StronglySorted (ordered resourceSnapshotLess) sorted.
Proof.
  unfold sortResourceSnapshots. destruct items as [|a [|b r]].
  - intros [= <-]. split; [done|constructor].
  - intros [= <-]. split; [done|repeat constructor].
  - destruct (omap _ _); [|done]. destruct (mastersClash _); [done|]. intros [= <-].
    split; [apply go_sort_perm|]. apply (go_sort_sorted _).
Qed.

Lemma StronglySorted_snoc {A} (R : A -> A -> Prop) l x :
  StronglySorted R l -> (forall y, y ∈ l -> R y x) -> StronglySorted R (l ++ [x]).
Proof.
  induction 1 as [|y l Hs IH Hy]; intros Hx; cbn; [repeat constructor|].
  constructor; [apply IH; intros z Hz; apply Hx; by right|].
  apply Forall_app. split; [done|]. repeat constructor. apply Hx. by left.
Qed.

Lemma StronglySorted_reverse {A} (R : A -> A -> Prop) l :
  StronglySorted R l -> StronglySorted (fun x y => R y x) (reverse l).
Proof.
  induction 1 as [|y l Hs IH Hy]; [constructor|]. rewrite reverse_cons. apply StronglySorted_snoc; [done|].
  intros z Hz. rewrite elem_of_reverse in Hz. rewrite Forall_forall in Hy. by apply Hy.
Qed.

Lemma sorted_last_max {A} (R : A -> A -> Prop) `{!Reflexive R} l x y :
  StronglySorted R l -> last l = Some x -> y ∈ l -> R y x.
Proof.
  intros Hs [l' ->]%last_Some Hy. induction l' as [|z l' IH]; cbn in *.
  - by apply list_elem_of_singleton in Hy as ->.
  - apply StronglySorted_inv in Hs as [Hs Hz]. apply elem_of_cons in Hy as [->|Hy]; [|auto].
    rewrite Forall_forall in Hz. apply Hz. apply elem_of_app. right. by apply list_elem_of_singleton.
Qed.

Section Proofs.
Context {W : Type} {SR : SnapshotReader W} {SC : SnapshotClient W} {H : Hasher} {T : TimeLib}.
Variable config : option ResourceSnapshotConfig.
Variable sizeLimit : Z.
Variable now : Z.
Variable placement : PlacementObj.
Variable store : W -> contents (list string).

Notation ns := (pl_namespace placement).
Notation name := (pl_name placement).
Notation key := (key_of rsnap_meta).
Notation image := (image_of rsnap_meta rsnap_SelectedResources).
Notation spec := (spec store).
Notation master := (master sizeLimit).
Notation sub := (sub ns name).
Notation master_key := (master_key ns name).
Notation sub_key := (sub_key ns name).
Notation grouped := (grouped ns name sizeLimit).
Notation sane := (sane ns name sizeLimit).
Notation prefix := (prefix ns name sizeLimit).
Notation complete := (complete ns name sizeLimit).
Notation tracked := (tracked rsnap_meta ns name).
Notation listed := (listed (meta := rsnap_meta) (content := rsnap_SelectedResources)).

Hypothesis laws : StoreLaws rsnap_meta rsnap_SelectedResources ns name store hub_list_resource_snapshots
  hub_create_resource_snapshot hub_update_resource_snapshot hub_delete_resource_snapshot.
Hypothesis hash_faithful : forall a b h, HashOfResources a = Ok h -> HashOfResources b = Ok h -> a = b.

(** ** Reading a stored snapshot *)

Lemma extract_index s i :
  (0 <= i < 2 ^ 63)%Z -> indexed (image s) i -> ExtractResourceIndexFromResourceSnapshot s = Ok i.
Proof.
  intros Hi Hx. unfold ExtractResourceIndexFromResourceSnapshot, ExtractIndex.
  unfold indexed in Hx. cbn in Hx. rewrite Hx. cbn [default from_option id].
  rewrite Atoi_zstr by (unfold in_range; lia). cbn. by rewrite (proj2 (Z.ltb_ge _ _)) by lia.
Qed.

Lemma resourceIndex_indexed s i : (0 <= i < 2 ^ 63)%Z -> indexed (image s) i -> resourceIndex s = i.
Proof. intros Hi Hx. unfold resourceIndex. by rewrite (extract_index s i). Qed.

(** What a stored snapshot is. *)
Definition entry (n : Z) (s : ResourceSnapshotObj) : Prop :=
  exists i, (0 <= i < n)%Z /\ indexed (image s) i /\ resourceIndex s = i /\
    ((exists rs, key s = master_key i /\ master i rs (image s) /\ subindexOf s = None) \/
     (exists j piece, key s = sub_key i j /\ image s = sub i j piece /\ subindexOf s = Some (Z.of_nat j))).

Lemma stored_entry n m s : (n <= 2 ^ 63)%Z -> grouped n m -> m !! key s = Some (image s) -> entry n s.
Proof.
  intros Hn Hg Hk. destruct (grouped_entry _ _ _ _ _ Hg _ _ Hk) as (i & Hi & Hc). exists i. split; [done|].
  assert (indexed (image s) i) as Hx.
  { destruct Hc as [(rs & _ & Hm)|(j & piece & _ & _ & ->)]; [apply Hm|apply sub_indexed]. }
  split; [done|]. split; [apply resourceIndex_indexed; [lia|done]|].
  unfold subindexOf, ExtractSubindexFromResourceSnapshot.
  change (meta_annotations (rsnap_meta s)) with (st_annotations (image s)).
  destruct Hc as [(rs & Hkk & Hm)|(j & piece & Hkk & Hj & Heq)].
  - left. exists rs. rewrite (master_subindex _ _ _ _ Hm). done.
  - right. exists j, piece. split; [done|]. split; [done|]. rewrite Heq, sub_subindex.
    destruct (zstr (Z.of_nat j)) as [|a str] eqn:Hz; [by apply zstr_nonempty in Hz|]. rewrite <- Hz.
    rewrite Atoi_zstr by (unfold in_range; lia). cbn. by rewrite (proj2 (Z.ltb_ge _ _)) by lia.
Qed.

(** A snapshot with a hash is a master. *)
Lemma hash_master n m s h i :
  grouped n m -> m !! key s = Some (image s) -> indexed (image s) i ->
  ParseResourceGroupHashFromAnnotation s = Ok h ->
  exists rs, key s = master_key i /\ master i rs (image s) /\ HashOfResources rs = Ok h.
Proof.
  intros Hg Hk Hx Hh. unfold ParseResourceGroupHashFromAnnotation in Hh.
  change (meta_annotations (rsnap_meta s)) with (st_annotations (image s)) in Hh.
  destruct (grouped_entry _ _ _ _ _ Hg _ _ Hk) as (i' & Hi & [(rs & Hkk & Hm)|(j & piece & _ & _ & Heq)]).
  - assert (i' = i) as -> by (eapply indexed_inj; [apply Hm|done]). exists rs. split; [done|]. split; [done|].
    destruct (master_hash _ _ _ _ Hm) as (h' & Hh' & Hhash). rewrite Hh' in Hh. by injection Hh as <-.
  - rewrite Heq, sub_no_hash in Hh. done.
Qed.

Lemma master_number i rs s k :
  master i rs (image s) -> ExtractNumberOfResourceSnapshotsFromResourceSnapshot s = Ok k ->
  k = Z.of_nat (group_size sizeLimit rs).
Proof.
  intros Hm. unfold ExtractNumberOfResourceSnapshotsFromResourceSnapshot.
  change (meta_annotations (rsnap_meta s)) with (st_annotations (image s)).
  rewrite (master_count _ _ _ _ Hm). cbn [default from_option id].
  pose proof (group_size_le sizeLimit rs (master_fits _ _ _ _ Hm)).
  rewrite Atoi_zstr by (unfold in_range; lia). destruct (_ <? 1)%Z; [done|]. by intros [= <-].
Qed.

(** ** Looking up the latest snapshot *)

Definition well_tracked (m : contents (list string)) : Prop :=
  forall k v, m !! k = Some v -> k.1 = ns /\ st_labels v !! PlacementTrackingLabel = Some name.

Lemma store_rsnap_tracked w : well_tracked (store w).
Proof. intros k v Hk. exact (store_tracked _ _ _ _ _ _ _ _ _ laws w k v Hk). Qed.

(** The shape of the store, and the number of groups. *)
Definition sound (n b : Z) (m : contents (list string)) : Prop := sane n m /\ bounded b m.

(** The snapshot [s] is stored at the last index, and no other one is marked. *)
Definition at_top (m : contents (list string)) (s : ResourceSnapshotObj) (i : Z) : Prop :=
  m !! key s = Some (image s) /\ indexed (image s) i /\ top m i /\ latest_only_at m (key s).

Definition latestSelector : gmap string string :=
  <[PlacementTrackingLabel := name]> {[IsLatestSnapshotLabel := "true"]}.

Lemma latest_master_listed m items k v :
  well_tracked m -> listed latestSelector m items -> m !! k = Some v -> is_latest v ->
  exists s, s ∈ items /\ key s = k.
Proof.
  intros Ht (_ & _ & Hc) Hk Hl. apply (Hc k v Hk). destruct (Ht k v Hk) as [_ Htl].
  unfold latestSelector. apply insert_subseteq_l; [done|]. by apply map_singleton_subseteq_l.
Qed.

Lemma listed_all m items k v :
  well_tracked m -> listed {[PlacementTrackingLabel := name]} m items -> m !! k = Some v ->
  exists s, s ∈ items /\ key s = k.
Proof.
  intros Ht (_ & _ & Hc) Hk. apply (Hc k v Hk). destruct (Ht k v Hk) as [_ Htl]. by apply map_singleton_subseteq_l.
Qed.

Lemma listSortedResource_spec (P : contents (list string) -> Prop) :
  spec P (listSortedResourceSnapshots placement)
    (fun sorted m => P m /\ exists items, listed {[PlacementTrackingLabel := name]} m items /\
       sortResourceSnapshots items = Ok (Some sorted)) P.
Proof.
  eapply spec_bind; [apply spec_map_err, spec_map_err, (spec_list laws); by simplify_map_eq|].
  intros items. eapply (spec_bind _ _ _ _ (fun r m => (P m /\ listed {[PlacementTrackingLabel := name]} m items) /\
    sortResourceSnapshots items = Ok r)); [apply spec_lift; naive_solver|].
  intros [sorted|]; [apply spec_ret|apply spec_lift]; naive_solver.
Qed.

(** The last of the sorted snapshots is at the last index. *)
Lemma last_top n m items sorted s :
  (n <= 2 ^ 63)%Z -> grouped n m -> well_tracked m -> listed {[PlacementTrackingLabel := name]} m items ->
  sortResourceSnapshots items = Ok (Some sorted) -> last sorted = Some s ->
  m !! key s = Some (image s) /\ exists i, indexed (image s) i /\ top m i.
Proof.
  intros Hn Hg Ht Hl Hs%sortResourceSnapshots_Ok Hlast. destruct Hs as [Hperm Hsorted].
  pose proof Hl as (_ & Hin & _).
  assert (s ∈ items) as Hsi by (rewrite <- Hperm; by apply last_Some_elem_of).
  destruct (Hin s Hsi) as [Hk _]. split; [done|].
  destruct (stored_entry n m s Hn Hg Hk) as (i & Hi & Hx & Hri & _). exists i. split; [done|].
  intros k v i' Hkv Hxv. destruct (listed_all m items k v Ht Hl Hkv) as (o & Ho & <-).
  destruct (Hin o Ho) as [Hko _]. rewrite Hko in Hkv. injection Hkv as <-.
  destruct (stored_entry n m o Hn Hg Hko) as (i2 & Hi2 & Hx2 & Hri2 & _).
  assert (i2 = i') as -> by by eapply indexed_inj.
  rewrite <- Hperm in Ho.
  assert (Reflexive (ordered resourceSnapshotLess)) by (intros x; apply (less_irrefl _)).
  pose proof (sorted_last_max _ _ _ _ Hsorted Hlast Ho) as Hle.
  unfold ordered, resourceSnapshotLess in Hle. rewrite Hri, Hri2 in Hle.
  destruct (i =? i')%Z eqn:E; [lia|]. apply Z.ltb_ge in Hle. lia.
Qed.

Lemma recoverResource_spec n b :
  (n <= 2 ^ 63)%Z ->
  spec (fun m => sound n b m /\ no_latest m) (let* sorted := listSortedResourceSnapshots placement in hret (last sorted))
    (fun r m => sound n b m /\
       match r with Some s => exists i, at_top m s i | None => m = ∅ end) (sound n b).
Proof.
  intros Hn. apply (spec_fact _ well_tracked); [apply store_rsnap_tracked|].
  eapply spec_bind.
  { eapply spec_weaken; [apply listSortedResource_spec|intros m Ha; exact Ha|intros a m Ha; exact Ha|naive_solver]. }
  intros sorted. apply spec_ret. intros m ((Ht & Hs & Hnl) & items & Hl & Hsort). split; [done|].
  destruct (last sorted) as [s|] eqn:Hlast.
  - destruct (last_top n m items sorted s) as (Hk & i & Hx & Htop); [done|apply Hs|done..|].
    exists i. split; [done|]. split; [done|]. split; [done|]. by apply no_latest_only_at.
  - apply last_None in Hlast as ->. apply sortResourceSnapshots_Ok in Hsort as [Hp%Permutation_nil_l _].
    apply map_empty. intros k. destruct (m !! k) as [v|] eqn:Hk; [|done].
    destruct (listed_all m items k v Ht Hl Hk) as (o & Ho & _). rewrite <- Hp in Ho. by apply elem_of_nil in Ho.
Qed.

Lemma fetchLatest_spec n b :
  spec (sound n b) (FetchLatestMasterResourceSnapshot (ns, name))
    (fun r m => sound n b m /\
       match r with Some s => exists i, at_top m s i | None => no_latest m end) (sound n b).
Proof.
  eapply spec_bind.
  { apply spec_map_err, (spec_list laws latestSelector (sound n b)). apply lookup_insert_eq. }
  intros items. apply (spec_fact _ well_tracked); [apply store_rsnap_tracked|]. destruct items as [|o items].
  - apply spec_ret. intros m (Ht & Hs & Hl). split; [done|]. intros k v Hk Hlv.
    destruct (latest_master_listed m [] k v Ht Hl Hk Hlv) as (s & Hs' & _). by apply elem_of_nil in Hs'.
  - destruct (list_find is_master (o :: items)) as [[p s]|] eqn:Hf; [|apply spec_lift; naive_solver].
    apply spec_ret. intros m (Ht & Hs & Hl). split; [done|].
    apply list_find_Some in Hf as (Hp & _ & _). apply list_elem_of_lookup_2 in Hp.
    destruct Hl as (_ & Hin & _). destruct (Hin s Hp) as [Hk Hsel].
    assert (is_latest (image s)) as Hlat.
    { unfold is_latest. cbn. eapply lookup_weaken; [|exact Hsel]. unfold latestSelector. by simplify_map_eq. }
    destruct Hs as [[Hg Hsl Htop] _]. destruct (grouped_index _ _ _ _ _ _ _ Hg Hk) as (i & Hi & Hx).
    exists i. split; [done|]. split; [done|]. split; [by eapply Htop|]. intros k' v' Hk' Hl'. by eapply Hsl.
Qed.

Lemma lookupResource_spec n b :
  (n <= 2 ^ 63)%Z ->
  spec (sound n b) (lookupLatestResourceSnapshot placement)
    (fun r m => sound n b m /\
       match r with Some (s, i) => (0 <= i < n)%Z /\ at_top m s i | None => m = ∅ end) (sound n b).
Proof.
  intros Hn. eapply spec_bind; [apply fetchLatest_spec|]. intros found.
  eapply (spec_bind _ _ _ _ (fun r m => sound n b m /\
    match r with Some s => exists i, at_top m s i | None => m = ∅ end)).
  - destruct found as [s|]; [apply spec_ret; naive_solver|].
    eapply spec_weaken; [by apply recoverResource_spec|intros m Ha; exact Ha|done|done].
  - intros [s|]; [|apply spec_ret; naive_solver].
    eapply (spec_bind _ _ _ _ (fun i m => sound n b m /\ (0 <= i < n)%Z /\ at_top m s i)).
    + apply spec_map_err, spec_lift; [|naive_solver]. intros i m Hi (Hs & i' & Hk & Hx & Htop & Ho).
      destruct (grouped_index _ _ _ _ _ _ _ (sane_grouped _ _ _ _ _ (proj1 Hs)) Hk) as (i2 & Hi2 & Hx2).
      assert (i2 = i') as -> by by eapply indexed_inj.
      rewrite (extract_index s i') in Hi by (done || lia). injection Hi as <-. by split.
    + intros i. apply spec_ret. naive_solver.
Qed.

(** ** Changing the latest master *)

(** The master [s] of the resources [rs], at the last index. *)
Definition leads (n b : Z) (i : Z) (rs : list string) (s : ResourceSnapshotObj) (m : contents (list string)) : Prop :=
  sound n b m /\ (0 <= i < n)%Z /\ at_top m s i /\ key s = master_key i /\ master i rs (image s).

Lemma leads_sound n b i rs s m : leads n b i rs s m -> sound n b m.
Proof. by intros [Hs _]. Qed.

Lemma leads_tracked n b i rs s m : well_tracked m -> leads n b i rs s m -> tracked s.
Proof. intros Ht (_ & _ & (Hk & _) & _). exact (Ht _ _ Hk). Qed.

(** An update of the master that keeps its group. *)
Lemma leads_update n b i rs s s' m :
  leads n b i rs s m -> key s' = key s -> master i rs (image s') ->
  leads n b i rs s' (<[key s' := image s']> m).
Proof.
  intros ([[Hg Hsl Htop] Hb] & Hi & (Hk & Hx & Ht & Ho) & Hmk & Hm) Hkey Hm'. rewrite Hkey.
  assert (indexed (image s') i) as Hx' by apply Hm'.
  assert (top (<[key s := image s']> m) i) as Ht' by (apply (top_insert _ _ _ _ i); [done|done|lia]).
  split; [split; [split|]|split; [done|split; [|split; [congruence|done]]]].
  - rewrite Hmk in *. by eapply grouped_update_master.
  - destruct (decide (is_latest (image s'))).
    + by eapply the_latest_single, the_latest_insert.
    + by apply no_latest_single, no_latest_insert.
  - by eapply latest_top_insert.
  - by eapply bounded_insert.
  - unfold at_top. rewrite Hkey, lookup_insert_eq. split; [done|]. split; [done|]. split; [done|].
    intros k v Hkv Hl. destruct (decide (k = key s)) as [->|Hne]; [done|].
    rewrite lookup_insert_ne in Hkv by done. by eapply Ho.
Qed.

(** The labels and annotations that make a master are not touched. *)
Lemma master_mark i rs s b : master i rs (image s) -> master i rs (image (set_rsnap_meta (mark_latest b (rsnap_meta s)) s)).
Proof.
  intros [H1 H2 H3 H4 H5 H6]. split; try done. cbn. by rewrite lookup_insert_ne by done.
Qed.

Lemma master_detected i rs s str :
  master i rs (image s) ->
  master i rs (image (set_rsnap_meta
    (set_annotation NextResourceSnapshotCandidateDetectionTimeAnnotation str (rsnap_meta s)) s)).
Proof.
  intros [H1 H2 H3 H4 H5 H6]. split; try done; cbn; by rewrite lookup_insert_ne by done.
Qed.

Lemma update_spec n b i rs s s' :
  key s' = key s -> (master i rs (image s) -> master i rs (image s')) ->
  meta_labels (rsnap_meta s') !! PlacementTrackingLabel = meta_labels (rsnap_meta s) !! PlacementTrackingLabel ->
  spec (leads n b i rs s) (hmap_err NewUpdateIgnoreConflictError (hub_update_resource_snapshot s'))
    (fun s'' m => leads n b i rs s'' m /\ image s'' = image s') (sound n b).
Proof.
  intros Hkey Hmaster Htrack. apply (spec_fact _ well_tracked); [apply store_rsnap_tracked|].
  apply (spec_given _ (tracked s')).
  { intros m [Ht Hl]. destruct (leads_tracked _ _ _ _ _ _ Ht Hl) as [H1 H2]. split; [|congruence].
    change ((key s').1 = ns). by rewrite Hkey. }
  intros Htr. apply spec_map_err, (spec_update laws); [done|intros m [_ Hl]; by eapply leads_sound|].
  intros m [_ Hl] _.
  assert (leads n b i rs s' (<[key s' := image s']> m)) as Hnew.
  { eapply leads_update; [done|done|]. apply Hmaster. apply Hl. }
  split; [by eapply leads_sound|]. intros s'' Hk Hi. split; [|done].
  unfold leads, at_top in *. rewrite Hk, Hi. done.
Qed.

(** The master is the one marked. *)
Lemma leads_latest n b i rs s m : leads n b i rs s m -> is_latest (image s) -> the_latest m (key s) (image s).
Proof. intros (_ & _ & (Hk & _ & _ & Ho) & _) Hl. split; [done|by split]. Qed.

Lemma ensureLatestMaster_spec n b i rs s :
  spec (leads n b i rs s) (ensureLatestResourceSnapshot s)
    (fun s' m => leads n b i rs s' m /\ is_latest (image s')) (sound n b).
Proof.
  unfold ensureLatestResourceSnapshot. destruct (marked_latest (rsnap_meta s)) eqn:Hm.
  - apply spec_ret. intros m Hl. split; [done|]. by apply bool_decide_eq_true in Hm.
  - eapply spec_weaken; [apply update_spec|done| |done].
    + done.
    + apply master_mark.
    + cbn. by rewrite lookup_insert_ne.
    + intros s' m [Hl Himg]. split; [done|]. rewrite Himg. unfold is_latest. cbn. by simplify_map_eq.
Qed.

(** ** Completing a group *)

Lemma leads_insert_sub n b i rs s m t piece :
  leads n b i rs s m -> prefix m i rs t -> pieces sizeLimit rs !! S t = Some piece ->
  m !! sub_key i t = None ->
  leads n b i rs s (<[sub_key i t := sub i t piece]> m) /\ prefix (<[sub_key i t := sub i t piece]> m) i rs (S t).
Proof.
  intros ([[Hg Hsl Htop] Hb] & Hi & (Hk & Hx & Ht & Ho) & Hmk & Hm) Hpre Hp Hnone.
  destruct (grouped_insert_sub ns name sizeLimit hash_faithful n m i rs (image s) t piece) as [Hg' Hpre'];
    [done|done|congruence|done..|].
  split; [|done]. assert (key s <> sub_key i t) as Hne by (intros Heq; rewrite Heq in Hk; congruence).
  assert (forall k v, <[sub_key i t := sub i t piece]> m !! k = Some v -> is_latest v -> m !! k = Some v) as Hold.
  { intros k v Hkv Hl. destruct (decide (k = sub_key i t)) as [->|Hn]; [|by rewrite lookup_insert_ne in Hkv].
    rewrite lookup_insert_eq in Hkv. injection Hkv as <-. by apply sub_not_latest in Hl. }
  assert (top (<[sub_key i t := sub i t piece]> m) i) as Ht'.
  { apply (top_insert _ _ _ _ i); [done|apply sub_indexed|lia]. }
  split; [split; [split|]|split; [done|split; [|by split]]].
  - done.
  - intros k1 k2 v1 v2 H1 Hl1 H2 Hl2. eapply Hsl; eauto.
  - intros k v i' Hkv Hl Hxi. pose proof (Hold k v Hkv Hl) as Hkm. specialize (Ho k v Hkm Hl) as ->.
    rewrite Hk in Hkm. injection Hkm as <-. by rewrite (indexed_inj _ _ _ Hxi Hx).
  - eapply bounded_insert; [done|apply sub_indexed|done|done].
  - split; [by rewrite lookup_insert_ne by done|]. split; [done|]. split; [done|].
    intros k v Hkv Hl. eapply Ho; eauto.
Qed.

Lemma sub_build i t piece :
  let s := BuildSubIndexResourceSnapshot i (Z.of_nat t) name ns piece in
  tracked s /\ key s = sub_key i t /\ image s = sub i t piece.
Proof. split; [|done]. split; [done|]. cbn. by simplify_map_eq. Qed.

Lemma createResourceSnapshot_spec (s : ResourceSnapshotObj) (P : contents (list string) -> Prop)
    (Q : ResourceSnapshotObj -> contents (list string) -> Prop) (E : contents (list string) -> Prop) :
  tracked s -> (forall m, P m -> E m) ->
  (forall m, P m -> m !! key s = None ->
    E (<[key s := image s]> m) /\
    forall s', key s' = key s -> image s' = image s -> Q s' (<[key s := image s]> m)) ->
  spec P (createResourceSnapshot placement s) Q E.
Proof.
  intros Ht He Hi. eapply (spec_bind _ _ _ _ (fun _ => P)).
  { apply spec_map_err, spec_lift; naive_solver. }
  intros []. by apply spec_map_err, (spec_create laws).
Qed.

(** The rest of the group, from its snapshot at subindex [t] on. *)
Lemma createSubs_spec n b i rs s envs hash count t rest latest :
  rest = drop (S t) (pieces sizeLimit rs) -> 
  spec (fun m => leads n b i rs s m /\ prefix m i rs t)
    (createSnapshots placement envs hash i count (S t) rest latest)
    (fun r m => r = latest /\ leads n b i rs s m /\ complete m i rs) (sound n b).
Proof.
  revert t. induction rest as [|piece rest IH]; intros t Hrest.
  - apply spec_ret. intros m [Hl [Ht Hpre]]. split; [done|]. split; [done|].
    exists (image s). pose proof Hl as (_ & _ & (Hk & _) & Hmk & Hm). rewrite <- Hmk. split; [done|]. split; [done|].
    assert (length (pieces sizeLimit rs) <= S t) as Hlen.
    { symmetry in Hrest. apply (f_equal length) in Hrest. rewrite length_drop in Hrest. cbn in Hrest. lia. }
    replace (pred (group_size sizeLimit rs)) with t by (unfold group_size in *; lia). done.
  - assert (pieces sizeLimit rs !! S t = Some piece) as Hp.
    { pose proof (lookup_drop (pieces sizeLimit rs) (S t) 0) as Hd. rewrite <- Hrest, Nat.add_0_r in Hd. by symmetry. }
    cbn [createSnapshots]. destruct (sub_build i t piece) as (Htr & Hkey & Himg).
    eapply (spec_bind _ _ _ _ (fun _ m => leads n b i rs s m /\ prefix m i rs (S t))).
    + apply createResourceSnapshot_spec; [done|intros m [Hl _]; by eapply leads_sound|].
      rewrite Hkey, Himg. intros m [Hl Hpre] Hnone.
      destruct (leads_insert_sub _ _ _ _ _ _ _ _ Hl Hpre Hp Hnone) as [Hl' Hpre'].
      split; [by eapply leads_sound|done].
    + intros ?. apply IH. rewrite (drop_S _ _ _ Hp) in Hrest. by injection Hrest.
Qed.

(** The list at an index has the snapshots of the group. *)
Lemma group_length n b i rs s m t items :
  well_tracked m -> leads n b i rs s m -> prefix m i rs t ->
  listed (<[PlacementTrackingLabel := name]> {[ResourceIndexLabel := zstr i]}) m items -> length items = S t.
Proof.
  intros Htr ([[Hg _ _] _] & Hi & (Hk & _) & Hmk & Hm) Hpre (Hnd & Hin & Hc).
  rewrite <- (length_fmap key items).
  eapply (group_keys ns name sizeLimit n m i rs (image s)); [done|done|by rewrite <- Hmk|done..|].
  intros k. rewrite list_elem_of_fmap. split.
  - intros (o & -> & Ho). destruct (Hin o Ho) as [Hko Hsel]. exists (image o). split; [done|].
    unfold indexed. cbn. eapply lookup_weaken; [|exact Hsel]. by simplify_map_eq.
  - intros (x & Hx & Hxi). destruct (Hc k x Hx) as (o & Ho & <-); [|by exists o].
    destruct (Htr k x Hx) as [_ Htl]. apply insert_subseteq_l; [done|]. by apply map_singleton_subseteq_l.
Qed.

(** A group of the selected resources, marked as the latest. *)
Definition done_at (n b i : Z) (rs : list string) (r : option ResourceSnapshotObj) (m : contents (list string)) : Prop :=
  exists s, r = Some s /\ leads n b i rs s m /\ is_latest (image s) /\ complete m i rs.

Lemma resume_spec n b i rs s envs hash :
  spec (leads n b i rs s)
    (resumeGroup sizeLimit placement envs hash s i (Z.of_nat (group_size sizeLimit rs)) rs)
    (done_at n b i rs) (sound n b).
Proof.
  eapply spec_bind; [apply ensureLatestMaster_spec|]. clear s. intros s.
  apply (spec_fact _ well_tracked); [apply store_rsnap_tracked|].
  apply (spec_given _ (is_latest (image s) /\ meta_labels (rsnap_meta s) !! ResourceIndexLabel = Some (zstr i))).
  { intros m (_ & Hl & Hlat). split; [done|]. apply Hl. }
  intros [Hlat Hx]. rewrite Hx. cbn [default from_option id].
  eapply (spec_bind _ _ _ _ (fun items m => exists t, length items = S t /\ leads n b i rs s m /\ prefix m i rs t)).
  { eapply spec_weaken; [apply spec_map_err, spec_map_err, (spec_list laws _ (fun m => well_tracked m /\ leads n b i rs s m))| | |].
    - apply lookup_insert_eq.
    - naive_solver.
    - intros items m [[Ht Hl] Hitems]. pose proof Hl as ([[Hg _ _] _] & Hi & (Hk & _) & Hmk & Hm).
      destruct (grouped_prefix _ _ _ _ _ Hg i rs (image s)) as [t Hpre]; [lia|congruence|done|].
      exists t. split; [by eapply group_length|done].
    - intros m [_ Hl]. by eapply leads_sound. }
  intros items. apply spec_exists. intros t. apply spec_pure. intros ->.
  destruct (Z.of_nat (S t) =? _)%Z eqn:Hn.
  - apply spec_ret. intros m [Hl Hpre]. exists s. split; [done|]. split; [done|]. split; [done|].
    pose proof Hl as (_ & _ & (Hk & _) & Hmk & Hm). exists (image s). rewrite <- Hmk. split; [done|]. split; [done|].
    apply Z.eqb_eq in Hn. by replace (pred (group_size sizeLimit rs)) with t by lia.
  - eapply spec_weaken; [by apply (createSubs_spec n b i rs s)|intros m Ha; exact Ha| |done].
    intros r m (-> & Hl & Hc). by exists s.
Qed.

(** ** Deleting old groups *)

(** No snapshot is marked, and the last index is at most [i]. *)
Definition quiet (n b i : Z) (m : contents (list string)) : Prop :=
  grouped n m /\ no_latest m /\ top m i /\ bounded b m.

Lemma quiet_sound n b i m : quiet n b i m -> sound n b m.
Proof. intros (Hg & Hn & _ & Hb). split; [|done]. split; [done|by apply no_latest_single|by apply no_latest_top]. Qed.

Notation greater := (fun x y => ordered resourceSnapshotLess y x).

(** The master of the snapshot [s] is gone, or will be met before it is deleted. *)
Definition master_handled (limit last counter : Z) (items : list ResourceSnapshotObj) (m : contents (list string))
    (s : ResourceSnapshotObj) : Prop :=
  m !! master_key (resourceIndex s) = None \/
  (exists s', s' ∈ items /\ subindexOf s' = None /\ resourceIndex s' = resourceIndex s) \/
  (resourceIndex s = last /\ (counter < limit)%Z).

(** The loop has kept the groups [K], and the snapshots in [items] are left. *)
Record trimming (limit last counter : Z) (items : list ResourceSnapshotObj) (K : gset Z)
    (m : contents (list string)) : Prop := {
  trim_left k v i : m !! k = Some v -> indexed v i -> i ∈ K \/ exists s, s ∈ items /\ key s = k;
  trim_size : (Z.of_nat (size K) <= Z.max 0 (Z.min counter (limit - 1)))%Z;
  trim_counter : (0 <= counter)%Z;
  trim_handled s : s ∈ items -> subindexOf s <> None -> master_handled limit last counter items m s;
  trim_last s : s ∈ items -> last = (-1)%Z \/ (resourceIndex s <= last)%Z;
  trim_kept : last = (-1)%Z \/ (limit <= counter)%Z \/ last ∈ K;
}.

Lemma greater_index s s' : ordered resourceSnapshotLess s' s -> (resourceIndex s' <= resourceIndex s)%Z.
Proof.
  unfold ordered, resourceSnapshotLess. rewrite Z.eqb_sym. destruct (_ =? _)%Z eqn:E; [lia|].
  intros Hl%Z.ltb_ge. done.
Qed.

(** A master comes before the snapshots of its group. *)
Lemma greater_master s s' :
  ordered resourceSnapshotLess s' s -> subindexOf s' = None -> resourceIndex s' = resourceIndex s -> subindexOf s = None.
Proof.
  unfold ordered, resourceSnapshotLess. intros Hl Hs' Hi. rewrite Hi, Z.eqb_refl, Hs' in Hl. by destruct (subindexOf s).
Qed.

Section Trim.
Variables (n limit last counter : Z) (s : ResourceSnapshotObj) (rest : list ResourceSnapshotObj).
Variables (K : gset Z) (m : contents (list string)).
Hypothesis Hentry : entry n s.
Hypothesis Hgreater : forall s', s' ∈ rest -> ordered resourceSnapshotLess s' s.
Hypothesis Htrim : trimming limit last counter (s :: rest) K m.

Let ii := resourceIndex s.
Let counter' := if (ii =? last)%Z then counter else (counter + 1)%Z.

Local Lemma trim_nonneg : (0 <= ii)%Z.
Proof. destruct Hentry as (i & Hi & _ & Hr & _). unfold ii. lia. Qed.

(** A snapshot of the group that was being kept. *)
Local Lemma trim_same s' :
  s' ∈ s :: rest -> (0 <= resourceIndex s')%Z -> resourceIndex s' = last -> ii = last.
Proof.
  intros [->|Hin]%elem_of_cons Hn Hl; [done|]. pose proof (greater_index _ _ (Hgreater _ Hin)) as Hle.
  destruct (trim_last _ _ _ _ _ _ Htrim s) as [Hm|Hm]; [by left|lia|]. unfold ii. lia.
Qed.

Local Lemma trim_handled_step (m' : contents (list string)) s' :
  (forall k, m !! k = None -> m' !! k = None) -> (subindexOf s = None -> (counter' < limit)%Z \/ m' !! master_key ii = None) ->
  s' ∈ rest -> (0 <= resourceIndex s')%Z -> subindexOf s' <> None -> master_handled limit ii counter' rest m' s'.
Proof.
  intros Hsub Hmaster Hin Hn Hs'.
  destruct (trim_handled _ _ _ _ _ _ Htrim s') as [Hnone|[(s2 & [->|Hin2]%elem_of_cons & Hs2 & Hi2)|[Hl Hc]]];
    [by right|done|left; auto|..].
  - destruct (Hmaster Hs2) as [Hc|Hgone]; [right; right; by split|left; by rewrite <- Hi2].
  - right. left. by exists s2.
  - right. right. assert (ii = last) as Hii by (eapply trim_same; [by right|done|done]).
    split; [by rewrite Hii|]. unfold counter'. by rewrite Hii, Z.eqb_refl.
Qed.

Lemma trim_keep :
  (forall s', s' ∈ rest -> entry n s') -> (counter' < limit)%Z -> m !! key s = Some (image s) \/ m !! key s = None ->
  trimming limit ii counter' rest ({[ii]} ∪ K) m.
Proof.
  intros Hents Hlt Hst. pose proof trim_nonneg as Hnn. destruct Htrim as [Hleft Hsize Hcnt _ _ Hkept].
  split.
  - intros k v i Hk Hx. destruct (Hleft k v i Hk Hx) as [HK|(s' & [->|Hin]%elem_of_cons & <-)]; [set_solver| |eauto].
    left. destruct Hst as [Hst|Hst]; [|congruence]. rewrite Hst in Hk. injection Hk as <-.
    destruct Hentry as (i' & _ & Hx' & Hr & _). rewrite (indexed_inj _ _ _ Hx Hx'). unfold ii. rewrite Hr. set_solver.
  - destruct (decide (ii ∈ K)) as [Hin|Hni].
    + replace ({[ii]} ∪ K) with K by set_solver. unfold counter'. destruct (_ =? _)%Z; lia.
    + rewrite size_union, size_singleton by set_solver. unfold counter' in *. destruct (ii =? last)%Z eqn:E; [|lia].
      apply Z.eqb_eq in E. exfalso. rewrite <- E in Hkept. destruct Hkept as [?|[?|?]]; [lia|lia|done].
  - unfold counter'. destruct (_ =? _)%Z; lia.
  - intros s' Hin Hs'. apply trim_handled_step; [done|by left|done| |done].
    destruct (Hents s' Hin) as (i' & Hi' & _ & <- & _). lia.
  - intros s' Hin. right. by apply greater_index, Hgreater.
  - right. right. set_solver.
Qed.

Lemma trim_drop :
  (forall s', s' ∈ rest -> entry n s') -> (limit <= counter')%Z ->
  trimming limit ii counter' rest K (delete (key s) m).
Proof.
  intros Hents Hge. pose proof trim_nonneg as Hnn. pose proof Htrim as [Hleft Hsize Hcnt _ _ Hkept].
  split.
  - intros k v i [Hne Hk]%lookup_delete_Some Hx.
    destruct (Hleft k v i Hk Hx) as [HK|(s' & [->|Hin]%elem_of_cons & Hs')]; [by left|done|eauto].
  - unfold counter' in *. destruct (_ =? _)%Z; lia.
  - unfold counter'. destruct (_ =? _)%Z; lia.
  - intros s' Hin Hs'. apply trim_handled_step; [| |done| |done].
    + intros k Hk. apply lookup_delete_None. by right.
    + intros Hs. right. destruct Hentry as (i' & _ & _ & Hr & [(rs & Hk & _)|(j & p & _ & _ & Hj)]); [|congruence].
      unfold ii. rewrite Hr, <- Hk. apply lookup_delete_eq.
    + destruct (Hents s' Hin) as (i' & Hi' & _ & <- & _). lia.
  - intros s' Hin. right. by apply greater_index, Hgreater.
  - right. by left.
Qed.

(** Deleting the snapshot keeps the groups. *)
Lemma trim_grouped : grouped n m -> (limit <= counter')%Z -> grouped n (delete (key s) m).
Proof.
  intros Hg Hge. pose proof Hentry as (i & Hi & Hx & Hr & [(rs & Hk & _)|(j & p & Hk & _ & Hj)]); rewrite Hk.
  - apply grouped_delete_master; [lia|done].
  - apply grouped_delete_sub; [lia| |done].
    destruct (trim_handled _ _ _ _ _ _ Htrim s) as [Hnone|[(s2 & [->|Hin2]%elem_of_cons & Hs2 & Hi2)|[Hl Hc]]];
      [by left|congruence|by rewrite Hr in Hnone|congruence| |].
    + rewrite (greater_master s s2) in Hj; [done|by apply Hgreater|done..].
    + exfalso. unfold counter', ii in Hge. rewrite Hl, Z.eqb_refl in Hge. lia.
Qed.
End Trim.

Definition unchanged (items : list ResourceSnapshotObj) (m : contents (list string)) : Prop :=
  forall s, s ∈ items -> m !! key s = Some (image s) \/ m !! key s = None.

Lemma unchanged_delete s rest m : unchanged (s :: rest) m -> unchanged rest (delete (key s) m).
Proof.
  intros Hu s' Hin. destruct (decide (key s = key s')) as [->|Hne]; [right; apply lookup_delete_eq|].
  rewrite lookup_delete_ne by done. apply Hu. by right.
Qed.

Lemma quiet_delete n b i m k : grouped n (delete k m) -> quiet n b i m -> quiet n b i (delete k m).
Proof.
  intros Hg (_ & Hn & Ht & Hb). split; [done|]. split; [by apply no_latest_delete|].
  split; [by apply top_delete|by apply bounded_delete].
Qed.

Lemma deleteOldGroups_spec n b i limit items last counter K :
  (n <= 2 ^ 63)%Z -> StronglySorted greater items -> (forall s, s ∈ items -> tracked s /\ entry n s) ->
  spec (fun m => quiet n b i m /\ unchanged items m /\ trimming limit last counter items K m)
    (deleteOldGroups limit last counter items)
    (fun _ m => quiet n b i m /\ bounded (Z.max 0 (limit - 1)) m) (quiet n b i).
Proof.
  intros Hn Hsorted. revert last counter K.
  induction Hsorted as [|s rest Hsorted IH Hgreater]; intros last counter K Hitems.
  { apply spec_ret. intros m (Hq & _ & Htrim). split; [done|]. exists K. split.
    - intros k v j Hk Hx. destruct (trim_left _ _ _ _ _ _ Htrim k v j Hk Hx) as [?|(s & Hs & _)]; [done|].
      by apply elem_of_nil in Hs.
    - pose proof (trim_size _ _ _ _ _ _ Htrim). lia. }
  rewrite Forall_forall in Hgreater. destruct (Hitems s) as [Htr Hent]; [by left|].
  assert (forall s', s' ∈ rest -> tracked s' /\ entry n s') as Hrest by (intros s' Hs'; apply Hitems; by right).
  pose proof Hent as (ii & Hi & Hx & Hr & _). cbn [deleteOldGroups].
  eapply (spec_bind _ _ _ _ (fun x m => x = ii /\ quiet n b i m /\ unchanged (s :: rest) m /\
    trimming limit last counter (s :: rest) K m)).
  { apply spec_map_err, spec_lift; [|naive_solver]. intros x m. rewrite (extract_index s ii) by (done || lia).
    by intros [= <-]. }
  intros x. apply spec_pure. intros ->.
  set (counter' := if (ii =? last)%Z then counter else (counter + 1)%Z).
  destruct (counter' <? limit)%Z eqn:Hc.
  - apply Z.ltb_lt in Hc. eapply spec_weaken; [by apply IH with (K := {[ii]} ∪ K)| |done|done].
    intros m (Hq & Hu & Htrim). split; [done|]. split; [intros s' Hs'; apply Hu; by right|].
    subst ii counter'. apply (trim_keep n); [done|done|done|naive_solver|done|]. apply Hu. by left.
  - apply Z.ltb_ge in Hc. eapply (spec_bind _ _ _ _ (fun _ m => quiet n b i m /\ unchanged rest m /\
      trimming limit ii counter' rest K m)); [|intros []; by apply IH].
    apply (spec_remove laws); [done|naive_solver|]. intros m (Hq & Hu & Htrim).
    assert (quiet n b i (delete (key s) m)) as Hq'.
    { apply quiet_delete; [|done]. subst ii counter'. eapply trim_grouped; [done|done|done|apply Hq|done]. }
    split; [done|]. split; [done|]. split; [by apply unchanged_delete|].
    subst ii counter'. apply (trim_drop n); [done|done|done|naive_solver|done].
Qed.

(** The loop starts with all the snapshots. *)
Lemma trimming_start n m items limit sorted :
  (n <= 2 ^ 63)%Z -> grouped n m -> well_tracked m -> listed {[PlacementTrackingLabel := name]} m items ->
  sorted ≡ₚ items -> unchanged (reverse sorted) m /\ trimming limit (-1) 0 (reverse sorted) ∅ m.
Proof.
  intros Hn Hg Ht Hl Hp. pose proof Hl as (_ & Hin & _).
  assert (forall s, s ∈ reverse sorted <-> s ∈ items) as Hiff by (intros s; by rewrite elem_of_reverse, Hp).
  split; [intros s Hs%Hiff; left; by apply Hin|]. split; [..|by left].
  - intros k v i Hk Hx. right. destruct (listed_all m items k v Ht Hl Hk) as (o & Ho & Hkey). exists o. by rewrite Hiff.
  - rewrite size_empty. lia.
  - done.
  - intros s Hs Hsub. destruct (m !! master_key (resourceIndex s)) as [v|] eqn:Hv; [|by left]. right. left.
    destruct (listed_all m items _ v Ht Hl Hv) as (o & Ho & Hkey). exists o. rewrite Hiff. split; [done|].
    destruct (Hin o Ho) as [Hko _]. apply Hiff in Hs. destruct (Hin s Hs) as [Hks _].
    destruct (stored_entry n m s Hn Hg Hks) as (i & Hi & _ & Hri & _).
    destruct (stored_entry n m o Hn Hg Hko) as (i' & Hi' & _ & Hri' & [(rs & Hk & _ & Hnone)|(j & p & Hk & _)]).
    + split; [done|]. rewrite Hk in Hkey. apply master_key_inj in Hkey; lia.
    + rewrite Hk in Hkey. symmetry in Hkey. apply master_sub_key in Hkey; lia.
  - by left.
Qed.

(** Fewer snapshots than groups to keep. *)
Lemma bounded_few n m items :
  (n <= 2 ^ 63)%Z -> grouped n m -> well_tracked m -> listed {[PlacementTrackingLabel := name]} m items ->
  bounded (Z.of_nat (length items)) m.
Proof.
  intros Hn Hg Ht Hl. exists (list_to_set (resourceIndex <$> items)). split.
  - intros k v i Hk Hx. destruct (listed_all m items k v Ht Hl Hk) as (o & Ho & <-). destruct Hl as (_ & Hin & _).
    destruct (Hin o Ho) as [Hko _]. rewrite Hko in Hk. injection Hk as <-.
    destruct (stored_entry n m o Hn Hg Hko) as (i' & _ & Hx' & Hr & _).
    apply elem_of_list_to_set, list_elem_of_fmap. exists o. by rewrite Hr, (indexed_inj _ _ _ Hx Hx').
  - rewrite <- (length_fmap resourceIndex items). generalize (resourceIndex <$> items). intros l.
    induction l as [|x l IH]; cbn [list_to_set foldr length]; [rewrite size_empty; lia|].
    pose proof (size_union_alt {[x]} (list_to_set l : gset Z)) as Hu. rewrite size_singleton in Hu.
    assert (size ((list_to_set l : gset Z) ∖ {[x]}) <= size (list_to_set l : gset Z)) by (apply subseteq_size; set_solver).
    unfold list_to_set in *. cbn in *. lia.
Qed.

Lemma deleteRedundantGroups_spec n b i limit :
  (n <= 2 ^ 63)%Z ->
  spec (quiet n b i) (deleteRedundantResourceSnapshots placement limit)
    (fun _ m => quiet n b i m /\ bounded (Z.max 0 (limit - 1)) m) (quiet n b i).
Proof.
  intros Hn. eapply spec_bind; [apply listSortedResource_spec|]. intros sorted.
  apply (spec_fact _ well_tracked); [apply store_rsnap_tracked|].
  destruct (_ <? _)%Z eqn:Hc.
  - apply Z.ltb_lt in Hc. apply spec_ret. intros m (Ht & Hq & items & Hl & Hs). split; [done|].
    apply sortResourceSnapshots_Ok in Hs as [Hp _]. apply Permutation_length in Hp.
    eapply bounded_more; [|eapply bounded_few; [done|apply Hq|done..]]. lia.
  - apply (spec_given _ (StronglySorted (ordered resourceSnapshotLess) sorted /\
      forall s, s ∈ reverse sorted -> tracked s /\ entry n s)).
    { intros m (Ht & Hq & items & Hl & [Hp Hs]%sortResourceSnapshots_Ok). split; [done|]. intros s.
      rewrite elem_of_reverse, Hp. intros Hs'. destruct Hl as (_ & Hin & _). destruct (Hin s Hs') as [Hk _].
      split; [exact (Ht _ _ Hk)|]. eapply stored_entry; [done|apply Hq|done]. }
    intros [Hsorted Hents]. eapply spec_weaken; [apply (deleteOldGroups_spec n b i limit _ (-1) 0 ∅)| |done|done].
    + done.
    + by apply StronglySorted_reverse.
    + done.
    + intros m (Ht & Hq & items & Hl & [Hp _]%sortResourceSnapshots_Ok). split; [done|].
      eapply trimming_start; [done|apply Hq|done..].
Qed.

(** ** Creating a group *)

Section Create.
Variables (n b i limit : Z) (rs : list string) (envs : Z) (hash : string).
Hypothesis Hindex : (-1 <= i < n)%Z.
Hypothesis Hn : (n < 2 ^ 63)%Z.
Hypothesis Hrs : (Z.of_nat (length rs) < 2 ^ 63)%Z.
Hypothesis Hhash : HashOfResources rs = Ok hash.

Definition kept : Z := Z.max b (Z.max 1 limit).

Lemma quiet_kept m : quiet n b i m -> sound (n + 1) kept m.
Proof.
  intros [Hs Hb]%quiet_sound. split; [eapply sane_more; [|done]; lia|]. eapply bounded_more; [|done]. unfold kept. lia.
Qed.

Lemma master_build count piece :
  count = Z.of_nat (group_size sizeLimit rs) -> piece = default [] (pieces sizeLimit rs !! 0) ->
  let s := masterFor placement envs hash (i + 1) count piece in
  tracked s /\ key s = master_key (i + 1) /\ master (i + 1) rs (image s) /\ is_latest (image s).
Proof.
  intros -> ->. split; [split; [done|]; cbn; by simplify_map_eq|]. split; [done|]. split.
  - split; cbn; try by simplify_map_eq. exists hash. split; [by simplify_map_eq|done].
  - unfold is_latest. cbn. by simplify_map_eq.
Qed.

(** The new master is the latest. *)
Lemma leads_new s m :
  quiet n b i m -> bounded (Z.max 0 (limit - 1)) m -> key s = master_key (i + 1) ->
  master (i + 1) rs (image s) -> is_latest (image s) ->
  leads (n + 1) kept (i + 1) rs s (<[key s := image s]> m) /\ prefix (<[key s := image s]> m) (i + 1) rs 0.
Proof.
  intros (Hg & Hnl & Ht & _) Hb Hk Hm Hl. pose proof (master_index _ _ _ _ Hm) as Hx. fold (indexed (image s) (i + 1)) in Hx.
  apply (grouped_top ns name sizeLimit n m i) in Hg; [|done].
  assert (grouped (n + 1) (<[key s := image s]> m)) as Hg'.
  { rewrite Hk. eapply grouped_more; [|by eapply grouped_insert_master; [lia|done|]]. lia. }
  assert (the_latest (<[key s := image s]> m) (key s) (image s)) as Hthe.
  { apply the_latest_insert; [by apply no_latest_only_at|done]. }
  assert (top m (i + 1)) as Ht' by (eapply top_more; [|done]; lia).
  split; [|rewrite Hk; by apply prefix_new; [lia|]]. split; [split; [split|]|split; [lia|split; [|by split]]].
  - done.
  - by eapply the_latest_single.
  - eapply latest_top_insert; [by apply no_latest_only_at|done|done].
  - eapply bounded_more; [|by eapply bounded_insert_new]. unfold kept. lia.
  - split; [apply lookup_insert_eq|]. split; [done|]. split; [by apply (top_insert _ _ _ (i + 1) (i + 1))|exact (proj2 (proj2 Hthe))].
Qed.

Lemma createMaster_spec count piece :
  count = Z.of_nat (group_size sizeLimit rs) -> piece = default [] (pieces sizeLimit rs !! 0) ->
  spec (fun m => quiet n b i m /\ bounded (Z.max 0 (limit - 1)) m)
    (createResourceSnapshot placement (masterFor placement envs hash (i + 1) count piece))
    (fun s m => is_latest (image s) /\ leads (n + 1) kept (i + 1) rs s m /\ prefix m (i + 1) rs 0)
    (sound (n + 1) kept).
Proof.
  intros Hc Hp. destruct (master_build count piece Hc Hp) as (Htr & Hk & Hm & Hl).
  apply createResourceSnapshot_spec; [done|intros m [Hq _]; by apply quiet_kept|].
  intros m [Hq Hb] _. destruct (leads_new _ m Hq Hb Hk Hm Hl) as [Hlead Hpre].
  split; [by eapply leads_sound|]. intros s' Hk' Hi'. rewrite Hi'. split; [done|]. split; [|done].
  unfold leads, at_top in *. by rewrite Hk', Hi'.
Qed.

Lemma createGroup_spec latest :
  spec (quiet n b i) (createGroup sizeLimit placement envs hash i rs limit latest)
    (done_at (n + 1) kept (i + 1) rs) (sound (n + 1) kept).
Proof.
  eapply spec_bind; [eapply spec_weaken; [apply (deleteRedundantGroups_spec n b i limit); lia|done|intros ? m Ha; exact Ha|apply quiet_kept]|].
  intros []. rewrite wrap64_id by (unfold in_range; lia).
  destruct (SplitSelectedResources rs sizeLimit) as [|piece rest] eqn:Hpieces.
  - eapply spec_bind; [apply createMaster_spec; unfold group_size, pieces; by rewrite Hpieces|].
    intros s. apply spec_ret. intros m (Hl & Hlead & Hpre). exists s. split; [done|]. split; [done|]. split; [done|].
    pose proof Hlead as (_ & _ & (Hk & _) & Hmk & Hm). exists (image s). rewrite <- Hmk. split; [done|]. split; [done|].
    unfold group_size, pieces. by rewrite Hpieces.
  - cbn [createSnapshots]. eapply spec_bind; [apply createMaster_spec; unfold group_size, pieces; by rewrite Hpieces|].
    intros s. apply spec_pure. intros Hl.
    eapply spec_weaken; [apply (createSubs_spec (n + 1) kept (i + 1) rs s)|done| |done].
    + unfold pieces. by rewrite Hpieces.
    + intros r m (-> & Hlead & Hc). by exists s.
Qed.
End Create.

(** ** Replacing a group *)

Lemma leads_quiet n b i rs s m : leads n b i rs s m -> ~ is_latest (image s) -> quiet n b i m.
Proof.
  intros ([[Hg _ _] Hb] & _ & (Hk & _ & Ht & Ho) & _) Hn. split; [done|]. split; [|done].
  intros k v Hkv Hl. pose proof (Ho k v Hkv Hl) as ->. rewrite Hk in Hkv. by injection Hkv as <-.
Qed.

Lemma detectionTime_spec n b i rs s :
  spec (leads n b i rs s) (detectionTime now s) (fun r m => leads n b i rs r.2 m) (sound n b).
Proof.
  assert (spec (leads n b i rs s)
    (let* latest := hmap_err NewUpdateIgnoreConflictError (hub_update_resource_snapshot
       (set_rsnap_meta (set_annotation NextResourceSnapshotCandidateDetectionTimeAnnotation (FormatRFC3339 now)
         (rsnap_meta s)) s)) in hret (now, latest))
    (fun r m => leads n b i rs r.2 m) (sound n b)) as Hwrite.
  { eapply spec_bind; [by apply update_spec; [|apply master_detected|]|]. intros s'. apply spec_ret. by intros m [Hl _]. }
  unfold detectionTime. destruct (ExtractNextResourceSnapshotCandidateDetectionTimeFromResourceSnapshot s) as [t|e|p]; [|done|].
  - destruct (t =? zeroTime)%Z; [done|by apply spec_ret].
  - apply spec_lift; [done|apply leads_sound].
Qed.

Lemma shouldCreate_spec n b i rs s :
  spec (leads n b i rs s) (shouldCreateNewResourceSnapshotNow config now s)
    (fun r m => leads n b i rs r.2 m) (sound n b).
Proof.
  unfold shouldCreateNewResourceSnapshotNow. destruct config as [c|]; [|by apply spec_ret].
  destruct (_ && _); [by apply spec_ret|]. eapply spec_bind; [apply detectionTime_spec|].
  intros [t s']. destruct (_ <? _)%Z; by apply spec_ret.
Qed.

(** The outcome of a round: to wait, or the group of the selected resources. *)
Definition settled (n b : Z) (rs : list string) (r : Z * option ResourceSnapshotObj) (m : contents (list string)) : Prop :=
  sound n b m /\ ((0 < r.1)%Z \/ exists i, done_at n b i rs r.2 m).

Lemma created_settled n b i rs (m : hub W (option ResourceSnapshotObj)) P :
  spec P m (done_at n b i rs) (sound n b) ->
  spec P (let* s := m in hret (0%Z, s)) (settled n b rs) (sound n b).
Proof.
  intros Hm. eapply spec_bind; [exact Hm|]. intros r. apply spec_ret. intros m' Hd. split; [|right; by exists i].
  destruct Hd as (s & _ & Hl & _). by eapply leads_sound.
Qed.

Lemma replace_spec n b i rs' rs s limit envs hash :
  (n < 2 ^ 63)%Z -> (Z.of_nat (length rs) < 2 ^ 63)%Z -> HashOfResources rs = Ok hash -> (0 <= i < n)%Z ->
  spec (leads n b i rs' s) (replaceGroup config sizeLimit now placement envs hash s i rs limit)
    (settled (n + 1) (kept b limit) rs) (sound (n + 1) (kept b limit)).
Proof.
  intros Hn Hrs Hh Hi.
  assert (forall m, sound n b m -> sound (n + 1) (kept b limit) m) as Hmore.
  { intros m [Hs Hb]. split; [eapply sane_more; [|done]; lia|]. eapply bounded_more; [|done]. unfold kept. lia. }
  assert (forall latest, spec (quiet n b i)
    (let* s := createGroup sizeLimit placement envs hash i rs limit latest in hret (0%Z, s))
    (settled (n + 1) (kept b limit) rs) (sound (n + 1) (kept b limit))) as Hcreate.
  { intros latest. eapply created_settled, createGroup_spec; [lia|done..]. }
  unfold replaceGroup. destruct (marked_latest (rsnap_meta s)) eqn:Hm.
  - eapply spec_bind; [eapply spec_weaken; [apply shouldCreate_spec|done|intros ? m Ha; exact Ha|done]|]. clear s Hm.
    intros [after s]. cbn [snd]. destruct (0 <? after)%Z eqn:Ha.
    + apply Z.ltb_lt in Ha. apply spec_ret. intros m Hl. split; [by eapply Hmore, leads_sound|by left].
    + eapply (spec_bind _ _ _ _ (fun _ m => quiet n b i m)); [|done].
      eapply spec_weaken; [apply (update_spec n b i rs' s)|done| |done].
      * done.
      * apply master_mark.
      * cbn. by rewrite lookup_insert_ne.
      * intros s' m [Hl Himg]. eapply leads_quiet; [done|]. rewrite Himg. unfold is_latest. cbn. by simplify_map_eq.
  - eapply spec_weaken; [apply Hcreate| |done|done]. intros m Hl. eapply leads_quiet; [done|].
    by apply bool_decide_eq_false in Hm.
Qed.

(** ** A round *)

Lemma sound_empty_quiet n b : (0 <= n)%Z -> sound n b ∅ -> quiet n b (-1) ∅.
Proof. intros Hn [[Hg _ _] Hb]. split; [done|]. split; [intros k v Hk; by simplify_map_eq|]. split; [|done]. intros k v i Hk. by simplify_map_eq. Qed.

Lemma getOrCreateResource_spec n b rs envs limit :
  (0 <= n < 2 ^ 63)%Z -> (Z.of_nat (length rs) < 2 ^ 63)%Z ->
  spec (sound n b) (GetOrCreateResourceSnapshot config sizeLimit now placement envs rs limit)
    (settled (n + 1) (kept b limit) rs) (sound (n + 1) (kept b limit)).
Proof.
  intros Hn Hrs.
  assert (forall m, sound n b m -> sound (n + 1) (kept b limit) m) as Hmore.
  { intros m [Hs Hb]. split; [eapply sane_more; [|done]; lia|]. eapply bounded_more; [|done]. unfold kept. lia. }
  eapply (spec_bind _ _ _ _ (fun h m => HashOfResources rs = Ok h /\ sound n b m)); [apply spec_map_err, spec_lift; naive_solver|].
  intros hash. apply spec_pure. intros Hh.
  eapply spec_bind; [eapply spec_weaken; [apply (lookupResource_spec n b); lia|done|intros ? m Ha; exact Ha|done]|].
  intros [[s i]|].
  2: { eapply spec_weaken; [eapply created_settled, (createGroup_spec n b (-1)); [lia|lia|done|done]| |done|done].
       intros m [Hs ->]. apply sound_empty_quiet; [lia|done]. }
  eapply (spec_bind _ _ _ _ (fun h m => exists rs', HashOfResources rs' = Ok h /\ (0 <= i < n)%Z /\ leads n b i rs' s m)).
  { apply spec_map_err, spec_lift; [|naive_solver]. intros h m Hh' (Hs & Hi & Hat).
    pose proof Hat as (Hk & Hx & _). pose proof Hs as [[Hg _ _] _].
    destruct (hash_master n m s h i Hg Hk Hx Hh') as (rs' & Hkey & Hm & Hhash). by exists rs'. }
  intros h. apply spec_exists. intros rs'. apply spec_pure. intros Hh'. apply spec_pure. intros Hi.
  eapply (spec_bind _ _ _ _ (fun k m => k = Z.of_nat (group_size sizeLimit rs') /\ leads n b i rs' s m)).
  { apply spec_map_err, spec_lift; [|intros m Hl; by eapply Hmore, leads_sound]. intros k m Hk Hl. split; [|done].
    eapply master_number; [apply Hl|done]. }
  intros k. apply spec_pure. intros ->. case_decide as Heq; [|apply replace_spec; done || lia].
  assert (rs' = rs) as -> by (eapply hash_faithful; [done|by rewrite Heq]).
  eapply (spec_weaken _ _ _ _ (settled n b rs)); [eapply created_settled, resume_spec|done| |done].
  intros r m [Hs [Hp|(i' & s' & Hr & Hl & Hlat & Hc)]]; (split; [by apply Hmore|]); [by left|right].
  exists i', s'. split; [done|]. split; [|done]. destruct Hl as (_ & Hi' & Hl). split; [by apply Hmore|]. split; [lia|done].
Qed.

End Proofs.
