(* ===== verification/PlacementStatusProofs.v ===== *)
(** * A completed rollout

    The status of a placement says that the rollout is completed just when
    scheduling has been done for the current spec and every selected cluster
    has a binding to the latest resource snapshot, all of whose conditions are
    True at its generation. *)

From stdpp Require Import prelude gmap strings.
From S2P Require Import Prelude K8s Api Sample Utils FrameworkUtils Hub Overrider WorkApi PlacementApi PolicySnapshots ResourceSnapshots PlacementStatus Placement.

Local Open Scope string_scope.
Local Open Scope list_scope.

Section Status.
Context {K : K8sLib} {L : K8sLaws K}.
Variable now : Z.

(** ** Condition types *)

#[local] Instance getPlacementConditionType_inj p : Inj (=) (=) (getPlacementConditionType p).
Proof. unfold getPlacementConditionType. destruct (isClusterScopedPlacement p); by intros [] []. Qed.

Lemma getPlacementConditionType_scheduled p i : getPlacementConditionType p i <> getPlacementScheduledConditionType p.
Proof.
  unfold getPlacementConditionType, getPlacementScheduledConditionType. destruct (isClusterScopedPlacement p); by destruct i.
Qed.

(** The parts of a placement that its status does not change. *)
Definition same_spec (p q : PlacementObj) : Prop := pl_meta p = pl_meta q /\ pl_spec p = pl_spec q.

Lemma same_spec_types p q : same_spec p q ->
  pl_generation p = pl_generation q /\
  getPlacementScheduledConditionType p = getPlacementScheduledConditionType q /\
  getPlacementConditionType p = getPlacementConditionType q /\
  determineExpectedPlacementAndResourcePlacementStatusCondType p =
    determineExpectedPlacementAndResourcePlacementStatusCondType q.
Proof.
  destruct p, q. unfold same_spec. cbn. intros [-> ->]. done.
Qed.

Definition condition_true (p : PlacementObj) (t : string) : bool :=
  IsConditionStatusTrue (getPlacementCondition p t) (pl_generation p).

Lemma find_set p c t :
  getPlacementCondition (setPlacementCondition now c p) t =
    FindStatusCondition (SetStatusCondition now (pl_conditions p) c) t.
Proof. done. Qed.

Lemma find_set_other p c t : t <> cond_type c -> getPlacementCondition (setPlacementCondition now c p) t = getPlacementCondition p t.
Proof. intros Ht. rewrite find_set. by apply SetStatusCondition_other. Qed.

Lemma true_set p c :
  condition_true (setPlacementCondition now c p) (cond_type c) =
    bool_decide (cond_status c = ConditionTrue) && (cond_observed_generation c =? pl_generation p)%Z.
Proof.
  unfold condition_true. rewrite find_set.
  destruct (SetStatusCondition_same now (pl_conditions p) c) as (c' & -> & _ & Hs & Hg & _). cbn. by rewrite Hs, Hg.
Qed.

(** ** Removing the conditions that were not set *)

Lemma reset_fold (set : setStatuses) type types cs t :
  let r := FindStatusCondition (fold_left (fun cs i => if decide (i ∈ set.*1) then cs else RemoveStatusCondition cs (type i)) types cs) t in
  (r = FindStatusCondition cs t \/ r = None) /\
  ((forall i, i ∈ set.*1 \/ t <> type i) -> r = FindStatusCondition cs t).
Proof.
  revert cs. induction types as [|i types IH]; intros cs; cbn; [naive_solver|].
  destruct (decide (i ∈ set.*1)) as [Hin|Hni]; [apply IH|].
  destruct (IH (RemoveStatusCondition cs (type i))) as [Hr Hk]. destruct (decide (t = type i)) as [->|Hne].
  - rewrite RemoveStatusCondition_same in *. split; [naive_solver|]. intros Hall. destruct (Hall i); naive_solver.
  - rewrite RemoveStatusCondition_other in Hr, Hk by done. done.
Qed.

Lemma find_reset_or p set t :
  let r := getPlacementCondition (upd_pl_conditions (resetUnused set (getPlacementConditionType p)) p) t in
  r = getPlacementCondition p t \/ r = None.
Proof. apply (reset_fold set _ allConditions (pl_conditions p) t). Qed.

Lemma find_reset_kept p set t :
  (forall i, i ∈ set.*1 \/ t <> getPlacementConditionType p i) ->
  getPlacementCondition (upd_pl_conditions (resetUnused set (getPlacementConditionType p)) p) t = getPlacementCondition p t.
Proof. apply (reset_fold set _ allConditions (pl_conditions p) t). Qed.

(** ** The conditions of the placement *)

(** No cluster reports anything but True. *)
Definition all_true (counter : setStatuses) : Prop := forall x, x ∈ counter -> x.2 = ConditionTrue.

Lemma counted_pos counter i status : (0 <? counted counter i status)%Z = true <-> (i, status) ∈ counter.
Proof.
  unfold counted. rewrite Z.ltb_lt. split.
  - intros Hl. destruct (filter _ counter) as [|x l] eqn:Hf; [cbn in Hl; lia|].
    assert (x ∈ filter (fun c => c = (i, status)) counter) as [-> Hin]%list_elem_of_filter by (rewrite Hf; by left). done.
  - intros Hin. assert ((i, status) ∈ filter (fun c => c = (i, status)) counter) as Hf by by apply list_elem_of_filter.
    destruct (filter _ counter); [by apply elem_of_nil in Hf|cbn; lia].
Qed.

Lemma generate_condition p i status n :
  let c := generatePlacementConditionByStatus p i status (pl_generation p) n in
  cond_type c = getPlacementConditionType p i /\ cond_status c = status /\ cond_observed_generation c = pl_generation p.
Proof.
  unfold generatePlacementConditionByStatus, getPlacementConditionType. destruct (isClusterScopedPlacement p), status; by destruct i.
Qed.

(** The condition of a type is True if no cluster reports otherwise. *)
Lemma placementCondition_spec p per counter i :
  let r := placementCondition p per counter i in
  let good := bool_decide ((i, ConditionUnknown) ∉ counter /\ (i, ConditionFalse) ∉ counter) in
  cond_type r.1 = getPlacementConditionType p i /\ cond_observed_generation r.1 = pl_generation p /\
  bool_decide (cond_status r.1 = ConditionTrue) = good /\ r.2 = negb good.
Proof.
  cbn zeta. unfold placementCondition.
  destruct (0 <? counted counter i ConditionUnknown)%Z eqn:Hu.
  { apply counted_pos in Hu. destruct (generate_condition p i ConditionUnknown (counted counter i ConditionUnknown)) as (H1 & H2 & H3).
    cbn. rewrite H2, (bool_decide_eq_false_2 (_ /\ _)) by naive_solver. done. }
  destruct (0 <? counted counter i ConditionFalse)%Z eqn:Hf.
  { apply counted_pos in Hf. destruct (generate_condition p i ConditionFalse (counted counter i ConditionFalse)) as (H1 & H2 & H3).
    cbn. rewrite H2, (bool_decide_eq_false_2 (_ /\ _)) by naive_solver. done. }
  assert ((i, ConditionUnknown) ∉ counter /\ (i, ConditionFalse) ∉ counter) as Hgood.
  { split; intros Hin%counted_pos; congruence. }
  rewrite (bool_decide_eq_true_2 (_ /\ _)) by done.
  destruct (generate_condition p i ConditionTrue (counted counter i ConditionTrue)) as (H1 & H2 & H3).
  case_decide; [destruct (existsb _ _)|]; cbn; rewrite H2; done.
Qed.

Lemma setExpected_spec per counter types p :
  NoDup types ->
  let r := setExpectedConditions now per counter types p in
  let good := Forall (fun i => (i, ConditionUnknown) ∉ counter /\ (i, ConditionFalse) ∉ counter) types in
  same_spec r.1 p /\
  (forall t, (forall i, i ∈ types -> t <> getPlacementConditionType p i) -> getPlacementCondition r.1 t = getPlacementCondition p t) /\
  (good -> r.2 = types /\ forall i, i ∈ types -> condition_true r.1 (getPlacementConditionType p i) = true) /\
  (~ good -> exists i, i ∈ types /\ condition_true r.1 (getPlacementConditionType p i) = false).
Proof.
  intros Hnd. revert p. induction Hnd as [|i types Hni Hnd IH]; intros p; cbn.
  { split; [done|]. split; [done|]. split; [|intros []; constructor]. intros _. split; [done|]. by intros i Hi%elem_of_nil. }
  destruct (placementCondition p per counter i) as [cond skip] eqn:Hc.
  destruct (placementCondition_spec p per counter i) as (Ht & Hg & Hs & Hskip). rewrite Hc in Ht, Hg, Hs, Hskip. cbn in *.
  set (q := setPlacementCondition now cond p).
  assert (condition_true q (getPlacementConditionType p i) =
    bool_decide ((i, ConditionUnknown) ∉ counter /\ (i, ConditionFalse) ∉ counter)) as Hq.
  { rewrite <- Ht. unfold q. by rewrite true_set, Hg, Z.eqb_refl, andb_true_r. }
  assert (forall t, t <> getPlacementConditionType p i -> getPlacementCondition q t = getPlacementCondition p t) as Hother.
  { intros t Hne. apply find_set_other. by rewrite Ht. }
  case_bool_decide as Hgood; cbn in Hskip; subst skip.
  - specialize (IH q). destruct (setExpectedConditions now per counter types q) as [p' set]. cbn in *.
    destruct IH as (Hsame & Hkeep & Hyes & Hno).
    assert (getPlacementConditionType q = getPlacementConditionType p) as Htq by done. rewrite Htq in *.
    assert (getPlacementCondition p' (getPlacementConditionType p i) = getPlacementCondition q (getPlacementConditionType p i)) as Hi.
    { apply Hkeep. intros j Hj Heq%(inj (getPlacementConditionType p)). by subst. }
    assert (pl_generation p' = pl_generation q) as Hgen by by apply same_spec_types.
    split; [done|]. split; [|split].
    + intros t Hall. rewrite Hkeep by (intros j Hj; apply Hall; by right). apply Hother, Hall. by left.
    + intros [_ Hall]%Forall_cons. destruct (Hyes Hall) as [-> Htrue]. split; [done|]. intros j [->|Hj]%elem_of_cons; [|auto].
      unfold condition_true. by rewrite Hi, Hgen.
    + intros Hn. destruct Hno as (j & Hj & Hf); [intros Hall; apply Hn; by constructor|]. exists j. split; [by right|done].
  - split; [done|]. split; [intros t Hall; apply Hother, Hall; by left|]. split; [by intros [? _]%Forall_cons|].
    intros _. exists i. split; [by left|done].
Qed.

Lemma expected_NoDup p : NoDup (determineExpectedPlacementAndResourcePlacementStatusCondType p).
Proof.
  unfold determineExpectedPlacementAndResourcePlacementStatusCondType.
  destruct (rs_ApplyStrategy _) as [s|]; [case_decide|]; apply (bool_decide_unpack _); vm_compute; exact I.
Qed.

Lemma expected_rollout p : RolloutStartedCondition ∈ determineExpectedPlacementAndResourcePlacementStatusCondType p.
Proof.
  unfold determineExpectedPlacementAndResourcePlacementStatusCondType.
  destruct (rs_ApplyStrategy _) as [s|]; [case_decide|]; by left.
Qed.

Notation expected := determineExpectedPlacementAndResourcePlacementStatusCondType.

(** The conditions say that the rollout is completed if no cluster reports
    anything but True. *)
Lemma setPlacementConditions_spec p per counter :
  (forall x, x ∈ counter -> x.1 ∈ expected p) ->
  let q := setPlacementConditions now p per counter (expected p) in
  isRolloutCompleted q = true <->
  condition_true p (getPlacementScheduledConditionType p) = true /\ all_true counter.
Proof.
  intros Hin q. subst q. unfold setPlacementConditions.
  pose proof (setExpected_spec per counter (expected p) p (expected_NoDup p)) as Hspec.
  destruct (setExpectedConditions now per counter (expected p) p) as [p' set]. cbn in Hspec.
  destruct Hspec as (Hsame & Hkeep & Hyes & Hno).
  destruct (same_spec_types _ _ Hsame) as (Hgen & Hsch & Htype & Hexp).
  set (unset := (fun i => (i, ConditionTrue)) <$> set). set (q := upd_pl_conditions _ p').
  assert (same_spec q p) as Hq by done. destruct (same_spec_types _ _ Hq) as (Hgq & Hschq & Htq & Heq).
  assert (unset.*1 = set) as Hset by (unfold unset; rewrite <- list_fmap_compose; apply list_fmap_id).
  assert (condition_true q (getPlacementScheduledConditionType p) = condition_true p (getPlacementScheduledConditionType p)) as Hsc.
  { unfold condition_true. rewrite Hgq. unfold q. rewrite find_reset_kept, Hkeep; [done|..].
    - intros i _. by apply not_eq_sym, getPlacementConditionType_scheduled.
    - intros i. right. rewrite Htype. by apply not_eq_sym, getPlacementConditionType_scheduled. }
  assert (all_true counter <-> Forall (fun i => (i, ConditionUnknown) ∉ counter /\ (i, ConditionFalse) ∉ counter) (expected p)) as Hall.
  { rewrite Forall_forall. split.
    - intros Ha i _. split; intros Hx%Ha; done.
    - intros Hf [i s] Hx. destruct (Hf i (Hin _ Hx)) as [Hu Hf']. by destruct s. }
  unfold isRolloutCompleted. rewrite andb_true_iff, Hall. fold (condition_true q (getPlacementScheduledConditionType q)).
  rewrite Hschq, Hsc, Heq. apply and_iff_compat_l. rewrite forallb_forall.
  destruct (decide (Forall (fun i => (i, ConditionUnknown) ∉ counter /\ (i, ConditionFalse) ∉ counter) (expected p))) as [Hg|Hb].
  - split; [done|]. intros _ i Hi%list_elem_of_In. destruct (Hyes Hg) as [-> Htrue]. rewrite <- (Htrue i Hi), Htq.
    unfold condition_true, q. rewrite find_reset_kept; [done|]. intros j. rewrite Hset, Htype.
    destruct (decide (j = i)) as [->|Hne]; [by left|right]. by intros ?%(inj (getPlacementConditionType p)).
  - split; [|done]. intros Htrue. destruct (Hno Hb) as (i & Hi%list_elem_of_In & Hf). specialize (Htrue i Hi).
    rewrite Htq in Htrue. unfold condition_true in Hf. unfold q in Htrue.
    destruct (find_reset_or p' unset (getPlacementConditionType p i)) as [Hr|Hr]; rewrite Hr in Htrue; [|done].
    change (pl_generation (upd_pl_conditions _ p')) with (pl_generation p') in Htrue. congruence.
Qed.

(** ** The clusters *)

(** All the expected conditions of the binding are True at its generation. *)
Definition binding_true (b : BindingObj) (types : list ResourceCondition) : Prop :=
  forall i, i ∈ types ->
    IsConditionStatusTrue (GetCondition b (ResourceBindingConditionType i)) (meta_generation (b_meta b)) = true.

(** The binding has been rolled out with the latest resource snapshot. *)
Definition rolled_out (p : PlacementObj) (latest : option ResourceSnapshotObj) (b : BindingObj) : Prop :=
  binding_true b (expected p) /\
  (pl_external p = false ->
    exists s, latest = Some s /\ rbs_ResourceSnapshotName (b_spec b) = meta_name (rsnap_meta s)).

Lemma all_true_app l k : all_true (l ++ k) <-> all_true l /\ all_true k.
Proof. unfold all_true. setoid_rewrite elem_of_app. naive_solver. Qed.

Lemma all_true_cons x l : all_true (x :: l) <-> x.2 = ConditionTrue /\ all_true l.
Proof. unfold all_true. setoid_rewrite elem_of_cons. naive_solver. Qed.

Lemma all_true_one i status : all_true [(i, status)] <-> status = ConditionTrue.
Proof. unfold all_true. setoid_rewrite list_elem_of_singleton. naive_solver. Qed.

Lemma basedOnBinding_spec p b types s set :
  exists extra,
    (setResourcePlacementStatusBasedOnBinding now p b types s set).2 = set ++ extra /\
    (forall x, x ∈ extra -> x.1 ∈ types) /\ (all_true extra <-> binding_true b types).
Proof.
  revert s set. induction types as [|i types IH]; intros s set.
  { exists []. rewrite app_nil_r. split; [done|]. split; [by intros x ?%elem_of_nil|].
    split; intros _ x ?%elem_of_nil; done. }
  assert (forall status, IsConditionStatusTrue (GetCondition b (ResourceBindingConditionType i)) (meta_generation (b_meta b)) = false ->
    status <> ConditionTrue ->
    (forall x, x ∈ [(i, status)] -> x.1 ∈ i :: types) /\ (all_true [(i, status)] <-> binding_true b (i :: types))) as Hstop.
  { intros status Hf Hs. split; [intros x ->%list_elem_of_singleton; by left|].
    rewrite all_true_one. split; [done|]. intros Hb. specialize (Hb i). rewrite Hf in Hb. discriminate Hb. by left. }
  cbn [setResourcePlacementStatusBasedOnBinding].
  destruct (GetCondition b (ResourceBindingConditionType i)) as [c|] eqn:Hc.
  2: { exists [(i, ConditionUnknown)]. split; [done|]. by apply Hstop. }
  destruct (IsConditionStatusTrue (Some c) (meta_generation (b_meta b))) eqn:Ht; cbn [orb].
  - pose proof Ht as Hs. cbn in Hs. apply andb_true_iff in Hs as [Hs%bool_decide_eq_true _].
    rewrite decide_False by congruence.
    destruct (IH (setPerClusterCondition now (mkCondition (PerClusterPlacementConditionType i) (cond_status c)
      (pl_generation p) 0 (cond_reason c) (cond_message c)) (copyBindingDetails b i (cond_status c) s))
      (set ++ [(i, cond_status c)])) as (extra & -> & Hin & Hall).
    exists ((i, cond_status c) :: extra). rewrite <- app_assoc. split; [done|]. split.
    + intros x [->|Hx]%elem_of_cons; [by left|right; auto].
    + rewrite all_true_cons, Hall. unfold binding_true. setoid_rewrite elem_of_cons. split; [|naive_solver].
      intros [_ Hb] j [->|Hj]; [by rewrite Hc|auto].
  - destruct (IsConditionStatusFalse (Some c) (meta_generation (b_meta b))) eqn:Hf.
    + cbn in Hf. apply andb_true_iff in Hf as [Hs%bool_decide_eq_true _]. rewrite decide_True by done.
      exists [(i, cond_status c)]. split; [done|]. apply Hstop; [done|congruence].
    + exists [(i, ConditionUnknown)]. split; [done|]. by apply Hstop.
Qed.

Lemma perCluster_spec p latest index ob s s' set :
  setPerClusterPlacementStatus now p latest index ob (expected p) s = Ok (s', set) ->
  (forall x, x ∈ set -> x.1 ∈ expected p) /\
  (all_true set <-> exists b, ob = Some b /\ rolled_out p latest b).
Proof.
  assert (forall status, status <> ConditionTrue ->
    (forall x, x ∈ [(RolloutStartedCondition, status)] -> x.1 ∈ expected p) /\
    ~ all_true [(RolloutStartedCondition, status)]) as Hone.
  { intros status Hs. rewrite all_true_one. split; [|done]. intros x ->%list_elem_of_singleton. apply expected_rollout. }
  unfold setPerClusterPlacementStatus. destruct ob as [b|].
  2: { intros [= <- <-]. destruct (Hone ConditionUnknown) as [Hin Hn]; [done|]. naive_solver. }
  destruct (pl_external p) eqn:Hext.
  - intros [= Hr]. apply (f_equal snd) in Hr. cbn in Hr.
    edestruct (basedOnBinding_spec p b (expected p)) as (extra & Hx & Hin & Hall). rewrite Hx in Hr. cbn in Hr. subst set.
    split; [done|]. rewrite Hall. unfold rolled_out. split; [|naive_solver]. intros Hb. exists b. split; [done|]. by rewrite Hext.
  - destruct latest as [l|]; [|done]. cbn zeta.
    destruct (decide (rbs_ResourceSnapshotName (b_spec b) = meta_name (rsnap_meta l))) as [Hname|Hname].
    + intros [= Hr]. apply (f_equal snd) in Hr. cbn in Hr.
      edestruct (basedOnBinding_spec p b (expected p)) as (extra & Hx & Hin & Hall). rewrite Hx in Hr. cbn in Hr. subst set.
      split; [done|]. rewrite Hall. unfold rolled_out. naive_solver.
    + assert (~ exists b', Some b = Some b' /\ rolled_out p (Some l) b') as Hnot by (unfold rolled_out; naive_solver).
      destruct (IsConditionStatusFalse _ _); intros [= <- <-];
        (destruct (Hone ConditionUnknown) as [Hin Hn]; [done|]); (destruct (Hone ConditionFalse) as [Hin' Hn']; [done|]);
        naive_solver.
Qed.

Lemma selectedStatus_spec p latest old (bindings : gmap string BindingObj) indices d s set :
  buildSelectedStatus now p latest (expected p) old bindings indices d = Ok (s, set) ->
  (forall x, x ∈ set -> x.1 ∈ expected p) /\
  (all_true set <-> exists b, bindings !! cd_ClusterName d = Some b /\ rolled_out p latest b).
Proof.
  unfold buildSelectedStatus. cbn zeta.
  match goal with |- (let! (s, set) := ?m in _) = _ -> _ => destruct m as [[s1 set1]|e|m1] eqn:Hp end; [|done|done].
  intros [= _ <-]. by eapply perCluster_spec.
Qed.

(** The statuses of the selected clusters. *)
Lemma selected_fold p latest old (bindings : gmap string BindingObj) indices ds acc res :
  ofold (fun '(statuses, counter) d =>
    let! (s, set) := buildSelectedStatus now p latest (expected p) old bindings indices d in
    Ok (statuses ++ [s], counter ++ set)) acc ds = Ok res ->
  (forall x, x ∈ acc.2 -> x.1 ∈ expected p) ->
  (forall x, x ∈ res.2 -> x.1 ∈ expected p) /\
  (all_true res.2 <-> all_true acc.2 /\
    forall d, d ∈ ds -> exists b, bindings !! cd_ClusterName d = Some b /\ rolled_out p latest b).
Proof.
  revert acc. induction ds as [|d ds IH]; intros [statuses counter] Hf Hin; cbn in Hf.
  { injection Hf as <-. cbn. split; [done|]. split; [|naive_solver]. intros Ha. split; [done|]. by intros d ?%elem_of_nil. }
  destruct (buildSelectedStatus now p latest (expected p) old bindings indices d) as [[s set]|e|m] eqn:Hp;
    cbn in Hf; [|done|done].
  destruct (selectedStatus_spec _ _ _ _ _ _ _ _ Hp) as [Hin' Hall].
  apply IH in Hf as [Hin'' Hall'].
  2: { cbn. intros x [Hx|Hx]%elem_of_app; auto. }
  split; [done|]. rewrite Hall'. cbn. rewrite all_true_app, Hall. setoid_rewrite elem_of_cons. naive_solver.
Qed.

(** ** The External strategy *)

Lemma markRolloutUnknown_incomplete msg p : isRolloutCompleted (markRolloutUnknown now msg p) = false.
Proof.
  unfold isRolloutCompleted. apply andb_false_iff. right. apply not_true_is_false. rewrite forallb_forall. intros Hall.
  specialize (Hall RolloutStartedCondition). 
  assert (In RolloutStartedCondition (expected (markRolloutUnknown now msg p))) as Hin by (apply list_elem_of_In, expected_rollout).
  specialize (Hall Hin). clear Hin.
  set (c := mkCondition (getPlacementRolloutStartedConditionType p) ConditionUnknown (pl_generation p) 0
       "RolloutControlledByExternalController" msg).
  assert (getPlacementCondition (markRolloutUnknown now msg p) (getPlacementConditionType p RolloutStartedCondition) =
    getPlacementCondition (setPlacementCondition now c p) (cond_type c)) as Heq.
  { unfold markRolloutUnknown, getPlacementCondition, c. cbn. unfold getPlacementConditionType, getPlacementRolloutStartedConditionType.
    change (isClusterScopedPlacement _) with (isClusterScopedPlacement p).
    destruct (isClusterScopedPlacement p); cbn; by rewrite !RemoveStatusCondition_other by done. }
  change (getPlacementConditionType (markRolloutUnknown now msg p)) with (getPlacementConditionType p) in Hall.
  rewrite Heq in Hall. pose proof (true_set p c) as Hc. unfold condition_true in Hc. cbn [cond_status c] in Hc.
  change (pl_generation (markRolloutUnknown now msg p)) with (pl_generation (setPlacementCondition now c p)) in Hall.
  by rewrite Hall in Hc.
Qed.
End Status.

(** ** What is reported *)

Lemma hbind_done {W A B} (f : A -> hub W B) (m : hub W A) w w' b :
  hbind f m w = (w', Ok b) -> exists a w1, m w = (w1, Ok a) /\ f a w1 = (w', Ok b).
Proof. unfold hbind. destruct (m w) as [w1 [a|e|p]]; [eauto|done|done]. Qed.

Notation expected := determineExpectedPlacementAndResourcePlacementStatusCondType.

Section Reported.
Context {K : K8sLib} {L : K8sLaws K} {W : Type} {C : HubClient W} {SR : SnapshotReader W} {SC : SnapshotClient W} {M : ManifestLib}.
Variable now : Z.
Variable mapOrder : forall A : Type, list (string * A) -> list (string * A).

Lemma external_spec p selected per ids w w' p' unknown :
  determineRolloutStateForPlacementWithExternalRolloutStrategy now mapOrder p selected per ids w =
    (w', Ok (p', unknown)) ->
  if unknown : bool then isRolloutCompleted p' = false else same_spec p' p /\ pl_conditions p' = pl_conditions p.
Proof.
  unfold determineRolloutStateForPlacementWithExternalRolloutStrategy.
  destruct selected as [|d selected]; [done|]. destruct per as [|first per]; [done|]. cbn zeta.
  destruct (indicesDiffer _); [intros [= _ <- <-]; by apply markRolloutUnknown_incomplete|].
  case_decide; [intros [= _ <- <-]; by apply markRolloutUnknown_incomplete|].
  intros (q & w1 & Hq & Hr)%hbind_done.
  assert (same_spec q p /\ pl_conditions q = pl_conditions p) as Hsame.
  { case_decide; [by injection Hq as _ <-|]. apply hbind_done in Hq as (rs & w2 & _ & Hq). by injection Hq as _ <-. }
  destruct (list_find _ _) as [[i s]|]; injection Hr as _ <- <-; [by apply markRolloutUnknown_incomplete|done].
Qed.

(** The decisions of the scheduler are about the current spec. *)
Definition scheduled_now (p : PlacementObj) (snapshot : PolicySnapshotObj) : Prop :=
  exists c, FindStatusCondition (spst_Conditions (snap_status snapshot)) PolicySnapshotScheduled = Some c /\
    cond_status c = ConditionTrue /\ (meta_generation (snap_meta snapshot) <= cond_observed_generation c)%Z /\
    (pl_generation p <= spst_ObservedCRPGeneration (snap_status snapshot))%Z.

Definition selected_clusters (snapshot : PolicySnapshotObj) : list ClusterDecision :=
  filter (fun d => cd_Selected d = true) (spst_ClusterDecisions (snap_status snapshot)).

(** The binding of a cluster for the snapshot. *)
Definition binds (snapshot : PolicySnapshotObj) (b : BindingObj) (cluster : string) : Prop :=
  b_deleting b = false /\ b_target b = cluster /\ cluster <> EmptyString /\
  rbs_SchedulingPolicySnapshotName (b_spec b) = meta_name (snap_meta snapshot).

Lemma scheduledCondition_spec p snapshot :
  let c := buildScheduledCondition p snapshot in
  cond_type c = getPlacementScheduledConditionType p /\ cond_observed_generation c = pl_generation p /\
  (cond_status c = ConditionTrue <-> scheduled_now p snapshot).
Proof.
  unfold buildScheduledCondition, scheduled_now. cbn zeta. destruct (FindStatusCondition _ _) as [c|].
  2: { split; [done|]. split; [done|]. cbn. naive_solver. }
  destruct (_ || _ || _) eqn:Hb.
  - split; [done|]. split; [done|]. cbn. split; [done|]. intros (c' & [= <-] & Hs & Hg & Hp).
    rewrite !orb_true_iff, !Z.ltb_lt, bool_decide_eq_true in Hb. destruct Hb as [[?|?]|?]; [lia|lia|congruence].
  - rewrite !orb_false_iff, !Z.ltb_ge in Hb. split; [done|]. split; [done|]. cbn. naive_solver.
Qed.

Lemma bindingMap_fold (snapshot : PolicySnapshotObj) bs (acc : gmap string BindingObj) cluster :
  let m := fold_left (fun res b =>
    if b_deleting b then res
    else if decide (b_target b = EmptyString) then res
    else if decide (rbs_SchedulingPolicySnapshotName (b_spec b) = meta_name (snap_meta snapshot)) then
      <[b_target b := b]> res
    else res) bs acc in
  (forall b, m !! cluster = Some b -> (b ∈ bs /\ binds snapshot b cluster) \/ acc !! cluster = Some b) /\
  (is_Some (acc !! cluster) \/ (exists b, b ∈ bs /\ binds snapshot b cluster) -> is_Some (m !! cluster)).
Proof.
  revert acc. induction bs as [|b bs IH]; intros acc; cbn.
  { split; [auto|]. intros [?|(b & ?%elem_of_nil & _)]; done. }
  set (acc' := if b_deleting b then acc else _). destruct (IH acc') as [Hin Hsome].
  assert (binds snapshot b cluster /\ acc' !! cluster = Some b \/
    ~ binds snapshot b cluster /\ acc' !! cluster = acc !! cluster) as Hacc.
  { subst acc'. unfold binds. destruct (b_deleting b); [naive_solver|]. case_decide; [naive_solver|].
    case_decide; [|naive_solver]. destruct (decide (b_target b = cluster)) as [<-|Hne].
    - left. by rewrite lookup_insert_eq.
    - right. rewrite lookup_insert_ne by done. naive_solver. }
  split.
  - intros b' Hb'. destruct (Hin b' Hb') as [[? ?]|Hb2]; [left; split; [by right|done]|].
    destruct Hacc as [[Hb Hx]|[_ Hx]]; rewrite Hx in Hb2; [|by right]. injection Hb2 as <-. left. split; [by left|done].
  - intros Hor. apply Hsome. destruct Hacc as [[Hb ->]|[Hb ->]]; [by left; eexists|].
    destruct Hor as [?|(b' & [->|Hb']%elem_of_cons & Hbinds)]; [by left|done|right; eauto].
Qed.

(** Every selected cluster has its binding, and it is rolled out. *)
Definition all_rolled_out (p : PlacementObj) (snapshot : PolicySnapshotObj) (latest : option ResourceSnapshotObj)
    (bindings : gmap string BindingObj) : Prop :=
  forall d, d ∈ selected_clusters snapshot ->
    exists b, bindings !! cd_ClusterName d = Some b /\ rolled_out p latest b.

Lemma selectedStatuses_spec p snapshot latest w w1 bindings w' per counter :
  buildClusterToBindingMap p snapshot w = (w1, Ok bindings) ->
  buildSelectedPerClusterPlacementStatuses now mapOrder (selected_clusters snapshot) (expected p) p snapshot latest w =
    (w', Ok (per, counter)) ->
  (forall x, x ∈ counter -> x.1 ∈ expected p) /\ (all_true counter <-> all_rolled_out p snapshot latest bindings).
Proof.
  intros Hb (bindings' & w2 & Hb' & (indices & w3 & _ & [= _ Hf])%hbind_done)%hbind_done.
  rewrite Hb in Hb'. injection Hb' as <- <-.
  apply selected_fold in Hf as [Hin Hall]; [|by intros x ?%elem_of_nil]. split; [done|].
  rewrite Hall. unfold all_rolled_out. cbn. split; [by intros [_ ?]|]. split; [by intros x ?%elem_of_nil|done].
Qed.

Lemma rolled_out_same p q latest b : same_spec p q -> rolled_out p latest b <-> rolled_out q latest b.
Proof.
  intros Hs. destruct (same_spec_types _ _ Hs) as (_ & _ & _ & He). unfold rolled_out, pl_external.
  destruct Hs as [_ ->]. by rewrite He.
Qed.

(** No selected cluster. *)
Lemma none_incomplete p c :
  cond_type c = getPlacementScheduledConditionType p ->
  isRolloutCompleted (setPlacementCondition now c (upd_pl_conditions (fun _ => []) p)) = false.
Proof.
  intros Hc. unfold isRolloutCompleted. apply andb_false_iff. right. apply not_true_is_false. rewrite forallb_forall.
  intros Hall. specialize (Hall RolloutStartedCondition (proj1 (list_elem_of_In _ _) (expected_rollout _))).
  change (getPlacementConditionType _) with (getPlacementConditionType p) in Hall. rewrite find_set_other in Hall.
  2: { rewrite Hc. apply getPlacementConditionType_scheduled. }
  unfold getPlacementCondition, pl_conditions in Hall. cbn [upd_pl_conditions upd_pl_status set_pl_status pl_status set_pst_Conditions pst_Conditions] in Hall.
  rewrite (proj2 (FindStatusCondition_None [] _)) in Hall; [done|]. by intros x ?%elem_of_nil.
Qed.

Lemma setScheduledStatus_spec p ids c snapshot latest w w1 bindings w' p' scheduled :
  cond_type c = getPlacementScheduledConditionType p ->
  buildClusterToBindingMap p snapshot w = (w1, Ok bindings) ->
  setScheduledStatus now mapOrder p ids c snapshot latest w = (w', Ok (p', scheduled)) ->
  let placed := condition_true p (getPlacementScheduledConditionType p) = true /\
    selected_clusters snapshot <> [] /\ all_rolled_out p snapshot latest bindings in
  (isRolloutCompleted p' = true -> placed) /\ (pl_external p = false -> placed -> isRolloutCompleted p' = true).
Proof.
  intros Hc Hb. unfold setScheduledStatus, classifyClusterDecisions. cbn zeta.
  change (filter _ _) with (selected_clusters snapshot) at 1.
  intros (count & w2 & [= <- _] & ((per & counter) & w3 & Hsel & Hrest)%hbind_done)%hbind_done.
  change (filter _ _) with (selected_clusters snapshot) in Hsel at 1.
  destruct (selectedStatuses_spec _ _ _ _ _ _ _ _ _ Hb Hsel) as [Hin Hall]. clear Hsel.
  set (per' := per ++ _) in Hrest. set (q := upd_pl_status _ p) in Hrest. assert (same_spec q p) as Hq by done.
  change (filter (fun d => cd_Selected d = true) (spst_ClusterDecisions (snap_status snapshot)))
    with (selected_clusters snapshot) in Hrest.
  destruct (selected_clusters snapshot) as [|d ds] eqn:Hds.
  - apply hbind_done in Hrest as (none & w4 & _ & [= _ <- _]). rewrite none_incomplete by done. naive_solver.
  - assert (forall q' : PlacementObj, same_spec q' p -> pl_conditions q' = pl_conditions p ->
      isRolloutCompleted (setPlacementConditions now q' per' counter (expected p)) = true <->
      condition_true p (getPlacementScheduledConditionType p) = true /\ d :: ds <> [] /\
        all_rolled_out p snapshot latest bindings) as Hset.
    { intros q' Hs Hcs. destruct (same_spec_types _ _ Hs) as (Hg & Hsch & _ & He).
      rewrite <- He in Hin |- *. rewrite setPlacementConditions_spec by done. rewrite Hall, Hsch.
      unfold condition_true, getPlacementCondition. rewrite Hg, Hcs. naive_solver. }
    apply hbind_done in Hrest as ([q' unknown] & w4 & Hext & Hrest).
    change (pl_external q) with (pl_external p) in Hext. destruct (pl_external p).
    + apply external_spec in Hext. destruct unknown; injection Hrest as _ <- _; [by rewrite Hext|].
      destruct Hext as [Hs Hcs]. split; [|done]. by apply Hset.
    + injection Hext as _ <- <-. injection Hrest as _ <- _. split; [|intros _]; by apply Hset.
Qed.

(** What is set before the clusters are looked at. *)
Lemma scheduled_set p ids snapshot index :
  let q := upd_pl_status (set_pst_ObservedResourceIndex index)
    (setPlacementCondition now (buildScheduledCondition p snapshot) (upd_pl_status (set_pst_SelectedResources ids) p)) in
  same_spec q p /\ (condition_true q (getPlacementScheduledConditionType p) = true <-> scheduled_now p snapshot).
Proof.
  intros q. split; [done|]. destruct (scheduledCondition_spec p snapshot) as (Ht & Hg & Hs).
  change (condition_true q) with (condition_true (setPlacementCondition now (buildScheduledCondition p snapshot)
    (upd_pl_status (set_pst_SelectedResources ids) p))).
  rewrite <- Ht, true_set, Hg. change (pl_generation (upd_pl_status _ p)) with (pl_generation p).
  by rewrite Z.eqb_refl, andb_true_r, bool_decide_eq_true, Hs.
Qed.

Lemma setPlacementStatus_spec p ids snapshot latest w w1 bindings w' p' scheduled :
  buildClusterToBindingMap p snapshot w = (w1, Ok bindings) ->
  setPlacementStatus now mapOrder p ids snapshot latest w = (w', Ok (p', scheduled)) ->
  let placed := scheduled_now p snapshot /\ selected_clusters snapshot <> [] /\
    all_rolled_out p snapshot latest bindings in
  (isRolloutCompleted p' = true -> placed) /\ (pl_external p = false -> placed -> isRolloutCompleted p' = true).
Proof.
  intros Hb. unfold setPlacementStatus. cbn zeta.
  change (buildScheduledCondition (upd_pl_status _ p) snapshot) with (buildScheduledCondition p snapshot).
  set (index := match latest with Some _ => _ | None => _ end).
  destruct (scheduled_set p ids snapshot index) as [Hq Hsch]. revert Hq Hsch.
  destruct (scheduledCondition_spec p snapshot) as (Ht & Hg & Hs).
  set (q := upd_pl_status (set_pst_ObservedResourceIndex index) _). intros Hq Hsch.
  destruct (same_spec_types _ _ Hq) as (Hgen & Hst & _ & _). case_decide as Hu.
  - intros [= _ <- _]. assert (~ scheduled_now p snapshot) as Hn by (rewrite <- Hs, Hu; done).
    split; [|tauto]. intros [Htrue _]%andb_true_iff. destruct Hn. apply Hsch. by rewrite <- Hst.
  - intros Hrun. apply (setScheduledStatus_spec q ids _ snapshot latest w w1 bindings) in Hrun; [|done|done].
    rewrite Hst, Hsch in Hrun. done.
Qed.

Lemma bindingMap_run p snapshot bs w w1 :
  ListBindingsFromKey (pl_namespace p, pl_name p) true w = (w1, Ok bs) ->
  exists bindings, buildClusterToBindingMap p snapshot w = (w1, Ok bindings) /\
    forall cluster,
      (forall b, bindings !! cluster = Some b -> b ∈ bs /\ binds snapshot b cluster) /\
      ((exists b, b ∈ bs /\ binds snapshot b cluster) -> is_Some (bindings !! cluster)).
Proof.
  intros Hl. eexists. split; [unfold buildClusterToBindingMap, hbind, hmap_err; rewrite Hl; reflexivity|]. intros cluster.
  destruct (bindingMap_fold snapshot bs ∅ cluster) as [Hin Hsome]. split; [|auto].
  intros b Hb. destruct (Hin b Hb) as [?|He]; [done|]. by rewrite lookup_empty in He.
Qed.

Lemma completed_rolled_out p ids snapshot latest bs w w1 w' p' scheduled :
  ListBindingsFromKey (pl_namespace p, pl_name p) true w = (w1, Ok bs) ->
  setPlacementStatus now mapOrder p ids snapshot latest w = (w', Ok (p', scheduled)) ->
  isRolloutCompleted p' = true ->
  scheduled_now p snapshot /\ selected_clusters snapshot <> [] /\
  forall d, d ∈ selected_clusters snapshot ->
    exists b, b ∈ bs /\ binds snapshot b (cd_ClusterName d) /\ rolled_out p latest b.
Proof.
  intros Hl Hrun. destruct (bindingMap_run p snapshot bs w w1 Hl) as (bindings & Hb & Hmap).
  destruct (setPlacementStatus_spec _ _ _ _ _ _ _ _ _ _ Hb Hrun) as [Hyes _].
  intros (Hs & Hne & Hall)%Hyes. split; [done|]. split; [done|]. intros d Hd.
  destruct (Hall d Hd) as (b & Hbd & Hr). exists b. destruct (proj1 (Hmap _) b Hbd). done.
Qed.

(** C13: A placement is reported as completed only if scheduling has been
    done for its current spec, and every selected cluster has a binding of the
    policy snapshot, to the latest resource snapshot unless the rollout is
    External, all of whose expected conditions are True at the generation of
    the binding.  If every binding of the selected clusters is so, and the
    rollout is not External, the placement is reported as completed. *)
Theorem completed_iff_rolled_out p ids snapshot latest bs w w1 w' p' scheduled :
  ListBindingsFromKey (pl_namespace p, pl_name p) true w = (w1, Ok bs) ->
  setPlacementStatus now mapOrder p ids snapshot latest w = (w', Ok (p', scheduled)) ->
  (isRolloutCompleted p' = true ->
    scheduled_now p snapshot /\ selected_clusters snapshot <> [] /\
    forall d, d ∈ selected_clusters snapshot ->
      exists b, b ∈ bs /\ binds snapshot b (cd_ClusterName d) /\ rolled_out p latest b) /\
  (pl_external p = false -> scheduled_now p snapshot -> selected_clusters snapshot <> [] ->
    (forall d, d ∈ selected_clusters snapshot ->
      (exists b, b ∈ bs /\ binds snapshot b (cd_ClusterName d)) /\
      forall b, b ∈ bs -> binds snapshot b (cd_ClusterName d) -> rolled_out p latest b) ->
    isRolloutCompleted p' = true).
Proof.
  intros Hl Hrun. split; [by eapply completed_rolled_out|]. intros Hext Hs Hne Hall.
  destruct (bindingMap_run p snapshot bs w w1 Hl) as (bindings & Hb & Hmap).
  apply (setPlacementStatus_spec _ _ _ _ _ _ _ _ _ _ Hb Hrun); [done|]. split; [done|]. split; [done|]. intros d Hd.
  destruct (Hall d Hd) as [Hsome Hr]. destruct (proj2 (Hmap _) Hsome) as [b Hbd]. exists b. split; [done|].
  destruct (proj1 (Hmap _) b Hbd). by apply Hr.
Qed.
End Reported.
