(* ===== verification/PlacementProofs.v ===== *)
(** * A settled placement

    The parts of the placement controller together: when [handleUpdate] leaves a
    placement alone, with no time to look at it again, the hub holds its policy
    and the resources it selects, and every selected cluster has them. *)

From stdpp Require Import prelude gmap strings.
From S2P Require Import Prelude K8s Api Sample Utils FrameworkUtils Hub Overrider WorkApi PlacementApi PolicySnapshots ResourceSnapshots PlacementStatus Placement SnapshotStore PolicySnapshotsProofs ResourceGroups ResourceSnapshotsProofs PlacementStatusProofs.

Local Open Scope string_scope.
Local Open Scope list_scope.

(** ** What a computation leaves alone *)

Section Leaves.
Context {W V : Type}.
Variable view : W -> V.

Definition leaves {A} (m : hub W A) : Prop := forall w, view (m w).1 = view w.

Lemma leaves_ret {A} (a : A) : leaves (hret a).
Proof. done. Qed.

Lemma leaves_lift {A} (m : outcome A) : leaves (hlift m).
Proof. done. Qed.

Lemma leaves_bind {A B} (f : A -> hub W B) m : leaves m -> (forall a, leaves (f a)) -> leaves (hbind f m).
Proof.
  intros Hm Hf w. unfold hbind. specialize (Hm w). destruct (m w) as [w' [a|e|p]]; cbn in *; [|done|done].
  by rewrite Hf.
Qed.

Lemma leaves_map_err {A} f (m : hub W A) : leaves m -> leaves (hmap_err f m).
Proof. intros Hm w. unfold hmap_err. specialize (Hm w). by destruct (m w) as [w' [a|e|p]]. Qed.

Lemma leaves_delete m : leaves m -> leaves (deleteIgnoringNotFound m).
Proof.
  intros Hm w. unfold deleteIgnoringNotFound. specialize (Hm w). destruct (m w) as [w' [a|e|p]]; cbn in *; [done| |done].
  by destruct (has_reason NotFound e).
Qed.

Lemma leaves_hfold {A S} (f : S -> A -> hub W S) s xs : (forall s x, leaves (f s x)) -> leaves (hfold f s xs).
Proof. intros Hf. revert s. induction xs as [|x xs IH]; intros s; [apply leaves_ret|]. by apply leaves_bind. Qed.

Lemma leaves_run {A} (m : hub W A) w w' r : leaves m -> m w = (w', r) -> view w' = view w.
Proof. intros Hm Hr. specialize (Hm w). by rewrite Hr in Hm. Qed.
End Leaves.

(** Follows the structure of a computation down to its calls. *)
Ltac leaves call :=
  repeat first
    [ call | apply leaves_ret | apply leaves_lift | apply leaves_map_err | apply leaves_delete
    | apply leaves_hfold; intros ? ? | apply leaves_bind; [|intros ?]
    | match goal with |- leaves _ (match ?x with _ => _ end) => destruct x end ].

Section Frames.
Context {W V : Type} {PS : PolicySnapshotReader W} {SR : SnapshotReader W} {SC : SnapshotClient W}.
Context {H : Hasher} {T : TimeLib}.
Variable view : W -> V.

(** The calls on policy snapshots leave [view] alone. *)
Record leaves_policies : Prop := {
  leaves_list_policies ns sel : leaves view (hub_list_policy_snapshots ns sel);
  leaves_create_policy s : leaves view (hub_create_policy_snapshot s);
  leaves_update_policy s : leaves view (hub_update_policy_snapshot s);
  leaves_delete_policy s : leaves view (hub_delete_policy_snapshot s);
}.

Record leaves_resources : Prop := {
  leaves_list_resources ns sel : leaves view (hub_list_resource_snapshots ns sel);
  leaves_create_resources s : leaves view (hub_create_resource_snapshot s);
  leaves_update_resources s : leaves view (hub_update_resource_snapshot s);
  leaves_delete_resources s : leaves view (hub_delete_resource_snapshot s);
}.

Ltac policies HP := leaves ltac:(first [apply (leaves_list_policies HP) | apply (leaves_create_policy HP)
  | apply (leaves_update_policy HP) | apply (leaves_delete_policy HP)]).

Lemma getOrCreatePolicy_leaves p limit : leaves_policies -> leaves view (getOrCreateSchedulingPolicySnapshot p limit).
Proof.
  intros HP. unfold getOrCreateSchedulingPolicySnapshot, lookupLatestSchedulingPolicySnapshot, listLatestPolicySnapshots,
    recoverLatestPolicySnapshot, ensureLatestPolicySnapshot, deactivatePolicySnapshot, createPolicySnapshot,
    deleteRedundantSchedulingPolicySnapshots, listSortedSchedulingPolicySnapshots, ListPolicySnapshots.
  assert (forall n items, leaves view (deleteFirstPolicySnapshots n items)) as Hdel.
  { intros n. induction n as [|n IH]; intros [|s items]; cbn [deleteFirstPolicySnapshots]; policies HP; auto. }
  leaves ltac:(first [apply (leaves_list_policies HP) | apply (leaves_create_policy HP)
    | apply (leaves_update_policy HP) | apply (leaves_delete_policy HP) | apply Hdel]).
Qed.

Lemma getOrCreateResource_leaves config sizeLimit now p envelopes rs limit :
  leaves_resources -> leaves view (GetOrCreateResourceSnapshot config sizeLimit now p envelopes rs limit).
Proof.
  intros HR.
  assert (forall count last counter items, leaves view (deleteOldGroups count last counter items)) as Hdel.
  { intros count last counter items. revert last counter. induction items as [|s items IH]; intros last counter;
      cbn [deleteOldGroups]; leaves ltac:(first [apply IH | apply (leaves_delete_resources HR)]). }
  assert (forall s, leaves view (createResourceSnapshot p s)) as Hcreate.
  { intros s. unfold createResourceSnapshot. leaves ltac:(apply (leaves_create_resources HR)). }
  assert (forall hash index count i pieces latest, leaves view (createSnapshots p envelopes hash index count i pieces latest)) as Hall.
  { intros hash index count i pieces. revert i. induction pieces as [|piece pieces IH]; intros i latest;
      cbn [createSnapshots]; leaves ltac:(first [apply IH | apply Hcreate]). }
  unfold GetOrCreateResourceSnapshot, lookupLatestResourceSnapshot, FetchLatestMasterResourceSnapshot, resumeGroup,
    replaceGroup, createGroup, ensureLatestResourceSnapshot, shouldCreateNewResourceSnapshotNow, detectionTime,
    deleteRedundantResourceSnapshots, listSortedResourceSnapshots, ListAllResourceSnapshots,
    ListAllResourceSnapshotWithAnIndex.
  leaves ltac:(first [apply Hdel | apply Hcreate | apply Hall | apply (leaves_list_resources HR)
    | apply (leaves_update_resources HR)]).
Qed.
End Frames.

(** ** The whole round *)

Lemma hmap_err_done {W A} f (m : hub W A) w w' a : hmap_err f m w = (w', Ok a) -> m w = (w', Ok a).
Proof. unfold hmap_err. by destruct (m w) as [w1 [x|e|p]]. Qed.

Section Settled.
Context {K : K8sLib} {L : K8sLaws K} {W : Type} {C : HubClient W} {P : PlacementReader W} {PS : PolicySnapshotReader W}.
Context {SR : SnapshotReader W} {SC : SnapshotClient W} {PC : PlacementClient W} {RS : ResourceSelectorResolver W}.
Context {H : Hasher} {T : TimeLib} {M : ManifestLib}.
Variable config : option ResourceSnapshotConfig.
Variables (sizeLimit now : Z).
Variable mapOrder : forall A : Type, list (string * A) -> list (string * A).

(** What the calls that are not on snapshots leave alone. *)
Record leaves_rest {V} (view : W -> V) : Prop := {
  leaves_select p : leaves view (selectResources p);
  leaves_list_bindings ns name : leaves view (hub_list_bindings ns name);
  leaves_lists ns sel : leaves view (hub_list_resource_snapshots ns sel);
  leaves_get_resource ns name : leaves view (hub_get_resource_snapshot ns name);
  leaves_update_status p : leaves view (hub_update_placement_status p);
  leaves_status_copy c f : leaves view (hub_create_or_update_status_copy c f);
  leaves_event p reason note w : view (hub_record_event p reason note w) = view w;
}.

Section Rest.
Context {V : Type}.
Variable view : W -> V.
Hypothesis rest : leaves_rest view.

Lemma emit_leaves p reason note : leaves view (emit p reason note).
Proof. intros w. apply (leaves_event _ rest). Qed.

Lemma nextRound_leaves old p after : leaves view (nextRound old p after).
Proof. unfold nextRound, emitConditionEvents. leaves ltac:(apply emit_leaves). Qed.

Lemma syncStatusCopy_leaves p : leaves view (syncStatusCopy now p).
Proof.
  unfold syncStatusCopy. destruct (isNamespaceAccessibleCRP p); [|apply leaves_ret].
  assert (forall c e, leaves view (let* q := setConditionAndUpdateStatus now p c in
    match e with Some e => hlift (Err e) | None => hret q end)) as Hset.
  { intros c e. unfold setConditionAndUpdateStatus. leaves ltac:(apply (leaves_update_status _ rest)). }
  intros w. unfold handleNamespaceAccessibleCRP. cbn zeta.
  assert (leaves view (syncClusterResourcePlacementStatus now p (extractNamespaceFromResourceSelectors p))) as Hsync.
  { unfold syncClusterResourcePlacementStatus. leaves ltac:(apply (leaves_status_copy _ rest)). }
  specialize (Hsync w). destruct (syncClusterResourcePlacementStatus _ _ _ w) as [w1 [[]|e|m]]; cbn in Hsync; [| |done].
  - by rewrite (Hset _ None).
  - by rewrite (Hset _ (Some e)).
Qed.

Lemma collect_leaves key index : leaves view (CollectResourceIdentifiersFromResourceSnapshot mapOrder key index).
Proof.
  unfold CollectResourceIdentifiersFromResourceSnapshot, ListAllResourceSnapshotWithAnIndex.
  leaves ltac:(apply (leaves_lists _ rest)).
Qed.

Lemma setPlacementStatus_leaves p ids snapshot latest : leaves view (setPlacementStatus now mapOrder p ids snapshot latest).
Proof.
  assert (forall q acc x, leaves view (findResourceSnapshotIndex q acc x)) as Hfind.
  { intros q acc [cluster b]. unfold findResourceSnapshotIndex. case_decide; [apply leaves_ret|]. intros w.
    pose proof (leaves_get_resource _ rest (pl_namespace q) (rbs_ResourceSnapshotName (b_spec b)) w) as Hg.
    destruct (hub_get_resource_snapshot _ _ w) as [w1 [s|e|m]]; cbn in *; [done| |done].
    by destruct (has_reason NotFound e). }
  unfold setPlacementStatus, setScheduledStatus, buildSelectedPerClusterPlacementStatuses, buildClusterToBindingMap,
    ListBindingsFromKey, findResourceSnapshotIndexForBindings,
    determineRolloutStateForPlacementWithExternalRolloutStrategy.
  leaves ltac:(first [apply Hfind | apply (leaves_list_bindings _ rest) | apply collect_leaves]).
Qed.
End Rest.

(** *** What is reported is read back *)

(** [Status().Update] gives back the status it was sent. *)
Definition status_kept : Prop := forall p w w' q, hub_update_placement_status p w = (w', Ok q) ->
  pl_spec q = pl_spec p /\ pl_status q = pl_status p /\ pl_generation q = pl_generation p /\
  pl_namespace q = pl_namespace p.

Lemma isRolloutCompleted_ext p q :
  pl_spec q = pl_spec p -> pl_status q = pl_status p -> pl_generation q = pl_generation p ->
  pl_namespace q = pl_namespace p -> isRolloutCompleted q = isRolloutCompleted p.
Proof.
  intros Hspec Hst Hg Hns. unfold isRolloutCompleted, getPlacementCondition, pl_conditions,
    getPlacementScheduledConditionType, getPlacementConditionType, isClusterScopedPlacement,
    determineExpectedPlacementAndResourcePlacementStatusCondType.
  by rewrite Hspec, Hst, Hg, Hns.
Qed.

(** A condition of another type changes nothing, and a Scheduled condition that is
    False ends it. *)
Lemma completed_set_condition p c :
  isClusterScopedPlacement p = true ->
  cond_type c = ClusterResourcePlacementStatusSyncedConditionType \/
  (cond_type c = ClusterResourcePlacementScheduledConditionType /\ cond_status c = ConditionFalse) ->
  isRolloutCompleted (setPlacementCondition now c p) = true -> isRolloutCompleted p = true.
Proof.
  intros Hcl Hc. unfold isRolloutCompleted. change (getPlacementScheduledConditionType (setPlacementCondition now c p))
    with (getPlacementScheduledConditionType p).
  change (pl_generation (setPlacementCondition now c p)) with (pl_generation p).
  change (determineExpectedPlacementAndResourcePlacementStatusCondType (setPlacementCondition now c p))
    with (determineExpectedPlacementAndResourcePlacementStatusCondType p).
  destruct Hc as [Hc|[Hc Hf]].
  - rewrite (find_set_other now p c) by (rewrite Hc; unfold getPlacementScheduledConditionType; by rewrite Hcl).
    intros [-> Hall]%andb_true_iff. cbn. rewrite forallb_forall in Hall |- *. intros i Hi. specialize (Hall i Hi).
    change (getPlacementConditionType (setPlacementCondition now c p)) with (getPlacementConditionType p) in Hall.
    rewrite (find_set_other now p c) in Hall; [done|]. rewrite Hc. unfold getPlacementConditionType. rewrite Hcl.
    by destruct i.
  - intros [Ht _]%andb_true_iff. pose proof (true_set now p c) as Hs. unfold condition_true in Hs.
    rewrite Hc, Hf in Hs. unfold getPlacementScheduledConditionType in Ht. rewrite Hcl in Ht.
    change (pl_generation (setPlacementCondition now c p)) with (pl_generation p) in Hs. by rewrite Hs in Ht.
Qed.

Lemma syncStatusCopy_completed p w w' q :
  status_kept -> syncStatusCopy now p w = (w', Ok q) -> isRolloutCompleted q = true -> isRolloutCompleted p = true.
Proof.
  intros Hkept. unfold syncStatusCopy. destruct (isNamespaceAccessibleCRP p) eqn:Hn; [|by intros [= _ <-]].
  apply andb_true_iff in Hn as [Hcl _]. unfold handleNamespaceAccessibleCRP. cbn zeta.
  destruct (syncClusterResourcePlacementStatus _ _ _ w) as [w1 [[]|e|m]]; [| |done].
  - intros (q' & w2 & Hu%hmap_err_done & [= _ <-])%hbind_done.
    destruct (Hkept _ _ _ _ Hu) as (H1 & H2 & H3 & H4).
    rewrite (isRolloutCompleted_ext _ _ H1 H2 H3 H4). apply completed_set_condition; [done|].
    case_decide; [right|left]; done.
  - intros (q' & w2 & _ & Hr)%hbind_done. done.
Qed.

(** No time to look again: the rollout is completed, and nothing is waited for. *)
Lemma nextRound_zero old p after w w' :
  nextRound old p after w = (w', Ok 0%Z) -> isRolloutCompleted p = true /\ (after <= 0)%Z.
Proof.
  intros ([] & w1 & _ & Hr)%hbind_done. destruct (isRolloutCompleted p).
  - split; [done|]. apply hbind_done in Hr as ([] & w2 & _ & Hr). destruct (0 <? after)%Z eqn:Ha.
    + apply Z.ltb_lt in Ha. injection Hr as _ ->. lia.
    + by apply Z.ltb_ge in Ha.
  - destruct (0 <? after)%Z eqn:Ha; [apply Z.ltb_lt in Ha; injection Hr as _ ->; lia|done].
Qed.

(** The bindings were listed. *)
Lemma completed_listed p ids snapshot latest w w' p' scheduled :
  setPlacementStatus now mapOrder p ids snapshot latest w = (w', Ok (p', scheduled)) -> isRolloutCompleted p' = true ->
  exists w1 bs, ListBindingsFromKey (pl_namespace p, pl_name p) true w = (w1, Ok bs).
Proof.
  unfold setPlacementStatus. cbn zeta.
  change (buildScheduledCondition (upd_pl_status _ p) snapshot) with (buildScheduledCondition p snapshot).
  set (index := match latest with Some _ => _ | None => _ end).
  destruct (scheduled_set now p ids snapshot index) as [Hq Hsch]. revert Hq Hsch.
  set (q := upd_pl_status (set_pst_ObservedResourceIndex index) _). intros Hq Hsch. case_decide as Hu.
  - intros [= _ <- _] [Ht _]%andb_true_iff. exfalso. apply Hsch in Ht.
    apply (scheduledCondition_spec p snapshot) in Ht. congruence.
  - intros Hrun _. unfold setScheduledStatus in Hrun.
    destruct (classifyClusterDecisions _) as [sel unsel].
    apply hbind_done in Hrun as (count & w2 & [= <- _] & ((per & counter) & w3 & Hsel & _)%hbind_done).
    apply hbind_done in Hsel as (bindings & w4 & Hb & _). apply hbind_done in Hb as (bs & w5 & Hl%hmap_err_done & _).
    eauto.
Qed.

(** *** The stores *)

Variables (policies : W -> contents SchedulingPolicySnapshotSpec) (resources : W -> contents (list string)).
Variable p : PlacementObj.

Hypothesis policy_laws : StoreLaws snap_meta snap_spec (pl_namespace p) (pl_name p) policies hub_list_policy_snapshots
  hub_create_policy_snapshot hub_update_policy_snapshot hub_delete_policy_snapshot.
Hypothesis resource_laws : StoreLaws rsnap_meta rsnap_SelectedResources (pl_namespace p) (pl_name p) resources
  hub_list_resource_snapshots hub_create_resource_snapshot hub_update_resource_snapshot hub_delete_resource_snapshot.
(** Calls on one kind of object leave the others alone. *)
Hypothesis separate : leaves_policies resources /\ leaves_resources policies /\ leaves_rest policies /\ leaves_rest resources.
Hypothesis status_returned : status_kept.
Hypothesis policy_hash : forall a b h, HashOfPolicy a = Ok h -> HashOfPolicy b = Ok h -> a = b.
Hypothesis resource_hash : forall a b h, HashOfResources a = Ok h -> HashOfResources b = Ok h -> a = b.

(** The latest policy snapshot is that of the placement. *)
Definition policy_current (w : W) (ps : PolicySnapshotObj) : Prop :=
  the_latest (policies w) (key_of snap_meta ps) (image_of snap_meta snap_spec ps) /\
  withoutNumber (sps_Policy (snap_spec ps)) = withoutNumber (pl_policy p) /\ describes p ps.

(** The latest resource snapshots hold the resources [rs]. *)
Definition resources_current (w : W) (s : ResourceSnapshotObj) (rs : list string) : Prop :=
  the_latest (resources w) (key_of rsnap_meta s) (image_of rsnap_meta rsnap_SelectedResources s) /\
  exists i subs, key_of rsnap_meta s = master_key (pl_namespace p) (pl_name p) i /\
    (forall j, resources w !! sub_key (pl_namespace p) (pl_name p) i j = subs !! j) /\
    rsnap_SelectedResources s ++ concat (st_content <$> subs) = rs.

Lemma policy_step limit w w' ps :
  sound_numbers p -> single_latest (policies w) -> hashed (policies w) ->
  getOrCreateSchedulingPolicySnapshot p limit w = (w', Ok ps) ->
  policy_current w' ps /\ resources w' = resources w.
Proof.
  intros Hn Hsl Hha Hrun. split; [|eapply leaves_run; [|exact Hrun]; apply getOrCreatePolicy_leaves, separate].
  pose proof (getOrCreatePolicy_spec p policies policy_laws limit (size (policies w)) Hn w ltac:(by split)) as Hspec.
  rewrite Hrun in Hspec. cbn in Hspec. destruct Hspec as [(Hlat & Hha' & Hd) [_ Hhash]].
  split; [done|]. split; [|done]. pose proof (Hha' _ _ (proj1 Hlat)) as Hh. cbn in Hh. by eapply policy_hash.
Qed.

Lemma resource_step n envelopes rs ids ids' limit w w' after latest :
  pl_external p = false -> (0 <= n < 2 ^ 63)%Z -> (Z.of_nat (length rs) < 2 ^ 63)%Z ->
  sane (pl_namespace p) (pl_name p) sizeLimit n (resources w) -> (after <= 0)%Z ->
  handleResourceSnapshotByStrategy config sizeLimit now mapOrder p envelopes rs ids limit w =
    (w', Ok (after, latest, ids')) ->
  exists s, latest = Some s /\ resources_current w' s rs /\ policies w' = policies w.
Proof.
  intros Hext Hn Hrs Hsane Ha. unfold handleResourceSnapshotByStrategy. rewrite Hext.
  intros ([after' latest'] & w1 & Hrun & Hr)%hbind_done. destruct (0 <? after')%Z eqn:Ha'.
  { exfalso. apply Z.ltb_lt in Ha'. destruct latest' as [l|]; [|done].
    apply hbind_done in Hr as (x & w2 & _ & (y & w3 & _ & [= _ Hafter _ _])%hbind_done). lia. }
  injection Hr as <- <- <- <-.
  pose proof (getOrCreateResource_spec config sizeLimit now p resources resource_laws resource_hash n n rs envelopes limit
    Hn Hrs w (conj Hsane (grouped_bounded _ _ _ _ _ (proj1 Hn) (sane_grouped _ _ _ _ _ Hsane)))) as Hspec.
  rewrite Hrun in Hspec. cbn in Hspec. destruct Hspec as [_ [Hw|(i & s & Hl & Hlead & Hlat & Hc)]]; [cbn in Hw; lia|]. cbn in Hl. subst.
  exists s. split; [done|]. split; [|eapply leaves_run; [|exact Hrun]; apply getOrCreateResource_leaves, separate].
  destruct (complete_resources _ _ _ _ _ _ Hc) as (v & subs & Hv & Hsubs & Hcontent).
  split; [by eapply leads_latest|]. exists i, subs. pose proof Hlead as (_ & _ & (Hk & _) & Hmk & _).
  split; [done|]. split; [done|]. rewrite Hmk, Hv in Hk. by injection Hk as ->.
Qed.

(** The rest of the round leaves the snapshots alone. *)
Lemma finish_step {V} (view : W -> V) old ids ps latest after w p1 scheduled w1 p2 w2 p3 w3 w4 r :
  leaves_rest view ->
  setPlacementStatus now mapOrder p ids ps latest w = (w1, Ok (p1, scheduled)) ->
  hub_update_placement_status p1 w1 = (w2, Ok p2) -> syncStatusCopy now p2 w2 = (w3, Ok p3) ->
  nextRound old p3 after w3 = (w4, r) -> view w4 = view w.
Proof.
  intros Hrest H1 H2 H3 H4.
  rewrite (leaves_run view _ _ _ _ (nextRound_leaves view Hrest _ _ _) H4).
  rewrite (leaves_run view _ _ _ _ (syncStatusCopy_leaves view Hrest _) H3).
  rewrite (leaves_run view _ _ _ _ (leaves_update_status _ Hrest _) H2).
  by rewrite (leaves_run view _ _ _ _ (setPlacementStatus_leaves view Hrest _ _ _ _) H1).
Qed.

(** Every selected cluster has the resources of the snapshot [s]. *)
Definition clusters_current (ps : PolicySnapshotObj) (s : ResourceSnapshotObj) (bs : list BindingObj) : Prop :=
  scheduled_now p ps /\ selected_clusters ps <> [] /\
  forall d, d ∈ selected_clusters ps -> exists b, b ∈ bs /\ binds ps b (cd_ClusterName d) /\
    rbs_ResourceSnapshotName (b_spec b) = meta_name (rsnap_meta s) /\
    binding_true b (determineExpectedPlacementAndResourcePlacementStatusCondType p).

Lemma updatePlacement_settles old n envelopes rs ids w w' :
  pl_external p = false -> sound_numbers p -> single_latest (policies w) -> hashed (policies w) ->
  (0 <= n < 2 ^ 63)%Z -> (Z.of_nat (length rs) < 2 ^ 63)%Z ->
  sane (pl_namespace p) (pl_name p) sizeLimit n (resources w) ->
  updatePlacement config sizeLimit now mapOrder old p envelopes rs ids w = (w', Ok 0%Z) ->
  exists ps s bs w1 w2, policy_current w' ps /\ resources_current w' s rs /\
    ListBindingsFromKey (pl_namespace p, pl_name p) true w1 = (w2, Ok bs) /\ clusters_current ps s bs.
Proof.
  intros Hext Hnum Hsl Hha Hn Hrs Hsane Hrun.
  destruct separate as (_ & Hlr & Hrp & Hrr).
  apply hbind_done in Hrun as (ps & w1 & Hps & Hrun).
  destruct (policy_step _ _ _ _ Hnum Hsl Hha Hps) as [Hpol Hres].
  apply hbind_done in Hrun as ([[after latest] ids'] & w2 & Hr & Hrun).
  apply hbind_done in Hrun as ([p1 scheduled] & w3 & Hst & Hrun).
  apply hbind_done in Hrun as (p2 & w4 & Hup & (p3 & w5 & Hsync & Hnext)%hbind_done).
  destruct (nextRound_zero _ _ _ _ _ Hnext) as [Hdone Ha].
  rewrite <- Hres in Hsane. destruct (resource_step n _ _ _ _ _ _ _ _ _ Hext Hn Hrs Hsane Ha Hr) as (s & -> & Hs & Hp2).
  assert (isRolloutCompleted p1 = true) as Hc1.
  { destruct (status_returned _ _ _ _ Hup) as (E1 & E2 & E3 & E4). rewrite <- (isRolloutCompleted_ext _ _ E1 E2 E3 E4).
    by eapply syncStatusCopy_completed. }
  destruct (completed_listed _ _ _ _ _ _ _ _ Hst Hc1) as (w6 & bs & Hbs).
  exists ps, s, bs, w2, w6. split; [|split; [|split; [done|]]].
  - unfold policy_current in *. erewrite (finish_step policies); [|done..]. by rewrite Hp2.
  - unfold resources_current in *. erewrite (finish_step resources); done.
  - destruct (completed_rolled_out _ _ _ _ _ _ _ _ _ _ _ _ Hbs Hst Hc1) as (Hsch & Hne & Hall).
    split; [done|]. split; [done|]. intros d Hd. destruct (Hall d Hd) as (b & Hb & Hbinds & Htrue & Hname).
    exists b. split; [done|]. split; [done|]. split; [|done]. by destruct (Hname Hext) as (s' & [= <-] & ?).
Qed.

End Settled.
