(* ===== verification/ResourceSelectionProofs.v ===== *)
(** * What is selected

    The resources of a placement are distinct, may be placed, and come in an
    order that depends on them alone; what the API server and other controllers
    write into an object does not change its content in a snapshot. *)

From Stdlib Require Import Ascii.
From stdpp Require Import prelude gmap strings sorting.
From S2P Require Import Prelude K8s Api Sample Utils FrameworkUtils Hub Overrider Eligibility WorkApi ApplierApi ApplierDiff PlacementApi PolicySnapshots ResourceSnapshots PlacementStatus Placement SnapshotStore ResourceGroups ResourceSelection.

Local Open Scope string_scope.
Local Open Scope list_scope.

(** ** Strings *)

Lemma str_cut_inj c s1 s2 r1 r2 :
  str_contains c s1 = false -> str_contains c s2 = false -> s1 +:+ String c r1 = s2 +:+ String c r2 -> s1 = s2 /\ r1 = r2.
Proof.
  intros H1 H2 Heq. pose proof (f_equal (str_split c) Heq) as Hs. rewrite !str_split_app in Hs by done.
  injection Hs as -> _. split; [done|]. apply string_app_inj_l in Heq. by injection Heq.
Qed.

Section Proofs.
Context {O : ObjectLib} {L : ObjectLaws O} {CL : ContentLib O}.

(** ** The order *)

Definition rank (o : Obj) : nat := default (length resourceSortOrder) (sortIndex (GetKind o)).

Definition groupLabel (o : Obj) : string :=
  (if sortIndex (GetKind o) is Some _ then gvString else gvkString) (ObjectKind o).

Lemma sortIndex_Some k i : sortIndex k = Some i -> resourceSortOrder !! i = Some k /\ i < length resourceSortOrder.
Proof.
  unfold sortIndex. rewrite fmap_Some. intros ([j x] & Hf & ->). apply list_find_Some in Hf as (Hl & -> & _).
  split; [done|]. by eapply lookup_lt_Some.
Qed.

Lemma resourceLess_lex a b :
  resourceLess a b =
    if decide (rank a = rank b) then
      if decide (groupLabel a = groupLabel b) then str_lt (namespacedName a) (namespacedName b)
      else str_lt (groupLabel a) (groupLabel b)
    else (rank a <? rank b)%nat.
Proof.
  unfold resourceLess, rank, groupLabel, lessByGVK.
  destruct (sortIndex (GetKind a)) as [i|] eqn:Ha, (sortIndex (GetKind b)) as [j|] eqn:Hb;
    cbn [default from_option id].
  - done.
  - apply sortIndex_Some in Ha as [_ Hi]. rewrite decide_False by lia. symmetry. apply Nat.ltb_lt. lia.
  - apply sortIndex_Some in Hb as [_ Hj]. rewrite decide_False by lia. symmetry. apply Nat.ltb_ge. lia.
  - done.
Qed.

#[global] Instance resourceLess_GoLess : GoLess resourceLess.
Proof.
  split.
  - intros a b. rewrite !resourceLess_lex.
    repeat case_decide; try congruence; try apply str_lt_asym. rewrite Nat.ltb_lt, Nat.ltb_ge. lia.
  - intros a b c. rewrite !resourceLess_lex.
    destruct (decide (rank a = rank b)) as [Eab|Eab], (decide (rank b = rank c)) as [Ebc|Ebc],
      (decide (rank a = rank c)) as [Eac|Eac]; try congruence; rewrite ?Nat.ltb_ge; try lia.
    destruct (decide (groupLabel a = groupLabel b)) as [Lab|Lab], (decide (groupLabel b = groupLabel c)) as [Lbc|Lbc],
      (decide (groupLabel a = groupLabel c)) as [Lac|Lac]; try congruence.
    + apply str_lt_negtrans.
    + intros Hab Hbc. rewrite <- Lac in Hbc. by destruct Lab; apply str_lt_false_eq.
    + apply str_lt_negtrans.
Qed.

(** Names, groups and versions as Kubernetes has them. *)
Definition well_named (o : Obj) : Prop :=
  str_contains slash (GetNamespace o) = false /\ str_contains slash (gvk_Group (ObjectKind o)) = false /\
  str_contains slash (gvk_Version (ObjectKind o)) = false /\ str_contains ","%char (gvk_Version (ObjectKind o)) = false.

Lemma gvString_inj a b :
  str_contains slash (gvk_Group a) = false -> str_contains slash (gvk_Version a) = false ->
  str_contains slash (gvk_Group b) = false -> str_contains slash (gvk_Version b) = false ->
  gvString a = gvString b -> gvk_Group a = gvk_Group b /\ gvk_Version a = gvk_Version b.
Proof.
  intros Ha Hva Hb Hvb. unfold gvString.
  assert (forall s t, str_contains slash (s +:+ String slash t) = true) as Hin.
  { intros s t. rewrite str_contains_app. cbn. by rewrite orb_true_r. }
  repeat case_decide; [intros Heq; by split; [congruence|]| | |by apply str_cut_inj].
  - intros Heq. by rewrite Heq, Hin in Hva.
  - intros Heq. by rewrite <- Heq, Hin in Hvb.
Qed.

Lemma gvkString_inj a b :
  str_contains slash (gvk_Group a) = false -> str_contains ","%char (gvk_Version a) = false ->
  str_contains slash (gvk_Group b) = false -> str_contains ","%char (gvk_Version b) = false ->
  gvkString a = gvkString b -> a = b.
Proof.
  intros Ha Hva Hb Hvb [Hg Hr]%str_cut_inj; [|done..].
  apply str_cut_inj in Hr as [Hv Hk]; [|done..]. injection Hk as Hk. destruct a, b. cbn in *. congruence.
Qed.

(** Objects that the order does not tell apart are the same. *)
Lemma resourceLess_anti a b :
  well_named a -> well_named b -> resourceLess a b = false -> resourceLess b a = false ->
  identifierOfObject a = identifierOfObject b.
Proof.
  intros (Na & Ga & Va & Ca) (Nb & Gb & Vb & Cb). rewrite !resourceLess_lex.
  destruct (decide (rank a = rank b)) as [Hr|Hr].
  2: { rewrite (decide_False (P := rank b = rank a)) by congruence. rewrite !Nat.ltb_ge. lia. }
  rewrite (decide_True (P := rank b = rank a)) by congruence. destruct (decide (groupLabel a = groupLabel b)) as [Hl|Hl].
  2: { rewrite (decide_False (P := groupLabel b = groupLabel a)) by congruence. intros H1 H2. by destruct Hl; apply str_lt_false_eq. }
  rewrite (decide_True (P := groupLabel b = groupLabel a)) by congruence. intros H1 H2. pose proof (str_lt_false_eq _ _ H1 H2) as Hn.
  apply str_cut_inj in Hn as [Hns Hname]; [|done..].
  assert (ObjectKind a = ObjectKind b) as Hk.
  2: { unfold identifierOfObject. by rewrite Hk, Hname, Hns. }
  unfold groupLabel, rank in *.
  destruct (sortIndex (GetKind a)) as [i|] eqn:Ia, (sortIndex (GetKind b)) as [j|] eqn:Ib; cbn [default from_option id] in Hr.
  - apply sortIndex_Some in Ia as [Ia _], Ib as [Ib _]. subst j. rewrite Ia in Ib. injection Ib as Hkind.
    apply gvString_inj in Hl as [Hg Hv]; [|done..]. unfold GetKind in Hkind. destruct (ObjectKind a), (ObjectKind b). cbn in *. congruence.
  - apply sortIndex_Some in Ia as [_ Hi]. lia.
  - apply sortIndex_Some in Ib as [_ Hi]. lia.
  - by apply gvkString_inj.
Qed.

(** ** The content *)

(** The empty value of a field. *)
Definition zeroField (f : field) : fieldValue f :=
  match f with
  | FName | FNamespace | FGenerateName | FResourceVersion | FSelfLink | FUID => EmptyString
  | FAnnotations | FLabels => None
  | FFinalizers | FManagedFields => None
  | FOwnerReferences => None
  | FGeneration => 0%Z
  | FDeletionTimestamp | FDeletionGracePeriodSeconds => None
  | FStatus => None
  | FCreationTimestamp | FTemplateCreationTimestamp | FJobTemplateCreationTimestamp => None
  end.

Definition resets (fs : list field) (o : Obj) : Obj := foldr (fun f o => setField f (zeroField f) o) o fs.

(** What the API server and the controllers of the hub write. *)
Definition volatile : list field :=
  [FStatus; FCreationTimestamp; FOwnerReferences; FManagedFields; FDeletionTimestamp; FSelfLink; FUID; FGeneration;
   FResourceVersion].

Lemma resets_cons f fs o : resets (f :: fs) o = setField f (zeroField f) (resets fs o).
Proof. done. Qed.

Lemma resets_comm fs f v o : f ∉ fs -> resets fs (setField f v o) = setField f v (resets fs o).
Proof.
  induction fs as [|g fs IH]; [done|]. intros [Hne Hni]%not_elem_of_cons. rewrite !resets_cons, IH by done. by apply set_comm.
Qed.

Lemma resets_absorb fs f v o : f ∈ fs -> resets fs (setField f v o) = resets fs o.
Proof.
  induction fs as [|g fs IH]; [by intros ?%elem_of_nil|]. intros Hin. rewrite !resets_cons.
  destruct (decide (f ∈ fs)) as [Hf|Hf]; [by rewrite IH|]. apply elem_of_cons in Hin as [->|?]; [|done].
  by rewrite resets_comm, set_set by done.
Qed.

Lemma resets_get fs f o : f ∉ fs -> getField f (resets fs o) = getField f o.
Proof.
  induction fs as [|g fs IH]; [done|]. intros [Hne Hni]%not_elem_of_cons. rewrite resets_cons, get_set_other by done. by apply IH.
Qed.

Lemma resets_kind fs o : ObjectKind (resets fs o) = ObjectKind o.
Proof. induction fs as [|g fs IH]; [done|]. by rewrite resets_cons, set_kind. Qed.

Lemma stripAnnotations_comm f v o : f <> FAnnotations -> stripAnnotations (setField f v o) = setField f v (stripAnnotations o).
Proof.
  intros Hf. unfold stripAnnotations, GetAnnotations, SetAnnotations. rewrite get_set_other by done.
  destruct (getField FAnnotations o); [|done]. by apply set_comm.
Qed.

Lemma stripMetadata_resets o : stripMetadata o = resets volatile (stripAnnotations o).
Proof.
  unfold stripMetadata, SetResourceVersion, volatile. rewrite !resets_cons. by rewrite !stripAnnotations_comm by done.
Qed.

Lemma strip_volatile f v o : f ∈ volatile -> stripMetadata (setField f v o) = stripMetadata o.
Proof.
  intros Hf. rewrite !stripMetadata_resets, stripAnnotations_comm; [by apply resets_absorb|].
  intros ->. revert Hf. apply (bool_decide_unpack _). vm_compute. exact I.
Qed.

Lemma stripAnnotations_get f o : f <> FAnnotations -> getField f (stripAnnotations o) = getField f o.
Proof.
  intros Hf. unfold stripAnnotations, SetAnnotations. destruct (GetAnnotations o); [|done]. by apply get_set_other.
Qed.

Lemma strip_identifier o : identifierOfObject (stripMetadata o) = identifierOfObject o.
Proof.
  unfold identifierOfObject, GetName, GetNamespace. rewrite stripMetadata_resets.
  rewrite resets_kind, !resets_get, !stripAnnotations_get by (done || (apply (bool_decide_unpack _); vm_compute; exact I)).
  unfold stripAnnotations, SetAnnotations. destruct (GetAnnotations o); [|done]. by rewrite set_kind.
Qed.

(** The object with other values of the fields that others write. *)
Inductive refreshed (o : Obj) : Obj -> Prop :=
| refreshed_same : refreshed o o
| refreshed_set f v o' : f ∈ volatile -> refreshed o o' -> refreshed o (setField f v o').

Lemma refreshed_strip o o' : refreshed o o' -> stripMetadata o' = stripMetadata o.
Proof. induction 1 as [|f v o' Hf _ IH]; [done|]. by rewrite strip_volatile. Qed.

Lemma refreshed_list l l' : Forall2 refreshed l l' -> stripMetadata <$> l' = stripMetadata <$> l.
Proof. induction 1 as [|o o' l l' Ho _ IH]; [done|]. cbn. by rewrite IH, (refreshed_strip o o'). Qed.

(** *** Descriptions *)

Lemma isEnvelope_kind a b : ObjectKind a = ObjectKind b -> isEnvelope a = isEnvelope b.
Proof. unfold isEnvelope. by intros ->. Qed.

Lemma identifier_kind a b : identifierOfObject a = identifierOfObject b -> ObjectKind a = ObjectKind b.
Proof. unfold identifierOfObject. destruct (ObjectKind a), (ObjectKind b). cbn. by intros [= -> -> -> _ _]. Qed.

Lemma describeObjects_strip l l' : stripMetadata <$> l = stripMetadata <$> l' -> describeObjects l = describeObjects l'.
Proof.
  unfold describeObjects. generalize (0%Z, @nil string, @nil ResourceIdentifier). revert l'.
  induction l as [|a l IH]; intros [|b l'] acc Heq; try done. cbn in Heq. injection Heq as Hab Hl. cbn.
  assert (identifierOfObject a = identifierOfObject b) as Hid by by rewrite <- (strip_identifier a), <- (strip_identifier b), Hab.
  assert (generateResourceContent a = generateResourceContent b) as Hc.
  { unfold generateResourceContent, generateRawContent. by rewrite Hab. }
  destruct acc as [[envelopes contents] ids]. rewrite Hc, Hid, (isEnvelope_kind a b) by by apply identifier_kind.
  destruct (generateResourceContent b); cbn; [|done|done]. by apply IH.
Qed.

Lemma describeObjects_Ok l envelopes contents ids :
  describeObjects l = Ok (envelopes, contents, ids) ->
  ids = identifierOfObject <$> l /\ Forall2 (fun o c => generateRawContent o = Ok c) l contents /\
  envelopes = Z.of_nat (length (filter (fun o => isEnvelope o = true) l)).
Proof.
  unfold describeObjects.
  assert (forall e0 c0 i0, ofold (fun '(envelopes, contents, ids) o =>
      let! content := generateResourceContent o in
      Ok ((if isEnvelope o then envelopes + 1 else envelopes)%Z, contents ++ [content], ids ++ [identifierOfObject o]))
      (e0, c0, i0) l = Ok (envelopes, contents, ids) ->
    ids = i0 ++ (identifierOfObject <$> l) /\ (exists cs, contents = c0 ++ cs /\ Forall2 (fun o c => generateRawContent o = Ok c) l cs) /\
    envelopes = (e0 + Z.of_nat (length (filter (fun o => isEnvelope o = true) l)))%Z) as Hgen.
  { induction l as [|o l IH]; intros e0 c0 i0; cbn.
    - intros [= <- <- <-]. rewrite app_nil_r, Z.add_0_r. split; [done|]. split; [|done]. exists []. by rewrite app_nil_r.
    - destruct (generateResourceContent o) as [c|e|m] eqn:Hc; [|done|done]. cbn. intros (-> & (cs & -> & Hcs) & ->)%IH.
      rewrite <- !app_assoc. split; [done|]. split.
      + exists (c :: cs). split; [done|]. constructor; [|done]. unfold generateResourceContent in Hc.
        by destruct (generateRawContent o).
      + assert (filter (fun o => isEnvelope o = true) (o :: l) = if isEnvelope o then o :: filter (fun o => isEnvelope o = true) l else filter (fun o => isEnvelope o = true) l) as Hf.
        { rewrite filter_cons. by destruct (isEnvelope o). }
        cbn in Hf |- *. rewrite Hf. destruct (isEnvelope o); cbn [length]; lia. }
  intros (-> & (cs & -> & Hcs) & ->)%Hgen. split; [done|]. split; [done|]. lia.
Qed.
End Proofs.

(** ** What is gathered *)

Section Gathered.
Context {O : ObjectLib} {L : ObjectLaws O} {CL : ContentLib O} {W : Type} {IM : InformerManager O W}.
Variable eligibility : checker.
Variable enableWorkload : bool.

(** A listed object has the namespace, the name and the kind it was asked for. *)
Class ListerLaws : Prop := {
  lister_get_object gvr within name w o : (lister_get gvr within name w).2 = Ok o ->
    GetName o = name /\ GetNamespace o = default EmptyString within;
  lister_get_kind gvk gvr within name w o : RESTMapping gvk = Ok gvr -> (lister_get gvr within name w).2 = Ok o ->
    ObjectKind o = gvk;
  lister_list_object gvr within sel w objs o : (lister_list gvr within sel w).2 = Ok objs -> o ∈ objs ->
    GetNamespace o = default EmptyString within;
  lister_list_kind gvk gvr within sel w objs o : RESTMapping gvk = Ok gvr -> (lister_list gvr within sel w).2 = Ok objs ->
    o ∈ objs -> ObjectKind o = gvk;
  namespace_mapping : RESTMapping NamespaceMetaGVK = Ok NamespaceGVR;
}.

(** Every result of a computation has [Q]. *)
Definition gives {A} (m : hub W A) (Q : A -> Prop) : Prop := forall w a, (m w).2 = Ok a -> Q a.

Lemma gives_ret {A} (a : A) (Q : A -> Prop) : Q a -> gives (hret a) Q.
Proof. intros Hq w x [= <-]. done. Qed.

Lemma gives_lift {A} (m : outcome A) (Q : A -> Prop) : (forall a, m = Ok a -> Q a) -> gives (hlift m) Q.
Proof. intros Hq w x. apply Hq. Qed.

Lemma gives_bind {A B} (f : A -> hub W B) m (P : A -> Prop) (Q : B -> Prop) :
  gives m P -> (forall a, P a -> gives (f a) Q) -> gives (hbind f m) Q.
Proof.
  intros Hm Hf w b. unfold hbind. specialize (Hm w). destruct (m w) as [w' [a|e|p]]; cbn in *; [|done|done].
  apply Hf. by apply Hm.
Qed.

Lemma gives_map_err {A} f (m : hub W A) Q : gives m Q -> gives (hmap_err f m) Q.
Proof. intros Hm w a. unfold hmap_err. specialize (Hm w). destruct (m w) as [w' [x|e|p]]; [apply Hm|done|done]. Qed.

Lemma gives_hfold {A S} (f : S -> A -> hub W S) s xs (Q : S -> Prop) :
  Q s -> (forall s x, x ∈ xs -> Q s -> gives (f s x) Q) -> gives (hfold f s xs) Q.
Proof.
  revert s. induction xs as [|x xs IH]; intros s Hs Hf; [by apply gives_ret|].
  eapply gives_bind; [apply Hf; [by left|done]|]. intros s' Hs'. apply IH; [done|]. intros s2 y Hy. apply Hf. by right.
Qed.

Lemma gives_true {A} (m : hub W A) : gives m (fun _ => True).
Proof. by intros w a _. Qed.

Lemma gives_any {A} (m : hub W A) (Q : A -> Prop) : (forall a, Q a) -> gives m Q.
Proof. intros HQ w a _. apply HQ. Qed.

(** *** No duplicates *)

Lemma gather_NoDup namespace name selectors :
  gives (gatherSelectedResource eligibility enableWorkload namespace name selectors)
    (fun objs => NoDup (identifierOfObject <$> objs) /\ StronglySorted (ordered resourceLess) objs).
Proof.
  eapply gives_bind; [apply gives_true|]. intros ns _.
  eapply (gives_bind _ _ (fun objs => NoDup (identifierOfObject <$> objs))).
  - apply gives_hfold; [constructor|]. intros acc selector _ Hacc. unfold gatherOne.
    destruct (negb _); [by apply gives_ret|]. eapply gives_bind; [apply gives_true|]. intros objs _.
    apply gives_lift. intros r. apply (ofold_invariant (fun l => NoDup (identifierOfObject <$> l))); [done|].
    intros acc' o r' _ Hacc' Hr'. unfold addSelected in Hr'. case_decide as Hin; [done|]. injection Hr' as <-.
    rewrite fmap_app. apply NoDup_app. split; [done|]. split; [|apply NoDup_singleton].
    intros x Hx ->%list_elem_of_singleton. done.
  - intros objs Hnd. apply gives_ret. split; [|apply (go_sort_sorted _)]. unfold sortResources. by rewrite go_sort_perm.
Qed.

(** *** Objects that may be placed *)

(** A namespace whose resources may be placed. *)
Definition allowedNamespace (ns : string) : Prop := AllowsNamespace eligibility ns = true /\ ns <> defaultNSName.

(** Objects that Kubernetes makes for others. *)
Definition made_by_system (o : Obj) : Prop :=
  ((ObjectKind o = mkGVK "apps" "v1" "ReplicaSet" \/ ObjectKind o = mkGVK "apps" "v1" "ControllerRevision") /\
    GetOwnerReferences o <> []) \/
  (ObjectKind o = coreKind "ConfigMap" /\ GetName o = "kube-root-ca.crt") \/
  (ObjectKind o = coreKind "ServiceAccount" /\ GetName o = "default") \/
  (ObjectKind o = coreKind "Secret" /\ SecretType o = Ok SecretTypeServiceAccountToken) \/
  (ObjectKind o = mkGVK "discovery.k8s.io" "v1" "EndpointSlice" /\ default ∅ (GetLabels o) !! LabelManagedBy <> None).

Definition eligible (o : Obj) : Prop :=
  GetDeletionTimestamp o = None /\ (ObjectKind o = NamespaceMetaGVK -> allowedNamespace (GetName o)) /\ ~ made_by_system o.

Lemma kindPropagates_gives o : gives (kindPropagates enableWorkload o) (fun r => r = true -> ~ made_by_system o).
Proof.
  unfold kindPropagates, made_by_system. cbn zeta.
  destruct (decide (ObjectKind o = _ \/ _)) as [Hk|Hk].
  { apply gives_ret. intros Hr%bool_decide_eq_true. destruct Hk as [-> | ->]; naive_solver. }
  destruct (decide (ObjectKind o = coreKind "ConfigMap")) as [Hk1|Hk1].
  { apply gives_ret. intros Hr%negb_true_iff%bool_decide_eq_false. rewrite Hk1. naive_solver. }
  destruct (decide (ObjectKind o = coreKind "ServiceAccount")) as [Hk2|Hk2].
  { apply gives_ret. intros Hr%negb_true_iff%bool_decide_eq_false. rewrite Hk2. naive_solver. }
  destruct (decide (ObjectKind o = coreKind "Secret")) as [Hk3|Hk3].
  { eapply (gives_bind _ _ (fun t => SecretType o = Ok t)); [by apply gives_map_err, gives_lift|]. intros t Ht.
    apply gives_ret. intros Hr%negb_true_iff%bool_decide_eq_false. rewrite Hk3, Ht. naive_solver. }
  destruct (decide (ObjectKind o = coreKind "PersistentVolumeClaim")) as [Hk4|Hk4].
  { apply gives_ret. rewrite Hk4. naive_solver. }
  destruct (decide (ObjectKind o = coreKind "Endpoints")) as [Hk5|Hk5].
  { apply gives_any. rewrite Hk5. naive_solver. }
  destruct (decide (ObjectKind o = mkGVK "discovery.k8s.io" "v1" "EndpointSlice")) as [Hk6|Hk6].
  { apply gives_ret. intros Hr%bool_decide_eq_true. rewrite Hk6. naive_solver. }
  apply gives_ret. naive_solver.
Qed.

Lemma ShouldPropagateObj_gives o : gives (ShouldPropagateObj eligibility enableWorkload o) (fun r => r = true -> eligible o).
Proof.
  unfold ShouldPropagateObj, eligible, allowedNamespace. destruct (GetDeletionTimestamp o); [by apply gives_ret|].
  assert (forall Q : Prop, Q -> gives (kindPropagates enableWorkload o) (fun r => r = true -> None = @None Z /\ Q /\ ~ made_by_system o)) as Hk.
  { intros Q HQ w r Hr Ht. split; [done|]. split; [done|]. by eapply kindPropagates_gives. }
  case_decide as Hns; [|by apply Hk].
  destruct (AllowsNamespace eligibility (GetName o)); cbn; [|by apply gives_lift].
  case_decide; [by apply gives_lift|]. by apply Hk.
Qed.

Lemma propagated_gives objs :
  gives (propagated eligibility enableWorkload objs) (Forall (fun o => o ∈ objs /\ eligible o)).
Proof.
  apply gives_hfold; [constructor|]. intros acc o Ho Hacc.
  eapply gives_bind; [apply ShouldPropagateObj_gives|]. intros include Hinc. apply gives_ret.
  destruct include; [|done]. apply Forall_app. split; [done|].
  apply Forall_singleton. split; [done|by apply Hinc].
Qed.

Context {LL : ListerLaws}.

(** What a selector gives in a namespace, which is empty for a cluster-scoped kind. *)
Definition fetched (selector : ResourceSelectorTerm) (namespace : string) (o : Obj) : Prop :=
  eligible o /\ ObjectKind o = selectorGVK selector /\
  (GetNamespace o = EmptyString \/ (GetNamespace o = namespace /\ namespace <> EmptyString)).

Lemma getIgnoringNotFound_gives get (Q : Obj -> Prop) :
  gives get Q -> gives (getIgnoringNotFound get) (fun r => forall o, r = Some o -> Q o).
Proof.
  intros Hg w r. unfold getIgnoringNotFound. specialize (Hg w). destruct (get w) as [w' [o|e|p]]; cbn in *.
  - intros [= <-] o' [= <-]. by apply Hg.
  - destruct (has_reason NotFound e); [|done]. by intros [= <-].
  - done.
Qed.

(** The last part of [fetchResources], once the resource and the scope are known. *)
Lemma fetchWithin_gives selector gvr within :
  RESTMapping (selectorGVK selector) = Ok gvr ->
  gives
    (if decide (rsel_Name selector <> EmptyString) then
       let* obj := getIgnoringNotFound (lister_get gvr within (rsel_Name selector)) in
       match obj with
       | None => hret []
       | Some obj =>
           let* shouldInclude := ShouldPropagateObj eligibility enableWorkload obj in
           hret (if (shouldInclude : bool) then [obj] else [])
       end
     else
       let* _ := hlift (convertSelector (W := W) (rsel_LabelSelector selector)) in
       let* objects := hmap_err (NewAPIServerError true) (lister_list gvr within (rsel_LabelSelector selector)) in
       propagated eligibility enableWorkload objects)
    (Forall (fun o => eligible o /\ ObjectKind o = selectorGVK selector /\ GetNamespace o = default EmptyString within)).
Proof.
  intros Hm. case_decide as Hn.
  - eapply (gives_bind _ _ (fun r => forall o, r = Some o -> ObjectKind o = selectorGVK selector /\
      GetNamespace o = default EmptyString within)).
    { apply getIgnoringNotFound_gives. intros w o Ho. split; [by eapply lister_get_kind|].
      by eapply lister_get_object. }
    intros [o|] Ho; [|by apply gives_ret]. destruct (Ho o eq_refl) as [Hk Hns].
    eapply gives_bind; [apply ShouldPropagateObj_gives|]. intros [] Hinc; apply gives_ret; [|done].
    apply Forall_singleton. split; [by apply Hinc|done].
  - eapply gives_bind; [apply gives_true|]. intros [] _.
    eapply (gives_bind _ _ (Forall (fun o => ObjectKind o = selectorGVK selector /\
      GetNamespace o = default EmptyString within))).
    { apply gives_map_err. intros w objs Hl. apply Forall_forall. intros o Ho.
      split; [by eapply lister_list_kind|by eapply lister_list_object]. }
    intros objs Hobjs w r Hr. eapply Forall_impl; [by eapply propagated_gives|]. intros o [Ho He].
    rewrite Forall_forall in Hobjs. split; [done|]. by apply Hobjs.
Qed.

Lemma fetchResources_gives selector namespace name :
  gives (fetchResources eligibility enableWorkload selector namespace name) (Forall (fetched selector namespace)).
Proof.
  unfold fetchResources. cbn zeta. destruct (RESTMapping (selectorGVK selector)) as [gvr|e|m] eqn:Hm;
    [|by apply gives_lift..].
  destruct (IsClusterScoped _) eqn:Hcl; cbn [negb andb].
  - destruct (negb _); [by apply gives_lift|]. destruct (negb _); [by apply gives_lift|].
    intros w r Hr. eapply Forall_impl; [by eapply fetchWithin_gives|]. intros o (He & Hk & Hns). split; [done|].
    split; [done|]. by left.
  - case_bool_decide as Hne; [by apply gives_lift|]. destruct (negb _); [by apply gives_lift|].
    intros w r Hr. eapply Forall_impl; [by eapply fetchWithin_gives|]. intros o (He & Hk & Hns). split; [done|].
    split; [done|]. by right.
Qed.

(** A selected object of a placement in [namespace], which is empty for a
    ClusterResourcePlacement. *)
Definition placeable (namespace : string) (o : Obj) : Prop :=
  eligible o /\
  (GetNamespace o = EmptyString \/
   if decide (namespace = EmptyString) then allowedNamespace (GetNamespace o) else GetNamespace o = namespace).

Lemma fetchTracked_gives ns acc gvr :
  allowedNamespace ns -> Forall (placeable EmptyString) acc ->
  gives (fetchTracked eligibility enableWorkload ns acc gvr) (Forall (placeable EmptyString)).
Proof.
  intros Hns Hacc. unfold fetchTracked. destruct (AllowsGVR _ _) as [el|e|m]; [| |by apply gives_lift].
  - destruct (negb el); [by apply gives_ret|]. destruct (negb _); [by apply gives_lift|].
    eapply (gives_bind _ _ (Forall (fun o => GetNamespace o = ns))).
    { apply gives_map_err. intros w objs Hl. apply Forall_forall. intros o Ho.
      by apply (lister_list_object _ _ _ _ _ _ Hl). }
    intros objs Hobjs. eapply gives_bind; [apply propagated_gives|]. intros included Hinc. apply gives_ret.
    apply Forall_app. split; [done|]. eapply Forall_impl; [done|]. intros o [Ho He]. split; [done|]. right.
    rewrite decide_True by done. rewrite Forall_forall in Hobjs. by rewrite (Hobjs o Ho).
  - destruct (IsNoMatchError e); [by apply gives_ret|by apply gives_lift].
Qed.

Lemma fetchAll_gives ns name :
  gives (fetchAllResourcesInOneNamespace eligibility enableWorkload ns name) (Forall (placeable EmptyString)).
Proof.
  unfold fetchAllResourcesInOneNamespace. destruct (AllowsNamespace eligibility ns) eqn:Ha; [|by apply gives_lift].
  cbn [negb]. case_decide as Hd; [by apply gives_lift|].
  eapply (gives_bind _ _ (fun r => forall o, r = Some o -> GetName o = ns /\ GetNamespace o = EmptyString /\
    ObjectKind o = NamespaceMetaGVK)).
  { apply getIgnoringNotFound_gives. intros w o Ho. destruct (lister_get_object _ _ _ _ _ Ho) as [Hn Hns].
    split; [done|]. split; [done|]. by eapply lister_get_kind; [apply namespace_mapping|]. }
  intros [o|] Ho; [|by apply gives_ret]. destruct (Ho o eq_refl) as (Hn & Hns & Hk).
  destruct (GetDeletionTimestamp o) eqn:Hdel; [by apply gives_ret|].
  apply gives_hfold; [|intros acc gvr _ Hacc; by apply fetchTracked_gives].
  apply Forall_singleton. split; [|by left]. split; [done|]. split; [by rewrite Hn|].
  unfold made_by_system. rewrite Hk. naive_solver.
Qed.

Lemma fetchNamespaceResources_gives selector name :
  gives (fetchNamespaceResources eligibility enableWorkload selector name) (Forall (placeable EmptyString)).
Proof.
  unfold fetchNamespaceResources. case_decide; [apply fetchAll_gives|].
  eapply gives_bind; [apply gives_true|]. intros [] _. eapply gives_bind; [apply gives_true|]. intros nss _.
  apply gives_hfold; [constructor|]. intros acc ns _ Hacc. eapply gives_bind; [apply fetchAll_gives|].
  intros objs Hobjs. apply gives_ret. by apply Forall_app.
Qed.

(** The namespace the other selectors pick from may be placed. *)
Lemma findSelectedNamespace_gives namespace name selectors :
  gives (findSelectedNamespace eligibility enableWorkload namespace name selectors)
    (fun ns => ns = EmptyString \/ allowedNamespace ns).
Proof.
  unfold findSelectedNamespace. destruct (list_find _ _) as [[i s]|] eqn:Hf; [|apply gives_ret; by left].
  apply list_find_Some in Hf as (_ & Hs & _). apply andb_true_iff in Hs as [[Hs _]%andb_true_iff _].
  apply bool_decide_eq_true in Hs.
  eapply (gives_bind _ _ (fun r => forall ns, r = Some ns -> allowedNamespace ns)).
  - unfold fetchSelectedNamespace. eapply gives_bind; [apply fetchResources_gives|]. intros objs Hobjs. apply gives_ret.
    intros ns. destruct objs as [|o objs]; [done|]. intros [= <-]. apply Forall_cons in Hobjs as [(He & Hk & _) _].
    apply He. by rewrite Hk.
  - intros [ns|] Hns; [apply gives_ret; right; by apply Hns|by apply gives_lift].
Qed.

Lemma fetchSelected_gives namespace name selectedNamespace selector :
  selectedNamespace = EmptyString \/ allowedNamespace selectedNamespace ->
  gives (fetchSelected eligibility enableWorkload namespace name selectedNamespace selector) (Forall (placeable namespace)).
Proof.
  intros Hsel. unfold fetchSelected.
  assert (forall ns', ns' = namespace \/ namespace = EmptyString /\ ns' = selectedNamespace ->
    gives (fetchResources eligibility enableWorkload selector ns' name) (Forall (placeable namespace))) as Hfetch.
  { intros ns' Hns' w r Hr. eapply Forall_impl; [by eapply fetchResources_gives|]. intros o (He & _ & [Ho|[Ho Hne]]).
    - split; [done|by left].
    - split; [done|right]. case_decide as Hd; [|naive_solver]. rewrite Ho. naive_solver. }
  destruct (isNamespaceSelector selector).
  - destruct (decide (namespace <> EmptyString)) as [|Hn]; [by apply gives_lift|].
    case_decide; [apply Hfetch; by left|]. apply dec_stable in Hn. rewrite Hn. apply fetchNamespaceResources_gives.
  - destruct (bool_decide (namespace = EmptyString) && _) eqn:Hb; [|apply Hfetch; by left].
    apply andb_true_iff in Hb as [Hb%bool_decide_eq_true _]. apply Hfetch. by right.
Qed.

Lemma gather_placeable namespace name selectors :
  gives (gatherSelectedResource eligibility enableWorkload namespace name selectors) (Forall (placeable namespace)).
Proof.
  eapply gives_bind; [apply findSelectedNamespace_gives|]. intros ns Hns.
  eapply (gives_bind _ _ (Forall (placeable namespace))).
  - apply gives_hfold; [constructor|]. intros acc selector _ Hacc. unfold gatherOne.
    destruct (negb _); [by apply gives_ret|]. eapply gives_bind; [by apply fetchSelected_gives|]. intros objs Hobjs.
    apply gives_lift. intros r. apply (ofold_invariant (Forall (placeable namespace))); [done|].
    intros acc' o r' Ho Hacc' Hr. unfold addSelected in Hr. case_decide; [done|]. injection Hr as <-.
    apply Forall_app. split; [done|]. apply Forall_singleton. rewrite Forall_forall in Hobjs. by apply Hobjs.
  - intros objs Hobjs. apply gives_ret. unfold sortResources. by rewrite go_sort_perm.
Qed.


(** *** Stability *)

Lemma StronglySorted_map {A B} (R : A -> A -> Prop) (S : B -> B -> Prop) (f : A -> B) l :
  (forall x y, R x y -> S (f x) (f y)) -> StronglySorted R l -> StronglySorted S (f <$> l).
Proof.
  intros Hf. induction 1 as [|x l Hs IH Hx]; [constructor|]. constructor; [done|].
  apply Forall_fmap. eapply Forall_impl; [done|]. intros y. apply Hf.
Qed.

Lemma identifier_named a b : identifierOfObject a = identifierOfObject b -> well_named a -> well_named b.
Proof.
  intros Hid. pose proof (identifier_kind _ _ Hid) as Hk. injection Hid as _ _ _ _ Hns.
  unfold well_named. by rewrite Hk, Hns.
Qed.

Lemma identifier_less a b a' b' :
  identifierOfObject a = identifierOfObject a' -> identifierOfObject b = identifierOfObject b' ->
  resourceLess a b = resourceLess a' b'.
Proof.
  intros Ha Hb. pose proof (identifier_kind _ _ Ha) as Hka. pose proof (identifier_kind _ _ Hb) as Hkb.
  injection Ha as _ _ _ Hna Hnsa. injection Hb as _ _ _ Hnb Hnsb.
  unfold resourceLess, lessByGVK, namespacedName, GetKind. by rewrite Hka, Hkb, Hna, Hnsa, Hnb, Hnsb.
Qed.

(** Sorted lists of the same objects are equal, up to what others write. *)
Lemma sorted_same_strip l l' :
  NoDup (identifierOfObject <$> l) -> Forall well_named l ->
  StronglySorted (ordered resourceLess) l -> StronglySorted (ordered resourceLess) l' ->
  stripMetadata <$> l' ≡ₚ stripMetadata <$> l -> stripMetadata <$> l' = stripMetadata <$> l.
Proof.
  intros Hnd Hwn Hs Hs' Hp.
  assert (forall k, StronglySorted (ordered resourceLess) k -> StronglySorted (ordered resourceLess) (stripMetadata <$> k)) as Hmap.
  { intros k. apply StronglySorted_map. intros x y Hxy. unfold ordered in *.
    by rewrite (identifier_less _ _ y x) by apply strip_identifier. }
  assert (forall x y, x ∈ stripMetadata <$> l -> y ∈ stripMetadata <$> l ->
    resourceLess x y = false -> resourceLess y x = false -> x = y) as Hanti.
  { intros x y (a & -> & Ha)%list_elem_of_fmap (b & -> & Hb)%list_elem_of_fmap H1 H2. f_equal.
    rewrite Forall_forall in Hwn.
    rewrite (identifier_less _ _ a b) in H1 by apply strip_identifier.
    rewrite (identifier_less _ _ b a) in H2 by apply strip_identifier.
    pose proof (resourceLess_anti a b (Hwn a Ha) (Hwn b Hb) H1 H2) as Hid.
    apply list_elem_of_lookup in Ha as [i Hi], Hb as [j Hj].
    assert (i = j) as ->; [|congruence].
    eapply NoDup_lookup; [exact Hnd|by rewrite list_lookup_fmap, Hi|]. rewrite list_lookup_fmap, Hj. cbn. by rewrite Hid. }
  rewrite (go_sort_unique resourceLess (stripMetadata <$> l) (stripMetadata <$> l') Hanti Hp (Hmap _ Hs')).
  symmetry. apply go_sort_unique; auto. apply _.
Qed.

(** C21: The order in which the caches hold the objects, and what the API
    server and other controllers write into them, have no effect on what is
    selected: if two times the same objects are gathered, up to such changes and
    in any order, then the contents, the identifiers and the number of envelopes
    are the same, in the same order. *)
Theorem selection_stable p w w' objs objs' updated :
  (gatherSelectedResource eligibility enableWorkload (pl_namespace p) (pl_name p)
     (psp_ResourceSelectors (pl_spec p)) w).2 = Ok objs ->
  (gatherSelectedResource eligibility enableWorkload (pl_namespace p) (pl_name p)
     (psp_ResourceSelectors (pl_spec p)) w').2 = Ok objs' ->
  Forall2 refreshed objs updated -> objs' ≡ₚ updated -> Forall well_named objs ->
  (SelectResourcesForPlacement eligibility enableWorkload p w').2 =
    (SelectResourcesForPlacement eligibility enableWorkload p w).2.
Proof.
  intros Hg Hg' Hr Hp Hwn. destruct (gather_NoDup _ _ _ _ _ Hg) as [Hnd Hs]. destruct (gather_NoDup _ _ _ _ _ Hg') as [_ Hs'].
  assert (forall v l, (gatherSelectedResource eligibility enableWorkload (pl_namespace p) (pl_name p)
     (psp_ResourceSelectors (pl_spec p)) v).2 = Ok l ->
    (SelectResourcesForPlacement eligibility enableWorkload p v).2 = describeObjects l) as Hrun.
  { intros v l Hl. unfold SelectResourcesForPlacement, hbind. destruct (gatherSelectedResource _ _ _ _ _ v) as [v' r].
    cbn in Hl. by subst r. }
  rewrite (Hrun _ _ Hg), (Hrun _ _ Hg'). apply describeObjects_strip, sorted_same_strip; [done..|].
  by rewrite Hp, (refreshed_list _ _ Hr).
Qed.
End Gathered.
