(* ===== verification/PlacementExamples.v ===== *)
(** * The placement controller in memory

    A hub with the snapshots, the bindings and the objects of one placement, on
    which the theorems about the placement controller are evaluated; and
    evaluations of what the code does where its comments say otherwise. *)

From stdpp Require Import prelude gmap strings sorting.
From S2P Require Import Prelude K8s Api Sample Utils Defaulter FrameworkUtils Hub Overrider Eligibility WorkApi ApplierApi ApplierDiff PlacementApi PolicySnapshots ResourceSnapshots PlacementStatus Placement ResourceSelection SnapshotStore PolicySnapshotsProofs ResourceGroups ResourceSnapshotsProofs PlacementStatusProofs PlacementProofs ResourceSelectionProofs ApplierExamples.

Local Open Scope string_scope.
Local Open Scope list_scope.

Module MemPlacement.
Import RefLib.

(** ** The hub *)

Record world : Type := mkWorld {
  w_policies : memory PolicySnapshotObj;
  w_resources : memory ResourceSnapshotObj;
  w_bindings : list BindingObj;
  w_events : list string;
}.

Definition set_policies (m : memory PolicySnapshotObj) (w : world) : world :=
  mkWorld m (w_resources w) (w_bindings w) (w_events w).
Definition set_resources (m : memory ResourceSnapshotObj) (w : world) : world :=
  mkWorld (w_policies w) m (w_bindings w) (w_events w).
Definition on_policies {A : Type} (m : hub (memory PolicySnapshotObj) A) : hub world A := on_part w_policies set_policies m.
Definition on_resources {A : Type} (m : hub (memory ResourceSnapshotObj) A) : hub world A := on_part w_resources set_resources m.

Definition ex_name : string := "web".

#[export] Instance ex_policy_reader : PolicySnapshotReader world := {
  hub_list_policy_snapshots ns sel := on_policies (mem_list snap_meta EmptyString ex_name ns sel);
}.

#[export] Instance ex_reader : SnapshotReader world := {
  hub_get_cluster name w := (w, Err (ErrAPI NotFound name));
  hub_list_resource_snapshots ns sel := on_resources (mem_list rsnap_meta EmptyString ex_name ns sel);
  hub_list_cros _ w := (w, Ok []);
  hub_list_ros _ w := (w, Ok []);
}.

Definition remove_all {Obj : Type} (m : memory Obj) : memory Obj := mkMemory ∅ (mem_writes m).

#[export] Instance ex_snapshots : SnapshotClient world := {
  hub_create_policy_snapshot s := on_policies (mem_create snap_meta s);
  hub_update_policy_snapshot s := on_policies (mem_update snap_meta EmptyString ex_name s);
  hub_delete_policy_snapshot s := on_policies (mem_remove snap_meta s);
  hub_delete_policy_snapshots _ _ w := (set_policies (remove_all (w_policies w)) w, Ok tt);
  hub_create_resource_snapshot s := on_resources (mem_create rsnap_meta s);
  hub_update_resource_snapshot s := on_resources (mem_update rsnap_meta EmptyString ex_name s);
  hub_delete_resource_snapshot s := on_resources (mem_remove rsnap_meta s);
  hub_delete_resource_snapshots _ _ w := (set_resources (remove_all (w_resources w)) w, Ok tt);
  hub_get_resource_snapshot ns name w :=
    (w, match mem_objects (w_resources w) !! (ns, name) with Some s => Ok s | None => Err (ErrAPI NotFound name) end);
  SetControllerReference _ _ := Ok tt;
}.

#[export] Instance ex_hub : HubClient world := {
  hub_list_clusters w := (w, Ok []);
  hub_list_bindings ns name w :=
    (w, Ok (filter (fun b => meta_namespace (b_meta b) = ns /\ tracking_label b = Some name) (w_bindings w)));
  hub_create_binding b w := (w, None);
  hub_update_binding b w := (w, (b, None));
  hub_update_binding_status b w := (w, (b, None));
  hub_get_binding b w := (w, (b, None));
  hub_patch_binding _ w := (w, None);
  hub_delete_binding _ w := (w, None);
  hub_update_snapshot_status _ w := (w, None);
  OnError S _ f s := f s;
}.

#[export] Instance ex_placements : PlacementReader world := {
  hub_get_placement ns name w := (w, Err (ErrAPI NotFound name));
}.

#[export] Instance ex_client : PlacementClient world := {
  hub_update_placement p w := (w, Ok p);
  hub_update_placement_status p w := (w, Ok p);
  hub_create_or_update_status_copy c f w := (w, Ok tt);
  hub_record_event _ reason _ w :=
    mkWorld (w_policies w) (w_resources w) (w_bindings w) (w_events w ++ [reason]);
}.

(** The selected resources: more than fits into one snapshot. *)
Definition ex_resources : list string := ["/v1/Namespace//app"; "/v1/ConfigMap/app/settings"].
Definition ex_limit : Z := 30.

#[export] Instance ex_resolver : ResourceSelectorResolver world := {
  selectResources p w := (w, Ok (0%Z, ex_resources, []));
}.

Definition ex_policy (n : Z) : PlacementPolicy := Sample.policy PickNPlacementType (Some n) [].
Definition ex_other : PlacementPolicy := Sample.policy PickAllPlacementType None [].

(** A table of hashes. *)
#[export] Instance ex_hasher : Hasher := {
  HashOfPolicy q :=
    if decide (q = withoutNumber (Some (ex_policy 1))) then Ok "5f3a"
    else if decide (q = withoutNumber (Some ex_other)) then Ok "77c1" else Err (ErrPlain "no hash");
  HashOfResources rs :=
    if decide (rs = ex_resources) then Ok "9b04"
    else if decide (rs = []) then Ok "e3b0" else Err (ErrPlain "no hash");
}.

Lemma ex_policy_hash (a b : option PlacementPolicy) (h : string) : HashOfPolicy a = Ok h -> HashOfPolicy b = Ok h -> a = b.
Proof. cbn -[decide]. repeat case_decide; intros; congruence. Qed.

Lemma ex_resource_hash (a b : list string) (h : string) : HashOfResources a = Ok h -> HashOfResources b = Ok h -> a = b.
Proof. cbn -[decide]. repeat case_decide; intros; congruence. Qed.

#[export] Instance ex_time : TimeLib := {
  FormatRFC3339 _ := "2026-01-01T00:00:00Z";
  ParseRFC3339 _ := Ok 0%Z;
  creationTimestamp _ := 0%Z;
}.

(** ** The laws *)

Definition the_policies (w : world) : contents SchedulingPolicySnapshotSpec :=
  mem_store snap_meta snap_spec EmptyString ex_name (w_policies w).
Definition the_resources (w : world) : contents (list string) :=
  mem_store rsnap_meta rsnap_SelectedResources EmptyString ex_name (w_resources w).

Lemma ex_policy_laws : StoreLaws snap_meta snap_spec EmptyString ex_name the_policies hub_list_policy_snapshots
  hub_create_policy_snapshot hub_update_policy_snapshot hub_delete_policy_snapshot.
Proof. apply (on_part_laws w_policies set_policies); [done|apply memory_laws]. Qed.

Lemma ex_resource_laws : StoreLaws rsnap_meta rsnap_SelectedResources EmptyString ex_name the_resources
  hub_list_resource_snapshots hub_create_resource_snapshot hub_update_resource_snapshot hub_delete_resource_snapshot.
Proof. apply (on_part_laws w_resources set_resources); [done|apply memory_laws]. Qed.

Lemma on_policies_leaves {A : Type} (m : hub (memory PolicySnapshotObj) A) : leaves the_resources (on_policies m).
Proof. intros w. unfold on_policies, on_part. by destruct (m (w_policies w)). Qed.

Lemma on_resources_leaves {A : Type} (m : hub (memory ResourceSnapshotObj) A) : leaves the_policies (on_resources m).
Proof. intros w. unfold on_resources, on_part. by destruct (m (w_resources w)). Qed.

Lemma ex_separate :
  leaves_policies the_resources /\ leaves_resources the_policies /\ leaves_rest the_policies /\ leaves_rest the_resources.
Proof.
  split; [split; intros *; apply on_policies_leaves|]. split; [split; intros *; apply on_resources_leaves|].
  split; split; try done; intros *; first [apply on_resources_leaves|done].
Qed.

Lemma ex_status_kept : status_kept.
Proof. by intros p w w' q [= _ <-]. Qed.

(** ** The placement *)

Definition ex_placement (policy : PlacementPolicy) : PlacementObj :=
  mkPlacementObj (mkObjectMeta ex_name EmptyString ∅ ∅ [PlacementCleanupFinalizer] None 1 1)
    (mkPlacementSpec [] (Some policy) (mkRolloutStrategy RollingUpdateRolloutStrategyType None None None None)
       (Some 10%Z) EmptyString)
    (mkPlacementStatus [] EmptyString [] []).

(** The policy snapshot, with the decisions of the scheduler. *)
Definition ex_policy_snapshot : PolicySnapshotObj :=
  let s := BuildPolicySnapshot (ex_placement (ex_policy 1)) 0 "5f3a" in
  mkPolicySnapshot (snap_meta s) (snap_spec s)
    (mkSnapshotStatus 1 [Sample.condition PolicySnapshotScheduled ConditionTrue] [mkDecision "a" true None "picked"]).

Definition ex_binding (snapshot : string) : BindingObj :=
  mkBinding (mkObjectMeta "web-a" EmptyString {[PlacementTrackingLabel := ex_name]} ∅ [] None 1 1)
    (mkBindingSpec BindingStateBound snapshot [] [] "web-0" "a" (mkDecision "a" true None "picked") None)
    (mkBindingStatus [] [] [] ((fun i => Sample.condition (ResourceBindingConditionType i) ConditionTrue) <$>
       CondTypesForApplyStrategies)).

(** A hub with one policy snapshot, on which [writes] writes of resource snapshots succeed. *)
Definition ex_world (writes : nat) : world :=
  mkWorld (mkMemory {[("", "web-0") := ex_policy_snapshot]} 10) (mkMemory ∅ writes) [ex_binding "web-0-snapshot"] [].

Lemma ex_policies_only n k v :
  the_policies (ex_world n) !! k = Some v -> k = ("", "web-0") /\ v = image_of snap_meta snap_spec ex_policy_snapshot.
Proof.
  unfold the_policies, mem_store, mem_proper. cbn. rewrite lookup_fmap, fmap_Some. intros (o & Ho & ->).
  apply map_lookup_filter_Some in Ho as [Ho _]. apply lookup_singleton_Some in Ho as [<- <-]. done.
Qed.

Lemma ex_single n : single_latest (the_policies (ex_world n)).
Proof. intros k1 k2 v1 v2 [-> _]%ex_policies_only _ [-> _]%ex_policies_only _. done. Qed.

Lemma ex_hashed n : hashed (the_policies (ex_world n)).
Proof. intros k v [_ ->]%ex_policies_only. by vm_compute. Qed.

Lemma ex_empty n : the_resources (ex_world n) = ∅.
Proof. unfold the_resources, mem_store, mem_proper. cbn. by rewrite map_filter_empty, fmap_empty. Qed.

Lemma ex_sane n : sane EmptyString ex_name ex_limit 0 (the_resources (ex_world n)).
Proof.
  rewrite ex_empty. split.
  - split; [intros k v Hk|intros i rs v _ Hk]; by rewrite lookup_empty in Hk.
  - intros k1 k2 v1 v2 Hk. by rewrite lookup_empty in Hk.
  - intros k v i Hk. by rewrite lookup_empty in Hk.
Qed.

Lemma ex_bounded n : bounded 0 (the_resources (ex_world n)).
Proof. rewrite ex_empty. exists ∅. split; [|done]. intros k v i Hk. by rewrite lookup_empty in Hk. Qed.

Lemma ex_sound_numbers policy : pol_NumberOfClusters policy = Some 1%Z \/ pol_NumberOfClusters policy = None ->
  sound_numbers (ex_placement policy).
Proof.
  intros Hp. split; [cbn; lia|]. intros n. unfold pickedNumber. cbn.
  destruct Hp as [-> | ->]; repeat case_match; intros [= <-] || done; lia.
Qed.

(** ** The theorems *)


(** The first attempt stops after the master; the second one completes the group. *)
Definition ex_attempt (w : world) : world * outcome (Z * option ResourceSnapshotObj) :=
  GetOrCreateResourceSnapshot None ex_limit 0 (ex_placement (ex_policy 1)) 0 ex_resources 10 w.
Definition ex_interrupted : world := (ex_attempt (ex_world 1)).1.
Definition ex_recovered : world :=
  set_resources (mkMemory (mem_objects (w_resources ex_interrupted)) 5) ex_interrupted.


Definition ex_master : ResourceSnapshotObj :=
  BuildMasterResourceSnapshot 0 2 0 ex_name EmptyString "9b04" ["/v1/Namespace//app"].

Lemma completed_iff_rolled_out_witness :
  exists b, b ∈ w_bindings (ex_world 0) /\ rolled_out (ex_placement (ex_policy 1)) (Some ex_master) b.
Proof.
  set (p := ex_placement (ex_policy 1)).
  set (r := setPlacementStatus 0 Static.in_order p [] ex_policy_snapshot (Some ex_master) (ex_world 0)).
  assert (match r.2 with Ok (p', _) => isRolloutCompleted p' | _ => false end = true) as Hr by by_evaluation.
  destruct r as [w' [[p' scheduled]|e|m]] eqn:Er; [|discriminate..]. unfold r in Er.
  assert (ListBindingsFromKey (pl_namespace p, pl_name p) true (ex_world 0) =
    (ex_world 0, Ok (w_bindings (ex_world 0)))) as Hl by by_evaluation.
  destruct (completed_iff_rolled_out 0 Static.in_order p [] ex_policy_snapshot (Some ex_master)
    (w_bindings (ex_world 0)) (ex_world 0) (ex_world 0) w' p' scheduled Hl Er) as [Hyes _].
  destruct (Hyes Hr) as (_ & _ & Hall). destruct (Hall (mkDecision "a" true None "picked")) as (b & Hb & _ & Hro); [by left|].
  exists b. split; [exact Hb|exact Hro].
Defined.

(** Nothing is stored of the resources yet: the round creates the group the binding refers to. *)
Definition ex_update : world * outcome Z :=
  handleUpdate None ex_limit 0 Static.in_order (ex_placement (ex_policy 1)) (ex_world 5).


(** ** Findings *)

(** A round for no resources at all, when one group of two snapshots is there and
    the history is limited to one. *)
Definition ex_full : world := (ex_attempt (ex_world 5)).1.
Definition with_writes (n : nat) (w : world) : world := set_resources (mkMemory (mem_objects (w_resources w)) n) w.
Definition ex_replace (w : world) : world * outcome (Z * option ResourceSnapshotObj) :=
  GetOrCreateResourceSnapshot None ex_limit 0 (ex_placement (ex_policy 1)) 0 [] 1 w.

Definition held (w : world) : list (ObjectKey * list string) :=
  prod_map id rsnap_SelectedResources <$> map_to_list (mem_objects (w_resources w)).

(** The group is deleted from its master on: if that stops after the master, what
    is left has no hash, and every later round fails without a change. *)
Lemma history_of_one_gets_stuck :
  let stopped := (ex_replace (with_writes 2 ex_full)).1 in
  let again := ex_replace (with_writes 10 stopped) in
  (is_ok again.2 = false) /\
  bool_decide (size (mem_objects (w_resources stopped)) = 1%nat) = true /\
  bool_decide (held again.1 = held stopped) = true.
Proof. split; [by_evaluation|]. split; by_evaluation. Qed.

(** If it stops after the whole group, the next round starts again at index 0:
    a snapshot of other resources gets the name of the deleted one. *)
Definition content_at (name : string) (w : world) : option (list string) :=
  rsnap_SelectedResources <$> mem_objects (w_resources w) !! (EmptyString, name).

Lemma history_of_one_reuses_names :
  let stopped := (ex_replace (with_writes 3 ex_full)).1 in
  let again := ex_replace (with_writes 10 stopped) in
  bool_decide (content_at "web-0-snapshot" ex_full = Some ["/v1/Namespace//app"]) = true /\
  bool_decide (content_at "web-0-snapshot" again.1 = Some []) = true /\ is_ok again.2 = true.
Proof. split; [by_evaluation|]. split; by_evaluation. Qed.

(** The check of the limit is on the default: a limit of zero is used, and the
    policy snapshots are read past their end. *)
Lemma history_of_none_accepted :
  revisionLimitOf (mkPlacementObj (pl_meta (ex_placement ex_other))
    (mkPlacementSpec [] (Some ex_other) (psp_Strategy (pl_spec (ex_placement ex_other))) (Some 0%Z) EmptyString)
    (pl_status (ex_placement ex_other))) = 0%Z /\
  match (getOrCreateSchedulingPolicySnapshot (ex_placement ex_other) 0 (ex_world 0)).2 with Panic _ => true | _ => false end = true.
Proof. split; [done|by_evaluation]. Qed.

(** Two masters at an index give neither a list nor an error. *)
Lemma two_masters_no_error : sortResourceSnapshots [ex_master; ex_master] = Ok None.
Proof. by_evaluation. Qed.

(** With no selected cluster the conditions are dropped before Scheduled is set
    again: the time of its transition is new in every round. *)
Definition ex_unpicked : PolicySnapshotObj :=
  mkPolicySnapshot (snap_meta ex_policy_snapshot) (snap_spec ex_policy_snapshot)
    (mkSnapshotStatus 1 [Sample.condition PolicySnapshotScheduled ConditionTrue] []).

Definition ex_report (now : Z) (p : PlacementObj) : PlacementObj :=
  match (setPlacementStatus now Static.in_order p [] ex_unpicked (Some ex_master) (ex_world 0)).2 with
  | Ok (p, _) => p
  | _ => p
  end.

Lemma transition_time_reset :
  let scheduled p := from_option cond_last_transition (-1)%Z
    (getPlacementCondition p ClusterResourcePlacementScheduledConditionType) in
  let first := ex_report 100 (ex_placement (ex_policy 0)) in
  scheduled first = 100%Z /\ scheduled (ex_report 200 first) = 200%Z.
Proof. split; by_evaluation. Qed.
End MemPlacement.

(** ** Selection *)

Module MemSelection.
Import MemApplier.

Definition configMaps : GroupVersionResource := mkGVR EmptyString "v1" "configmaps".

Definition strictResourceOf (k : GroupVersionKind) : outcome GroupVersionResource :=
  if decide (k = NamespaceMetaGVK) then Ok NamespaceGVR
  else if decide (k = coreKind "ConfigMap") then Ok configMaps
  else Err (ErrPlain "no match for the kind").

(** The objects of the work applier's example, with a mapping of two kinds. *)
#[export] Instance strict_objects : ObjectLib := {
  Obj := object;
  getField f o := obj_fields o f;
  setField := MemApplier.set;
  GetAPIVersion := apiVersion;
  ObjectKind := obj_kind;
  DecodeObject := decode;
  EncodeObject o := Ok (encode o);
  RESTMapping := strictResourceOf;
  HashOfObject o := Ok (encode o);
  HashOfStrings l := Ok (String.concat ";" l);
  CompareJSON a b := Ok [];
  ParsePointer p := Ok [p];
  EvalPointer _ o := Ok (obj_data o);
  ParseGroup s := Ok EmptyString;
  BuiltIn _ := Ok true;
  CreateThreeWayJSONMergePatch _ manifest _ := Ok manifest;
  NewPatchMetaFromStruct _ := Ok tt;
  CreateThreeWayStrategicMergePatch _ _ manifest _ := Ok manifest;
  AnnotationsFit _ := true;
  MarshalStatus a b c := Ok (a +:+ b +:+ c);
  MarshalledSize _ := Ok 100%Z;
}.

#[export] Instance strict_laws : ObjectLaws strict_objects.
Proof. destruct ex_object_laws as [H1 H2 H3 H4 H5 H6]. split; [exact H1|exact H2|exact H3|exact H4|exact H5|exact H6]. Qed.

#[export] Instance strict_content : ContentLib strict_objects := {
  NestedString _ _ := None;
  NestedBool _ _ := None;
  RemoveNestedField _ o := o;
  SpecPorts _ := Ok 0%nat;
  DeletePortKey _ _ o := o;
  SecretType _ := Ok "Opaque";
}.

(** Whether a lister of the resource, in a namespace if it is given, has the object. *)
Definition has (gvr : GroupVersionResource) (within : option string) (o : object) : bool :=
  match strictResourceOf (obj_kind o) with
  | Ok g => bool_decide (g = gvr /\ obj_fields o FNamespace = default EmptyString within)
  | _ => false
  end.

#[export] Instance ex_informers : InformerManager strict_objects (list object) := {
  IsClusterScoped k := bool_decide (gvk_Kind k = "Namespace");
  IsInformerSynced _ := true;
  GetNameSpaceScopedResources := [configMaps];
  lister_get gvr within name w :=
    (w, MemApplier.found (find (fun o => has gvr within o && bool_decide (obj_fields o FName = name)) w));
  lister_list gvr within _ w := (w, Ok (filter (fun o => has gvr within o = true) w));
  KindsFor gvr := Ok [coreKind "ConfigMap"];
  IsNoMatchError _ := false;
  ConvertSelector _ := Ok tt;
}.

Lemma has_spec gvr within o :
  has gvr within o = true -> obj_fields o FNamespace = default EmptyString within /\ strictResourceOf (obj_kind o) = Ok gvr.
Proof. unfold has. destruct (strictResourceOf _); try done. by intros [-> ?]%bool_decide_eq_true. Qed.

Lemma strictResourceOf_inj a b gvr : strictResourceOf a = Ok gvr -> strictResourceOf b = Ok gvr -> a = b.
Proof. unfold strictResourceOf. repeat case_decide; intros Ha Hb; first [congruence|rewrite <- Ha in Hb; discriminate Hb]. Qed.

Lemma find_has gvr within name w o :
  MemApplier.found (find (fun o => has gvr within o && bool_decide (obj_fields o FName = name)) w) = Ok o ->
  has gvr within o = true /\ obj_fields o FName = name.
Proof.
  unfold MemApplier.found. destruct (find _ w) eqn:Hf; [|done]. intros [= <-].
  apply find_holds in Hf. apply andb_true_iff in Hf as [H1 H2%bool_decide_eq_true]. done.
Qed.

#[export] Instance ex_lister_laws : ListerLaws.
Proof.
  split.
  - intros gvr within name w o [Hh Hn]%find_has. split; [done|]. by apply has_spec in Hh as [? _].
  - intros gvk gvr within name w o Hm [[_ Hh]%has_spec _]%find_has. by eapply strictResourceOf_inj.
  - intros gvr within sel w objs o [= <-] [Hh _]%list_elem_of_filter. by apply has_spec in Hh as [? _].
  - intros gvk gvr within sel w objs o Hm [= <-] [[_ Hh]%has_spec _]%list_elem_of_filter. by eapply strictResourceOf_inj.
  - done.
Qed.

(** ** A namespace with two config maps, one of them of the system *)

Definition ex_object (kind ns name data : string) : object :=
  MemApplier.set FNamespace ns (MemApplier.set FName name (mkObject (coreKind kind) data noFields)).

Definition ex_namespace : object := ex_object "Namespace" "" "app" "".
Definition ex_settings : object := ex_object "ConfigMap" "app" "settings" "v1".
Definition ex_colors : object := ex_object "ConfigMap" "app" "colors" "red".
Definition ex_root : object := ex_object "ConfigMap" "app" "kube-root-ca.crt" "cert".

Definition ex_selecting : PlacementObj :=
  mkPlacementObj (mkObjectMeta "web" EmptyString ∅ ∅ [] None 1 1)
    (mkPlacementSpec [mkResourceSelector EmptyString "v1" "Namespace" "app" None EmptyString] None
       (mkRolloutStrategy RollingUpdateRolloutStrategyType None None None None) None EmptyString)
    (mkPlacementStatus [] EmptyString [] []).

Definition ex_contents : list string := ["Namespace//app/"; "ConfigMap/app/colors/red"; "ConfigMap/app/settings/v1"].

Definition ex_hub1 : list object := [ex_settings; ex_root; ex_colors; ex_namespace].
(** Later, the cache is in another order, and one object has got a status. *)
Definition ex_touched : object := MemApplier.set FResourceVersion "7" (MemApplier.set FStatus (Some "{}") ex_colors).
Definition ex_hub2 : list object := [ex_namespace; ex_touched; ex_root; ex_settings].

Definition ex_select (w : list object) : outcome (Z * list string * list ResourceIdentifier) :=
  (SelectResourcesForPlacement AllowAll false ex_selecting w).2.


Definition ex_gather (w : list object) : outcome (list object) :=
  (gatherSelectedResource AllowAll false EmptyString "web" (psp_ResourceSelectors (pl_spec ex_selecting)) w).2.

Lemma selection_stable_witness :
  ex_select ex_hub2 = ex_select ex_hub1 /\ match ex_select ex_hub1 with Ok _ => true | _ => false end = true.
Proof.
  split; [|by_evaluation]. unfold ex_select.
  refine (selection_stable (O := strict_objects) AllowAll false ex_selecting ex_hub1 ex_hub2 [ex_namespace; ex_colors; ex_settings]
    [ex_namespace; ex_touched; ex_settings] [ex_namespace; ex_touched; ex_settings] _ _ _ _ _).
  - by_evaluation.
  - by_evaluation.
  - repeat constructor; by_decide.
  - reflexivity.
  - repeat constructor.
Defined.
End MemSelection.
